(* ===== verification/_CoqProject ===== *)
-Q . S2P
Prelude.v
Arith68k.v
Irq.v
Cpu.v
Insn.v
Alu.v
Ea.v
Cycles.v
Interp.v
CpuOk.v
OperandOk.v
InterpOk.v
AluSpec.v
ShiftSpec.v
Ram.v
ControlSpec.v
StepSpec.v
FaultSpec.v
Double.v
Nvram.v
NvramSpec.v
Periph.v
PeriphSpec.v
Ciap.v
CiapSpec.v
CiapTime.v
Ring.v
Audio.v
AudioSpec.v
AudioBounds.v
AudioQueue.v
Input.v
InputSpec.v
Slave.v
SlaveSpec.v
SlaveReply.v
Mcd212.v
McdSpec.v
Disc.v
CrcSpec.v
DiscSpec.v
Loader.v
LoaderSpec.v
Bus.v
BusSpec.v
BoardSpec.v
Video.v
Scanout.v
VideoSpec.v
VideoRows.v
ScanoutSpec.v
VideoRefine.v
Publish.v
PublishSpec.v
Sha256.v
ShaSpec.v
Native.v
NativeTags.v
NativeSpec.v
NativeRun.v
NativeBuilds.v
NativeTargets.v
Job.v
JobSpec.v
MemoryJob.v
MemoryJobSpec.v
DrawingJob.v
DrawingJobSpec.v
ServiceJob.v
ServiceJobSpec.v
Raster.v
RasterSpec.v
Capture.v
CaptureSpec.v
Entries.v
EntriesSpec.v
Seeds.v
SeedsSpec.v
Emit.v
EmitSpec.v
