(* ===== verification/Prelude.v ===== *)
(** * cdirecomp: a verified model of the CD-i runtime and of its disc tools

    cdirecomp recompiles the 68000 code of a CD-i player to C and runs it on
    models of the player's chips.  This library translates the hand-written C of
    the runtime (src/runner/src) and of the recompiler's disc tools
    (src/recompiler/src) into Rocq functions and proves what makes each part
    correct.  The generated code, the instruction decoder and the translator of
    68000 code come from a submodule that is not in the repository and are
    parameters here; the interpreter that runs beside the generated code is in
    it, and is modelled whole.

    ** The program's parts

    - The CPU: the interpreter m68k_interp.c executes one decoded instruction on
      the register file of cdi_runtime.h through the bus, charges its time, and
      lets runtime.c build exception frames and deliver interrupts.
    - The board: mcd212.c owns the clock.  Each quantum of CPU time advances the
      timers (periph.c), the serial gate (slave.c), the CD interface (cdic.c) and
      the battery clock (cdi_nvram.c), then the raster, whose lines run the
      display's control programs.  The devices raise interrupt edges
      (runtime.c), which the CPU consumes.
    - Input: cdi_input.c is a ring shared by the frontend's thread and the
      emulation, which the serial gate samples.
    - Sound: cdi_audio.c decodes the sectors the CD interface hands over into a
      ring of frames, from which the sound thread of the host reads.
    - Generated code: cdi_native.c decides which generated module's code may run
      at an address: it keeps the identities of the modules in memory, the
      epochs of the words they were made from, and the targets found missing.
    - Native jobs: cdi_memory_jobs.c, cdi_drawing_jobs.c and cdi_service_jobs.c
      stand for stretches of the player's firmware.  A job recognises its stretch
      by digest or bytes, keeps every access at its instruction's time, looks at
      the interrupts and the debugger before each replaced instruction, and hands
      the rest to the generated code when it may not go on.
    - Captured display: cdi_raster_jobs.c keeps the layers of a line before they
      are mixed, in rows and frames that the emulation shares by counting with
      the readers of the presentation.
    - The disc tools: disc_parser.c finds files and OS-9 modules on an image;
      cdi_loader_math.h computes the firmware's module checksum natively;
      cdi_sha256.c is the digest by which modules are recognised;
      module_entries.c and module_seeds.c find where a module's code starts, and
      module_emit.c decides which modules are compiled and what the catalogue
      that the runner links may name.

    ** Files and what they model

    Prelude.v holds words, byte memories, the error monad [Mach] and the tactics;
    Double.v the C double, on the Standard Library's executable IEEE 754, with
    the bound on what an addition rounds; Ring.v
    a ring addressed by free-running 32-bit indices, which the button ring and
    the sound ring share.

    - Arith68k.v: m68k_arith.c.
    - Irq.v: the pending-edge words of runtime.c.
    - Cpu.v: the register file, SR, exception frames and interrupt delivery;
      the class [Board] is what the CPU asks of the bus and clock.
    - Insn.v, Ea.v, Alu.v, Cycles.v, Interp.v: m68k_interp.c, operands,
      arithmetic, timing, the instructions, the step and the two run loops.
    - CpuOk.v, OperandOk.v, InterpOk.v: the widths of registers and results, a
      side condition of later theorems, carried through every handler; AluSpec.v,
      ShiftSpec.v, ControlSpec.v, StepSpec.v, FaultSpec.v: the theorems on
      arithmetic, shifts, control flow, steps and faults; Ram.v: memory laws under
      which frames and stacks read back.
    - Nvram.v, NvramSpec.v: cdi_nvram.c, the phantom clock over the SRAM.
    - Periph.v, PeriphSpec.v: periph.c, registers and timers.
    - Ciap.v, CiapSpec.v, CiapTime.v: cdic.c, sectors, buffers, the audio
      processor, and the deferral of device time.
    - Input.v, InputSpec.v: cdi_input.c, as operations and as the atomic steps
      of two threads.
    - Audio.v: cdi_audio.c, the decoder, the ring and the atomic steps of its
      reader and its writer; AudioSpec.v, AudioBounds.v, AudioQueue.v: the
      decoder's recurrences, its C types, and the ring.
    - Slave.v, SlaveSpec.v, SlaveReply.v: slave.c, the channels of the gate, its
      deferred replies and its pointer packets.
    - Mcd212.v, McdSpec.v: mcd212.c, registers, control areas and the raster;
      the class [VideoOps] is what it asks of the pixel pipeline.
    - Video.v: the decoders and the composition of mcd212_video.c; Scanout.v: its
      state and entry points, in the reference build and in the build that reuses
      lines; Publish.v: the end of a field and the readers as atomic steps of two
      threads.  VideoSpec.v, VideoRows.v: rows and the bytes they depend on;
      ScanoutSpec.v: the fused job; VideoRefine.v: the two builds;
      PublishSpec.v: readers and the numbering of pictures.
    - Disc.v, CrcSpec.v, DiscSpec.v: disc_parser.c.
    - Loader.v, LoaderSpec.v: cdi_loader_math.h.
    - Sha256.v, ShaSpec.v: common/cdi_sha256.c, and the standard's digest.
    - Native.v: cdi_native.c, with the catalogue of generated modules a
      parameter; NativeTags.v, NativeSpec.v: tagged words and bindings;
      NativeRun.v: dispatch, resolution and tokens; NativeBuilds.v: the builds
      with and without the bounds of bindings; NativeTargets.v: the ledger of
      missing targets.
    - Job.v, JobSpec.v: what the native jobs share, and one instruction of the
      firmware they stand for; MemoryJob.v, MemoryJobSpec.v: the rectangle fill;
      ServiceJob.v, ServiceJobSpec.v: the process lookup; DrawingJob.v,
      DrawingJobSpec.v: the drawing queue.
    - Raster.v, RasterSpec.v: cdi_raster_jobs.c and its readers; Capture.v,
      CaptureSpec.v: what mcd212_video.c captures of a line.
    - Entries.v, EntriesSpec.v: module_entries.c; Seeds.v, SeedsSpec.v:
      module_seeds.c; Emit.v, EmitSpec.v: module_emit.c.
    - Bus.v, BusSpec.v, BoardSpec.v: cdi_bus.c, the quantum and the idle batches
      of mcd212.c, the pacing of runtime.c and the two parts of main.c that serve
      a stopped or restarted CPU.  The record [Machine] holds every chip once;
      each chip works on its own part through a view.

    ** Reading the model

    A C integer is a [Z] kept in its range by the conversions [u8] to [u64] and
    [i8] to [i32], written where the code converts; a C array is a list or a
    finite map; a struct is a record with the C names; a static of a C file is a
    field of the component's state.  Code that can fail is in [Mach], whose
    exceptions are the program's abort, the unwinding to the run loop, and the
    bus fault.  Calls to another component go through a class or take its state
    as an argument.

    ** What is shown

    - Arithmetic and flags against their mathematical meaning, the shift engine
      against iterated one-bit steps, extended and decimal arithmetic against
      numbers of several limbs and digits.  ASL.L by 31 is the one shift the code
      leaves undefined, and the model fails there.
    - The time of an instruction is bounded; exceptions, calls and stack frames
      come back where they left; stores that fault find the new flags; the run
      loops end.
    - The board as a whole: it instantiates the class [Board]; its RAM satisfies
      the memory laws and is apart from everything else; a batch of idle quanta
      leaves the machine that single quanta would, with the frontend's pump
      between them.
    - Device time: each clock's loop ends; the battery clock keeps time but for
      the rounding of each addition to its phase, which is bounded; the raster
      loses no time; deferring the CD interface's time cannot be observed.
    - Devices keep their promises: buffers the host owns are left alone,
      deferred replies arrive, replies and motion are not lost, registers mirror
      the queues, the button ring is a queue under every interleaving.
    - The raster moves by whole lines and frames, whatever the control programs
      do, and the display controller's fields stay in their C types.
    - Pictures: which lines are decoded inside their row, and the one kind that
      is not; run-length lines decode to their runs; the fused scanout job draws the reference's line; the build that
      reuses lines refines the reference over every run of calls; readers see
      one published field; a content number identifies a picture.
    - Sound: the decoder is the two recurrences of the format, within its C
      types; the frames the reader sees are those the decoder wrote, in order,
      under every interleaving, and the decoder never waits for the reader.
    - Generated code: what is dispatched at an address is the code of a module
      whose bytes are in memory there; resolving through the tags finds what a
      scan of every binding finds; a token is honoured only while the image is
      unchanged; the bounds of bindings cannot be observed; the hashed ledger of
      targets is a linear search.
    - Native jobs: a run of the rectangle fill, or of the process lookup, is a run
      of the interpreter on the firmware instructions whose bytes or digest it
      recognises, up to the return, the hand-over, the interrupt or the failure;
      a segment of the drawing queue that publishes its registers once cannot be
      told from one that updates them at each instruction.
    - The captured display: under every interleaving with the readers no access
      finds freed memory and nothing is left behind; captured spans mix to the
      line drawn.
    - Modules and discs: SHA-256 is the standard's; the checksum recognises whole modules and notices
      damage, the scan is exact, files read as their sectors, listings stay on
      the disc; the native checksum is both the firmware's instructions and the
      scanner's CRC.  Export tables are parsed exactly and inside the module; a
      seed file reads back as its seeds; the emitted catalogue holds only intact
      modules under their own digests, and every module asked for.

    ** Bounds and fuel

    The interpreter's run loops count instructions as the code does.  The
    raster's line loop has fuel, and [raster_loop] fails with [EUndefined] when it
    is spent; the theorem takes as much fuel as whole line periods in the phase,
    and shows that it is enough.  The carry loops of the clocks and the audio
    consumer are given their number of turns by the theorems in the same way.
    A probe of the ledger of targets has a turn for each known target and one
    more, which is shown to be enough.
    A run-length row has a turn for each of its pixels ([run_loop_fuel] shows that
    more change nothing) and the scanout loop a turn for each pixel of the line.
    The fill's loops have a turn more than the low word of their counter, the
    lookup's sixteen for its sixteen operations, and the theorems show both
    enough; the turns of the drawing queue are a parameter, each segment being the
    theorem's subject.  A name of an export has the 255 turns of the code, its
    table a turn for each eight bytes of the module and one more; a seed file a
    line for each of its bytes: both shown to be enough.  Readers hold
    fewer than 2^20 captured frames at once, which keeps the 32-bit counts of
    owners from wrapping.
    The two catch-up loops of a quantum compute their turns from the phase.  A DMA
    transfer that starts another by writing the CD interface's control register is
    followed four deep ([EUndefined] beyond).  Directory loops have one turn per byte, which is shown to be enough; the
    depth and the number of directories are the code's own limits.

    ** Not modelled

    The debugger's sockets and rings (debug_server.c), presentation and windows
    (cdi_gpu.c, cdi_frontend.c, cdi_host_time.c, main.c, player_config.c), the
    mounting of disc images (cdi_media.c), the cosimulation dumps (cosim_state.c,
    the oracle) and the drawing profile: input, output and host state around the
    machine.  The job around the native checksum (cdi_loader_jobs.c), of which
    the arithmetic and the firmware's instructions are modelled and the loop over
    a module's words with its frontier is not.  Of the recompiler, the drivers and
    text output, the ROM parser of its other targets, the vendored TOML parser
    and the configuration read with it, and the translator, whose source is a git
    submodule. *)

From Stdlib Require Import ZArith Lia Bool Btauto.
From stdpp Require Import base tactics numbers list gmap.

Global Set Default Goal Selector "!".
Open Scope Z_scope.

(** [lia] with quotients and remainders by constants. *)
Ltac zlia := Z.div_mod_to_equations; lia.

(** * Machine words

    A C unsigned integer of width w is a [Z] in [0, 2^w); a conversion to the
    type is the reduction modulo 2^w, and a conversion to a signed type is the
    two's complement reading (the behaviour of the compilers the project
    builds with). *)

Definition u8 (x : Z) : Z := x mod 0x100.
Definition u16 (x : Z) : Z := x mod 0x10000.
Definition u32 (x : Z) : Z := x mod 0x100000000.
Definition u64 (x : Z) : Z := x mod 0x10000000000000000.

Definition i8 (x : Z) : Z := (x + 0x80) mod 0x100 - 0x80.
Definition i16 (x : Z) : Z := (x + 0x8000) mod 0x10000 - 0x8000.
Definition i32 (x : Z) : Z := (x + 0x80000000) mod 0x100000000 - 0x80000000.

(** A bound lowered by a second one, when that one applies. *)
Lemma if_min (b : bool) x y :
  (if b && (x <? y) then x else y) = if b then Z.min x y else y.
Proof. destruct b; [|done]. cbn [andb]. destruct (Z.ltb_spec x y); lia. Qed.

(** A bounded integer: [0 <= x < 2^w]. *)
Definition is_word (w x : Z) : Prop := 0 <= x < 2 ^ w.
Abbreviation is_u8 := (is_word 8).
Abbreviation is_u16 := (is_word 16).
Abbreviation is_u32 := (is_word 32).
Abbreviation is_u64 := (is_word 64).

#[export] Instance is_word_dec w x : Decision (is_word w x).
Proof. unfold is_word. apply _. Defined.

(** C truth values: an [int] that is 0 or 1. *)
Definition b2z (b : bool) : Z := if b then 1 else 0.
Definition z2b (x : Z) : bool := negb (x =? 0).

Create HintDb word discriminated.

Lemma u8_range x : is_u8 (u8 x).
Proof. unfold is_word, u8. zlia. Qed.
Lemma u16_range x : is_u16 (u16 x).
Proof. unfold is_word, u16. zlia. Qed.
Lemma u32_range x : is_u32 (u32 x).
Proof. unfold is_word, u32. zlia. Qed.
Lemma u64_range x : is_u64 (u64 x).
Proof. unfold is_word, u64. zlia. Qed.
#[export] Hint Resolve u8_range u16_range u32_range u64_range : word.

Lemma u8_id x : is_u8 x -> u8 x = x.
Proof. unfold is_word, u8. intros. apply Z.mod_small. lia. Qed.
Lemma u16_id x : is_u16 x -> u16 x = x.
Proof. unfold is_word, u16. intros. apply Z.mod_small. lia. Qed.
Lemma u32_id x : is_u32 x -> u32 x = x.
Proof. unfold is_word, u32. intros. apply Z.mod_small. lia. Qed.
Lemma u64_id x : is_u64 x -> u64 x = x.
Proof. unfold is_word, u64. intros. apply Z.mod_small. lia. Qed.

Lemma is_word_mono v w x : v <= w -> is_word v x -> is_word w x.
Proof.
  unfold is_word. intros Hvw [H0 H1]. split; [done|].
  destruct (Z.le_gt_cases 0 v).
  - eapply Z.lt_le_trans; [exact H1|]. apply Z.pow_le_mono_r; lia.
  - rewrite Z.pow_neg_r in H1 by lia. lia.
Qed.

Lemma i8_range x : -0x80 <= i8 x < 0x80.
Proof. unfold i8. zlia. Qed.
Lemma i16_range x : -0x8000 <= i16 x < 0x8000.
Proof. unfold i16. zlia. Qed.
Lemma i32_range x : -0x80000000 <= i32 x < 0x80000000.
Proof. unfold i32. zlia. Qed.

(** Reading a word as signed and back is the identity. *)
Lemma u32_i32 x : u32 (i32 x) = u32 x.
Proof. unfold u32, i32. zlia. Qed.
Lemma u16_i16 x : u16 (i16 x) = u16 x.
Proof. unfold u16, i16. zlia. Qed.
Lemma u8_i8 x : u8 (i8 x) = u8 x.
Proof. unfold u8, i8. zlia. Qed.

(** ** Bit-level reasoning *)

Lemma testbit_mod_pow2 x n i :
  0 <= n -> 0 <= i -> Z.testbit (x mod 2 ^ n) i = (i <? n) && Z.testbit x i.
Proof.
  intros Hn Hi. destruct (Z.ltb_spec i n).
  - by rewrite Z.mod_pow2_bits_low.
  - by rewrite Z.mod_pow2_bits_high by lia.
Qed.

Lemma testbit_word_high w x i : is_word w x -> w <= i -> Z.testbit x i = false.
Proof.
  intros [H0 H1] Hi. destruct (Z.le_gt_cases 0 w) as [Hw|Hw].
  - rewrite <- (Z.mod_small x (2 ^ w)) by lia.
    apply Z.mod_pow2_bits_high. lia.
  - rewrite Z.pow_neg_r in H1 by lia. lia.
Qed.

Lemma testbit_word w x i :
  is_word w x -> Z.testbit x i = (i <? w) && Z.testbit x i.
Proof.
  intros H. destruct (Z.ltb_spec i w); [done|]. by rewrite (testbit_word_high w).
Qed.

Lemma is_word_testbit w x :
  0 <= w -> 0 <= x -> (forall i, w <= i -> Z.testbit x i = false) -> is_word w x.
Proof.
  intros Hw Hx Hb. split; [done|].
  assert (x mod 2 ^ w = x) as <-; [|apply Z.mod_pos_bound; lia].
  apply Z.bits_inj'. intros i Hi. rewrite testbit_mod_pow2 by lia.
  destruct (Z.ltb_spec i w); [done|]. rewrite Hb by lia. done.
Qed.

Lemma land_word_l w x y : is_word w x -> 0 <= w -> is_word w (Z.land x y).
Proof.
  intros Hx Hw. apply is_word_testbit; [done| |].
  - apply Z.land_nonneg. left. apply Hx.
  - intros i Hi. rewrite Z.land_spec, (testbit_word_high w x) by done. done.
Qed.
Lemma land_word_r w x y : is_word w y -> 0 <= w -> is_word w (Z.land x y).
Proof. rewrite Z.land_comm. apply land_word_l. Qed.
Lemma lor_word w x y : is_word w x -> is_word w y -> 0 <= w -> is_word w (Z.lor x y).
Proof.
  intros Hx Hy Hw. apply is_word_testbit; [done| |].
  - apply Z.lor_nonneg. split; [apply Hx|apply Hy].
  - intros i Hi. by rewrite Z.lor_spec, (testbit_word_high w x), (testbit_word_high w y).
Qed.
Lemma lxor_word w x y : is_word w x -> is_word w y -> 0 <= w -> is_word w (Z.lxor x y).
Proof.
  intros Hx Hy Hw. apply is_word_testbit; [done| |].
  - apply Z.lxor_nonneg. destruct Hx, Hy. lia.
  - intros i Hi. by rewrite Z.lxor_spec, (testbit_word_high w x), (testbit_word_high w y).
Qed.
Lemma shiftr_word w x n : is_word w x -> 0 <= n -> is_word w (Z.shiftr x n).
Proof.
  intros [H0 H1] Hn. unfold is_word. rewrite Z.shiftr_div_pow2 by done.
  pose proof (Z.pow_pos_nonneg 2 n ltac:(lia) Hn).
  split; [apply Z.div_pos; lia|].
  eapply Z.le_lt_trans; [|exact H1]. apply Z.div_le_upper_bound; nia.
Qed.

Lemma if_word w (b : bool) x y : is_word w x -> is_word w y -> is_word w (if b then x else y).
Proof. by destruct b. Qed.

#[export] Hint Extern 1 (is_word _ (Z.land _ _)) => apply land_word_r; [|lia] : word.
#[export] Hint Extern 2 (is_word _ (Z.land _ _)) => apply land_word_l; [|lia] : word.
#[export] Hint Extern 1 (is_word _ (Z.lor _ _)) => apply lor_word; [| |lia] : word.
#[export] Hint Extern 1 (is_word _ (Z.lxor _ _)) => apply lxor_word; [| |lia] : word.
#[export] Hint Extern 1 (is_word _ (Z.shiftr _ _)) => apply shiftr_word; [|lia] : word.
#[export] Hint Extern 1 (is_word _ (if _ then _ else _)) => apply if_word : word.
#[export] Hint Extern 3 (is_word _ (u8 _)) =>
  apply (is_word_mono 8); [lia|apply u8_range] : word.
#[export] Hint Extern 3 (is_word _ (u16 _)) =>
  apply (is_word_mono 16); [lia|apply u16_range] : word.
#[export] Hint Extern 3 (is_word _ (u32 _)) =>
  apply (is_word_mono 32); [lia|apply u32_range] : word.
#[export] Hint Extern 2 (is_word _ (Zpos _)) => unfold is_word; lia : word.
#[export] Hint Extern 2 (is_word _ 0) => unfold is_word; lia : word.

(** [word] closes range goals; [bitwise] compares two words bit by bit. *)
Ltac word := solve [eauto 20 with word | unfold is_word in *; lia].

Lemma testbit_pow2 n i : 0 <= n -> Z.testbit (2 ^ n) i = (i =? n).
Proof.
  intros. destruct (Z.eqb_spec i n) as [->|Hne].
  - by apply Z.pow2_bits_true.
  - apply Z.pow2_bits_false. lia.
Qed.

Lemma u8_land x : u8 x = Z.land x 0xFF.
Proof. symmetry. apply (Z.land_ones x 8). lia. Qed.
Lemma u16_land x : u16 x = Z.land x 0xFFFF.
Proof. symmetry. apply (Z.land_ones x 16). lia. Qed.
Lemma u32_land x : u32 x = Z.land x 0xFFFFFFFF.
Proof. symmetry. apply (Z.land_ones x 32). lia. Qed.

Lemma u8_testbit x i : 0 <= i -> Z.testbit (u8 x) i = (i <? 8) && Z.testbit x i.
Proof. apply (testbit_mod_pow2 x 8). lia. Qed.
Lemma u16_testbit x i : 0 <= i -> Z.testbit (u16 x) i = (i <? 16) && Z.testbit x i.
Proof. apply (testbit_mod_pow2 x 16). lia. Qed.
Lemma u32_testbit x i : 0 <= i -> Z.testbit (u32 x) i = (i <? 32) && Z.testbit x i.
Proof. apply (testbit_mod_pow2 x 32). lia. Qed.
Lemma u64_testbit x i : 0 <= i -> Z.testbit (u64 x) i = (i <? 64) && Z.testbit x i.
Proof. apply (testbit_mod_pow2 x 64). lia. Qed.

Lemma word_ext w x y :
  is_word w x -> is_word w y ->
  (forall i, 0 <= i < w -> Z.testbit x i = Z.testbit y i) -> x = y.
Proof.
  intros Hx Hy H. apply Z.bits_inj'. intros i Hi.
  destruct (Z.lt_ge_cases i w); [apply H; lia|].
  by rewrite (testbit_word_high w x), (testbit_word_high w y).
Qed.

Create Rewrite HintDb bits.
Create Rewrite HintDb mem.
#[export] Hint Rewrite Z.land_spec Z.lor_spec Z.lxor_spec Z.ldiff_spec : bits.
#[export] Hint Rewrite Z.shiftl_spec Z.shiftr_spec u8_testbit u16_testbit
  u32_testbit u64_testbit Z.lnot_spec using lia : bits.

(** ** Fields of a word *)
Lemma lor_shiftl_add n hi lo :
  0 <= n -> is_word n lo -> Z.lor (Z.shiftl hi n) lo = hi * 2 ^ n + lo.
Proof.
  intros Hn Hlo. rewrite <- Z.shiftl_mul_pow2 by done.
  assert (Z.land (Z.shiftl hi n) lo = 0) as H0.
  { apply Z.bits_inj'. intros i Hi. autorewrite with bits. rewrite Z.testbit_0_l.
    destruct (Z.lt_ge_cases i n); [by rewrite Z.testbit_neg_r by lia|].
    by rewrite (testbit_word_high n lo), andb_false_r. }
  rewrite Z.add_nocarry_lxor by done. by rewrite Z.lxor_lor.
Qed.

Lemma testbit_land_pow2 x n : 0 <= n -> z2b (Z.land x (2 ^ n)) = Z.testbit x n.
Proof.
  intros Hn. unfold z2b. destruct (Z.eqb_spec (Z.land x (2 ^ n)) 0) as [H0|H0]; cbn.
  - assert (Z.testbit (Z.land x (2 ^ n)) n = false) as Hb by by rewrite H0, Z.testbit_0_l.
    rewrite Z.land_spec, Z.pow2_bits_true, andb_true_r in Hb by done. done.
  - destruct (Z.testbit x n) eqn:E; [done|]. exfalso. apply H0. apply Z.bits_inj'.
    intros i Hi. rewrite Z.land_spec, testbit_pow2, Z.testbit_0_l by done.
    destruct (Z.eqb_spec i n) as [->|]; by rewrite ?E, ?andb_false_r.
Qed.

Lemma testbit_top w x : 0 < w -> is_word w x -> Z.testbit x (w - 1) = (2 ^ (w - 1) <=? x).
Proof.
  intros Hw [H0 H1].
  assert (2 ^ w = 2 * 2 ^ (w - 1)) as Hp.
  { rewrite <- Z.pow_succ_r by lia. f_equal. lia. }
  pose proof (Z.pow_pos_nonneg 2 (w - 1) ltac:(lia) ltac:(lia)).
  assert (x / 2 ^ (w - 1) = if 2 ^ (w - 1) <=? x then 1 else 0) as Hd.
  { destruct (Z.leb_spec (2 ^ (w - 1)) x); symmetry;
      (eapply Z.div_unique with (r := if 2 ^ (w - 1) <=? x then x - 2 ^ (w - 1) else x));
      destruct (Z.leb_spec (2 ^ (w - 1)) x); lia. }
  rewrite Z.testbit_eqb by lia. rewrite Hd. by destruct (_ <=? _).
Qed.

(** Split a goal over the bit index [i], [0 <= i < w] for a numeral [w], into
    one goal per index. *)
Lemma bit_index_step (P : Z -> Prop) n w :
  n < w -> P n -> (forall i, n + 1 <= i < w -> P i) -> forall i, n <= i < w -> P i.
Proof.
  intros Hn HP H i Hi. destruct (Z.eq_dec i n) as [->|Hne]; [done|]. apply H. lia.
Qed.
Lemma bit_index_end (P : Z -> Prop) n : forall i, n <= i < n -> P i.
Proof. intros i Hi. lia. Qed.

Ltac each_bit :=
  cbv beta;
  repeat (first
    [ refine (bit_index_end _ _)
    | refine (bit_index_step _ _ _ _ _ _); [reflexivity| | cbn [Z.add Pos.add Pos.succ]] ]);
  cbv beta.

(** * Byte memories

    A C array of bytes (RAM, ROM, a register aperture) is a finite map from
    offsets to bytes; an offset never written reads 0, as a zero-initialised
    static array does. *)
Abbreviation mem := (gmap Z Z).

Definition mget (m : mem) (a : Z) : Z := default 0 (m !! a).
Definition mset (m : mem) (a v : Z) : mem := <[a := v]> m.

(** [memset]: [n] copies of [v] from offset [lo]. *)
Fixpoint mfill (m : mem) (lo : Z) (n : nat) (v : Z) : mem :=
  match n with
  | O => m
  | S n' => mfill (mset m lo v) (lo + 1) n' v
  end.

(** [memcpy] of a list of bytes to offset [lo]. *)
Fixpoint mstore (m : mem) (lo : Z) (bs : list Z) : mem :=
  match bs with
  | [] => m
  | b :: bs' => mstore (mset m lo b) (lo + 1) bs'
  end.

(** The [n] bytes from offset [lo]. *)
Fixpoint mload (m : mem) (lo : Z) (n : nat) : list Z :=
  match n with
  | O => []
  | S n' => mget m lo :: mload m (lo + 1) n'
  end.

Definition bytes_ok (m : mem) : Prop := forall a, is_u8 (mget m a).

Lemma mget_mset_eq m a v : mget (mset m a v) a = v.
Proof. unfold mget, mset. by rewrite lookup_insert_eq. Qed.
Lemma mget_mset_ne m a b v : a <> b -> mget (mset m a v) b = mget m b.
Proof. intros. unfold mget, mset. by rewrite lookup_insert_ne. Qed.
Lemma mget_mset m a b v : mget (mset m a v) b = if a =? b then v else mget m b.
Proof.
  destruct (Z.eqb_spec a b) as [->|]; [apply mget_mset_eq|by apply mget_mset_ne].
Qed.
Lemma mset_mset m a v w : mset (mset m a v) a w = mset m a w.
Proof. unfold mset. by rewrite insert_insert_eq. Qed.
Lemma mset_comm m a b v w : a <> b -> mset (mset m a v) b w = mset (mset m b w) a v.
Proof. intros. unfold mset. by rewrite insert_insert_ne. Qed.
#[export] Hint Rewrite mget_mset_eq mset_mset : mem.
#[export] Hint Rewrite mget_mset_ne using lia : mem.

Lemma bytes_ok_mset m a v : bytes_ok m -> is_u8 v -> bytes_ok (mset m a v).
Proof. intros Hm Hv b. rewrite mget_mset. destruct (a =? b); auto. Qed.
Lemma bytes_ok_empty : bytes_ok ∅.
Proof. intros a. unfold mget. rewrite lookup_empty. cbn. word. Qed.
Lemma bytes_ok_get m a : bytes_ok m -> is_u8 (mget m a).
Proof. auto. Qed.
#[export] Hint Resolve bytes_ok_mset bytes_ok_empty bytes_ok_get : word.

Lemma mget_mfill m lo n v a :
  mget (mfill m lo n v) a = if (lo <=? a) && (a <? lo + Z.of_nat n) then v else mget m a.
Proof.
  revert m lo. induction n as [|n IH]; intros m lo; cbn [mfill].
  - destruct (Z.leb_spec lo a), (Z.ltb_spec a (lo + Z.of_nat 0)); cbn; done || lia.
  - rewrite IH, mget_mset.
    destruct (Z.eqb_spec lo a), (Z.leb_spec (lo + 1) a), (Z.leb_spec lo a),
      (Z.ltb_spec a (lo + 1 + Z.of_nat n)), (Z.ltb_spec a (lo + Z.of_nat (S n)));
      cbn; done || lia.
Qed.

Lemma mget_mstore m lo bs a :
  mget (mstore m lo bs) a =
  if (lo <=? a) && (a <? lo + Z.of_nat (length bs))
  then nth (Z.to_nat (a - lo)) bs 0 else mget m a.
Proof.
  revert m lo. induction bs as [|b bs IH]; intros m lo; cbn [mstore length].
  - destruct (Z.leb_spec lo a), (Z.ltb_spec a (lo + Z.of_nat 0)); cbn; done || lia.
  - rewrite IH, mget_mset.
    destruct (Z.eqb_spec lo a), (Z.leb_spec (lo + 1) a), (Z.leb_spec lo a),
      (Z.ltb_spec a (lo + 1 + Z.of_nat (length bs))),
      (Z.ltb_spec a (lo + Z.of_nat (S (length bs)))); cbn [andb]; try lia; try done.
    + subst. by rewrite Z.sub_diag.
    + replace (Z.to_nat (a - lo)) with (S (Z.to_nat (a - (lo + 1)))) by lia. done.
Qed.

Lemma length_mload m lo n : length (mload m lo n) = n.
Proof. revert lo. induction n; intros; cbn; congruence. Qed.

Lemma nth_mload m lo n i :
  0 <= i < Z.of_nat n -> nth (Z.to_nat i) (mload m lo n) 0 = mget m (lo + i).
Proof.
  revert lo i. induction n as [|n IH]; intros lo i Hi; [lia|]. cbn [mload].
  destruct (Z.eq_dec i 0) as [->|Hne]; [cbn; by rewrite Z.add_0_r|].
  replace (Z.to_nat i) with (S (Z.to_nat (i - 1))) by lia. cbn [nth].
  rewrite IH by lia. f_equal. lia.
Qed.

Lemma bytes_ok_mfill m lo n v : bytes_ok m -> is_u8 v -> bytes_ok (mfill m lo n v).
Proof. intros Hm Hv a. rewrite mget_mfill. destruct (_ && _); auto. Qed.
Lemma bytes_ok_mstore m lo bs : bytes_ok m -> Forall is_u8 bs -> bytes_ok (mstore m lo bs).
Proof.
  revert m lo. induction bs as [|b bs IH]; intros m lo Hm Hb; cbn; [done|].
  inversion Hb; subst. apply IH; [|done]. by apply bytes_ok_mset.
Qed.
#[export] Hint Resolve bytes_ok_mfill bytes_ok_mstore : word.

(** * Small C arrays as lists, indexed by [Z] *)
Definition lget (l : list Z) (i : Z) : Z := nth (Z.to_nat i) l 0.
Definition lset (l : list Z) (i v : Z) : list Z := <[Z.to_nat i := v]> l.

Lemma length_lset l i v : length (lset l i v) = length l.
Proof. apply length_insert. Qed.
Lemma lget_lset_eq l i v : (Z.to_nat i < length l)%nat -> lget (lset l i v) i = v.
Proof.
  intros H. unfold lget, lset. apply nth_lookup_Some. by apply list_lookup_insert_eq.
Qed.
Lemma lget_lset_ne l i j v : 0 <= i -> 0 <= j -> i <> j -> lget (lset l i v) j = lget l j.
Proof.
  intros. unfold lget, lset. rewrite !nth_lookup, list_lookup_insert_ne; [done|lia].
Qed.
Lemma lset_lset l i v w : lset (lset l i v) i w = lset l i w.
Proof. unfold lset. by rewrite list_insert_insert_eq. Qed.
Lemma Forall_lset (P : Z -> Prop) l i v : Forall P l -> P v -> Forall P (lset l i v).
Proof. intros. unfold lset. by apply Forall_insert. Qed.
Lemma Forall_lget (P : Z -> Prop) l i : Forall P l -> P 0 -> P (lget l i).
Proof.
  intros Hl H0. unfold lget. destruct (nth_in_or_default (Z.to_nat i) l 0) as [Hin| ->]; [|done].
  rewrite Forall_forall in Hl. apply Hl. by apply list_elem_of_In.
Qed.
#[export] Hint Resolve Forall_lset : word.
#[export] Hint Extern 1 (is_word _ (lget _ _)) => apply Forall_lget : word.
#[export] Hint Rewrite length_lset lset_lset : mem.
#[export] Hint Rewrite lget_lset_ne using lia : mem.

(** * Record updates

    [setter ctor r getter v fields] is the record [r] with the field [getter]
    replaced by [v]; [fields] lists the getters of the constructor [ctor]. *)
Ltac build_setter ctor r getter v fields :=
  lazymatch fields with
  | (?rest, ?f) =>
    let h := build_setter ctor r getter v rest in
    match constr:(tt) with
    | _ => let _ := match constr:(tt) with _ => constr_eq f getter end in constr:(h v)
    | _ => constr:(h (f r))
    end
  | tt => constr:(ctor)
  end.
Ltac setter ctor r getter v fields :=
  let fs := eval cbv delta [fields] in fields in
  let t := build_setter ctor r getter v fs in exact t.

(** * An error-state monad

    Every function that may touch the bus runs in [Mach S]: it returns a value
    or leaves by an exception, and the state reached is kept in both cases, as
    a [longjmp] keeps the stores made before it. *)
Inductive exn : Type :=
| EBusFault (addr : Z)   (* bus_fault(): unwinds to the armed landing pad *)
| EIrqUnwind             (* recomp_take_irq(): unwinds to the trampoline *)
| EUndefined             (* what C leaves undefined *)
| EAbort.                (* abort(): the fail-loud path *)

Inductive result (A : Type) : Type :=
| Ok (a : A)
| Exn (e : exn).
Arguments Ok {A} _.
Arguments Exn {A} _.

Definition Mach (S A : Type) : Type := S -> result A * S.

Definition ret {S A} (a : A) : Mach S A := fun s => (Ok a, s).
Definition throw {S A} (e : exn) : Mach S A := fun s => (Exn e, s).
Definition bind {S A B} (m : Mach S A) (k : A -> Mach S B) : Mach S B :=
  fun s => match m s with
           | (Ok a, s') => k a s'
           | (Exn e, s') => (Exn e, s')
           end.
Definition gets {S A} (f : S -> A) : Mach S A := fun s => (Ok (f s), s).
Definition modify {S} (f : S -> S) : Mach S unit := fun s => (Ok tt, f s).
Definition when {S} (b : bool) (m : Mach S unit) : Mach S unit :=
  if b then m else ret tt.

Declare Scope mach_scope.
Delimit Scope mach_scope with mach.
Notation "x <-- m ;; k" := (bind m (fun x => k))
  (at level 95, m at next level, right associativity) : mach_scope.
Notation "'let*' p <-- m ;; k" := (bind m (fun x => match x with p => k end))
  (at level 95, p pattern, m at next level, right associativity) : mach_scope.
Notation "m ;;; k" := (bind m (fun _ => k))
  (at level 95, right associativity) : mach_scope.

(** What a computation promises from every state satisfying [I]: the invariant
    is kept on every path, and a returned value satisfies [Q]. *)
Definition keeps {S A} (I : S -> Prop) (m : Mach S A) (Q : A -> Prop) : Prop :=
  forall s, I s -> I (snd (m s)) /\ match fst (m s) with Ok a => Q a | Exn _ => True end.

Section Keeps.
Context {S : Type} (I : S -> Prop).

Lemma keeps_ret {A} (a : A) (Q : A -> Prop) : Q a -> keeps I (ret a) Q.
Proof. intros HQ s Hs. by cbn. Qed.
Lemma keeps_throw {A} e (Q : A -> Prop) : keeps I (throw e) Q.
Proof. intros s Hs. by cbn. Qed.
Lemma keeps_bind {A B} (m : Mach S A) (k : A -> Mach S B) (Q : A -> Prop) (R : B -> Prop) :
  keeps I m Q -> (forall a, Q a -> keeps I (k a) R) -> keeps I (bind m k) R.
Proof.
  intros Hm Hk s Hs. unfold bind. specialize (Hm s Hs) as [HI HQ].
  destruct (m s) as [[a|e] s']; cbn in *; [by apply Hk|done].
Qed.
Lemma keeps_weaken {A} (m : Mach S A) (Q R : A -> Prop) :
  keeps I m Q -> (forall a, Q a -> R a) -> keeps I m R.
Proof.
  intros Hm HQR s Hs. specialize (Hm s Hs) as [HI HQ]. split; [done|].
  destruct (fst (m s)); auto.
Qed.
Lemma keeps_gets {A} (f : S -> A) (Q : A -> Prop) :
  (forall s, I s -> Q (f s)) -> keeps I (gets f) Q.
Proof. intros H s Hs. cbn. auto. Qed.
Lemma keeps_modify (f : S -> S) (Q : unit -> Prop) :
  Q tt -> (forall s, I s -> I (f s)) -> keeps I (modify f) Q.
Proof. intros HQ H s Hs. cbn. auto. Qed.
Lemma keeps_when b (m : Mach S unit) (Q : unit -> Prop) :
  Q tt -> keeps I m Q -> keeps I (when b m) Q.
Proof. intros HQ H. destruct b; [done|]. by apply keeps_ret. Qed.
Lemma keeps_if {A} (b : bool) (m n : Mach S A) Q :
  keeps I m Q -> keeps I n Q -> keeps I (if b then m else n) Q.
Proof. by destruct b. Qed.
End Keeps.
