(* ===== verification/Arith68k.v ===== *)
(** The 68000 word division of runner/src/m68k_arith.c: quotient, remainder,
    condition codes and the two ways it refuses to write its result. *)

From Stdlib Require Import ZArith Lia.
From stdpp Require Import base tactics numbers.
From S2P Require Import Prelude.
Open Scope Z_scope.

Definition CCR_C : Z := 0x01.
Definition CCR_V : Z := 0x02.
Definition CCR_Z : Z := 0x04.
Definition CCR_N : Z := 0x08.

Inductive M68kDivideStatus : Type :=
| M68K_DIVIDE_OK
| M68K_DIVIDE_BY_ZERO
| M68K_DIVIDE_OVERFLOW.

#[export] Instance M68kDivideStatus_eq_dec : EqDecision M68kDivideStatus.
Proof. solve_decision. Defined.

(** The three outputs: the status, [*packed_result] (the caller's value when
    the division is refused) and [*ccr]. *)
Definition m68k_divide_pack (quotient_bits remainder_bits : Z) : M68kDivideStatus * Z * Z :=
  (M68K_DIVIDE_OK,
   Z.lor (u32 (Z.shiftl remainder_bits 16)) quotient_bits,
   Z.lor (if quotient_bits =? 0 then CCR_Z else 0)
         (if z2b (Z.land quotient_bits 0x8000) then CCR_N else 0)).

Definition m68k_divide_word (dividend divisor : Z) (signed_operation : bool)
    (packed_result : Z) : M68kDivideStatus * Z * Z :=
  if divisor =? 0 then (M68K_DIVIDE_BY_ZERO, packed_result, 0)
  else if signed_operation then
    let quotient := Z.quot (i32 dividend) (i16 divisor) in
    if (quotient <? -32768) || (32767 <? quotient)
    then (M68K_DIVIDE_OVERFLOW, packed_result, Z.lor CCR_N CCR_V)
    else m68k_divide_pack (u16 quotient) (u16 (Z.rem (i32 dividend) (i16 divisor)))
  else
    let quotient := dividend / divisor in
    if 0xFFFF <? quotient
    then (M68K_DIVIDE_OVERFLOW, packed_result, Z.lor CCR_N CCR_V)
    else m68k_divide_pack (u16 quotient) (u16 (dividend mod divisor)).

(** ** Specification *)

(** [q] and [r] are quotient and remainder of the truncated division. *)
Definition divides_as (n d q r : Z) : Prop :=
  n = q * d + r /\ Z.abs r < Z.abs d /\ (r = 0 \/ Z.sgn r = Z.sgn n).

Lemma divides_as_unique n d q r q' r' :
  divides_as n d q r -> divides_as n d q' r' -> q = q' /\ r = r'.
Proof.
  intros (Hn & Hr & Hs) (Hn' & Hr' & Hs').
  assert ((q - q') * d = r' - r) by lia.
  assert (Z.abs (r' - r) < Z.abs d) by lia.
  assert (q - q' = 0) by nia. nia.
Qed.

Lemma divides_as_quot n d : d <> 0 -> divides_as n d (Z.quot n d) (Z.rem n d).
Proof.
  intros Hd. unfold divides_as. split; [|split].
  - rewrite (Z.mul_comm (n ÷ d)). by apply Z.quot_rem.
  - by apply Z.rem_bound_abs.
  - destruct (Z.eq_dec (Z.rem n d) 0) as [H0|H0]; [by left|right].
    by apply Z.rem_sign_nz.
Qed.

Lemma divides_as_div n d : 0 <= n -> 0 < d -> divides_as n d (n / d) (n mod d).
Proof.
  intros Hn Hd. pose proof (Z.mod_pos_bound n d Hd).
  unfold divides_as. split; [|split]; [|lia|].
  - rewrite (Z.mul_comm (n / d)). apply Z.div_mod. lia.
  - destruct (Z.eq_dec (n mod d) 0) as [H0|H0]; [by left|right].
    assert (n <> 0) by (intros ->; by rewrite Z.mod_0_l in H0).
    rewrite !Z.sgn_pos by lia. done.
Qed.

(** The operands as the instruction reads them. *)
Definition operand32 (signed : bool) (x : Z) : Z := if signed then i32 x else x.
Definition operand16 (signed : bool) (x : Z) : Z := if signed then i16 x else x.
Definition fits16 (signed : bool) (q : Z) : Prop :=
  if signed then -0x8000 <= q < 0x8000 else 0 <= q < 0x10000.

Lemma operand16_nonzero signed x : is_u16 x -> x <> 0 -> operand16 signed x <> 0.
Proof. unfold is_word. destruct signed; cbn; unfold i16; zlia. Qed.

(** Reading a packed pair back gives the pair. *)
Lemma pack_high r q : is_u16 r -> is_u16 q -> Z.shiftr (Z.lor (u32 (Z.shiftl r 16)) q) 16 = r.
Proof.
  intros Hr Hq. unfold is_word in Hr.
  rewrite u32_id by (unfold is_word; rewrite Z.shiftl_mul_pow2 by lia; lia).
  rewrite lor_shiftl_add by (done || lia). rewrite Z.shiftr_div_pow2 by lia.
  unfold is_word in Hq. zlia.
Qed.
Lemma pack_low r q : is_u16 r -> is_u16 q -> u16 (Z.lor (u32 (Z.shiftl r 16)) q) = q.
Proof.
  intros Hr Hq. unfold is_word in Hr.
  rewrite u32_id by (unfold is_word; rewrite Z.shiftl_mul_pow2 by lia; lia).
  rewrite lor_shiftl_add by (done || lia). unfold is_word, u16 in *. zlia.
Qed.

Lemma operand16_u16 signed q : fits16 signed q -> operand16 signed (u16 q) = q.
Proof. destruct signed; cbn; unfold i16, u16; zlia. Qed.

Lemma u16_zero signed q : fits16 signed q -> (u16 q =? 0) = (q =? 0).
Proof. destruct signed; cbn; unfold u16; zlia. Qed.

Lemma u16_top signed q :
  fits16 signed q -> z2b (Z.land (u16 q) 0x8000) = if signed then q <? 0 else 0x8000 <=? q.
Proof.
  intros H. change 0x8000 with (2 ^ 15) at 1. rewrite testbit_land_pow2 by lia.
  rewrite (testbit_top 16) by (lia || apply u16_range).
  destruct signed; cbn in *; unfold u16; zlia.
Qed.

(** A remainder of a 16-bit signed divisor, or of a 16-bit unsigned one, fits. *)
Lemma remainder_fits16 signed n d q r :
  is_u16 d -> divides_as n (operand16 signed d) q r -> (signed = false -> 0 <= n) ->
  fits16 signed r.
Proof.
  unfold is_word. intros Hd (_ & Hr & Hs) Hn. destruct signed; cbn in *.
  - pose proof (i16_range d). lia.
  - specialize (Hn eq_refl). lia.
Qed.

(** What the caller may rely on, branch by branch. *)
Definition divide_post (dividend divisor packed : Z) (signed : bool)
    (out : M68kDivideStatus * Z * Z) : Prop :=
  let n := operand32 signed dividend in
  let d := operand16 signed divisor in
  match out with
  | (M68K_DIVIDE_BY_ZERO, p, ccr) => divisor = 0 /\ p = packed /\ ccr = 0
  | (M68K_DIVIDE_OVERFLOW, p, ccr) =>
      divisor <> 0 /\ p = packed /\ ccr = Z.lor CCR_N CCR_V /\
      forall q r, divides_as n d q r -> ~ fits16 signed q
  | (M68K_DIVIDE_OK, p, ccr) =>
      divisor <> 0 /\
      let q := operand16 signed (u16 p) in
      let r := operand16 signed (Z.shiftr p 16) in
      divides_as n d q r /\
      ccr = Z.lor (if q =? 0 then CCR_Z else 0)
                  (if (if signed then q <? 0 else 0x8000 <=? q) then CCR_N else 0)
  end.

Lemma divide_pack_post dividend divisor packed signed q r :
  is_u16 divisor -> divisor <> 0 -> fits16 signed q ->
  divides_as (operand32 signed dividend) (operand16 signed divisor) q r ->
  (signed = false -> 0 <= dividend) ->
  divide_post dividend divisor packed signed (m68k_divide_pack (u16 q) (u16 r)).
Proof.
  intros Hd H0 Hq Hdiv Hn.
  assert (fits16 signed r) as Hr.
  { eapply remainder_fits16; [exact Hd|exact Hdiv|]. intros ->. cbn. auto. }
  unfold divide_post, m68k_divide_pack. cbn zeta. split; [done|].
  rewrite pack_high, pack_low by apply u16_range.
  rewrite !operand16_u16 by done. split; [done|].
  by rewrite (u16_zero signed), (u16_top signed).
Qed.

(** C1. DIVU.W and DIVS.W compute the truncated division: a result is written
    exactly when the quotient fits 16 bits, it then is the pair (remainder,
    quotient) of the operands read at their signedness, with N and Z of the
    quotient; a zero divisor and an overflow leave the destination untouched
    and report their own flags. *)
Theorem m68k_divide_word_correct dividend divisor signed packed :
  is_u32 dividend -> is_u16 divisor ->
  divide_post dividend divisor packed signed
    (m68k_divide_word dividend divisor signed packed).
Proof.
  intros Hn Hd. unfold is_word in Hn. unfold m68k_divide_word.
  destruct (Z.eqb_spec divisor 0) as [->|H0]; [done|].
  pose proof (operand16_nonzero signed divisor Hd H0) as Hd0.
  destruct signed; cbn [operand16 operand32] in *.
  - pose proof (divides_as_quot (i32 dividend) (i16 divisor) Hd0) as Hq.
    destruct ((_ <? _) || _) eqn:E.
    + cbn. split_and!; try done. intros q r Hqr.
      destruct (divides_as_unique _ _ _ _ _ _ Hqr Hq) as [-> _]. lia.
    + apply divide_pack_post; try done. cbn. lia.
  - unfold is_word in Hd. pose proof (divides_as_div dividend divisor ltac:(lia) ltac:(lia)) as Hq.
    destruct (0xFFFF <? _) eqn:E.
    + cbn. split_and!; try done. intros q r Hqr.
      destruct (divides_as_unique _ _ _ _ _ _ Hqr Hq) as [-> _]. lia.
    + apply divide_pack_post; try done; [|cbn; lia].
      cbn. split; [apply Z.div_pos; lia|]. lia.
Qed.

(** DIVS of -7 by 2: quotient -3, remainder -1. *)
Lemma m68k_divide_word_correct_witness :
  divide_post 0xFFFFFFF9 2 0 true (m68k_divide_word 0xFFFFFFF9 2 true 0) /\
  m68k_divide_word 0xFFFFFFF9 2 true 0 = (M68K_DIVIDE_OK, 0xFFFFFFFD, CCR_N).
Proof.
  split; [|reflexivity].
  apply m68k_divide_word_correct; unfold is_word; lia.
Defined.
