(* ===== verification/Irq.v ===== *)
(** Interrupt request lines (runner/src/runtime.c): the external and on-chip
    pending masks, the external vectors the devices program, and the choice of
    the level to deliver. *)

From Stdlib Require Import ZArith Lia Bool.
From stdpp Require Import base tactics numbers list.
From S2P Require Import Prelude.
Open Scope Z_scope.

Record IrqState := mkIrq {
  g_irq_pending : Z;               (* uint32_t, bit n = external level n *)
  s_irq_onchip_pending : Z;        (* uint32_t, bit n = on-chip level n *)
  s_irq_external_vector : list Z;  (* uint8_t[8] *)
}.

Definition irq_reset : IrqState := mkIrq 0 0 (replicate 8 0).

Definition irq_bad_level (level : Z) : bool := (level =? 0) || (7 <? level).

Definition cdi_irq_raise_vector (level vector : Z) (s : IrqState) : IrqState :=
  if irq_bad_level level then s
  else mkIrq (Z.lor (g_irq_pending s) (2 ^ level)) (s_irq_onchip_pending s)
             (lset (s_irq_external_vector s) level vector).

Definition cdi_irq_raise (level : Z) (s : IrqState) : IrqState :=
  if irq_bad_level level then s
  else mkIrq (Z.lor (g_irq_pending s) (2 ^ level)) (s_irq_onchip_pending s)
             (lset (s_irq_external_vector s) level 0).

Definition cdi_irq_clear (level : Z) (s : IrqState) : IrqState :=
  if irq_bad_level level then s
  else mkIrq (Z.land (g_irq_pending s) (Z.lnot (2 ^ level))) (s_irq_onchip_pending s)
             (lset (s_irq_external_vector s) level 0).

Definition cdi_irq_raise_onchip_level (level : Z) (s : IrqState) : IrqState :=
  if irq_bad_level level then s
  else mkIrq (g_irq_pending s) (Z.lor (s_irq_onchip_pending s) (2 ^ level))
             (s_irq_external_vector s).

(** [lir] is the value of the SCC68070 latched-interrupt register,
    [periph_lir()]. *)
Definition cdi_irq_raise_onchip (input lir : Z) (s : IrqState) : IrqState :=
  let level := if input =? 1 then Z.land (Z.shiftr lir 4) 7
               else if input =? 2 then Z.land lir 7 else 0 in
  cdi_irq_raise_onchip_level level s.

Definition recomp_pending_irq_mask (s : IrqState) : Z :=
  Z.lor (g_irq_pending s) (s_irq_onchip_pending s).

(** [for (lvl = 7; lvl >= 1; lvl--) if (mask & (1u << lvl)) return lvl;] *)
Fixpoint highest_level (mask : Z) (lvl : nat) : Z :=
  match lvl with
  | O => 0
  | S below => if Z.testbit mask (Z.of_nat lvl) then Z.of_nat lvl
               else highest_level mask below
  end.

Definition recomp_pending_irq_level (s : IrqState) : Z :=
  highest_level (recomp_pending_irq_mask s) 7.

(** The edge [recomp_take_irq] consumes for [lvl], and the vector it enters:
    on-chip requests have priority and vector 56 + level; an external request
    uses the vector its device programmed, or the autovector 24 + level. *)
Definition irq_onchip (lvl : Z) (s : IrqState) : bool :=
  Z.testbit (s_irq_onchip_pending s) lvl.

Definition irq_consume (lvl : Z) (s : IrqState) : Z * IrqState :=
  if irq_onchip lvl s then
    (u8 (56 + lvl),
     mkIrq (g_irq_pending s) (Z.land (s_irq_onchip_pending s) (Z.lnot (2 ^ lvl)))
           (s_irq_external_vector s))
  else
    let vec := lget (s_irq_external_vector s) lvl in
    (if vec =? 0 then u8 (24 + lvl) else vec,
     mkIrq (Z.land (g_irq_pending s) (Z.lnot (2 ^ lvl))) (s_irq_onchip_pending s)
           (lset (s_irq_external_vector s) lvl 0)).

(** Masked at or below the interrupt priority mask; level 7 is not maskable. *)
Definition irq_deliverable (lvl ipm : Z) : bool :=
  (0 <? lvl) && ((lvl =? 7) || (ipm <? lvl)).

(** ** Invariant *)
Definition irq_ok (s : IrqState) : Prop :=
  is_u32 (g_irq_pending s) /\ is_u32 (s_irq_onchip_pending s) /\
  length (s_irq_external_vector s) = 8%nat /\ Forall is_u8 (s_irq_external_vector s).

Lemma irq_level_word level : irq_bad_level level = false -> 0 <= level -> is_u32 (2 ^ level).
Proof.
  unfold irq_bad_level, is_word. intros H1 H2.
  assert (2 ^ level <= 2 ^ 7) by (apply Z.pow_le_mono_r; lia). lia.
Qed.

Lemma irq_ok_raise_vector level vector s :
  0 <= level -> is_u8 vector -> irq_ok s -> irq_ok (cdi_irq_raise_vector level vector s).
Proof.
  intros Hl Hv (H1 & H2 & H3 & H4). unfold cdi_irq_raise_vector.
  destruct (irq_bad_level level) eqn:E; [done|].
  pose proof (irq_level_word level E Hl). split_and!; cbn; autorewrite with mem; try word; auto.
Qed.

Lemma irq_ok_raise level s : 0 <= level -> irq_ok s -> irq_ok (cdi_irq_raise level s).
Proof. intros. apply (irq_ok_raise_vector level 0); [done|word|done]. Qed.

Lemma irq_ok_clear level s : 0 <= level -> irq_ok s -> irq_ok (cdi_irq_clear level s).
Proof.
  intros Hl (H1 & H2 & H3 & H4). unfold cdi_irq_clear.
  destruct (irq_bad_level level) eqn:E; [done|].
  split_and!; cbn; autorewrite with mem; try word; auto.
Qed.

Lemma irq_ok_raise_onchip_level level s :
  0 <= level -> irq_ok s -> irq_ok (cdi_irq_raise_onchip_level level s).
Proof.
  intros Hl (H1 & H2 & H3 & H4). unfold cdi_irq_raise_onchip_level.
  destruct (irq_bad_level level) eqn:E; [done|].
  pose proof (irq_level_word level E Hl). split_and!; cbn; word || auto.
Qed.

Lemma irq_ok_consume lvl s : 0 <= lvl -> irq_ok s -> irq_ok (snd (irq_consume lvl s)).
Proof.
  intros Hl (H1 & H2 & H3 & H4). unfold irq_consume.
  destruct (irq_onchip lvl s); split_and!; cbn; autorewrite with mem; try word; auto.
Qed.

Lemma irq_consume_vector lvl s :
  0 <= lvl <= 7 -> irq_ok s -> is_u8 (fst (irq_consume lvl s)).
Proof.
  intros Hl (H1 & H2 & H3 & H4). unfold irq_consume.
  destruct (irq_onchip lvl s); cbn; [word|]. destruct (_ =? 0); word.
Qed.

#[export] Hint Resolve irq_ok_raise_vector irq_ok_raise irq_ok_clear
  irq_ok_raise_onchip_level irq_ok_consume irq_consume_vector : word.

Lemma highest_level_spec mask n :
  (highest_level mask n = 0 /\ forall l, 1 <= l <= Z.of_nat n -> Z.testbit mask l = false) \/
  (1 <= highest_level mask n <= Z.of_nat n /\
   Z.testbit mask (highest_level mask n) = true /\
   forall l, highest_level mask n < l <= Z.of_nat n -> Z.testbit mask l = false).
Proof.
  induction n as [|n IH]; cbn [highest_level]; [left; split; [done|lia]|].
  destruct (Z.testbit mask (Z.of_nat (S n))) eqn:E.
  - right. split; [lia|]. split; [done|lia].
  - destruct IH as [[-> H]|(H1 & H2 & H3)].
    + left. split; [done|]. intros l Hl.
      destruct (Z.eq_dec l (Z.of_nat (S n))) as [->|]; [done|]. apply H. lia.
    + right. split; [lia|]. split; [done|]. intros l Hl.
      destruct (Z.eq_dec l (Z.of_nat (S n))) as [->|]; [done|]. apply H3. lia.
Qed.

Lemma recomp_pending_irq_level_range s : 0 <= recomp_pending_irq_level s <= 7.
Proof.
  unfold recomp_pending_irq_level.
  destruct (highest_level_spec (recomp_pending_irq_mask s) 7) as [[-> _]|(H & _)]; lia.
Qed.
