(* ===== verification/Cpu.v ===== *)
(** The CPU state and the runtime services around it (runner/include/cdi_runtime.h,
    runner/src/runtime.c): the register file, the status register with the two
    stack pointers, exception frames, interrupt delivery, STOP and the cycle
    accumulator.  The bus and the board clock are the class [Board], which the
    machine of Bus.v implements. *)

From Stdlib Require Import ZArith Lia Bool.
From stdpp Require Import base tactics numbers list.
From S2P Require Import Prelude Irq.
Open Scope Z_scope.
Open Scope mach_scope.

(** * The programming model *)
Record M68KState := mkCpu {
  regD : list Z;   (* uint32_t D[8] *)
  regA : list Z;   (* uint32_t A[8], A[7] the active stack pointer *)
  SR : Z;          (* uint16_t *)
  PC : Z;          (* uint32_t *)
  USP : Z;         (* the inactive user stack pointer while S = 1 *)
  SSP : Z;         (* the inactive supervisor stack pointer while S = 0 *)
}.

Definition SR_C : Z := 2 ^ 0.
Definition SR_V : Z := 2 ^ 1.
Definition SR_Z : Z := 2 ^ 2.
Definition SR_N : Z := 2 ^ 3.
Definition SR_X : Z := 2 ^ 4.
Definition SR_S : Z := 2 ^ 13.

Definition cpu_reset : M68KState := mkCpu (replicate 8 0) (replicate 8 0) 0 0 0 0.

Definition set_D (i v : Z) (c : M68KState) : M68KState :=
  mkCpu (lset (regD c) i v) (regA c) (SR c) (PC c) (USP c) (SSP c).
Definition set_A (i v : Z) (c : M68KState) : M68KState :=
  mkCpu (regD c) (lset (regA c) i v) (SR c) (PC c) (USP c) (SSP c).
Definition set_SR (v : Z) (c : M68KState) : M68KState :=
  mkCpu (regD c) (regA c) v (PC c) (USP c) (SSP c).
Definition set_PC (v : Z) (c : M68KState) : M68KState :=
  mkCpu (regD c) (regA c) (SR c) v (USP c) (SSP c).
Definition set_USP (v : Z) (c : M68KState) : M68KState :=
  mkCpu (regD c) (regA c) (SR c) (PC c) v (SSP c).

(** Full write of the status register: A7 is exchanged with the shadow of the
    other mode exactly when the S bit changes. *)
Definition m68k_set_sr (new_sr : Z) (c : M68KState) : M68KState :=
  let old := SR c in
  if z2b (Z.land (Z.lxor old new_sr) SR_S) then
    if z2b (Z.land old SR_S)
    then mkCpu (regD c) (lset (regA c) 7 (USP c)) new_sr (PC c) (USP c) (lget (regA c) 7)
    else mkCpu (regD c) (lset (regA c) 7 (SSP c)) new_sr (PC c) (lget (regA c) 7) (SSP c)
  else set_SR new_sr c.

(** * The board interface *)
Class Board (S : Type) : Type := {
  m68k_read8 : Z -> Mach S Z;
  m68k_read16 : Z -> Mach S Z;
  m68k_write8 : Z -> Z -> Mach S unit;
  m68k_write16 : Z -> Z -> Mach S unit;
  g_last_access_addr : S -> Z;
  set_last_access_addr : Z -> S -> S;
  irq_of : S -> IrqState;
  set_irq : IrqState -> S -> S;
  mcd212_tick : Z -> Mach S unit;   (* one device-time quantum *)
}.

Section BoardOps.
Context {S : Type} `{Board S}.

(** The long accessors of cdi_bus.c: two word cycles, then the operand base
    is recorded as the last effective address.  C leaves the order of the two
    reads open; the high word is read first here. *)
Definition m68k_read32 (addr : Z) : Mach S Z :=
  hi <-- m68k_read16 addr;;
  lo <-- m68k_read16 (u32 (addr + 2));;
  modify (set_last_access_addr addr);;;
  ret (Z.lor (Z.shiftl hi 16) lo).

Definition m68k_write32 (addr val : Z) : Mach S unit :=
  m68k_write16 addr (u16 (Z.shiftr val 16));;;
  m68k_write16 (u32 (addr + 2)) (u16 val);;;
  modify (set_last_access_addr addr).
End BoardOps.

(** * The interpreter's world: CPU, runtime globals and the board *)
Record Sys (S : Type) := mkSys {
  g_cpu : M68KState;
  bus : S;
  s_illegal_ea : bool;
  g_halted : bool;
  g_recomp_irq_armed : bool;
  g_fault_opcode : Z;
  g_fault_addr : Z;
  g_cycle_accumulator : Z;
  g_audio_cycle_counter : Z;
  g_m68ki_bad_pc : Z;
  g_m68ki_bad_op : Z;
  g_m68ki_discover : list Z;
}.
Arguments mkSys {S}. Arguments g_cpu {S}. Arguments bus {S}.
Arguments s_illegal_ea {S}. Arguments g_halted {S}. Arguments g_recomp_irq_armed {S}.
Arguments g_fault_opcode {S}. Arguments g_fault_addr {S}.
Arguments g_cycle_accumulator {S}. Arguments g_audio_cycle_counter {S}.
Arguments g_m68ki_bad_pc {S}. Arguments g_m68ki_bad_op {S}. Arguments g_m68ki_discover {S}.

Section Setters.
Context {S : Type}.
Definition with_cpu (f : M68KState -> M68KState) (s : Sys S) : Sys S :=
  mkSys (f (g_cpu s)) (bus s) (s_illegal_ea s) (g_halted s) (g_recomp_irq_armed s)
    (g_fault_opcode s) (g_fault_addr s) (g_cycle_accumulator s) (g_audio_cycle_counter s)
    (g_m68ki_bad_pc s) (g_m68ki_bad_op s) (g_m68ki_discover s).
Definition set_bus (b : S) (s : Sys S) : Sys S :=
  mkSys (g_cpu s) b (s_illegal_ea s) (g_halted s) (g_recomp_irq_armed s)
    (g_fault_opcode s) (g_fault_addr s) (g_cycle_accumulator s) (g_audio_cycle_counter s)
    (g_m68ki_bad_pc s) (g_m68ki_bad_op s) (g_m68ki_discover s).
Definition set_illegal_ea (b : bool) (s : Sys S) : Sys S :=
  mkSys (g_cpu s) (bus s) b (g_halted s) (g_recomp_irq_armed s)
    (g_fault_opcode s) (g_fault_addr s) (g_cycle_accumulator s) (g_audio_cycle_counter s)
    (g_m68ki_bad_pc s) (g_m68ki_bad_op s) (g_m68ki_discover s).
Definition set_halted (b : bool) (s : Sys S) : Sys S :=
  mkSys (g_cpu s) (bus s) (s_illegal_ea s) b (g_recomp_irq_armed s)
    (g_fault_opcode s) (g_fault_addr s) (g_cycle_accumulator s) (g_audio_cycle_counter s)
    (g_m68ki_bad_pc s) (g_m68ki_bad_op s) (g_m68ki_discover s).
Definition set_fault (opcode addr : Z) (s : Sys S) : Sys S :=
  mkSys (g_cpu s) (bus s) (s_illegal_ea s) (g_halted s) (g_recomp_irq_armed s)
    opcode addr (g_cycle_accumulator s) (g_audio_cycle_counter s)
    (g_m68ki_bad_pc s) (g_m68ki_bad_op s) (g_m68ki_discover s).
Definition set_cycles (acc audio : Z) (s : Sys S) : Sys S :=
  mkSys (g_cpu s) (bus s) (s_illegal_ea s) (g_halted s) (g_recomp_irq_armed s)
    (g_fault_opcode s) (g_fault_addr s) acc audio
    (g_m68ki_bad_pc s) (g_m68ki_bad_op s) (g_m68ki_discover s).
Definition set_bad (pc op : Z) (s : Sys S) : Sys S :=
  mkSys (g_cpu s) (bus s) (s_illegal_ea s) (g_halted s) (g_recomp_irq_armed s)
    (g_fault_opcode s) (g_fault_addr s) (g_cycle_accumulator s) (g_audio_cycle_counter s)
    pc op (g_m68ki_discover s).
Definition set_discover (l : list Z) (s : Sys S) : Sys S :=
  mkSys (g_cpu s) (bus s) (s_illegal_ea s) (g_halted s) (g_recomp_irq_armed s)
    (g_fault_opcode s) (g_fault_addr s) (g_cycle_accumulator s) (g_audio_cycle_counter s)
    (g_m68ki_bad_pc s) (g_m68ki_bad_op s) l.
End Setters.

Section Runtime.
Context {S : Type} `{Board S}.

(** A bus operation performed by the CPU. *)
Definition on_bus {A} (m : Mach S A) : Mach (Sys S) A :=
  fun s => let '(r, b) := m (bus s) in (r, set_bus b s).

Definition upd_cpu (f : M68KState -> M68KState) : Mach (Sys S) unit := modify (with_cpu f).
Definition getD (i : Z) : Mach (Sys S) Z := gets (fun s => lget (regD (g_cpu s)) i).
Definition getA (i : Z) : Mach (Sys S) Z := gets (fun s => lget (regA (g_cpu s)) i).
Definition getSR : Mach (Sys S) Z := gets (fun s => SR (g_cpu s)).
Definition putD (i v : Z) : Mach (Sys S) unit := upd_cpu (set_D i v).
Definition putA (i v : Z) : Mach (Sys S) unit := upd_cpu (set_A i v).
Definition putSR (v : Z) : Mach (Sys S) unit := upd_cpu (set_SR v).

(** Cycle accounting: drain the accumulated cycles into the board. *)
Definition glue_check_vblank : Mach (Sys S) unit :=
  acc <-- gets g_cycle_accumulator;;
  on_bus (mcd212_tick acc);;;
  modify (fun s => set_cycles 0 (g_audio_cycle_counter s) s).

Definition runtime_defer_exception_cycles (cycles : Z) : Mach (Sys S) unit :=
  acc <-- gets g_cycle_accumulator;;
  when (negb (acc =? 0)) glue_check_vblank;;;
  modify (fun s => set_cycles cycles (u32 (g_audio_cycle_counter s + cycles)) s).

Definition genesis_stop_until_interrupt (sr_imm : Z) : Mach (Sys S) unit :=
  upd_cpu (m68k_set_sr sr_imm);;;
  modify (set_halted true).

(** SCC68070 exception entry: the frame is built upwards from the reserved
    stack space, then the handler is loaded from the vector table. *)
Definition access_fault (vec : Z) : bool := (vec =? 2) || (vec =? 3).

Definition build_exception_frame (vec : Z) : Mach (Sys S) Z :=
  tpf <-- gets (fun s => g_last_access_addr (bus s));;
  sr <-- getSR;;
  upd_cpu (m68k_set_sr (Z.lor sr SR_S));;;
  a7 <-- getA 7;;
  let frame := u32 (a7 - (if access_fault vec then 34 else 8)) in
  putA 7 frame;;;
  on_bus (m68k_write16 (u32 (frame + 0)) sr);;;
  pc <-- gets (fun s => PC (g_cpu s));;
  on_bus (m68k_write32 (u32 (frame + 2)) pc);;;
  on_bus (m68k_write16 (u32 (frame + 6))
            (u16 (Z.lor (if access_fault vec then 0xF000 else 0) (u16 (Z.shiftl vec 2)))));;;
  op <-- gets g_fault_opcode;;
  when (access_fault vec)
    (on_bus (m68k_write16 (u32 (frame + 8)) 0);;;
     on_bus (m68k_write16 (u32 (frame + 10)) 0);;;
     on_bus (m68k_write16 (u32 (frame + 12)) 0);;;
     on_bus (m68k_write16 (u32 (frame + 14)) 0);;;
     on_bus (m68k_write32 (u32 (frame + 16)) 0);;;
     on_bus (m68k_write32 (u32 (frame + 20)) tpf);;;
     on_bus (m68k_write32 (u32 (frame + 24)) 0);;;
     on_bus (m68k_write16 (u32 (frame + 28)) op);;;
     on_bus (m68k_write16 (u32 (frame + 30)) op);;;
     on_bus (m68k_write16 (u32 (frame + 32)) 0));;;
  handler <-- on_bus (m68k_read32 (u32 (Z.shiftl vec 2)));;
  upd_cpu (set_PC handler);;;
  ret handler.

Definition m68k_raise_exception_frame (vec : Z) : Mach (Sys S) unit :=
  build_exception_frame vec;;; ret tt.

(** Interrupt delivery at an instruction boundary; it unwinds to the
    trampoline when an interrupt is taken. *)
Definition recomp_take_irq : Mach (Sys S) unit :=
  irq <-- gets (fun s => irq_of (bus s));;
  let lvl := recomp_pending_irq_level irq in
  sr <-- getSR;;
  armed <-- gets g_recomp_irq_armed;;
  when (irq_deliverable lvl (Z.land (Z.shiftr sr 8) 7) && armed)
    (let '(vec, irq') := irq_consume lvl irq in
     modify (fun s => set_bus (set_irq irq' (bus s)) s);;;
     modify (set_halted false);;;
     build_exception_frame vec;;;
     runtime_defer_exception_cycles 65;;;
     throw EIrqUnwind).

(** JSR/BSR return-address push of generated code. *)
Definition recomp_push_return (ret_addr : Z) : Mach (Sys S) unit :=
  a7 <-- getA 7;;
  putA 7 (u32 (a7 - 4));;;
  sp <-- getA 7;;
  on_bus (m68k_write32 sp (Z.land ret_addr 0xFFFFFF)).
End Runtime.
