(* ===== verification/Insn.v ===== *)
(** Decoded instructions as the interpreter consumes them
    (runner/src/m68k_interp.c).  The decoder itself is not part of the
    repository (a submodule); its output type [M68KInstr] is given here by the
    fields the interpreter reads, and the decoder is a parameter of the
    interpreter. *)

From Stdlib Require Import ZArith Lia Bool.
From stdpp Require Import base tactics numbers list.
From S2P Require Import Prelude.
Open Scope Z_scope.

Inductive M68KSize : Type := M68K_SIZE_B | M68K_SIZE_W | M68K_SIZE_L.

Inductive M68KMnemonic : Type :=
| MN_NOP | MN_MOVE | MN_MOVEA | MN_MOVEQ | MN_LEA | MN_PEA | MN_TST | MN_CLR
| MN_EXT | MN_SWAP | MN_EXG | MN_ADD | MN_SUB | MN_ADDA | MN_SUBA | MN_CMP
| MN_CMPA | MN_CMPM | MN_AND | MN_OR | MN_EOR | MN_ADDQ | MN_SUBQ | MN_ADDI
| MN_SUBI | MN_CMPI | MN_ANDI | MN_ORI | MN_EORI | MN_BRA | MN_Bcc | MN_BSR
| MN_DBcc | MN_JMP | MN_JSR | MN_RTS | MN_RTR | MN_STOP | MN_RESET | MN_RTE
| MN_TRAP | MN_LSL | MN_LSR | MN_ASL | MN_ASR | MN_ROL | MN_ROR | MN_ROXL
| MN_ROXR | MN_BTST | MN_BCHG | MN_BCLR | MN_BSET | MN_NEG | MN_NEGX | MN_NOT
| MN_TAS | MN_MULU | MN_MULS | MN_DIVU | MN_DIVS | MN_MOVEM | MN_LINK | MN_UNLK
| MN_Scc | MN_MOVE_SR | MN_MOVE_CCR | MN_MOVE_USP | MN_ADDX | MN_SUBX | MN_ABCD
| MN_SBCD | MN_NBCD | MN_ORI_TO_CCR | MN_ORI_TO_SR | MN_ANDI_TO_CCR
| MN_ANDI_TO_SR | MN_EORI_TO_CCR | MN_EORI_TO_SR | MN_MOVEP | MN_CHK | MN_MOVEC
| MN_TRAPV | MN_ILLEGAL | MN_OTHER.

#[export] Instance M68KSize_eq_dec : EqDecision M68KSize.
Proof. solve_decision. Defined.
#[export] Instance M68KMnemonic_eq_dec : EqDecision M68KMnemonic.
Proof. solve_decision. Defined.

Record M68KInstr := mkInstr {
  i_addr : Z;
  i_byte_length : Z;
  i_words : list Z;         (* opcode word and extension words *)
  i_mnemonic : M68KMnemonic;
  i_size : M68KSize;
  i_src_ea : Z;             (* int: -1 for an immediate shift count *)
  i_dst_ea : Z;
  i_reg : Z;                (* int: -1 for an immediate bit number *)
  i_imm32 : Z;
  i_target_addr : Z;
  i_mem_shift : bool;
  i_predec_mem_form : bool;
  i_dst_is_ea : bool;
}.

Definition word0 (ins : M68KInstr) : Z := lget (i_words ins) 0.

(** What the interpreter relies on: the fields hold values of their types. *)
Record instr_ok (ins : M68KInstr) : Prop := {
  ok_addr : is_u32 (i_addr ins);
  ok_length : is_u32 (i_byte_length ins);
  ok_words : Forall is_u16 (i_words ins);
  ok_imm32 : is_u32 (i_imm32 ins);
  ok_target : is_u32 (i_target_addr ins);
}.

(** ** Sizes *)
Definition szmask (sz : M68KSize) : Z :=
  match sz with M68K_SIZE_B => 0xFF | M68K_SIZE_L => 0xFFFFFFFF | M68K_SIZE_W => 0xFFFF end.
Definition szbits (sz : M68KSize) : Z :=
  match sz with M68K_SIZE_B => 8 | M68K_SIZE_L => 32 | M68K_SIZE_W => 16 end.
Definition szbytes (sz : M68KSize) : Z :=
  match sz with M68K_SIZE_B => 1 | M68K_SIZE_L => 4 | M68K_SIZE_W => 2 end.
Definition keepmask (sz : M68KSize) : Z :=
  match sz with M68K_SIZE_B => 0xFFFFFF00 | M68K_SIZE_W => 0xFFFF0000 | M68K_SIZE_L => 0 end.
(** The sign bit, [1u << (bits - 1)]. *)
Definition szsign (sz : M68KSize) : Z := 2 ^ (szbits sz - 1).

(** ** The extension-word reader *)
Record ExtR := mkExtR { er_wi : Z; er_bp : Z }.

Definition er_init : ExtR := mkExtR 1 2.
Definition er_init_at (wi : Z) : ExtR := mkExtR wi (u32 (wi * 2)).
Definition er_next (ins : M68KInstr) (e : ExtR) : Z * ExtR :=
  (lget (i_words ins) (er_wi e), mkExtR (er_wi e + 1) (u32 (er_bp e + 2))).
Definition er_next_dword (ins : M68KInstr) (e : ExtR) : Z * ExtR :=
  let '(hi, e1) := er_next ins e in
  let '(lo, e2) := er_next ins e1 in
  (Z.lor (u32 (Z.shiftl hi 16)) lo, e2).
Definition er_next_imm (ins : M68KInstr) (e : ExtR) (sz : M68KSize) : Z * ExtR :=
  match sz with
  | M68K_SIZE_L => er_next_dword ins e
  | M68K_SIZE_B => let '(w, e') := er_next ins e in (Z.land w 0xFF, e')
  | M68K_SIZE_W => er_next ins e
  end.

(** ** Lemmas *)
Lemma szmask_ones sz : szmask sz = 2 ^ szbits sz - 1.
Proof. by destruct sz. Qed.
Lemma land_szmask x sz : Z.land x (szmask sz) = x mod 2 ^ szbits sz.
Proof. destruct sz; [apply (Z.land_ones x 8)|apply (Z.land_ones x 16)|apply (Z.land_ones x 32)]; lia. Qed.
Lemma land_szmask_word x sz : is_word (szbits sz) (Z.land x (szmask sz)).
Proof. rewrite land_szmask. unfold is_word. apply Z.mod_pos_bound. by destruct sz. Qed.
Lemma szmask_u32 sz : is_u32 (szmask sz).
Proof. destruct sz; cbn; word. Qed.
Lemma keepmask_u32 sz : is_u32 (keepmask sz).
Proof. destruct sz; cbn; word. Qed.
Lemma szbits_range sz : 8 <= szbits sz <= 32.
Proof. destruct sz; cbn; lia. Qed.
#[export] Hint Resolve land_szmask_word szmask_u32 keepmask_u32 : word.

Lemma word0_u16 ins : instr_ok ins -> is_u16 (word0 ins).
Proof. intros H. unfold word0. apply Forall_lget; [apply H|word]. Qed.
Lemma er_next_u16 ins e : instr_ok ins -> is_u16 (fst (er_next ins e)).
Proof. intros H. cbn. apply Forall_lget; [apply H|word]. Qed.
Lemma er_next_dword_u32 ins e : instr_ok ins -> is_u32 (fst (er_next_dword ins e)).
Proof.
  intros H. cbn. apply lor_word; [word| |lia].
  apply (is_word_mono 16); [lia|]. apply Forall_lget; [apply H|word].
Qed.
Lemma er_next_imm_u32 ins e sz : instr_ok ins -> is_u32 (fst (er_next_imm ins e sz)).
Proof.
  intros H. destruct sz; cbn -[er_next_dword].
  - word.
  - apply (is_word_mono 16); [lia|]. by apply er_next_u16.
  - by apply er_next_dword_u32.
Qed.
#[export] Hint Resolve word0_u16 er_next_u16 er_next_dword_u32 er_next_imm_u32 : word.
