(* ===== verification/Alu.v ===== *)
(** The arithmetic of the interpreter (runner/src/m68k_interp.c): condition
    codes, conditions, shifts and rotates, packed BCD and extended arithmetic,
    as functions of the operand values and the status register. *)

From Stdlib Require Import ZArith Lia Bool.
From stdpp Require Import base tactics numbers list.
From S2P Require Import Prelude Cpu Insn.
Open Scope Z_scope.

(** [if (b) sr |= f;] *)
Definition or_if (b : bool) (f sr : Z) : Z := if b then Z.lor sr f else sr.
(** [sr &= ~f;] *)
Definition clear_bits (f sr : Z) : Z := Z.land sr (Z.lnot f).

(** * Condition codes *)
Definition flags_logic (v : Z) (sz : M68KSize) (sr : Z) : Z :=
  let bits := szbits sz in
  let fv := Z.land v (szmask sz) in
  or_if (z2b (Z.shiftr fv (bits - 1))) SR_N (or_if (fv =? 0) SR_Z (clear_bits 0x0F sr)).

Definition flags_add (a b r : Z) (sz : M68KSize) (sr : Z) : Z :=
  let bits := szbits sz in
  let m := szmask sz in
  let sb := szsign sz in
  let fa := Z.land a m in
  let fb := Z.land b m in
  let fr := Z.land r m in
  let sr := clear_bits 0x1F sr in
  let sr := or_if (fr =? 0) SR_Z sr in
  let sr := or_if (z2b (Z.shiftr fr (bits - 1))) SR_N sr in
  let sr := if m <? fa + fb then Z.lor (Z.lor sr SR_C) SR_X else sr in
  or_if (negb (z2b (Z.land (Z.lxor fa fb) sb)) && z2b (Z.land (Z.lxor fa fr) sb)) SR_V sr.

Definition flags_sub (a b r : Z) (sz : M68KSize) (sr : Z) : Z :=
  let bits := szbits sz in
  let m := szmask sz in
  let sb := szsign sz in
  let fa := Z.land a m in
  let fb := Z.land b m in
  let fr := Z.land r m in
  let sr := clear_bits 0x1F sr in
  let sr := or_if (fr =? 0) SR_Z sr in
  let sr := or_if (z2b (Z.shiftr fr (bits - 1))) SR_N sr in
  let sr := if fa <? fb then Z.lor (Z.lor sr SR_C) SR_X else sr in
  or_if (z2b (Z.land (Z.lxor fa fb) sb) && z2b (Z.land (Z.lxor fa fr) sb)) SR_V sr.

Definition flags_cmp (a b r : Z) (sz : M68KSize) (sr : Z) : Z :=
  let bits := szbits sz in
  let m := szmask sz in
  let sb := szsign sz in
  let fa := Z.land a m in
  let fb := Z.land b m in
  let fr := Z.land r m in
  let sr := clear_bits 0x0F sr in
  let sr := or_if (fr =? 0) SR_Z sr in
  let sr := or_if (z2b (Z.shiftr fr (bits - 1))) SR_N sr in
  let sr := or_if (fa <? fb) SR_C sr in
  or_if (z2b (Z.land (Z.lxor fa fb) sb) && z2b (Z.land (Z.lxor fa fr) sb)) SR_V sr.

Definition flag (n sr : Z) : bool := Z.testbit sr n.

Definition eval_cond (cc sr : Z) : bool :=
  let C := flag 0 sr in
  let V := flag 1 sr in
  let Zf := flag 2 sr in
  let N := flag 3 sr in
  match Z.land cc 0xF with
  | 0x0 => true
  | 0x1 => false
  | 0x2 => negb C && negb Zf
  | 0x3 => C || Zf
  | 0x4 => negb C
  | 0x5 => C
  | 0x6 => negb Zf
  | 0x7 => Zf
  | 0x8 => negb V
  | 0x9 => V
  | 0xA => negb N
  | 0xB => N
  | 0xC => eqb N V
  | 0xD => negb (eqb N V)
  | 0xE => negb Zf && eqb N V
  | 0xF => Zf || negb (eqb N V)
  | _ => false
  end.

Definition sext (v : Z) (sz : M68KSize) : Z :=
  match sz with
  | M68K_SIZE_B => u32 (i8 v)
  | M68K_SIZE_W => u32 (i16 v)
  | M68K_SIZE_L => v
  end.

(** * Shifts and rotates *)
Record ShiftOut := mkShift {
  sh_res : Z; sh_c : Z; sh_v : Z; sh_with_v : bool; sh_touches_x : bool;
}.

(** How the [switch] of [do_shift] ends: with a result, with [return -1], or in
    undefined behaviour, a shift of a 32-bit 1 by 32 places. *)
Inductive ShiftEnd := ShiftDone (o : ShiftOut) | ShiftOther | ShiftUndefined.

Definition shift_switch (mn : M68KMnemonic) (sv bits m cnt sr : Z) (sz : M68KSize)
    : ShiftEnd :=
  match mn with
  | MN_LSL =>
    ShiftDone (mkShift
      (if (0 <? cnt) && (cnt <? bits) then Z.land (u32 (Z.shiftl sv cnt)) m
       else if cnt =? 0 then sv else 0)
      (if (0 <? cnt) && (cnt <=? bits) then Z.land (Z.shiftr sv (bits - cnt)) 1 else 0)
      0 false true)
  | MN_LSR =>
    ShiftDone (mkShift
      (if (0 <? cnt) && (cnt <? bits) then Z.shiftr sv cnt
       else if cnt =? 0 then sv else 0)
      (if (0 <? cnt) && (cnt <=? bits) then Z.land (Z.shiftr sv (cnt - 1)) 1 else 0)
      0 false true)
  | MN_ASL =>
    let out v :=
      ShiftDone (mkShift
        (if (0 <? cnt) && (cnt <? bits) then Z.land (u32 (Z.shiftl sv cnt)) m
         else if cnt =? 0 then sv else 0)
        (if (0 <? cnt) && (cnt <=? bits) then Z.land (Z.shiftr sv (bits - cnt)) 1 else 0)
        v true true) in
    if 0 <? cnt then
      if bits <=? cnt then out (b2z (negb (sv =? 0)))
      else if 32 <=? cnt + 1 then ShiftUndefined   (* 1u << (cnt + 1) *)
      else
        let top := Z.shiftr sv (bits - 1 - cnt) in
        let allm := u32 (u32 (Z.shiftl 1 (cnt + 1)) - 1) in
        out (b2z (negb (top =? 0) && negb (top =? allm)))
    else out 0
  | MN_ASR =>
    let ssv := i32 (sext sv sz) in
    ShiftDone (mkShift
      (if (0 <? cnt) && (cnt <? bits) then Z.land (u32 (Z.shiftr ssv cnt)) m
       else if cnt =? 0 then sv
       else if ssv <? 0 then m else 0)
      (if cnt =? 0 then 0
       else if cnt <? bits then Z.land (Z.shiftr sv (cnt - 1)) 1
       else Z.land (Z.shiftr sv (bits - 1)) 1)
      0 true true)
  | MN_ROL =>
    let cc := Z.rem cnt bits in
    let res := if cc =? 0 then sv
               else Z.land (Z.lor (u32 (Z.shiftl sv cc)) (Z.shiftr sv (bits - cc))) m in
    ShiftDone (mkShift res (if cnt =? 0 then 0 else Z.land res 1) 0 false false)
  | MN_ROR =>
    let cc := Z.rem cnt bits in
    let res := if cc =? 0 then sv
               else Z.land (Z.lor (Z.shiftr sv cc) (u32 (Z.shiftl sv (bits - cc)))) m in
    ShiftDone (mkShift res (if cnt =? 0 then 0 else Z.land (Z.shiftr res (bits - 1)) 1) 0 false false)
  | MN_ROXL | MN_ROXR =>
    let x := Z.land (Z.shiftr sr 4) 1 in
    let period := bits + 1 in
    let cc := Z.rem cnt period in
    let wide := Z.lor sv (u64 (Z.shiftl x bits)) in
    let widemask := u64 (Z.shiftl 1 period) - 1 in
    let rot :=
      if decide (mn = MN_ROXL)
      then Z.land (Z.lor (u64 (Z.shiftl wide cc))
                         (if cc =? 0 then 0 else Z.shiftr wide (period - cc))) widemask
      else Z.land (Z.lor (Z.shiftr wide cc)
                         (if cc =? 0 then 0 else u64 (Z.shiftl wide (period - cc)))) widemask in
    ShiftDone (mkShift (u32 (Z.land rot m)) (u32 (Z.land (Z.shiftr rot bits) 1)) 0 false true)
  | _ => ShiftOther
  end.

(** The status-register tail of [do_shift]. *)
Definition shift_sr (o : ShiftOut) (bits : Z) (zero_reg_count : bool) (sr : Z) : Z :=
  let nz sr := or_if (z2b (Z.land (Z.shiftr (sh_res o) (bits - 1)) 1)) SR_N
                 (or_if (sh_res o =? 0) SR_Z sr) in
  if negb (sh_touches_x o) then or_if (z2b (sh_c o)) SR_C (nz (clear_bits 0x0F sr))
  else if zero_reg_count then nz (clear_bits 0x0F sr)
  else
    let sr := nz (clear_bits 0x1F sr) in
    let sr := if z2b (sh_c o) then Z.lor (Z.lor sr SR_C) SR_X else sr in
    or_if (sh_with_v o && z2b (sh_v o)) SR_V sr.

(** The one-bit shift of a memory word. *)
Definition mem_shift_switch (mn : M68KMnemonic) (sv sr : Z) : ShiftOut :=
  let x := Z.land (Z.shiftr sr 4) 1 in
  match mn with
  | MN_LSL => mkShift (Z.land (Z.shiftl sv 1) 0xFFFF) (Z.land (Z.shiftr sv 15) 1) 0 false true
  | MN_LSR => mkShift (Z.shiftr sv 1) (Z.land sv 1) 0 false true
  | MN_ASL =>
    let res := Z.land (Z.shiftl sv 1) 0xFFFF in
    mkShift res (Z.land (Z.shiftr sv 15) 1)
      (b2z (negb (Z.land sv 0x8000 =? Z.land res 0x8000))) true true
  | MN_ASR => mkShift (Z.land (u32 (Z.shiftr (i16 sv) 1)) 0xFFFF) (Z.land sv 1) 0 true true
  | MN_ROL =>
    mkShift (Z.land (Z.lor (Z.shiftl sv 1) (Z.shiftr sv 15)) 0xFFFF)
      (Z.land (Z.shiftr sv 15) 1) 0 false false
  | MN_ROR =>
    mkShift (Z.land (Z.lor (Z.shiftr sv 1) (Z.shiftl sv 15)) 0xFFFF) (Z.land sv 1) 0 false false
  | MN_ROXL =>
    mkShift (Z.land (Z.lor (Z.shiftl sv 1) x) 0xFFFF) (Z.land (Z.shiftr sv 15) 1) 0 false true
  | _ =>
    mkShift (Z.land (Z.lor (Z.shiftr sv 1) (Z.shiftl x 15)) 0xFFFF) (Z.land sv 1) 0 false true
  end.

Definition mem_shift_sr (o : ShiftOut) (sr : Z) : Z :=
  let nz sr := or_if (z2b (Z.land (sh_res o) 0x8000)) SR_N (or_if (sh_res o =? 0) SR_Z sr) in
  if negb (sh_touches_x o) then or_if (z2b (sh_c o)) SR_C (nz (clear_bits 0x0F sr))
  else
    let sr := nz (clear_bits 0x1F sr) in
    let sr := if z2b (sh_c o) then Z.lor (Z.lor sr SR_C) SR_X else sr in
    or_if (sh_with_v o && z2b (sh_v o)) SR_V sr.

(** * Packed BCD *)
Definition do_bcd_flags (r : Z) (carry : bool) (sr : Z) : Z :=
  let zold := flag 2 sr in
  let sr := clear_bits SR_V sr in
  let sr := if negb (r =? 0) then clear_bits SR_Z sr else or_if zold SR_Z sr in
  let sr := clear_bits (Z.lor (Z.lor SR_C SR_X) SR_N) sr in
  let sr := or_if (z2b (Z.land r 0x80)) SR_N sr in
  if carry then Z.lor (Z.lor sr SR_C) SR_X else sr.

Definition nbcd (a x : Z) : Z * bool :=
  let lo := - Z.land a 0xF - x in
  let adj_lo := if lo <? 0 then 6 else 0 in
  let hi := - Z.shiftr a 4 - (if lo <? 0 then 1 else 0) in
  let adj_hi := if hi <? 0 then 6 else 0 in
  let full := Z.land hi 0xFF * 16 - adj_hi * 16 + Z.land (lo - adj_lo) 0xF in
  (u8 full, hi <? 0).

Definition abcd (a b x : Z) : Z * bool :=
  let lo := Z.land a 0xF + Z.land b 0xF + x in
  let adj_lo := if 9 <? lo then 6 else 0 in
  let hi := Z.shiftr a 4 + Z.shiftr b 4 + Z.shiftr (lo + adj_lo) 4 in
  let adj_hi := if 9 <? hi then 6 else 0 in
  let full := Z.shiftl hi 4 + adj_hi * 16 + Z.land (lo + adj_lo) 0xF in
  (u8 full, z2b (Z.land full 0x100)).

Definition sbcd (a b x : Z) : Z * bool :=
  let lo := Z.land a 0xF - Z.land b 0xF - x in
  let adj_lo := if lo <? 0 then 6 else 0 in
  let hi := Z.shiftr a 4 - Z.shiftr b 4 - (if lo <? 0 then 1 else 0) in
  let adj_hi := if hi <? 0 then 6 else 0 in
  let full := Z.land hi 0xFF * 16 - adj_hi * 16 + Z.land (lo - adj_lo) 0xF in
  (u8 full, hi <? 0).

(** * Extended arithmetic: result and status register of ADDX/SUBX *)
Definition addx_subx (a b sr : Z) (sz : M68KSize) (is_add : bool) : Z * Z :=
  let bits := szbits sz in
  let m := szmask sz in
  let sign := szsign sz in
  let x := Z.land (Z.shiftr sr 4) 1 in
  let full := if is_add then a + b + x else u64 (a - b - x) in
  let r := Z.land (u32 full) m in
  let zold := flag 2 sr in
  let sr := clear_bits 0x1F sr in
  let sr := or_if ((r =? 0) && zold) SR_Z sr in
  let sr := or_if (z2b (Z.shiftr r (bits - 1))) SR_N sr in
  let carry := z2b (if is_add then Z.land (Z.shiftr full bits) 1
                    else Z.land (Z.shiftr full 63) 1) in
  let sr := if carry then Z.lor (Z.lor sr SR_C) SR_X else sr in
  let same := z2b (Z.land (Z.lxor a b) sign) in
  let diff := z2b (Z.land (Z.lxor a r) sign) in
  let v := if is_add then negb same && diff else same && diff in
  (r, or_if v SR_V sr).

(** NEGX. *)
Definition negx (a sr : Z) (sz : M68KSize) : Z * Z :=
  let sign := szsign sz in
  let x := Z.land (Z.shiftr sr 4) 1 in
  let zold := flag 2 sr in
  let subtrahend := a + x in
  let r := Z.land (u32 (u64 (0 - subtrahend))) (szmask sz) in
  let sr := clear_bits 0x1F sr in
  let sr := or_if ((r =? 0) && zold) SR_Z sr in
  let sr := or_if (z2b (Z.land r sign)) SR_N sr in
  let sr := if negb (subtrahend =? 0) then Z.lor sr (Z.lor SR_C SR_X) else sr in
  (r, or_if ((a =? sign) && (x =? 0)) SR_V sr).
