(* ===== verification/Ea.v ===== *)
(** Effective addresses and memory operands of the interpreter
    (runner/src/m68k_interp.c): operand reads and writes with their register
    side effects, control addresses, the stack helpers and the record of call
    targets. *)

From Stdlib Require Import ZArith Lia Bool.
From stdpp Require Import base tactics numbers list.
From S2P Require Import Prelude Cpu Insn Alu.
Open Scope Z_scope.
Open Scope mach_scope.

Definition M68KI_MAX_DISCOVER : nat := 512.

(** [sb], the step of (An)+ and -(An): a byte access through A7 moves by two. *)
Definition ea_step (reg : Z) (sz : M68KSize) : Z :=
  if (reg =? 7) && bool_decide (sz = M68K_SIZE_B) then 2 else szbytes sz.

Definition ea_mode (ea : Z) : Z := Z.land (Z.shiftr ea 3) 7.
Definition ea_reg (ea : Z) : Z := Z.land ea 7.

Section Ea.
Context {S : Type} `{Board S}.

Definition upd_SR (f : Z -> Z) : Mach (Sys S) unit :=
  upd_cpu (fun c => set_SR (f (SR c)) c).

Definition store_dn (reg val : Z) (sz : M68KSize) : Mach (Sys S) unit :=
  match sz with
  | M68K_SIZE_L => putD reg val
  | _ => old <-- getD reg;;
         putD reg (Z.lor (Z.land old (keepmask sz)) (Z.land val (szmask sz)))
  end.

Definition mem_read (sz : M68KSize) (a : Z) : Mach (Sys S) Z :=
  on_bus match sz with
         | M68K_SIZE_B => m68k_read8 a
         | M68K_SIZE_L => m68k_read32 a
         | M68K_SIZE_W => m68k_read16 a
         end.

Definition mem_write (sz : M68KSize) (a v : Z) : Mach (Sys S) unit :=
  on_bus match sz with
         | M68K_SIZE_B => m68k_write8 a (u8 v)
         | M68K_SIZE_L => m68k_write32 a v
         | M68K_SIZE_W => m68k_write16 a (u16 v)
         end.

(** The index register of a brief extension word, sign-extended from a word
    or taken whole ([wide], bit 11). *)
Definition index_register (ext : Z) (wide : bool) : Mach (Sys S) Z :=
  let xreg := Z.land (Z.shiftr ext 12) 7 in
  raw <-- (if Z.testbit ext 15 then getA xreg else getD xreg);;
  ret (if wide then i32 raw else i16 raw).

Definition indexed (base ext : Z) : Mach (Sys S) Z :=
  xv <-- index_register ext (Z.testbit ext 11);;
  ret (u32 (base + xv + i8 (Z.land ext 0xFF))).

Definition read_ea_ex (ins : M68KInstr) (ea : Z) (sz : M68KSize) (er : ExtR) (rmw : bool)
    : Mach (Sys S) (Z * ExtR) :=
  let mode := ea_mode ea in
  let reg := ea_reg ea in
  let sb := ea_step reg sz in
  let from (er' : ExtR) (a : Z) := v <-- mem_read sz a;; ret (v, er') in
  match mode with
  | 0 => v <-- getD reg;; ret (v, er)
  | 1 => v <-- getA reg;; ret (v, er)
  | 2 => a <-- getA reg;; from er a
  | 3 => a <-- getA reg;;
         v <-- mem_read sz a;;
         when (negb rmw) (a' <-- getA reg;; putA reg (u32 (a' + sb)));;;
         ret (v, er)
  | 4 => a <-- getA reg;;
         putA reg (u32 (a - sb));;;
         a' <-- getA reg;; from er a'
  | 5 => let '(d16, er) := er_next ins er in
         a <-- getA reg;; from er (u32 (a + i16 d16))
  | 6 => let '(ext, er) := er_next ins er in
         a <-- getA reg;; t <-- indexed a ext;; from er t
  | _ =>
    match reg with
    | 0 => let '(ext, er) := er_next ins er in from er (u32 (i16 ext))
    | 1 => let '(a, er) := er_next_dword ins er in from er a
    | 2 => let pc := u32 (i_addr ins + er_bp er) in
           let '(d16, er) := er_next ins er in from er (u32 (i32 pc + i16 d16))
    | 3 => let pc := u32 (i_addr ins + er_bp er) in
           let '(ext, er) := er_next ins er in
           t <-- indexed pc ext;; from er t
    | 4 => ret (er_next_imm ins er sz)
    | _ => ret (0, er)
    end
  end.

Definition read_ea ins ea sz er := read_ea_ex ins ea sz er false.

Definition addr_ea (ins : M68KInstr) (ea : Z) (er : ExtR) : Mach (Sys S) Z :=
  let mode := ea_mode ea in
  let reg := ea_reg ea in
  match mode with
  | 2 => getA reg
  | 5 => let '(d16, er) := er_next ins er in a <-- getA reg;; ret (u32 (a + i16 d16))
  | 6 => let '(ext, er) := er_next ins er in a <-- getA reg;; indexed a ext
  | 7 =>
    match reg with
    | 0 => let '(ext, er) := er_next ins er in ret (u32 (i16 ext))
    | 1 => ret (fst (er_next_dword ins er))
    | 2 => let pc := u32 (i_addr ins + er_bp er) in
           let '(d16, er) := er_next ins er in ret (u32 (i32 pc + i16 d16))
    | 3 => let pc := u32 (i_addr ins + er_bp er) in
           let '(ext, er) := er_next ins er in indexed pc ext
    | _ => ret 0
    end
  | _ => ret 0
  end.

Definition write_ea_ex (ins : M68KInstr) (ea : Z) (sz : M68KSize) (er : ExtR)
    (val : Z) (rmw : bool) : Mach (Sys S) unit :=
  let mode := ea_mode ea in
  let reg := ea_reg ea in
  let sb := ea_step reg sz in
  match mode with
  | 0 => store_dn reg val sz
  | 1 => modify (set_illegal_ea true)
  | 2 => a <-- getA reg;; mem_write sz a val
  | 3 => a <-- getA reg;;
         mem_write sz a val;;;
         a' <-- getA reg;; putA reg (u32 (a' + sb))
  | 4 => when (negb rmw) (a <-- getA reg;; putA reg (u32 (a - sb)));;;
         a' <-- getA reg;; mem_write sz a' val
  | 5 => let '(d16, er) := er_next ins er in
         a <-- getA reg;; mem_write sz (u32 (a + i16 d16)) val
  | 6 => let '(ext, er) := er_next ins er in
         a <-- getA reg;; t <-- indexed a ext;; mem_write sz t val
  | _ =>
    match reg with
    | 0 => let '(ext, er) := er_next ins er in mem_write sz (u32 (i16 ext)) val
    | 1 => let '(a, er) := er_next_dword ins er in mem_write sz a val
    | _ => ret tt
    end
  end.

Definition write_ea ins ea sz er val := write_ea_ex ins ea sz er val false.

(** The active stack. *)
Definition push32 (v : Z) : Mach (Sys S) unit :=
  a <-- getA 7;;
  putA 7 (u32 (a - 4));;;
  a' <-- getA 7;; on_bus (m68k_write32 a' v).
Definition pop32 : Mach (Sys S) Z :=
  a <-- getA 7;;
  v <-- on_bus (m68k_read32 a);;
  a' <-- getA 7;; putA 7 (u32 (a' + 4));;;
  ret v.
Definition pop16 : Mach (Sys S) Z :=
  a <-- getA 7;;
  v <-- on_bus (m68k_read16 a);;
  a' <-- getA 7;; putA 7 (u32 (a' + 2));;;
  ret v.

(** Distinct call and jump targets of the run, at most 512. *)
Definition discover (t : Z) : Mach (Sys S) unit :=
  modify (fun s =>
    let t := Z.land t 0xFFFFFF in
    let l := g_m68ki_discover s in
    if bool_decide (t ∈ l) then s
    else if bool_decide (length l < M68KI_MAX_DISCOVER)%nat then set_discover (l ++ [t]) s
    else s).
End Ea.
