(* ===== verification/Cycles.v ===== *)
(** The instruction timing tables (runner/src/m68k_interp.c): the cost of an
    instruction in SCC68070 clock periods, evaluated in the state the
    instruction starts from. *)

From Stdlib Require Import ZArith Lia Bool.
From stdpp Require Import base tactics numbers list.
From S2P Require Import Prelude Cpu Insn Alu.
Open Scope Z_scope.
Open Scope mach_scope.

(** [while (v) { c += v & 1; v >>= 1; }]: a 16-bit word is zero after 16 turns. *)
Fixpoint popcount_loop (fuel : nat) (v c : Z) : Z :=
  match fuel with
  | O => c
  | S fuel' => if v =? 0 then c else popcount_loop fuel' (Z.shiftr v 1) (c + Z.land v 1)
  end.
Definition cyc_popcount16 (v : Z) : Z := popcount_loop 16 v 0.

Definition cyc_ea (ea6 sb : Z) : Z :=
  let mode := Z.land (Z.shiftr ea6 3) 7 in
  let reg := Z.land ea6 7 in
  let isL := sb =? 4 in
  match mode with
  | 0 | 1 => 0
  | 2 => if isL then 8 else 4
  | 3 => if isL then 8 else 4
  | 4 => if isL then 11 else 7
  | 5 => if isL then 15 else 11
  | 6 => if isL then 18 else 14
  | _ =>
    match reg with
    | 0 => if isL then 12 else 8
    | 1 => if isL then 16 else 12
    | 2 => if isL then 15 else 11
    | 3 => if isL then 18 else 14
    | 4 => if isL then 8 else 4
    | _ => 0
    end
  end.

Definition sb_of (sz : M68KSize) : Z :=
  match sz with M68K_SIZE_L => 4 | M68K_SIZE_B => 1 | M68K_SIZE_W => 2 end.

Section Fields.
Context (ins : M68KInstr).
Let op := word0 ins.
Let eamode := Z.land (Z.shiftr op 3) 7.
Let eareg := Z.land op 7.
Let ea6 := Z.land op 0x3F.
Let sb := sb_of (i_size ins).
Let isL := sb =? 4.
Let absolute := (eamode =? 7) && (eareg <=? 1).
Let memory := negb (eamode =? 0).
Let bit (n : Z) : bool := Z.testbit op n.

(** The costs that depend on the instruction alone. *)
Definition cycles_moves (mn : M68KMnemonic) : Z :=
  match mn with
  | MN_MOVE =>
    let dst_ea := Z.lor (Z.shiftl (Z.land (Z.shiftr op 6) 7) 3) (Z.land (Z.shiftr op 9) 7) in
    7 + cyc_ea ea6 sb + cyc_ea dst_ea sb
  | MN_MOVEA => 7 + cyc_ea ea6 sb
  | MN_MOVEQ => 7
  | MN_LEA => (if absolute then 6 else 3) + cyc_ea ea6 2
  | MN_PEA => (if absolute then 13 else 10) + cyc_ea ea6 4
  | _ =>
    let list := lget (i_words ins) 1 in
    let szl := bit 6 in
    let base := (if absolute || (eamode <=? 4) then 19 else 16)
                + (if bit 10 then 3 else 0) + (if szl then -4 else 0) in
    base + cyc_ea ea6 (if szl then 4 else 2)
    + cyc_popcount16 list * (if szl then 11 else 7)
  end.

Definition cycles_alu (mn : M68KMnemonic) : Z :=
  match mn with
  | MN_ADD | MN_SUB | MN_AND | MN_OR =>
    7 + cyc_ea ea6 sb + (if bit 8 then if isL then 8 else 4 else 0)
  | MN_EOR => 7 + cyc_ea ea6 sb + (if memory then if isL then 8 else 4 else 0)
  | MN_CMP => 7 + cyc_ea ea6 sb
  | MN_ADDA | MN_SUBA | MN_CMPA => 7 + cyc_ea ea6 (if bit 8 then 4 else 2)
  | MN_ADDQ | MN_SUBQ =>
    if eamode =? 1 then 7
    else 7 + cyc_ea ea6 sb + (if memory then if isL then 8 else 4 else 0)
  | MN_ADDI | MN_SUBI =>
    14 + cyc_ea ea6 sb + (if memory then if isL then 12 else 4 else if isL then 4 else 0)
  | MN_CMPI => 14 + cyc_ea ea6 sb + (if isL then 4 else 0)
  | MN_ANDI | MN_EORI =>
    cyc_ea ea6 sb + (if isL then if memory then 8 else 4 else 0) + (if memory then 18 else 14)
  | _ =>
    14 + cyc_ea ea6 sb + (if isL then if memory then 8 else 4 else 0) + (if memory then 4 else 0)
  end.

Definition cycles_unary (mn : M68KMnemonic) : Z :=
  match mn with
  | MN_TST | MN_CLR => 7 + cyc_ea ea6 sb
  | MN_NEG | MN_NEGX | MN_NOT =>
    7 + cyc_ea ea6 sb + (if memory then if isL then 8 else 4 else 0)
  | MN_EXT | MN_SWAP => 7
  | MN_NBCD => (if memory then 14 else 10) + cyc_ea ea6 1
  | MN_TAS => 10 + cyc_ea ea6 1 + (if memory then 1 else 0)
  | _ => (if memory then 17 else 13) + cyc_ea ea6 1
  end.

Definition cycles_fixed (mn : M68KMnemonic) : Z :=
  match mn with
  | MN_MULS | MN_MULU => 76 + cyc_ea ea6 2
  | MN_DIVS => 169 + cyc_ea ea6 2
  | MN_DIVU => 130 + cyc_ea ea6 2
  | MN_BTST => 7 + (if bit 8 then 0 else 7) + (if memory then cyc_ea ea6 1 else 0)
  | MN_BCHG | MN_BCLR | MN_BSET =>
    10 + (if bit 8 then 0 else 7) + (if memory then cyc_ea ea6 1 + 4 else 0)
  | MN_ABCD | MN_SBCD => if i_predec_mem_form ins then 31 else 10
  | MN_ADDX | MN_SUBX => if i_predec_mem_form ins then if isL then 40 else 28 else 7
  | MN_LINK => 25
  | MN_UNLK => 15
  | MN_EXG => 13
  | MN_MOVE_USP => 7
  | MN_MOVEP => if bit 7 then if bit 6 then 39 else 25 else if bit 6 then 36 else 22
  | MN_CHK => 19 + cyc_ea ea6 2
  | MN_MOVE_CCR | MN_MOVE_SR =>
    if i_dst_is_ea ins then (if memory then 11 else 7) + cyc_ea ea6 2 else 10 + cyc_ea ea6 2
  | MN_MOVEC => 12
  | MN_ORI_TO_CCR | MN_ORI_TO_SR | MN_ANDI_TO_CCR | MN_ANDI_TO_SR
  | MN_EORI_TO_CCR | MN_EORI_TO_SR => 14
  | MN_CMPM => if isL then 26 else 18
  | MN_TRAP => 52
  | MN_TRAPV => 10
  | MN_ILLEGAL => 55
  | _ => 14
  end.

(** The costs that read the CPU: conditions, shift counts, frame format. *)
Definition cycles_flow (cpu : M68KState) (mn : M68KMnemonic) : Z :=
  match mn with
  | MN_NOP => 7
  | MN_RTS => 15
  | MN_RTR => 22
  | MN_STOP => 13
  | MN_RESET => 154
  | MN_BRA | MN_Bcc => 13 + (if Z.land op 0xFF =? 0 then 1 else 0)
  | MN_BSR => if Z.land op 0xFF =? 0 then 22 else 17
  | MN_DBcc => if eval_cond (Z.land (Z.shiftr op 8) 0xF) (SR cpu) then 14 else 17
  | MN_JMP => (if absolute then 6 else 3) + cyc_ea ea6 1
  | _ => (if absolute then 17 else 14) + cyc_ea ea6 1
  end.

Definition cycles_shift (cpu : M68KState) : Z :=
  if i_mem_shift ins then 14 + cyc_ea ea6 2
  else
    let cnt := Z.land (Z.shiftr op 9) 7 in
    let shift := if bit 5 then lget (regD cpu) cnt mod 64
                 else if negb (cnt =? 0) then cnt else 8 in
    13 + 3 * shift.
End Fields.

Section Cycles.
Context {S : Type} `{Board S}.

Definition m68k_cycles (ins : M68KInstr) : Mach (Sys S) Z :=
  cpu <-- gets g_cpu;;
  match i_mnemonic ins with
  | MN_RTE =>
    fmt <-- on_bus (m68k_read16 (Z.land (u32 (lget (regA cpu) 7 + 6)) 0xFFFFFF));;
    ret (if Z.land fmt 0xF000 =? 0xF000 then 146 else 39)
  | (MN_NOP | MN_RTS | MN_RTR | MN_STOP | MN_RESET | MN_BRA | MN_Bcc | MN_BSR
  | MN_DBcc | MN_JMP | MN_JSR) as mn => ret (cycles_flow ins cpu mn)
  | (MN_MOVE | MN_MOVEA | MN_MOVEQ | MN_LEA | MN_PEA | MN_MOVEM) as mn =>
    ret (cycles_moves ins mn)
  | (MN_ADD | MN_SUB | MN_AND | MN_OR | MN_EOR | MN_CMP | MN_ADDA | MN_SUBA
  | MN_CMPA | MN_ADDQ | MN_SUBQ | MN_ADDI | MN_SUBI | MN_CMPI | MN_ANDI
  | MN_EORI | MN_ORI) as mn => ret (cycles_alu ins mn)
  | (MN_TST | MN_CLR | MN_NEG | MN_NEGX | MN_NOT | MN_EXT | MN_SWAP | MN_NBCD
  | MN_TAS | MN_Scc) as mn => ret (cycles_unary ins mn)
  | MN_LSL | MN_LSR | MN_ASL | MN_ASR | MN_ROL | MN_ROR | MN_ROXL | MN_ROXR =>
    ret (cycles_shift ins cpu)
  | mn => ret (cycles_fixed ins mn)
  end.
End Cycles.
