(* ===== verification/Interp.v ===== *)
(** The 68000 interpreter (runner/src/m68k_interp.c): one definition per group
    of instructions, [exec_one] as their dispatch, [m68k_interp_step] with the
    bus-error landing pad, and the two run loops. *)

From Stdlib Require Import ZArith Lia Bool.
From stdpp Require Import base tactics numbers list.
From S2P Require Import Prelude Arith68k Irq Cpu Insn Alu Ea Cycles.
Open Scope Z_scope.
Open Scope mach_scope.

Inductive M68kiStatus : Type :=
| M68KI_OK | M68KI_HALT_UNIMPL | M68KI_HALT_GUARD | M68KI_HALT_BADADDR | M68KI_REENTER.

#[export] Instance M68kiStatus_eq_dec : EqDecision M68kiStatus.
Proof. solve_decision. Defined.

Section Exec.
Context {S : Type} `{Board S}.

Definition fall (ins : M68KInstr) : Z := u32 (i_addr ins + i_byte_length ins).
Definition opc_dir (ins : M68KInstr) : Z := Z.land (Z.shiftr (word0 ins) 8) 1.
Definition opc_cc (ins : M68KInstr) : Z := Z.land (Z.shiftr (word0 ins) 8) 0xF.

(** [*next_pc = fall; return M68KI_OK;] *)
Definition done (ins : M68KInstr) : Mach (Sys S) (M68kiStatus * Z) :=
  ret (M68KI_OK, fall ins).
Definition jump (pc : Z) : Mach (Sys S) (M68kiStatus * Z) := ret (M68KI_OK, pc).
Definition unimplemented (ins : M68KInstr) : Mach (Sys S) (M68kiStatus * Z) :=
  modify (set_bad (i_addr ins) (word0 ins));;;
  ret (M68KI_HALT_UNIMPL, fall ins).

(** ** Moves *)
Definition exec_move (ins : M68KInstr) :=
  let* (v, er) <-- read_ea ins (i_src_ea ins) (i_size ins) er_init;;
  upd_SR (flags_logic v (i_size ins));;;
  write_ea ins (i_dst_ea ins) (i_size ins) er v;;;
  done ins.

Definition exec_movea (ins : M68KInstr) :=
  let* (v, _) <-- read_ea ins (i_src_ea ins) (i_size ins) er_init;;
  putA (i_reg ins) (sext v (i_size ins));;;
  done ins.

Definition exec_moveq (ins : M68KInstr) :=
  putD (i_reg ins) (u32 (i8 (i_imm32 ins)));;;
  v <-- getD (i_reg ins);;
  upd_SR (flags_logic v M68K_SIZE_L);;;
  done ins.

Definition exec_lea (ins : M68KInstr) :=
  a <-- addr_ea ins (i_src_ea ins) er_init;;
  putA (i_reg ins) a;;;
  done ins.

Definition exec_pea (ins : M68KInstr) :=
  a <-- addr_ea ins (i_src_ea ins) er_init;;
  push32 a;;;
  done ins.

Definition exec_tst (ins : M68KInstr) :=
  let* (v, _) <-- read_ea ins (i_src_ea ins) (i_size ins) er_init;;
  upd_SR (flags_logic v (i_size ins));;;
  done ins.

Definition exec_clr (ins : M68KInstr) :=
  upd_SR (fun sr => u16 (Z.lor (clear_bits 0x0F sr) SR_Z));;;
  write_ea ins (i_src_ea ins) (i_size ins) er_init 0;;;
  done ins.

Definition exec_ext (ins : M68KInstr) :=
  d <-- getD (i_reg ins);;
  match i_size ins with
  | M68K_SIZE_W =>
    let v := u32 (i8 d) in
    store_dn (i_reg ins) v M68K_SIZE_W;;; upd_SR (flags_logic v M68K_SIZE_W)
  | _ =>
    let v := u32 (i16 d) in
    putD (i_reg ins) v;;; upd_SR (flags_logic v M68K_SIZE_L)
  end;;;
  done ins.

Definition exec_swap (ins : M68KInstr) :=
  d <-- getD (i_reg ins);;
  let v := Z.lor (Z.shiftr d 16) (u32 (Z.shiftl d 16)) in
  putD (i_reg ins) v;;;
  upd_SR (flags_logic v M68K_SIZE_L);;;
  done ins.

Definition exec_exg (ins : M68KInstr) :=
  let w := word0 ins in
  let opmode := Z.land (Z.shiftr w 3) 0x1F in
  let rx := Z.land (Z.shiftr w 9) 7 in
  let ry := Z.land w 7 in
  (if opmode =? 0x08 then
     x <-- getD rx;; y <-- getD ry;; putD rx y;;; putD ry x
   else if opmode =? 0x09 then
     x <-- getA rx;; y <-- getA ry;; putA rx y;;; putA ry x
   else
     x <-- getD rx;; y <-- getA ry;; putD rx y;;; putA ry x);;;
  done ins.

(** ** Arithmetic and logic *)

(** The read-modify-write shape: read the destination without its
    post-increment, set the flags, then write it from the saved reader. *)
Definition rmw (ins : M68KInstr) (sz : M68KSize) (er : ExtR)
    (f : Z -> Mach (Sys S) Z) :=
  let* (a, _) <-- read_ea_ex ins (i_src_ea ins) sz er true;;
  r <-- f (Z.land a (szmask sz));;
  write_ea_ex ins (i_src_ea ins) sz er r true;;;
  done ins.

Definition exec_add_sub (ins : M68KInstr) (isadd : bool) :=
  let sz := i_size ins in
  let m := szmask sz in
  let r a b := u32 (if isadd then a + b else a - b) in
  let flags a b := upd_SR ((if isadd then flags_add else flags_sub) a b (r a b) sz) in
  if opc_dir ins =? 0 then
    let* (b0, _) <-- read_ea ins (i_src_ea ins) sz er_init;;
    a0 <-- getD (i_reg ins);;
    let b := Z.land b0 m in
    let a := Z.land a0 m in
    flags a b;;;
    store_dn (i_reg ins) (r a b) sz;;;
    done ins
  else
    rmw ins sz er_init (fun a =>
      b0 <-- getD (i_reg ins);;
      let b := Z.land b0 m in
      flags a b;;; ret (r a b)).

Definition exec_adda_suba (ins : M68KInstr) (isadd : bool) :=
  let* (v0, _) <-- read_ea ins (i_src_ea ins) (i_size ins) er_init;;
  let v := sext v0 (i_size ins) in
  a <-- getA (i_reg ins);;
  putA (i_reg ins) (u32 (if isadd then a + v else a - v));;;
  done ins.

Definition exec_cmp (ins : M68KInstr) :=
  let sz := i_size ins in
  let* (b0, _) <-- read_ea ins (i_src_ea ins) sz er_init;;
  a0 <-- getD (i_reg ins);;
  let b := Z.land b0 (szmask sz) in
  let a := Z.land a0 (szmask sz) in
  upd_SR (flags_cmp a b (u32 (a - b)) sz);;;
  done ins.

Definition exec_cmpa (ins : M68KInstr) :=
  let* (b0, _) <-- read_ea ins (i_src_ea ins) (i_size ins) er_init;;
  let b := sext b0 (i_size ins) in
  a <-- getA (i_reg ins);;
  upd_SR (flags_cmp a b (u32 (a - b)) M68K_SIZE_L);;;
  done ins.

Definition exec_cmpm (ins : M68KInstr) :=
  let sz := i_size ins in
  let m := szmask sz in
  let ay := ea_reg (i_src_ea ins) in
  let ax := i_reg ins in
  pb <-- getA ay;;
  b0 <-- mem_read sz pb;;
  pb' <-- getA ay;;
  putA ay (u32 (pb' + ea_step ay sz));;;
  pa <-- getA ax;;
  a0 <-- mem_read sz pa;;
  pa' <-- getA ax;;
  putA ax (u32 (pa' + ea_step ax sz));;;
  let b := Z.land b0 m in
  let a := Z.land a0 m in
  upd_SR (flags_cmp a b (u32 (a - b)) sz);;;
  done ins.

Definition exec_and_or (ins : M68KInstr) (isand : bool) :=
  let sz := i_size ins in
  let m := szmask sz in
  let r a b := if isand then Z.land a b else Z.lor a b in
  if opc_dir ins =? 0 then
    let* (b0, _) <-- read_ea ins (i_src_ea ins) sz er_init;;
    a0 <-- getD (i_reg ins);;
    let v := r (Z.land a0 m) (Z.land b0 m) in
    store_dn (i_reg ins) v sz;;;
    upd_SR (flags_logic v sz);;;
    done ins
  else
    rmw ins sz er_init (fun a =>
      b0 <-- getD (i_reg ins);;
      let v := r a (Z.land b0 m) in
      upd_SR (flags_logic v sz);;; ret v).

Definition exec_eor (ins : M68KInstr) :=
  let sz := i_size ins in
  rmw ins sz er_init (fun a =>
    b0 <-- getD (i_reg ins);;
    let v := Z.lxor a (Z.land b0 (szmask sz)) in
    upd_SR (flags_logic v sz);;; ret v).

Definition exec_addq_subq (ins : M68KInstr) (isadd : bool) :=
  let sz := i_size ins in
  let q := if negb (i_imm32 ins =? 0) then i_imm32 ins else 8 in
  if ea_mode (i_src_ea ins) =? 1 then
    let r := ea_reg (i_src_ea ins) in
    a <-- getA r;;
    putA r (u32 (a + (if isadd then i32 q else - i32 q)));;;
    done ins
  else
    rmw ins sz er_init (fun a =>
      let r := u32 (if isadd then a + q else a - q) in
      upd_SR ((if isadd then flags_add else flags_sub) a q r sz);;; ret r).

Definition immediate_result (mn : M68KMnemonic) (a im : Z) : Z :=
  match mn with
  | MN_ADDI => u32 (a + im)
  | MN_SUBI => u32 (a - im)
  | MN_ANDI => Z.land a im
  | MN_ORI => Z.lor a im
  | _ => Z.lxor a im
  end.
Definition immediate_flags (mn : M68KMnemonic) (a im r : Z) (sz : M68KSize) (sr : Z) : Z :=
  match mn with
  | MN_ADDI => flags_add a im r sz sr
  | MN_SUBI => flags_sub a im r sz sr
  | _ => flags_logic r sz sr
  end.

(** The immediate group: the immediate precedes the extension words of the
    destination. *)
Definition exec_immediate (ins : M68KInstr) :=
  let sz := i_size ins in
  let '(imm, after_imm) := er_next_imm ins er_init sz in
  let im := Z.land imm (szmask sz) in
  if decide (i_mnemonic ins = MN_CMPI) then
    let* (a0, _) <-- read_ea ins (i_src_ea ins) sz after_imm;;
    let a := Z.land a0 (szmask sz) in
    upd_SR (flags_cmp a im (u32 (a - im)) sz);;;
    done ins
  else
    rmw ins sz after_imm (fun a =>
      let r := immediate_result (i_mnemonic ins) a im in
      upd_SR (immediate_flags (i_mnemonic ins) a im r sz);;; ret r).

(** ** Control flow *)
Definition exec_bcc (ins : M68KInstr) :=
  sr <-- getSR;;
  if eval_cond (opc_cc ins) sr then jump (i_target_addr ins) else done ins.

Definition exec_bsr (ins : M68KInstr) :=
  discover (i_target_addr ins);;;
  push32 (fall ins);;;
  jump (i_target_addr ins).

Definition exec_dbcc (ins : M68KInstr) :=
  sr <-- getSR;;
  if eval_cond (opc_cc ins) sr then done ins
  else
    d <-- getD (i_reg ins);;
    let dn := Z.land (u32 (Z.land d 0xFFFF - 1)) 0xFFFF in
    store_dn (i_reg ins) dn M68K_SIZE_W;;;
    (if negb (i16 dn =? -1) then jump (i_target_addr ins) else done ins).

Definition exec_jmp (ins : M68KInstr) :=
  t <-- addr_ea ins (i_src_ea ins) er_init;;
  discover t;;;
  jump t.

Definition exec_jsr (ins : M68KInstr) :=
  t <-- addr_ea ins (i_src_ea ins) er_init;;
  discover t;;;
  push32 (fall ins);;;
  jump t.

Definition exec_rts (ins : M68KInstr) := t <-- pop32;; jump t.

Definition exec_rtr (ins : M68KInstr) :=
  ccr <-- pop16;;
  upd_SR (fun sr => u16 (Z.lor (Z.land sr 0xFF00) (Z.land ccr 0xFF)));;;
  t <-- pop32;; jump t.

Definition exec_stop (ins : M68KInstr) :=
  genesis_stop_until_interrupt (u16 (i_imm32 ins));;;
  done ins.

(** [genesis_reset_devices] has an empty body. *)
Definition exec_reset (ins : M68KInstr) := done ins.

Definition exec_rte (ins : M68KInstr) :=
  w <-- pop16;;
  let new_sr := Z.land w 0xA71F in
  t <-- pop32;;
  fmt <-- pop16;;
  when (Z.land fmt 0xF000 =? 0xF000) (a <-- getA 7;; putA 7 (u32 (a + 26)));;;
  upd_cpu (m68k_set_sr new_sr);;;
  jump t.

Definition exec_trap (ins : M68KInstr) :=
  upd_cpu (set_PC (Z.land (u32 (i_addr ins + i_byte_length ins)) 0xFFFFFF));;;
  m68k_raise_exception_frame (u8 (0x20 + Z.land (i_imm32 ins) 0xF));;;
  pc <-- gets (fun s => PC (g_cpu s));;
  jump pc.

(** ** Shifts and rotates *)

(** [do_shift] on a data register: the count comes from [D[creg]] or from
    the instruction. *)
Definition do_shift (mn : M68KMnemonic) (dreg : Z) (sz : M68KSize)
    (reg_count : bool) (creg imm_count : Z) : Mach (Sys S) bool :=
  dc <-- getD creg;;
  d <-- getD dreg;;
  sr <-- getSR;;
  let bits := szbits sz in
  let m := szmask sz in
  let cnt := if reg_count then Z.land dc 63 else imm_count in
  match shift_switch mn (Z.land d m) bits m cnt sr sz with
  | ShiftOther => ret false
  | ShiftUndefined => throw EUndefined
  | ShiftDone o =>
    store_dn dreg (sh_res o) sz;;;
    upd_SR (shift_sr o bits (reg_count && (cnt =? 0)));;;
    ret true
  end.

Definition exec_shift (ins : M68KInstr) :=
  if i_mem_shift ins then
    rmw ins M68K_SIZE_W er_init (fun sv =>
      sr <-- getSR;;
      let o := mem_shift_switch (i_mnemonic ins) sv sr in
      upd_SR (mem_shift_sr o);;; ret (sh_res o))
  else
    ok <-- do_shift (i_mnemonic ins) (i_reg ins) (i_size ins) (0 <=? i_src_ea ins)
             (i_src_ea ins) (Z.land (i_imm32 ins) 63);;
    if (ok : bool) then done ins else unimplemented ins.

(** ** Bit operations *)
Definition set_Z_from_bit (src bn sr : Z) : Z :=
  u16 (Z.lor (clear_bits SR_Z sr) (if Z.land src (2 ^ bn) =? 0 then SR_Z else 0)).

Definition exec_bit (ins : M68KInstr) :=
  let ea := i_src_ea ins in
  let on_reg := ea_mode ea =? 0 in
  let bit_mask := if on_reg then 31 else 7 in
  let bsz := if on_reg then M68K_SIZE_L else M68K_SIZE_B in
  let is_imm := i_reg ins <? 0 in
  d <-- getD (i_reg ins);;
  let bn := Z.land (if is_imm then i_imm32 ins else d) bit_mask in
  let er := if is_imm then er_init_at 2 else er_init in
  if decide (i_mnemonic ins = MN_BTST) then
    let* (src0, _) <-- read_ea ins ea bsz er;;
    upd_SR (set_Z_from_bit (Z.land src0 (szmask bsz)) bn);;;
    done ins
  else
    rmw ins bsz er (fun src =>
      upd_SR (set_Z_from_bit src bn);;;
      ret (match i_mnemonic ins with
           | MN_BCHG => Z.lxor src (2 ^ bn)
           | MN_BCLR => Z.land src (Z.lnot (2 ^ bn))
           | _ => Z.lor src (2 ^ bn)
           end)).

(** ** NEG, NEGX, NOT, TAS *)
Definition exec_neg (ins : M68KInstr) :=
  let sz := i_size ins in
  let m := szmask sz in
  rmw ins sz er_init (fun a =>
    match i_mnemonic ins with
    | MN_NOT =>
      let r := Z.land (u32 (Z.lnot a)) m in upd_SR (flags_logic r sz);;; ret r
    | MN_NEGX =>
      sr <-- getSR;;
      let '(r, sr') := negx a sr sz in putSR sr';;; ret r
    | _ =>
      let r := Z.land (u32 (0 - a)) m in upd_SR (flags_sub 0 a r sz);;; ret r
    end).

Definition exec_tas (ins : M68KInstr) :=
  rmw ins M68K_SIZE_B er_init (fun v =>
    upd_SR (fun sr =>
      or_if (z2b (Z.shiftr v 7)) SR_N (or_if (v =? 0) SR_Z (clear_bits 0x0F sr)));;;
    ret (Z.lor v 0x80)).

(** ** Multiplication and division *)
Definition exec_mulu (ins : M68KInstr) :=
  let* (s0, _) <-- read_ea ins (i_src_ea ins) M68K_SIZE_W er_init;;
  d <-- getD (i_reg ins);;
  putD (i_reg ins) (u32 (u16 d * Z.land s0 0xFFFF));;;
  v <-- getD (i_reg ins);;
  upd_SR (flags_logic v M68K_SIZE_L);;;
  done ins.

Definition exec_muls (ins : M68KInstr) :=
  let* (s0, _) <-- read_ea ins (i_src_ea ins) M68K_SIZE_W er_init;;
  d <-- getD (i_reg ins);;
  putD (i_reg ins) (u32 (i16 d * i16 (Z.land s0 0xFFFF)));;;
  v <-- getD (i_reg ins);;
  upd_SR (flags_logic v M68K_SIZE_L);;;
  done ins.

Definition do_div (dr src16 : Z) (is_signed : bool) : Mach (Sys S) unit :=
  d <-- getD dr;;
  let '(status, result, ccr) := m68k_divide_word d (u16 src16) is_signed d in
  upd_SR (fun sr =>
    Z.lor (clear_bits (Z.lor (Z.lor (Z.lor SR_N SR_Z) SR_V) SR_C) sr) ccr);;;
  match status with
  | M68K_DIVIDE_OK => putD dr result
  | _ => ret tt
  end.

Definition exec_div (ins : M68KInstr) (is_signed : bool) :=
  let* (s0, _) <-- read_ea ins (i_src_ea ins) M68K_SIZE_W er_init;;
  do_div (i_reg ins) (Z.land s0 0xFFFF) is_signed;;;
  done ins.

(** ** MOVEM *)
Definition movem_bits : list Z := [0;1;2;3;4;5;6;7;8;9;10;11;12;13;14;15].

Definition movem_base (ins : M68KInstr) : Mach (Sys S) Z :=
  let ea := i_src_ea ins in
  let reg := ea_reg ea in
  let er2 := er_init_at 2 in
  match ea_mode ea with
  | 2 | 3 | 4 => getA reg
  | 5 => let '(d16, _) := er_next ins er2 in a <-- getA reg;; ret (u32 (a + i16 d16))
  | 6 =>
    let '(ext, _) := er_next ins er2 in
    xv <-- index_register ext false;;
    a <-- getA reg;;
    ret (u32 (a + xv + i8 (Z.land ext 0xFF)))
  | 7 =>
    match reg with
    | 0 => let '(ext, _) := er_next ins er2 in ret (u32 (i16 ext))
    | 1 => ret (fst (er_next_dword ins er2))
    | 2 => let pc := u32 (i_addr ins + er_bp er2) in
           let '(d16, _) := er_next ins er2 in ret (u32 (i32 pc + i16 d16))
    | 3 => let pc := u32 (i_addr ins + er_bp er2) in
           let '(ext, _) := er_next ins er2 in
           xv <-- index_register ext false;;
           ret (u32 (pc + xv + i8 (Z.land ext 0xFF)))
    | _ => ret 0
    end
  | _ => ret 0
  end.

Definition movem_size (sz : M68KSize) : M68KSize :=
  match sz with M68K_SIZE_L => M68K_SIZE_L | _ => M68K_SIZE_W end.
Definition get_reg (is_an : bool) (i : Z) : Mach (Sys S) Z := if is_an then getA i else getD i.
Definition put_reg (is_an : bool) (i v : Z) : Mach (Sys S) unit :=
  if is_an then putA i v else putD i v.

(** Registers to memory, downwards: mask bit 0 is A7. *)
Fixpoint movem_predec (sz : M68KSize) (mask : Z) (bits : list Z) (mb : Z) : Mach (Sys S) Z :=
  match bits with
  | [] => ret mb
  | bit :: bits' =>
    if negb (Z.testbit mask bit) then movem_predec sz mask bits' mb
    else
      let is_an := bit <? 8 in
      let ridx := if is_an then 7 - bit else 15 - bit in
      rv <-- get_reg is_an ridx;;
      let mb := u32 (mb - szbytes (movem_size sz)) in
      mem_write (movem_size sz) mb rv;;;
      movem_predec sz mask bits' mb
  end.

(** Registers to memory, upwards: mask bit 0 is D0. *)
Fixpoint movem_store (sz : M68KSize) (mask : Z) (bits : list Z) (mb : Z) : Mach (Sys S) Z :=
  match bits with
  | [] => ret mb
  | bit :: bits' =>
    if negb (Z.testbit mask bit) then movem_store sz mask bits' mb
    else
      let is_an := 8 <=? bit in
      let ridx := if is_an then bit - 8 else bit in
      rv <-- get_reg is_an ridx;;
      mem_write (movem_size sz) mb rv;;;
      movem_store sz mask bits' (u32 (mb + szbytes (movem_size sz)))
  end.

Fixpoint movem_load (sz : M68KSize) (mask : Z) (bits : list Z) (mb : Z) : Mach (Sys S) Z :=
  match bits with
  | [] => ret mb
  | bit :: bits' =>
    if negb (Z.testbit mask bit) then movem_load sz mask bits' mb
    else
      let is_an := 8 <=? bit in
      let ridx := if is_an then bit - 8 else bit in
      v <-- mem_read (movem_size sz) mb;;
      put_reg is_an ridx (sext v (movem_size sz));;;
      movem_load sz mask bits' (u32 (mb + szbytes (movem_size sz)))
  end.

Definition do_movem (ins : M68KInstr) (sz : M68KSize) : Mach (Sys S) unit :=
  let to_regs := Z.testbit (word0 ins) 10 in
  let mask := lget (i_words ins) 1 in
  let mode := ea_mode (i_src_ea ins) in
  let reg := ea_reg (i_src_ea ins) in
  base <-- movem_base ins;;
  if negb to_regs && (mode =? 4) then
    mb <-- movem_predec sz mask movem_bits base;;
    putA reg mb
  else if negb to_regs then
    mb <-- movem_store sz mask movem_bits base;;
    when (mode =? 3) (putA reg mb)
  else
    mb <-- movem_load sz mask movem_bits base;;
    when (mode =? 3) (putA reg mb).

Definition exec_movem (ins : M68KInstr) := do_movem ins (i_size ins);;; done ins.

(** ** LINK, UNLK, Scc *)
Definition exec_link (ins : M68KInstr) :=
  let ar := i_reg ins in
  let disp := lget (i_words ins) 1 in
  a7 <-- getA 7;;
  putA 7 (u32 (a7 - 4));;;
  sp <-- getA 7;;
  old <-- getA ar;;
  on_bus (m68k_write32 sp old);;;
  sp' <-- getA 7;;
  putA ar sp';;;
  sp'' <-- getA 7;;
  putA 7 (u32 (sp'' + i16 disp));;;
  done ins.

Definition exec_unlk (ins : M68KInstr) :=
  let ar := i_reg ins in
  a <-- getA ar;;
  putA 7 a;;;
  sp <-- getA 7;;
  v <-- on_bus (m68k_read32 sp);;
  putA ar v;;;
  sp' <-- getA 7;;
  putA 7 (u32 (sp' + 4));;;
  done ins.

Definition exec_scc (ins : M68KInstr) :=
  sr <-- getSR;;
  write_ea ins (i_src_ea ins) M68K_SIZE_B er_init
    (if eval_cond (opc_cc ins) sr then 0xFF else 0x00);;;
  done ins.

(** ** The status register and the user stack pointer *)
Definition exec_move_sr (ins : M68KInstr) :=
  (if negb (i_dst_is_ea ins) then
     let* (v, _) <-- read_ea ins (i_src_ea ins) M68K_SIZE_W er_init;;
     upd_cpu (m68k_set_sr (u16 (Z.land v 0xA71F)))
   else
     sr <-- getSR;;
     write_ea ins (i_src_ea ins) M68K_SIZE_W er_init sr);;;
  done ins.

Definition exec_move_ccr (ins : M68KInstr) :=
  (if negb (i_dst_is_ea ins) then
     let* (v, _) <-- read_ea ins (i_src_ea ins) M68K_SIZE_W er_init;;
     upd_SR (fun sr => u16 (Z.lor (Z.land sr 0xFF00) (Z.land v 0x1F)))
   else
     sr <-- getSR;;
     write_ea ins (i_src_ea ins) M68K_SIZE_W er_init (u16 (Z.land sr 0x001F)));;;
  done ins.

Definition exec_move_usp (ins : M68KInstr) :=
  (if Z.testbit (word0 ins) 3 then
     usp <-- gets (fun s => USP (g_cpu s));; putA (i_reg ins) usp
   else
     a <-- getA (i_reg ins);; upd_cpu (set_USP a));;;
  done ins.

Definition exec_imm_sr (ins : M68KInstr) :=
  let imm8 := u16 (Z.land (i_imm32 ins) 0xFF) in
  let imm16 := Z.land (i_imm32 ins) 0xFFFF in
  sr <-- getSR;;
  match i_mnemonic ins with
  | MN_ORI_TO_CCR => putSR (Z.land (Z.lor sr imm8) 0xA71F)
  | MN_ORI_TO_SR => upd_cpu (m68k_set_sr (u16 (Z.land (Z.lor sr imm16) 0xA71F)))
  | MN_ANDI_TO_CCR =>
    putSR (Z.land (Z.land sr (u16 (Z.lor 0xFF00 (Z.land (i_imm32 ins) 0xFF)))) 0xA71F)
  | MN_ANDI_TO_SR => upd_cpu (m68k_set_sr (u16 (Z.land (Z.land sr imm16) 0xA71F)))
  | MN_EORI_TO_CCR => putSR (Z.land (Z.lxor sr imm8) 0xA71F)
  | _ => upd_cpu (m68k_set_sr (u16 (Z.land (Z.lxor sr imm16) 0xA71F)))
  end;;;
  done ins.

(** ** Extended and decimal arithmetic *)
Definition do_addx_subx (ins : M68KInstr) (sz : M68KSize) (is_add : bool)
    : Mach (Sys S) unit :=
  let w0 := word0 ins in
  let dst := Z.land (Z.shiftr w0 9) 7 in
  let src := Z.land w0 7 in
  let m := szmask sz in
  if i_predec_mem_form ins then
    pb <-- getA src;;
    putA src (u32 (pb - ea_step src sz));;;
    pb' <-- getA src;;
    b <-- mem_read sz pb';;
    pa <-- getA dst;;
    putA dst (u32 (pa - ea_step dst sz));;;
    pa' <-- getA dst;;
    a <-- mem_read sz pa';;
    sr <-- getSR;;
    let '(r, sr') := addx_subx (Z.land a m) (Z.land b m) sr sz is_add in
    putSR sr';;;
    addr <-- getA dst;;
    mem_write sz addr r
  else
    a <-- getD dst;;
    b <-- getD src;;
    sr <-- getSR;;
    let '(r, sr') := addx_subx (Z.land a m) (Z.land b m) sr sz is_add in
    putSR sr';;;
    store_dn dst r sz.

Definition exec_addx_subx (ins : M68KInstr) (is_add : bool) :=
  do_addx_subx ins (i_size ins) is_add;;; done ins.

(** [op]: 0 = ABCD, 1 = SBCD, 2 = NBCD; the flags precede the write. *)
Definition do_bcd (ins : M68KInstr) (op : Z) : Mach (Sys S) unit :=
  sr0 <-- getSR;;
  let x := Z.land (Z.shiftr sr0 4) 1 in
  if op =? 2 then
    let* (a, _) <-- read_ea_ex ins (i_src_ea ins) M68K_SIZE_B er_init true;;
    let '(r, carry) := nbcd (u8 (Z.land a 0xFF)) x in
    upd_SR (do_bcd_flags r carry);;;
    write_ea_ex ins (i_src_ea ins) M68K_SIZE_B er_init r true
  else
    let dst := i_reg ins in
    let src := ea_reg (i_src_ea ins) in
    let result a b := if op =? 0 then abcd a b x else sbcd a b x in
    if i_predec_mem_form ins then
      pb <-- getA src;;
      putA src (u32 (pb - (if src =? 7 then 2 else 1)));;;
      pb' <-- getA src;;
      b <-- on_bus (m68k_read8 pb');;
      pa <-- getA dst;;
      putA dst (u32 (pa - (if dst =? 7 then 2 else 1)));;;
      pa' <-- getA dst;;
      a <-- on_bus (m68k_read8 pa');;
      a_addr <-- getA dst;;
      let '(r, carry) := result a b in
      upd_SR (do_bcd_flags r carry);;;
      on_bus (m68k_write8 a_addr r)
    else
      a <-- getD dst;;
      b <-- getD src;;
      let '(r, carry) := result (u8 a) (u8 b) in
      upd_SR (do_bcd_flags r carry);;;
      d <-- getD dst;;
      putD dst (Z.lor (Z.land d 0xFFFFFF00) r).

Definition exec_bcd (ins : M68KInstr) (op : Z) := do_bcd ins op;;; done ins.

(** * One instruction *)
Definition exec_one (ins : M68KInstr) : Mach (Sys S) (M68kiStatus * Z) :=
  match i_mnemonic ins with
  | MN_NOP => done ins
  | MN_MOVE => exec_move ins
  | MN_MOVEA => exec_movea ins
  | MN_MOVEQ => exec_moveq ins
  | MN_LEA => exec_lea ins
  | MN_PEA => exec_pea ins
  | MN_TST => exec_tst ins
  | MN_CLR => exec_clr ins
  | MN_EXT => exec_ext ins
  | MN_SWAP => exec_swap ins
  | MN_EXG => exec_exg ins
  | MN_ADD => exec_add_sub ins true
  | MN_SUB => exec_add_sub ins false
  | MN_ADDA => exec_adda_suba ins true
  | MN_SUBA => exec_adda_suba ins false
  | MN_CMP => exec_cmp ins
  | MN_CMPA => exec_cmpa ins
  | MN_CMPM => exec_cmpm ins
  | MN_AND => exec_and_or ins true
  | MN_OR => exec_and_or ins false
  | MN_EOR => exec_eor ins
  | MN_ADDQ => exec_addq_subq ins true
  | MN_SUBQ => exec_addq_subq ins false
  | MN_ADDI | MN_SUBI | MN_CMPI | MN_ANDI | MN_ORI | MN_EORI => exec_immediate ins
  | MN_BRA => jump (i_target_addr ins)
  | MN_Bcc => exec_bcc ins
  | MN_BSR => exec_bsr ins
  | MN_DBcc => exec_dbcc ins
  | MN_JMP => exec_jmp ins
  | MN_JSR => exec_jsr ins
  | MN_RTS => exec_rts ins
  | MN_RTR => exec_rtr ins
  | MN_STOP => exec_stop ins
  | MN_RESET => exec_reset ins
  | MN_RTE => exec_rte ins
  | MN_TRAP => exec_trap ins
  | MN_LSL | MN_LSR | MN_ASL | MN_ASR | MN_ROL | MN_ROR | MN_ROXL | MN_ROXR => exec_shift ins
  | MN_BTST | MN_BCHG | MN_BCLR | MN_BSET => exec_bit ins
  | MN_NEG | MN_NEGX | MN_NOT => exec_neg ins
  | MN_TAS => exec_tas ins
  | MN_MULU => exec_mulu ins
  | MN_MULS => exec_muls ins
  | MN_DIVU => exec_div ins false
  | MN_DIVS => exec_div ins true
  | MN_MOVEM => exec_movem ins
  | MN_LINK => exec_link ins
  | MN_UNLK => exec_unlk ins
  | MN_Scc => exec_scc ins
  | MN_MOVE_SR => exec_move_sr ins
  | MN_MOVE_CCR => exec_move_ccr ins
  | MN_MOVE_USP => exec_move_usp ins
  | MN_ADDX => exec_addx_subx ins true
  | MN_SUBX => exec_addx_subx ins false
  | MN_ABCD => exec_bcd ins 0
  | MN_SBCD => exec_bcd ins 1
  | MN_NBCD => exec_bcd ins 2
  | MN_ORI_TO_CCR | MN_ORI_TO_SR | MN_ANDI_TO_CCR | MN_ANDI_TO_SR
  | MN_EORI_TO_CCR | MN_EORI_TO_SR => exec_imm_sr ins
  | MN_MOVEP | MN_CHK | MN_MOVEC | MN_TRAPV | MN_ILLEGAL | MN_OTHER => unimplemented ins
  end.
End Exec.

Definition BUSWIN : nat := 64.

(** [setjmp(s_bus_env)] around [m], [h] the landing pad. *)
Definition catch_bus {S A} (m : Mach S A) (h : Z -> Mach S A) : Mach S A :=
  fun s => match m s with
           | (Exn (EBusFault a), s') => h a s'
           | r => r
           end.

Section Step.
Context {S : Type} `{Board S}.
(** The decoder: the bytes of the fetch window and the address, [None] when
    the word is not an instruction. *)
Context (m68k_decode : list Z -> Z -> option M68KInstr).

Fixpoint fetch (pc : Z) (n : nat) : Mach (Sys S) (list Z) :=
  match n with
  | O => ret []
  | Datatypes.S n' =>
    b <-- on_bus (m68k_read8 (Z.land pc 0xFFFFFF));;
    bs <-- fetch (pc + 1) n';;
    ret (b :: bs)
  end.
Definition busview (pc : Z) : Mach (Sys S) (list Z) := fetch (Z.land pc 0xFFFFFF) BUSWIN.

Definition m68k_interp_decode_at (pc : Z) : Mach (Sys S) (option M68KInstr) :=
  saved <-- gets (fun s => g_last_access_addr (bus s));;
  win <-- busview pc;;
  modify (fun s => set_bus (set_last_access_addr saved (bus s)) s);;;
  ret (m68k_decode win (Z.land pc 0xFFFFFF)).

(** The interrupt safepoint at the head of the trace hook. *)
Definition debug_trace_block : Mach (Sys S) unit :=
  irq <-- gets (fun s => irq_of (bus s));;
  when (negb (recomp_pending_irq_mask irq =? 0)) recomp_take_irq.

(** The landing pad of a bus error inside the instruction. *)
Definition interp_bus_error (fault_pc addr : Z) : Mach (Sys S) unit :=
  modify (fun s => set_fault (g_fault_opcode s) addr s);;;
  upd_cpu (set_PC fault_pc);;;
  m68k_raise_exception_frame 2;;;
  runtime_defer_exception_cycles 158.

(** What follows [exec_one]: the illegal-EA check, the new PC and the clock. *)
Definition interp_commit (ins : M68KInstr) (cyc : Z) (st : M68kiStatus) (next : Z)
    : Mach (Sys S) M68kiStatus :=
  match st with
  | M68KI_OK =>
    illegal <-- gets s_illegal_ea;;
    if (illegal : bool) then
      modify (set_bad (i_addr ins) (word0 ins));;; ret M68KI_HALT_UNIMPL
    else
      upd_cpu (set_PC (Z.land next 0xFFFFFF));;;
      (if decide (i_mnemonic ins = MN_TRAP) then runtime_defer_exception_cycles (u32 cyc)
       else
         acc <-- gets g_cycle_accumulator;;
         modify (fun s => set_cycles 0 (g_audio_cycle_counter s) s);;;
         on_bus (mcd212_tick (u32 (acc + cyc))));;;
      ret M68KI_OK
  | _ => ret st
  end.

Definition m68k_interp_step : Mach (Sys S) M68kiStatus :=
  pc0 <-- gets (fun s => PC (g_cpu s));;
  let pc := Z.land pc0 0xFFFFFF in
  if Z.odd pc then
    modify (fun s => set_bad pc (g_m68ki_bad_op s) s);;; ret M68KI_HALT_BADADDR
  else
    debug_trace_block;;;
    win <-- busview pc;;
    match m68k_decode win pc with
    | None =>
      modify (fun s => set_bad pc (g_m68ki_bad_op s) s);;;
      op <-- on_bus (m68k_read16 pc);;
      modify (fun s => set_bad pc op s);;;
      ret M68KI_HALT_UNIMPL
    | Some ins =>
      cyc <-- m68k_cycles ins;;
      let fault_pc := Z.land (u32 (i_addr ins + i_byte_length ins)) 0xFFFFFF in
      modify (fun s => set_fault (word0 ins) (g_fault_addr s) s);;;
      out <-- catch_bus
                (modify (set_illegal_ea false);;; r <-- exec_one ins;; ret (Some r))
                (fun addr => interp_bus_error fault_pc addr;;; ret None);;
      match out with
      | None => ret M68KI_OK
      | Some (st, next) => interp_commit ins cyc st next
      end
    end.

(** The run loops. [guard] is M68KI_INSN_GUARD (50000000 by default) and
    [count] the instructions retired; [None] means the fuel ran out. *)
Context (dispatch_has_addr : Z -> bool) (guard : Z).

Fixpoint interp_run_loop (fuel : nat) (stop_pc count : Z)
    : Mach (Sys S) (option M68kiStatus) :=
  match fuel with
  | O => ret None
  | Datatypes.S fuel' =>
    pc <-- gets (fun s => PC (g_cpu s));;
    if pc =? Z.land stop_pc 0xFFFFFF then ret (Some M68KI_OK)
    else
      st <-- m68k_interp_step;;
      halted <-- gets g_halted;;
      if decide (st <> M68KI_OK) then ret (Some st)
      else if (halted : bool) then ret (Some M68KI_OK)
      else if guard <? count + 1 then
        pc' <-- gets (fun s => PC (g_cpu s));;
        modify (fun s => set_bad pc' (g_m68ki_bad_op s) s);;;
        ret (Some M68KI_HALT_GUARD)
      else interp_run_loop fuel' stop_pc (count + 1)
  end.

Definition m68k_interp_run (fuel : nat) (entry_pc stop_pc : Z)
    : Mach (Sys S) (option M68kiStatus) :=
  upd_cpu (set_PC (Z.land entry_pc 0xFFFFFF));;;
  modify (set_discover []);;;
  interp_run_loop fuel stop_pc 0.

Fixpoint until_known_loop (fuel : nat) (entry_pc stop_pc count : Z)
    : Mach (Sys S) (option M68kiStatus) :=
  match fuel with
  | O => ret None
  | Datatypes.S fuel' =>
    pc0 <-- gets (fun s => PC (g_cpu s));;
    let pc := Z.land pc0 0xFFFFFF in
    if negb (stop_pc =? 0) && (pc =? stop_pc) then ret (Some M68KI_OK)
    else if negb (pc =? Z.land entry_pc 0xFFFFFF) && dispatch_has_addr pc
    then ret (Some M68KI_REENTER)
    else
      st <-- m68k_interp_step;;
      halted <-- gets g_halted;;
      if decide (st <> M68KI_OK) then ret (Some st)
      else if (halted : bool) then ret (Some M68KI_OK)
      else if guard <? count + 1 then
        pc' <-- gets (fun s => PC (g_cpu s));;
        modify (fun s => set_bad pc' (g_m68ki_bad_op s) s);;;
        ret (Some M68KI_HALT_GUARD)
      else until_known_loop fuel' entry_pc stop_pc (count + 1)
  end.

Definition m68k_interp_run_until_known (fuel : nat) (entry_pc stop_pc : Z)
    : Mach (Sys S) (option M68kiStatus) :=
  upd_cpu (set_PC (Z.land entry_pc 0xFFFFFF));;;
  modify (set_discover []);;;
  until_known_loop fuel entry_pc (Z.land stop_pc 0xFFFFFF) 0.
End Step.
