(* ===== verification/CpuOk.v ===== *)
(** The invariant of the interpreter's world and its preservation by the
    register file, the memory operands and the exception machinery, for every
    board that honours [BoardOk]. *)

From Stdlib Require Import ZArith Lia Bool.
From stdpp Require Import base tactics numbers list.
From S2P Require Import Prelude Irq Cpu Insn Alu Ea.
Open Scope Z_scope.
Open Scope mach_scope.

(** What a board promises: an invariant of its state that every access keeps,
    bytes and words in range, and a fault address in range. *)
Class BoardOk (S : Type) `{Board S} : Type := {
  board_inv : S -> Prop;
  read8_ok : forall a, is_u32 a -> keeps board_inv (m68k_read8 a) is_u8;
  read16_ok : forall a, is_u32 a -> keeps board_inv (m68k_read16 a) is_u16;
  write8_ok : forall a v, is_u32 a -> is_u8 v ->
    keeps board_inv (m68k_write8 a v) (fun _ => True);
  write16_ok : forall a v, is_u32 a -> is_u16 v ->
    keeps board_inv (m68k_write16 a v) (fun _ => True);
  last_access_ok : forall s, board_inv s -> is_u32 (g_last_access_addr s);
  set_last_access_ok : forall a s, is_u32 a -> board_inv s -> board_inv (set_last_access_addr a s);
  board_irq_ok : forall s, board_inv s -> irq_ok (irq_of s);
  set_irq_ok : forall q s, irq_ok q -> board_inv s -> board_inv (set_irq q s);
  tick_ok : forall n, is_u32 n -> keeps board_inv (mcd212_tick n) (fun _ => True);
}.

Record cpu_ok (c : M68KState) : Prop := {
  ok_nD : length (regD c) = 8%nat;
  ok_nA : length (regA c) = 8%nat;
  ok_D : Forall is_u32 (regD c);
  ok_A : Forall is_u32 (regA c);
  ok_SR : is_u16 (SR c);
  ok_PC : is_u32 (PC c);
  ok_USP : is_u32 (USP c);
  ok_SSP : is_u32 (SSP c);
}.

Lemma cpu_ok_reset : cpu_ok cpu_reset.
Proof. split; cbn; try word; repeat constructor. Qed.

Lemma cpu_ok_set_D i v c : cpu_ok c -> is_u32 v -> cpu_ok (set_D i v c).
Proof. intros [] Hv. split; cbn; autorewrite with mem; word || auto. Qed.
Lemma cpu_ok_set_A i v c : cpu_ok c -> is_u32 v -> cpu_ok (set_A i v c).
Proof. intros [] Hv. split; cbn; autorewrite with mem; word || auto. Qed.
Lemma cpu_ok_set_SR v c : cpu_ok c -> is_u16 v -> cpu_ok (set_SR v c).
Proof. intros [] Hv. by split. Qed.
Lemma cpu_ok_set_PC v c : cpu_ok c -> is_u32 v -> cpu_ok (set_PC v c).
Proof. intros [] Hv. by split. Qed.
Lemma cpu_ok_set_USP v c : cpu_ok c -> is_u32 v -> cpu_ok (set_USP v c).
Proof. intros [] Hv. by split. Qed.
Lemma cpu_ok_m68k_set_sr v c : cpu_ok c -> is_u16 v -> cpu_ok (m68k_set_sr v c).
Proof.
  intros [] Hv. unfold m68k_set_sr. destruct (z2b _); [|by split].
  destruct (z2b _); split; cbn; autorewrite with mem; word || auto.
Qed.
#[export] Hint Resolve cpu_ok_set_D cpu_ok_set_A cpu_ok_set_SR cpu_ok_set_PC cpu_ok_set_USP
  cpu_ok_m68k_set_sr : word.

Section SysOk.
Context {S : Type} `{BoardOk S}.

Record sys_ok (s : Sys S) : Prop := {
  ok_cpu : cpu_ok (g_cpu s);
  ok_bus : board_inv (bus s);
  ok_fault_opcode : is_u16 (g_fault_opcode s);
  ok_cycles : is_u32 (g_cycle_accumulator s);
  ok_discover : (length (g_m68ki_discover s) <= M68KI_MAX_DISCOVER)%nat /\
                NoDup (g_m68ki_discover s) /\ Forall (is_word 24) (g_m68ki_discover s);
}.

Lemma sys_ok_with_cpu f s :
  sys_ok s -> (cpu_ok (g_cpu s) -> cpu_ok (f (g_cpu s))) -> sys_ok (with_cpu f s).
Proof. intros [] Hf. split; cbn; auto. Qed.
Lemma sys_ok_set_bus b s : sys_ok s -> board_inv b -> sys_ok (set_bus b s).
Proof. intros []. by split. Qed.

Lemma keeps_on_bus {A} (m : Mach S A) Q :
  keeps board_inv m Q -> keeps sys_ok (on_bus m) Q.
Proof.
  intros Hm s Hs. unfold on_bus. specialize (Hm _ (ok_bus _ Hs)) as [HI HQ].
  destruct (m (bus s)) as [r b]. cbn in *. split; [|done]. by apply sys_ok_set_bus.
Qed.
Lemma keeps_upd_cpu f :
  (forall c, cpu_ok c -> cpu_ok (f c)) -> keeps sys_ok (upd_cpu f) (fun _ => True).
Proof. intros Hf. apply keeps_modify; [done|]. intros s Hs. apply sys_ok_with_cpu; auto. Qed.
Lemma keeps_getD i : keeps sys_ok (getD i) is_u32.
Proof. apply keeps_gets. intros s Hs. apply Forall_lget; [apply Hs|word]. Qed.
Lemma keeps_getA i : keeps sys_ok (getA i) is_u32.
Proof. apply keeps_gets. intros s Hs. apply Forall_lget; [apply Hs|word]. Qed.
Lemma keeps_getSR : keeps sys_ok getSR is_u16.
Proof. apply keeps_gets. intros s Hs. apply Hs. Qed.
Lemma keeps_getPC : keeps sys_ok (gets (fun s => PC (g_cpu s))) is_u32.
Proof. apply keeps_gets. intros s Hs. apply Hs. Qed.
Lemma keeps_getUSP : keeps sys_ok (gets (fun s => USP (g_cpu s))) is_u32.
Proof. apply keeps_gets. intros s Hs. apply Hs. Qed.
Lemma keeps_get_opcode : keeps sys_ok (gets g_fault_opcode) is_u16.
Proof. apply keeps_gets. intros s Hs. apply Hs. Qed.
Lemma keeps_get_tpf : keeps sys_ok (gets (fun s => g_last_access_addr (bus s))) is_u32.
Proof. apply keeps_gets. intros s Hs. apply last_access_ok, Hs. Qed.
Lemma keeps_get_irq : keeps sys_ok (gets (fun s => irq_of (bus s))) irq_ok.
Proof. apply keeps_gets. intros s Hs. apply board_irq_ok, Hs. Qed.
Lemma keeps_get_cycles : keeps sys_ok (gets g_cycle_accumulator) is_u32.
Proof. apply keeps_gets. intros s Hs. apply Hs. Qed.
Lemma keeps_get_flag (f : Sys S -> bool) : keeps sys_ok (gets f) (fun _ => True).
Proof. by apply keeps_gets. Qed.
Lemma keeps_putD i v : is_u32 v -> keeps sys_ok (putD i v) (fun _ => True).
Proof. intros. apply keeps_upd_cpu. word. Qed.
Lemma keeps_putA i v : is_u32 v -> keeps sys_ok (putA i v) (fun _ => True).
Proof. intros. apply keeps_upd_cpu. word. Qed.
Lemma keeps_putSR v : is_u16 v -> keeps sys_ok (putSR v) (fun _ => True).
Proof. intros. apply keeps_upd_cpu. word. Qed.
Lemma keeps_set_sr v : is_u16 v -> keeps sys_ok (upd_cpu (m68k_set_sr v)) (fun _ => True).
Proof. intros. apply keeps_upd_cpu. word. Qed.
Lemma keeps_set_PC v : is_u32 v -> keeps sys_ok (upd_cpu (set_PC v)) (fun _ => True).
Proof. intros. apply keeps_upd_cpu. word. Qed.
Lemma keeps_set_USP v : is_u32 v -> keeps sys_ok (upd_cpu (set_USP v)) (fun _ => True).
Proof. intros. apply keeps_upd_cpu. word. Qed.
Lemma keeps_upd_SR f :
  (forall sr, is_u16 sr -> is_u16 (f sr)) -> keeps sys_ok (upd_SR f) (fun _ => True).
Proof. intros Hf. apply keeps_upd_cpu. intros c Hc. apply cpu_ok_set_SR; [done|]. apply Hf, Hc. Qed.

Lemma keeps_read8 a : is_u32 a -> keeps sys_ok (on_bus (m68k_read8 a)) is_u8.
Proof. intros. by apply keeps_on_bus, read8_ok. Qed.
Lemma keeps_read16 a : is_u32 a -> keeps sys_ok (on_bus (m68k_read16 a)) is_u16.
Proof. intros. by apply keeps_on_bus, read16_ok. Qed.
Lemma keeps_write8 a v :
  is_u32 a -> is_u8 v -> keeps sys_ok (on_bus (m68k_write8 a v)) (fun _ => True).
Proof. intros. by apply keeps_on_bus, write8_ok. Qed.
Lemma keeps_write16 a v :
  is_u32 a -> is_u16 v -> keeps sys_ok (on_bus (m68k_write16 a v)) (fun _ => True).
Proof. intros. by apply keeps_on_bus, write16_ok. Qed.
Lemma keeps_set_last a :
  is_u32 a -> keeps board_inv (modify (set_last_access_addr a)) (fun _ => True).
Proof. intros. apply keeps_modify; [done|]. intros. by apply set_last_access_ok. Qed.

Lemma read32_word hi lo : is_u16 hi -> is_u16 lo -> is_u32 (Z.lor (Z.shiftl hi 16) lo).
Proof.
  intros Hh Hl. rewrite lor_shiftl_add by (done || lia). unfold is_word in *. lia.
Qed.
Lemma keeps_read32 a : is_u32 a -> keeps sys_ok (on_bus (m68k_read32 a)) is_u32.
Proof.
  intros Ha. apply keeps_on_bus. unfold m68k_read32.
  eapply keeps_bind; [by apply read16_ok|]. intros hi Hhi.
  eapply keeps_bind; [apply read16_ok; word|]. intros lo Hlo.
  eapply keeps_bind; [by apply keeps_set_last|]. intros _ _.
  apply keeps_ret. by apply read32_word.
Qed.
Lemma keeps_write32 a v :
  is_u32 a -> is_u32 v -> keeps sys_ok (on_bus (m68k_write32 a v)) (fun _ => True).
Proof.
  intros Ha Hv. apply keeps_on_bus. unfold m68k_write32.
  eapply keeps_bind; [apply write16_ok; word|]. intros _ _.
  eapply keeps_bind; [apply write16_ok; word|]. intros _ _.
  by apply keeps_set_last.
Qed.
End SysOk.

Create HintDb keeps discriminated.
#[export] Hint Constants Opaque : keeps.
#[export] Hint Resolve keeps_getD keeps_getA keeps_getSR keeps_getPC keeps_getUSP
  keeps_get_opcode keeps_get_tpf keeps_get_irq keeps_get_cycles : keeps.
#[export] Hint Extern 3 (keeps _ (gets _) _) => apply keeps_get_flag : keeps.
#[export] Hint Extern 1 (keeps _ (putD _ _) _) => apply keeps_putD; word : keeps.
#[export] Hint Extern 1 (keeps _ (putA _ _) _) => apply keeps_putA; word : keeps.
#[export] Hint Extern 1 (keeps _ (putSR _) _) => apply keeps_putSR; word : keeps.
#[export] Hint Extern 1 (keeps _ (upd_cpu (m68k_set_sr _)) _) => apply keeps_set_sr; word : keeps.
#[export] Hint Extern 1 (keeps _ (upd_cpu (set_PC _)) _) => apply keeps_set_PC; word : keeps.
#[export] Hint Extern 1 (keeps _ (upd_cpu (set_USP _)) _) => apply keeps_set_USP; word : keeps.
#[export] Hint Extern 1 (keeps _ (upd_SR _) _) => apply keeps_upd_SR; word : keeps.
#[export] Hint Extern 1 (keeps _ (on_bus (m68k_read8 _)) _) => apply keeps_read8; word : keeps.
#[export] Hint Extern 1 (keeps _ (on_bus (m68k_read16 _)) _) => apply keeps_read16; word : keeps.
#[export] Hint Extern 1 (keeps _ (on_bus (m68k_read32 _)) _) => apply keeps_read32; word : keeps.
#[export] Hint Extern 1 (keeps _ (on_bus (m68k_write8 _ _)) _) => apply keeps_write8; word : keeps.
#[export] Hint Extern 1 (keeps _ (on_bus (m68k_write16 _ _)) _) => apply keeps_write16; word : keeps.
#[export] Hint Extern 1 (keeps _ (on_bus (m68k_write32 _ _)) _) => apply keeps_write32; word : keeps.

(** [mach_step] takes a computation apart; what the hint database does not
    know is given a default postcondition by its type. *)
Ltac mach_bind :=
  match goal with
  | |- keeps ?I (@bind ?S ?A ?B ?m ?k) ?R =>
    first
      [ eapply (@keeps_bind S I A B m k); [solve [eauto 3 with keeps]|]
      | match A with
        | unit => apply (@keeps_bind S I A B m k (fun _ => True))
        | Z => apply (@keeps_bind S I A B m k is_u32)
        | bool => apply (@keeps_bind S I A B m k (fun _ => True))
        | prod Z ExtR => apply (@keeps_bind S I A B m k (fun p => is_u32 (fst p)))
        end ]
  end.
Ltac mach_step :=
  lazymatch goal with
  | |- forall _, _ => intros ?
  | |- keeps _ (bind _ _) _ => mach_bind
  | |- keeps _ (let _ := _ in _) _ => cbv zeta
  | |- keeps _ (ret _) _ => apply keeps_ret
  | |- keeps _ (throw _) _ => apply keeps_throw
  | |- keeps _ (when _ _) _ => apply keeps_when; [done|]
  | |- keeps _ (match ?x with _ => _ end) _ => destruct x
  | |- keeps _ _ _ => eauto 3 with keeps
  end.
Ltac mach := repeat (mach_step; try done); try word.
