(* ===== verification/OperandOk.v ===== *)
(** Ranges of the arithmetic, and the preservation of the world's invariant by
    memory operands, the stack helpers and the exception machinery. *)

From Stdlib Require Import ZArith Lia Bool.
From stdpp Require Import base tactics numbers list sets.
From S2P Require Import Prelude Arith68k Irq Cpu Insn Alu Ea CpuOk.
Open Scope Z_scope.
Open Scope mach_scope.

(** ** Ranges of the arithmetic *)
Lemma or_if_word w b f sr : 0 <= w -> is_word w f -> is_word w sr -> is_word w (or_if b f sr).
Proof. intros. destruct b; cbn; [by apply lor_word|done]. Qed.
Lemma clear_bits_word w f sr : 0 <= w -> is_word w sr -> is_word w (clear_bits f sr).
Proof. intros. unfold clear_bits. by apply land_word_l. Qed.
Lemma SR_word w f : 16 <= w -> f ∈ [SR_C; SR_V; SR_Z; SR_N; SR_X; SR_S] -> is_word w f.
Proof.
  intros Hw. set_unfold. intros Hf. apply (is_word_mono 16); [done|].
  intuition subst; split; by vm_compute.
Qed.
#[export] Hint Extern 1 (is_word _ (or_if _ _ _)) => apply or_if_word; [lia| |] : word.
#[export] Hint Extern 1 (is_word _ (clear_bits _ _)) => apply clear_bits_word; [lia|] : word.
#[export] Hint Extern 1 (is_word _ SR_C) => apply SR_word; [lia|set_solver] : word.
#[export] Hint Extern 1 (is_word _ SR_V) => apply SR_word; [lia|set_solver] : word.
#[export] Hint Extern 1 (is_word _ SR_Z) => apply SR_word; [lia|set_solver] : word.
#[export] Hint Extern 1 (is_word _ SR_N) => apply SR_word; [lia|set_solver] : word.
#[export] Hint Extern 1 (is_word _ SR_X) => apply SR_word; [lia|set_solver] : word.
#[export] Hint Extern 1 (is_word _ SR_S) => apply SR_word; [lia|set_solver] : word.

Lemma flags_logic_u16 v sz sr : is_u16 sr -> is_u16 (flags_logic v sz sr).
Proof. intros. unfold flags_logic. word. Qed.
Lemma flags_add_u16 a b r sz sr : is_u16 sr -> is_u16 (flags_add a b r sz sr).
Proof. intros. unfold flags_add. word. Qed.
Lemma flags_sub_u16 a b r sz sr : is_u16 sr -> is_u16 (flags_sub a b r sz sr).
Proof. intros. unfold flags_sub. word. Qed.
Lemma flags_cmp_u16 a b r sz sr : is_u16 sr -> is_u16 (flags_cmp a b r sz sr).
Proof. intros. unfold flags_cmp. word. Qed.
Lemma shift_sr_u16 o bits z sr : is_u16 sr -> is_u16 (shift_sr o bits z sr).
Proof. intros. unfold shift_sr. destruct (negb _), z; word. Qed.
Lemma mem_shift_sr_u16 o sr : is_u16 sr -> is_u16 (mem_shift_sr o sr).
Proof. intros. unfold mem_shift_sr. destruct (negb _); word. Qed.
Lemma do_bcd_flags_u16 r c sr : is_u16 sr -> is_u16 (do_bcd_flags r c sr).
Proof. intros. unfold do_bcd_flags. word. Qed.
Lemma addx_subx_sr_u16 a b sr sz f : is_u16 sr -> is_u16 (snd (addx_subx a b sr sz f)).
Proof. intros. unfold addx_subx. cbv zeta. cbn [snd]. word. Qed.
Lemma negx_sr_u16 a sr sz : is_u16 sr -> is_u16 (snd (negx a sr sz)).
Proof. intros. unfold negx. cbv zeta. cbn [snd]. word. Qed.
#[export] Hint Resolve flags_logic_u16 flags_add_u16 flags_sub_u16 flags_cmp_u16 shift_sr_u16
  mem_shift_sr_u16 do_bcd_flags_u16 addx_subx_sr_u16 negx_sr_u16 : word.

Lemma sext_u32 v sz : is_u32 v -> is_u32 (sext v sz).
Proof. intros. destruct sz; cbn; word. Qed.
Lemma shift_res_u32 mn sv bits m cnt sr sz o :
  is_u32 sv -> is_u32 m -> shift_switch mn sv bits m cnt sr sz = ShiftDone o -> 0 < bits ->
  is_u32 (sh_res o).
Proof.
  intros Hsv Hm E Hb. destruct mn; try discriminate E; cbn in E;
    repeat match type of E with (if ?b then _ else _) = _ => destruct b end; try discriminate E;
    injection E as <-; cbn;
    repeat match goal with |- context [if ?b then _ else _] =>
      destruct b eqn:?; simplify_option_eq end; word.
Qed.
Lemma mem_shift_res_u16 mn sv sr : is_u16 sv -> is_u16 (sh_res (mem_shift_switch mn sv sr)).
Proof. intros. destruct mn; cbn; word. Qed.
Lemma pow2_small i k w : 0 <= i -> i < k -> k <= w -> is_word w (2 ^ i).
Proof.
  intros. unfold is_word. split; [apply Z.pow_nonneg; lia|]. apply Z.pow_lt_mono_r; lia.
Qed.
#[export] Hint Resolve sext_u32 mem_shift_res_u16 : word.

Lemma div_ccr_u16 d x sg p : is_u16 (snd (m68k_divide_word d x sg p)).
Proof.
  unfold m68k_divide_word, m68k_divide_pack, CCR_N, CCR_V, CCR_Z.
  repeat case_match; cbn; word.
Qed.
Lemma div_result_u32 d x sg p :
  is_u32 p -> is_u32 (snd (fst (m68k_divide_word d x sg p))).
Proof.
  intros. unfold m68k_divide_word, m68k_divide_pack. repeat case_match; cbn; word.
Qed.

(** A narrower word. *)
#[export] Hint Extern 9 (is_word 32 _) =>
  match goal with H : is_u8 ?x |- is_word 32 ?x => apply (is_word_mono 8); [lia|exact H]
                | H : is_u16 ?x |- is_word 32 ?x => apply (is_word_mono 16); [lia|exact H] end : word.

Section InterpOk.
Context {S : Type} `{BoardOk S}.

(** ** Operands *)
Lemma store_dn_ok reg val sz :
  is_u32 val -> keeps sys_ok (store_dn (S:=S) reg val sz) (fun _ => True).
Proof. intros. unfold store_dn. mach. Qed.
Lemma mem_read_ok sz a : is_u32 a -> keeps sys_ok (mem_read sz a) is_u32.
Proof.
  intros. unfold mem_read.
  destruct sz; (eapply keeps_weaken; [solve [eauto with keeps]|]); cbn; intros; word.
Qed.
Lemma mem_write_ok sz a v :
  is_u32 a -> is_u32 v -> keeps sys_ok (mem_write sz a v) (fun _ => True).
Proof. intros. unfold mem_write. destruct sz; mach. Qed.
Lemma set_illegal_ok b : keeps sys_ok (modify (set_illegal_ea (S:=S) b)) (fun _ => True).
Proof. apply keeps_modify; [done|]. intros s []. by split. Qed.
Lemma set_bad_ok pc op : keeps sys_ok (modify (set_bad (S:=S) pc op)) (fun _ => True).
Proof. apply keeps_modify; [done|]. intros s []. by split. Qed.
Lemma set_bad_pc_ok pc :
  keeps sys_ok (modify (fun s : Sys S => set_bad pc (g_m68ki_bad_op s) s)) (fun _ => True).
Proof. apply keeps_modify; [done|]. intros s []. by split. Qed.
Lemma set_halted_ok b : keeps sys_ok (modify (set_halted (S:=S) b)) (fun _ => True).
Proof. apply keeps_modify; [done|]. intros s []. by split. Qed.
Lemma discover_ok t : keeps sys_ok (discover (S:=S) t) (fun _ => True).
Proof.
  apply keeps_modify; [done|]. intros s Hs. cbn zeta.
  case_bool_decide; [done|]. case_bool_decide; [|done].
  destruct Hs as [? ? ? ? (Hl & Hn & Hw)]. split; try done. cbn. split_and!.
  - rewrite length_app. cbn. lia.
  - apply NoDup_app. split_and!; [done| |apply NoDup_singleton]. set_solver.
  - apply Forall_app. split; [done|]. constructor; [|done]. word.
Qed.
End InterpOk.

#[export] Hint Extern 1 (keeps _ (store_dn _ _ _) _) => apply store_dn_ok; word : keeps.
#[export] Hint Extern 1 (keeps _ (mem_read _ _) _) => apply mem_read_ok; word : keeps.
#[export] Hint Extern 1 (keeps _ (mem_write _ _ _) _) => apply mem_write_ok; word : keeps.
#[export] Hint Resolve set_illegal_ok set_bad_ok set_bad_pc_ok set_halted_ok discover_ok : keeps.

Section Operands.
Context {S : Type} `{BoardOk S}.

Lemma index_register_ok ext wide :
  keeps sys_ok (index_register (S:=S) ext wide) (fun _ => True).
Proof. unfold index_register. mach. Qed.
Lemma indexed_ok base ext : keeps sys_ok (indexed (S:=S) base ext) is_u32.
Proof.
  unfold indexed. eapply keeps_bind; [apply index_register_ok|]. mach.
Qed.

Lemma read_from_ok sz (er : ExtR) a :
  is_u32 a ->
  keeps sys_ok (bind (mem_read (S:=S) sz a) (fun v => ret (v, er))) (fun p => is_u32 (fst p)).
Proof. intros. mach. Qed.

Lemma read_ea_ex_ok ins ea sz er r :
  instr_ok ins -> keeps sys_ok (read_ea_ex (S:=S) ins ea sz er r) (fun p => is_u32 (fst p)).
Proof.
  intros Hi. pose proof (er_next_u16 ins er Hi). pose proof (er_next_dword_u32 ins er Hi).
  pose proof (er_next_imm_u32 ins er sz Hi).
  unfold read_ea_ex. cbv zeta.
  destruct (er_next ins er) as [w er1]. destruct (er_next_dword ins er) as [l er2].
  destruct (er_next_imm ins er sz) as [im er3]. cbn [fst] in *.
  destruct (ea_mode ea) as [|[[[]|[]|]|[[]|[]|]|]|]; cbn match;
    try (destruct (ea_reg ea) as [|[[[]|[]|]|[[]|[]|]|]|]; cbn match);
    repeat (mach_step || apply read_from_ok || apply indexed_ok); cbn; try done; word.
Qed.

Lemma addr_ea_ok ins ea er :
  instr_ok ins -> keeps sys_ok (addr_ea (S:=S) ins ea er) is_u32.
Proof.
  intros Hi. pose proof (er_next_u16 ins er Hi). pose proof (er_next_dword_u32 ins er Hi).
  unfold addr_ea. cbv zeta.
  destruct (er_next ins er) as [w er1]. destruct (er_next_dword ins er) as [l er2].
  cbn [fst] in *.
  destruct (ea_mode ea) as [|[[[]|[]|]|[[]|[]|]|]|]; cbn match;
    try (destruct (ea_reg ea) as [|[[[]|[]|]|[[]|[]|]|]|]; cbn match);
    repeat (mach_step || apply indexed_ok); word.
Qed.

Lemma write_ea_ex_ok ins ea sz er v r :
  instr_ok ins -> is_u32 v ->
  keeps sys_ok (write_ea_ex (S:=S) ins ea sz er v r) (fun _ => True).
Proof.
  intros Hi Hv. pose proof (er_next_u16 ins er Hi). pose proof (er_next_dword_u32 ins er Hi).
  unfold write_ea_ex. cbv zeta.
  destruct (er_next ins er) as [w er1]. destruct (er_next_dword ins er) as [l er2].
  cbn [fst] in *.
  destruct (ea_mode ea) as [|[[[]|[]|]|[[]|[]|]|]|]; cbn match;
    try (destruct (ea_reg ea) as [|[[[]|[]|]|[[]|[]|]|]|]; cbn match);
    repeat (mach_step || apply indexed_ok); done.
Qed.

Lemma push32_ok v : is_u32 v -> keeps sys_ok (push32 (S:=S) v) (fun _ => True).
Proof. intros. unfold push32. mach. Qed.
Lemma pop32_ok : keeps sys_ok (pop32 (S:=S)) is_u32.
Proof. unfold pop32. mach. Qed.
Lemma pop16_ok : keeps sys_ok (pop16 (S:=S)) is_u16.
Proof.
  unfold pop16. eapply keeps_bind; [apply keeps_getA|]. intros a Ha.
  eapply keeps_bind; [by apply keeps_read16|]. mach.
Qed.
End Operands.

#[export] Hint Extern 1 (keeps _ (read_ea_ex _ _ _ _ _) _) => apply read_ea_ex_ok; assumption : keeps.
#[export] Hint Extern 1 (keeps _ (read_ea _ _ _ _) _) => apply read_ea_ex_ok; assumption : keeps.
#[export] Hint Extern 1 (keeps _ (addr_ea _ _ _) _) => apply addr_ea_ok; assumption : keeps.
#[export] Hint Extern 1 (keeps _ (write_ea_ex _ _ _ _ _ _) _) =>
  apply write_ea_ex_ok; [assumption|word] : keeps.
#[export] Hint Extern 1 (keeps _ (write_ea _ _ _ _ _) _) =>
  apply write_ea_ex_ok; [assumption|word] : keeps.
#[export] Hint Extern 1 (keeps _ (push32 _) _) => apply push32_ok; word : keeps.
#[export] Hint Resolve pop32_ok pop16_ok index_register_ok indexed_ok : keeps.

Section Runtime.
Context {S : Type} `{BoardOk S}.

Lemma set_cycles_ok acc (audio : Sys S -> Z) :
  is_u32 acc -> keeps sys_ok (modify (fun s => set_cycles acc (audio s) s)) (fun _ => True).
Proof. intros. apply keeps_modify; [done|]. intros s []. by split. Qed.
Lemma mcd212_tick_ok n :
  is_u32 n -> keeps sys_ok (on_bus (S:=S) (mcd212_tick n)) (fun _ => True).
Proof. intros. by apply keeps_on_bus, tick_ok. Qed.
Lemma glue_check_vblank_ok : keeps sys_ok (glue_check_vblank (S:=S)) (fun _ => True).
Proof.
  unfold glue_check_vblank. eapply keeps_bind; [apply keeps_get_cycles|]. intros acc Hacc.
  eapply keeps_bind; [by apply mcd212_tick_ok|]. intros _ _. apply set_cycles_ok. word.
Qed.
Lemma defer_ok n :
  is_u32 n -> keeps sys_ok (runtime_defer_exception_cycles (S:=S) n) (fun _ => True).
Proof.
  intros Hn. unfold runtime_defer_exception_cycles.
  eapply keeps_bind; [apply keeps_get_cycles|]. intros acc Hacc.
  eapply (keeps_bind _ _ _ (fun _ => True)).
  - apply keeps_when; [done|]. apply glue_check_vblank_ok.
  - intros _ _. by apply set_cycles_ok.
Qed.
Lemma build_exception_frame_ok vec :
  is_u8 vec -> keeps sys_ok (build_exception_frame (S:=S) vec) is_u32.
Proof.
  intros Hv. unfold build_exception_frame. destruct (access_fault vec); mach.
Qed.
Lemma raise_frame_ok vec :
  is_u8 vec -> keeps sys_ok (m68k_raise_exception_frame (S:=S) vec) (fun _ => True).
Proof.
  intros. unfold m68k_raise_exception_frame.
  eapply keeps_bind; [by apply build_exception_frame_ok|]. intros. by apply keeps_ret.
Qed.
Lemma recomp_take_irq_ok : keeps sys_ok (recomp_take_irq (S:=S)) (fun _ => True).
Proof.
  unfold recomp_take_irq. eapply keeps_bind; [apply keeps_get_irq|]. intros q Hq. cbv zeta.
  eapply keeps_bind; [apply keeps_getSR|]. intros sr Hsr.
  eapply keeps_bind; [apply (keeps_get_flag g_recomp_irq_armed)|]. intros armed _.
  apply keeps_when; [done|].
  pose proof (recomp_pending_irq_level_range q) as Hl.
  pose proof (irq_ok_consume (recomp_pending_irq_level q) q ltac:(lia) Hq) as Hok.
  pose proof (irq_consume_vector (recomp_pending_irq_level q) q Hl Hq) as Hvec.
  destruct (irq_consume _ q) as [vec q']. cbn in *.
  eapply (keeps_bind _ _ _ (fun _ => True)).
  { apply keeps_modify; [done|]. intros s Hs. apply sys_ok_set_bus; [done|].
    apply set_irq_ok; [done|]. apply Hs. }
  intros _ _. eapply keeps_bind; [apply set_halted_ok|]. intros _ _.
  eapply keeps_bind; [by apply build_exception_frame_ok|]. intros _ _.
  eapply keeps_bind; [apply defer_ok; word|]. intros _ _. apply keeps_throw.
Qed.
Lemma genesis_stop_ok sr :
  is_u16 sr -> keeps sys_ok (genesis_stop_until_interrupt (S:=S) sr) (fun _ => True).
Proof. intros. unfold genesis_stop_until_interrupt. mach. Qed.
End Runtime.

#[export] Hint Extern 1 (keeps _ (m68k_raise_exception_frame _) _) => apply raise_frame_ok; word : keeps.
#[export] Hint Extern 1 (keeps _ (runtime_defer_exception_cycles _) _) => apply defer_ok; word : keeps.
#[export] Hint Extern 1 (keeps _ (genesis_stop_until_interrupt _) _) => apply genesis_stop_ok; word : keeps.
