(* ===== verification/InterpOk.v ===== *)
(** The interpreter keeps its world well formed: registers hold 32-bit values,
    the status register 16 bits, the call-target record stays within its bound
    and without duplicates, and the board's own invariant holds, on every path
    of every instruction, bus faults and interrupt unwinding included. *)

From Stdlib Require Import ZArith Lia Bool.
From stdpp Require Import base tactics numbers list sets.
From S2P Require Import Prelude Arith68k Irq Cpu Insn Alu Ea Cycles Interp CpuOk OperandOk.
Open Scope Z_scope.
Open Scope mach_scope.

(** The result of an instruction: a next PC in range. *)
Abbreviation next_ok := (fun r : M68kiStatus * Z => is_u32 (snd r)).

Lemma immediate_result_u32 mn a im : is_u32 a -> is_u32 im -> is_u32 (immediate_result mn a im).
Proof. intros. destruct mn; cbn; word. Qed.
Lemma immediate_flags_u16 mn a im r sz sr :
  is_u16 sr -> is_u16 (immediate_flags mn a im r sz sr).
Proof.
  intros. destruct mn; cbn; first [by apply flags_logic_u16 | by apply flags_add_u16
                                  | by apply flags_sub_u16].
Qed.

Section ExecOk.
Context {S : Type} `{BoardOk S}.
Context (ins : M68KInstr) (Hins : instr_ok ins).

Lemma done_ok : keeps sys_ok (done (S:=S) ins) next_ok.
Proof. apply keeps_ret. cbn. unfold fall. word. Qed.
Lemma jump_ok pc : is_u32 pc -> keeps sys_ok (jump (S:=S) pc) next_ok.
Proof. intros. by apply keeps_ret. Qed.
Lemma unimplemented_ok : keeps sys_ok (unimplemented (S:=S) ins) next_ok.
Proof.
  unfold unimplemented. eapply keeps_bind; [apply set_bad_ok|].
  intros _ _. apply keeps_ret. cbn. unfold fall. word.
Qed.
Lemma target_ok : is_u32 (i_target_addr ins).
Proof. apply Hins. Qed.
Lemma fall_ok : is_u32 (fall ins).
Proof. unfold fall. word. Qed.
Lemma imm32_ok : is_u32 (i_imm32 ins).
Proof. apply Hins. Qed.
Hint Resolve done_ok jump_ok unimplemented_ok target_ok : keeps.
Hint Resolve fall_ok imm32_ok target_ok : word.

Lemma rmw_ok sz er f :
  (forall a, is_word (szbits sz) a -> is_u32 a -> keeps sys_ok (f a) is_u32) ->
  keeps sys_ok (rmw (S:=S) ins sz er f) next_ok.
Proof.
  intros Hf. unfold rmw. eapply keeps_bind; [by apply read_ea_ex_ok|]. intros [a er'] Ha.
  cbn in Ha. eapply keeps_bind; [apply Hf; [apply land_szmask_word|word]|]. mach.
Qed.

Ltac exec := repeat (mach_step; try done); cbn [fst snd] in *; try word.

Lemma exec_move_ok : keeps sys_ok (exec_move (S:=S) ins) next_ok.
Proof. unfold exec_move. exec. Qed.
Lemma exec_movea_ok : keeps sys_ok (exec_movea (S:=S) ins) next_ok.
Proof. unfold exec_movea. exec. Qed.
Lemma exec_moveq_ok : keeps sys_ok (exec_moveq (S:=S) ins) next_ok.
Proof. unfold exec_moveq. exec. Qed.
Lemma exec_lea_ok : keeps sys_ok (exec_lea (S:=S) ins) next_ok.
Proof. unfold exec_lea. exec. Qed.
Lemma exec_pea_ok : keeps sys_ok (exec_pea (S:=S) ins) next_ok.
Proof. unfold exec_pea. exec. Qed.
Lemma exec_tst_ok : keeps sys_ok (exec_tst (S:=S) ins) next_ok.
Proof. unfold exec_tst. exec. Qed.
Lemma exec_clr_ok : keeps sys_ok (exec_clr (S:=S) ins) next_ok.
Proof. unfold exec_clr. exec. Qed.
Lemma exec_ext_ok : keeps sys_ok (exec_ext (S:=S) ins) next_ok.
Proof. unfold exec_ext. exec. Qed.
Lemma exec_swap_ok : keeps sys_ok (exec_swap (S:=S) ins) next_ok.
Proof. unfold exec_swap. exec. Qed.
Lemma exec_exg_ok : keeps sys_ok (exec_exg (S:=S) ins) next_ok.
Proof. unfold exec_exg. exec. Qed.
Lemma exec_add_sub_ok b : keeps sys_ok (exec_add_sub (S:=S) ins b) next_ok.
Proof. unfold exec_add_sub. destruct b; exec; apply rmw_ok; exec. Qed.
Lemma exec_adda_suba_ok b : keeps sys_ok (exec_adda_suba (S:=S) ins b) next_ok.
Proof. unfold exec_adda_suba. exec. Qed.
Lemma exec_cmp_ok : keeps sys_ok (exec_cmp (S:=S) ins) next_ok.
Proof. unfold exec_cmp. exec. Qed.
Lemma exec_cmpa_ok : keeps sys_ok (exec_cmpa (S:=S) ins) next_ok.
Proof. unfold exec_cmpa. exec. Qed.
Lemma exec_cmpm_ok : keeps sys_ok (exec_cmpm (S:=S) ins) next_ok.
Proof. unfold exec_cmpm. exec. Qed.
Lemma exec_and_or_ok b : keeps sys_ok (exec_and_or (S:=S) ins b) next_ok.
Proof. unfold exec_and_or. destruct b; exec; apply rmw_ok; exec. Qed.
Lemma exec_eor_ok : keeps sys_ok (exec_eor (S:=S) ins) next_ok.
Proof. unfold exec_eor. apply rmw_ok. exec. Qed.
Lemma exec_addq_subq_ok b : keeps sys_ok (exec_addq_subq (S:=S) ins b) next_ok.
Proof. unfold exec_addq_subq. destruct b; exec; apply rmw_ok; exec. Qed.
Lemma exec_immediate_ok : keeps sys_ok (exec_immediate (S:=S) ins) next_ok.
Proof.
  unfold exec_immediate. cbv zeta.
  pose proof (er_next_imm_u32 ins er_init (i_size ins) Hins) as Him.
  destruct (er_next_imm ins er_init (i_size ins)) as [imm er]. cbn in Him.
  case_match; [exec|]. apply rmw_ok. intros a _ Ha.
  pose proof (immediate_result_u32 (i_mnemonic ins) a (Z.land imm (szmask (i_size ins)))
                ltac:(done) ltac:(word)).
  eapply (keeps_bind _ _ _ (fun _ => True)); [|exec].
  apply keeps_upd_SR. intros sr Hsr. by apply immediate_flags_u16.
Qed.

Lemma exec_bcc_ok : keeps sys_ok (exec_bcc (S:=S) ins) next_ok.
Proof. unfold exec_bcc. exec. Qed.
Lemma exec_bsr_ok : keeps sys_ok (exec_bsr (S:=S) ins) next_ok.
Proof. unfold exec_bsr. exec. Qed.
Lemma exec_dbcc_ok : keeps sys_ok (exec_dbcc (S:=S) ins) next_ok.
Proof. unfold exec_dbcc. exec. Qed.
Lemma exec_jmp_ok : keeps sys_ok (exec_jmp (S:=S) ins) next_ok.
Proof. unfold exec_jmp. exec. Qed.
Lemma exec_jsr_ok : keeps sys_ok (exec_jsr (S:=S) ins) next_ok.
Proof. unfold exec_jsr. exec. Qed.
Lemma exec_rts_ok : keeps sys_ok (exec_rts (S:=S) ins) next_ok.
Proof. unfold exec_rts. exec. Qed.
Lemma exec_rtr_ok : keeps sys_ok (exec_rtr (S:=S) ins) next_ok.
Proof. unfold exec_rtr. exec. Qed.
Lemma exec_stop_ok : keeps sys_ok (exec_stop (S:=S) ins) next_ok.
Proof. unfold exec_stop. exec. Qed.
Lemma exec_rte_ok : keeps sys_ok (exec_rte (S:=S) ins) next_ok.
Proof. unfold exec_rte. exec. Qed.
Lemma exec_trap_ok : keeps sys_ok (exec_trap (S:=S) ins) next_ok.
Proof. unfold exec_trap. exec. Qed.

Lemma do_shift_ok mn dreg sz rc creg imm :
  keeps sys_ok (do_shift (S:=S) mn dreg sz rc creg imm) (fun _ => True).
Proof.
  unfold do_shift. eapply keeps_bind; [apply keeps_getD|]. intros dc Hdc.
  eapply keeps_bind; [apply keeps_getD|]. intros d Hd.
  eapply keeps_bind; [apply keeps_getSR|]. intros sr Hsr. cbv zeta.
  destruct (shift_switch _ _ _ _ _ _ _) as [o| |] eqn:E; [|by apply keeps_ret|apply keeps_throw].
  assert (is_u32 (sh_res o)).
  { eapply shift_res_u32; [| |exact E|]; [word|word|]. destruct sz; cbn; lia. }
  mach.
Qed.
Lemma exec_shift_ok : keeps sys_ok (exec_shift (S:=S) ins) next_ok.
Proof.
  unfold exec_shift. destruct (i_mem_shift ins).
  - apply rmw_ok. intros sv Hsv _. exec.
    eapply (is_word_mono 16); [lia|]. by apply mem_shift_res_u16.
  - eapply keeps_bind; [apply do_shift_ok|]. exec.
Qed.

Lemma set_Z_from_bit_u16 src bn sr : is_u16 (set_Z_from_bit src bn sr).
Proof. unfold set_Z_from_bit. word. Qed.
Hint Resolve set_Z_from_bit_u16 : word.

Lemma exec_bit_ok : keeps sys_ok (exec_bit (S:=S) ins) next_ok.
Proof.
  unfold exec_bit. cbv zeta. eapply keeps_bind; [apply keeps_getD|]. intros d Hd.
  assert (is_u32 (2 ^ Z.land (if i_reg ins <? 0 then i_imm32 ins else d)
                   (if ea_mode (i_src_ea ins) =? 0 then 31 else 7))) as Hbit.
  { set (x := if i_reg ins <? 0 then _ else _).
    pose proof (land_word_r 5 x 31 ltac:(word) ltac:(lia)).
    pose proof (land_word_r 3 x 7 ltac:(word) ltac:(lia)). unfold is_word in *.
    destruct (_ =? 0); apply (pow2_small _ 32); lia. }
  destruct (decide (i_mnemonic ins = MN_BTST)); [exec|]. apply rmw_ok. intros src _ Hsrc.
  eapply (keeps_bind _ _ _ (fun _ => True)); [exec|]. intros _ _. apply keeps_ret.
  destruct (i_mnemonic ins); word.
Qed.

Lemma exec_neg_ok : keeps sys_ok (exec_neg (S:=S) ins) next_ok.
Proof.
  unfold exec_neg. cbv zeta. apply rmw_ok. intros a _ Ha.
  destruct (decide (i_mnemonic ins = MN_NEGX)) as [->|Hx].
  - eapply keeps_bind; [apply keeps_getSR|]. intros sr Hsr.
    pose proof (negx_sr_u16 a sr (i_size ins) Hsr) as Hs.
    destruct (negx a sr (i_size ins)) as [r sr'] eqn:E. cbn in Hs.
    assert (is_u32 r) by (unfold negx in E; injection E as <- _; word). exec.
  - destruct (decide (i_mnemonic ins = MN_NOT)) as [->|Hn]; [exec|].
    set (neg := let r := Z.land (u32 (0 - a)) (szmask (i_size ins)) in
           (upd_SR (flags_sub 0 a r (i_size ins));;; ret r) : Mach (Sys S) Z).
    assert (keeps sys_ok neg is_u32) by (unfold neg; exec).
    destruct (i_mnemonic ins); done.
Qed.

Lemma exec_tas_ok : keeps sys_ok (exec_tas (S:=S) ins) next_ok.
Proof. unfold exec_tas. apply rmw_ok. exec. Qed.
Lemma exec_mulu_ok : keeps sys_ok (exec_mulu (S:=S) ins) next_ok.
Proof. unfold exec_mulu. exec. Qed.
Lemma exec_muls_ok : keeps sys_ok (exec_muls (S:=S) ins) next_ok.
Proof. unfold exec_muls. exec. Qed.

Lemma do_div_ok dr src sg : keeps sys_ok (do_div (S:=S) dr src sg) (fun _ => True).
Proof.
  unfold do_div. eapply keeps_bind; [apply keeps_getD|]. intros d Hd.
  pose proof (div_ccr_u16 d (u16 src) sg d). pose proof (div_result_u32 d (u16 src) sg d Hd).
  destruct (m68k_divide_word _ _ _ _) as [[st p] ccr]. cbn in *. exec.
Qed.
Lemma exec_div_ok sg : keeps sys_ok (exec_div (S:=S) ins sg) next_ok.
Proof.
  unfold exec_div. eapply keeps_bind; [by apply read_ea_ex_ok|]. intros [s0 er] _.
  eapply keeps_bind; [apply do_div_ok|]. exec.
Qed.

(** *** MOVEM *)
Lemma get_reg_ok b i : keeps sys_ok (get_reg (S:=S) b i) is_u32.
Proof. unfold get_reg. destruct b; exec. Qed.
Lemma put_reg_ok b i v : is_u32 v -> keeps sys_ok (put_reg (S:=S) b i v) (fun _ => True).
Proof. intros. unfold put_reg. destruct b; exec. Qed.
Hint Resolve get_reg_ok : keeps.
Hint Extern 1 (keeps _ (put_reg _ _ _) _) => apply put_reg_ok; word : keeps.

Lemma movem_predec_ok sz mask bits mb :
  is_u32 mb -> keeps sys_ok (movem_predec (S:=S) sz mask bits mb) is_u32.
Proof.
  revert mb. induction bits as [|bit bits IH]; intros mb Hmb; cbn [movem_predec];
    [by apply keeps_ret|].
  destruct (negb _); [by apply IH|]. exec.
Qed.
Lemma movem_store_ok sz mask bits mb :
  is_u32 mb -> keeps sys_ok (movem_store (S:=S) sz mask bits mb) is_u32.
Proof.
  revert mb. induction bits as [|bit bits IH]; intros mb Hmb; cbn [movem_store];
    [by apply keeps_ret|].
  destruct (negb _); [by apply IH|]. exec.
Qed.
Lemma movem_load_ok sz mask bits mb :
  is_u32 mb -> keeps sys_ok (movem_load (S:=S) sz mask bits mb) is_u32.
Proof.
  revert mb. induction bits as [|bit bits IH]; intros mb Hmb; cbn [movem_load];
    [by apply keeps_ret|].
  destruct (negb _); [by apply IH|]. exec.
Qed.
Lemma movem_base_ok : keeps sys_ok (movem_base (S:=S) ins) is_u32.
Proof.
  pose proof (er_next_dword_u32 ins (er_init_at 2) Hins).
  unfold movem_base. cbv zeta.
  destruct (er_next ins (er_init_at 2)) as [w er1].
  destruct (ea_mode (i_src_ea ins)) as [|[[[]|[]|]|[[]|[]|]|]|]; cbn match;
    try (destruct (ea_reg (i_src_ea ins)) as [|[[[]|[]|]|[[]|[]|]|]|]; cbn match); exec.
Qed.
Hint Resolve movem_base_ok movem_predec_ok movem_store_ok movem_load_ok : keeps.
Lemma exec_movem_ok : keeps sys_ok (exec_movem (S:=S) ins) next_ok.
Proof. unfold exec_movem, do_movem. exec. Qed.

Lemma exec_link_ok : keeps sys_ok (exec_link (S:=S) ins) next_ok.
Proof. unfold exec_link. exec. Qed.
Lemma exec_unlk_ok : keeps sys_ok (exec_unlk (S:=S) ins) next_ok.
Proof. unfold exec_unlk. exec. Qed.
Lemma exec_scc_ok : keeps sys_ok (exec_scc (S:=S) ins) next_ok.
Proof. unfold exec_scc. exec. Qed.
Lemma exec_move_sr_ok : keeps sys_ok (exec_move_sr (S:=S) ins) next_ok.
Proof. unfold exec_move_sr. exec. Qed.
Lemma exec_move_ccr_ok : keeps sys_ok (exec_move_ccr (S:=S) ins) next_ok.
Proof. unfold exec_move_ccr. exec. Qed.
Lemma exec_move_usp_ok : keeps sys_ok (exec_move_usp (S:=S) ins) next_ok.
Proof. unfold exec_move_usp. exec. Qed.
Lemma exec_imm_sr_ok : keeps sys_ok (exec_imm_sr (S:=S) ins) next_ok.
Proof.
  unfold exec_imm_sr. cbv zeta. eapply keeps_bind; [apply keeps_getSR|]. intros sr Hsr.
  eapply (keeps_bind _ _ _ (fun _ => True)); [|exec].
  destruct (i_mnemonic ins); first [apply keeps_set_sr; word | apply keeps_putSR; word].
Qed.

Lemma addx_subx_r_u32 a b sr sz f : is_u32 (fst (addx_subx a b sr sz f)).
Proof. unfold addx_subx. cbn [fst]. word. Qed.
Lemma exec_addx_subx_ok b : keeps sys_ok (exec_addx_subx (S:=S) ins b) next_ok.
Proof.
  unfold exec_addx_subx, do_addx_subx. eapply (keeps_bind _ _ _ (fun _ => True)); [|exec].
  cbv zeta. destruct (i_predec_mem_form ins).
  all: repeat match goal with
    | |- keeps _ (match addx_subx ?a ?b ?sr ?sz ?f with _ => _ end) _ =>
      pose proof (addx_subx_r_u32 a b sr sz f); pose proof (addx_subx_sr_u16 a b sr sz f);
      destruct (addx_subx a b sr sz f) as [r sr']; cbn [fst snd] in *
    | |- _ => mach_step
    end; auto.
Qed.

Lemma bcd_u8 a b x : is_u8 (fst (abcd a b x)) /\ is_u8 (fst (sbcd a b x)) /\ is_u8 (fst (nbcd a x)).
Proof. split_and!; cbn; apply u8_range. Qed.
Lemma bcd_result_u8 op a b x : is_u8 (fst (if op =? 0 then abcd a b x else sbcd a b x)).
Proof. destruct (op =? 0); apply bcd_u8; done. Qed.
Lemma exec_bcd_ok op : keeps sys_ok (exec_bcd (S:=S) ins op) next_ok.
Proof.
  unfold exec_bcd, do_bcd. eapply (keeps_bind _ _ _ (fun _ => True)); [|exec].
  eapply keeps_bind; [apply keeps_getSR|]. intros sr0 Hsr0. cbv zeta.
  destruct (op =? 2).
  - eapply keeps_bind; [by apply read_ea_ex_ok|]. intros [a er] Ha.
    pose proof (u8_range (fst (nbcd (u8 (Z.land a 255)) (Z.land (Z.shiftr sr0 4) 1)))).
    destruct (nbcd _ _) as [r c] eqn:E.
    assert (is_u8 r) by (unfold nbcd in E; injection E as <- _; word). exec.
  - destruct (i_predec_mem_form ins).
    all: repeat match goal with
      | |- keeps _ (match (if ?o =? 0 then abcd ?a ?b ?x else _) with _ => _ end) _ =>
        pose proof (bcd_result_u8 o a b x);
        destruct (if o =? 0 then abcd a b x else sbcd a b x) as [r c]; cbn [fst snd] in *
      | |- _ => mach_step
      end; auto.
Qed.

Hint Resolve exec_move_ok exec_movea_ok exec_moveq_ok exec_lea_ok
  exec_pea_ok exec_tst_ok exec_clr_ok exec_ext_ok
  exec_swap_ok exec_exg_ok exec_add_sub_ok exec_adda_suba_ok
  exec_cmp_ok exec_cmpa_ok exec_cmpm_ok exec_and_or_ok
  exec_eor_ok exec_addq_subq_ok exec_immediate_ok exec_bcc_ok
  exec_bsr_ok exec_dbcc_ok exec_jmp_ok exec_jsr_ok
  exec_rts_ok exec_rtr_ok exec_stop_ok exec_rte_ok
  exec_trap_ok exec_shift_ok exec_bit_ok exec_neg_ok
  exec_tas_ok exec_mulu_ok exec_muls_ok exec_div_ok
  exec_movem_ok exec_link_ok exec_unlk_ok exec_scc_ok
  exec_move_sr_ok exec_move_ccr_ok exec_move_usp_ok exec_imm_sr_ok
  exec_addx_subx_ok exec_bcd_ok : keeps.
Hint Extern 1 (keeps _ (jump (i_target_addr _)) _) => apply jump_ok, target_ok : keeps.
Hint Extern 1 (keeps _ (exec_reset _) _) => apply done_ok : keeps.

(** Every instruction, on every operand form and whatever the board
    answers, keeps the machine well formed and computes a 32-bit next PC:
    registers stay 32-bit words, SR a 16-bit word, the call-target record
    bounded and duplicate-free; a bus fault leaves such a state too. *)
Lemma exec_one_ok : keeps sys_ok (exec_one (S:=S) ins) next_ok.
Proof.
  unfold exec_one. destruct (i_mnemonic ins); auto 2 with keeps.
Qed.
End ExecOk.
