(* ===== verification/AluSpec.v ===== *)
(** What the condition codes, extended arithmetic and packed BCD mean: flags as
    facts about unsigned and signed integers, the conditional branches as
    comparisons, ADDX and SUBX as multi-precision carries, ABCD and SBCD as
    decimal arithmetic. *)

From Stdlib Require Import ZArith Lia Bool.
From stdpp Require Import base tactics numbers list.
From S2P Require Import Prelude Cpu Insn Alu.
Open Scope Z_scope.

(** The two's complement reading of a word of the size. *)
Definition signed (sz : M68KSize) (x : Z) : Z :=
  if x <? szsign sz then x else x - 2 ^ szbits sz.

(** ** Reading flags back *)
Definition flag_bit (f : Z) : Z := Z.log2 f.

Lemma flag_lor n f sr : flag n (Z.lor sr f) = flag n sr || flag n f.
Proof. unfold flag. by rewrite Z.lor_spec. Qed.
Lemma flag_or_if n b f sr : flag n (or_if b f sr) = flag n sr || (b && flag n f).
Proof. destruct b; cbn; [apply flag_lor|]. by rewrite orb_false_r. Qed.
Lemma flag_clear n f sr : 0 <= n -> flag n (clear_bits f sr) = flag n sr && negb (flag n f).
Proof. intros. unfold flag, clear_bits. by rewrite Z.land_spec, Z.lnot_spec. Qed.
Lemma flag_if n (b : bool) x y :
  flag n (if b then x else y) = (b && flag n x) || (negb b && flag n y).
Proof. destruct b; cbn; by rewrite ?orb_false_r. Qed.

(** Evaluate every flag of a status register built by the flag helpers. *)
Ltac flags :=
  repeat first [ rewrite flag_or_if | rewrite flag_clear by lia | rewrite flag_if | rewrite flag_lor ];
  repeat match goal with
  | |- context [flag ?n ?f] =>
    let v := eval vm_compute in (flag n f) in
    match v with true => change (flag n f) with true | false => change (flag n f) with false end
  end;
  cbn [negb]; rewrite ?andb_true_r, ?andb_false_r, ?orb_false_r, ?orb_true_r, ?orb_false_l, ?andb_true_l.

(** ** Sign tests *)
Lemma sign_shift sz x :
  is_word (szbits sz) x -> z2b (Z.shiftr x (szbits sz - 1)) = (szsign sz <=? x).
Proof.
  intros Hx. unfold szsign. rewrite <- (testbit_top (szbits sz)) by (done || by destruct sz).
  unfold is_word in Hx. destruct sz; cbn in *; unfold z2b; rewrite Z.testbit_eqb, Z.shiftr_div_pow2 by lia;
    cbn; zlia.
Qed.

Lemma sign_land sz x : is_word (szbits sz) x -> z2b (Z.land x (szsign sz)) = (szsign sz <=? x).
Proof.
  intros Hx. unfold szsign at 1. rewrite testbit_land_pow2 by (by destruct sz).
  by rewrite (testbit_top (szbits sz)) by (done || by destruct sz).
Qed.

Lemma sign_xor sz x y :
  is_word (szbits sz) x -> is_word (szbits sz) y ->
  z2b (Z.land (Z.lxor x y) (szsign sz)) = xorb (szsign sz <=? x) (szsign sz <=? y).
Proof.
  intros Hx Hy. unfold szsign at 1. rewrite testbit_land_pow2 by (by destruct sz).
  rewrite Z.lxor_spec. by rewrite !(testbit_top (szbits sz)) by (done || by destruct sz).
Qed.

Lemma land_szmask_id sz x : is_word (szbits sz) x -> Z.land x (szmask sz) = x.
Proof. intros. rewrite land_szmask. by apply Z.mod_small. Qed.
Lemma land_szmask_u32 sz x : Z.land (u32 x) (szmask sz) = x mod 2 ^ szbits sz.
Proof. rewrite land_szmask. unfold u32. destruct sz; cbn; zlia. Qed.
Lemma mod_szbits_word sz x : is_word (szbits sz) (x mod 2 ^ szbits sz).
Proof. rewrite <- land_szmask. apply land_szmask_word. Qed.

Lemma xorb_or x y : xorb x y = (x && negb y) || (negb x && y).
Proof. by destruct x, y. Qed.
Lemma eqb_or x y : eqb x y = (x && y) || (negb x && negb y).
Proof. by destruct x, y. Qed.

(** Rewrite the sign tests of the flag helpers into comparisons. *)
Ltac signs :=
  rewrite ?land_szmask_u32; rewrite ?land_szmask_id by done;
  rewrite ?sign_shift by (done || apply mod_szbits_word);
  rewrite ?sign_land by (done || apply mod_szbits_word);
  rewrite ?sign_xor by (done || apply mod_szbits_word).

Ltac by_size := unfold is_word, signed, szsign in *;
  match goal with sz : M68KSize |- _ => destruct sz end;
  cbn [szbits szmask] in *; change (2 ^ 8) with 256 in *; change (2 ^ 16) with 65536 in *;
  change (2 ^ 32) with 4294967296 in *; change (2 ^ (8 - 1)) with 128 in *;
  change (2 ^ (16 - 1)) with 32768 in *; change (2 ^ (32 - 1)) with 2147483648 in *;
  repeat match goal with |- context [if ?x <? ?y then _ else _] =>
    destruct (Z.ltb_spec x y) end;
  rewrite ?eqb_or, ?xorb_or.

(** ** Flags *)
Record arith_flags (sz : M68KSize) (exact_u exact_s : Z) (sr sr' : Z) : Prop := {
  (* carry: the unsigned result does not fit *)
  af_C : flag 0 sr' = negb ((0 <=? exact_u) && (exact_u <? 2 ^ szbits sz));
  (* overflow: the signed result does not fit *)
  af_V : flag 1 sr' = negb ((- szsign sz <=? exact_s) && (exact_s <? szsign sz));
  af_Z : flag 2 sr' = (exact_u mod 2 ^ szbits sz =? 0);
  af_N : flag 3 sr' = (szsign sz <=? exact_u mod 2 ^ szbits sz);
  (* the system byte is untouched *)
  af_high : forall n, 5 <= n -> flag n sr' = flag n sr;
}.

Lemma flag_high n f : 5 <= n -> is_word 5 f -> flag n f = false.
Proof. intros. by apply (testbit_word_high 5). Qed.
Lemma flag_high_SR n : 5 <= n ->
  flag n SR_C = false /\ flag n SR_V = false /\ flag n SR_Z = false /\ flag n SR_N = false /\
  flag n SR_X = false /\ flag n 0x1F = false /\ flag n 0x0F = false.
Proof. intros. split_and!; (apply flag_high; [done|]); by split. Qed.
Ltac high_flags :=
  intros n Hn; destruct (flag_high_SR n Hn) as (HC & HV & HZ & HN & HX & H1F & H0F);
  repeat first [ rewrite flag_or_if | rewrite flag_clear by lia | rewrite flag_if | rewrite flag_lor ];
  rewrite ?HC, ?HV, ?HZ, ?HN, ?HX, ?H1F, ?H0F;
  generalize (flag n); intros g; cbn [negb];
  rewrite ?andb_false_r, ?orb_false_r, ?andb_true_r;
  try match goal with |- (?b && _) || _ = _ => destruct b end; cbn; by rewrite ?orb_false_r.

Lemma flags_add_spec a b sz sr :
  is_word (szbits sz) a -> is_word (szbits sz) b ->
  arith_flags sz (a + b) (signed sz a + signed sz b) sr (flags_add a b (u32 (a + b)) sz sr) /\
  flag 4 (flags_add a b (u32 (a + b)) sz sr) = (szmask sz <? a + b).
Proof.
  intros Ha Hb. unfold flags_add. cbv zeta. signs.
  split; [split|].
  - flags; first [done | by_size; zlia].
  - flags; first [done | by_size; zlia].
  - flags; first [done | by_size; zlia].
  - flags; first [done | by_size; zlia].
  - high_flags.
  - flags; first [done | by_size; zlia].
Qed.

Lemma flags_sub_spec a b sz sr :
  is_word (szbits sz) a -> is_word (szbits sz) b ->
  arith_flags sz (a - b) (signed sz a - signed sz b) sr (flags_sub a b (u32 (a - b)) sz sr) /\
  flag 4 (flags_sub a b (u32 (a - b)) sz sr) = (a <? b).
Proof.
  intros Ha Hb. unfold flags_sub. cbv zeta. signs.
  split; [split|].
  - flags; first [done | by_size; zlia].
  - flags; first [done | by_size; zlia].
  - flags; first [done | by_size; zlia].
  - flags; first [done | by_size; zlia].
  - high_flags.
  - flags; first [done | by_size; zlia].
Qed.

(** C24. ADD and SUB set the flags of the exact result: C (and X) when it does
    not fit unsigned, V when it does not fit signed, Z and N of the wrapped
    value, and nothing above the condition codes. *)
Theorem add_sub_flags_exact a b sz sr :
  is_word (szbits sz) a -> is_word (szbits sz) b ->
  let add := flags_add a b (u32 (a + b)) sz sr in
  let sub := flags_sub a b (u32 (a - b)) sz sr in
  arith_flags sz (a + b) (signed sz a + signed sz b) sr add /\ flag 4 add = flag 0 add /\
  arith_flags sz (a - b) (signed sz a - signed sz b) sr sub /\ flag 4 sub = flag 0 sub.
Proof.
  intros Ha Hb add sub.
  destruct (flags_add_spec a b sz sr Ha Hb) as [H1 HX1].
  destruct (flags_sub_spec a b sz sr Ha Hb) as [H2 HX2].
  fold add in H1, HX1. fold sub in H2, HX2.
  split_and!; [exact H1| |exact H2|].
  - rewrite HX1, (af_C _ _ _ _ _ H1). by_size; lia.
  - rewrite HX2, (af_C _ _ _ _ _ H2). by_size; lia.
Qed.

Lemma add_sub_flags_exact_witness :
  let add := flags_add 0x7F 1 (u32 (0x7F + 1)) M68K_SIZE_B 0x2700 in
  arith_flags M68K_SIZE_B (0x7F + 1) (signed M68K_SIZE_B 0x7F + signed M68K_SIZE_B 1) 0x2700 add
  /\ add = 0x270A.
Proof.
  split; [|reflexivity].
  apply (add_sub_flags_exact 0x7F 1 M68K_SIZE_B 0x2700); unfold is_word; cbn; lia.
Defined.

(** After a CMP of [b] with [a], each conditional branch decides the
    comparison its name promises, unsigned or signed, at every operand size. *)
Theorem cmp_branches_decide a b sz sr :
  is_word (szbits sz) a -> is_word (szbits sz) b ->
  let sr' := flags_cmp a b (u32 (a - b)) sz sr in
  eval_cond 0x2 sr' = (b <? a) /\ eval_cond 0x3 sr' = (a <=? b) /\
  eval_cond 0x4 sr' = (b <=? a) /\ eval_cond 0x5 sr' = (a <? b) /\
  eval_cond 0x6 sr' = negb (a =? b) /\ eval_cond 0x7 sr' = (a =? b) /\
  eval_cond 0xC sr' = (signed sz b <=? signed sz a) /\
  eval_cond 0xD sr' = (signed sz a <? signed sz b) /\
  eval_cond 0xE sr' = (signed sz b <? signed sz a) /\
  eval_cond 0xF sr' = (signed sz a <=? signed sz b).
Proof.
  intros Ha Hb sr'. unfold eval_cond.
  repeat match goal with |- context [Z.land ?c 0xF] =>
    let v := eval vm_compute in (Z.land c 0xF) in change (Z.land c 0xF) with v end.
  cbn match. cbv zeta.
  assert (flag 0 sr' = (a <? b)) as ->.
  { unfold sr', flags_cmp. cbv zeta. signs. by flags. }
  assert (flag 2 sr' = (a =? b)) as ->.
  { unfold sr', flags_cmp. cbv zeta. signs. flags. by_size; zlia. }
  assert (flag 3 sr' = (szsign sz <=? (a - b) mod 2 ^ szbits sz)) as ->.
  { unfold sr', flags_cmp. cbv zeta. signs. by flags. }
  assert (flag 1 sr' = xorb (szsign sz <=? a) (szsign sz <=? b) &&
                       xorb (szsign sz <=? a) (szsign sz <=? (a - b) mod 2 ^ szbits sz)) as ->.
  { unfold sr', flags_cmp. cbv zeta. signs. by flags. }
  clear sr'. split_and!; by_size; zlia.
Qed.

Lemma cmp_branches_decide_witness :
  eval_cond 0xD (flags_cmp 0xFFFF 1 (u32 (0xFFFF - 1)) M68K_SIZE_W 0) =
    (signed M68K_SIZE_W 0xFFFF <? signed M68K_SIZE_W 1) /\
  (signed M68K_SIZE_W 0xFFFF <? signed M68K_SIZE_W 1) = true.
Proof.
  split; [|reflexivity].
  apply (cmp_branches_decide 0xFFFF 1 M68K_SIZE_W 0); unfold is_word; cbn; lia.
Defined.

(** ** Extended arithmetic *)
Lemma land_1 x : Z.land x 1 = x mod 2.
Proof. apply (Z.land_ones x 1). lia. Qed.
Lemma x_flag sr : Z.land (Z.shiftr sr 4) 1 = b2z (flag 4 sr).
Proof.
  rewrite land_1, <- Z.bit0_mod, Z.shiftr_spec by lia. cbn. unfold flag. by destruct (Z.testbit sr 4).
Qed.
Lemma z2b_land_1 x : z2b (Z.land x 1) = Z.odd x.
Proof. rewrite land_1, Zmod_odd. by destruct (Z.odd x). Qed.
Lemma odd_shift_bool x n b : 0 <= n -> Z.shiftr x n = b2z b -> Z.odd (Z.shiftr x n) = b.
Proof. intros Hn ->. by destruct b. Qed.

Lemma add_carry sz full :
  0 <= full < 2 * 2 ^ szbits sz ->
  z2b (Z.land (Z.shiftr full (szbits sz)) 1) = (2 ^ szbits sz <=? full).
Proof.
  intros Hf. rewrite z2b_land_1. apply odd_shift_bool; [by destruct sz|].
  rewrite Z.shiftr_div_pow2 by (by destruct sz). destruct sz; cbn in *;
    destruct (_ <=? _) eqn:E; cbn; zlia.
Qed.
Lemma sub_borrow sz full :
  - 2 ^ szbits sz <= full < 2 ^ szbits sz ->
  z2b (Z.land (Z.shiftr (u64 full) 63) 1) = (full <? 0).
Proof.
  intros Hf. rewrite z2b_land_1. apply odd_shift_bool; [lia|].
  rewrite Z.shiftr_div_pow2 by lia. change (2 ^ 63) with 0x8000000000000000. unfold u64.
  destruct sz; cbn in *; destruct (_ <? _) eqn:E; cbn; zlia.
Qed.
Lemma u64_mod_sz sz x : Z.land (u32 (u64 x)) (szmask sz) = x mod 2 ^ szbits sz.
Proof. rewrite land_szmask. unfold u32, u64. destruct sz; cbn; zlia. Qed.

Lemma addx_value a b sr sz :
  is_word (szbits sz) a -> is_word (szbits sz) b ->
  let '(r, sr') := addx_subx a b sr sz true in
  is_word (szbits sz) r /\
  r + 2 ^ szbits sz * b2z (flag 4 sr') = a + b + b2z (flag 4 sr) /\
  flag 2 sr' = flag 2 sr && (r =? 0).
Proof.
  intros Ha Hb. unfold addx_subx. cbv zeta. rewrite x_flag.
  assert (0 <= a + b + b2z (flag 4 sr) < 2 * 2 ^ szbits sz) as Hf.
  { unfold is_word in *. destruct (flag 4 sr); cbn [b2z]; lia. }
  rewrite (add_carry sz _ Hf). rewrite land_szmask_u32. set (full := a + b + _) in *.
  split_and!; [apply mod_szbits_word| |].
  - flags. unfold b2z. destruct (2 ^ szbits sz <=? full) eqn:E; destruct sz; cbn in *; zlia.
  - flags. by destruct (_ <=? _), (flag 2 sr), (_ =? _).
Qed.

Lemma subx_value a b sr sz :
  is_word (szbits sz) a -> is_word (szbits sz) b ->
  let '(r, sr') := addx_subx a b sr sz false in
  is_word (szbits sz) r /\
  r - 2 ^ szbits sz * b2z (flag 4 sr') = a - b - b2z (flag 4 sr) /\
  flag 2 sr' = flag 2 sr && (r =? 0).
Proof.
  intros Ha Hb. unfold addx_subx. cbv zeta. rewrite x_flag.
  assert (- 2 ^ szbits sz <= a - b - b2z (flag 4 sr) < 2 ^ szbits sz) as Hf.
  { unfold is_word in *. destruct (flag 4 sr); cbn [b2z]; lia. }
  rewrite (sub_borrow sz _ Hf). rewrite u64_mod_sz. set (full := a - b - _) in *.
  split_and!; [apply mod_szbits_word| |].
  - flags. unfold b2z. destruct (full <? 0) eqn:E; destruct sz; cbn in *; zlia.
  - flags. by destruct (_ <? _), (flag 2 sr), (_ =? _).
Qed.

(** A multi-precision operation: one ADDX (or SUBX) per limb, least significant
    limb first, as the 68000 idiom does with predecrement operands. *)
Fixpoint extended_chain (sz : M68KSize) (is_add : bool) (limbs : list (Z * Z)) (sr : Z)
    : list Z * Z :=
  match limbs with
  | [] => ([], sr)
  | (a, b) :: rest =>
    let '(r, sr') := addx_subx a b sr sz is_add in
    let '(rs, sr'') := extended_chain sz is_add rest sr' in
    (r :: rs, sr'')
  end.
Fixpoint limbs_value (sz : M68KSize) (l : list Z) : Z :=
  match l with
  | [] => 0
  | d :: l' => d + 2 ^ szbits sz * limbs_value sz l'
  end.
Definition limbs_ok (sz : M68KSize) (l : list (Z * Z)) : Prop :=
  Forall (fun p => is_word (szbits sz) (fst p) /\ is_word (szbits sz) (snd p)) l.

Lemma limbs_value_nonneg sz l : Forall (is_word (szbits sz)) l -> 0 <= limbs_value sz l.
Proof.
  induction 1 as [|d l Hd Hl IH]; cbn; [lia|]. unfold is_word in Hd.
  pose proof (Z.pow_pos_nonneg 2 (szbits sz) ltac:(lia) ltac:(by destruct sz)). nia.
Qed.

(** C26. A chain of ADDX (SUBX) adds (subtracts) numbers of any length: X leaves
    as the carry (borrow) out of the whole number, and Z is set at the end
    exactly when it was set before and every limb of the result is zero. *)
Theorem extended_chain_multiprecision sz is_add limbs sr :
  limbs_ok sz limbs ->
  let '(rs, sr') := extended_chain sz is_add limbs sr in
  let x := b2z (flag 4 sr) in
  let x' := b2z (flag 4 sr') * 2 ^ (szbits sz * Z.of_nat (length limbs)) in
  let A := limbs_value sz (map fst limbs) in
  let B := limbs_value sz (map snd limbs) in
  (if is_add then limbs_value sz rs + x' = A + B + x
   else limbs_value sz rs - x' = A - B - x) /\
  flag 2 sr' = flag 2 sr && (limbs_value sz rs =? 0).
Proof.
  enough (limbs_ok sz limbs ->
    let '(rs, sr') := extended_chain sz is_add limbs sr in
    Forall (is_word (szbits sz)) rs /\
    (if is_add then limbs_value sz rs + b2z (flag 4 sr') * 2 ^ (szbits sz * Z.of_nat (length limbs))
        = limbs_value sz (map fst limbs) + limbs_value sz (map snd limbs) + b2z (flag 4 sr)
     else limbs_value sz rs - b2z (flag 4 sr') * 2 ^ (szbits sz * Z.of_nat (length limbs))
        = limbs_value sz (map fst limbs) - limbs_value sz (map snd limbs) - b2z (flag 4 sr)) /\
    flag 2 sr' = flag 2 sr && (limbs_value sz rs =? 0)) as Hgen.
  { intros Hl. specialize (Hgen Hl). destruct (extended_chain _ _ _ _).
    by destruct Hgen as (_ & ? & ?). }
  assert (0 < 2 ^ szbits sz) as Hp by by destruct sz.
  revert sr. induction limbs as [|[a b] limbs IH]; intros sr Hl; cbn [extended_chain].
  - cbn. rewrite Z.mul_0_r, andb_true_r. split_and!; [constructor|destruct is_add; lia|done].
  - inversion Hl as [|? ? [Ha Hb] Hl']; subst. cbn [fst snd] in *.
    pose proof (addx_value a b sr sz Ha Hb) as Hadd. pose proof (subx_value a b sr sz Ha Hb) as Hsub.
    destruct (addx_subx a b sr sz is_add) as [r sr1] eqn:E.
    specialize (IH sr1 Hl'). destruct (extended_chain sz is_add limbs sr1) as [rs sr'].
    destruct IH as (Hrs & Hv & Hz). cbn [limbs_value map length fst snd].
    replace (szbits sz * Z.of_nat (S (length limbs)))
      with (szbits sz + szbits sz * Z.of_nat (length limbs)) by lia.
    rewrite Z.pow_add_r by (destruct sz; cbn; lia).
    set (P := 2 ^ (szbits sz * _)) in *. set (W := 2 ^ szbits sz) in *.
    pose proof (limbs_value_nonneg sz rs Hrs).
    assert (is_word (szbits sz) r /\ flag 2 sr1 = flag 2 sr && (r =? 0) /\
      if is_add then r + W * b2z (flag 4 sr1) = a + b + b2z (flag 4 sr)
      else r - W * b2z (flag 4 sr1) = a - b - b2z (flag 4 sr)) as (Hr & Hz1 & Hstep).
    { destruct is_add; [rewrite E in Hadd; destruct Hadd as (? & ? & ?)
                       |rewrite E in Hsub; destruct Hsub as (? & ? & ?)]; done. }
    clear Hadd Hsub.
    split_and!; [by constructor| |].
    + destruct is_add; nia.
    + rewrite Hz, Hz1, <- andb_assoc. f_equal. unfold is_word in Hr. fold W in Hr.
      apply Bool.eq_iff_eq_true. rewrite andb_true_iff, !Z.eqb_eq. nia.
Qed.

(** 0x00FF + 0x0001 over two byte limbs, with Z set before the chain. *)
Lemma extended_chain_multiprecision_witness :
  let '(rs, sr') := extended_chain M68K_SIZE_B true [(0xFF, 1); (0, 0)] 4 in
  limbs_value M68K_SIZE_B rs + b2z (flag 4 sr') * 2 ^ (8 * 2) = 0xFF + 1 + 0 /\
  flag 2 sr' = flag 2 4 && (limbs_value M68K_SIZE_B rs =? 0).
Proof.
  apply (extended_chain_multiprecision M68K_SIZE_B true [(0xFF, 1); (0, 0)] 4).
  repeat constructor; unfold is_word; cbn; lia.
Defined.

(** NEGX is SUBX from zero: the separately written result and flags of the
    unary instruction agree with the two-operand one, for every operand, X and
    old Z. *)
Theorem negx_is_subx_from_zero a sr sz :
  is_word (szbits sz) a -> negx a sr sz = addx_subx 0 a sr sz false.
Proof.
  intros Ha. unfold negx, addx_subx. cbv zeta. rewrite x_flag.
  assert (is_word (szbits sz) 0) as H0 by (destruct sz; word).
  set (x := b2z (flag 4 sr)).
  assert (0 <= x <= 1) as Hx by (unfold x; destruct (flag 4 sr); cbn; lia).
  replace (0 - (a + x)) with (0 - a - x) by lia.
  rewrite (sub_borrow sz) by (unfold is_word in Ha; lia). rewrite !u64_mod_sz.
  rewrite sign_land by apply mod_szbits_word. signs.
  replace (negb (a + x =? 0)) with (0 - a - x <? 0) by (unfold is_word in Ha; lia).
  f_equal. rewrite Z.lor_assoc. f_equal.
  rewrite !Z.lxor_0_l. by_size; zlia.
Qed.

Lemma negx_is_subx_from_zero_witness :
  negx 0x8000 0x14 M68K_SIZE_W = addx_subx 0 0x8000 0x14 M68K_SIZE_W false /\
  negx 0x8000 0x14 M68K_SIZE_W = (0x7FFF, 0x11).
Proof.
  split; [|reflexivity]. apply negx_is_subx_from_zero. unfold is_word. cbn. lia.
Defined.

(** ** Packed BCD *)

(** The packed encoding of [0 <= n < 100]. *)
Definition bcd_encode (n : Z) : Z := Z.lor (Z.shiftl (n / 10) 4) (n mod 10).
Lemma bcd_encode_val n : 0 <= n < 100 -> bcd_encode n = n / 10 * 16 + n mod 10.
Proof.
  intros. unfold bcd_encode. rewrite lor_shiftl_add; [done|lia|]. unfold is_word. zlia.
Qed.
Lemma land_15 x : Z.land x 0xF = x mod 16.
Proof. apply (Z.land_ones x 4). lia. Qed.
Lemma land_255 x : Z.land x 0xFF = x mod 256.
Proof. apply (Z.land_ones x 8). lia. Qed.
Lemma shiftr_4 x : Z.shiftr x 4 = x / 16.
Proof. by rewrite Z.shiftr_div_pow2. Qed.
Lemma bit_8 x : 0 <= x < 512 -> z2b (Z.land x 0x100) = (256 <=? x).
Proof.
  intros. change 0x100 with (2 ^ 8). rewrite testbit_land_pow2 by lia. apply (testbit_top 9); unfold is_word; lia.
Qed.
Lemma pair_eq {A B} (a a' : A) (b b' : B) : a = a' -> b = b' -> (a, b) = (a', b').
Proof. by intros -> ->. Qed.

(** Nibbles as numbers. *)
Ltac nibbles := rewrite ?land_15, ?land_255, ?shiftr_4, ?Z.shiftl_mul_pow2 by lia;
  change (2 ^ 4) with 16.

Lemma abcd_decimal a b x :
  0 <= a < 100 -> 0 <= b < 100 -> 0 <= x <= 1 ->
  abcd (bcd_encode a) (bcd_encode b) x =
    (bcd_encode ((a + b + x) mod 100), 100 <=? a + b + x).
Proof.
  intros Ha Hb Hx. unfold abcd. cbv zeta. rewrite !bcd_encode_val by zlia. nibbles.
  replace ((a / 10 * 16 + a mod 10) mod 16) with (a mod 10) by zlia.
  replace ((b / 10 * 16 + b mod 10) mod 16) with (b mod 10) by zlia.
  replace ((a / 10 * 16 + a mod 10) / 16) with (a / 10) by zlia.
  replace ((b / 10 * 16 + b mod 10) / 16) with (b / 10) by zlia.
  destruct (Z.ltb_spec 9 (a mod 10 + b mod 10 + x));
    match goal with |- context [9 <? ?h] => destruct (Z.ltb_spec 9 h) end;
    (apply pair_eq; [unfold u8|rewrite bit_8]); zlia.
Qed.

Lemma sbcd_decimal a b x :
  0 <= a < 100 -> 0 <= b < 100 -> 0 <= x <= 1 ->
  sbcd (bcd_encode a) (bcd_encode b) x =
    (bcd_encode ((a - b - x) mod 100), a - b - x <? 0).
Proof.
  intros Ha Hb Hx. unfold sbcd. cbv zeta. rewrite !bcd_encode_val by zlia. nibbles.
  replace ((a / 10 * 16 + a mod 10) mod 16) with (a mod 10) by zlia.
  replace ((b / 10 * 16 + b mod 10) mod 16) with (b mod 10) by zlia.
  replace ((a / 10 * 16 + a mod 10) / 16) with (a / 10) by zlia.
  replace ((b / 10 * 16 + b mod 10) / 16) with (b / 10) by zlia.
  destruct (Z.ltb_spec (a mod 10 - b mod 10 - x) 0);
    match goal with |- context [?h <? 0] => destruct (Z.ltb_spec h 0) end;
    (apply pair_eq; [unfold u8|]); zlia.
Qed.

Lemma nbcd_is_sbcd b x : nbcd b x = sbcd 0 b x.
Proof. done. Qed.

(** C27. On packed decimal operands ABCD adds, SBCD subtracts and NBCD negates
    modulo one hundred, with the extend bit as decimal carry or borrow in, and
    the carry out exactly when the decimal result leaves 0..99. *)
Theorem bcd_is_decimal a b x :
  0 <= a < 100 -> 0 <= b < 100 -> 0 <= x <= 1 ->
  abcd (bcd_encode a) (bcd_encode b) x =
    (bcd_encode ((a + b + x) mod 100), 100 <=? a + b + x) /\
  sbcd (bcd_encode a) (bcd_encode b) x =
    (bcd_encode ((a - b - x) mod 100), a - b - x <? 0) /\
  nbcd (bcd_encode b) x = (bcd_encode ((- b - x) mod 100), - b - x <? 0).
Proof.
  intros Ha Hb Hx. split; [by apply abcd_decimal|]. split; [by apply sbcd_decimal|].
  rewrite nbcd_is_sbcd. by apply (sbcd_decimal 0).
Qed.

Lemma bcd_is_decimal_witness :
  abcd (bcd_encode 58) (bcd_encode 67) 1 = (bcd_encode ((58 + 67 + 1) mod 100), 100 <=? 58 + 67 + 1)
  /\ abcd 0x58 0x67 1 = (0x26, true).
Proof. split; [|reflexivity]. apply (bcd_is_decimal 58 67 1); lia. Defined.
