(* ===== verification/ShiftSpec.v ===== *)
(** The shift engine against a one-bit-at-a-time reference: every count 0..63
    of every shift and rotate gives the value, carry, extend and overflow of
    that many single steps of the shift register. *)

From Stdlib Require Import ZArith Lia Bool.
From stdpp Require Import base tactics numbers list.
From S2P Require Import Prelude Cpu Insn Alu AluSpec.
Open Scope Z_scope.

(** * The reference *)
Record ShiftReg := mkReg { r_v : Z; r_c : bool; r_x : bool; r_ov : bool }.

Definition msb (w v : Z) : bool := 2 ^ (w - 1) <=? v.

(** One clock of the [w]-bit shift register. *)
Definition shift_step (mn : M68KMnemonic) (w : Z) (s : ShiftReg) : ShiftReg :=
  let v := r_v s in
  let up v' :=
    mkReg v' (msb w v) (msb w v) (r_ov s || xorb (msb w v) (msb w v')) in
  let down v' := mkReg v' (Z.odd v) (Z.odd v) (r_ov s) in
  match mn with
  | MN_LSL | MN_ASL => up (2 * v mod 2 ^ w)
  | MN_LSR => down (v / 2)
  | MN_ASR => down (v / 2 + b2z (msb w v) * 2 ^ (w - 1))
  | MN_ROL => mkReg (2 * v mod 2 ^ w + b2z (msb w v)) (msb w v) (r_x s) (r_ov s)
  | MN_ROR => mkReg (v / 2 + b2z (Z.odd v) * 2 ^ (w - 1)) (Z.odd v) (r_x s) (r_ov s)
  | MN_ROXL => up (2 * v mod 2 ^ w + b2z (r_x s))
  | MN_ROXR => down (v / 2 + b2z (r_x s) * 2 ^ (w - 1))
  | _ => s
  end.

Definition shift_steps (mn : M68KMnemonic) (w : Z) (n : nat) (s : ShiftReg) : ShiftReg :=
  Nat.iter n (shift_step mn w) s.

Definition is_shift (mn : M68KMnemonic) : bool :=
  match mn with
  | MN_LSL | MN_LSR | MN_ASL | MN_ASR | MN_ROL | MN_ROR | MN_ROXL | MN_ROXR => true
  | _ => false
  end.

(** ** Rotations of a [p]-bit field *)
Definition rotl1 (p w : Z) : Z := 2 * (w mod 2 ^ (p - 1)) + w / 2 ^ (p - 1).
Definition rotr1 (p w : Z) : Z := w / 2 + w mod 2 * 2 ^ (p - 1).

Lemma pow_split p : 1 <= p -> 2 ^ p = 2 * 2 ^ (p - 1).
Proof. intros. rewrite <- Z.pow_succ_r by lia. f_equal. lia. Qed.

Lemma rotl1_rotr1 p w : 1 <= p -> is_word p w -> rotl1 p (rotr1 p w) = w.
Proof.
  unfold is_word, rotl1, rotr1. intros Hp Hw. rewrite pow_split in Hw by done.
  pose proof (Z.pow_pos_nonneg 2 (p - 1) ltac:(lia) ltac:(lia)). set (P := 2 ^ (p - 1)) in *.
  pose proof (Z.div_mod w 2 ltac:(lia)). pose proof (Z.mod_pos_bound w 2 ltac:(lia)).
  assert (0 <= w / 2 < P) by (split; [apply Z.div_pos; lia|apply Z.div_lt_upper_bound; lia]).
  rewrite Z.mod_add, Z.div_add by lia. rewrite (Z.mod_small (w / 2) P), (Z.div_small (w / 2) P) by lia. lia.
Qed.

Lemma rotl1_word p w : 1 <= p -> is_word p w -> is_word p (rotl1 p w).
Proof.
  unfold is_word, rotl1. intros Hp Hw. rewrite (pow_split p) in Hw |- * by done.
  pose proof (Z.pow_pos_nonneg 2 (p - 1) ltac:(lia) ltac:(lia)). set (P := 2 ^ (p - 1)) in *.
  pose proof (Z.mod_pos_bound w P ltac:(lia)).
  assert (0 <= w / P < 2) by (split; [apply Z.div_pos; lia|apply Z.div_lt_upper_bound; lia]).
  lia.
Qed.
Lemma rotr1_word p w : 1 <= p -> is_word p w -> is_word p (rotr1 p w).
Proof.
  unfold is_word, rotr1. intros Hp Hw. rewrite (pow_split p) in Hw |- * by done.
  pose proof (Z.pow_pos_nonneg 2 (p - 1) ltac:(lia) ltac:(lia)). set (P := 2 ^ (p - 1)) in *.
  pose proof (Z.mod_pos_bound w 2 ltac:(lia)).
  assert (0 <= w / 2 < P) by (split; [apply Z.div_pos; lia|apply Z.div_lt_upper_bound; lia]).
  nia.
Qed.

Lemma rotl1_bit p w i :
  1 <= p -> is_word p w -> 0 <= i < p -> Z.testbit (rotl1 p w) i = Z.testbit w ((i - 1) mod p).
Proof.
  intros Hp Hw Hi. unfold rotl1.
  assert (w / 2 ^ (p - 1) = b2z (Z.testbit w (p - 1))) as ->.
  { rewrite (testbit_top p) by (done || lia). unfold is_word in Hw. rewrite pow_split in Hw by done.
    pose proof (Z.pow_pos_nonneg 2 (p - 1) ltac:(lia) ltac:(lia)). set (P := 2 ^ (p - 1)) in *.
    destruct (Z.leb_spec P w); cbn; symmetry.
    - apply Z.div_unique with (r := w - P); lia.
    - apply Z.div_unique with (r := w); lia. }
  change (b2z ?b) with (Z.b2z b).
  destruct (Z.eq_dec i 0) as [->|Hne].
  - rewrite Z.testbit_0_r. f_equal. apply (Z.mod_unique _ _ (-1)); lia.
  - replace i with (Z.succ (i - 1)) at 1 by lia. rewrite Z.testbit_succ_r by lia.
    rewrite testbit_mod_pow2, Z.mod_small by lia. by replace (i - 1 <? p - 1) with true by lia.
Qed.
Lemma rotr1_bit p w i :
  1 <= p -> is_word p w -> 0 <= i < p -> Z.testbit (rotr1 p w) i = Z.testbit w ((i + 1) mod p).
Proof.
  intros Hp Hw Hi. rewrite <- (rotl1_rotr1 p w) at 2 by done.
  assert (0 <= (i + 1) mod p < p) by (apply Z.mod_pos_bound; lia).
  rewrite rotl1_bit by (done || by apply rotr1_word). f_equal.
  rewrite Zminus_mod_idemp_l. replace (i + 1 - 1) with i by lia. symmetry. by apply Z.mod_small.
Qed.

Lemma rotl_iter p w n :
  1 <= p -> is_word p w ->
  is_word p (Nat.iter n (rotl1 p) w) /\
  forall i, 0 <= i < p ->
    Z.testbit (Nat.iter n (rotl1 p) w) i = Z.testbit w ((i - Z.of_nat n) mod p).
Proof.
  intros Hp Hw. induction n as [|n [IHw IH]].
  - cbn. split; [done|]. intros i Hi. rewrite Z.sub_0_r, Z.mod_small; done.
  - rewrite Nat.iter_succ. split; [by apply rotl1_word|]. intros i Hi. rewrite rotl1_bit by done.
    rewrite IH by (apply Z.mod_pos_bound; lia). rewrite Zminus_mod_idemp_l. do 2 f_equal. lia.
Qed.
Lemma rotr_iter p w n :
  1 <= p -> is_word p w ->
  is_word p (Nat.iter n (rotr1 p) w) /\
  forall i, 0 <= i < p ->
    Z.testbit (Nat.iter n (rotr1 p) w) i = Z.testbit w ((i + Z.of_nat n) mod p).
Proof.
  intros Hp Hw. induction n as [|n [IHw IH]].
  - cbn. split; [done|]. intros i Hi. rewrite Z.add_0_r, Z.mod_small; done.
  - rewrite Nat.iter_succ. split; [by apply rotr1_word|]. intros i Hi. rewrite rotr1_bit by done.
    rewrite IH by (apply Z.mod_pos_bound; lia). rewrite Zplus_mod_idemp_l. do 2 f_equal. lia.
Qed.

(** ** Closed forms of the iterated steps *)
Section Steps.
Context (w sv : Z) (x0 : bool) (Hw : 2 <= w) (Hsv : is_word w sv).
Let st (mn : M68KMnemonic) (n : nat) := shift_steps mn w n (mkReg sv false x0 false).

Lemma steps_S mn n : st mn (S n) = shift_step mn w (st mn n).
Proof. unfold st, shift_steps. by rewrite Nat.iter_succ. Qed.

Lemma msb_bit v : is_word w v -> msb w v = Z.testbit v (w - 1).
Proof. intros. unfold msb. by rewrite <- (testbit_top w) by (done || lia). Qed.

Lemma left_value n : sv * 2 ^ Z.of_nat (S n) = 2 * (sv * 2 ^ Z.of_nat n).
Proof. rewrite Nat2Z.inj_succ, Z.pow_succ_r by lia. ring. Qed.
Lemma left_top n :
  Z.testbit ((sv * 2 ^ Z.of_nat n) mod 2 ^ w) (w - 1) = Z.testbit sv (w - 1 - Z.of_nat n).
Proof.
  rewrite testbit_mod_pow2, Z.mul_pow2_bits by lia. by replace (w - 1 <? w) with true by lia.
Qed.
Lemma mod_word x : is_word w (x mod 2 ^ w).
Proof. unfold is_word. apply Z.mod_pos_bound. apply Z.pow_pos_nonneg; lia. Qed.

Lemma left_steps mn n :
  mn = MN_LSL \/ mn = MN_ASL ->
  r_v (st mn n) = (sv * 2 ^ Z.of_nat n) mod 2 ^ w /\
  r_c (st mn n) = negb (Nat.eqb n 0) && Z.testbit sv (w - Z.of_nat n) /\
  r_x (st mn n) = if Nat.eqb n 0 then x0 else r_c (st mn n).
Proof.
  intros Hmn. induction n as [|n (IHv & IHc & IHx)].
  - cbn. rewrite Z.mul_1_r. split_and!; [|done|done]. symmetry. by apply Z.mod_small.
  - rewrite steps_S. set (s := st mn n) in *.
    assert (msb w (r_v s) = Z.testbit sv (w - Z.of_nat (S n))) as Hm.
    { rewrite msb_bit, IHv, left_top by (rewrite IHv; apply mod_word). f_equal. lia. }
    destruct Hmn as [-> | ->]; cbn [shift_step r_v r_c r_x Nat.eqb negb]; rewrite Hm;
      (split_and!; [|done|done]);
      by rewrite IHv, left_value, Z.mul_mod_idemp_r by (apply Z.pow_nonzero; lia).
Qed.

(** The bits shifted through the sign position so far. *)
Definition top n := sv / 2 ^ (w - 1 - Z.of_nat n).
Definition mixed n := negb (top n =? 0) && negb (top n =? 2 ^ (Z.of_nat n + 1) - 1).

Lemma top_step n :
  Z.of_nat n + 1 < w ->
  top (S n) = 2 * top n + b2z (Z.testbit sv (w - 2 - Z.of_nat n)) /\
  top n mod 2 = b2z (Z.testbit sv (w - 1 - Z.of_nat n)) /\
  0 <= top n < 2 ^ (Z.of_nat n + 1).
Proof.
  intros Hn. unfold top. split; [|split].
  - replace (w - 1 - Z.of_nat (S n)) with (w - 2 - Z.of_nat n) by lia.
    set (k := w - 2 - Z.of_nat n).
    replace (w - 1 - Z.of_nat n) with (k + 1) by lia.
    rewrite Z.pow_add_r, <- Z.div_div by (lia || apply Z.pow_nonzero; lia).
    rewrite Z.testbit_eqb by lia. change (2 ^ 1) with 2.
    pose proof (Z.div_mod (sv / 2 ^ k) 2 ltac:(lia)).
    pose proof (Z.mod_pos_bound (sv / 2 ^ k) 2 ltac:(lia)).
    destruct (Z.eqb_spec ((sv / 2 ^ k) mod 2) 1); cbn; lia.
  - set (k := w - 1 - Z.of_nat n). rewrite Z.testbit_eqb by lia.
    pose proof (Z.mod_pos_bound (sv / 2 ^ k) 2 ltac:(lia)).
    destruct (Z.eqb_spec ((sv / 2 ^ k) mod 2) 1); cbn; lia.
  - destruct Hsv as [H0 H1]. set (k := w - 1 - Z.of_nat n).
    pose proof (Z.pow_pos_nonneg 2 k ltac:(lia) ltac:(lia)).
    split; [apply Z.div_pos; lia|]. apply Z.div_lt_upper_bound; [lia|].
    rewrite <- Z.pow_add_r by lia. by replace (k + (Z.of_nat n + 1)) with w by lia.
Qed.

Lemma mixed_step n :
  Z.of_nat n + 1 < w ->
  mixed (S n) = mixed n || xorb (Z.testbit sv (w - 1 - Z.of_nat n))
                                (Z.testbit sv (w - 2 - Z.of_nat n)).
Proof.
  intros Hn. destruct (top_step n Hn) as (Ht & Hm & Hb). unfold mixed.
  rewrite Ht. replace (Z.of_nat (S n) + 1) with (Z.succ (Z.of_nat n + 1)) by lia.
  rewrite Z.pow_succ_r by lia.
  assert (2 ^ (Z.of_nat n + 1) = 2 * 2 ^ Z.of_nat n) as Hp by (rewrite Z.pow_add_r; lia).
  set (P := 2 ^ (Z.of_nat n + 1)) in *. set (T := top n) in *.
  pose proof (Z.div_mod T 2 ltac:(lia)).
  destruct (Z.testbit sv (w - 1 - Z.of_nat n)), (Z.testbit sv (w - 2 - Z.of_nat n));
    cbn [b2z xorb] in *; lia.
Qed.

Lemma asl_overflow n :
  r_ov (st MN_ASL n) = if Z.of_nat n <? w then mixed n else negb (sv =? 0).
Proof.
  induction n as [|n IH].
  - change (r_ov (st MN_ASL 0)) with false. change (Z.of_nat 0) with 0.
    replace (0 <? w) with true by lia. unfold mixed, top. change (Z.of_nat 0) with 0.
    destruct Hsv as [H0 H1]. rewrite (pow_split w) in H1 by lia. rewrite Z.sub_0_r.
    set (P := 2 ^ (w - 1)) in *.
    assert (0 <= sv / P < 2) by (split; [apply Z.div_pos|apply Z.div_lt_upper_bound]; lia).
    change (2 ^ (0 + 1)) with 2. lia.
  - rewrite steps_S. destruct (left_steps MN_ASL n (or_intror eq_refl)) as (Hv & _ & _).
    cbn [shift_step r_ov]. rewrite IH, !msb_bit by (apply mod_word || (rewrite Hv; apply mod_word)).
    rewrite Hv, Z.mul_mod_idemp_r, <- left_value by (apply Z.pow_nonzero; lia).
    rewrite !left_top. replace (w - 1 - Z.of_nat (S n)) with (w - 2 - Z.of_nat n) by lia.
    destruct (Z.ltb_spec (Z.of_nat (S n)) w) as [Hlt|Hge].
    + replace (Z.of_nat n <? w) with true by lia. by rewrite mixed_step by lia.
    + rewrite (Z.testbit_neg_r sv (w - 2 - Z.of_nat n)), xorb_false_r by lia.
      destruct (Z.ltb_spec (Z.of_nat n) w).
      * replace (w - 1 - Z.of_nat n) with 0 by lia. unfold mixed, top.
        replace (w - 1 - Z.of_nat n) with 0 by lia. rewrite Z.div_1_r.
        replace (Z.of_nat n + 1) with w by lia. rewrite Z.bit0_odd.
        destruct Hsv. pose proof (Zodd_mod sv). rewrite (pow_split w) by lia.
        destruct (Z.odd sv) eqn:E; [|rewrite orb_false_r].
        -- rewrite orb_true_r. destruct (Z.eqb_spec sv 0) as [->|]; done.
        -- rewrite Zodd_mod in E. zlia.
      * rewrite Z.testbit_neg_r by lia. apply orb_false_r.
Qed.

Lemma half_pow x n : x / 2 ^ Z.of_nat (S n) = x / 2 ^ Z.of_nat n / 2.
Proof.
  rewrite Nat2Z.inj_succ, Z.pow_succ_r by lia. rewrite Z.mul_comm.
  symmetry. apply Z.div_div; [apply Z.pow_nonzero|]; lia.
Qed.
Lemma odd_half x n : Z.odd (x / 2 ^ Z.of_nat n) = Z.testbit x (Z.of_nat n).
Proof. rewrite <- Z.shiftr_div_pow2 by lia. symmetry. apply Z.testbit_odd. Qed.

Lemma right_steps n :
  r_v (st MN_LSR n) = sv / 2 ^ Z.of_nat n /\
  r_c (st MN_LSR n) = Z.testbit sv (Z.of_nat n - 1) /\
  r_x (st MN_LSR n) = if Nat.eqb n 0 then x0 else r_c (st MN_LSR n).
Proof.
  induction n as [|n (IHv & IHc & IHx)].
  - split_and!; [symmetry; apply Z.div_1_r|by rewrite Z.testbit_neg_r|done].
  - rewrite steps_S. cbn [shift_step r_v r_c r_x Nat.eqb]. rewrite IHv, half_pow, odd_half.
    split_and!; [done| |done]. f_equal. lia.
Qed.

(** The signed value; an arithmetic shift halves it. *)
Context (ss : Z) (Hss : - 2 ^ (w - 1) <= ss < 2 ^ (w - 1)) (Hcong : sv = ss mod 2 ^ w).

Lemma signed_half_range n : - 2 ^ (w - 1) <= ss / 2 ^ Z.of_nat n < 2 ^ (w - 1).
Proof.
  pose proof (Z.pow_pos_nonneg 2 (Z.of_nat n) ltac:(lia) ltac:(lia)).
  split; [apply Z.div_le_lower_bound; nia|].
  apply Z.div_lt_upper_bound; [lia|]. nia.
Qed.
Lemma asr_half y :
  - 2 ^ (w - 1) <= y < 2 ^ (w - 1) ->
  y mod 2 ^ w / 2 + b2z (msb w (y mod 2 ^ w)) * 2 ^ (w - 1) = (y / 2) mod 2 ^ w /\
  Z.odd (y mod 2 ^ w) = Z.odd y.
Proof.
  unfold msb. rewrite (pow_split w) by lia. intros Hy. set (P := 2 ^ (w - 1)) in *.
  assert (P = 2 * 2 ^ (w - 2)) as HP.
  { unfold P. rewrite (pow_split (w - 1)) by lia. do 2 f_equal. lia. }
  pose proof (Z.pow_pos_nonneg 2 (w - 2) ltac:(lia) ltac:(lia)). set (Q := 2 ^ (w - 2)) in *.
  destruct (Z.ltb_spec y 0).
  - replace (y mod (2 * P)) with (y + 2 * P) by (apply Z.mod_unique with (q := -1); lia).
    replace ((y / 2) mod (2 * P)) with (y / 2 + 2 * P) by (apply Z.mod_unique with (q := -1); zlia).
    replace (P <=? y + 2 * P) with true by lia. cbn [b2z]. split; [zlia|].
    rewrite !Zodd_mod. zlia.
  - rewrite (Z.mod_small y), (Z.mod_small (y / 2)) by zlia.
    replace (P <=? y) with false by lia. cbn [b2z]. split; [zlia|done].
Qed.
Lemma asr_steps n :
  r_v (st MN_ASR n) = (ss / 2 ^ Z.of_nat n) mod 2 ^ w /\
  r_c (st MN_ASR n) = Z.testbit ss (Z.of_nat n - 1) /\
  r_x (st MN_ASR n) = if Nat.eqb n 0 then x0 else r_c (st MN_ASR n).
Proof.
  induction n as [|n (IHv & IHc & IHx)].
  - split_and!; [|by rewrite Z.testbit_neg_r|done]. cbn [Z.of_nat]. by rewrite Z.div_1_r.
  - rewrite steps_S. cbn [shift_step r_v r_c r_x Nat.eqb]. rewrite IHv.
    destruct (asr_half _ (signed_half_range n)) as [-> ->]. rewrite half_pow, odd_half.
    split_and!; [done| |done]. f_equal. lia.
Qed.
End Steps.

Section Rotations.
Context (w sv : Z) (x0 : bool) (Hw : 2 <= w) (Hsv : is_word w sv).
Let st (mn : M68KMnemonic) (n : nat) := shift_steps mn w n (mkReg sv false x0 false).

Lemma rot_S mn n : st mn (S n) = shift_step mn w (st mn n).
Proof. unfold st, shift_steps. by rewrite Nat.iter_succ. Qed.

Lemma halves v :
  is_word w v ->
  exists b q, v = b2z b * 2 ^ (w - 1) + q /\ 0 <= q < 2 ^ (w - 1) /\ msb w v = b /\
    (2 * v) mod 2 ^ w = 2 * q /\ v / 2 ^ (w - 1) = b2z b /\ v mod 2 ^ (w - 1) = q.
Proof.
  unfold is_word, msb. rewrite (pow_split w) by lia. intros Hv. set (P := 2 ^ (w - 1)) in *.
  exists (P <=? v), (if P <=? v then v - P else v).
  destruct (Z.leb_spec P v); cbn [b2z]; split_and!; try lia.
  - symmetry. apply Z.mod_unique with (q := 1); lia.
  - symmetry. apply Z.div_unique with (r := v - P); lia.
  - symmetry. apply Z.mod_unique with (q := 1); lia.
  - symmetry. apply Z.mod_unique with (q := 0); lia.
  - symmetry. apply Z.div_unique with (r := v); lia.
  - symmetry. apply Z.mod_unique with (q := 0); lia.
Qed.

Lemma rol_steps n :
  r_v (st MN_ROL n) = Nat.iter n (rotl1 w) sv /\
  r_c (st MN_ROL n) = negb (Nat.eqb n 0) && Z.odd (r_v (st MN_ROL n)) /\
  r_x (st MN_ROL n) = x0.
Proof.
  induction n as [|n (IHv & IHc & IHx)]; [done|].
  rewrite rot_S, Nat.iter_succ. cbn [shift_step r_v r_c r_x Nat.eqb negb]. rewrite IHv.
  destruct (rotl_iter w sv n ltac:(lia) Hsv) as [Hi _].
  destruct (halves _ Hi) as (b & q & _ & _ & -> & -> & Hd & Hm).
  unfold rotl1 at 1. rewrite Hd, Hm. split_and!; [done| |done].
  cbn [andb]. rewrite Z.odd_add, Z.odd_mul. by destruct b.
Qed.
Lemma ror_steps n :
  r_v (st MN_ROR n) = Nat.iter n (rotr1 w) sv /\
  r_c (st MN_ROR n) = negb (Nat.eqb n 0) && msb w (r_v (st MN_ROR n)) /\
  r_x (st MN_ROR n) = x0.
Proof.
  induction n as [|n (IHv & IHc & IHx)]; [done|].
  rewrite rot_S, Nat.iter_succ. cbn [shift_step r_v r_c r_x Nat.eqb negb]. rewrite IHv.
  destruct (rotr_iter w sv n ltac:(lia) Hsv) as [Hi _]. set (v := Nat.iter n (rotr1 w) sv) in *.
  unfold rotr1 at 1. rewrite Zmod_odd. split_and!; [by destruct (Z.odd v)| |done].
  unfold msb, is_word in *. rewrite (pow_split w) in Hi by lia. set (P := 2 ^ (w - 1)) in *.
  cbn [andb]. destruct (Z.odd v); cbn [b2z]; zlia.
Qed.

(** Rotation through X is the rotation of the [w + 1]-bit field with X on top. *)
Definition wide (s : ShiftReg) : Z := r_v s + b2z (r_x s) * 2 ^ w.

Lemma wide_word s : is_word w (r_v s) -> is_word (w + 1) (wide s).
Proof.
  unfold is_word, wide. rewrite Z.pow_add_r by lia. intros. destruct (r_x s); cbn [b2z]; lia.
Qed.
Lemma wide_rotl s : is_word w (r_v s) -> wide (shift_step MN_ROXL w s) = rotl1 (w + 1) (wide s).
Proof.
  intros Hs. destruct (halves _ Hs) as (b & q & Hv & Hq & Hm & H2 & _ & _).
  unfold wide, rotl1. cbn [shift_step r_v r_x]. rewrite Hm, H2.
  replace (w + 1 - 1) with w by lia. unfold is_word in Hs.
  rewrite Z.mod_add, Z.div_add by lia.
  rewrite Z.mod_small, Z.div_small by lia. rewrite (pow_split w) by lia. rewrite Hv. lia.
Qed.
Lemma wide_rotr s : is_word w (r_v s) -> wide (shift_step MN_ROXR w s) = rotr1 (w + 1) (wide s).
Proof.
  intros Hs. unfold wide, rotr1. cbn [shift_step r_v r_x].
  replace (w + 1 - 1) with w by lia. rewrite (pow_split w) by lia.
  set (P := 2 ^ (w - 1)).
  replace (r_v s + b2z (r_x s) * (2 * P)) with (r_v s + b2z (r_x s) * P * 2) by ring.
  rewrite Z.div_add, Z.mod_add, Zmod_odd by lia.
  by destruct (Z.odd _), (r_x s).
Qed.
Lemma rox_v_word mn s :
  mn = MN_ROXL \/ mn = MN_ROXR -> is_word w (r_v s) -> is_word w (r_v (shift_step mn w s)).
Proof.
  intros Hmn Hs. destruct (halves _ Hs) as (b & q & Hv & Hq & Hm & H2 & _ & _).
  unfold is_word in *.
  destruct Hmn as [-> | ->]; cbn [shift_step r_v];
    rewrite ?H2; rewrite (pow_split w) in Hs |- * by lia.
  - destruct (r_x s); cbn [b2z]; lia.
  - destruct (r_x s); cbn [b2z]; zlia.
Qed.

Lemma roxl_steps n :
  is_word w (r_v (st MN_ROXL n)) /\
  wide (st MN_ROXL n) = Nat.iter n (rotl1 (w + 1)) (sv + b2z x0 * 2 ^ w) /\
  r_c (st MN_ROXL n) = negb (Nat.eqb n 0) && r_x (st MN_ROXL n).
Proof.
  induction n as [|n (IHw & IHv & IHc)]; [done|].
  rewrite rot_S, Nat.iter_succ, wide_rotl, IHv by done.
  split_and!; [apply rox_v_word; auto|done|done].
Qed.
Lemma roxr_steps n :
  is_word w (r_v (st MN_ROXR n)) /\
  wide (st MN_ROXR n) = Nat.iter n (rotr1 (w + 1)) (sv + b2z x0 * 2 ^ w) /\
  r_c (st MN_ROXR n) = negb (Nat.eqb n 0) && r_x (st MN_ROXR n).
Proof.
  induction n as [|n (IHw & IHv & IHc)]; [done|].
  rewrite rot_S, Nat.iter_succ, wide_rotr, IHv by done.
  split_and!; [apply rox_v_word; auto|done|done].
Qed.
End Rotations.


(** * The engine computes the iterated steps *)
Lemma bit_of_shift a n : 0 <= n -> z2b (Z.land (Z.shiftr a n) 1) = Z.testbit a n.
Proof. intros. rewrite z2b_land_1. symmetry. by apply Z.testbit_odd. Qed.
Lemma szbits_2 sz : 2 <= szbits sz.
Proof. by destruct sz. Qed.
Lemma z2b_b2z b : z2b (b2z b) = b.
Proof. by destruct b. Qed.
Lemma msb_sign sz v : msb (szbits sz) v = (szsign sz <=? v).
Proof. done. Qed.
Lemma eqb_cnt cnt : 0 <= cnt -> Nat.eqb (Z.to_nat cnt) 0 = (cnt =? 0).
Proof. intros. destruct (Nat.eqb_spec (Z.to_nat cnt) 0), (Z.eqb_spec cnt 0); done || lia. Qed.

(** Value, carry, overflow and extend of an outcome [o] against the reference
    register [s] reached from extend bit [x0]. *)
Definition shift_agrees (mn : M68KMnemonic) (cnt : Z) (x0 : bool) (s : ShiftReg) (o : ShiftOut)
    : Prop :=
  sh_res o = r_v s /\
  (cnt <> 0 -> z2b (sh_c o) = r_c s) /\
  sh_with_v o && z2b (sh_v o) = bool_decide (mn = MN_ASL) && r_ov s /\
  r_x s = (if sh_touches_x o && negb (cnt =? 0) then r_c s else x0).

Section Agree.
Context (sz : M68KSize) (sv cnt sr : Z) (Hsv : is_word (szbits sz) sv) (Hcnt : 0 <= cnt < 64).
Local Abbreviation w := (szbits sz).
Let run (mn : M68KMnemonic) :=
  shift_steps mn w (Z.to_nat cnt) (mkReg sv false (flag 4 sr) false).
Let code (mn : M68KMnemonic) := shift_switch mn sv w (szmask sz) cnt sr sz.

Lemma left_res :
  (if (0 <? cnt) && (cnt <? w) then Z.land (u32 (Z.shiftl sv cnt)) (szmask sz)
   else if cnt =? 0 then sv else 0) = (sv * 2 ^ cnt) mod 2 ^ w.
Proof.
  destruct (Z.ltb_spec 0 cnt); cbn [andb].
  - destruct (Z.ltb_spec cnt w).
    + by rewrite land_szmask_u32, Z.shiftl_mul_pow2 by lia.
    + replace (cnt =? 0) with false by lia. symmetry. apply Z.mod_divide; [by destruct sz|].
      exists (sv * 2 ^ (cnt - w)). rewrite <- Z.mul_assoc, <- Z.pow_add_r by (destruct sz; cbn in *; lia).
      do 2 f_equal. lia.
  - replace cnt with 0 by lia. cbn [Z.eqb]. rewrite Z.mul_1_r. symmetry. by apply Z.mod_small.
Qed.
Lemma left_carry :
  z2b (if (0 <? cnt) && (cnt <=? w) then Z.land (Z.shiftr sv (w - cnt)) 1 else 0) =
  negb (cnt =? 0) && Z.testbit sv (w - cnt).
Proof.
  destruct (Z.ltb_spec 0 cnt); cbn [andb].
  - replace (cnt =? 0) with false by lia. cbn [negb andb]. destruct (Z.leb_spec cnt w).
    + by rewrite bit_of_shift by lia.
    + by rewrite Z.testbit_neg_r by lia.
  - by replace (cnt =? 0) with true by lia.
Qed.

Lemma lsl_agrees : exists o, code MN_LSL = ShiftDone o /\ shift_agrees MN_LSL cnt (flag 4 sr) (run MN_LSL) o.
Proof.
  eexists. split; [reflexivity|].
  destruct (left_steps w sv (flag 4 sr) (szbits_2 sz) Hsv MN_LSL (Z.to_nat cnt)) as (Hv & Hc & Hx); [by left|].
  fold (run MN_LSL) in Hv, Hc, Hx. rewrite Z2Nat.id, ?eqb_cnt in * by lia.
  unfold shift_agrees. cbn [sh_res sh_c sh_v sh_with_v sh_touches_x andb].
  rewrite left_res, left_carry. rewrite bool_decide_false by done.
  split_and!; [done|done|done|]. rewrite Hx. by destruct (cnt =? 0).
Qed.

Lemma asl_v :
  z2b (if 0 <? cnt then
         if w <=? cnt then b2z (negb (sv =? 0))
         else b2z (negb (Z.shiftr sv (w - 1 - cnt) =? 0) &&
                   negb (Z.shiftr sv (w - 1 - cnt) =? u32 (u32 (Z.shiftl 1 (cnt + 1)) - 1)))
       else 0) = if cnt <? w then mixed w sv (Z.to_nat cnt) else negb (sv =? 0).
Proof.
  destruct (Z.ltb_spec 0 cnt).
  - destruct (Z.leb_spec w cnt).
    + replace (cnt <? w) with false by lia. apply z2b_b2z.
    + replace (cnt <? w) with true by lia. rewrite z2b_b2z. unfold mixed, top.
      rewrite Z2Nat.id, Z.shiftr_div_pow2, Z.shiftl_mul_pow2, Z.mul_1_l by lia.
      replace (u32 (u32 (2 ^ (cnt + 1)) - 1)) with (2 ^ (cnt + 1) - 1); [done|].
      assert (0 < 2 ^ (cnt + 1) <= 2 ^ 32) as Hp.
      { split; [apply Z.pow_pos_nonneg; lia|]. apply Z.pow_le_mono_r; [lia|].
        destruct sz; cbn in *; lia. }
      change (2 ^ 32) with 0x100000000 in Hp. unfold u32. zlia.
  - replace cnt with 0 by lia.
    pose proof (asl_overflow w sv false (szbits_2 sz) Hsv 0) as H0.
    change (Z.of_nat 0) with 0 in H0. change (Z.to_nat 0) with 0%nat. by rewrite <- H0.
Qed.
(** Away from the undefined shift the code's result has one form. *)
Definition asl_undefined (sz : M68KSize) (cnt : Z) : bool := (szbits sz =? 32) && (cnt =? 31).
Lemma asl_code :
  asl_undefined sz cnt = false ->
  code MN_ASL = ShiftDone (mkShift
    (if (0 <? cnt) && (cnt <? w) then Z.land (u32 (Z.shiftl sv cnt)) (szmask sz) else if cnt =? 0 then sv else 0)
    (if (0 <? cnt) && (cnt <=? w) then Z.land (Z.shiftr sv (w - cnt)) 1 else 0)
    (if 0 <? cnt then
       if w <=? cnt then b2z (negb (sv =? 0))
       else b2z (negb (Z.shiftr sv (w - 1 - cnt) =? 0) &&
                 negb (Z.shiftr sv (w - 1 - cnt) =? u32 (u32 (Z.shiftl 1 (cnt + 1)) - 1)))
     else 0) true true).
Proof.
  intros Hu. unfold code. cbn [shift_switch]. cbv zeta. destruct (0 <? cnt); [|done].
  destruct (Z.leb_spec w cnt); [done|]. destruct (Z.leb_spec 32 (cnt + 1)); [|done].
  exfalso. unfold asl_undefined in Hu. destruct sz; cbn [szbits] in *; lia.
Qed.
Lemma asl_code_undefined : asl_undefined sz cnt = true -> code MN_ASL = ShiftUndefined.
Proof.
  unfold asl_undefined, code. intros [Hw%Z.eqb_eq ->%Z.eqb_eq]%andb_true_iff. by destruct sz.
Qed.
Lemma asl_agrees :
  asl_undefined sz cnt = false ->
  exists o, code MN_ASL = ShiftDone o /\ shift_agrees MN_ASL cnt (flag 4 sr) (run MN_ASL) o.
Proof.
  intros Hu. eexists. split; [by apply asl_code|].
  destruct (left_steps w sv (flag 4 sr) (szbits_2 sz) Hsv MN_ASL (Z.to_nat cnt)) as (Hv & Hc & Hx); [by right|].
  pose proof (asl_overflow w sv (flag 4 sr) (szbits_2 sz) Hsv (Z.to_nat cnt)) as Ho.
  fold (run MN_ASL) in Hv, Hc, Hx, Ho. rewrite Z2Nat.id, ?eqb_cnt in * by lia.
  unfold shift_agrees. cbn [sh_res sh_c sh_v sh_with_v sh_touches_x andb].
  rewrite left_res, left_carry, asl_v. rewrite bool_decide_true by done.
  split_and!; [done|done|done|]. rewrite Hx. by destruct (cnt =? 0).
Qed.

Lemma lsr_agrees : exists o, code MN_LSR = ShiftDone o /\ shift_agrees MN_LSR cnt (flag 4 sr) (run MN_LSR) o.
Proof.
  eexists. split; [reflexivity|].
  destruct (right_steps w sv (flag 4 sr) (Z.to_nat cnt)) as (Hv & Hc & Hx).
  fold (run MN_LSR) in Hv, Hc, Hx. rewrite Z2Nat.id, ?eqb_cnt in * by lia.
  unfold shift_agrees. cbn [sh_res sh_c sh_v sh_with_v sh_touches_x andb].
  rewrite bool_decide_false, Hv, Hc by done.
  assert (forall i, w <= i -> Z.testbit sv i = false) as Hhigh.
  { intros. by apply (testbit_word_high w). }
  split_and!.
  - destruct (Z.ltb_spec 0 cnt); cbn [andb].
    + destruct (Z.ltb_spec cnt w); [by rewrite Z.shiftr_div_pow2 by lia|].
      replace (cnt =? 0) with false by lia. symmetry. apply Z.div_small.
      destruct Hsv as [? Hs]. split; [done|]. eapply Z.lt_le_trans; [exact Hs|].
      apply Z.pow_le_mono_r; lia.
    + replace cnt with 0 by lia. cbn [Z.eqb]. symmetry. apply Z.div_1_r.
  - intros _. destruct (Z.ltb_spec 0 cnt); cbn [andb].
    + destruct (Z.leb_spec cnt w); [by rewrite bit_of_shift by lia|]. by rewrite Hhigh by lia.
    + by rewrite Z.testbit_neg_r by lia.
  - done.
  - rewrite Hx, Hc. by destruct (cnt =? 0).
Qed.

(** *** ASR *)
Lemma signed_range : - 2 ^ (w - 1) <= signed sz sv < 2 ^ (w - 1).
Proof.
  pose proof Hsv as H. unfold signed, szsign, is_word in *. rewrite (pow_split w) in * by (by destruct sz).
  destruct (Z.ltb_spec sv (2 ^ (w - 1))); lia.
Qed.
Lemma signed_mod : sv = signed sz sv mod 2 ^ w.
Proof.
  pose proof Hsv as H. unfold is_word in H. unfold signed. destruct (_ <? _).
  - symmetry. by apply Z.mod_small.
  - apply Z.mod_unique with (q := -1); lia.
Qed.
Lemma signed_code : i32 (sext sv sz) = signed sz sv.
Proof.
  pose proof Hsv as H. clear - H. unfold is_word, signed, szsign, sext, u32, i32, i16, i8 in *.
  destruct sz; cbn [szbits] in *; change (2 ^ 8) with 256 in *; change (2 ^ 16) with 65536 in *;
    change (2 ^ 32) with 4294967296 in *; change (2 ^ (8 - 1)) with 128;
    change (2 ^ (16 - 1)) with 32768; change (2 ^ (32 - 1)) with 2147483648;
    match goal with |- context [sv <? ?k] => destruct (Z.ltb_spec sv k) end; zlia.
Qed.
Lemma signed_high i : w - 1 <= i -> Z.testbit (signed sz sv) i = (signed sz sv <? 0).
Proof.
  intros Hi. pose proof signed_range as Hr. pose proof (szbits_2 sz).
  destruct (Z.ltb_spec (signed sz sv) 0) as [Hneg|Hpos].
  - rewrite <- (Z.lnot_involutive (signed sz sv)), Z.lnot_spec by lia.
    rewrite (testbit_word_high (w - 1)); [done| |done]. unfold is_word, Z.lnot. lia.
  - apply (testbit_word_high (w - 1)); [|done]. unfold is_word. lia.
Qed.
Lemma asr_agrees : exists o, code MN_ASR = ShiftDone o /\ shift_agrees MN_ASR cnt (flag 4 sr) (run MN_ASR) o.
Proof.
  eexists. split; [reflexivity|].
  destruct (asr_steps w sv (flag 4 sr) (szbits_2 sz) _ signed_range signed_mod (Z.to_nat cnt))
    as (Hv & Hc & Hx).
  fold (run MN_ASR) in Hv, Hc, Hx. rewrite Z2Nat.id, ?eqb_cnt in * by lia.
  unfold shift_agrees. cbn [sh_res sh_c sh_v sh_with_v sh_touches_x andb].
  rewrite bool_decide_false, Hv, Hc, signed_code by done.
  assert (forall i, 0 <= i < w -> Z.testbit sv i = Z.testbit (signed sz sv) i) as Hlow.
  { intros i Hi. rewrite signed_mod at 1. apply Z.mod_pow2_bits_low; lia. }
  pose proof signed_range as Hr. pose proof (szbits_2 sz). set (ss := signed sz sv) in *.
  split_and!.
  - destruct (Z.ltb_spec 0 cnt); cbn [andb].
    + destruct (Z.ltb_spec cnt w); [by rewrite land_szmask_u32, Z.shiftr_div_pow2 by lia|].
      replace (cnt =? 0) with false by lia.
      assert (2 ^ (w - 1) < 2 ^ cnt) by (apply Z.pow_lt_mono_r; lia).
      destruct (Z.ltb_spec ss 0).
      * replace (ss / 2 ^ cnt) with (-1) by (apply Z.div_unique with (r := ss + 2 ^ cnt); lia).
        by destruct sz.
      * rewrite Z.div_small by lia. by destruct sz.
    + replace cnt with 0 by lia. cbn [Z.eqb]. rewrite Z.div_1_r. apply signed_mod.
  - intros _. destruct (Z.eqb_spec cnt 0) as [->|]; [by rewrite Z.testbit_neg_r|].
    destruct (Z.ltb_spec cnt w); rewrite bit_of_shift by lia.
    + apply Hlow. lia.
    + rewrite Hlow by lia. by rewrite !signed_high by lia.
  - done.
  - rewrite Hx, Hc. by destruct (cnt =? 0).
Qed.
End Agree.

(** *** Rotations as two shifts *)
Lemma rot_left_bits p x cc i :
  is_word p x -> 0 < cc < p -> 0 <= i < p ->
  Z.testbit x (i - cc) || Z.testbit x (i + (p - cc)) = Z.testbit x ((i - cc) mod p).
Proof.
  intros Hx Hc Hi. destruct (Z.lt_ge_cases i cc).
  - rewrite Z.testbit_neg_r by lia. cbn. f_equal. apply Z.mod_unique with (q := -1); lia.
  - rewrite (testbit_word_high p x (i + _)), orb_false_r by (done || lia). f_equal.
    symmetry. apply Z.mod_small. lia.
Qed.
Lemma rot_right_bits p x cc i :
  is_word p x -> 0 < cc < p -> 0 <= i < p ->
  Z.testbit x (i + cc) || Z.testbit x (i - (p - cc)) = Z.testbit x ((i + cc) mod p).
Proof.
  intros Hx Hc Hi. destruct (Z.lt_ge_cases (i + cc) p).
  - rewrite (Z.testbit_neg_r x (i - _)), orb_false_r by lia. f_equal. symmetry. apply Z.mod_small. lia.
  - rewrite (testbit_word_high p x (i + cc)) by (done || lia). cbn. f_equal.
    apply Z.mod_unique with (q := 1); lia.
Qed.
Lemma sub_rem_mod i n p : 0 <= n -> 0 < p -> (i - Z.rem n p) mod p = (i - n) mod p.
Proof. intros. rewrite Z.rem_mod_nonneg by lia. apply Zminus_mod_idemp_r. Qed.
Lemma add_rem_mod i n p : 0 <= n -> 0 < p -> (i + Z.rem n p) mod p = (i + n) mod p.
Proof. intros. rewrite Z.rem_mod_nonneg by lia. apply Zplus_mod_idemp_r. Qed.
Lemma rem_range n p : 0 <= n -> 0 < p -> 0 <= Z.rem n p < p.
Proof. intros. by apply Z.rem_bound_pos. Qed.

(** The field [x] rotated by [cc = n rem p], as the code writes it: any
    truncations [tl], [tr] of the two shifts that keep the low [p] bits. *)
Lemma rotl_code p x n tl mask :
  1 <= p -> is_word p x -> 0 <= n -> (forall i, 0 <= i < p -> Z.testbit mask i = true) ->
  (forall y i, 0 <= i < p -> Z.testbit (tl y) i = Z.testbit y i) ->
  is_word p mask ->
  let cc := Z.rem n p in
  Z.land (Z.lor (tl (Z.shiftl x cc)) (if cc =? 0 then 0 else Z.shiftr x (p - cc))) mask
  = Nat.iter (Z.to_nat n) (rotl1 p) x.
Proof.
  intros Hp Hx Hn Hm Htl Hmask cc. destruct (rotl_iter p x (Z.to_nat n) Hp Hx) as [Hw Hb].
  apply (word_ext p); [apply land_word_r; [done|lia]|done|]. intros i Hi.
  rewrite Hb, Z2Nat.id, <- sub_rem_mod by lia. fold cc.
  pose proof (rem_range n p Hn ltac:(lia)) as Hcc. fold cc in Hcc.
  rewrite Z.land_spec, Hm, andb_true_r, Z.lor_spec, Htl, Z.shiftl_spec by lia.
  destruct (Z.eqb_spec cc 0) as [->|Hne].
  - by rewrite Z.testbit_0_l, orb_false_r, Z.sub_0_r, Z.mod_small by lia.
  - rewrite Z.shiftr_spec by lia. by apply rot_left_bits; [|lia|].
Qed.
Lemma rotr_code p x n tl mask :
  1 <= p -> is_word p x -> 0 <= n -> (forall i, 0 <= i < p -> Z.testbit mask i = true) ->
  (forall y i, 0 <= i < p -> Z.testbit (tl y) i = Z.testbit y i) ->
  is_word p mask ->
  let cc := Z.rem n p in
  Z.land (Z.lor (Z.shiftr x cc) (if cc =? 0 then 0 else tl (Z.shiftl x (p - cc)))) mask
  = Nat.iter (Z.to_nat n) (rotr1 p) x.
Proof.
  intros Hp Hx Hn Hm Htl Hmask cc. destruct (rotr_iter p x (Z.to_nat n) Hp Hx) as [Hw Hb].
  apply (word_ext p); [apply land_word_r; [done|lia]|done|]. intros i Hi.
  rewrite Hb, Z2Nat.id, <- add_rem_mod by lia. fold cc.
  pose proof (rem_range n p Hn ltac:(lia)) as Hcc. fold cc in Hcc.
  rewrite Z.land_spec, Hm, andb_true_r, Z.lor_spec, Z.shiftr_spec by lia.
  destruct (Z.eqb_spec cc 0) as [->|Hne].
  - by rewrite Z.testbit_0_l, orb_false_r, Z.add_0_r, Z.mod_small by lia.
  - rewrite Htl, Z.shiftl_spec by lia. by apply rot_right_bits; [|lia|].
Qed.

Lemma ones_bits p i : 0 <= i < p -> Z.testbit (2 ^ p - 1) i = true.
Proof.
  intros. replace (2 ^ p - 1) with (Z.ones p) by (rewrite Z.ones_equiv; lia).
  apply Z.ones_spec_low. lia.
Qed.
Lemma ones_word p : 0 <= p -> is_word p (2 ^ p - 1).
Proof. intros. unfold is_word. pose proof (Z.pow_pos_nonneg 2 p). lia. Qed.
Lemma u32_low sz y i : 0 <= i < szbits sz -> Z.testbit (u32 y) i = Z.testbit y i.
Proof.
  intros Hi. rewrite u32_testbit by lia. pose proof (szbits_range sz).
  by replace (i <? 32) with true by lia.
Qed.
Lemma u64_low p y i : p <= 64 -> 0 <= i < p -> Z.testbit (u64 y) i = Z.testbit y i.
Proof. intros Hp Hi. rewrite u64_testbit by lia. by replace (i <? 64) with true by lia. Qed.

Section AgreeRotate.
Context (sz : M68KSize) (sv cnt sr : Z) (Hsv : is_word (szbits sz) sv) (Hcnt : 0 <= cnt < 64).
Local Abbreviation w := (szbits sz).
Let run (mn : M68KMnemonic) :=
  shift_steps mn w (Z.to_nat cnt) (mkReg sv false (flag 4 sr) false).
Let code (mn : M68KMnemonic) := shift_switch mn sv w (szmask sz) cnt sr sz.

Lemma mask_bits i : 0 <= i < w -> Z.testbit (szmask sz) i = true.
Proof. intros. rewrite szmask_ones. by apply ones_bits. Qed.
Lemma mask_word : is_word w (szmask sz).
Proof. rewrite szmask_ones. apply ones_word. by destruct sz. Qed.
Lemma sv_u32 : u32 sv = sv.
Proof. apply u32_id. apply (is_word_mono w); [|done]. apply szbits_range. Qed.

Lemma rol_agrees : exists o, code MN_ROL = ShiftDone o /\ shift_agrees MN_ROL cnt (flag 4 sr) (run MN_ROL) o.
Proof.
  eexists. split; [reflexivity|].
  destruct (rol_steps w sv (flag 4 sr) (szbits_2 sz) Hsv (Z.to_nat cnt)) as (Hv & Hc & Hx).
  fold (run MN_ROL) in Hv, Hc, Hx. rewrite ?eqb_cnt in Hc by lia.
  unfold shift_agrees. cbn [sh_res sh_c sh_v sh_with_v sh_touches_x andb].
  rewrite bool_decide_false by done. rewrite Hc, Hv.
  rewrite <- (rotl_code w sv cnt u32 (szmask sz)) by
    (done || lia || apply mask_word || apply mask_bits || (intros; by apply (u32_low sz)) ||
     by destruct sz).
  assert (Z.land (Z.lor (u32 (Z.shiftl sv 0)) 0) (szmask sz) = sv) as H0.
  { rewrite Z.shiftl_0_r, sv_u32, Z.lor_0_r. by apply land_szmask_id. }
  destruct (Z.eqb_spec (Z.rem cnt w) 0) as [E|E].
  - rewrite E, H0. split_and!; [done| |done|done]. intros _. destruct (cnt =? 0); [done|]. apply z2b_land_1.
  - split_and!; [done| |done|done]. intros _. destruct (cnt =? 0); [done|]. apply z2b_land_1.
Qed.

Lemma ror_agrees : exists o, code MN_ROR = ShiftDone o /\ shift_agrees MN_ROR cnt (flag 4 sr) (run MN_ROR) o.
Proof.
  eexists. split; [reflexivity|].
  destruct (ror_steps w sv (flag 4 sr) (szbits_2 sz) Hsv (Z.to_nat cnt)) as (Hv & Hc & Hx).
  fold (run MN_ROR) in Hv, Hc, Hx. rewrite ?eqb_cnt in Hc by lia.
  destruct (rotr_iter w sv (Z.to_nat cnt) ltac:(by destruct sz) Hsv) as [Hw _].
  unfold shift_agrees. cbn [sh_res sh_c sh_v sh_with_v sh_touches_x andb].
  rewrite bool_decide_false by done. rewrite Hc, Hv. rewrite (msb_bit w) by (done || apply szbits_2).
  rewrite <- (rotr_code w sv cnt u32 (szmask sz)) by
    (done || lia || apply mask_word || apply mask_bits || (intros; by apply (u32_low sz)) ||
     by destruct sz).
  assert (Z.land (Z.lor (Z.shiftr sv 0) 0) (szmask sz) = sv) as H0.
  { rewrite Z.shiftr_0_r, Z.lor_0_r. by apply land_szmask_id. }
  pose proof (szbits_2 sz).
  destruct (Z.eqb_spec (Z.rem cnt w) 0) as [E|E].
  - rewrite E, H0. split_and!; [done| |done|done]. intros _. destruct (cnt =? 0); [done|].
    apply bit_of_shift. lia.
  - split_and!; [done| |done|done]. intros _. destruct (cnt =? 0); [done|]. apply bit_of_shift. lia.
Qed.

(** The [bits + 1]-wide field and its mask. *)
Lemma wide_code :
  Z.lor sv (u64 (Z.shiftl (Z.land (Z.shiftr sr 4) 1) w)) = sv + b2z (flag 4 sr) * 2 ^ w.
Proof.
  rewrite x_flag. rewrite u64_id.
  - rewrite Z.lor_comm, lor_shiftl_add by (done || by destruct sz). lia.
  - rewrite Z.shiftl_mul_pow2 by (by destruct sz). unfold is_word.
    destruct (flag 4 sr), sz; cbn; lia.
Qed.
Lemma wide_mask : u64 (Z.shiftl 1 (w + 1)) - 1 = 2 ^ (w + 1) - 1.
Proof. by destruct sz. Qed.

(** Reading value and extend bit out of the rotated field. *)
Lemma wide_out rot s :
  is_word w (r_v s) -> wide w s = rot -> u32 (Z.land rot (szmask sz)) = r_v s /\
  z2b (u32 (Z.land (Z.shiftr rot w) 1)) = r_x s.
Proof.
  intros Hs <-. pose proof (szbits_range sz) as Hr. unfold is_word in Hs.
  split.
  - rewrite land_szmask. unfold wide. rewrite Z.mod_add by (by destruct sz).
    rewrite Z.mod_small by done. apply u32_id. by apply (is_word_mono w); [lia|].
  - rewrite Z.shiftr_div_pow2 by lia. unfold wide.
    rewrite Z.div_add by (by destruct sz). rewrite Z.div_small by done.
    by destruct (r_x s).
Qed.

Lemma field_word : is_word (w + 1) (sv + b2z (flag 4 sr) * 2 ^ w).
Proof. apply (wide_word w (szbits_2 sz) (mkReg sv false (flag 4 sr) false)). exact Hsv. Qed.

Lemma roxl_agrees : exists o, code MN_ROXL = ShiftDone o /\ shift_agrees MN_ROXL cnt (flag 4 sr) (run MN_ROXL) o.
Proof.
  eexists. split; [reflexivity|].
  destruct (roxl_steps w sv (flag 4 sr) (szbits_2 sz) Hsv (Z.to_nat cnt)) as (Hr & Hv & Hc).
  fold (run MN_ROXL) in Hr, Hv, Hc. rewrite eqb_cnt in Hc by lia. pose proof (szbits_range sz).
  unfold shift_agrees. cbn [sh_res sh_c sh_v sh_with_v sh_touches_x andb].
  rewrite bool_decide_false, decide_True, wide_code, wide_mask by done.
  rewrite (rotl_code (w + 1) _ cnt u64) by
    (lia || (apply ones_word; lia) || (by apply ones_bits) || apply field_word ||
     (intros; apply (u64_low (w + 1)); lia)).
  destruct (wide_out _ _ Hr Hv) as [-> ->]. rewrite Hc.
  destruct (Z.eqb_spec cnt 0) as [E|E]; (split_and!; [done|done|done|]); [|done].
  unfold run. by rewrite E.
Qed.

Lemma roxr_agrees : exists o, code MN_ROXR = ShiftDone o /\ shift_agrees MN_ROXR cnt (flag 4 sr) (run MN_ROXR) o.
Proof.
  eexists. split; [reflexivity|].
  destruct (roxr_steps w sv (flag 4 sr) (szbits_2 sz) Hsv (Z.to_nat cnt)) as (Hr & Hv & Hc).
  fold (run MN_ROXR) in Hr, Hv, Hc. rewrite eqb_cnt in Hc by lia. pose proof (szbits_range sz).
  unfold shift_agrees. cbn [sh_res sh_c sh_v sh_with_v sh_touches_x andb].
  rewrite bool_decide_false, decide_False, wide_code, wide_mask by done.
  rewrite (rotr_code (w + 1) _ cnt u64) by
    (lia || (apply ones_word; lia) || (by apply ones_bits) || apply field_word ||
     (intros; apply (u64_low (w + 1)); lia)).
  destruct (wide_out _ _ Hr Hv) as [-> ->]. rewrite Hc.
  destruct (Z.eqb_spec cnt 0) as [E|E]; (split_and!; [done|done|done|]); [|done].
  unfold run. by rewrite E.
Qed.
End AgreeRotate.

(** The reference keeps a word of the size. *)
Lemma step_value_word mn sz n sv x0 :
  is_shift mn = true -> is_word (szbits sz) sv ->
  is_word (szbits sz) (r_v (shift_steps mn (szbits sz) n (mkReg sv false x0 false))).
Proof.
  intros Hmn Hsv. induction n as [|n IH]; [done|].
  unfold shift_steps. rewrite Nat.iter_succ. fold (shift_steps mn (szbits sz) n (mkReg sv false x0 false)).
  set (s := shift_steps _ _ _ _) in *. unfold is_word, msb in *.
  destruct sz; cbn [szbits] in *;
    change (2 ^ 8) with 256 in *; change (2 ^ 16) with 65536 in *;
    change (2 ^ 32) with 4294967296 in *.
  all: destruct mn; try discriminate Hmn; cbn [shift_step r_v]; unfold msb, b2z;
    change (2 ^ (8 - 1)) with 128; change (2 ^ (16 - 1)) with 32768;
    change (2 ^ (32 - 1)) with 2147483648;
    repeat match goal with |- context [if ?b then 1 else 0] => destruct b eqn:? end; zlia.
Qed.

(** ** The status register *)
Lemma shift_sr_flags sz mn cnt sr s o :
  is_word (szbits sz) (r_v s) -> (cnt = 0 -> r_c s = false) ->
  (cnt = 0 -> sh_with_v o && z2b (sh_v o) = false) ->
  (sh_touches_x o = false -> sh_with_v o = false) ->
  shift_agrees mn cnt (flag 4 sr) s o ->
  let sr' := shift_sr o (szbits sz) (cnt =? 0) sr in
  (cnt = 0 -> sh_touches_x o = false -> sh_c o = 0) ->
  flag 0 sr' = r_c s /\ flag 1 sr' = bool_decide (mn = MN_ASL) && r_ov s /\
  flag 2 sr' = (r_v s =? 0) /\ flag 3 sr' = msb (szbits sz) (r_v s) /\ flag 4 sr' = r_x s /\
  forall n, 5 <= n -> flag n sr' = flag n sr.
Proof.
  intros Hw Hc0 Hv0 Htv (Hres & Hc & Hov & Hx) sr' Hcz.
  assert (z2b (Z.land (Z.shiftr (sh_res o) (szbits sz - 1)) 1) = msb (szbits sz) (r_v s)) as Htop.
  { rewrite Hres, bit_of_shift by (destruct sz; cbn; lia).
    by rewrite (msb_bit (szbits sz)) by (done || apply szbits_2). }
  unfold sr', shift_sr. rewrite Htop, Hres, <- Hov. cbv zeta.
  assert (sh_touches_x o = false -> z2b (sh_c o) = r_c s) as Hcr.
  { intros Ht. destruct (Z.eq_dec cnt 0) as [E|E]; [|by apply Hc]. by rewrite Hc0, Hcz. }
  destruct (sh_touches_x o) eqn:Et; cbn [negb andb] in *.
  - destruct (Z.eqb_spec cnt 0) as [E|E].
    + rewrite (Hc0 E), (Hv0 E), Hx. cbn match. split_and!; try (by flags). high_flags.
    + rewrite Hc, Hx by done. cbn match. cbn [negb].
      split_and!; try (by flags; destruct (r_c s); cbn [andb orb negb]; rewrite ?orb_false_r). high_flags.
  - rewrite Hcr, Hx by done. rewrite (Htv eq_refl). split_and!; try (by flags). high_flags.
Qed.

(** ** The whole engine *)
Lemma engine_agrees mn sz sv cnt sr :
  is_shift mn = true -> is_word (szbits sz) sv -> 0 <= cnt < 64 ->
  bool_decide (mn = MN_ASL) && asl_undefined sz cnt = false ->
  exists o, shift_switch mn sv (szbits sz) (szmask sz) cnt sr sz = ShiftDone o /\
    shift_agrees mn cnt (flag 4 sr) (shift_steps mn (szbits sz) (Z.to_nat cnt) (mkReg sv false (flag 4 sr) false)) o.
Proof.
  intros Hmn Hsv Hcnt Hu. destruct mn; try discriminate Hmn;
    [apply lsl_agrees|apply lsr_agrees|apply asl_agrees|apply asr_agrees
    |apply rol_agrees|apply ror_agrees|apply roxl_agrees|apply roxr_agrees]; done.
Qed.
(** A count of zero changes nothing and sets neither V nor, in a rotation, C. *)
Lemma zero_count mn sz sv cnt sr o :
  is_shift mn = true -> shift_switch mn sv (szbits sz) (szmask sz) cnt sr sz = ShiftDone o ->
  (cnt = 0 -> sh_with_v o && z2b (sh_v o) = false) /\
  (sh_touches_x o = false -> sh_with_v o = false) /\
  (cnt = 0 -> sh_touches_x o = false -> sh_c o = 0).
Proof.
  intros Hmn Ho. destruct mn; try discriminate Hmn; cbn in Ho;
    repeat match type of Ho with (if ?b then _ else _) = _ => destruct b eqn:? end; try discriminate Ho;
    injection Ho as <-; cbn; (split_and!; [intros Hz|intros Ht|intros Hz Ht]); try done; try lia; by subst cnt.
Qed.

(** C25. The shift engine of LSL, LSR, ASL, ASR, ROL, ROR, ROXL and ROXR.  For
    every size and every count 0..63 but one the closed formulas of the code give
    the register, C, X, V, Z and N that as many one-bit steps of the hardware
    shift register give (overflow of ASL being a change of sign at any step), and
    leave the rest of the status register alone.  The one case left is ASL.L by
    31, where the code shifts a 32-bit 1 by 32 places to find V: that is
    undefined in C, whatever the operand. *)
Theorem shift_is_iterated_steps mn sz sv cnt sr :
  is_shift mn = true -> is_word (szbits sz) sv -> 0 <= cnt < 64 ->
  if bool_decide (mn = MN_ASL) && asl_undefined sz cnt
  then shift_switch mn sv (szbits sz) (szmask sz) cnt sr sz = ShiftUndefined
  else
  exists o, shift_switch mn sv (szbits sz) (szmask sz) cnt sr sz = ShiftDone o /\
  let s := shift_steps mn (szbits sz) (Z.to_nat cnt) (mkReg sv false (flag 4 sr) false) in
  let sr' := shift_sr o (szbits sz) (cnt =? 0) sr in
  sh_res o = r_v s /\ is_word (szbits sz) (r_v s) /\
  flag 0 sr' = r_c s /\ flag 1 sr' = bool_decide (mn = MN_ASL) && r_ov s /\
  flag 2 sr' = (r_v s =? 0) /\ flag 3 sr' = msb (szbits sz) (r_v s) /\ flag 4 sr' = r_x s /\
  forall n, 5 <= n -> flag n sr' = flag n sr.
Proof.
  intros Hmn Hsv Hcnt. destruct (bool_decide (mn = MN_ASL) && asl_undefined sz cnt) eqn:Hu.
  { apply andb_true_iff in Hu as [->%bool_decide_eq_true Hu]. by apply asl_code_undefined. }
  set (s := shift_steps mn (szbits sz) (Z.to_nat cnt) (mkReg sv false (flag 4 sr) false)).
  destruct (engine_agrees mn sz sv cnt sr Hmn Hsv Hcnt Hu) as (o & Ho & Hagree). fold s in Hagree.
  exists o. split; [done|]. cbv zeta. pose proof Hagree as (Hres & _).
  assert (is_word (szbits sz) (r_v s)) as Hw by (by apply step_value_word).
  split; [done|]. split; [done|]. destruct (zero_count mn sz sv cnt sr o Hmn Ho) as (Hv & Ht & Hc).
  apply shift_sr_flags with (cnt := cnt); try done. by intros ->.
Qed.

(** ASL.B of 0x40 by 2: the sign bit changes on the way, the value is zero. *)
Lemma shift_is_iterated_steps_witness :
  exists o, shift_switch MN_ASL 0x40 8 0xFF 2 0x2700 M68K_SIZE_B = ShiftDone o /\
    sh_res o = 0 /\ shift_sr o 8 false 0x2700 = 0x2717.
Proof.
  destruct (shift_is_iterated_steps MN_ASL M68K_SIZE_B 0x40 2 0x2700) as (o & Ho & Hr & _);
    [reflexivity|unfold is_word; cbn; lia|lia|].
  exists o. split; [exact Ho|]. split; [exact Hr|].
  injection Ho as <-. vm_compute. reflexivity.
Defined.
