(* ===== verification/Ram.v ===== *)
(** Boards on which a set of word addresses behaves as memory ([RamLaws]), the
    rules that run a computation of the interpreter on such a board, and the
    plainest board: two megabytes of RAM and bus errors above. *)

From Stdlib Require Import ZArith Lia Bool.
From stdpp Require Import base tactics numbers list gmap.
From S2P Require Import Prelude Irq Cpu Insn Alu Ea CpuOk.
Open Scope Z_scope.
Open Scope mach_scope.

(** [ram_word a]: the word at [a] reads back what was written to it, no access
    to it faults, and writing it changes no other such word. *)
Class RamLaws (S : Type) `{Board S} : Type := {
  ram_word : Z -> bool;
  peek16 : S -> Z -> Z;
  poke16 : Z -> Z -> S -> S;
  ram_word_u32 : forall a, ram_word a = true -> is_u32 a;
  ram_read16 : forall a b, ram_word a = true ->
    m68k_read16 a b = (Ok (peek16 b a), set_last_access_addr a b);
  ram_write16 : forall a v b, ram_word a = true -> is_u16 v ->
    m68k_write16 a v b = (Ok tt, poke16 a v b);
  peek_poke : forall a v b c, ram_word a = true -> ram_word c = true -> is_u16 v ->
    peek16 (poke16 a v b) c = if c =? a then v else peek16 b c;
  peek_last : forall a b c, peek16 (set_last_access_addr a b) c = peek16 b c;
  ram_peek_word : forall b a, is_u16 (peek16 b a);
}.

(** The state with CPU [c] and board [b], everything else as in [s]. *)
Definition at_state {S} (c : M68KState) (b : S) (s : Sys S) : Sys S :=
  with_cpu (fun _ => c) (set_bus b s).

Lemma at_state_id {S} (s : Sys S) : at_state (g_cpu s) (bus s) s = s.
Proof. by destruct s. Qed.
Lemma at_state_cpu {S} c b (s : Sys S) : g_cpu (at_state c b s) = c.
Proof. done. Qed.
Lemma at_state_bus {S} c b (s : Sys S) : bus (at_state c b s) = b.
Proof. done. Qed.
Lemma at_state_at {S} c b c' b' (s : Sys S) : at_state c b (at_state c' b' s) = at_state c b s.
Proof. done. Qed.

(** ** Running *)
Lemma run_bind {S A B} (m : Mach S A) (k : A -> Mach S B) s a s' :
  m s = (Ok a, s') -> bind m k s = k a s'.
Proof. intros E. unfold bind. by rewrite E. Qed.
Lemma run_bind_exn {S A B} (m : Mach S A) (k : A -> Mach S B) s e s' :
  m s = (Exn e, s') -> bind m k s = (Exn e, s').
Proof. intros E. unfold bind. by rewrite E. Qed.

Lemma run_modify {S} (f : S -> S) s : modify f s = (Ok tt, f s).
Proof. done. Qed.
Lemma run_gets {S A} (f : S -> A) s : gets f s = (Ok (f s), s).
Proof. done. Qed.

Section Run.
Context {S : Type} `{RamLaws S}.

Lemma run_write16 a v c b (s : Sys S) :
  ram_word a = true -> is_u16 v ->
  on_bus (m68k_write16 a v) (at_state c b s) = (Ok tt, at_state c (poke16 a v b) s).
Proof. intros Ha Hv. unfold on_bus. rewrite at_state_bus, ram_write16 by done. done. Qed.
Lemma run_read16 a c b (s : Sys S) :
  ram_word a = true ->
  on_bus (m68k_read16 a) (at_state c b s) =
    (Ok (peek16 b a), at_state c (set_last_access_addr a b) s).
Proof. intros Ha. unfold on_bus. rewrite at_state_bus, ram_read16 by done. done. Qed.

(** The long word at [a]. *)
Definition peek32 (b : S) (a : Z) : Z := Z.lor (Z.shiftl (peek16 b a) 16) (peek16 b (u32 (a + 2))).
Definition poke32 (a v : Z) (b : S) : S :=
  set_last_access_addr a (poke16 (u32 (a + 2)) (u16 v) (poke16 a (u16 (Z.shiftr v 16)) b)).
Definition ram_long (a : Z) : bool := ram_word a && ram_word (u32 (a + 2)).

Lemma run_read32 a c b (s : Sys S) :
  ram_long a = true ->
  exists b', on_bus (m68k_read32 a) (at_state c b s) = (Ok (peek32 b a), at_state c b' s) /\
    forall x, peek16 b' x = peek16 b x.
Proof.
  unfold ram_long. intros [H1 H2]%andb_true_iff.
  exists (set_last_access_addr a (set_last_access_addr (u32 (a + 2)) (set_last_access_addr a b))).
  split.
  - unfold on_bus, m68k_read32. rewrite at_state_bus.
    erewrite run_bind by (by apply ram_read16).
    erewrite run_bind by (by apply ram_read16).
    erewrite run_bind by (apply run_modify). rewrite peek_last. reflexivity.
  - intros x. by rewrite !peek_last.
Qed.
Lemma run_write32 a v c b (s : Sys S) :
  ram_long a = true ->
  on_bus (m68k_write32 a v) (at_state c b s) = (Ok tt, at_state c (poke32 a v b) s).
Proof.
  unfold ram_long. intros [H1 H2]%andb_true_iff. unfold on_bus, m68k_write32.
  rewrite at_state_bus.
  erewrite run_bind by (apply ram_write16; [done|apply u16_range]).
  erewrite run_bind by (apply ram_write16; [done|apply u16_range]).
  reflexivity.
Qed.

Lemma u32_add2_ne a : a <> u32 (a + 2).
Proof. unfold u32. zlia. Qed.
Lemma word_of_halves v :
  is_u32 v -> Z.lor (Z.shiftl (u16 (Z.shiftr v 16)) 16) (u16 v) = v.
Proof.
  intros Hv. rewrite lor_shiftl_add by (lia || apply u16_range).
  rewrite Z.shiftr_div_pow2 by lia. unfold is_word, u16 in *. zlia.
Qed.
Lemma peek_poke32 a v b c :
  ram_long a = true -> ram_word c = true ->
  peek16 (poke32 a v b) c =
    if c =? u32 (a + 2) then u16 v else if c =? a then u16 (Z.shiftr v 16) else peek16 b c.
Proof.
  unfold ram_long, poke32. intros [H1 H2]%andb_true_iff Hc. rewrite peek_last.
  rewrite !peek_poke by (done || apply u16_range). done.
Qed.
Lemma peek32_poke32 a v b :
  ram_long a = true -> is_u32 v -> peek32 (poke32 a v b) a = v.
Proof.
  intros Ha Hv. pose proof Ha as Ha'. unfold ram_long in Ha'. apply andb_true_iff in Ha' as [H1 H2].
  unfold peek32. rewrite !peek_poke32 by done. pose proof (u32_add2_ne a).
  rewrite !Z.eqb_refl. replace (a =? u32 (a + 2)) with false by lia. by apply word_of_halves.
Qed.
Lemma peek32_ext b b' a : (forall x, peek16 b' x = peek16 b x) -> peek32 b' a = peek32 b a.
Proof. intros Hb. unfold peek32. by rewrite !Hb. Qed.
End Run.

(** * The flat board *)
Record FlatBoard := mkFlat { fb_ram : mem; fb_last : Z; fb_irq : IrqState; fb_time : Z }.
Definition flat_size : Z := 0x200000.
Definition flat_reset : FlatBoard := mkFlat ∅ 0 irq_reset 0.

Definition flat_access (a : Z) : Mach FlatBoard Z :=
  fun b => let a := Z.land a 0xFFFFFF in
           let b := mkFlat (fb_ram b) a (fb_irq b) (fb_time b) in
           if a <? flat_size then (Ok a, b) else (Exn (EBusFault a), b).
Definition flat_set (a v : Z) (b : FlatBoard) : FlatBoard :=
  mkFlat (mset (fb_ram b) a v) (fb_last b) (fb_irq b) (fb_time b).

#[export] Instance flat_board : Board FlatBoard := {
  m68k_read8 a := i <-- flat_access a;; gets (fun b => u8 (mget (fb_ram b) i));
  m68k_read16 a := i <-- flat_access a;;
    gets (fun b => Z.lor (Z.shiftl (u8 (mget (fb_ram b) i)) 8) (u8 (mget (fb_ram b) (i + 1))));
  m68k_write8 a v := i <-- flat_access a;; modify (flat_set i v);
  m68k_write16 a v := i <-- flat_access a;;
    modify (fun b => flat_set (i + 1) (u8 v) (flat_set i (u8 (Z.shiftr v 8)) b));
  g_last_access_addr := fb_last;
  set_last_access_addr a b := mkFlat (fb_ram b) a (fb_irq b) (fb_time b);
  irq_of := fb_irq;
  set_irq q b := mkFlat (fb_ram b) (fb_last b) q (fb_time b);
  mcd212_tick n := modify (fun b => mkFlat (fb_ram b) (fb_last b) (fb_irq b) (fb_time b + n));
}.

Definition flat_inv (b : FlatBoard) : Prop := is_u32 (fb_last b) /\ irq_ok (fb_irq b).

Lemma flat_access_ok a : keeps flat_inv (flat_access a) (fun _ => True).
Proof.
  intros b [H1 H2]. unfold flat_access. destruct (_ <? _); split; try done; split; cbn; word || done.
Qed.
Lemma byte_pair_u16 hi lo : is_u8 hi -> is_u8 lo -> is_u16 (Z.lor (Z.shiftl hi 8) lo).
Proof. intros. rewrite lor_shiftl_add by (done || lia). unfold is_word in *. lia. Qed.

#[export] Instance flat_board_ok : BoardOk FlatBoard.
Proof.
  apply (Build_BoardOk FlatBoard flat_board flat_inv).
  - intros a Ha. cbn. eapply keeps_bind; [apply flat_access_ok|]. intros i _.
    apply keeps_gets. intros. apply u8_range.
  - intros a Ha. cbn. eapply keeps_bind; [apply flat_access_ok|]. intros i _.
    apply keeps_gets. intros. apply byte_pair_u16; apply u8_range.
  - intros a v Ha Hv. cbn. eapply keeps_bind; [apply flat_access_ok|]. intros i _.
    by apply keeps_modify.
  - intros a v Ha Hv. cbn. eapply keeps_bind; [apply flat_access_ok|]. intros i _.
    by apply keeps_modify.
  - by intros b [].
  - by intros a b Ha [].
  - by intros b [].
  - by intros q b Hq [].
  - intros n Hn. by apply keeps_modify.
Defined.

Definition flat_word (a : Z) : bool := (0 <=? a) && (a <? flat_size) && Z.even a.
Definition flat_peek (b : FlatBoard) (a : Z) : Z :=
  Z.lor (Z.shiftl (u8 (mget (fb_ram b) a)) 8) (u8 (mget (fb_ram b) (a + 1))).
Definition flat_poke (a v : Z) (b : FlatBoard) : FlatBoard :=
  mkFlat (mset (mset (fb_ram b) a (u8 (Z.shiftr v 8))) (a + 1) (u8 v)) a (fb_irq b) (fb_time b).

Lemma flat_word_access a b :
  flat_word a = true ->
  flat_access a b = (Ok a, mkFlat (fb_ram b) a (fb_irq b) (fb_time b)).
Proof.
  unfold flat_word, flat_size. intros [[H1 H2]%andb_true_iff _]%andb_true_iff.
  unfold flat_access, flat_size.
  change (Z.land a 0xFFFFFF) with (Z.land a (Z.ones 24)). rewrite Z.land_ones by lia.
  rewrite Z.mod_small by lia. by rewrite H2.
Qed.
Lemma u16_of_bytes v :
  is_u16 v -> Z.lor (Z.shiftl (u8 (u8 (Z.shiftr v 8))) 8) (u8 (u8 v)) = v.
Proof.
  intros Hv. rewrite !(u8_id (u8 _)) by apply u8_range. rewrite lor_shiftl_add by (lia || apply u8_range).
  rewrite Z.shiftr_div_pow2 by lia. unfold is_word, u8 in *. zlia.
Qed.

#[export] Instance flat_ram : RamLaws FlatBoard.
Proof.
  apply (Build_RamLaws FlatBoard flat_board flat_word flat_peek flat_poke).
  - unfold flat_word, flat_size, is_word. intros a. lia.
  - intros a b Ha. cbn. by erewrite run_bind by (by apply flat_word_access).
  - intros a v b Ha Hv. cbn. by erewrite run_bind by (by apply flat_word_access).
  - intros a v b c Ha Hc Hv. unfold flat_peek, flat_poke. cbn [fb_ram].
    unfold flat_word in *. rewrite !andb_true_iff, !Z.even_spec in *.
    destruct Ha as [[? ?] [k ->]], Hc as [[? ?] [j ->]].
    destruct (Z.eqb_spec (2 * j) (2 * k)) as [E|E].
    + rewrite E. autorewrite with mem. by apply u16_of_bytes.
    + by autorewrite with mem.
  - done.
  - intros b a. apply byte_pair_u16; apply u8_range.
Defined.
