(* ===== verification/ControlSpec.v ===== *)
(** Control transfers that come in pairs: an exception frame and RTE, a call and
    its return, LINK and UNLK, and the exchange of stack pointers under them. *)

From Stdlib Require Import ZArith Lia Bool.
From stdpp Require Import base tactics numbers list sets.
From S2P Require Import Prelude Irq Cpu Insn Alu Ea Interp CpuOk OperandOk Ram.
Open Scope Z_scope.
Open Scope mach_scope.

(** ** Register file lemmas *)
Lemma cpu_eq c c' :
  regD c = regD c' -> regA c = regA c' -> SR c = SR c' -> PC c = PC c' ->
  USP c = USP c' -> SSP c = SSP c' -> c = c'.
Proof. destruct c, c'; cbn. congruence. Qed.

Lemma lset_lget l i : (Z.to_nat i < length l)%nat -> lset l i (lget l i) = l.
Proof.
  intros Hi. unfold lset, lget. apply list_insert_id.
  destruct (lookup_lt_is_Some_2 l _ Hi) as [x Hx]. by rewrite (nth_lookup_Some _ _ _ _ Hx).
Qed.

Lemma A_index c i : cpu_ok c -> 0 <= i < 8 -> (Z.to_nat i < length (regA c))%nat.
Proof. intros Hc Hi. rewrite (ok_nA _ Hc). lia. Qed.

(** [m68k_set_sr] by the S bits before and after. *)
Lemma set_sr_cases n c :
  m68k_set_sr n c =
  if xorb (Z.testbit (SR c) 13) (Z.testbit n 13) then
    if Z.testbit (SR c) 13
    then mkCpu (regD c) (lset (regA c) 7 (USP c)) n (PC c) (USP c) (lget (regA c) 7)
    else mkCpu (regD c) (lset (regA c) 7 (SSP c)) n (PC c) (lget (regA c) 7) (SSP c)
  else set_SR n c.
Proof. unfold m68k_set_sr, SR_S. by rewrite !testbit_land_pow2, Z.lxor_spec by lia. Qed.

Section Rules.
Context {S : Type} `{RamLaws S}.

Lemma run_getA i c b (s : Sys S) : getA i (at_state c b s) = (Ok (lget (regA c) i), at_state c b s).
Proof. done. Qed.
Lemma run_getD i c b (s : Sys S) : getD i (at_state c b s) = (Ok (lget (regD c) i), at_state c b s).
Proof. done. Qed.
Lemma run_getSR c b (s : Sys S) : getSR (at_state c b s) = (Ok (SR c), at_state c b s).
Proof. done. Qed.
Lemma run_upd f c b (s : Sys S) : upd_cpu f (at_state c b s) = (Ok tt, at_state (f c) b s).
Proof. done. Qed.
Lemma run_putA i v c b (s : Sys S) :
  putA i v (at_state c b s) = (Ok tt, at_state (set_A i v c) b s).
Proof. done. Qed.
Lemma run_putD i v c b (s : Sys S) :
  putD i v (at_state c b s) = (Ok tt, at_state (set_D i v c) b s).
Proof. done. Qed.
Lemma run_getPC c b (s : Sys S) :
  gets (fun s => PC (g_cpu s)) (at_state c b s) = (Ok (PC c), at_state c b s).
Proof. done. Qed.
Lemma run_tpf c b (s : Sys S) :
  gets (fun s => g_last_access_addr (bus s)) (at_state c b s) =
    (Ok (g_last_access_addr b), at_state c b s).
Proof. done. Qed.
Lemma run_opcode c b (s : Sys S) :
  gets g_fault_opcode (at_state c b s) = (Ok (g_fault_opcode s), at_state c b s).
Proof. done. Qed.
End Rules.

(** The address of the words of a frame. *)
Definition words_in_ram {S} `{RamLaws S} (base : Z) (n : nat) : Prop :=
  forall k, 0 <= k < Z.of_nat n -> ram_word (u32 (base + 2 * k)) = true.

Lemma u32_add_add a k j : u32 (u32 (a + k) + j) = u32 (a + (k + j)).
Proof. unfold u32. zlia. Qed.
Lemma u32_offset_ne a k j :
  0 <= k < 0x100000000 -> 0 <= j < 0x100000000 -> k <> j -> u32 (a + k) <> u32 (a + j).
Proof. unfold u32. intros. zlia. Qed.
Lemma u32_offset_eqb a k j :
  0 <= k < 0x100000000 -> 0 <= j < 0x100000000 -> (u32 (a + k) =? u32 (a + j)) = (k =? j).
Proof.
  intros Hk Hj. destruct (Z.eqb_spec k j) as [->|Hne]; [by rewrite Z.eqb_refl|].
  pose proof (u32_offset_ne a k j Hk Hj Hne). lia.
Qed.
Lemma u32_0 a : is_u32 a -> u32 (a + 0) = a.
Proof. intros. rewrite Z.add_0_r. by apply u32_id. Qed.

Section Frames.
Context {S : Type} `{RamLaws S}.

(** The size of the frame and where it goes: below the supervisor stack. *)
Definition frame_size (vec : Z) : Z := if access_fault vec then 34 else 8.
Definition supervisor_sp (c : M68KState) : Z :=
  if z2b (Z.land (SR c) SR_S) then lget (regA c) 7 else SSP c.
Definition frame_base (vec : Z) (c : M68KState) : Z := u32 (supervisor_sp c - frame_size vec).

(** What the frame at [base] holds for RTE. *)
Definition frame_holds (b : S) (base sr pc fmt : Z) : Prop :=
  peek16 b (u32 (base + 0)) = sr /\ peek16 b (u32 (base + 2)) = u16 (Z.shiftr pc 16) /\
  peek16 b (u32 (base + 4)) = u16 pc /\ peek16 b (u32 (base + 6)) = fmt.

Definition frame_format (vec : Z) : Z :=
  u16 (Z.lor (if access_fault vec then 0xF000 else 0) (u16 (Z.shiftl vec 2))).

(** The CPU at the handler. *)
Definition handler_cpu (vec handler : Z) (c : M68KState) : M68KState :=
  set_PC handler (set_A 7 (frame_base vec c) (m68k_set_sr (Z.lor (SR c) SR_S) c)).

Lemma supervisor_entry c :
  cpu_ok c ->
  let c' := m68k_set_sr (Z.lor (SR c) SR_S) c in
  lget (regA c') 7 = supervisor_sp c /\ SR c' = Z.lor (SR c) SR_S /\ PC c' = PC c /\ cpu_ok c'.
Proof.
  intros Hc c'. assert (cpu_ok c') as Hc' by (apply cpu_ok_m68k_set_sr; [done|]; destruct Hc; word).
  split_and!; [| | |done]; unfold c', m68k_set_sr, supervisor_sp.
  all: assert (z2b (Z.land (Z.lxor (SR c) (Z.lor (SR c) SR_S)) SR_S) =
               negb (z2b (Z.land (SR c) SR_S))) as ->
    by (unfold SR_S; rewrite !testbit_land_pow2, Z.lxor_spec, Z.lor_spec, testbit_pow2 by lia;
        by destruct (Z.testbit (SR c) 13)).
  all: destruct (z2b (Z.land (SR c) SR_S)) eqn:E; cbn [negb]; try done.
  cbn. apply lget_lset_eq. rewrite (ok_nA _ Hc). lia.
Qed.

Lemma frame_format_long vec :
  is_u8 vec -> (Z.land (frame_format vec) 0xF000 =? 0xF000) = access_fault vec.
Proof.
  intros Hv. unfold is_word in Hv. unfold frame_format.
  assert (u16 (Z.shiftl vec 2) = 4 * vec) as ->.
  { rewrite Z.shiftl_mul_pow2 by lia. unfold u16. zlia. }
  assert (Z.land (4 * vec) 0xF000 = 0) as Hlow.
  { apply Z.bits_inj'. intros i Hi. rewrite Z.land_spec, Z.testbit_0_l.
    destruct (Z.lt_ge_cases i 12).
    - change 0xF000 with (0xF * 2 ^ 12). rewrite Z.mul_pow2_bits_low by lia. apply andb_false_r.
    - rewrite (testbit_word_high 12) by (done || unfold is_word; lia). done. }
  rewrite u16_id.
  - rewrite Z.land_lor_distr_l, Hlow, Z.lor_0_r. by destruct (access_fault vec).
  - apply lor_word; [|unfold is_word; lia|lia]. destruct (access_fault vec); unfold is_word; lia.
Qed.

Definition frame_words (vec : Z) : nat := if access_fault vec then 17 else 4.

(** The board after the frame at [base] has been stored. *)
Definition stored_frame (vec : Z) (c : M68KState) (op : Z) (base : Z) (b : S) : S :=
  let b1 := poke16 (u32 (base + 6)) (frame_format vec)
              (poke32 (u32 (base + 2)) (PC c) (poke16 (u32 (base + 0)) (SR c) b)) in
  if access_fault vec then
    poke16 (u32 (base + 32)) 0 (poke16 (u32 (base + 30)) op (poke16 (u32 (base + 28)) op
      (poke32 (u32 (base + 24)) 0 (poke32 (u32 (base + 20)) (g_last_access_addr b)
        (poke32 (u32 (base + 16)) 0 (poke16 (u32 (base + 14)) 0 (poke16 (u32 (base + 12)) 0
          (poke16 (u32 (base + 10)) 0 (poke16 (u32 (base + 8)) 0 b1)))))))))
  else b1.

Section Stored.
Context (vec base : Z) (Hram : words_in_ram base (frame_words vec)).

Lemma frame_ram k :
  0 <= k < 2 * Z.of_nat (frame_words vec) -> Z.even k = true -> ram_word (u32 (base + k)) = true.
Proof.
  intros Hk [j ->]%Z.even_spec. apply Hram. lia.
Qed.
Lemma frame_long k :
  0 <= k < 2 * Z.of_nat (frame_words vec) - 2 -> Z.even k = true -> ram_long (u32 (base + k)) = true.
Proof.
  intros Hk He. unfold ram_long. rewrite u32_add_add, !frame_ram; try done || lia.
  by rewrite Z.even_add, He.
Qed.

(** Peeking a word of the frame, or any other word, through its stores. *)
Lemma stored_frame_holds c op b :
  is_u16 op -> cpu_ok c ->
  frame_holds (stored_frame vec c op base b) base (SR c) (PC c) (frame_format vec).
Proof.
  intros Hop Hc. pose proof (ok_SR _ Hc). pose proof (u16_range (Z.lor (if access_fault vec then 0xF000 else 0) (u16 (Z.shiftl vec 2)))) as Hf.
  fold (frame_format vec) in Hf.
  assert (Hz : is_u16 0) by word.
  unfold frame_holds, stored_frame. unfold frame_words in *.
  pose proof frame_ram as Hw. pose proof frame_long as Hl. unfold frame_words in *.
  destruct (access_fault vec) eqn:E.
  all: split_and!;
    repeat (first [ rewrite peek_poke by (done || apply Hw; done || lia)
                  | rewrite peek_poke32 by (apply Hl || apply Hw; done || lia)
                  | rewrite u32_add_add ];
            rewrite ?u32_offset_eqb by lia; cbn match); done.
Qed.

Lemma stored_frame_outside c op b x :
  is_u16 op -> cpu_ok c -> ram_word x = true ->
  (forall k, 0 <= k < 2 * Z.of_nat (frame_words vec) -> x <> u32 (base + k)) ->
  peek16 (stored_frame vec c op base b) x = peek16 b x.
Proof.
  intros Hop Hc Hx Hout. pose proof (ok_SR _ Hc).
  pose proof (u16_range (Z.lor (if access_fault vec then 0xF000 else 0) (u16 (Z.shiftl vec 2)))) as Hf.
  fold (frame_format vec) in Hf.
  assert (Hz : is_u16 0) by word.
  assert (Hne : forall k, 0 <= k < 2 * Z.of_nat (frame_words vec) -> (x =? u32 (base + k)) = false).
  { intros k Hk. specialize (Hout k Hk). lia. }
  pose proof frame_ram as Hw. pose proof frame_long as Hl.
  unfold stored_frame, frame_words in *. destruct (access_fault vec) eqn:E.
  all: repeat (first [ rewrite peek_poke by (done || apply Hw; done || lia)
                     | rewrite peek_poke32 by (done || apply Hl; done || lia) ];
               rewrite ?u32_add_add, ?Hne by lia); done.
Qed.
End Stored.

(** The stored frame, then the handler from the vector table. *)
Lemma run_build_exception_frame vec c b (s : Sys S) :
  cpu_ok c -> is_u8 vec -> is_u16 (g_fault_opcode s) ->
  words_in_ram (frame_base vec c) (frame_words vec) ->
  ram_long (u32 (Z.shiftl vec 2)) = true ->
  let stored := stored_frame vec c (g_fault_opcode s) (frame_base vec c) b in
  let handler := peek32 stored (u32 (Z.shiftl vec 2)) in
  exists b', build_exception_frame vec (at_state c b s) =
    (Ok handler, at_state (handler_cpu vec handler c) b' s) /\
    forall x, peek16 b' x = peek16 stored x.
Proof.
  intros Hc Hv Hop Hram Hvec stored handler.
  destruct (supervisor_entry c Hc) as (Hsp & _ & Hpc & Hc').
  set (c1 := m68k_set_sr (Z.lor (SR c) SR_S) c) in *.
  set (base := frame_base vec c) in *.
  assert (Hbase : u32 (lget (regA c1) 7 - (if access_fault vec then 34 else 8)) = base).
  { unfold base, frame_base, frame_size. by rewrite Hsp. }
  assert (Hfw : forall k, 0 <= k < 2 * Z.of_nat (frame_words vec) -> Z.even k = true ->
            ram_word (u32 (base + k)) = true) by (intros; by apply (frame_ram vec)).
  assert (Hfl : forall k, 0 <= k < 2 * Z.of_nat (frame_words vec) - 2 -> Z.even k = true ->
            ram_long (u32 (base + k)) = true) by (intros; by apply (frame_long vec)).
  assert (Hz : is_u16 0) by word. pose proof (ok_SR _ Hc) as Hsr.
  set (c2 := set_A 7 base c1) in *.
  destruct (run_read32 (u32 (Z.shiftl vec 2)) c2 stored s Hvec) as (b' & Hread & Hb').
  exists b'. split; [|exact Hb'].
  unfold build_exception_frame.
  erewrite run_bind by apply run_tpf. erewrite run_bind by apply run_getSR.
  erewrite run_bind by apply run_upd. fold c1.
  erewrite run_bind by apply run_getA. rewrite Hbase. cbv zeta.
  erewrite run_bind by apply run_putA. fold c2.
  assert (0 < Z.of_nat (frame_words vec) /\ 8 <= 2 * Z.of_nat (frame_words vec)) as Hn.
  { unfold frame_words. destruct (access_fault vec); lia. }
  erewrite run_bind by (apply run_write16; [apply Hfw; done || lia|done]).
  erewrite run_bind by apply run_getPC.
  erewrite run_bind by (apply run_write32; apply Hfl; done || lia).
  erewrite run_bind by (apply run_write16; [apply Hfw; done || lia|apply u16_range]).
  erewrite run_bind by apply run_opcode.
  change (PC c2) with (PC c1). rewrite Hpc.
  fold (frame_format vec).
  unfold stored, stored_frame in Hread. unfold frame_words in Hfw, Hfl.
  destruct (access_fault vec) eqn:E; cbn [when].
  - erewrite run_bind.
    2:{ repeat (erewrite run_bind by
          first [ apply run_write16; [apply Hfw; done || lia|done]
                | apply run_write32; apply Hfl; done || lia ]).
        apply run_write16; [apply Hfw; done || lia|done]. }
    erewrite run_bind by exact Hread. unfold handler, stored, stored_frame. rewrite E.
    by erewrite run_bind by apply run_upd.
  - erewrite run_bind by reflexivity.
    erewrite run_bind by exact Hread. unfold handler, stored, stored_frame. rewrite E.
    by erewrite run_bind by apply run_upd.
Qed.

(** RTE pops the frame RTE's own format word describes. *)
Lemma run_exec_rte vec ins c base sr pc b (s : Sys S) :
  cpu_ok c -> is_u8 vec -> is_u32 pc -> is_u32 base -> Z.land sr 0xA71F = sr ->
  lget (regA c) 7 = base ->
  (forall k, 0 <= k < 8 -> Z.even k = true -> ram_word (u32 (base + k)) = true) ->
  frame_holds b base sr pc (frame_format vec) ->
  exists b', exec_rte ins (at_state c b s) =
    (Ok (M68KI_OK, pc),
     at_state (m68k_set_sr sr (set_A 7 (u32 (base + frame_size vec)) c)) b' s) /\
    forall x, peek16 b' x = peek16 b x.
Proof.
  intros Hc Hv Hpc Hb Hsr HA Hram (H1 & H2 & H3 & H4).
  pose proof (A_index c 7 Hc ltac:(lia)) as Hlen.
  assert (ram_long (u32 (base + 2)) = true) as Hl.
  { unfold ram_long. by rewrite u32_add_add, !Hram by (done || lia). }
  unfold exec_rte, pop16, pop32.
  erewrite run_bind; [|erewrite run_bind by apply run_getA; rewrite HA;
    erewrite run_bind by (apply run_read16; rewrite <- (u32_0 base) by done; apply Hram; done || lia);
    erewrite run_bind by apply run_getA; rewrite HA;
    erewrite run_bind by apply run_putA; reflexivity].
  replace (peek16 b base) with sr by (rewrite <- H1; by rewrite u32_0). rewrite Hsr. cbv zeta.
  set (c1 := set_A 7 (u32 (base + 2)) c).
  assert (lget (regA c1) 7 = u32 (base + 2)) as HA1 by (by apply lget_lset_eq).
  destruct (run_read32 (u32 (base + 2)) c1 (set_last_access_addr base b) s Hl) as (b1 & Hr1 & Hb1).
  assert (peek32 (set_last_access_addr base b) (u32 (base + 2)) = pc) as Hp.
  { rewrite (peek32_ext b) by (intros; apply peek_last). unfold peek32.
    rewrite u32_add_add. change (2 + 2) with 4. rewrite H2, H3. by apply word_of_halves. }
  erewrite run_bind; [|erewrite run_bind by apply run_getA; rewrite HA1;
    erewrite run_bind by exact Hr1;
    erewrite run_bind by apply run_getA; rewrite HA1;
    erewrite run_bind by apply run_putA; reflexivity].
  rewrite Hp, u32_add_add.
  set (c2 := set_A 7 (u32 (base + (2 + 4))) c1).
  assert (lget (regA c2) 7 = u32 (base + 6)) as HA2.
  { apply lget_lset_eq. unfold c1. cbn [regA set_A]. by rewrite length_lset. }
  erewrite run_bind; [|erewrite run_bind by apply run_getA; rewrite HA2;
    erewrite run_bind by (apply run_read16; apply Hram; done || lia);
    erewrite run_bind by apply run_getA; rewrite HA2;
    erewrite run_bind by apply run_putA; reflexivity].
  rewrite (Hb1 (u32 (base + 6))), peek_last, H4, frame_format_long, u32_add_add by done.
  set (c3 := set_A 7 (u32 (base + (6 + 2))) c2).
  assert (lget (regA c3) 7 = u32 (base + 8)) as HA3.
  { apply lget_lset_eq. unfold c2, c1. cbn [regA set_A]. by rewrite !length_lset. }
  exists (set_last_access_addr (u32 (base + 6)) b1).
  split; [|intros x; by rewrite peek_last, Hb1, peek_last].
  unfold frame_size. destruct (access_fault vec); cbn [when].
  - erewrite run_bind; [|erewrite run_bind by apply run_getA; rewrite HA3; apply run_putA].
    erewrite run_bind by apply run_upd. unfold jump, ret. do 3 f_equal.
    unfold c3, c2, c1, set_A. cbn [regA regD SR PC USP SSP]. rewrite !lset_lset, u32_add_add. done.
  - erewrite run_bind by reflexivity.
    erewrite run_bind by apply run_upd. unfold jump, ret. do 3 f_equal.
    unfold c3, c2, c1, set_A. cbn [regA regD SR PC USP SSP]. by rewrite !lset_lset.
Qed.

(** The shadow of the active stack pointer is dead: two register files are the
    same to a program when registers, SR and both stack pointers agree. *)
Definition user_sp (c : M68KState) : Z :=
  if z2b (Z.land (SR c) SR_S) then USP c else lget (regA c) 7.
Definition same_program_state (c c' : M68KState) : Prop :=
  regD c = regD c' /\ regA c = regA c' /\ SR c = SR c' /\
  user_sp c = user_sp c' /\ supervisor_sp c = supervisor_sp c'.
Definition returned_cpu (h : Z) (c : M68KState) : M68KState :=
  if z2b (Z.land (SR c) SR_S) then set_PC h c else set_USP (lget (regA c) 7) (set_PC h c).
Lemma returned_cpu_same h c : same_program_state (returned_cpu h c) c.
Proof.
  unfold same_program_state, returned_cpu, user_sp, supervisor_sp.
  destruct (z2b _) eqn:E; cbn; by rewrite E.
Qed.

(** Leaving through the frame undoes the entry, stack pointers included. *)
Lemma handler_cpu_undone vec h c :
  cpu_ok c ->
  m68k_set_sr (SR c) (set_A 7 (u32 (frame_base vec c + frame_size vec)) (handler_cpu vec h c)) =
  returned_cpu h c.
Proof.
  intros Hc. pose proof (A_index c 7 Hc ltac:(lia)) as Hlen.
  assert (u32 (frame_base vec c + frame_size vec) = supervisor_sp c) as ->.
  { unfold frame_base. assert (is_u32 (supervisor_sp c)).
    { unfold supervisor_sp. destruct Hc. word. }
    unfold is_word, u32 in *. zlia. }
  unfold handler_cpu, returned_cpu, supervisor_sp.
  assert (Z.testbit (Z.lor (SR c) SR_S) 13 = true) as Hs.
  { unfold SR_S. rewrite Z.lor_spec, testbit_pow2 by lia. apply orb_true_r. }
  rewrite (set_sr_cases (Z.lor (SR c) SR_S) c), Hs.
  change (z2b (Z.land (SR c) SR_S)) with (z2b (Z.land (SR c) (2 ^ 13))).
  rewrite testbit_land_pow2 by lia.
  destruct (Z.testbit (SR c) 13) eqn:E; cbn [xorb].
  - rewrite set_sr_cases. cbn [SR set_A set_PC set_SR]. rewrite Hs, E. cbn [xorb].
    apply cpu_eq; cbn -[lget lset]; try done. by rewrite lset_lset, lset_lget.
  - rewrite set_sr_cases. cbn [SR set_A set_PC]. rewrite Hs, E. cbn [xorb].
    apply cpu_eq; cbn -[lget lset]; try done; rewrite ?lset_lset;
      first [by rewrite lset_lget | by rewrite lget_lset_eq by (by rewrite ?length_lset)].
Qed.

(** C28. Whatever the exception (short frame, or the long one of a bus or
    address error) and from either processor mode, the handler is entered in
    supervisor state on a frame below the supervisor stack, and RTE brings
    back the interrupted program: every register, both stack pointers, SR and
    the resume PC; memory outside the frame is what it was. *)
Theorem exception_rte_roundtrip vec ins c b (s : Sys S) :
  cpu_ok c -> is_u8 vec -> is_u16 (g_fault_opcode s) -> Z.land (SR c) 0xA71F = SR c ->
  words_in_ram (frame_base vec c) (frame_words vec) ->
  ram_long (u32 (Z.shiftl vec 2)) = true ->
  exists handler b1 c2 b2,
    build_exception_frame vec (at_state c b s) =
      (Ok handler, at_state (handler_cpu vec handler c) b1 s) /\
    Z.testbit (SR (handler_cpu vec handler c)) 13 = true /\
    lget (regA (handler_cpu vec handler c)) 7 = frame_base vec c /\
    exec_rte ins (at_state (handler_cpu vec handler c) b1 s) =
      (Ok (M68KI_OK, PC c), at_state c2 b2 s) /\
    same_program_state c2 c /\
    forall x, ram_word x = true ->
      (forall k, 0 <= k < 2 * Z.of_nat (frame_words vec) -> x <> u32 (frame_base vec c + k)) ->
      peek16 b2 x = peek16 b x.
Proof.
  intros Hc Hv Hop Hsr Hram Hvec.
  destruct (run_build_exception_frame vec c b s Hc Hv Hop Hram Hvec) as (b1 & Hbuild & Hb1).
  set (stored := stored_frame _ _ _ _ _) in *. set (h := peek32 stored _) in *.
  destruct (supervisor_entry c Hc) as (Hsp & Hsr1 & _ & Hc1).
  pose proof (A_index _ 7 Hc1 ltac:(lia)) as Hlen.
  assert (is_u32 (frame_base vec c)) as Hbase by apply u32_range.
  assert (lget (regA (handler_cpu vec h c)) 7 = frame_base vec c) as HA by (by apply lget_lset_eq).
  assert (cpu_ok (handler_cpu vec h c)) as Hc2.
  { apply cpu_ok_set_PC; [apply cpu_ok_set_A; [done|apply u32_range]|].
    apply read32_word; apply ram_peek_word. }
  destruct (run_exec_rte vec ins (handler_cpu vec h c) (frame_base vec c) (SR c) (PC c) b1 s)
    as (b2 & Hrte & Hb2); try done.
  - apply Hc.
  - intros k Hk He. apply (frame_ram vec); try done.
    unfold frame_words. destruct (access_fault vec); lia.
  - pose proof (stored_frame_holds vec (frame_base vec c) Hram c (g_fault_opcode s) b Hop Hc) as Hh.
    unfold frame_holds in *. by rewrite !Hb1.
  - exists h, b1, (returned_cpu h c), b2. split; [done|]. split.
    + change (SR (handler_cpu vec h c)) with (SR (m68k_set_sr (Z.lor (SR c) SR_S) c)).
      rewrite Hsr1. unfold SR_S. rewrite Z.lor_spec, testbit_pow2 by lia. apply orb_true_r.
    + split; [done|]. split; [by rewrite Hrte, handler_cpu_undone|].
      split; [apply returned_cpu_same|]. intros x Hx Hout. rewrite Hb2, Hb1. by apply stored_frame_outside.
Qed.
End Frames.

(** A TRAP #0 taken in user mode on the flat board. *)
Definition user_cpu : M68KState :=
  mkCpu [1;2;3;4;5;6;7;8] [0x100;0x200;0x300;0x400;0x500;0x600;0x700;0x8000] 0x0015 0x1234 0 0x4000.
Definition flat_sys : Sys FlatBoard :=
  mkSys cpu_reset flat_reset false false false 0 0 0 0 0 0 [].

Lemma exception_rte_roundtrip_witness :
  exists handler b1 c2 b2,
    build_exception_frame 0x20 (at_state user_cpu flat_reset flat_sys) =
      (Ok handler, at_state (handler_cpu 0x20 handler user_cpu) b1 flat_sys) /\
    exec_rte (mkInstr 0 2 [0x4E73] MN_RTE M68K_SIZE_W 0 0 0 0 0 false false false)
      (at_state (handler_cpu 0x20 handler user_cpu) b1 flat_sys) =
      (Ok (M68KI_OK, 0x1234), at_state c2 b2 flat_sys) /\
    same_program_state c2 user_cpu.
Proof.
  destruct (exception_rte_roundtrip 0x20
    (mkInstr 0 2 [0x4E73] MN_RTE M68K_SIZE_W 0 0 0 0 0 false false false)
    user_cpu flat_reset flat_sys) as (h & b1 & c2 & b2 & H1 & _ & _ & H2 & H3 & _).
  - split; cbn; try (unfold is_word; lia); repeat constructor; unfold is_word; lia.
  - unfold is_word. lia.
  - unfold is_word. cbn. lia.
  - reflexivity.
  - intros k Hk. change (frame_words 32) with 4%nat in Hk.
    assert (k = 0 \/ k = 1 \/ k = 2 \/ k = 3) as [-> | [-> | [-> | ->]]] by lia; reflexivity.
  - reflexivity.
  - exists h, b1, c2, b2. split; [exact H1|]. split; [exact H2|exact H3].
Defined.

(** ** Calls *)
Section Calls.
Context {S : Type} `{RamLaws S}.

Definition note_target (t : Z) (s : Sys S) : Sys S := snd (discover t s).
Lemma run_discover t c b (s : Sys S) :
  discover t (at_state c b s) = (Ok tt, at_state c b (note_target t s)).
Proof.
  unfold note_target, discover, modify. cbn [snd]. f_equal. cbn zeta.
  change (g_m68ki_discover (at_state c b s)) with (g_m68ki_discover s).
  by repeat case_bool_decide.
Qed.

Lemma run_indexed base ext c b (s : Sys S) :
  exists t, indexed base ext (at_state c b s) = (Ok t, at_state c b s).
Proof.
  unfold indexed, index_register. destruct (Z.testbit ext 15); eexists;
    (erewrite run_bind by (erewrite run_bind by (apply run_getA || apply run_getD); reflexivity));
    reflexivity.
Qed.
(** A control address reads registers only. *)
Lemma run_addr_ea ins ea er c b (s : Sys S) :
  exists t, addr_ea ins ea er (at_state c b s) = (Ok t, at_state c b s).
Proof.
  unfold addr_ea. cbv zeta. destruct (er_next ins er) as [w er1].
  destruct (ea_mode ea) as [|[[[]|[]|]|[[]|[]|]|]|]; cbn match; try (eexists; reflexivity);
    try (destruct (ea_reg ea) as [|[[[]|[]|]|[[]|[]|]|]|]; cbn match; try (eexists; reflexivity));
    try apply run_indexed.
Qed.

Lemma run_push32 v c b (s : Sys S) :
  cpu_ok c -> ram_long (u32 (lget (regA c) 7 - 4)) = true ->
  let sp := u32 (lget (regA c) 7 - 4) in
  push32 v (at_state c b s) = (Ok tt, at_state (set_A 7 sp c) (poke32 sp v b) s).
Proof.
  intros Hc Hl sp. unfold push32.
  erewrite run_bind by apply run_getA. erewrite run_bind by apply run_putA.
  assert (lget (regA (set_A 7 sp c)) 7 = sp) as HA by (apply lget_lset_eq; by apply A_index).
  erewrite run_bind by apply run_getA. fold sp. rewrite HA.
  by apply run_write32.
Qed.
Lemma run_pop32 c b (s : Sys S) :
  cpu_ok c -> ram_long (lget (regA c) 7) = true ->
  let sp := lget (regA c) 7 in
  exists b', pop32 (at_state c b s) = (Ok (peek32 b sp), at_state (set_A 7 (u32 (sp + 4)) c) b' s) /\
    forall x, peek16 b' x = peek16 b x.
Proof.
  intros Hc Hl sp. destruct (run_read32 sp c b s Hl) as (b' & Hr & Hb').
  exists b'. split; [|done]. unfold pop32. erewrite run_bind by apply run_getA.
  erewrite run_bind by exact Hr. erewrite run_bind by apply run_getA.
  by erewrite run_bind by apply run_putA.
Qed.

(** A call site: BSR, or JSR through any control address. *)
Definition is_call (mn : M68KMnemonic) : bool :=
  match mn with MN_BSR | MN_JSR => true | _ => false end.

Lemma u32_sub_add a : is_u32 a -> u32 (u32 (a - 4) + 4) = a.
Proof. unfold is_word, u32. intros. zlia. Qed.

(** A call pushes the address of the next instruction and nothing else;
    when the callee comes back with the same stack pointer and has left the
    slot alone, RTS resumes there with the stack pointer of before the call,
    whatever else the callee did. *)
Theorem call_return_resumes ins rts c b (s : Sys S) :
  cpu_ok c -> is_call (i_mnemonic ins) = true -> i_mnemonic rts = MN_RTS ->
  let slot := u32 (lget (regA c) 7 - 4) in
  ram_long slot = true ->
  exists t b1 s1,
    exec_one ins (at_state c b s) = (Ok (M68KI_OK, t), at_state (set_A 7 slot c) b1 s1) /\
    peek32 b1 slot = fall ins /\
    (forall x, ram_word x = true -> x <> slot -> x <> u32 (slot + 2) ->
               peek16 b1 x = peek16 b x) /\
    forall c' b' s', cpu_ok c' -> lget (regA c') 7 = slot -> peek32 b' slot = fall ins ->
      exists b'', exec_one rts (at_state c' b' s') =
        (Ok (M68KI_OK, fall ins), at_state (set_A 7 (lget (regA c) 7) c') b'' s') /\
        forall x, peek16 b'' x = peek16 b' x.
Proof.
  intros Hc Hcall Hrts slot Hl.
  assert (exists t s1, exec_one ins (at_state c b s) =
    (Ok (M68KI_OK, t), at_state (set_A 7 slot c) (poke32 slot (fall ins) b) s1)) as (t & s1 & Hrun).
  { unfold exec_one. destruct (i_mnemonic ins); try discriminate Hcall.
    - exists (i_target_addr ins), (note_target (i_target_addr ins) s). unfold exec_bsr.
      erewrite run_bind by apply run_discover.
      by erewrite run_bind by (by apply run_push32).
    - destruct (run_addr_ea ins (i_src_ea ins) er_init c b s) as [t Ht].
      exists t, (note_target t s). unfold exec_jsr. erewrite run_bind by exact Ht.
      erewrite run_bind by apply run_discover.
      by erewrite run_bind by (by apply run_push32). }
  exists t, (poke32 slot (fall ins) b), s1. split; [done|]. split.
  { apply peek32_poke32; [done|apply u32_range]. }
  split.
  { intros x Hx H1 H2. rewrite peek_poke32 by done.
    replace (x =? u32 (slot + 2)) with false by lia. by replace (x =? slot) with false by lia. }
  intros c' b' s' Hc' HA Hp.
  assert (ram_long (lget (regA c') 7) = true) as Hl' by (by rewrite HA).
  destruct (run_pop32 c' b' s' Hc' Hl') as (b'' & Hpop & Hb'').
  exists b''. split; [|done]. unfold exec_one. rewrite Hrts. unfold exec_rts.
  erewrite run_bind by exact Hpop. rewrite HA, Hp. unfold slot.
  by rewrite u32_sub_add by (destruct Hc; word).
Qed.

Lemma run_getA_set i j v c b (s : Sys S) :
  cpu_ok c -> 0 <= i < 8 -> 0 <= j < 8 ->
  getA i (at_state (set_A j v c) b s) =
    (Ok (if i =? j then v else lget (regA c) i), at_state (set_A j v c) b s).
Proof.
  intros Hc Hi Hj. rewrite run_getA. do 2 f_equal. cbn [regA set_A].
  destruct (Z.eqb_spec i j) as [->|]; [|by apply lget_lset_ne; lia].
  apply lget_lset_eq. by apply A_index.
Qed.

(** LINK opens a stack frame and UNLK closes it: with the frame pointer
    kept and its slot intact, UNLK gives back the frame pointer and the stack
    pointer of before LINK, however the body moved the stack. *)
Theorem link_unlk_restores ins unlk c b (s : Sys S) :
  cpu_ok c -> i_mnemonic ins = MN_LINK -> i_mnemonic unlk = MN_UNLK ->
  0 <= i_reg ins < 7 -> i_reg unlk = i_reg ins ->
  let slot := u32 (lget (regA c) 7 - 4) in
  ram_long slot = true ->
  exists c1 b1,
    exec_one ins (at_state c b s) = (Ok (M68KI_OK, fall ins), at_state c1 b1 s) /\
    lget (regA c1) (i_reg ins) = slot /\
    lget (regA c1) 7 = u32 (slot + i16 (lget (i_words ins) 1)) /\
    peek32 b1 slot = lget (regA c) (i_reg ins) /\
    forall c' b' s', cpu_ok c' -> lget (regA c') (i_reg ins) = slot ->
      peek32 b' slot = lget (regA c) (i_reg ins) ->
      exists c'' b'', exec_one unlk (at_state c' b' s') =
        (Ok (M68KI_OK, fall unlk), at_state c'' b'' s') /\
        lget (regA c'') (i_reg ins) = lget (regA c) (i_reg ins) /\
        lget (regA c'') 7 = lget (regA c) 7 /\ regD c'' = regD c' /\ SR c'' = SR c'.
Proof.
  intros Hc Hlink Hunlk Hr Hreg slot Hl. set (r := i_reg ins) in *.
  assert (is_u32 (lget (regA c) r)) as Hold by (destruct Hc; word).
  assert (is_u32 slot) as Hslot by apply u32_range.
  exists (set_A 7 (u32 (slot + i16 (lget (i_words ins) 1))) (set_A r slot (set_A 7 slot c))),
    (poke32 slot (lget (regA c) r) b).
  assert (cpu_ok (set_A 7 slot c)) as Hc1 by word.
  assert (cpu_ok (set_A r slot (set_A 7 slot c))) as Hc2 by word.
  split.
  { unfold exec_one. rewrite Hlink. unfold exec_link. fold r. cbv zeta.
    erewrite run_bind by apply run_getA. fold slot. erewrite run_bind by apply run_putA.
    erewrite run_bind by (apply run_getA_set; done || lia). rewrite Z.eqb_refl.
    erewrite run_bind by (apply run_getA_set; done || lia).
    replace (r =? 7) with false by lia.
    erewrite run_bind by (by apply run_write32).
    erewrite run_bind by (apply run_getA_set; done || lia). rewrite Z.eqb_refl.
    erewrite run_bind by apply run_putA.
    erewrite run_bind by (apply run_getA_set; done || lia).
    replace (7 =? r) with false by lia.
    change (lget (regA (set_A 7 slot c)) 7) with (lget (lset (regA c) 7 slot) 7).
    rewrite lget_lset_eq by (by apply A_index).
    by erewrite run_bind by apply run_putA. }
  cbn [regA set_A]. split.
  { rewrite lget_lset_ne by lia. apply lget_lset_eq. rewrite length_lset. apply A_index; done || lia. }
  split. { apply lget_lset_eq. rewrite !length_lset. by apply A_index. }
  split. { by apply peek32_poke32. }
  intros c' b' s' Hc' HA Hp.
  assert (cpu_ok (set_A 7 slot c')) as Hc1' by word.
  destruct (run_read32 slot (set_A 7 slot c') b' s' Hl) as (b'' & Hread & Hb'').
  exists (set_A 7 (u32 (slot + 4)) (set_A r (lget (regA c) r) (set_A 7 slot c'))), b''.
  split.
  { unfold exec_one. rewrite Hunlk. unfold exec_unlk. rewrite Hreg. fold r.
    erewrite run_bind by apply run_getA. rewrite HA. erewrite run_bind by apply run_putA.
    erewrite run_bind by (apply run_getA_set; done || lia). rewrite Z.eqb_refl.
    erewrite run_bind by exact Hread. rewrite Hp. erewrite run_bind by apply run_putA.
    erewrite run_bind by (apply run_getA_set; done || lia).
    replace (7 =? r) with false by lia.
    change (lget (regA (set_A 7 slot c')) 7) with (lget (lset (regA c') 7 slot) 7).
    rewrite lget_lset_eq by (by apply A_index).
    by erewrite run_bind by apply run_putA. }
  cbn [regA regD SR set_A]. split_and!; try done.
  - rewrite lget_lset_ne by lia. apply lget_lset_eq. rewrite length_lset. apply A_index; done || lia.
  - rewrite lget_lset_eq by (rewrite !length_lset; by apply A_index).
    unfold slot. apply u32_sub_add. destruct Hc. word.
Qed.
End Calls.

Definition bsr_instr : M68KInstr :=
  mkInstr 0x1000 4 [0x6100; 0x10] MN_BSR M68K_SIZE_W 0 0 0 0 0x1012 false false false.
Definition rts_instr : M68KInstr :=
  mkInstr 0x1012 2 [0x4E75] MN_RTS M68K_SIZE_W 0 0 0 0 0 false false false.
Definition link_instr : M68KInstr :=
  mkInstr 0x1000 4 [0x4E56; 0xFFF0] MN_LINK M68K_SIZE_W 0 0 6 0 0 false false false.
Definition unlk_instr : M68KInstr :=
  mkInstr 0x1010 2 [0x4E5E] MN_UNLK M68K_SIZE_W 0 0 6 0 0 false false false.

Lemma user_cpu_ok : cpu_ok user_cpu.
Proof. split; cbn; try (unfold is_word; lia); repeat constructor; unfold is_word; lia. Qed.

Lemma call_return_resumes_witness :
  exists t b1 s1,
    exec_one bsr_instr (at_state user_cpu flat_reset flat_sys) =
      (Ok (M68KI_OK, t), at_state (set_A 7 0x7FFC user_cpu) b1 s1) /\
    exists b2, exec_one rts_instr (at_state (set_A 7 0x7FFC user_cpu) b1 s1) =
      (Ok (M68KI_OK, 0x1004), at_state (set_A 7 0x8000 (set_A 7 0x7FFC user_cpu)) b2 s1).
Proof.
  destruct (call_return_resumes bsr_instr rts_instr user_cpu flat_reset flat_sys)
    as (t & b1 & s1 & H1 & H2 & _ & H3);
    [exact user_cpu_ok|reflexivity|reflexivity|reflexivity|].
  exists t, b1, s1. split; [exact H1|].
  destruct (H3 (set_A 7 0x7FFC user_cpu) b1 s1) as (b2 & H4 & _);
    [apply cpu_ok_set_A; [exact user_cpu_ok|unfold is_word; lia]|reflexivity|exact H2|].
  exists b2. exact H4.
Defined.

Lemma link_unlk_restores_witness :
  exists c1 b1,
    exec_one link_instr (at_state user_cpu flat_reset flat_sys) =
      (Ok (M68KI_OK, 0x1004), at_state c1 b1 flat_sys) /\
    lget (regA c1) 6 = 0x7FFC /\ lget (regA c1) 7 = 0x7FEC.
Proof.
  destruct (link_unlk_restores link_instr unlk_instr user_cpu flat_reset flat_sys)
    as (c1 & b1 & H1 & H2 & H3 & _);
    [exact user_cpu_ok|reflexivity|reflexivity|cbn; lia|reflexivity|reflexivity|].
  exists c1, b1. split; [exact H1|]. split; [exact H2|exact H3].
Defined.
