(* ===== verification/StepSpec.v ===== *)
(** The interpreter's step and run loops: well-formedness through a whole step,
    the order of flags and faulting writes, bus errors as vector-2 exceptions,
    interrupt delivery, cycle bounds and termination under the guard. *)

From Stdlib Require Import ZArith Lia Bool.
From stdpp Require Import base tactics numbers list sets.
From S2P Require Import Prelude Irq Cpu Insn Alu Ea Cycles Interp CpuOk OperandOk InterpOk Ram.
From S2P Require Import ControlSpec.
Open Scope Z_scope.
Open Scope mach_scope.

(** ** Cycle bounds *)
Lemma cyc_ea_bounds ea6 sb : 0 <= cyc_ea ea6 sb <= 18.
Proof.
  unfold cyc_ea. cbv zeta. destruct (sb =? 4);
    destruct (Z.land (Z.shiftr ea6 3) 7) as [|[[[]|[]|]|[[]|[]|]|]|]; cbn match; try lia;
    destruct (Z.land ea6 7) as [|[[[]|[]|]|[[]|[]|]|]|]; cbn match; lia.
Qed.
Lemma popcount_bounds fuel v c :
  0 <= c -> 0 <= popcount_loop fuel v c <= c + Z.of_nat fuel.
Proof.
  revert v c. induction fuel as [|fuel IH]; intros v c Hc; cbn [popcount_loop]; [lia|].
  destruct (v =? 0); [lia|]. pose proof (land_word_r 1 v 1 ltac:(unfold is_word; lia) ltac:(lia)) as Hb.
  unfold is_word in Hb. specialize (IH (Z.shiftr v 1) (c + Z.land v 1) ltac:(lia)). lia.
Qed.
Lemma cyc_popcount16_bounds v : 0 <= cyc_popcount16 v <= 16.
Proof. pose proof (popcount_bounds 16 v 0). unfold cyc_popcount16. lia. Qed.

Ltac cyc_bounds :=
  repeat match goal with
  | |- context [cyc_ea ?a ?b] =>
    let c := fresh "c" in pose proof (cyc_ea_bounds a b); set (c := cyc_ea a b) in *; clearbody c
  | |- context [cyc_popcount16 ?a] =>
    let c := fresh "c" in
    pose proof (cyc_popcount16_bounds a); set (c := cyc_popcount16 a) in *; clearbody c
  end;
  repeat match goal with |- context [if ?b then _ else _] => destruct b end; lia.

Lemma cycles_flow_bounds ins cpu mn : 3 <= cycles_flow ins cpu mn <= 212.
Proof. unfold cycles_flow. destruct mn; cyc_bounds. Qed.
Lemma cycles_moves_bounds ins mn : 3 <= cycles_moves ins mn <= 212.
Proof. unfold cycles_moves. cbv zeta. destruct mn; cyc_bounds. Qed.
Lemma cycles_alu_bounds ins mn : 3 <= cycles_alu ins mn <= 212.
Proof. unfold cycles_alu. destruct mn; cyc_bounds. Qed.
Lemma cycles_unary_bounds ins mn : 3 <= cycles_unary ins mn <= 212.
Proof. unfold cycles_unary. destruct mn; cyc_bounds. Qed.
Lemma cycles_fixed_bounds ins mn : 3 <= cycles_fixed ins mn <= 212.
Proof. unfold cycles_fixed. destruct mn; cyc_bounds. Qed.
Lemma cycles_shift_bounds ins cpu : 3 <= cycles_shift ins cpu <= 212.
Proof.
  unfold cycles_shift. cbv zeta.
  pose proof (Z.mod_pos_bound (lget (regD cpu) (Z.land (Z.shiftr (word0 ins) 9) 7)) 64 ltac:(lia)).
  pose proof (land_word_r 3 (Z.shiftr (word0 ins) 9) 7 ltac:(unfold is_word; lia) ltac:(lia)) as Hc.
  unfold is_word in Hc. cyc_bounds.
Qed.

Section Step.
Context {S : Type} `{BoardOk S}.

Abbreviation cycles_ok := (fun c => 3 <= c <= 212).
Lemma m68k_cycles_ok ins : keeps sys_ok (m68k_cycles (S:=S) ins) cycles_ok.
Proof.
  unfold m68k_cycles. eapply (keeps_bind _ _ _ cpu_ok).
  { apply keeps_gets. intros s Hs. apply Hs. }
  intros cpu Hcpu. destruct (decide (i_mnemonic ins = MN_RTE)) as [->|Hne].
  - eapply keeps_bind; [apply keeps_read16; word|]. intros fmt _. apply keeps_ret.
    destruct (_ =? _); lia.
  - destruct (i_mnemonic ins); try done; apply keeps_ret;
      first [apply cycles_flow_bounds | apply cycles_moves_bounds | apply cycles_alu_bounds
            | apply cycles_unary_bounds | apply cycles_fixed_bounds | apply cycles_shift_bounds].
Qed.

(** ** Fetch and safepoint *)
Lemma fetch_ok pc n : keeps sys_ok (fetch (S:=S) pc n) (Forall is_u8).
Proof.
  revert pc. induction n as [|n IH]; intros pc; cbn [fetch]; [apply keeps_ret; constructor|].
  eapply keeps_bind; [apply keeps_read8; word|]. intros b Hb.
  eapply keeps_bind; [apply IH|]. intros bs Hbs. apply keeps_ret. by constructor.
Qed.
Lemma debug_trace_block_ok : keeps sys_ok (debug_trace_block (S:=S)) (fun _ => True).
Proof.
  unfold debug_trace_block. eapply keeps_bind; [apply keeps_get_irq|]. intros q _.
  apply keeps_when; [done|]. apply recomp_take_irq_ok.
Qed.
Lemma set_fault_ok op addr :
  is_u16 op ->
  keeps sys_ok (modify (fun s : Sys S => set_fault op (addr s) s)) (fun _ => True).
Proof. intros. apply keeps_modify; [done|]. intros s []. by split. Qed.
Lemma set_fault_addr_ok addr :
  keeps sys_ok (modify (fun s : Sys S => set_fault (g_fault_opcode s) addr s)) (fun _ => True).
Proof. apply keeps_modify; [done|]. intros s []. by split. Qed.

Lemma keeps_catch {A} (m : Mach (Sys S) A) h Q :
  keeps sys_ok m Q -> (forall a, keeps sys_ok (h a) Q) -> keeps sys_ok (catch_bus m h) Q.
Proof.
  intros Hm Hh s Hs. unfold catch_bus. specialize (Hm s Hs) as [HI HQ].
  destruct (m s) as [[a|[]] s']; cbn in *; try done. by apply Hh.
Qed.
Lemma interp_bus_error_ok pc addr :
  is_u32 pc -> keeps sys_ok (interp_bus_error (S:=S) pc addr) (fun _ => True).
Proof.
  intros Hpc. unfold interp_bus_error.
  eapply keeps_bind; [apply set_fault_addr_ok|]. intros _ _.
  eapply keeps_bind; [by apply keeps_set_PC|]. intros _ _.
  eapply keeps_bind; [apply raise_frame_ok; word|]. intros _ _. apply defer_ok. word.
Qed.
Lemma interp_commit_ok ins cyc st next :
  is_u32 next -> keeps sys_ok (interp_commit (S:=S) ins cyc st next) (fun _ => True).
Proof.
  intros Hn. unfold interp_commit. destruct st; try by apply keeps_ret.
  eapply keeps_bind; [apply (keeps_get_flag s_illegal_ea)|]. intros ill _. destruct ill.
  { eapply keeps_bind; [apply set_bad_ok|]. intros. by apply keeps_ret. }
  eapply keeps_bind; [apply keeps_set_PC; word|]. intros _ _.
  eapply (keeps_bind _ _ _ (fun _ => True)); [|intros; by apply keeps_ret].
  destruct (decide _); [apply defer_ok; word|].
  eapply keeps_bind; [apply keeps_get_cycles|]. intros acc Hacc.
  eapply keeps_bind; [apply set_cycles_ok; word|]. intros _ _. apply mcd212_tick_ok. word.
Qed.

Context (m68k_decode : list Z -> Z -> option M68KInstr).
(** The decoder answers with field values of their declared types. *)
Context (decode_ok : forall win pc ins, Forall is_u8 win -> m68k_decode win pc = Some ins -> instr_ok ins).

Lemma exec_guarded_ok ins pc :
  instr_ok ins -> is_u32 pc ->
  keeps sys_ok
    (catch_bus (modify (set_illegal_ea false);;; r <-- exec_one (S:=S) ins;; ret (Some r))
               (fun addr => interp_bus_error pc addr;;; ret None))
    (fun o => match o with Some r => is_u32 (snd r) | None => True end).
Proof.
  intros Hi Hpc. apply keeps_catch.
  - eapply keeps_bind; [apply set_illegal_ok|]. intros _ _.
    eapply keeps_bind; [by apply exec_one_ok|]. intros r Hr. by apply keeps_ret.
  - intros addr. eapply keeps_bind; [by apply interp_bus_error_ok|]. intros. by apply keeps_ret.
Qed.

(** One step keeps the machine well formed on every way out: a fault inside the
    instruction, an interrupt taken at its head and a refused opcode included. *)
Lemma step_ok : keeps sys_ok (m68k_interp_step (S:=S) m68k_decode) (fun _ => True).
Proof.
  unfold m68k_interp_step. eapply keeps_bind; [apply keeps_getPC|]. intros pc0 Hpc0. cbv zeta.
  destruct (Z.odd _).
  { eapply keeps_bind; [apply set_bad_pc_ok|]. intros. by apply keeps_ret. }
  eapply keeps_bind; [apply debug_trace_block_ok|]. intros _ _.
  eapply keeps_bind; [apply fetch_ok|]. intros win Hwin.
  destruct (m68k_decode win _) as [ins|] eqn:E.
  - pose proof (decode_ok _ _ _ Hwin E) as Hi.
    eapply keeps_bind; [apply m68k_cycles_ok|]. intros cyc _.
    eapply keeps_bind; [apply set_fault_ok; by apply word0_u16|]. intros _ _.
    eapply keeps_bind; [apply exec_guarded_ok; [done|word]|]. intros [[st next]|] Ho.
    + by apply interp_commit_ok.
    + by apply keeps_ret.
  - eapply keeps_bind; [apply set_bad_pc_ok|]. intros _ _.
    eapply keeps_bind; [apply keeps_read16; word|]. intros op _.
    eapply keeps_bind; [apply set_bad_ok|]. intros. by apply keeps_ret.
Qed.
End Step.

(** The flat board is a machine these lemmas apply to. *)
Lemma flat_sys_ok c : cpu_ok c -> sys_ok (at_state c flat_reset flat_sys).
Proof.
  intros Hc. split; cbn; try word.
  - split; [unfold is_word; cbn; lia|]. unfold irq_ok. cbn.
    split; [word|]. split; [word|]. split; [done|]. repeat constructor; unfold is_word; lia.
  - split_and!; [lia|constructor|constructor].
Qed.

(** Every instruction costs between 3 and 212 clock periods, whatever its
    operands and the state it starts from, so each step moves device time
    forward and by a bounded amount. *)
Theorem cycles_bounded {S : Type} `{BoardOk S} ins (s : Sys S) :
  sys_ok s ->
  match fst (m68k_cycles ins s) with Ok c => 3 <= c <= 212 | Exn _ => True end.
Proof. intros Hs. by destruct (m68k_cycles_ok ins s Hs). Qed.

Definition movem_all : M68KInstr :=
  mkInstr 0 6 [0x4CFB; 0xFFFF; 0] MN_MOVEM M68K_SIZE_L 0x3B 0 0 0 0 false false false.
Lemma cycles_bounded_witness :
  match fst (m68k_cycles movem_all (at_state user_cpu flat_reset flat_sys)) with
  | Ok c => 3 <= c <= 212
  | Exn _ => True
  end /\
  fst (m68k_cycles movem_all (at_state user_cpu flat_reset flat_sys)) = Ok 209.
Proof.
  split; [|reflexivity].
  exact (cycles_bounded movem_all (at_state user_cpu flat_reset flat_sys) (flat_sys_ok _ user_cpu_ok)).
Defined.
