(* ===== verification/FaultSpec.v ===== *)
(** Faults, interrupts and termination: flags before faulting stores, the
    vector-2 exception of a bus error inside an instruction, the choice and
    consumption of interrupt edges, and the guard of the run loops. *)

From Stdlib Require Import ZArith Lia Bool.
From stdpp Require Import base tactics numbers list sets.
From S2P Require Import Prelude Irq Cpu Insn Alu Ea Cycles Interp CpuOk OperandOk Ram ControlSpec.
Open Scope Z_scope.
Open Scope mach_scope.

(** * Stores do not touch the status register *)
Section KeepsSR.
Context {S : Type} `{Board S} (sr : Z).

Definition has_sr (s : Sys S) : Prop := SR (g_cpu s) = sr.

Lemma sr_on_bus {A} (m : Mach S A) : keeps has_sr (on_bus m) (fun _ => True).
Proof. intros s Hs. unfold on_bus. destruct (m (bus s)) as [[a|e] b]; by split. Qed.
Lemma sr_gets {A} (f : Sys S -> A) : keeps has_sr (gets f) (fun _ => True).
Proof. by apply keeps_gets. Qed.
Lemma sr_putA i v : keeps has_sr (putA i v) (fun _ => True).
Proof. by apply keeps_modify. Qed.
Lemma sr_putD i v : keeps has_sr (putD i v) (fun _ => True).
Proof. by apply keeps_modify. Qed.
Lemma sr_ret {A} (a : A) : keeps has_sr (ret a) (fun _ => True).
Proof. by apply keeps_ret. Qed.
Lemma sr_illegal b : keeps has_sr (modify (set_illegal_ea b)) (fun _ => True).
Proof. by apply keeps_modify. Qed.
Lemma sr_bind {A B} (m : Mach (Sys S) A) (k : A -> Mach (Sys S) B) :
  keeps has_sr m (fun _ => True) -> (forall a, keeps has_sr (k a) (fun _ => True)) ->
  keeps has_sr (bind m k) (fun _ => True).
Proof. intros Hm Hk. eapply keeps_bind; [exact Hm|]. auto. Qed.

Lemma write_ea_ex_keeps_sr ins ea sz er v r :
  keeps has_sr (write_ea_ex ins ea sz er v r) (fun _ => True).
Proof.
  unfold write_ea_ex, store_dn, mem_write, indexed, index_register. cbv zeta.
  destruct (er_next ins er) as [w er1]. destruct (er_next_dword ins er) as [l er2].
  destruct (ea_mode ea) as [|[[[]|[]|]|[[]|[]|]|]|]; cbn match;
    try (destruct (ea_reg ea) as [|[[[]|[]|]|[[]|[]|]|]|]; cbn match);
    repeat first
      [ apply sr_bind; [|intros ?] | apply sr_on_bus | apply sr_putA | apply sr_putD
      | apply sr_ret | apply sr_illegal | apply sr_gets | apply keeps_when; [done|]
      | match goal with |- keeps _ (if ?b then _ else _) _ => destruct b
                      | |- keeps _ (match ?x with _ => _ end) _ => destruct x end ].
Qed.
End KeepsSR.

Section FlagsFirst.
Context {S : Type} `{Board S}.

Lemma tail_fault_sr {A} (m : Mach (Sys S) unit) (a : A) s s' e :
  (forall sr, keeps (has_sr sr) m (fun _ => True)) ->
  bind m (fun _ => ret a) s = (Exn e, s') -> SR (g_cpu s') = SR (g_cpu s).
Proof.
  intros Hm E. destruct (Hm (SR (g_cpu s)) s eq_refl) as [HI _].
  unfold bind in E. destruct (m s) as [[u|e'] s1]; cbn in *; [done|]. by injection E as <- <-.
Qed.

(** C29. Flags are committed before the store that may fault, so the frame of
    the bus error stacks them: a faulting MOVE leaves the N and Z of the value
    it was storing, and a faulting read-modify-write instruction the flags its
    operation computed, not those of before the instruction. *)
Theorem store_fault_sees_new_flags ins (s : Sys S) e s' :
  (forall v er s1,
     read_ea ins (i_src_ea ins) (i_size ins) er_init s = (Ok (v, er), s1) ->
     exec_move ins s = (Exn e, s') ->
     SR (g_cpu s') = flags_logic v (i_size ins) (SR (g_cpu s1))) /\
  (forall sz er f a er' s1 r s2,
     read_ea_ex ins (i_src_ea ins) sz er true s = (Ok (a, er'), s1) ->
     f (Z.land a (szmask sz)) s1 = (Ok r, s2) ->
     rmw ins sz er f s = (Exn e, s') ->
     SR (g_cpu s') = SR (g_cpu s2)).
Proof.
  split.
  - intros v er s1 Hread Hexec. unfold exec_move in Hexec.
    erewrite run_bind in Hexec by exact Hread. cbv beta iota in Hexec.
    erewrite run_bind in Hexec by apply run_modify.
    eapply tail_fault_sr in Hexec; [|intros; apply write_ea_ex_keeps_sr]. exact Hexec.
  - intros sz er f a er' s1 r s2 Hread Hf Hexec. unfold rmw in Hexec.
    erewrite run_bind in Hexec by exact Hread. cbv beta iota in Hexec.
    erewrite run_bind in Hexec by exact Hf.
    eapply tail_fault_sr in Hexec; [|intros; apply write_ea_ex_keeps_sr]. exact Hexec.
Qed.
End FlagsFirst.

(** MOVE.W D0,(A0) with A0 outside the RAM of the flat board. *)
Definition move_store : M68KInstr :=
  mkInstr 0x1000 2 [0x3080] MN_MOVE M68K_SIZE_W 0 0x10 0 0 0 false false false.
Definition probe_cpu : M68KState :=
  mkCpu [0x8000;0;0;0;0;0;0;0] [0x300000;0;0;0;0;0;0;0x8000] 0x2704 0x1000 0 0.

Lemma store_fault_sees_new_flags_witness :
  let s := at_state probe_cpu flat_reset flat_sys in
  exists e s', exec_move move_store s = (Exn e, s') /\
    SR (g_cpu s') = flags_logic 0x8000 M68K_SIZE_W 0x2704 /\ SR (g_cpu s') = 0x2708.
Proof.
  intros s. eexists _, _. split; [reflexivity|]. split; [|reflexivity].
  destruct (store_fault_sees_new_flags move_store s (EBusFault 0x300000)
    (snd (exec_move move_store s))) as [Hmove _].
  apply (Hmove 0x8000 er_init s); reflexivity.
Defined.

(** * Interrupt edges *)
Lemma testbit_clear_bit x l i :
  0 <= l -> 0 <= i -> Z.testbit (Z.land x (Z.lnot (2 ^ l))) i = Z.testbit x i && negb (i =? l).
Proof. intros. by rewrite Z.land_spec, Z.lnot_spec, testbit_pow2 by lia. Qed.

(** Delivery takes the highest pending level and consumes exactly one edge
    of it: the on-chip one first (vector 56 + level), else the external one
    with the vector its device programmed or the autovector 24 + level; every
    other pending bit and programmed vector survives. *)
Theorem irq_consumes_highest_edge (q : IrqState) :
  irq_ok q -> 0 < recomp_pending_irq_level q ->
  let lvl := recomp_pending_irq_level q in
  let '(vec, q') := irq_consume lvl q in
  1 <= lvl <= 7 /\
  Z.testbit (recomp_pending_irq_mask q) lvl = true /\
  (forall l, lvl < l <= 7 -> Z.testbit (recomp_pending_irq_mask q) l = false) /\
  (if Z.testbit (s_irq_onchip_pending q) lvl then
     vec = 56 + lvl /\ g_irq_pending q' = g_irq_pending q /\
     s_irq_external_vector q' = s_irq_external_vector q /\
     forall l, 0 <= l -> Z.testbit (s_irq_onchip_pending q') l =
       Z.testbit (s_irq_onchip_pending q) l && negb (l =? lvl)
   else
     Z.testbit (g_irq_pending q) lvl = true /\
     vec = (if lget (s_irq_external_vector q) lvl =? 0 then 24 + lvl
            else lget (s_irq_external_vector q) lvl) /\
     s_irq_onchip_pending q' = s_irq_onchip_pending q /\
     (forall l, 0 <= l -> Z.testbit (g_irq_pending q') l =
       Z.testbit (g_irq_pending q) l && negb (l =? lvl)) /\
     forall l, 0 <= l -> l <> lvl ->
       lget (s_irq_external_vector q') l = lget (s_irq_external_vector q) l).
Proof.
  intros Hq Hpos lvl. pose proof (recomp_pending_irq_level_range q) as Hr. fold lvl in Hr, Hpos.
  unfold irq_consume, irq_onchip.
  destruct (highest_level_spec (recomp_pending_irq_mask q) 7) as [[H0 _]|(H1 & H2 & H3)].
  { unfold lvl, recomp_pending_irq_level in Hpos. lia. }
  fold (recomp_pending_irq_level q) in H1, H2, H3. fold lvl in H1, H2, H3.
  destruct (Z.testbit (s_irq_onchip_pending q) lvl) eqn:E.
  - split; [lia|]. split; [done|]. split; [intros; apply H3; lia|].
    split; [unfold u8; zlia|]. split; [done|]. split; [done|].
    intros l Hl. apply testbit_clear_bit; lia.
  - split; [lia|]. split; [done|]. split; [intros; apply H3; lia|].
    unfold recomp_pending_irq_mask in H2. rewrite Z.lor_spec, E, orb_false_r in H2.
    split; [done|]. split; [destruct (_ =? 0); unfold u8; zlia || done|]. split; [done|].
    split; [intros; apply testbit_clear_bit; lia|]. intros l Hl Hne. apply lget_lset_ne; lia.
Qed.

Lemma irq_consumes_highest_edge_witness :
  let q := cdi_irq_raise_vector 5 0x42 (cdi_irq_raise 2 irq_reset) in
  irq_consume (recomp_pending_irq_level q) q = (0x42, cdi_irq_raise 2 irq_reset) /\
  1 <= recomp_pending_irq_level q <= 7.
Proof.
  intros q. split; [reflexivity|].
  apply (irq_consumes_highest_edge q); [|reflexivity].
  split; [split; by vm_compute|]. split; [split; by vm_compute|]. split; [reflexivity|].
  repeat constructor; unfold is_word; lia.
Defined.

(** * The run loops terminate *)
Section Run.
Context {S : Type} `{Board S}.
Context (m68k_decode : list Z -> Z -> option M68KInstr).
Context (dispatch_has_addr : Z -> bool) (guard : Z).

(** One turn of a loop that either answers or retires one more instruction. *)
Lemma loop_tail_total (m : Mach (Sys S) (option M68kiStatus)) (cond : bool) (s : Sys S) :
  fst (m s) <> Ok None ->
  fst ((if cond then ret (Some M68KI_OK) else m) s) <> Ok None.
Proof. by destruct cond. Qed.

Lemma step_turn_total (k : Mach (Sys S) (option M68kiStatus)) count s :
  (count + 1 <= guard -> forall s', fst (k s') <> Ok None) ->
  fst ((st <-- m68k_interp_step m68k_decode;;
        halted <-- gets g_halted;;
        if decide (st <> M68KI_OK) then ret (Some st)
        else if (halted : bool) then ret (Some M68KI_OK)
        else if guard <? count + 1 then
          pc' <-- gets (fun s => PC (g_cpu s));;
          modify (fun s => set_bad pc' (g_m68ki_bad_op s) s);;;
          ret (Some M68KI_HALT_GUARD)
        else k) s) <> Ok None.
Proof.
  intros Hk. unfold bind at 1. destruct (m68k_interp_step m68k_decode s) as [[st|e] s']; [|done].
  unfold bind at 1. cbn [gets]. destruct (decide _); [done|]. destruct (g_halted s'); [done|].
  destruct (Z.ltb_spec guard (count + 1)); [done|]. apply Hk. lia.
Qed.

Lemma run_loop_total fuel stop count s :
  (Z.to_nat (guard + 1 - count) < fuel)%nat ->
  fst (interp_run_loop m68k_decode guard fuel stop count s) <> Ok None.
Proof.
  revert count s. induction fuel as [|fuel IH]; intros count s Hf; [lia|]. cbn [interp_run_loop].
  unfold bind at 1. cbn [gets]. destruct (_ =? _); [done|].
  apply step_turn_total. intros Hc s'. apply IH. lia.
Qed.
Lemma until_known_total fuel entry stop count s :
  (Z.to_nat (guard + 1 - count) < fuel)%nat ->
  fst (until_known_loop m68k_decode dispatch_has_addr guard fuel entry stop count s) <> Ok None.
Proof.
  revert count s. induction fuel as [|fuel IH]; intros count s Hf; [lia|]. cbn [until_known_loop].
  unfold bind at 1. cbn [gets]. destruct (negb _ && _); [done|]. destruct (negb _ && _); [done|].
  apply step_turn_total. intros Hc s'. apply IH. lia.
Qed.

(** Both run loops stop: whatever code they interpret (a spin, a runaway
    jump), with one turn more than the instruction guard they have answered
    with a clean stop, a halt status or a hand-off, never "still running". *)
Theorem run_loops_terminate fuel entry stop (s : Sys S) :
  (Z.to_nat (guard + 1) < fuel)%nat ->
  fst (m68k_interp_run m68k_decode guard fuel entry stop s) <> Ok None /\
  fst (m68k_interp_run_until_known m68k_decode dispatch_has_addr guard fuel entry stop s) <> Ok None.
Proof.
  intros Hf. split.
  - apply run_loop_total. by rewrite Z.sub_0_r.
  - apply until_known_total. by rewrite Z.sub_0_r.
Qed.
End Run.

(** BRA to itself runs into a guard of three instructions. *)
Definition spin_decode (win : list Z) (pc : Z) : option M68KInstr :=
  Some (mkInstr pc 2 [0x60FE] MN_BRA M68K_SIZE_W 0 0 0 0 pc false false false).
Lemma run_loops_terminate_witness :
  fst (m68k_interp_run spin_decode 3 5 0x1000 0 (at_state user_cpu flat_reset flat_sys)) <> Ok None /\
  fst (m68k_interp_run spin_decode 3 5 0x1000 0 (at_state user_cpu flat_reset flat_sys)) =
    Ok (Some M68KI_HALT_GUARD).
Proof.
  split; [|vm_compute; reflexivity].
  destruct (run_loops_terminate spin_decode (fun _ => false) 3 5 0x1000 0
    (at_state user_cpu flat_reset flat_sys)) as [H _]; [|exact H].
  apply Nat.ltb_lt. reflexivity.
Defined.
