(* ===== verification/Double.v ===== *)
(** C doubles: IEEE 754 binary64 with rounding to nearest even, as the
    executable specification of the Standard Library, and the facts the clocks
    rest on: addition rounds once, to the nearest, and the carry loops'
    subtraction is exact. *)

From Stdlib Require Import ZArith Lia Bool.
From Stdlib Require Import SpecFloat.
From stdpp Require Import base tactics numbers list.
From S2P Require Import Prelude.
Open Scope Z_scope.

Definition double : Type := spec_float.
Definition dzero : double := S754_zero false.
Definition dadd : double -> double -> double := SFadd 53 1024.
Definition dsub : double -> double -> double := SFsub 53 1024.
Definition dge (x y : double) : bool := SFleb y x.

(** The value of a non-negative finite double, in units of 2^-1074. *)
Definition dval (x : double) : Z :=
  match x with
  | S754_finite false m e => Zpos m * 2 ^ (e + 1074)
  | _ => 0
  end.

(** A positive normal double: a 53-bit significand in the exponent range. *)
Definition normal (m : positive) (e : Z) : Prop :=
  2 ^ 52 <= Zpos m < 2 ^ 53 /\ -1074 <= e <= 971.

(** ** Digits and shifts of the specification *)
Lemma digits_log2 p : Zpos (digits2_pos p) = Z.log2 (Zpos p) + 1.
Proof.
  induction p as [p IH|p IH|]; cbn [digits2_pos]; rewrite ?Pos2Z.inj_succ, ?IH; try done.
  - rewrite Pos2Z.inj_xI, Z.log2_succ_double by lia. lia.
  - rewrite Pos2Z.inj_xO, Z.log2_double by lia. lia.
Qed.

Lemma iter_xO p d : Zpos (Pos.iter xO p d) = Zpos p * 2 ^ Zpos d.
Proof.
  induction d as [|d IH] using Pos.peano_ind; [cbn; lia|].
  rewrite Pos.iter_succ, Pos2Z.inj_xO, IH, Pos2Z.inj_succ, Z.pow_succ_r by lia. lia.
Qed.

Lemma iter_pos_nat {A} (f : A -> A) p x : SpecFloat.iter_pos f p x = Nat.iter (Pos.to_nat p) f x.
Proof.
  revert x. induction p as [p IH|p IH|]; intros x; cbn [SpecFloat.iter_pos]; rewrite ?IH; [| |done].
  - rewrite <- Nat.iter_add, <- Nat.iter_succ_r. f_equal. lia.
  - rewrite <- Nat.iter_add. f_equal. lia.
Qed.

Lemma shr_exact m n :
  SpecFloat.iter_pos shr_1 n (Build_shr_record (Zpos m * 2 ^ Zpos n) false false) =
  Build_shr_record (Zpos m) false false.
Proof.
  rewrite iter_pos_nat. rewrite <- (positive_nat_Z n). induction (Pos.to_nat n) as [|k IH].
  - change (2 ^ Z.of_nat 0) with 1. by rewrite Z.mul_1_r.
  - rewrite Nat.iter_succ_r, Nat2Z.inj_succ, Z.pow_succ_r by lia.
    replace (Zpos m * (2 * 2 ^ Z.of_nat k)) with (2 * (Zpos m * 2 ^ Z.of_nat k)) by lia.
    destruct (Zpos m * 2 ^ Z.of_nat k) as [|q|q] eqn:E.
    + pose proof (Z.pow_pos_nonneg 2 (Z.of_nat k)). nia.
    + cbn [Z.mul shr_1 orb]. exact IH.
    + pose proof (Z.pow_pos_nonneg 2 (Z.of_nat k)). nia.
Qed.

Lemma normal_log2 m e : normal m e -> Zpos (digits2_pos m) = 53.
Proof.
  intros [Hm _]. rewrite digits_log2. rewrite (Z.log2_unique (Zpos m) 52); [done|lia|].
  change (Z.succ 52) with 53. done.
Qed.

Lemma shr_fexp_normal m e :
  normal m e ->
  shr_fexp 53 1024 (Zpos m) e loc_Exact = (Build_shr_record (Zpos m) false false, e).
Proof.
  intros Hn. pose proof (normal_log2 m e Hn) as Hd. destruct Hn as [_ He].
  unfold shr_fexp, fexp, emin. cbn [Zdigits2 shr_record_of_loc]. rewrite Hd.
  by replace (Z.max (53 + e - 53) (3 - 1024 - 53) - e) with 0 by lia.
Qed.

(** Rounding a value whose shifted significand is exact. *)
Lemma round_shifted n e m e' :
  normal m e' ->
  shr_fexp 53 1024 (Zpos n) e loc_Exact = (Build_shr_record (Zpos m) false false, e') ->
  binary_round_aux 53 1024 false (Zpos n) e loc_Exact = S754_finite false m e'.
Proof.
  intros Hn E. unfold binary_round_aux. rewrite E.
  cbn [shr_m loc_of_shr_record round_nearest_even]. rewrite shr_fexp_normal by done.
  cbn [shr_m]. destruct Hn as [_ He]. destruct (Z.leb_spec e' (1024 - 53)); [done|lia].
Qed.

Lemma round_normal m e :
  normal m e -> binary_round_aux 53 1024 false (Zpos m) e loc_Exact = S754_finite false m e.
Proof. intros Hn. apply round_shifted; [done|]. by apply shr_fexp_normal. Qed.

(** A value [n * 2^e] that has a normal representation is rounded to it. *)
Lemma normalize_exact n e m k :
  normal m (e + k) ->
  (0 <= k -> Zpos n = Zpos m * 2 ^ k) -> (k <= 0 -> Zpos m = Zpos n * 2 ^ (- k)) ->
  binary_normalize 53 1024 (Zpos n) e false = S754_finite false m (e + k).
Proof.
  intros Hn Hpos Hneg. pose proof (normal_log2 _ _ Hn) as Hd.
  assert (Zpos (digits2_pos n) = 53 + k) as Hdn.
  { rewrite digits_log2 in *. destruct (Z.le_gt_cases 0 k) as [Hk|Hk].
    - rewrite Hpos, Z.log2_mul_pow2 by lia. lia.
    - rewrite Hneg, Z.log2_mul_pow2 in Hd by lia. lia. }
  assert (fexp 53 1024 (53 + k + e) = e + k) as Hf
    by (unfold fexp, emin; destruct Hn; lia).
  unfold binary_normalize, binary_round. rewrite Hdn, Hf. unfold shl_align.
  replace (e + k - e) with k by lia. destruct k as [|k|k].
  - assert (n = m) as -> by (specialize (Hpos ltac:(lia)); lia).
    rewrite Z.add_0_r in *. by apply round_normal.
  - apply round_shifted; [done|].
    unfold shr_fexp. cbn [Zdigits2 shr_record_of_loc]. rewrite Hdn, Hf.
    replace (e + Zpos k - e) with (Zpos k) by lia. unfold shr.
    rewrite Hpos by lia. by rewrite shr_exact.
  - assert (Pos.iter xO n k = m) as ->; [|by apply round_normal].
    specialize (Hneg ltac:(lia)). apply Pos2Z.inj. rewrite iter_xO. symmetry. exact Hneg.
Qed.

(** ** Exact subtraction

    When the subtrahend is a multiple [b] of the minuend's last place and not
    larger, no bit of the difference is lost. *)
Lemma shl_align_down m e d :
  0 <= d -> Zpos (fst (shl_align m e (e - d))) = Zpos m * 2 ^ d.
Proof.
  intros Hd. unfold shl_align. replace (e - d - e) with (- d) by lia.
  destruct d as [|d|d]; cbn [Z.opp fst]; [by rewrite Z.mul_1_r|apply iter_xO|lia].
Qed.

Definition normalized (r : positive) (e : Z) : double :=
  let j := 52 - Z.log2 (Zpos r) in S754_finite false (Z.to_pos (Zpos r * 2 ^ j)) (e - j).

Lemma normalized_normal r e :
  Zpos r < 2 ^ 53 -> -1022 <= e <= 971 ->
  let j := 52 - Z.log2 (Zpos r) in
  0 <= j <= 52 /\ normal (Z.to_pos (Zpos r * 2 ^ j)) (e - j) /\
  Zpos (Z.to_pos (Zpos r * 2 ^ j)) = Zpos r * 2 ^ j.
Proof.
  intros Hr He j.
  pose proof (Z.log2_nonneg (Zpos r)). pose proof (Z.log2_spec (Zpos r) ltac:(lia)) as [Hlo Hhi].
  assert (Z.log2 (Zpos r) < 53) as Hl by (apply Z.log2_lt_pow2; lia).
  assert (0 <= j <= 52) as Hj by (subst j; lia).
  pose proof (Z.pow_pos_nonneg 2 j ltac:(lia) ltac:(lia)).
  assert (Zpos (Z.to_pos (Zpos r * 2 ^ j)) = Zpos r * 2 ^ j) as Hp by (apply Z2Pos.id; nia).
  split; [done|]. split; [|done]. split; [|lia]. rewrite Hp.
  assert (2 ^ 52 = 2 ^ Z.log2 (Zpos r) * 2 ^ j) as H52
    by (rewrite <- Z.pow_add_r by lia; f_equal; subst j; lia).
  assert (2 ^ 53 = 2 ^ Z.succ (Z.log2 (Zpos r)) * 2 ^ j) as H53
    by (rewrite <- Z.pow_add_r by lia; f_equal; subst j; lia).
  rewrite H52, H53. nia.
Qed.

Lemma dsub_exact m e k ey b r :
  normal m e -> -1022 <= e -> ey <= e -> Zpos k = b * 2 ^ (e - ey) -> 0 <= r ->
  Zpos m = b + r ->
  dsub (S754_finite false m e) (S754_finite false k ey) =
  match r with Zpos r => normalized r e | _ => dzero end.
Proof.
  intros Hn He Hey Hk Hr Hm. unfold dsub, SFsub. replace (Z.min e ey) with ey by lia.
  pose proof (shl_align_down m e (e - ey) ltac:(lia)) as E1.
  replace (e - (e - ey)) with ey in E1 by lia.
  assert (fst (shl_align k ey ey) = k) as -> by (unfold shl_align; by rewrite Z.sub_diag).
  cbn [cond_Zopp]. rewrite E1, Hk, Hm.
  replace ((b + r) * 2 ^ (e - ey) - b * 2 ^ (e - ey)) with (r * 2 ^ (e - ey)) by lia.
  pose proof (Z.pow_pos_nonneg 2 (e - ey) ltac:(lia) ltac:(lia)) as Hp.
  destruct r as [|r|r]; [done| |lia].
  destruct (Zpos r * 2 ^ (e - ey)) as [|N|N] eqn:EN; [nia| |nia].
  assert (0 < Zpos k) by lia. assert (0 <= b) by nia.
  pose proof Hn as [Hm' He'].
  destruct (normalized_normal r e ltac:(lia) ltac:(lia)) as (Hj & Hnn & Hz).
  unfold normalized. cbv zeta. set (j := 52 - Z.log2 (Zpos r)) in *.
  replace (e - j) with (ey + (e - j - ey)) in * by lia. apply normalize_exact; [done| |].
  - intros Hge. rewrite Hz, <- EN, <- Z.mul_assoc, <- Z.pow_add_r by lia. do 2 f_equal. lia.
  - intros Hle. rewrite Hz, <- EN, <- Z.mul_assoc, <- Z.pow_add_r by lia. do 2 f_equal. lia.
Qed.

Lemma dval_nonneg x : 0 <= dval x.
Proof.
  destruct x as [| | |[] m e]; cbn [dval]; [done..|]. apply Z.mul_nonneg_nonneg; [lia|].
  apply Z.pow_nonneg. lia.
Qed.

Lemma dval_normalized r e :
  Zpos r < 2 ^ 53 -> -1022 <= e <= 971 -> dval (normalized r e) = Zpos r * 2 ^ (e + 1074).
Proof.
  intros Hr He. destruct (normalized_normal r e Hr He) as (Hj & _ & Hz).
  unfold normalized. cbv zeta. cbn [dval]. rewrite Hz, <- Z.mul_assoc, <- Z.pow_add_r by lia.
  do 2 f_equal. lia.
Qed.

(** Comparison of normal doubles is the comparison of their values. *)
Lemma dge_normal m e n g :
  normal m e -> normal n g ->
  dge (S754_finite false m e) (S754_finite false n g) =
  (dval (S754_finite false n g) <=? dval (S754_finite false m e)).
Proof.
  intros [Hm He] [Hn Hg]. unfold dge, SFleb. cbn [SFcompare dval].
  change (Pos.compare_cont Eq n m) with (n ?= m)%positive.
  assert (forall a b x y, 2 ^ 52 <= a < 2 ^ 53 -> 2 ^ 52 <= b < 2 ^ 53 -> -1074 <= x < y ->
    a * 2 ^ (x + 1074) < b * 2 ^ (y + 1074)) as Hlt.
  { intros a b x y Ha Hb Hxy. replace (y + 1074) with ((x + 1074) + (y - x)) by lia.
    rewrite (Z.pow_add_r 2 (x + 1074) (y - x)) by lia.
    pose proof (Z.pow_pos_nonneg 2 (x + 1074) ltac:(lia) ltac:(lia)).
    pose proof (Z.pow_le_mono_r 2 1 (y - x) ltac:(lia) ltac:(lia)).
    assert (a < b * 2 ^ (y - x)) by nia. nia. }
  destruct (Z.compare_spec g e) as [<-|Hlt'|Hgt].
  - pose proof (Z.pow_pos_nonneg 2 (g + 1074) ltac:(lia) ltac:(lia)).
    destruct (Pos.compare_spec n m) as [->|Hc|Hc]; symmetry;
      [apply Z.leb_le|apply Z.leb_le|apply Z.leb_gt]; nia.
  - symmetry. apply Z.leb_le. specialize (Hlt (Zpos n) (Zpos m) g e Hn Hm ltac:(lia)). lia.
  - symmetry. apply Z.leb_gt. specialize (Hlt (Zpos m) (Zpos n) e g Hm Hn ltac:(lia)). lia.
Qed.

(** ** Rounded addition

    A sum is rounded once, to the nearest 53-bit significand. *)
Lemma shr_1_div m r s :
  0 <= m -> shr_1 (Build_shr_record m r s) = Build_shr_record (m / 2) (Z.odd m) (r || s).
Proof.
  intros Hm. destruct m as [|[p|p|]|p]; [done| | |done|lia]; cbn [shr_1 shr_m shr_r shr_s Z.odd]; f_equal.
  - rewrite Pos2Z.inj_xI. zlia.
  - rewrite Pos2Z.inj_xO. zlia.
Qed.

(** The quotient, the round bit and the sticky bit after [k + 1] shifts. *)
Lemma shr_bits n k :
  0 <= n ->
  Nat.iter (S k) shr_1 (Build_shr_record n false false) =
  Build_shr_record (n / 2 ^ Z.of_nat (S k)) (Z.odd (n / 2 ^ Z.of_nat k)) (negb (n mod 2 ^ Z.of_nat k =? 0)).
Proof.
  intros Hn. induction k as [|k IH].
  - cbn [Nat.iter nat_rect]. rewrite shr_1_div by done. change (2 ^ Z.of_nat 1) with 2. change (2 ^ Z.of_nat 0) with 1.
    by rewrite Z.div_1_r, Z.mod_1_r.
  - assert (0 < 2 ^ Z.of_nat k) as Hp by (apply Z.pow_pos_nonneg; lia).
    assert (forall j, 2 ^ Z.of_nat (S j) = 2 ^ Z.of_nat j * 2) as E
      by (intros; rewrite Nat2Z.inj_succ, Z.pow_succ_r by lia; lia).
    rewrite Nat.iter_succ, IH, shr_1_div by (apply Z.div_pos; [done|apply Z.pow_pos_nonneg; lia]).
    f_equal; [rewrite (E (S k)); apply Z.div_div; [apply Z.pow_nonzero|]; lia|].
    rewrite (E k), Z.rem_mul_r by lia. rewrite Zodd_mod.
    pose proof (Z.mod_pos_bound n (2 ^ Z.of_nat k) Hp). pose proof (Z.mod_pos_bound (n / 2 ^ Z.of_nat k) 2 ltac:(lia)).
    destruct (Z.eqb_spec (n mod 2 ^ Z.of_nat k) 0), (Z.eqb_spec ((n / 2 ^ Z.of_nat k) mod 2) 1);
      cbn [negb orb]; symmetry; rewrite ?negb_true_iff, ?negb_false_iff, ?Z.eqb_eq, ?Z.eqb_neq; nia.
Qed.

Definition rounded (r : shr_record) : Z := round_nearest_even (shr_m r) (loc_of_shr_record r).

Lemma rounded_near n k :
  0 <= n ->
  let c := rounded (Nat.iter k shr_1 (Build_shr_record n false false)) in
  2 * Z.abs (c * 2 ^ Z.of_nat k - n) <= 2 ^ Z.of_nat k /\
  n / 2 ^ Z.of_nat k <= c <= n / 2 ^ Z.of_nat k + 1.
Proof.
  intros Hn c. subst c. destruct k as [|k].
  - cbn. rewrite Z.div_1_r. lia.
  - rewrite shr_bits by done. set (P := 2 ^ Z.of_nat k).
    assert (0 < P) as HP by (apply Z.pow_pos_nonneg; lia).
    assert (2 ^ Z.of_nat (S k) = P * 2) as -> by (rewrite Nat2Z.inj_succ, Z.pow_succ_r by lia; lia).
    rewrite <- Z.div_div by lia. pose proof (Z.div_mod n P ltac:(lia)) as E. pose proof (Z.mod_pos_bound n P HP) as Ht.
    pose proof (Z.div_mod (n / P) 2 ltac:(lia)) as E2. pose proof (Zmod_odd (n / P)) as Eo.
    set (q := n / P / 2) in *. set (t := n mod P) in *. set (d := n / P) in *. clearbody q t d P.
    unfold rounded, loc_of_shr_record. cbn [shr_m shr_r shr_s].
    destruct (Z.odd d), (Z.eqb_spec t 0); cbn [negb round_nearest_even]; [destruct (Z.even q)|..]; nia.
Qed.

(** The sum of significands rounds to a normal double half a place away at most. *)
Lemma normalize_near n e :
  let k := Z.log2 (Zpos n) - 52 in
  0 <= k -> -1074 <= e -> e + k < 971 ->
  exists m j, binary_normalize 53 1024 (Zpos n) e false = S754_finite false m (e + k + j) /\
    0 <= j <= 1 /\ normal m (e + k + j) /\ 2 * Z.abs (Zpos m * 2 ^ (k + j) - Zpos n) <= 2 ^ k.
Proof.
  intros k Hk He Hek. pose proof (Z.log2_spec (Zpos n) ltac:(lia)) as [Hlo Hhi].
  assert (Zpos (digits2_pos n) = 53 + k) as Hd by (rewrite digits_log2; subst k; lia).
  assert (fexp 53 1024 (53 + k + e) = e + k) as Hf by (unfold fexp, emin; lia).
  unfold binary_normalize, binary_round. rewrite Hd, Hf. unfold shl_align.
  replace (e + k - e) with k by lia.
  assert (match k with Zneg d => (Pos.iter xO n d, e + k) | _ => (n, e) end = (n, e)) as -> by (by destruct k).
  unfold binary_round_aux. unfold shr_fexp at 1. cbn [Zdigits2 shr_record_of_loc]. rewrite Hd, Hf.
  replace (e + k - e) with k by lia.
  assert (shr (Build_shr_record (Zpos n) false false) e k =
    (Nat.iter (Z.to_nat k) shr_1 (Build_shr_record (Zpos n) false false), e + k)) as ->.
  { unfold shr. destruct k as [|p|p]; [by rewrite Z.add_0_r| |lia]. by rewrite iter_pos_nat. }
  pose proof (rounded_near (Zpos n) (Z.to_nat k) ltac:(lia)) as [Hnear Hc]. cbv zeta in Hnear, Hc.
  fold (rounded (Nat.iter (Z.to_nat k) shr_1 (Build_shr_record (Zpos n) false false))).
  set (c := rounded _) in *. rewrite Z2Nat.id in * by done.
  assert (2 ^ 52 <= c <= 2 ^ 53) as Hcr.
  { assert (2 ^ 52 <= Zpos n / 2 ^ k < 2 ^ 53); [|lia].
    replace (Z.log2 (Zpos n)) with (52 + k) in * by (subst k; lia).
    rewrite Z.pow_add_r in Hlo by lia. replace (Z.succ (52 + k)) with (53 + k) in Hhi by lia.
    rewrite Z.pow_add_r in Hhi by lia. assert (0 < 2 ^ k) by (apply Z.pow_pos_nonneg; lia).
    split; [apply Z.div_le_lower_bound|apply Z.div_lt_upper_bound]; lia. }
  clearbody c. destruct (Z.eq_dec c (2 ^ 53)) as [->|Hne].
  - exists (2 ^ 52)%positive, 1. assert (shr_fexp 53 1024 (2 ^ 53) (e + k) loc_Exact =
      (Build_shr_record (2 ^ 52) false false, e + k + 1)) as ->.
    { unfold shr_fexp. change (Zdigits2 (2 ^ 53)) with 54.
      assert (fexp 53 1024 (54 + (e + k)) = e + k + 1) as -> by (unfold fexp, emin; lia).
      by replace (e + k + 1 - (e + k)) with 1 by lia. }
    cbn [shr_m Z.pow Z.pow_pos Pos.iter Z.mul Pos.mul]. rewrite (proj2 (Z.leb_le _ _)) by lia.
    split; [done|]. split; [lia|]. split; [split; [done|lia]|].
    rewrite Z.pow_add_r by lia. change (Z.pos (2 ^ 52)) with (2 ^ 52). change (2 ^ 53) with (2 ^ 52 * 2) in Hnear. lia.
  - destruct c as [|m|m]; [lia| |lia]. exists m, 0. rewrite !Z.add_0_r.
    assert (normal m (e + k)) as Hn by (split; lia).
    rewrite shr_fexp_normal by done. cbn [shr_m]. rewrite (proj2 (Z.leb_le _ _)) by lia.
    split; [done|]. split; [lia|]. done.
Qed.

Lemma dadd_normal m1 e1 m2 e2 b :
  normal m1 e1 -> normal m2 e2 -> 0 <= b <= 900 ->
  let x := S754_finite false m1 e1 in let y := S754_finite false m2 e2 in
  dval x + dval y < 2 ^ (b + 52 + 1074) ->
  exists m e, dadd x y = S754_finite false m e /\ normal m e /\ Z.min e1 e2 <= e <= b /\
    2 ^ 53 * Z.abs (dval (dadd x y) - (dval x + dval y)) <= dval x + dval y.
Proof.
  intros [Hm1 He1] [Hm2 He2] Hb x y Hsum. subst x y. unfold dadd, SFadd. cbn [dval] in Hsum.
  set (e0 := Z.min e1 e2). cbn [cond_Zopp].
  pose proof (shl_align_down m1 e1 (e1 - e0) ltac:(lia)) as E1. pose proof (shl_align_down m2 e2 (e2 - e0) ltac:(lia)) as E2.
  replace (e1 - (e1 - e0)) with e0 in E1 by lia. replace (e2 - (e2 - e0)) with e0 in E2 by lia. rewrite E1, E2.
  assert (forall m e, e0 <= e -> -1074 <= e0 -> Zpos m * 2 ^ (e + 1074) = Zpos m * 2 ^ (e - e0) * 2 ^ (e0 + 1074)) as Ev.
  { intros m e H1 H2. rewrite <- Z.mul_assoc, <- Z.pow_add_r by lia. do 2 f_equal. lia. }
  cbn [dval]. rewrite (Ev m1 e1), (Ev m2 e2) in * by lia. rewrite <- Z.mul_add_distr_r in *.
  assert (0 < 2 ^ (e1 - e0) /\ 0 < 2 ^ (e2 - e0)) as [Hp1 Hp2] by (split; apply Z.pow_pos_nonneg; lia).
  assert (0 < 2 ^ (e0 + 1074)) as Hp0 by (apply Z.pow_pos_nonneg; lia).
  destruct (Zpos m1 * 2 ^ (e1 - e0) + Zpos m2 * 2 ^ (e2 - e0)) as [|n|n] eqn:En; [nia| |nia].
  assert (2 ^ 52 <= Zpos n) as Hn by nia. clear E1 E2 En Ev.
  pose proof (Z.log2_le_pow2 (Zpos n) 52 ltac:(lia)) as [Hl _]. specialize (Hl Hn).
  pose proof (Z.log2_spec (Zpos n) ltac:(lia)) as [Hlo _].
  set (k := Z.log2 (Zpos n) - 52) in *. assert (Z.log2 (Zpos n) = k + 52) as Elog by (subst k; lia).
  rewrite Elog in Hl, Hlo. assert (e0 + k < b) as Hek.
  { assert (2 ^ (k + 52 + (e0 + 1074)) < 2 ^ (b + 52 + 1074)) as Hlt by (rewrite Z.pow_add_r by lia; nia).
    apply Z.pow_lt_mono_r_iff in Hlt; lia. }
  destruct (normalize_near n e0) as (m & j & E & Hj & Hnm & Hnear); [fold k; lia|lia|fold k; lia|].
  fold k in E, Hnm, Hnear. rewrite E. exists m, (e0 + k + j). split; [done|]. split; [done|]. split; [lia|].
  cbn [dval]. replace (e0 + k + j + 1074) with (k + j + (e0 + 1074)) by lia.
  rewrite Z.pow_add_r by lia. rewrite Z.mul_assoc, <- Z.mul_sub_distr_r, Z.abs_mul, (Z.abs_eq (2 ^ (e0 + 1074))) by lia.
  rewrite Z.mul_assoc. apply Z.mul_le_mono_nonneg_r; [lia|].
  rewrite Z.pow_add_r in Hlo by lia. change (2 ^ 53) with (2 * 2 ^ 52). nia.
Qed.

(** ** Carrying a period off a phase

    A clock subtracts its period [K] while the phase reaches it. With the period
    a multiple of [2^c] and the phase's last place at most [2^c], nothing is
    rounded. *)
Definition phase_below (c : Z) (x : double) : Prop :=
  x = dzero \/ exists m e, x = S754_finite false m e /\ normal m e /\ -900 <= e <= c.

(** A phase to which a time is added, both below [2^(c + 52)]. *)
Lemma dadd_phase c x y :
  0 <= c <= 900 -> phase_below c x -> phase_below c y -> dval x + dval y < 2 ^ (c + 52 + 1074) ->
  phase_below c (dadd x y) /\
  2 ^ 53 * Z.abs (dval (dadd x y) - (dval x + dval y)) <= dval x + dval y.
Proof.
  intros Hc [->|(m1 & e1 & -> & Hn1 & He1)] [->|(m2 & e2 & -> & Hn2 & He2)] Hsum.
  - split; [by left|done].
  - change (dadd dzero ?y) with y. split; [right; by exists m2, e2|].
    change (dval dzero) with 0. rewrite Z.add_0_l, Z.sub_diag. apply dval_nonneg.
  - change (dadd ?x dzero) with x. split; [right; by exists m1, e1|].
    change (dval dzero) with 0. rewrite Z.add_0_r, Z.sub_diag. apply dval_nonneg.
  - destruct (dadd_normal m1 e1 m2 e2 c Hn1 Hn2 Hc Hsum) as (m & e & E & Hn & He & Hnear).
    split; [|exact Hnear]. right. exists m, e. split; [done|]. split; [done|]. lia.
Qed.

Section Carry.
Context (k : positive) (ek c b0 : Z).
Context (Hk : normal k ek) (Hek : -800 <= ek <= c) (Hc : c <= 900) (Hb0 : 0 < b0).
Context (Hkb : Zpos k = b0 * 2 ^ (c - ek)).

Lemma period_val : dval (S754_finite false k ek) = b0 * 2 ^ (c + 1074).
Proof.
  cbn [dval]. rewrite Hkb, <- Z.mul_assoc, <- Z.pow_add_r by lia. do 2 f_equal. lia.
Qed.

Lemma dge_period x :
  phase_below c x -> dge x (S754_finite false k ek) = (dval (S754_finite false k ek) <=? dval x).
Proof.
  intros [->|(m & e & -> & Hn & He)].
  - symmetry. apply Z.leb_gt. rewrite period_val. cbn [dval dzero].
    pose proof (Z.pow_pos_nonneg 2 (c + 1074) ltac:(lia) ltac:(lia)). nia.
  - by apply dge_normal.
Qed.

Lemma carry_period x :
  phase_below c x -> dge x (S754_finite false k ek) = true ->
  phase_below c (dsub x (S754_finite false k ek)) /\
  dval (dsub x (S754_finite false k ek)) = dval x - dval (S754_finite false k ek).
Proof.
  intros Hx Hge. rewrite dge_period in Hge by done. apply Z.leb_le in Hge. rewrite period_val in *.
  assert (0 < 2 ^ (c + 1074)) as Hpc by (apply Z.pow_pos_nonneg; lia).
  destruct Hx as [->|(m & e & -> & Hn & He)]; [exfalso; cbn [dval dzero] in Hge; nia|].
  assert (ek <= e) as He'.
  { destruct (Z.le_gt_cases ek e) as [|Hlt]; [done|]. exfalso. destruct Hn as [[_ Hm] _].
    destruct Hk as [[Hkl _] _]. cbn [dval] in Hge.
    assert (b0 * 2 ^ (c + 1074) = Zpos k * 2 ^ (ek + 1074)) as E by (rewrite <- period_val; reflexivity).
    rewrite E in Hge. replace (ek + 1074) with ((e + 1074) + (ek - e)) in Hge by lia.
    rewrite Z.pow_add_r in Hge by lia.
    assert (0 < 2 ^ (e + 1074)) by (apply Z.pow_pos_nonneg; lia).
    pose proof (Z.pow_le_mono_r 2 1 (ek - e) ltac:(lia) ltac:(lia)) as HQ.
    set (P := 2 ^ (e + 1074)) in *. set (Q := 2 ^ (ek - e)) in *. clearbody P Q.
    assert (Zpos m < Zpos k * Q) by nia. nia. }
  set (b := b0 * 2 ^ (c - e)).
  assert (0 < 2 ^ (c - e)) as Hpe by (apply Z.pow_pos_nonneg; lia).
  assert (Zpos k = b * 2 ^ (e - ek)) as Hb.
  { subst b. rewrite <- Z.mul_assoc, <- Z.pow_add_r by lia. by replace (c - e + (e - ek)) with (c - ek) by lia. }
  assert (b0 * 2 ^ (c + 1074) = b * 2 ^ (e + 1074)) as EK.
  { subst b. rewrite <- Z.mul_assoc, <- Z.pow_add_r by lia. do 2 f_equal. lia. }
  rewrite EK in *. cbn [dval] in *.
  assert (0 < 2 ^ (e + 1074)) as Hp by (apply Z.pow_pos_nonneg; lia).
  assert (0 <= Zpos m - b) as Hr by nia.
  rewrite (dsub_exact m e k ek b (Zpos m - b)) by (done || lia).
  pose proof Hn as [[_ Hm] _]. assert (0 < b) as Hbp by (subst b; nia).
  destruct (Zpos m - b) as [|r|r] eqn:E; [split; [by left|]| |lia].
  - change (dval dzero) with 0. nia.
  - rewrite dval_normalized by lia. split; [|nia]. right. unfold normalized. cbv zeta.
    destruct (normalized_normal r e ltac:(lia) ltac:(lia)) as (Hj & Hnn & _).
    eexists _, _. split; [done|]. split; [done|]. lia.
Qed.
End Carry.

(** [(uint64_t)x]: truncation towards zero. *)
Definition dtrunc (x : double) : Z :=
  match x with
  | S754_finite s m e =>
    let v := if 0 <=? e then Zpos m * 2 ^ e else Z.shiftr (Zpos m) (- e) in
    u64 (if s then - v else v)
  | _ => 0
  end.
