(* ===== verification/Nvram.v ===== *)
(** The DS1216 phantom clock over 32 KiB of battery-backed SRAM
    (runner/src/cdi_nvram.c): civil time, the clock registers, the serial
    transfer and its 64-bit unlock sequence, and the cycle-derived advance.  The
    two functions that move the SRAM image to and from a host file are left out. *)

From Stdlib Require Import ZArith Lia Bool.
From Stdlib Require Import SpecFloat.
From stdpp Require Import base tactics numbers list gmap.
From S2P Require Import Prelude Double.
Open Scope Z_scope.


(** * Data *)
Definition RTC_HUNDREDTHS : Z := 0.
Definition RTC_SECONDS : Z := 1.
Definition RTC_MINUTES : Z := 2.
Definition RTC_HOURS : Z := 3.
Definition RTC_WEEKDAY : Z := 4.
Definition RTC_DATE : Z := 5.
Definition RTC_MONTH : Z := 6.
Definition RTC_YEAR : Z := 7.
Definition NVRAM_BYTES : Z := 0x8000.

Definition unlock_bytes : list Z := [0xC5; 0x3A; 0xA3; 0x5C; 0xC5; 0x3A; 0xA3; 0x5C].

Record CdiRtcTime := mkTime {
  year : Z;
  month : Z;
  date : Z;
  weekday : Z;
  hour : Z;
  minute : Z;
  second : Z;
  hundredth : Z;
}.

Record PhantomClock := mkRtc {
  rtc_ram : mem;
  transfer : list Z;
  now : CdiRtcTime;
  key_window : Z;
  key_value : Z;
  sub_hundredth_ns : double;
  transfer_bit : Z;
  transferring : bool;
  startup_seeded : bool;
}.

Definition with_ram (m : mem) (r : PhantomClock) : PhantomClock :=
  mkRtc m (transfer r) (now r) (key_window r) (key_value r) (sub_hundredth_ns r)
    (transfer_bit r) (transferring r) (startup_seeded r).
Definition with_transfer (t : list Z) (r : PhantomClock) : PhantomClock :=
  mkRtc (rtc_ram r) t (now r) (key_window r) (key_value r) (sub_hundredth_ns r)
    (transfer_bit r) (transferring r) (startup_seeded r).
Definition with_now (t : CdiRtcTime) (r : PhantomClock) : PhantomClock :=
  mkRtc (rtc_ram r) (transfer r) t (key_window r) (key_value r) (sub_hundredth_ns r)
    (transfer_bit r) (transferring r) (startup_seeded r).
Definition with_window (w : Z) (r : PhantomClock) : PhantomClock :=
  mkRtc (rtc_ram r) (transfer r) (now r) w (key_value r) (sub_hundredth_ns r)
    (transfer_bit r) (transferring r) (startup_seeded r).
Definition with_sub (d : double) (r : PhantomClock) : PhantomClock :=
  mkRtc (rtc_ram r) (transfer r) (now r) (key_window r) (key_value r) d
    (transfer_bit r) (transferring r) (startup_seeded r).
Definition with_cursor (bit : Z) (on : bool) (r : PhantomClock) : PhantomClock :=
  mkRtc (rtc_ram r) (transfer r) (now r) (key_window r) (key_value r) (sub_hundredth_ns r)
    bit on (startup_seeded r).

(** * Civil time *)
Definition bcd_encode (value : Z) : Z :=
  u8 (Z.lor (Z.shiftl (value / 10) 4) (value mod 10)).

Definition bcd_decode (value : Z) : Z := Z.shiftr value 4 * 10 + Z.land value 0x0F.

(** C's [%] on [int] truncates towards zero. *)
Definition leap_year (year : Z) : bool :=
  (Z.rem year 4 =? 0) && negb (Z.rem year 100 =? 0) || (Z.rem year 400 =? 0).

Definition month_lengths : list Z := [31; 28; 31; 30; 31; 30; 31; 31; 30; 31; 30; 31].

Definition days_in_month (year month : Z) : Z :=
  if month =? 2 then lget month_lengths 1 + b2z (leap_year year)
  else if (1 <=? month) && (month <=? 12) then lget month_lengths (month - 1)
  else 31.

Definition bounded (value low high fallback : Z) : Z :=
  if (low <=? value) && (value <=? high) then value else fallback.

(** The carries stop at the first unit that does not overflow. *)
Definition advance_one_second (c : CdiRtcTime) : CdiRtcTime :=
  let '(mkTime y mo d w h mi s hu) := c in
  let s := u8 (s + 1) in
  if s <? 60 then mkTime y mo d w h mi s hu else
  let mi := u8 (mi + 1) in
  if mi <? 60 then mkTime y mo d w h mi 0 hu else
  let h := u8 (h + 1) in
  if h <? 24 then mkTime y mo d w h 0 0 hu else
  let w := if w =? 7 then 1 else u8 (w + 1) in
  let d := u8 (d + 1) in
  if d <=? days_in_month y mo then mkTime y mo d w 0 0 0 hu else
  let mo := u8 (mo + 1) in
  if mo <=? 12 then mkTime y mo 1 w 0 0 0 hu else
  mkTime (y + 1) 1 1 w 0 0 0 hu.

Definition valid_time (t : CdiRtcTime) : bool :=
  negb ((year t <? 1970) || (2069 <? year t)) &&
  negb ((month t <? 1) || (12 <? month t) || (date t <? 1) ||
        (days_in_month (year t) (month t) <? date t) ||
        (weekday t <? 1) || (7 <? weekday t) || (23 <? hour t) || (59 <? minute t) ||
        (59 <? second t) || (99 <? hundredth t)).

(** * The clock registers *)
Definition latched_hour (hour_mode : bool) (display_hour : Z) : Z :=
  if hour_mode then
    let pm := 12 <=? display_hour in
    let h := display_hour mod 12 in
    let h := if h =? 0 then 12 else h in
    u8 (Z.lor (Z.lor 0x80 (if pm then 0x20 else 0)) (bcd_encode h))
  else bcd_encode display_hour.

Definition latched_registers (t : list Z) (n : CdiRtcTime) : list Z :=
  let hour_mode := z2b (Z.land (lget t RTC_HOURS) 0x80) in
  let day_control := Z.land (lget t RTC_WEEKDAY) 0x30 in
  let encoded_hour := latched_hour hour_mode (hour n) in
  let t := lset t RTC_HUNDREDTHS (bcd_encode (hundredth n)) in
  let t := lset t RTC_SECONDS (bcd_encode (second n)) in
  let t := lset t RTC_MINUTES (bcd_encode (minute n)) in
  let t := lset t RTC_HOURS encoded_hour in
  let t := lset t RTC_WEEKDAY (u8 (Z.lor day_control (weekday n))) in
  let t := lset t RTC_DATE (bcd_encode (date n)) in
  let t := lset t RTC_MONTH (bcd_encode (month n)) in
  lset t RTC_YEAR (bcd_encode (u32 (Z.rem (year n) 100))).

Definition latch_clock_registers (r : PhantomClock) : PhantomClock :=
  with_transfer (latched_registers (transfer r) (now r)) r.

Definition committed_hour (reg : Z) : Z :=
  if z2b (Z.land reg 0x80) then
    let h := bounded (bcd_decode (Z.land reg 0x1F)) 1 12 12 in
    let h := if h =? 12 then 0 else h in
    if z2b (Z.land reg 0x20) then h + 12 else h
  else bounded (bcd_decode (Z.land reg 0x3F)) 0 23 0.

Definition committed_time (t : list Z) : CdiRtcTime :=
  let hour := committed_hour (lget t RTC_HOURS) in
  let yy := bcd_decode (lget t RTC_YEAR) in
  let year := if yy <? 70 then 2000 + yy else 1900 + yy in
  let month := u8 (bounded (bcd_decode (Z.land (lget t RTC_MONTH) 0x1F)) 1 12 1) in
  let date := u8 (bounded (bcd_decode (Z.land (lget t RTC_DATE) 0x3F))
                    1 (days_in_month year month) 1) in
  mkTime year month date
    (u8 (bounded (Z.land (lget t RTC_WEEKDAY) 7) 1 7 1))
    (u8 hour)
    (u8 (bounded (bcd_decode (Z.land (lget t RTC_MINUTES) 0x7F)) 0 59 0))
    (u8 (bounded (bcd_decode (Z.land (lget t RTC_SECONDS) 0x7F)) 0 59 0))
    (u8 (bounded (bcd_decode (lget t RTC_HUNDREDTHS)) 0 99 0)).

Definition commit_clock_registers (r : PhantomClock) : PhantomClock :=
  with_sub (dzero) (with_now (committed_time (transfer r)) r).

(** * The unlock sequence and the serial transfer *)
Definition shift_in (value bit : Z) : Z := u64 (Z.lor (Z.shiftl value 1) (Z.land bit 1)).

(** Bit [k] of the sequence, in the order the writes present them. *)
Definition byte_bits (b : Z) : list Z := (fun i => Z.land (Z.shiftr b i) 1) <$> seqZ 0 8.
Definition unlock_bits : list Z := unlock_bytes ≫= byte_bits.

Definition make_unlock_value : Z := foldl shift_in 0 unlock_bits.

Definition observe_key_bit (bit : Z) (r : PhantomClock) : PhantomClock :=
  let r := with_window (shift_in (key_window r) bit) r in
  if key_window r =? key_value r
  then with_cursor 0 true (with_window 0 (latch_clock_registers r))
  else r.

Definition finish_transfer_bit (r : PhantomClock) : PhantomClock :=
  let r := with_cursor (u8 (transfer_bit r + 1)) (transferring r) r in
  if transfer_bit r =? 64
  then commit_clock_registers (with_window 0 (with_cursor 0 false r))
  else r.

Definition nvram_reset : PhantomClock :=
  latch_clock_registers
    (mkRtc (mfill ∅ 0 (Z.to_nat NVRAM_BYTES) 0xFF) (replicate 8 0)
       (mkTime 1989 1 1 7 0 0 0 0) 0 make_unlock_value (dzero) 0 false false).

Definition nvram_get_byte (device_address : Z) (r : PhantomClock) : Z * PhantomClock :=
  if negb (transferring r)
  then (mget (rtc_ram r) (Z.land device_address (NVRAM_BYTES - 1)), r)
  else
    let reg := Z.shiftr (transfer_bit r) 3 in
    let shift := Z.land (transfer_bit r) 7 in
    (u8 (Z.land (Z.shiftr (lget (transfer r) reg) shift) 1), finish_transfer_bit r).

Definition nvram_set_byte (device_address data : Z) (r : PhantomClock) : PhantomClock :=
  if negb (transferring r)
  then observe_key_bit data
         (with_ram (mset (rtc_ram r) (Z.land device_address (NVRAM_BYTES - 1)) data) r)
  else
    let reg := Z.shiftr (transfer_bit r) 3 in
    let shift := Z.land (transfer_bit r) 7 in
    let mask := u8 (Z.shiftl 1 shift) in
    let v := Z.lor (Z.ldiff (lget (transfer r) reg) mask)
                   (if z2b (Z.land data 1) then mask else 0) in
    finish_transfer_bit (with_transfer (lset (transfer r) reg (u8 v)) r).

(** * Seeding and the advance of time *)

(** The caller's [NULL] is [None]. *)
Definition nvram_seed_clock_once (t : option CdiRtcTime) (r : PhantomClock) : Z * PhantomClock :=
  if startup_seeded r then (0, r) else
  match t with
  | Some t =>
    if valid_time t then
      (1, latch_clock_registers
            (mkRtc (rtc_ram r) (transfer r) t (key_window r) (key_value r) (dzero)
               (transfer_bit r) (transferring r) true))
    else (-1, r)
  | None => (-1, r)
  end.

(** 10000000.0 *)
Definition hundredth_ns : double := S754_finite false (10000000 * 2 ^ 29) (-29).

Definition oscillator_off (r : PhantomClock) : bool :=
  z2b (Z.land (lget (transfer r) RTC_WEEKDAY) 0x20).

Definition advance_hundredth (r : PhantomClock) : PhantomClock :=
  let t := now r in
  let h := u8 (hundredth t + 1) in
  let set h := mkTime (year t) (month t) (date t) (weekday t) (hour t) (minute t) (second t) h in
  with_now (if h =? 100 then advance_one_second (set 0) else set h) r.

(** The carry loop; [None] when the fuel is spent. *)
Fixpoint hundredth_loop (fuel : nat) (r : PhantomClock) : option PhantomClock :=
  if dge (sub_hundredth_ns r) hundredth_ns then
    match fuel with
    | O => None
    | S fuel' =>
      hundredth_loop fuel'
        (advance_hundredth (with_sub (dsub (sub_hundredth_ns r) hundredth_ns) r))
    end
  else Some r.

Definition nvram_increment_clock (fuel : nat) (nanoseconds : double) (r : PhantomClock)
    : option PhantomClock :=
  if oscillator_off r then Some r
  else hundredth_loop fuel (with_sub (dadd (sub_hundredth_ns r) nanoseconds) r).

(** The count loop, [maximum] being its bound. *)
Fixpoint quiet_count (maximum : nat) (phase quantum_ns : double) : nat :=
  match maximum with
  | O => O
  | S m =>
    let phase := dadd phase quantum_ns in
    if dge phase hundredth_ns then O else S (quiet_count m phase quantum_ns)
  end.

Definition nvram_quiet_quanta (maximum : nat) (quantum_ns : double) (r : PhantomClock) : nat :=
  if oscillator_off r then maximum
  else quiet_count maximum (sub_hundredth_ns r) quantum_ns.

Definition nvram_advance_quiet (quanta : nat) (quantum_ns : double) (r : PhantomClock)
    : PhantomClock :=
  if oscillator_off r then r
  else with_sub (Nat.iter quanta (fun d => dadd d quantum_ns) (sub_hundredth_ns r)) r.
