(* ===== verification/NvramSpec.v ===== *)
(** What the phantom clock guarantees: the civil calendar, the clock registers,
    the unlock sequence, the serial transfer and the batched advance. *)

From Stdlib Require Import ZArith Lia Bool.
From Stdlib Require Import SpecFloat.
From stdpp Require Import base tactics numbers list gmap.
From S2P Require Import Prelude Double Nvram.
Open Scope Z_scope.

(** * The calendar *)
Record time_ok (t : CdiRtcTime) : Prop := {
  ok_year : 1970 <= year t;
  ok_month : 1 <= month t <= 12;
  ok_date : 1 <= date t <= days_in_month (year t) (month t);
  ok_weekday : 1 <= weekday t <= 7;
  ok_hour : 0 <= hour t <= 23;
  ok_minute : 0 <= minute t <= 59;
  ok_second : 0 <= second t <= 59;
  ok_hundredth : 0 <= hundredth t <= 99;
}.

(** The day number of the proleptic Gregorian calendar, 0001-01-01 being day 1
    and a Monday, and the seconds elapsed in it. *)
Definition days_before_year (y : Z) : Z :=
  365 * (y - 1) + (y - 1) / 4 - (y - 1) / 100 + (y - 1) / 400.
Fixpoint days_of_months (y : Z) (n : nat) : Z :=
  match n with
  | O => 0
  | S n' => days_of_months y n' + days_in_month y (Z.of_nat n)
  end.
Definition days_before_month (y m : Z) : Z := days_of_months y (Z.to_nat (m - 1)).
Definition day_number (t : CdiRtcTime) : Z :=
  days_before_year (year t) + days_before_month (year t) (month t) + date t.
Definition second_number (t : CdiRtcTime) : Z :=
  ((day_number t * 24 + hour t) * 60 + minute t) * 60 + second t.
Definition weekday_true (t : CdiRtcTime) : Prop :=
  weekday t = (day_number t - 1) mod 7 + 1.

Lemma leap_year_mod y :
  0 <= y ->
  leap_year y = (y mod 4 =? 0) && negb (y mod 100 =? 0) || (y mod 400 =? 0).
Proof. intros. unfold leap_year. by rewrite !Z.rem_mod_nonneg by lia. Qed.

Lemma days_in_month_bound y m : 28 <= days_in_month y m <= 31.
Proof.
  unfold days_in_month. destruct (Z.eqb_spec m 2).
  - change (lget month_lengths 1) with 28. destruct (leap_year y); cbn [b2z]; lia.
  - destruct ((1 <=? m) && (m <=? 12)) eqn:E; [|lia].
    apply andb_true_iff in E as [?%Z.leb_le ?%Z.leb_le].
    assert (Forall (fun x => 28 <= x <= 31) month_lengths) as HF by (repeat constructor; lia).
    unfold lget. rewrite Forall_forall in HF. apply HF, list_elem_of_In, nth_In. cbn. lia.
Qed.

Lemma days_before_month_succ y m :
  1 <= m -> days_before_month y (m + 1) = days_before_month y m + days_in_month y m.
Proof.
  intros Hm. unfold days_before_month.
  replace (Z.to_nat (m + 1 - 1)) with (S (Z.to_nat (m - 1))) by lia.
  cbn [days_of_months]. do 2 f_equal. lia.
Qed.

Lemma days_before_year_succ y :
  0 < y -> days_before_year (y + 1) = days_before_year y + days_before_month y 13.
Proof.
  intros Hy.
  change (days_before_month y 13) with
    (0 + 31 + (28 + b2z (leap_year y)) + 31 + 30 + 31 + 30 + 31 + 31 + 30 + 31 + 30 + 31).
  unfold days_before_year. rewrite leap_year_mod by lia.
  destruct (Z.eqb_spec (y mod 4) 0), (Z.eqb_spec (y mod 100) 0), (Z.eqb_spec (y mod 400) 0);
    cbn [andb orb negb b2z]; zlia.
Qed.

(** Which carry an advance takes: the fields beyond the one that absorbs it
    are zero, the day number moves by at most one. *)
Definition next_day (c : CdiRtcTime) : CdiRtcTime :=
  advance_one_second
    (mkTime (year c) (month c) (date c) (weekday c) 23 59 59 (hundredth c)).

Lemma u8_small x : 0 <= x < 256 -> u8 x = x.
Proof. intros. by apply Z.mod_small. Qed.

Lemma next_day_number c :
  time_ok c ->
  time_ok (next_day c) /\ day_number (next_day c) = day_number c + 1 /\
  weekday (next_day c) = weekday c mod 7 + 1 /\
  hour (next_day c) = 0 /\ minute (next_day c) = 0 /\ second (next_day c) = 0.
Proof.
  destruct c as [y mo d w h mi s hu]. intros []; cbn [year month date weekday hour minute
    second hundredth] in *.
  pose proof (days_in_month_bound y mo) as Hb.
  unfold next_day, advance_one_second. cbn [year month date weekday hundredth].
  assert ((if w =? 7 then 1 else u8 (w + 1)) = w mod 7 + 1) as Hw.
  { destruct (Z.eqb_spec w 7) as [->|]; [done|]. rewrite u8_small by lia. zlia. }
  change (u8 (59 + 1) <? 60) with false. change (u8 (23 + 1) <? 24) with false. cbn match.
  rewrite Hw, (u8_small (d + 1)), (u8_small (mo + 1)) by lia.
  destruct (Z.leb_spec (d + 1) (days_in_month y mo)) as [Hd|Hd];
    [|destruct (Z.leb_spec (mo + 1) 12) as [Hm|Hm]];
    (split; [|unfold day_number; cbn [year month date weekday hour minute second]; split_and!]);
    try done; try lia; try (split; cbn [year month date weekday hour minute second hundredth];
      try done; try lia; zlia).
  - split; cbn [year month date weekday hour minute second hundredth]; try lia; [|zlia].
    pose proof (days_in_month_bound y (mo + 1)). lia.
  - rewrite days_before_month_succ by lia. lia.
  - assert (mo = 12) as -> by lia. rewrite days_before_year_succ by lia.
    pose proof (days_before_month_succ y 12 ltac:(lia)) as H12.

    change (12 + 1) with 13 in H12. rewrite H12.
    change (days_before_month (y + 1) 1) with 0. lia.
Qed.

Lemma advance_cases c :
  time_ok c ->
  (advance_one_second c = next_day c /\ hour c = 23 /\ minute c = 59 /\ second c = 59) \/
  (exists h m s, advance_one_second c =
     mkTime (year c) (month c) (date c) (weekday c) h m s (hundredth c) /\
     0 <= h <= 23 /\ 0 <= m <= 59 /\ 0 <= s <= 59 /\
     (h * 60 + m) * 60 + s = (hour c * 60 + minute c) * 60 + second c + 1).
Proof.
  destruct c as [y mo d w h mi s hu]. intros []; cbn [year month date weekday hour minute
    second hundredth] in *.
  unfold advance_one_second at 2. rewrite !(u8_small (s + 1)), !(u8_small (mi + 1)),
    !(u8_small (h + 1)) by lia.
  destruct (Z.ltb_spec (s + 1) 60); [right; eexists _, _, _; split; [done|lia]|].
  destruct (Z.ltb_spec (mi + 1) 60); [right; eexists _, _, _; split; [done|lia]|].
  destruct (Z.ltb_spec (h + 1) 24); [right; eexists _, _, _; split; [done|lia]|].
  left. assert (h = 23) as -> by lia. assert (mi = 59) as -> by lia.
  assert (s = 59) as -> by lia. done.
Qed.

(** The second that follows, with its date. *)
Lemma advance_successor c :
  time_ok c ->
  time_ok (advance_one_second c) /\
  second_number (advance_one_second c) = second_number c + 1 /\
  (weekday_true c -> weekday_true (advance_one_second c)).
Proof.
  intros Hc. destruct (advance_cases c Hc) as [(-> & Hh & Hm & Hs)|(h & m & s & -> & ?)].
  - destruct (next_day_number c Hc) as (Hok & Hday & Hw & Hh' & Hm' & Hs').
    split; [done|]. split.
    + unfold second_number. rewrite Hday, Hh, Hm, Hs, Hh', Hm', Hs'. lia.
    + unfold weekday_true. rewrite Hday, Hw. intros ->. zlia.
  - destruct c as [y mo d w h0 mi s0 hu]. destruct Hc.
    cbn [year month date weekday hour minute second hundredth] in *.
    split; [by split; cbn; try lia|]. split; [|done].
    unfold second_number, day_number. cbn [year month date weekday hour minute second]. lia.
Qed.

(** The clock's second is the successor in the Gregorian calendar. *)
Theorem advance_one_second_is_calendar c :
  time_ok c ->
  time_ok (advance_one_second c) /\
  second_number (advance_one_second c) = second_number c + 1 /\
  (weekday_true c -> weekday_true (advance_one_second c)).
Proof. apply advance_successor. Qed.

(** * The clock registers *)
Lemma bcd_digits v :
  0 <= v < 100 -> bcd_encode v = v / 10 * 16 + v mod 10.
Proof.
  intros Hv. unfold bcd_encode. rewrite lor_shiftl_add by (unfold is_word; zlia).
  unfold u8. change (2 ^ 4) with 16. zlia.
Qed.

Lemma bcd_decode_digits hi lo : 0 <= lo < 16 -> bcd_decode (hi * 16 + lo) = hi * 10 + lo.
Proof.
  intros. unfold bcd_decode. rewrite Z.shiftr_div_pow2, (Z.land_ones _ 4) by lia.
  change (2 ^ 4) with 16. zlia.
Qed.

Lemma bcd_roundtrip v : 0 <= v < 100 -> bcd_decode (bcd_encode v) = v.
Proof. intros. rewrite bcd_digits, bcd_decode_digits by zlia. zlia. Qed.

Lemma bcd_masked n mask v :
  mask = Z.ones n -> 0 <= n -> 0 <= v < 100 -> bcd_encode v < 2 ^ n ->
  bcd_decode (Z.land (bcd_encode v) mask) = v.
Proof.
  intros -> Hn Hv Hb. rewrite Z.land_ones, Z.mod_small by (rewrite ?bcd_digits in *; zlia).
  by apply bcd_roundtrip.
Qed.

Lemma bcd_decode_bound v : is_u8 v -> 0 <= bcd_decode v <= 165.
Proof.
  intros Hv. unfold bcd_decode. rewrite Z.shiftr_div_pow2, (Z.land_ones _ 4) by lia.
  change (2 ^ 4) with 16. unfold is_word in Hv. zlia.
Qed.

Lemma bounded_id v lo hi fb : lo <= v <= hi -> bounded v lo hi fb = v.
Proof. intros. unfold bounded. destruct (Z.leb_spec lo v), (Z.leb_spec v hi); cbn; lia. Qed.
Lemma bounded_range v lo hi fb : lo <= fb <= hi -> lo <= bounded v lo hi fb <= hi.
Proof. intros. unfold bounded. destruct (Z.leb_spec lo v), (Z.leb_spec v hi); cbn; lia. Qed.

Lemma hour_roundtrip (mode : bool) h :
  0 <= h <= 23 ->
  z2b (Z.land (latched_hour mode h) 0x80) = mode /\ committed_hour (latched_hour mode h) = h.
Proof.
  intros Hh.
  assert (forallb (fun h => forallb (fun mode =>
    eqb (z2b (Z.land (latched_hour mode h) 0x80)) mode &&
    (committed_hour (latched_hour mode h) =? h)) [true; false]) (seqZ 0 24) = true) as HF
    by (vm_compute; reflexivity).
  rewrite forallb_forall in HF. specialize (HF h). rewrite forallb_forall in HF.
  assert (In h (seqZ 0 24)) as Hin by (apply list_elem_of_In, elem_of_seqZ; lia).
  specialize (HF Hin mode ltac:(destruct mode; cbn; auto)).
  apply andb_true_iff in HF as [?%eqb_prop ?%Z.eqb_eq]. done.
Qed.

Lemma weekday_roundtrip x w :
  1 <= w <= 7 -> Z.land (u8 (Z.lor (Z.land x 0x30) w)) 7 = w.
Proof.
  intros Hw. assert (is_word 3 w) as Hb by (unfold is_word; lia).
  apply (word_ext 3); [word|done|]. intros i Hi.
  rewrite u8_land, !Z.land_spec, Z.lor_spec, Z.land_spec.
  revert i Hi. each_bit;
    cbn -[Z.testbit]; by destruct (Z.testbit w _), (Z.testbit x _).
Qed.

Lemma latched_length t n : length (latched_registers t n) = length t.
Proof. unfold latched_registers. by rewrite !length_lset. Qed.

(** Register [i] of a latched file. *)
Lemma latched_get t n :
  length t = 8%nat ->
  let l := latched_registers t n in
  lget l RTC_HUNDREDTHS = bcd_encode (hundredth n) /\
  lget l RTC_SECONDS = bcd_encode (second n) /\
  lget l RTC_MINUTES = bcd_encode (minute n) /\
  lget l RTC_HOURS = latched_hour (z2b (Z.land (lget t RTC_HOURS) 0x80)) (hour n) /\
  lget l RTC_WEEKDAY = u8 (Z.lor (Z.land (lget t RTC_WEEKDAY) 0x30) (weekday n)) /\
  lget l RTC_DATE = bcd_encode (date n) /\
  lget l RTC_MONTH = bcd_encode (month n) /\
  lget l RTC_YEAR = bcd_encode (u32 (Z.rem (year n) 100)).
Proof.
  intros Hl. do 9 (destruct t as [|? t]; [done|]). done.
Qed.

Lemma committed_latched t n :
  length t = 8%nat -> valid_time n = true -> 0 <= hour n -> 0 <= minute n -> 0 <= second n ->
  0 <= hundredth n ->
  committed_time (latched_registers t n) = n.
Proof.
  intros Hl Hv Hh Hmi Hs Hhu.
  destruct (latched_get t n Hl) as (E0 & E1 & E2 & E3 & E4 & E5 & E6 & E7).
  unfold committed_time. cbv zeta. rewrite E0, E1, E2, E3, E4, E5, E6, E7. clear E0 E1 E2 E3 E4 E5 E6 E7.
  destruct n as [y mo d w h mi s hu]. unfold valid_time in Hv.
  cbn [year month date weekday hour minute second hundredth] in *.
  apply andb_true_iff in Hv as [Hy Hv]. rewrite negb_true_iff in Hy, Hv.
  rewrite !orb_false_iff, !Z.ltb_ge in Hy, Hv.
  pose proof (days_in_month_bound y mo) as Hb.
  assert (0 <= h <= 23) as Hh' by lia.
  destruct (hour_roundtrip (z2b (Z.land (lget t RTC_HOURS) 0x80)) h Hh') as [_ ->].
  rewrite weekday_roundtrip by lia.
  assert (u32 (Z.rem y 100) = y mod 100) as ->
    by (rewrite Z.rem_mod_nonneg by lia; apply u32_id; unfold is_word; zlia).
  assert (bcd_decode (Z.land (bcd_encode mo) 0x1F) = mo) as ->.
  { apply (bcd_masked 5); rewrite ?bcd_digits; change (2 ^ 5) with 32; reflexivity || zlia. }
  assert (bcd_decode (Z.land (bcd_encode d) 0x3F) = d) as ->.
  { apply (bcd_masked 6); rewrite ?bcd_digits; change (2 ^ 6) with 64; reflexivity || zlia. }
  assert (bcd_decode (Z.land (bcd_encode mi) 0x7F) = mi) as ->.
  { apply (bcd_masked 7); rewrite ?bcd_digits; change (2 ^ 7) with 128; reflexivity || zlia. }
  assert (bcd_decode (Z.land (bcd_encode s) 0x7F) = s) as ->.
  { apply (bcd_masked 7); rewrite ?bcd_digits; change (2 ^ 7) with 128; reflexivity || zlia. }
  rewrite !bcd_roundtrip by zlia.
  assert ((if y mod 100 <? 70 then 2000 + y mod 100 else 1900 + y mod 100) = y) as ->.
  { destruct (Z.ltb_spec (y mod 100) 70); zlia. }
  rewrite (bounded_id mo) by lia. rewrite (u8_small mo) by lia.
  rewrite !bounded_id by lia. rewrite !u8_small by lia. done.
Qed.

(** Whatever the registers hold, the time taken from them is a valid one. *)
Lemma committed_hour_range r : 0 <= committed_hour r <= 23.
Proof.
  unfold committed_hour. pose proof (bounded_range (bcd_decode (Z.land r 0x1F)) 1 12 12).
  pose proof (bounded_range (bcd_decode (Z.land r 0x3F)) 0 23 0).
  destruct (z2b (Z.land r 0x80)); [|lia].
  destruct (Z.eqb_spec (bounded (bcd_decode (Z.land r 0x1F)) 1 12 12) 12),
    (z2b (Z.land r 0x20)); lia.
Qed.

Lemma committed_ok t : Forall is_u8 t -> time_ok (committed_time t).
Proof.
  intros Ht. pose proof (committed_hour_range (lget t RTC_HOURS)).
  pose proof (bcd_decode_bound (lget t RTC_YEAR) ltac:(apply Forall_lget; [done|word])).
  set (yy := bcd_decode (lget t RTC_YEAR)) in *.
  set (y := if yy <? 70 then 2000 + yy else 1900 + yy).
  set (mo := u8 (bounded (bcd_decode (Z.land (lget t RTC_MONTH) 0x1F)) 1 12 1)).
  pose proof (days_in_month_bound y mo).
  unfold committed_time. fold yy y mo.
  split; cbn [year month date weekday hour minute second hundredth]; fold y;
    try (rewrite u8_small; [|lia]; lia);
    try (subst mo y; match goal with |- context [u8 (bounded ?v ?lo ?hi ?fb)] =>
         pose proof (bounded_range v lo hi fb ltac:(lia)); rewrite u8_small by lia; lia end).
  subst y. destruct (Z.ltb_spec yy 70); lia.
Qed.

Lemma latched_u8 t n : Forall is_u8 t -> is_u8 (weekday n) -> Forall is_u8 (latched_registers t n).
Proof.
  intros Ht Hw. unfold latched_registers, latched_hour, bcd_encode. word.
Qed.

(** * The unlock sequence *)
Definition set_bytes (l : list (Z * Z)) (r : PhantomClock) : PhantomClock :=
  foldl (fun r '(a, d) => nvram_set_byte a d r) r l.

(** The D0 line over a list of writes. *)
Definition d0 (l : list (Z * Z)) : list Z := (fun w => Z.land (snd w) 1) <$> l.

Record closed (r : PhantomClock) : Prop := {
  closed_off : transferring r = false;
  closed_key : key_value r = make_unlock_value;
}.

(** The window as a number. *)
Definition bits_value (bs : list Z) : Z := foldl (fun v b => 2 * v + Z.land b 1) 0 bs.

Lemma bit_range b : 0 <= Z.land b 1 < 2.
Proof. change 1 with (Z.ones 1) at 1 2. rewrite Z.land_ones by lia. apply Z.mod_pos_bound. lia. Qed.

Lemma bits_value_snoc bs b : bits_value (bs ++ [b]) = 2 * bits_value bs + Z.land b 1.
Proof. unfold bits_value. by rewrite foldl_app. Qed.

Lemma bits_value_range bs : 0 <= bits_value bs < 2 ^ Z.of_nat (length bs).
Proof.
  induction bs as [|b bs IH] using rev_ind; [done|].
  rewrite bits_value_snoc, length_app, Nat2Z.inj_add, Z.pow_add_r by lia.
  pose proof (bit_range b). change (2 ^ Z.of_nat (length [b])) with 2. lia.
Qed.

Lemma bits_value_app bs cs :
  bits_value (bs ++ cs) = bits_value bs * 2 ^ Z.of_nat (length cs) + bits_value cs.
Proof.
  induction cs as [|c cs IH] using rev_ind.
  - rewrite app_nil_r. change (bits_value []) with 0. cbn [length]. lia.
  - rewrite app_assoc, !bits_value_snoc, IH, length_app, Nat2Z.inj_add, Z.pow_add_r by lia.
    change (2 ^ Z.of_nat (length [c])) with 2. lia.
Qed.

Lemma bits_value_inj bs cs :
  length bs = length cs -> bits_value bs = bits_value cs ->
  (fun b => Z.land b 1) <$> bs = (fun b => Z.land b 1) <$> cs.
Proof.
  revert cs. induction bs as [|b bs IH] using rev_ind; intros cs Hl Hv.
  - by destruct cs.
  - destruct cs as [|c cs _] using rev_ind; [rewrite length_app in Hl; cbn in Hl; lia|].
    rewrite !length_app in Hl. cbn in Hl. rewrite !bits_value_snoc in Hv.
    pose proof (bit_range b). pose proof (bit_range c).
    rewrite !fmap_app. cbn. rewrite (IH cs) by lia. do 2 f_equal. lia.
Qed.

Lemma shift_in_value v bs : shift_in (u64 (bits_value bs)) v = u64 (bits_value (bs ++ [v])).
Proof.
  rewrite bits_value_snoc. unfold shift_in, u64. rewrite lor_shiftl_add by
    (pose proof (bit_range v); unfold is_word; lia).
  change (2 ^ 1) with 2. rewrite <- Z.add_mod_idemp_l by lia.
  rewrite Z.mul_mod_idemp_l by lia. rewrite Z.add_mod_idemp_l by lia. f_equal. lia.
Qed.

Lemma unlock_value_bits : make_unlock_value = bits_value unlock_bits.
Proof. vm_compute. reflexivity. Qed.

(** The last 64 bits alone decide whether the window is the key. *)
Lemma window_is_key bs :
  u64 (bits_value bs) = make_unlock_value <->
  exists bs1 bs2, bs = bs1 ++ bs2 /\ (fun b => Z.land b 1) <$> bs2 = unlock_bits.
Proof.
  assert (length unlock_bits = 64%nat) as Hlen by reflexivity.
  assert ((fun b => Z.land b 1) <$> unlock_bits = unlock_bits) as Hbits by reflexivity.
  split.
  - intros E. destruct (decide (64 <= length bs)%nat) as [Hl|Hl].
    + exists (take (length bs - 64) bs), (drop (length bs - 64) bs).
      rewrite take_drop. split; [done|]. rewrite <- Hbits.
      assert (length (drop (length bs - 64) bs) = 64%nat) as Hd by (rewrite length_drop; lia).
      apply bits_value_inj; [congruence|]. rewrite unlock_value_bits in E. rewrite <- E.
      pose proof (bits_value_app (take (length bs - 64) bs) (drop (length bs - 64) bs)) as Ha.
      rewrite take_drop, Hd in Ha. rewrite Ha.
      pose proof (bits_value_range (drop (length bs - 64) bs)) as Hr. rewrite Hd in Hr.
      unfold u64. change (2 ^ Z.of_nat 64) with 0x10000000000000000 in *. zlia.
    + exfalso. pose proof (bits_value_range bs) as Hr.
      assert (2 ^ Z.of_nat (length bs) <= 2 ^ 63) by (apply Z.pow_le_mono_r; lia).
      assert (make_unlock_value >= 2 ^ 63) by (vm_compute; discriminate).
      rewrite <- E in *. unfold u64 in *. rewrite Z.mod_small in * by lia. lia.
  - intros (bs1 & bs2 & -> & E).
    assert (length bs2 = 64%nat) as Hl by (rewrite <- Hlen, <- E; by rewrite length_fmap).
    rewrite bits_value_app, Hl, unlock_value_bits, <- E.
    assert (bits_value ((fun b => Z.land b 1) <$> bs2) = bits_value bs2) as ->.
    { clear. induction bs2 as [|b bs IH] using rev_ind; [done|].
      rewrite fmap_app. cbn. rewrite !bits_value_snoc, IH.
      by rewrite <- Z.land_assoc. }
    pose proof (bits_value_range bs2) as Hr. rewrite Hl in Hr.
    unfold u64. change (2 ^ Z.of_nat 64) with 0x10000000000000000 in *. zlia.
Qed.

Lemma set_bytes_snoc l a d r : set_bytes (l ++ [(a, d)]) r = nvram_set_byte a d (set_bytes l r).
Proof. unfold set_bytes. by rewrite foldl_app. Qed.

Lemma set_byte_closed a d r :
  closed r ->
  nvram_set_byte a d r =
    observe_key_bit d (with_ram (mset (rtc_ram r) (Z.land a (NVRAM_BYTES - 1)) d) r).
Proof. intros []. unfold nvram_set_byte. by rewrite closed_off0. Qed.

(** While the port stays closed the window is the D0 history. *)
Lemma closed_window l r :
  closed r -> key_window r = 0 ->
  (forall p q, l = p ++ q -> transferring (set_bytes p r) = false) ->
  closed (set_bytes l r) /\ key_window (set_bytes l r) = u64 (bits_value (snd <$> l)) /\
  now (set_bytes l r) = now r /\ transfer (set_bytes l r) = transfer r.
Proof.
  intros Hr Hw. induction l as [|[a d] l IH] using rev_ind; intros Hp; [done|].
  destruct IH as (Hc & Hwin & En & Et).
  { intros p q ->. apply (Hp p (q ++ [(a, d)])). by rewrite app_assoc. }
  pose proof (Hp _ [] (eq_sym (app_nil_r _))) as Hoff.
  rewrite set_bytes_snoc, (set_byte_closed _ _ _ Hc) in *.
  unfold observe_key_bit in *. cbn [key_window with_window with_ram key_value] in *.
  rewrite Hwin, shift_in_value in *. rewrite fmap_app. cbn [fmap list_fmap snd].
  destruct (_ =? key_value _); [done|]. cbn. split_and!; try done. split; [done|apply Hc].
Qed.

(** From a fresh window the serial port opens exactly on the write whose
    D0 bit completes the 64-bit sequence. *)
Theorem unlock_exactly l a d r :
  closed r -> key_window r = 0 ->
  (forall p q, l = p ++ q -> transferring (set_bytes p r) = false) ->
  let r' := set_bytes (l ++ [(a, d)]) r in
  (transferring r' = true <->
   exists l1 l2, l ++ [(a, d)] = l1 ++ l2 /\ d0 l2 = unlock_bits) /\
  (transferring r' = true ->
   transfer_bit r' = 0 /\ now r' = now r /\
   transfer r' = latched_registers (transfer r) (now r)).
Proof.
  intros Hr Hw Hp r'. subst r'.
  destruct (closed_window l r Hr Hw Hp) as (Hc & Hwin & <- & <-).
  rewrite set_bytes_snoc, (set_byte_closed _ _ _ Hc).
  unfold observe_key_bit. cbn [key_window with_window with_ram key_value].
  rewrite Hwin, shift_in_value, (closed_key _ Hc).
  pose proof (window_is_key ((snd <$> l) ++ [d])) as Hk. unfold d0.
  destruct (Z.eqb_spec (u64 (bits_value ((snd <$> l) ++ [d]))) make_unlock_value) as [E|E].
  - split; [|intros _; split_and!; reflexivity]. split; [intros _|intros _; reflexivity].
    apply Hk in E as (b1 & b2 & Eb & Hu).
    assert ((snd <$> l) ++ [d] = snd <$> (l ++ [(a, d)])) as Es by by rewrite fmap_app.
    rewrite Es in Eb. apply fmap_app_inv in Eb as (l1 & l2 & -> & -> & El).
    exists l1, l2. split; [exact El|]. rewrite <- list_fmap_compose in Hu. exact Hu.
  - assert (transferring (set_bytes l r) = false) as Hoff by apply Hc.
    split; [|intros Ht; exfalso; cbn in Ht; congruence].
    split; [intros Ht; exfalso; cbn in Ht; congruence|].
    intros (l1 & l2 & El & Hu). exfalso. apply E, Hk. exists (snd <$> l1), (snd <$> l2).
    rewrite <- fmap_app, <- El, fmap_app. split; [reflexivity|].
    rewrite <- list_fmap_compose. exact Hu.
Qed.

(** * The serial transfer *)
Fixpoint get_bytes (addrs : list Z) (r : PhantomClock) : list Z * PhantomClock :=
  match addrs with
  | [] => ([], r)
  | a :: rest =>
    let '(b, r) := nvram_get_byte a r in
    let '(bs, r) := get_bytes rest r in (b :: bs, r)
  end.

(** Serial bit [j] of a register file. *)
Definition serial_bit (t : list Z) (j : Z) : Z :=
  Z.land (Z.shiftr (lget t (Z.shiftr j 3)) (Z.land j 7)) 1.

Lemma serial_bits t :
  length t = 8%nat -> serial_bit t <$> seqZ 0 64 = t ≫= byte_bits.
Proof. intros Hl. do 9 (destruct t as [|? t]; [done|]). done. Qed.

(** The port after its last bit: closed, the registers taken as the time. *)
Definition finished (t : list Z) (r : PhantomClock) : PhantomClock :=
  mkRtc (rtc_ram r) t (committed_time t) 0 (key_value r) (dzero) 0 false
    (startup_seeded r).

Lemma finish_step r :
  0 <= transfer_bit r < 64 ->
  finish_transfer_bit r =
    if transfer_bit r =? 63 then finished (transfer r) r
    else with_cursor (transfer_bit r + 1) (transferring r) r.
Proof.
  intros Hb. unfold finish_transfer_bit. cbn [transfer_bit with_cursor transferring].
  rewrite u8_small by lia.
  destruct (Z.eqb_spec (transfer_bit r + 1) 64), (Z.eqb_spec (transfer_bit r) 63); done || lia.
Qed.

Lemma serial_bit_u8 t j : u8 (serial_bit t j) = serial_bit t j.
Proof. pose proof (bit_range (Z.shiftr (lget t (Z.shiftr j 3)) (Z.land j 7))). apply u8_small.
  unfold serial_bit. lia. Qed.

Lemma get_bytes_from addrs r :
  transferring r = true -> 0 <= transfer_bit r -> addrs <> [] ->
  transfer_bit r + Z.of_nat (length addrs) = 64 ->
  get_bytes addrs r =
    (serial_bit (transfer r) <$> seqZ (transfer_bit r) (Z.of_nat (length addrs)),
     finished (transfer r) r).
Proof.
  revert r. induction addrs as [|a rest IH]; intros r Ht Hb Hne Hlen; [done|].
  cbn [get_bytes length] in *. unfold nvram_get_byte. rewrite Ht. cbn [negb].
  fold (serial_bit (transfer r) (transfer_bit r)). rewrite serial_bit_u8, finish_step by lia.
  rewrite seqZ_cons by lia. cbn [fmap list_fmap].
  destruct rest as [|a' rest].
  - destruct (Z.eqb_spec (transfer_bit r) 63); [|cbn in Hlen; lia]. done.
  - destruct (Z.eqb_spec (transfer_bit r) 63); [cbn [length] in Hlen; lia|].
    rewrite IH; cbn [transferring transfer_bit with_cursor]; try done; try lia.
    cbn [transfer with_cursor]. unfold finished. cbn. do 4 f_equal; lia.
Qed.

(** Reading the clock: the sixty-four reads after an unlock give the latched
    registers, least significant bit first. *)
Lemma clock_read addrs r :
  transferring r = true -> transfer_bit r = 0 -> length addrs = 64%nat ->
  length (transfer r) = 8%nat ->
  get_bytes addrs r = (transfer r ≫= byte_bits, finished (transfer r) r).
Proof.
  intros Ht Hb Hl Hlt. rewrite get_bytes_from; rewrite ?Hl, ?Hb; try done.
  - by rewrite serial_bits.
  - by destruct addrs.
Qed.

(** A complete read transfer shows the latched registers and gives the
    clock back the time it had. *)
Theorem clock_read_keeps_time addrs t r :
  transferring r = true -> transfer_bit r = 0 -> length addrs = 64%nat ->
  length t = 8%nat -> time_ok (now r) -> year (now r) <= 2069 ->
  transfer r = latched_registers t (now r) ->
  let '(bits, r') := get_bytes addrs r in
  bits = latched_registers t (now r) ≫= byte_bits /\
  now r' = now r /\ rtc_ram r' = rtc_ram r /\ transferring r' = false /\ key_window r' = 0.
Proof.
  intros Ht Hb Hl Hlt [] Hy He. rewrite clock_read by (rewrite ?He, ?latched_length; done).
  rewrite He. cbn. split_and!; try done. apply committed_latched; try lia.
  unfold valid_time. apply andb_true_iff. rewrite !negb_true_iff, !orb_false_iff, !Z.ltb_ge. lia.
Qed.

Lemma shift_mask n : 0 <= n < 8 -> u8 (Z.shiftl 1 n) = 2 ^ n.
Proof.
  intros. rewrite Z.shiftl_1_l. apply u8_small. split; [lia|].
  change 256 with (2 ^ 8). apply Z.pow_lt_mono_r; lia.
Qed.

Lemma z2b_bit x : z2b (Z.land x 1) = Z.testbit x 0.
Proof. apply (testbit_land_pow2 x 0). lia. Qed.

Lemma index_split j : 0 <= j -> Z.shiftr j 3 = j / 8 /\ Z.land j 7 = j mod 8.
Proof.
  intros. rewrite Z.shiftr_div_pow2, (Z.land_ones _ 3) by lia. done.
Qed.

(** A write transfer in progress: the bits already written are those of
    [regs], the others those of [old]. *)
Record half_written (old regs : list Z) (r : PhantomClock) : Prop := {
  hw_on : transferring r = true;
  hw_bit : 0 <= transfer_bit r < 64;
  hw_len : length (transfer r) = 8%nat;
  hw_u8 : Forall is_u8 (transfer r);
  hw_bits : forall i n, 0 <= i < 8 -> 0 <= n < 8 ->
    Z.testbit (lget (transfer r) i) n =
    Z.testbit (lget (if 8 * i + n <? transfer_bit r then regs else old) i) n;
}.

Definition written_register (r : PhantomClock) (d : Z) : list Z :=
  let mask := 2 ^ (transfer_bit r mod 8) in
  let i := transfer_bit r / 8 in
  lset (transfer r) i
    (u8 (Z.lor (Z.ldiff (lget (transfer r) i) mask) (if Z.testbit d 0 then mask else 0))).

Lemma set_byte_open a d r :
  transferring r = true -> 0 <= transfer_bit r < 64 ->
  nvram_set_byte a d r = finish_transfer_bit (with_transfer (written_register r d) r).
Proof.
  intros Ht Hb. unfold nvram_set_byte, written_register. rewrite Ht. cbn [negb].
  destruct (index_split (transfer_bit r)) as [-> ->]; [lia|].
  by rewrite shift_mask, z2b_bit by zlia.
Qed.

Lemma written_bits old regs r d :
  half_written old regs r ->
  Z.testbit d 0 = Z.testbit (lget regs (transfer_bit r / 8)) (transfer_bit r mod 8) ->
  forall i n, 0 <= i < 8 -> 0 <= n < 8 ->
    Z.testbit (lget (written_register r d) i) n =
    Z.testbit (lget (if 8 * i + n <? transfer_bit r + 1 then regs else old) i) n.
Proof.
  intros [] Hd i n Hi Hn. unfold written_register. cbv zeta.
  destruct (Z.eq_dec i (transfer_bit r / 8)) as [->|Hne].
  - rewrite lget_lset_eq by (rewrite hw_len0; zlia).
    rewrite u8_testbit, Z.lor_spec, Z.ldiff_spec, testbit_pow2, hw_bits0 by zlia.
    destruct (Z.ltb_spec n 8); [|lia]. cbn [andb].
    assert (Z.testbit (if Z.testbit d 0 then 2 ^ (transfer_bit r mod 8) else 0) n =
            Z.testbit d 0 && (n =? transfer_bit r mod 8)) as ->.
    { destruct (Z.testbit d 0); [by rewrite testbit_pow2 by zlia|by rewrite Z.testbit_0_l]. }
    destruct (Z.eqb_spec n (transfer_bit r mod 8)) as [->|Hne].
    + rewrite andb_false_r, andb_true_r, Hd. cbn [orb].
      destruct (Z.ltb_spec (8 * (transfer_bit r / 8) + transfer_bit r mod 8) (transfer_bit r + 1));
        [done|zlia].
    + rewrite andb_false_r, orb_false_r, andb_true_r.
      destruct (Z.ltb_spec (8 * (transfer_bit r / 8) + n) (transfer_bit r)),
        (Z.ltb_spec (8 * (transfer_bit r / 8) + n) (transfer_bit r + 1)); done || zlia.
  - rewrite lget_lset_ne by zlia. rewrite hw_bits0 by done.
    destruct (Z.ltb_spec (8 * i + n) (transfer_bit r)),
      (Z.ltb_spec (8 * i + n) (transfer_bit r + 1)); done || zlia.
Qed.

Lemma written_length r d : length (written_register r d) = length (transfer r).
Proof. apply length_lset. Qed.
Lemma written_u8 r d : Forall is_u8 (transfer r) -> Forall is_u8 (written_register r d).
Proof. intros. unfold written_register. word. Qed.

Lemma registers_ext t u :
  length t = 8%nat -> length u = 8%nat -> Forall is_u8 t -> Forall is_u8 u ->
  (forall i n, 0 <= i < 8 -> 0 <= n < 8 -> Z.testbit (lget t i) n = Z.testbit (lget u i) n) ->
  t = u.
Proof.
  intros Ht Hu Ft Fu H. apply nth_ext with (d := 0) (d' := 0); [congruence|]. intros i Hi.
  specialize (H (Z.of_nat i)). unfold lget in H. rewrite Nat2Z.id in H.
  apply (word_ext 8).
  - rewrite Forall_forall in Ft. apply Ft, list_elem_of_In, nth_In. lia.
  - rewrite Forall_forall in Fu. apply Fu, list_elem_of_In, nth_In. lia.
  - intros n Hn. apply H; lia.
Qed.

Lemma clock_write_from old regs l r :
  half_written old regs r -> length regs = 8%nat -> Forall is_u8 regs ->
  transfer_bit r + Z.of_nat (length l) = 64 -> l <> [] ->
  d0 l = serial_bit regs <$> seqZ (transfer_bit r) (Z.of_nat (length l)) ->
  set_bytes l r = finished regs r.
Proof.
  intros Hr Hl Hf Hn Hne Hd. revert r Hr Hn Hd. induction l as [|[a d] l IH]; intros r Hr Hn Hd;
    [done|]. clear Hne.
  pose proof (hw_bit _ _ _ Hr) as Hb. cbn [length] in Hn, Hd.
  rewrite seqZ_cons in Hd by lia. cbn [d0 fmap list_fmap snd] in Hd.
  injection Hd as Hd0 Hds.
  assert (Z.testbit d 0 = Z.testbit (lget regs (transfer_bit r / 8)) (transfer_bit r mod 8)) as Hd1.
  { rewrite <- z2b_bit, Hd0. unfold serial_bit. destruct (index_split (transfer_bit r)) as [-> ->];
      [lia|]. rewrite z2b_bit, Z.shiftr_spec by lia. done. }
  pose proof (written_bits old regs r d Hr Hd1) as Hw. destruct Hr.
  cbn [set_bytes foldl]. rewrite set_byte_open, finish_step by done.
  cbn [transfer_bit with_transfer transfer transferring].
  destruct (Z.eqb_spec (transfer_bit r) 63) as [E|E].
  - destruct l; [|cbn in Hn; lia]. cbn [foldl].
    assert (written_register r d = regs) as ->; [|done].
    apply registers_ext; rewrite ?written_length; auto using written_u8.
    intros i n Hi Hn'. rewrite Hw by done.
    destruct (Z.ltb_spec (8 * i + n) (transfer_bit r + 1)); [done|lia].
  - match goal with |- foldl _ ?x l = _ => change (set_bytes l x = finished regs r) end.
    rewrite IH; [done| | | |].
    + intros ->. cbn in Hn. lia.
    + split; cbn; rewrite ?written_length; auto using written_u8; lia.
    + cbn. lia.
    + cbn [transfer_bit with_cursor]. rewrite <- Z.add_1_r in Hds. unfold d0. rewrite Hds.
      do 2 f_equal; lia.
Qed.

(** Setting the clock: sixty-four writes after an unlock load the registers,
    and the time becomes the valid time they denote. *)
Theorem clock_write_sets_time l regs r :
  transferring r = true -> transfer_bit r = 0 ->
  length (transfer r) = 8%nat -> Forall is_u8 (transfer r) ->
  length regs = 8%nat -> Forall is_u8 regs ->
  d0 l = regs ≫= byte_bits ->
  let r' := set_bytes l r in
  transfer r' = regs /\ now r' = committed_time regs /\ time_ok (now r') /\
  transferring r' = false /\ key_window r' = 0 /\ rtc_ram r' = rtc_ram r.
Proof.
  intros Ht Hb Hlt Hft Hl Hf Hd r'. subst r'.
  assert (length l = 64%nat) as Hll.
  { rewrite <- (length_fmap (fun w => Z.land (snd w) 1) l). unfold d0 in Hd. rewrite Hd.
    do 9 (destruct regs as [|? regs]; [done|]). done. }
  rewrite (clock_write_from (transfer r) regs); try done; rewrite ?Hb, ?Hll.
  - cbn. split_and!; try done. by apply committed_ok.
  - split; auto; [rewrite Hb; lia|]. intros i n Hi Hn. rewrite Hb.
    destruct (Z.ltb_spec (8 * i + n) 0); [lia|done].
  - lia.
  - by destruct l.
  - by rewrite Hd, serial_bits.
Qed.

(** * The advance of time *)
Definition hundredth_number (t : CdiRtcTime) : Z := second_number t * 100 + hundredth t.

Lemma advance_hundredth_spec r :
  time_ok (now r) ->
  time_ok (now (advance_hundredth r)) /\
  hundredth_number (now (advance_hundredth r)) = hundredth_number (now r) + 1.
Proof.
  intros Ht. pose proof Ht as []. unfold advance_hundredth. cbv zeta.
  rewrite u8_small by lia. cbn [now with_now].
  assert (forall h, 0 <= h <= 99 -> time_ok (mkTime (year (now r)) (month (now r)) (date (now r))
    (weekday (now r)) (hour (now r)) (minute (now r)) (second (now r)) h)) as Hset
    by (intros h Hh; by split).
  destruct (Z.eqb_spec (hundredth (now r) + 1) 100) as [E|E].
  - specialize (Hset 0 ltac:(lia)). destruct (advance_successor _ Hset) as (Hok & Hs & _).
    split; [done|]. unfold hundredth_number. rewrite Hs.
    assert (forall c, time_ok c -> hundredth (advance_one_second c) = hundredth c) as ->; [| |done].
    + intros c _. destruct c. unfold advance_one_second. by repeat case_match.
    + unfold second_number, day_number in *. cbn [year month date hour minute second hundredth] in *.
      lia.
  - split; [apply Hset; lia|]. unfold hundredth_number, second_number, day_number.
    cbn [year month date hour minute second hundredth]. lia.
Qed.

(** The phases the carry loop handles exactly: zero, or normal and below
    2^59 nanoseconds (about eighteen years). Ten milliseconds is 78125 * 2^7. *)
Definition phase_ok : double -> Prop := phase_below 7.

Lemma hundredth_normal : normal (10000000 * 2 ^ 29) (-29).
Proof. split; [|lia]. vm_compute. split; [intros H; discriminate H|reflexivity]. Qed.

Lemma dge_phase x :
  phase_ok x -> dge x hundredth_ns = (dval hundredth_ns <=? dval x).
Proof. by apply (dge_period _ _ 7 78125); [apply hundredth_normal|lia..|]. Qed.

(** One carry takes exactly ten milliseconds off the phase. *)
Lemma carry_exact x :
  phase_ok x -> dge x hundredth_ns = true ->
  phase_ok (dsub x hundredth_ns) /\ dval (dsub x hundredth_ns) = dval x - dval hundredth_ns.
Proof. by apply (carry_period _ _ 7 78125); [apply hundredth_normal|lia..|]. Qed.

(** Nothing but the phase and the time moves. *)
Record same_port (r r' : PhantomClock) : Prop := {
  same_ram : rtc_ram r' = rtc_ram r;
  same_transfer : transfer r' = transfer r;
  same_window : key_window r' = key_window r;
  same_bit : transfer_bit r' = transfer_bit r;
  same_open : transferring r' = transferring r;
}.

(** Elapsed time: hundredths, and the phase in units of 2^-1074 ns. *)
Definition elapsed (r : PhantomClock) : Z :=
  hundredth_number (now r) * dval hundredth_ns + dval (sub_hundredth_ns r).

Lemma hundredth_loop_runs n r fuel :
  time_ok (now r) -> phase_ok (sub_hundredth_ns r) ->
  dval (sub_hundredth_ns r) < (Z.of_nat n + 1) * dval hundredth_ns -> (n <= fuel)%nat ->
  exists r', hundredth_loop fuel r = Some r' /\ time_ok (now r') /\ same_port r r' /\
    elapsed r' = elapsed r /\ dval (sub_hundredth_ns r') < dval hundredth_ns /\ phase_ok (sub_hundredth_ns r').
Proof.
  revert r fuel. induction n as [|n IH]; intros r fuel Ht Hp Hn Hf;
    (destruct (dge (sub_hundredth_ns r) hundredth_ns) eqn:Hge;
      [|exists r; rewrite dge_phase, Z.leb_gt in Hge by done;
        destruct fuel; cbn [hundredth_loop]; rewrite ?dge_phase by done;
        (destruct (Z.leb_spec (dval hundredth_ns) (dval (sub_hundredth_ns r))); [lia|]);
        by split_and!]).
  - rewrite dge_phase, Z.leb_le in Hge by done. lia.
  - destruct fuel as [|fuel]; [lia|]. cbn [hundredth_loop]. rewrite Hge.
    destruct (carry_exact _ Hp Hge) as [Hp' Hd].
    set (r1 := with_sub (dsub (sub_hundredth_ns r) hundredth_ns) r).
    destruct (advance_hundredth_spec r1 Ht) as [Ht' Hh].
    destruct (IH (advance_hundredth r1) fuel) as (r' & E & Hok & Hs & He & Hl); [done|done| |lia|].
    { change (dval (dsub (sub_hundredth_ns r) hundredth_ns) < (Z.of_nat n + 1) * dval hundredth_ns).
      rewrite Hd. lia. }
    exists r'. split; [done|]. split; [done|]. split; [by destruct Hs|]. split; [|done].
    rewrite He. unfold elapsed. rewrite Hh.
    change (sub_hundredth_ns (advance_hundredth r1)) with (dsub (sub_hundredth_ns r) hundredth_ns).
    rewrite Hd. change (now r1) with (now r). lia.
Qed.

(** One advance: the loop ends within a turn for each hundredth of the amount and
    two more, and the one rounding is that of the addition. *)
Lemma increment_clock_spec ns r fuel :
  time_ok (now r) -> oscillator_off r = false -> phase_ok (sub_hundredth_ns r) -> phase_ok ns ->
  dval (sub_hundredth_ns r) < dval hundredth_ns -> dval ns < 2 ^ (58 + 1074) ->
  (Z.to_nat (dval ns / dval hundredth_ns) + 2 <= fuel)%nat ->
  exists r', nvram_increment_clock fuel ns r = Some r' /\ time_ok (now r') /\ same_port r r' /\
    phase_ok (sub_hundredth_ns r') /\ dval (sub_hundredth_ns r') < dval hundredth_ns /\
    2 ^ 53 * Z.abs (elapsed r' - (elapsed r + dval ns)) <= dval hundredth_ns + dval ns.
Proof.
  intros Ht Hosc Hp Hns Hsub Hlt Hf. unfold nvram_increment_clock. rewrite Hosc.
  assert (0 < dval hundredth_ns) as HK by (vm_compute; reflexivity).
  assert (2 ^ (58 + 1074) + dval hundredth_ns < 2 ^ (7 + 52 + 1074)) as HB by (vm_compute; reflexivity).
  assert (2 ^ (58 + 1074) <= 2 ^ 52 * dval hundredth_ns) as HC by (vm_compute; discriminate).
  destruct (dadd_phase 7 (sub_hundredth_ns r) ns) as [Hx Hnear]; [lia|done|done|lia|].
  set (x := dadd (sub_hundredth_ns r) ns) in *. pose proof (dval_nonneg x). pose proof (dval_nonneg ns).
  pose proof (dval_nonneg (sub_hundredth_ns r)).
  assert (dval x / dval hundredth_ns <= dval ns / dval hundredth_ns + 2) as Hturns.
  { pose proof (Z.mul_succ_div_gt (dval ns) (dval hundredth_ns) HK).
    apply Z.lt_succ_r, Z.div_lt_upper_bound; [done|].
    change (2 ^ 53) with (2 * 2 ^ 52) in Hnear. change (2 ^ 52) with 4503599627370496 in *. nia. }
  destruct (hundredth_loop_runs (Z.to_nat (dval x / dval hundredth_ns)) (with_sub x r) fuel)
    as (r' & E & Hok & Hs & He & Hl & Hp'); [done|done| |lia|].
  - cbn [sub_hundredth_ns with_sub]. rewrite Z2Nat.id by (apply Z.div_pos; lia).
    pose proof (Z.mul_succ_div_gt (dval x) (dval hundredth_ns) HK). lia.
  - exists r'. split; [done|]. split; [done|]. split; [by destruct Hs|]. split; [done|]. split; [done|].
    rewrite He. unfold elapsed. cbn [now sub_hundredth_ns with_sub].
    replace (_ + dval x - _) with (dval x - (dval (sub_hundredth_ns r) + dval ns)) by lia. lia.
Qed.

(** A run of advances. *)
Fixpoint advance_all (fuel : nat) (amounts : list double) (r : PhantomClock) : option PhantomClock :=
  match amounts with
  | [] => Some r
  | ns :: amounts => r ← nvram_increment_clock fuel ns r; advance_all fuel amounts r
  end.
Definition total (f : double -> Z) (amounts : list double) : Z := foldr (fun ns t => f ns + t) 0 amounts.

(** An amount of time the clock can be given: zero or a normal double, below 2^58
    nanoseconds (nine years), and [fuel] turns for its carries. *)
Definition amount_ok (fuel : nat) (ns : double) : Prop :=
  phase_ok ns /\ dval ns < 2 ^ (58 + 1074) /\ (Z.to_nat (dval ns / dval hundredth_ns) + 2 <= fuel)%nat.

(** C32. The clock keeps time.  Over any run of advances every carry loop ends,
    leaving less than a hundredth of phase, a valid date and the rest of the
    device alone; and calendar and phase together have moved by the amounts given,
    exactly but for the rounding of each addition to the phase, which is at most
    one part in 2^53 of a hundredth and the amount: the carries themselves lose
    nothing. *)
Theorem clock_keeps_time amounts r fuel :
  time_ok (now r) -> oscillator_off r = false -> phase_ok (sub_hundredth_ns r) ->
  dval (sub_hundredth_ns r) < dval hundredth_ns -> Forall (amount_ok fuel) amounts ->
  exists r', advance_all fuel amounts r = Some r' /\ time_ok (now r') /\ same_port r r' /\
    0 <= dval (sub_hundredth_ns r') < dval hundredth_ns /\
    2 ^ 53 * Z.abs (elapsed r' - (elapsed r + total dval amounts)) <=
      total (fun ns => dval hundredth_ns + dval ns) amounts.
Proof.
  intros Ht Hosc Hp Hsub Hall. revert r Ht Hosc Hp Hsub.
  induction Hall as [|ns amounts (Hns & Hlt & Hf) _ IH]; intros r Ht Hosc Hp Hsub; cbn [advance_all total foldr].
  - exists r. split; [done|]. split; [done|]. split; [by split|]. split; [split; [apply dval_nonneg|done]|]. lia.
  - destruct (increment_clock_spec ns r fuel Ht Hosc Hp Hns Hsub Hlt Hf) as (r1 & E & Ht1 & Hs1 & Hp1 & Hsub1 & He1).
    rewrite E. cbn [mbind option_bind].
    destruct (IH r1 Ht1) as (r' & E' & Ht' & Hs' & Hsub' & He'); [|done|done|].
    { unfold oscillator_off in *. by rewrite (same_transfer _ _ Hs1). }
    exists r'. split; [done|]. split; [done|]. split; [by destruct Hs1, Hs'; split; congruence|]. split; [done|].
    unfold total in *. lia.
Qed.

(** * The device invariant *)
Record rtc_ok (r : PhantomClock) : Prop := {
  ok_ram : bytes_ok (rtc_ram r);
  ok_len : length (transfer r) = 8%nat;
  ok_transfer : Forall is_u8 (transfer r);
  ok_now : time_ok (now r);
  ok_window : is_u64 (key_window r);
  ok_key : key_value r = make_unlock_value;
  ok_bit : 0 <= transfer_bit r < 64;
}.

Lemma time_weekday_u8 t : time_ok t -> is_u8 (weekday t).
Proof. intros []. unfold is_word. lia. Qed.

Ltac fields := cbn [rtc_ram transfer now key_window key_value sub_hundredth_ns transfer_bit
  transferring startup_seeded with_ram with_transfer with_now with_window with_sub with_cursor
  latch_clock_registers finished].

Lemma observe_key_bit_ok b r : rtc_ok r -> rtc_ok (observe_key_bit b r).
Proof.
  intros []. unfold observe_key_bit. cbn [key_window with_window key_value].
  destruct (_ =? _); split; fields; rewrite ?latched_length; try assumption; try word.
  apply latched_u8; [done|]. by apply time_weekday_u8.
Qed.

Lemma finish_transfer_bit_ok r : rtc_ok r -> rtc_ok (finish_transfer_bit r).
Proof.
  intros []. rewrite finish_step by done.
  destruct (Z.eqb_spec (transfer_bit r) 63); split; fields; try assumption; try word; try lia.
  by apply committed_ok.
Qed.

Lemma nvram_get_byte_ok a r :
  rtc_ok r -> is_u8 (fst (nvram_get_byte a r)) /\ rtc_ok (snd (nvram_get_byte a r)).
Proof.
  intros Hr. unfold nvram_get_byte. destruct (transferring r); cbn [negb fst snd].
  - split; [word|]. by apply finish_transfer_bit_ok.
  - split; [|done]. destruct Hr. word.
Qed.

Lemma nvram_set_byte_ok a d r : rtc_ok r -> is_u8 d -> rtc_ok (nvram_set_byte a d r).
Proof.
  intros Hr Hd. unfold nvram_set_byte. destruct (transferring r); cbn [negb].
  - apply finish_transfer_bit_ok. destruct Hr. split; fields; rewrite ?length_lset; try assumption. word.
  - apply observe_key_bit_ok. destruct Hr. split; fields; try assumption. word.
Qed.

Ltac concrete_time := split; vm_compute; repeat split; intros H; discriminate H.

Lemma nvram_reset_ok : rtc_ok nvram_reset.
Proof.
  assert (forall m, bytes_ok m -> rtc_ok (latch_clock_registers
    (mkRtc m (replicate 8 0) (mkTime 1989 1 1 7 0 0 0 0) 0 make_unlock_value dzero 0 false false)))
    as H.
  { intros m Hm. split; fields; [done|by rewrite latched_length| | |word|reflexivity|lia].
    - apply latched_u8; [apply Forall_replicate; word|cbn; word].
    - concrete_time. }
  apply H, bytes_ok_mfill; word.
Qed.

(** * Instances *)

(** A clock with an empty window, a given phase and the last second of 1999. *)
Definition sample_clock (d : double) (on : bool) : PhantomClock :=
  latch_clock_registers
    (mkRtc ∅ (replicate 8 0) (mkTime 1999 12 31 5 23 59 59 99) 0 make_unlock_value d 0 on false).

Lemma sample_time_ok : time_ok (now (sample_clock dzero true)).
Proof. concrete_time. Qed.

Lemma advance_one_second_is_calendar_witness :
  let c := mkTime 1999 12 31 5 23 59 59 99 in
  second_number (advance_one_second c) = second_number c + 1 /\
  advance_one_second c = mkTime 2000 1 1 6 0 0 0 99 /\ weekday_true (advance_one_second c).
Proof.
  assert (time_ok (mkTime 1999 12 31 5 23 59 59 99)) as Hok by concrete_time.
  destruct (advance_one_second_is_calendar _ Hok) as (_ & Hs & Hw).
  split; [exact Hs|]. split; [reflexivity|]. apply Hw. reflexivity.
Defined.

Definition sample_unlock : list (Z * Z) := (fun b => (0, b)) <$> unlock_bits.

Lemma sample_prefixes_closed :
  forall p q, take 63 sample_unlock = p ++ q ->
  transferring (set_bytes p (sample_clock dzero false)) = false.
Proof.
  intros p q E.
  assert (forallb (fun k => negb (transferring (set_bytes (take k sample_unlock)
    (sample_clock dzero false)))) (seq 0 64) = true) as H by (vm_compute; reflexivity).
  rewrite forallb_forall in H.
  assert (length p <= 63)%nat as Hl.
  { assert (length (p ++ q) <= 63)%nat as Hpq by (rewrite <- E, length_take; lia).
    rewrite length_app in Hpq. lia. }
  specialize (H (length p) ltac:(apply in_seq; lia)). apply negb_true_iff in H.
  assert (take (length p) sample_unlock = p) as Hp.
  { rewrite <- (take_app_length p q) at 2. rewrite <- E, take_take. f_equal. lia. }
  rewrite Hp in H. exact H.
Qed.

Lemma unlock_exactly_witness :
  let r := set_bytes (take 63 sample_unlock ++ [(0, 0)]) (sample_clock dzero false) in
  transferring r = true /\ transfer_bit r = 0.
Proof.
  destruct (unlock_exactly (take 63 sample_unlock) 0 0 (sample_clock dzero false)) as [Hiff Hopen].
  - split; reflexivity.
  - reflexivity.
  - exact sample_prefixes_closed.
  - assert (transferring (set_bytes (take 63 sample_unlock ++ [(0, 0)]) (sample_clock dzero false))
      = true) as Ht.
    { apply Hiff. exists [], sample_unlock. split; reflexivity. }
    split; [exact Ht|]. apply (Hopen Ht).
Defined.

Lemma clock_read_keeps_time_witness :
  let '(bits, r') := get_bytes (replicate 64 0) (sample_clock dzero true) in
  now r' = mkTime 1999 12 31 5 23 59 59 99 /\ take 8 bits = [1; 0; 0; 1; 1; 0; 0; 1].
Proof.
  pose proof (clock_read_keeps_time (replicate 64 0) (replicate 8 0) (sample_clock dzero true)
    eq_refl eq_refl eq_refl eq_refl sample_time_ok ltac:(cbn; lia) eq_refl) as H.
  destruct (get_bytes (replicate 64 0) (sample_clock dzero true)) as [bits r'].
  destruct H as (-> & Hn & _). split; [exact Hn|reflexivity].
Defined.

(** 2024-02-29, a Thursday, 23:00:01.50 in twelve-hour form. *)
Definition sample_registers : list Z := [0x50; 0x01; 0x00; 0xB1; 0x04; 0x29; 0x02; 0x24].

Lemma clock_write_sets_time_witness :
  now (set_bytes ((fun b => (0, b)) <$> (sample_registers ≫= byte_bits)) (sample_clock dzero true)) =
  mkTime 2024 2 29 4 23 0 1 50.
Proof.
  destruct (clock_write_sets_time ((fun b => (0, b)) <$> (sample_registers ≫= byte_bits))
    sample_registers (sample_clock dzero true)) as (_ & -> & _); try reflexivity.
  - by repeat constructor.
  - by repeat constructor.
Defined.

(** 9000000.1 nanoseconds, rounded, and one quantum of 1000000. *)
Definition sample_phase : double := S754_finite false (9000000 * 2 ^ 29 + 53687091) (-29).
Definition sample_quantum : double := S754_finite false (1000000 * 2 ^ 33) (-33).

Lemma clock_keeps_time_witness :
  let amounts := [sample_quantum; sample_quantum] in
  exists r', advance_all 2 amounts (sample_clock sample_phase false) = Some r' /\
    now r' = mkTime 2000 1 1 6 0 0 0 0 /\
    2 ^ 53 * Z.abs (elapsed r' - (elapsed (sample_clock sample_phase false) + total dval amounts)) <=
      total (fun ns => dval hundredth_ns + dval ns) amounts.
Proof.
  assert (normal (1000000 * 2 ^ 33) (-33)) as Hq by (split; [|lia]; vm_compute; split; [intros H; discriminate H|reflexivity]).
  destruct (clock_keeps_time [sample_quantum; sample_quantum] (sample_clock sample_phase false) 2)
    as (r' & E & _ & _ & _ & He).
  - exact sample_time_ok.
  - reflexivity.
  - right. eexists _, _. split; [reflexivity|]. split; [|lia].
    split; [|lia]. vm_compute. split; [intros H; discriminate H|reflexivity].
  - vm_compute. reflexivity.
  - assert (amount_ok 2 sample_quantum) as Ha.
    { split; [right; eexists _, _; split; [reflexivity|split; [exact Hq|lia]]|]. split; [vm_compute; reflexivity|].
      apply Nat.leb_le. vm_compute. reflexivity. }
    exact (Forall_cons_2 _ _ _ Ha (Forall_cons_2 _ _ _ Ha (Forall_nil_2 _))).
  - exists r'. split; [exact E|]. split; [|exact He]. vm_compute in E. injection E as <-. reflexivity.
Defined.
