(* ===== verification/Periph.v ===== *)
(** The SCC68070 on-chip peripherals (runner/src/periph.c): UART status, the
    three timers, interrupt priorities, write-one-to-clear DMA status, and the
    DMA channel the CIAP requests. *)

From Stdlib Require Import ZArith Lia Bool.
From stdpp Require Import base tactics numbers list gmap.
From S2P Require Import Prelude Irq.
Open Scope Z_scope.
Open Scope mach_scope.

Definition PERIPHERAL_BASE : Z := 0x80001001.
Definition PERIPHERAL_LAST : Z := 0x80008080.

Definition REG_LIR : Z := 0x80001001.
Definition REG_USR : Z := 0x80002013.
Definition REG_UCR : Z := 0x80002017.
Definition REG_UTHR : Z := 0x80002019.
Definition REG_URHR : Z := 0x8000201B.
Definition REG_TSR : Z := 0x80002020.
Definition REG_TCR : Z := 0x80002021.
Definition REG_RRH : Z := 0x80002022.
Definition REG_T0H : Z := 0x80002024.
Definition REG_T1H : Z := 0x80002026.
Definition REG_T2H : Z := 0x80002028.
Definition REG_PICR1 : Z := 0x80002045.
Definition REG_DMA1_CSR : Z := 0x80004000.
Definition REG_DMA1_CER : Z := 0x80004001.
Definition REG_DMA1_CCR : Z := 0x80004007.
Definition REG_DMA1_MTC : Z := 0x8000400A.
Definition REG_DMA1_MAR : Z := 0x8000400C.
Definition REG_DMA2_CSR : Z := 0x80004040.
Definition REG_MSR : Z := 0x80008000.

Definition UART_RX_READY : Z := 0x01.
Definition UART_TX_READY : Z := 0x04.
Definition UART_TX_EMPTY : Z := 0x08.

(** [bytes] is indexed by the offset from [PERIPHERAL_BASE]. *)
Record SccPeripherals := mkPeriph {
  bytes : mem;
  timer_prescale_cycles : Z;
}.

Definition mapped (address : Z) : bool :=
  (PERIPHERAL_BASE <=? address) && (address <=? PERIPHERAL_LAST).

Definition reg (p : SccPeripherals) (address : Z) : Z := mget (bytes p) (address - PERIPHERAL_BASE).
Definition put_reg (address v : Z) (p : SccPeripherals) : SccPeripherals :=
  mkPeriph (mset (bytes p) (address - PERIPHERAL_BASE) v) (timer_prescale_cycles p).
Definition upd_reg (address : Z) (f : Z -> Z) (p : SccPeripherals) : SccPeripherals :=
  put_reg address (f (reg p address)) p.
Definition set_prescale (c : Z) (p : SccPeripherals) : SccPeripherals := mkPeriph (bytes p) c.

Definition load_counter (p : SccPeripherals) (high_address : Z) : Z :=
  Z.lor (Z.shiftl (reg p high_address) 8) (reg p (high_address + 1)).

Definition store_counter (high_address value : Z) (p : SccPeripherals) : SccPeripherals :=
  put_reg (high_address + 1) (u8 value) (put_reg high_address (u8 (Z.shiftr value 8)) p).

Definition load_long (p : SccPeripherals) (address : Z) : Z :=
  Z.lor (Z.lor (Z.lor (Z.shiftl (reg p address) 24) (Z.shiftl (reg p (address + 1)) 16))
               (Z.shiftl (reg p (address + 2)) 8)) (reg p (address + 3)).

Definition store_long (address value : Z) (p : SccPeripherals) : SccPeripherals :=
  put_reg (address + 3) (u8 value)
    (put_reg (address + 2) (u8 (Z.shiftr value 8))
      (put_reg (address + 1) (u8 (Z.shiftr value 16))
        (put_reg address (u8 (Z.shiftr value 24)) p))).

Definition periph_reset : SccPeripherals := put_reg REG_USR UART_TX_READY (mkPeriph ∅ 0).

Definition periph_lir (p : SccPeripherals) : Z := reg p REG_LIR.

(** * Timers *)
Definition request_timer_interrupt (p : SccPeripherals) (q : IrqState) : IrqState :=
  let priority := u8 (Z.land (reg p REG_PICR1) 7) in
  if z2b priority then cdi_irq_raise_onchip_level priority q else q.

(** One of timers 1 and 2: [enable] its control bits, [wrap] the status bit of
    an overflow, [clear] those dropped in capture mode, [equal] that of a match
    with timer 0. *)
Definition clock_side_timer (control enable high wrap clear equal timer0 : Z)
    (w : SccPeripherals * IrqState) : SccPeripherals * IrqState :=
  if z2b (Z.land control enable) then
    let '(p, q) := w in
    let timer := load_counter p high in
    let '(p, q) :=
      if timer =? 0xFFFF then
        let p := upd_reg REG_TSR (fun s => Z.lor s wrap) p in (p, request_timer_interrupt p q)
      else if Z.land control enable =? enable then
        (upd_reg REG_TSR (fun s => Z.land s (u8 (Z.lnot clear))) p, q)
      else (p, q) in
    let timer := u16 (timer + 1) in
    let p := if timer =? timer0 then upd_reg REG_TSR (fun s => Z.lor s equal) p else p in
    (store_counter high timer p, q)
  else w.

Definition clock_timer0 (w : SccPeripherals * IrqState) : Z * (SccPeripherals * IrqState) :=
  let '(p, q) := w in
  let timer0 := load_counter p REG_T0H in
  if timer0 =? 0xFFFF then
    let timer0 := load_counter p REG_RRH in
    let p := upd_reg REG_TSR (fun s => Z.lor s 0x80) p in
    let q := request_timer_interrupt p q in
    (timer0, (store_counter REG_T0H timer0 p, q))
  else
    let timer0 := u16 (timer0 + 1) in (timer0, (store_counter REG_T0H timer0 p, q)).

Definition clock_timer_once (w : SccPeripherals * IrqState) : SccPeripherals * IrqState :=
  let control := reg (fst w) REG_TCR in
  let '(timer0, w) := clock_timer0 w in
  let w := clock_side_timer control 0x30 REG_T1H 0x10 0x11 0x40 timer0 w in
  clock_side_timer control 0x03 REG_T2H 0x02 0x03 0x08 timer0 w.

Definition periph_increment_timer (cycles : Z) (w : SccPeripherals * IrqState)
    : SccPeripherals * IrqState :=
  let accumulated := u64 (timer_prescale_cycles (fst w) + cycles) in
  let ticks := u32 (accumulated / 96) in
  let w := (set_prescale (u32 (accumulated mod 96)) (fst w), snd w) in
  Nat.iter (Z.to_nat ticks) clock_timer_once w.

Definition quiet_ticks (p : SccPeripherals) : Z :=
  let ticks := u32 (65536 - load_counter p REG_T0H) in
  let control := reg p REG_TCR in
  let ticks := if z2b (Z.land control 0x30) && (u32 (65536 - load_counter p REG_T1H) <? ticks)
               then u32 (65536 - load_counter p REG_T1H) else ticks in
  if z2b (Z.land control 0x03) && (u32 (65536 - load_counter p REG_T2H) <? ticks)
  then u32 (65536 - load_counter p REG_T2H) else ticks.

Definition periph_quiet_quanta (maximum : Z) (p : SccPeripherals) : Z :=
  let cycles := u32 (quiet_ticks p * 96 - timer_prescale_cycles p) in
  let quiet := u32 (cycles - 1) / 25 in
  if quiet <? maximum then quiet else maximum.

Definition advance_side_quiet (control enable high clear equal timer0 ticks : Z)
    (p : SccPeripherals) : SccPeripherals :=
  if z2b (Z.land control enable) then
    let timer := u16 (load_counter p high + ticks) in
    let p := if Z.land control enable =? enable
             then upd_reg REG_TSR (fun s => Z.land s (u8 (Z.lnot clear))) p else p in
    let p := if timer =? timer0 then upd_reg REG_TSR (fun s => Z.lor s equal) p else p in
    store_counter high timer p
  else p.

Definition periph_advance_quiet (cycles : Z) (p : SccPeripherals) : SccPeripherals :=
  let accumulated := u32 (timer_prescale_cycles p + cycles) in
  let ticks := accumulated / 96 in
  let p := set_prescale (accumulated mod 96) p in
  if ticks =? 0 then p else
  let timer0 := u16 (load_counter p REG_T0H + ticks) in
  let control := reg p REG_TCR in
  let p := store_counter REG_T0H timer0 p in
  let p := advance_side_quiet control 0x30 REG_T1H 0x11 0x40 timer0 ticks p in
  advance_side_quiet control 0x03 REG_T2H 0x03 0x08 timer0 ticks p.

(** * Register access *)
Definition read_register (address : Z) (p : SccPeripherals) : Z * SccPeripherals :=
  if negb (mapped address) then (0, p) else
  let p := if address =? REG_URHR then
             upd_reg REG_USR (fun s => Z.land s (u8 (Z.lnot UART_RX_READY))) (put_reg REG_URHR 0 p)
           else p in
  (reg p address, p).

Definition write_uart_command (command : Z) (p : SccPeripherals) : SccPeripherals :=
  let k := Z.land command 0x70 in
  let p :=
    if k =? 0x20 then
      upd_reg REG_USR (fun s => Z.land s (u8 (Z.lnot UART_RX_READY))) (put_reg REG_URHR 0 p)
    else if k =? 0x30 then
      upd_reg REG_USR (fun s => Z.lor s (Z.lor UART_TX_READY UART_TX_EMPTY)) (put_reg REG_UTHR 0 p)
    else if k =? 0x40 then upd_reg REG_USR (fun s => Z.land s 0x0F) p
    else p in
  put_reg REG_UCR command p.

Definition write_register (address value : Z) (p : SccPeripherals) : SccPeripherals :=
  if negb (mapped address) then p
  else if address =? REG_LIR then put_reg address (u8 (Z.land value 0x77)) p
  else if address =? REG_UCR then write_uart_command value p
  else if address =? REG_UTHR then
    upd_reg REG_USR (fun s => Z.lor s UART_TX_EMPTY) (put_reg address value p)
  else if (address =? REG_TSR) || (address =? REG_DMA1_CSR) || (address =? REG_DMA2_CSR) then
    upd_reg address (fun s => Z.land s (u8 (Z.lnot value))) p
  else if address =? REG_MSR then p
  else put_reg address value p.

(** The byte loop of an access of [n] bytes, from byte [i] on. *)
Fixpoint read_bytes (address result : Z) (n : nat) (p : SccPeripherals) : Z * SccPeripherals :=
  match n with
  | O => (result, p)
  | S n' =>
    let '(b, p) := read_register (u32 address) p in
    read_bytes (address + 1) (u32 (Z.lor (Z.shiftl result 8) b)) n' p
  end.

Definition periph_read (address : Z) (size : nat) (p : SccPeripherals) : Z * SccPeripherals :=
  read_bytes address 0 size p.

Fixpoint periph_write (address value : Z) (size : nat) (p : SccPeripherals) : SccPeripherals :=
  match size with
  | O => p
  | S n' =>
    periph_write (address + 1) value n'
      (write_register (u32 address) (u8 (Z.shiftr value (8 * Z.of_nat n'))) p)
  end.

(** * DMA channel 1 *)
Section Dma.
Context {M : Type}.
Variable get_periph : M -> SccPeripherals.
Variable set_periph : SccPeripherals -> M -> M.
Variable m68k_read16 : Z -> Mach M Z.
Variable m68k_write16 : Z -> Z -> Mach M unit.
Variable cdic_dma_pull_word : Mach M Z.
Variable cdic_dma_push_word : Z -> Mach M unit.
Variable cdic_dma_complete : Mach M unit.

Definition on_periph (f : SccPeripherals -> SccPeripherals) : Mach M unit :=
  modify (fun m => set_periph (f (get_periph m)) m).

(** The transfer loop; the address after it. *)
Fixpoint dma_words (control memory_address : Z) (words : nat) : Mach M Z :=
  match words with
  | O => ret memory_address
  | S words' =>
    (if z2b (Z.land control 0x2000)
     then w <-- cdic_dma_pull_word;; m68k_write16 memory_address w
     else w <-- m68k_read16 memory_address;; cdic_dma_push_word w);;;
    dma_words control (u32 (memory_address + 2)) words'
  end.

Definition periph_ciap_dma_request (control : Z) : Mach M unit :=
  ccr <-- gets (fun m => reg (get_periph m) REG_DMA1_CCR);;
  if negb (z2b (Z.land control 0x4000)) || negb (z2b (Z.land ccr 0x80)) then ret tt else
  words <-- gets (fun m => load_counter (get_periph m) REG_DMA1_MTC);;
  memory_address <-- gets (fun m => load_long (get_periph m) REG_DMA1_MAR);;
  on_periph (upd_reg REG_DMA1_CSR (fun s => Z.lor s 0x08));;;
  on_periph (put_reg REG_DMA1_CER 0);;;
  memory_address <-- dma_words control memory_address (Z.to_nat words);;
  on_periph (store_counter REG_DMA1_MTC 0);;;
  on_periph (store_long REG_DMA1_MAR memory_address);;;
  on_periph (upd_reg REG_DMA1_CSR (fun s => Z.land s (u8 (Z.lnot 0x08))));;;
  on_periph (upd_reg REG_DMA1_CSR (fun s => Z.lor s 0x80));;;
  on_periph (upd_reg REG_DMA1_CCR (fun s => Z.land s (u8 (Z.lnot 0x80))));;;
  cdic_dma_complete.
End Dma.
