(* ===== verification/PeriphSpec.v ===== *)
(** The peripheral block: its invariant, the batched timer advance, the
    write-one-to-clear registers and the DMA channel. *)

From Stdlib Require Import ZArith Lia Bool.
From stdpp Require Import base tactics numbers list gmap.
From S2P Require Import Prelude Irq Periph.
Open Scope Z_scope.

Record periph_ok (p : SccPeripherals) : Prop := {
  ok_bytes : bytes_ok (bytes p);
  ok_prescale : 0 <= timer_prescale_cycles p < 96;
}.

(** ** Registers *)
Lemma reg_put_eq a v p : reg (put_reg a v p) a = v.
Proof. unfold reg. apply mget_mset_eq. Qed.
Lemma reg_put_ne a b v p : a <> b -> reg (put_reg a v p) b = reg p b.
Proof. intros. unfold reg. cbn. apply mget_mset_ne. lia. Qed.
Lemma reg_prescale c p a : reg (set_prescale c p) a = reg p a.
Proof. done. Qed.
Lemma reg_u8 p a : periph_ok p -> is_u8 (reg p a).
Proof. intros []. unfold reg. auto. Qed.
#[export] Hint Resolve reg_u8 : word.

Lemma lookup_put_reg a v p b :
  bytes (put_reg a v p) !! b = if b =? a - PERIPHERAL_BASE then Some v else bytes p !! b.
Proof.
  cbn. unfold mset. destruct (Z.eqb_spec b (a - PERIPHERAL_BASE)) as [->|].
  - apply lookup_insert_eq.
  - by apply lookup_insert_ne.
Qed.

Lemma load_counter_u16 p a : periph_ok p -> is_u16 (load_counter p a).
Proof.
  intros Hp. unfold load_counter. pose proof (reg_u8 p a Hp). pose proof (reg_u8 p (a + 1) Hp).
  rewrite lor_shiftl_add by (done || lia). unfold is_word in *. lia.
Qed.

Lemma load_store_counter a v p : is_u16 v -> load_counter (store_counter a v p) a = v.
Proof.
  intros Hv. unfold load_counter, store_counter. rewrite reg_put_eq, reg_put_ne, reg_put_eq by lia.
  rewrite lor_shiftl_add by word. unfold u8, is_word in *. rewrite Z.shiftr_div_pow2 by lia.
  change (2 ^ 8) with 256. zlia.
Qed.
Lemma load_store_counter_ne a b v p :
  a + 1 < b \/ b + 1 < a -> load_counter (store_counter a v p) b = load_counter p b.
Proof.
  intros. unfold load_counter, store_counter. by rewrite !reg_put_ne by lia.
Qed.
Lemma reg_store_ne a b v p : b <> a -> b <> a + 1 -> reg (store_counter a v p) b = reg p b.
Proof. intros. unfold store_counter. by rewrite !reg_put_ne by lia. Qed.
Lemma load_put_ne a b v p : b <> a -> b <> a + 1 -> load_counter (put_reg b v p) a = load_counter p a.
Proof. intros. unfold load_counter. by rewrite !reg_put_ne by lia. Qed.

Lemma periph_ok_put a v p : periph_ok p -> is_u8 v -> periph_ok (put_reg a v p).
Proof. intros [] Hv. split; cbn; [word|done]. Qed.
Lemma periph_ok_upd a f p :
  periph_ok p -> (is_u8 (reg p a) -> is_u8 (f (reg p a))) -> periph_ok (upd_reg a f p).
Proof. intros Hp Hf. apply periph_ok_put; [done|]. apply Hf. by apply reg_u8. Qed.
Lemma periph_ok_store a v p : periph_ok p -> periph_ok (store_counter a v p).
Proof. intros Hp. unfold store_counter. apply periph_ok_put; [apply periph_ok_put|]; word. Qed.
Lemma periph_ok_long a v p : periph_ok p -> periph_ok (store_long a v p).
Proof. intros Hp. unfold store_long. repeat apply periph_ok_put; word. Qed.
Lemma periph_ok_prescale c p : periph_ok p -> 0 <= c < 96 -> periph_ok (set_prescale c p).
Proof. intros [] Hc. by split. Qed.
#[export] Hint Resolve periph_ok_put periph_ok_upd periph_ok_store periph_ok_long : word.

Lemma periph_reset_ok : periph_ok periph_reset.
Proof. split; [apply bytes_ok_mset; [word|unfold UART_TX_READY; word]|cbn; lia]. Qed.

(** ** The invariant *)
Lemma read_register_ok a p :
  periph_ok p -> is_u8 (fst (read_register a p)) /\ periph_ok (snd (read_register a p)).
Proof.
  intros Hp. unfold read_register. destruct (mapped a); cbn [negb fst snd]; [|by split; [word|]].
  destruct (a =? REG_URHR); [|by split; [word|]].
  assert (periph_ok (upd_reg REG_USR (fun s => Z.land s (u8 (Z.lnot UART_RX_READY)))
    (put_reg REG_URHR 0 p))) as H by (apply periph_ok_upd; word).
  split; [by apply reg_u8|done].
Qed.

Lemma write_uart_command_ok c p : periph_ok p -> is_u8 c -> periph_ok (write_uart_command c p).
Proof.
  intros Hp Hc. unfold write_uart_command. apply periph_ok_put; [|done].
  destruct (_ =? _); [apply periph_ok_upd; word|].
  destruct (_ =? _).
  - apply periph_ok_upd; [word|]. change (Z.lor UART_TX_READY UART_TX_EMPTY) with 12. word.
  - destruct (_ =? _); [apply periph_ok_upd; word|done].
Qed.

Lemma write_register_ok a v p : periph_ok p -> is_u8 v -> periph_ok (write_register a v p).
Proof.
  intros Hp Hv. unfold write_register.
  destruct (mapped a); [|done]. cbn [negb].
  destruct (a =? REG_LIR); [word|].
  destruct (a =? REG_UCR); [by apply write_uart_command_ok|].
  destruct (a =? REG_UTHR);
    [apply periph_ok_upd; [word|]; unfold UART_TX_EMPTY; word|].
  destruct (_ || _); [apply periph_ok_upd; word|].
  destruct (a =? REG_MSR); [done|word].
Qed.

Lemma read_bytes_ok n a r p :
  periph_ok p -> is_u32 r ->
  is_u32 (fst (read_bytes a r n p)) /\ periph_ok (snd (read_bytes a r n p)).
Proof.
  revert a r p. induction n as [|n IH]; intros a r p Hp Hr; [done|]. cbn [read_bytes].
  destruct (read_register_ok (u32 a) p Hp) as [Hb Hp'].
  destruct (read_register (u32 a) p) as [b p']. apply IH; [done|word].
Qed.

Lemma periph_write_ok n a v p : periph_ok p -> periph_ok (periph_write a v n p).
Proof.
  revert a p. induction n as [|n IH]; intros a p Hp; [done|]. cbn [periph_write].
  apply IH, write_register_ok; word.
Qed.

(** * The batched advance *)
Definition enabled (p : SccPeripherals) (mask : Z) : bool := z2b (Z.land (reg p REG_TCR) mask).

(** [k] further ticks overflow no running counter. *)
Record nowrap (k : Z) (p : SccPeripherals) : Prop := {
  nw_0 : load_counter p REG_T0H + k <= 0xFFFF;
  nw_1 : enabled p 0x30 = true -> load_counter p REG_T1H + k <= 0xFFFF;
  nw_2 : enabled p 0x03 = true -> load_counter p REG_T2H + k <= 0xFFFF;
}.

(** The advance by [k] ticks that [periph_advance_quiet] makes. *)
Definition quiet_by (k : Z) (p : SccPeripherals) : SccPeripherals :=
  if k =? 0 then p else
  let timer0 := u16 (load_counter p REG_T0H + k) in
  let control := reg p REG_TCR in
  let p := store_counter REG_T0H timer0 p in
  let p := advance_side_quiet control 0x30 REG_T1H 0x11 0x40 timer0 k p in
  advance_side_quiet control 0x03 REG_T2H 0x03 0x08 timer0 k p.

Lemma advance_quiet_by c p :
  is_u32 (timer_prescale_cycles p + c) ->
  periph_advance_quiet c p =
    quiet_by ((timer_prescale_cycles p + c) / 96)
      (set_prescale ((timer_prescale_cycles p + c) mod 96) p).
Proof. intros H. unfold periph_advance_quiet. by rewrite u32_id. Qed.

Lemma side_one control enable high wrap clear equal t0 p q :
  load_counter p high < 0xFFFF \/ z2b (Z.land control enable) = false ->
  clock_side_timer control enable high wrap clear equal t0 (p, q) =
    (advance_side_quiet control enable high clear equal t0 1 p, q).
Proof.
  intros H. unfold clock_side_timer, advance_side_quiet.
  destruct (z2b (Z.land control enable)); [|done].
  destruct (Z.eqb_spec (load_counter p high) 0xFFFF); [destruct H; [lia|done]|].
  by destruct (_ =? enable).
Qed.

(** Closed register addresses differ. *)
Ltac addr := solve [vm_compute; first [discriminate | intuition discriminate | left; reflexivity |
  right; reflexivity]].
Ltac regs :=
  repeat first
    [ rewrite reg_put_eq
    | rewrite reg_put_ne by addr
    | rewrite reg_store_ne by addr
    | rewrite load_put_ne by addr
    | rewrite load_store_counter by word
    | rewrite load_store_counter_ne by addr
    | rewrite reg_prescale ].

Lemma side_other_reg control enable high clear equal t0 k p a :
  a <> REG_TSR -> a <> high -> a <> high + 1 ->
  reg (advance_side_quiet control enable high clear equal t0 k p) a = reg p a.
Proof.
  intros H1 H2 H3. unfold advance_side_quiet, upd_reg.
  destruct (z2b _); [|done]. destruct (_ =? enable), (_ =? t0);
    rewrite ?reg_store_ne, ?reg_put_ne by done; done.
Qed.

Lemma side_other_counter control enable high clear equal t0 k p a :
  a <> REG_TSR -> a + 1 <> REG_TSR -> high + 1 < a \/ a + 1 < high ->
  load_counter (advance_side_quiet control enable high clear equal t0 k p) a = load_counter p a.
Proof.
  intros. unfold load_counter. by rewrite !side_other_reg by lia.
Qed.

Lemma quiet_one p q :
  periph_ok p -> nowrap 1 p -> clock_timer_once (p, q) = (quiet_by 1 p, q).
Proof.
  intros Hp [H0 H1 H2]. pose proof (load_counter_u16 p REG_T0H Hp) as B0. unfold is_word in B0.
  unfold clock_timer_once, clock_timer0, quiet_by. cbn [fst].
  destruct (Z.eqb_spec (load_counter p REG_T0H) 0xFFFF); [lia|].
  change (1 =? 0) with false. cbn match. cbv zeta.
  rewrite side_one, side_one; [done|..].
  - rewrite side_other_counter, load_store_counter_ne by addr. unfold enabled in H2.
    destruct (z2b (Z.land (reg p REG_TCR) 0x03)); [left; specialize (H2 eq_refl); lia|by right].
  - rewrite load_store_counter_ne by addr. unfold enabled in H1.
    destruct (z2b (Z.land (reg p REG_TCR) 0x30)); [left; specialize (H1 eq_refl); lia|by right].
Qed.

Lemma periph_ext p p' :
  timer_prescale_cycles p = timer_prescale_cycles p' ->
  (forall b, bytes p !! b = bytes p' !! b) -> p = p'.
Proof. destruct p, p'. cbn. intros -> H. f_equal. by apply map_eq. Qed.

Lemma status_idem s clear : Z.land (Z.land s clear) clear = Z.land s clear.
Proof. by rewrite <- Z.land_assoc, Z.land_diag. Qed.

Lemma u16_step x k j : u16 (u16 (x + k) + j) = u16 (x + (k + j)).
Proof. unfold u16. rewrite Zplus_mod_idemp_l. f_equal. lia. Qed.

Lemma u16_match x y k :
  0 <= x -> 0 <= y -> 0 <= k -> x + k <= 0xFFFF -> y + k <= 0xFFFF ->
  (u16 (x + k) =? u16 (y + k)) = (x =? y).
Proof.
  intros. rewrite !u16_id by (unfold is_word; lia).
  destruct (Z.eqb_spec (x + k) (y + k)), (Z.eqb_spec x y); lia || done.
Qed.

(** What one running timer does to the status register. *)
Definition side_status (capture same : bool) (clear equal s : Z) : Z :=
  let s := if capture then Z.land s (u8 (Z.lnot clear)) else s in
  if same then Z.lor s equal else s.

Lemma side_status_merge c1 s1 c2 s2 s :
  side_status c2 s2 0x03 0x08 (side_status c1 s1 0x11 0x40
    (side_status c2 s2 0x03 0x08 (side_status c1 s1 0x11 0x40 s))) =
  side_status c2 s2 0x03 0x08 (side_status c1 s1 0x11 0x40 s).
Proof.
  apply Z.bits_inj'. intros i _. unfold side_status.
  change (u8 (Z.lnot 0x03)) with 0xFC. change (u8 (Z.lnot 0x11)) with 0xEE.
  destruct c1, s1, c2, s2; autorewrite with bits; destruct (Z.testbit s i) eqn:?;
    destruct (Z.testbit 0xFC i) eqn:?, (Z.testbit 0xEE i) eqn:?, (Z.testbit 0x40 i) eqn:?,
      (Z.testbit 0x08 i) eqn:?; try done.
Qed.

(** The two timers that follow timer 0: enable mask, counter, cleared and match
    bits of the status register. *)
Definition captures (p : SccPeripherals) (mask : Z) : bool :=
  enabled p mask && (Z.land (reg p REG_TCR) mask =? mask).
Definition matches (p : SccPeripherals) (mask high : Z) : bool :=
  enabled p mask && (load_counter p high =? load_counter p REG_T0H).

Definition quiet_status (p : SccPeripherals) : Z :=
  side_status (captures p 0x03) (matches p 0x03 REG_T2H) 0x03 0x08
    (side_status (captures p 0x30) (matches p 0x30 REG_T1H) 0x11 0x40 (reg p REG_TSR)).
Definition touched (p : SccPeripherals) : bool :=
  captures p 0x30 || matches p 0x30 REG_T1H || captures p 0x03 || matches p 0x03 REG_T2H.

Definition put_if (b : bool) (a v : Z) (p : SccPeripherals) : SccPeripherals :=
  if b then put_reg a v p else p.

Lemma put_put a v w p : put_reg a v (put_reg a w p) = put_reg a v p.
Proof. unfold put_reg. cbn. by rewrite mset_mset. Qed.

Lemma side_quiet_form control enable high clear equal t0 k p :
  advance_side_quiet control enable high clear equal t0 k p =
  if z2b (Z.land control enable) then
    let t := u16 (load_counter p high + k) in
    let cap := Z.land control enable =? enable in
    store_counter high t
      (put_if (cap || (t =? t0)) REG_TSR (side_status cap (t =? t0) clear equal (reg p REG_TSR)) p)
  else p.
Proof.
  unfold advance_side_quiet, side_status, upd_reg, put_if. destruct (z2b _); [|done]. cbv zeta.
  destruct (_ =? enable), (_ =? t0); cbn [orb]; rewrite ?reg_put_eq, ?put_put; done.
Qed.

Lemma reg_put_if_ne c a b v p : a <> b -> reg (put_if c a v p) b = reg p b.
Proof. intros. destruct c; [by apply reg_put_ne|done]. Qed.
Lemma load_put_if_ne c a b v p :
  b <> a -> b <> a + 1 -> load_counter (put_if c b v p) a = load_counter p a.
Proof. intros. destruct c; [by apply load_put_ne|done]. Qed.

(** The state after a quiet advance, address by address. *)
Definition quiet_cell (k : Z) (p : SccPeripherals) (b : Z) : option Z :=
  let cell high a v := if b =? high - PERIPHERAL_BASE then Some (u8 (Z.shiftr v 8))
                       else if b =? high + 1 - PERIPHERAL_BASE then Some (u8 v) else a in
  let t high := u16 (load_counter p high + k) in
  let rest := if (b =? REG_TSR - PERIPHERAL_BASE) && touched p then Some (quiet_status p)
              else bytes p !! b in
  let c1 := if enabled p 0x30 then cell REG_T1H rest (t REG_T1H) else rest in
  let c2 := if enabled p 0x03 then cell REG_T2H c1 (t REG_T2H) else c1 in
  cell REG_T0H c2 (t REG_T0H).

Lemma lookup_store a v p b :
  bytes (store_counter a v p) !! b =
  if b =? a + 1 - PERIPHERAL_BASE then Some (u8 v)
  else if b =? a - PERIPHERAL_BASE then Some (u8 (Z.shiftr v 8)) else bytes p !! b.
Proof. unfold store_counter. by rewrite !lookup_put_reg. Qed.

Lemma lookup_put_if c a v p b :
  bytes (put_if c a v p) !! b =
  if (b =? a - PERIPHERAL_BASE) && c then Some v else bytes p !! b.
Proof. destruct c; cbn [put_if]; rewrite ?lookup_put_reg; by destruct (_ =? _). Qed.

Lemma status_read a b clear equal s A p :
  reg p A = s ->
  reg (put_if (a || b) A (side_status a b clear equal s) p) A = side_status a b clear equal s.
Proof.
  intros Hs. destruct a, b; cbn [orb put_if]; try apply reg_put_eq. by rewrite Hs.
Qed.

Ltac closed_addr :=
  repeat match goal with
  | |- context [?x - PERIPHERAL_BASE =? ?y - PERIPHERAL_BASE] =>
    let v := eval vm_compute in (x - PERIPHERAL_BASE =? y - PERIPHERAL_BASE) in
    change (x - PERIPHERAL_BASE =? y - PERIPHERAL_BASE) with v; cbn match
  end.

Lemma quiet_cells k p b :
  periph_ok p -> 0 < k -> nowrap k p -> bytes (quiet_by k p) !! b = quiet_cell k p b.
Proof.
  intros Hp Hk [H0 H1 H2].
  pose proof (load_counter_u16 p REG_T0H Hp) as B0. pose proof (load_counter_u16 p REG_T1H Hp) as B1.
  pose proof (load_counter_u16 p REG_T2H Hp) as B2. unfold is_word in B0, B1, B2.
  unfold quiet_by. destruct (Z.eqb_spec k 0); [lia|]. cbv zeta.
  rewrite !side_quiet_form. unfold quiet_cell, touched, quiet_status, captures, matches.
  unfold enabled in *. cbv zeta.
  set (c := reg p REG_TCR) in *.
  destruct (z2b (Z.land c 0x30)) eqn:E1, (z2b (Z.land c 0x03)) eqn:E2; cbn [andb orb];
    try specialize (H1 eq_refl); try specialize (H2 eq_refl);
    repeat first [rewrite load_store_counter_ne by addr | rewrite load_put_if_ne by addr
      | rewrite reg_store_ne by addr | rewrite reg_put_if_ne by addr];
    rewrite ?u16_match by lia; rewrite ?lookup_store;
    repeat first [rewrite lookup_put_if | rewrite lookup_store].
  all: rewrite ?(status_read _ _ _ _ (reg p REG_TSR)) by (rewrite ?reg_store_ne by addr; done).
  all: repeat match goal with
    | |- context [?y =? ?x - PERIPHERAL_BASE] =>
      is_var y; destruct (Z.eqb_spec y (x - PERIPHERAL_BASE)) as [->|?]; closed_addr
    end; cbn [andb].
  all: repeat match goal with |- context [?x =? ?y] => destruct (x =? y) end; reflexivity.
Qed.

Lemma side_quiet_prescale control enable high clear equal t0 k p :
  timer_prescale_cycles (advance_side_quiet control enable high clear equal t0 k p) =
  timer_prescale_cycles p.
Proof. unfold advance_side_quiet. by repeat case_match. Qed.

Lemma quiet_by_prescale k p : timer_prescale_cycles (quiet_by k p) = timer_prescale_cycles p.
Proof.
  unfold quiet_by. destruct (k =? 0); [done|]. cbv zeta. by rewrite !side_quiet_prescale.
Qed.

Lemma side_set_prescale control enable high clear equal t0 k c p :
  advance_side_quiet control enable high clear equal t0 k (set_prescale c p) =
  set_prescale c (advance_side_quiet control enable high clear equal t0 k p).
Proof.
  unfold advance_side_quiet.
  change (load_counter (set_prescale c p) high) with (load_counter p high).
  destruct (z2b _); [|done]. cbv zeta.
  by destruct (Z.land control enable =? enable), (u16 (load_counter p high + k) =? t0).
Qed.

Lemma quiet_by_set_prescale k c p : quiet_by k (set_prescale c p) = set_prescale c (quiet_by k p).
Proof.
  unfold quiet_by. destruct (k =? 0); [done|]. cbv zeta.
  change (store_counter REG_T0H (u16 (load_counter (set_prescale c p) REG_T0H + k))
    (set_prescale c p)) with (set_prescale c (store_counter REG_T0H
      (u16 (load_counter p REG_T0H + k)) p)).
  by rewrite !side_set_prescale.
Qed.

(** Registers of the advanced state. *)
Lemma quiet_reg k p a :
  periph_ok p -> 0 < k -> nowrap k p ->
  reg (quiet_by k p) a = default 0 (quiet_cell k p (a - PERIPHERAL_BASE)).
Proof. intros. unfold reg, mget. by rewrite quiet_cells. Qed.

Lemma u16_bytes x : is_u16 x -> Z.lor (Z.shiftl (u8 (Z.shiftr x 8)) 8) (u8 x) = x.
Proof.
  intros Hx. rewrite lor_shiftl_add by word. unfold u8, is_word in *.
  rewrite Z.shiftr_div_pow2 by lia. change (2 ^ 8) with 256. zlia.
Qed.

Lemma quiet_counters k p :
  periph_ok p -> 0 < k -> nowrap k p ->
  let p' := quiet_by k p in
  let moved mask high := if enabled p mask then load_counter p high + k else load_counter p high in
  reg p' REG_TCR = reg p REG_TCR /\
  load_counter p' REG_T0H = load_counter p REG_T0H + k /\
  load_counter p' REG_T1H = moved 0x30 REG_T1H /\
  load_counter p' REG_T2H = moved 0x03 REG_T2H /\
  reg p' REG_TSR = quiet_status p.
Proof.
  intros Hp Hk Hw. pose proof Hw as [H0 H1 H2].
  pose proof (load_counter_u16 p REG_T0H Hp) as B0. pose proof (load_counter_u16 p REG_T1H Hp) as B1.
  pose proof (load_counter_u16 p REG_T2H Hp) as B2. unfold is_word in B0, B1, B2.
  assert (forall high, high = REG_T1H \/ high = REG_T2H \/ high = REG_T0H ->
    Z.lor (Z.shiftl (u8 (Z.shiftr (u16 (load_counter p high + k)) 8)) 8)
      (u8 (u16 (load_counter p high + k))) = u16 (load_counter p high + k)) as Hb
    by (intros; apply u16_bytes; word).
  cbv zeta. split; [|split; [|split; [|split]]].
  - rewrite quiet_reg by done. unfold quiet_cell. cbv zeta. closed_addr.
    by destruct (enabled p 0x30), (enabled p 0x03).
  - unfold load_counter at 1. rewrite !quiet_reg by done. unfold quiet_cell. cbv zeta. closed_addr.
    cbn [from_option id]. rewrite Hb by auto. apply u16_id. unfold is_word. lia.
  - unfold load_counter at 1. rewrite !quiet_reg by done. unfold quiet_cell. cbv zeta. closed_addr.
    destruct (enabled p 0x30) eqn:E, (enabled p 0x03); cbn [from_option id andb]; try done;
      rewrite Hb by auto; specialize (H1 eq_refl); apply u16_id; unfold is_word; lia.
  - unfold load_counter at 1. rewrite !quiet_reg by done. unfold quiet_cell. cbv zeta. closed_addr.
    destruct (enabled p 0x03) eqn:E, (enabled p 0x30); cbn [from_option id andb]; try done;
      rewrite Hb by auto; specialize (H2 eq_refl); apply u16_id; unfold is_word; lia.
  - rewrite quiet_reg by done. unfold quiet_cell. cbv zeta. closed_addr. cbn [andb].
    assert (touched p = false -> reg p REG_TSR = quiet_status p) as Ht.
    { unfold touched, quiet_status. rewrite !orb_false_iff. intros [[[-> ->] ->] ->]. done. }
    destruct (enabled p 0x30), (enabled p 0x03), (touched p); try done; by rewrite <- Ht.
Qed.

Lemma quiet_by_ok k p : periph_ok p -> periph_ok (quiet_by k p).
Proof.
  assert (forall control enable high clear equal t0 k p, is_u8 equal -> periph_ok p ->
    periph_ok (advance_side_quiet control enable high clear equal t0 k p)) as Hs.
  { intros control enable high clear equal t0 k' p' He Hp. unfold advance_side_quiet.
    destruct (z2b _); [|done]. cbv zeta. apply periph_ok_store.
    destruct (_ =? enable), (_ =? t0); repeat (apply periph_ok_upd; [|intros; word]); done. }
  intros Hp. unfold quiet_by. destruct (k =? 0); [done|]. cbv zeta.
  repeat (apply Hs; [word|]). by apply periph_ok_store.
Qed.

(** Two advances make one. *)
Lemma quiet_compose j k p :
  periph_ok p -> 0 <= j -> 0 <= k -> nowrap (k + j) p ->
  quiet_by j (quiet_by k p) = quiet_by (k + j) p.
Proof.
  intros Hp Hj Hk Hw.
  destruct (Z.eq_dec k 0) as [->|Hk0]; [done|].
  destruct (Z.eq_dec j 0) as [->|Hj0]; [by rewrite Z.add_0_r|].
  pose proof Hw as [H0 H1 H2].
  assert (nowrap k p) as Hwk by (split; intros; try specialize (H1 ltac:(done));
    try specialize (H2 ltac:(done)); lia).
  destruct (quiet_counters k p Hp ltac:(lia) Hwk) as (EC & E0 & E1 & E2 & ES).
  assert (forall mask, enabled (quiet_by k p) mask = enabled p mask) as Een
    by (intros; unfold enabled; by rewrite EC).
  assert (forall mask, captures (quiet_by k p) mask = captures p mask) as Ecap
    by (intros; unfold captures; by rewrite Een, EC).
  assert (forall mask high, load_counter (quiet_by k p) high =
    (if enabled p mask then load_counter p high + k else load_counter p high) ->
    matches (quiet_by k p) mask high = matches p mask high) as Emat.
  { intros mask high E. unfold matches. rewrite Een, E, E0. destruct (enabled p mask); [|done].
    cbn [andb]. destruct (Z.eqb_spec (load_counter p high + k) (load_counter p REG_T0H + k)),
      (Z.eqb_spec (load_counter p high) (load_counter p REG_T0H)); lia || done. }
  assert (touched (quiet_by k p) = touched p) as Eto
    by (unfold touched; by rewrite !Ecap, (Emat _ _ E1), (Emat _ _ E2)).
  assert (quiet_status (quiet_by k p) = quiet_status p) as Eqs.
  { unfold quiet_status. rewrite !Ecap, (Emat _ _ E1), (Emat _ _ E2), ES. apply side_status_merge. }
  assert (periph_ok (quiet_by k p)) as Hpk by (by apply quiet_by_ok).
  apply periph_ext; [by rewrite !quiet_by_prescale|]. intros b.
  assert (nowrap j (quiet_by k p)) as Hwj.
  { split; rewrite ?Een, ?E0, ?E1, ?E2; [lia|intros En; rewrite En; specialize (H1 En); lia|
      intros En; rewrite En; specialize (H2 En); lia]. }
  rewrite !quiet_cells by (done || lia). unfold quiet_cell. cbv zeta.
  rewrite !Een, Eto, Eqs, E0, E1, E2, quiet_cells by (done || lia). unfold quiet_cell. cbv zeta.
  rewrite <- !Z.add_assoc.
  destruct (enabled p 0x30), (enabled p 0x03), (touched p); cbn [andb];
    repeat (match goal with |- context [if ?c then _ else _] => destruct c end); try done.
  all: by rewrite <- ?Z.add_assoc.
Qed.

Lemma nowrap_after j k p :
  periph_ok p -> 0 <= j -> 0 <= k -> nowrap (k + j) p -> nowrap j (quiet_by k p).
Proof.
  intros Hp Hj Hk [H0 H1 H2]. destruct (Z.eq_dec k 0) as [->|Hk0]; [done|].
  assert (nowrap k p) as Hwk by (split; intros; try specialize (H1 ltac:(done));
    try specialize (H2 ltac:(done)); lia).
  destruct (quiet_counters k p Hp ltac:(lia) Hwk) as (EC & E0 & E1 & E2 & _).
  assert (forall mask, enabled (quiet_by k p) mask = enabled p mask) as Een
    by (intros; unfold enabled; by rewrite EC).
  split; rewrite ?Een, ?E0, ?E1, ?E2; [lia|intros En; rewrite En; specialize (H1 En); lia|
    intros En; rewrite En; specialize (H2 En); lia].
Qed.

Lemma nowrap_le j k p : j <= k -> nowrap k p -> nowrap j p.
Proof.
  intros Hj [H0 H1 H2]. split; intros; try specialize (H1 ltac:(done));
    try specialize (H2 ltac:(done)); lia.
Qed.

Lemma quiet_ticks_nowrap k p :
  periph_ok p -> 0 <= k -> k < quiet_ticks p <-> nowrap k p.
Proof.
  intros Hp Hk.
  pose proof (load_counter_u16 p REG_T0H Hp) as B0. pose proof (load_counter_u16 p REG_T1H Hp) as B1.
  pose proof (load_counter_u16 p REG_T2H Hp) as B2. unfold is_word in B0, B1, B2.
  unfold quiet_ticks. cbv zeta. fold (enabled p 0x30) (enabled p 0x03).
  rewrite !u32_id by (unfold is_word; lia). rewrite !if_min. split.
  - intros H. split; intros; destruct (enabled p 0x30), (enabled p 0x03); done || lia.
  - intros [H0 H1 H2]. destruct (enabled p 0x30), (enabled p 0x03);
      try specialize (H1 eq_refl); try specialize (H2 eq_refl); lia.
Qed.

Lemma ticks_quiet n p q :
  periph_ok p -> nowrap (Z.of_nat n) p ->
  Nat.iter n clock_timer_once (p, q) = (quiet_by (Z.of_nat n) p, q).
Proof.
  intros Hp. induction n as [|n IH]; intros Hw; [done|].
  rewrite Nat2Z.inj_succ, <- Z.add_1_r in *. rewrite Nat.iter_succ.
  rewrite IH by (apply (nowrap_le _ (Z.of_nat n + 1)); [lia|done]).
  rewrite quiet_one, quiet_compose; try done; try lia.
  - by apply quiet_by_ok.
  - apply nowrap_after; done || lia.
Qed.

Lemma periph_quiet_zero p : periph_ok p -> periph_advance_quiet (25 * Z.of_nat 0) p = p.
Proof.
  intros [_ Hp]. rewrite advance_quiet_by by (unfold is_word; lia).
  change (25 * Z.of_nat 0) with 0. rewrite Z.add_0_r, Z.div_small, Z.mod_small by lia. by destruct p.
Qed.

(** An advance of [c] cycles with no wrap is the batched one. *)
Lemma increment_quiet c p q :
  periph_ok p -> 0 <= c -> is_u32 (timer_prescale_cycles p + c) ->
  nowrap ((timer_prescale_cycles p + c) / 96) p ->
  periph_increment_timer c (p, q) = (periph_advance_quiet c p, q).
Proof.
  intros Hp Hc Hu Hw. rewrite advance_quiet_by by done. unfold periph_increment_timer.
  destruct (ok_prescale _ Hp) as [Hp0 Hp1]. cbn [fst snd].
  rewrite u64_id by (unfold is_word in *; lia).
  rewrite !u32_id by (unfold is_word in *; zlia). rewrite ticks_quiet.
  - rewrite Z2Nat.id by zlia. done.
  - by apply periph_ok_prescale; [|apply Z.mod_pos_bound].
  - rewrite Z2Nat.id by zlia. by destruct Hw.
Qed.

Lemma prescale_nowrap k c p : nowrap k p -> nowrap k (set_prescale c p).
Proof. by intros []. Qed.

(** Admitted quanta leave the interrupt lines alone, and advancing them at once is
    advancing the timers quantum by quantum. *)
Lemma timer_batch n max p q :
  periph_ok p -> is_u32 max -> Z.of_nat n <= periph_quiet_quanta max p ->
  Nat.iter n (periph_increment_timer 25) (p, q) = (periph_advance_quiet (25 * Z.of_nat n) p, q).
Proof.
  intros Hp Hm Hn. destruct (ok_prescale _ Hp) as [Hp0 Hp1].
  pose proof (load_counter_u16 p REG_T0H Hp) as B0. unfold is_word in B0.
  assert (0 < quiet_ticks p <= 65536) as [Ht0 Ht1].
  { split; [apply quiet_ticks_nowrap; [done|lia|]|].
    - pose proof (load_counter_u16 p REG_T1H Hp) as B1. pose proof (load_counter_u16 p REG_T2H Hp) as B2.
      unfold is_word in B1, B2. split; intros; lia.
    - apply Z.le_ngt. intros Hlt. apply quiet_ticks_nowrap in Hlt as [H0 _ _]; [lia|done|lia]. }
  assert (timer_prescale_cycles p + 25 * Z.of_nat n < quiet_ticks p * 96) as Hb.
  { unfold periph_quiet_quanta in Hn. cbv zeta in Hn.
    rewrite !(u32_id (quiet_ticks p * 96 - _)), u32_id in Hn by (unfold is_word; lia).
    destruct (Z.ltb_spec ((quiet_ticks p * 96 - timer_prescale_cycles p - 1) / 25) max); zlia. }
  clear Hn. induction n as [|n IH]; rewrite ?Nat.iter_succ.
  - by rewrite periph_quiet_zero.
  - rewrite IH by lia. clear IH. rewrite Nat2Z.inj_succ in *. set (m := Z.of_nat n) in *.
    rewrite !advance_quiet_by by (unfold is_word; lia).
    set (k := (timer_prescale_cycles p + 25 * m) / 96).
    set (r := (timer_prescale_cycles p + 25 * m) mod 96).
    assert (0 <= k /\ 0 <= r < 96 /\ k * 96 + r = timer_prescale_cycles p + 25 * m) as (Hk & Hr & Ekr)
      by (subst k r; zlia).
    set (j := (r + 25) / 96). assert (0 <= j) as Hj by (subst j; zlia).
    assert (nowrap (k + j) p) as Hw.
    { apply quiet_ticks_nowrap; [done|lia|]. subst j. zlia. }
    set (P := quiet_by k (set_prescale r p)).
    assert (timer_prescale_cycles P = r) as HP by (subst P; by rewrite quiet_by_prescale).
    assert (periph_ok P) as HokP by (apply quiet_by_ok, periph_ok_prescale; done).
    assert (nowrap j P) as HwP.
    { subst P. apply nowrap_after; [|done|done|by apply prescale_nowrap].
      by apply periph_ok_prescale. }
    assert (is_u32 (timer_prescale_cycles P + 25)) as HuP by (rewrite HP; unfold is_word; lia).
    rewrite increment_quiet; rewrite ?HP; fold j; try done; try lia; [|by rewrite <- HP].
    rewrite advance_quiet_by, HP by done. fold j. subst P.
    rewrite <- quiet_by_set_prescale. unfold set_prescale at 1. cbn [bytes set_prescale].
    fold (set_prescale ((r + 25) mod 96) p).
    rewrite quiet_compose; [|apply periph_ok_prescale; [done|apply Z.mod_pos_bound; lia]|lia|lia|
      by apply prescale_nowrap].
    assert (k + j = (timer_prescale_cycles p + 25 * Z.succ m) / 96) as -> by (subst j; zlia).
    assert ((r + 25) mod 96 = (timer_prescale_cycles p + 25 * Z.succ m) mod 96) as -> by zlia.
    done.
Qed.


(** * Timer interrupts *)
Lemma side_keeps_bit7 control enable high wrap clear equal t0 p q :
  Z.testbit (u8 (Z.lnot clear)) 7 = true ->
  REG_TSR <> high -> REG_TSR <> high + 1 ->
  Z.testbit (reg p REG_TSR) 7 = true ->
  Z.testbit (reg (fst (clock_side_timer control enable high wrap clear equal t0 (p, q))) REG_TSR) 7
    = true.
Proof.
  intros Hc Hn1 Hn2 Hb. unfold clock_side_timer, upd_reg. destruct (z2b _); [|done].
  assert (forall x y, x = true -> x || y = true) as Hor by (intros x y ->; done).
  destruct (_ =? 0xFFFF); [|destruct (_ =? enable)]; cbn match; destruct (_ =? t0); cbn [fst];
    rewrite reg_store_ne, ?reg_put_eq by done; rewrite ?Z.lor_spec, ?Z.land_spec, ?Hb, ?Hc; done.
Qed.

Lemma side_keeps_irq control enable high wrap clear equal t0 p q l :
  Z.testbit (s_irq_onchip_pending q) l = true ->
  Z.testbit (s_irq_onchip_pending
    (snd (clock_side_timer control enable high wrap clear equal t0 (p, q)))) l = true.
Proof.
  intros Hb. unfold clock_side_timer, request_timer_interrupt, cdi_irq_raise_onchip_level.
  destruct (z2b _); [|done].
  destruct (_ =? 0xFFFF); [|destruct (_ =? enable)]; cbn match; cbn [snd]; try done.
  destruct (z2b _); [|done]. destruct (irq_bad_level _); [done|]. cbn [s_irq_onchip_pending].
  by rewrite Z.lor_spec, Hb.
Qed.

Lemma side_counter control enable high wrap clear equal t0 p q a :
  a <> REG_TSR -> a + 1 <> REG_TSR -> high + 1 < a \/ a + 1 < high ->
  load_counter (fst (clock_side_timer control enable high wrap clear equal t0 (p, q))) a =
  load_counter p a.
Proof.
  intros H1 H2 H3. unfold clock_side_timer, upd_reg. destruct (z2b _); [|done].
  destruct (_ =? 0xFFFF); [|destruct (_ =? enable)]; cbn match; destruct (_ =? t0); cbn [fst];
    rewrite load_store_counter_ne, ?load_put_ne by (congruence || lia); done.
Qed.

(** An overflow of timer 0 reloads it, latches its status bit and requests
    the on-chip interrupt at the programmed priority. *)
Theorem timer0_overflow p q :
  periph_ok p -> load_counter p REG_T0H = 0xFFFF ->
  let priority := Z.land (reg p REG_PICR1) 7 in
  let '(p', q') := clock_timer_once (p, q) in
  load_counter p' REG_T0H = load_counter p REG_RRH /\
  Z.testbit (reg p' REG_TSR) 7 = true /\
  (priority <> 0 -> Z.testbit (s_irq_onchip_pending q') priority = true).
Proof.
  intros Hp H0 priority. unfold clock_timer_once, clock_timer0. rewrite H0.
  change (0xFFFF =? 0xFFFF) with true. cbn match. cbn [fst].
  set (p1 := store_counter REG_T0H (load_counter p REG_RRH)
    (upd_reg REG_TSR (fun s => Z.lor s 0x80) p)).
  set (q1 := request_timer_interrupt (upd_reg REG_TSR (fun s => Z.lor s 128) p) q).
  set (c := reg p REG_TCR). set (t0 := load_counter p REG_RRH).
  assert (load_counter p1 REG_T0H = t0) as Ht by
    (apply load_store_counter, load_counter_u16; done).
  assert (Z.testbit (reg p1 REG_TSR) 7 = true) as Hs.
  { subst p1. rewrite reg_store_ne by addr. unfold upd_reg. rewrite reg_put_eq, Z.lor_spec.
    apply orb_true_r. }
  assert (priority <> 0 -> Z.testbit (s_irq_onchip_pending q1) priority = true) as Hq.
  { intros Hne. subst q1. unfold request_timer_interrupt, upd_reg. rewrite reg_put_ne by addr.
    fold priority. assert (0 <= priority <= 7) as Hr.
    { subst priority. rewrite (Z.land_ones _ 3) by lia. zlia. }
    rewrite u8_id by (unfold is_word; lia). unfold z2b. destruct (Z.eqb_spec priority 0); [done|].
    cbn [negb]. unfold cdi_irq_raise_onchip_level, irq_bad_level.
    destruct (Z.eqb_spec priority 0), (Z.ltb_spec 7 priority); try lia. cbn [orb s_irq_onchip_pending].
    rewrite Z.lor_spec, testbit_pow2, Z.eqb_refl by lia. apply orb_true_r. }
  clearbody p1 q1.
  destruct (clock_side_timer c 0x30 REG_T1H 0x10 0x11 0x40 t0 (p1, q1)) as [p2 q2] eqn:E2.
  destruct (clock_side_timer c 0x03 REG_T2H 0x02 0x03 0x08 t0 (p2, q2)) as [p3 q3] eqn:E3.
  apply (f_equal fst) in E2 as E2p. apply (f_equal snd) in E2 as E2q.
  apply (f_equal fst) in E3 as E3p. apply (f_equal snd) in E3 as E3q. cbn [fst snd] in *.
  split; [|split].
  - rewrite <- E3p, side_counter by addr. rewrite <- E2p, side_counter by addr. done.
  - rewrite <- E3p. apply side_keeps_bit7; [done|addr|addr|].
    rewrite <- E2p. by apply side_keeps_bit7; [done|addr|addr|].
  - intros Hne. rewrite <- E3q. apply side_keeps_irq. rewrite <- E2q. apply side_keeps_irq. auto.
Qed.

(** * Register writes *)
Definition write_one_to_clear (a : Z) : Prop := a = REG_TSR \/ a = REG_DMA1_CSR \/ a = REG_DMA2_CSR.
Definition special (a : Z) : Prop :=
  write_one_to_clear a \/ a = REG_LIR \/ a = REG_UCR \/ a = REG_UTHR \/ a = REG_MSR.

(** A byte write clears exactly the ones written in a status register, is
    ignored by MSR, and is stored by every plain register; no other register
    moves in any of these cases. *)
Theorem register_write a v p :
  mapped a = true -> periph_ok p -> is_u8 v ->
  let p' := periph_write a v 1 p in
  (write_one_to_clear a -> reg p' a = Z.land (reg p a) (Z.lnot v)) /\
  (a = REG_MSR -> p' = p) /\
  (~ special a -> reg p' a = v) /\
  (write_one_to_clear a \/ ~ special a -> forall b, b <> a -> reg p' b = reg p b).
Proof.
  intros Hm Hp Hv. cbn [periph_write]. change (8 * Z.of_nat 0) with 0. rewrite Z.shiftr_0_r.
  assert (is_u32 a) as Ha.
  { unfold mapped in Hm. apply andb_true_iff in Hm as [?%Z.leb_le ?%Z.leb_le].
    unfold PERIPHERAL_BASE, PERIPHERAL_LAST in *. unfold is_word. lia. }
  rewrite (u32_id a), u8_id by done. unfold write_register. rewrite Hm. cbn [negb].
  assert (write_one_to_clear a ->
    (a =? REG_LIR) = false /\ (a =? REG_UCR) = false /\ (a =? REG_UTHR) = false /\
    (a =? REG_TSR) || (a =? REG_DMA1_CSR) || (a =? REG_DMA2_CSR) = true) as Hw1
    by (intros [-> | [-> | ->]]; done).
  assert (~ special a ->
    (a =? REG_LIR) = false /\ (a =? REG_UCR) = false /\ (a =? REG_UTHR) = false /\
    (a =? REG_TSR) || (a =? REG_DMA1_CSR) || (a =? REG_DMA2_CSR) = false /\
    (a =? REG_MSR) = false) as Hw2.
  { unfold special, write_one_to_clear. intros Hn. rewrite !orb_false_iff, !Z.eqb_neq. tauto. }
  split; [|split; [|split]].
  - intros Hw. destruct (Hw1 Hw) as (-> & -> & -> & ->). unfold upd_reg. rewrite reg_put_eq.
    apply (word_ext 8); [word|pose proof (reg_u8 p a Hp); word|]. intros i Hi.
    rewrite !Z.land_spec, u8_testbit by lia. destruct (Z.ltb_spec i 8); [done|lia].
  - intros ->. done.
  - intros Hn. destruct (Hw2 Hn) as (-> & -> & -> & -> & ->). apply reg_put_eq.
  - intros [Hw|Hn] b Hb.
    + destruct (Hw1 Hw) as (-> & -> & -> & ->). apply reg_put_ne. congruence.
    + destruct (Hw2 Hn) as (-> & -> & -> & -> & ->). apply reg_put_ne. congruence.
Qed.

(** * Instances *)

(** Timers 0 and 1 running, timer 1 in capture mode and equal to timer 0. *)
Definition sample_periph : SccPeripherals :=
  put_reg REG_PICR1 5 (store_counter REG_RRH 0x1234
    (store_counter REG_T1H 0xFF00 (store_counter REG_T0H 0xFF00 (put_reg REG_TCR 0x30 periph_reset)))).

Lemma sample_periph_ok : periph_ok sample_periph.
Proof. unfold sample_periph. pose proof periph_reset_ok. word. Qed.


Lemma timer0_overflow_witness :
  let p := store_counter REG_T0H 0xFFFF sample_periph in
  load_counter (fst (clock_timer_once (p, irq_reset))) REG_T0H = 0x1234 /\
  Z.testbit (s_irq_onchip_pending (snd (clock_timer_once (p, irq_reset)))) 5 = true.
Proof.
  assert (periph_ok (store_counter REG_T0H 0xFFFF sample_periph)) as Hok
    by (apply periph_ok_store, sample_periph_ok).
  pose proof (timer0_overflow (store_counter REG_T0H 0xFFFF sample_periph) irq_reset Hok eq_refl) as H.
  cbv zeta. destruct (clock_timer_once (store_counter REG_T0H 0xFFFF sample_periph, irq_reset))
    as [p' q']. cbn [fst snd]. destruct H as (-> & _ & Hq). split; [reflexivity|].
  apply Hq. discriminate.
Defined.

Lemma register_write_witness :
  let p := put_reg REG_TSR 0xD0 sample_periph in
  reg (periph_write REG_TSR 0x90 1 p) REG_TSR = 0x40 /\
  reg (periph_write REG_TSR 0x90 1 p) REG_TCR = 0x30.
Proof.
  assert (periph_ok (put_reg REG_TSR 0xD0 sample_periph)) as Hok
    by (apply periph_ok_put; [exact sample_periph_ok|word]).
  destruct (register_write REG_TSR 0x90 (put_reg REG_TSR 0xD0 sample_periph) eq_refl Hok
    ltac:(word)) as (Hc & _ & _ & Ho).
  cbv zeta. rewrite Hc by (left; reflexivity). split; [reflexivity|].
  rewrite Ho; [reflexivity|left; left; reflexivity|discriminate].
Defined.
