(* ===== verification/Ciap.v ===== *)
(** The CD interface and audio processor (runner/src/cdic.c): its aperture of
    registers and buffers, sector delivery with its double-buffered ownership,
    the audio-buffer consumer, and the deferred time of the streaming build.

    The audio decoder and the mounted medium are the interfaces [AudioOps] and
    [MediaOps]; a write of DMACTL that starts the SCC68070 channel is returned
    to the bus, which performs it. *)

From Stdlib Require Import ZArith Lia Bool.
From stdpp Require Import base tactics numbers list gmap.
From S2P Require Import Prelude Double Irq.
Open Scope Z_scope.
Open Scope mach_scope.

Definition CDI_CDIC_BASE : Z := 0x00300000.
Definition CIAP_DATA0 : Z := 0x1200.
Definition CIAP_DATA1 : Z := 0x1BC2.
Definition CIAP_QBUF0 : Z := 0x1B24.
Definition CIAP_QBUF1 : Z := 0x24E6.
Definition CIAP_IER : Z := 0x2584.
Definition CIAP_ISR : Z := 0x2586.
Definition CIAP_TACS : Z := 0x2588.
Definition CIAP_TCM1 : Z := 0x258C.
Definition CIAP_ACM2 : Z := 0x2590.
Definition CIAP_FILE : Z := 0x2592.
Definition CIAP_BMAN : Z := 0x2594.
Definition CIAP_CCR : Z := 0x2596.
Definition CIAP_APCR : Z := 0x25A6.
Definition CIAP_A_SHDW : Z := 0x259A.
Definition CIAP_ASTAT : Z := 0x25AA.
Definition CIAP_AP_POINTER : Z := 0x25B4.
Definition CIAP_ICR : Z := 0x25C0.
Definition CIAP_DMACTL : Z := 0x25C2.
Definition CIAP_ID : Z := 0x25C4.
Definition CIAP_DLOAD : Z := 0x25FE.
Definition CIAP_REGISTER_BYTES : Z := 0x2600.
Definition CIAP_APERTURE_BYTES : Z := 0x4000.
Definition CIAP_SECTOR_BYTES : Z := 2340.

Definition CIAP_BMAN_DATA0 : Z := 0x0004.
Definition CIAP_BMAN_DATA1 : Z := 0x0008.
Definition CIAP_BMAN_Q0 : Z := 0x0010.
Definition CIAP_BMAN_Q1 : Z := 0x0020.
Definition CIAP_BMAN_ACK_CLEAR : Z := 0x00F0.

(** The device of cdic.c, field by field, less its ring of debug events. *)
Record CiapDevice := mkCiap {
  memory : mem;  (* uint8_t[0x4000] *)
  sector_elapsed_ns : Z;
  data_deliveries : Z;
  locator_deliveries : Z;
  held_ticks : Z;
  drive_lba : Z;
  last_lba : Z;
  last_file : Z;
  last_channel : Z;
  last_submode : Z;
  last_coding : Z;
  last_selected : bool;
  next_data_buffer : Z;  (* 0 or 1 *)
  next_q_buffer : Z;  (* 0 or 1 *)
  drive_positioned : bool;
  audio_positioned : bool;
  data_running : bool;
  data_path_armed : bool;
  firmware_idle : bool;
  q_reporting : bool;
  selection_active : bool;
  selection_header_pending : bool;
  ap_completion_pending : bool;
  ap_completion_delay_ns : Z;
  audio_remaining_ns : Z;
  audio_duration_ns : Z;
  audio_format : list Z;  (* uint16_t[2] *)
  audio_playing : bool;
  audio_buffer : Z;  (* 0 or 1 *)
  audio_active : bool;
  audio_finish_requested : bool;
  audio_select_pending : bool;
  initialized : bool;
}.
Definition ciap_fields :=
  (tt, memory, sector_elapsed_ns, data_deliveries, locator_deliveries, held_ticks, drive_lba,
   last_lba, last_file, last_channel, last_submode, last_coding, last_selected,
   next_data_buffer, next_q_buffer, drive_positioned, audio_positioned, data_running,
   data_path_armed, firmware_idle, q_reporting, selection_active, selection_header_pending,
   ap_completion_pending, ap_completion_delay_ns, audio_remaining_ns, audio_duration_ns,
   audio_format, audio_playing, audio_buffer, audio_active, audio_finish_requested,
   audio_select_pending, initialized).
Ltac ciap_set c f v := setter mkCiap c f v ciap_fields.
Definition set_memory (v : mem) (c : CiapDevice) : CiapDevice := ltac:(ciap_set c memory v).
Definition set_sector_elapsed_ns (v : Z) (c : CiapDevice) : CiapDevice := ltac:(ciap_set c sector_elapsed_ns v).
Definition set_data_deliveries (v : Z) (c : CiapDevice) : CiapDevice := ltac:(ciap_set c data_deliveries v).
Definition set_locator_deliveries (v : Z) (c : CiapDevice) : CiapDevice := ltac:(ciap_set c locator_deliveries v).
Definition set_held_ticks (v : Z) (c : CiapDevice) : CiapDevice := ltac:(ciap_set c held_ticks v).
Definition set_drive_lba (v : Z) (c : CiapDevice) : CiapDevice := ltac:(ciap_set c drive_lba v).
Definition set_last_lba (v : Z) (c : CiapDevice) : CiapDevice := ltac:(ciap_set c last_lba v).
Definition set_last_file (v : Z) (c : CiapDevice) : CiapDevice := ltac:(ciap_set c last_file v).
Definition set_last_channel (v : Z) (c : CiapDevice) : CiapDevice := ltac:(ciap_set c last_channel v).
Definition set_last_submode (v : Z) (c : CiapDevice) : CiapDevice := ltac:(ciap_set c last_submode v).
Definition set_last_coding (v : Z) (c : CiapDevice) : CiapDevice := ltac:(ciap_set c last_coding v).
Definition set_last_selected (v : bool) (c : CiapDevice) : CiapDevice := ltac:(ciap_set c last_selected v).
Definition set_next_data_buffer (v : Z) (c : CiapDevice) : CiapDevice := ltac:(ciap_set c next_data_buffer v).
Definition set_next_q_buffer (v : Z) (c : CiapDevice) : CiapDevice := ltac:(ciap_set c next_q_buffer v).
Definition set_drive_positioned (v : bool) (c : CiapDevice) : CiapDevice := ltac:(ciap_set c drive_positioned v).
Definition set_audio_positioned (v : bool) (c : CiapDevice) : CiapDevice := ltac:(ciap_set c audio_positioned v).
Definition set_data_running (v : bool) (c : CiapDevice) : CiapDevice := ltac:(ciap_set c data_running v).
Definition set_data_path_armed (v : bool) (c : CiapDevice) : CiapDevice := ltac:(ciap_set c data_path_armed v).
Definition set_firmware_idle (v : bool) (c : CiapDevice) : CiapDevice := ltac:(ciap_set c firmware_idle v).
Definition set_q_reporting (v : bool) (c : CiapDevice) : CiapDevice := ltac:(ciap_set c q_reporting v).
Definition set_selection_active (v : bool) (c : CiapDevice) : CiapDevice := ltac:(ciap_set c selection_active v).
Definition set_selection_header_pending (v : bool) (c : CiapDevice) : CiapDevice := ltac:(ciap_set c selection_header_pending v).
Definition set_ap_completion_pending (v : bool) (c : CiapDevice) : CiapDevice := ltac:(ciap_set c ap_completion_pending v).
Definition set_ap_completion_delay_ns (v : Z) (c : CiapDevice) : CiapDevice := ltac:(ciap_set c ap_completion_delay_ns v).
Definition set_audio_remaining_ns (v : Z) (c : CiapDevice) : CiapDevice := ltac:(ciap_set c audio_remaining_ns v).
Definition set_audio_duration_ns (v : Z) (c : CiapDevice) : CiapDevice := ltac:(ciap_set c audio_duration_ns v).
Definition set_audio_format (v : list Z) (c : CiapDevice) : CiapDevice := ltac:(ciap_set c audio_format v).
Definition set_audio_playing (v : bool) (c : CiapDevice) : CiapDevice := ltac:(ciap_set c audio_playing v).
Definition set_audio_buffer (v : Z) (c : CiapDevice) : CiapDevice := ltac:(ciap_set c audio_buffer v).
Definition set_audio_active (v : bool) (c : CiapDevice) : CiapDevice := ltac:(ciap_set c audio_active v).
Definition set_audio_finish_requested (v : bool) (c : CiapDevice) : CiapDevice := ltac:(ciap_set c audio_finish_requested v).
Definition set_audio_select_pending (v : bool) (c : CiapDevice) : CiapDevice := ltac:(ciap_set c audio_select_pending v).
Definition set_initialized (v : bool) (c : CiapDevice) : CiapDevice := ltac:(ciap_set c initialized v).

(** The private time of the deferred build ([CDI_STREAMING_HLE]) and its counters. *)
Record StreamingJob := mkJob {
  pending_ns : Z;
  deadline_ns : Z;
  deadline_valid : bool;
  jobs : Z;
  deferred_quanta : Z;
  materializations : Z;
}.
Definition job_fields :=
  (tt, pending_ns, deadline_ns, deadline_valid, jobs, deferred_quanta, materializations).
Ltac job_set j f v := setter mkJob j f v job_fields.
Definition set_pending_ns (v : Z) (j : StreamingJob) : StreamingJob := ltac:(job_set j pending_ns v).
Definition set_deadline_ns (v : Z) (j : StreamingJob) : StreamingJob := ltac:(job_set j deadline_ns v).
Definition set_deadline_valid (v : bool) (j : StreamingJob) : StreamingJob := ltac:(job_set j deadline_valid v).
Definition set_jobs (v : Z) (j : StreamingJob) : StreamingJob := ltac:(job_set j jobs v).
Definition set_deferred_quanta (v : Z) (j : StreamingJob) : StreamingJob := ltac:(job_set j deferred_quanta v).
Definition set_materializations (v : Z) (j : StreamingJob) : StreamingJob := ltac:(job_set j materializations v).

(** * The audio decoder and the medium *)
Class AudioOps (A : Type) : Type := {
  audio_reset : A -> A;
  audio_decode_groups : list Z -> Z -> A -> Z * A;  (* output frames *)
  audio_decode_sector : list Z -> A -> A;
}.

Class MediaOps (M : Type) : Type := {
  media_present : M -> bool;
  media_generation : M -> Z;
  media_read_sector_body : Z -> M -> option (list Z);
}.

Section Ciap.
Context {A M : Type} `{AudioOps A} `{MediaOps M}.

Record CiapWorld := mkCW {
  ciap : CiapDevice;
  streaming : StreamingJob;
  cw_irq : IrqState;
  cw_audio : A;
  cw_media : M;
}.

Definition upd (f : CiapDevice -> CiapDevice) (w : CiapWorld) : CiapWorld :=
  mkCW (f (ciap w)) (streaming w) (cw_irq w) (cw_audio w) (cw_media w).
Definition upd_job (f : StreamingJob -> StreamingJob) (w : CiapWorld) : CiapWorld :=
  mkCW (ciap w) (f (streaming w)) (cw_irq w) (cw_audio w) (cw_media w).
Definition upd_irq (f : IrqState -> IrqState) (w : CiapWorld) : CiapWorld :=
  mkCW (ciap w) (streaming w) (f (cw_irq w)) (cw_audio w) (cw_media w).
Definition upd_audio (f : A -> A) (w : CiapWorld) : CiapWorld :=
  mkCW (ciap w) (streaming w) (cw_irq w) (f (cw_audio w)) (cw_media w).

Definition read_word (c : CiapDevice) (offset : Z) : Z :=
  Z.lor (Z.shiftl (mget (memory c) offset) 8) (mget (memory c) (offset + 1)).
Definition store_word (offset value : Z) (c : CiapDevice) : CiapDevice :=
  set_memory (mset (mset (memory c) offset (u8 (Z.shiftr value 8))) (offset + 1) (u8 value)) c.
(** [store_word(r, f(read_word(r)))] *)
Definition edit_word (offset : Z) (f : Z -> Z) (c : CiapDevice) : CiapDevice :=
  store_word offset (f (read_word c offset)) c.

Definition data_buffers_full (c : CiapDevice) : bool :=
  Z.land (read_word c CIAP_BMAN) (Z.lor CIAP_BMAN_DATA0 CIAP_BMAN_DATA1)
    =? Z.lor CIAP_BMAN_DATA0 CIAP_BMAN_DATA1.

Definition interrupt_level (c : CiapDevice) : Z := Z.land (read_word c CIAP_ICR) 7.
Definition interrupt_vector (c : CiapDevice) : Z := Z.land (Z.shiftr (read_word c CIAP_ICR) 3) 0xFF.

Definition clear_interrupt_line (w : CiapWorld) : CiapWorld :=
  let level := interrupt_level (ciap w) in
  if z2b level then upd_irq (cdi_irq_clear level) w else w.

Definition assert_interrupt_line (w : CiapWorld) : CiapWorld :=
  let c := ciap w in
  let enabled := read_word c CIAP_IER in
  let status := read_word c CIAP_ISR in
  let level := interrupt_level c in
  let vector := interrupt_vector c in
  if z2b (Z.land enabled status) && z2b level
  then upd_irq (cdi_irq_raise_vector level vector) w else w.

Definition zeroed_ciap : CiapDevice :=
  mkCiap ∅ 0 0 0 0 0 0 0 0 0 0 false 0 0 false false false false false false false false false
    0 0 0 [0; 0] false 0 false false false false.

Definition initialize_ciap (w : CiapWorld) : CiapWorld :=
  upd_audio audio_reset
    (upd (fun _ => set_initialized true (set_firmware_idle true
                     (store_word CIAP_ID 0xCD02 zeroed_ciap))) w).

Definition ensure_initialized (w : CiapWorld) : CiapWorld :=
  if initialized (ciap w) then w else initialize_ciap w.

(** * The audio-buffer consumer *)
Definition pow_bit (b : Z) : Z := Z.shiftl 1 b.

(** The buffer a pending selection settles on. *)
Definition select_audio_buffer (c : CiapDevice) : CiapDevice :=
  if audio_select_pending c && z2b (Z.land (read_word c CIAP_BMAN) 3) then
    let buffer := audio_buffer c in
    let buffer := if z2b (Z.land (read_word c CIAP_BMAN) (pow_bit buffer)) then buffer
                  else Z.lxor buffer 1 in
    set_audio_select_pending false (set_audio_buffer buffer c)
  else c.

Definition audio_coding (format : Z) : Z :=
  Z.lor (Z.lor (if z2b (Z.land format 0x2000) then 0x10 else 0)
               (if z2b (Z.land format 0x1000) then 0x04 else 0))
        (if z2b (Z.land format 0x0800) then 0x01 else 0).

Definition start_playing (frames : Z) (c : CiapDevice) : CiapDevice :=
  let c := set_audio_remaining_ns (u64 (frames * 1000000000) / 37800) c in
  let c := set_audio_duration_ns (audio_remaining_ns c) c in
  let c := set_audio_active true c in
  let c := store_word CIAP_AP_POINTER (u16 (audio_buffer c * 0x480)) c in
  edit_word CIAP_ASTAT (fun s => Z.lor s 0x0040) c.

Definition start_audio_buffer (w : CiapWorld) : CiapWorld :=
  let w := upd select_audio_buffer w in
  let c := ciap w in
  let buffer := audio_buffer c in
  if negb (audio_playing c) || audio_active c ||
     negb (z2b (Z.land (read_word c CIAP_BMAN) (pow_bit buffer))) then w
  else
    let format := lget (audio_format c) buffer in
    let '(frames, a) :=
      audio_decode_groups (mload (memory c) (buffer * 0x900) (Z.to_nat 0x900))
        (audio_coding format) (cw_audio w) in
    upd (start_playing frames) (upd_audio (fun _ => a) w).

Definition request_ap_completion (c : CiapDevice) : CiapDevice :=
  set_ap_completion_delay_ns 20000 (set_ap_completion_pending true c).

(** * Sector delivery *)
Definition sector_selected (c : CiapDevice) (sector : list Z) : bool :=
  if negb (selection_active c) || negb (lget sector 3 =? 2) then true else
  let file := lget sector 4 in
  let channel := Z.land (lget sector 5) 31 in
  if negb (lget sector 4 =? lget sector 8) || negb (lget sector 5 =? lget sector 9) ||
     negb (lget sector 6 =? lget sector 10) || negb (lget sector 7 =? lget sector 11)
  then false else
  let selected_file := Z.land (read_word c CIAP_FILE) 0xFF in
  if z2b selected_file && negb (file =? selected_file) then false else
  let mask := Z.lor (read_word c CIAP_TCM1) (Z.shiftl (read_word c CIAP_ACM2) 16) in
  z2b (Z.land mask (pow_bit channel)).

Definition to_bcd (v : Z) : Z := u8 (Z.lor (Z.shiftl (v / 10) 4) (v mod 10)).

Definition q_locator (lba : Z) : list Z :=
  let real := u32 (lba + 150) in
  let m := to_bcd (real / 4500) in
  let s := to_bcd ((real / 75) mod 60) in
  let f := to_bcd (real mod 75) in
  [0x41; 0x00; 0x01; m; s; f; 0; m; s; f].

Definition write_q_locator (offset lba : Z) (c : CiapDevice) : CiapDevice :=
  set_memory (mstore (memory c) offset (q_locator lba)) c.

(** The two copies of the Mode-2 subheader agree. *)
Definition subheader_agrees (sector : list Z) : bool :=
  (lget sector 4 =? lget sector 8) && (lget sector 5 =? lget sector 9) &&
  (lget sector 6 =? lget sector 10) && (lget sector 7 =? lget sector 11).

(** [!FILE || (FILE & 0xFF) == sector file] *)
Definition file_matches (c : CiapDevice) (sector : list Z) : bool :=
  negb (z2b (read_word c CIAP_FILE)) ||
  (Z.land (read_word c CIAP_FILE) 0xFF =? lget sector 4).

(** Trigger and end-of-file events, independent of payload channels. *)
Definition stream_events (sector : list Z) (w : CiapWorld) : CiapWorld :=
  let c := ciap w in
  if (lget sector 3 =? 2) && subheader_agrees sector &&
     (negb (selection_active c) || file_matches c sector) &&
     z2b (Z.land (lget sector 6) (Z.lor 0x10 0x80)) then
    let events := if z2b (Z.land (lget sector 6) 0x10) then 0x0200 else 0 in
    let events := if z2b (Z.land (lget sector 6) 0x80) then Z.lor events 0x0400 else events in
    assert_interrupt_line (upd (edit_word CIAP_ISR (fun s => Z.lor s events)) w)
  else w.

(** The drive-position report of every sector passing the head. *)
Definition report_locator (lba : Z) (w : CiapWorld) : CiapWorld :=
  if q_reporting (ciap w) then
    let w := upd (fun c => set_locator_deliveries (u64 (locator_deliveries c + 1)) c) w in
    let qi := next_q_buffer (ciap w) in
    let qbit := if z2b qi then CIAP_BMAN_Q1 else CIAP_BMAN_Q0 in
    let qbman := read_word (ciap w) CIAP_BMAN in
    let w := upd (fun c =>
      let c := set_next_q_buffer (Z.lxor qi 1) c in
      let c := write_q_locator (if z2b qi then CIAP_QBUF1 else CIAP_QBUF0) lba c in
      let c := store_word CIAP_BMAN (Z.lor qbman qbit) c in
      edit_word CIAP_ISR (fun s => Z.lor s 0x0004) c) w in
    assert_interrupt_line w
  else w.

Definition metadata_only (c : CiapDevice) (sector : list Z) (selection_header : bool) : bool :=
  negb (last_selected c) && (lget sector 3 =? 2) && subheader_agrees sector &&
  (selection_header ||
   (negb (z2b (Z.land (lget sector 6) (Z.lor 0x01 (Z.lor 0x10 0x80)))) && file_matches c sector)).

Definition direct_audio (c : CiapDevice) (sector : list Z) : bool :=
  last_selected c && z2b (Z.land (lget sector 6) 0x04) && (lget sector 5 <? 16) &&
  z2b (Z.land (read_word c CIAP_TACS) (pow_bit (lget sector 5))).

(** The free buffer the next payload fills. *)
Definition fill_buffer (c : CiapDevice) : Z :=
  let buffer := next_data_buffer c in
  if z2b (Z.land (read_word c CIAP_BMAN) (if z2b buffer then CIAP_BMAN_DATA1 else CIAP_BMAN_DATA0))
  then Z.lxor buffer 1 else buffer.

Definition deliver_payload (sector : list Z) (header_only : bool) (c : CiapDevice) : CiapDevice :=
  let buffer := fill_buffer c in
  let bit := if z2b buffer then CIAP_BMAN_DATA1 else CIAP_BMAN_DATA0 in
  let offset := if z2b buffer then CIAP_DATA1 else CIAP_DATA0 in
  let m :=
    if header_only
    then mfill (mstore (memory c) offset (take 12 sector)) (offset + 12) (2340 - 12)%nat 0
    else mstore (memory c) offset sector in
  let c := set_memory m c in
  let c := set_data_deliveries (u64 (data_deliveries c + 1)) c in
  let c := edit_word CIAP_BMAN (fun b => Z.lor b bit) c in
  let c := set_next_data_buffer (Z.lxor buffer 1) c in
  edit_word CIAP_ISR (fun s => Z.lor s 0x0001) c.

Definition step_drive (c : CiapDevice) : CiapDevice := set_drive_lba (u32 (drive_lba c + 1)) c.

Definition deliver_sector_body (lba : Z) (sector : list Z) (w : CiapWorld) : CiapWorld :=
  let w := upd (fun c =>
    let c := set_last_coding (lget sector 7) (set_last_submode (lget sector 6)
      (set_last_channel (lget sector 5) (set_last_file (lget sector 4) (set_last_lba lba c)))) in
    set_last_selected (sector_selected c sector) c) w in
  let selection_header := selection_header_pending (ciap w) in
  let w := upd (set_selection_header_pending false) w in
  let w := stream_events sector w in
  let w := report_locator lba w in
  let c := ciap w in
  let metadata := metadata_only c sector selection_header in
  if negb (last_selected c) && negb metadata then upd step_drive w else
  let audio := direct_audio c sector in
  let w := if audio then upd_audio (audio_decode_sector sector) w else w in
  let w := upd step_drive w in
  if data_buffers_full (ciap w)
  then upd (fun c => set_held_ticks (u64 (held_ticks c + 1)) c) w
  else assert_interrupt_line (upd (deliver_payload sector (audio || metadata)) w).

Definition deliver_one_sector (w : CiapWorld) : CiapWorld :=
  if negb (drive_positioned (ciap w)) || negb (media_present (cw_media w)) then w else
  let lba := drive_lba (ciap w) in
  match media_read_sector_body lba (cw_media w) with
  | None => upd (set_data_running false) w
  | Some sector => deliver_sector_body lba sector w
  end.

(** * Time *)
Definition sector_period_ns : Z := 1000000000 / 75.

Definition complete_ap (c : CiapDevice) : CiapDevice :=
  let c := set_ap_completion_delay_ns 0 (set_ap_completion_pending false c) in
  let c := edit_word CIAP_ASTAT (fun s => Z.lor s 0x0080) c in
  edit_word CIAP_ISR (fun s => Z.lor s 0x0008) c.

Definition advance_ap (step : Z) (w : CiapWorld) : CiapWorld :=
  let c := ciap w in
  if ap_completion_pending c then
    if ap_completion_delay_ns c <=? step then assert_interrupt_line (upd complete_ap w)
    else upd (set_ap_completion_delay_ns (ap_completion_delay_ns c - step)) w
  else w.

(** One buffer runs out: it returns to the host, and the other one starts if
    the host handed it over. *)
Definition release_buffer (c : CiapDevice) : CiapDevice :=
  let c := edit_word CIAP_BMAN (fun b => Z.ldiff b (pow_bit (audio_buffer c))) c in
  let c := set_audio_remaining_ns 0 (set_audio_active false c) in
  let c := set_audio_buffer (Z.lxor (audio_buffer c) 1) c in
  let c := store_word CIAP_AP_POINTER (u16 (audio_buffer c * 0x480)) c in
  edit_word CIAP_ISR (fun s => Z.lor s 0x0002) c.

Definition idle_audio (c : CiapDevice) : CiapDevice :=
  let c := edit_word CIAP_ASTAT (fun s => Z.ldiff s 0x0040) c in
  if audio_finish_requested c
  then request_ap_completion (set_audio_finish_requested false (set_audio_playing false c))
  else c.

Definition consume_audio_buffer (w : CiapWorld) : CiapWorld :=
  let w := start_audio_buffer (assert_interrupt_line (upd release_buffer w)) in
  if negb (audio_active (ciap w)) then upd idle_audio w else w.

(** The consumer loop; the nanoseconds left over. *)
Fixpoint audio_loop (fuel : nat) (audio_step : Z) (w : CiapWorld) : Z * CiapWorld :=
  match fuel with
  | O => (audio_step, w)
  | S fuel' =>
    if audio_active (ciap w) && (audio_remaining_ns (ciap w) <=? audio_step)
    then audio_loop fuel' (audio_step - audio_remaining_ns (ciap w)) (consume_audio_buffer w)
    else (audio_step, w)
  end.

(** Two rounds empty both buffers. *)
Definition AUDIO_FUEL : nat := 2.

Definition play_on (audio_step : Z) (c : CiapDevice) : CiapDevice :=
  let c := set_audio_remaining_ns (audio_remaining_ns c - audio_step) c in
  let elapsed := u64 (audio_duration_ns c - audio_remaining_ns c) in
  store_word CIAP_AP_POINTER
    (u16 (audio_buffer c * 0x480 + u64 (elapsed * 0x480) / audio_duration_ns c)) c.

Definition advance_audio (step : Z) (w : CiapWorld) : CiapWorld :=
  let '(audio_step, w) := audio_loop AUDIO_FUEL step w in
  if audio_active (ciap w) then upd (play_on audio_step) w else w.

Fixpoint sector_loop (fuel : nat) (w : CiapWorld) : CiapWorld :=
  match fuel with
  | O => w
  | S fuel' =>
    if sector_period_ns <=? sector_elapsed_ns (ciap w) then
      let w := upd (fun c => set_sector_elapsed_ns (sector_elapsed_ns c - sector_period_ns) c) w in
      let w := deliver_one_sector w in
      if data_running (ciap w) then sector_loop fuel' w else w
    else w
  end.

Definition sector_rounds (w : CiapWorld) : nat :=
  Z.to_nat (sector_elapsed_ns (ciap w) / sector_period_ns).

Definition add_elapsed (step : Z) (c : CiapDevice) : CiapDevice :=
  set_sector_elapsed_ns (u64 (sector_elapsed_ns c + step)) c.

Definition advance_streaming (step : Z) (w : CiapWorld) : CiapWorld :=
  let w := advance_ap step w in
  let w := advance_audio step w in
  if negb (data_running (ciap w)) then w else
  let w := upd (add_elapsed step) w in
  sector_loop (sector_rounds w) w.

(** The nearest event of the running units, [UINT64_MAX] when none runs. *)
Definition UINT64_MAX : Z := 0xFFFFFFFFFFFFFFFF.
Definition next_event_ns (c : CiapDevice) : Z :=
  let limit := if ap_completion_pending c then ap_completion_delay_ns c else UINT64_MAX in
  let limit := if audio_active c && (audio_remaining_ns c <? limit)
               then audio_remaining_ns c else limit in
  let sector := u64 (sector_period_ns - sector_elapsed_ns c) in
  if data_running c && (sector <? limit) then sector else limit.

(** [hle] is the build option [CDI_STREAMING_HLE]. *)
Definition observe_streaming (hle : bool) (w : CiapWorld) : CiapWorld :=
  let w := ensure_initialized w in
  if hle then
    let w := upd_job (set_deadline_valid false) w in
    let elapsed := pending_ns (streaming w) in
    if z2b elapsed then
      advance_streaming elapsed
        (upd_job (fun j => set_materializations (u64 (materializations j + 1)) (set_pending_ns 0 j)) w)
    else w
  else w.

Definition cdic_increment_time (hle : bool) (nanoseconds : double) (w : CiapWorld) : CiapWorld :=
  let step := dtrunc nanoseconds in
  let w := ensure_initialized w in
  if hle then
    let w := if deadline_valid (streaming w) then w
             else upd_job (fun j => set_deadline_valid true
                                      (set_deadline_ns (next_event_ns (ciap w)) j)) w in
    let j := streaming w in
    if deadline_ns j =? UINT64_MAX then w
    else if step <? u64 (deadline_ns j - pending_ns j) then
      upd_job (fun j => set_deferred_quanta (u64 (deferred_quanta j + 1))
                          (set_pending_ns (u64 (pending_ns j + step)) j)) w
    else
      advance_streaming (u64 (step + pending_ns j))
        (upd_job (fun j => set_jobs (u64 (jobs j + 1))
                             (set_deadline_valid false (set_pending_ns 0 j))) w)
  else advance_streaming step w.

Definition cdi_streaming_quiet_quanta (hle : bool) (maximum quantum_ns : Z) (w : CiapWorld) : Z :=
  if negb (initialized (ciap w)) then 0 else
  let limit := next_event_ns (ciap w) in
  let pending := if hle then pending_ns (streaming w) else 0 in
  if limit =? UINT64_MAX then maximum
  else if limit <=? pending then 0
  else
    let quiet := (limit - pending - 1) / quantum_ns in
    if quiet <? maximum then quiet else maximum.

(** * Registers *)
Definition reset_data_path (w : CiapWorld) : CiapWorld :=
  let w := upd (fun c =>
    let c := set_data_path_armed false (set_data_running false c) in
    let c := set_selection_header_pending false (set_selection_active false c) in
    let c := set_sector_elapsed_ns 0 (set_next_data_buffer 0 (set_q_reporting false c)) in
    let c := edit_word CIAP_BMAN (fun b => Z.land b 3) c in
    edit_word CIAP_ISR (fun s => Z.land s 0x000A) c) w in
  assert_interrupt_line (clear_interrupt_line w).

Definition write_bman (value : Z) (w : CiapWorld) : CiapWorld :=
  let w := upd (fun c =>
    let clear := Z.land value (Z.lor CIAP_BMAN_DATA0 (Z.lor CIAP_BMAN_DATA1 CIAP_BMAN_ACK_CLEAR)) in
    let next := Z.ldiff (read_word c CIAP_BMAN) clear in
    let c := store_word CIAP_BMAN next c in
    let next := Z.lxor next (Z.land value 3) in
    let c := store_word CIAP_BMAN next c in
    let capture b c :=
      if z2b (Z.land (Z.land value next) (pow_bit b))
      then set_audio_format (lset (audio_format c) b (read_word c CIAP_A_SHDW)) c else c in
    capture 1 (capture 0 c)) w in
  start_audio_buffer w.

Definition write_ccr (value : Z) (w : CiapWorld) : CiapWorld :=
  let w := upd (store_word CIAP_CCR value) w in
  if value =? 0x0100 then reset_data_path w
  else if value =? 0x0040 then upd (set_data_running false) w
  else if value =? 0x0008 then
    upd (fun c => set_selection_header_pending true (set_selection_active true c)) w
  else if (value =? 0x00C4) || (value =? 0x0010) || (value =? 0x0044) || (value =? 0x0094) then
    upd (fun c =>
      let c := set_firmware_idle false (set_data_path_armed true c) in
      let c := set_sector_elapsed_ns 0 (set_data_running true c) in
      set_q_reporting (negb (value =? 0x00C4)) c) w
  else w.

Definition stop_audio (c : CiapDevice) : CiapDevice :=
  let c := set_audio_active false (set_audio_playing false c) in
  let c := set_audio_select_pending false (set_audio_finish_requested false c) in
  set_audio_duration_ns 0 (set_audio_remaining_ns 0 c).

Definition write_apcr (value : Z) (w : CiapWorld) : CiapWorld :=
  let w := upd (store_word CIAP_APCR value) w in
  if value =? 0x0200 then
    let w := upd (fun c =>
      edit_word CIAP_ISR (fun s => Z.ldiff s 0x0008)
        (edit_word CIAP_ASTAT (fun s => Z.ldiff s 0x0080) c)) w in
    assert_interrupt_line (clear_interrupt_line w)
  else if value =? 0x0006 then
    let w := upd (fun c =>
      let c := set_ap_completion_delay_ns 0 (set_ap_completion_pending false c) in
      let c := store_word CIAP_AP_POINTER 0 (stop_audio c) in
      let c := edit_word CIAP_BMAN (fun b => Z.ldiff b 3) c in
      let c := edit_word CIAP_ASTAT (fun s => Z.ldiff s 0x00C0) c in
      edit_word CIAP_ISR (fun s => Z.ldiff s 0x000A) c) w in
    assert_interrupt_line (clear_interrupt_line w)
  else if (value =? 0x0040) || (value =? 0x0140) then
    let w := upd (fun c =>
      let c := set_audio_playing true c in
      let c := if value =? 0x0140 then set_audio_select_pending false (set_audio_buffer 0 c)
               else if negb (audio_active c) then set_audio_select_pending true c else c in
      set_audio_finish_requested false c) w in
    start_audio_buffer w
  else if value =? 0x0020 then
    upd (fun c =>
      let c := set_audio_finish_requested true c in
      if negb (audio_active c) && negb (z2b (Z.land (read_word c CIAP_BMAN) 3))
      then request_ap_completion (set_audio_finish_requested false (set_audio_playing false c))
      else c) w
  else if (value =? 0x00A0) || z2b (Z.land value 0x0100) then upd request_ap_completion w
  else w.

Definition write_dload (value : Z) (w : CiapWorld) : CiapWorld :=
  let w := upd (store_word CIAP_DLOAD value) w in
  if z2b (Z.land value 1) then
    let w := reset_data_path w in
    let w := upd (fun c =>
      let c := stop_audio (set_ap_completion_pending false c) in
      let c := store_word CIAP_ISR 0 (store_word CIAP_BMAN 0 c) in
      store_word CIAP_AP_POINTER 0 (store_word CIAP_ASTAT 0x0400 c)) w in
    upd (set_firmware_idle true) (clear_interrupt_line w)
  else w.

(** The control word handed to the SCC68070's DMA channel, if any. *)
Definition handle_register_write (offset value : Z) (w : CiapWorld) : option Z * CiapWorld :=
  if offset =? CIAP_IER then (None, assert_interrupt_line (upd (store_word offset value) w))
  else if offset =? CIAP_BMAN then (None, write_bman value w)
  else if offset =? CIAP_CCR then (None, write_ccr value w)
  else if offset =? CIAP_APCR then (None, write_apcr value w)
  else if offset =? CIAP_DMACTL then
    (if z2b (Z.land value 0x4000) then Some value else None, upd (store_word offset value) w)
  else if offset =? CIAP_ID then (None, w)
  else if offset =? CIAP_DLOAD then (None, write_dload value w)
  else (None, upd (store_word offset value) w).

(** The byte a read presents: the idle status word overlays the latch. *)
Definition presented_byte (c : CiapDevice) (byte_offset : Z) : Z :=
  let v := mget (memory c) byte_offset in
  let v := if firmware_idle c && (byte_offset =? CIAP_ISR)
           then Z.lor v (u8 (Z.shiftr 0x0009 8)) else v in
  if firmware_idle c && (byte_offset =? CIAP_ISR + 1) then Z.lor v (u8 0x0009) else v.

Fixpoint presented_value (c : CiapDevice) (offset : Z) (size : nat) (result : Z) : Z :=
  match size with
  | O => result
  | S n => presented_value c (offset + 1) n
             (u32 (Z.lor (Z.shiftl result 8) (presented_byte c offset)))
  end.

(** A read outside the registers is the fail-loud [abort]. *)
Definition cdic_read (hle : bool) (address : Z) (size : nat) : Mach CiapWorld Z := fun w =>
  let offset := u32 (address - CDI_CDIC_BASE) in
  let w := observe_streaming hle w in
  let n := Z.of_nat size in
  if (n <=? 0) || (CIAP_REGISTER_BYTES <=? offset) || (CIAP_REGISTER_BYTES - offset <? n)
  then (Exn EAbort, w)
  else
    let result := presented_value (ciap w) offset size 0 in
    let w := if (offset <=? CIAP_ISR) && (CIAP_ISR + 2 <=? offset + n)
             then clear_interrupt_line (upd (store_word CIAP_ISR 0) w) else w in
    (Ok result, w).

Fixpoint store_bytes (offset value : Z) (size : nat) (c : CiapDevice) : CiapDevice :=
  match size with
  | O => c
  | S n => store_bytes (offset + 1) value n
             (set_memory (mset (memory c) offset (u8 (Z.shiftr value (8 * Z.of_nat n)))) c)
  end.

Definition cdic_write (hle : bool) (address value : Z) (size : nat) (w : CiapWorld)
    : option Z * CiapWorld :=
  let offset := u32 (address - CDI_CDIC_BASE) in
  let w := observe_streaming hle w in
  let n := Z.of_nat size in
  if (n <=? 0) || (CIAP_APERTURE_BYTES <=? offset) || (CIAP_APERTURE_BYTES - offset <? n)
  then (None, w)
  else if (n =? 2) && Z.even offset && (CIAP_IER <=? offset) && (offset <? CIAP_REGISTER_BYTES)
  then handle_register_write offset (u16 value) w
  else (None, upd (store_bytes offset value size) w).

(** * The drive's side *)
Definition cdic_transport_pause (hle : bool) (w : CiapWorld) : CiapWorld :=
  upd (set_data_running false) (observe_streaming hle w).

Definition cdic_transport_resume (hle : bool) (w : CiapWorld) : CiapWorld :=
  upd (fun c =>
    if data_path_armed c && drive_positioned c && negb (audio_positioned c)
    then set_sector_elapsed_ns 0 (set_data_running true c) else c) (observe_streaming hle w).

Definition cdic_set_drive_position (hle : bool) (lba : Z) (audio : bool) (w : CiapWorld) : CiapWorld :=
  upd (fun c =>
    let c := set_audio_positioned audio (set_drive_positioned true (set_drive_lba lba c)) in
    if audio then set_data_running false c else c) (observe_streaming hle w).

(** * The DMA port *)
Definition next_dma_control (control : Z) : Z :=
  u16 (Z.lor (Z.land control 0xE000) (Z.land (Z.land control 0x1FFF + 1) 0x1FFF)).

Definition cdic_dma_pull_word (hle : bool) (w : CiapWorld) : Z * CiapWorld :=
  let w := observe_streaming hle w in
  let control := read_word (ciap w) CIAP_DMACTL in
  let word_offset := Z.land control 0x1FFF in
  if CIAP_APERTURE_BYTES <=? word_offset * 2 + 1 then (0, w)
  else
    let w := upd (store_word CIAP_DMACTL (next_dma_control control)) w in
    (read_word (ciap w) (word_offset * 2), w).

Definition cdic_dma_push_word (hle : bool) (value : Z) (w : CiapWorld) : CiapWorld :=
  let w := observe_streaming hle w in
  upd (fun c =>
    let control := read_word c CIAP_DMACTL in
    let word_offset := Z.land control 0x1FFF in
    let c := if word_offset * 2 + 1 <? CIAP_APERTURE_BYTES
             then store_word (word_offset * 2) value c else c in
    store_word CIAP_DMACTL (next_dma_control control) c) w.

Definition cdic_dma_complete (hle : bool) (w : CiapWorld) : CiapWorld :=
  upd (edit_word CIAP_DMACTL (fun s => Z.land s (u16 (Z.lnot 0x4000)))) (observe_streaming hle w).
End Ciap.

Arguments CiapWorld : clear implicits.
