(* ===== verification/CiapSpec.v ===== *)
(** What the CIAP guarantees: ownership of the host buffers, the interrupt
    handshake, the audio consumer's termination and the DMA port. *)

From Stdlib Require Import ZArith Lia Bool.
From stdpp Require Import base tactics numbers list gmap.
From S2P Require Import Prelude Double Irq Ciap.
Open Scope Z_scope.

(** ** Words of the aperture *)
Lemma memory_set_memory m c : memory (set_memory m c) = m.
Proof. done. Qed.

Lemma mget_store_word a v c b :
  mget (memory (store_word a v c)) b =
  if b =? a + 1 then u8 v else if b =? a then u8 (Z.shiftr v 8) else mget (memory c) b.
Proof.
  unfold store_word. rewrite memory_set_memory, !mget_mset.
  destruct (Z.eqb_spec (a + 1) b), (Z.eqb_spec a b), (Z.eqb_spec b (a + 1)), (Z.eqb_spec b a);
    done || lia.
Qed.

Lemma read_store_eq a v c : read_word (store_word a v c) a = u16 v.
Proof.
  unfold read_word. rewrite !mget_store_word, !Z.eqb_refl.
  destruct (Z.eqb_spec a (a + 1)); [lia|]. rewrite lor_shiftl_add by word.
  unfold u8, u16. rewrite Z.shiftr_div_pow2 by lia. change (2 ^ 8) with 256. zlia.
Qed.

Lemma read_store_ne a b v c : a + 1 < b \/ b + 1 < a -> read_word (store_word a v c) b = read_word c b.
Proof.
  intros. unfold read_word. rewrite !mget_store_word.
  destruct (Z.eqb_spec b (a + 1)), (Z.eqb_spec b a), (Z.eqb_spec (b + 1) (a + 1)),
    (Z.eqb_spec (b + 1) a); lia || done.
Qed.

Lemma read_edit_eq a f c : read_word (edit_word a f c) a = u16 (f (read_word c a)).
Proof. apply read_store_eq. Qed.
Lemma read_edit_ne a b f c : a + 1 < b \/ b + 1 < a -> read_word (edit_word a f c) b = read_word c b.
Proof. apply read_store_ne. Qed.

(** Only the memory decides the words. *)
Lemma read_word_memory c c' a : memory c = memory c' -> read_word c a = read_word c' a.
Proof. unfold read_word. by intros ->. Qed.

Lemma read_mstore_ne m lo bs c a :
  a + 1 < lo \/ lo + Z.of_nat (length bs) <= a ->
  memory c = mstore m lo bs ->
  read_word c a = Z.lor (Z.shiftl (mget m a) 8) (mget m (a + 1)).
Proof.
  intros Ha E. unfold read_word. rewrite E, !mget_mstore.
  destruct (Z.leb_spec lo a), (Z.ltb_spec a (lo + Z.of_nat (length bs))),
    (Z.leb_spec lo (a + 1)), (Z.ltb_spec (a + 1) (lo + Z.of_nat (length bs))); cbn [andb];
    lia || done.
Qed.

(** Registers of the aperture are disjoint words: closes the side conditions. *)
Ltac off := solve [vm_compute; first [left; reflexivity | right; reflexivity | discriminate
  | split; discriminate]].
Ltac words :=
  repeat first
    [ rewrite read_store_eq | rewrite read_edit_eq
    | rewrite read_store_ne by off | rewrite read_edit_ne by off ].

Section Spec.
Context {A M : Type} `{AudioOps A} `{MediaOps M}.
Implicit Types w : CiapWorld A M.

Lemma clear_line_ciap w : ciap (clear_interrupt_line w) = ciap w.
Proof. unfold clear_interrupt_line. by destruct (z2b _). Qed.
Lemma assert_line_ciap w : ciap (assert_interrupt_line w) = ciap w.
Proof. unfold assert_interrupt_line. by destruct (_ && _). Qed.

(** * Interrupt lines *)
Lemma level_range c : 0 <= interrupt_level c <= 7.
Proof.
  unfold interrupt_level. rewrite (Z.land_ones _ 3) by lia. change (2 ^ 3) with 8. zlia.
Qed.
Lemma vector_range c : is_u8 (interrupt_vector c).
Proof. unfold interrupt_vector. apply land_word_r; [word|lia]. Qed.

Lemma clear_line_irq_ok w : irq_ok (cw_irq w) -> irq_ok (cw_irq (clear_interrupt_line w)).
Proof.
  intros Hq. unfold clear_interrupt_line. destruct (z2b _); [|done].
  apply irq_ok_clear; [apply level_range|done].
Qed.
Lemma assert_line_irq_ok w : irq_ok (cw_irq w) -> irq_ok (cw_irq (assert_interrupt_line w)).
Proof.
  intros Hq. unfold assert_interrupt_line. destruct (_ && _); [|done].
  apply irq_ok_raise_vector; [apply level_range|apply vector_range|done].
Qed.

(** ** What a computation leaves alone

    [stays P w w']: the memory bytes that satisfy [P], the medium, and the
    well-formedness of the interrupt lines survive the step from [w] to [w']. *)
Record stays (P : Z -> Prop) (w w' : CiapWorld A M) : Prop := {
  stays_bytes : forall a, P a -> mget (memory (ciap w')) a = mget (memory (ciap w)) a;
  stays_irq : irq_ok (cw_irq w) -> irq_ok (cw_irq w');
  stays_media : cw_media w' = cw_media w;
}.

Lemma stays_refl P w : stays P w w.
Proof. by split. Qed.
Lemma stays_trans P w1 w2 w3 : stays P w1 w2 -> stays P w2 w3 -> stays P w1 w3.
Proof.
  intros [B1 I1 M1] [B2 I2 M2]. split; [intros a Ha; by rewrite B2, B1|auto|by rewrite M2].
Qed.
Lemma stays_upd P f w :
  (forall a, P a -> mget (memory (f (ciap w))) a = mget (memory (ciap w)) a) -> stays P w (upd f w).
Proof. intros Hf. by split. Qed.
Lemma stays_job P f w : stays P w (upd_job f w).
Proof. by split. Qed.
Lemma stays_audio P f w : stays P w (upd_audio f w).
Proof. by split. Qed.
Lemma stays_clear P w : stays P w (clear_interrupt_line w).
Proof.
  split; [intros; by rewrite clear_line_ciap|by apply clear_line_irq_ok|].
  unfold clear_interrupt_line. by destruct (z2b _).
Qed.
Lemma stays_assert P w : stays P w (assert_interrupt_line w).
Proof.
  split; [intros; by rewrite assert_line_ciap|by apply assert_line_irq_ok|].
  unfold assert_interrupt_line. by destruct (_ && _).
Qed.

(** The bytes outside the register file. *)
Definition buffer_area (a : Z) : Prop := a < CIAP_IER.

Lemma mget_edit_word a f c b : b <> a -> b <> a + 1 -> mget (memory (edit_word a f c)) b = mget (memory c) b.
Proof.
  intros. unfold edit_word. rewrite mget_store_word.
  destruct (Z.eqb_spec b (a + 1)), (Z.eqb_spec b a); done.
Qed.
Lemma mget_store_ne a v c b : b <> a -> b <> a + 1 -> mget (memory (store_word a v c)) b = mget (memory c) b.
Proof.
  intros. rewrite mget_store_word. destruct (Z.eqb_spec b (a + 1)), (Z.eqb_spec b a); done.
Qed.

(** Closes [mget] goals whose stores are register writes. *)
Ltac area :=
  intros; unfold buffer_area in *;
  repeat first
    [ progress cbn [memory set_memory set_sector_elapsed_ns set_data_deliveries
        set_locator_deliveries set_held_ticks set_drive_lba set_last_lba set_last_file
        set_last_channel set_last_submode set_last_coding set_last_selected set_next_data_buffer
        set_next_q_buffer set_drive_positioned set_audio_positioned set_data_running
        set_data_path_armed set_firmware_idle set_q_reporting set_selection_active
        set_selection_header_pending set_ap_completion_pending set_ap_completion_delay_ns
        set_audio_remaining_ns set_audio_duration_ns set_audio_format set_audio_playing
        set_audio_buffer set_audio_active set_audio_finish_requested set_audio_select_pending
        set_initialized request_ap_completion step_drive stop_audio]
    | rewrite mget_edit_word by (unfold CIAP_IER, CIAP_ISR, CIAP_BMAN, CIAP_ASTAT, CIAP_AP_POINTER,
        CIAP_CCR, CIAP_APCR, CIAP_DLOAD, CIAP_DMACTL, CIAP_ID in *; lia)
    | rewrite mget_store_ne by (unfold CIAP_IER, CIAP_ISR, CIAP_BMAN, CIAP_ASTAT, CIAP_AP_POINTER,
        CIAP_CCR, CIAP_APCR, CIAP_DLOAD, CIAP_DMACTL, CIAP_ID in *; lia) ].

Lemma start_audio_stays w : stays buffer_area w (start_audio_buffer w).
Proof.
  unfold start_audio_buffer. eapply stays_trans.
  - apply (stays_upd _ select_audio_buffer). intros. unfold select_audio_buffer.
    by destruct (_ && _).
  - destruct (_ || _); [apply stays_refl|].
    destruct (audio_decode_groups _ _ _) as [frames a].
    eapply stays_trans; [apply stays_audio|]. apply stays_upd. unfold start_playing. by area.
Qed.

Lemma reset_data_path_stays w : stays buffer_area w (reset_data_path w).
Proof.
  unfold reset_data_path. eapply stays_trans; [|apply stays_assert].
  eapply stays_trans; [|apply stays_clear]. apply stays_upd. by area.
Qed.

(** * Ownership of the host buffers *)
Definition data_offset (b : Z) : Z := if z2b b then CIAP_DATA1 else CIAP_DATA0.
Definition data_bit (b : Z) : Z := if z2b b then CIAP_BMAN_DATA1 else CIAP_BMAN_DATA0.
Definition in_buffer (b a : Z) : Prop := data_offset b <= a < data_offset b + CIAP_SECTOR_BYTES.
(** The host owns buffer [b]. *)
Definition owned (c : CiapDevice) (b : Z) : bool := z2b (Z.land (read_word c CIAP_BMAN) (data_bit b)).
Definition is_buffer (b : Z) : Prop := b = 0 \/ b = 1.

(** The fields sector delivery is decided by. *)
Record same_drive (c c' : CiapDevice) : Prop := {
  same_next : next_data_buffer c' = next_data_buffer c;
  same_selected : last_selected c' = last_selected c;
  same_lba : drive_lba c' = drive_lba c;
  same_running : data_running c' = data_running c;
  same_elapsed : sector_elapsed_ns c' = sector_elapsed_ns c;
  same_deliveries : data_deliveries c' = data_deliveries c;
}.

Lemma same_drive_refl c : same_drive c c.
Proof. by split. Qed.

Definition event_area (a : Z) : Prop := a <> CIAP_ISR /\ a <> CIAP_ISR + 1.

Lemma events_frame sector w :
  stays event_area w (stream_events sector w) /\
  same_drive (ciap w) (ciap (stream_events sector w)).
Proof.
  unfold stream_events. destruct (_ && _); [|split; [apply stays_refl|apply same_drive_refl]].
  split; [|rewrite assert_line_ciap; by split].
  eapply stays_trans; [|apply stays_assert]. apply stays_upd. intros a [Ha1 Ha2].
  by apply mget_edit_word.
Qed.

(** The locator pair, the buffer manager and the event latch. *)
Definition locator_area (a : Z) : Prop :=
  event_area a /\ a <> CIAP_BMAN /\ a <> CIAP_BMAN + 1 /\
  ~ (CIAP_QBUF0 <= a < CIAP_QBUF0 + 10) /\ ~ (CIAP_QBUF1 <= a < CIAP_QBUF1 + 10).

Lemma mget_q_locator offset lba c a :
  ~ (offset <= a < offset + 10) -> mget (memory (write_q_locator offset lba c)) a = mget (memory c) a.
Proof.
  intros Ha. unfold write_q_locator. rewrite memory_set_memory, mget_mstore.
  change (length (q_locator lba)) with 10%nat.
  destruct (Z.leb_spec offset a), (Z.ltb_spec a (offset + Z.of_nat 10)); cbn [andb]; done || lia.
Qed.

Lemma locator_frame lba w :
  stays locator_area w (report_locator lba w) /\
  same_drive (ciap w) (ciap (report_locator lba w)).
Proof.
  unfold report_locator. destruct (q_reporting (ciap w));
    [|split; [apply stays_refl|apply same_drive_refl]].
  split; [|rewrite assert_line_ciap; by split].
  eapply stays_trans; [|apply stays_assert].
  eapply stays_trans; [|apply stays_upd]; [by apply stays_upd|].
  intros a ((Ha1 & Ha2) & Ha3 & Ha4 & Hq0 & Hq1).
  rewrite mget_edit_word, mget_store_ne by done. rewrite mget_q_locator; [done|].
  by destruct (z2b _).
Qed.

Lemma locator_bman lba w :
  read_word (ciap (report_locator lba w)) CIAP_BMAN =
  if q_reporting (ciap w) then
    u16 (Z.lor (read_word (ciap w) CIAP_BMAN)
           (if z2b (next_q_buffer (ciap w)) then CIAP_BMAN_Q1 else CIAP_BMAN_Q0))
  else read_word (ciap w) CIAP_BMAN.
Proof.
  unfold report_locator. destruct (q_reporting (ciap w)); [|done].
  rewrite assert_line_ciap. unfold upd. cbn [ciap]. by words.
Qed.

Lemma stays_read P w w' a : stays P w w' -> P a -> P (a + 1) -> read_word (ciap w') a = read_word (ciap w) a.
Proof. intros [B _ _] Ha Hb. unfold read_word. by rewrite !B. Qed.

Lemma owned_bit c b : is_buffer b -> owned c b = Z.testbit (read_word c CIAP_BMAN) (2 + b).
Proof.
  intros [-> | ->]; unfold owned, data_bit; cbn; [apply (testbit_land_pow2 _ 2)|
    apply (testbit_land_pow2 _ 3)]; lia.
Qed.

Lemma locator_owned lba w b :
  is_buffer b -> owned (ciap (report_locator lba w)) b = owned (ciap w) b.
Proof.
  intros Hb. rewrite !owned_bit by done. rewrite locator_bman.
  destruct (q_reporting _); [|done]. rewrite u16_testbit by (destruct Hb; lia).
  rewrite Z.lor_spec. destruct Hb as [-> | ->], (z2b _); cbn -[Z.testbit read_word];
    (rewrite orb_false_r || rewrite orb_comm); done.
Qed.

Lemma events_owned sector w b :
  owned (ciap (stream_events sector w)) b = owned (ciap w) b.
Proof.
  unfold owned. destruct (events_frame sector w) as [Hs _].
  rewrite (stays_read _ _ _ CIAP_BMAN Hs); [done|split; off|split; off].
Qed.

(** A free buffer is found whenever the pair is not full. *)
Lemma full_owned c : data_buffers_full c = owned c 0 && owned c 1.
Proof.
  rewrite !owned_bit by (unfold is_buffer; auto). unfold data_buffers_full.
  change (Z.lor CIAP_BMAN_DATA0 CIAP_BMAN_DATA1) with 12. set (x := read_word c CIAP_BMAN).
  change (2 + 0) with 2. change (2 + 1) with 3.
  destruct (Z.eqb_spec (Z.land x 12) 12) as [E|E].
  - pose proof (f_equal (fun y => Z.testbit y 2) E) as E2.
    pose proof (f_equal (fun y => Z.testbit y 3) E) as E3. cbv beta in E2, E3.
    rewrite Z.land_spec, andb_true_r in E2, E3. by rewrite E2, E3.
  - destruct (Z.testbit x 2) eqn:E2, (Z.testbit x 3) eqn:E3; try done. exfalso. apply E.
    apply (word_ext 4); [word|word|]. intros i Hi. rewrite Z.land_spec. revert i Hi.
    each_bit; first [apply andb_false_r | exact (f_equal (fun b => b && true) E2)
      | exact (f_equal (fun b => b && true) E3)].
Qed.

Lemma fill_free c :
  is_buffer (next_data_buffer c) -> data_buffers_full c = false ->
  is_buffer (fill_buffer c) /\ owned c (fill_buffer c) = false.
Proof.
  intros Hn Hf. rewrite full_owned in Hf. unfold fill_buffer.
  fold (data_bit (next_data_buffer c)). fold (owned c (next_data_buffer c)).
  unfold is_buffer. destruct Hn as [-> | ->]; cbn;
    destruct (owned c 0) eqn:E0, (owned c 1) eqn:E1; cbn; auto; done.
Qed.

(** The bytes a delivery puts in its buffer. *)
Definition payload (sector : list Z) (header_only : bool) : list Z :=
  if header_only then take 12 sector ++ replicate 2328 0 else sector.

Definition payload_memory (m : mem) (offset : Z) (sector : list Z) (header_only : bool) : mem :=
  if header_only
  then mfill (mstore m offset (take 12 sector)) (offset + 12) (2340 - 12)%nat 0
  else mstore m offset sector.

Lemma nth_zeros n i : nth i (replicate n 0) 0 = 0.
Proof. revert i. induction n as [|n IH]; intros [|i]; cbn; auto. Qed.

Lemma mget_payload m offset sector header_only a :
  length sector = 2340%nat ->
  mget (payload_memory m offset sector header_only) a =
  if (offset <=? a) && (a <? offset + 2340)
  then nth (Z.to_nat (a - offset)) (payload sector header_only) 0 else mget m a.
Proof.
  intros Hl. unfold payload_memory, payload. destruct header_only; [|by rewrite mget_mstore, Hl].
  assert (length (take 12 sector) = 12%nat) as Ht by (rewrite length_take; lia).
  rewrite mget_mfill, mget_mstore, Ht.
  destruct (Z.leb_spec (offset + 12) a), (Z.ltb_spec a (offset + 12 + Z.of_nat (2340 - 12))),
    (Z.leb_spec offset a), (Z.ltb_spec a (offset + Z.of_nat 12)), (Z.ltb_spec a (offset + 2340));
    cbn [andb]; try lia; try done.
  - rewrite app_nth2 by (rewrite Ht; lia). by rewrite nth_zeros.
  - by rewrite app_nth1 by (rewrite Ht; lia).
Qed.

Lemma buffers_apart b b' a : is_buffer b -> is_buffer b' -> b <> b' -> in_buffer b a -> ~ in_buffer b' a.
Proof.
  unfold in_buffer, data_offset. intros [-> | ->] [-> | ->] Hne Ha Hb; try done;
    revert Ha Hb; cbn; unfold CIAP_DATA0, CIAP_DATA1, CIAP_SECTOR_BYTES; lia.
Qed.

Lemma in_buffer_areas b a :
  is_buffer b -> in_buffer b a -> event_area a /\ locator_area a /\ a <> CIAP_BMAN /\
  a <> CIAP_BMAN + 1.
Proof.
  unfold in_buffer, data_offset, locator_area, event_area. intros [-> | ->] Ha; revert Ha; cbn;
    unfold CIAP_DATA0, CIAP_DATA1, CIAP_SECTOR_BYTES, CIAP_ISR, CIAP_BMAN, CIAP_QBUF0, CIAP_QBUF1;
    lia.
Qed.

(** A delivery fills exactly its buffer and hands it over. *)
Lemma deliver_payload_spec sector header_only c :
  length sector = 2340%nat -> is_buffer (fill_buffer c) ->
  let b := fill_buffer c in
  let c' := deliver_payload sector header_only c in
  (forall a, in_buffer b a ->
     mget (memory c') a = nth (Z.to_nat (a - data_offset b)) (payload sector header_only) 0) /\
  (forall a, ~ in_buffer b a -> event_area a -> a <> CIAP_BMAN -> a <> CIAP_BMAN + 1 ->
     mget (memory c') a = mget (memory c) a) /\
  read_word c' CIAP_BMAN = u16 (Z.lor (read_word c CIAP_BMAN) (data_bit b)) /\
  Z.testbit (read_word c' CIAP_ISR) 0 = true /\
  next_data_buffer c' = Z.lxor b 1 /\ drive_lba c' = drive_lba c /\
  data_deliveries c' = u64 (data_deliveries c + 1).
Proof.
  intros Hl Hb b c'. subst c' b. unfold deliver_payload. cbv zeta.
  fold (data_offset (fill_buffer c)) (data_bit (fill_buffer c)).
  set (b := fill_buffer c) in *.
  change (if header_only
    then mfill (mstore (memory c) (data_offset b) (take 12 sector)) (data_offset b + 12) (2340 - 12)%nat 0
    else mstore (memory c) (data_offset b) sector)
    with (payload_memory (memory c) (data_offset b) sector header_only).
  set (m := payload_memory _ _ _ _).
  assert (forall a, mget m a = if (data_offset b <=? a) && (a <? data_offset b + 2340)
    then nth (Z.to_nat (a - data_offset b)) (payload sector header_only) 0
    else mget (memory c) a) as Hm by (intros; by apply mget_payload).
  assert (forall a, in_buffer b a -> mget m a =
    nth (Z.to_nat (a - data_offset b)) (payload sector header_only) 0) as Hin.
  { intros a Ha. rewrite Hm. unfold in_buffer, CIAP_SECTOR_BYTES in Ha.
    destruct (Z.leb_spec (data_offset b) a), (Z.ltb_spec a (data_offset b + 2340)); lia || done. }
  assert (forall a, ~ in_buffer b a -> mget m a = mget (memory c) a) as Hout.
  { intros a Ha. rewrite Hm. unfold in_buffer, CIAP_SECTOR_BYTES in Ha.
    destruct (Z.leb_spec (data_offset b) a), (Z.ltb_spec a (data_offset b + 2340)); lia || done. }
  clearbody m. split; [|split; [|split; [|split]]].
  - intros a Ha. destruct (in_buffer_areas b a Hb Ha) as ((He1 & He2) & _ & Hb1 & Hb2).
    rewrite mget_edit_word by done. cbn [memory set_next_data_buffer].
    rewrite mget_edit_word by done. apply Hin, Ha.
  - intros a Ha (He1 & He2) Hb1 Hb2. rewrite mget_edit_word by done.
    cbn [memory set_next_data_buffer]. rewrite mget_edit_word by done. apply Hout, Ha.
  - words. unfold read_word. cbn [memory set_next_data_buffer]. fold (read_word (edit_word CIAP_BMAN
      (fun b0 => Z.lor b0 (data_bit b)) (set_data_deliveries (u64 (data_deliveries
        (set_memory m c) + 1)) (set_memory m c))) CIAP_BMAN).
    words. f_equal. f_equal. unfold read_word. cbn [memory set_data_deliveries set_memory].
    rewrite !Hout; [done|..]; destruct Hb as [-> | ->]; unfold in_buffer, data_offset; cbn;
      unfold CIAP_BMAN, CIAP_DATA0, CIAP_DATA1, CIAP_SECTOR_BYTES; lia.
  - words. rewrite u16_testbit, Z.lor_spec by lia. apply orb_true_r.
  - done.
Qed.

(** Header bookkeeping, events and the locator: what comes before the payload. *)
Definition marked (lba : Z) (sector : list Z) (w : CiapWorld A M) : CiapWorld A M :=
  upd (fun c =>
    let c := set_last_coding (lget sector 7) (set_last_submode (lget sector 6)
      (set_last_channel (lget sector 5) (set_last_file (lget sector 4) (set_last_lba lba c)))) in
    set_last_selected (sector_selected c sector) c) w.
Definition announce (lba : Z) (sector : list Z) (w : CiapWorld A M) : CiapWorld A M :=
  report_locator lba
    (stream_events sector (upd (set_selection_header_pending false) (marked lba sector w))).

Lemma announce_spec lba sector w :
  stays locator_area w (announce lba sector w) /\
  (forall b, is_buffer b -> owned (ciap (announce lba sector w)) b = owned (ciap w) b) /\
  last_selected (ciap (announce lba sector w)) = sector_selected (ciap w) sector /\
  next_data_buffer (ciap (announce lba sector w)) = next_data_buffer (ciap w) /\
  drive_lba (ciap (announce lba sector w)) = drive_lba (ciap w) /\
  data_deliveries (ciap (announce lba sector w)) = data_deliveries (ciap w).
Proof.
  unfold announce, marked. cbv zeta.
  set (w0 := upd (set_selection_header_pending false) _).
  destruct (events_frame sector w0) as [He Hde].
  destruct (locator_frame lba (stream_events sector w0)) as [Hl Hdl].
  split; [|split; [|destruct Hde as [-> En Ed Er Ee Edd] || destruct Hde]].
  - eapply stays_trans; [|apply Hl]. eapply stays_trans.
    + apply (stays_upd _ (fun c => ciap w0)). done.
    + destruct He as [B I Mm]. split; [intros a Ha; apply B, Ha|done|done].
  - intros b Hb. by rewrite locator_owned, events_owned.
  - destruct Hdl. rewrite same_selected1, same_next1, same_lba1, same_deliveries1, same_selected0,
      same_next0, same_lba0, same_deliveries0. done.
Qed.

Lemma deliver_body_eq lba sector w :
  deliver_sector_body lba sector w =
  let w2 := announce lba sector w in
  let metadata := metadata_only (ciap w2) sector (selection_header_pending (ciap (marked lba sector w))) in
  if negb (last_selected (ciap w2)) && negb metadata then upd step_drive w2 else
  let audio := direct_audio (ciap w2) sector in
  let w3 := upd step_drive (if audio then upd_audio (audio_decode_sector sector) w2 else w2) in
  if data_buffers_full (ciap w3)
  then upd (fun c => set_held_ticks (u64 (held_ticks c + 1)) c) w3
  else assert_interrupt_line (upd (deliver_payload sector (audio || metadata)) w3).
Proof. reflexivity. Qed.
End Spec.

(** What the medium promises: a sector body has 2340 bytes. *)
Class MediaLaws (M : Type) `{MediaOps M} : Prop := {
  media_body : forall lba m s, media_read_sector_body lba m = Some s ->
    length s = 2340%nat /\ Forall is_u8 s;
}.

Section Delivery.
Context {A M : Type} `{AudioOps A} `{MediaLaws M}.
Implicit Types w : CiapWorld A M.

(** C31. A sector that arrives while the host owns a buffer leaves every byte of
    that buffer, and the host's claim to it, as they are. *)
Theorem owned_buffer_intact b w :
  is_buffer b -> is_buffer (next_data_buffer (ciap w)) -> owned (ciap w) b = true ->
  let w' := deliver_one_sector w in
  owned (ciap w') b = true /\
  forall a, in_buffer b a -> mget (memory (ciap w')) a = mget (memory (ciap w)) a.
Proof.
  intros Hb Hn Ho. unfold deliver_one_sector.
  destruct (_ || _); [done|].
  destruct (media_read_sector_body _ _) as [sector|] eqn:Hs; [|done].
  destruct (media_body _ _ _ Hs) as [Hlen _]. clear Hs.
  rewrite deliver_body_eq. cbv zeta. set (lba := drive_lba (ciap w)).
  destruct (announce_spec lba sector w) as (Hst & How & Hsel & Hnext & _ & _).
  set (w2 := announce lba sector w) in *.
  assert (owned (ciap w2) b = true /\
    forall a, in_buffer b a -> mget (memory (ciap w2)) a = mget (memory (ciap w)) a) as [Ho2 Hm2].
  { split; [by rewrite How|]. intros a Ha. apply Hst. by apply (in_buffer_areas b). }
  destruct (negb _ && negb _); [done|].
  set (w3 := upd step_drive _).
  assert (memory (ciap w3) = memory (ciap w2) /\
    next_data_buffer (ciap w3) = next_data_buffer (ciap w2)) as [Em En]
    by (subst w3; by destruct (direct_audio _ _)).
  assert (owned (ciap w3) b = true) as Ho3
    by (unfold owned; rewrite (read_word_memory _ (ciap w2)) by done; exact Ho2).
  destruct (data_buffers_full (ciap w3)) eqn:Hf.
  - split; [exact Ho3|]. intros a Ha. change (mget (memory (ciap w3)) a = mget (memory (ciap w)) a).
    rewrite Em. by apply Hm2.
  - rewrite assert_line_ciap. cbn [ciap upd].
    destruct (fill_free (ciap w3)) as [Hfb Hfo]; [by rewrite En, Hnext|done|].
    destruct (deliver_payload_spec sector (direct_audio (ciap w2) sector ||
      metadata_only (ciap w2) sector (selection_header_pending (ciap (marked lba sector w)))) (ciap w3) Hlen Hfb)
      as (_ & Hout & Hbm & _).
    assert (b <> fill_buffer (ciap w3)) as Hne by (intros ->; congruence).
    split.
    + rewrite owned_bit in * by done. rewrite Hbm, u16_testbit, Z.lor_spec, Ho3 by (destruct Hb; lia).
      by destruct Hb as [-> | ->].
    + intros a Ha. destruct (in_buffer_areas b a Hb Ha) as (He & _ & Hb1 & Hb2).
      rewrite Hout; [rewrite Em; by apply Hm2|by apply (buffers_apart b)|done|done|done].
Qed.

(** A selected sector that finds a free buffer is handed to the host whole:
    its bytes, the ownership bit, the data event and the drive position. *)
Theorem free_buffer_filled sector w :
  drive_positioned (ciap w) = true -> media_present (cw_media w) = true ->
  media_read_sector_body (drive_lba (ciap w)) (cw_media w) = Some sector ->
  sector_selected (ciap w) sector = true -> is_buffer (next_data_buffer (ciap w)) ->
  data_buffers_full (ciap w) = false ->
  exists b header_only, let w' := deliver_one_sector w in
  is_buffer b /\ owned (ciap w) b = false /\ owned (ciap w') b = true /\
  mload (memory (ciap w')) (data_offset b) 2340 = payload sector header_only /\
  Z.testbit (read_word (ciap w') CIAP_ISR) 0 = true /\
  next_data_buffer (ciap w') = Z.lxor b 1 /\
  drive_lba (ciap w') = u32 (drive_lba (ciap w) + 1) /\
  data_deliveries (ciap w') = u64 (data_deliveries (ciap w) + 1).
Proof.
  intros Hp Hm Hs Hsel Hn Hf. destruct (media_body _ _ _ Hs) as [Hlen _].
  unfold deliver_one_sector. rewrite Hp, Hm, Hs. cbn [negb orb]. rewrite deliver_body_eq. cbv zeta.
  set (lba := drive_lba (ciap w)).
  destruct (announce_spec lba sector w) as (Hst & How & Hsel2 & Hnext & Hlba & Hdel).
  set (w2 := announce lba sector w) in *. rewrite Hsel2, Hsel. cbn [negb andb].
  set (w3 := upd step_drive _).
  assert (memory (ciap w3) = memory (ciap w2) /\ next_data_buffer (ciap w3) = next_data_buffer (ciap w2)
    /\ drive_lba (ciap w3) = u32 (drive_lba (ciap w2) + 1) /\
    data_deliveries (ciap w3) = data_deliveries (ciap w2)) as (Em & En & El & Ed)
    by (subst w3; by destruct (direct_audio _ _)).
  assert (forall b, owned (ciap w3) b = owned (ciap w2) b) as Ho3
    by (intros; unfold owned; by rewrite (read_word_memory _ (ciap w2))).
  assert (data_buffers_full (ciap w3) = false) as Hf3.
  { rewrite full_owned in *. rewrite !Ho3, !How by (unfold is_buffer; auto). done. }
  rewrite Hf3, assert_line_ciap. cbn [ciap upd].
  destruct (fill_free (ciap w3)) as [Hfb Hfo]; [by rewrite En, Hnext|done|].
  set (ho := direct_audio (ciap w2) sector || _).
  destruct (deliver_payload_spec sector ho (ciap w3) Hlen Hfb)
    as (Hin & _ & Hbm & Hisr & Hnx & Hdl & Hdd).
  exists (fill_buffer (ciap w3)), ho. split; [done|]. split; [by rewrite <- How, <- Ho3|].
  split; [|split; [|split; [done|split; [done|split]]]].
  - rewrite owned_bit by done. rewrite Hbm, u16_testbit, Z.lor_spec by (destruct Hfb; lia).
    assert (Z.testbit (data_bit (fill_buffer (ciap w3))) (2 + fill_buffer (ciap w3)) = true) as ->
      by (by destruct Hfb as [-> | ->]).
    rewrite orb_true_r, andb_true_r. by destruct Hfb as [-> | ->].
  - apply nth_ext with (d := 0) (d' := 0).
    + rewrite length_mload. unfold payload. destruct ho; [|done].
      rewrite length_app, length_take, length_replicate. lia.
    + rewrite length_mload. intros i Hi. rewrite <- (Nat2Z.id i), nth_mload by lia.
      rewrite Hin by (unfold in_buffer, CIAP_SECTOR_BYTES; lia). f_equal. lia.
  - by rewrite Hdl, El, Hlba.
  - by rewrite Hdd, Ed, Hdel.
Qed.
End Delivery.

(** * A disc and a decoder to run the device on

    Every sector is a Mode-2 data sector of file 1, channel 0, whose payload
    repeats the low byte of its address; the decoder logs the codings. *)
Definition sample_body (lba : Z) : list Z :=
  [0; 0; 0; 2; 1; 0; 8; 0; 1; 0; 8; 0] ++ replicate 2328 (u8 lba).

#[export] Instance logging_audio : AudioOps (list Z) := {|
  audio_reset _ := [];
  audio_decode_groups _ coding log := (4032, log ++ [coding]);
  audio_decode_sector _ log := log |}.
#[export] Instance endless_disc : MediaOps unit := {|
  media_present _ := true;
  media_generation _ := 1;
  media_read_sector_body lba _ := Some (sample_body lba) |}.
#[export] Instance endless_disc_laws : MediaLaws unit.
Proof.
  split. intros lba m s [= <-]. split; [reflexivity|]. unfold sample_body.
  apply Forall_app. split; [repeat (constructor; [word|]); constructor|].
  apply Forall_replicate, u8_range.
Qed.

(** A drive reading at LBA 7 whose host owns buffer 0. *)
Definition sample_device : CiapDevice :=
  set_drive_lba 7 (set_drive_positioned true (set_data_running true
    (set_initialized true (store_word CIAP_BMAN CIAP_BMAN_DATA0 zeroed_ciap)))).
Definition sample_world : CiapWorld (list Z) unit :=
  mkCW sample_device (mkJob 0 0 false 0 0 0) irq_reset [] tt.

Lemma owned_buffer_intact_witness :
  owned (ciap (deliver_one_sector sample_world)) 0 = true /\
  mget (memory (ciap (deliver_one_sector sample_world))) CIAP_DATA0 = 0.
Proof.
  destruct (owned_buffer_intact 0 sample_world) as [Ho Hm];
    [by left|by left|reflexivity|].
  split; [exact Ho|]. apply (Hm CIAP_DATA0). vm_compute. split; [discriminate|reflexivity].
Defined.

Lemma free_buffer_filled_witness :
  exists b header_only, let w' := deliver_one_sector sample_world in
  owned (ciap sample_world) b = false /\
  mload (memory (ciap w')) (data_offset b) 2340 = payload (sample_body 7) header_only /\
  drive_lba (ciap w') = 8.
Proof.
  destruct (free_buffer_filled (sample_body 7) sample_world)
    as (b & ho & Hb & Ho & _ & Hm & _ & _ & Hl & _);
    [reflexivity|reflexivity|reflexivity|reflexivity|by left|reflexivity|].
  exists b, ho. split; [exact Ho|]. split; [exact Hm|exact Hl].
Defined.
