(* ===== verification/CiapTime.v ===== *)
(** The time of the CIAP: the audio consumer ends, a step before the next event
    can be split off, and the deferred build is the faithful one. *)

From Stdlib Require Import ZArith Lia Bool SpecFloat.
From stdpp Require Import base tactics numbers list gmap.
From S2P Require Import Prelude Double Irq Ciap CiapSpec.
Open Scope Z_scope.

Section Time.
Context {A M : Type} `{AudioOps A} `{MediaOps M}.
Implicit Types w : CiapWorld A M.

(** * The audio consumer *)
Definition audio_bit (c : CiapDevice) (b : Z) : bool := Z.testbit (read_word c CIAP_BMAN) b.

Lemma pow_bit_test x b : is_buffer b -> z2b (Z.land x (pow_bit b)) = Z.testbit x b.
Proof. intros [-> | ->]; unfold pow_bit; [apply (testbit_land_pow2 x 0)|apply (testbit_land_pow2 x 1)]; lia. Qed.

Lemma select_buffer_ok c :
  is_buffer (audio_buffer c) ->
  is_buffer (audio_buffer (select_audio_buffer c)) /\
  memory (select_audio_buffer c) = memory c /\
  audio_active (select_audio_buffer c) = audio_active c.
Proof.
  intros Hb. unfold select_audio_buffer. destruct (_ && _); [|done]. cbn. split; [|done].
  destruct (z2b _); [done|]. unfold is_buffer. destruct Hb as [-> | ->]; auto.
Qed.

Lemma start_playing_bman frames c :
  read_word (start_playing frames c) CIAP_BMAN = read_word c CIAP_BMAN.
Proof. unfold start_playing. cbv zeta. by words. Qed.

Lemma release_bman c :
  read_word (release_buffer c) CIAP_BMAN =
  u16 (Z.ldiff (read_word c CIAP_BMAN) (pow_bit (audio_buffer c))).
Proof.
  unfold release_buffer. cbv zeta. words.
  rewrite (read_word_memory _ (edit_word CIAP_BMAN (fun b => Z.ldiff b (pow_bit (audio_buffer c))) c))
    by reflexivity.
  apply read_edit_eq.
Qed.

Lemma idle_audio_spec c :
  read_word (idle_audio c) CIAP_BMAN = read_word c CIAP_BMAN /\
  audio_active (idle_audio c) = audio_active c /\ audio_buffer (idle_audio c) = audio_buffer c.
Proof.
  unfold idle_audio. cbv zeta. set (c1 := edit_word _ _ _).
  assert (read_word c1 CIAP_BMAN = read_word c CIAP_BMAN) as E by (subst c1; by words).
  assert (audio_active c1 = audio_active c /\ audio_buffer c1 = audio_buffer c) as [E1 E2] by done.
  clearbody c1. destruct (audio_finish_requested c1); [|done].
  split; [|done]. rewrite <- E. by apply read_word_memory.
Qed.

(** A buffer starts only when the host has handed it over. *)
Lemma start_active w :
  is_buffer (audio_buffer (ciap w)) -> audio_active (ciap w) = false ->
  let w' := start_audio_buffer w in
  is_buffer (audio_buffer (ciap w')) /\
  (forall b, is_buffer b -> audio_bit (ciap w') b = audio_bit (ciap w) b) /\
  (audio_active (ciap w') = true -> audio_bit (ciap w) (audio_buffer (ciap w')) = true).
Proof.
  intros Hb Ha. unfold start_audio_buffer. cbv zeta. cbn [ciap upd].
  destruct (select_buffer_ok (ciap w) Hb) as (Hb' & Hm & Ha').
  set (c := select_audio_buffer (ciap w)) in *.
  assert (forall b, audio_bit c b = audio_bit (ciap w) b) as Hbits
    by (intros; unfold audio_bit; by rewrite (read_word_memory c (ciap w))).
  destruct (negb (audio_playing c) || audio_active c || _) eqn:Hc.
  - cbn [ciap upd]. fold c. rewrite Ha', Ha. split; [done|]. split; [auto|done].
  - apply orb_false_iff in Hc as [_ Hc%negb_false_iff]. rewrite pow_bit_test in Hc by done.
    destruct (audio_decode_groups _ _ _) as [frames a]. cbn [ciap upd upd_audio]. fold c.
    clearbody c. split; [exact Hb'|]. split.
    + intros b Hbb. rewrite <- Hbits. unfold audio_bit. by rewrite start_playing_bman.
    + intros _. rewrite <- Hbits. exact Hc.
Qed.

Lemma consume_spec w :
  is_buffer (audio_buffer (ciap w)) ->
  let b := audio_buffer (ciap w) in
  let w' := consume_audio_buffer w in
  is_buffer (audio_buffer (ciap w')) /\
  (forall i, is_buffer i -> audio_bit (ciap w') i = negb (i =? b) && audio_bit (ciap w) i) /\
  (audio_active (ciap w') = true ->
   audio_buffer (ciap w') <> b /\ audio_bit (ciap w) (audio_buffer (ciap w')) = true).
Proof.
  intros Hb b. unfold consume_audio_buffer. cbv zeta.
  set (w1 := assert_interrupt_line _).
  assert (ciap w1 = release_buffer (ciap w)) as E1 by apply assert_line_ciap.
  clearbody w1.
  assert (is_buffer (audio_buffer (ciap w1))) as Hb1.
  { rewrite E1. unfold is_buffer in *. cbn. destruct Hb as [-> | ->]; auto. }
  assert (forall i, is_buffer i -> audio_bit (ciap w1) i = negb (i =? b) && audio_bit (ciap w) i) as Hi1.
  { intros i Hi. unfold audio_bit. rewrite E1, release_bman. fold b.
    rewrite u16_testbit, Z.ldiff_spec by (destruct Hi; lia).
    unfold pow_bit. rewrite Z.shiftl_1_l, testbit_pow2 by (subst b; destruct Hb as [-> | ->]; lia).
    destruct (Z.ltb_spec i 16); [|destruct Hi; lia]. rewrite andb_true_l. apply andb_comm. }
  assert (audio_active (ciap w1) = false) as Ha1 by (by rewrite E1).
  destruct (start_active w1 Hb1 Ha1) as (Hb2 & Hi2 & Hact).
  set (w2 := start_audio_buffer w1) in *. clearbody w2.
  destruct (audio_active (ciap w2)) eqn:Ha2; cbn [negb].
  - split; [done|]. split; [intros i Hi; by rewrite Hi2, Hi1|]. intros _.
    specialize (Hact eq_refl). rewrite Hi1 in Hact by done.
    apply andb_true_iff in Hact as [Hne%negb_true_iff Hbit]. apply Z.eqb_neq in Hne. done.
  - cbn [ciap upd]. destruct (idle_audio_spec (ciap w2)) as (Er & Ea & Eb).
    rewrite Eb, Ea, Ha2. split; [done|]. split; [|done].
    intros i Hi. unfold audio_bit at 1. rewrite Er. fold (audio_bit (ciap w2) i).
    by rewrite Hi2, Hi1.
Qed.

(** Two rounds leave no buffer to play. *)
Lemma two_rounds w :
  is_buffer (audio_buffer (ciap w)) ->
  audio_active (ciap (consume_audio_buffer w)) = true ->
  audio_active (ciap (consume_audio_buffer (consume_audio_buffer w))) = false.
Proof.
  intros Hb Hact1. destruct (consume_spec w Hb) as (Hb1 & Hi1 & Ha1).
  destruct (Ha1 Hact1) as [Hne1 _].
  set (w1 := consume_audio_buffer w) in *. destruct (consume_spec w1 Hb1) as (Hb2 & Hi2 & Ha2).
  apply not_true_is_false. intros Hact. destruct (Ha2 Hact) as [Hne Hbit].
  rewrite Hi1 in Hbit by done. apply andb_true_iff in Hbit as [Hn%negb_true_iff _].
  apply Z.eqb_neq in Hn. unfold is_buffer in *. lia.
Qed.

Definition audio_running (step : Z) (w : CiapWorld A M) : bool :=
  audio_active (ciap w) && (audio_remaining_ns (ciap w) <=? step).

Lemma audio_loop_ends step w fuel :
  is_buffer (audio_buffer (ciap w)) ->
  audio_running (fst (audio_loop 2 step w)) (snd (audio_loop 2 step w)) = false /\
  audio_loop (2 + fuel) step w = audio_loop 2 step w.
Proof.
  intros Hb. unfold audio_running. cbn [audio_loop Nat.add].
  destruct (audio_active (ciap w) && (audio_remaining_ns (ciap w) <=? step)) eqn:E1; [|by cbn; rewrite E1].
  set (s1 := step - _). pose proof (two_rounds w Hb) as H2. set (w1 := consume_audio_buffer w) in *.
  destruct (audio_active (ciap w1) && (audio_remaining_ns (ciap w1) <=? s1)) eqn:E2; [|by cbn; rewrite E2].
  apply andb_true_iff in E2 as [Ea _]. specialize (H2 Ea).
  set (w2 := consume_audio_buffer w1) in *. cbn [fst snd]. rewrite H2. split; [done|].
  destruct fuel; cbn [audio_loop]; [done|]. by rewrite H2.
Qed.

Lemma audio_consumer_ends step w :
  is_buffer (audio_buffer (ciap w)) ->
  let '(rest, w') := audio_loop AUDIO_FUEL step w in audio_running rest w' = false.
Proof.
  intros Hb. destruct (audio_loop_ends step w 0 Hb) as [He _]. unfold AUDIO_FUEL.
  by destruct (audio_loop 2 step w).
Qed.

(** The audio consumer's loop ends after at most two buffers, whatever they
    hold: its condition is false when it is left, and more rounds change nothing. *)
Theorem audio_consumer_terminates step w fuel :
  is_buffer (audio_buffer (ciap w)) -> (AUDIO_FUEL <= fuel)%nat ->
  let '(rest, w') := audio_loop AUDIO_FUEL step w in
  audio_running rest w' = false /\ audio_loop fuel step w = (rest, w').
Proof.
  intros Hb Hf. replace fuel with (2 + (fuel - 2))%nat by (unfold AUDIO_FUEL in Hf; lia).
  destruct (audio_loop_ends step w (fuel - 2) Hb) as [He Hm]. unfold AUDIO_FUEL. rewrite Hm.
  by destruct (audio_loop 2 step w).
Qed.

(** * Splitting a step *)
Lemma store_store a v x c : store_word a v (store_word a x c) = store_word a v c.
Proof.
  unfold store_word. cbn [memory set_memory]. unfold set_memory. cbn. f_equal.
  rewrite (mset_comm _ (a + 1) a) by lia. by rewrite mset_mset, mset_mset.
Qed.

Lemma store_comm a b v x c :
  a + 1 < b \/ b + 1 < a -> store_word a v (store_word b x c) = store_word b x (store_word a v c).
Proof.
  intros Hab. unfold store_word. cbn [memory set_memory]. unfold set_memory. cbn. f_equal.
  rewrite (mset_comm _ (b + 1) a), (mset_comm _ b a) by lia.
  by rewrite (mset_comm _ (b + 1) (a + 1)), (mset_comm _ b (a + 1)) by lia.
Qed.

Lemma edit_store a b f x c :
  a + 1 < b \/ b + 1 < a -> edit_word a f (store_word b x c) = store_word b x (edit_word a f c).
Proof. intros Hab. unfold edit_word. rewrite read_store_ne by lia. by apply store_comm. Qed.

(** Elapsed drive time, when the drive runs. *)
Definition drive_elapsed (a : Z) (c : CiapDevice) : CiapDevice :=
  if data_running c then add_elapsed a c else c.
Definition audio_elapsed (a : Z) (c : CiapDevice) : CiapDevice :=
  if audio_active c then play_on a c else c.
Definition ap_elapsed (a : Z) (c : CiapDevice) : CiapDevice :=
  if ap_completion_pending c
  then set_ap_completion_delay_ns (ap_completion_delay_ns c - a) c else c.

(** [f] neither reads nor moves the drive's clock. *)
Definition clockless (f : CiapDevice -> CiapDevice) : Prop :=
  forall a c, f (drive_elapsed a c) = drive_elapsed a (f c).

Lemma clockless_if f :
  (forall v c, f (set_sector_elapsed_ns v c) = set_sector_elapsed_ns v (f c)) ->
  (forall c, data_running (f c) = data_running c) ->
  (forall c, sector_elapsed_ns (f c) = sector_elapsed_ns c) -> clockless f.
Proof.
  intros Hs Hr He a c. unfold drive_elapsed, add_elapsed. rewrite Hr, He.
  destruct (data_running c); [apply Hs|done].
Qed.

Lemma clockless_store o v : clockless (store_word o v).
Proof. by apply clockless_if. Qed.
Lemma clockless_edit o f : clockless (edit_word o f).
Proof. by apply clockless_if. Qed.
Lemma clockless_comp f g : clockless f -> clockless g -> clockless (fun c => g (f c)).
Proof. intros Hf Hg a c. by rewrite Hf, Hg. Qed.
Lemma clockless_complete : clockless complete_ap.
Proof. by apply clockless_if. Qed.
Lemma clockless_release : clockless release_buffer.
Proof. by apply clockless_if. Qed.
Lemma clockless_play s : clockless (play_on s).
Proof. by apply clockless_if. Qed.
Lemma clockless_start frames : clockless (start_playing frames).
Proof. by apply clockless_if. Qed.
Lemma clockless_delay d : clockless (set_ap_completion_delay_ns d).
Proof. by apply clockless_if. Qed.
Lemma clockless_idle : clockless idle_audio.
Proof.
  assert (forall c, idle_audio c =
    let c1 := edit_word CIAP_ASTAT (fun s => Z.ldiff s 0x0040) c in
    if audio_finish_requested c
    then request_ap_completion (set_audio_finish_requested false (set_audio_playing false c1))
    else c1) as E by done.
  apply clockless_if; intros; rewrite !E; cbv zeta.
  - change (audio_finish_requested (set_sector_elapsed_ns v c)) with (audio_finish_requested c).
    by destruct (audio_finish_requested c).
  - by destruct (audio_finish_requested c).
  - by destruct (audio_finish_requested c).
Qed.
Lemma clockless_select : clockless select_audio_buffer.
Proof.
  apply clockless_if; intros; unfold select_audio_buffer.
  - change (audio_select_pending (set_sector_elapsed_ns v c)) with (audio_select_pending c).
    change (read_word (set_sector_elapsed_ns v c)) with (read_word c).
    by destruct (_ && _).
  - by destruct (_ && _).
  - by destruct (_ && _).
Qed.

Lemma upd_upd f g w : upd f (upd g w) = upd (fun c => f (g c)) w.
Proof. done. Qed.
Lemma upd_ext f g w : f (ciap w) = g (ciap w) -> upd f w = upd g w.
Proof. intros E. unfold upd. by rewrite E. Qed.

(** The words the interrupt line looks at. *)
Definition line_words (f : CiapDevice -> CiapDevice) : Prop :=
  forall c, read_word (f c) CIAP_IER = read_word c CIAP_IER /\
    read_word (f c) CIAP_ISR = read_word c CIAP_ISR /\
    read_word (f c) CIAP_ICR = read_word c CIAP_ICR.

Lemma assert_upd f w :
  line_words f -> assert_interrupt_line (upd f w) = upd f (assert_interrupt_line w).
Proof.
  intros Hf. destruct (Hf (ciap w)) as (E1 & E2 & E3).
  unfold assert_interrupt_line, interrupt_level, interrupt_vector. cbn [ciap upd].
  rewrite E1, E2, E3. by destruct (_ && _).
Qed.

Lemma drive_elapsed_memory a c : memory (drive_elapsed a c) = memory c.
Proof. unfold drive_elapsed. by destruct (data_running c). Qed.
Lemma line_words_drive a : line_words (drive_elapsed a).
Proof.
  intros c. split_and!; apply read_word_memory, drive_elapsed_memory.
Qed.
Lemma line_words_audio a : line_words (audio_elapsed a).
Proof.
  intros c. unfold audio_elapsed. destruct (audio_active c); [|done].
  unfold play_on. cbv zeta. split_and!; by words.
Qed.

(** ** The audio-processor delay *)
Lemma audio_elapsed_complete a c :
  complete_ap (audio_elapsed a c) = audio_elapsed a (complete_ap c).
Proof.
  unfold audio_elapsed. change (audio_active (complete_ap c)) with (audio_active c).
  destruct (audio_active c); [|done]. unfold complete_ap, play_on. cbv zeta.
  set (p := u16 _). set (d := set_audio_remaining_ns _ c).
  change (set_ap_completion_delay_ns 0 (set_ap_completion_pending false
    (store_word CIAP_AP_POINTER p d))) with (store_word CIAP_AP_POINTER p
    (set_ap_completion_delay_ns 0 (set_ap_completion_pending false d))).
  by rewrite !edit_store by off.
Qed.

Lemma audio_elapsed_delay a d c :
  set_ap_completion_delay_ns d (audio_elapsed a c) = audio_elapsed a (set_ap_completion_delay_ns d c).
Proof.
  unfold audio_elapsed. change (audio_active (set_ap_completion_delay_ns d c)) with (audio_active c).
  by destruct (audio_active c).
Qed.

Lemma ap_split a b w :
  (ap_completion_pending (ciap w) = true -> a < ap_completion_delay_ns (ciap w)) ->
  advance_ap b (upd (fun c => drive_elapsed a (audio_elapsed a (ap_elapsed a c))) w) =
  upd (fun c => drive_elapsed a (audio_elapsed a c)) (advance_ap (a + b) w).
Proof.
  intros Ha. unfold advance_ap. cbn [ciap upd]. set (c := ciap w) in *.
  assert (ap_completion_pending (drive_elapsed a (audio_elapsed a (ap_elapsed a c))) =
    ap_completion_pending c) as ->.
  { unfold drive_elapsed, audio_elapsed, ap_elapsed.
    destruct (ap_completion_pending c) eqn:E, (audio_active _), (data_running _); exact E. }
  assert (ap_completion_pending c = true ->
    ap_completion_delay_ns (drive_elapsed a (audio_elapsed a (ap_elapsed a c))) =
    ap_completion_delay_ns c - a) as Hd.
  { intros E. unfold drive_elapsed, audio_elapsed, ap_elapsed. rewrite E.
    by destruct (audio_active _), (data_running _). }
  assert (ap_completion_pending c = false -> ap_elapsed a c = c) as Hid
    by (unfold ap_elapsed; by intros ->).
  destruct (ap_completion_pending c) eqn:Ep.
  - rewrite Hd by done. specialize (Ha eq_refl).
    destruct (Z.leb_spec (ap_completion_delay_ns c - a) b), (Z.leb_spec (ap_completion_delay_ns c) (a + b));
      try lia.
    + rewrite <- assert_upd.
      2: { intros d. destruct (line_words_drive a (audio_elapsed a d)) as (-> & -> & ->).
        apply line_words_audio. }
      f_equal. rewrite !upd_upd. apply upd_ext. fold c.
      rewrite clockless_complete, audio_elapsed_complete. do 2 f_equal.
      unfold ap_elapsed. by rewrite Ep.
    + rewrite !upd_upd. apply upd_ext. fold c.
      rewrite clockless_delay, audio_elapsed_delay. do 2 f_equal.
      unfold ap_elapsed. rewrite Ep.
      replace (ap_completion_delay_ns c - a - b) with (ap_completion_delay_ns c - (a + b)) by lia.
      done.
  - apply upd_ext. fold c. by rewrite Hid.
Qed.

(** ** The audio consumer *)
Definition play_pointer (c : CiapDevice) (remaining : Z) : Z :=
  u16 (audio_buffer c * 0x480 +
       u64 (u64 (audio_duration_ns c - remaining) * 0x480) / audio_duration_ns c).

Lemma play_on_eq s c :
  play_on s c = store_word CIAP_AP_POINTER (play_pointer c (audio_remaining_ns c - s))
                  (set_audio_remaining_ns (audio_remaining_ns c - s) c).
Proof. reflexivity. Qed.

Lemma play_play a b c : play_on b (play_on a c) = play_on (a + b) c.
Proof.
  rewrite (play_on_eq a c), (play_on_eq (a + b) c). set (p := play_pointer c _).
  set (d := set_audio_remaining_ns (audio_remaining_ns c - a) c). rewrite play_on_eq.
  change (play_pointer (store_word CIAP_AP_POINTER p d)) with (play_pointer c).
  change (audio_remaining_ns (store_word CIAP_AP_POINTER p d)) with (audio_remaining_ns c - a).
  change (set_audio_remaining_ns (audio_remaining_ns c - a - b) (store_word CIAP_AP_POINTER p d))
    with (store_word CIAP_AP_POINTER p (set_audio_remaining_ns (audio_remaining_ns c - a - b) c)).
  rewrite store_store.
  by replace (audio_remaining_ns c - a - b) with (audio_remaining_ns c - (a + b)) by lia.
Qed.

Definition released (c : CiapDevice) (b : Z) : CiapDevice :=
  set_audio_buffer (Z.lxor b 1) (set_audio_remaining_ns 0 (set_audio_active false
    (edit_word CIAP_BMAN (fun m => Z.ldiff m (pow_bit b)) c))).

Lemma release_eq c :
  release_buffer c =
  edit_word CIAP_ISR (fun s => Z.lor s 0x0002)
    (store_word CIAP_AP_POINTER (u16 (Z.lxor (audio_buffer c) 1 * 0x480))
      (released c (audio_buffer c))).
Proof. reflexivity. Qed.

Lemma release_play a c : release_buffer (play_on a c) = release_buffer c.
Proof.
  rewrite play_on_eq, !release_eq. set (p := play_pointer c _).
  set (d := set_audio_remaining_ns _ c).
  change (audio_buffer (store_word CIAP_AP_POINTER p d)) with (audio_buffer c).
  assert (released (store_word CIAP_AP_POINTER p d) (audio_buffer c) =
    store_word CIAP_AP_POINTER p (released c (audio_buffer c))) as ->.
  { unfold released. rewrite edit_store by off. reflexivity. }
  by rewrite store_store.
Qed.

Lemma clockless_active a w :
  audio_active (ciap (upd (drive_elapsed a) w)) = audio_active (ciap w).
Proof. cbn. unfold drive_elapsed. by destruct (data_running _). Qed.

Lemma start_clockless a w :
  start_audio_buffer (upd (drive_elapsed a) w) = upd (drive_elapsed a) (start_audio_buffer w).
Proof.
  unfold start_audio_buffer. cbv zeta. cbn [ciap upd]. rewrite clockless_select.
  set (c := select_audio_buffer (ciap w)).
  assert (forall d, read_word (drive_elapsed a d) CIAP_BMAN = read_word d CIAP_BMAN) as Er
    by (intros; apply read_word_memory, drive_elapsed_memory).
  assert (audio_playing (drive_elapsed a c) = audio_playing c /\
    audio_active (drive_elapsed a c) = audio_active c /\
    audio_buffer (drive_elapsed a c) = audio_buffer c /\
    audio_format (drive_elapsed a c) = audio_format c) as (E1 & E2 & E3 & E4)
    by (unfold drive_elapsed; by destruct (data_running c)).
  rewrite E1, E2, E3, E4, Er, drive_elapsed_memory.
  destruct (_ || _).
  - rewrite !upd_upd. apply upd_ext. apply clockless_select.
  - change (cw_audio (upd ?f ?x)) with (cw_audio x).
    destruct (audio_decode_groups _ _ _) as [frames au].
    unfold upd, upd_audio. cbn [ciap streaming cw_irq cw_audio cw_media]. f_equal.
    by rewrite clockless_select, clockless_start.
Qed.

Lemma consume_clockless a w :
  consume_audio_buffer (upd (drive_elapsed a) w) = upd (drive_elapsed a) (consume_audio_buffer w).
Proof.
  unfold consume_audio_buffer. cbv zeta. rewrite upd_upd.
  rewrite (upd_ext _ (fun c => drive_elapsed a (release_buffer c))) by apply clockless_release.
  rewrite <- (upd_upd (drive_elapsed a) release_buffer), assert_upd by apply line_words_drive.
  rewrite start_clockless. rewrite clockless_active.
  destruct (negb _); [|done]. rewrite !upd_upd. apply upd_ext, clockless_idle.
Qed.

Lemma drive_elapsed_audio a c :
  audio_active (drive_elapsed a c) = audio_active c /\
  audio_remaining_ns (drive_elapsed a c) = audio_remaining_ns c.
Proof. unfold drive_elapsed. by destruct (data_running c). Qed.

Lemma loop_clockless n a s w :
  audio_loop n s (upd (drive_elapsed a) w) =
  (fst (audio_loop n s w), upd (drive_elapsed a) (snd (audio_loop n s w))).
Proof.
  revert s w. induction n as [|n IH]; intros s w; [done|]. cbn [audio_loop]. cbn [ciap upd].
  destruct (drive_elapsed_audio a (ciap w)) as [-> ->].
  destruct (_ && _); [|done]. by rewrite consume_clockless, IH.
Qed.

Lemma audio_loop_S n s w :
  audio_loop (S n) s w =
  if audio_active (ciap w) && (audio_remaining_ns (ciap w) <=? s)
  then audio_loop n (s - audio_remaining_ns (ciap w)) (consume_audio_buffer w) else (s, w).
Proof. reflexivity. Qed.
Lemma play_on_active a w : audio_active (ciap (upd (play_on a) w)) = audio_active (ciap w).
Proof. reflexivity. Qed.
Lemma play_on_remaining a w :
  audio_remaining_ns (ciap (upd (play_on a) w)) = audio_remaining_ns (ciap w) - a.
Proof. reflexivity. Qed.

Lemma audio_split a b w :
  (audio_active (ciap w) = true -> a < audio_remaining_ns (ciap w)) ->
  advance_audio b (upd (fun c => drive_elapsed a (audio_elapsed a c)) w) =
  upd (drive_elapsed a) (advance_audio (a + b) w).
Proof.
  intros Ha. destruct (audio_active (ciap w)) eqn:Eact.
  - specialize (Ha eq_refl).
    assert (upd (fun c => drive_elapsed a (audio_elapsed a c)) w =
      upd (drive_elapsed a) (upd (play_on a) w)) as ->
      by (rewrite upd_upd; apply upd_ext; unfold audio_elapsed; by rewrite Eact).
    unfold advance_audio, AUDIO_FUEL. rewrite loop_clockless.
    rewrite !(audio_loop_S 1), play_on_active, play_on_remaining.
    rewrite Eact. cbn [andb].
    destruct (Z.leb_spec (audio_remaining_ns (ciap w) - a) b),
      (Z.leb_spec (audio_remaining_ns (ciap w)) (a + b)); try lia.
    + assert (consume_audio_buffer (upd (play_on a) w) = consume_audio_buffer w) as ->.
      { unfold consume_audio_buffer. cbv zeta.
        assert (upd release_buffer (upd (play_on a) w) = upd release_buffer w) as ->; [|done].
        rewrite upd_upd. apply upd_ext, release_play. }
      replace (b - (audio_remaining_ns (ciap w) - a)) with (a + b - audio_remaining_ns (ciap w)) by lia.
      destruct (audio_loop 1 (a + b - audio_remaining_ns (ciap w)) (consume_audio_buffer w)) as [r w1]. cbn [fst snd ciap upd].
      destruct (drive_elapsed_audio a (ciap w1)) as [-> _].
      destruct (audio_active (ciap w1)); [|done]. rewrite !upd_upd. apply upd_ext, clockless_play.
    + cbn [fst snd ciap upd]. destruct (drive_elapsed_audio a (play_on a (ciap w))) as [-> _].
      change (audio_active (play_on a (ciap w))) with (audio_active (ciap w)). rewrite Eact.
      rewrite !upd_upd. apply upd_ext. by rewrite clockless_play, play_play.
  - assert (upd (fun c => drive_elapsed a (audio_elapsed a c)) w = upd (drive_elapsed a) w) as ->
      by (apply upd_ext; unfold audio_elapsed; by rewrite Eact).
    unfold advance_audio, AUDIO_FUEL. rewrite loop_clockless. cbn [audio_loop].
    rewrite Eact. cbn [andb fst snd ciap upd].
    destruct (drive_elapsed_audio a (ciap w)) as [-> _]. by rewrite Eact.
Qed.

(** Strictly before every event of the running units. *)
Record before (a : Z) (c : CiapDevice) : Prop := {
  before_ap : ap_completion_pending c = true -> a < ap_completion_delay_ns c;
  before_audio : audio_active c = true -> a < audio_remaining_ns c;
  before_sector : data_running c = true -> sector_elapsed_ns c + a < sector_period_ns;
}.

Definition quiet_elapsed (a : Z) (c : CiapDevice) : CiapDevice :=
  drive_elapsed a (audio_elapsed a (ap_elapsed a c)).

Lemma u64_add x a b : u64 (u64 (x + a) + b) = u64 (x + (a + b)).
Proof. unfold u64. rewrite Zplus_mod_idemp_l. f_equal. lia. Qed.

Lemma quiet_step_split a b w :
  before a (ciap w) ->
  advance_streaming (a + b) w = advance_streaming b (upd (quiet_elapsed a) w).
Proof.
  intros [Hap Hau _]. unfold advance_streaming. cbv zeta. unfold quiet_elapsed.
  rewrite ap_split by done.
  rewrite audio_split.
  2: { intros E. assert (audio_active (ciap (advance_ap (a + b) w)) = audio_active (ciap w) /\
         audio_remaining_ns (ciap (advance_ap (a + b) w)) = audio_remaining_ns (ciap w)) as [E1 E2].
       { unfold advance_ap. destruct (ap_completion_pending _); [|done].
         destruct (_ <=? _); [rewrite assert_line_ciap|]; done. }
       rewrite E1 in E. rewrite E2. auto. }
  set (x := advance_audio (a + b) (advance_ap (a + b) w)). cbn [ciap upd].
  destruct (data_running (ciap x)) eqn:Er.
  - assert (data_running (drive_elapsed a (ciap x)) = true) as ->
      by (unfold drive_elapsed; by rewrite Er).
    cbn [negb]. rewrite upd_upd.
    assert (upd (add_elapsed (a + b)) x = upd (fun c => add_elapsed b (drive_elapsed a c)) x) as ->;
      [|done].
    apply upd_ext. unfold drive_elapsed. rewrite Er. unfold add_elapsed.
    change (sector_elapsed_ns (set_sector_elapsed_ns (u64 (sector_elapsed_ns (ciap x) + a)) (ciap x)))
      with (u64 (sector_elapsed_ns (ciap x) + a)).
    rewrite u64_add. done.
  - assert (drive_elapsed a (ciap x) = ciap x) as E by (unfold drive_elapsed; by rewrite Er).
    rewrite E, Er. cbn [negb]. unfold upd. rewrite E. by destruct x.
Qed.

(** A step that reaches no event splits off: the device that lived through
    it and then through the rest is the device that lived through both at once. *)
Theorem quiet_step_splits a b w :
  before a (ciap w) ->
  advance_streaming (a + b) w = advance_streaming b (upd (quiet_elapsed a) w).
Proof. apply quiet_step_split. Qed.

(** What such a step itself is. *)
Lemma upd_id w : upd (fun c => c) w = w.
Proof. by destruct w. Qed.

Lemma period_value : sector_period_ns = 13333333.
Proof. reflexivity. Qed.

Lemma advance_before a w :
  0 <= a -> before a (ciap w) -> (data_running (ciap w) = true -> 0 <= sector_elapsed_ns (ciap w)) ->
  advance_streaming a w = upd (quiet_elapsed a) w.
Proof.
  intros H0a [Hap Hau Hse] Hel. unfold advance_streaming. cbv zeta.
  assert (advance_ap a w = upd (ap_elapsed a) w) as ->.
  { unfold advance_ap. cbv zeta. destruct (ap_completion_pending (ciap w)) eqn:E.
    - specialize (Hap eq_refl). destruct (Z.leb_spec (ap_completion_delay_ns (ciap w)) a); [lia|].
      apply upd_ext. unfold ap_elapsed. by rewrite E.
    - rewrite <- (upd_id w) at 1. apply upd_ext. unfold ap_elapsed. by rewrite E. }
  set (w1 := upd (ap_elapsed a) w).
  assert (audio_active (ciap w1) = audio_active (ciap w) /\
    audio_remaining_ns (ciap w1) = audio_remaining_ns (ciap w) /\
    data_running (ciap w1) = data_running (ciap w) /\
    sector_elapsed_ns (ciap w1) = sector_elapsed_ns (ciap w)) as (E1 & E2 & E3 & E4).
  { subst w1. cbn [ciap upd]. unfold ap_elapsed. by destruct (ap_completion_pending _). }
  assert (advance_audio a w1 = upd (audio_elapsed a) w1) as ->.
  { unfold advance_audio, AUDIO_FUEL. rewrite audio_loop_S, E1, E2.
    destruct (audio_active (ciap w)) eqn:E; cbn [andb].
    - specialize (Hau eq_refl). destruct (Z.leb_spec (audio_remaining_ns (ciap w)) a); [lia|].
      rewrite E1. apply upd_ext. unfold audio_elapsed. by rewrite E1.
    - rewrite E1. rewrite <- (upd_id w1) at 1. apply upd_ext. unfold audio_elapsed. by rewrite E1. }
  set (w2 := upd (audio_elapsed a) w1).
  assert (data_running (ciap w2) = data_running (ciap w) /\
    sector_elapsed_ns (ciap w2) = sector_elapsed_ns (ciap w)) as (E5 & E6).
  { rewrite <- E3, <- E4. subst w2. cbn [ciap upd]. clearbody w1. unfold audio_elapsed.
    destruct (audio_active (ciap w1)); split; reflexivity. }
  assert (forall f, upd f w2 = upd (fun c => f (audio_elapsed a (ap_elapsed a c))) w) as Ew by done.
  rewrite E5. destruct (data_running (ciap w)) eqn:E; cbn [negb].
  - specialize (Hse eq_refl). specialize (Hel eq_refl). rewrite period_value in Hse.
    assert (sector_elapsed_ns (ciap (upd (add_elapsed a) w2)) = sector_elapsed_ns (ciap w) + a) as E7.
    { change (u64 (sector_elapsed_ns (ciap w2) + a) = sector_elapsed_ns (ciap w) + a).
      rewrite E6. apply u64_id. unfold is_word. lia. }
    unfold sector_rounds. rewrite E7, Z.div_small by (rewrite period_value; lia). cbn [sector_loop Z.to_nat].
    rewrite Ew. apply upd_ext. unfold quiet_elapsed, drive_elapsed.
    change (audio_elapsed a (ap_elapsed a (ciap w))) with (ciap w2). by rewrite E5.
  - rewrite <- (upd_id w2). rewrite Ew. apply upd_ext. unfold quiet_elapsed, drive_elapsed.
    change (audio_elapsed a (ap_elapsed a (ciap w))) with (ciap w2). by rewrite E5.
Qed.

(** * The deferred build *)

(** The clocks of a device at rest between two steps. *)
Record clocks_ok (c : CiapDevice) : Prop := {
  clk_buffer : is_buffer (audio_buffer c);
  clk_ap : ap_completion_pending c = true -> 0 <= ap_completion_delay_ns c < 2 ^ 62;
  clk_audio : audio_active c = true -> 0 <= audio_remaining_ns c < 2 ^ 62;
  clk_sector : data_running c = true -> 0 <= sector_elapsed_ns c < sector_period_ns;
  clk_init : initialized c = true;
}.

(** The nearest event as a minimum. *)
Lemma next_event_min c :
  clocks_ok c ->
  next_event_ns c =
  let l := if ap_completion_pending c then ap_completion_delay_ns c else UINT64_MAX in
  let l := if audio_active c then Z.min (audio_remaining_ns c) l else l in
  if data_running c then Z.min (sector_period_ns - sector_elapsed_ns c) l else l.
Proof.
  intros [_ _ _ Hse _]. unfold next_event_ns. cbv zeta. rewrite !if_min.
  destruct (data_running c); [|done]. specialize (Hse eq_refl). rewrite period_value in *.
  by rewrite u64_id by (unfold is_word; lia).
Qed.

Ltac clocks c :=
  match goal with Hc : clocks_ok c |- _ =>
    rewrite ?(next_event_min c Hc) in *; destruct Hc as [_ Hap Hau Hse _]; unfold UINT64_MAX in *;
    cbv zeta in *; rewrite period_value in *;
    destruct (ap_completion_pending c), (audio_active c), (data_running c);
    try specialize (Hap eq_refl); try specialize (Hau eq_refl); try specialize (Hse eq_refl)
  end.

Lemma next_event_before p c : clocks_ok c -> p < next_event_ns c -> before p c.
Proof. intros Hc Hp. split; intros E; clocks c; done || lia. Qed.

Lemma next_event_range c :
  clocks_ok c -> 0 <= next_event_ns c <= UINT64_MAX /\
  (next_event_ns c = UINT64_MAX \/ next_event_ns c < 2 ^ 62).
Proof. intros Hc. clocks c; lia. Qed.

Lemma no_event_idle c : clocks_ok c -> next_event_ns c = UINT64_MAX ->
  ap_completion_pending c = false /\ audio_active c = false /\ data_running c = false.
Proof. intros Hc E. clocks c; done || lia. Qed.

(** ** What a delivery does to the clocks *)
Definition clock_fields (c : CiapDevice) :=
  (audio_buffer c, ap_completion_pending c, ap_completion_delay_ns c, audio_active c,
   audio_remaining_ns c, sector_elapsed_ns c, initialized c).

Lemma events_clocks sector w : clock_fields (ciap (stream_events sector w)) = clock_fields (ciap w) /\
  data_running (ciap (stream_events sector w)) = data_running (ciap w).
Proof. unfold stream_events. destruct (_ && _); [|done]. rewrite assert_line_ciap. done. Qed.
Lemma locator_clocks lba w : clock_fields (ciap (report_locator lba w)) = clock_fields (ciap w) /\
  data_running (ciap (report_locator lba w)) = data_running (ciap w).
Proof. unfold report_locator. destruct (q_reporting _); [|done]. rewrite assert_line_ciap. done. Qed.
Lemma payload_clocks sector ho c : clock_fields (deliver_payload sector ho c) = clock_fields c /\
  data_running (deliver_payload sector ho c) = data_running c.
Proof. done. Qed.

Lemma announce_clocks lba sector w :
  clock_fields (ciap (announce lba sector w)) = clock_fields (ciap w) /\
  data_running (ciap (announce lba sector w)) = data_running (ciap w).
Proof.
  unfold announce. set (w0 := upd _ (marked lba sector w)).
  assert (clock_fields (ciap w0) = clock_fields (ciap w) /\
    data_running (ciap w0) = data_running (ciap w)) as [<- <-] by done.
  clearbody w0. destruct (events_clocks sector w0) as [<- <-]. apply locator_clocks.
Qed.

Lemma delivery_clocks w :
  clock_fields (ciap (deliver_one_sector w)) = clock_fields (ciap w) /\
  (data_running (ciap (deliver_one_sector w)) = true -> data_running (ciap w) = true).
Proof.
  unfold deliver_one_sector. destruct (_ || _); [done|].
  destruct (media_read_sector_body _ _) as [sector|]; [|done].
  rewrite deliver_body_eq. cbv zeta. set (lba := drive_lba _).
  destruct (announce_clocks lba sector w) as [<- <-]. set (w2 := announce lba sector w).
  set (sh := selection_header_pending _). clearbody sh w2.
  destruct (negb _ && negb _); [done|].
  set (w3 := upd step_drive _).
  assert (clock_fields (ciap w3) = clock_fields (ciap w2) /\
    data_running (ciap w3) = data_running (ciap w2)) as [<- <-] by (subst w3; by destruct (direct_audio _ _)).
  clearbody w3. destruct (data_buffers_full _); [done|]. rewrite assert_line_ciap. cbn [ciap upd].
  destruct (payload_clocks sector (direct_audio (ciap w2) sector || metadata_only (ciap w2) sector sh) (ciap w3))
    as [-> ->]. done.
Qed.

(** [clocks_ok] is a property of those fields. *)
Lemma clocks_ok_fields c c' :
  clock_fields c' = clock_fields c -> (data_running c' = true -> data_running c = true) ->
  clocks_ok c -> clocks_ok c'.
Proof.
  intros E Er [H1 H2 H3 H4 H5]. injection E as E1 E2 E3 E4 E5 E6 E7.
  split; rewrite ?E1, ?E2, ?E3, ?E4, ?E5, ?E6, ?E7; auto.
Qed.


(** ** The clocks survive a step *)
Lemma clocks_parts c :
  is_buffer (audio_buffer c) ->
  (ap_completion_pending c = true -> 0 <= ap_completion_delay_ns c < 2 ^ 62) ->
  (audio_active c = true -> 0 <= audio_remaining_ns c < 2 ^ 62) ->
  (data_running c = true -> 0 <= sector_elapsed_ns c < sector_period_ns) ->
  initialized c = true -> clocks_ok c.
Proof. by split. Qed.

Lemma ap_clocks x w : 0 <= x -> clocks_ok (ciap w) -> clocks_ok (ciap (advance_ap x w)).
Proof.
  intros Hx Hc. unfold advance_ap. cbv zeta. destruct (ap_completion_pending (ciap w)) eqn:E; [|done].
  destruct Hc as [H1 H2 H3 H4 H5]. specialize (H2 E).
  destruct (Z.leb_spec (ap_completion_delay_ns (ciap w)) x).
  - rewrite assert_line_ciap. cbn [ciap upd]. apply clocks_parts; done.
  - cbn [ciap upd]. apply clocks_parts; try done. cbn [ap_completion_delay_ns set_ap_completion_delay_ns].
    intros _. lia.
Qed.

Lemma select_clocks c : clocks_ok c -> clocks_ok (select_audio_buffer c).
Proof.
  intros Hc. destruct (select_buffer_ok c (clk_buffer c Hc)) as (Hb & _ & _).
  destruct Hc as [H1 H2 H3 H4 H5]. revert Hb. unfold select_audio_buffer.
  destruct (_ && _); intros Hb; by apply clocks_parts.
Qed.

Lemma playing_remaining frames : 0 <= u64 (frames * 1000000000) / 37800 < 2 ^ 62.
Proof. pose proof (u64_range (frames * 1000000000)) as Hw. unfold is_word in Hw. split; [zlia|zlia]. Qed.

Lemma start_clocks w : clocks_ok (ciap w) -> clocks_ok (ciap (start_audio_buffer w)).
Proof.
  intros Hc%select_clocks. unfold start_audio_buffer. cbv zeta. cbn [ciap upd].
  set (c := select_audio_buffer (ciap w)) in *.
  destruct (_ || _); [exact Hc|]. destruct (audio_decode_groups _ _ _) as [frames au].
  cbn [ciap upd upd_audio]. fold c. clearbody c. destruct Hc as [H1 H2 H3 H4 H5].
  apply clocks_parts; try done. intros _.
  change (0 <= u64 (frames * 1000000000) / 37800 < 2 ^ 62). apply playing_remaining.
Qed.

Lemma consume_clocks w : clocks_ok (ciap w) -> clocks_ok (ciap (consume_audio_buffer w)).
Proof.
  intros Hc. unfold consume_audio_buffer. cbv zeta. set (w1 := assert_interrupt_line _).
  assert (clocks_ok (ciap w1)) as H1%start_clocks.
  { subst w1. rewrite assert_line_ciap. cbn [ciap upd]. destruct Hc as [H1 H2 H3 H4 H5].
    apply clocks_parts; try done. rewrite release_eq.
    change (is_buffer (Z.lxor (audio_buffer (ciap w)) 1)).
    unfold is_buffer in *. destruct H1 as [-> | ->]; auto. }
  clearbody w1. destruct (negb _); [|done]. cbn [ciap upd].
  set (c := ciap (start_audio_buffer w1)) in *. clearbody c. destruct H1 as [H1 H2 H3 H4 H5].
  unfold idle_audio. cbv zeta.
  change (audio_finish_requested (edit_word _ _ c)) with (audio_finish_requested c).
  destruct (audio_finish_requested c); apply clocks_parts; try done.
Qed.

Lemma loop_clocks n x w :
  0 <= x -> clocks_ok (ciap w) ->
  let '(r, w') := audio_loop n x w in 0 <= r /\ clocks_ok (ciap w').
Proof.
  revert x w. induction n as [|n IH]; intros x w Hx Hc; [done|]. cbn [audio_loop].
  destruct (audio_active (ciap w)); cbn [andb]; [|done].
  destruct (Z.leb_spec (audio_remaining_ns (ciap w)) x); [|done].
  apply IH; [lia|by apply consume_clocks].
Qed.


Lemma audio_clocks x w : 0 <= x -> clocks_ok (ciap w) -> clocks_ok (ciap (advance_audio x w)).
Proof.
  intros Hx Hc. unfold advance_audio.
  pose proof (audio_consumer_ends x w (clk_buffer _ Hc)) as Hend.
  pose proof (loop_clocks AUDIO_FUEL x w Hx Hc) as Hl.
  destruct (audio_loop AUDIO_FUEL x w) as [r w']. destruct Hl as [Hr Hc'].
  destruct (audio_active (ciap w')) eqn:E; [|done].
  unfold audio_running in Hend. rewrite E in Hend. cbn [andb] in Hend. apply Z.leb_gt in Hend.
  cbn [ciap upd]. destruct Hc' as [H1 H2 H3 H4 H5]. rewrite play_on_eq.
  set (p := play_pointer _ _). specialize (H3 E). apply clocks_parts; try done.
  intros _. change (0 <= audio_remaining_ns (ciap w') - r < 2 ^ 62). lia.
Qed.

Lemma sector_loop_clocks n w :
  (data_running (ciap w) = true -> clocks_ok (set_sector_elapsed_ns 0 (ciap w)) /\
     0 <= sector_elapsed_ns (ciap w) < (Z.of_nat n + 1) * sector_period_ns) ->
  (data_running (ciap w) = false -> clocks_ok (ciap w)) ->
  clocks_ok (ciap (sector_loop n w)).
Proof.
  assert (forall (c : CiapDevice), clocks_ok (set_sector_elapsed_ns 0 c) ->
    (data_running c = true -> 0 <= sector_elapsed_ns c < sector_period_ns) -> clocks_ok c) as Hrest
    by (intros c [H1 H2 H3 H4 H5] He; by apply clocks_parts).
  revert w. induction n as [|n IH]; intros w Hrun Hidle; cbn [sector_loop].
  { destruct (data_running (ciap w)) eqn:E; [|auto]. destruct (Hrun eq_refl) as [Hc He].
    apply Hrest; [done|]. lia. }
  destruct (Z.leb_spec sector_period_ns (sector_elapsed_ns (ciap w))) as [Hp|Hp].
  2: { destruct (data_running (ciap w)) eqn:E; [|auto]. destruct (Hrun eq_refl) as [Hc He].
       apply Hrest; [done|]. lia. }
  set (w1 := upd _ w). destruct (delivery_clocks w1) as [Hf Hr].
  assert (data_running (ciap w1) = data_running (ciap w)) as E1 by done. rewrite E1 in Hr.
  assert (sector_elapsed_ns (ciap w1) = sector_elapsed_ns (ciap w) - sector_period_ns) as E2 by done.
  assert (data_running (ciap w) = true -> clocks_ok (set_sector_elapsed_ns 0 (ciap w1))) as Hc1
    by (intros E; by destruct (Hrun E) as [[H1 H2 H3 H4 H5] _]; apply clocks_parts).
  assert (data_running (ciap w) = false -> clocks_ok (ciap w1)) as Hi1
    by (intros E; destruct (Hidle E) as [H1 H2 H3 H4 H5]; apply clocks_parts; try done;
        rewrite E1, E; done).
  clearbody w1. set (w2 := deliver_one_sector w1) in *. clearbody w2.
  assert (sector_elapsed_ns (ciap w2) = sector_elapsed_ns (ciap w1)) as E3 by (by injection Hf).
  assert (data_running (ciap w) = true -> clocks_ok (set_sector_elapsed_ns 0 (ciap w2))) as Hc2.
  { intros E. apply (clocks_ok_fields (set_sector_elapsed_ns 0 (ciap w1))); [|by cbn; rewrite E1|auto].
    unfold clock_fields in *. cbn. by injection Hf as -> -> -> -> -> _ ->. }
  destruct (data_running (ciap w2)) eqn:E4.
  - specialize (Hr eq_refl). destruct (Hrun Hr) as [_ He]. apply IH; [|by rewrite E4].
    intros _. split; [auto|]. rewrite E3, E2. lia.
  - destruct (data_running (ciap w)) eqn:E.
    + apply Hrest; [auto|]. by rewrite E4.
    + apply (clocks_ok_fields (ciap w1)); [done|by rewrite E4|auto].
Qed.

Lemma advance_clocks x w :
  0 <= x < 2 ^ 63 -> clocks_ok (ciap w) -> clocks_ok (ciap (advance_streaming x w)).
Proof.
  intros Hx Hc. unfold advance_streaming. cbv zeta.
  set (w1 := advance_audio x (advance_ap x w)).
  assert (clocks_ok (ciap w1)) as H1 by (apply audio_clocks, ap_clocks; lia || done).
  clearbody w1. destruct (data_running (ciap w1)) eqn:E; cbn [negb]; [|done].
  set (w2 := upd (add_elapsed x) w1). pose proof (clk_sector _ H1 E) as He. rewrite period_value in He.
  assert (sector_elapsed_ns (ciap w2) = sector_elapsed_ns (ciap w1) + x) as E2
    by (apply u64_id; unfold is_word; lia).
  apply sector_loop_clocks; [|by cbn; rewrite E].
  intros _. split; [by destruct H1 as [I1 I2 I3 I4 I5]; apply clocks_parts|].
  unfold sector_rounds. rewrite E2. pose proof period_value as Hp.
  rewrite Z2Nat.id by (apply Z.div_pos; lia). rewrite Hp. split; [lia|]. zlia.
Qed.

(** ** The private time of the streaming job moves nothing else *)
Lemma jobless_upd f g w : upd f (upd_job g w) = upd_job g (upd f w).
Proof. done. Qed.
Lemma jobless_assert g w : assert_interrupt_line (upd_job g w) = upd_job g (assert_interrupt_line w).
Proof. unfold assert_interrupt_line. cbn [ciap upd_job]. by destruct (_ && _). Qed.

Lemma jobless_start g w : start_audio_buffer (upd_job g w) = upd_job g (start_audio_buffer w).
Proof.
  unfold start_audio_buffer. cbv zeta.
  change (ciap (upd select_audio_buffer (upd_job g w))) with (ciap (upd select_audio_buffer w)).
  destruct (_ || _); [done|].
  change (cw_audio (upd select_audio_buffer (upd_job g w))) with (cw_audio (upd select_audio_buffer w)).
  by destruct (audio_decode_groups _ _ _).
Qed.

Lemma jobless_consume g w : consume_audio_buffer (upd_job g w) = upd_job g (consume_audio_buffer w).
Proof.
  unfold consume_audio_buffer. cbv zeta.
  assert (start_audio_buffer (assert_interrupt_line (upd release_buffer (upd_job g w))) =
    upd_job g (start_audio_buffer (assert_interrupt_line (upd release_buffer w)))) as ->
    by (by rewrite jobless_upd, jobless_assert, jobless_start). set (w1 := start_audio_buffer _). clearbody w1.
  cbn [ciap upd_job]. destruct (negb _); [apply jobless_upd|reflexivity].
Qed.

Lemma jobless_loop n x g w :
  audio_loop n x (upd_job g w) =
  (fst (audio_loop n x w), upd_job g (snd (audio_loop n x w))).
Proof.
  revert x w. induction n as [|n IH]; intros x w; [done|]. cbn [audio_loop]. cbn [ciap upd_job].
  destruct (_ && _); [|done]. by rewrite jobless_consume, IH.
Qed.

Lemma jobless_ap x g w : advance_ap x (upd_job g w) = upd_job g (advance_ap x w).
Proof.
  unfold advance_ap. cbn [ciap upd_job]. destruct (ap_completion_pending _); [|done].
  destruct (_ <=? _); [by rewrite jobless_upd, jobless_assert|done].
Qed.

Lemma jobless_audio x g w : advance_audio x (upd_job g w) = upd_job g (advance_audio x w).
Proof.
  unfold advance_audio. rewrite jobless_loop.
  destruct (audio_loop AUDIO_FUEL x w) as [r w1]. cbn [fst snd ciap upd_job].
  by destruct (audio_active _).
Qed.

Lemma jobless_announce lba sector g w : announce lba sector (upd_job g w) = upd_job g (announce lba sector w).
Proof.
  unfold announce, marked. rewrite !jobless_upd.
  set (w0 := upd _ (upd _ w)). clearbody w0.
  assert (stream_events sector (upd_job g w0) = upd_job g (stream_events sector w0)) as ->.
  { unfold stream_events. cbn [ciap upd_job]. destruct (_ && _); [|done].
    by rewrite jobless_upd, jobless_assert. }
  set (w1 := stream_events sector w0). clearbody w1.
  unfold report_locator. cbn [ciap upd_job]. destruct (q_reporting _); [|done].
  by rewrite !jobless_upd, jobless_assert.
Qed.

Lemma jobless_deliver g w : deliver_one_sector (upd_job g w) = upd_job g (deliver_one_sector w).
Proof.
  unfold deliver_one_sector. cbn [ciap cw_media upd_job]. destruct (_ || _); [done|].
  destruct (media_read_sector_body _ _) as [sector|]; [|done].
  rewrite !deliver_body_eq. cbv zeta. rewrite jobless_announce.
  change (selection_header_pending (ciap (marked (drive_lba (ciap w)) sector (upd_job g w))))
    with (selection_header_pending (ciap (marked (drive_lba (ciap w)) sector w))).
  set (w2 := announce _ _ _). set (sh := selection_header_pending _). clearbody sh w2.
  cbn [ciap upd_job]. destruct (negb _ && negb _); [done|].
  set (ho := direct_audio _ _ || _). clearbody ho.
  assert ((if direct_audio (ciap w2) sector
    then upd_audio (audio_decode_sector sector) (upd_job g w2) else upd_job g w2) =
    upd_job g (if direct_audio (ciap w2) sector
      then upd_audio (audio_decode_sector sector) w2 else w2)) as -> by (by destruct (direct_audio _ _)).
  rewrite jobless_upd. set (w3 := upd step_drive _). clearbody w3. cbn [ciap upd_job].
  destruct (data_buffers_full _); [done|]. by rewrite jobless_upd, jobless_assert.
Qed.

Lemma jobless_sectors n g w : sector_loop n (upd_job g w) = upd_job g (sector_loop n w).
Proof.
  revert w. induction n as [|n IH]; intros w; [done|]. cbn [sector_loop]. cbn [ciap upd_job].
  destruct (_ <=? _); [|done]. rewrite jobless_upd, jobless_deliver. cbn [ciap upd_job].
  destruct (data_running _); [apply IH|done].
Qed.

Lemma jobless_advance x g w : advance_streaming x (upd_job g w) = upd_job g (advance_streaming x w).
Proof.
  unfold advance_streaming. cbv zeta. rewrite jobless_ap, jobless_audio.
  set (w1 := advance_audio x _). clearbody w1. cbn [ciap upd_job]. destruct (negb _); [done|].
  rewrite jobless_upd. unfold sector_rounds. cbn [ciap upd_job]. apply jobless_sectors.
Qed.


(** ** Equivalence of the two builds *)

(** Everything but the private time of the streaming job. *)
Definition timeless (w : CiapWorld A M) := (ciap w, cw_irq w, cw_audio w, cw_media w).

Lemma timeless_job g w : timeless (upd_job g w) = timeless w.
Proof. done. Qed.

Lemma timeless_eq w w' : timeless w = timeless w' -> w = upd_job (fun _ => streaming w) w'.
Proof. destruct w, w'. intros E. injection E as -> -> -> ->. done. Qed.

Lemma timeless_advance x w w' :
  timeless w = timeless w' -> timeless (advance_streaming x w) = timeless (advance_streaming x w').
Proof. intros E%timeless_eq. rewrite E, jobless_advance. apply timeless_job. Qed.

(** The device the deferred build stands for. *)
Definition caught_up (w : CiapWorld A M) : CiapWorld A M :=
  if z2b (pending_ns (streaming w)) then advance_streaming (pending_ns (streaming w)) w else w.

(** The private time reaches no event, and the memoised deadline is the nearest one. *)
Record deferring (w : CiapWorld A M) : Prop := {
  def_clocks : clocks_ok (ciap w);
  def_pending : pending_ns (streaming w) = 0 \/
    0 < pending_ns (streaming w) < next_event_ns (ciap w) /\ next_event_ns (ciap w) < 2 ^ 62;
  def_deadline : deadline_valid (streaming w) = true ->
    deadline_ns (streaming w) = next_event_ns (ciap w);
}.

Lemma ensure_ok w : clocks_ok (ciap w) -> ensure_initialized w = w.
Proof. intros Hc. unfold ensure_initialized. by rewrite (clk_init _ Hc). Qed.

Lemma z2b_spec x : z2b x = negb (x =? 0).
Proof. done. Qed.

Lemma idle_advance x w :
  0 <= x -> clocks_ok (ciap w) -> next_event_ns (ciap w) = UINT64_MAX -> advance_streaming x w = w.
Proof.
  intros Hx Hc En. destruct (no_event_idle _ Hc En) as (E1 & E2 & E3).
  rewrite advance_before; [|done|split; congruence|congruence].
  rewrite <- (upd_id w) at 2. apply upd_ext. unfold quiet_elapsed, ap_elapsed. rewrite E1.
  unfold audio_elapsed. rewrite E2. unfold drive_elapsed. by rewrite E3.
Qed.

(** The private time and a step taken after it are one step. *)
Lemma caught_up_advance x w :
  0 <= x -> deferring w ->
  timeless (advance_streaming x (caught_up w)) =
  timeless (advance_streaming (pending_ns (streaming w) + x) w).
Proof.
  intros Hx [Hc Hp _]. unfold caught_up. rewrite z2b_spec.
  destruct (Z.eqb_spec (pending_ns (streaming w)) 0) as [E|E]; cbn [negb].
  - by rewrite E.
  - destruct Hp as [|[Hp _]]; [done|]. destruct Hp as [Hp0 Hp].
    pose proof (next_event_before _ _ Hc Hp) as Hb.
    rewrite (quiet_step_split (pending_ns (streaming w)) x w Hb).
    rewrite (advance_before (pending_ns (streaming w)) w); [done|lia|done|].
    intros Er. pose proof (clk_sector _ Hc Er). lia.
Qed.

(** The deadline is looked up once and then remembered. *)
Definition memoised (w : CiapWorld A M) : CiapWorld A M :=
  if deadline_valid (streaming w) then w
  else upd_job (fun j => set_deadline_valid true (set_deadline_ns (next_event_ns (ciap w)) j)) w.

Lemma memoised_spec w :
  deferring w ->
  let w' := memoised w in
  ciap w' = ciap w /\ pending_ns (streaming w') = pending_ns (streaming w) /\
  deadline_ns (streaming w') = next_event_ns (ciap w) /\ deferring w' /\
  timeless (caught_up w') = timeless (caught_up w) /\ timeless w' = timeless w.
Proof.
  intros Hd w'. subst w'. unfold memoised. destruct (deadline_valid (streaming w)) eqn:E.
  - split_and!; try done. by apply (def_deadline w Hd).
  - destruct Hd as [Hc Hp _]. split_and!; try done. set (g := fun j => _).
    unfold caught_up. change (pending_ns (streaming (upd_job g w))) with (pending_ns (streaming w)).
    destruct (z2b _); [|done]. rewrite jobless_advance. apply timeless_job.
Qed.

Lemma increment_eq ns w :
  clocks_ok (ciap w) ->
  cdic_increment_time true ns w =
  let w := memoised w in
  let j := streaming w in
  if deadline_ns j =? UINT64_MAX then w
  else if dtrunc ns <? u64 (deadline_ns j - pending_ns j) then
    upd_job (fun j => set_deferred_quanta (u64 (deferred_quanta j + 1))
                        (set_pending_ns (u64 (pending_ns j + dtrunc ns)) j)) w
  else
    advance_streaming (u64 (dtrunc ns + pending_ns j))
      (upd_job (fun j => set_jobs (u64 (jobs j + 1))
                           (set_deadline_valid false (set_pending_ns 0 j))) w).
Proof. intros Hc. unfold cdic_increment_time. cbv zeta. by rewrite ensure_ok. Qed.

Lemma advance_streaming_job x w : streaming (advance_streaming x w) = streaming w.
Proof.
  pose proof (jobless_advance x (fun _ => streaming w) w) as E.
  assert (upd_job (fun _ => streaming w) w = w) as Ew by (by destruct w). rewrite Ew in E.
  rewrite E. done.
Qed.

(** One quantum, deferred or performed, keeps the two builds together. *)
Lemma deferred_step ns h :
  0 < dtrunc ns < 2 ^ 62 -> deferring h ->
  let h' := cdic_increment_time true ns h in
  deferring h' /\ timeless (caught_up h') = timeless (advance_streaming (dtrunc ns) (caught_up h)).
Proof.
  intros Hx Hd0 h'. subst h'. set (x := dtrunc ns) in *.
  rewrite increment_eq by apply def_clocks, Hd0. cbv zeta. fold x.
  destruct (memoised_spec h Hd0) as (Ec & Ep & Edl & Hd & Ecu & Et).
  rewrite <- Ec in Edl. rewrite <- (timeless_advance x _ _ Ecu).
  set (w := memoised h) in *. clearbody w. clear Ec Ep Ecu Et Hd0 h.
  rewrite caught_up_advance by (done || lia). rewrite Edl.
  pose proof (def_clocks w Hd) as Hc. destruct (next_event_range _ Hc) as [Hr Hr'].
  set (D := next_event_ns (ciap w)) in *. set (p := pending_ns (streaming w)) in *.
  assert (0 <= p < 2 ^ 62) as Hp by (destruct (def_pending w Hd); lia).
  assert (p = 0 \/ p < D) as HpD by (destruct (def_pending w Hd); lia).
  destruct (Z.eqb_spec D UINT64_MAX) as [E|E].
  - assert (p = 0) as Ep by (destruct (def_pending w Hd) as [|[_ Hlt]]; [done|]; subst D; unfold UINT64_MAX in *; lia).
    split; [done|]. rewrite (idle_advance (p + x)) by (done || lia).
    unfold caught_up. fold p. by rewrite Ep.
  - assert (D < 2 ^ 62) as HD by (destruct Hr'; done). clear Hr'.
    rewrite u64_id by (unfold is_word; lia). destruct (Z.ltb_spec x (D - p)) as [Hlt|Hge].
    + set (g := fun j => _).
      assert (pending_ns (streaming (upd_job g w)) = p + x) as Eg by (apply u64_id; unfold is_word; lia).
      split.
      * split; [done|rewrite Eg; right; change (0 < p + x < D /\ D < 2 ^ 62); lia|].
        intros _. exact Edl.
      * unfold caught_up. rewrite Eg, z2b_spec. destruct (Z.eqb_spec (p + x) 0); [lia|]. cbn [negb].
        rewrite jobless_advance. apply timeless_job.
    + set (g := fun j => _). rewrite u64_id by (unfold is_word; lia). rewrite jobless_advance.
      rewrite (Z.add_comm x p). split.
      * split; [apply advance_clocks; done || lia|by left|done].
      * unfold caught_up. cbn [streaming upd_job]. rewrite advance_streaming_job. done.
Qed.

Lemma faithful_step ns w :
  clocks_ok (ciap w) -> cdic_increment_time false ns w = advance_streaming (dtrunc ns) w.
Proof. intros Hc. unfold cdic_increment_time. cbv zeta. by rewrite ensure_ok. Qed.

Lemma caught_up_clocks w : deferring w -> clocks_ok (ciap (caught_up w)).
Proof.
  intros [Hc Hp _]. unfold caught_up. destruct (z2b _); [|done]. apply advance_clocks; [lia|done].
Qed.

Lemma observe_catches_up w :
  clocks_ok (ciap w) -> timeless (observe_streaming true w) = timeless (caught_up w).
Proof.
  intros Hc. unfold observe_streaming, caught_up. cbv zeta. rewrite ensure_ok by done.
  change (pending_ns (streaming (upd_job (set_deadline_valid false) w))) with (pending_ns (streaming w)).
  destruct (z2b _); [|done]. rewrite !jobless_advance. done.
Qed.

Definition run_quanta (hle : bool) (steps : list double) (w : CiapWorld A M) : CiapWorld A M :=
  fold_left (fun w ns => cdic_increment_time hle ns w) steps w.

Lemma deferred_run steps h f :
  Forall (fun ns => 0 < dtrunc ns < 2 ^ 62) steps -> deferring h ->
  timeless f = timeless (caught_up h) -> clocks_ok (ciap f) ->
  deferring (run_quanta true steps h) /\
  timeless (run_quanta false steps f) = timeless (caught_up (run_quanta true steps h)).
Proof.
  revert h f. induction steps as [|ns steps IH]; intros h f Hs Hd Ef Hf; [done|].
  inversion_clear Hs as [|? ? Hns Hs']. destruct (deferred_step ns h Hns Hd) as [Hd' Ed].
  cbn [run_quanta fold_left]. apply IH; [done|done|..].
  - rewrite faithful_step by done. rewrite Ed. by apply timeless_advance.
  - rewrite faithful_step by done. apply advance_clocks; [lia|done].
Qed.

(** C30. The deferred build of the streaming clock is the faithful one: whatever
    sequence of quanta runs, the first access that observes the device finds
    the registers, the buffers, the interrupt lines, the audio and the medium
    that performing every quantum at once would have left. *)
Theorem deferred_time_unobservable steps w :
  Forall (fun ns => 0 < dtrunc ns < 2 ^ 62) steps -> clocks_ok (ciap w) ->
  pending_ns (streaming w) = 0 -> deadline_valid (streaming w) = false ->
  timeless (observe_streaming true (run_quanta true steps w)) =
  timeless (run_quanta false steps w).
Proof.
  intros Hs Hc Hp Hv.
  assert (deferring w) as Hd by (split; [done|by left|congruence]).
  destruct (deferred_run steps w w Hs Hd) as [Hd' ->]; [|done|].
  - unfold caught_up. by rewrite Hp.
  - apply observe_catches_up, Hd'.
Qed.

End Time.

(** A device that plays and reads: both buffers handed over, one started. *)
Definition playing_device : CiapDevice :=
  set_audio_active true (set_audio_playing true (set_audio_duration_ns 106666666
    (set_audio_remaining_ns 106666666 (store_word CIAP_BMAN 3 sample_device)))).
Definition playing_world : CiapWorld (list Z) unit :=
  mkCW playing_device (mkJob 0 0 false 0 0 0) irq_reset [] tt.

Lemma playing_clocks : clocks_ok (ciap playing_world).
Proof.
  split; [by left|..]; vm_compute; try done; intros _; split; (discriminate || reflexivity).
Qed.

Lemma audio_consumer_terminates_witness :
  let '(rest, w') := audio_loop AUDIO_FUEL 300000000 playing_world in
  audio_running rest w' = false /\ audio_loop 50 300000000 playing_world = (rest, w').
Proof.
  apply (audio_consumer_terminates 300000000 playing_world 50); [by left|].
  unfold AUDIO_FUEL. lia.
Defined.

Lemma quiet_step_splits_witness :
  advance_streaming (13000000 + 400000) playing_world =
  advance_streaming 400000 (upd (quiet_elapsed 13000000) playing_world).
Proof. apply quiet_step_splits. split; (discriminate || (intros _; reflexivity)). Defined.

(** Ten quanta of 2^21 ns: the deferred build reads its sector late, and no one
    can tell. *)
Definition two_ms : double := S754_finite false 4503599627370496 (-31).
Lemma deferred_time_unobservable_witness :
  timeless (observe_streaming true (run_quanta true (replicate 10 two_ms) playing_world)) =
  timeless (run_quanta false (replicate 10 two_ms) playing_world).
Proof.
  apply deferred_time_unobservable; [|exact playing_clocks|reflexivity|reflexivity].
  apply Forall_replicate. vm_compute. split; reflexivity.
Defined.
