(* ===== verification/Ring.v ===== *)
(** Rings with free-running 32-bit indices: one thread advances [write], the other
    [read], and the entries between them are a queue. *)

From Stdlib Require Import ZArith Lia.
From stdpp Require Import base tactics numbers list.
From S2P Require Import Prelude.
Open Scope Z_scope.

Lemma wrap_succ w r : u32 (w - r) < 0xFFFFFFFF -> u32 (u32 (w + 1) - r) = u32 (w - r) + 1.
Proof.
  unfold u32. intros H. rewrite Zminus_mod_idemp_l.
  replace (w + 1 - r) with (w - r + 1) by lia. rewrite <- Zplus_mod_idemp_l.
  apply Z.mod_small. zlia.
Qed.
Lemma wrap_drop w r n : 0 <= n <= u32 (w - r) -> u32 (w - u32 (r + n)) = u32 (w - r) - n.
Proof.
  unfold u32. intros H. rewrite Zminus_mod_idemp_r.
  replace (w - (r + n)) with (w - r - n) by lia. rewrite <- Zminus_mod_idemp_l.
  apply Z.mod_small. zlia.
Qed.
Lemma wrap_pred w r : 0 < u32 (w - r) -> u32 (w - u32 (r + 1)) = u32 (w - r) - 1.
Proof. intros H. apply wrap_drop. lia. Qed.
Lemma u32_add_l x k : u32 (u32 x + k) = u32 (x + k).
Proof. unfold u32. apply Zplus_mod_idemp_l. Qed.
Lemma u32_sub_l x k : u32 (u32 x - k) = u32 (x - k).
Proof. unfold u32. apply Zminus_mod_idemp_l. Qed.
(** The entries end where [write] is. *)
Lemma wrap_end w r : is_u32 w -> u32 (r + u32 (w - r)) = w.
Proof.
  intros Hw. rewrite Z.add_comm, u32_add_l. replace (w - r + r) with w by lia. by apply u32_id.
Qed.

(** Live entries never share a slot with the next one to be written. *)
Lemma live_slot_ne cap r w k :
  0 < cap -> (cap | 0x100000000) -> 0 <= k < u32 (w - r) -> u32 (w - r) - k < cap ->
  u32 (r + k) mod cap <> w mod cap.
Proof.
  intros Hc Hd Hk Hlt E. unfold u32 in *.
  rewrite Z.mod_mod_divide in E by done.
  assert (((w - r) mod 0x100000000 - k) mod cap = 0) as E0.
  { rewrite <- Zminus_mod_idemp_l, Z.mod_mod_divide by done.
    rewrite Zminus_mod_idemp_l. replace (w - r - k) with (w - (r + k)) by lia.
    rewrite <- Zminus_mod_idemp_l, <- Zminus_mod_idemp_r, E, Z.sub_diag. apply Z.mod_0_l. lia. }
  rewrite Z.mod_small in E0 by lia. lia.
Qed.

Section Queue.
Context {A : Type}.

(** The entries [xs] are those from [read] to [write]; [slot i] is the entry of
    the free-running index [i]. *)
Record queue_in (cap : Z) (slot : Z -> A) (read write : Z) (xs : list A) : Prop := {
  q_read : is_u32 read;
  q_write : is_u32 write;
  q_length : Z.of_nat (length xs) = u32 (write - read);
  q_cap : u32 (write - read) <= cap;
  q_slots : forall k, (k < length xs)%nat -> xs !! k = Some (slot (u32 (read + Z.of_nat k)));
}.

Lemma queue_in_empty cap slot i : is_u32 i -> 0 <= cap -> queue_in cap slot i i [].
Proof. intros. split; rewrite ?Z.sub_diag; try done. intros k Hk. cbn in Hk. lia. Qed.

Lemma queue_in_agree cap slot slot' read write xs :
  (forall k, (k < length xs)%nat ->
     slot' (u32 (read + Z.of_nat k)) = slot (u32 (read + Z.of_nat k))) ->
  queue_in cap slot read write xs -> queue_in cap slot' read write xs.
Proof. intros E [H1 H2 H3 H4 H5]. split; try done. intros k Hk. rewrite E by done. by apply H5. Qed.

Lemma queue_in_push cap slot read write xs :
  cap < 0xFFFFFFFF -> u32 (write - read) < cap -> queue_in cap slot read write xs ->
  queue_in cap slot read (u32 (write + 1)) (xs ++ [slot write]).
Proof.
  intros Hcap Hlt [H1 H2 H3 H4 H5]. pose proof (wrap_succ write read ltac:(lia)) as E.
  split; rewrite ?E, ?length_app; try done.
  - apply u32_range.
  - cbn. lia.
  - lia.
  - cbn [length]. intros k Hk. destruct (Nat.eq_dec k (length xs)) as [->|Hne].
    + rewrite lookup_app_r, Nat.sub_diag by lia. cbn. f_equal. f_equal.
      rewrite H3. by rewrite wrap_end.
    + rewrite lookup_app_l by lia. apply H5. lia.
Qed.

Lemma queue_in_drop n cap slot read write xs :
  (n <= length xs)%nat -> queue_in cap slot read write xs ->
  queue_in cap slot (u32 (read + Z.of_nat n)) write (drop n xs).
Proof.
  intros Hn [H1 H2 H3 H4 H5].
  pose proof (wrap_drop write read (Z.of_nat n) ltac:(lia)) as E.
  split; rewrite ?E, ?length_drop; try done; [apply u32_range|lia|lia|].
  intros k Hk. rewrite lookup_drop, H5 by lia. rewrite u32_add_l. do 3 f_equal. lia.
Qed.
End Queue.
