(* ===== verification/Audio.v ===== *)
(** The XA audio decoder (runner/src/cdi_audio.c): ADPCM sound groups to PCM
    frames, the running hash of the samples, and the ring that carries frames to
    the frontend, as operations and as the atomic steps of its two threads. *)

From Stdlib Require Import ZArith Lia Bool.
From stdpp Require Import base tactics numbers list gmap.
From S2P Require Import Prelude Irq Ciap.
Open Scope Z_scope.

Definition XA_PAYLOAD_OFFSET : Z := 12.
Definition XA_SOUND_GROUPS : nat := 18.
Definition XA_SOUND_GROUP_BYTES : Z := 128.
Definition XA_SAMPLES_PER_UNIT : nat := 28.
Definition AUDIO_RING_FRAMES : Z := 0x20000.
Definition FNV_OFFSET : Z := 0xCBF29CE484222325.
Definition FNV_PRIME : Z := 0x100000001B3.

Record CdiAudio := mkAudio {
  previous : list Z;          (* int32_t[2][2], by channel *)
  ring : gmap Z (Z * Z);      (* int16_t[AUDIO_RING_FRAMES][2] *)
  write_index : Z;
  read_index : Z;
  sectors : Z;
  sample_frames : Z;
  pcm_hash : Z;
  dropped_frames : Z;
}.
Definition audio_fields :=
  (tt, previous, ring, write_index, read_index, sectors, sample_frames, pcm_hash, dropped_frames).
Ltac audio_set a f v := setter mkAudio a f v audio_fields.
Definition set_previous (v : list Z) (a : CdiAudio) : CdiAudio := ltac:(audio_set a previous v).
Definition set_ring (v : gmap Z (Z * Z)) (a : CdiAudio) : CdiAudio := ltac:(audio_set a ring v).
Definition set_write_index (v : Z) (a : CdiAudio) : CdiAudio := ltac:(audio_set a write_index v).
Definition set_read_index (v : Z) (a : CdiAudio) : CdiAudio := ltac:(audio_set a read_index v).
Definition set_sectors (v : Z) (a : CdiAudio) : CdiAudio := ltac:(audio_set a sectors v).
Definition set_sample_frames (v : Z) (a : CdiAudio) : CdiAudio := ltac:(audio_set a sample_frames v).
Definition set_pcm_hash (v : Z) (a : CdiAudio) : CdiAudio := ltac:(audio_set a pcm_hash v).
Definition set_dropped_frames (v : Z) (a : CdiAudio) : CdiAudio := ltac:(audio_set a dropped_frames v).

(** * One sample *)
Definition clamp_sample (value : Z) : Z :=
  if 32767 <? value then 32767 else if value <? -32768 then -32768 else value.

Definition xa_filter (index : Z) : Z * Z :=
  if index =? 1 then (60, 0) else if index =? 2 then (115, -52)
  else if index =? 3 then (98, -55) else (0, 0).
Definition filter_index (parameter : Z) : Z :=
  let index := Z.shiftr parameter 4 in if 3 <? index then 0 else index.
Definition sample_shift (parameter : Z) : Z :=
  let shift := Z.land parameter 15 in if 12 <? shift then 12 else shift.

(** [source * (1 << 12)] or [source * (1 << 8)], before it is shifted back. *)
Definition scaled (source : Z) (eight_bit : bool) : Z :=
  source * Z.shiftl 1 (if eight_bit then 8 else 12).
Definition weighted (p0 p1 parameter : Z) : Z :=
  let '(f0, f1) := xa_filter (filter_index parameter) in p0 * f0 + p1 * f1 + 32.

(** The [int32_t] the code clamps. *)
Definition unclamped (source parameter p0 p1 : Z) (eight_bit : bool) : Z :=
  Z.shiftr (scaled source eight_bit) (sample_shift parameter) + Z.shiftr (weighted p0 p1 parameter) 6.

Definition decode_sample (source parameter channel : Z) (eight_bit : bool) (a : CdiAudio)
    : Z * CdiAudio :=
  let p0 := lget (previous a) (channel * 2) in
  let p1 := lget (previous a) (channel * 2 + 1) in
  let decoded := clamp_sample (unclamped source parameter p0 p1 eight_bit) in
  let a := set_previous (lset (previous a) (channel * 2 + 1) (lget (previous a) (channel * 2))) a in
  let a := set_previous (lset (previous a) (channel * 2) decoded) a in
  (decoded, a).

(** * The hash *)
Definition hash_byte (hash byte : Z) : Z := u64 (Z.lxor hash byte * FNV_PRIME).
Definition hash_sample (hash sample : Z) : Z :=
  let bits := u16 sample in
  hash_byte (hash_byte hash (u8 bits)) (u8 (Z.shiftr bits 8)).
Definition hash_frame (hash : Z) (frame : Z * Z) : Z :=
  hash_sample (hash_sample hash (fst frame)) (snd frame).

(** * Frames

    The counters that [cdi_audio_decode_groups] keeps in locals. *)
Record Counts := mkCounts { c_hash : Z; c_frames : Z; c_dropped : Z }.

Definition ring_slot (index : Z) : Z := Z.land index (AUDIO_RING_FRAMES - 1).
Definition ring_frame (a : CdiAudio) (index : Z) : Z * Z := default (0, 0) (ring a !! ring_slot index).
Definition store_left (index l : Z) (a : CdiAudio) : CdiAudio :=
  set_ring (<[ring_slot index := (l, snd (ring_frame a index))]> (ring a)) a.
Definition store_right (index r : Z) (a : CdiAudio) : CdiAudio :=
  set_ring (<[ring_slot index := (fst (ring_frame a index), r)]> (ring a)) a.

Definition count_frame (frame : Z * Z) (c : Counts) : Counts :=
  mkCounts (hash_frame (c_hash c) frame) (u64 (c_frames c + 1)) (c_dropped c).
Definition count_dropped (c : Counts) : Counts :=
  mkCounts (c_hash c) (c_frames c) (u64 (c_dropped c + 1)).

(** One turn of the loop of [emit_frame]. *)
Definition emit_one (frame : Z * Z) (x : Counts * CdiAudio) : Counts * CdiAudio :=
  let '(c, a) := x in
  let write := write_index a in
  let read := read_index a in
  let c := count_frame frame c in
  if AUDIO_RING_FRAMES <=? u32 (write - read) then (count_dropped c, a)
  else
    let a := store_left write (fst frame) a in
    let a := store_right write (snd frame) a in
    (c, set_write_index (u32 (write + 1)) a).

Definition emit_frame (frame : Z * Z) (duplicate : bool) (x : Counts * CdiAudio) : Counts * CdiAudio :=
  if duplicate then emit_one frame (emit_one frame x) else emit_one frame x.

Definition cdi_audio_reset (a : CdiAudio) : CdiAudio :=
  mkAudio [0; 0; 0; 0] (ring a) 0 0 0 0 FNV_OFFSET 0.

(** * Sound groups *)
Definition coding_stereo (coding : Z) : bool := Z.land coding 3 =? 1.
Definition coding_eight_bit (coding : Z) : bool := Z.land coding 0x30 =? 0x10.
Definition coding_duplicate (coding : Z) : bool := Z.land coding 0x0C =? 0x04.
Definition sound_units (eight_bit : bool) : nat := if eight_bit then 4 else 8.

Definition unit_channel (stereo : bool) (unit : Z) : Z := if stereo then Z.land unit 1 else 0.
Definition unit_parameter (group : list Z) (unit : Z) : Z :=
  lget group (4 + Z.land unit 3 + (if z2b (Z.land unit 4) then 8 else 0)).
Definition unit_source (group : list Z) (unit sample : Z) (eight_bit : bool) : Z :=
  let packed := lget group (16 + sample * 4 + (if eight_bit then unit else unit / 2)) in
  if eight_bit then i8 packed
  else
    let nibble := if z2b (Z.land unit 1) then Z.shiftr packed 4 else Z.land packed 15 in
    if z2b (Z.land nibble 8) then nibble - 16 else nibble.

Section Groups.
Variables (stereo eight_bit : bool) (group : list Z).

(** [decoded[unit]] from sample [k] on. *)
Fixpoint decode_samples (n : nat) (unit k : Z) (a : CdiAudio) : list Z * CdiAudio :=
  match n with
  | O => ([], a)
  | S n' =>
    let '(v, a) := decode_sample (unit_source group unit k eight_bit) (unit_parameter group unit)
                     (unit_channel stereo unit) eight_bit a in
    let '(vs, a) := decode_samples n' unit (k + 1) a in
    (v :: vs, a)
  end.

(** [decoded] from unit [unit] on. *)
Fixpoint decode_units (n : nat) (unit : Z) (a : CdiAudio) : list (list Z) * CdiAudio :=
  match n with
  | O => ([], a)
  | S n' =>
    let '(vs, a) := decode_samples XA_SAMPLES_PER_UNIT unit 0 a in
    let '(rest, a) := decode_units n' (unit + 1) a in
    (vs :: rest, a)
  end.
End Groups.

Section Emission.
Variable duplicate : bool.

Fixpoint emit_frames (frames : list (Z * Z)) (x : Counts * CdiAudio) : Counts * CdiAudio :=
  match frames with
  | [] => x
  | frame :: rest => emit_frames rest (emit_frame frame duplicate x)
  end.

(** The units two by two, or each unit on both sides. *)
Fixpoint emit_stereo (decoded : list (list Z)) (x : Counts * CdiAudio) : Counts * CdiAudio :=
  match decoded with
  | l :: r :: rest => emit_stereo rest (emit_frames (combine l r) x)
  | _ => x
  end.
Fixpoint emit_mono (decoded : list (list Z)) (x : Counts * CdiAudio) : Counts * CdiAudio :=
  match decoded with
  | unit :: rest => emit_mono rest (emit_frames (combine unit unit) x)
  | [] => x
  end.
End Emission.

Definition sound_group (sound_groups : list Z) (index : Z) : list Z :=
  drop (Z.to_nat (index * XA_SOUND_GROUP_BYTES)) sound_groups.

Definition decode_group (coding : Z) (group : list Z) (x : Counts * CdiAudio) : Counts * CdiAudio :=
  let '(c, a) := x in
  let stereo := coding_stereo coding in
  let eight_bit := coding_eight_bit coding in
  let '(decoded, a) := decode_units stereo eight_bit group (sound_units eight_bit) 0 a in
  (if stereo then emit_stereo else emit_mono) (coding_duplicate coding) decoded (c, a).

Fixpoint decode_loop (n : nat) (index coding : Z) (sound_groups : list Z) (x : Counts * CdiAudio)
    : Counts * CdiAudio :=
  match n with
  | O => x
  | S n' => decode_loop n' (index + 1) coding sound_groups
              (decode_group coding (sound_group sound_groups index) x)
  end.

Definition finish_sector (x : Counts * CdiAudio) : CdiAudio :=
  let '(c, a) := x in
  let a := set_sectors (u64 (sectors a + 1)) a in
  let a := set_sample_frames (u64 (sample_frames a + c_frames c)) a in
  let a := set_pcm_hash (c_hash c) a in
  set_dropped_frames (u64 (dropped_frames a + c_dropped c)) a.

Definition cdi_audio_decode_groups (sound_groups : list Z) (coding : Z) (a : CdiAudio) : Z * CdiAudio :=
  let x := decode_loop XA_SOUND_GROUPS 0 coding sound_groups (mkCounts (pcm_hash a) 0 0, a) in
  (u32 (c_frames (fst x)), finish_sector x).

Definition cdi_audio_decode_sector (sector : list Z) (a : CdiAudio) : bool * CdiAudio :=
  if negb (lget sector 3 =? 2) || negb (z2b (Z.land (lget sector 6) 0x04)) then (false, a)
  else
    let '(frames, a) :=
      cdi_audio_decode_groups (drop (Z.to_nat XA_PAYLOAD_OFFSET) sector) (lget sector 7) a in
    (negb (frames =? 0), a).

(** * The frontend's side *)
Fixpoint copy_frames (n : nat) (index : Z) (a : CdiAudio) : list (Z * Z) :=
  match n with
  | O => []
  | S n' => ring_frame a index :: copy_frames n' (u32 (index + 1)) a
  end.

(** A null buffer is [capacity = 0]. *)
Definition cdi_audio_read_frames (capacity : Z) (a : CdiAudio) : list (Z * Z) * CdiAudio :=
  if capacity =? 0 then ([], a)
  else
    let read := read_index a in
    let write := write_index a in
    let available := u32 (write - read) in
    let available := if capacity <? available then capacity else available in
    (copy_frames (Z.to_nat available) read a, set_read_index (u32 (read + available)) a).

Record CdiAudioState := mkAudioState {
  as_sectors : Z; as_sample_frames : Z; as_pcm_fnv1a : Z; as_dropped_frames : Z; as_queued_frames : Z;
}.
Definition cdi_audio_debug_state (a : CdiAudio) : CdiAudioState :=
  mkAudioState (sectors a) (sample_frames a) (pcm_hash a) (dropped_frames a)
    (u32 (write_index a - read_index a)).

(** The CD interface's audio decoder. *)
#[export] Instance cdi_audio_ops : AudioOps CdiAudio := {
  audio_reset := cdi_audio_reset;
  audio_decode_groups := cdi_audio_decode_groups;
  audio_decode_sector sector a := snd (cdi_audio_decode_sector sector a);
}.

(** * The two threads

    While a sector is decoded the frontend may be reading. The frames still to be
    emitted, and the counters, are the emulation's; the ring and its two indices
    are shared. Each step is one access to the shared storage. *)
Inductive Emitter :=
| LoadWrite                  (* between two frames *)
| LoadRead (write : Z)
| Decide (write read : Z)    (* the frame is hashed and counted, and kept or not *)
| PutLeft (write : Z)
| PutRight (write : Z)
| PublishFrame (write : Z).

Inductive AudioReader :=
| ReadIdle
| ReadWrite (capacity read : Z)  (* read_index is loaded *)
| ReadLeft (read available : Z) (out : list (Z * Z))
| ReadRight (read available l : Z) (out : list (Z * Z)).

Inductive audio_event :=
| Accepted (frame : Z * Z)        (* in the ring *)
| Refused (frame : Z * Z)         (* the ring was full *)
| Delivered (frames : list (Z * Z)).  (* a read has returned *)

(** The emulation's part: the frames to emit, first the one that is being
    emitted, and the counters. *)
Record Emulation := mkEmulation { emitter : Emitter; todo : list (Z * Z); counts : Counts }.

Definition emit_step (p : Emulation) (a : CdiAudio) : Emulation * CdiAudio * list audio_event :=
  let go e := mkEmulation e (todo p) (counts p) in
  match todo p with
  | [] => (p, a, [])
  | frame :: rest =>
    match emitter p with
    | LoadWrite => (go (LoadRead (write_index a)), a, [])
    | LoadRead write => (go (Decide write (read_index a)), a, [])
    | Decide write read =>
      let c := count_frame frame (counts p) in
      if AUDIO_RING_FRAMES <=? u32 (write - read)
      then (mkEmulation LoadWrite rest (count_dropped c), a, [Refused frame])
      else (mkEmulation (PutLeft write) (todo p) c, a, [])
    | PutLeft write => (go (PutRight write), store_left write (fst frame) a, [])
    | PutRight write => (go (PublishFrame write), store_right write (snd frame) a, [])
    | PublishFrame write =>
      (mkEmulation LoadWrite rest (counts p), set_write_index (u32 (write + 1)) a, [Accepted frame])
    end
  end.

(** The reader of a capacity that is not 0; a reader that has copied all stores
    the index. *)
Definition read_step (capacity : Z) (r : AudioReader) (a : CdiAudio) : AudioReader * CdiAudio * list audio_event :=
  match r with
  | ReadIdle => (ReadWrite capacity (read_index a), a, [])
  | ReadWrite capacity read =>
    let available := u32 (write_index a - read) in
    (ReadLeft read (if capacity <? available then capacity else available) [], a, [])
  | ReadLeft read available out =>
    let i := Z.of_nat (length out) in
    if i <? available
    then (ReadRight read available (fst (ring_frame a (u32 (read + i)))) out, a, [])
    else (ReadIdle, set_read_index (u32 (read + available)) a, [Delivered out])
  | ReadRight read available l out =>
    let i := Z.of_nat (length out) in
    (ReadLeft read available (out ++ [(l, snd (ring_frame a (u32 (read + i))))]), a, [])
  end.

Record AudioThreads := mkAudioThreads { emulation : Emulation; frontend : AudioReader; device : CdiAudio }.

(** [None] lets the emulation take a step, [Some capacity] the frontend. *)
Definition audio_step (who : option Z) (t : AudioThreads) : AudioThreads * list audio_event :=
  match who with
  | None =>
    let '(p, a, es) := emit_step (emulation t) (device t) in (mkAudioThreads p (frontend t) a, es)
  | Some capacity =>
    let '(r, a, es) := read_step capacity (frontend t) (device t) in
    (mkAudioThreads (emulation t) r a, es)
  end.

Fixpoint audio_run (schedule : list (option Z)) (t : AudioThreads) : AudioThreads * list audio_event :=
  match schedule with
  | [] => (t, [])
  | who :: rest =>
    let '(t, es) := audio_step who t in
    let '(t, es') := audio_run rest t in
    (t, es ++ es')
  end.

(** What the events say of the frames. *)
Definition accepted (es : list audio_event) : list (Z * Z) :=
  omap (fun e => match e with Accepted f => Some f | _ => None end) es.
Definition emitted (es : list audio_event) : list (Z * Z) :=
  omap (fun e => match e with Accepted f | Refused f => Some f | _ => None end) es.
Definition delivered (es : list audio_event) : list (Z * Z) :=
  concat (omap (fun e => match e with Delivered fs => Some fs | _ => None end) es).
