(* ===== verification/AudioSpec.v ===== *)
(** The audio decoder against a reference: each side of the output is one ADPCM
    recurrence over the codes of its units. The samples stay in their types. *)

From Stdlib Require Import ZArith Lia Bool.
From stdpp Require Import base tactics numbers list gmap.
From S2P Require Import Prelude Irq Ciap Audio.
Open Scope Z_scope.

(** * The reference *)

(** A code is a source and its parameter byte. *)
Section Stream.
Variable eight_bit : bool.

Definition predict (code : Z * Z) (p : Z * Z) : Z :=
  clamp_sample (unclamped (fst code) (snd code) (fst p) (snd p) eight_bit).

(** The samples of a side, from its last two. *)
Fixpoint xa_stream (codes : list (Z * Z)) (p : Z * Z) : list Z :=
  match codes with
  | [] => []
  | code :: rest => predict code p :: xa_stream rest (predict code p, fst p)
  end.
Fixpoint xa_last (codes : list (Z * Z)) (p : Z * Z) : Z * Z :=
  match codes with
  | [] => p
  | code :: rest => xa_last rest (predict code p, fst p)
  end.

Definition unit_codes (group : list Z) (unit : Z) : list (Z * Z) :=
  map (fun k => (unit_source group unit k eight_bit, unit_parameter group unit)) (seqZ 0 28).
Definition units_codes (group : list Z) (units : list Z) : list (Z * Z) :=
  concat (map (unit_codes group) units).
End Stream.

(** The units of a side of a group: [n] of them from [unit] on, by steps. *)
Fixpoint units_by (step : Z) (n : nat) (unit : Z) : list Z :=
  match n with O => [] | S n' => unit :: units_by step n' (unit + step) end.
Definition side_units (coding side : Z) : list Z :=
  let n := sound_units (coding_eight_bit coding) in
  if coding_stereo coding then units_by 2 (Nat.div2 n) side else units_by 1 n 0.
Definition group_codes (coding side : Z) (group : list Z) : list (Z * Z) :=
  units_codes (coding_eight_bit coding) group (side_units coding side).
Definition groups_codes (coding side : Z) (sound_groups : list Z) (indices : list Z) : list (Z * Z) :=
  concat (map (fun i => group_codes coding side (sound_group sound_groups i)) indices).

(** A state's last two samples of a side. *)
Definition side_previous (p : list Z) (side : Z) : Z * Z := (lget p (side * 2), lget p (side * 2 + 1)).
Definition pair_previous (l r : Z * Z) : list Z := [fst l; snd l; fst r; snd r].

Section Reference.
Variable coding : Z.
Let eight_bit := coding_eight_bit coding.

(** The frames of a list of codes by sides, before any is doubled. *)
Definition frames_of_codes (codes : Z -> list (Z * Z)) (p : list Z) : list (Z * Z) :=
  let l := xa_stream eight_bit (codes 0) (side_previous p 0) in
  if coding_stereo coding
  then combine l (xa_stream eight_bit (codes 1) (side_previous p 1)) else combine l l.
Definition previous_of_codes (codes : Z -> list (Z * Z)) (p : list Z) : list Z :=
  pair_previous (xa_last eight_bit (codes 0) (side_previous p 0))
    (if coding_stereo coding then xa_last eight_bit (codes 1) (side_previous p 1)
     else side_previous p 1).

(** A frame of an 18.9 kHz coding is played twice. *)
Definition play (frames : list (Z * Z)) : list (Z * Z) :=
  concat (map (fun f => if coding_duplicate coding then [f; f] else [f]) frames).

Definition sector_codes (sound_groups : list Z) (side : Z) : list (Z * Z) :=
  groups_codes coding side sound_groups (seqZ 0 18).
(** What a sector plays, and the state of the predictors after it. *)
Definition sector_frames (sound_groups : list Z) (p : list Z) : list (Z * Z) :=
  play (frames_of_codes (sector_codes sound_groups) p).
Definition sector_previous (sound_groups : list Z) (p : list Z) : list Z :=
  previous_of_codes (sector_codes sound_groups) p.
End Reference.

Definition emit_all (frames : list (Z * Z)) (x : Counts * CdiAudio) : Counts * CdiAudio :=
  fold_left (fun x f => emit_one f x) frames x.

(** The decoder of a sector by the reference. *)
Definition reference_decode (sound_groups : list Z) (coding : Z) (a : CdiAudio) : Z * CdiAudio :=
  let frames := sector_frames coding sound_groups (previous a) in
  let a := set_previous (sector_previous coding sound_groups (previous a)) a in
  let x := emit_all frames (mkCounts (pcm_hash a) 0 0, a) in
  (u32 (c_frames (fst x)), finish_sector x).

(** * Streams *)
Lemma xa_stream_app eb c c' p :
  xa_stream eb (c ++ c') p = xa_stream eb c p ++ xa_stream eb c' (xa_last eb c p).
Proof. revert p. induction c as [|x c IH]; intros p; [done|]. cbn. by rewrite IH. Qed.
Lemma xa_last_app eb c c' p : xa_last eb (c ++ c') p = xa_last eb c' (xa_last eb c p).
Proof. revert p. induction c as [|x c IH]; intros p; [done|]. cbn. by rewrite IH. Qed.
Lemma length_xa_stream eb c p : length (xa_stream eb c p) = length c.
Proof. revert p. induction c as [|x c IH]; intros p; [done|]. cbn. by rewrite IH. Qed.

Lemma length_unit_codes eb g u : length (unit_codes eb g u) = 28%nat.
Proof. reflexivity. Qed.
Lemma length_units_codes eb g us : length (units_codes eb g us) = (28 * length us)%nat.
Proof.
  unfold units_codes. induction us as [|u us IH]; [done|]. cbn [map concat length].
  rewrite length_app, length_unit_codes, IH. lia.
Qed.
Lemma length_units_by step n u : length (units_by step n u) = n.
Proof. revert u. induction n as [|n IH]; intros u; [done|]. cbn. by rewrite IH. Qed.

Lemma combine_app {A B} (l1 l2 : list A) (r1 r2 : list B) :
  length l1 = length r1 -> combine (l1 ++ l2) (r1 ++ r2) = combine l1 r1 ++ combine l2 r2.
Proof.
  revert r1. induction l1 as [|x l1 IH]; intros [|y r1] E; try done. cbn in *. f_equal.
  apply IH. lia.
Qed.

Lemma list_pair_ind {A} (P : list A -> Prop) :
  P [] -> (forall x, P [x]) -> (forall x y l, P l -> P (x :: y :: l)) -> forall l, P l.
Proof.
  intros H0 H1 H2. assert (forall l, P l /\ forall x, P (x :: l)) as H; [|intros l; apply H].
  induction l as [|y l [IH1 IH2]]; split; auto.
Qed.

(** * The loops of a group *)
Lemma set_previous_twice p q a : set_previous p (set_previous q a) = set_previous p a.
Proof. done. Qed.
Lemma previous_set p a : previous (set_previous p a) = p.
Proof. done. Qed.
Lemma set_previous_same a : set_previous (previous a) a = a.
Proof. by destruct a. Qed.

(** The predictors by sides, and one of them replaced. *)
Definition pick (side : Z) (l r : Z * Z) : Z * Z := if side =? 0 then l else r.
Definition put_left (side : Z) (v l : Z * Z) : Z * Z := if side =? 0 then v else l.
Definition put_right (side : Z) (v r : Z * Z) : Z * Z := if side =? 0 then r else v.
Definition with_previous (l r : Z * Z) (a : CdiAudio) : CdiAudio := set_previous (pair_previous l r) a.

Lemma decode_sample_eq source parameter side eb l r a :
  side = 0 \/ side = 1 ->
  let x := predict eb (source, parameter) (pick side l r) in
  let v := (x, fst (pick side l r)) in
  decode_sample source parameter side eb (with_previous l r a) =
  (x, with_previous (put_left side v l) (put_right side v r) a).
Proof. destruct l, r, a. by intros [-> | ->]. Qed.

Lemma pick_put side v l r : pick side (put_left side v l) (put_right side v r) = v.
Proof. unfold pick, put_left, put_right. by destruct (side =? 0). Qed.
Lemma put_left_put side v w l : put_left side v (put_left side w l) = put_left side v l.
Proof. unfold put_left. by destruct (side =? 0). Qed.
Lemma put_right_put side v w r : put_right side v (put_right side w r) = put_right side v r.
Proof. unfold put_right. by destruct (side =? 0). Qed.

Lemma put_pick side l r :
  put_left side (pick side l r) l = l /\ put_right side (pick side l r) r = r.
Proof. unfold pick, put_left, put_right. by destruct (side =? 0). Qed.

Lemma decode_samples_eq stereo eb g unit n k l r a :
  let side := unit_channel stereo unit in
  let codes := map (fun k => (unit_source g unit k eb, unit_parameter g unit)) (seqZ k (Z.of_nat n)) in
  let v := xa_last eb codes (pick side l r) in
  side = 0 \/ side = 1 ->
  decode_samples stereo eb g n unit k (with_previous l r a) =
  (xa_stream eb codes (pick side l r), with_previous (put_left side v l) (put_right side v r) a).
Proof.
  cbv zeta. intros Hs. revert k l r. induction n as [|n IH]; intros k l r.
  - change (seqZ k (Z.of_nat 0)) with (@nil Z). cbn [decode_samples map xa_stream xa_last].
    by destruct (put_pick (unit_channel stereo unit) l r) as [-> ->].
  - rewrite seqZ_cons, Nat2Z.inj_succ, Z.pred_succ by lia. cbn [decode_samples map xa_stream xa_last].
    rewrite decode_sample_eq by done. cbv zeta. change (k + 1) with (Z.succ k).
    rewrite IH, pick_put, put_left_put, put_right_put. done.
Qed.

Lemma decode_unit_left stereo eb g unit l r a :
  unit_channel stereo unit = 0 ->
  decode_samples stereo eb g XA_SAMPLES_PER_UNIT unit 0 (with_previous l r a) =
  (xa_stream eb (unit_codes eb g unit) l, with_previous (xa_last eb (unit_codes eb g unit) l) r a).
Proof. intros E. rewrite decode_samples_eq by (left; done). by rewrite E. Qed.
Lemma decode_unit_right stereo eb g unit l r a :
  unit_channel stereo unit = 1 ->
  decode_samples stereo eb g XA_SAMPLES_PER_UNIT unit 0 (with_previous l r a) =
  (xa_stream eb (unit_codes eb g unit) r, with_previous l (xa_last eb (unit_codes eb g unit) r) a).
Proof. intros E. rewrite decode_samples_eq by (right; done). by rewrite E. Qed.

(** ** Units *)
Fixpoint stereo_frames (decoded : list (list Z)) : list (Z * Z) :=
  match decoded with l :: r :: rest => combine l r ++ stereo_frames rest | _ => [] end.
Fixpoint mono_frames (decoded : list (list Z)) : list (Z * Z) :=
  match decoded with u :: rest => combine u u ++ mono_frames rest | [] => [] end.

Lemma units_codes_cons eb g u us :
  units_codes eb g (u :: us) = unit_codes eb g u ++ units_codes eb g us.
Proof. done. Qed.

Lemma decode_units_stereo eb g m unit l r a :
  unit_channel true unit = 0 ->
  let cl := units_codes eb g (units_by 2 m unit) in
  let cr := units_codes eb g (units_by 2 m (unit + 1)) in
  let x := decode_units true eb g (2 * m) unit (with_previous l r a) in
  stereo_frames (fst x) = combine (xa_stream eb cl l) (xa_stream eb cr r) /\
  snd x = with_previous (xa_last eb cl l) (xa_last eb cr r) a.
Proof.
  revert unit l r. induction m as [|m IH]; intros unit l r Hu; [done|]. cbv zeta.
  replace (2 * S m)%nat with (S (S (2 * m))) by lia. cbn [decode_units units_by].
  assert (unit_channel true (unit + 1) = 1 /\ unit_channel true (unit + 1 + 1) = 0) as [H1 H2].
  { unfold unit_channel in *. rewrite !(Z.land_ones _ 1) in * by lia. change (2 ^ 1) with 2 in *.
    split; zlia. }
  rewrite decode_unit_left, decode_unit_right by done.
  specialize (IH (unit + 1 + 1) (xa_last eb (unit_codes eb g unit) l)
    (xa_last eb (unit_codes eb g (unit + 1)) r) H2).
  cbv zeta in IH. destruct (decode_units _ _ _ _ _ _) as [rest a']. cbn [fst snd] in *.
  destruct IH as [E1 E2]. cbn [stereo_frames]. rewrite E1, E2, !units_codes_cons, !xa_stream_app, !xa_last_app.
  replace (unit + 2) with (unit + 1 + 1) by lia. replace (unit + 1 + 2) with (unit + 1 + 1 + 1) by lia.
  split; [|done]. symmetry. apply combine_app. by rewrite !length_xa_stream, !length_unit_codes.
Qed.

Lemma decode_units_mono eb g n unit l r a :
  let cl := units_codes eb g (units_by 1 n unit) in
  let x := decode_units false eb g n unit (with_previous l r a) in
  mono_frames (fst x) = combine (xa_stream eb cl l) (xa_stream eb cl l) /\
  snd x = with_previous (xa_last eb cl l) r a.
Proof.
  revert unit l. induction n as [|n IH]; intros unit l; [done|]. cbv zeta.
  cbn [decode_units units_by]. rewrite decode_unit_left by done.
  specialize (IH (unit + 1) (xa_last eb (unit_codes eb g unit) l)).
  cbv zeta in IH. destruct (decode_units _ _ _ _ _ _) as [rest a']. cbn [fst snd] in *.
  destruct IH as [E1 E2]. cbn [mono_frames]. rewrite E1, E2, !units_codes_cons, !xa_stream_app, !xa_last_app.
  split; [|done]. symmetry. by apply combine_app.
Qed.

(** ** Emission *)
Lemma emit_all_app f g x : emit_all (f ++ g) x = emit_all g (emit_all f x).
Proof. apply fold_left_app. Qed.
Lemma play_app coding f g : play coding (f ++ g) = play coding f ++ play coding g.
Proof. unfold play. by rewrite map_app, concat_app. Qed.

Lemma emit_frames_eq coding frames x :
  emit_frames (coding_duplicate coding) frames x = emit_all (play coding frames) x.
Proof.
  revert x. induction frames as [|f fs IH]; intros x; [done|]. cbn [emit_frames].
  change (f :: fs) with ([f] ++ fs). rewrite IH, play_app, emit_all_app. f_equal.
  unfold play, emit_frame. by destruct (coding_duplicate coding).
Qed.
Lemma emit_stereo_eq coding decoded x :
  emit_stereo (coding_duplicate coding) decoded x = emit_all (play coding (stereo_frames decoded)) x.
Proof.
  revert x. induction decoded as [|u|l r rest IH] using list_pair_ind; intros x; [done..|].
  cbn [emit_stereo stereo_frames]. by rewrite IH, play_app, emit_all_app, emit_frames_eq.
Qed.
Lemma emit_mono_eq coding decoded x :
  emit_mono (coding_duplicate coding) decoded x = emit_all (play coding (mono_frames decoded)) x.
Proof.
  revert x. induction decoded as [|u rest IH]; intros x; [done|].
  cbn [emit_mono mono_frames]. by rewrite IH, play_app, emit_all_app, emit_frames_eq.
Qed.

Lemma emit_one_previous f p c a :
  emit_one f (c, set_previous p a) =
  (fst (emit_one f (c, a)), set_previous p (snd (emit_one f (c, a)))).
Proof.
  cbn [emit_one]. change (write_index (set_previous p a)) with (write_index a).
  change (read_index (set_previous p a)) with (read_index a). by destruct (_ <=? _).
Qed.
Lemma emit_all_previous fs p c a :
  emit_all fs (c, set_previous p a) =
  (fst (emit_all fs (c, a)), set_previous p (snd (emit_all fs (c, a)))).
Proof.
  revert c a. induction fs as [|f fs IH]; intros c a; [done|]. cbn [emit_all fold_left].
  rewrite emit_one_previous. destruct (emit_one f (c, a)) as [c1 a1]. apply IH.
Qed.

(** ** Groups *)
Lemma decode_group_eq coding g l r c a :
  let eb := coding_eight_bit coding in
  let codes side := group_codes coding side g in
  decode_group coding g (c, with_previous l r a) =
  emit_all (play coding (frames_of_codes coding codes (pair_previous l r)))
    (c, set_previous (previous_of_codes coding codes (pair_previous l r)) a).
Proof.
  cbv zeta. unfold decode_group, frames_of_codes, previous_of_codes, group_codes, side_units.
  set (eb := coding_eight_bit coding).
  change (side_previous (pair_previous l r) 0) with (fst l, snd l).
  change (side_previous (pair_previous l r) 1) with (fst r, snd r).
  rewrite <- !surjective_pairing. destruct (coding_stereo coding).
  - replace (sound_units eb) with (2 * Nat.div2 (sound_units eb))%nat by (by destruct eb).
    pose proof (decode_units_stereo eb g (Nat.div2 (sound_units eb)) 0 l r a eq_refl) as H.
    cbv zeta in H. destruct (decode_units _ _ _ _ _ _) as [decoded a']. cbn [fst snd] in H.
    destruct H as [E1 ->]. rewrite emit_stereo_eq, E1.
    replace (Nat.div2 (2 * Nat.div2 (sound_units eb))) with (Nat.div2 (sound_units eb)) by (by destruct eb).
    done.
  - pose proof (decode_units_mono eb g (sound_units eb) 0 l r a) as H.
    cbv zeta in H. destruct (decode_units _ _ _ _ _ _) as [decoded a']. cbn [fst snd] in H.
    destruct H as [E1 ->]. by rewrite emit_mono_eq, E1.
Qed.

Definition app_codes (c d : Z -> list (Z * Z)) (side : Z) : list (Z * Z) := c side ++ d side.

Lemma side_pair l r :
  side_previous (pair_previous l r) 0 = l /\ side_previous (pair_previous l r) 1 = r.
Proof. by destruct l, r. Qed.

Lemma frames_of_codes_app coding c d p :
  (coding_stereo coding = true -> length (c 0) = length (c 1)) ->
  frames_of_codes coding (app_codes c d) p =
  frames_of_codes coding c p ++ frames_of_codes coding d (previous_of_codes coding c p).
Proof.
  intros Hl. unfold frames_of_codes, app_codes. rewrite !xa_stream_app. unfold previous_of_codes.
  destruct (side_pair (xa_last (coding_eight_bit coding) (c 0) (side_previous p 0))
    (if coding_stereo coding then xa_last (coding_eight_bit coding) (c 1) (side_previous p 1)
     else side_previous p 1)) as [-> ->].
  destruct (coding_stereo coding); apply combine_app; rewrite !length_xa_stream; auto.
Qed.

Lemma previous_of_codes_app coding c d p :
  previous_of_codes coding (app_codes c d) p =
  previous_of_codes coding d (previous_of_codes coding c p).
Proof.
  unfold previous_of_codes, app_codes. rewrite !xa_last_app.
  destruct (side_pair (xa_last (coding_eight_bit coding) (c 0) (side_previous p 0))
    (if coding_stereo coding then xa_last (coding_eight_bit coding) (c 1) (side_previous p 1)
     else side_previous p 1)) as [-> ->].
  by destruct (coding_stereo coding).
Qed.

Lemma length_side_units coding side :
  length (side_units coding side) =
  (if coding_stereo coding then Nat.div2 (sound_units (coding_eight_bit coding))
   else sound_units (coding_eight_bit coding)).
Proof. unfold side_units. destruct (coding_stereo coding); apply length_units_by. Qed.
Lemma length_group_codes coding side g :
  length (group_codes coding side g) = (28 * length (side_units coding side))%nat.
Proof. apply length_units_codes. Qed.

(** The predictors are two pairs. *)
Lemma pair_previous_eq p : length p = 4%nat -> p = pair_previous (side_previous p 0) (side_previous p 1).
Proof. destruct p as [|a [|b [|c [|d [|]]]]]; done. Qed.
Lemma length_previous_of_codes coding c p : length (previous_of_codes coding c p) = 4%nat.
Proof. done. Qed.

Lemma decode_group_eq' coding g c p a :
  length p = 4%nat ->
  let codes side := group_codes coding side g in
  decode_group coding g (c, set_previous p a) =
  emit_all (play coding (frames_of_codes coding codes p))
    (c, set_previous (previous_of_codes coding codes p) a).
Proof. intros Hl. rewrite (pair_previous_eq p Hl). apply decode_group_eq. Qed.

Lemma decode_loop_eq coding groups n i c p a :
  length p = 4%nat ->
  let codes side := groups_codes coding side groups (seqZ i (Z.of_nat n)) in
  decode_loop n i coding groups (c, set_previous p a) =
  emit_all (play coding (frames_of_codes coding codes p))
    (c, set_previous (previous_of_codes coding codes p) a).
Proof.
  cbv zeta. revert i c p a. induction n as [|n IH]; intros i c p a Hl.
  - change (seqZ i (Z.of_nat 0)) with (@nil Z).
    assert (previous_of_codes coding (fun side => groups_codes coding side groups []) p = p) as E.
    { rewrite (pair_previous_eq p Hl) at 2. unfold previous_of_codes.
      by destruct (coding_stereo coding). }
    rewrite E. unfold frames_of_codes. by destruct (coding_stereo coding).
  - rewrite seqZ_cons, Nat2Z.inj_succ, Z.pred_succ by lia. cbn [decode_loop].
    rewrite decode_group_eq' by done. cbv zeta.
    set (c1 := fun side => group_codes coding side (sound_group groups i)).
    set (c2 := fun side => groups_codes coding side groups (seqZ (Z.succ i) (Z.of_nat n))).
    change (fun side => groups_codes coding side groups (i :: seqZ (Z.succ i) (Z.of_nat n)))
      with (app_codes c1 c2).
    rewrite frames_of_codes_app, previous_of_codes_app, play_app, emit_all_app
      by (intros Hs; unfold c1; by rewrite !length_group_codes, !length_side_units).
    rewrite !(emit_all_previous _ (previous_of_codes _ _ _) c).
    destruct (emit_all _ (c, a)) as [c' a'] eqn:E. cbn [fst snd].
    change (i + 1) with (Z.succ i). rewrite IH by done. done.
Qed.

Lemma decoder_is_reference sound_groups coding a :
  length (previous a) = 4%nat ->
  cdi_audio_decode_groups sound_groups coding a = reference_decode sound_groups coding a.
Proof.
  intros Hl. pose proof (decode_loop_eq coding sound_groups 18 0 (mkCounts (pcm_hash a) 0 0) _ a Hl) as E.
  cbv zeta in E. rewrite set_previous_same in E. unfold cdi_audio_decode_groups.
  change XA_SOUND_GROUPS with 18%nat. by rewrite E.
Qed.

(** C20. The decoder of sound groups is two ADPCM recurrences: each side of the
    output is the recurrence over the codes of its own units, in the order of
    groups and units, whatever the loops interleave; the frames pair the two
    sides (or one with itself), doubled for an 18.9 kHz coding, and the
    predictors are left at the last two samples of each side. *)
Theorem decoder_is_two_recurrences sound_groups coding a :
  length (previous a) = 4%nat ->
  cdi_audio_decode_groups sound_groups coding a = reference_decode sound_groups coding a.
Proof. apply decoder_is_reference. Qed.

Definition fresh_audio : CdiAudio := cdi_audio_reset (mkAudio [] ∅ 0 0 0 0 0 0).
Definition ramp_sector : list Z := map (fun i => u8 (i * 37)) (seqZ 0 2304).

Lemma decoder_is_two_recurrences_witness :
  length (previous fresh_audio) = 4%nat /\
  cdi_audio_decode_groups ramp_sector 1 fresh_audio = reference_decode ramp_sector 1 fresh_audio /\
  previous (snd (reference_decode ramp_sector 1 fresh_audio)) <> previous fresh_audio.
Proof.
  split; [reflexivity|]. split; [apply (decoder_is_two_recurrences ramp_sector 1 fresh_audio); reflexivity|].
  vm_compute. discriminate.
Defined.
