(* ===== verification/AudioBounds.v ===== *)
(** The audio decoder in its C types: no intermediate value of the decoder
    overflows, every sample is an [int16_t], and a sector has the number of frames
    of its coding. *)

From Stdlib Require Import ZArith Lia Bool.
From stdpp Require Import base tactics numbers list gmap.
From S2P Require Import Prelude Irq Ciap Audio AudioSpec.
Open Scope Z_scope.

Definition is_i16 (x : Z) : Prop := -32768 <= x <= 32767.
Definition is_i32 (x : Z) : Prop := -0x80000000 <= x <= 0x7FFFFFFF.
Definition frame_i16 (f : Z * Z) : Prop := is_i16 (fst f) /\ is_i16 (snd f).

(** The codes the decoder can read from bytes. *)
Definition code_ok (eight_bit : bool) (code : Z * Z) : Prop :=
  (if eight_bit then -128 <= fst code <= 127 else -8 <= fst code <= 7) /\ is_u8 (snd code).

(** Every value of [decode_sample] before it is clamped. *)
Definition no_overflow (eight_bit : bool) (code p : Z * Z) : Prop :=
  let '(f0, f1) := xa_filter (filter_index (snd code)) in
  is_i32 (scaled (fst code) eight_bit) /\ is_i32 (fst p * f0) /\ is_i32 (snd p * f1) /\
  is_i32 (fst p * f0 + snd p * f1) /\ is_i32 (weighted (fst p) (snd p) (snd code)) /\
  is_i32 (unclamped (fst code) (snd code) (fst p) (snd p) eight_bit).

Lemma clamp_i16 v : is_i16 (clamp_sample v).
Proof. unfold clamp_sample, is_i16. destruct (Z.ltb_spec 32767 v), (Z.ltb_spec v (-32768)); lia. Qed.
Lemma clamp_id v : is_i16 v -> clamp_sample v = v.
Proof. unfold clamp_sample, is_i16. destruct (Z.ltb_spec 32767 v), (Z.ltb_spec v (-32768)); lia. Qed.

Lemma shiftr_bounds x n b : 0 <= n -> 0 <= b -> -b <= x <= b -> -b <= Z.shiftr x n <= b.
Proof.
  intros Hn Hb Hx. rewrite Z.shiftr_div_pow2 by done.
  pose proof (Z.pow_pos_nonneg 2 n ltac:(lia) Hn). split.
  - apply Z.div_le_lower_bound; nia.
  - apply Z.div_le_upper_bound; nia.
Qed.

Lemma sample_shift_range parameter : 0 <= sample_shift parameter <= 12.
Proof.
  unfold sample_shift. rewrite (Z.land_ones _ 4) by lia. change (2 ^ 4) with 16.
  destruct (Z.ltb_spec 12 (parameter mod 16)); zlia.
Qed.

Lemma codes_do_not_overflow eb code p : code_ok eb code -> frame_i16 p -> no_overflow eb code p.
Proof.
  intros [Hs _] [H0 H1]. unfold no_overflow, unclamped, weighted.
  assert (-0x8000 <= scaled (fst code) eb <= 0x8000) as Hsc.
  { unfold scaled. destruct eb; cbn -[Z.mul]; change (Z.shiftl 1 8) with 256;
      change (Z.shiftl 1 12) with 4096; lia. }
  pose proof (shiftr_bounds _ (sample_shift (snd code)) 0x8000 ltac:(apply sample_shift_range) ltac:(lia) Hsc).
  unfold is_i16, is_i32 in *. unfold xa_filter.
  assert (forall f0 f1, Z.abs f0 <= 115 -> Z.abs f1 <= 55 ->
    let w := fst p * f0 + snd p * f1 + 32 in
    -0x1000000 <= fst p * f0 <= 0x1000000 /\ -0x1000000 <= snd p * f1 <= 0x1000000 /\
    -0x1000000 <= Z.shiftr w 6 <= 0x1000000 /\ -0x1000000 <= w <= 0x1000000) as Hw.
  { intros f0 f1 A0 A1 w. assert (-0x1000000 <= w <= 0x1000000) by nia.
    pose proof (shiftr_bounds w 6 0x1000000 ltac:(lia) ltac:(lia) ltac:(lia)).
    assert (-0x1000000 <= fst p * f0 <= 0x1000000) by nia.
    assert (-0x1000000 <= snd p * f1 <= 0x1000000) by nia. lia. }
  destruct (_ =? 1); [specialize (Hw 60 0)|destruct (_ =? 2); [specialize (Hw 115 (-52))|
    destruct (_ =? 3); [specialize (Hw 98 (-55))|specialize (Hw 0 0)]]]; cbv zeta in Hw; lia.
Qed.

(** * The codes of a sector *)
Lemma lget_u8 l i : Forall is_u8 l -> is_u8 (lget l i).
Proof. intros H. apply Forall_lget; [done|]. unfold is_word. lia. Qed.

Lemma unit_code_ok eb g unit k :
  Forall is_u8 g -> code_ok eb (unit_source g unit k eb, unit_parameter g unit).
Proof.
  intros Hg. split; [|by apply lget_u8]. cbn [fst]. unfold unit_source.
  set (packed := lget g _). pose proof (lget_u8 g _ Hg : is_u8 packed) as Hp. destruct eb.
  - pose proof (i8_range packed). lia.
  - set (nibble := if z2b (Z.land unit 1) then _ else _).
    assert (0 <= nibble < 16) as Hn.
    { unfold nibble. unfold is_word in Hp. destruct (z2b _).
      - rewrite Z.shiftr_div_pow2 by lia. change (2 ^ 4) with 16. zlia.
      - rewrite (Z.land_ones _ 4) by lia. change (2 ^ 4) with 16. zlia. }
    assert (z2b (Z.land nibble 8) = (8 <=? nibble)) as ->.
    { change 8 with (2 ^ 3) at 1. rewrite testbit_land_pow2 by lia.
      apply (testbit_top 4); [lia|]. unfold is_word. lia. }
    destruct (Z.leb_spec 8 nibble); lia.
Qed.

Lemma sector_codes_ok coding groups side :
  Forall is_u8 groups -> Forall (code_ok (coding_eight_bit coding)) (sector_codes coding groups side).
Proof.
  intros Hg. unfold sector_codes, groups_codes, group_codes, units_codes, unit_codes.
  apply Forall_concat, Forall_map, Forall_true. intros i.
  apply Forall_concat, Forall_map, Forall_true. intros u.
  apply Forall_map, Forall_true. intros k. apply unit_code_ok. by apply Forall_drop.
Qed.

Lemma predict_i16 eb code p : is_i16 (predict eb code p).
Proof. apply clamp_i16. Qed.
Lemma xa_stream_i16 eb codes p : Forall is_i16 (xa_stream eb codes p).
Proof. revert p. induction codes as [|c cs IH]; intros p; constructor; [apply predict_i16|apply IH]. Qed.
Lemma xa_last_i16 eb codes p : frame_i16 p -> frame_i16 (xa_last eb codes p).
Proof.
  revert p. induction codes as [|c cs IH]; intros p Hp; [done|]. apply IH.
  split; [apply predict_i16|apply Hp].
Qed.

Lemma combine_i16 l r : Forall is_i16 l -> Forall is_i16 r -> Forall frame_i16 (combine l r).
Proof.
  intros Hl. revert r. induction Hl as [|x l Hx _ IH]; intros r Hr; [constructor|].
  destruct Hr as [|y r Hy Hr]; constructor; [done|auto].
Qed.

Lemma frames_of_codes_i16 coding codes p : Forall frame_i16 (frames_of_codes coding codes p).
Proof. unfold frames_of_codes. destruct (coding_stereo coding); apply combine_i16; apply xa_stream_i16. Qed.
Lemma play_i16 coding frames : Forall frame_i16 frames -> Forall frame_i16 (play coding frames).
Proof.
  intros H. unfold play. apply Forall_concat, Forall_map. eapply Forall_impl; [exact H|].
  intros f Hf. cbn. destruct (coding_duplicate coding); repeat constructor; apply Hf.
Qed.

(** ** The number of frames *)
Lemma length_play coding frames :
  length (play coding frames) = ((if coding_duplicate coding then 2 else 1) * length frames)%nat.
Proof.
  unfold play. induction frames as [|f fs IH]; [by destruct (coding_duplicate coding)|].
  cbn [map concat length]. rewrite length_app, IH. destruct (coding_duplicate coding); cbn [length]; lia.
Qed.
Lemma length_concat_same {A} (n : nat) (ls : list (list A)) :
  Forall (fun l => length l = n) ls -> length (concat ls) = (n * length ls)%nat.
Proof. induction 1 as [|l ls Hl _ IH]; cbn; [lia|]. rewrite length_app, IH. lia. Qed.
Lemma length_sector_codes coding groups side :
  length (sector_codes coding groups side) = (18 * 28 * length (side_units coding side))%nat.
Proof.
  unfold sector_codes, groups_codes. rewrite (length_concat_same (28 * length (side_units coding side))).
  - rewrite length_map. change (length (seqZ 0 18)) with 18%nat. lia.
  - apply Forall_map, Forall_true. intros i. apply length_group_codes.
Qed.

(** The frames of a sector by its coding byte. *)
Definition coding_frames (coding : Z) : nat :=
  (18 * 28 * (if coding_eight_bit coding then 4 else 8) / (if coding_stereo coding then 2 else 1) *
   (if coding_duplicate coding then 2 else 1))%nat.

Lemma length_frames_of_codes coding c p :
  (coding_stereo coding = true -> length (c 0) = length (c 1)) ->
  length (frames_of_codes coding c p) = length (c 0).
Proof.
  intros H. unfold frames_of_codes. destruct (coding_stereo coding);
    rewrite length_combine, !length_xa_stream; [rewrite <- H by done|]; lia.
Qed.

Lemma length_sector_frames coding groups p :
  length (sector_frames coding groups p) = coding_frames coding.
Proof.
  unfold sector_frames. rewrite length_play, length_frames_of_codes.
  - rewrite length_sector_codes, length_side_units. unfold coding_frames.
    by destruct (coding_duplicate coding), (coding_stereo coding), (coding_eight_bit coding).
  - intros _. by rewrite !length_sector_codes, !length_side_units.
Qed.

(** ** The counters of an emission *)
Definition hash_frames (frames : list (Z * Z)) (hash : Z) : Z := fold_left hash_frame frames hash.

Lemma emit_all_hash fs c a : c_hash (fst (emit_all fs (c, a))) = hash_frames fs (c_hash c).
Proof.
  revert c a. induction fs as [|f fs IH]; intros c a; [done|]. cbn [emit_all fold_left emit_one].
  destruct (_ <=? _); [|]; by rewrite IH.
Qed.
Lemma emit_all_frames fs c a :
  is_u64 (c_frames c) -> c_frames (fst (emit_all fs (c, a))) = u64 (c_frames c + Z.of_nat (length fs)).
Proof.
  revert c a. induction fs as [|f fs IH]; intros c a Hc.
  - cbn. rewrite Z.add_0_r. symmetry. by apply u64_id.
  - cbn [emit_all fold_left emit_one].
    assert (forall c', c_frames c' = u64 (c_frames c + 1) -> is_u64 (c_frames c') /\
      u64 (c_frames c' + Z.of_nat (length fs)) = u64 (c_frames c + Z.of_nat (length (f :: fs)))) as H.
    { intros c' ->. split; [apply u64_range|]. cbn [length]. unfold u64.
      rewrite Zplus_mod_idemp_l. f_equal. lia. }
    destruct (_ <=? _); rewrite IH; by apply H.
Qed.

Record audio_ok (a : CdiAudio) : Prop := {
  ok_length : length (previous a) = 4%nat;
  ok_previous : Forall is_i16 (previous a);
}.

Lemma side_previous_i16 p side : Forall is_i16 p -> frame_i16 (side_previous p side).
Proof. intros H. split; apply (Forall_lget is_i16); done. Qed.

Lemma previous_of_codes_i16 coding c p :
  Forall is_i16 p -> Forall is_i16 (previous_of_codes coding c p).
Proof.
  intros Hp. assert (forall l r, frame_i16 l -> frame_i16 r -> Forall is_i16 (pair_previous l r)) as H.
  { intros l r [] []. unfold pair_previous. rewrite !Forall_cons. auto. }
  apply H; [by apply xa_last_i16, side_previous_i16|].
  destruct (coding_stereo coding); [apply xa_last_i16|]; by apply side_previous_i16.
Qed.

Lemma emit_all_device fs c a : previous (snd (emit_all fs (c, a))) = previous a.
Proof.
  revert c a. induction fs as [|f fs IH]; intros c a; [done|]. cbn [emit_all fold_left emit_one].
  destruct (_ <=? _); by rewrite IH.
Qed.
Lemma finish_previous x : previous (finish_sector x) = previous (snd x).
Proof. by destruct x. Qed.

Lemma reference_decode_previous groups coding a :
  previous (snd (reference_decode groups coding a)) = sector_previous coding groups (previous a).
Proof. unfold reference_decode. cbv zeta. cbn [snd]. by rewrite finish_previous, emit_all_device. Qed.
Lemma coding_frames_bound coding : 0 < Z.of_nat (coding_frames coding) <= 8064.
Proof.
  unfold coding_frames.
  destruct (coding_duplicate _), (coding_stereo _), (coding_eight_bit _);
    (split; [reflexivity|discriminate]).
Qed.
Lemma reference_decode_frames groups coding a :
  fst (reference_decode groups coding a) = Z.of_nat (coding_frames coding).
Proof.
  unfold reference_decode. cbv zeta. cbn [fst]. rewrite emit_all_frames by (unfold is_word; cbn; lia).
  rewrite length_sector_frames. cbn [c_frames]. pose proof (coding_frames_bound coding).
  rewrite Z.add_0_l, u64_id, u32_id by (unfold is_word; lia). done.
Qed.

(** C23. For every sector of bytes the decoder stays in its C types: no product,
    sum or shift of a sample overflows [int32_t] wherever in the sector it is
    computed, every sample of every frame is an [int16_t], the predictors stay
    [int16_t] for the next sector, and the number of frames returned, at most
    8064, is the one its coding byte fixes. *)
Theorem decoder_stays_in_types sound_groups coding a :
  audio_ok a -> Forall is_u8 sound_groups ->
  let '(returned, a') := cdi_audio_decode_groups sound_groups coding a in
  audio_ok a' /\
  Forall frame_i16 (sector_frames coding sound_groups (previous a)) /\
  returned = Z.of_nat (length (sector_frames coding sound_groups (previous a))) /\
  returned = Z.of_nat (coding_frames coding) /\ 0 < returned <= 8064 /\
  forall side before code after,
    sector_codes coding sound_groups side = before ++ code :: after ->
    no_overflow (coding_eight_bit coding) code
      (xa_last (coding_eight_bit coding) before (side_previous (previous a) side)).
Proof.
  intros [Hl Hp] Hg. pose proof (decoder_is_reference sound_groups coding a Hl) as E.
  pose proof (reference_decode_previous sound_groups coding a) as Ep.
  pose proof (reference_decode_frames sound_groups coding a) as Ef. rewrite <- E in Ep, Ef.
  destruct (cdi_audio_decode_groups sound_groups coding a) as [returned a']. cbn [fst snd] in Ep, Ef.
  rewrite length_sector_frames. split; [|split; [|split; [done|split; [done|split]]]].
  - split; rewrite Ep; [done|]. by apply previous_of_codes_i16.
  - apply play_i16, frames_of_codes_i16.
  - pose proof (coding_frames_bound coding). lia.
  - intros side before code after Hc. pose proof (sector_codes_ok coding sound_groups side Hg) as Hok.
    rewrite Hc in Hok. apply Forall_app in Hok as [_ Hok]. apply Forall_cons_1 in Hok as [Hok _].
    apply codes_do_not_overflow; [done|]. by apply xa_last_i16, side_previous_i16.
Qed.

(** A sector whose bytes are all 0x7F. *)

Definition loud_sector : list Z := replicate 2304 0x7F.

Lemma decoder_stays_in_types_witness :
  fst (cdi_audio_decode_groups loud_sector 1 fresh_audio) = 2016 /\
  audio_ok (snd (cdi_audio_decode_groups loud_sector 1 fresh_audio)).
Proof.
  assert (audio_ok fresh_audio) as Ha by (split; [reflexivity|repeat constructor; discriminate]).
  assert (Forall is_u8 loud_sector) as Hs by (apply Forall_replicate; split; [discriminate|reflexivity]).
  pose proof (decoder_stays_in_types loud_sector 1 fresh_audio Ha Hs) as H.
  destruct (cdi_audio_decode_groups loud_sector 1 fresh_audio) as [returned a'].
  destruct H as (Ha' & _ & _ & Hr & _). split; [exact Hr|exact Ha'].
Defined.
