(* ===== verification/AudioQueue.v ===== *)
(** The ring between the audio decoder and the frontend: a queue under every
    interleaving of the two, whose reader cannot be noticed by the decoder. *)

From Stdlib Require Import ZArith Lia Bool.
From stdpp Require Import base tactics numbers list gmap.
From S2P Require Import Prelude Irq Ciap Ring Audio AudioSpec AudioBounds.
Open Scope Z_scope.

(** * The ring *)
Lemma ring_slot_mod i : ring_slot i = i mod 0x20000.
Proof. apply (Z.land_ones i 17). lia. Qed.

Lemma ring_frame_left a w l i :
  ring_frame (store_left w l a) i =
  if ring_slot i =? ring_slot w then (l, snd (ring_frame a w)) else ring_frame a i.
Proof.
  unfold ring_frame at 1. cbn [ring store_left set_ring]. destruct (Z.eqb_spec (ring_slot i) (ring_slot w)) as [->|Hne].
  - by rewrite lookup_insert_eq.
  - by rewrite lookup_insert_ne.
Qed.
Lemma ring_frame_right a w r i :
  ring_frame (store_right w r a) i =
  if ring_slot i =? ring_slot w then (fst (ring_frame a w), r) else ring_frame a i.
Proof.
  unfold ring_frame at 1. cbn [ring store_right set_ring]. destruct (Z.eqb_spec (ring_slot i) (ring_slot w)) as [->|Hne].
  - by rewrite lookup_insert_eq.
  - by rewrite lookup_insert_ne.
Qed.

(** The frames the ring holds for the frontend. *)
Definition queued (a : CdiAudio) (xs : list (Z * Z)) : Prop :=
  queue_in AUDIO_RING_FRAMES (ring_frame a) (read_index a) (write_index a) xs.
Definition outstanding (a : CdiAudio) : Z := u32 (write_index a - read_index a).

(** A store at [write] leaves the queue alone while there is room. *)
Lemma queued_store a a' xs :
  read_index a' = read_index a -> write_index a' = write_index a ->
  (forall i, ring_slot i <> ring_slot (write_index a) -> ring_frame a' i = ring_frame a i) ->
  outstanding a < AUDIO_RING_FRAMES -> queued a xs -> queued a' xs.
Proof.
  unfold queued, outstanding. intros -> -> Hf Hlt Hq. eapply queue_in_agree; [|exact Hq].
  intros k Hk. apply Hf. rewrite !ring_slot_mod. pose proof (q_length _ _ _ _ _ Hq).
  apply live_slot_ne; [lia|by exists 0x8000|lia|]. unfold AUDIO_RING_FRAMES in Hlt. lia.
Qed.

(** * What each thread knows between two steps *)
Definition emitter_knows (p : Emulation) (a : CdiAudio) : Prop :=
  match emitter p, todo p with
  | LoadWrite, _ => True
  | _, [] => False
  | LoadRead write, _ => write = write_index a
  | Decide write read, _ => write = write_index a /\ outstanding a <= u32 (write - read)
  | PutLeft write, _ => write = write_index a /\ outstanding a < AUDIO_RING_FRAMES
  | PutRight write, f :: _ =>
    write = write_index a /\ outstanding a < AUDIO_RING_FRAMES /\ fst (ring_frame a write) = fst f
  | PublishFrame write, f :: _ =>
    write = write_index a /\ outstanding a < AUDIO_RING_FRAMES /\ ring_frame a write = f
  end.

Definition reader_knows (r : AudioReader) (a : CdiAudio) (xs : list (Z * Z)) : Prop :=
  match r with
  | ReadIdle => True
  | ReadWrite capacity read => 0 <= capacity /\ read = read_index a
  | ReadLeft read available out =>
    read = read_index a /\ Z.of_nat (length out) <= available <= outstanding a /\
    out = take (length out) xs
  | ReadRight read available l out =>
    read = read_index a /\ Z.of_nat (length out) < available <= outstanding a /\
    out = take (length out) xs /\ exists f, xs !! length out = Some f /\ l = fst f
  end.

Record threads_ok (t : AudioThreads) (xs : list (Z * Z)) : Prop := {
  t_queue : queued (device t) xs;
  t_emitter : emitter_knows (emulation t) (device t);
  t_reader : reader_knows (frontend t) (device t) xs;
}.

(** Frames counted: those emitted and the one that is being stored. *)
Definition counted (es : list audio_event) (p : Emulation) : list (Z * Z) :=
  emitted es ++ match emitter p, todo p with
                | (PutLeft _ | PutRight _ | PublishFrame _), f :: _ => [f]
                | _, _ => []
                end.
Definition refusals (es : list audio_event) : Z :=
  Z.of_nat (length (emitted es)) - Z.of_nat (length (accepted es)).

(** A ring that was seen full has been given a whole ring of frames. *)
Definition room_known (given : Z) (p : Emulation) : Prop :=
  match emitter p with Decide write read => u32 (write - read) <= given | _ => True end.

Record history_ok (start : list (Z * Z)) (frames : list (Z * Z)) (c0 : Counts)
    (es : list audio_event) (t : AudioThreads) (xs : list (Z * Z)) : Prop := {
  h_queue : start ++ accepted es = delivered es ++ xs;
  h_todo : emitted es ++ todo (emulation t) = frames;
  h_hash : c_hash (counts (emulation t)) = hash_frames (counted es (emulation t)) (c_hash c0);
  h_frames : c_frames (counts (emulation t)) =
    u64 (c_frames c0 + Z.of_nat (length (counted es (emulation t))));
  h_dropped : c_dropped (counts (emulation t)) = u64 (c_dropped c0 + refusals es);
  h_room : room_known (Z.of_nat (length (start ++ accepted es))) (emulation t);
  h_refused : 0 < refusals es -> AUDIO_RING_FRAMES <= Z.of_nat (length (start ++ accepted es));
}.

Lemma accepted_app es es' : accepted (es ++ es') = accepted es ++ accepted es'.
Proof. apply omap_app. Qed.
Lemma emitted_app es es' : emitted (es ++ es') = emitted es ++ emitted es'.
Proof. apply omap_app. Qed.
Lemma delivered_app es es' : delivered (es ++ es') = delivered es ++ delivered es'.
Proof. unfold delivered. by rewrite omap_app, concat_app. Qed.

Lemma refusals_app es es' : refusals (es ++ es') = refusals es + refusals es'.
Proof. unfold refusals. rewrite accepted_app, emitted_app, !length_app. lia. Qed.

Lemma count_hash fs f h : hash_frames (fs ++ [f]) h = hash_frame (hash_frames fs h) f.
Proof. apply fold_left_app. Qed.
Lemma u64_succ x : u64 (u64 x + 1) = u64 (x + 1).
Proof. unfold u64. apply Zplus_mod_idemp_l. Qed.

(** A step with no event that leaves what is counted. *)
Lemma history_silent start frames c0 es t t' xs :
  todo (emulation t') = todo (emulation t) -> counts (emulation t') = counts (emulation t) ->
  counted es (emulation t') = counted es (emulation t) ->
  room_known (Z.of_nat (length (start ++ accepted es))) (emulation t') ->
  history_ok start frames c0 es t xs -> history_ok start frames c0 (es ++ []) t' xs.
Proof.
  intros E1 E2 E3 E4 [H1 H2 H3 H4 H5 H6 H7]. rewrite app_nil_r. split; rewrite ?E1, ?E2, ?E3; done.
Qed.

(** ** The emulation's steps *)
Section Steps.
Variables (start frames : list (Z * Z)) (c0 : Counts).

(** What the histories and the queue are after the events [es'] of a step. *)
Definition step_ok (es es' : list audio_event) (t' : AudioThreads) : Prop :=
  exists xs', threads_ok t' xs' /\ history_ok start frames c0 (es ++ es') t' xs'.

Lemma silent_ok es t t' xs :
  todo (emulation t') = todo (emulation t) -> counts (emulation t') = counts (emulation t) ->
  counted es (emulation t') = counted es (emulation t) ->
  room_known (Z.of_nat (length (start ++ accepted es))) (emulation t') ->
  threads_ok t' xs -> history_ok start frames c0 es t xs -> step_ok es [] t'.
Proof. intros. exists xs. split; [done|]. by eapply history_silent. Qed.

(** The frame is hashed and counted; there is room for it or it is lost. *)
Lemma decide_ok es f rest c r a rd xs :
  let t := mkAudioThreads (mkEmulation (Decide (write_index a) rd) (f :: rest) c) r a in
  queued a xs -> outstanding a <= u32 (write_index a - rd) -> reader_knows r a xs ->
  history_ok start frames c0 es t xs ->
  let '(p, a, es') := emit_step (emulation t) a in step_ok es es' (mkAudioThreads p r a).
Proof.
  intros t Hq Hle Hr [H1 H2 H3 H4 H5 H6 H7]. unfold t in *. cbn [emulation todo counts] in *.
  unfold counted in H3, H4. cbn [emitter todo] in H3, H4. rewrite app_nil_r in H3, H4.
  unfold emit_step. cbn [todo emitter counts].
  destruct (Z.leb_spec AUDIO_RING_FRAMES (u32 (write_index a - rd))) as [Hfull|Hlt].
  - exists xs. split; [by split|].
    split; cbn [emulation todo counts count_dropped count_frame c_hash c_frames c_dropped];
      unfold counted; cbn [emitter todo];
      rewrite ?accepted_app, ?emitted_app, ?delivered_app; cbn [accepted emitted omap list_omap].
    + change (delivered [Refused f]) with (@nil (Z * Z)). by rewrite !app_nil_r.
    + by rewrite <- app_assoc.
    + by rewrite app_nil_r, count_hash, H3.
    + rewrite app_nil_r, H4, u64_succ, length_app. cbn [length]. f_equal. lia.
    + rewrite H5, u64_succ, refusals_app. f_equal. change (refusals [Refused f]) with 1. lia.
    + done.
    + intros _. rewrite app_nil_r. cbn [room_known emitter] in H6. unfold room_known in H6. cbn in H6. lia.
  - exists xs. split; [split; try done; cbn; split; [done|lia]|]. rewrite app_nil_r.
    split; cbn [emulation todo counts count_frame c_hash c_frames c_dropped]; try done;
      unfold counted; cbn [emitter todo].
    + by rewrite count_hash, H3.
    + rewrite H4, u64_succ, length_app. cbn [length]. f_equal. lia.
Qed.

Lemma reader_publish r a w xs f :
  outstanding (set_write_index w a) = outstanding a + 1 -> Z.of_nat (length xs) = outstanding a ->
  reader_knows r a xs -> reader_knows r (set_write_index w a) (xs ++ [f]).
Proof.
  intros Eo Hlen Hr. destruct r as [|cap rd|rd av out|rd av l out]; cbn [reader_knows] in *; rewrite ?Eo; try done.
  - destruct Hr as (-> & Hle & Ho). split; [done|]. split; [lia|]. by rewrite take_app_le by lia.
  - destruct Hr as (-> & Hle & Ho & g & Hg & El). split; [done|]. split; [lia|].
    split; [by rewrite take_app_le by lia|]. exists g. split; [|done]. by rewrite lookup_app_l by lia.
Qed.

Lemma publish_keeps_queue es f rest c r a xs :
  let t := mkAudioThreads (mkEmulation (PublishFrame (write_index a)) (f :: rest) c) r a in
  queued a xs -> outstanding a < AUDIO_RING_FRAMES -> ring_frame a (write_index a) = f ->
  reader_knows r a xs -> history_ok start frames c0 es t xs ->
  step_ok es [Accepted f]
    (mkAudioThreads (mkEmulation LoadWrite rest c) r (set_write_index (u32 (write_index a + 1)) a)).
Proof.
  intros t Hq Hlt Hf Hr [H1 H2 H3 H4 H5 H6 H7]. unfold t in *. cbn [emulation todo counts] in *.
  assert (outstanding (set_write_index (u32 (write_index a + 1)) a) = outstanding a + 1) as Eo.
  { unfold outstanding in *. cbn. apply wrap_succ. unfold AUDIO_RING_FRAMES in Hlt. lia. }
  exists (xs ++ [f]). split.
  - split; cbn [device emulation frontend]; [|done|].
    + rewrite <- Hf. by apply queue_in_push.
    + apply reader_publish; [done| |done]. apply (q_length _ _ _ _ _ Hq).
  - unfold counted in H3, H4. cbn [emitter todo] in H3, H4.
    split; cbn [emulation todo counts]; unfold counted; cbn [emitter todo];
      rewrite ?accepted_app, ?emitted_app, ?delivered_app; cbn [accepted emitted omap list_omap];
      rewrite ?app_nil_r; try done.
    + by rewrite !app_assoc, H1.
    + by rewrite <- app_assoc.
    + rewrite H5, refusals_app. by rewrite Z.add_0_r.
    + rewrite refusals_app, !length_app. cbn [length]. intros Hr0.
      change (refusals [Accepted f]) with 0 in Hr0. rewrite length_app in H7. lia.
Qed.

Lemma emit_step_ok es t xs :
  threads_ok t xs -> history_ok start frames c0 es t xs ->
  let '(p, a, es') := emit_step (emulation t) (device t) in
  step_ok es es' (mkAudioThreads p (frontend t) a).
Proof.
  intros [Hq Hp Hr] Hh. pose proof (h_room _ _ _ _ _ _ Hh) as Hroom. destruct t as [[e td c] r a]. cbn [emulation frontend device] in *.
  destruct td as [|f rest]; [by eapply silent_ok; [..|split|exact Hh]|].
  destruct e as [|w|w rd|w|w|w]; cbn [emitter_knows emitter todo] in Hp.
  - by eapply silent_ok; [..|split|exact Hh].
  - subst w. eapply silent_ok; [..|split|exact Hh]; try done.
    unfold room_known. cbn [emulation emitter].
    rewrite (h_queue _ _ _ _ _ _ Hh), length_app, Nat2Z.inj_add, (q_length _ _ _ _ _ Hq). lia.
  - destruct Hp as [-> Hle]. by eapply decide_ok.
  - destruct Hp as [-> Hlt]. eapply silent_ok; [..|split|exact Hh]; cbn [device emulation frontend]; try done.
    + apply (queued_store a); try done. intros i Hi. rewrite ring_frame_left.
      by destruct (Z.eqb_spec (ring_slot i) (ring_slot (write_index a))).
    + cbn. split; [done|]. split; [done|]. rewrite ring_frame_left. by rewrite Z.eqb_refl.
  - destruct Hp as (-> & Hlt & Hf).
    eapply silent_ok; [..|split|exact Hh]; cbn [device emulation frontend]; try done.
    + apply (queued_store a); try done. intros i Hi. rewrite ring_frame_right.
      by destruct (Z.eqb_spec (ring_slot i) (ring_slot (write_index a))).
    + cbn. split; [done|]. split; [done|]. rewrite ring_frame_right, Z.eqb_refl, Hf. by destruct f.
  - destruct Hp as (-> & Hlt & Hf). by eapply publish_keeps_queue.
Qed.

(** ** The frontend's steps *)
Lemma take_snoc {A} (xs : list A) n x : xs !! n = Some x -> take n xs ++ [x] = take (S n) xs.
Proof. intros. symmetry. by apply take_S_r. Qed.

Lemma read_step_ok es t xs capacity :
  0 <= capacity -> threads_ok t xs -> history_ok start frames c0 es t xs ->
  let '(r, a, es') := read_step capacity (frontend t) (device t) in
  step_ok es es' (mkAudioThreads (emulation t) r a).
Proof.
  intros Hcap [Hq Hp Hr] Hh. pose proof (h_room _ _ _ _ _ _ Hh) as Hroom. destruct t as [p r a]. cbn [emulation frontend device] in *.
  pose proof (q_length _ _ _ _ _ Hq) as Hlen. fold (outstanding a) in Hlen.
  destruct r as [|cap rd|rd av out|rd av l out]; cbn [reader_knows read_step] in *.
  - by eapply silent_ok; [..|split|exact Hh].
  - destruct Hr as [Hc ->]. eapply silent_ok; [..|split|exact Hh]; try done.
    cbn [frontend device reader_knows]. split; [done|]. fold (outstanding a).
    pose proof (u32_range (write_index a - read_index a)) as Hu. fold (outstanding a) in Hu.
    unfold is_word in Hu. cbn [length take]. destruct (Z.ltb_spec cap (outstanding a)); split; try done; lia.
  - destruct Hr as (-> & Hav & Ho). destruct (Z.ltb_spec (Z.of_nat (length out)) av) as [Hlt|Hge].
    + eapply silent_ok; [..|split|exact Hh]; try done. cbn [frontend device reader_knows].
      split; [done|]. split; [lia|]. split; [done|].
      destruct (lookup_lt_is_Some_2 xs (length out) ltac:(lia)) as [f Hf]. exists f. split; [done|].
      rewrite (q_slots _ _ _ _ _ Hq) in Hf by lia. by injection Hf as <-.
    + assert (av = Z.of_nat (length out)) as -> by lia.
      exists (drop (length out) xs). split.
      * split; cbn [device emulation frontend]; [|destruct p as [e td c]|done].
        -- apply queue_in_drop; [lia|done].
        -- assert (outstanding (set_read_index (u32 (read_index a + Z.of_nat (length out))) a) =
             outstanding a - Z.of_nat (length out)) as Eo
             by (unfold outstanding in *; cbn [write_index read_index set_read_index]; apply wrap_drop; lia).
           unfold emitter_knows in *. destruct e, td; cbn [emitter todo] in *; rewrite ?Eo; try done;
             intuition lia.
      * destruct Hh as [H1 H2 H3 H4 H5 H6 H7]. cbn [emulation] in *.
        assert (forall p, counted (es ++ [Delivered out]) p = counted es p) as Ec
          by (intros; unfold counted; by rewrite emitted_app, app_nil_r).
        split; cbn [emulation]; rewrite ?Ec; try done.
        -- rewrite accepted_app, delivered_app. cbn [accepted omap list_omap]. rewrite app_nil_r, H1.
           change (delivered [Delivered out]) with (out ++ []). rewrite app_nil_r, <- app_assoc. f_equal.
           rewrite Ho at 1. symmetry. apply take_drop.
        -- by rewrite emitted_app, app_nil_r.
        -- rewrite H5, refusals_app. by rewrite Z.add_0_r.
        -- by rewrite accepted_app, app_nil_r.
        -- rewrite refusals_app, Z.add_0_r. by rewrite accepted_app, app_nil_r.
  - destruct Hr as (-> & Hav & Ho & f & Hf & ->). eapply silent_ok; [..|split|exact Hh]; try done.
    cbn [frontend device reader_knows]. split; [done|]. rewrite length_app. cbn [length].
    split; [lia|]. rewrite Nat.add_1_r, <- (take_snoc _ _ f) by done. rewrite <- Ho. do 2 f_equal.
    rewrite (q_slots _ _ _ _ _ Hq) in Hf by lia. injection Hf as <-. by rewrite <- surjective_pairing.
Qed.

Lemma audio_step_ok es t xs who :
  (forall capacity, who = Some capacity -> 0 <= capacity) ->
  threads_ok t xs -> history_ok start frames c0 es t xs ->
  let '(t', es') := audio_step who t in step_ok es es' t'.
Proof.
  intros Hw Ht Hh. destruct who as [capacity|]; unfold audio_step.
  - pose proof (read_step_ok es t xs capacity (Hw _ eq_refl) Ht Hh) as H.
    by destruct (read_step capacity (frontend t) (device t)) as [[r a] es'].
  - pose proof (emit_step_ok es t xs Ht Hh) as H.
    by destruct (emit_step (emulation t) (device t)) as [[p a] es'].
Qed.

Lemma audio_run_ok schedule es t xs :
  Forall (fun who => forall capacity, who = Some capacity -> 0 <= capacity) schedule ->
  threads_ok t xs -> history_ok start frames c0 es t xs ->
  let '(t', es') := audio_run schedule t in step_ok es es' t'.
Proof.
  revert es t xs. induction schedule as [|who rest IH]; intros es t xs Hs Ht Hh; cbn [audio_run].
  - exists xs. rewrite app_nil_r. by split.
  - apply Forall_cons_1 in Hs as [Hw Hs]. pose proof (audio_step_ok es t xs who Hw Ht Hh) as H1.
    destruct (audio_step who t) as [t1 es1]. destruct H1 as (xs1 & Ht1 & Hh1).
    specialize (IH _ _ _ Hs Ht1 Hh1). destruct (audio_run rest t1) as [t2 es2].
    unfold step_ok in *. by rewrite app_assoc.
Qed.
End Steps.

(** * The decoder never waits *)
Definition frame_turns (e : Emitter) : nat :=
  match e with
  | LoadWrite => 6 | LoadRead _ => 5 | Decide _ _ => 4 | PutLeft _ => 3 | PutRight _ => 2 | PublishFrame _ => 1
  end.
Definition turns_left (p : Emulation) : nat :=
  match todo p with [] => 0 | _ :: rest => frame_turns (emitter p) + 6 * length rest end.
Definition emulation_turns (schedule : list (option Z)) : nat :=
  length (filter (fun who => who = None) schedule).

Lemma emit_step_turns p a : (turns_left (fst (fst (emit_step p a))) <= turns_left p - 1)%nat.
Proof.
  destruct p as [e [|f [|g rest]] c]; cbn; [lia|..]; destruct e; cbn;
    try lia; destruct (_ <=? _); cbn; lia.
Qed.

Lemma audio_run_turns schedule t :
  (turns_left (emulation (fst (audio_run schedule t))) <= turns_left (emulation t) - emulation_turns schedule)%nat.
Proof.
  revert t. induction schedule as [|who rest IH]; intros t; [cbn; lia|]. cbn [audio_run].
  destruct (audio_step who t) as [t1 es1] eqn:E. specialize (IH t1).
  destruct (audio_run rest t1) as [t2 es2]. cbn [fst] in *.
  destruct who as [capacity|]; cbn [audio_step] in E.
  - destruct (read_step _ _ _) as [[r a] es]. injection E as <- _. cbn [emulation] in IH.
    unfold emulation_turns in *. by rewrite filter_cons_False.
  - pose proof (emit_step_turns (emulation t) (device t)) as Hs.
    destruct (emit_step _ _) as [[p a] es]. injection E as <- _. cbn [emulation fst] in *.
    unfold emulation_turns in *. rewrite filter_cons_True by done. cbn [length]. lia.
Qed.

Lemma turns_left_done p : turns_left p = 0%nat -> todo p = [].
Proof. destruct p as [e [|f rest] c]; [done|]. unfold turns_left. cbn. destruct e; cbn; lia. Qed.

(** What the threads' steps leave alone of the decoder. *)
Definition decoder_part (a : CdiAudio) := (previous a, sectors a, sample_frames a, pcm_hash a).

Lemma audio_step_part who t : decoder_part (device (fst (audio_step who t))) = decoder_part (device t).
Proof.
  destruct t as [[e td c] r a]. destruct who as [capacity|]; cbn [audio_step emulation frontend device].
  - destruct r; cbn; try done; by destruct (_ <? _).
  - destruct td as [|f rest]; cbn; [done|]. destruct e; cbn; try done; by destruct (_ <=? _).
Qed.
Lemma audio_run_part schedule t : decoder_part (device (fst (audio_run schedule t))) = decoder_part (device t).
Proof.
  revert t. induction schedule as [|who rest IH]; intros t; [done|]. cbn [audio_run].
  pose proof (audio_step_part who t) as E. destruct (audio_step who t) as [t1 es1].
  specialize (IH t1). destruct (audio_run rest t1) as [t2 es2]. cbn [fst] in *. congruence.
Qed.

(** The emulation about to emit [frames], the frontend between two reads. *)
Definition emitting (frames : list (Z * Z)) (c : Counts) (a : CdiAudio) : AudioThreads :=
  mkAudioThreads (mkEmulation LoadWrite frames c) ReadIdle a.
Definition capacities_ok (schedule : list (option Z)) : Prop :=
  Forall (fun who => forall capacity, who = Some capacity -> 0 <= capacity) schedule.

Lemma emitting_ok frames c a pend :
  queued a pend -> is_u64 (c_frames c) -> is_u64 (c_dropped c) ->
  threads_ok (emitting frames c a) pend /\ history_ok pend frames c [] (emitting frames c a) pend.
Proof.
  intros Hq Hf Hd. split; [by split|].
  split; cbn [emitting emulation todo counts]; try done; try (unfold counted; cbn [emitter todo emitted omap]).
  - by rewrite app_nil_r.
  - cbn. rewrite Z.add_0_r. symmetry. by apply u64_id.
  - unfold refusals. cbn. rewrite Z.add_0_r. symmetry. by apply u64_id.
Qed.

(** ** The operations are the undisturbed runs *)
Lemma emit_undisturbed f rest c a :
  exists n es, (n <= 6)%nat /\
    audio_run (replicate n None) (emitting (f :: rest) c a) =
    (emitting rest (fst (emit_one f (c, a))) (snd (emit_one f (c, a))), es).
Proof.
  destruct (AUDIO_RING_FRAMES <=? u32 (write_index a - read_index a)) eqn:E.
  - exists 3%nat, [Refused f]. split; [lia|]. cbn. by rewrite E.
  - exists 6%nat, [Accepted f]. split; [lia|]. cbn. rewrite E. done.
Qed.

Lemma copy_frames_queued a xs k n :
  queued a xs -> (k + n <= length xs)%nat ->
  copy_frames n (u32 (read_index a + Z.of_nat k)) a = take n (drop k xs).
Proof.
  intros Hq. revert k. induction n as [|n IH]; intros k Hk; [done|]. cbn [copy_frames].
  pose proof (q_slots _ _ _ _ _ Hq k ltac:(lia)) as Hf.
  rewrite (drop_S xs _ k Hf). cbn [take]. f_equal. rewrite u32_add_l.
  replace (read_index a + Z.of_nat k + 1) with (read_index a + Z.of_nat (S k)) by lia. apply IH. lia.
Qed.

(** A read takes the oldest frames, as many as fit. *)
Lemma read_frames_oldest capacity a xs :
  queued a xs -> 0 <= capacity ->
  let '(out, a') := cdi_audio_read_frames capacity a in
  out = take (Z.to_nat capacity) xs /\ queued a' (drop (Z.to_nat capacity) xs).
Proof.
  intros Hq Hc. unfold cdi_audio_read_frames. destruct (Z.eqb_spec capacity 0) as [->|Hne]; [done|].
  pose proof (q_length _ _ _ _ _ Hq) as Hlen. pose proof (q_read _ _ _ _ _ Hq) as Hr.
  assert (forall n, (n <= length xs)%nat ->
    copy_frames n (read_index a) a = take n xs /\
    queued (set_read_index (u32 (read_index a + Z.of_nat n)) a) (drop n xs)) as H.
  { intros n Hn. split; [|by apply queue_in_drop].
    pose proof (copy_frames_queued a xs 0 n Hq ltac:(lia)) as E. cbn [Z.of_nat] in E.
    by rewrite Z.add_0_r, u32_id in E by done. }
  destruct (Z.ltb_spec capacity (u32 (write_index a - read_index a))) as [Hlt|Hge].
  - specialize (H (Z.to_nat capacity) ltac:(lia)). by rewrite Z2Nat.id in H by done.
  - specialize (H (length xs) ltac:(lia)). rewrite Hlen in H.
    replace (Z.to_nat (u32 (write_index a - read_index a))) with (length xs) by lia.
    rewrite take_ge, drop_ge in * by lia. done.
Qed.

(** C22. The ring of frames is a queue under every interleaving of the decoder with
    the frontend, from any frames already waiting: what reads return, in their
    order, is a prefix of what waited and of the frames accepted since, and the
    rest is what the two indices say is still there, never more than the ring
    holds; the frames accepted and refused are, in order, those of the sector;
    and none is refused unless a whole ring of frames had been given. *)
Theorem audio_ring_is_fifo frames c a pend schedule :
  queued a pend -> is_u64 (c_frames c) -> is_u64 (c_dropped c) -> capacities_ok schedule ->
  let '(t, es) := audio_run schedule (emitting frames c a) in
  (exists rest, pend ++ accepted es = delivered es ++ rest /\
     Z.of_nat (length rest) = outstanding (device t) /\ outstanding (device t) <= AUDIO_RING_FRAMES) /\
  emitted es ++ todo (emulation t) = frames /\
  (0 < refusals es -> AUDIO_RING_FRAMES <= Z.of_nat (length (pend ++ accepted es))) /\
  c_dropped (counts (emulation t)) = u64 (c_dropped c + refusals es).
Proof.
  intros Hq Hf Hd Hs. destruct (emitting_ok frames c a pend Hq Hf Hd) as [Ht Hh].
  pose proof (audio_run_ok pend frames c schedule [] _ _ Hs Ht Hh) as H.
  destruct (audio_run schedule (emitting frames c a)) as [t es]. destruct H as (xs & [Hq' _ _] & Hh').
  split; [|split; [apply Hh'|split; apply Hh']]. exists xs. split; [apply Hh'|].
  split; [exact (q_length _ _ _ _ _ Hq')|exact (q_cap _ _ _ _ _ Hq')].
Qed.

(** Three frames: the frontend reads in the middle of the second. *)
Definition sample_frames3 : list (Z * Z) := [(1, 2); (3, 4); (5, 6)].
Definition sample_schedule3 : list (option Z) :=
  replicate 9 None ++ replicate 5 (Some 8) ++ replicate 9 None.

Lemma audio_ring_is_fifo_witness :
  let '(t, es) := audio_run sample_schedule3 (emitting sample_frames3 (mkCounts FNV_OFFSET 0 0) fresh_audio) in
  accepted es = sample_frames3 /\ delivered es = [(1, 2)] /\
  exists rest, [] ++ accepted es = delivered es ++ rest /\
     Z.of_nat (length rest) = outstanding (device t) /\ outstanding (device t) <= AUDIO_RING_FRAMES.
Proof.
  assert (queued fresh_audio []) as Hq by (apply queue_in_empty; [split; [discriminate|reflexivity]|discriminate]).
  assert (capacities_ok sample_schedule3) as Hs.
  { unfold capacities_ok, sample_schedule3. rewrite !Forall_app. split_and!;
      apply Forall_replicate; intros k E; congruence || (injection E as <-; discriminate). }
  assert (is_u64 0) as H0 by (split; [discriminate|reflexivity]).
  pose proof (audio_ring_is_fifo sample_frames3 (mkCounts FNV_OFFSET 0 0) fresh_audio [] sample_schedule3
    Hq H0 H0 Hs) as H.
  destruct (audio_run _ _) as [t es] eqn:E. vm_compute in E. injection E as <- <-.
  destruct H as (H & _). split; [reflexivity|]. split; [reflexivity|]. exact H.
Defined.

Lemma finish_part c a :
  decoder_part (finish_sector (c, a)) =
  (previous a, u64 (sectors a + 1), u64 (sample_frames a + c_frames c), c_hash c).
Proof. done. Qed.

Lemma emit_all_part fs c a : decoder_part (snd (emit_all fs (c, a))) = decoder_part a.
Proof.
  revert c a. induction fs as [|f fs IH]; intros c a; [done|]. cbn [emit_all fold_left emit_one].
  destruct (_ <=? _); by rewrite IH.
Qed.

Lemma reference_decode_part groups coding a :
  decoder_part (snd (reference_decode groups coding a)) =
  (sector_previous coding groups (previous a), u64 (sectors a + 1),
   u64 (sample_frames a + Z.of_nat (coding_frames coding)),
   hash_frames (sector_frames coding groups (previous a)) (pcm_hash a)).
Proof.
  unfold reference_decode. cbv zeta. cbn [snd].
  set (frames := sector_frames coding groups (previous a)).
  set (start := set_previous _ a).
  pose proof (emit_all_part frames (mkCounts (pcm_hash a) 0 0) start) as Ep.
  pose proof (emit_all_hash frames (mkCounts (pcm_hash a) 0 0) start) as Eh.
  pose proof (emit_all_frames frames (mkCounts (pcm_hash a) 0 0) start ltac:(unfold is_word; cbn; lia)) as Ef.
  destruct (emit_all frames _) as [c' a']. cbn [fst snd c_hash c_frames] in *.
  rewrite finish_part, Eh, Ef, Z.add_0_l. unfold frames. rewrite length_sector_frames.
  pose proof (coding_frames_bound coding). rewrite (u64_id (Z.of_nat _)) by (unfold is_word; lia).
  by injection Ep as -> -> -> _.
Qed.

(** C21. The decoder is deterministic and never waits for the frontend: under every
    interleaving in which it has six steps for each of the sector's frames it is
    done, and the count it returns, the running hash of its samples, its
    predictors and its counters are those of the operation undisturbed, whatever
    the frontend read or left. *)
Theorem decoder_ignores_reader sound_groups coding a pend schedule :
  length (previous a) = 4%nat -> queued a pend -> capacities_ok schedule ->
  (6 * coding_frames coding <= emulation_turns schedule)%nat ->
  let frames := sector_frames coding sound_groups (previous a) in
  let start := set_previous (sector_previous coding sound_groups (previous a)) a in
  let t := fst (audio_run schedule (emitting frames (mkCounts (pcm_hash a) 0 0) start)) in
  todo (emulation t) = [] /\
  u32 (c_frames (counts (emulation t))) = fst (cdi_audio_decode_groups sound_groups coding a) /\
  decoder_part (finish_sector (counts (emulation t), device t)) =
  decoder_part (snd (cdi_audio_decode_groups sound_groups coding a)).
Proof.
  intros Hl Hq Hs Hn frames start. rewrite decoder_is_reference by done.
  assert (is_u64 0) as H0 by (unfold is_word; lia).
  destruct (emitting_ok frames (mkCounts (pcm_hash a) 0 0) start pend Hq H0 H0) as [Ht Hh].
  pose proof (audio_run_ok pend frames _ schedule [] _ _ Hs Ht Hh) as H.
  pose proof (audio_run_turns schedule (emitting frames (mkCounts (pcm_hash a) 0 0) start)) as Hturns.
  pose proof (audio_run_part schedule (emitting frames (mkCounts (pcm_hash a) 0 0) start)) as Hpart.
  destruct (audio_run schedule _) as [t es]. cbn [fst] in *.
  assert (todo (emulation t) = []) as Htodo.
  { apply turns_left_done. pose proof (length_sector_frames coding sound_groups (previous a)) as Hlen.
    fold frames in Hlen. unfold turns_left at 2 in Hturns. cbn [emitting emulation todo emitter frame_turns] in Hturns.
    destruct frames; cbn [length] in *; lia. }
  split; [done|]. destruct H as (xs & _ & [_ H2 H3 H4 _ _ _]). unfold counted in H3, H4.
  rewrite Htodo in *. rewrite app_nil_r in H2. cbn [app] in H2.
  assert (match emitter (emulation t) with
          | PutLeft _ | PutRight _ | PublishFrame _ => @nil (Z * Z) | _ => [] end = []) as Em
    by (by destruct (emitter (emulation t))).
  rewrite Em, app_nil_r in H3, H4. cbn [app] in H3, H4. rewrite H2 in H3, H4. cbn [c_hash c_frames] in *.
  pose proof (coding_frames_bound coding). unfold frames in H4. rewrite length_sector_frames in H4.
  rewrite reference_decode_frames, reference_decode_part, finish_part, H3, H4, Z.add_0_l.
  rewrite u64_id, u32_id by (unfold is_word; lia). split; [done|].
  injection Hpart as -> -> -> _. reflexivity.
Qed.

(** The frontend reads 64 frames at a time, seven turns out of each eight hundred. *)
Definition busy_schedule : list (option Z) :=
  concat (replicate 16 (replicate 800 None ++ replicate 140 (Some 64))).

Lemma decoder_ignores_reader_witness :
  let t := fst (audio_run busy_schedule (emitting (sector_frames 1 ramp_sector (previous fresh_audio))
    (mkCounts (pcm_hash fresh_audio) 0 0)
    (set_previous (sector_previous 1 ramp_sector (previous fresh_audio)) fresh_audio))) in
  decoder_part (finish_sector (counts (emulation t), device t)) =
  decoder_part (snd (cdi_audio_decode_groups ramp_sector 1 fresh_audio)) /\
  todo (emulation t) = [].
Proof.
  assert (queued fresh_audio []) as Hq by (apply queue_in_empty; [split; [discriminate|reflexivity]|discriminate]).
  assert (capacities_ok busy_schedule) as Hs.
  { apply Forall_concat, Forall_replicate, Forall_app. split;
      apply Forall_replicate; intros k E; congruence || (injection E as <-; discriminate). }
  assert (6 * coding_frames 1 <= emulation_turns busy_schedule)%nat as Hn
    by (apply Nat.leb_le; vm_compute; reflexivity).
  pose proof (decoder_ignores_reader ramp_sector 1 fresh_audio [] busy_schedule eq_refl Hq Hs Hn) as (H1 & _ & H3).
  split; [exact H3|exact H1].
Defined.
