(* ===== verification/Input.v ===== *)
(** The pointing device of the host (runner/src/cdi_input.c): saturating relative
    motion, the buttons, and the single-producer single-consumer ring of button
    samples, as operations and as the atomic steps of its two threads. *)

From Stdlib Require Import ZArith Lia Bool.
From stdpp Require Import base tactics numbers list.
From S2P Require Import Prelude.
Open Scope Z_scope.

Definition CDI_INPUT_LEFT : Z := 1.
Definition CDI_INPUT_UP : Z := 2.
Definition CDI_INPUT_RIGHT : Z := 4.
Definition CDI_INPUT_DOWN : Z := 8.
Definition CDI_INPUT_BTN1 : Z := 16.
Definition CDI_INPUT_BTN2 : Z := 32.
Definition allowed_input : Z := 0x3F.
Definition MOUSE_BUTTON_QUEUE_CAPACITY : Z := 256.
Definition INT_MAX : Z := 0x7FFFFFFF.
Definition INT_MIN : Z := -0x80000000.

Record InputState := mkInput {
  base_input : Z;
  frontend_input : Z;
  mouse_physical_buttons : Z;
  mouse_button_queue : list Z;  (* uint32_t[256] *)
  mouse_button_read : Z;
  mouse_button_write : Z;
  relative_x : Z;
  relative_y : Z;
  mouse_enabled : bool;
  mouse_focused : bool;
}.
Definition input_fields :=
  (tt, base_input, frontend_input, mouse_physical_buttons, mouse_button_queue, mouse_button_read,
   mouse_button_write, relative_x, relative_y, mouse_enabled, mouse_focused).
Ltac input_set s f v := setter mkInput s f v input_fields.
Definition set_base_input (v : Z) (s : InputState) : InputState := ltac:(input_set s base_input v).
Definition set_frontend_input (v : Z) (s : InputState) : InputState := ltac:(input_set s frontend_input v).
Definition set_physical (v : Z) (s : InputState) : InputState := ltac:(input_set s mouse_physical_buttons v).
Definition set_queue (v : list Z) (s : InputState) : InputState := ltac:(input_set s mouse_button_queue v).
Definition set_q_read (v : Z) (s : InputState) : InputState := ltac:(input_set s mouse_button_read v).
Definition set_q_write (v : Z) (s : InputState) : InputState := ltac:(input_set s mouse_button_write v).
Definition set_relative_x (v : Z) (s : InputState) : InputState := ltac:(input_set s relative_x v).
Definition set_relative_y (v : Z) (s : InputState) : InputState := ltac:(input_set s relative_y v).
Definition set_enabled (v : bool) (s : InputState) : InputState := ltac:(input_set s mouse_enabled v).
Definition set_focused (v : bool) (s : InputState) : InputState := ltac:(input_set s mouse_focused v).

(** * Relative motion *)
(** The value the exchange of [saturating_add] installs. *)
Definition saturated (before delta : Z) : Z :=
  if (0 <? delta) && (INT_MAX - delta <? before) then INT_MAX
  else if (delta <? 0) && (before <? INT_MIN - delta) then INT_MIN
  else before + delta.

(** The amount [take_axis] takes; the rest stays. *)
Definition taken (before low high : Z) : Z :=
  if before <? low then low else if high <? before then high else before.

Definition cdi_input_reset (s : InputState) : InputState :=
  mkInput 0 0 0 (mouse_button_queue s) 0 0 0 0 false false.

Definition cdi_input_set (mask : Z) (s : InputState) : InputState :=
  set_base_input (Z.land mask allowed_input) s.
Definition cdi_input_set_frontend (mask : Z) (s : InputState) : InputState :=
  set_frontend_input (Z.land mask allowed_input) s.

Definition queue_slot (s : InputState) (i : Z) : Z :=
  lget (mouse_button_queue s) (i mod MOUSE_BUTTON_QUEUE_CAPACITY).

Definition cdi_input_get (s : InputState) : Z :=
  let result := Z.lor (base_input s) (frontend_input s) in
  let read := mouse_button_read s in
  let write := mouse_button_write s in
  Z.land (Z.lor result (if negb (read =? write) then queue_slot s read else mouse_physical_buttons s))
    allowed_input.

Definition cdi_input_add_relative (x y : Z) (s : InputState) : InputState :=
  let s := set_relative_x (saturated (relative_x s) x) s in
  set_relative_y (saturated (relative_y s) y) s.

Definition cdi_input_clear_relative (s : InputState) : InputState :=
  set_relative_y 0 (set_relative_x 0 s).

Definition cdi_input_take_relative (min_x max_x min_y max_y : Z) (s : InputState)
    : (Z * Z) * InputState :=
  let x := taken (relative_x s) min_x max_x in
  let y := taken (relative_y s) min_y max_y in
  ((x, y), set_relative_y (relative_y s - y) (set_relative_x (relative_x s - x) s)).

Definition cdi_input_pending_relative (s : InputState) : Z * Z := (relative_x s, relative_y s).

Definition cdi_input_mouse_active (s : InputState) : bool := mouse_enabled s && mouse_focused s.

(** * Buttons *)
Definition button_bit (button : Z) : Z :=
  if button =? 1 then CDI_INPUT_BTN1 else if button =? 2 then CDI_INPUT_BTN2 else 0.

Definition pressed_buttons (before bit : Z) (pressed : bool) : Z :=
  if pressed then Z.lor before bit else Z.ldiff before bit.

Definition cdi_input_mouse_button (button : Z) (pressed : bool) (s : InputState) : InputState :=
  let bit := button_bit button in
  if negb (z2b bit) then s
  else if pressed && negb (cdi_input_mouse_active s) then s
  else
    let before := mouse_physical_buttons s in
    let after := pressed_buttons before bit pressed in
    if after =? before then s
    else
      let s := set_physical after s in
      let write := mouse_button_write s in
      let read := mouse_button_read s in
      if MOUSE_BUTTON_QUEUE_CAPACITY <=? u32 (write - read) then s
      else
        let s := set_queue (lset (mouse_button_queue s) (write mod MOUSE_BUTTON_QUEUE_CAPACITY) after) s in
        set_q_write (u32 (write + 1)) s.

Definition release_mouse_state (s : InputState) : InputState :=
  let s := if z2b (mouse_physical_buttons s)
           then cdi_input_mouse_button 2 false (cdi_input_mouse_button 1 false s) else s in
  cdi_input_clear_relative s.

Definition cdi_input_mouse_configure (enabled : bool) (s : InputState) : InputState :=
  let s := set_enabled enabled s in
  if negb enabled then release_mouse_state s else s.

Definition cdi_input_mouse_focus (focused : bool) (s : InputState) : InputState :=
  let s := set_focused focused s in
  if negb focused then release_mouse_state s else s.

Definition cdi_input_mouse_motion (x y : Z) (s : InputState) : InputState :=
  if cdi_input_mouse_active s then cdi_input_add_relative x y s else s.

Definition cdi_input_acknowledge_mouse_buttons (s : InputState) : InputState :=
  let read := mouse_button_read s in
  let write := mouse_button_write s in
  if negb (read =? write) then set_q_read (u32 (read + 1)) s else s.

(** * The two threads

    The frontend produces button samples and the emulation consumes them. Each
    step is one atomic access of the C code; the loads and the exchange of a
    compare-and-exchange loop that succeeds are one step. *)
Inductive Producer :=
  | PIdle
  | PChanged (after : Z)  (* the buttons are exchanged *)
  | PWrite (after write : Z)  (* mouse_button_write is loaded *)
  | PRead (after write read : Z)  (* mouse_button_read is loaded *)
  | PStored (after write : Z).  (* the slot is stored, not yet published *)

Inductive Consumer :=
  | CIdle
  | GetBase (result : Z)  (* cdi_input_get *)
  | GetFrontend (result : Z)
  | GetRead (result read : Z)
  | GetWrite (result read write : Z)
  | Got (result : Z)
  | AckRead (read : Z)  (* cdi_input_acknowledge_mouse_buttons *)
  | AckWrite (read write : Z).

(** What the history records of a step. *)
Inductive event :=
  | Published (buttons : Z)
  | Retired
  | Sampled (buttons : Z).  (* from the queue *)

Definition produce (button : Z) (pressed : bool) (p : Producer) (s : InputState)
    : Producer * InputState * list event :=
  match p with
  | PIdle =>
    let bit := button_bit button in
    let before := mouse_physical_buttons s in
    let after := pressed_buttons before bit pressed in
    if negb (z2b bit) || (pressed && negb (cdi_input_mouse_active s)) || (after =? before)
    then (PIdle, s, [])
    else (PChanged after, set_physical after s, [])
  | PChanged after => (PWrite after (mouse_button_write s), s, [])
  | PWrite after write => (PRead after write (mouse_button_read s), s, [])
  | PRead after write read =>
    if MOUSE_BUTTON_QUEUE_CAPACITY <=? u32 (write - read) then (PIdle, s, [])
    else (PStored after write,
          set_queue (lset (mouse_button_queue s) (write mod MOUSE_BUTTON_QUEUE_CAPACITY) after) s, [])
  | PStored after write => (PIdle, set_q_write (u32 (write + 1)) s, [Published after])
  end.

Definition consume (c : Consumer) (s : InputState) : Consumer * InputState * list event :=
  match c with
  | CIdle => (GetBase (base_input s), s, [])
  | GetBase result => (GetFrontend (Z.lor result (frontend_input s)), s, [])
  | GetFrontend result => (GetRead result (mouse_button_read s), s, [])
  | GetRead result read => (GetWrite result read (mouse_button_write s), s, [])
  | GetWrite result read write =>
    if negb (read =? write)
    then let v := queue_slot s read in (Got (Z.land (Z.lor result v) allowed_input), s, [Sampled v])
    else (Got (Z.land (Z.lor result (mouse_physical_buttons s)) allowed_input), s, [])
  | Got _ => (AckRead (mouse_button_read s), s, [])
  | AckRead read => (AckWrite read (mouse_button_write s), s, [])
  | AckWrite read write =>
    if negb (read =? write) then (CIdle, set_q_read (u32 (read + 1)) s, [Retired]) else (CIdle, s, [])
  end.

(** The other writers of the device leave the ring alone. *)
Inductive outside : InputState -> InputState -> Prop :=
  | out_base mask s : outside s (cdi_input_set mask s)
  | out_frontend mask s : outside s (cdi_input_set_frontend mask s)
  | out_motion x y s : outside s (cdi_input_mouse_motion x y s)
  | out_take a b c d s : outside s (snd (cdi_input_take_relative a b c d s))
  | out_clear s : outside s (cdi_input_clear_relative s)
  | out_enabled b s : outside s (set_enabled b s)
  | out_focused b s : outside s (set_focused b s).

Record Threads := mkThreads { producer : Producer; consumer : Consumer; shared : InputState }.

Inductive thread_step : Threads -> list event -> Threads -> Prop :=
  | step_produce button pressed t p s es :
    produce button pressed (producer t) (shared t) = (p, s, es) ->
    thread_step t es (mkThreads p (consumer t) s)
  | step_consume t c s es :
    consume (consumer t) (shared t) = (c, s, es) ->
    thread_step t es (mkThreads (producer t) c s)
  | step_outside t s :
    outside (shared t) s -> thread_step t [] (mkThreads (producer t) (consumer t) s).

(** The executions, with their history. *)
Inductive execution (t0 : Threads) : list event -> Threads -> Prop :=
  | exec_start : execution t0 [] t0
  | exec_step es t es' t' :
    execution t0 es t -> thread_step t es' t' -> execution t0 (es ++ es') t'.

Definition published (es : list event) : list Z :=
  omap (fun e => match e with Published v => Some v | _ => None end) es.
Definition retired (es : list event) : nat :=
  length (omap (fun e => match e with Retired => Some tt | _ => None end) es).

(** A schedule: [Some (button, pressed)] lets the frontend take its next step,
    [None] the emulation. *)
Definition run_one (who : option (Z * bool)) (t : Threads) : list event * Threads :=
  match who with
  | Some (button, pressed) =>
    let '(p, s, es) := produce button pressed (producer t) (shared t) in (es, mkThreads p (consumer t) s)
  | None => let '(c, s, es) := consume (consumer t) (shared t) in (es, mkThreads (producer t) c s)
  end.

Fixpoint run_schedule (schedule : list (option (Z * bool))) (es : list event) (t : Threads)
    : list event * Threads :=
  match schedule with
  | [] => (es, t)
  | who :: rest => let '(es', t') := run_one who t in run_schedule rest (es ++ es') t'
  end.
