(* ===== verification/InputSpec.v ===== *)
(** The ring of button samples is a queue under every interleaving of its two
    threads, and the operations are their undisturbed runs; motion is conserved. *)

From Stdlib Require Import ZArith Lia Bool.
From stdpp Require Import base tactics numbers list.
From S2P Require Import Prelude Ring Input.
Open Scope Z_scope.

(** * The history *)
Lemma published_app es es' : published (es ++ es') = published es ++ published es'.
Proof. apply omap_app. Qed.
Lemma retired_app es es' : retired (es ++ es') = (retired es + retired es')%nat.
Proof. unfold retired. by rewrite omap_app, length_app. Qed.

(** * The ring *)
Definition pending (s : InputState) : Z := u32 (mouse_button_write s - mouse_button_read s).

(** What each thread knows of the ring between two of its steps. *)
Definition producer_knows (p : Producer) (s : InputState) : Prop :=
  match p with
  | PIdle | PChanged _ => True
  | PWrite _ write => write = mouse_button_write s
  | PRead _ write read => write = mouse_button_write s /\ pending s <= u32 (write - read)
  | PStored after write =>
    write = mouse_button_write s /\ pending s < 256 /\ queue_slot s write = after
  end.
Definition consumer_knows (c : Consumer) (s : InputState) : Prop :=
  match c with
  | CIdle | GetBase _ | GetFrontend _ | Got _ => True
  | GetRead _ read | AckRead read => read = mouse_button_read s
  | GetWrite _ read write | AckWrite read write =>
    read = mouse_button_read s /\ (read <> write -> 0 < pending s)
  end.

Record ring_ok (es : list event) (t : Threads) : Prop := {
  ring_read : is_u32 (mouse_button_read (shared t));
  ring_write : is_u32 (mouse_button_write (shared t));
  ring_size : length (mouse_button_queue (shared t)) = 256%nat;
  ring_full : pending (shared t) <= 256;
  ring_count : Z.of_nat (length (published es)) = Z.of_nat (retired es) + pending (shared t);
  ring_slots : forall k, 0 <= k < pending (shared t) ->
    published es !! (retired es + Z.to_nat k)%nat =
    Some (queue_slot (shared t) (mouse_button_read (shared t) + k));
  ring_producer : producer_knows (producer t) (shared t);
  ring_consumer : consumer_knows (consumer t) (shared t);
}.

Lemma pending_range s : 0 <= pending s < 2 ^ 32.
Proof. apply u32_range. Qed.

Lemma pending_zero s :
  is_u32 (mouse_button_read s) -> is_u32 (mouse_button_write s) ->
  mouse_button_read s <> mouse_button_write s -> 0 < pending s.
Proof. unfold pending, is_word, u32. intros. zlia. Qed.

(** Only the queue and its two counters matter. *)
Definition ring_part (s : InputState) :=
  (mouse_button_queue s, mouse_button_read s, mouse_button_write s).

Lemma ring_ok_part es t p c s :
  ring_part s = ring_part (shared t) -> producer_knows p s -> consumer_knows c s ->
  ring_ok es t -> ring_ok es (mkThreads p c s).
Proof.
  intros E Hp Hc [H1 H2 H3 H4 H5 H6 _ _]. injection E as E1 E2 E3.
  assert (pending s = pending (shared t)) as Ep by (unfold pending; congruence).
  split; cbn [producer consumer shared]; rewrite ?E1, ?E2, ?E3, ?Ep; try done.
  intros k Hk. rewrite H6 by done. unfold queue_slot. by rewrite E1.
Qed.

Lemma knows_part p c s s' :
  ring_part s' = ring_part s ->
  (producer_knows p s -> producer_knows p s') /\ (consumer_knows c s -> consumer_knows c s').
Proof.
  intros E. injection E as E1 E2 E3. unfold producer_knows, consumer_knows, pending, queue_slot.
  split; [destruct p|destruct c]; rewrite ?E1, ?E2, ?E3; done.
Qed.

Lemma outside_part s s' : outside s s' -> ring_part s' = ring_part s.
Proof.
  destruct 1; try done. unfold cdi_input_mouse_motion. by destruct (cdi_input_mouse_active s).
Qed.

Lemma app_nil_ring es t : ring_ok es t -> ring_ok (es ++ []) t.
Proof. by rewrite app_nil_r. Qed.

Lemma slot_add_word s x k : queue_slot s (u32 x + k) = queue_slot s (x + k).
Proof. unfold queue_slot. f_equal. unfold u32, MOUSE_BUTTON_QUEUE_CAPACITY. zlia. Qed.

Lemma slot_pending s :
  (mouse_button_read s + pending s) mod 256 = mouse_button_write s mod 256.
Proof.
  unfold pending. set (r := mouse_button_read s). set (w := mouse_button_write s).
  assert (u32 (w - r) mod 256 = (w - r) mod 256) as E by (unfold u32; zlia).
  rewrite <- Zplus_mod_idemp_r, E, Zplus_mod_idemp_r. f_equal. lia.
Qed.

(** ** The two steps that move a counter *)
Lemma ring_publish es t after write :
  ring_ok es t -> producer t = PStored after write ->
  ring_ok (es ++ [Published after])
    (mkThreads PIdle (consumer t) (set_q_write (u32 (write + 1)) (shared t))).
Proof.
  intros [H1 H2 H3 H4 H5 H6 Hp Hc] Ep. rewrite Ep in Hp. destruct Hp as (-> & Hlt & Hs).
  pose proof (pending_range (shared t)) as Hr.
  assert (pending (set_q_write (u32 (mouse_button_write (shared t) + 1)) (shared t)) =
    pending (shared t) + 1) as E.
  { unfold pending in *. cbn [mouse_button_write mouse_button_read set_q_write]. apply wrap_succ. lia. }
  assert (published (es ++ [Published after]) = published es ++ [after]) as Epub by apply published_app.
  assert (retired (es ++ [Published after]) = retired es) as Eret
    by (rewrite retired_app; cbn; lia).
  split; cbn [producer consumer shared]; rewrite ?E, ?Epub, ?Eret; try done.
  - apply u32_range.
  - lia.
  - rewrite length_app. cbn [length]. lia.
  - intros k Hk. destruct (Z.eq_dec k (pending (shared t))) as [->|Hne].
    + rewrite lookup_app_r by lia.
      replace (retired es + Z.to_nat (pending (shared t)) - length (published es))%nat with 0%nat by lia.
      cbn. f_equal. rewrite <- Hs. unfold queue_slot, lget.
      cbn [mouse_button_queue mouse_button_read set_q_write].
      f_equal. f_equal. symmetry. apply slot_pending.
    + rewrite lookup_app_l by lia. apply H6. lia.
  - destruct (consumer t); cbn [consumer_knows] in *; try done;
      (destruct Hc as [-> Hc]; split; [done|]; intros Hne; rewrite E; lia).
Qed.

Lemma ring_retire es t read write :
  ring_ok es t -> consumer t = AckWrite read write -> read <> write ->
  ring_ok (es ++ [Retired])
    (mkThreads (producer t) CIdle (set_q_read (u32 (read + 1)) (shared t))).
Proof.
  intros [H1 H2 H3 H4 H5 H6 Hp Hc] Ec Hne. rewrite Ec in Hc. destruct Hc as [-> Hpos].
  specialize (Hpos Hne). pose proof (pending_range (shared t)) as Hr.
  assert (pending (set_q_read (u32 (mouse_button_read (shared t) + 1)) (shared t)) =
    pending (shared t) - 1) as E.
  { unfold pending in *. cbn [mouse_button_write mouse_button_read set_q_read]. by apply wrap_pred. }
  assert (published (es ++ [Retired]) = published es) as Epub
    by (rewrite published_app; apply app_nil_r).
  assert (retired (es ++ [Retired]) = S (retired es)) as Eret by (rewrite retired_app; cbn; lia).
  split; cbn [producer consumer shared]; rewrite ?E, ?Epub, ?Eret; try done.
  - apply u32_range.
  - lia.
  - lia.
  - intros k Hk. replace (S (retired es) + Z.to_nat k)%nat with (retired es + Z.to_nat (k + 1))%nat by lia.
    rewrite H6 by lia. f_equal. cbn [mouse_button_read set_q_read].
    change (queue_slot (set_q_read ?v ?s)) with (queue_slot s).
    rewrite slot_add_word. f_equal. lia.
  - destruct (producer t); cbn [producer_knows] in *; rewrite ?E; try done.
    + destruct Hp as [-> Hp]. split; [done|]. lia.
    + destruct Hp as (-> & Hp & Hs). split; [done|]. split; [lia|done].
Qed.

(** The store of a slot that is not live. *)
Lemma ring_store es t after write read :
  ring_ok es t -> producer t = PRead after write read -> u32 (write - read) < 256 ->
  ring_ok es (mkThreads (PStored after write) (consumer t)
    (set_queue (lset (mouse_button_queue (shared t)) (write mod 256) after) (shared t))).
Proof.
  intros [H1 H2 H3 H4 H5 H6 Hp Hc] Ep Hlt. rewrite Ep in Hp. destruct Hp as (-> & Hle).
  set (w := mouse_button_write (shared t)) in *.
  assert (length (lset (mouse_button_queue (shared t)) (w mod 256) after) = 256%nat) as Hlen
    by (by rewrite length_lset).
  split; cbn [producer consumer shared]; try done.
  - intros k Hk. change (pending (set_queue ?q ?s)) with (pending s) in Hk. rewrite H6 by done.
    f_equal. unfold queue_slot. cbn [mouse_button_queue mouse_button_read set_queue].
    symmetry. unfold MOUSE_BUTTON_QUEUE_CAPACITY. apply lget_lset_ne; [zlia..|].
    pose proof (slot_pending (shared t)) as Hs. fold w in Hs. rewrite <- Hs. zlia.
  - cbn. split; [done|]. change (pending (set_queue ?q ?s)) with (pending s). split; [lia|].
    unfold queue_slot. cbn [mouse_button_queue set_queue]. apply lget_lset_eq. rewrite H3. zlia.
Qed.

Lemma ring_ok_step es t es' t' : ring_ok es t -> thread_step t es' t' -> ring_ok (es ++ es') t'.
Proof.
  intros Hok Hstep. pose proof (ring_producer _ _ Hok) as Hp. pose proof (ring_consumer _ _ Hok) as Hc.
  destruct Hstep as [button pressed t p s e E|t c s e E|t s Ho].
  - destruct (producer t) as [|after|after write|after write read|after write] eqn:Ep; cbn in E.
    + destruct (_ || _ || _); injection E as <- <- <-; apply app_nil_ring;
        by apply (ring_ok_part _ t).
    + injection E as <- <- <-. apply app_nil_ring. by apply (ring_ok_part _ t).
    + injection E as <- <- <-. apply app_nil_ring. apply (ring_ok_part _ t); try done.
      cbn in *. subst write. split; [done|]. unfold pending. lia.
    + destruct (Z.leb_spec MOUSE_BUTTON_QUEUE_CAPACITY (u32 (write - read))) as [Hle|Hlt];
        injection E as <- <- <-; apply app_nil_ring.
      * by apply (ring_ok_part _ t).
      * by apply (ring_store _ t _ _ read).
    + injection E as <- <- <-. by apply ring_publish.
  - destruct (consumer t) as [|r|r|r read|r read write|r|read|read write] eqn:Ec; cbn in E.
    6: { injection E as <- <- <-. apply app_nil_ring. by apply (ring_ok_part _ t). }
    1-3: injection E as <- <- <-; apply app_nil_ring; by apply (ring_ok_part _ t).
    + injection E as <- <- <-. apply app_nil_ring. apply (ring_ok_part _ t); try done.
      cbn in *. subst read. split; [done|]. intros Hne. apply pending_zero; [apply Hok..|done].
    + assert (forall es', published es' = [] -> retired es' = 0%nat ->
        ring_ok (es ++ es') (mkThreads (producer t) (Got 0) (shared t))) as Hq.
      { intros es' E1 E2. assert (ring_ok es (mkThreads (producer t) (Got 0) (shared t))) as [] by
          (by apply (ring_ok_part _ t)).
        split; rewrite ?published_app, ?retired_app, ?E1, ?E2, ?app_nil_r, ?Nat.add_0_r; done. }
      destruct (negb (read =? write)); injection E as <- <- <-;
        (eapply (ring_ok_part _ (mkThreads (producer t) (Got 0) (shared t))); [done|done|done|]);
        by apply Hq.
    + injection E as <- <- <-. apply app_nil_ring. apply (ring_ok_part _ t); try done.
      cbn in *. subst read. split; [done|]. intros Hne. apply pending_zero; [apply Hok..|done].
    + destruct (Z.eqb_spec read write) as [->|Hne]; cbn [negb] in E; injection E as <- <- <-.
      * apply app_nil_ring. by apply (ring_ok_part _ t).
      * by apply ring_retire with (write := write).
  - apply outside_part in Ho. apply app_nil_ring. destruct (knows_part (producer t) (consumer t) _ _ Ho).
    apply (ring_ok_part _ t); auto.
Qed.

Record ring_empty (s : InputState) : Prop := {
  empty_counters : mouse_button_read s = mouse_button_write s;
  empty_word : is_u32 (mouse_button_read s);
  empty_size : length (mouse_button_queue s) = 256%nat;
}.

Lemma ring_ok_start s : ring_empty s -> ring_ok [] (mkThreads PIdle CIdle s).
Proof.
  intros [E Hw Hl]. assert (pending s = 0) as Ep by (unfold pending; by rewrite E, Z.sub_diag).
  split; cbn [producer consumer shared]; rewrite ?Ep; try done; try lia.
  by rewrite <- E.
Qed.

Lemma execution_ok s0 es t :
  ring_empty s0 -> execution (mkThreads PIdle CIdle s0) es t -> ring_ok es t.
Proof.
  intros H0. induction 1 as [|es t es' t' _ IH Hstep]; [by apply ring_ok_start|].
  by apply (ring_ok_step es t).
Qed.

(** Under every interleaving of the frontend with the emulation the ring is a
    queue: never more than its capacity is outstanding, nothing is retired that
    was not published, and a sample read from the ring is the oldest one that
    has been published and not yet retired. *)
Theorem button_ring_is_fifo s0 es t :
  ring_empty s0 -> execution (mkThreads PIdle CIdle s0) es t ->
  (retired es <= length (published es) <= retired es + 256)%nat /\
  Z.of_nat (length (published es) - retired es) = pending (shared t) /\
  forall v es' t', thread_step t es' t' -> In (Sampled v) es' -> published es !! retired es = Some v.
Proof.
  intros H0 Hex. pose proof (execution_ok _ _ _ H0 Hex) as Hok.
  pose proof (ring_count _ _ Hok). pose proof (ring_full _ _ Hok). pose proof (pending_range (shared t)).
  split; [lia|]. split; [lia|]. intros v es' t' Hstep Hin.
  destruct Hstep as [button pressed t p s e E|t c s e E|t s Ho]; [| |done].
  - exfalso. destruct (producer t); cbn in E;
      repeat match type of E with context [if ?b then _ else _] => destruct b end;
      injection E as <- <- <-; cbn in Hin; intuition discriminate.
  - pose proof (ring_consumer _ _ Hok) as Hc. destruct (consumer t) as [| | | |r read write| | |]; cbn in E;
      try (injection E as <- <- <-; cbn in Hin; intuition discriminate).
    + destruct (Z.eqb_spec read write) as [|Hne]; cbn [negb] in E; injection E as <- <- <-;
        cbn in Hin; [done|]. destruct Hin as [[= <-]|[]]. destruct Hc as [-> Hpos].
      specialize (Hpos Hne). pose proof (ring_slots _ _ Hok 0 ltac:(lia)) as Hs.
      by rewrite Nat.add_0_r, Z.add_0_r in Hs.
    + destruct (negb _); injection E as <- <- <-; cbn in Hin; intuition discriminate.
Qed.

Lemma run_one_step who t : thread_step t (fst (run_one who t)) (snd (run_one who t)).
Proof.
  unfold run_one. destruct who as [[button pressed]|].
  - destruct (produce button pressed (producer t) (shared t)) as [[p s] es] eqn:E. by eapply step_produce.
  - destruct (consume (consumer t) (shared t)) as [[c s] es] eqn:E. by eapply step_consume.
Qed.

Lemma run_schedule_execution t0 schedule es t :
  execution t0 es t ->
  execution t0 (fst (run_schedule schedule es t)) (snd (run_schedule schedule es t)).
Proof.
  revert es t. induction schedule as [|who rest IH]; intros es t He; [done|]. cbn [run_schedule].
  pose proof (run_one_step who t) as Hs. destruct (run_one who t) as [es' t']. cbn [fst snd] in Hs.
  apply IH. by apply (exec_step _ es t).
Qed.

(** ** The operations are the undisturbed runs of the threads *)
Definition produce_alone (n : nat) (button : Z) (pressed : bool) (x : Producer * InputState) :=
  Nat.iter n (fun x => fst (produce button pressed (fst x) (snd x))) x.
Definition consume_alone (n : nat) (x : Consumer * InputState) :=
  Nat.iter n (fun x => fst (consume (fst x) (snd x))) x.

(** A thread that is not disturbed performs the operation of the C function:
    pressing a button within five atomic steps, sampling in five, acknowledging
    in three. *)
Theorem threads_refine_operations s :
  (forall button pressed, exists n, (1 <= n <= 5)%nat /\
     produce_alone n button pressed (PIdle, s) = (PIdle, cdi_input_mouse_button button pressed s)) /\
  consume_alone 5 (CIdle, s) = (Got (cdi_input_get s), s) /\
  (forall v, consume_alone 3 (Got v, s) = (CIdle, cdi_input_acknowledge_mouse_buttons s)).
Proof.
  split; [|split].
  - intros button pressed. unfold cdi_input_mouse_button. cbv zeta.
    set (bit := button_bit button). set (after := pressed_buttons (mouse_physical_buttons s) bit pressed).
    destruct (negb (z2b bit) || (pressed && negb (cdi_input_mouse_active s)) || (after =? mouse_physical_buttons s)) eqn:E.
    + exists 1%nat. split; [lia|]. cbn. fold bit. fold after. rewrite E.
      apply orb_true_iff in E as [[E|E]%orb_true_iff|E]; rewrite E; [done|by destruct (negb (z2b bit))|].
      by destruct (negb (z2b bit)), (pressed && negb (cdi_input_mouse_active s)).
    + pose proof E as E'. apply orb_false_iff in E' as [[-> ->]%orb_false_iff ->].
      set (s1 := set_physical after s).
      destruct (MOUSE_BUTTON_QUEUE_CAPACITY <=? u32 (mouse_button_write s1 - mouse_button_read s1)) eqn:Ef.
      * exists 4%nat. split; [lia|]. unfold produce_alone. cbn [Nat.iter nat_rect fst snd].
        cbn [produce]. fold bit. fold after. rewrite E. cbn [fst snd]. fold s1. cbn [produce fst snd].
        by rewrite Ef.
      * exists 5%nat. split; [lia|]. unfold produce_alone. cbn [Nat.iter nat_rect fst snd].
        cbn [produce]. fold bit. fold after. rewrite E. cbn [fst snd]. fold s1. cbn [produce fst snd].
        rewrite Ef. done.
  - cbn. unfold cdi_input_get. cbv zeta. by destruct (negb _).
  - intros v. cbn. unfold cdi_input_acknowledge_mouse_buttons. cbv zeta. by destruct (negb _).
Qed.

(** A mouse in the window, whose buttons are up. *)
Definition sample_input : InputState := mkInput 0 0 0 (replicate 256 0) 0 0 0 0 true true.
(** Button 1 goes down while the emulation is between two loads of its sample. *)
Definition sample_schedule : list (option (Z * bool)) :=
  [Some (1, true); None; Some (1, true); None; Some (1, true); Some (1, true); Some (1, true); None; None].

Lemma button_ring_is_fifo_witness :
  let '(es, t) := run_schedule sample_schedule [] (mkThreads PIdle CIdle sample_input) in
  consumer t = GetWrite 0 0 1 /\ published es !! retired es = Some CDI_INPUT_BTN1 /\ pending (shared t) = 1.
Proof.
  assert (ring_empty sample_input) as H0 by (split; [reflexivity|split; [discriminate|reflexivity]|reflexivity]).
  pose proof (run_schedule_execution _ sample_schedule [] _ (exec_start (mkThreads PIdle CIdle sample_input))) as He.
  destruct (button_ring_is_fifo sample_input _ _ H0 He) as (_ & Hp & Hs).
  split; [reflexivity|]. split; [|exact (eq_sym Hp)].
  apply (Hs _ [Sampled CDI_INPUT_BTN1] (snd (run_one None (snd (run_schedule sample_schedule []
    (mkThreads PIdle CIdle sample_input)))))).
  - exact (run_one_step None (snd (run_schedule sample_schedule [] (mkThreads PIdle CIdle sample_input)))).
  - by left.
Defined.
