(* ===== verification/Slave.v ===== *)
(** The IKAT serial gate (runner/src/slave.c): four message channels with their
    command and response queues, deferred replies, the pointer packets, and the
    per-channel interrupt status.

    The board around the gate (interrupt line 2, the drive of the CIAP, the
    medium, the boot reset) is the interface [IkatHost]. The ring of debug
    events and the diagnostics on stderr are left out. *)

From Stdlib Require Import ZArith Lia Bool Ascii.
From stdpp Require Import base tactics numbers list.
From S2P Require Import Prelude Double Input.
Open Scope Z_scope.

Definition CDI_SLAVE_BASE : Z := 0x00310000.
Definition CHANNEL_A : Z := 0.
Definition CHANNEL_B : Z := 1.
Definition CHANNEL_C : Z := 2.
Definition CHANNEL_D : Z := 3.
Definition CHANNEL_COUNT : Z := 4.
Definition REG_INPUT_A : Z := 0.
Definition REG_INPUT_D : Z := 3.
Definition REG_OUTPUT_A : Z := 4.
Definition REG_OUTPUT_D : Z := 7.
Definition REG_STATUS_A : Z := 8.
Definition REG_INTERRUPT_STATUS : Z := 12.
Definition REG_INTERRUPT_MASK : Z := 13.
Definition IKAT_REGISTER_COUNT : Z := 15.
Definition CHANNEL_BUFFER_BYTES : Z := 8.

Record IkatChannel := mkChannel {
  command : list Z;  (* uint8_t[8] *)
  response : list Z;  (* uint8_t[8] *)
  deferred : list Z;  (* uint8_t[8] *)
  command_length : Z;
  response_length : Z;
  response_position : Z;
  deferred_length : Z;
  deferred_pending : bool;
  deferred_ns : Z;
}.
Definition channel_fields :=
  (tt, command, response, deferred, command_length, response_length, response_position,
   deferred_length, deferred_pending, deferred_ns).
Ltac channel_set q f v := setter mkChannel q f v channel_fields.
Definition set_command (v : list Z) (q : IkatChannel) : IkatChannel := ltac:(channel_set q command v).
Definition set_response (v : list Z) (q : IkatChannel) : IkatChannel := ltac:(channel_set q response v).
Definition set_deferred (v : list Z) (q : IkatChannel) : IkatChannel := ltac:(channel_set q deferred v).
Definition set_command_length (v : Z) (q : IkatChannel) : IkatChannel := ltac:(channel_set q command_length v).
Definition set_response_length (v : Z) (q : IkatChannel) : IkatChannel := ltac:(channel_set q response_length v).
Definition set_response_position (v : Z) (q : IkatChannel) : IkatChannel := ltac:(channel_set q response_position v).
Definition set_deferred_length (v : Z) (q : IkatChannel) : IkatChannel := ltac:(channel_set q deferred_length v).
Definition set_deferred_pending (v : bool) (q : IkatChannel) : IkatChannel := ltac:(channel_set q deferred_pending v).
Definition set_deferred_ns (v : Z) (q : IkatChannel) : IkatChannel := ltac:(channel_set q deferred_ns v).

Record IkatDevice := mkIkat {
  registers : list Z;  (* uint8_t[15] *)
  channel : list IkatChannel;  (* [4] *)
  media_generation_seen : Z;  (* media_generation *)
  pointer_elapsed_ns : Z;
  previous_input : Z;
  pointer_repeat_count : Z;
  seek_report_pending : bool;
  ready_report_pending : bool;
  ikat_initialized : bool;
}.
Definition ikat_fields :=
  (tt, registers, channel, media_generation_seen, pointer_elapsed_ns, previous_input,
   pointer_repeat_count, seek_report_pending, ready_report_pending, ikat_initialized).
Ltac ikat_set d f v := setter mkIkat d f v ikat_fields.
Definition set_registers (v : list Z) (d : IkatDevice) : IkatDevice := ltac:(ikat_set d registers v).
Definition set_channel (v : list IkatChannel) (d : IkatDevice) : IkatDevice := ltac:(ikat_set d channel v).
Definition set_media_generation_seen (v : Z) (d : IkatDevice) : IkatDevice := ltac:(ikat_set d media_generation_seen v).
Definition set_pointer_elapsed_ns (v : Z) (d : IkatDevice) : IkatDevice := ltac:(ikat_set d pointer_elapsed_ns v).
Definition set_previous_input (v : Z) (d : IkatDevice) : IkatDevice := ltac:(ikat_set d previous_input v).
Definition set_pointer_repeat_count (v : Z) (d : IkatDevice) : IkatDevice := ltac:(ikat_set d pointer_repeat_count v).
Definition set_seek_report_pending (v : bool) (d : IkatDevice) : IkatDevice := ltac:(ikat_set d seek_report_pending v).
Definition set_ready_report_pending (v : bool) (d : IkatDevice) : IkatDevice := ltac:(ikat_set d ready_report_pending v).
Definition set_ikat_initialized (v : bool) (d : IkatDevice) : IkatDevice := ltac:(ikat_set d ikat_initialized v).

Definition zero_bytes : list Z := replicate 8 0.
Definition zero_channel : IkatChannel := mkChannel zero_bytes zero_bytes zero_bytes 0 0 0 0 false 0.

Definition interrupt_bit (c : Z) : Z := lget [0x02; 0x08; 0x20; 0x80] c.
Definition reply_f0 : list Z := [0xA5; 0xF0; 0x7F].
Definition reply_f3 : list Z := [0xA5; 0xF3; 0x4D; 0x00].
Definition reply_f4 : list Z := [0xA5; 0xF4; 0x00].
Definition reply_f7 : list Z := [0xA5; 0xF7; 0x00].
Definition reply_f8 : list Z := [0xA5; 0xF8; 0x00].
Definition reply_b1 : list Z := [0xB1; 0x00; 0x02; 0x00].
Definition reply_b2 : list Z := [0xB2; 0x20; 0x00; 0x10].
Definition reply_c2 : list Z := [0xC2; 0x00; 0x00; 0x00].
Definition reply_c3 : list Z := [0xC3; 0x00; 0x00; 0x00].
Definition reply_c4 : list Z := [0xC4; 0x00; 0x00; 0x00].
Definition reply_c5 : list Z := [0xC5; 0x00; 0x00; 0x00].
Definition video_reply : list Z := [0xA5; 0xF6; 0x01; 0xFF].
Definition busy_status : list Z := [0xB0; 0x00; 0x02; 0x10].
Definition on_target : list Z := [0xB0; 0x00; 0x02; 0x0E].

(** What the gate asks of the board. *)
Class IkatHost (D : Type) : Type := {
  host_irq : D -> D;  (* cdi_irq_raise(2) *)
  host_media_present : D -> bool;
  host_media_generation : D -> Z;
  host_transport_resume : D -> D;
  host_set_drive_position : Z -> bool -> D -> D;
  host_boot_reset : D -> D;
}.

Section Ikat.
Context {D : Type} `{IkatHost D}.

Record IkatWorld := mkIW { ikat : IkatDevice; iw_input : InputState; iw_host : D }.

Definition on_ikat (f : IkatDevice -> IkatDevice) (w : IkatWorld) : IkatWorld :=
  mkIW (f (ikat w)) (iw_input w) (iw_host w).
Definition on_host (f : D -> D) (w : IkatWorld) : IkatWorld :=
  mkIW (ikat w) (iw_input w) (f (iw_host w)).

Definition chan (d : IkatDevice) (c : Z) : IkatChannel := nth (Z.to_nat c) (channel d) zero_channel.
Definition upd_chan (c : Z) (f : IkatChannel -> IkatChannel) (d : IkatDevice) : IkatDevice :=
  set_channel (alter f (Z.to_nat c) (channel d)) d.
Definition reg (d : IkatDevice) (r : Z) : Z := lget (registers d) r.
Definition set_reg (r v : Z) (d : IkatDevice) : IkatDevice := set_registers (lset (registers d) r v) d.

Definition response_remaining (d : IkatDevice) (c : Z) : Z :=
  response_length (chan d c) - response_position (chan d c).

Definition update_channel_status (c : Z) (d : IkatDevice) : IkatDevice :=
  let status := reg d (REG_STATUS_A + c) in
  set_reg (REG_STATUS_A + c)
    (if z2b (response_remaining d c) then Z.land status 0x01 else Z.lor status 0x11) d.

Definition raise_channel_interrupt (c : Z) (w : IkatWorld) : IkatWorld :=
  let w := on_ikat (fun d =>
    set_reg REG_INTERRUPT_STATUS (Z.lor (reg d REG_INTERRUPT_STATUS) (interrupt_bit c)) d) w in
  if z2b (Z.land (reg (ikat w) REG_INTERRUPT_MASK) (interrupt_bit c)) then on_host host_irq w else w.

(** [memcpy] of a whole message into the front of a buffer. *)
Definition copy_front (bytes buffer : list Z) : list Z := bytes ++ drop (length bytes) buffer.

Definition clipped (bytes : list Z) : list Z := take (Z.to_nat CHANNEL_BUFFER_BYTES) bytes.

Definition publish_response (c : Z) (bytes : list Z) (d : IkatDevice) : IkatDevice :=
  let bytes := clipped bytes in
  let d := upd_chan c (fun q =>
    set_response_length (Z.of_nat (length bytes))
      (set_response_position 0 (set_response (copy_front bytes (response q)) q))) d in
  update_channel_status c d.

Definition publish_and_interrupt (c : Z) (bytes : list Z) (w : IkatWorld) : IkatWorld :=
  raise_channel_interrupt c (on_ikat (publish_response c bytes) w).

Definition REPLY_DELAY_NS : Z := 1000000.
Definition defer_response (c : Z) (bytes : list Z) (d : IkatDevice) : IkatDevice :=
  let bytes := clipped bytes in
  upd_chan c (fun q =>
    set_deferred_ns REPLY_DELAY_NS (set_deferred_pending true
      (set_deferred_length (Z.of_nat (length bytes))
        (set_deferred (copy_front bytes (deferred q)) q)))) d.

Definition make_disc_status (h : D) : list Z :=
  if host_media_present h then [0xB0; 0x00; 0x02; 0x15] else [0xB0; 0x02; 0x10; 0x00].

Definition immediate_commands : list (Z * list Z) :=
  [(0xF0, reply_f0); (0xF3, reply_f3); (0xF4, reply_f4); (0xF7, reply_f7); (0xF8, reply_f8)].

Fixpoint find_command (command : Z) (commands : list (Z * list Z)) : option (list Z) :=
  match commands with
  | [] => None
  | (c, reply) :: rest => if c =? command then Some reply else find_command command rest
  end.

Definition end_command (c : Z) (d : IkatDevice) : IkatDevice := upd_chan c (set_command_length 0) d.

Definition handle_channel_c (w : IkatWorld) : IkatWorld :=
  let first := lget (command (chan (ikat w) CHANNEL_C)) 0 in
  if first =? 0x88 then on_host host_boot_reset (on_ikat (end_command CHANNEL_C) w)
  else if first =? 0xF6 then
    publish_and_interrupt CHANNEL_C video_reply (on_ikat (end_command CHANNEL_C) w)
  else
    match find_command first immediate_commands with
    | Some reply => publish_and_interrupt CHANNEL_C reply (on_ikat (end_command CHANNEL_C) w)
    | None => on_ikat (end_command CHANNEL_C) w
    end.

Definition four_byte_command (c : Z) : bool :=
  (c =? 0xA1) || (c =? 0xA6) || (c =? 0xB0) || (c =? 0xB2) || (c =? 0xC2) || (c =? 0xC3) ||
  (c =? 0xC4) || (c =? 0xC5) || (c =? 0xE0) || (c =? 0xE1).

Definition bcd_value (value : Z) : Z := Z.shiftr value 4 * 10 + Z.land value 0x0F.

Definition absolute_msf_lba (command : list Z) : Z :=
  let minute := bcd_value (lget command 1) in
  let second := bcd_value (lget command 2) in
  let frame := bcd_value (lget command 3) in
  let absolute := u32 ((minute * 60 + second) * 75 + frame) in
  if 150 <=? absolute then absolute - 150 else 0.

Definition report_status (w : IkatWorld) : IkatWorld :=
  if seek_report_pending (ikat w) then
    on_ikat (fun d => defer_response CHANNEL_D busy_status
      (set_ready_report_pending true (set_seek_report_pending false d))) w
  else on_ikat (defer_response CHANNEL_D (make_disc_status (iw_host w))) w.

Definition seek (audio : bool) (w : IkatWorld) : IkatWorld :=
  let target := absolute_msf_lba (command (chan (ikat w) CHANNEL_D)) in
  on_ikat (set_seek_report_pending true) (on_host (host_set_drive_position target audio) w).

Definition run_channel_d (command : Z) (w : IkatWorld) : IkatWorld :=
  if command =? 0xA1 then report_status w
  else if command =? 0xB0 then report_status (on_host host_transport_resume w)
  else if command =? 0xB1 then publish_and_interrupt CHANNEL_D reply_b1 w
  else if command =? 0xB2 then on_ikat (defer_response CHANNEL_D reply_b2) w
  else if command =? 0xC2 then on_ikat (defer_response CHANNEL_D reply_c2) w
  else if command =? 0xC3 then on_ikat (defer_response CHANNEL_D reply_c3) w
  else if command =? 0xC4 then on_ikat (defer_response CHANNEL_D reply_c4) w
  else if command =? 0xC5 then
    on_ikat (fun d => defer_response CHANNEL_D reply_c5
      (set_ready_report_pending false (set_seek_report_pending false d))) w
  else if command =? 0xE0 then seek true w
  else if command =? 0xE1 then seek false w
  else w.

Definition handle_channel_d (w : IkatWorld) : IkatWorld :=
  let q := chan (ikat w) CHANNEL_D in
  let first := lget (command q) 0 in
  if four_byte_command first && (command_length q <? 4) then w
  else on_ikat (end_command CHANNEL_D) (run_channel_d first w).

Definition initialize_ikat (h : D) : IkatDevice :=
  mkIkat (lset (lset (lset (lset (replicate 15 0) 8 0x11) 9 0x11) 10 0x11) 11 0x11)
    (replicate 4 zero_channel) (host_media_generation h) 0 0 0 false false true.

Definition ensure_ikat (w : IkatWorld) : IkatWorld :=
  if ikat_initialized (ikat w) then w else on_ikat (fun _ => initialize_ikat (iw_host w)) w.

(** * Pointer packets *)
Definition pointer_packet (input x y : Z) : list Z :=
  let encoded_x := u8 (i8 x) in
  let encoded_y := u8 (i8 y) in
  [u8 (Z.lor (Z.lor (Z.lor (Z.lor 0x40
         (if z2b (Z.land input CDI_INPUT_BTN1) then 0x20 else 0))
         (if z2b (Z.land input CDI_INPUT_BTN2) then 0x10 else 0))
         (Z.land (Z.shiftr encoded_y 4) 0x0C))
         (Z.land (Z.shiftr encoded_x 6) 0x03));
   u8 (Z.land encoded_x 0x3F);
   u8 (Z.land encoded_y 0x3F);
   0].

Definition directions_of (input : Z) : Z :=
  Z.land input (Z.lor CDI_INPUT_LEFT (Z.lor CDI_INPUT_UP (Z.lor CDI_INPUT_RIGHT CDI_INPUT_DOWN))).

(** Keys accelerate with the reports they are held for. *)
Definition repeat_count (input count : Z) : Z :=
  if z2b (directions_of input) then i32 (count + 1) else 0.
Definition key_speed (count : Z) : Z :=
  let speed := count + Z.land count 1 in
  if 8 <? speed then 8 else speed.
Definition key_motion (input minus plus speed : Z) : Z :=
  if z2b (Z.land input minus) then - speed else if z2b (Z.land input plus) then speed else 0.

Definition emit_pointer_packet (w : IkatWorld) : IkatWorld :=
  let input := cdi_input_get (iw_input w) in
  let buttons_changed := Z.land (Z.lxor input (previous_input (ikat w))) (Z.lor CDI_INPUT_BTN1 CDI_INPUT_BTN2) in
  let count := repeat_count input (pointer_repeat_count (ikat w)) in
  let speed := key_speed count in
  let key_x := key_motion input CDI_INPUT_LEFT CDI_INPUT_RIGHT speed in
  let key_y := key_motion input CDI_INPUT_UP CDI_INPUT_DOWN speed in
  let '((mouse_x, mouse_y), s) :=
    cdi_input_take_relative (-128 - key_x) (127 - key_x) (-128 - key_y) (127 - key_y) (iw_input w) in
  let x := key_x + mouse_x in
  let y := key_y + mouse_y in
  let w := mkIW (set_pointer_repeat_count count (ikat w)) s (iw_host w) in
  let w := if z2b (directions_of input) || z2b x || z2b y || z2b buttons_changed
           then publish_and_interrupt CHANNEL_A (pointer_packet input x y) w else w in
  mkIW (set_previous_input input (ikat w))
    (cdi_input_acknowledge_mouse_buttons (iw_input w)) (iw_host w).

(** * Time *)
Definition POINTER_PERIOD_NS : Z := 25000000.

Definition check_media (w : IkatWorld) : IkatWorld :=
  let generation := host_media_generation (iw_host w) in
  if negb (generation =? media_generation_seen (ikat w)) then
    publish_and_interrupt CHANNEL_D (make_disc_status (iw_host w))
      (on_ikat (set_media_generation_seen generation) w)
  else w.

Fixpoint pointer_loop (fuel : nat) (w : IkatWorld) : IkatWorld :=
  match fuel with
  | O => w
  | S fuel' =>
    if POINTER_PERIOD_NS <=? pointer_elapsed_ns (ikat w) then
      pointer_loop fuel' (emit_pointer_packet
        (on_ikat (fun d => set_pointer_elapsed_ns (pointer_elapsed_ns d - POINTER_PERIOD_NS) d) w))
    else w
  end.
Definition pointer_rounds (w : IkatWorld) : nat :=
  Z.to_nat (pointer_elapsed_ns (ikat w) / POINTER_PERIOD_NS).

Definition add_pointer_time (step : Z) (d : IkatDevice) : IkatDevice :=
  set_pointer_elapsed_ns (u64 (pointer_elapsed_ns d + step)) d.

(** A deferred reply whose delay has passed and whose channel is empty. *)
Definition deliver_deferred (c : Z) (w : IkatWorld) : IkatWorld :=
  let w := on_ikat (upd_chan c (set_deferred_ns 0)) w in
  if z2b (response_remaining (ikat w) c) then w
  else
    let q := chan (ikat w) c in
    let w := if (c =? CHANNEL_D) && (lget (deferred q) 0 =? 0xC4)
             then on_host host_transport_resume w else w in
    let w := publish_and_interrupt c (take (Z.to_nat (deferred_length q)) (deferred q)) w in
    let w := on_ikat (upd_chan c (set_deferred_pending false)) w in
    if (c =? CHANNEL_D) && ready_report_pending (ikat w)
    then on_ikat (fun d => defer_response CHANNEL_D on_target (set_ready_report_pending false d)) w
    else w.

Definition advance_deferred (step c : Z) (w : IkatWorld) : IkatWorld :=
  let q := chan (ikat w) c in
  if negb (deferred_pending q) then w
  else if step <? deferred_ns q
  then on_ikat (upd_chan c (fun q => set_deferred_ns (deferred_ns q - step) q)) w
  else deliver_deferred c w.

Definition all_channels : list Z := [CHANNEL_A; CHANNEL_B; CHANNEL_C; CHANNEL_D].

Definition slave_increment_time (nanoseconds : double) (w : IkatWorld) : IkatWorld :=
  let step := dtrunc nanoseconds in
  let w := check_media (ensure_ikat w) in
  let w := on_ikat (add_pointer_time step) w in
  let w := pointer_loop (pointer_rounds w) w in
  fold_left (fun w c => advance_deferred step c w) all_channels w.

(** * Quiet batches *)
Definition ikat_limit (d : IkatDevice) : Z :=
  fold_left (fun limit c =>
    let q := chan d c in
    if deferred_pending q && (deferred_ns q <? limit) then deferred_ns q else limit)
    all_channels (u64 (POINTER_PERIOD_NS - pointer_elapsed_ns d)).

Definition slave_quiet_quanta (maximum quantum_ns : Z) (w : IkatWorld) : Z :=
  let d := ikat w in
  if negb (ikat_initialized d) || negb (host_media_generation (iw_host w) =? media_generation_seen d)
  then 0
  else
    let limit := ikat_limit d in
    if limit =? 0 then 0
    else
      let quiet := (limit - 1) / quantum_ns in
      if quiet <? maximum then quiet else maximum.

Definition slave_advance_quiet (ns : Z) (d : IkatDevice) : IkatDevice :=
  fold_left (fun d c =>
    if deferred_pending (chan d c)
    then upd_chan c (fun q => set_deferred_ns (u64 (deferred_ns q - ns)) q) d else d)
    all_channels (add_pointer_time ns d).

(** * Registers *)
Definition read_output (c : Z) (d : IkatDevice) : IkatDevice :=
  let q := chan d c in
  if z2b (response_remaining d c) then
    let value := lget (response q) (response_position q) in
    let d := upd_chan c (fun q => set_response_position (response_position q + 1) q) d in
    let d := set_reg (REG_OUTPUT_A + c) value d in
    let d := if z2b (response_remaining d c) then d
             else set_reg REG_INTERRUPT_STATUS
                    (Z.land (reg d REG_INTERRUPT_STATUS) (u8 (Z.lnot (interrupt_bit c)))) d in
    update_channel_status c d
  else d.

Definition read_register (r : Z) (w : IkatWorld) : Z * IkatWorld :=
  let w := if (REG_OUTPUT_A <=? r) && (r <=? REG_OUTPUT_D)
           then on_ikat (read_output (r - REG_OUTPUT_A)) w else w in
  (reg (ikat w) r, w).

Definition push_command (value : Z) (q : IkatChannel) : IkatChannel :=
  if command_length q <? CHANNEL_BUFFER_BYTES
  then set_command_length (command_length q + 1) (set_command (lset (command q) (command_length q) value) q)
  else q.

Definition write_register (r value : Z) (w : IkatWorld) : IkatWorld :=
  if r =? REG_INTERRUPT_MASK then
    let w := on_ikat (set_reg r value) w in
    if z2b (Z.land (reg (ikat w) REG_INTERRUPT_STATUS) value) then on_host host_irq w else w
  else if r <=? REG_INPUT_D then
    let w := on_ikat (fun d => upd_chan r (push_command value) (set_reg r value d)) w in
    if r =? CHANNEL_C then handle_channel_c w
    else if r =? CHANNEL_D then handle_channel_d w
    else w
  else w.

Definition register_from_address (address : Z) : Z := Z.shiftr (u32 (address - CDI_SLAVE_BASE)) 1.

Definition slave_read (address : Z) (w : IkatWorld) : Z * IkatWorld :=
  let w := ensure_ikat w in
  let r := register_from_address address in
  if (r <? 0) || (IKAT_REGISTER_COUNT <=? r) then (0, w) else read_register r w.

Definition slave_write (address value : Z) (w : IkatWorld) : IkatWorld :=
  let w := ensure_ikat w in
  let r := register_from_address address in
  if (r <? 0) || (IKAT_REGISTER_COUNT <=? r) then w else write_register r (u8 value) w.
End Ikat.

Arguments IkatWorld : clear implicits.

(** * The input schedule *)
Record InputSchedule := mkSchedule {
  transitions : list (Z * Z);  (* frame and mask *)
  schedule_position : nat;
}.

(** The remaining transitions that are due are applied in order. *)
Fixpoint apply_due (due : list (Z * Z)) (completed_frame : Z) (position : nat) (s : InputState)
    : nat * InputState :=
  match due with
  | (frame, mask) :: rest =>
    if frame <=? completed_frame
    then apply_due rest completed_frame (S position) (cdi_input_set mask s)
    else (position, s)
  | [] => (position, s)
  end.

Definition cdi_input_schedule_advance (completed_frame : Z) (q : InputSchedule) (s : InputState)
    : InputSchedule * InputState :=
  let '(position, s) :=
    apply_due (drop (schedule_position q) (transitions q)) completed_frame (schedule_position q) s in
  (mkSchedule (transitions q) position, s).
