(* ===== verification/SlaveSpec.v ===== *)
(** What the IKAT gate guarantees: status and interrupt registers that mirror the
    queues, replies read in order, deferred replies that arrive, quiet batches
    that are sequences of quanta, and pointer packets that carry the motion. *)

From Stdlib Require Import ZArith Lia Bool SpecFloat.
From stdpp Require Import base tactics numbers list relations.
From S2P Require Import Prelude Double Input Slave.
Open Scope Z_scope.

Definition is_channel (c : Z) : Prop := 0 <= c < CHANNEL_COUNT.

(** Arithmetic of register and channel numbers. *)
Ltac regs :=
  unfold is_channel, CHANNEL_COUNT, CHANNEL_A, CHANNEL_B, CHANNEL_C, CHANNEL_D, REG_INPUT_A, REG_INPUT_D,
    REG_OUTPUT_A, REG_OUTPUT_D, REG_STATUS_A, REG_INTERRUPT_STATUS, REG_INTERRUPT_MASK,
    IKAT_REGISTER_COUNT in *; lia.

(** * Well-formedness *)
Record channel_ok (q : IkatChannel) : Prop := {
  ch_command : length (command q) = 8%nat /\ Forall is_u8 (command q);
  ch_response : length (response q) = 8%nat /\ Forall is_u8 (response q);
  ch_deferred : length (deferred q) = 8%nat /\ Forall is_u8 (deferred q);
  ch_command_length : 0 <= command_length q <= 8;
  ch_response_length : 0 <= response_position q <= response_length q /\ response_length q <= 8;
  ch_deferred_length : 0 <= deferred_length q <= 8;
  ch_deferred_ns : 0 <= deferred_ns q <= REPLY_DELAY_NS;
  ch_pending : deferred_pending q = true -> 0 < deferred_length q;
}.

(** The registers a channel owns mirror its response queue. *)
Record mirrored (d : IkatDevice) (c : Z) : Prop := {
  mir_status : reg d (REG_STATUS_A + c) = if z2b (response_remaining d c) then 0x01 else 0x11;
  mir_interrupt : Z.testbit (reg d REG_INTERRUPT_STATUS) (2 * c + 1) = z2b (response_remaining d c);
}.

Record ikat_ok (d : IkatDevice) : Prop := {
  ik_registers : length (registers d) = 15%nat /\ Forall is_u8 (registers d);
  ik_channels : length (channel d) = 4%nat /\ Forall channel_ok (channel d);
  ik_mirror : forall c, is_channel c -> mirrored d c;
  ik_pointer : 0 <= pointer_elapsed_ns d < POINTER_PERIOD_NS;
}.

(** * Lookup after update *)
Lemma reg_set_eq r v d : length (registers d) = 15%nat -> 0 <= r < 15 -> reg (set_reg r v d) r = v.
Proof. intros Hl Hr. unfold reg, set_reg. cbn. apply lget_lset_eq. lia. Qed.
Lemma reg_set_ne r r' v d : 0 <= r -> 0 <= r' -> r <> r' -> reg (set_reg r v d) r' = reg d r'.
Proof. intros. unfold reg, set_reg. cbn. by apply lget_lset_ne. Qed.
Lemma chan_set_reg r v d c : chan (set_reg r v d) c = chan d c.
Proof. done. Qed.
Lemma reg_upd_chan c f d r : reg (upd_chan c f d) r = reg d r.
Proof. done. Qed.

Lemma chan_lookup d c : length (channel d) = 4%nat -> is_channel c -> channel d !! Z.to_nat c = Some (chan d c).
Proof.
  intros Hl Hc. unfold chan. destruct (channel d !! Z.to_nat c) as [q|] eqn:E.
  - f_equal. symmetry. by apply nth_lookup_Some.
  - apply lookup_ge_None in E. unfold is_channel, CHANNEL_COUNT in Hc. lia.
Qed.
Lemma chan_upd_eq c f d : length (channel d) = 4%nat -> is_channel c -> chan (upd_chan c f d) c = f (chan d c).
Proof.
  intros Hl Hc. pose proof (chan_lookup d c Hl Hc) as E. unfold chan at 1, upd_chan. cbn [channel set_channel].
  apply nth_lookup_Some. by rewrite list_lookup_alter_eq, E.
Qed.
Lemma chan_upd_ne c c' f d : 0 <= c -> 0 <= c' -> c <> c' -> chan (upd_chan c f d) c' = chan d c'.
Proof.
  intros. unfold chan, upd_chan. cbn [channel set_channel]. rewrite !nth_lookup.
  rewrite list_lookup_alter_ne; [done|lia].
Qed.
Lemma chan_ok d c : ikat_ok d -> is_channel c -> channel_ok (chan d c).
Proof.
  intros [_ [Hl Hf] _ _] Hc. pose proof (chan_lookup d c Hl Hc) as E.
  by apply (Forall_lookup_1 _ _ _ _ Hf E).
Qed.
Lemma channels_upd c f d :
  length (channel d) = 4%nat /\ Forall channel_ok (channel d) ->
  is_channel c -> (channel_ok (chan d c) -> channel_ok (f (chan d c))) ->
  length (channel (upd_chan c f d)) = 4%nat /\ Forall channel_ok (channel (upd_chan c f d)).
Proof.
  intros [Hl Hf] Hc Hq. unfold upd_chan. cbn [channel set_channel]. split; [by rewrite length_alter|].
  apply Forall_alter; [done|]. intros q Hlk _. rewrite (chan_lookup d c Hl Hc) in Hlk.
  injection Hlk as <-. apply Hq. by apply (Forall_lookup_1 _ _ (Z.to_nat c) _ Hf), chan_lookup.
Qed.

Lemma registers_set r v d :
  length (registers d) = 15%nat /\ Forall is_u8 (registers d) -> is_u8 v ->
  length (registers (set_reg r v d)) = 15%nat /\ Forall is_u8 (registers (set_reg r v d)).
Proof.
  intros [Hl Hf] Hv. unfold set_reg. cbn. split; [by rewrite length_lset|by apply Forall_lset].
Qed.

Lemma gate_reg_u8 d r : Forall is_u8 (registers d) -> is_u8 (reg d r).
Proof. intros. unfold reg. apply Forall_lget; [done|word]. Qed.

(** The interrupt bit of a channel. *)
Lemma interrupt_bit_pow c : is_channel c -> interrupt_bit c = 2 ^ (2 * c + 1).
Proof.
  unfold is_channel, CHANNEL_COUNT. intros Hc.
  assert (c = 0 \/ c = 1 \/ c = 2 \/ c = 3) as [-> | [-> | [-> | ->]]] by lia; reflexivity.
Qed.
Lemma interrupt_bit_u8 c : is_channel c -> is_u8 (interrupt_bit c).
Proof.
  unfold is_channel, CHANNEL_COUNT. intros Hc.
  assert (c = 0 \/ c = 1 \/ c = 2 \/ c = 3) as [-> | [-> | [-> | ->]]] by lia;
    (split; [discriminate|reflexivity]).
Qed.
Lemma interrupt_bit_test c c' :
  is_channel c -> is_channel c' -> Z.testbit (interrupt_bit c) (2 * c' + 1) = (c =? c').
Proof.
  intros Hc Hc'. rewrite interrupt_bit_pow, testbit_pow2 by (done || (unfold is_channel in *; lia)).
  destruct (Z.eqb_spec (2 * c' + 1) (2 * c + 1)), (Z.eqb_spec c c'); lia || done.
Qed.

(** ** Channel updates that do not touch the response queue *)
Definition same_response (q q' : IkatChannel) : Prop :=
  response_length q' = response_length q /\ response_position q' = response_position q.

Lemma mirrored_ext d d' c :
  reg d' (REG_STATUS_A + c) = reg d (REG_STATUS_A + c) ->
  reg d' REG_INTERRUPT_STATUS = reg d REG_INTERRUPT_STATUS ->
  same_response (chan d c) (chan d' c) -> mirrored d c -> mirrored d' c.
Proof.
  intros E1 E2 [E3 E4] [H1 H2]. unfold response_remaining in *.
  split; rewrite ?E1, ?E2; unfold response_remaining; rewrite E3, E4; done.
Qed.

Lemma ok_upd_chan c f d :
  is_channel c -> (channel_ok (chan d c) -> channel_ok (f (chan d c))) ->
  same_response (chan d c) (f (chan d c)) -> ikat_ok d -> ikat_ok (upd_chan c f d).
Proof.
  intros Hc Hq Hs [Hr Hch Hm Hp]. split; [done|by apply channels_upd| |done].
  intros c' Hc'. apply (mirrored_ext d); [done|done| |by apply Hm].
  destruct (Z.eq_dec c c') as [<-|Hne]; [rewrite chan_upd_eq; [exact Hs|apply Hch|exact Hc]|].
  rewrite chan_upd_ne; [by split|unfold is_channel in *; lia..].
Qed.

Lemma copy_front_ok bytes buffer :
  (length bytes <= 8)%nat -> length buffer = 8%nat -> Forall is_u8 bytes -> Forall is_u8 buffer ->
  length (copy_front bytes buffer) = 8%nat /\ Forall is_u8 (copy_front bytes buffer).
Proof.
  intros Hb Hl Hf Hf'. unfold copy_front. split; [rewrite length_app, length_drop; lia|].
  apply Forall_app. split; [done|by apply Forall_drop].
Qed.
Lemma clipped_length bytes : (length (clipped bytes) <= 8)%nat.
Proof. unfold clipped. rewrite length_take. change (Z.to_nat CHANNEL_BUFFER_BYTES) with 8%nat. lia. Qed.
Lemma clipped_u8 bytes : Forall is_u8 bytes -> Forall is_u8 (clipped bytes).
Proof. apply Forall_take. Qed.
Lemma clipped_id bytes : (length bytes <= 8)%nat -> clipped bytes = bytes.
Proof. intros. unfold clipped. apply take_ge. exact H. Qed.

Lemma clipped_pos bytes : bytes <> [] -> 0 < Z.of_nat (length (clipped bytes)).
Proof. destruct bytes as [|b bytes]; [done|]. reflexivity. Qed.

Lemma defer_reply_ok c bytes d :
  is_channel c -> Forall is_u8 bytes -> bytes <> [] -> ikat_ok d -> ikat_ok (defer_response c bytes d).
Proof.
  intros Hc Hb Hne Hd. unfold defer_response. cbv zeta. apply ok_upd_chan; [done| |done|done].
  intros [H1 H2 H3 H4 H5 H6 H7 H8]. pose proof (clipped_length bytes). pose proof (clipped_pos bytes Hne).
  destruct (copy_front_ok (clipped bytes) (deferred (chan d c))) as [Hl Hf];
    [done|apply H3|by apply clipped_u8|apply H3|].
  split; cbn -[clipped]; try done; lia.
Qed.

Lemma end_command_ok c d : is_channel c -> ikat_ok d -> ikat_ok (end_command c d).
Proof.
  intros Hc Hd. unfold end_command. apply ok_upd_chan; [done| |done|done].
  intros [H1 H2 H3 H4 H5 H6 H7 H8]. by split.
Qed.

Lemma push_command_ok c v d : is_channel c -> is_u8 v -> ikat_ok d -> ikat_ok (upd_chan c (push_command v) d).
Proof.
  intros Hc Hv Hd. apply ok_upd_chan; [done| | |done].
  - intros Hq. unfold push_command. destruct (Z.ltb_spec (command_length (chan d c)) CHANNEL_BUFFER_BYTES); [|done].
    destruct Hq as [[H1 H1'] H2 H3 H4 H5 H6 H7 H8]. unfold CHANNEL_BUFFER_BYTES in *.
    split; cbn; try done; [|lia]. split; [by rewrite length_lset|by apply Forall_lset].
  - unfold push_command. by destruct (_ <? _).
Qed.

(** Registers that no channel owns. *)
Lemma ok_set_reg r v d :
  0 <= r < 8 \/ r = REG_INTERRUPT_MASK \/ r = 14 -> is_u8 v -> ikat_ok d -> ikat_ok (set_reg r v d).
Proof.
  intros Hr Hv [Hrg Hch Hm Hp]. split; [by apply registers_set|done| |done].
  intros c Hc. apply (mirrored_ext d); [| |done|by apply Hm];
    apply reg_set_ne; unfold is_channel, CHANNEL_COUNT, REG_STATUS_A, REG_INTERRUPT_STATUS, REG_INTERRUPT_MASK in *; lia.
Qed.

(** * Publishing and reading *)

(** What [publish_response] leaves in the channel. *)
Lemma publish_chan c bytes d :
  length (channel d) = 4%nat -> is_channel c ->
  response_position (chan (publish_response c bytes d) c) = 0 /\
  response_length (chan (publish_response c bytes d) c) = Z.of_nat (length (clipped bytes)) /\
  response (chan (publish_response c bytes d) c) = copy_front (clipped bytes) (response (chan d c)).
Proof.
  intros Hl Hc. unfold publish_response, update_channel_status. cbv zeta.
  rewrite chan_set_reg, chan_upd_eq by done. done.
Qed.

Lemma publish_host c bytes (D : Type) `{IkatHost D} (w : IkatWorld D) :
  ikat (publish_and_interrupt c bytes w) =
  set_reg REG_INTERRUPT_STATUS
    (Z.lor (reg (publish_response c bytes (ikat w)) REG_INTERRUPT_STATUS) (interrupt_bit c))
    (publish_response c bytes (ikat w)).
Proof.
  unfold publish_and_interrupt, raise_channel_interrupt. cbv zeta.
  by destruct (z2b _).
Qed.

Lemma status_word d c :
  mirrored d c -> reg d (REG_STATUS_A + c) = 0x01 \/ reg d (REG_STATUS_A + c) = 0x11.
Proof. intros [-> _]. destruct (z2b _); auto. Qed.

(** A channel update whose two registers are refreshed is mirrored again. *)
Lemma ok_refresh d d' c q :
  ikat_ok d -> is_channel c -> channel_ok q ->
  length (registers d') = 15%nat /\ Forall is_u8 (registers d') ->
  channel d' = channel (upd_chan c (fun _ => q) d) ->
  pointer_elapsed_ns d' = pointer_elapsed_ns d ->
  (forall c', is_channel c' -> reg d' (REG_STATUS_A + c') =
     if c =? c' then (if z2b (response_length q - response_position q) then 0x01 else 0x11)
     else reg d (REG_STATUS_A + c')) ->
  (forall c', is_channel c' -> Z.testbit (reg d' REG_INTERRUPT_STATUS) (2 * c' + 1) =
     if c =? c' then z2b (response_length q - response_position q)
     else Z.testbit (reg d REG_INTERRUPT_STATUS) (2 * c' + 1)) ->
  ikat_ok d'.
Proof.
  intros Hd Hc Hq Hr Ech Ep Est Ebit. pose proof (ik_channels _ Hd) as Hch.
  split; [done|rewrite Ech; by apply channels_upd| |rewrite Ep; apply Hd].
  intros c' Hc'.
  assert (response_remaining d' c' =
    if c =? c' then response_length q - response_position q else response_remaining d c') as Er.
  { unfold response_remaining. assert (chan d' c' = chan (upd_chan c (fun _ => q) d) c') as ->
      by (unfold chan; by rewrite Ech).
    destruct (Z.eqb_spec c c') as [<-|Hne].
    - by rewrite chan_upd_eq by (apply Hch || done).
    - by rewrite chan_upd_ne by (unfold is_channel in *; lia). }
  destruct (ik_mirror _ Hd c' Hc') as [H1 H2].
  split; rewrite Er, ?Est, ?Ebit by done; by destruct (Z.eqb_spec c c').
Qed.

Lemma upd_chan_const c f d :
  length (channel d) = 4%nat -> is_channel c ->
  channel (upd_chan c f d) = channel (upd_chan c (fun _ => f (chan d c)) d).
Proof.
  intros Hl Hc. unfold upd_chan. cbn [channel set_channel]. pose proof (chan_lookup d c Hl Hc) as E.
  apply list_eq. intros i. destruct (decide (i = Z.to_nat c)) as [->|].
  - by rewrite !list_lookup_alter_eq, E.
  - by rewrite !list_lookup_alter_ne.
Qed.

Section Gate.
Context {D : Type} `{IkatHost D}.
Implicit Types w : IkatWorld D.

Definition gate_ok w : Prop := ikat_ok (ikat w).

Lemma publish_ok c bytes w :
  is_channel c -> Forall is_u8 bytes -> bytes <> [] -> gate_ok w -> gate_ok (publish_and_interrupt c bytes w).
Proof.
  intros Hc Hb Hne Hd. unfold gate_ok. rewrite publish_host. set (d := ikat w) in *.
  unfold publish_response, update_channel_status. cbv zeta.
  set (f := fun q => set_response_length _ _). set (d1 := upd_chan c f d).
  pose proof (ik_channels _ Hd) as Hch. pose proof (ik_registers _ Hd) as Hrg.
  pose proof (clipped_length bytes) as Hcl.
  assert (0 < length (clipped bytes))%nat as Hpos by (destruct bytes as [|b bytes]; [done|]; apply Nat.lt_0_succ).
  assert (z2b (Z.of_nat (length (clipped bytes)) - 0) = true) as Hz
    by (unfold z2b; destruct (Z.eqb_spec (Z.of_nat (length (clipped bytes)) - 0) 0); lia || done).
  assert (response_remaining d1 c = Z.of_nat (length (clipped bytes)) - 0) as Er
    by (unfold response_remaining; subst d1; by rewrite chan_upd_eq by (apply Hch || done)).
  rewrite Er, Hz. change (reg d1 (REG_STATUS_A + c)) with (reg d (REG_STATUS_A + c)).
  set (st := Z.land _ 0x01).
  assert (st = 0x01) as Est by (subst st; destruct (status_word d c (ik_mirror _ Hd c Hc)) as [-> | ->]; done).
  rewrite (reg_set_ne (REG_STATUS_A + c) REG_INTERRUPT_STATUS)
    by (unfold REG_INTERRUPT_STATUS, REG_STATUS_A, is_channel, CHANNEL_COUNT in *; lia).
  change (reg d1 REG_INTERRUPT_STATUS) with (reg d REG_INTERRUPT_STATUS).
  assert (is_u8 (reg d REG_INTERRUPT_STATUS)) as Hisr by (apply gate_reg_u8, Hrg).
  assert (length (registers (set_reg (REG_STATUS_A + c) st d1)) = 15%nat /\
    Forall is_u8 (registers (set_reg (REG_STATUS_A + c) st d1))) as Hr2
    by (apply registers_set; [done|rewrite Est; word]).
  apply (ok_refresh d _ c (f (chan d c))); [done|done| | | | | |].
  - destruct (chan_ok d c Hd Hc) as [H1 H2 H3 H4 H5 H6 H7 H8].
    destruct (copy_front_ok (clipped bytes) (response (chan d c))); [done|apply H2|by apply clipped_u8|apply H2|].
    split; cbn; try done. lia.
  - apply registers_set; [done|]. apply lor_word; [done|by apply interrupt_bit_u8|lia].
  - change (channel d1 = channel (upd_chan c (fun _ => f (chan d c)) d)). apply upd_chan_const; [apply Hch|done].
  - done.
  - intros c' Hc'.
    rewrite reg_set_ne by regs.
    change (response_length (f (chan d c)) - response_position (f (chan d c)))
      with (Z.of_nat (length (clipped bytes)) - 0). rewrite Hz.
    destruct (Z.eqb_spec c c') as [<-|Hne'].
    + rewrite reg_set_eq; [done|apply Hrg|regs].
    + rewrite reg_set_ne by regs. done.
  - intros c' Hc'. rewrite reg_set_eq; [|apply Hr2|unfold REG_INTERRUPT_STATUS; lia].
    rewrite Z.lor_spec, interrupt_bit_test by done.
    change (response_length (f (chan d c)) - response_position (f (chan d c)))
      with (Z.of_nat (length (clipped bytes)) - 0). rewrite Hz.
    destruct (c =? c'); [apply orb_true_r|apply orb_false_r].
Qed.

(** Reading a byte keeps the mirror. *)
Lemma read_output_ok c d : is_channel c -> ikat_ok d -> ikat_ok (read_output c d).
Proof.
  intros Hc Hd. unfold read_output. cbv zeta. set (q := chan d c).
  destruct (z2b (response_remaining d c)) eqn:Hz; [|done].
  pose proof (ik_channels _ Hd) as Hch. pose proof (ik_registers _ Hd) as Hrg.
  pose proof (chan_ok d c Hd Hc) as Hq. fold q in Hq.
  set (f := fun q => set_response_position _ q). set (d1 := upd_chan c f d).
  set (value := lget (response q) (response_position q)).
  assert (is_u8 value) as Hv by (subst value; destruct Hq as [_ [_ Hu] _ _ _ _ _ _]; word).
  set (rem := response_length q - (response_position q + 1)).
  assert (forall r v, response_remaining (set_reg r v d1) c = rem) as Er.
  { intros. unfold response_remaining. rewrite chan_set_reg. subst d1.
    rewrite chan_upd_eq by (apply Hch || done). done. }
  rewrite Er. set (d2 := set_reg (REG_OUTPUT_A + c) value d1).
  set (mask := u8 (Z.lnot (interrupt_bit c))).
  set (d3 := if z2b rem then d2 else set_reg REG_INTERRUPT_STATUS (Z.land (reg d2 REG_INTERRUPT_STATUS) mask) d2).
  assert (length (registers d2) = 15%nat /\ Forall is_u8 (registers d2)) as Hr2 by (by apply registers_set).
  assert (length (registers d3) = 15%nat /\ Forall is_u8 (registers d3)) as Hr3.
  { subst d3. destruct (z2b rem); [done|]. apply registers_set; [done|].
    apply land_word_r; [subst mask; word|lia]. }
  assert (channel d3 = channel d1) as Ech by (subst d3; by destruct (z2b rem)).
  assert (response_remaining d3 c = rem) as Er3
    by (rewrite <- (Er 0 0); unfold response_remaining, chan; by rewrite Ech).
  assert (forall c', is_channel c' -> reg d3 (REG_STATUS_A + c') = reg d (REG_STATUS_A + c')) as Es3.
  { intros c' Hc'. subst d3. destruct (z2b rem); [|rewrite reg_set_ne by regs];
      (subst d2; rewrite reg_set_ne by regs; done). }
  assert (reg d2 REG_INTERRUPT_STATUS = reg d REG_INTERRUPT_STATUS) as Ei2
    by (subst d2; rewrite reg_set_ne by regs; done).
  unfold update_channel_status. cbv zeta. rewrite Er3.
  destruct (ik_mirror _ Hd c Hc) as [Hms Hmi]. rewrite Hz in Hms, Hmi.
  apply (ok_refresh d _ c (f q)); [done|done| | | | | |];
    change (response_length (f q) - response_position (f q)) with rem.
  - destruct Hq as [H1 H2 H3 H4 H5 H6 H7 H8]. split; cbn; try done.
    revert Hz. unfold z2b, response_remaining. fold q.
    destruct (Z.eqb_spec (response_length q - response_position q) 0); [done|]. lia.
  - apply registers_set; [done|]. rewrite Es3, Hms by done.
    destruct (z2b rem); (split; [discriminate|reflexivity]).
  - change (channel d3 = channel (upd_chan c (fun _ => f q) d)). rewrite Ech.
    apply upd_chan_const; [apply Hch|done].
  - change (pointer_elapsed_ns d3 = pointer_elapsed_ns d). subst d3. by destruct (z2b rem).
  - intros c' Hc'. destruct (Z.eqb_spec c c') as [<-|Hne].
    + rewrite reg_set_eq, Es3, Hms by (apply Hr3 || done || regs). by destruct (z2b rem).
    + rewrite reg_set_ne by regs. by apply Es3.
  - intros c' Hc'. rewrite reg_set_ne by regs. subst d3. destruct (z2b rem) eqn:Hrem.
    + rewrite Ei2. destruct (Z.eqb_spec c c') as [<-|]; done.
    + rewrite reg_set_eq by (apply Hr2 || regs). rewrite Ei2, Z.land_spec. subst mask.
      rewrite u8_testbit, Z.lnot_spec, interrupt_bit_test by (done || regs).
      destruct (Z.ltb_spec (2 * c' + 1) 8); [|regs].
      destruct (c =? c'); cbn; [apply andb_false_r|apply andb_true_r].
Qed.

Lemma ok_ext d d' :
  registers d' = registers d -> channel d' = channel d ->
  pointer_elapsed_ns d' = pointer_elapsed_ns d -> ikat_ok d -> ikat_ok d'.
Proof.
  intros E1 E2 E3 [H1 H2 H3 H4]. split; rewrite ?E1, ?E2, ?E3; try done.
  intros c Hc. destruct (H3 c Hc) as [Ha Hb]. unfold reg, response_remaining, chan in *.
  split; unfold reg, response_remaining, chan; by rewrite E1, E2.
Qed.

Lemma on_host_ok f w : gate_ok w -> gate_ok (on_host f w).
Proof. done. Qed.

Ltac u8s := repeat (constructor; [split; [discriminate|reflexivity]|]); constructor.

Lemma disc_status_u8 (h : D) : Forall is_u8 (make_disc_status h) /\ make_disc_status h <> [].
Proof. unfold make_disc_status. destruct (host_media_present h); split; try done; u8s. Qed.

Lemma channel_c_ok w : gate_ok w -> gate_ok (handle_channel_c w).
Proof.
  intros Hw. assert (gate_ok (on_ikat (end_command CHANNEL_C) w)) as He
    by (apply end_command_ok; [regs|done]).
  unfold handle_channel_c. cbv zeta. destruct (_ =? _); [done|].
  destruct (_ =? _); [apply publish_ok; [regs|u8s|done|done]|].
  set (first := lget _ 0). unfold immediate_commands. cbn [find_command].
  repeat (destruct (_ =? first); [apply publish_ok; [regs|u8s|done|done]|]). done.
Qed.

Lemma channel_d_ok w : gate_ok w -> gate_ok (handle_channel_d w).
Proof.
  intros Hw. unfold handle_channel_d. cbv zeta. destruct (_ && _); [done|].
  apply end_command_ok; [regs|].
  assert (forall w bytes, Forall is_u8 bytes -> bytes <> [] -> gate_ok w ->
    gate_ok (on_ikat (defer_response CHANNEL_D bytes) w))
    as Hdef by (intros; apply defer_reply_ok; [regs|done|done|done]).
  assert (forall w, gate_ok w -> gate_ok (report_status w)) as Hrep.
  { intros w' Hw'. unfold report_status. destruct (seek_report_pending _).
    - apply defer_reply_ok; [regs|u8s|done|by apply (ok_ext (ikat w'))].
    - apply Hdef; [apply disc_status_u8|apply disc_status_u8|done]. }
  assert (forall a w, gate_ok w -> gate_ok (seek a w)) as Hseek
    by (intros a w' Hw'; by apply (ok_ext (ikat w'))).
  unfold run_channel_d.
  repeat (destruct (_ =? _);
    [first [by apply Hrep | by apply Hseek | apply publish_ok; [regs|u8s|done|done]
           | apply Hdef; [u8s|done|done] | apply defer_reply_ok; [regs|u8s|done|by apply (ok_ext (ikat w))]]|]).
  done.
Qed.

Lemma initialize_ok (h : D) : ikat_ok (initialize_ikat h).
Proof.
  split.
  - split; [reflexivity|]. u8s.
  - split; [reflexivity|]. apply Forall_replicate. split; cbn; try (split; [reflexivity|u8s]); unfold REPLY_DELAY_NS; lia.
  - intros c Hc. assert (c = 0 \/ c = 1 \/ c = 2 \/ c = 3) as [-> | [-> | [-> | ->]]] by regs; by split.
  - cbn. unfold POINTER_PERIOD_NS. lia.
Qed.

(** * The pointer *)
Lemma publish_pointer c bytes w p :
  ikat (publish_and_interrupt c bytes (on_ikat (set_pointer_elapsed_ns p) w)) =
  set_pointer_elapsed_ns p (ikat (publish_and_interrupt c bytes w)).
Proof. by rewrite !publish_host. Qed.

Lemma emit_pointer p w :
  ikat (emit_pointer_packet (on_ikat (set_pointer_elapsed_ns p) w)) =
  set_pointer_elapsed_ns p (ikat (emit_pointer_packet w)).
Proof.
  destruct w as [d s0 h]. unfold emit_pointer_packet. cbv zeta. cbn [ikat iw_input iw_host on_ikat].
  change (pointer_repeat_count (set_pointer_elapsed_ns p d)) with (pointer_repeat_count d).
  change (previous_input (set_pointer_elapsed_ns p d)) with (previous_input d).
  set (count := repeat_count _ _).
  destruct (cdi_input_take_relative _ _ _ _ _) as [[mx my] s].
  destruct (_ || _); [|done]. cbn [ikat].
  change (mkIW (set_pointer_repeat_count count (set_pointer_elapsed_ns p d)) s h)
    with (on_ikat (set_pointer_elapsed_ns p) (mkIW (set_pointer_repeat_count count d) s h)).
  by rewrite publish_pointer.
Qed.

Lemma packet_u8 input x y : Forall is_u8 (pointer_packet input x y).
Proof. unfold pointer_packet. repeat (constructor; [word|]). constructor. Qed.

Lemma emit_ok w : gate_ok w -> gate_ok (emit_pointer_packet w).
Proof.
  intros Hw. unfold emit_pointer_packet. cbv zeta.
  destruct (cdi_input_take_relative _ _ _ _ _) as [[mx my] s]. set (count := repeat_count _ _).
  assert (gate_ok (mkIW (set_pointer_repeat_count count (ikat w)) s (iw_host w))) as H1
    by (by apply (ok_ext (ikat w))).
  match goal with |- context [if ?b then publish_and_interrupt ?c ?bs ?x else ?y] =>
    set (w2 := if b then publish_and_interrupt c bs x else y) end.
  assert (gate_ok w2) as H2
    by (subst w2; destruct (_ || _); [apply publish_ok; [regs|apply packet_u8|done|exact H1]|exact H1]).
  clearbody w2. by apply (ok_ext (ikat w2)).
Qed.

(** Everything but the bound of the pointer's clock. *)
Definition rest_ok w : Prop := gate_ok (on_ikat (set_pointer_elapsed_ns 0) w).

Lemma rest_gate w : gate_ok w -> rest_ok w.
Proof.
  intros [H1 H2 H3 H4]. split; [done|done| |].
  - intros c Hc. by apply (mirrored_ext (ikat w)); [..|apply H3].
  - cbn. unfold POINTER_PERIOD_NS. lia.
Qed.
Lemma gate_rest w : rest_ok w -> 0 <= pointer_elapsed_ns (ikat w) < POINTER_PERIOD_NS -> gate_ok w.
Proof.
  intros [H1 H2 H3 _] Hp. split; [done|done| |done].
  intros c Hc. by apply (mirrored_ext (set_pointer_elapsed_ns 0 (ikat w))); [..|apply H3].
Qed.
Lemma emit_rest w :
  rest_ok w -> rest_ok (emit_pointer_packet w) /\
  pointer_elapsed_ns (ikat (emit_pointer_packet w)) = pointer_elapsed_ns (ikat w).
Proof.
  intros Hw. split.
  - unfold rest_ok, gate_ok. change (ikat (on_ikat ?f ?w)) with (f (ikat w)).
    rewrite <- emit_pointer. by apply emit_ok.
  - pose proof (emit_pointer (pointer_elapsed_ns (ikat w)) w) as E.
    assert (on_ikat (set_pointer_elapsed_ns (pointer_elapsed_ns (ikat w))) w = w) as Ew
      by (destruct w as [d s h]; unfold on_ikat; cbn; f_equal; by destruct d).
    rewrite Ew in E. rewrite E. done.
Qed.

Lemma pointer_loop_ok n w :
  rest_ok w -> 0 <= pointer_elapsed_ns (ikat w) < (Z.of_nat n + 1) * POINTER_PERIOD_NS ->
  gate_ok (pointer_loop n w).
Proof.
  revert w. induction n as [|n IH]; intros w Hw Hp.
  { change (Z.of_nat 0 + 1) with 1 in Hp. cbn [pointer_loop]. apply gate_rest; [done|lia]. }
  cbn [pointer_loop].
  destruct (Z.leb_spec POINTER_PERIOD_NS (pointer_elapsed_ns (ikat w))); [|apply gate_rest; [done|lia]].
  set (w1 := on_ikat _ w). assert (rest_ok w1) as Hw1 by exact Hw.
  assert (pointer_elapsed_ns (ikat w1) = pointer_elapsed_ns (ikat w) - POINTER_PERIOD_NS) as E by done.
  clearbody w1. destruct (emit_rest w1 Hw1) as [H1 H2]. apply IH; [done|]. rewrite H2, E. lia.
Qed.

Lemma pointer_rounds_ok w : rest_ok w -> 0 <= pointer_elapsed_ns (ikat w) -> gate_ok (pointer_loop (pointer_rounds w) w).
Proof.
  intros Hw Hp. apply pointer_loop_ok; [done|]. unfold pointer_rounds.
  assert (0 < POINTER_PERIOD_NS) by (unfold POINTER_PERIOD_NS; lia).
  rewrite Z2Nat.id by (apply Z.div_pos; lia). split; [done|].
  pose proof (Z.mul_succ_div_gt (pointer_elapsed_ns (ikat w)) POINTER_PERIOD_NS). lia.
Qed.

(** * Deferred replies *)
Lemma set_deferred_ns_ok c v w :
  is_channel c -> 0 <= v <= REPLY_DELAY_NS -> gate_ok w -> gate_ok (on_ikat (upd_chan c (set_deferred_ns v)) w).
Proof.
  intros Hc Hv Hw. apply ok_upd_chan; [done| |done|done]. intros [H1 H2 H3 H4 H5 H6 H7 H8]. by split.
Qed.

Lemma deliver_ok c w :
  is_channel c -> 0 < deferred_length (chan (ikat w) c) -> gate_ok w -> gate_ok (deliver_deferred c w).
Proof.
  intros Hc Hlen Hw. unfold deliver_deferred. cbv zeta.
  set (w1 := on_ikat _ w).
  assert (gate_ok w1) as H1 by (apply set_deferred_ns_ok; [done|unfold REPLY_DELAY_NS; lia|done]).
  assert (chan (ikat w1) c = set_deferred_ns 0 (chan (ikat w) c)) as E1
    by (apply chan_upd_eq; [apply (ik_channels _ Hw)|done]).
  clearbody w1. destruct (z2b _); [done|].
  match goal with |- context [if ?b then on_host ?f w1 else w1] => set (w2 := if b then on_host f w1 else w1) end.
  assert (gate_ok w2) as H2 by (subst w2; by destruct (_ && _)). clearbody w2.
  set (bytes := take _ _). set (w3 := publish_and_interrupt c bytes w2).
  assert (gate_ok w3) as H3.
  { apply publish_ok; [done| | |done].
    - subst bytes. apply Forall_take, (chan_ok _ _ H1 Hc).
    - subst bytes. rewrite E1. cbn. destruct (ch_deferred _ (chan_ok _ _ Hw Hc)) as [Hl _].
      destruct (deferred (chan (ikat w) c)) as [|b bs]; [done|].
      destruct (Z.to_nat (deferred_length (chan (ikat w) c))) eqn:E; [lia|done]. }
  clearbody w3. set (w4 := on_ikat (upd_chan c (set_deferred_pending false)) w3).
  assert (gate_ok w4) as H4.
  { apply ok_upd_chan; [done| |done|done]. intros [I1 I2 I3 I4 I5 I6 I7 I8]. by split. }
  clearbody w4. destruct (_ && _); [|done].
  apply defer_reply_ok; [regs|u8s|done|by apply (ok_ext (ikat w4))].
Qed.

Lemma publish_deferred c c' bytes w :
  length (channel (ikat w)) = 4%nat -> is_channel c -> is_channel c' ->
  deferred_length (chan (ikat (publish_and_interrupt c bytes w)) c') = deferred_length (chan (ikat w) c') /\
  deferred_pending (chan (ikat (publish_and_interrupt c bytes w)) c') = deferred_pending (chan (ikat w) c') /\
  deferred (chan (ikat (publish_and_interrupt c bytes w)) c') = deferred (chan (ikat w) c') /\
  deferred_ns (chan (ikat (publish_and_interrupt c bytes w)) c') = deferred_ns (chan (ikat w) c').
Proof.
  intros Hl Hc Hc'. rewrite publish_host, chan_set_reg. unfold publish_response, update_channel_status. cbv zeta.
  rewrite chan_set_reg. destruct (Z.eq_dec c c') as [<-|Hne].
  - by rewrite chan_upd_eq.
  - by rewrite chan_upd_ne by regs.
Qed.


Lemma advance_deferred_ok x c w :
  is_channel c -> 0 <= x -> gate_ok w -> gate_ok (advance_deferred x c w).
Proof.
  intros Hc Hx Hw. pose proof (chan_ok _ _ Hw Hc) as Hq. unfold advance_deferred. cbv zeta.
  destruct (deferred_pending (chan (ikat w) c)) eqn:E; cbn [negb]; [|done].
  destruct (Z.ltb_spec x (deferred_ns (chan (ikat w) c))).
  - apply ok_upd_chan; [done| |done|done]. intros [H1 H2 H3 H4 H5 H6 H7 H8]. split; cbn; try done. lia.
  - apply deliver_ok; [done|by apply Hq|done].
Qed.

Lemma all_channels_ok c : In c all_channels -> is_channel c.
Proof. cbn. intros [<-|[<-|[<-|[<-|[]]]]]; regs. Qed.

Lemma dtrunc_range x : is_u64 (dtrunc x).
Proof. unfold dtrunc. destruct x; word. Qed.

Lemma check_media_ok w : gate_ok w -> gate_ok (check_media w).
Proof.
  intros Hw. unfold check_media. cbv zeta. destruct (negb _); [|done].
  apply publish_ok; [regs|apply disc_status_u8|apply disc_status_u8|by apply (ok_ext (ikat w))].
Qed.

Lemma increment_ok ns w : (ikat_initialized (ikat w) = true -> gate_ok w) -> gate_ok (slave_increment_time ns w).
Proof.
  intros Hw. unfold slave_increment_time. cbv zeta. set (x := dtrunc ns).
  assert (is_u64 x) as Hx by apply dtrunc_range.
  assert (gate_ok (check_media (ensure_ikat w))) as H1.
  { apply check_media_ok. unfold ensure_ikat. destruct (ikat_initialized (ikat w)) eqn:E; [auto|].
    apply initialize_ok. }
  set (w1 := check_media _) in *. clearbody w1. set (w2 := on_ikat (add_pointer_time x) w1).
  assert (gate_ok (pointer_loop (pointer_rounds w2) w2)) as H3.
  { apply pointer_rounds_ok; [by apply rest_gate in H1|]. subst w2. cbn. apply u64_range. }
  set (w3 := pointer_loop _ _) in *. clearbody w3.
  unfold is_word in Hx. unfold all_channels. cbn [fold_left].
  repeat (apply advance_deferred_ok; [regs|lia|]). done.
Qed.

Lemma ensure_gate_ok w : (ikat_initialized (ikat w) = true -> gate_ok w) -> gate_ok (ensure_ikat w).
Proof.
  intros Hw. unfold ensure_ikat. destruct (ikat_initialized (ikat w)) eqn:E; [auto|apply initialize_ok].
Qed.

Lemma slave_read_ok a w : (ikat_initialized (ikat w) = true -> gate_ok w) -> gate_ok (snd (slave_read a w)).
Proof.
  intros Hw%ensure_gate_ok. unfold slave_read. cbv zeta. set (w1 := ensure_ikat w) in *. clearbody w1.
  set (r := register_from_address a). destruct (_ || _); [done|]. unfold read_register. cbn [snd].
  destruct (Z.leb_spec REG_OUTPUT_A r), (Z.leb_spec r REG_OUTPUT_D); cbn [andb]; try done.
  apply read_output_ok; [regs|done].
Qed.

Lemma slave_write_ok a v w : (ikat_initialized (ikat w) = true -> gate_ok w) -> gate_ok (slave_write a v w).
Proof.
  intros Hw%ensure_gate_ok. unfold slave_write. cbv zeta. set (w1 := ensure_ikat w) in *. clearbody w1.
  set (r := register_from_address a). destruct (Z.ltb_spec r 0); [done|]. cbn [orb].
  destruct (Z.leb_spec IKAT_REGISTER_COUNT r); [done|]. unfold write_register.
  destruct (Z.eqb_spec r REG_INTERRUPT_MASK) as [->|].
  - assert (gate_ok (on_ikat (set_reg REG_INTERRUPT_MASK (u8 v)) w1)) as Hw2
      by (apply ok_set_reg; [by right; left|word|done]).
    cbv zeta. by destruct (z2b _).
  - destruct (Z.leb_spec r REG_INPUT_D); [|done]. cbv zeta.
    set (w2 := on_ikat _ w1).
    assert (gate_ok w2) as Hw2.
    { apply push_command_ok; [regs|word|]. apply ok_set_reg; [left; regs|word|done]. }
    clearbody w2. destruct (_ =? _); [by apply channel_c_ok|].
    destruct (_ =? _); [by apply channel_d_ok|done].
Qed.

(** ** Quiet batches *)
Lemma limit_fold d cs limit :
  fold_left (fun limit c => let q := chan d c in
    if deferred_pending q && (deferred_ns q <? limit) then deferred_ns q else limit) cs limit <= limit.
Proof.
  revert limit. induction cs as [|c cs IH]; intros limit; cbn [fold_left]; [lia|].
  etransitivity; [apply IH|]. cbv zeta. destruct (_ && _) eqn:E; [|lia].
  apply andb_true_iff in E as [_ E%Z.ltb_lt]. lia.
Qed.
Lemma limit_bound d c cs limit :
  In c cs -> deferred_pending (chan d c) = true ->
  fold_left (fun limit c => let q := chan d c in
    if deferred_pending q && (deferred_ns q <? limit) then deferred_ns q else limit) cs limit
  <= deferred_ns (chan d c).
Proof.
  revert limit. induction cs as [|c' cs IH]; intros limit; [done|]. cbn [fold_left In].
  intros [-> | Hin] Hp; [|by apply IH]. cbv zeta. rewrite Hp. cbn [andb].
  etransitivity; [apply limit_fold|]. destruct (Z.ltb_spec (deferred_ns (chan d c)) limit); lia.
Qed.

(** No event of the gate within [x] nanoseconds. *)
Definition quiet_until (x : Z) (d : IkatDevice) : Prop :=
  x < POINTER_PERIOD_NS - pointer_elapsed_ns d /\
  forall c, is_channel c -> deferred_pending (chan d c) = true -> x < deferred_ns (chan d c).

Lemma ikat_limit_spec d x : ikat_ok d -> x < ikat_limit d -> quiet_until x d.
Proof.
  intros [_ _ _ Hp] Hx. unfold ikat_limit in Hx.
  assert (u64 (POINTER_PERIOD_NS - pointer_elapsed_ns d) = POINTER_PERIOD_NS - pointer_elapsed_ns d) as EL
    by (apply u64_id; unfold is_word, POINTER_PERIOD_NS in *; lia).
  rewrite EL in Hx. split.
  - eapply Z.lt_le_trans; [exact Hx|]. apply limit_fold.
  - intros c Hc Hpend. eapply Z.lt_le_trans; [exact Hx|]. apply limit_bound; [|done].
    assert (c = 0 \/ c = 1 \/ c = 2 \/ c = 3) as [-> | [-> | [-> | ->]]] by regs; cbn; auto.
Qed.

(** A quiet span of [x] nanoseconds on one channel. *)
Definition quiet_chan (x : Z) (q : IkatChannel) : IkatChannel :=
  if deferred_pending q then set_deferred_ns (u64 (deferred_ns q - x)) q else q.

Lemma upd_chan_at c f g d :
  length (channel d) = 4%nat -> is_channel c -> f (chan d c) = g (chan d c) ->
  upd_chan c f d = upd_chan c g d.
Proof.
  intros Hl Hc E. unfold upd_chan. f_equal. pose proof (chan_lookup d c Hl Hc) as El.
  apply list_eq. intros i. destruct (decide (i = Z.to_nat c)) as [->|].
  - by rewrite !list_lookup_alter_eq, El; cbn; rewrite E.
  - by rewrite !list_lookup_alter_ne.
Qed.
Lemma upd_chan_id c d : upd_chan c (fun q => q) d = d.
Proof.
  unfold upd_chan. assert (alter (fun q => q) (Z.to_nat c) (channel d) = channel d) as ->; [|by destruct d].
  apply list_eq. intros i. destruct (decide (i = Z.to_nat c)) as [->|].
  - rewrite list_lookup_alter_eq. by destruct (_ !! _).
  - by rewrite !list_lookup_alter_ne.
Qed.

(** A quiet span on all channels, one after the other. *)
Definition quiet_all (x : Z) (d : IkatDevice) : IkatDevice :=
  fold_left (fun d c => upd_chan c (quiet_chan x) d) all_channels d.

Lemma fold_channels_ext (P : IkatDevice -> Prop) (f g : IkatDevice -> Z -> IkatDevice) cs d :
  P d -> (forall d c, In c cs -> P d -> f d c = g d c /\ P (g d c)) ->
  fold_left f cs d = fold_left g cs d /\ P (fold_left g cs d).
Proof.
  revert d. induction cs as [|c cs IH]; intros d Hd Hfg; [done|]. cbn [fold_left].
  destruct (Hfg d c (or_introl eq_refl) Hd) as [-> HP]. apply IH; [done|].
  intros d' c' Hin. apply Hfg. by right.
Qed.

Lemma advance_quiet_eq x d :
  length (channel d) = 4%nat -> slave_advance_quiet x d = quiet_all x (add_pointer_time x d).
Proof.
  intros Hl. apply (fold_channels_ext (fun d => length (channel d) = 4%nat)); [done|].
  intros d' c Hin%all_channels_ok Hd'. split; [|unfold upd_chan; cbn; by rewrite length_alter].
  unfold quiet_chan. destruct (deferred_pending (chan d' c)) eqn:E.
  - apply upd_chan_at; [done|done|]. by rewrite E.
  - rewrite <- (upd_chan_id c d') at 1. apply upd_chan_at; [done|done|]. by rewrite E.
Qed.

Lemma quiet_chan_pending x q : deferred_pending (quiet_chan x q) = deferred_pending q.
Proof. unfold quiet_chan. by destruct (deferred_pending q) eqn:E; [exact E|]. Qed.

(** What the quiet span has left to do: the channels it has not reached wait. *)
Definition awaiting (x : Z) (cs : list Z) (d : IkatDevice) : Prop :=
  length (channel d) = 4%nat /\
  forall c, In c cs -> is_channel c /\
    (deferred_pending (chan d c) = true -> x < deferred_ns (chan d c) <= REPLY_DELAY_NS).

Lemma advance_deferred_quiet x cs w :
  0 <= x -> NoDup cs -> awaiting x cs (ikat w) ->
  fold_left (fun w c => advance_deferred x c w) cs w =
  on_ikat (fun d => fold_left (fun d c => upd_chan c (quiet_chan x) d) cs d) w.
Proof.
  intros Hx. revert w. induction cs as [|c cs IH]; intros w Hnd [Hl Hq]; [by destruct w|].
  apply NoDup_cons in Hnd as [Hni Hnd]. cbn [fold_left].
  destruct (Hq c (or_introl eq_refl)) as [Hc Hcq].
  assert (advance_deferred x c w = on_ikat (upd_chan c (quiet_chan x)) w) as ->.
  { unfold advance_deferred. cbv zeta. destruct (deferred_pending (chan (ikat w) c)) eqn:E; cbn [negb].
    - specialize (Hcq eq_refl). destruct (Z.ltb_spec x (deferred_ns (chan (ikat w) c))); [|lia].
      unfold on_ikat. f_equal. apply upd_chan_at; [done|done|]. unfold quiet_chan. rewrite E.
      rewrite u64_id; [done|]. unfold is_word, REPLY_DELAY_NS in *. lia.
    - destruct w as [d s h]. unfold on_ikat. cbn [ikat iw_input iw_host]. cbn [ikat] in *. f_equal.
      rewrite (upd_chan_at c (quiet_chan x) (fun q => q)); [by rewrite upd_chan_id|done|done|].
      unfold quiet_chan. by rewrite E. }
  rewrite IH; [done|done|]. split; [unfold upd_chan; cbn; by rewrite length_alter|].
  intros c' Hin. destruct (Hq c' (or_intror Hin)) as [Hc' Hcq']. split; [done|].
  cbn [ikat on_ikat]. rewrite chan_upd_ne; [done|regs|regs|]. intros ->. apply Hni.
  by apply list_elem_of_In.
Qed.

(** One quantum that reaches neither the pointer's period nor a deferred reply. *)
Lemma quiet_increment ns w :
  gate_ok w -> ikat_initialized (ikat w) = true ->
  host_media_generation (iw_host w) = media_generation_seen (ikat w) ->
  quiet_until (dtrunc ns) (ikat w) ->
  slave_increment_time ns w = on_ikat (slave_advance_quiet (dtrunc ns)) w.
Proof.
  intros Hw Hi Hm [Hp Hc].
  pose proof (dtrunc_range ns) as Hr. set (x := dtrunc ns) in *. unfold is_word in Hr.
  unfold slave_increment_time. cbv zeta. fold x. unfold ensure_ikat. rewrite Hi.
  unfold check_media. cbv zeta. rewrite Hm, Z.eqb_refl. cbn [negb].
  set (w1 := on_ikat (add_pointer_time x) w).
  pose proof (ik_pointer _ Hw) as Hpe.
  assert (pointer_elapsed_ns (ikat w1) = pointer_elapsed_ns (ikat w) + x) as E1
    by (apply u64_id; unfold is_word, POINTER_PERIOD_NS in *; lia).
  unfold pointer_rounds. rewrite E1, Z.div_small by lia. cbn [pointer_loop Z.to_nat].
  rewrite advance_deferred_quiet; [|lia| |].
  - destruct w as [d s h]. subst w1. unfold on_ikat. cbn [ikat iw_input iw_host]. f_equal.
    symmetry. apply advance_quiet_eq, Hw.
  - unfold all_channels. apply (bool_decide_unpack _). vm_compute. exact I.
  - split; [apply Hw|]. intros c Hin%all_channels_ok. split; [done|]. intros E.
    change (chan (ikat w1) c) with (chan (ikat w) c) in *. split; [by apply Hc|].
    apply (chan_ok _ _ Hw Hin).
Qed.

(** Two quiet spans are one. *)
Lemma quiet_chan_add a b q :
  quiet_chan b (quiet_chan a q) = quiet_chan (a + b) q.
Proof.
  unfold quiet_chan. destruct (deferred_pending q) eqn:E; [|by rewrite E]. cbn. rewrite E.
  unfold set_deferred_ns. cbn. f_equal. unfold u64. rewrite Zminus_mod_idemp_l. f_equal. lia.
Qed.

Lemma quiet_all_channel x d : length (channel d) = 4%nat -> channel (quiet_all x d) = quiet_chan x <$> channel d.
Proof.
  intros Hl. unfold quiet_all, all_channels. cbn [fold_left]. unfold upd_chan.
  cbn [channel set_channel]. change (Z.to_nat CHANNEL_A) with 0%nat. change (Z.to_nat CHANNEL_B) with 1%nat.
  change (Z.to_nat CHANNEL_C) with 2%nat. change (Z.to_nat CHANNEL_D) with 3%nat.
  destruct (channel d) as [|q0 [|q1 [|q2 [|q3 [|]]]]]; done.
Qed.
Lemma quiet_all_eq x d : length (channel d) = 4%nat -> quiet_all x d = set_channel (quiet_chan x <$> channel d) d.
Proof.
  intros Hl. rewrite <- (quiet_all_channel x d) by done. unfold quiet_all, all_channels. cbn [fold_left].
  by destruct d.
Qed.

Lemma advance_quiet_add a b d :
  length (channel d) = 4%nat ->
  slave_advance_quiet b (slave_advance_quiet a d) = slave_advance_quiet (a + b) d.
Proof.
  intros Hl. rewrite (advance_quiet_eq a) by done. rewrite quiet_all_eq by done.
  rewrite advance_quiet_eq by (cbn; by rewrite length_fmap). rewrite advance_quiet_eq by done.
  rewrite !quiet_all_eq by (cbn; rewrite ?length_fmap; done). cbn [channel set_channel add_pointer_time set_pointer_elapsed_ns].
  rewrite <- list_fmap_compose. unfold add_pointer_time, set_pointer_elapsed_ns, set_channel. cbn. f_equal.
  - apply list_fmap_ext. intros i q _. cbn. apply quiet_chan_add.
  - unfold u64. rewrite Zplus_mod_idemp_l. f_equal. lia.
Qed.

Lemma quiet_until_advance a b d :
  ikat_ok d -> 0 <= a -> 0 <= b -> quiet_until (a + b) d -> quiet_until b (slave_advance_quiet a d).
Proof.
  intros Hd Ha Hb [Hp Hc]. pose proof (ik_channels _ Hd) as [Hl Hf]. pose proof (ik_pointer _ Hd) as Hpe.
  rewrite advance_quiet_eq, quiet_all_eq by done. split.
  - cbn. rewrite u64_id; [lia|]. unfold is_word, POINTER_PERIOD_NS in *. lia.
  - intros c Hch. unfold chan. cbn [channel set_channel add_pointer_time set_pointer_elapsed_ns].
    rewrite nth_lookup, list_lookup_fmap, (chan_lookup d c Hl Hch). cbn.
    rewrite quiet_chan_pending. intros E. specialize (Hc c Hch E).
    pose proof (ch_deferred_ns _ (chan_ok d c Hd Hch)) as Hn. unfold quiet_chan. rewrite E. cbn.
    rewrite u64_id; [lia|]. unfold is_word, REPLY_DELAY_NS in *. lia.
Qed.

Lemma quiet_initialized x d :
  length (channel d) = 4%nat ->
  ikat_initialized (slave_advance_quiet x d) = ikat_initialized d /\
  media_generation_seen (slave_advance_quiet x d) = media_generation_seen d.
Proof. intros Hl. by rewrite advance_quiet_eq, quiet_all_eq. Qed.

Lemma advance_quiet_zero d : ikat_ok d -> slave_advance_quiet 0 d = d.
Proof.
  intros Hd. pose proof (ik_channels _ Hd) as [Hl Hf]. rewrite advance_quiet_eq, quiet_all_eq by done.
  assert (quiet_chan 0 <$> channel d = channel d) as E.
  { rewrite <- (list_fmap_id (channel d)) at 2. apply list_fmap_ext. intros i q Hlk.
    pose proof (ch_deferred_ns _ (Forall_lookup_1 _ _ _ _ Hf Hlk)) as Hn.
    unfold quiet_chan. destruct (deferred_pending q); [|done].
    rewrite u64_id by (unfold is_word, REPLY_DELAY_NS in *; lia). rewrite Z.sub_0_r. by destruct q. }
  change (channel (add_pointer_time 0 d)) with (channel d). rewrite E.
  unfold add_pointer_time, set_channel, set_pointer_elapsed_ns. cbn.
  pose proof (ik_pointer _ Hd) as Hpe.
  rewrite Z.add_0_r, u64_id by (unfold is_word, POINTER_PERIOD_NS in *; lia). by destruct d.
Qed.

Lemma quiet_increments ns n w :
  gate_ok w -> ikat_initialized (ikat w) = true ->
  host_media_generation (iw_host w) = media_generation_seen (ikat w) ->
  quiet_until (Z.of_nat n * dtrunc ns) (ikat w) ->
  Nat.iter n (slave_increment_time ns) w = on_ikat (slave_advance_quiet (Z.of_nat n * dtrunc ns)) w.
Proof.
  pose proof (dtrunc_range ns) as Hr. set (x := dtrunc ns) in *. unfold is_word in Hr.
  revert w. induction n as [|n IH]; intros w Hw Hi Hm Hq.
  - cbn [Nat.iter nat_rect]. change (Z.of_nat 0 * x) with 0. destruct w as [d s h].
    unfold on_ikat. cbn [ikat iw_input iw_host] in *. f_equal.
    symmetry. by apply advance_quiet_zero.
  - rewrite Nat.iter_succ_r. replace (Z.of_nat (S n) * x) with (x + Z.of_nat n * x) in * by lia.
    assert (quiet_until x (ikat w)) as Hqx.
    { destruct Hq as [Hp Hc]. split; [lia|]. intros c Hch E. specialize (Hc c Hch E). lia. }
    pose proof (increment_ok ns w (fun _ => Hw)) as Hw1.
    rewrite quiet_increment in * by done. fold x in Hw1. fold x.
    destruct (quiet_initialized x (ikat w)) as [E1 E2]; [apply Hw|].
    rewrite IH; [|done|exact (eq_trans E1 Hi)|exact (eq_trans Hm (eq_sym E2))|].
    + destruct w as [d s h]. unfold on_ikat. cbn [ikat iw_input iw_host]. f_equal.
      apply advance_quiet_add, (ik_channels _ Hw).
    + apply (quiet_until_advance x); [done|lia..|done].
Qed.

Lemma quiet_quanta_until n max x w :
  gate_ok w -> 0 < x -> Z.of_nat n <= slave_quiet_quanta max x w -> (0 < n)%nat ->
  quiet_until (Z.of_nat n * x) (ikat w) /\ ikat_initialized (ikat w) = true /\
  host_media_generation (iw_host w) = media_generation_seen (ikat w).
Proof.
  intros Hw Hx Hn Hpos. unfold slave_quiet_quanta in Hn. cbv zeta in Hn.
  destruct (ikat_initialized (ikat w)); cbn [negb orb] in Hn; [|lia].
  destruct (Z.eqb_spec (host_media_generation (iw_host w)) (media_generation_seen (ikat w))); cbn [negb] in Hn; [|lia].
  split; [|done]. apply ikat_limit_spec; [done|].
  destruct (ikat_limit (ikat w) =? 0); [lia|].
  assert (Z.of_nat n <= (ikat_limit (ikat w) - 1) / x) as Hq
    by (destruct (Z.ltb_spec ((ikat_limit (ikat w) - 1) / x) max); lia).
  assert (Z.of_nat n * x <= (ikat_limit (ikat w) - 1) / x * x) by nia.
  pose proof (Z.mul_div_le (ikat_limit (ikat w) - 1) x Hx). lia.
Qed.


(** * Reachable states *)
Inductive gate_step : IkatWorld D -> IkatWorld D -> Prop :=
  | gate_reads a w : gate_step w (snd (slave_read a w))
  | gate_writes a v w : gate_step w (slave_write a v w)
  | gate_time ns w : gate_step w (slave_increment_time ns w)
  | gate_quiet n max ns w :
    0 < dtrunc ns -> (0 < n)%nat -> Z.of_nat n <= slave_quiet_quanta max (dtrunc ns) w ->
    gate_step w (on_ikat (slave_advance_quiet (Z.of_nat n * dtrunc ns)) w)
  | gate_input s w : gate_step w (mkIW (ikat w) s (iw_host w))
  | gate_board h w : gate_step w (mkIW (ikat w) (iw_input w) h).

Definition started w : Prop := ikat_initialized (ikat w) = true -> gate_ok w.

Lemma iter_ok n ns w : gate_ok w -> gate_ok (Nat.iter n (slave_increment_time ns) w).
Proof. intros Hw. induction n as [|n IH]; [done|]. cbn. apply increment_ok. by intros _. Qed.

Lemma gate_step_started w w' : gate_step w w' -> started w -> started w'.
Proof.
  destruct 1 as [a w|a v w|ns w|n max ns w Hx Hpos Hn|s w|h w]; intros Hw; unfold started.
  - intros _. by apply slave_read_ok.
  - intros _. by apply slave_write_ok.
  - intros _. by apply increment_ok.
  - intros _. assert (ikat_initialized (ikat w) = true) as Hi.
    { unfold slave_quiet_quanta in Hn. cbv zeta in Hn. destruct (ikat_initialized (ikat w)); [done|].
      cbn in Hn. lia. }
    specialize (Hw Hi). destruct (quiet_quanta_until n max _ w Hw Hx Hn Hpos) as (Hq & _ & Hm).
    rewrite <- quiet_increments by done. by apply iter_ok.
  - exact Hw.
  - exact Hw.
Qed.

Lemma reachable_started w0 w : rtc gate_step w0 w -> started w0 -> started w.
Proof. induction 1; [done|]. intros Hs. eauto using gate_step_started. Qed.

Lemma z2b_pos x : 0 <= x -> z2b x = (0 <? x).
Proof. intros Hx. unfold z2b. destruct (Z.eqb_spec x 0), (Z.ltb_spec 0 x); done || lia. Qed.

Lemma unread_range d c : ikat_ok d -> is_channel c -> 0 <= response_remaining d c <= 8.
Proof.
  intros Hd Hc. pose proof (ch_response_length _ (chan_ok d c Hd Hc)). unfold response_remaining. lia.
Qed.

(** C33. In every reachable state of the gate each channel's status register and
    interrupt bit say exactly whether it has an unread response byte, and its
    queue indices are within the eight-byte buffer. *)
Theorem gate_registers_mirror_queues w0 w c :
  ikat_initialized (ikat w0) = false -> rtc gate_step w0 w ->
  ikat_initialized (ikat w) = true -> is_channel c ->
  let unread := response_remaining (ikat w) c in
  0 <= unread <= 8 /\
  reg (ikat w) (REG_STATUS_A + c) = (if 0 <? unread then 0x01 else 0x11) /\
  Z.testbit (reg (ikat w) REG_INTERRUPT_STATUS) (2 * c + 1) = (0 <? unread).
Proof.
  intros H0 Hr Hi Hc unread.
  assert (gate_ok w) as Hw by (apply (reachable_started w0); [done|unfold started; congruence|done]).
  pose proof (unread_range _ c Hw Hc) as Hu. fold unread in Hu.
  destruct (ik_mirror _ Hw c Hc) as [Hs Hb]. fold unread in Hs, Hb. rewrite z2b_pos in Hs, Hb by lia. done.
Qed.

(** * Reading a reply *)
Definition output_address (c : Z) : Z := CDI_SLAVE_BASE + 2 * (REG_OUTPUT_A + c).

Lemma output_register c : is_channel c -> register_from_address (output_address c) = REG_OUTPUT_A + c.
Proof.
  intros Hc. assert (c = 0 \/ c = 1 \/ c = 2 \/ c = 3) as [-> | [-> | [-> | ->]]] by regs; reflexivity.
Qed.

Fixpoint read_replies (n : nat) (c : Z) (w : IkatWorld D) : list Z * IkatWorld D :=
  match n with
  | O => ([], w)
  | S n =>
    let '(v, w) := slave_read (output_address c) w in
    let '(vs, w) := read_replies n c w in (v :: vs, w)
  end.

Lemma read_output_chan c d :
  ikat_ok d -> is_channel c -> 0 < response_remaining d c ->
  let q := chan d c in
  reg (read_output c d) (REG_OUTPUT_A + c) = lget (response q) (response_position q) /\
  response (chan (read_output c d) c) = response q /\
  response_length (chan (read_output c d) c) = response_length q /\
  response_position (chan (read_output c d) c) = response_position q + 1 /\
  ikat_initialized (read_output c d) = ikat_initialized d.
Proof.
  intros Hd Hc Hr q. unfold read_output. cbv zeta. fold q.
  rewrite (z2b_pos (response_remaining d c)) by lia. destruct (Z.ltb_spec 0 (response_remaining d c)); [|lia].
  set (f := fun q => set_response_position _ q). set (v := lget _ _).
  set (d2 := set_reg (REG_OUTPUT_A + c) v (upd_chan c f d)).
  set (d3 := if z2b (response_remaining d2 c) then d2 else _).
  assert (chan d3 c = f q) as E3.
  { transitivity (chan d2 c); [subst d3; by destruct (z2b _)|]. subst d2. rewrite chan_set_reg.
    apply chan_upd_eq; [apply Hd|done]. }
  assert (reg d3 (REG_OUTPUT_A + c) = v) as Ev.
  { transitivity (reg d2 (REG_OUTPUT_A + c)).
    - subst d3. destruct (z2b _); [done|]. by rewrite reg_set_ne by regs.
    - subst d2. apply reg_set_eq; [apply Hd|regs]. }
  assert (ikat_initialized d3 = ikat_initialized d) as Ei by (subst d3; by destruct (z2b _)).
  unfold update_channel_status. cbv zeta. rewrite chan_set_reg, E3, reg_set_ne by regs. done.
Qed.

Lemma read_replies_spec bytes c w :
  gate_ok w -> ikat_initialized (ikat w) = true -> is_channel c ->
  response_remaining (ikat w) c = Z.of_nat (length bytes) ->
  take (length bytes) (drop (Z.to_nat (response_position (chan (ikat w) c))) (response (chan (ikat w) c))) = bytes ->
  fst (read_replies (length bytes) c w) = bytes /\
  let w' := snd (read_replies (length bytes) c w) in
  gate_ok w' /\ response_remaining (ikat w') c = 0.
Proof.
  revert w. induction bytes as [|b bytes IH]; intros w Hw Hi Hc Hr Hb; [done|].
  cbn [read_replies length].
  assert (slave_read (output_address c) w =
    (reg (read_output c (ikat w)) (REG_OUTPUT_A + c), on_ikat (read_output c) w)) as ->.
  { unfold slave_read, ensure_ikat. cbv zeta. rewrite Hi, output_register by done.
    destruct (Z.ltb_spec (REG_OUTPUT_A + c) 0), (Z.leb_spec IKAT_REGISTER_COUNT (REG_OUTPUT_A + c)); try regs.
    cbn [orb]. unfold read_register. destruct (Z.leb_spec REG_OUTPUT_A (REG_OUTPUT_A + c)),
      (Z.leb_spec (REG_OUTPUT_A + c) REG_OUTPUT_D); try regs. cbn [andb].
    by replace (REG_OUTPUT_A + c - REG_OUTPUT_A) with c by lia. }
  destruct (read_output_chan c (ikat w) Hw Hc) as (Ev & E1 & E2 & E3 & E4); [cbn in Hr; lia|].
  pose proof (ch_response_length _ (chan_ok _ _ Hw Hc)) as Hlen.
  pose proof (ch_response _ (chan_ok _ _ Hw Hc)) as [Hl8 _].
  set (q := chan (ikat w) c) in *. set (p := response_position q) in *.
  assert (drop (Z.to_nat p) (response q) = lget (response q) p :: drop (S (Z.to_nat p)) (response q)) as Ed.
  { apply drop_S. unfold lget. destruct (response q !! Z.to_nat p) eqn:El.
    - f_equal. symmetry. by apply nth_lookup_Some.
    - apply lookup_ge_None in El. unfold response_remaining in Hr. fold q p in Hr. cbn [length] in Hr. lia. }
  rewrite Ed in Hb. cbn [length take] in Hb. injection Hb as Hb1 Hb2.
  destruct (IH (on_ikat (read_output c) w)) as (Ef & Hw' & Hr').
  - by apply read_output_ok.
  - cbn. by rewrite E4.
  - done.
  - unfold response_remaining in *. cbn [ikat on_ikat]. rewrite E2, E3. fold q p in Hr. cbn [length] in Hr. lia.
  - cbn [ikat on_ikat]. rewrite E1, E3. by replace (Z.to_nat (p + 1)) with (S (Z.to_nat p)) by lia.
  - destruct (read_replies (length bytes) c _) as [vs w']. cbn [fst snd] in *. by rewrite Ev, Hb1, Ef.
Qed.

(** A published reply is read back byte for byte and in order; the last read
    clears the channel's interrupt bit and marks it empty. *)
Theorem reply_read_in_order c bytes w :
  gate_ok w -> ikat_initialized (ikat w) = true -> is_channel c ->
  Forall is_u8 bytes -> (0 < length bytes <= 8)%nat ->
  let '(read, w') := read_replies (length bytes) c (publish_and_interrupt c bytes w) in
  read = bytes /\ response_remaining (ikat w') c = 0 /\
  Z.testbit (reg (ikat w') REG_INTERRUPT_STATUS) (2 * c + 1) = false /\
  reg (ikat w') (REG_STATUS_A + c) = 0x11.
Proof.
  intros Hw Hi Hc Hb Hl. set (w1 := publish_and_interrupt c bytes w).
  assert (gate_ok w1) as Hw1 by (apply publish_ok; [done|done|by destruct bytes; [cbn in Hl; lia|]|done]).
  destruct (publish_chan c bytes (ikat w)) as (Ep & El & Er); [apply Hw|done|].
  rewrite clipped_id in El, Er by lia.
  assert (chan (ikat w1) c = chan (publish_response c bytes (ikat w)) c) as Ec
    by (subst w1; by rewrite publish_host, chan_set_reg).
  destruct (read_replies_spec bytes c w1) as (Ef & Hw' & Hr'); try done.
  - subst w1. by rewrite publish_host.
  - unfold response_remaining. rewrite Ec, Ep, El. lia.
  - rewrite Ec, Ep, Er. unfold copy_front. cbn [Z.to_nat drop]. apply take_app_length.
  - destruct (read_replies (length bytes) c w1) as [read w']. cbn [fst snd] in *.
    destruct (ik_mirror _ Hw' c Hc) as [Hs Hbit]. rewrite Hr' in Hs, Hbit. done.
Qed.
End Gate.

(** * A board to run the gate on: it counts its interrupts. *)
#[export] Instance counting_board : IkatHost Z := {|
  host_irq n := n + 1;
  host_media_present _ := true;
  host_media_generation _ := 1;
  host_transport_resume n := n;
  host_set_drive_position _ _ n := n;
  host_boot_reset n := n |}.

Definition sample_mouse : InputState := mkInput 0 0 0 (replicate 256 0) 0 0 300 (-7) true true.
Definition sample_gate : IkatWorld Z := mkIW (initialize_ikat 0) sample_mouse 0.
Lemma sample_gate_ok : gate_ok sample_gate.
Proof. apply initialize_ok. Qed.

(** A quantum of 2^21 ns, as a double. *)
Definition two_ms : double := S754_finite false 4503599627370496 (-31).

Lemma gate_registers_mirror_queues_witness :
  let w0 := mkIW (set_ikat_initialized false (initialize_ikat 0)) sample_mouse 0 in
  let w := slave_write (CDI_SLAVE_BASE + 4) 0xF0 w0 in
  response_remaining (ikat w) CHANNEL_C = 3 /\
  reg (ikat w) (REG_STATUS_A + CHANNEL_C) = 0x01 /\
  Z.testbit (reg (ikat w) REG_INTERRUPT_STATUS) 5 = true.
Proof.
  intros w0 w.
  destruct (gate_registers_mirror_queues w0 w CHANNEL_C) as (_ & Hs & Hb);
    [reflexivity|apply rtc_once; apply gate_writes|reflexivity|split; [discriminate|reflexivity]|].
  split; [reflexivity|]. split; [exact Hs|exact Hb].
Defined.

Lemma reply_read_in_order_witness :
  fst (read_replies 4 CHANNEL_C (publish_and_interrupt CHANNEL_C reply_f3 sample_gate)) = reply_f3.
Proof.
  pose proof (reply_read_in_order CHANNEL_C reply_f3 sample_gate sample_gate_ok eq_refl) as H.
  destruct (read_replies 4 CHANNEL_C (publish_and_interrupt CHANNEL_C reply_f3 sample_gate)) as [r w'] eqn:E.
  change (length reply_f3) with 4%nat in H. rewrite E in H. apply H.
  - split; [discriminate|reflexivity].
  - repeat (constructor; [split; [discriminate|reflexivity]|]). constructor.
  - lia.
Defined.

