(* ===== verification/SlaveReply.v ===== *)
(** What leaves the IKAT gate in time: the pointer packets carry the whole motion,
    and a deferred reply arrives. *)

From Stdlib Require Import ZArith Lia Bool SpecFloat.
From stdpp Require Import base tactics numbers list.
From S2P Require Import Prelude Double Input Slave SlaveSpec.
Open Scope Z_scope.

(** * Pointer packets *)

(** How the guest's driver puts a packet together again. *)
Definition packet_x (packet : list Z) : Z :=
  i8 (Z.lor (Z.shiftl (Z.land (lget packet 0) 0x03) 6) (lget packet 1)).
Definition packet_y (packet : list Z) : Z :=
  i8 (Z.lor (Z.shiftl (Z.land (lget packet 0) 0x0C) 4) (lget packet 2)).

Lemma i8_u8 x : i8 (u8 x) = i8 x.
Proof. unfold i8, u8. f_equal. rewrite Zplus_mod_idemp_l. done. Qed.
Lemma i8_id x : -128 <= x < 128 -> i8 x = x.
Proof. unfold i8. intros. rewrite Z.mod_small; lia. Qed.

Lemma shiftl_word w n x : 0 <= w -> 0 <= n -> is_word w x -> is_word (w + n) (Z.shiftl x n).
Proof.
  unfold is_word. intros Hw Hn Hx. rewrite Z.shiftl_mul_pow2, Z.pow_add_r by lia.
  pose proof (Z.pow_pos_nonneg 2 n). nia.
Qed.

(** Decides a goal about single bits of words at numeral positions. *)
Ltac known_bits :=
  repeat match goal with |- context [Z.testbit ?c ?i] =>
    let v := eval vm_compute in (Z.testbit c i) in
    match v with true => change (Z.testbit c i) with true | false => change (Z.testbit c i) with false end
  end;
  repeat match goal with |- context [Z.testbit ?v ?i] =>
    let j := eval vm_compute in i in progress change (Z.testbit v i) with (Z.testbit v j)
  end;
  repeat match goal with |- context [Z.testbit ?v ?i] => is_var v; case (Z.testbit v i) end;
  reflexivity.

Lemma packet_head_x input ex ey :
  is_u8 ex -> is_u8 ey ->
  let p0 := u8 (Z.lor (Z.lor (Z.lor (Z.lor 0x40 (if z2b (Z.land input CDI_INPUT_BTN1) then 0x20 else 0))
         (if z2b (Z.land input CDI_INPUT_BTN2) then 0x10 else 0))
         (Z.land (Z.shiftr ey 4) 0x0C)) (Z.land (Z.shiftr ex 6) 0x03)) in
  Z.lor (Z.shiftl (Z.land p0 0x03) 6) (u8 (Z.land ex 0x3F)) = ex /\
  Z.lor (Z.shiftl (Z.land p0 0x0C) 4) (u8 (Z.land ey 0x3F)) = ey.
Proof.
  intros Hx Hy p0.
  assert (forall a b : bool, let p0 := u8 (Z.lor (Z.lor (Z.lor (Z.lor 0x40 (if a then 0x20 else 0))
         (if b then 0x10 else 0)) (Z.land (Z.shiftr ey 4) 0x0C)) (Z.land (Z.shiftr ex 6) 0x03)) in
    Z.lor (Z.shiftl (Z.land p0 0x03) 6) (u8 (Z.land ex 0x3F)) = ex /\
    Z.lor (Z.shiftl (Z.land p0 0x0C) 4) (u8 (Z.land ey 0x3F)) = ey) as H; [|apply H].
  intros a b p. subst p. split.
  - apply (word_ext 8); [|done|].
    { apply lor_word; [|word|lia]. apply (shiftl_word 2 6); [lia|lia|]. apply land_word_r; [word|lia]. }
    destruct a, b; each_bit; autorewrite with bits; known_bits.
  - apply (word_ext 8); [|done|].
    { apply lor_word; [|word|lia]. apply (shiftl_word 4 4); [lia|lia|]. apply land_word_r; [word|lia]. }
    destruct a, b; each_bit; autorewrite with bits; known_bits.
Qed.

Lemma packet_decodes input x y :
  -128 <= x < 128 -> -128 <= y < 128 ->
  let p := pointer_packet input x y in
  packet_x p = x /\ packet_y p = y /\
  Z.testbit (lget p 0) 5 = Z.testbit input 4 /\ Z.testbit (lget p 0) 4 = Z.testbit input 5.
Proof.
  intros Hx Hy p. subst p. unfold packet_x, packet_y, pointer_packet. cbv zeta.
  set (ex := u8 (i8 x)). set (ey := u8 (i8 y)).
  assert (is_u8 ex /\ is_u8 ey) as [Hex Hey] by (split; word).
  change (lget (?a :: ?b :: ?c :: ?d) 0) with a. change (lget (?a :: ?b :: ?c :: ?d) 1) with b.
  change (lget (?a :: ?b :: ?c :: ?d) 2) with c.
  destruct (packet_head_x input ex ey Hex Hey) as [E1 E2]. rewrite E1, E2.
  subst ex ey. rewrite !i8_u8, !i8_id by (rewrite ?i8_id; lia). split; [done|]. split; [done|].
  change CDI_INPUT_BTN1 with (2 ^ 4). change CDI_INPUT_BTN2 with (2 ^ 5).
  rewrite !testbit_land_pow2 by lia.
  split; autorewrite with bits; destruct (Z.testbit input 4), (Z.testbit input 5); known_bits.
Qed.

Lemma taken_range before low high :
  low <= high -> low <= taken before low high <= high.
Proof. intros. unfold taken. destruct (Z.ltb_spec before low), (Z.ltb_spec high before); lia. Qed.

Lemma key_speed_range count : 0 <= count -> 0 <= key_speed count <= 8.
Proof.
  intros Hc. unfold key_speed. cbv zeta.
  assert (0 <= Z.land count 1) by (apply Z.land_nonneg; lia).
  destruct (Z.ltb_spec 8 (count + Z.land count 1)); lia.
Qed.
Lemma key_motion_range input a b speed : 0 <= speed <= 8 -> -8 <= key_motion input a b speed <= 8.
Proof. intros. unfold key_motion. destruct (z2b _); [lia|]. destruct (z2b _); lia. Qed.
Lemma repeat_count_range input count : 0 <= count < INT_MAX -> 0 <= repeat_count input count.
Proof. intros. unfold repeat_count. destruct (z2b _); [|lia]. unfold i32, INT_MAX in *. rewrite Z.mod_small; lia. Qed.

Section Reply.
Context {D : Type} `{IkatHost D}.
Implicit Types w : IkatWorld D.

Definition key_x w : Z :=
  let input := cdi_input_get (iw_input w) in
  key_motion input CDI_INPUT_LEFT CDI_INPUT_RIGHT (key_speed (repeat_count input (pointer_repeat_count (ikat w)))).
Definition key_y w : Z :=
  let input := cdi_input_get (iw_input w) in
  key_motion input CDI_INPUT_UP CDI_INPUT_DOWN (key_speed (repeat_count input (pointer_repeat_count (ikat w)))).

Lemma ack_relative s :
  relative_x (cdi_input_acknowledge_mouse_buttons s) = relative_x s /\
  relative_y (cdi_input_acknowledge_mouse_buttons s) = relative_y s.
Proof. unfold cdi_input_acknowledge_mouse_buttons. cbv zeta. by destruct (negb _). Qed.

Lemma publish_input c bytes w : iw_input (publish_and_interrupt c bytes w) = iw_input w.
Proof. unfold publish_and_interrupt, raise_channel_interrupt. cbv zeta. by destruct (z2b _). Qed.

Lemma z2b_false x : z2b x = false -> x = 0.
Proof. unfold z2b. intros E%negb_false_iff%Z.eqb_eq. done. Qed.

(** A report of the pointing device loses no motion: what leaves the queue of
    relative motion, with the motion of the keys, is what the packet decodes to,
    and when no packet is published nothing was taken. *)
Theorem pointer_report_conserves_motion w :
  gate_ok w -> 0 <= pointer_repeat_count (ikat w) < INT_MAX ->
  let w' := emit_pointer_packet w in
  let dx := relative_x (iw_input w) - relative_x (iw_input w') in
  let dy := relative_y (iw_input w) - relative_y (iw_input w') in
  let q := chan (ikat w') CHANNEL_A in
  (response_position q = 0 /\ response_length q = 4 /\
   packet_x (response q) = key_x w + dx /\ packet_y (response q) = key_y w + dy) \/
  (dx = 0 /\ dy = 0 /\ key_x w = 0 /\ key_y w = 0 /\ channel (ikat w') = channel (ikat w)).
Proof.
  intros Hw Hcount w' dx dy q. set (input := cdi_input_get (iw_input w)).
  set (count := repeat_count input (pointer_repeat_count (ikat w))).
  pose proof (key_speed_range count (repeat_count_range input _ Hcount)) as Hspeed.
  pose proof (key_motion_range input CDI_INPUT_LEFT CDI_INPUT_RIGHT _ Hspeed) as Hkx.
  pose proof (key_motion_range input CDI_INPUT_UP CDI_INPUT_DOWN _ Hspeed) as Hky.
  fold (key_x w) in Hkx. fold (key_y w) in Hky.
  set (mx := taken (relative_x (iw_input w)) (-128 - key_x w) (127 - key_x w)).
  set (my := taken (relative_y (iw_input w)) (-128 - key_y w) (127 - key_y w)).
  assert (-128 - key_x w <= mx <= 127 - key_x w) as Hmx by (apply taken_range; lia).
  assert (-128 - key_y w <= my <= 127 - key_y w) as Hmy by (apply taken_range; lia).
  set (s := set_relative_y (relative_y (iw_input w) - my) (set_relative_x (relative_x (iw_input w) - mx) (iw_input w))).
  set (w1 := mkIW (set_pointer_repeat_count count (ikat w)) s (iw_host w)).
  set (b := z2b (directions_of input) || z2b (key_x w + mx) || z2b (key_y w + my) ||
    z2b (Z.land (Z.lxor input (previous_input (ikat w))) (Z.lor CDI_INPUT_BTN1 CDI_INPUT_BTN2))).
  set (w2 := if b then publish_and_interrupt CHANNEL_A (pointer_packet input (key_x w + mx) (key_y w + my)) w1 else w1).
  assert (w' = mkIW (set_previous_input input (ikat w2))
    (cdi_input_acknowledge_mouse_buttons (iw_input w2)) (iw_host w2)) as Ew by reflexivity.
  assert (iw_input w2 = s) as Es by (subst w2; destruct b; [apply publish_input|done]).
  destruct (ack_relative (iw_input w2)) as [Ex Ey]. rewrite Es in Ex, Ey.
  assert (dx = mx /\ dy = my) as [-> ->].
  { subst dx dy. rewrite Ew. cbn [iw_input]. rewrite Es, Ex, Ey. subst s. cbn. lia. }
  assert (q = chan (ikat w2) CHANNEL_A) as Eq by (subst q; by rewrite Ew). clearbody w' q.
  assert (gate_ok w1) as Hw1 by (by apply (ok_ext (ikat w))).
  destruct b eqn:Hb.
  - left. destruct (publish_chan CHANNEL_A (pointer_packet input (key_x w + mx) (key_y w + my)) (ikat w1))
      as (Ep & El & Er); [apply Hw1|regs|].
    assert (q = chan (publish_response CHANNEL_A (pointer_packet input (key_x w + mx) (key_y w + my)) (ikat w1)) CHANNEL_A)
      as -> by (rewrite Eq; subst w2; by rewrite publish_host, chan_set_reg).
    rewrite Ep, El, Er. split; [done|]. split; [done|].
    destruct (packet_decodes input (key_x w + mx) (key_y w + my)) as (Dx & Dy & _); [lia|lia|].
    split; [exact Dx|exact Dy].
  - right. apply orb_false_iff in Hb as [[[Hd Hx]%orb_false_iff Hy]%orb_false_iff _].
    apply z2b_false in Hd, Hx, Hy.
    assert (key_x w = 0 /\ key_y w = 0) as [E1 E2].
    { assert (count = 0) as Ec by (subst count; unfold repeat_count; by rewrite Hd).
      unfold key_x, key_y. fold input. fold count. rewrite Ec. unfold key_motion. 
      change (key_speed 0) with 0. split; (case (z2b (Z.land input _)); [reflexivity|]; case (z2b (Z.land input _)); reflexivity). }
    rewrite E1 in *. rewrite E2 in *. split; [lia|]. split; [lia|]. split; [done|]. split; [done|].
    rewrite Ew. done.
Qed.
End Reply.

(** * Deferred replies arrive *)

(** The board's medium does not change by what the gate does to the board. *)
Class IkatHostLaws (D : Type) `{IkatHost D} : Prop := {
  irq_generation : forall h, host_media_generation (host_irq h) = host_media_generation h;
  resume_generation : forall h, host_media_generation (host_transport_resume h) = host_media_generation h;
}.

Section Arrival.
Context {D : Type} `{IkatHostLaws D}.
Implicit Types w : IkatWorld D.

(** What the other channels cannot touch. *)
Record aside w w' : Prop := {
  aside_chan : chan (ikat w') CHANNEL_D = chan (ikat w) CHANNEL_D;
  aside_init : ikat_initialized (ikat w') = ikat_initialized (ikat w);
  aside_seen : media_generation_seen (ikat w') = media_generation_seen (ikat w);
  aside_host : host_media_generation (iw_host w') = host_media_generation (iw_host w);
}.

Lemma aside_refl w : aside w w.
Proof. by split. Qed.
Lemma aside_trans w1 w2 w3 : aside w1 w2 -> aside w2 w3 -> aside w1 w3.
Proof. intros [A1 A2 A3 A4] [B1 B2 B3 B4]. split; congruence. Qed.

Lemma publish_init c bytes w :
  ikat_initialized (ikat (publish_and_interrupt c bytes w)) = ikat_initialized (ikat w) /\
  media_generation_seen (ikat (publish_and_interrupt c bytes w)) = media_generation_seen (ikat w).
Proof. by rewrite publish_host. Qed.
Lemma publish_generation c bytes w :
  host_media_generation (iw_host (publish_and_interrupt c bytes w)) = host_media_generation (iw_host w).
Proof.
  unfold publish_and_interrupt, raise_channel_interrupt. cbv zeta.
  destruct (z2b _); cbn; [by rewrite irq_generation|done].
Qed.

Lemma publish_aside c bytes w : is_channel c -> c <> CHANNEL_D -> aside w (publish_and_interrupt c bytes w).
Proof.
  intros Hc Hne. destruct (publish_init c bytes w) as [E1 E2].
  split; [|done|done|apply publish_generation].
  rewrite publish_host, chan_set_reg. unfold publish_response, update_channel_status. cbv zeta.
  rewrite chan_set_reg. apply chan_upd_ne; regs.
Qed.

Lemma emit_aside w : aside w (emit_pointer_packet w).
Proof.
  unfold emit_pointer_packet. cbv zeta. destruct (cdi_input_take_relative _ _ _ _ _) as [[mx my] s].
  set (count := repeat_count _ _). set (w1 := mkIW (set_pointer_repeat_count count (ikat w)) s (iw_host w)).
  match goal with |- context [if ?b then publish_and_interrupt ?c ?bs w1 else w1] =>
    set (w2 := if b then publish_and_interrupt c bs w1 else w1) end.
  assert (aside w w2) as [A1 A2 A3 A4].
  { apply (aside_trans _ w1); [by split|]. subst w2. destruct (_ || _); [|apply aside_refl].
    apply publish_aside; [regs|done]. }
  clearbody w2. by split.
Qed.

Lemma pointer_loop_aside n w : aside w (pointer_loop n w).
Proof.
  revert w. induction n as [|n IH]; intros w; cbn [pointer_loop]; [apply aside_refl|].
  destruct (_ <=? _); [|apply aside_refl]. eapply aside_trans; [|apply IH].
  eapply aside_trans; [|apply emit_aside]. by split.
Qed.

Lemma upd_aside c f w : is_channel c -> c <> CHANNEL_D -> aside w (on_ikat (upd_chan c f) w).
Proof. intros Hc Hne. split; [|done..]. cbn [ikat on_ikat]. apply chan_upd_ne; regs. Qed.

Lemma advance_aside x c w : is_channel c -> c <> CHANNEL_D -> aside w (advance_deferred x c w).
Proof.
  intros Hc Hne. unfold advance_deferred. cbv zeta. destruct (negb _); [apply aside_refl|].
  destruct (_ <? _); [by apply upd_aside|]. unfold deliver_deferred. cbv zeta.
  set (w1 := on_ikat (upd_chan c (set_deferred_ns 0)) w).
  assert (aside w w1) as A1 by (by apply upd_aside).
  destruct (z2b _); [done|]. assert ((c =? CHANNEL_D) = false) as Ec by (by apply Z.eqb_neq).
  rewrite Ec. cbn [andb]. eapply aside_trans; [exact A1|]. eapply aside_trans; [|by apply upd_aside].
  by apply publish_aside.
Qed.

(** [bytes] waits on channel D, which has nothing unread, for [t] nanoseconds. *)
Record waiting (bytes : list Z) (t : Z) w : Prop := {
  wait_ok : gate_ok w;
  wait_init : ikat_initialized (ikat w) = true;
  wait_media : host_media_generation (iw_host w) = media_generation_seen (ikat w);
  wait_empty : response_remaining (ikat w) CHANNEL_D = 0;
  wait_pending : deferred_pending (chan (ikat w) CHANNEL_D) = true;
  wait_ns : deferred_ns (chan (ikat w) CHANNEL_D) = t;
  wait_bytes : take (Z.to_nat (deferred_length (chan (ikat w) CHANNEL_D)))
                 (deferred (chan (ikat w) CHANNEL_D)) = bytes;
}.

(** [bytes] is there to be read, and announced. *)
Definition arrived (bytes : list Z) w : Prop :=
  let q := chan (ikat w) CHANNEL_D in
  response_position q = 0 /\ response_length q = Z.of_nat (length bytes) /\
  take (length bytes) (response q) = bytes /\
  Z.testbit (reg (ikat w) REG_INTERRUPT_STATUS) 7 = true.

Lemma is_channel_d : is_channel CHANNEL_D.
Proof. regs. Qed.

Lemma defer_response_chan bytes d :
  length (channel d) = 4%nat ->
  let q := chan d CHANNEL_D in
  response_position (chan (defer_response CHANNEL_D bytes d) CHANNEL_D) = response_position q /\
  response_length (chan (defer_response CHANNEL_D bytes d) CHANNEL_D) = response_length q /\
  response (chan (defer_response CHANNEL_D bytes d) CHANNEL_D) = response q.
Proof.
  intros Hl q. unfold defer_response. cbv zeta. by rewrite chan_upd_eq by (done || apply is_channel_d).
Qed.

(** A delivery on channel D. *)
Lemma deliver_arrives bytes t w : waiting bytes t w -> arrived bytes (deliver_deferred CHANNEL_D w).
Proof.
  intros [Hw Hi Hm He Hp Hn Hb]. pose proof is_channel_d as Hd.
  assert (gate_ok (deliver_deferred CHANNEL_D w)) as Hok
    by (apply deliver_ok; [done|by apply (chan_ok _ _ Hw Hd)|done]).
  pose proof (ch_deferred_length _ (chan_ok _ _ Hw Hd)) as Hdl.
  pose proof (ch_pending _ (chan_ok _ _ Hw Hd) Hp) as Hdp.
  pose proof (ch_deferred _ (chan_ok _ _ Hw Hd)) as [Hl8 _].
  pose proof (ik_channels _ Hw) as [Hl _].
  set (q := chan (ikat w) CHANNEL_D) in *.
  assert (length bytes = Z.to_nat (deferred_length q)) as Hlen by (rewrite <- Hb, length_take; lia).
  assert (let q' := chan (ikat (deliver_deferred CHANNEL_D w)) CHANNEL_D in
    response_position q' = 0 /\ response_length q' = Z.of_nat (length bytes) /\
    response q' = copy_front bytes (response q)) as (E1 & E2 & E3).
  { unfold deliver_deferred. cbv zeta. set (w1 := on_ikat (upd_chan CHANNEL_D (set_deferred_ns 0)) w).
    assert (chan (ikat w1) CHANNEL_D = set_deferred_ns 0 q) as Eq1 by (by apply chan_upd_eq).
    assert (length (channel (ikat w1)) = 4%nat) as Hl1 by (cbn; by rewrite length_alter).
    assert (response_remaining (ikat w1) CHANNEL_D = 0) as -> by (unfold response_remaining; rewrite Eq1; exact He).
    cbn [z2b Z.eqb negb]. rewrite Eq1. change (deferred_length (set_deferred_ns 0 q)) with (deferred_length q).
    change (deferred (set_deferred_ns 0 q)) with (deferred q). rewrite Hb.
    match goal with |- context [publish_and_interrupt CHANNEL_D bytes ?x] => set (w2 := x) end.
    assert (ikat w2 = ikat w1) as E12 by (subst w2; by destruct (_ && _)). clearbody w2.
    set (w3 := publish_and_interrupt CHANNEL_D bytes w2).
    destruct (publish_chan CHANNEL_D bytes (ikat w2)) as (P1 & P2 & P3); [by rewrite E12|done|].
    rewrite clipped_id in P2, P3 by lia.
    assert (chan (ikat w3) CHANNEL_D = chan (publish_response CHANNEL_D bytes (ikat w2)) CHANNEL_D) as E3
      by (subst w3; by rewrite publish_host, chan_set_reg).
    rewrite <- E3 in P1, P2, P3. rewrite E12, Eq1 in P3.
    assert (length (channel (ikat w3)) = 4%nat) as Hl3.
    { subst w3. rewrite publish_host. cbn. rewrite length_alter, E12. exact Hl1. }
    clearbody w3. set (w4 := on_ikat (upd_chan CHANNEL_D (set_deferred_pending false)) w3).
    assert (chan (ikat w4) CHANNEL_D = set_deferred_pending false (chan (ikat w3) CHANNEL_D)) as E4
      by (by apply chan_upd_eq).
    assert (length (channel (ikat w4)) = 4%nat) as Hl4 by (cbn; by rewrite length_alter).
    clearbody w4. destruct (_ && _).
    - cbn [ikat on_ikat].
      destruct (defer_response_chan on_target (set_ready_report_pending false (ikat w4))) as (R1 & R2 & R3); [done|].
      rewrite R1, R2, R3. change (chan (set_ready_report_pending false (ikat w4))) with (chan (ikat w4)).
      rewrite E4. done.
    - rewrite E4. done. }
  unfold arrived. cbv zeta. split; [done|]. split; [done|]. split.
  - rewrite E3. unfold copy_front. apply take_app_length.
  - destruct (ik_mirror _ Hok CHANNEL_D Hd) as [_ Hbit]. etransitivity; [exact Hbit|].
    unfold response_remaining. rewrite E1, E2. unfold z2b.
    destruct (Z.eqb_spec (Z.of_nat (length bytes) - 0) 0); [lia|done].
Qed.

(** One quantum brings the reply nearer, or brings it. *)
Lemma quantum_waits bytes t ns w :
  waiting bytes t w ->
  let w' := slave_increment_time ns w in
  if dtrunc ns <? t then waiting bytes (t - dtrunc ns) w' else arrived bytes w'.
Proof.
  intros Hwait w'. destruct Hwait as [Hw Hi Hm He Hp Hn Hb]. pose proof (dtrunc_range ns) as Hr.
  assert (gate_ok w') as Hw' by (apply increment_ok; by intros _).
  unfold is_word in Hr. pose proof is_channel_d as Hd. subst w'. revert Hw'.
  unfold slave_increment_time. cbv zeta. set (x := dtrunc ns) in *.
  unfold ensure_ikat. rewrite Hi. unfold check_media. cbv zeta. rewrite Hm, Z.eqb_refl. cbn [negb].
  set (w1 := on_ikat (add_pointer_time x) w). set (w2 := pointer_loop (pointer_rounds w1) w1).
  unfold all_channels. cbn [fold_left].
  set (w3 := advance_deferred x CHANNEL_C (advance_deferred x CHANNEL_B (advance_deferred x CHANNEL_A w2))).
  assert (aside w w3) as [A1 A2 A3 A4].
  { apply (aside_trans _ w1); [by split|]. apply (aside_trans _ w2); [apply pointer_loop_aside|].
    eapply aside_trans; [apply (advance_aside x CHANNEL_A); [regs|done]|].
    eapply aside_trans; [apply (advance_aside x CHANNEL_B); [regs|done]|].
    apply (advance_aside x CHANNEL_C); [regs|done]. }
  assert (gate_ok w3) as Hw3.
  { repeat (apply advance_deferred_ok; [regs|lia|]). apply pointer_rounds_ok.
    - by apply rest_gate in Hw.
    - cbn. apply u64_range. }
  clearbody w3. clear w2.
  assert (waiting bytes t w3) as Hwait3.
  { split; rewrite ?A1, ?A2, ?A3, ?A4; try done. unfold response_remaining. by rewrite A1. }
  intros Hw'. revert Hw'. unfold advance_deferred. cbv zeta.
  rewrite (wait_pending _ _ _ Hwait3), (wait_ns _ _ _ Hwait3). cbn [negb].
  destruct (x <? t); intros Hw'; [|by apply (deliver_arrives bytes t)].
  pose proof (ik_channels _ Hw3) as [Hl3 _].
  destruct Hwait3 as [K1 K2 K3 K4 K5 K6 K7].
  assert (chan (ikat (on_ikat (upd_chan CHANNEL_D (fun q => set_deferred_ns (deferred_ns q - x) q)) w3)) CHANNEL_D =
    set_deferred_ns (t - x) (chan (ikat w3) CHANNEL_D)) as E
    by (cbn [ikat on_ikat]; rewrite chan_upd_eq by done; by rewrite K6).
  split; [done|done|done| | | |]; unfold response_remaining; rewrite E; done.
Qed.

Definition span (steps : list double) : Z := fold_right (fun ns s => dtrunc ns + s) 0 steps.

Lemma wait_arrives bytes steps t w :
  waiting bytes t w -> steps <> [] -> t <= span steps ->
  exists before after, steps = before ++ after /\
    arrived bytes (fold_left (fun w ns => slave_increment_time ns w) before w).
Proof.
  revert t w. induction steps as [|ns steps IH]; intros t w Hw Hne Hs; [done|].
  pose proof (quantum_waits bytes t ns w Hw) as Hq. cbv zeta in Hq. cbn [span fold_right] in Hs.
  destruct (Z.ltb_spec (dtrunc ns) t) as [Hlt|Hge].
  - destruct steps as [|ns' steps]; [cbn in Hs; lia|].
    destruct (IH (t - dtrunc ns) _ Hq) as (b & a & -> & Ha); [done|unfold span; lia|].
    exists (ns :: b), a. done.
  - exists [ns], steps. done.
Qed.

(** C34. A reply deferred on the drive's channel arrives: within any run of quanta
    that spans its delay, on an unchanged medium and an empty queue, there is a
    moment at which it can be read and its interrupt bit is set. *)
Theorem deferred_reply_arrives bytes steps w :
  gate_ok w -> ikat_initialized (ikat w) = true ->
  host_media_generation (iw_host w) = media_generation_seen (ikat w) ->
  response_remaining (ikat w) CHANNEL_D = 0 ->
  Forall is_u8 bytes -> (0 < length bytes <= 8)%nat -> REPLY_DELAY_NS <= span steps ->
  exists before after, steps = before ++ after /\
    arrived bytes (fold_left (fun w ns => slave_increment_time ns w) before
                     (on_ikat (defer_response CHANNEL_D bytes) w)).
Proof.
  intros Hw Hi Hm He Hb Hl Hs. pose proof is_channel_d as Hd.
  apply (wait_arrives bytes steps REPLY_DELAY_NS); [| |done].
  - assert (bytes <> []) as Hne by (by destruct bytes; [cbn in Hl; lia|]).
    pose proof (ik_channels _ Hw) as [Hl4 _].
    assert (chan (defer_response CHANNEL_D bytes (ikat w)) CHANNEL_D =
      set_deferred_ns REPLY_DELAY_NS (set_deferred_pending true (set_deferred_length (Z.of_nat (length bytes))
        (set_deferred (copy_front bytes (deferred (chan (ikat w) CHANNEL_D))) (chan (ikat w) CHANNEL_D))))) as E.
    { unfold defer_response. cbv zeta. rewrite chan_upd_eq by done. by rewrite clipped_id by lia. }
    split; try done; cbn [ikat on_ikat iw_host]; unfold response_remaining; rewrite ?E; try done.
    + by apply defer_reply_ok.
    + cbn. rewrite Nat2Z.id. unfold copy_front. apply take_app_length.
  - destruct steps; [|done]. cbn in Hs. unfold REPLY_DELAY_NS in Hs. lia.
Qed.
End Arrival.

#[export] Instance counting_board_laws : IkatHostLaws Z.
Proof. by split. Qed.

(** The pointer moved by (300, -7): the first report carries 127 of the 300. *)
Lemma pointer_report_conserves_motion_witness :
  let w := emit_pointer_packet sample_gate in
  packet_x (response (chan (ikat w) CHANNEL_A)) = 127 /\
  packet_y (response (chan (ikat w) CHANNEL_A)) = -7 /\
  relative_x (iw_input w) = 173.
Proof.
  destruct (pointer_report_conserves_motion sample_gate sample_gate_ok) as [(_ & _ & Hx & Hy)|(H & _)];
    [split; [discriminate|reflexivity]| |discriminate].
  split; [exact Hx|]. split; [exact Hy|reflexivity].
Defined.

Lemma deferred_reply_arrives_witness :
  exists before after, replicate 3 two_ms = before ++ after /\
    arrived reply_c2 (fold_left (fun w ns => slave_increment_time ns w) before
                        (on_ikat (defer_response CHANNEL_D reply_c2) (mkIW (initialize_ikat 0) sample_mouse 0))).
Proof.
  apply (deferred_reply_arrives reply_c2 (replicate 3 two_ms) sample_gate);
    [exact sample_gate_ok|reflexivity|reflexivity|reflexivity| |cbn; lia|vm_compute; discriminate].
  repeat (constructor; [split; [discriminate|reflexivity]|]). constructor.
Defined.
