(* ===== verification/Mcd212.v ===== *)
(** The display controller's registers and scan engine (runner/src/mcd212.c):
    the two planes' pointers, the initial and dynamic control areas in DRAM, the
    raster, and the two status registers the CPU reads.

    The pixel pipeline (mcd212_video.c) is the interface [VideoOps]; the debug
    rings and the debugger's hold on a frame are left out. *)

From Stdlib Require Import ZArith Lia Bool SpecFloat.
From stdpp Require Import base tactics numbers list gmap.
From S2P Require Import Prelude Double Irq Input Slave.
Open Scope Z_scope.
Open Scope mach_scope.

Definition CDI_RAM0_BASE : Z := 0x00000000.
Definition CDI_RAM0_SIZE : Z := 0x00080000.
Definition CDI_RAM1_BASE : Z := 0x00200000.
Definition CDI_RAM1_SIZE : Z := 0x00080000.
Definition MCD212_REGISTER_BASE : Z := 0x004FFFE0.

Definition REG_CSR2W : Z := 0x00.
Definition REG_DCR2 : Z := 0x02.
Definition REG_VSR2 : Z := 0x04.
Definition REG_DDR2 : Z := 0x08.
Definition REG_DCP2 : Z := 0x0A.
Definition REG_CSR1W : Z := 0x10.
Definition REG_DCR1 : Z := 0x12.
Definition REG_VSR1 : Z := 0x14.
Definition REG_DDR1 : Z := 0x18.
Definition REG_DCP1 : Z := 0x1A.

Definition DCR_DISPLAY_ENABLE : Z := 0x8000.
Definition DCR_CLOCK_FORMAT : Z := 0x4000.
Definition DCR_FRAME_DURATION : Z := 0x2000.
Definition DCR_SCAN_MODE : Z := 0x1000.
Definition DCR_COLOR_MODE : Z := 0x0800.
Definition DCR_ICA_ENABLE : Z := 0x0200.
Definition STATUS_DISPLAY_ACTIVE : Z := 0x80.
Definition STATUS_PARITY : Z := 0x20.

Record Mcd212 := mkMcd {
  write_registers : list Z;  (* uint16_t[32], by byte offset *)
  display_status : Z;
  interrupt_status : Z;
  line_phase_ns : double;
  raster_line : Z;
  image_line : Z;  (* uint16_t *)
}.
Definition mcd_fields :=
  (tt, write_registers, display_status, interrupt_status, line_phase_ns, raster_line,
   image_line).
Ltac mcd_set d f v := setter mkMcd d f v mcd_fields.
Definition set_write_registers (v : list Z) (d : Mcd212) : Mcd212 := ltac:(mcd_set d write_registers v).
Definition set_display_status (v : Z) (d : Mcd212) : Mcd212 := ltac:(mcd_set d display_status v).
Definition set_interrupt_status (v : Z) (d : Mcd212) : Mcd212 := ltac:(mcd_set d interrupt_status v).
Definition set_line_phase_ns (v : double) (d : Mcd212) : Mcd212 := ltac:(mcd_set d line_phase_ns v).
Definition set_raster_line (v : Z) (d : Mcd212) : Mcd212 := ltac:(mcd_set d raster_line v).
Definition set_image_line (v : Z) (d : Mcd212) : Mcd212 := ltac:(mcd_set d image_line v).

Definition mcd_reset : Mcd212 := mkMcd (replicate 32 0) 0 0 dzero 0 0.

(** The plane 0 or 1 a register belongs to. *)
Definition plane_dcr (plane : Z) : Z := if z2b plane then REG_DCR2 else REG_DCR1.
Definition plane_vsr (plane : Z) : Z := if z2b plane then REG_VSR2 else REG_VSR1.
Definition plane_ddr (plane : Z) : Z := if z2b plane then REG_DDR2 else REG_DDR1.
Definition plane_dcp (plane : Z) : Z := if z2b plane then REG_DCP2 else REG_DCP1.

Definition reg (d : Mcd212) (offset : Z) : Z := lget (write_registers d) offset.
Definition set_reg (offset value : Z) (d : Mcd212) : Mcd212 :=
  set_write_registers (lset (write_registers d) offset value) d.

(** * Geometry *)
Definition dcr1_bit (d : Mcd212) (bit : Z) : bool := z2b (Z.land (reg d REG_DCR1) bit).
Definition ntsc_duration (d : Mcd212) : bool := dcr1_bit d DCR_FRAME_DURATION.
Definition interlaced (d : Mcd212) : bool := dcr1_bit d DCR_SCAN_MODE.
Definition total_raster_lines (d : Mcd212) : Z := if ntsc_duration d then 262 else 312.
Definition blanking_lines (d : Mcd212) : Z :=
  if ntsc_duration d then 22 else if z2b (Z.land (reg d REG_CSR1W) 0x0002) then 72 else 32.

(** An integer as a double. *)
Definition dof_Z (n : Z) : double := binary_normalize 53 1024 n 0 false.
Definition raster_line_period_ns (d : Mcd212) : double :=
  if dcr1_bit d DCR_CLOCK_FORMAT then dof_Z 63560 else dof_Z 64000.

Definition narrow (d : Mcd212) : bool :=
  negb (dcr1_bit d DCR_CLOCK_FORMAT) && negb (z2b (Z.land (reg d REG_CSR1W) 0x0002)).
Definition raster_width (d : Mcd212) : Z := if narrow d then 360 else 384.
Definition raster_height (d : Mcd212) : Z :=
  if ntsc_duration d then 240 else if narrow d then 240 else 280.

(** * Pointers *)
Definition read_pointer (upper_register lower_register : Z) (d : Mcd212) : Z :=
  Z.lor (Z.shiftl (Z.land (reg d upper_register) 0x003F) 16) (reg d lower_register).
Definition video_start (plane : Z) (d : Mcd212) : Z := read_pointer (plane_dcr plane) (plane_vsr plane) d.
Definition dynamic_control_pointer (plane : Z) (d : Mcd212) : Z :=
  read_pointer (plane_ddr plane) (plane_dcp plane) d.

Definition set_video_start (plane address : Z) (d : Mcd212) : Mcd212 :=
  let control := plane_dcr plane in
  let preserved := u16 (Z.land (reg d control) (if z2b plane then 0x0B00 else 0xFB00)) in
  let d := set_reg control (u16 (Z.lor preserved (Z.land (Z.shiftr address 16) 0x3F))) d in
  set_reg (plane_vsr plane) (u16 address) d.

Definition set_dynamic_control_pointer (plane address : Z) (d : Mcd212) : Mcd212 :=
  let descriptor := plane_ddr plane in
  let d := set_reg descriptor (u16 (Z.lor (Z.land (reg d descriptor) 0x0F00)
                                          (Z.land (Z.shiftr address 16) 0x3F))) d in
  set_reg (plane_dcp plane) (u16 address) d.

(** * The pixel pipeline *)
Class VideoOps (V : Type) : Type := {
  video_reset : V -> V;
  video_control : Z -> Z -> V -> V;  (* plane, instruction *)
  video_begin_frame : Z -> Z -> bool -> V -> V;
  (* the two banks, addresses, line, source widths; bytes consumed *)
  video_draw_line : mem -> mem -> Z -> Z -> Z -> Z -> Z -> V -> (Z * Z) * V;
  video_end_frame : V -> V;
}.

Section Scan.
Context {V : Type} `{VideoOps V}.

Record ScanWorld := mkScan {
  vdsc : Mcd212;
  sc_ram0 : mem;
  sc_ram1 : mem;
  sc_irq : IrqState;
  sc_lir : Z;  (* periph_lir() *)
  sc_video : V;
  g_frame_count : Z;
  sc_schedule : InputSchedule;
  sc_input : InputState;
}.

Definition on_vdsc (f : Mcd212 -> Mcd212) (w : ScanWorld) : ScanWorld :=
  mkScan (f (vdsc w)) (sc_ram0 w) (sc_ram1 w) (sc_irq w) (sc_lir w) (sc_video w)
    (g_frame_count w) (sc_schedule w) (sc_input w).
Definition on_sc_irq (f : IrqState -> IrqState) (w : ScanWorld) : ScanWorld :=
  mkScan (vdsc w) (sc_ram0 w) (sc_ram1 w) (f (sc_irq w)) (sc_lir w) (sc_video w)
    (g_frame_count w) (sc_schedule w) (sc_input w).
Definition on_video (f : V -> V) (w : ScanWorld) : ScanWorld :=
  mkScan (vdsc w) (sc_ram0 w) (sc_ram1 w) (sc_irq w) (sc_lir w) (f (sc_video w))
    (g_frame_count w) (sc_schedule w) (sc_input w).

(** A fetch outside the two banks is the fail-loud [abort]. *)
Definition read_dram_byte (address : Z) : Mach ScanWorld Z := fun w =>
  if address <? CDI_RAM0_SIZE then (Ok (mget (sc_ram0 w) address), w)
  else if (CDI_RAM1_BASE <=? address) && (address - CDI_RAM1_BASE <? CDI_RAM1_SIZE)
  then (Ok (mget (sc_ram1 w) (address - CDI_RAM1_BASE)), w)
  else (Exn EAbort, w).

Definition fetch_control_instruction (address : Z) : Mach ScanWorld Z :=
  a <-- read_dram_byte (u32 address);;
  b <-- read_dram_byte (u32 (address + 1));;
  c <-- read_dram_byte (u32 (address + 2));;
  d <-- read_dram_byte (u32 (address + 3));;
  ret (Z.lor (Z.shiftl (Z.lor (Z.shiftl (Z.lor (Z.shiftl a 8) b) 8) c) 8) d).

(** * Control programs *)
Definition signal_control_interrupt (plane : Z) (w : ScanWorld) : ScanWorld :=
  let flag := if z2b plane then 0x02 else 0x04 in
  let control := reg (vdsc w) (if z2b plane then REG_CSR2W else REG_CSR1W) in
  let w := on_vdsc (fun d =>
    set_interrupt_status
      (Z.lor (Z.land (interrupt_status d) (if z2b plane then 0x05 else 0x03)) flag) d) w in
  if negb (z2b (Z.land control 0x8000)) then on_sc_irq (cdi_irq_raise_onchip 1 (sc_lir w)) w else w.

Definition apply_display_parameters (plane instruction : Z) (d : Mcd212) : Mcd212 :=
  let control := plane_dcr plane in
  let descriptor := plane_ddr plane in
  let color_mode := Z.land (Z.shiftr instruction 4) 1 in
  let mosaic_factor := Z.land (Z.shiftr instruction 2) 3 in
  let file_type := Z.land instruction 3 in
  let control_mask := if z2b plane then 0x033F else 0xF33F in
  let d := set_reg control (u16 (Z.lor (Z.land (reg d control) control_mask) (Z.shiftl color_mode 11))) d in
  set_reg descriptor (u16 (Z.lor (Z.lor (Z.land (reg d descriptor) 0x003F) (Z.shiftl mosaic_factor 10))
                             (Z.shiftl file_type 8))) d.

Inductive ControlResult := CONTROL_CONTINUE | CONTROL_STOP.

(** The result, the stream address after the instruction, and the state. *)
Definition execute_flow_command (plane instruction stream_address : Z) (initial_area : bool)
    (w : ScanWorld) : ControlResult * Z * ScanWorld :=
  let opcode := Z.shiftr instruction 28 in
  let aligned_pointer := Z.land instruction 0x003FFFFC in
  let byte_pointer := Z.land instruction 0x003FFFFF in
  if opcode =? 0 then (CONTROL_STOP, stream_address, w)
  else
    let '(stream_address, w) :=
      if (opcode =? 2) || (opcode =? 3)
      then (stream_address, on_vdsc (set_dynamic_control_pointer plane aligned_pointer) w)
      else if opcode =? 4 then
        if initial_area then (byte_pointer, w)
        else (stream_address, on_vdsc (set_video_start plane byte_pointer) w)
      else if opcode =? 5 then (stream_address, on_vdsc (set_video_start plane byte_pointer) w)
      else if opcode =? 6 then (stream_address, signal_control_interrupt plane w)
      else if (opcode =? 7) && (Z.shiftr instruction 24 =? 0x78)
      then (stream_address, on_vdsc (apply_display_parameters plane instruction) w)
      else (stream_address, w) in
    (if (opcode =? 3) || (opcode =? 5) then CONTROL_STOP else CONTROL_CONTINUE, stream_address, w).

Fixpoint initial_loop (plane : Z) (limit : nat) (cursor : Z) : Mach ScanWorld unit :=
  match limit with
  | O => ret tt
  | S limit' =>
    instruction <-- fetch_control_instruction cursor;;
    result <-- (fun w =>
      let '(r, cursor, w) := execute_flow_command plane instruction (u32 (cursor + 4)) true w in
      (Ok (r, cursor), w));;
    match fst result with
    | CONTROL_STOP => ret tt
    | CONTROL_CONTINUE =>
      modify (on_video (video_control plane instruction));;;
      initial_loop plane limit' (snd result)
    end
  end.

Definition run_initial_control_area (plane : Z) : Mach ScanWorld unit :=
  d <-- gets vdsc;;
  let words_per_blanking_line := if dcr1_bit d DCR_CLOCK_FORMAT then 120 else 112 in
  let limit := words_per_blanking_line * blanking_lines d in
  let cursor := if interlaced d && negb (z2b (Z.land (display_status d) STATUS_PARITY))
                then 0x404 else 0x400 in
  initial_loop plane (Z.to_nat limit) (if z2b plane then cursor + CDI_RAM1_BASE else cursor).

Fixpoint dynamic_loop (plane : Z) (limit : nat) : Mach ScanWorld unit :=
  match limit with
  | O => ret tt
  | S limit' =>
    cursor <-- gets (fun w => dynamic_control_pointer plane (vdsc w));;
    modify (on_vdsc (set_dynamic_control_pointer plane (u32 (cursor + 4))));;;
    instruction <-- fetch_control_instruction cursor;;
    result <-- (fun w =>
      let '(r, _, w) := execute_flow_command plane instruction cursor false w in (Ok r, w));;
    match result with
    | CONTROL_STOP => ret tt
    | CONTROL_CONTINUE =>
      modify (on_video (video_control plane instruction));;;
      dynamic_loop plane limit'
    end
  end.

Definition run_dynamic_control_area (plane : Z) : Mach ScanWorld unit :=
  d <-- gets vdsc;;
  dynamic_loop plane (if dcr1_bit d DCR_CLOCK_FORMAT then 16 else 8)%nat.

(** * The raster *)
Definition begin_active_line (w : ScanWorld) : ScanWorld :=
  let d := set_display_status (Z.lor (display_status (vdsc w)) STATUS_DISPLAY_ACTIVE) (vdsc w) in
  let d :=
    if negb (interlaced d) || z2b (Z.land (g_frame_count w) 1)
    then set_display_status (Z.lor (display_status d) STATUS_PARITY) d
    else
      let d := set_display_status (Z.land (display_status d) (u8 (Z.lnot STATUS_PARITY))) d in
      if image_line d =? 0 then set_image_line 1 d else d in
  on_vdsc (fun _ => d) w.

Definition source_width (width control : Z) : Z :=
  u16 (width * (if z2b (Z.land control DCR_COLOR_MODE) then 2 else 1)).

(** The pixels of one line; the pointers move past the bytes consumed. *)
Definition draw_pixels (w : ScanWorld) : ScanWorld :=
  let d := vdsc w in
  let width := raster_width d in
  let start_a := video_start 0 d in
  let start_b := video_start 1 d in
  let '((consumed_a, consumed_b), v) :=
    video_draw_line (sc_ram0 w) (sc_ram1 w) start_a start_b (image_line d)
      (source_width width (reg d REG_DCR1)) (source_width width (reg d REG_DCR2)) (sc_video w) in
  on_vdsc (fun d => set_video_start 1 (u32 (start_b + consumed_b)) (set_video_start 0 (u32 (start_a + consumed_a)) d))
    (on_video (fun _ => v) w).

Definition begin_frame (w : ScanWorld) : ScanWorld :=
  let d := vdsc w in
  if image_line d <=? 1
  then on_video (video_begin_frame (u16 (raster_width d)) (u16 (raster_height d)) (interlaced d)) w else w.

Definition draw_active_line : Mach ScanWorld unit :=
  modify begin_frame;;;
  d <-- gets vdsc;;
  if negb (dcr1_bit d DCR_DISPLAY_ENABLE) then ret tt else
  modify draw_pixels;;;
  d <-- gets vdsc;;
  when (Z.land (reg d REG_DCR1) 0x0300 =? 0x0300) (run_dynamic_control_area 0);;;
  d <-- gets vdsc;;
  when (Z.land (reg d REG_DCR2) 0x0300 =? 0x0300) (run_dynamic_control_area 1).

Definition finish_frame (w : ScanWorld) : ScanWorld :=
  let d := vdsc w in
  let d := set_display_status (Z.land (display_status d) (u8 (Z.lnot STATUS_DISPLAY_ACTIVE))) d in
  let d := set_image_line 0 (set_raster_line 0 d) in
  let frame := u64 (g_frame_count w + 1) in
  let '(schedule, input) := cdi_input_schedule_advance frame (sc_schedule w) (sc_input w) in
  mkScan d (sc_ram0 w) (sc_ram1 w) (sc_irq w) (sc_lir w) (video_end_frame (sc_video w)) frame schedule input.

Definition end_active_line (w : ScanWorld) : ScanWorld :=
  let d := vdsc w in
  let w := on_vdsc (set_image_line (u16 (image_line d + (if interlaced d then 2 else 1)))) w in
  if total_raster_lines (vdsc w) <=? raster_line (vdsc w) then finish_frame w else w.

Definition advance_one_raster_line : Mach ScanWorld unit :=
  modify (on_vdsc (fun d => set_raster_line (u32 (raster_line d + 1)) d));;;
  d <-- gets vdsc;;
  if raster_line d <=? blanking_lines d then
    when ((raster_line d =? 1) && dcr1_bit d DCR_DISPLAY_ENABLE)
      (when (dcr1_bit d DCR_ICA_ENABLE) (run_initial_control_area 0);;;
       d <-- gets vdsc;;
       when (z2b (Z.land (reg d REG_DCR2) DCR_ICA_ENABLE)) (run_initial_control_area 1))
  else
    modify begin_active_line;;;
    draw_active_line;;;
    modify end_active_line.

(** The line loop; [EUndefined] marks spent fuel. *)
Fixpoint raster_loop (fuel : nat) : Mach ScanWorld unit :=
  d <-- gets vdsc;;
  if dge (line_phase_ns d) (raster_line_period_ns d) then
    match fuel with
    | O => throw EUndefined
    | S fuel' =>
      modify (on_vdsc (fun d => set_line_phase_ns (dsub (line_phase_ns d) (raster_line_period_ns d)) d));;;
      advance_one_raster_line;;;
      raster_loop fuel'
    end
  else ret tt.

Definition add_line_phase (elapsed_ns : double) (w : ScanWorld) : ScanWorld :=
  on_vdsc (fun d => set_line_phase_ns (dadd (line_phase_ns d) elapsed_ns) d) w.

(** * The CPU's registers *)
Definition mcd212_read (address : Z) : Mach ScanWorld Z := fun w =>
  if (address =? 0x004FFFF0) || (address =? 0x004FFFF1) then (Ok (display_status (vdsc w)), w)
  else if (address =? 0x004FFFE0) || (address =? 0x004FFFE1)
  then (Ok (interrupt_status (vdsc w)), on_vdsc (set_interrupt_status 0) w)
  else (Exn EAbort, w).

Definition mcd212_write (address value : Z) (size : nat) : Mach ScanWorld unit := fun w =>
  let offset := u32 (address - MCD212_REGISTER_BASE) in
  if 32 <=? offset then (Exn EAbort, w)
  else if (2 <=? size)%nat then (Ok tt, on_vdsc (set_reg offset (u16 value)) w)
  else
    let old := reg (vdsc w) offset in
    if negb (z2b (Z.land address 1))
    then (Ok tt, on_vdsc (set_reg offset (u16 (Z.lor (Z.land old 0x00FF) (Z.shiftl (u8 value) 8)))) w)
    else (Ok tt, on_vdsc (set_reg offset (u16 (Z.lor (Z.land old 0xFF00) (u8 value)))) w).
End Scan.

Arguments ScanWorld : clear implicits.
