(* ===== verification/McdSpec.v ===== *)
(** What the scan engine guarantees: pointers that read back, control programs
    that cannot change the display mode, frames of a fixed number of lines, and
    a line loop that ends. *)

From Stdlib Require Import ZArith Lia Bool SpecFloat.
From stdpp Require Import base tactics numbers list gmap.
From S2P Require Import Prelude Double Irq Cpu Insn Alu Ea CpuOk Ram Input Slave Mcd212.
Open Scope Z_scope.
Open Scope mach_scope.

Definition is_plane (p : Z) : Prop := p = 0 \/ p = 1.

(** * Registers *)
Lemma mcd_reg_eq o v d : length (write_registers d) = 32%nat -> 0 <= o < 32 -> reg (set_reg o v d) o = v.
Proof. intros Hl Ho. unfold reg, set_reg. cbn. apply lget_lset_eq. lia. Qed.
Lemma mcd_reg_ne o o' v d : 0 <= o -> 0 <= o' -> o <> o' -> reg (set_reg o v d) o' = reg d o'.
Proof. intros. unfold reg, set_reg. cbn. by apply lget_lset_ne. Qed.
Lemma length_set_reg o v d : length (write_registers (set_reg o v d)) = length (write_registers d).
Proof. unfold set_reg. cbn. apply length_lset. Qed.

Lemma land_lor_low x y m n : Z.land y m = 0 -> Z.land (Z.lor (Z.land x n) y) m = Z.land (Z.land x n) m.
Proof. intros E. rewrite Z.land_lor_distr_l, E. apply Z.lor_0_r. Qed.

Lemma land_u16 x m : is_u16 m -> Z.land (u16 x) m = Z.land x m.
Proof.
  intros Hm. rewrite u16_land, <- Z.land_assoc. f_equal. rewrite Z.land_comm, <- u16_land. by apply u16_id.
Qed.

(** ** Pointers *)
Lemma planes_distinct p :
  is_plane p ->
  0 <= plane_dcr p < 32 /\ 0 <= plane_vsr p < 32 /\ 0 <= plane_ddr p < 32 /\ 0 <= plane_dcp p < 32 /\
  NoDup [plane_dcr p; plane_vsr p; plane_ddr p; plane_dcp p].
Proof.
  intros [-> | ->]; (split; [split; [discriminate|reflexivity]|]);
    (split; [split; [discriminate|reflexivity]|]); (split; [split; [discriminate|reflexivity]|]);
    (split; [split; [discriminate|reflexivity]|]); apply (bool_decide_unpack _); vm_compute; exact I.
Qed.

Lemma pointer_value address : 0 <= address ->
  Z.lor (Z.shiftl (Z.land (Z.shiftr address 16) 0x3F) 16) (u16 address) = address mod 2 ^ 22.
Proof.
  intros Ha. rewrite lor_shiftl_add by (lia || apply u16_range). rewrite (Z.land_ones _ 6) by lia.
  rewrite Z.shiftr_div_pow2 by lia. unfold u16. change (2 ^ 6) with 64. change (2 ^ 16) with 65536.
  change (2 ^ 22) with 4194304. zlia.
Qed.

Lemma high_part preserved hi :
  Z.land preserved 0x3F = 0 ->
  Z.land (u16 (Z.lor preserved (Z.land hi 0x3F))) 0x3F = Z.land hi 0x3F.
Proof.
  intros E. rewrite land_u16 by word. rewrite Z.land_lor_distr_l, E, Z.lor_0_l, <- Z.land_assoc.
  by rewrite Z.land_diag.
Qed.

Lemma land_mask_mask x m n : Z.land m n = 0 -> Z.land (Z.land x m) n = 0.
Proof. intros E. by rewrite <- Z.land_assoc, E, Z.land_0_r. Qed.

Lemma video_start_set p address d :
  is_plane p -> length (write_registers d) = 32%nat -> 0 <= address ->
  video_start p (set_video_start p address d) = address mod 2 ^ 22.
Proof.
  intros Hp Hl Ha. rewrite <- pointer_value by done. unfold video_start, read_pointer, set_video_start. cbv zeta.
  destruct (planes_distinct p Hp) as (H1 & H2 & _ & _ & Hnd).
  assert (plane_dcr p <> plane_vsr p) as Hne by (by destruct Hp as [-> | ->]).
  rewrite (mcd_reg_eq (plane_vsr p)) by (rewrite ?length_set_reg; done).
  rewrite (mcd_reg_ne (plane_vsr p)) by (congruence || lia). rewrite mcd_reg_eq by done.
  do 2 f_equal. apply high_part. rewrite land_u16 by word. apply land_mask_mask.
  by destruct Hp as [-> | ->].
Qed.

Lemma dynamic_pointer_set p address d :
  is_plane p -> length (write_registers d) = 32%nat -> 0 <= address ->
  dynamic_control_pointer p (set_dynamic_control_pointer p address d) = address mod 2 ^ 22.
Proof.
  intros Hp Hl Ha. rewrite <- pointer_value by done.
  unfold dynamic_control_pointer, read_pointer, set_dynamic_control_pointer. cbv zeta.
  destruct (planes_distinct p Hp) as (_ & _ & H1 & H2 & Hnd).
  assert (plane_ddr p <> plane_dcp p) as Hne by (by destruct Hp as [-> | ->]).
  rewrite (mcd_reg_eq (plane_dcp p)) by (rewrite ?length_set_reg; done).
  rewrite (mcd_reg_ne (plane_dcp p)) by (congruence || lia). rewrite mcd_reg_eq by done.
  do 2 f_equal. apply high_part. by apply land_mask_mask.
Qed.

(** * The display mode *)

(** Display enable, clock, frame duration and scan mode; and the CSR that
    selects the standard. *)
Definition mode_bits (d : Mcd212) : Z := Z.land (reg d REG_DCR1) 0xF000.

(** The ranges of the C fields. *)
Definition words_ok (d : Mcd212) : Prop :=
  Forall is_u16 (write_registers d) /\ is_u8 (display_status d) /\ is_u8 (interrupt_status d) /\
  is_u16 (image_line d).

(** A change of state that keeps the ranges, the mode and the raster position. *)
Record steady (d d' : Mcd212) : Prop := {
  st_length : length (write_registers d') = length (write_registers d);
  st_mode : mode_bits d' = mode_bits d;
  st_csr : reg d' REG_CSR1W = reg d REG_CSR1W;
  st_line : raster_line d' = raster_line d;
  st_phase : line_phase_ns d' = line_phase_ns d;
  st_words : words_ok d -> words_ok d';
}.

Lemma steady_refl d : steady d d.
Proof. by split. Qed.
Lemma steady_trans d1 d2 d3 : steady d1 d2 -> steady d2 d3 -> steady d1 d3.
Proof. intros [A1 A2 A3 A4 A5 A6] [B1 B2 B3 B4 B5 B6]. split; [congruence..|auto]. Qed.

Lemma words_set o v d : is_u16 v -> words_ok d -> words_ok (set_reg o v d).
Proof. intros Hv (H1 & H2). split; [by apply Forall_lset|done]. Qed.

Lemma steady_set o v d :
  is_u16 v -> 0 <= o -> o <> REG_DCR1 -> o <> REG_CSR1W -> steady d (set_reg o v d).
Proof.
  intros Hv H0 H1 H2. split; [apply length_set_reg| | |done|done|by apply words_set];
    unfold mode_bits; rewrite mcd_reg_ne; done || (unfold REG_DCR1, REG_CSR1W; lia).
Qed.
Lemma steady_set_dcr1 v d :
  is_u16 v -> length (write_registers d) = 32%nat -> Z.land v 0xF000 = mode_bits d ->
  steady d (set_reg REG_DCR1 v d).
Proof.
  intros Hw Hl Hv. split; [apply length_set_reg| | |done|done|by apply words_set].
  - unfold mode_bits. rewrite mcd_reg_eq; [done|done|unfold REG_DCR1; lia].
  - apply mcd_reg_ne; unfold REG_DCR1, REG_CSR1W; lia.
Qed.

(** The masks with which the engine rewrites DCR1 keep the mode. *)
Lemma mode_masked d mask y :
  Z.land mask 0xF000 = 0xF000 -> Z.land y 0xF000 = 0 ->
  Z.land (u16 (Z.lor (u16 (Z.land (reg d REG_DCR1) mask)) y)) 0xF000 = mode_bits d.
Proof.
  intros Hm Hy. rewrite land_u16 by word. rewrite Z.land_lor_distr_l, Hy, Z.lor_0_r, land_u16 by word.
  unfold mode_bits. by rewrite <- Z.land_assoc, Hm.
Qed.

Lemma steady_video_start p a d :
  is_plane p -> length (write_registers d) = 32%nat -> steady d (set_video_start p a d).
Proof.
  intros Hp Hl. unfold set_video_start. cbv zeta. eapply steady_trans.
  2: { apply steady_set; [word|by destruct Hp as [-> | ->]..]. }
  destruct Hp as [-> | ->]; [|by apply steady_set; [word|..]].
  apply steady_set_dcr1; [word|done|]. apply mode_masked; [done|by apply land_mask_mask].
Qed.

Lemma steady_dynamic_pointer p a d : is_plane p -> steady d (set_dynamic_control_pointer p a d).
Proof.
  intros Hp. unfold set_dynamic_control_pointer. cbv zeta.
  eapply steady_trans; [|apply steady_set; [word|by destruct Hp as [-> | ->]..]].
  apply steady_set; [word|by destruct Hp as [-> | ->]..].
Qed.

Lemma steady_parameters p i d :
  is_plane p -> length (write_registers d) = 32%nat -> steady d (apply_display_parameters p i d).
Proof.
  intros Hp Hl. unfold apply_display_parameters. cbv zeta. eapply steady_trans.
  2: { apply steady_set; [word|by destruct Hp as [-> | ->]..]. }
  destruct Hp as [-> | ->]; [|by apply steady_set; [word|..]].
  apply steady_set_dcr1; [word|done|]. cbn [z2b Z.eqb negb plane_dcr].
  change (if z2b 0 then 831 else 62271) with 0xF33F.
  rewrite land_u16 by word. rewrite Z.land_lor_distr_l.
  assert (Z.land (Z.shiftl (Z.land (Z.shiftr i 4) 1) 11) 0xF000 = 0) as ->.
  { rewrite (Z.land_ones _ 1) by lia. assert (Z.shiftr i 4 mod 2 ^ 1 = 0 \/ Z.shiftr i 4 mod 2 ^ 1 = 1) as [-> | ->]
      by (change (2 ^ 1) with 2; zlia); reflexivity. }
  rewrite Z.lor_0_r. unfold mode_bits. by rewrite <- Z.land_assoc.
Qed.

Section Scan.
Context {V : Type} `{VideoOps V}.
Implicit Types w : ScanWorld V.

(** Computations that keep the mode, the raster position and the frame count,
    and fail only by the fail-loud abort. *)
Record scan_steady w w' : Prop := {
  ss_vdsc : steady (vdsc w) (vdsc w');
  ss_frame : g_frame_count w' = g_frame_count w;
}.
Definition steady_run {A} (m : Mach (ScanWorld V) A) : Prop :=
  forall w, length (write_registers (vdsc w)) = 32%nat ->
    scan_steady w (snd (m w)) /\ match fst (m w) with Ok _ => True | Exn e => e = EAbort end.

Lemma scan_steady_refl w : scan_steady w w.
Proof. split; [apply steady_refl|done]. Qed.

Lemma steady_ret {A} (a : A) : steady_run (ret a).
Proof. intros w Hw. split; [apply scan_steady_refl|done]. Qed.
Lemma steady_bind {A B} (m : Mach (ScanWorld V) A) (k : A -> Mach (ScanWorld V) B) :
  steady_run m -> (forall a, steady_run (k a)) -> steady_run (bind m k).
Proof.
  intros Hm Hk w Hw. specialize (Hm w Hw). unfold bind. destruct (m w) as [[a|e] w1]; cbn [fst snd] in *; [|done].
  destruct Hm as [[Hs Hf] _].
  destruct (Hk a w1) as [[Hs' Hf'] He]; [by rewrite (st_length _ _ Hs)|].
  split; [|done]. split; [by eapply steady_trans|by rewrite Hf'].
Qed.
Lemma steady_gets {A} (f : ScanWorld V -> A) : steady_run (gets f).
Proof. intros w Hw. split; [apply scan_steady_refl|done]. Qed.
Lemma steady_modify (f : ScanWorld V -> ScanWorld V) :
  (forall w, length (write_registers (vdsc w)) = 32%nat -> scan_steady w (f w)) -> steady_run (modify f).
Proof. intros Hf w Hw. split; [by apply Hf|done]. Qed.
Lemma steady_when b (m : Mach (ScanWorld V) unit) : steady_run m -> steady_run (when b m).
Proof. intros Hm. unfold when. destruct b; [done|apply steady_ret]. Qed.

Lemma steady_on_vdsc (f : Mcd212 -> Mcd212) w : steady (vdsc w) (f (vdsc w)) -> scan_steady w (on_vdsc f w).
Proof. by split. Qed.
Lemma steady_on_video (f : V -> V) w : scan_steady w (on_video f w).
Proof. split; [apply steady_refl|done]. Qed.

Lemma dram_steady a : steady_run (read_dram_byte a).
Proof.
  intros w Hw. unfold read_dram_byte. destruct (_ <? _); [split; [apply scan_steady_refl|done]|].
  destruct (_ && _); (split; [apply scan_steady_refl|done]).
Qed.
Lemma fetch_steady a : steady_run (fetch_control_instruction a).
Proof. unfold fetch_control_instruction. repeat (apply steady_bind; [apply dram_steady|intros ?]). apply steady_ret. Qed.

Lemma flow_steady p i stream init w :
  is_plane p -> length (write_registers (vdsc w)) = 32%nat ->
  scan_steady w (snd (execute_flow_command p i stream init w)).
Proof.
  intros Hp Hl. unfold execute_flow_command. cbv zeta. destruct (_ =? 0); [apply scan_steady_refl|].
  destruct (_ || _); [apply steady_on_vdsc; by apply steady_dynamic_pointer|].
  destruct (_ =? 4).
  { destruct init; [apply scan_steady_refl|]. apply steady_on_vdsc. by apply steady_video_start. }
  destruct (_ =? 5); [apply steady_on_vdsc; by apply steady_video_start|].
  destruct (_ =? 6).
  { cbn [snd]. unfold signal_control_interrupt. cbv zeta.
    match goal with |- context [on_vdsc ?f w] => assert (scan_steady w (on_vdsc f w)) as Hs end.
    { apply steady_on_vdsc. split; [done..|]. intros (H1 & H2 & H3 & H4).
      split; [done|]. split; [done|]. split; [|done]. unfold set_interrupt_status. cbn [interrupt_status].
      destruct (z2b p); word. }
    destruct (negb _); [|done]. destruct Hs as [Hs Hf]. by split. }
  destruct (_ && _); [apply steady_on_vdsc; by apply steady_parameters|apply scan_steady_refl].
Qed.

Lemma initial_loop_steady p n cursor : is_plane p -> steady_run (initial_loop p n cursor).
Proof.
  intros Hp. revert cursor. induction n as [|n IH]; intros cursor; cbn [initial_loop]; [apply steady_ret|].
  apply steady_bind; [apply fetch_steady|intros i]. apply steady_bind.
  - intros w Hw. pose proof (flow_steady p i (u32 (cursor + 4)) true w Hp Hw) as Hs.
    destruct (execute_flow_command p i (u32 (cursor + 4)) true w) as [[r c'] w']. by split.
  - intros [r c']. cbn [fst snd]. destruct r; [|apply steady_ret].
    apply steady_bind; [apply steady_modify; intros; apply steady_on_video|intros _; apply IH].
Qed.

Lemma initial_area_steady p : is_plane p -> steady_run (run_initial_control_area p).
Proof.
  intros Hp. unfold run_initial_control_area. apply steady_bind; [apply steady_gets|intros d].
  by apply initial_loop_steady.
Qed.

Lemma dynamic_loop_steady p n : is_plane p -> steady_run (dynamic_loop p n).
Proof.
  intros Hp. induction n as [|n IH]; cbn [dynamic_loop]; [apply steady_ret|].
  apply steady_bind; [apply steady_gets|intros cursor].
  apply steady_bind; [apply steady_modify; intros; apply steady_on_vdsc; by apply steady_dynamic_pointer|intros _].
  apply steady_bind; [apply fetch_steady|intros i]. apply steady_bind.
  - intros w Hw. pose proof (flow_steady p i cursor false w Hp Hw) as Hs.
    destruct (execute_flow_command p i cursor false w) as [[r c'] w']. by split.
  - intros [|]; [|apply steady_ret].
    apply steady_bind; [apply steady_modify; intros; apply steady_on_video|intros _; apply IH].
Qed.

Lemma begin_line_steady w : scan_steady w (begin_active_line w).
Proof.
  unfold begin_active_line. cbv zeta. apply steady_on_vdsc.
  destruct (_ || _); [|destruct (_ =? 0)]; (split; [done..|]); intros (H1 & H2 & H3 & H4);
    (split; [done|]); (split; [|split; [done|]]); unfold set_display_status, set_image_line,
      STATUS_DISPLAY_ACTIVE, STATUS_PARITY;
    cbn [display_status image_line]; done || word.
Qed.

Lemma plane0 : is_plane 0.
Proof. by left. Qed.
Lemma plane1 : is_plane 1.
Proof. by right. Qed.

Lemma draw_pixels_steady w : length (write_registers (vdsc w)) = 32%nat -> scan_steady w (draw_pixels w).
Proof.
  intros Hw. unfold draw_pixels. cbv zeta. destruct (video_draw_line _ _ _ _ _ _ _ _) as [[ca cb] v].
  split; [|done]. cbn [vdsc on_vdsc on_video]. eapply steady_trans; [by apply (steady_video_start 0); [apply plane0|]|].
  apply steady_video_start; [apply plane1|].
  by rewrite (st_length _ _ (steady_video_start 0 (u32 (video_start 0 (vdsc w) + ca)) _ plane0 Hw)).
Qed.

Lemma draw_line_steady : steady_run draw_active_line.
Proof.
  unfold draw_active_line. apply steady_bind.
  { apply steady_modify. intros w Hw. unfold begin_frame. cbv zeta.
    destruct (_ <=? _); [apply steady_on_video|apply scan_steady_refl]. }
  intros _. apply steady_bind; [apply steady_gets|intros d]. destruct (negb _); [apply steady_ret|].
  apply steady_bind; [apply steady_modify, draw_pixels_steady|intros _].
  apply steady_bind; [apply steady_gets|intros d1].
  assert (forall p, is_plane p -> steady_run (run_dynamic_control_area p)) as Hdyn.
  { intros p Hp. unfold run_dynamic_control_area. apply steady_bind; [apply steady_gets|intros d'].
    by apply dynamic_loop_steady. }
  apply steady_bind; [apply steady_when, Hdyn, plane0|intros _].
  apply steady_bind; [apply steady_gets|intros d2]. apply steady_when, Hdyn, plane1.
Qed.

(** ** One line *)
Lemma mode_dcr1_bit d d' bit : mode_bits d' = mode_bits d -> Z.land bit 0xF000 = bit -> dcr1_bit d' bit = dcr1_bit d bit.
Proof.
  intros E Hb. unfold dcr1_bit. f_equal.
  assert (forall d, Z.land (reg d REG_DCR1) bit = Z.land (mode_bits d) bit) as Hm.
  { intros d0. unfold mode_bits. rewrite <- Z.land_assoc. f_equal. by rewrite Z.land_comm, Hb. }
  by rewrite !Hm, E.
Qed.

Lemma steady_geometry d d' :
  steady d d' -> total_raster_lines d' = total_raster_lines d /\ blanking_lines d' = blanking_lines d /\
  dcr1_bit d' DCR_DISPLAY_ENABLE = dcr1_bit d DCR_DISPLAY_ENABLE /\
  raster_line_period_ns d' = raster_line_period_ns d.
Proof.
  intros [_ Em Ec _ _]. unfold total_raster_lines, blanking_lines, ntsc_duration, raster_line_period_ns.
  rewrite Ec. by rewrite !(mode_dcr1_bit d d') by done.
Qed.

Lemma geometry_range d : 262 <= total_raster_lines d <= 312 /\ 22 <= blanking_lines d <= 72.
Proof.
  unfold total_raster_lines, blanking_lines. destruct (ntsc_duration d); [lia|]. destruct (z2b _); lia.
Qed.

Lemma words_image d v : words_ok d -> words_ok (set_image_line (u16 v) d).
Proof. intros (H1 & H2 & H3 & H4). split; [done|]. split; [done|]. split; [done|]. apply u16_range. Qed.
Lemma words_finish d :
  words_ok d ->
  words_ok (set_image_line 0 (set_raster_line 0
    (set_display_status (Z.land (display_status d) (u8 (Z.lnot STATUS_DISPLAY_ACTIVE))) d))).
Proof.
  intros (H1 & H2 & H3 & H4). split; [done|]. split; [|split; [done|by split]].
  apply (land_word_l 8 (display_status d)); [done|lia].
Qed.

(** A line either moves the raster on by one, wrapping at the end of the frame,
    or aborts in a control program outside DRAM. *)
Lemma advance_line_spec w :
  length (write_registers (vdsc w)) = 32%nat -> 0 <= raster_line (vdsc w) < 0xFFFFFFFF ->
  match advance_one_raster_line w with
  | (Ok _, w') =>
    length (write_registers (vdsc w')) = 32%nat /\ (words_ok (vdsc w) -> words_ok (vdsc w')) /\
    mode_bits (vdsc w') = mode_bits (vdsc w) /\
    reg (vdsc w') REG_CSR1W = reg (vdsc w) REG_CSR1W /\ line_phase_ns (vdsc w') = line_phase_ns (vdsc w) /\
    if total_raster_lines (vdsc w) <=? raster_line (vdsc w) + 1
    then raster_line (vdsc w') = 0 /\ g_frame_count w' = u64 (g_frame_count w + 1)
    else raster_line (vdsc w') = raster_line (vdsc w) + 1 /\ g_frame_count w' = g_frame_count w
  | (Exn e, w') => e = EAbort /\ dcr1_bit (vdsc w) DCR_DISPLAY_ENABLE = true
  end.
Proof.
  intros Hl Hr. pose proof (geometry_range (vdsc w)) as Hg. unfold advance_one_raster_line.
  rewrite (run_bind _ _ _ _ _ (run_modify _ w)).
  set (w1 := on_vdsc _ w).
  assert (raster_line (vdsc w1) = raster_line (vdsc w) + 1) as Er by (apply u32_id; unfold is_word; lia).
  assert (length (write_registers (vdsc w1)) = 32%nat) as Hl1 by done.
  assert (mode_bits (vdsc w1) = mode_bits (vdsc w) /\ reg (vdsc w1) REG_CSR1W = reg (vdsc w) REG_CSR1W /\
    line_phase_ns (vdsc w1) = line_phase_ns (vdsc w) /\ g_frame_count w1 = g_frame_count w /\
    total_raster_lines (vdsc w1) = total_raster_lines (vdsc w) /\
    blanking_lines (vdsc w1) = blanking_lines (vdsc w) /\
    dcr1_bit (vdsc w1) DCR_DISPLAY_ENABLE = dcr1_bit (vdsc w) DCR_DISPLAY_ENABLE)
    as (Em & Ec & Eph & Ef & Et & Eb & Ed) by done.
  assert (words_ok (vdsc w) -> words_ok (vdsc w1)) as Hw1 by done.
  rewrite <- Em, <- Ec, <- Eph, <- Ef, <- Et, <- Ed, <- Er. rewrite <- Eb, <- Et in Hg.
  clearbody w1. clear Em Ec Eph Ef Et Eb Ed.
  rewrite (run_bind _ _ _ _ _ (run_gets vdsc w1)).
  destruct (Z.leb_spec (raster_line (vdsc w1)) (blanking_lines (vdsc w1))) as [Hb|Hb].
  - destruct (Z.leb_spec (total_raster_lines (vdsc w1)) (raster_line (vdsc w1))); [lia|].
    assert (forall p b, is_plane p -> steady_run (when b (run_initial_control_area p))) as Hi
      by (intros; by apply steady_when, initial_area_steady).
    match goal with |- context [when ?b ?m w1] => assert (steady_run m) as Hm end.
    { apply steady_bind; [apply Hi, plane0|intros _]. apply steady_bind; [apply steady_gets|intros d].
      apply Hi, plane1. }
    unfold when at 1. destruct (_ && _) eqn:Hc; [|by split_and!].
    apply andb_true_iff in Hc as [_ Hd]. destruct (Hm w1 Hl1) as [[Hs Hf] He].
    match type of Hs with steady _ (vdsc (snd (?m w1))) => destruct (m w1) as [[?|e] w2] end;
      cbn [fst snd] in *; [|by subst].
    destruct Hs as [S1 S2 S3 S4 S5 S6]. rewrite S1. split_and!; auto.
  - rewrite (run_bind _ _ _ _ _ (run_modify _ w1)). set (w2 := begin_active_line w1).
    destruct (begin_line_steady w1) as [Hs2 Hf2]. fold w2 in Hs2, Hf2.
    assert (length (write_registers (vdsc w2)) = 32%nat) as Hl2 by (by rewrite (st_length _ _ Hs2)).
    pose proof (steady_geometry _ _ Hs2) as (Et2 & _ & Ed2 & _). clearbody w2.
    destruct (draw_line_steady w2 Hl2) as [[Hs3 Hf3] He].
    assert (dcr1_bit (vdsc w2) DCR_DISPLAY_ENABLE = false -> exists w3, draw_active_line w2 = (Ok tt, w3)) as Hoff.
    { intros Hd. unfold draw_active_line. rewrite (run_bind _ _ _ _ _ (run_modify _ w2)).
      rewrite (run_bind _ _ _ _ _ (run_gets vdsc (begin_frame w2))).
      assert (vdsc (begin_frame w2) = vdsc w2) as -> by (unfold begin_frame; cbv zeta; by destruct (_ <=? _)).
      rewrite Hd. by eexists. }
    unfold bind at 1. destruct (draw_active_line w2) as [[[]|e] w3]; cbn [fst snd] in *.
    + pose proof (steady_geometry _ _ Hs3) as (Et3 & _ & _ & _).
      rewrite run_modify. unfold end_active_line. cbv zeta. set (w4 := on_vdsc _ w3).
      assert (total_raster_lines (vdsc w4) = total_raster_lines (vdsc w1) /\
        raster_line (vdsc w4) = raster_line (vdsc w1)) as [-> ->].
      { split; [exact (eq_trans Et3 Et2)|]. exact (eq_trans (st_line _ _ Hs3) (st_line _ _ Hs2)). }
      destruct Hs2 as [A1 A2 A3 A4 A5 A6], Hs3 as [B1 B2 B3 B4 B5 B6].
      assert (steady (vdsc w1) (vdsc w4)) as [C1 C2 C3 C4 C5 C6]
        by (split; [exact (eq_trans B1 A1)|exact (eq_trans B2 A2)|exact (eq_trans B3 A3)|
                    exact (eq_trans B4 A4)|exact (eq_trans B5 A5)|intros Hw; by apply words_image, B6, A6]).
      assert (g_frame_count w4 = g_frame_count w1) as Ef4 by exact (eq_trans Hf3 Hf2). clearbody w4.
      destruct (_ <=? _).
      * unfold finish_frame. cbv zeta. destruct (cdi_input_schedule_advance _ _ _) as [q i].
        cbn [vdsc g_frame_count]. rewrite Ef4. split; [exact (eq_trans C1 Hl1)|].
        split; [intros Hw; by apply words_finish, C6, Hw1|]. split; [exact C2|]. split; [exact C3|]. split; [exact C5|]. done.
      * rewrite C1. split_and!; auto.
    + split; [done|]. rewrite <- Ed2. destruct (dcr1_bit (vdsc w2) DCR_DISPLAY_ENABLE); [done|].
      destruct (Hoff eq_refl) as [? ?]. done.
Qed.

(** ** The line loop *)

(** The line period is a multiple of 2^3 ns, so no bit of the phase is lost
    while its last place is at most that: a phase below 2^56 ns, two years. *)
Lemma period_form d :
  exists k b, raster_line_period_ns d = S754_finite false k (-37) /\ normal k (-37) /\
    0 < b /\ Zpos k = b * 2 ^ (3 - (-37)).
Proof.
  unfold raster_line_period_ns. destruct (dcr1_bit d DCR_CLOCK_FORMAT).
  - exists (63560 * 2 ^ 37)%positive, 7945. split; [by vm_compute|]. split; [|done]. split; [|lia]. split; [|done].
    by apply Z.leb_le.
  - exists (64000 * 2 ^ 37)%positive, 8000. split; [by vm_compute|]. split; [|done]. split; [|lia]. split; [|done].
    by apply Z.leb_le.
Qed.

Lemma period_positive d : 0 < dval (raster_line_period_ns d).
Proof.
  destruct (period_form d) as (k & b & -> & _). cbn [dval]. apply Z.mul_pos_pos; [lia|].
  apply Z.pow_pos_nonneg; lia.
Qed.
Lemma line_due d x :
  phase_below 3 x -> dge x (raster_line_period_ns d) = (dval (raster_line_period_ns d) <=? dval x).
Proof.
  intros Hx. destruct (period_form d) as (k & b & -> & Hn & Hb & Hk).
  by apply (dge_period k (-37) 3 b); [|lia..| |].
Qed.
Lemma line_carry d x :
  phase_below 3 x -> dge x (raster_line_period_ns d) = true ->
  phase_below 3 (dsub x (raster_line_period_ns d)) /\
  dval (dsub x (raster_line_period_ns d)) = dval x - dval (raster_line_period_ns d).
Proof.
  intros Hx Hge. destruct (period_form d) as (k & b & E & Hn & Hb & Hk). rewrite E in *.
  by apply (carry_period k (-37) 3 b); [|lia..| | |].
Qed.

Lemma mode_geometry d d' :
  mode_bits d' = mode_bits d -> reg d' REG_CSR1W = reg d REG_CSR1W ->
  total_raster_lines d' = total_raster_lines d /\ raster_line_period_ns d' = raster_line_period_ns d /\
  dcr1_bit d' DCR_DISPLAY_ENABLE = dcr1_bit d DCR_DISPLAY_ENABLE.
Proof.
  intros Em Ec. unfold total_raster_lines, ntsc_duration, raster_line_period_ns.
  by rewrite !(mode_dcr1_bit d d') by done.
Qed.

Lemma wrap_step r n T f r' f' :
  0 <= r < T -> 0 <= f < 2 ^ 64 -> 0 <= n ->
  (if T <=? r + 1 then r' = 0 /\ f' = u64 (f + 1) else r' = r + 1 /\ f' = f) ->
  0 <= r' < T /\ 0 <= f' < 2 ^ 64 /\ (r' + n) mod T = (r + (n + 1)) mod T /\
  u64 (f' + (r' + n) / T) = u64 (f + (r + (n + 1)) / T).
Proof.
  intros Hr Hf Hn. destruct (Z.leb_spec T (r + 1)) as [Hle|Hlt]; intros [-> ->].
  - replace (r + (n + 1)) with (0 + n + 1 * T) by lia.
    rewrite Z.mod_add, Z.div_add by lia. split; [lia|]. split; [apply u64_range|]. split; [done|].
    unfold u64. rewrite Z.add_mod_idemp_l by lia. f_equal. lia.
  - replace (r + 1 + n) with (r + (n + 1)) by lia. split; [lia|]. done.
Qed.

Lemma raster_loop_spec fuel w :
  length (write_registers (vdsc w)) = 32%nat -> phase_below 3 (line_phase_ns (vdsc w)) ->
  0 <= raster_line (vdsc w) < total_raster_lines (vdsc w) -> 0 <= g_frame_count w < 2 ^ 64 ->
  let P := dval (raster_line_period_ns (vdsc w)) in
  let n := dval (line_phase_ns (vdsc w)) / P in
  n <= Z.of_nat fuel ->
  match raster_loop fuel w with
  | (Ok _, w') =>
    phase_below 3 (line_phase_ns (vdsc w')) /\
    dval (line_phase_ns (vdsc w')) = dval (line_phase_ns (vdsc w)) mod P /\
    raster_line (vdsc w') = (raster_line (vdsc w) + n) mod total_raster_lines (vdsc w) /\
    g_frame_count w' = u64 (g_frame_count w + (raster_line (vdsc w) + n) / total_raster_lines (vdsc w)) /\
    mode_bits (vdsc w') = mode_bits (vdsc w)
  | (Exn e, w') => e = EAbort /\ dcr1_bit (vdsc w) DCR_DISPLAY_ENABLE = true
  end.
Proof.
  revert w. induction fuel as [|fuel IH]; intros w Hl Hp Hr Hf P n Hn;
    cbn [raster_loop]; rewrite (run_bind _ _ _ _ _ (run_gets vdsc w)); rewrite line_due by done; fold P;
    pose proof (period_positive (vdsc w)) as HP; pose proof (dval_nonneg (line_phase_ns (vdsc w))) as Hv; fold P in HP.
  all: destruct (Z.leb_spec P (dval (line_phase_ns (vdsc w)))) as [Hle|Hlt].
  2, 4: assert (n = 0) as -> by (apply Z.div_small; lia);
    rewrite Z.add_0_r, Z.mod_small, (Z.mod_small (raster_line _)), (Z.div_small (raster_line _)), Z.add_0_r by lia;
    split; [done|]; split; [done|]; split; [done|]; split; [|done]; symmetry; by apply u64_id.
  { exfalso. pose proof (Z.div_le_lower_bound (dval (line_phase_ns (vdsc w))) P 1 HP). lia. }
  assert (dge (line_phase_ns (vdsc w)) (raster_line_period_ns (vdsc w)) = true) as Hdue
    by (rewrite line_due by done; by apply Z.leb_le).
  destruct (line_carry _ _ Hp Hdue) as [Hp' Hd]. fold P in Hd.
  rewrite (run_bind _ _ _ _ _ (run_modify _ w)). set (w1 := on_vdsc _ w).
  assert (line_phase_ns (vdsc w1) = dsub (line_phase_ns (vdsc w)) (raster_line_period_ns (vdsc w))) as E1 by done.
  assert (vdsc w1 = set_line_phase_ns (line_phase_ns (vdsc w1)) (vdsc w)) as Ev by done.
  assert (length (write_registers (vdsc w1)) = 32%nat /\ raster_line (vdsc w1) = raster_line (vdsc w) /\
    mode_bits (vdsc w1) = mode_bits (vdsc w) /\ reg (vdsc w1) REG_CSR1W = reg (vdsc w) REG_CSR1W /\
    g_frame_count w1 = g_frame_count w) as (Hl1 & Er1 & Em1 & Ec1 & Ef1) by done.
  rewrite <- E1 in Hp', Hd. clearbody w1.
  destruct (mode_geometry _ _ Em1 Ec1) as (Et1 & Epd1 & Ede1).
  pose proof (geometry_range (vdsc w)) as [HT _].
  pose proof (advance_line_spec w1 Hl1 ltac:(rewrite Er1; lia)) as Hadv. unfold bind at 1.
  destruct (advance_one_raster_line w1) as [[[]|e] w2]; [|by rewrite <- Ede1].
  destruct Hadv as (Hl2 & _ & Em2 & Ec2 & Ep2 & Hline).
  destruct (mode_geometry (vdsc w) (vdsc w2) ltac:(congruence) ltac:(congruence)) as (Et2 & Epd2 & Ede2).
  rewrite Et1, Er1, Ef1 in Hline.
  assert (n = (dval (line_phase_ns (vdsc w)) - P) / P + 1) as En.
  { subst n. replace (dval (line_phase_ns (vdsc w))) with ((dval (line_phase_ns (vdsc w)) - P) + 1 * P) at 1 by lia.
    by rewrite Z.div_add by lia. }
  set (n' := (dval (line_phase_ns (vdsc w)) - P) / P) in *.
  assert (0 <= n') as Hn' by (apply Z.div_pos; lia).
  destruct (wrap_step _ n' _ _ _ _ Hr Hf Hn' Hline) as (Hr2 & Hf2 & Eline & Eframe).
  rewrite <- En in Eline, Eframe.
  specialize (IH w2 Hl2). rewrite Et2, Ep2, Epd2, Hd, Ede2 in IH. fold P in IH. cbv zeta in IH. fold n' in IH.
  specialize (IH Hp' Hr2 Hf2 ltac:(lia)). rewrite Eline, Eframe in IH.
  destruct (raster_loop fuel w2) as [[[]|e] w3]; [|done].
  destruct IH as (I1 & I2 & I3 & I4 & I5). split; [done|]. split; [|split; [done|split; [done|congruence]]].
  rewrite I2. replace (dval (line_phase_ns (vdsc w))) with ((dval (line_phase_ns (vdsc w)) - P) + 1 * P) at 2 by lia.
  by rewrite Z.mod_add by lia.
Qed.
End Scan.

(** * The controller's state *)
Section Typing.
Context {V : Type} `{VideoOps V}.
Implicit Types w : ScanWorld V.

Definition mcd_ok (d : Mcd212) : Prop :=
  length (write_registers d) = 32%nat /\ words_ok d /\ 0 <= raster_line d < 312.

(** The controller's life: reset, the CPU's accesses, elapsed time, and
    whatever the rest of the board does to its own state. *)
Inductive scan_reach : ScanWorld V -> Prop :=
| reach_reset w : vdsc w = mcd_reset -> scan_reach w
| reach_environment w w' : scan_reach w -> vdsc w' = vdsc w -> scan_reach w'
| reach_read address v w w' :
    scan_reach w -> mcd212_read address w = (Ok v, w') -> scan_reach w'
| reach_write address value size w w' :
    scan_reach w -> mcd212_write address value size w = (Ok tt, w') -> scan_reach w'
| reach_time elapsed_ns fuel w w' :
    scan_reach w -> raster_loop fuel (add_line_phase elapsed_ns w) = (Ok tt, w') -> scan_reach w'.

Lemma mcd_ok_set o v d : is_u16 v -> mcd_ok d -> mcd_ok (set_reg o v d).
Proof.
  intros Hv (H1 & H2 & H3). split; [by rewrite length_set_reg|]. split; [by apply words_set|done].
Qed.

Lemma raster_loop_ok fuel w w' :
  mcd_ok (vdsc w) -> raster_loop fuel w = (Ok tt, w') -> mcd_ok (vdsc w').
Proof.
  revert w. induction fuel as [|fuel IH]; intros w Hw; cbn [raster_loop];
    rewrite (run_bind _ _ _ _ _ (run_gets vdsc w)); destruct (dge _ _); try done; try (by intros [= <-]).
  rewrite (run_bind _ _ _ _ _ (run_modify _ w)). set (w1 := on_vdsc _ w).
  assert (mcd_ok (vdsc w1)) as (Hl & Hw1 & Hr) by done. clearbody w1. clear Hw w.
  pose proof (advance_line_spec w1 Hl ltac:(lia)) as Hadv. unfold bind at 1.
  destruct (advance_one_raster_line w1) as [[[]|e] w2]; [|done].
  destruct Hadv as (Hl2 & Hw2 & _ & _ & _ & Hline). apply IH. split; [done|]. split; [auto|].
  pose proof (geometry_range (vdsc w1)) as [HT _].
  destruct (Z.leb_spec (total_raster_lines (vdsc w1)) (raster_line (vdsc w1) + 1)); destruct Hline as [-> _]; lia.
Qed.

Lemma read_ok address v w w' :
  mcd_ok (vdsc w) -> mcd212_read address w = (Ok v, w') -> mcd_ok (vdsc w') /\ is_u8 v.
Proof.
  intros Hw. pose proof Hw as (Hl & (H1 & H2 & H3 & H4) & Hr). unfold mcd212_read.
  destruct (_ || _); [by intros [= <- <-]|]. destruct (_ || _); [|done]. intros [= <- <-].
  split; [|done]. split; [done|]. split; [|done]. split; [done|]. split; [done|]. by split; [split|].
Qed.

Lemma write_ok address value size w w' :
  mcd_ok (vdsc w) -> mcd212_write address value size w = (Ok tt, w') -> mcd_ok (vdsc w').
Proof.
  intros Hw. unfold mcd212_write. cbv zeta. destruct (_ <=? _); [done|].
  destruct (_ <=? _)%nat; [|destruct (negb _)]; intros [= <-]; (apply mcd_ok_set; [apply u16_range|done]).
Qed.

Lemma mcd_ok_reset : mcd_ok mcd_reset.
Proof. split; [done|]. split; [|done]. split; [|done]. by apply Forall_replicate. Qed.

(** C36. The controller is well typed however it is driven: after any sequence of
    CPU reads and writes at any address and size, of elapsed time, and of
    changes elsewhere on the board, there are 32 registers of 16 bits, the
    status registers are bytes, the image line is 16 bits and the raster line
    stays inside the longest frame, even when a write shortens the frame under
    a raster line already past its end; a read returns a byte. *)
Theorem scan_state_typed w :
  scan_reach w ->
  mcd_ok (vdsc w) /\
  forall address v w', mcd212_read address w = (Ok v, w') -> is_u8 v.
Proof.
  intros Hr. assert (mcd_ok (vdsc w)) as Hw.
  { induction Hr as [w E|w w' _ IH E|a v w w' _ IH E|a v n w w' _ IH E|x fuel w w' _ IH E].
    - rewrite E. apply mcd_ok_reset.
    - by rewrite E.
    - by apply (read_ok a v w).
    - by apply (write_ok a v n w).
    - by apply (raster_loop_ok fuel (add_line_phase x w)). }
  split; [done|]. intros a v w' E. by apply (read_ok a v w w').
Qed.

(** C35. Elapsed time moves the raster by whole lines, exactly. With the raster
    inside the frame and the phase of any size below 2^56 ns, the line loop
    ends after phase / period lines: what is left of the phase is the remainder,
    the raster line is the old one plus that many lines modulo the frame's, and
    the frame counter has moved once per frame completed. No control program
    can disturb this: the programs run by the lines cannot change the mode. The
    only other outcome is the abort of a control program that left the DRAM,
    which takes an enabled display. *)
Theorem raster_tracks_time fuel w :
  length (write_registers (vdsc w)) = 32%nat -> phase_below 3 (line_phase_ns (vdsc w)) ->
  0 <= raster_line (vdsc w) < total_raster_lines (vdsc w) -> 0 <= g_frame_count w < 2 ^ 64 ->
  let P := dval (raster_line_period_ns (vdsc w)) in
  let n := dval (line_phase_ns (vdsc w)) / P in
  n <= Z.of_nat fuel ->
  match raster_loop fuel w with
  | (Ok _, w') =>
    dval (line_phase_ns (vdsc w')) = dval (line_phase_ns (vdsc w)) mod P /\
    raster_line (vdsc w') = (raster_line (vdsc w) + n) mod total_raster_lines (vdsc w) /\
    g_frame_count w' = u64 (g_frame_count w + (raster_line (vdsc w) + n) / total_raster_lines (vdsc w)) /\
    Z.land (reg (vdsc w') REG_DCR1) 0xF000 = Z.land (reg (vdsc w) REG_DCR1) 0xF000
  | (Exn e, _) => e = EAbort /\ dcr1_bit (vdsc w) DCR_DISPLAY_ENABLE = true
  end.
Proof.
  intros Hl Hp Hr Hf P n Hn. pose proof (raster_loop_spec fuel w Hl Hp Hr Hf Hn) as Hs.
  destruct (raster_loop fuel w) as [[[]|e] w']; [|done]. by destruct Hs as (_ & H1 & H2 & H3 & H4).
Qed.
End Typing.

(** ** A concrete pixel pipeline: it consumes as many bytes as the line is wide
    and counts the frames. *)
Definition counting_video : VideoOps Z := {|
  video_reset := fun _ => 0;
  video_control := fun _ _ v => v;
  video_begin_frame := fun _ _ _ v => v;
  video_draw_line := fun _ _ _ _ _ wa wb v => ((wa, wb), v);
  video_end_frame := fun v => v + 1;
|}.

Definition example_controller : Mcd212 :=
  mkMcd (lset (replicate 32 0) REG_DCR1 0xE000) 0 0 (dof_Z 200000) 260 5.
Definition example_scan : ScanWorld Z :=
  mkScan example_controller ∅ ∅ irq_reset 0 0 7 (mkSchedule [] 0)
    (mkInput 0 0 0 (replicate 256 0) 0 0 0 0 true true).

(** Three lines fit 200 us at 63.56 us a line; the frame ends on the second. *)
Lemma raster_tracks_time_witness :
  dval (line_phase_ns (vdsc example_scan)) / dval (raster_line_period_ns (vdsc example_scan)) = 3 /\
  exists w', @raster_loop Z counting_video 5 example_scan = (Ok tt, w') /\
    raster_line (vdsc w') = 1 /\ g_frame_count w' = 8.
Proof.
  split; [vm_compute; reflexivity|].
  pose proof (@raster_tracks_time Z counting_video 5 example_scan eq_refl) as Ht.
  assert (phase_below 3 (line_phase_ns (vdsc example_scan))) as Hp.
  { right. exists (200000 * 2 ^ 35)%positive, (-35). split; [vm_compute; reflexivity|].
    split; [split; [split; [apply Z.leb_le|apply Z.ltb_lt]; vm_compute; reflexivity|lia]|lia]. }
  specialize (Ht Hp). cbv zeta in Ht.
  specialize (Ht ltac:(split; [apply Z.leb_le|apply Z.ltb_lt]; vm_compute; reflexivity) ltac:(cbn; lia)).
  specialize (Ht ltac:(apply Z.leb_le; vm_compute; reflexivity)).
  destruct (@raster_loop Z counting_video 5 example_scan) as [[[]|e] w'] eqn:E.
  - exists w'. split; [reflexivity|]. destruct Ht as (_ & H1 & H2 & _). rewrite H1, H2.
    split; vm_compute; reflexivity.
  - exfalso. assert (match fst (@raster_loop Z counting_video 5 example_scan) with Ok _ => true | Exn _ => false end = true)
      as Hok by (vm_compute; reflexivity).
    rewrite E in Hok. discriminate.
Defined.

(** A reset, a write of DCR1 and a read of the interrupt status. *)
Lemma scan_state_typed_witness :
  exists w v w', @mcd212_read Z 0x004FFFE0 w = (Ok v, w') /\ mcd_ok (vdsc w) /\ is_u8 v.
Proof.
  pose (w0 := mkScan mcd_reset ∅ ∅ irq_reset 0 (0 : Z) 0 (mkSchedule [] 0)
    (mkInput 0 0 0 (replicate 256 0) 0 0 0 0 true true)).
  destruct (mcd212_write 0x004FFFF2 0xE000 2 w0) as [r w1] eqn:E.
  assert (r = Ok tt) as -> by (injection E as <- <-; reflexivity).
  assert (@scan_reach Z counting_video w1) as Hr
    by (eapply reach_write; [apply (reach_reset w0); reflexivity|exact E]).
  destruct (@scan_state_typed Z counting_video w1 Hr) as [Hok Hread].
  destruct (mcd212_read 0x004FFFE0 w1) as [rv w2] eqn:E2.
  destruct rv as [v|e]; [|discriminate].
  exists w1, v, w2. split; [exact E2|]. split; [exact Hok|]. exact (Hread _ _ _ E2).
Defined.
