(* ===== verification/Disc.v ===== *)
(** Discs and OS-9 modules as the recompiler reads them
    (recompiler/src/disc_parser.c): sectors of the two forms, file extents, the
    directory walk, and the scan for modules with its header parity and CRC.

    An image is the number of its sectors and the body of each, the part of a
    raw sector after its sync field; a body the file cannot supply is [None]. *)

From Stdlib Require Import ZArith Lia Bool.
From stdpp Require Import base tactics numbers list.
From S2P Require Import Prelude.
Open Scope Z_scope.

Definition CDI_MODE2_FORM1_DATA : Z := 2048.
Definition CDI_MODE2_SECTOR_BODY : Z := 2340.
Definition CDI_VOLUME_DESC_LBA : Z := 16.
Definition OS9_MODULE_HDR_SIZE : Z := 0x30.
Definition OS9_MODULE_CRC_RESIDUE : Z := 0x800FE3.

(** The bytes [count] from [offset] of a buffer. *)
Definition slice (offset count : Z) (b : list Z) : list Z := take (Z.to_nat count) (drop (Z.to_nat offset) b).

Definition be32 (p : list Z) (o : Z) : Z :=
  Z.lor (Z.lor (Z.shiftl (lget p o) 24) (Z.shiftl (lget p (o + 1)) 16))
        (Z.lor (Z.shiftl (lget p (o + 2)) 8) (lget p (o + 3))).
Definition be16 (p : list Z) (o : Z) : Z := u16 (Z.lor (Z.shiftl (lget p o) 8) (lget p (o + 1))).

(** * Sectors *)
Record CdiDisc := mkDisc {
  bin_sector : Z -> option (list Z);  (* the 2340 bytes at the sector's place in the file *)
  sector_count : Z;
}.

Definition cdi_read_sector_body (d : CdiDisc) (lba : Z) : option (list Z) :=
  if sector_count d <=? lba then None else bin_sector d lba.

Definition cdi_read_sector_form1 (d : CdiDisc) (lba : Z) : option (list Z) :=
  match cdi_read_sector_body d lba with
  | None => None
  | Some body =>
    if lget body 3 =? 1 then Some (slice 4 CDI_MODE2_FORM1_DATA body)
    else if negb (lget body 3 =? 2) || negb (bool_decide (slice 4 4 body = slice 8 4 body))
            || z2b (Z.land (lget body 6) 0x20)
    then None else Some (slice 12 CDI_MODE2_FORM1_DATA body)
  end.

Definition valid_extent (d : CdiDisc) (lba size : Z) : bool :=
  let sectors := (size + CDI_MODE2_FORM1_DATA - 1) / CDI_MODE2_FORM1_DATA in
  (lba <? sector_count d) && (sectors <=? sector_count d - lba).

Record CdiFile := mkFile {
  file_path : list Z;
  file_lba : Z;
  file_size : Z;
}.

(** The bytes one sector gives a file: a Form-2 sector reads as zeros. *)
Definition file_bytes (body : list Z) (count : Z) : option (list Z) :=
  if lget body 3 =? 1 then Some (slice 4 count body)
  else if (lget body 3 =? 2) && bool_decide (slice 4 4 body = slice 8 4 body) then
    if z2b (Z.land (lget body 6) 0x20) then Some (replicate (Z.to_nat count) 0)
    else Some (slice 12 count body)
  else None.

(** Whole sectors from [lba] until [size] bytes are read, [n] sectors at most. *)
Fixpoint read_file_sectors (d : CdiDisc) (n : nat) (lba size : Z) : option (list Z) :=
  if size <=? 0 then Some []
  else match n with
  | O => None
  | S n' =>
    let count := Z.min size CDI_MODE2_FORM1_DATA in
    match cdi_read_sector_body d (u32 lba) with
    | None => None
    | Some body =>
      match file_bytes body count with
      | None => None
      | Some bytes =>
        match read_file_sectors d n' (lba + 1) (size - count) with
        | None => None
        | Some rest => Some (bytes ++ rest)
        end
      end
    end
  end.

Definition sectors_of (size : Z) : nat := Z.to_nat ((size + CDI_MODE2_FORM1_DATA - 1) / CDI_MODE2_FORM1_DATA).

Definition cdi_read_file_form1 (d : CdiDisc) (file : CdiFile) (capacity : Z) : option (list Z) :=
  if (capacity <? file_size file) || negb (valid_extent d (file_lba file) (file_size file)) then None
  else read_file_sectors d (sectors_of (file_size file)) (file_lba file) (file_size file).

(** * Directories *)
Record DirectoryWalk := mkWalk {
  walk_out : list CdiFile;  (* in the order found; the C caller's array keeps a prefix *)
  walk_cdi : bool;
  directories : list Z;  (* newest first *)
}.

Definition DIRECTORIES_MAX : Z := 256.
Definition DIRECTORY_SIZE_MAX : Z := 16 * 1024 * 1024.
Definition DIRECTORY_DEPTH_MAX : Z := 16.
Definition PATH_SIZE : Z := 256.

Fixpoint read_directory_sectors (d : CdiDisc) (n : nat) (lba size : Z) : option (list Z) :=
  if size <=? 0 then Some []
  else match n with
  | O => None
  | S n' =>
    match cdi_read_sector_form1 d (u32 lba) with
    | None => None
    | Some sector =>
      let count := Z.min size CDI_MODE2_FORM1_DATA in
      match read_directory_sectors d n' (lba + 1) (size - count) with
      | None => None
      | Some rest => Some (take (Z.to_nat count) sector ++ rest)
      end
    end
  end.

(** What one directory record says. *)
Inductive DirectoryEntry :=
| EntrySelf                     (* the directory itself or its parent *)
| EntryFile (f : CdiFile)
| EntryDirectory (f : CdiFile).  (* its path without the final slash *)

Definition bad_name_byte (ch : Z) : bool := (ch =? 0) || (ch =? 0x2F) || (ch =? 0x5C).

(** [record] is the rest of the directory from the record on. *)
Definition read_record (d : CdiDisc) (cdi : bool) (prefix record : list Z) : option DirectoryEntry :=
  let record_size := lget record 0 in
  let name_size := lget record 32 in
  let extension := 33 + name_size + (if z2b (Z.land name_size 1) then 0 else 1) in
  if (name_size =? 0) || (record_size <? extension) || (cdi && (record_size - extension <? 8))
     || z2b (lget record 1)
  then None
  else if (name_size =? 1) && (lget record 33 <=? 1) then Some EntrySelf
  else
    let lba := be32 record 6 in
    let size := be32 record 14 in
    let is_directory :=
      if cdi then z2b (Z.land (be16 record (extension + 2)) 0x8000)
      else z2b (Z.land (lget record 25) 2) in
    if negb (valid_extent d lba size) || (negb cdi && z2b (Z.land (lget record 25) 0x80))
       || z2b (lget record 26) || z2b (lget record 27)
    then None
    else if PATH_SIZE <=? Z.of_nat (length prefix) + name_size then None
    else
      let name := slice 33 name_size record in
      if existsb bad_name_byte name then None
      else
        let file := mkFile (prefix ++ name) lba size in
        if is_directory then
          if PATH_SIZE <=? Z.of_nat (length (prefix ++ name)) + 1 then None else Some (EntryDirectory file)
        else Some (EntryFile file).

(** The records of a directory from [offset]; [descend] walks a subdirectory,
    [n] bounds the records. *)
Fixpoint walk_records (d : CdiDisc) (descend : CdiFile -> DirectoryWalk -> option DirectoryWalk)
    (prefix bytes : list Z) (size : Z) (n : nat) (offset : Z) (walk : DirectoryWalk)
    : option DirectoryWalk :=
  if size <=? offset then Some walk
  else match n with
  | O => None
  | S n' =>
    let record_size := lget bytes offset in
    let room := CDI_MODE2_FORM1_DATA - offset mod CDI_MODE2_FORM1_DATA in
    if record_size =? 0 then
      let next := offset + room in
      walk_records d descend prefix bytes size n' (if next <? size then next else size) walk
    else if (record_size <? 34) || (size - offset <? record_size) || (room <? record_size) then None
    else
      match read_record d (walk_cdi walk) prefix (drop (Z.to_nat offset) bytes) with
      | None => None
      | Some entry =>
        match
          match entry with
          | EntrySelf => Some walk
          | EntryFile f => Some (mkWalk (walk_out walk ++ [f]) (walk_cdi walk) (directories walk))
          | EntryDirectory f => descend f walk
          end
        with
        | None => None
        | Some walk => walk_records d descend prefix bytes size n' (offset + record_size) walk
        end
      end
  end.

(** [depth_left] counts the levels below which the walk is refused. *)
Fixpoint walk_directory (d : CdiDisc) (depth_left : nat) (lba size : Z) (prefix : list Z)
    (walk : DirectoryWalk) : option DirectoryWalk :=
  match depth_left with
  | O => None
  | S below =>
    if (size =? 0) || (DIRECTORY_SIZE_MAX <? size) || negb (valid_extent d lba size)
       || (DIRECTORIES_MAX <=? Z.of_nat (length (directories walk)))
       || existsb (Z.eqb lba) (directories walk)
    then None
    else
      let walk := mkWalk (walk_out walk) (walk_cdi walk) (lba :: directories walk) in
      match read_directory_sectors d (sectors_of size) lba size with
      | None => None
      | Some bytes =>
        walk_records d (fun f => walk_directory d below (file_lba f) (file_size f) (file_path f ++ [0x2F]))
          prefix bytes size (Z.to_nat size) 0 walk
      end
  end.

(** The root's extent: the ISO root record, or for CD-i the path table and the
    directory's own record. *)
Definition cdi_std_id : list Z := [0x43; 0x44; 0x2D; 0x49; 0x20].  (* "CD-I " *)
Definition iso_std_id : list Z := [0x43; 0x44; 0x30; 0x30; 0x31].  (* "CD001" *)

Definition find_root (d : CdiDisc) : option (bool * Z * Z) :=
  match cdi_read_sector_form1 d CDI_VOLUME_DESC_LBA with
  | None => None
  | Some descriptor =>
    if negb (lget descriptor 0 =? 1) || negb (lget descriptor 6 =? 1) then None
    else if bool_decide (slice 1 5 descriptor = cdi_std_id) then
      let table_size := be32 descriptor 136 in
      let table_lba := be32 descriptor 148 in
      if (table_size <? 10) || negb (valid_extent d table_lba table_size) then None
      else match cdi_read_sector_form1 d table_lba with
      | None => None
      | Some root =>
        if negb (lget root 0 =? 1) || z2b (lget root 1) || negb (be16 root 6 =? 1) || z2b (lget root 8)
        then None
        else
          let root_lba := be32 root 2 in
          match cdi_read_sector_form1 d root_lba with
          | None => None
          | Some root =>
            if (lget root 0 <? 34) || negb (lget root 32 =? 1) || z2b (lget root 33)
               || negb (be32 root 6 =? root_lba)
            then None else Some (true, root_lba, be32 root 14)
          end
      end
    else if bool_decide (slice 1 5 descriptor = iso_std_id) then
      if (lget descriptor 156 <? 34) || z2b (lget descriptor 157) then None
      else Some (false, be32 descriptor 162, be32 descriptor 170)
    else None
  end.

Definition cdi_list_files (d : CdiDisc) : option (list CdiFile) :=
  match find_root d with
  | None => None
  | Some (cdi, root_lba, root_size) =>
    match walk_directory d (S (Z.to_nat DIRECTORY_DEPTH_MAX)) root_lba root_size [] (mkWalk [] cdi []) with
    | None => None
    | Some walk => Some (walk_out walk)
    end
  end.

(** * Modules *)
Definition crc_bit (crc : Z) : Z :=
  let crc := u32 (Z.shiftl crc 1) in
  if z2b (Z.land crc 0x01000000) then Z.lxor crc 0x800063 else crc.
Definition crc_byte (crc byte : Z) : Z :=
  Z.land (Nat.iter 8 crc_bit (Z.lxor crc (Z.shiftl byte 16))) 0x00FFFFFF.
Definition os9_module_crc24 (data : list Z) : Z := fold_left crc_byte data 0x00FFFFFF.

Definition os9_header_parity_ok (m : list Z) (avail : Z) : bool :=
  (OS9_MODULE_HDR_SIZE <=? avail) &&
  (fold_left (fun x o => Z.lxor x (be16 m (2 * Z.of_nat o))) (seq 0 24) 0 =? 0xFFFF).

(** The name: at most 63 characters, ended by a zero or by a set high bit. *)
Fixpoint module_name (room : nat) (ns : list Z) : list Z :=
  match room, ns with
  | S room', c :: ns' =>
    if c =? 0 then []
    else Z.land c 0x7F :: (if z2b (Z.land c 0x80) then [] else module_name room' ns')
  | _, _ => []
  end.

Record Os9Module := mkModule {
  logical_offset : Z;
  module_size : Z;
  module_type : Z;
  module_lang : Z;
  module_string : list Z;
  crc_ok : bool;
}.

(** The module at [o], if a module is there. *)
Definition os9_module_at (buf : list Z) (len o : Z) : option Os9Module :=
  let m := drop (Z.to_nat o) buf in
  if negb ((lget m 0 =? 0x4A) && (lget m 1 =? 0xFC)) then None
  else
    let avail := if 0xFFFFFFFF <? len - o then 0xFFFFFFFF else len - o in
    if negb (os9_header_parity_ok m avail) then None
    else
      let size := be32 m 4 in
      if (size <? OS9_MODULE_HDR_SIZE + 3) || (avail <? size) then None
      else
        let nameoff := be32 m 0x0C in
        let name :=
          if (OS9_MODULE_HDR_SIZE <=? nameoff) && (nameoff <? size - 3)
          then module_name (Z.to_nat (Z.min 63 (size - 3 - nameoff))) (drop (Z.to_nat nameoff) m)
          else [] in
        Some (mkModule o size (lget m 0x12) (lget m 0x13) name
          ((OS9_MODULE_HDR_SIZE <=? size) && (o + size <=? len)
           && (os9_module_crc24 (take (Z.to_nat size) m) =? OS9_MODULE_CRC_RESIDUE))).

(** Even offsets while a header fits. *)
Fixpoint scan_from (buf : list Z) (len : Z) (n : nat) (o : Z) : list Os9Module :=
  match n with
  | O => []
  | S n' =>
    match os9_module_at buf len o with
    | None => scan_from buf len n' (o + 2)
    | Some m => m :: scan_from buf len n' (o + 2)
    end
  end.
Definition os9_scan_buffer (buf : list Z) (len : Z) : list Os9Module :=
  scan_from buf len (Z.to_nat ((len - OS9_MODULE_HDR_SIZE) / 2 + 1)) 0.

(** A module and the file it lies in; its offset counts from the disc's start. *)
Record FoundModule := mkFound {
  found_module : Os9Module;
  found_offset : Z;  (* in the file *)
  found_lba : Z;
  found_path : list Z;
}.

Definition place_module (file : CdiFile) (m : Os9Module) : FoundModule :=
  let file_offset := u32 (logical_offset m) in
  mkFound
    (mkModule (u64 (logical_offset m + u64 (file_lba file * CDI_MODE2_FORM1_DATA)))
       (module_size m) (module_type m) (module_lang m) (module_string m) (crc_ok m))
    file_offset (u32 (file_lba file + file_offset / CDI_MODE2_FORM1_DATA)) (file_path file).

(** The files in order; a file that cannot be read fails the scan. *)
Fixpoint scan_files (d : CdiDisc) (files : list CdiFile) : option (list FoundModule) :=
  match files with
  | [] => Some []
  | file :: files' =>
    if file_size file =? 0 then scan_files d files'
    else
      match cdi_read_file_form1 d file (file_size file) with
      | None => None
      | Some bytes =>
        match scan_files d files' with
        | None => None
        | Some rest => Some (map (place_module file) (os9_scan_buffer bytes (file_size file)) ++ rest)
        end
      end
  end.
Definition cdi_scan_os9_modules (d : CdiDisc) : option (list FoundModule) :=
  match cdi_list_files d with
  | None => None
  | Some files => scan_files d files
  end.
