(* ===== verification/CrcSpec.v ===== *)
(** The OS-9 checksum is linear over exclusive or, so that two ways to compute
    it agree as soon as they agree on single bits; and a module that carries the
    complement of its checksum is recognised. *)

From Stdlib Require Import ZArith Lia Bool.
From stdpp Require Import base tactics numbers list gmap.
From S2P Require Import Prelude Disc.
Open Scope Z_scope.

(** * Linear functions of words *)
Definition linear (f : Z -> Z) : Prop := forall x y, f (Z.lxor x y) = Z.lxor (f x) (f y).
Definition linear_bool (f : Z -> bool) : Prop := forall x y, f (Z.lxor x y) = xorb (f x) (f y).

Lemma lxor_swap a b c d : Z.lxor (Z.lxor a b) (Z.lxor c d) = Z.lxor (Z.lxor a c) (Z.lxor b d).
Proof. rewrite !Z.lxor_assoc. f_equal. rewrite <- !Z.lxor_assoc. f_equal. apply Z.lxor_comm. Qed.

Lemma linear_id : linear (fun x => x).
Proof. done. Qed.
Lemma linear_comp f g : linear f -> linear g -> linear (fun x => f (g x)).
Proof. intros Hf Hg x y. by rewrite Hg, Hf. Qed.
Lemma linear_lxor f g : linear f -> linear g -> linear (fun x => Z.lxor (f x) (g x)).
Proof. intros Hf Hg x y. rewrite Hf, Hg. apply lxor_swap. Qed.
Lemma linear_land m : linear (fun x => Z.land x m).
Proof. intros x y. apply Z.bits_inj'. intros i Hi. autorewrite with bits. by destruct (Z.testbit x i), (Z.testbit y i), (Z.testbit m i). Qed.
Lemma linear_shiftl n : linear (fun x => Z.shiftl x n).
Proof. intros x y. apply Z.shiftl_lxor. Qed.
Lemma linear_shiftr n : linear (fun x => Z.shiftr x n).
Proof. intros x y. apply Z.shiftr_lxor. Qed.
Lemma linear_u32 : linear u32.
Proof. intros x y. rewrite !u32_land. apply linear_land. Qed.
Lemma linear_choose c f k : linear_bool c -> linear f -> linear (fun x => if c x then Z.lxor (f x) k else f x).
Proof.
  intros Hc Hf x y. rewrite Hc, Hf. destruct (c x), (c y); cbn [xorb].
  - rewrite lxor_swap, Z.lxor_nilpotent. by rewrite Z.lxor_0_r.
  - by rewrite !Z.lxor_assoc, (Z.lxor_comm k).
  - by rewrite !Z.lxor_assoc.
  - done.
Qed.
Lemma linear_testbit n : linear_bool (fun x => Z.testbit x n).
Proof. intros x y. apply Z.lxor_spec. Qed.
Lemma linear_bool_comp c f : linear_bool c -> linear f -> linear_bool (fun x => c (f x)).
Proof. intros Hc Hf x y. by rewrite Hf, Hc. Qed.
Lemma linear_xorb b c : linear_bool b -> linear_bool c -> linear_bool (fun x => xorb (b x) (c x)).
Proof. intros Hb Hc x y. rewrite Hb, Hc. by destruct (b x), (b y), (c x), (c y). Qed.
Lemma linear_zero f : linear f -> f 0 = 0.
Proof. intros Hf. pose proof (Hf 0 0) as E. change (Z.lxor 0 0) with 0 in E. by rewrite Z.lxor_nilpotent in E. Qed.
Lemma linear_ext_fun f g : (forall x, f x = g x) -> linear f -> linear g.
Proof. intros E Hf x y. by rewrite <- !E, Hf. Qed.

(** Functions that agree on the single bits agree on the words. *)
Lemma linear_agree n f g :
  linear f -> linear g -> forallb (fun i => f (2 ^ Z.of_nat i) =? g (2 ^ Z.of_nat i)) (seq 0 n) = true ->
  forall x, is_word (Z.of_nat n) x -> f x = g x.
Proof.
  intros Hf Hg. induction n as [|n IH]; intros Hb x Hx.
  - assert (x = 0) as -> by (unfold is_word in Hx; change (2 ^ Z.of_nat 0) with 1 in Hx; lia).
    by rewrite !linear_zero.
  - rewrite seq_S, forallb_app in Hb. apply andb_true_iff in Hb as [Hb Hn]. cbn [forallb] in Hn.
    rewrite andb_true_r in Hn. apply Z.eqb_eq in Hn. change (0 + n)%nat with n in Hn.
    set (w := Z.of_nat n) in *.
    assert (x = Z.lxor (x mod 2 ^ w) (if Z.testbit x w then 2 ^ w else 0)) as ->.
    { apply (word_ext (w + 1)).
      - by replace (w + 1) with (Z.of_nat (S n)) by lia.
      - apply lxor_word; [| |lia].
        + apply (is_word_mono w); [lia|]. unfold is_word. apply Z.mod_pos_bound. apply Z.pow_pos_nonneg; lia.
        + apply if_word; unfold is_word; rewrite Z.pow_add_r by lia;
            pose proof (Z.pow_pos_nonneg 2 w ltac:(lia) ltac:(lia)); lia.
      - intros i Hi. rewrite Z.lxor_spec, testbit_mod_pow2 by lia.
        destruct (Z.ltb_spec i w).
        + destruct (Z.testbit x w); rewrite ?testbit_pow2, ?Z.testbit_0_l by lia;
            rewrite ?(proj2 (Z.eqb_neq i w)) by lia; by rewrite xorb_false_r.
        + assert (i = w) as -> by lia. destruct (Z.testbit x w) eqn:E; cbn [andb xorb];
            [by rewrite testbit_pow2, Z.eqb_refl by lia|by rewrite Z.testbit_0_l]. }
    rewrite Hf, Hg. f_equal.
    + apply IH; [done|]. unfold is_word. apply Z.mod_pos_bound. apply Z.pow_pos_nonneg; lia.
    + destruct (Z.testbit x w); [done|by rewrite !linear_zero].
Qed.

(** * The checksum *)
Lemma linear_crc_bit : linear crc_bit.
Proof.
  unfold crc_bit. cbv zeta.
  assert (forall x, z2b (Z.land (u32 (Z.shiftl x 1)) 0x01000000) = Z.testbit (u32 (Z.shiftl x 1)) 24) as E
    by (intros x; by apply (testbit_land_pow2 _ 24)).
  assert (linear (fun x => u32 (Z.shiftl x 1))) as Hl by (apply (linear_comp u32); [apply linear_u32|apply linear_shiftl]).
  intros x y. rewrite !E.
  apply (linear_choose (fun x => Z.testbit (u32 (Z.shiftl x 1)) 24) (fun x => u32 (Z.shiftl x 1))); [|done].
  apply (linear_bool_comp (fun x => Z.testbit x 24)); [apply linear_testbit|done].
Qed.

Lemma linear_iter f n : linear f -> linear (Nat.iter n f).
Proof.
  intros Hf. induction n as [|n IH]; intros x y; [done|].
  change (Nat.iter (S n) f ?z) with (f (Nat.iter n f z)). rewrite IH. apply Hf.
Qed.

Lemma crc_byte_lxor c1 c2 b1 b2 :
  crc_byte (Z.lxor c1 c2) (Z.lxor b1 b2) = Z.lxor (crc_byte c1 b1) (crc_byte c2 b2).
Proof.
  unfold crc_byte. rewrite <- linear_land. f_equal. rewrite <- (linear_iter _ 8 linear_crc_bit). f_equal.
  rewrite Z.shiftl_lxor. apply lxor_swap.
Qed.

(** Bytes computed from one word by linear functions. *)
Lemma linear_crc_bytes (c : Z -> Z) (bs : list (Z -> Z)) :
  linear c -> Forall linear bs -> linear (fun x => fold_left crc_byte (map (fun b => b x) bs) (c x)).
Proof.
  intros Hc Hb. revert c Hc. induction Hb as [|b bs Hb _ IH]; intros c Hc; cbn [map fold_left]; [done|].
  apply (IH (fun x => crc_byte (c x) (b x))). intros x y. by rewrite Hc, Hb, crc_byte_lxor.
Qed.

Lemma crc_byte_word c b : is_word 24 (crc_byte c b).
Proof. unfold crc_byte. word. Qed.
Lemma crc24_word data : is_word 24 (os9_module_crc24 data).
Proof.
  unfold os9_module_crc24. assert (is_word 24 0x00FFFFFF) as H by word. revert H. generalize 0x00FFFFFF.
  induction data as [|b data IH]; intros c Hc; cbn [fold_left]; [done|]. apply IH, crc_byte_word.
Qed.

(** The three bytes that close a module. *)
Definition crc_footer (crc : Z) : list Z :=
  let c := Z.lxor crc 0xFFFFFF in [Z.shiftr c 16; Z.land (Z.shiftr c 8) 0xFF; Z.land c 0xFF].

Lemma crc_closed crc :
  is_word 24 crc -> fold_left crc_byte (crc_footer crc) crc = OS9_MODULE_CRC_RESIDUE.
Proof.
  intros Hc. unfold crc_footer. cbv zeta. set (k := 0xFFFFFF).
  pose (bs := [(fun x => Z.shiftr x 16); (fun x => Z.land (Z.shiftr x 8) 0xFF); (fun x => Z.land x 0xFF)]).
  assert (Forall linear bs) as Hbs.
  { repeat constructor; [apply linear_shiftr| |apply linear_land].
    apply (linear_comp (fun x => Z.land x 0xFF)); [apply linear_land|apply linear_shiftr]. }
  pose (g := fun x => fold_left crc_byte (map (fun b => b x) bs) x).
  assert (linear g) as Hg by (by apply (linear_crc_bytes (fun x => x))).
  assert (g crc = 0) as Hz.
  { apply (linear_agree 24 g (fun _ => 0)); [done|by intros ? ?| |done]. vm_compute. reflexivity. }
  assert (forall x y, fold_left crc_byte (map (fun b => b (Z.lxor x y)) bs) x =
    Z.lxor (g x) (fold_left crc_byte (map (fun b => b y) bs) 0)) as Hsplit.
  { intros x y. unfold g. subst bs. cbn [map fold_left].
    rewrite <- (Z.lxor_0_r x) at 1. rewrite linear_shiftr, crc_byte_lxor.
    rewrite (linear_shiftr 8 x y), (linear_land 0xFF (Z.shiftr x 8)), crc_byte_lxor.
    by rewrite (linear_land 0xFF x y), crc_byte_lxor. }
  pose proof (Hsplit crc k) as E. subst bs. cbn [map] in E. rewrite E, Hz. vm_compute. reflexivity.
Qed.

(** ** Nothing is lost: the checksum can be run backwards *)
Definition uncrc_bit (d : Z) : Z :=
  Z.shiftr (if Z.testbit d 0 then Z.lxor d 0x1800063 else d) 1.
Lemma linear_uncrc_bit : linear uncrc_bit.
Proof.
  unfold uncrc_bit. apply (linear_comp (fun x => Z.shiftr x 1)); [apply linear_shiftr|].
  apply (linear_choose (fun x => Z.testbit x 0) (fun x => x)); [apply linear_testbit|done].
Qed.

Lemma crc_byte_zero : linear (fun c => crc_byte c 0).
Proof. intros x y. by rewrite <- crc_byte_lxor. Qed.
Lemma uncrc_byte c : is_word 24 c -> Nat.iter 8 uncrc_bit (crc_byte c 0) = c.
Proof.
  apply (linear_agree 24 (fun c => Nat.iter 8 uncrc_bit (crc_byte c 0)) (fun c => c));
    [|done|vm_compute; reflexivity].
  apply (linear_comp (Nat.iter 8 uncrc_bit)); [apply linear_iter, linear_uncrc_bit|apply crc_byte_zero].
Qed.

Lemma crc_byte_inj c1 c2 b :
  is_word 24 c1 -> is_word 24 c2 -> crc_byte c1 b = crc_byte c2 b -> c1 = c2.
Proof.
  intros H1 H2 E. apply Z.lxor_eq.
  pose proof (crc_byte_lxor c1 c2 b b) as Hx. rewrite E, !Z.lxor_nilpotent in Hx.
  rewrite <- (uncrc_byte (Z.lxor c1 c2)) by word. by rewrite Hx.
Qed.
Lemma crc_bytes_inj bs : forall c1 c2,
  is_word 24 c1 -> is_word 24 c2 -> fold_left crc_byte bs c1 = fold_left crc_byte bs c2 -> c1 = c2.
Proof.
  induction bs as [|b bs IH]; intros c1 c2 H1 H2 E; cbn [fold_left] in E; [done|].
  apply (crc_byte_inj _ _ b); [done..|]. apply IH; [apply crc_byte_word..|done].
Qed.

Lemma crc_three_lxor c x0 x1 x2 y0 y1 y2 :
  Z.lxor (fold_left crc_byte [x0; x1; x2] c) (fold_left crc_byte [y0; y1; y2] c) =
  fold_left crc_byte [Z.lxor x0 y0; Z.lxor x1 y1; Z.lxor x2 y2] 0.
Proof. cbn [fold_left]. rewrite <- !crc_byte_lxor. by rewrite Z.lxor_nilpotent. Qed.

Definition three_bytes (z : Z) : list Z := [Z.land (Z.shiftr z 16) 0xFF; Z.land (Z.shiftr z 8) 0xFF; Z.land z 0xFF].
Lemma uncrc_three z : is_word 24 z -> Nat.iter 24 uncrc_bit (fold_left crc_byte (three_bytes z) 0) = z.
Proof.
  apply (linear_agree 24 (fun z => Nat.iter 24 uncrc_bit (fold_left crc_byte (three_bytes z) 0)) (fun z => z));
    [|done|vm_compute; reflexivity].
  apply (linear_comp (Nat.iter 24 uncrc_bit)); [apply linear_iter, linear_uncrc_bit|].
  apply (linear_crc_bytes (fun _ => 0)
    [fun z => Z.land (Z.shiftr z 16) 0xFF; fun z => Z.land (Z.shiftr z 8) 0xFF; fun z => Z.land z 0xFF]).
  - by intros ? ?.
  - assert (forall n, linear (fun z => Z.land (Z.shiftr z n) 0xFF)) as Hs
      by (intros n; apply (linear_comp (fun z => Z.land z 0xFF)); [apply linear_land|apply linear_shiftr]).
    repeat constructor; [apply Hs..|apply linear_land].
Qed.

Lemma three_bytes_join b0 b1 b2 :
  is_u8 b0 -> is_u8 b1 -> is_u8 b2 ->
  let z := b0 * 65536 + b1 * 256 + b2 in three_bytes z = [b0; b1; b2] /\ is_word 24 z.
Proof.
  intros H0 H1 H2 z. unfold is_word in *. change (2 ^ 8) with 256 in *. change (2 ^ 24) with 16777216.
  split; [|subst z; lia]. unfold three_bytes. change 0xFF with (Z.ones 8).
  rewrite !Z.land_ones, !Z.shiftr_div_pow2 by done. change (2 ^ 16) with 65536. change (2 ^ 8) with 256.
  subst z. repeat f_equal; zlia.
Qed.

Lemma crc_three_inj c x0 x1 x2 y0 y1 y2 :
  Forall is_u8 [x0; x1; x2] -> Forall is_u8 [y0; y1; y2] ->
  fold_left crc_byte [x0; x1; x2] c = fold_left crc_byte [y0; y1; y2] c -> [x0; x1; x2] = [y0; y1; y2].
Proof.
  intros Hx Hy E. pose proof (crc_three_lxor c x0 x1 x2 y0 y1 y2) as Ed. rewrite E, Z.lxor_nilpotent in Ed.
  rewrite !Forall_cons in Hx, Hy. destruct Hx as (X0 & X1 & X2 & _), Hy as (Y0 & Y1 & Y2 & _).
  destruct (three_bytes_join (Z.lxor x0 y0) (Z.lxor x1 y1) (Z.lxor x2 y2)) as [Ez Hz]; [word..|].
  rewrite <- Ez in Ed. pose proof (uncrc_three _ Hz) as Eu. rewrite <- Ed in Eu.
  change (Nat.iter 24 uncrc_bit 0) with 0 in Eu. rewrite <- Eu in Ez.
  change (three_bytes 0) with [0; 0; 0] in Ez. injection Ez as E0 E1 E2.
  by rewrite (Z.lxor_eq x0 y0), (Z.lxor_eq x1 y1), (Z.lxor_eq x2 y2).
Qed.

(** The scanner's checksum recognises a module and notices damage: whatever
    its bytes, a module closed by the three bytes of the complement of its
    checksum has the residue the scanner looks for, and no change within three
    consecutive bytes, anywhere in it, keeps that residue. *)
Theorem module_checksum_sound data pre x y post :
  os9_module_crc24 (data ++ crc_footer (os9_module_crc24 data)) = OS9_MODULE_CRC_RESIDUE /\
  (length x = 3%nat -> length y = 3%nat -> Forall is_u8 x -> Forall is_u8 y -> x <> y ->
   os9_module_crc24 (pre ++ x ++ post) = OS9_MODULE_CRC_RESIDUE ->
   os9_module_crc24 (pre ++ y ++ post) <> OS9_MODULE_CRC_RESIDUE).
Proof.
  split.
  { unfold os9_module_crc24 at 1. rewrite fold_left_app. apply crc_closed, crc24_word. }
  intros Lx Ly Hx Hy Hne E1 E2. apply Hne. rewrite <- E1 in E2. unfold os9_module_crc24 in E2.
  rewrite !fold_left_app in E2. fold (os9_module_crc24 pre) in E2.
  destruct x as [|x0 [|x1 [|x2 [|]]]]; [done..| |done]. destruct y as [|y0 [|y1 [|y2 [|]]]]; [done..| |done].
  apply crc_bytes_inj in E2; [|apply crc_byte_word..]. symmetry. by apply (crc_three_inj (os9_module_crc24 pre)).
Qed.

(** A module of five bytes, and the same with its last byte changed. *)
Lemma module_checksum_sound_witness :
  os9_module_crc24 ([0x4A; 0xFC] ++ crc_footer (os9_module_crc24 [0x4A; 0xFC])) = OS9_MODULE_CRC_RESIDUE /\
  os9_module_crc24 ([0x4A; 0xFC] ++ [0x2C; 0x93; 0x01] ++ []) <> OS9_MODULE_CRC_RESIDUE.
Proof.
  destruct (module_checksum_sound [0x4A; 0xFC] [0x4A; 0xFC] (crc_footer (os9_module_crc24 [0x4A; 0xFC]))
    [0x2C; 0x93; 0x01] []) as [H1 H2].
  split; [exact H1|]. apply H2; [reflexivity..| | | |].
  - repeat constructor; vm_compute; intuition discriminate.
  - repeat constructor; vm_compute; intuition discriminate.
  - vm_compute. discriminate.
  - vm_compute. reflexivity.
Defined.
