(* ===== verification/DiscSpec.v ===== *)
(** What the disc reader promises: the bytes of a file are those of its sectors,
    and a listing names only files that lie on the disc. *)

From Stdlib Require Import ZArith Lia Bool.
From stdpp Require Import base tactics numbers list.
From S2P Require Import Prelude Disc CrcSpec.
Open Scope Z_scope.

(** Sectors are whole, and there are fewer than 2^32. *)
Definition disc_ok (d : CdiDisc) : Prop :=
  0 <= sector_count d < 2 ^ 32 /\
  forall lba body, bin_sector d lba = Some body ->
    length body = Z.to_nat CDI_MODE2_SECTOR_BODY /\ Forall is_u8 body.

(** * Slices *)
Lemma length_slice o n b :
  0 <= o -> 0 <= n -> o + n <= Z.of_nat (length b) -> length (slice o n b) = Z.to_nat n.
Proof. intros. unfold slice. rewrite length_take, length_drop. lia. Qed.
Lemma lget_slice o n b i :
  0 <= o -> 0 <= i < n -> lget (slice o n b) i = lget b (o + i).
Proof.
  intros Ho Hi. unfold lget, slice. rewrite !nth_lookup, lookup_take_lt, lookup_drop by lia.
  by replace (Z.to_nat o + Z.to_nat i)%nat with (Z.to_nat (o + i)) by lia.
Qed.
Lemma lget_app_l a b i : 0 <= i < Z.of_nat (length a) -> lget (a ++ b) i = lget a i.
Proof. intros. unfold lget. rewrite app_nth1; [done|lia]. Qed.
Lemma lget_app_r a b i : Z.of_nat (length a) <= i -> lget (a ++ b) i = lget b (i - Z.of_nat (length a)).
Proof. intros. unfold lget. rewrite app_nth2 by lia. f_equal. lia. Qed.
Lemma lget_zeros n i : lget (replicate n 0) i = 0.
Proof. unfold lget. rewrite nth_lookup. destruct (_ !! _) eqn:E; [|done]. by apply lookup_replicate in E as [-> _]. Qed.

(** * Files *)

(** A sector a file may hold: Form 1, or Form 2 with its subheader doubled. *)
Definition sector_readable (body : list Z) : bool :=
  (lget body 3 =? 1) || ((lget body 3 =? 2) && bool_decide (slice 4 4 body = slice 8 4 body)).
(** The byte [i] of the 2048 such a sector gives. *)
Definition sector_byte (body : list Z) (i : Z) : Z :=
  if lget body 3 =? 1 then lget body (4 + i)
  else if z2b (Z.land (lget body 6) 0x20) then 0 else lget body (12 + i).

Lemma file_bytes_spec body count :
  length body = Z.to_nat CDI_MODE2_SECTOR_BODY -> 0 <= count <= CDI_MODE2_FORM1_DATA ->
  match file_bytes body count with
  | Some bytes => sector_readable body = true /\ length bytes = Z.to_nat count /\
      forall i, 0 <= i < count -> lget bytes i = sector_byte body i
  | None => sector_readable body = false
  end.
Proof.
  unfold CDI_MODE2_SECTOR_BODY, CDI_MODE2_FORM1_DATA. intros Hl Hc.
  unfold file_bytes, sector_readable, sector_byte.
  destruct (lget body 3 =? 1); [|destruct (_ && _)]; cbn [orb].
  - split; [done|]. split; [apply length_slice; lia|]. intros i Hi. apply lget_slice; lia.
  - destruct (z2b _); (split; [done|]).
    + split; [apply length_replicate|]. intros i Hi. apply lget_zeros.
    + split; [apply length_slice; lia|]. intros i Hi. apply lget_slice; lia.
  - done.
Qed.

(** The sector that holds the byte [i] of a file from [lba]. *)
Definition file_sector (d : CdiDisc) (lba i : Z) : option (list Z) := bin_sector d (lba + i / 2048).
Definition file_byte (d : CdiDisc) (lba i : Z) : option Z :=
  match file_sector d lba i with
  | Some body => if sector_readable body then Some (sector_byte body (i mod 2048)) else None
  | None => None
  end.

Lemma sectors_of_step size : 2048 < size -> sectors_of size = S (sectors_of (size - 2048)).
Proof. intros H. unfold sectors_of, CDI_MODE2_FORM1_DATA. zlia. Qed.
Lemma sectors_of_one size : 0 < size <= 2048 -> sectors_of size = 1%nat.
Proof. intros H. unfold sectors_of, CDI_MODE2_FORM1_DATA. zlia. Qed.
Lemma sectors_of_none size : size <= 0 -> -2047 < size -> sectors_of size = 0%nat.
Proof. intros H H'. unfold sectors_of, CDI_MODE2_FORM1_DATA. zlia. Qed.

Lemma read_body d lba :
  0 <= lba < sector_count d -> sector_count d < 2 ^ 32 -> cdi_read_sector_body d (u32 lba) = bin_sector d lba.
Proof.
  intros Hl Hd. rewrite u32_id by (unfold is_word; lia). unfold cdi_read_sector_body.
  destruct (Z.leb_spec (sector_count d) lba); [lia|done].
Qed.

Lemma file_byte_first d lba i body :
  bin_sector d lba = Some body -> 0 <= i < 2048 ->
  file_byte d lba i = if sector_readable body then Some (sector_byte body i) else None.
Proof.
  intros E Hi. unfold file_byte, file_sector. rewrite Z.div_small, Z.mod_small, Z.add_0_r, E by lia. done.
Qed.
Lemma file_byte_next d lba i : file_byte d (lba + 1) i = file_byte d lba (i + 2048).
Proof.
  unfold file_byte, file_sector. replace (i + 2048) with (i + 1 * 2048) by lia.
  rewrite Z.div_add, Z.mod_add by lia. by replace (lba + 1 + i / 2048) with (lba + (i / 2048 + 1)) by lia.
Qed.

Lemma read_file_sectors_spec d n : forall lba size,
  disc_ok d -> 0 <= lba -> 0 < size -> n = sectors_of size -> lba + Z.of_nat n <= sector_count d ->
  match read_file_sectors d n lba size with
  | Some bytes => length bytes = Z.to_nat size /\
      forall i, 0 <= i < size -> file_byte d lba i = Some (lget bytes i)
  | None => exists i, 0 <= i < size /\ file_byte d lba i = None
  end.
Proof.
  induction n as [|n IH]; intros lba size Hd Hl Hs Hn Hext.
  { unfold sectors_of, CDI_MODE2_FORM1_DATA in Hn. zlia. }
  pose proof Hd as [Hcount Hbody]. cbn [read_file_sectors].
  destruct (Z.leb_spec size 0); [lia|]. cbv zeta. rewrite read_body by lia.
  destruct (bin_sector d lba) as [body|] eqn:E.
  2: { exists 0. split; [lia|]. unfold file_byte, file_sector. rewrite Z.div_small, Z.add_0_r by lia. by rewrite E. }
  pose proof (Hbody _ _ E) as [Hlen _]. set (count := Z.min size CDI_MODE2_FORM1_DATA).
  assert (0 < count <= 2048 /\ count <= size) as [Hc Hcs] by (subst count; unfold CDI_MODE2_FORM1_DATA; lia).
  pose proof (file_bytes_spec body count Hlen ltac:(unfold CDI_MODE2_FORM1_DATA; lia)) as Hf.
  destruct (file_bytes body count) as [bytes|].
  2: { exists 0. split; [lia|]. rewrite (file_byte_first d lba 0 body) by (done || lia). by rewrite Hf. }
  destruct Hf as (Hr & Hlb & Hbytes).
  assert (forall i, 0 <= i < count -> file_byte d lba i = Some (lget bytes i)) as Hfirst.
  { intros i Hi. rewrite (file_byte_first d lba i body), Hr by (done || lia). by rewrite Hbytes. }
  destruct (Z.le_gt_cases size 2048) as [Hsmall|Hbig].
  - assert (size - count = 0) as -> by (subst count; unfold CDI_MODE2_FORM1_DATA; lia).
    assert (count = size) as Ecs by (subst count; unfold CDI_MODE2_FORM1_DATA; lia). rewrite Ecs in *.
    replace (read_file_sectors d n (lba + 1) 0) with (Some (@nil Z)) by (by destruct n).
    rewrite app_nil_r. done.
  - assert (count = 2048) as Ec by (subst count; unfold CDI_MODE2_FORM1_DATA; lia). clearbody count. subst count.
    rewrite sectors_of_step in Hn by lia. injection Hn as Hn.
    specialize (IH (lba + 1) (size - 2048) Hd ltac:(lia) ltac:(lia) Hn ltac:(lia)).
    destruct (read_file_sectors d n (lba + 1) (size - 2048)) as [rest|].
    + destruct IH as [Hlr Hrest]. split; [rewrite length_app, Hlb, Hlr; lia|]. intros i Hi.
      destruct (Z.lt_ge_cases i 2048).
      * rewrite lget_app_l by lia. apply Hfirst. lia.
      * rewrite lget_app_r by lia. rewrite Hlb, Z2Nat.id by lia. rewrite <- Hrest by lia.
        rewrite file_byte_next. f_equal. lia.
    + destruct IH as (i & Hi & E'). exists (i + 2048). split; [lia|]. by rewrite <- file_byte_next.
Qed.

Lemma valid_extent_sectors d lba size :
  valid_extent d lba size = true -> lba < sector_count d /\ lba + Z.of_nat (sectors_of size) <= sector_count d \/ size < 0.
Proof.
  unfold valid_extent, sectors_of, CDI_MODE2_FORM1_DATA. intros H. apply andb_true_iff in H as [H1 H2].
  apply Z.ltb_lt in H1. apply Z.leb_le in H2. destruct (Z.lt_ge_cases size 0); [by right|left]. split; [done|]. zlia.
Qed.

(** A file's bytes are its sectors'. For a file whose extent lies on the disc
    and a buffer large enough, the read gives exactly the file's size in bytes,
    byte i being the byte i mod 2048 of the user data of sector i / 2048, zero
    for an audio or video sector; it fails only when some sector of the extent
    cannot be read or is of neither form. A smaller buffer, or an extent past
    the end of the disc, is refused. *)
Theorem file_read_exact d f capacity :
  disc_ok d -> 0 <= file_lba f -> 0 <= file_size f ->
  match cdi_read_file_form1 d f capacity with
  | Some bytes =>
    file_size f <= capacity /\ length bytes = Z.to_nat (file_size f) /\
    forall i, 0 <= i < file_size f -> file_byte d (file_lba f) i = Some (lget bytes i)
  | None =>
    capacity < file_size f \/ valid_extent d (file_lba f) (file_size f) = false \/
    exists i, 0 <= i < file_size f /\ file_byte d (file_lba f) i = None
  end.
Proof.
  intros Hd Hl Hs. unfold cdi_read_file_form1. destruct (Z.ltb_spec capacity (file_size f)); [by left|].
  destruct (valid_extent d (file_lba f) (file_size f)) eqn:Hv; cbn [orb negb]; [|by right; left].
  destruct (valid_extent_sectors _ _ _ Hv) as [[H1 H2]|]; [|lia].
  destruct (Z.eq_dec (file_size f) 0) as [E|Hne].
  - rewrite E. cbn. split; [lia|]. split; [done|]. lia.
  - pose proof (read_file_sectors_spec d _ (file_lba f) (file_size f) Hd Hl ltac:(lia) eq_refl H2) as Hr.
    destruct (read_file_sectors _ _ _ _) as [bytes|]; [|by right; right]. split; [lia|done].
Qed.

(** * Listings *)
Definition path_byte (c : Z) : Prop := is_u8 c /\ c <> 0 /\ c <> 0x5C.
Definition path_ok (p : list Z) : Prop := Forall path_byte p /\ Z.of_nat (length p) < PATH_SIZE.

(** A file that lies on the disc, under a name a C string of 256 bytes holds. *)
Definition file_ok (d : CdiDisc) (f : CdiFile) : Prop :=
  is_u32 (file_lba f) /\ is_u32 (file_size f) /\ valid_extent d (file_lba f) (file_size f) = true /\
  path_ok (file_path f) /\ file_path f <> [].

Definition walk_ok (d : CdiDisc) (w : DirectoryWalk) : Prop :=
  Forall (file_ok d) (walk_out w) /\ NoDup (directories w) /\
  Z.of_nat (length (directories w)) <= DIRECTORIES_MAX.

Lemma be32_u32 p o : Forall is_u8 p -> is_u32 (be32 p o).
Proof.
  intros Hp. assert (forall i, is_u8 (lget p i)) as Hb by (intros i; apply Forall_lget; [done|word]).
  assert (forall i n, 0 <= n <= 24 -> is_u32 (Z.shiftl (lget p i) n)) as Hs.
  { intros i n Hn. destruct (Hb i) as [H0 H1]. unfold is_word. rewrite Z.shiftl_mul_pow2 by lia.
    pose proof (Z.pow_pos_nonneg 2 n ltac:(lia) ltac:(lia)). pose proof (Z.pow_le_mono_r 2 n 24 ltac:(lia) ltac:(lia)).
    change (2 ^ 8) with 256 in H1. change (2 ^ 24) with 16777216 in *. change (2 ^ 32) with 4294967296. nia. }
  unfold be32. repeat apply lor_word; try lia; try (apply Hs; lia). apply (is_word_mono 8); [lia|apply Hb].
Qed.

Lemma slice_u8 o n b : Forall is_u8 b -> Forall is_u8 (slice o n b).
Proof. intros H. unfold slice. by apply Forall_take, Forall_drop. Qed.

Lemma form1_spec d lba s :
  disc_ok d -> cdi_read_sector_form1 d lba = Some s -> length s = 2048%nat /\ Forall is_u8 s.
Proof.
  intros [_ Hd]. unfold cdi_read_sector_form1, cdi_read_sector_body. destruct (_ <=? lba); [done|].
  destruct (bin_sector d lba) as [body|] eqn:E; [|done]. destruct (Hd _ _ E) as [Hl Hb].
  unfold CDI_MODE2_SECTOR_BODY in Hl.
  destruct (_ =? 1); [|destruct (_ || _); [done|]]; intros [= <-];
    (split; [|by apply slice_u8]); unfold CDI_MODE2_FORM1_DATA; rewrite length_slice by lia; done.
Qed.

Lemma directory_bytes d n : forall lba size bytes,
  disc_ok d -> 0 <= size -> read_directory_sectors d n lba size = Some bytes ->
  length bytes = Z.to_nat size /\ Forall is_u8 bytes.
Proof.
  induction n as [|n IH]; intros lba size bytes Hd Hs; cbn [read_directory_sectors];
    (destruct (Z.leb_spec size 0); [intros [= <-]; by replace size with 0 by lia|]); [done|].
  destruct (cdi_read_sector_form1 d (u32 lba)) as [s|] eqn:E; [|done]. cbv zeta.
  destruct (form1_spec _ _ _ Hd E) as [Hl Hb]. unfold CDI_MODE2_FORM1_DATA.
  destruct (read_directory_sectors d n _ _) as [rest|] eqn:Er; [|done]. intros [= <-].
  apply IH in Er as [Hlr Hbr]; [|done|lia].
  rewrite length_app, length_take, Hl, Hlr. split; [lia|]. apply Forall_app. split; [by apply Forall_take|done].
Qed.

Lemma name_bytes name : Forall is_u8 name -> existsb bad_name_byte name = false -> Forall path_byte name.
Proof.
  induction 1 as [|c name Hc _ IH]; cbn [existsb]; [constructor|]. intros H. apply orb_false_iff in H as [H1 H2].
  constructor; [|by apply IH]. unfold bad_name_byte in H1. rewrite !orb_false_iff, !Z.eqb_neq in H1.
  destruct H1 as [[H0 H0'] H1]. by split.
Qed.

Lemma record_ok d cdi prefix record entry :
  Forall is_u8 record -> path_ok prefix ->
  lget record 0 <= Z.of_nat (length record) -> read_record d cdi prefix record = Some entry ->
  match entry with
  | EntrySelf => True
  | EntryFile f => file_ok d f
  | EntryDirectory f => is_u32 (file_lba f) /\ is_u32 (file_size f) /\ path_ok (file_path f ++ [0x2F])
  end.
Proof.
  intros Hb [Hp Hpl] Hlen. unfold read_record. cbv zeta.
  assert (0 <= lget record 32) as Hn by (apply (Forall_lget is_u8 record 32); [done|word]).
  destruct (_ || _) eqn:Hbad; [done|]. rewrite !orb_false_iff in Hbad. destruct Hbad as [[[H0 H1] _] _].
  apply Z.eqb_neq in H0. apply Z.ltb_ge in H1.
  assert (33 + lget record 32 <= Z.of_nat (length record)) as Hroom by (destruct (z2b _) in H1; lia). clear H1.
  destruct (_ && (lget record 33 <=? 1)); [by intros [= <-]|].
  destruct (negb (valid_extent _ _ _) || _ || _ || _) eqn:Hv; [done|].
  rewrite !orb_false_iff in Hv. destruct Hv as [[[Hv _] _] _]. apply negb_false_iff in Hv.
  destruct (Z.leb_spec PATH_SIZE (Z.of_nat (length prefix) + lget record 32)); [done|].
  set (name := slice 33 (lget record 32) record).
  assert (length name = Z.to_nat (lget record 32)) as Hln by (apply length_slice; lia).
  destruct (existsb bad_name_byte name) eqn:Hname; [done|].
  assert (Forall path_byte (prefix ++ name)) as Hpath
    by (apply Forall_app; split; [done|apply name_bytes; [by apply slice_u8|done]]).
  assert (is_u32 (be32 record 6) /\ is_u32 (be32 record 14)) as [Hlba Hsize] by (split; by apply be32_u32).
  assert (prefix ++ name <> []) as Hne.
  { intros E. apply (f_equal length) in E. rewrite length_app, Hln in E. cbn [length] in E. lia. }
  assert (file_ok d (mkFile (prefix ++ name) (be32 record 6) (be32 record 14))) as Hf.
  { split; [done|]. split; [done|]. split; [done|]. split; [|done]. split; [done|].
    cbn [file_path]. rewrite length_app, Hln. lia. }
  destruct (if cdi then _ else _); [|by intros [= <-]].
  destruct (Z.leb_spec PATH_SIZE (Z.of_nat (length (prefix ++ name)) + 1)); [done|]. intros [= <-].
  split; [done|]. split; [done|]. cbn [file_path]. split.
  - apply Forall_app. split; [done|]. repeat constructor; done.
  - rewrite length_app. cbn [length]. lia.
Qed.

Lemma record_bounds bytes off :
  Forall is_u8 bytes -> 0 <= off -> lget (drop (Z.to_nat off) bytes) 0 = lget bytes off.
Proof.
  intros _ Ho. unfold lget. rewrite !nth_lookup, lookup_drop. f_equal. f_equal. cbn. lia.
Qed.

Section Records.
Context (d : CdiDisc) (descend : CdiFile -> DirectoryWalk -> option DirectoryWalk).
Context (prefix bytes : list Z) (size : Z).

Lemma walk_records_ok n : forall off walk walk',
  (forall f w w', is_u32 (file_lba f) -> is_u32 (file_size f) -> path_ok (file_path f ++ [0x2F]) -> walk_ok d w ->
     descend f w = Some w' -> walk_ok d w') ->
  Forall is_u8 bytes -> length bytes = Z.to_nat size -> path_ok prefix -> 0 <= off -> walk_ok d walk ->
  walk_records d descend prefix bytes size n off walk = Some walk' -> walk_ok d walk'.
Proof.
  induction n as [|n IH]; intros off walk walk' Hdesc Hb Hl Hp Ho Hw; cbn [walk_records];
    (destruct (Z.leb_spec size off); [by intros [= <-]|]); [done|]. cbv zeta.
  assert (0 <= lget bytes off) as Hr by (apply (Forall_lget is_u8 bytes off); [done|word]).
  destruct (_ =? 0) eqn:Ez.
  { apply IH; [done..| |done]. assert (0 <= off mod CDI_MODE2_FORM1_DATA < CDI_MODE2_FORM1_DATA)
      by (apply Z.mod_pos_bound; done). destruct (_ <? size); lia. }
  destruct (_ || _ || _) eqn:Hbad; [done|]. rewrite !orb_false_iff, !Z.ltb_ge in Hbad. destruct Hbad as [[H34 Hroom] _].
  destruct (read_record d _ prefix _) as [entry|] eqn:Er; [|done].
  apply record_ok in Er; [|by apply Forall_drop|done|rewrite record_bounds, length_drop by done; lia].
  destruct entry as [|f|f].
  - apply IH; done || lia.
  - apply IH; [done..|lia|]. destruct Hw as (Hout & Hdirs). split; [|done]. cbn [walk_out].
    apply Forall_app. split; [done|by constructor].
  - destruct (descend f walk) as [w|] eqn:Ed; [|done]. destruct Er as (H1 & H2 & H3).
    apply IH; [done..|lia|]. by apply (Hdesc f walk w).
Qed.

(** A record moves the offset on, so that as many turns as bytes are enough. *)
Lemma walk_records_enough n m : forall off walk,
  Forall is_u8 bytes -> 0 <= off -> size - off <= Z.of_nat n -> size - off <= Z.of_nat m ->
  walk_records d descend prefix bytes size n off walk = walk_records d descend prefix bytes size m off walk.
Proof.
  revert m. induction n as [|n IH]; intros m off walk Hb Ho Hn Hm; destruct m as [|m]; cbn [walk_records];
    (destruct (Z.leb_spec size off); [done|]); [lia..|]. cbv zeta.
  assert (0 <= lget bytes off) as Hr by (apply (Forall_lget is_u8 bytes off); [done|word]).
  assert (0 <= off mod CDI_MODE2_FORM1_DATA < CDI_MODE2_FORM1_DATA) as Hmod by (by apply Z.mod_pos_bound).
  destruct (_ =? 0) eqn:Ez.
  { apply IH; [done|..]; destruct (Z.ltb_spec (off + (CDI_MODE2_FORM1_DATA - off mod CDI_MODE2_FORM1_DATA)) size); lia. }
  destruct (_ || _ || _) eqn:Hbad; [done|]. rewrite !orb_false_iff, !Z.ltb_ge in Hbad. destruct Hbad as [[H34 _] _].
  destruct (read_record d _ prefix _) as [[|f|f]|]; [..|done].
  - apply IH; done || lia.
  - apply IH; done || lia.
  - destruct (descend f walk) as [w|]; [|done]. apply IH; done || lia.
Qed.
End Records.

Lemma walk_directory_ok d depth : forall lba size prefix walk walk',
  disc_ok d -> is_u32 size -> path_ok prefix -> walk_ok d walk ->
  walk_directory d depth lba size prefix walk = Some walk' -> walk_ok d walk'.
Proof.
  induction depth as [|depth IH]; intros lba size prefix walk walk' Hd Hs Hp Hw; cbn [walk_directory]; [done|].
  destruct (_ || _ || _ || _ || _) eqn:Hbad; [done|]. rewrite !orb_false_iff in Hbad.
  destruct Hbad as [[[[_ _] _] Hcount] Hseen]. apply Z.leb_gt in Hcount. cbv zeta.
  destruct (read_directory_sectors _ _ _ _) as [bytes|] eqn:Eb; [|done].
  destruct (directory_bytes _ _ _ _ _ Hd (proj1 Hs) Eb) as [Hl Hb].
  apply walk_records_ok; [|done..|lia|].
  - intros f w w' H1 H2 H3 H4. by apply IH.
  - destruct Hw as (Hout & Hnd & Hlen). split; [done|]. cbn [directories length]. split; [|lia].
    constructor; [|done]. intros Hin. apply not_true_iff_false in Hseen. apply Hseen, existsb_exists.
    exists lba. split; [by apply list_elem_of_In|apply Z.eqb_refl].
Qed.

Lemma find_root_ok d cdi lba size : disc_ok d -> find_root d = Some (cdi, lba, size) -> is_u32 size.
Proof.
  intros Hd. unfold find_root. destruct (cdi_read_sector_form1 d CDI_VOLUME_DESC_LBA) as [s|] eqn:E; [|done].
  apply form1_spec in E as [_ Hs]; [|done]. destruct (_ || _); [done|]. destruct (bool_decide _).
  - destruct (_ || _); [done|]. destruct (cdi_read_sector_form1 d (be32 s 148)) as [t|] eqn:Et; [|done].
    destruct (_ || _ || _ || _); [done|]. destruct (cdi_read_sector_form1 d (be32 t 2)) as [r|] eqn:Er; [|done].
    apply form1_spec in Er as [_ Hr]; [|done]. destruct (_ || _ || _ || _); [done|]. intros [= _ _ <-].
    by apply be32_u32.
  - destruct (bool_decide _); [|done]. destruct (_ || _); [done|]. intros [= _ _ <-]. by apply be32_u32.
Qed.

Lemma listed_ok d files : disc_ok d -> cdi_list_files d = Some files -> Forall (file_ok d) files.
Proof.
  intros Hd. unfold cdi_list_files. destruct (find_root d) as [[[cdi lba] size]|] eqn:Er; [|done].
  apply find_root_ok in Er; [|done]. destruct (walk_directory _ _ _ _ _ _) as [w|] eqn:Ew; [|done]. intros [= <-].
  apply walk_directory_ok in Ew as [Hout _]; [done|done|done| |].
  - split; [constructor|done].
  - split; [constructor|]. split; [constructor|done].
Qed.

(** A listing stays on the disc. Every file it names has its whole extent on
    the disc and a non-empty path of fewer than 256 bytes without a zero or a
    backslash, whatever the directory records say; and the loop over a
    directory's records ends: as many turns as it has bytes decide it. *)
Theorem listing_on_disc d :
  disc_ok d ->
  (forall files, cdi_list_files d = Some files -> Forall (file_ok d) files) /\
  (forall descend prefix bytes size walk n, Forall is_u8 bytes -> (Z.to_nat size <= n)%nat ->
     walk_records d descend prefix bytes size n 0 walk =
     walk_records d descend prefix bytes size (Z.to_nat size) 0 walk).
Proof.
  intros Hd. split; [intros files; by apply listed_ok|].
  intros. apply walk_records_enough; [done|lia..].
Qed.

(** * Modules *)
Lemma scan_from_spec buf len n m : forall o,
  m ∈ scan_from buf len n o <-> exists k, (k < n)%nat /\ os9_module_at buf len (o + 2 * Z.of_nat k) = Some m.
Proof.
  induction n as [|n IH]; intros o; cbn [scan_from].
  - split; [intros H; by apply elem_of_nil in H|]. intros (k & Hk & _). lia.
  - assert (m ∈ scan_from buf len n (o + 2) <->
      exists k, (0 < k < S n)%nat /\ os9_module_at buf len (o + 2 * Z.of_nat k) = Some m) as Hrest.
    { rewrite IH. split; intros (k & Hk & E).
      - exists (S k). split; [lia|]. rewrite <- E. f_equal. lia.
      - exists (k - 1)%nat. split; [lia|]. rewrite <- E. f_equal. lia. }
    assert (o + 2 * Z.of_nat 0 = o) as E0 by lia.
    destruct (os9_module_at buf len o) as [m0|] eqn:Em.
    + rewrite elem_of_cons, Hrest. split.
      * intros [->|(k & Hk & E)]; [exists 0%nat; split; [lia|by rewrite E0]|exists k; split; [lia|done]].
      * intros (k & Hk & E). destruct k as [|k]; [left; rewrite E0, Em in E; congruence|right; exists (S k); split; [lia|done]].
    + rewrite Hrest. split; intros (k & Hk & E); exists k; (split; [|done]); [lia|].
      destruct k; [rewrite E0, Em in E; done|lia].
Qed.

Lemma module_name_length room ns : (length (module_name room ns) <= room)%nat.
Proof.
  revert ns. induction room as [|room IH]; intros [|c ns]; cbn [module_name]; try (cbn; lia).
  destruct (c =? 0); [cbn; lia|]. destruct (z2b _); cbn [length]; [lia|]. specialize (IH ns). lia.
Qed.

Lemma module_at_sound buf len o m :
  0 <= o -> os9_module_at buf len o = Some m ->
  logical_offset m = o /\ OS9_MODULE_HDR_SIZE + 3 <= module_size m /\ o + module_size m <= len /\
  (length (module_string m) <= 63)%nat /\
  lget buf o = 0x4A /\ lget buf (o + 1) = 0xFC /\
  crc_ok m = (os9_module_crc24 (slice o (module_size m) buf) =? OS9_MODULE_CRC_RESIDUE).
Proof.
  intros Ho. unfold os9_module_at. cbv zeta.
  assert (forall i, 0 <= i -> lget (drop (Z.to_nat o) buf) i = lget buf (o + i)) as Hdrop.
  { intros i Hi. unfold lget. rewrite !nth_lookup, lookup_drop. do 2 f_equal. lia. }
  rewrite !Hdrop, Z.add_0_r by lia.
  destruct (Z.eqb_spec (lget buf o) 0x4A) as [H0|]; [|done].
  destruct (Z.eqb_spec (lget buf (o + 1)) 0xFC) as [H1|]; cbn [andb negb]; [|done].
  set (avail := if _ <? len - o then _ else _). assert (avail <= len - o) as Ha
    by (subst avail; destruct (Z.ltb_spec 0xFFFFFFFF (len - o)); lia).
  destruct (negb _); [done|]. set (size := be32 _ 4). destruct (_ || _) eqn:Hs; [done|].
  apply orb_false_iff in Hs as [Hs1 Hs2]. apply Z.ltb_ge in Hs1, Hs2. intros [= <-]. cbn [logical_offset module_size module_string crc_ok].
  split; [done|]. split; [done|]. split; [lia|]. split.
  { destruct (_ && _); [|cbn; lia]. etransitivity; [apply module_name_length|]. lia. }
  split; [done|]. split; [done|]. fold (slice o size buf).
  rewrite (proj2 (Z.leb_le _ _)) by lia. rewrite (proj2 (Z.leb_le _ _)) by lia. done.
Qed.

(** Bytes that make a module: the sync word, the header parity, the size and the
    complemented checksum at the end. *)
Definition well_formed_module (body : list Z) : Prop :=
  let m := body ++ crc_footer (os9_module_crc24 body) in
  OS9_MODULE_HDR_SIZE <= Z.of_nat (length body) /\ Z.of_nat (length m) < 2 ^ 32 /\
  lget body 0 = 0x4A /\ lget body 1 = 0xFC /\ be32 body 4 = Z.of_nat (length m) /\
  os9_header_parity_ok body (Z.of_nat (length body)) = true.

Lemma parity_ext a b n k :
  (forall i, 0 <= i < OS9_MODULE_HDR_SIZE -> lget a i = lget b i) ->
  OS9_MODULE_HDR_SIZE <= k -> os9_header_parity_ok a n = true -> os9_header_parity_ok b k = true.
Proof.
  intros Hab Hk. unfold os9_header_parity_ok. intros H. apply andb_true_iff in H as [_ H].
  apply andb_true_iff. split; [by apply Z.leb_le|]. rewrite <- H. f_equal.
  assert (forall l x, Forall (fun o => (o < 24)%nat) l ->
    fold_left (fun x o => Z.lxor x (be16 b (2 * Z.of_nat o))) l x =
    fold_left (fun x o => Z.lxor x (be16 a (2 * Z.of_nat o))) l x) as Hl.
  { intros l. induction l as [|o l IH]; intros x Ho; cbn [fold_left]; [done|]. apply Forall_cons in Ho as [Ho Hl].
    rewrite IH by done. do 2 f_equal. unfold be16. unfold OS9_MODULE_HDR_SIZE in Hab. by rewrite !Hab by lia. }
  apply Hl. apply Forall_forall. intros o Ho. apply elem_of_seq in Ho. lia.
Qed.

Lemma module_at_complete pre body post :
  let m := body ++ crc_footer (os9_module_crc24 body) in
  well_formed_module body ->
  exists r, os9_module_at (pre ++ m ++ post) (Z.of_nat (length (pre ++ m ++ post))) (Z.of_nat (length pre)) = Some r /\
    logical_offset r = Z.of_nat (length pre) /\ module_size r = Z.of_nat (length m) /\ crc_ok r = true.
Proof.
  intros m (Hh & Hlt & H0 & H1 & H4 & Hpar). fold m in Hlt, H4. unfold os9_module_at. cbv zeta.
  rewrite Nat2Z.id, drop_app_length. unfold OS9_MODULE_HDR_SIZE in *.
  assert (length m = length body + 3)%nat as Hm by (subst m; by rewrite length_app).
  assert (forall i, 0 <= i < 48 -> lget (m ++ post) i = lget body i) as Hget.
  { intros i Hi. rewrite lget_app_l by lia. subst m. by rewrite lget_app_l by lia. }
  assert (be32 (m ++ post) 4 = be32 body 4) as E4 by (unfold be32; by rewrite !Hget by lia).
  rewrite !Hget, H0, H1, E4, H4 by lia. cbn [Z.eqb Pos.eqb andb negb].
  rewrite !length_app. set (avail := if _ <? _ then _ else _).
  assert (Z.of_nat (length m) <= avail) as Ha
    by (subst avail; destruct (Z.ltb_spec 0xFFFFFFFF (Z.of_nat (length pre + (length m + length post)) - Z.of_nat (length pre)));
        change (2 ^ 32) with 4294967296 in Hlt; lia).
  rewrite (parity_ext body (m ++ post) (Z.of_nat (length body))) by (done || (unfold OS9_MODULE_HDR_SIZE; intros; rewrite ?Hget by lia; done || lia)).
  cbn [negb].
  destruct (Z.ltb_spec (Z.of_nat (length m)) (48 + 3)); [lia|].
  destruct (Z.ltb_spec avail (Z.of_nat (length m))); [lia|]. cbn [orb].
  eexists. split; [reflexivity|]. cbn [logical_offset module_size crc_ok]. split; [done|]. split; [done|].
  rewrite Nat2Z.id, take_app_length. rewrite (proj2 (Z.leb_le _ _)), (proj2 (Z.leb_le _ _)) by lia. cbn [andb].
  apply Z.eqb_eq. subst m. unfold os9_module_crc24 at 1. rewrite fold_left_app. apply crc_closed, crc24_word.
Qed.

(** C40. The scan finds the modules of a buffer and nothing that is not there. A
    module whose header parity is right and which carries its size and the
    complement of its checksum is found with its checksum accepted, wherever
    it lies at an even offset and whatever surrounds it. Conversely all that is
    reported lies inside the buffer at an even offset behind the sync word, has
    a name of at most 63 characters, and is marked good exactly when the
    checksum of its bytes is the residue. *)
Theorem module_scan_exact buf :
  (forall r, r ∈ os9_scan_buffer buf (Z.of_nat (length buf)) ->
     exists k, logical_offset r = 2 * Z.of_nat k /\ OS9_MODULE_HDR_SIZE + 3 <= module_size r /\
       logical_offset r + module_size r <= Z.of_nat (length buf) /\ (length (module_string r) <= 63)%nat /\
       lget buf (logical_offset r) = 0x4A /\ lget buf (logical_offset r + 1) = 0xFC /\
       crc_ok r = (os9_module_crc24 (slice (logical_offset r) (module_size r) buf) =? OS9_MODULE_CRC_RESIDUE)) /\
  (forall pre body post, let m := body ++ crc_footer (os9_module_crc24 body) in
     buf = pre ++ m ++ post -> Nat.Even (length pre) -> well_formed_module body ->
     exists r, r ∈ os9_scan_buffer buf (Z.of_nat (length buf)) /\
       logical_offset r = Z.of_nat (length pre) /\ module_size r = Z.of_nat (length m) /\ crc_ok r = true).
Proof.
  split.
  - intros r Hr. apply scan_from_spec in Hr as (k & _ & E). exists k. rewrite Z.add_0_l in E.
    apply module_at_sound in E as (-> & E); [|lia]. by split.
  - intros pre body post m -> [k Hk] Hw. destruct (module_at_complete pre body post Hw) as (r & E & Hr).
    exists r. split; [|done]. apply scan_from_spec. exists k. rewrite Z.add_0_l.
    replace (2 * Z.of_nat k) with (Z.of_nat (length pre)) by lia. split; [|done].
    destruct Hw as (Hh & _). assert (length m = length body + 3)%nat as Hm by (subst m; by rewrite length_app).
    rewrite (length_app pre), (length_app m). unfold OS9_MODULE_HDR_SIZE in *. clearbody m. zlia.
Qed.

(** ** A small disc: a root directory with the file A in it *)
Definition put_bytes (l : list Z) (o : Z) (bs : list Z) : list Z :=
  take (Z.to_nat o) l ++ bs ++ drop (Z.to_nat o + length bs) l.
Definition blank_sector : list Z := put_bytes (replicate 2340 0) 3 [1].
Definition sample_descriptor : list Z :=
  put_bytes (put_bytes (put_bytes (put_bytes blank_sector 4 ([1] ++ iso_std_id ++ [1])) 160 [34; 0]) 166 [0; 0; 0; 17])
    174 [0; 0; 8; 0].
Definition sample_root : list Z :=
  put_bytes blank_sector 4 ([34; 0; 0; 0; 0; 0; 0; 0; 0; 18; 0; 0; 0; 0; 0; 0; 0; 5] ++ replicate 14 0 ++ [1; 0x41]).
Definition sample_disc : CdiDisc :=
  mkDisc (fun lba => if lba =? 16 then Some sample_descriptor else if lba =? 17 then Some sample_root
                     else if lba =? 18 then Some (put_bytes blank_sector 4 [1; 2; 3; 4; 5]) else None) 19.

(** The sectors of a small disc: the descriptor, the root directory and a file. *)
Definition whole_sector (b : list Z) : bool :=
  (length b =? 2340)%nat && forallb (fun x => bool_decide (is_u8 x)) b.
Lemma small_disc_ok descriptor root data :
  whole_sector descriptor && whole_sector root && whole_sector data = true ->
  disc_ok (mkDisc (fun lba => if lba =? 16 then Some descriptor else if lba =? 17 then Some root
                              else if lba =? 18 then Some data else None) 19).
Proof.
  intros H. apply andb_true_iff in H as [H H3]. apply andb_true_iff in H as [H1 H2].
  assert (forall b, whole_sector b = true ->
    length b = Z.to_nat CDI_MODE2_SECTOR_BODY /\ Forall is_u8 b) as Hb.
  { intros b H. apply andb_true_iff in H as [E1 E2]. apply Nat.eqb_eq in E1. split; [exact E1|].
    rewrite forallb_forall in E2. apply Forall_forall. intros x Hx. apply list_elem_of_In in Hx.
    apply E2 in Hx. by apply bool_decide_eq_true in Hx. }
  split; [by split|]. cbn [bin_sector]. intros lba body.
  destruct (lba =? 16); [|destruct (lba =? 17); [|destruct (lba =? 18); [|done]]]; intros [= <-]; by apply Hb.
Qed.
Lemma sample_disc_ok : disc_ok sample_disc.
Proof. apply small_disc_ok. vm_compute. reflexivity. Qed.

Lemma listing_on_disc_witness :
  cdi_list_files sample_disc = Some [mkFile [0x41] 18 5] /\ Forall (file_ok sample_disc) [mkFile [0x41] 18 5].
Proof.
  assert (cdi_list_files sample_disc = Some [mkFile [0x41] 18 5]) as E by (vm_compute; reflexivity).
  destruct (listing_on_disc sample_disc sample_disc_ok) as [H _]. split; [exact E|]. exact (H _ E).
Defined.

Lemma file_read_exact_witness :
  cdi_read_file_form1 sample_disc (mkFile [0x41] 18 5) 5 = Some [1; 2; 3; 4; 5] /\
  file_byte sample_disc 18 4 = Some 5.
Proof.
  pose proof (file_read_exact sample_disc (mkFile [0x41] 18 5) 5 sample_disc_ok ltac:(cbn; lia) ltac:(cbn; lia)) as H.
  assert (cdi_read_file_form1 sample_disc (mkFile [0x41] 18 5) 5 = Some [1; 2; 3; 4; 5]) as E by (vm_compute; reflexivity).
  rewrite E in H. destruct H as (_ & _ & H). split; [exact E|]. exact (H 4 ltac:(cbn; lia)).
Defined.

(** The smallest module: a header and its checksum, at offset 2. *)
Definition sample_module : list Z :=
  [0x4A; 0xFC; 0; 0; 0; 0; 0; 0x33] ++ replicate 38 0 ++ [0xB5; 0x30].
Lemma module_scan_exact_witness :
  exists r, r ∈ os9_scan_buffer ([0; 0] ++ (sample_module ++ crc_footer (os9_module_crc24 sample_module)) ++ [7]) 54 /\
    logical_offset r = 2 /\ module_size r = 51 /\ crc_ok r = true.
Proof.
  assert (well_formed_module sample_module) as Hw
    by (unfold well_formed_module; vm_compute; intuition discriminate).
  destruct (module_scan_exact ([0; 0] ++ (sample_module ++ crc_footer (os9_module_crc24 sample_module)) ++ [7])) as [_ H].
  exact (H [0; 0] sample_module [7] eq_refl (ex_intro _ 1%nat eq_refl) Hw).
Defined.
