(* ===== verification/Loader.v ===== *)
(** The native checksum of the module loader (runner/src/cdi_loader_math.h): one
    word of a module's CRC folded in closed form, and the thirty firmware
    instructions it stands for, materialised one by one when an interrupt or
    the debugger stops inside a word. *)

From Stdlib Require Import ZArith Lia Bool.
From stdpp Require Import base tactics numbers list gmap.
From S2P Require Import Prelude Irq Cpu.
Open Scope Z_scope.

Record CrcFlight := mkFlight {
  before : M68KState;
  word : Z;
  completed : nat;
  flight_pc : Z;
}.

Definition mask_of (bits : Z) : Z := if bits =? 32 then 0xFFFFFFFF else u32 (Z.shiftl 1 bits) - 1.

Definition upd_sr (f : Z -> Z) (s : M68KState) : M68KState := set_SR (u16 (f (SR s))) s.

Definition logical (v bits : Z) (s : M68KState) : M68KState :=
  let s := upd_sr (fun sr => Z.land sr (Z.lnot 0x0F)) s in
  let s := if Z.land v (mask_of bits) =? 0 then upd_sr (fun sr => Z.lor sr SR_Z) s else s in
  if z2b (Z.land v (u32 (Z.shiftl 1 (bits - 1)))) then upd_sr (fun sr => Z.lor sr SR_N) s else s.

Definition shift (v bits count : Z) (left : bool) (s : M68KState) : Z * M68KState :=
  let mask := mask_of bits in
  let carry := if left then Z.land (Z.shiftr v (bits - count)) 1 else Z.land (Z.shiftr v (count - 1)) 1 in
  let result := Z.land (if left then u32 (Z.shiftl v count) else Z.shiftr (Z.land v mask) count) mask in
  let s := upd_sr (fun sr => Z.land sr (Z.lnot 0x1F)) s in
  let s := logical result bits s in
  let s := if z2b carry then upd_sr (fun sr => Z.lor sr (Z.lor SR_X SR_C)) s else s in
  (result, s).

(** The parity table of the firmware, and the byte it is read from. *)
Definition PARITY_TABLE : Z := 0x6BC0.

Section Rom.
Context (g_rom : mem).

Definition rd (k : Z) (s : M68KState) : Z := lget (regD s) k.

(** A register that takes a value and its logical flags. *)
Definition put_logical (k v bits : Z) (s : M68KState) : M68KState := logical v bits (set_D k v s).
(** The low word of a register, with the flags of register [k] at 16 bits. *)
Definition put_low (k v : Z) (s : M68KState) : M68KState :=
  put_logical k (Z.lor (Z.land (rd k s) 0xFFFF0000) (Z.land v 0xFFFF)) 16 s.
Definition put_shift (k bits count : Z) (left : bool) (s : M68KState) : M68KState :=
  let '(r, s) := shift (rd k s) bits count left s in set_D k r s.

Definition prefix_step (w : Z) (i : nat) (s : M68KState) : M68KState :=
  match i with
  | 0 => put_shift 1 32 8 true s
  | 1 => logical w 32 (set_A 0 (u32 (lget (regA s) 0 + 4)) (set_D 0 w s))
  | 2 => put_logical 1 (Z.lxor (rd 1 s) (rd 0 s)) 32 s
  | 3 => put_logical 2 (rd 1 s) 32 s
  | 4 => put_low 4 (rd 1 s) s
  | 5 => let s := set_D 2 (Z.land (rd 2 s) 0xFFFF0000) s in
         upd_sr (fun sr => Z.lor (Z.land sr (Z.lnot 0x0F)) SR_Z) s
  | 6 => put_logical 2 (Z.lor (Z.shiftr (rd 2 s) 16) (u32 (Z.shiftl (rd 2 s) 16))) 32 s
  | 7 => put_logical 0 0xFFFFFF83 32 s
  | 8 => put_low 0 (Z.land (rd 0 s) (rd 2 s)) s
  | 9 => put_logical 4 (Z.lxor (rd 4 s) (Z.land (rd 0 s) 0xFFFF)) 16 s
  | 10 => put_logical 0 0x7FFFFF 32 s
  | 11 => put_logical 0 (Z.land (rd 0 s) (rd 1 s)) 32 s
  | 12 => put_shift 0 32 5 true s
  | 13 => put_logical 1 (Z.lxor (rd 1 s) (rd 0 s)) 32 s
  | 14 => put_logical 0 (rd 1 s) 32 s
  | 15 => put_logical 2 (Z.lor (Z.land (rd 2 s) 0xFFFF0000) (Z.land (rd 2 s) 0xFFFC)) 16 s
  | 16 => put_shift 2 32 3 true s
  | 17 => put_logical 1 (Z.lxor (rd 1 s) (rd 2 s)) 32 s
  | 18 => put_logical 2 23 32 s
  | 19 => put_shift 0 32 23 false s
  | 20 => put_logical 1 (Z.lxor (rd 1 s) (rd 0 s)) 32 s
  | 21 =>
    let v := rd 1 s in
    let r := u32 (v + v) in
    let s := upd_sr (fun sr => Z.land sr (Z.lnot 0x1F)) (set_D 1 r s) in
    let s := logical r 32 s in
    let s := if z2b (Z.shiftr v 31) then upd_sr (fun sr => Z.lor sr (Z.lor SR_X SR_C)) s else s in
    if z2b (Z.land (Z.lxor v r) 0x80000000) then upd_sr (fun sr => Z.lor sr SR_V) s else s
  | 22 => put_low 0 (rd 4 s) s
  | 23 =>
    let '(r, s') := shift (rd 0 s) 16 8 false s in
    set_D 0 (Z.lor (Z.land (rd 0 s) 0xFFFF0000) r) s'
  | 24 => put_logical 0 (Z.lxor (rd 0 s) (Z.land (rd 4 s) 0xFF)) 8 s
  | 25 => put_low 4 (rd 0 s) s
  | 26 =>
    let '(r, s') := shift (rd 4 s) 8 3 false s in
    set_D 4 (Z.lor (Z.land (rd 4 s) 0xFFFFFF00) r) s'
  | 27 =>
    let bit := Z.land (Z.shiftr (mget g_rom (PARITY_TABLE + Z.land (rd 4 s) 0xFFFF)) (Z.land (rd 0 s) 7)) 1 in
    upd_sr (fun sr => Z.lor (Z.land sr (Z.lnot SR_Z)) (if z2b bit then 0 else SR_Z)) s
  | 28 => s
  | 29 => put_logical 1 (Z.lxor (rd 1 s) (rd 5 s)) 32 s
  | _ => s
  end%nat.

(** The CPU after the first [completed] instructions of the word. *)
Definition prefix (f : CrcFlight) : M68KState :=
  set_PC (flight_pc f)
    (fold_left (fun s i => prefix_step (word f) i s) (seq 0 (completed f)) (before f)).

(** The word in closed form: the CPU after it, and whether the parity was odd. *)
Definition fold_word (s : M68KState) (w : Z) : M68KState * bool :=
  let t := Z.lxor (u32 (Z.shiftl (rd 1 s) 8)) w in
  let parity_word := Z.lxor (Z.land t 0xFFFF) (Z.land (Z.shiftr t 16) 0xFF83) in
  let u := Z.lxor t (u32 (Z.shiftl (Z.land t 0x7FFFFF) 5)) in
  let crc := u32 (Z.lxor u (Z.lxor (Z.shiftl (Z.land (Z.shiftr t 16) 0xFFFC) 3) (Z.shiftr u 23)) * 2) in
  let p := Z.land (Z.lxor (Z.shiftr parity_word 8) parity_word) 255 in
  let odd := z2b (Z.land (Z.shiftr (mget g_rom (PARITY_TABLE + Z.shiftr p 3)) (Z.land p 7)) 1) in
  let crc := if odd then Z.lxor crc (rd 5 s) else crc in
  let x := z2b (Z.land p 4) in
  let out := set_A 0 (u32 (lget (regA s) 0 + 4)) s in
  let out := set_D 2 23 (set_D 1 crc (set_D 0 p out)) in
  let out := set_D 4 (Z.lor (Z.land (rd 4 s) 0xFFFF0000) (Z.shiftr p 3)) out in
  let out := set_SR (u16 (Z.lor (Z.land (SR s) (Z.lnot 0x1F)) (if x then SR_X else 0))) out in
  let out := if odd then logical crc 32 out
             else upd_sr (fun sr => Z.lor sr (Z.lor SR_Z (if x then SR_C else 0))) out in
  (set_PC 0x406C38 out, odd).
End Rom.
