(* ===== verification/LoaderSpec.v ===== *)
(** The native checksum fold is the firmware's thirty instructions, and the
    OS-9 CRC of the module parser. *)

From Stdlib Require Import ZArith Lia Bool Btauto.
From stdpp Require Import base tactics numbers list gmap.
From S2P Require Import Prelude Irq Cpu Loader Disc CrcSpec.
Open Scope Z_scope.

(** * Flags

    Every instruction leaves the high bits of SR, and its flags depend on SR
    alone. *)
Definition logical_sr (v bits sr : Z) : Z := SR (logical v bits (mkCpu [] [] sr 0 0 0)).
Definition shift_sr (v bits count : Z) (left : bool) (sr : Z) : Z :=
  SR (snd (shift v bits count left (mkCpu [] [] sr 0 0 0))).

Lemma logical_eq v bits s : logical v bits s = set_SR (logical_sr v bits (SR s)) s.
Proof. unfold logical_sr, logical. destruct s as [dd aa sr pc usp ssp]. destruct (_ =? 0), (z2b _); done. Qed.
Definition shift_result (v bits count : Z) (left : bool) : Z :=
  Z.land (if left then u32 (Z.shiftl v count) else Z.shiftr (Z.land v (mask_of bits)) count) (mask_of bits).
Lemma shift_eq v bits count left s :
  shift v bits count left s = (shift_result v bits count left, set_SR (shift_sr v bits count left (SR s)) s).
Proof.
  unfold shift_sr, shift. cbv zeta. rewrite !logical_eq. destruct s as [dd aa sr pc usp ssp]. cbn [SR upd_sr set_SR snd regD].
  by destruct (z2b _).
Qed.

Definition high (sr : Z) : Z := Z.land sr 0xFFE0.

Lemma high_u16 x : high (u16 x) = high x.
Proof. unfold high. rewrite u16_land, <- Z.land_assoc. done. Qed.
Lemma high_lor x y : Z.land y 0xFFE0 = 0 -> high (Z.lor x y) = high x.
Proof. unfold high. intros E. by rewrite Z.land_lor_distr_l, E, Z.lor_0_r. Qed.
Lemma high_clear x m : Z.land (Z.lnot m) 0xFFE0 = 0xFFE0 -> high (Z.land x (Z.lnot m)) = high x.
Proof. unfold high. intros E. by rewrite <- Z.land_assoc, E. Qed.

Ltac highs := repeat first [rewrite high_u16 | rewrite high_lor by done | rewrite high_clear by done].

Lemma high_logical v bits sr : high (logical_sr v bits sr) = high sr.
Proof.
  unfold logical_sr, logical, upd_sr, set_SR. cbn [SR regD regA PC USP SSP].
  destruct (_ =? 0), (z2b _); cbn [SR]; by highs.
Qed.
Lemma high_shift v bits count left sr : high (shift_sr v bits count left sr) = high sr.
Proof.
  unfold shift_sr, shift. cbv zeta. cbn [snd]. rewrite !logical_eq.
  set (b := z2b _). destruct b; cbn [SR upd_sr set_SR]; highs; rewrite high_logical; by highs.
Qed.

Section Rom.
Context (g_rom : mem).
Implicit Types (w sr : Z) (s : M68KState).

Definition run_steps (w : Z) (a n : nat) (s : M68KState) : M68KState :=
  fold_left (fun s i => prefix_step g_rom w i s) (seq a n) s.

Lemma run_steps_add w a n m s : run_steps w a (n + m) s = run_steps w (a + n) m (run_steps w a n s).
Proof. unfold run_steps. by rewrite seq_app, fold_left_app. Qed.

Lemma run_steps_S w a n s : run_steps w a (S n) s = run_steps w (S a) n (prefix_step g_rom w a s).
Proof. done. Qed.

(** One instruction on a CPU with its registers spelt out; the flags become a
    fresh status word with the same high bits. *)
Ltac forget_flags :=
  match goal with
  | H : high ?s1 = ?h |- context [run_steps _ _ _ (mkCpu _ _ ?x _ _ _)] =>
    let Hx := fresh in
    assert (high x = h) as Hx by (rewrite <- H; rewrite ?high_logical, ?high_shift; highs; done);
    clear H; revert Hx; generalize x; clear s1; intros s1 H
  end.
Ltac one_step :=
  rewrite run_steps_S; cbv [prefix_step put_logical put_low put_shift rd upd_sr];
  rewrite ?shift_eq, ?logical_eq;
  cbv [regD regA SR PC USP SSP set_D set_A set_SR
       lget lset Z.to_nat Pos.to_nat Pos.iter_op Nat.add nth insert list_insert];
  forget_flags.

Ltac start_flags sr :=
  let sr0 := fresh "sr0" in let H := fresh in
  pose (sr0 := sr); assert (high sr = high sr0) as H by done; change (high sr) with (high sr0); clearbody sr0.
Ltac end_flags := match goal with H : high _ = high _ |- _ => exact H end.

Lemma shift_left32 v n : 0 <= n -> shift_result v 32 n true = u32 (Z.shiftl v n).
Proof. intros. unfold shift_result. change (mask_of 32) with 0xFFFFFFFF. rewrite <- u32_land. apply u32_id. word. Qed.
Lemma shift_right v bits n :
  0 <= n -> mask_of bits = Z.ones bits -> 0 <= bits -> shift_result v bits n false = Z.shiftr (v mod 2 ^ bits) n.
Proof.
  intros Hn Hm Hb. unfold shift_result. rewrite Hm, !Z.land_ones by done. apply Z.mod_small.
  apply (shiftr_word bits); [|done]. unfold is_word. apply Z.mod_pos_bound. lia.
Qed.

Ltac known_bits :=
  repeat match goal with
  | H : is_word ?w ?x |- context [Z.testbit ?x ?i] => rewrite (testbit_word_high w x i H) by lia
  end.
Ltac eval_bits :=
  autorewrite with bits; known_bits;
  cbn [Z.ltb Z.compare Pos.compare Pos.compare_cont Z.add Z.sub Z.opp Z.pos_sub Pos.add Pos.succ
       Pos.pred_double Z.pred_double Z.double Z.succ_double Z.testbit Pos.testbit N.pred Pos.pred_N
       andb orb xorb negb];
  rewrite ?andb_true_r, ?andb_false_r, ?orb_false_r, ?orb_true_r, ?xorb_false_r, ?xorb_false_l;
  first [done | btauto].
(** Two words agree bit by bit. *)
Ltac bits w := apply (word_ext w); [word|word|]; each_bit; eval_bits.

(** ** The parts of a word *)
Definition parity_word (t : Z) : Z := Z.lxor (Z.land t 0xFFFF) (Z.land (Z.shiftr t 16) 0xFF83).
Definition mixed (t : Z) : Z := Z.lxor t (u32 (Z.shiftl (Z.land t 0x7FFFFF) 5)).
Definition folded (t : Z) : Z :=
  u32 (Z.lxor (mixed t) (Z.lxor (Z.shiftl (Z.land (Z.shiftr t 16) 0xFFFC) 3) (Z.shiftr (mixed t) 23)) * 2).
Definition parity_index (t : Z) : Z := Z.land (Z.lxor (Z.shiftr (parity_word t) 8) (parity_word t)) 255.

Lemma swap_high t :
  is_u32 t ->
  Z.lor (Z.shiftr (Z.land t 0xFFFF0000) 16) (u32 (Z.shiftl (Z.land t 0xFFFF0000) 16)) = Z.shiftr t 16.
Proof. intros Ht. bits 32. Qed.

Lemma low_parity d t :
  is_u32 d -> is_u32 t ->
  Z.lxor (Z.lor (Z.land d 4294901760) (Z.land t 65535))
    (Z.land (Z.lor (Z.land 4294967171 4294901760) (Z.land (Z.land 4294967171 (Z.shiftr t 16)) 65535)) 65535) =
  Z.lor (Z.land d 0xFFFF0000) (parity_word t).
Proof. intros Hd Ht. unfold parity_word. bits 32. Qed.

Lemma stage1 w d0 d1 d2 d3 d4 d5 d6 d7 a0 rest sr pc usp ssp :
  is_u32 w -> is_u32 d4 ->
  let t := Z.lxor (u32 (Z.shiftl d1 8)) w in
  exists sr' d0', high sr' = high sr /\
  run_steps w 0 10 (mkCpu [d0; d1; d2; d3; d4; d5; d6; d7] (a0 :: rest) sr pc usp ssp) =
  mkCpu [d0'; t; Z.shiftr t 16; d3; Z.lor (Z.land d4 0xFFFF0000) (parity_word t); d5; d6; d7]
    (u32 (a0 + 4) :: rest) sr' pc usp ssp.
Proof.
  intros Hw Hd4 t. assert (is_u32 t) as Ht by (subst t; word). start_flags sr. do 10 one_step.
  rewrite !shift_left32 by done. fold t. rewrite !swap_high, low_parity by done.
  eexists _, _. split; [end_flags|]. reflexivity.
Qed.

Lemma next_index t :
  is_u32 t -> Z.lor (Z.land (Z.shiftr t 16) 0xFFFF0000) (Z.land (Z.shiftr t 16) 0xFFFC) = Z.land (Z.shiftr t 16) 0xFFFC.
Proof. intros Ht. bits 32. Qed.

Lemma u32_double v : u32 (v + v) = u32 (v * 2).
Proof. f_equal. lia. Qed.

Lemma doubled w s :
  exists sr', high sr' = high (SR s) /\
  prefix_step g_rom w 21 s = set_SR sr' (set_D 1 (u32 (rd 1 s + rd 1 s)) s).
Proof.
  cbv [prefix_step]. rewrite !logical_eq. destruct s as [dd aa sr pc usp ssp].
  destruct (z2b (Z.shiftr _ _)), (z2b (Z.land _ _)); (eexists; split; [|reflexivity]);
    cbn [SR upd_sr set_SR set_D]; highs; rewrite high_logical; by highs.
Qed.

Lemma stage2 w t d0 d3 d4 d5 d6 d7 a sr pc usp ssp :
  is_u32 t ->
  exists sr', high sr' = high sr /\
  run_steps w 10 12 (mkCpu [d0; t; Z.shiftr t 16; d3; d4; d5; d6; d7] a sr pc usp ssp) =
  mkCpu [Z.shiftr (mixed t) 23; folded t; 23; d3; d4; d5; d6; d7] a sr' pc usp ssp.
Proof.
  intros Ht. start_flags sr. do 11 one_step. rewrite run_steps_S.
  match goal with |- context [prefix_step _ _ 21 ?s] => destruct (doubled w s) as (sr' & Hsr & ->) end.
  exists sr'. split; [rewrite Hsr; end_flags|]. unfold run_steps. cbn [seq fold_left]. cbv [set_SR set_D rd lget lset regD].
  cbv [Z.to_nat Pos.to_nat Pos.iter_op Nat.add nth insert list_insert regA SR PC USP SSP].
  rewrite !shift_left32, shift_right by done. rewrite next_index by done. rewrite (Z.land_comm 8388607).
  fold (mixed t). assert (is_u32 (mixed t)) as Hm by (unfold mixed; word). 
  rewrite (Z.mod_small (mixed t)) by exact Hm. rewrite u32_double.
  do 3 f_equal. unfold folded. f_equal. rewrite (u32_id (Z.shiftl _ 3)); [by rewrite Z.lxor_assoc|].
  assert (is_word 16 (Z.land (Z.shiftr t 16) 0xFFFC)) as [Hlo Hhi] by word.
  rewrite Z.shiftl_mul_pow2 by done. unfold is_word. lia.
Qed.

(** A register whose high word is [d]'s and whose low word is [q]. *)
Lemma low_word d q : is_u16 q -> Z.land (Z.lor (Z.land d 0xFFFF0000) q) 0xFFFF = q.
Proof.
  intros Hq. rewrite Z.land_lor_distr_l, <- Z.land_assoc, Z.land_0_r, Z.lor_0_l, <- u16_land. by apply u16_id.
Qed.
Lemma high_word d q : is_u16 q -> Z.land (Z.lor (Z.land d 0xFFFF0000) q) 0xFFFF0000 = Z.land d 0xFFFF0000.
Proof.
  intros Hq. rewrite Z.land_lor_distr_l, <- Z.land_assoc, Z.land_diag.
  rewrite <- (u16_id q) at 1 by done. by rewrite u16_land, <- (Z.land_assoc q), Z.land_0_r, Z.lor_0_r.
Qed.
Lemma low_byte d q : is_u16 q -> Z.land (Z.lor (Z.land d 0xFFFF0000) q) 0xFF = Z.land q 0xFF.
Proof. intros Hq. by rewrite Z.land_lor_distr_l, <- Z.land_assoc, Z.land_0_r, Z.lor_0_l. Qed.
Lemma parity_word_u16 t : is_u32 t -> is_u16 (parity_word t).
Proof. intros. unfold parity_word. word. Qed.
Lemma parity_index_u8 t : is_u8 (parity_index t).
Proof. unfold parity_index. word. Qed.
Lemma index_bytes q : is_u16 q -> Z.lxor (Z.shiftr q 8) (Z.land q 0xFF) = Z.land (Z.lxor (Z.shiftr q 8) q) 255.
Proof. intros Hq. bits 16. Qed.
Lemma index_byte d p :
  is_u32 d -> is_u8 p ->
  Z.lor (Z.land (Z.lor (Z.land d 0xFFFF0000) p) 0xFFFFFF00) (Z.shiftr (Z.lor (Z.land d 0xFFFF0000) p mod 2 ^ 8) 3) =
  Z.lor (Z.land d 0xFFFF0000) (Z.shiftr p 3).
Proof.
  intros Hd Hp. rewrite <- (Z.land_ones _ 8) by done. change (Z.ones 8) with 0xFF.
  assert (is_u32 p) by (by apply (is_word_mono 8)). bits 32.
Qed.

Lemma stage3 w g c d2 d3 d4 d5 d6 d7 t a sr pc usp ssp :
  is_u32 t -> is_word 9 g -> is_u32 d4 ->
  let p := parity_index t in
  exists sr' , high sr' = high sr /\
  run_steps w 22 5 (mkCpu [g; c; d2; d3; Z.lor (Z.land d4 0xFFFF0000) (parity_word t); d5; d6; d7] a sr pc usp ssp) =
  mkCpu [p; c; d2; d3; Z.lor (Z.land d4 0xFFFF0000) (Z.shiftr p 3); d5; d6; d7] a
    (shift_sr (Z.lor (Z.land d4 0xFFFF0000) p) 8 3 false sr') pc usp ssp.
Proof.
  intros Ht Hg Hd4 p. pose proof (parity_word_u16 t Ht) as Hq. start_flags sr. do 4 one_step.
  rewrite !shift_right, !low_word, !high_word, low_byte by done.
  assert (Z.land g 4294901760 = 0) as -> by (assert (is_u32 g) by (by apply (is_word_mono 9)); bits 32).
  rewrite !Z.lor_0_l, (Z.mod_small (parity_word t)), index_bytes by done. fold (parity_index t). fold p.
  assert (is_u8 p) as Hp by apply parity_index_u8.
  assert (Z.land p 65535 = p) as -> by (rewrite <- u16_land; apply u16_id; by apply (is_word_mono 8)).
  exists sr. split; [end_flags|]. rewrite run_steps_S. cbv [prefix_step]. rewrite shift_eq.
  cbv [rd regD regA SR PC USP SSP set_D set_SR lget lset Z.to_nat Pos.to_nat Pos.iter_op Nat.add nth insert list_insert].
  rewrite shift_right, index_byte by done. reflexivity.
Qed.

(** ** The flags at the end of a word *)
Lemma small_sign r : 0 <= r < 32 -> z2b (Z.land r (u32 (Z.shiftl 1 7))) = false.
Proof.
  intros Hr. change (u32 (Z.shiftl 1 7)) with (2 ^ 7). rewrite testbit_land_pow2 by done.
  apply (testbit_word_high 5); unfold is_word; lia.
Qed.

Lemma shift_flags d p sr :
  is_u8 p ->
  shift_sr (Z.lor (Z.land d 0xFFFF0000) p) 8 3 false sr =
  Z.lor (high sr) (Z.lor (if Z.shiftr p 3 =? 0 then SR_Z else 0)
                         (if z2b (Z.land p 4) then Z.lor SR_X SR_C else 0)).
Proof.
  intros Hp. assert (is_u16 p) as Hp' by (by apply (is_word_mono 8)).
  unfold shift_sr, shift. cbv zeta. cbn [snd].
  change (mask_of 8) with 0xFF. rewrite low_byte by done.
  assert (Z.land p 0xFF = p) as -> by (rewrite <- u8_land; by apply u8_id).
  assert (0 <= Z.shiftr p 3 < 32) as Hr
    by (rewrite Z.shiftr_div_pow2 by done; change (2 ^ 3) with 8; unfold is_word in Hp; zlia).
  assert (Z.land (Z.shiftr p 3) 0xFF = Z.shiftr p 3) as -> by (rewrite <- u8_land; apply u8_id; unfold is_word; lia).
  assert (z2b (Z.land (Z.shiftr (Z.lor (Z.land d 0xFFFF0000) p) (3 - 1)) 1) = z2b (Z.land p 4)) as ->.
  { change 1 with (2 ^ 0) at 2. change 4 with (2 ^ 2). rewrite !testbit_land_pow2 by done. by eval_bits. }
  unfold logical. change (mask_of 8) with 0xFF. change (8 - 1) with 7.
  rewrite (small_sign _ Hr).
  assert (Z.land (Z.shiftr p 3) 0xFF = Z.shiftr p 3) as -> by (rewrite <- u8_land; apply u8_id; unfold is_word; lia).
  destruct (_ =? 0), (z2b _); cbn [upd_sr set_SR SR]; unfold high; change SR_Z with 4; change SR_X with 16; change SR_C with 1; bits 16.
Qed.

Lemma logical_sr_cong v b x y :
  u16 (Z.land x (Z.lnot 0x0F)) = u16 (Z.land y (Z.lnot 0x0F)) -> logical_sr v b x = logical_sr v b y.
Proof. intros E. unfold logical_sr, logical, upd_sr. cbn [SR set_SR]. by rewrite E. Qed.

Definition odd_parity (t : Z) : bool :=
  z2b (Z.land (Z.shiftr (mget g_rom (PARITY_TABLE + Z.shiftr (parity_index t) 3)) (Z.land (parity_index t) 7)) 1).

(** The thirty instructions on a CPU with its registers spelt out. *)
Lemma word_steps w d0 d1 d2 d3 d4 d5 d6 d7 a0 rest sr pc usp ssp :
  is_u32 w -> is_u32 d4 ->
  let t := Z.lxor (u32 (Z.shiftl d1 8)) w in
  let p := parity_index t in
  let s := mkCpu [d0; d1; d2; d3; d4; d5; d6; d7] (a0 :: rest) sr pc usp ssp in
  let flags := Z.lor (high sr) (Z.lor (if odd_parity t then 0 else SR_Z)
                                      (if z2b (Z.land p 4) then Z.lor SR_X SR_C else 0)) in
  run_steps w 0 29 s =
  mkCpu [p; folded t; 23; d3; Z.lor (Z.land d4 0xFFFF0000) (Z.shiftr p 3); d5; d6; d7]
    (u32 (a0 + 4) :: rest) flags pc usp ssp.
Proof.
  intros Hw Hd4 t p s flags. assert (is_u32 t) as Ht by (subst t; word).
  assert (is_u8 p) as Hp by apply parity_index_u8.
  change 29%nat with (10 + (12 + (5 + 2)))%nat. rewrite !run_steps_add. cbn [Nat.add].
  destruct (stage1 w d0 d1 d2 d3 d4 d5 d6 d7 a0 rest sr pc usp ssp Hw Hd4) as (sr1 & d0' & H1 & E1).
  fold s in E1. rewrite E1. fold t.
  destruct (stage2 w t d0' d3 (Z.lor (Z.land d4 0xFFFF0000) (parity_word t)) d5 d6 d7
    (u32 (a0 + 4) :: rest) sr1 pc usp ssp Ht) as (sr2 & H2 & E2). rewrite E2.
  assert (is_word 9 (Z.shiftr (mixed t) 23)) as Hg.
  { assert (is_u32 (mixed t)) as [Hm0 Hm1] by (unfold mixed; word).
    unfold is_word. rewrite Z.shiftr_div_pow2 by done. change (2 ^ 23) with 8388608. zlia. }
  destruct (stage3 w (Z.shiftr (mixed t) 23) (folded t) 23 d3 d4 d5 d6 d7 t (u32 (a0 + 4) :: rest) sr2 pc usp ssp
    Ht Hg Hd4) as (sr3 & H3 & E3). rewrite E3. fold p. rewrite shift_flags by done.
  rewrite !run_steps_S. cbv [prefix_step rd lget regD Z.to_nat Pos.to_nat Pos.iter_op Nat.add nth].
  assert (is_u16 (Z.shiftr p 3)) as Hp3 by (apply (is_word_mono 8); [done|word]).
  rewrite low_word by done.
  unfold run_steps. cbn [seq fold_left]. cbv [upd_sr set_SR SR regD regA PC USP SSP]. f_equal.
  match goal with |- context [if z2b (Z.land (Z.shiftr ?m ?n) 1) then 0 else SR_Z] =>
    change (z2b (Z.land (Z.shiftr m n) 1)) with (odd_parity t) end.
  subst flags. rewrite H3, H2, H1.
  destruct (z2b (Z.land p 4)), (odd_parity t), (Z.shiftr p 3 =? 0); unfold high; change SR_Z with 4; change SR_X with 16; change SR_C with 1; bits 16.
Qed.

(** ** The closed form *)
Lemma eight_registers (l : list Z) :
  length l = 8%nat -> exists d0 d1 d2 d3 d4 d5 d6 d7, l = [d0; d1; d2; d3; d4; d5; d6; d7].
Proof.
  intros Hl. do 8 (destruct l as [|? l]; [done|]). destruct l; [|done]. by eexists _, _, _, _, _, _, _, _.
Qed.

Lemma fold_word_prefix s w :
  length (regD s) = 8%nat -> length (regA s) = 8%nat -> is_u32 (lget (regD s) 4) -> is_u32 w ->
  let '(out, odd) := fold_word g_rom s w in
  prefix g_rom (mkFlight s w (if odd then 30 else 29) 0x406C38) = out.
Proof.
  destruct s as [D A sr pc usp ssp]. cbn [regD regA]. intros HD HA H4 Hw.
  destruct (eight_registers D HD) as (d0 & d1 & d2 & d3 & d4 & d5 & d6 & d7 & ->).
  destruct A as [|a0 rest]; [done|].
  pose proof (word_steps w d0 d1 d2 d3 d4 d5 d6 d7 a0 rest sr pc usp ssp Hw H4) as E. cbv zeta in E.
  unfold fold_word. cbv [rd lget lset regD regA Z.to_nat Pos.to_nat Pos.iter_op Nat.add nth
    set_D set_A insert list_insert SR PC USP SSP].
  set (t := Z.lxor (u32 (Z.shiftl d1 8)) w) in *.
  fold (parity_word t). fold (parity_index t). fold (mixed t). fold (folded t). fold (odd_parity t).
  destruct (odd_parity t); unfold prefix; cbn [completed before word flight_pc].
  - change (seq 0 30) with (seq 0 29 ++ seq 29 1). rewrite fold_left_app.
    unfold run_steps in E. rewrite E. cbn [seq fold_left]. cbv [prefix_step put_logical rd]. rewrite !logical_eq.
    cbv [set_SR set_PC set_D lget lset regD regA Z.to_nat Pos.to_nat Pos.iter_op Nat.add nth insert list_insert SR PC USP SSP].
    f_equal. apply logical_sr_cong.
    destruct (z2b (Z.land (parity_index t) 4)); unfold high; change SR_Z with 4; change SR_X with 16; change SR_C with 1; bits 16.
  - unfold run_steps in E. rewrite E.
    cbv [set_SR upd_sr set_PC regD regA SR PC USP SSP]. f_equal.
    destruct (z2b (Z.land (parity_index t) 4)); unfold high; change SR_Z with 4; change SR_X with 16; change SR_C with 1; bits 16.
Qed.

(** * The checksum *)

(** The firmware's table: bit [p] of the 256 is the parity of [p]. *)
Definition odd_byte (p : Z) : bool :=
  fold_left (fun b i => xorb b (Z.testbit p (Z.of_nat i))) (seq 0 8) false.
Definition parity_table : Prop :=
  forall p, is_u8 p ->
    z2b (Z.land (Z.shiftr (mget g_rom (PARITY_TABLE + Z.shiftr p 3)) (Z.land p 7)) 1) = odd_byte p.

(** The constant the firmware keeps in D5: the polynomial's low terms after the
    closed form has taken the factor x + 1 out. *)
Definition PARITY_TERM : Z := 0x800021.

Lemma linear_parity_index : linear parity_index.
Proof.
  assert (linear parity_word) as Hw.
  { apply (linear_lxor (fun t => Z.land t 0xFFFF) (fun t => Z.land (Z.shiftr t 16) 0xFF83)); [apply linear_land|].
    apply (linear_comp (fun x => Z.land x 0xFF83)); [apply linear_land|apply linear_shiftr]. }
  apply (linear_comp (fun q => Z.land (Z.lxor (Z.shiftr q 8) q) 255)); [|done].
  apply (linear_comp (fun x => Z.land x 255)); [apply linear_land|].
  apply (linear_lxor (fun q => Z.shiftr q 8) (fun q => q)); [apply linear_shiftr|done].
Qed.

Lemma linear_mixed : linear mixed.
Proof.
  apply (linear_lxor (fun t => t)); [done|]. apply (linear_comp u32); [apply linear_u32|].
  apply (linear_comp (fun x => Z.shiftl x 5)); [apply linear_shiftl|apply linear_land].
Qed.

Lemma linear_folded : linear folded.
Proof.
  assert (forall x, folded x = u32 (Z.shiftl (Z.lxor (mixed x)
    (Z.lxor (Z.shiftl (Z.land (Z.shiftr x 16) 0xFFFC) 3) (Z.shiftr (mixed x) 23))) 1)) as E
    by (intros x; unfold folded; rewrite (Z.shiftl_mul_pow2 _ 1) by lia; reflexivity).
  eapply linear_ext_fun; [intros x; symmetry; apply E|].
  apply (linear_comp u32); [apply linear_u32|]. apply (linear_comp (fun x => Z.shiftl x 1)); [apply linear_shiftl|].
  apply linear_lxor; [apply linear_mixed|]. apply linear_lxor.
  - apply (linear_comp (fun x => Z.shiftl x 3)); [apply linear_shiftl|].
    apply (linear_comp (fun x => Z.land x 0xFFFC)); [apply linear_land|apply linear_shiftr].
  - apply (linear_comp (fun x => Z.shiftr x 23)); [apply linear_shiftr|apply linear_mixed].
Qed.

Lemma linear_odd_bits l : forall b : Z -> bool, linear_bool b ->
  linear_bool (fun p => fold_left (fun b i => xorb b (Z.testbit p (Z.of_nat i))) l (b p)).
Proof.
  induction l as [|i l IH]; intros b Hb; cbn [fold_left]; [done|].
  apply (IH (fun p => xorb (b p) (Z.testbit p (Z.of_nat i)))). apply linear_xorb; [done|apply linear_testbit].
Qed.
Lemma linear_odd_byte : linear_bool odd_byte.
Proof. apply (linear_odd_bits (seq 0 8) (fun _ => false)). by intros ? ?. Qed.

Definition be_bytes (w : Z) : list Z :=
  [Z.land (Z.shiftr w 24) 0xFF; Z.land (Z.shiftr w 16) 0xFF; Z.land (Z.shiftr w 8) 0xFF; Z.land w 0xFF].

(** One word of the closed form, as a function of the 24 bits of the checksum
    and the 32 of the word. *)
Definition folded_crc (z : Z) : Z :=
  let t := Z.lxor (u32 (Z.shiftl (Z.shiftr z 32) 8)) (Z.land z 0xFFFFFFFF) in
  Z.land (if odd_byte (parity_index t) then Z.lxor (folded t) PARITY_TERM else folded t) 0xFFFFFF.
Definition bytewise_crc (z : Z) : Z := fold_left crc_byte (be_bytes (Z.land z 0xFFFFFFFF)) (Z.shiftr z 32).

Lemma linear_folded_crc : linear folded_crc.
Proof.
  unfold folded_crc. cbv zeta.
  apply (linear_comp (fun x => Z.land x 0xFFFFFF)); [apply linear_land|].
  assert (linear (fun z => Z.lxor (u32 (Z.shiftl (Z.shiftr z 32) 8)) (Z.land z 0xFFFFFFFF))) as Ht.
  { apply linear_lxor; [|apply linear_land]. apply (linear_comp u32); [apply linear_u32|].
    apply (linear_comp (fun x => Z.shiftl x 8)); [apply linear_shiftl|apply linear_shiftr]. }
  apply (linear_comp (fun t => if odd_byte (parity_index t) then Z.lxor (folded t) PARITY_TERM else folded t)); [|done].
  apply (linear_choose (fun t => odd_byte (parity_index t))); [|apply linear_folded].
  apply (linear_bool_comp odd_byte); [apply linear_odd_byte|apply linear_parity_index].
Qed.

Lemma linear_bytewise_crc : linear bytewise_crc.
Proof.
  unfold bytewise_crc, be_bytes.
  assert (forall n, linear (fun z => Z.land (Z.shiftr (Z.land z 0xFFFFFFFF) n) 0xFF)) as Hs.
  { intros n. apply (linear_comp (fun x => Z.land x 0xFF)); [apply linear_land|].
    apply (linear_comp (fun x => Z.shiftr x n)); [apply linear_shiftr|apply linear_land]. }
  apply (linear_crc_bytes (fun z => Z.shiftr z 32)
    [fun z => Z.land (Z.shiftr (Z.land z 0xFFFFFFFF) 24) 0xFF; fun z => Z.land (Z.shiftr (Z.land z 0xFFFFFFFF) 16) 0xFF;
     fun z => Z.land (Z.shiftr (Z.land z 0xFFFFFFFF) 8) 0xFF; fun z => Z.land (Z.land z 0xFFFFFFFF) 0xFF]).
  - apply linear_shiftr.
  - repeat constructor; [apply Hs..|]. apply (linear_comp (fun x => Z.land x 0xFF)); apply linear_land.
Qed.

Lemma folded_is_bytewise z : is_word 56 z -> folded_crc z = bytewise_crc z.
Proof.
  apply (linear_agree 56); [apply linear_folded_crc|apply linear_bytewise_crc|vm_compute; reflexivity].
Qed.

(** The registers after a word. *)
Lemma fold_word_registers s w :
  let t := Z.lxor (u32 (Z.shiftl (rd 1 s) 8)) w in
  regD (fst (fold_word g_rom s w)) =
  lset (lset (lset (lset (regD s) 0 (parity_index t)) 1 (if odd_parity t then Z.lxor (folded t) (rd 5 s) else folded t))
    2 23) 4 (Z.lor (Z.land (rd 4 s) 0xFFFF0000) (Z.shiftr (parity_index t) 3)).
Proof.
  intros t. unfold fold_word. cbv zeta. fold t. fold (parity_word t). fold (parity_index t). fold (mixed t).
  fold (folded t). fold (odd_parity t). cbn [fst]. rewrite logical_eq. by destruct (odd_parity t).
Qed.

Lemma joined_word c w :
  is_word 24 c -> is_u32 w ->
  exists z, is_word 56 z /\ Z.shiftr z 32 = c /\ Z.land z 0xFFFFFFFF = w.
Proof.
  unfold is_word. intros Hc Hw. exists (c * 2 ^ 32 + w).
  change 0xFFFFFFFF with (Z.ones 32). rewrite Z.land_ones, Z.shiftr_div_pow2 by done.
  change (2 ^ 32) with 4294967296 in *. change (2 ^ 24) with 16777216 in *. change (2 ^ 56) with 72057594037927936.
  split; [lia|]. split; zlia.
Qed.

Lemma shifted_low c : u32 (Z.shiftl (Z.land c 0xFFFFFF) 8) = u32 (Z.shiftl c 8).
Proof.
  apply (word_ext 32); [word..|]. intros i Hi. autorewrite with bits.
  destruct (Z.ltb_spec i 32); [|done]. cbn [andb].
  destruct (Z.lt_ge_cases i 8); [by rewrite !Z.testbit_neg_r by lia|].
  change 0xFFFFFF with (Z.ones 24). rewrite Z.testbit_ones_nonneg by lia.
  destruct (Z.ltb_spec (i - 8) 24); [by rewrite andb_true_r|lia].
Qed.

Lemma folded_crc_eq z c w :
  Z.shiftr z 32 = c -> Z.land z 0xFFFFFFFF = w ->
  folded_crc z = Z.land (let t := Z.lxor (u32 (Z.shiftl c 8)) w in
    if odd_byte (parity_index t) then Z.lxor (folded t) PARITY_TERM else folded t) 0xFFFFFF /\
  bytewise_crc z = fold_left crc_byte (be_bytes w) c.
Proof. intros <- <-. split; reflexivity. Qed.

Lemma checksum_word c w :
  is_u32 w -> let t := Z.lxor (u32 (Z.shiftl c 8)) w in
  Z.land (if odd_byte (parity_index t) then Z.lxor (folded t) PARITY_TERM else folded t) 0xFFFFFF =
  fold_left crc_byte (be_bytes w) (Z.land c 0xFFFFFF).
Proof.
  intros Hw. cbv zeta. assert (is_word 24 (Z.land c 0xFFFFFF)) as Hc by word.
  destruct (joined_word _ w Hc Hw) as (z & Hz & Ehi & Elo).
  destruct (folded_crc_eq z _ w Ehi Elo) as [E1 E2]. cbv zeta in E1. rewrite shifted_low in E1.
  rewrite <- E1, <- E2. by apply folded_is_bytewise.
Qed.

Lemma fold_word_crc s w :
  parity_table -> (5 < length (regD s))%nat -> rd 5 s = PARITY_TERM -> is_u32 w ->
  let out := fst (fold_word g_rom s w) in
  Z.land (rd 1 out) 0xFFFFFF = fold_left crc_byte (be_bytes w) (Z.land (rd 1 s) 0xFFFFFF) /\
  rd 5 out = PARITY_TERM /\ length (regD out) = length (regD s).
Proof.
  intros Hrom Hl H5 Hw out. subst out. unfold rd at 1 3. rewrite fold_word_registers. cbv zeta.
  rewrite !length_lset. set (t := Z.lxor _ w).
  assert (odd_parity t = odd_byte (parity_index t)) as -> by (apply Hrom, parity_index_u8).
  rewrite H5. split; [|split; [|done]].
  - rewrite lget_lset_ne, lget_lset_ne, lget_lset_eq by (rewrite ?length_lset; lia).
    subst t. by apply checksum_word.
  - rewrite !lget_lset_ne by lia. exact H5.
Qed.

(** A span of words. *)
Definition fold_words (s : M68KState) (ws : list Z) : M68KState := fold_left (fun s w => fst (fold_word g_rom s w)) ws s.

Lemma fold_words_crc ws : forall s,
  parity_table -> (5 < length (regD s))%nat -> rd 5 s = PARITY_TERM -> Forall is_u32 ws ->
  Z.land (rd 1 (fold_words s ws)) 0xFFFFFF = fold_left crc_byte (flat_map be_bytes ws) (Z.land (rd 1 s) 0xFFFFFF).
Proof.
  induction ws as [|w ws IH]; intros s Hrom Hl H5 Hws; [done|]. apply Forall_cons in Hws as [Hw Hws].
  destruct (fold_word_crc s w Hrom Hl H5 Hw) as (E & H5' & Hl'). cbn [flat_map]. rewrite fold_left_app, <- E.
  apply (IH (fst (fold_word g_rom s w))); [done|lia|done|done].
Qed.
End Rom.

(** The native fold of a checksum word is the firmware: whatever the CPU and
    the contents of the firmware's table, the closed form leaves every register
    and flag as the twenty-nine or thirty instructions do one by one, the
    thirtieth exactly when the parity is odd. *)
Theorem fold_word_is_firmware g_rom s w :
  length (regD s) = 8%nat -> length (regA s) = 8%nat -> is_u32 (lget (regD s) 4) -> is_u32 w ->
  let '(out, odd) := fold_word g_rom s w in
  prefix g_rom (mkFlight s w (if odd then 30 else 29) 0x406C38) = out.
Proof. apply fold_word_prefix. Qed.

(** C37. The native fold computes the module checksum: with the firmware's parity
    table and constant, folding a span of words from the initial value leaves
    in the low 24 bits of D1 the OS-9 CRC that the module scanner computes from
    the bytes, bit by bit. *)
Theorem native_checksum_is_module_crc g_rom s ws :
  parity_table g_rom -> length (regD s) = 8%nat -> lget (regD s) 5 = 0x800021 ->
  Z.land (lget (regD s) 1) 0xFFFFFF = 0xFFFFFF -> Forall is_u32 ws ->
  Z.land (lget (regD (fold_words g_rom s ws)) 1) 0xFFFFFF = os9_module_crc24 (flat_map be_bytes ws).
Proof.
  intros Hrom Hl H5 H1 Hws. pose proof (fold_words_crc g_rom ws s Hrom ltac:(lia) H5 Hws) as E.
  unfold rd in E. rewrite H1 in E. exact E.
Qed.

(** The table a firmware with that constant holds. *)
Definition sample_table : mem :=
  mstore ∅ PARITY_TABLE
    (map (fun k => fold_left (fun b i => Z.lor b (if odd_byte (8 * Z.of_nat k + Z.of_nat i) then 2 ^ Z.of_nat i else 0))
                     (seq 0 8) 0) (seq 0 32)).
Lemma sample_table_parity : parity_table sample_table.
Proof.
  assert (forallb (fun n => Bool.eqb
    (z2b (Z.land (Z.shiftr (mget sample_table (PARITY_TABLE + Z.shiftr (Z.of_nat n) 3)) (Z.land (Z.of_nat n) 7)) 1))
    (odd_byte (Z.of_nat n))) (seq 0 256) = true) as Hb by (vm_compute; reflexivity).
  intros p [Hp0 Hp1]. rewrite forallb_forall in Hb. specialize (Hb (Z.to_nat p)).
  rewrite Z2Nat.id in Hb by lia. apply eqb_prop, Hb, in_seq. change (2 ^ 8) with 256 in Hp1. lia.
Qed.
Definition sample_cpu : M68KState :=
  mkCpu [0; 0xFFFFFF; 0; 0; 0; 0x800021; 0; 0] (replicate 8 0x1000) 0x2700 0x406BF4 0 0.

Lemma fold_word_is_firmware_witness :
  let '(out, odd) := fold_word sample_table sample_cpu 0x4AFC0001 in
  prefix sample_table (mkFlight sample_cpu 0x4AFC0001 (if odd then 30 else 29) 0x406C38) = out.
Proof.
  apply (fold_word_is_firmware sample_table sample_cpu 0x4AFC0001);
    [reflexivity|reflexivity|vm_compute; intuition discriminate|vm_compute; intuition discriminate].
Defined.

Lemma native_checksum_is_module_crc_witness :
  Z.land (lget (regD (fold_words sample_table sample_cpu [0x4AFC0001; 0x00000050])) 1) 0xFFFFFF =
  os9_module_crc24 [0x4A; 0xFC; 0x00; 0x01; 0x00; 0x00; 0x00; 0x50].
Proof.
  apply (native_checksum_is_module_crc sample_table sample_cpu [0x4AFC0001; 0x00000050]);
    [exact sample_table_parity|reflexivity..|].
  repeat constructor; vm_compute; intuition discriminate.
Defined.
