(* ===== verification/Bus.v ===== *)
(** The board as one machine: the bus of runner/src/cdi_bus.c over the RAM banks,
    the ROM window and the chips, the DMA channel that moves words between them,
    and the device-time quantum of runner/src/mcd212.c with its idle batches.

    [Machine] holds the state of every chip once; a chip sees the part its own
    file models through a view.  The build option of the CD interface's deferred
    time is [hle].  The counters reported to the debugger are left out. *)

From Stdlib Require Import ZArith Lia Bool SpecFloat.
From stdpp Require Import base tactics numbers list gmap.
From S2P Require Import Prelude Double Irq Cpu Nvram Periph Ciap Input Slave Mcd212.
Open Scope Z_scope.
Open Scope mach_scope.

Definition CDI_SLAVE_BASE : Z := 0x00310000.
Definition CDI_NVRAM_BASE : Z := 0x00320000.
Definition CDI_ROM_BASE : Z := 0x00400000.
Definition CDI_ROM_SIZE : Z := 0x00100000.
Definition CDI_MCD212_BASE : Z := 0x004FFFE0.
Definition CDI_PERIPH_BASE : Z := 0x80001001.
Definition CDI_PERIPH_LAST : Z := 0x80008080.

Inductive BusRegion :=
  RGN_RAM | RGN_ROM | RGN_MCD212 | RGN_CDIC | RGN_SLAVE | RGN_NVRAM | RGN_PERIPH | RGN_NONE.
#[export] Instance BusRegion_eq_dec : EqDecision BusRegion.
Proof. solve_decision. Defined.

Definition classify (a : Z) : BusRegion :=
  if u32 (a - CDI_RAM0_BASE) <? CDI_RAM0_SIZE then RGN_RAM
  else if u32 (a - CDI_RAM1_BASE) <? CDI_RAM1_SIZE then RGN_RAM
  else if (CDI_MCD212_BASE <=? a) && (a <=? 0x004FFFFF) then RGN_MCD212
  else if (CDI_ROM_BASE <=? a) && (a <? CDI_MCD212_BASE) then RGN_ROM
  else if (CDI_CDIC_BASE <=? a) && (a <? 0x00304000) then RGN_CDIC
  else if (CDI_SLAVE_BASE <=? a) && (a <? 0x0031001E) then RGN_SLAVE
  else if (CDI_NVRAM_BASE <=? a) && (a <? 0x00330000) then RGN_NVRAM
  else if (CDI_PERIPH_BASE <=? a) && (a <=? CDI_PERIPH_LAST) then RGN_PERIPH
  else RGN_NONE.

(** The nanoseconds of one clock period, and of the idle loop's quantum. *)
Definition dmul : double -> double -> double := SFmul 53 1024.
Definition cycle_ns : double := SFdiv 53 1024 (dof_Z 1000000000) (dof_Z 15104900).
Definition elapsed_of (cycles : Z) : double := dmul (dof_Z cycles) cycle_ns.
Definition QUANTUM_CYCLES : Z := 25.
Definition quantum_ns : double := elapsed_of QUANTUM_CYCLES.
Definition integer_ns : Z := dtrunc quantum_ns.

(** The pacing of device time by the host's clock (runner/src/runtime.c); the
    deadline and the wait are left out. *)
Record Pacing := mkPace { s_realtime_pacing : bool; s_pace_pending_cycles : Z }.
Definition CDI_PACE_CHUNK_CYCLES : Z := 151049.
Definition runtime_set_realtime_pacing (enabled : bool) : Pacing := mkPace enabled 0.
Definition runtime_pace_cycles (cycles : Z) (p : Pacing) : Pacing :=
  if negb (s_realtime_pacing p) then p
  else
    let pending := u64 (s_pace_pending_cycles p + cycles) in
    mkPace true (if pending <? CDI_PACE_CHUNK_CYCLES then pending else 0).
Definition runtime_pacing_quiet_quanta (maximum : Z) (p : Pacing) : Z :=
  if negb (s_realtime_pacing p) then maximum
  else if CDI_PACE_CHUNK_CYCLES <=? s_pace_pending_cycles p then 0
  else
    let quiet := (CDI_PACE_CHUNK_CYCLES - s_pace_pending_cycles p - 1) / 25 in
    if quiet <? maximum then quiet else maximum.

Section Machine.
Context {V A Md : Type} `{VideoOps V} `{AudioOps A} `{MediaOps Md}.
Context (hle : bool).

Record Machine := mkMachine {
  m_vdsc : Mcd212;
  g_ram0 : mem;
  g_ram1 : mem;
  g_rom : mem;
  m_irq : IrqState;
  m_video : V;
  m_frame : Z;
  m_schedule : InputSchedule;
  m_input : InputState;
  m_periph : SccPeripherals;
  m_ciap : CiapDevice;
  m_streaming : StreamingJob;
  m_audio : A;
  m_media : Md;
  m_ikat : IkatDevice;
  m_rtc : PhantomClock;
  m_boot_reset : bool;  (* requested by the gate *)
  m_pace : Pacing;
  g_total_cycles : Z;
  m_last_access : Z;
}.

(** ** Views *)
Definition scan_of (m : Machine) : ScanWorld V :=
  mkScan (m_vdsc m) (g_ram0 m) (g_ram1 m) (m_irq m) (periph_lir (m_periph m)) (m_video m)
    (m_frame m) (m_schedule m) (m_input m).
Definition put_scan (w : ScanWorld V) (m : Machine) : Machine :=
  mkMachine (vdsc w) (g_ram0 m) (g_ram1 m) (g_rom m) (sc_irq w) (sc_video w) (g_frame_count w)
    (sc_schedule w) (sc_input w) (m_periph m) (m_ciap m) (m_streaming m) (m_audio m) (m_media m)
    (m_ikat m) (m_rtc m) (m_boot_reset m) (m_pace m) (g_total_cycles m) (m_last_access m).

Definition ciap_of (m : Machine) : CiapWorld A Md :=
  mkCW (m_ciap m) (m_streaming m) (m_irq m) (m_audio m) (m_media m).
Definition put_ciap (w : CiapWorld A Md) (m : Machine) : Machine :=
  mkMachine (m_vdsc m) (g_ram0 m) (g_ram1 m) (g_rom m) (cw_irq w) (m_video m) (m_frame m)
    (m_schedule m) (m_input m) (m_periph m) (ciap w) (streaming w) (cw_audio w) (cw_media w)
    (m_ikat m) (m_rtc m) (m_boot_reset m) (m_pace m) (g_total_cycles m) (m_last_access m).

Definition put_timers (p : SccPeripherals * IrqState) (m : Machine) : Machine :=
  mkMachine (m_vdsc m) (g_ram0 m) (g_ram1 m) (g_rom m) (snd p) (m_video m) (m_frame m)
    (m_schedule m) (m_input m) (fst p) (m_ciap m) (m_streaming m) (m_audio m) (m_media m)
    (m_ikat m) (m_rtc m) (m_boot_reset m) (m_pace m) (g_total_cycles m) (m_last_access m).
Definition put_rtc (r : PhantomClock) (m : Machine) : Machine :=
  mkMachine (m_vdsc m) (g_ram0 m) (g_ram1 m) (g_rom m) (m_irq m) (m_video m) (m_frame m)
    (m_schedule m) (m_input m) (m_periph m) (m_ciap m) (m_streaming m) (m_audio m) (m_media m)
    (m_ikat m) r (m_boot_reset m) (m_pace m) (g_total_cycles m) (m_last_access m).
Definition put_cycles (c : Z) (m : Machine) : Machine :=
  mkMachine (m_vdsc m) (g_ram0 m) (g_ram1 m) (g_rom m) (m_irq m) (m_video m) (m_frame m)
    (m_schedule m) (m_input m) (m_periph m) (m_ciap m) (m_streaming m) (m_audio m) (m_media m)
    (m_ikat m) (m_rtc m) (m_boot_reset m) (m_pace m) c (m_last_access m).
Definition put_pace (p : Pacing) (m : Machine) : Machine :=
  mkMachine (m_vdsc m) (g_ram0 m) (g_ram1 m) (g_rom m) (m_irq m) (m_video m) (m_frame m)
    (m_schedule m) (m_input m) (m_periph m) (m_ciap m) (m_streaming m) (m_audio m) (m_media m)
    (m_ikat m) (m_rtc m) (m_boot_reset m) p (g_total_cycles m) (m_last_access m).
Definition put_last (a : Z) (m : Machine) : Machine :=
  mkMachine (m_vdsc m) (g_ram0 m) (g_ram1 m) (g_rom m) (m_irq m) (m_video m) (m_frame m)
    (m_schedule m) (m_input m) (m_periph m) (m_ciap m) (m_streaming m) (m_audio m) (m_media m)
    (m_ikat m) (m_rtc m) (m_boot_reset m) (m_pace m) (g_total_cycles m) a.
Definition put_ram (r0 r1 : mem) (m : Machine) : Machine :=
  mkMachine (m_vdsc m) r0 r1 (g_rom m) (m_irq m) (m_video m) (m_frame m)
    (m_schedule m) (m_input m) (m_periph m) (m_ciap m) (m_streaming m) (m_audio m) (m_media m)
    (m_ikat m) (m_rtc m) (m_boot_reset m) (m_pace m) (g_total_cycles m) (m_last_access m).

(** What the gate drives on the board: the CD interface, the interrupt lines and
    the request to restart the CPU. *)
Definition GateHost : Type := CiapWorld A Md * bool.
Instance gate_host : IkatHost GateHost := {
  host_irq h := (upd_irq (cdi_irq_raise 2) (fst h), snd h);
  host_media_present h := media_present (cw_media (fst h));
  host_media_generation h := media_generation (cw_media (fst h));
  host_transport_resume h := (cdic_transport_resume hle (fst h), snd h);
  host_set_drive_position lba audio h := (cdic_set_drive_position hle lba audio (fst h), snd h);
  host_boot_reset h := (fst h, true);
}.
Definition gate_of (m : Machine) : IkatWorld GateHost :=
  mkIW (m_ikat m) (m_input m) (ciap_of m, m_boot_reset m).
Definition put_gate (w : IkatWorld GateHost) (m : Machine) : Machine :=
  let c := fst (iw_host w) in
  mkMachine (m_vdsc m) (g_ram0 m) (g_ram1 m) (g_rom m) (cw_irq c) (m_video m) (m_frame m)
    (m_schedule m) (iw_input w) (m_periph m) (ciap c) (streaming c) (cw_audio c) (cw_media c)
    (ikat w) (m_rtc m) (snd (iw_host w)) (m_pace m) (g_total_cycles m) (m_last_access m).

(** Operations of a chip on the machine. *)
Definition on_scan {R} (f : Mach (ScanWorld V) R) : Mach Machine R := fun m =>
  let '(r, w) := f (scan_of m) in (r, put_scan w m).
Definition on_ciap {R} (f : Mach (CiapWorld A Md) R) : Mach Machine R := fun m =>
  let '(r, w) := f (ciap_of m) in (r, put_ciap w m).
Definition pure_ciap {R} (f : CiapWorld A Md -> R * CiapWorld A Md) : Mach Machine R := fun m =>
  let '(r, w) := f (ciap_of m) in (Ok r, put_ciap w m).
Definition on_gate {R} (f : IkatWorld GateHost -> R * IkatWorld GateHost) : Mach Machine R := fun m =>
  let '(r, w) := f (gate_of m) in (Ok r, put_gate w m).
Definition on_rtc {R} (f : PhantomClock -> R * PhantomClock) : Mach Machine R := fun m =>
  let '(r, c) := f (m_rtc m) in (Ok r, put_rtc c m).
Definition on_peripherals {R} (f : SccPeripherals -> R * SccPeripherals) : Mach Machine R := fun m =>
  let '(r, p) := f (m_periph m) in (Ok r, put_timers (p, m_irq m) m).

(** * The bus *)
Definition ram_byte (m : Machine) (a : Z) : option Z :=
  if u32 (a - CDI_RAM0_BASE) <? CDI_RAM0_SIZE then Some (u8 (mget (g_ram0 m) (u32 (a - CDI_RAM0_BASE))))
  else if u32 (a - CDI_RAM1_BASE) <? CDI_RAM1_SIZE then Some (u8 (mget (g_ram1 m) (u32 (a - CDI_RAM1_BASE))))
  else None.
Definition set_ram_byte (a v : Z) (m : Machine) : Machine :=
  if u32 (a - CDI_RAM0_BASE) <? CDI_RAM0_SIZE
  then put_ram (mset (g_ram0 m) (u32 (a - CDI_RAM0_BASE)) (u8 v)) (g_ram1 m) m
  else put_ram (g_ram0 m) (mset (g_ram1 m) (u32 (a - CDI_RAM1_BASE)) (u8 v)) m.

(** The last byte of a bank: a word access there leaves the C array. *)
Definition last_of_bank (a : Z) : bool :=
  (a =? CDI_RAM0_BASE + CDI_RAM0_SIZE - 1) || (a =? CDI_RAM1_BASE + CDI_RAM1_SIZE - 1).

Definition rom_byte (m : Machine) (a : Z) : Z := u8 (mget (g_rom m) (a - CDI_ROM_BASE)).
Definition bus_fault {R} (a : Z) : Mach Machine R := throw (EBusFault a).
Definition nvram_address (a : Z) : Z := u16 (Z.shiftr (u32 (a - CDI_NVRAM_BASE)) 1).

Definition bus_read8 (addr : Z) : Mach Machine Z :=
  modify (put_last addr);;;
  p <-- gets (fun m => ram_byte m addr);;
  match p with
  | Some b => ret b
  | None =>
    match classify addr with
    | RGN_ROM => gets (fun m => rom_byte m addr)
    | RGN_MCD212 => v <-- on_scan (mcd212_read addr);; ret (u8 v)
    | RGN_CDIC => v <-- on_ciap (cdic_read hle addr 1);; ret (u8 v)
    | RGN_SLAVE => v <-- on_gate (slave_read addr);; ret (u8 v)
    | RGN_PERIPH => v <-- on_peripherals (periph_read addr 1);; ret (u8 v)
    | RGN_NVRAM =>
      if z2b (Z.land addr 1) then bus_fault addr
      else v <-- on_rtc (nvram_get_byte (nvram_address addr));; ret (u8 v)
    | _ => bus_fault addr
    end
  end.

Definition bus_read16 (addr : Z) : Mach Machine Z :=
  modify (put_last addr);;;
  p <-- gets (fun m => ram_byte m addr);;
  match p with
  | Some hi =>
    if last_of_bank addr then throw EUndefined
    else
      lo <-- gets (fun m => default 0 (ram_byte m (addr + 1)));;
      ret (u16 (Z.lor (Z.shiftl hi 8) lo))
  | None =>
    match classify addr with
    | RGN_ROM => gets (fun m => u16 (Z.lor (Z.shiftl (rom_byte m addr) 8) (rom_byte m (addr + 1))))
    | RGN_MCD212 => v <-- on_scan (mcd212_read addr);; ret (u16 v)
    | RGN_CDIC => v <-- on_ciap (cdic_read hle addr 2);; ret (u16 v)
    | RGN_SLAVE => v <-- on_gate (slave_read addr);; ret (u16 v)
    | RGN_PERIPH => v <-- on_peripherals (periph_read addr 2);; ret (u16 v)
    | RGN_NVRAM => v <-- on_rtc (nvram_get_byte (nvram_address addr));; ret (u16 (Z.shiftl (u8 v) 8))
    | _ => bus_fault addr
    end
  end.

(** A write to the gate; the restart it may ask for abandons the access for the
    trampoline, whose landing pad is always armed while code runs. *)
Definition write_gate (addr val : Z) : Mach Machine unit :=
  on_gate (fun w => (tt, slave_write addr val w));;;
  pending <-- gets m_boot_reset;;
  when pending (throw EIrqUnwind).

Definition bus_write8 (addr val : Z) : Mach Machine unit :=
  modify (put_last addr);;;
  p <-- gets (fun m => ram_byte m addr);;
  match p with
  | Some _ => modify (set_ram_byte addr val)
  | None =>
    match classify addr with
    | RGN_ROM => ret tt
    | RGN_MCD212 => on_scan (mcd212_write addr val 1)
    (* a byte never starts the DMA channel *)
    | RGN_CDIC => pure_ciap (cdic_write hle addr val 1);;; ret tt
    | RGN_SLAVE => write_gate addr val
    | RGN_PERIPH => on_peripherals (fun p => (tt, periph_write addr val 1 p))
    | RGN_NVRAM =>
      if z2b (Z.land addr 1) then bus_fault addr
      else on_rtc (fun r => (tt, nvram_set_byte (nvram_address addr) val r))
    | _ => bus_fault addr
    end
  end.

(** A word write; [dma] performs the transfer a write of DMACTL starts. *)
Definition bus_write16_with (dma : Z -> Mach Machine unit) (addr val : Z) : Mach Machine unit :=
  modify (put_last addr);;;
  p <-- gets (fun m => ram_byte m addr);;
  match p with
  | Some _ =>
    if last_of_bank addr then throw EUndefined
    else modify (fun m => set_ram_byte (addr + 1) val (set_ram_byte addr (Z.shiftr val 8) m))
  | None =>
    match classify addr with
    | RGN_ROM => ret tt
    | RGN_MCD212 => on_scan (mcd212_write addr val 2)
    | RGN_CDIC =>
      request <-- pure_ciap (cdic_write hle addr val 2);;
      match request with
      | Some control => dma control
      | None => ret tt
      end
    | RGN_SLAVE => write_gate addr val
    | RGN_PERIPH => on_peripherals (fun p => (tt, periph_write addr val 2 p))
    | RGN_NVRAM => on_rtc (fun r => (tt, nvram_set_byte (nvram_address addr) (u8 (Z.shiftr val 8)) r))
    | _ => bus_fault addr
    end
  end.

(** The DMA channel writes through the bus, so that a transfer aimed at DMACTL
    starts another inside it; [nested] transfers at most are followed. *)
Fixpoint dma_request (nested : nat) (control : Z) : Mach Machine unit :=
  match nested with
  | O => throw EUndefined
  | S nested' =>
    periph_ciap_dma_request m_periph (fun p m => put_timers (p, m_irq m) m) bus_read16
      (bus_write16_with (dma_request nested')) (pure_ciap (cdic_dma_pull_word hle))
      (fun v => on_ciap (modify (cdic_dma_push_word hle v)))
      (on_ciap (modify (cdic_dma_complete hle))) control
  end.
Definition DMA_NESTING : nat := 4.
Definition bus_write16 : Z -> Z -> Mach Machine unit := bus_write16_with (dma_request DMA_NESTING).

(** RAM and ROM only, without an effect. *)
Definition debug_peek8 (m : Machine) (addr : Z) : bool * Z :=
  match ram_byte m addr with
  | Some b => (true, b)
  | None => if decide (classify addr = RGN_ROM) then (true, rom_byte m addr) else (false, 0)
  end.

Definition cdi_bus_load_rom (src : list Z) (m : Machine) : Machine :=
  mkMachine (m_vdsc m) (g_ram0 m) (g_ram1 m) (mstore (g_rom m) 0 (take (Z.to_nat CDI_ROM_SIZE) src)) (m_irq m)
    (m_video m) (m_frame m) (m_schedule m) (m_input m) (m_periph m) (m_ciap m) (m_streaming m) (m_audio m)
    (m_media m) (m_ikat m) (m_rtc m) (m_boot_reset m) (m_pace m) (g_total_cycles m) (m_last_access m).

(** * Device time *)

(** Turns enough for the two loops that catch up with the time elapsed. *)
Definition hundredths_in (x : double) : nat := S (Z.to_nat (dtrunc x / 10000000)).
Definition lines_in (x : double) : nat := S (Z.to_nat (dtrunc x / 63560)).

Definition advance_rtc (elapsed_ns : double) : Mach Machine unit := fun m =>
  match nvram_increment_clock (hundredths_in (dadd (sub_hundredth_ns (m_rtc m)) elapsed_ns)) elapsed_ns (m_rtc m) with
  | Some r => (Ok tt, put_rtc r m)
  | None => (Exn EUndefined, m)
  end.

Definition advance_raster (elapsed_ns : double) : Mach (ScanWorld V) unit :=
  modify (add_line_phase elapsed_ns);;;
  d <-- gets vdsc;;
  raster_loop (lines_in (line_phase_ns d)).

Definition machine_tick (cycles : Z) : Mach Machine unit :=
  let elapsed_ns := elapsed_of cycles in
  modify (fun m => put_timers (periph_increment_timer cycles (m_periph m, m_irq m)) m);;;
  modify (fun m => put_gate (slave_increment_time elapsed_ns (gate_of m)) m);;;
  modify (fun m => put_ciap (cdic_increment_time hle elapsed_ns (ciap_of m)) m);;;
  advance_rtc elapsed_ns;;;
  modify (fun m => put_cycles (u64 (g_total_cycles m + cycles)) m);;;
  on_scan (advance_raster elapsed_ns);;;
  modify (fun m => put_pace (runtime_pace_cycles cycles (m_pace m)) m).

(** ** Idle batches *)
Fixpoint raster_quiet (limit : nat) (phase quantum period : double) : nat :=
  match limit with
  | O => O
  | S limit' =>
    let next := dadd phase quantum in
    if dge next period then O else S (raster_quiet limit' next quantum period)
  end.

(** The quanta in which no chip has anything to do. *)
Definition quiet_quanta (maximum : Z) (m : Machine) : nat :=
  let limit := if maximum <? 64 then maximum else 64 in
  let limit := periph_quiet_quanta limit (m_periph m) in
  let limit := slave_quiet_quanta limit integer_ns (gate_of m) in
  let limit := cdi_streaming_quiet_quanta hle limit integer_ns (ciap_of m) in
  let limit := runtime_pacing_quiet_quanta limit (m_pace m) in
  let limit := nvram_quiet_quanta (Z.to_nat limit) quantum_ns (m_rtc m) in
  raster_quiet limit (line_phase_ns (m_vdsc m)) quantum_ns (raster_line_period_ns (m_vdsc m)).

(** [started] is the raster's phase at the start of the batch. *)
Definition advance_quiet (completed : nat) (started : double) (m : Machine) : Machine :=
  let ns := Z.of_nat completed * integer_ns in
  let cycles := Z.of_nat completed * QUANTUM_CYCLES in
  let phase := Nat.iter completed (fun phase => dadd phase quantum_ns) started in
  let m := put_timers (periph_advance_quiet cycles (m_periph m), m_irq m) m in
  let m := put_gate (on_ikat (slave_advance_quiet ns) (gate_of m)) m in
  let m := put_ciap (cdic_increment_time hle (dof_Z ns) (ciap_of m)) m in
  let m := put_rtc (nvram_advance_quiet completed quantum_ns (m_rtc m)) m in
  let m := put_cycles (u64 (g_total_cycles m + cycles)) m in
  let m := put_scan (on_vdsc (set_line_phase_ns phase) (scan_of m)) m in
  put_pace (runtime_pace_cycles cycles (m_pace m)) m.

(** What the frontend's pump reports: whether it goes on, and what it found of
    the halted CPU and of the debugger's hold on the batch. *)
Record Pumped := mkPumped { pump_continues : bool; still_halted : bool; job_undisturbed : bool }.
Inductive BatchEnd := BATCH_FULL | BATCH_QUIT | BATCH_CRITICAL (halted : bool).

(** The loop after its first quantum, whose conditions hold on entry. *)
Fixpoint batch_loop (pump : option (Machine -> Pumped * Machine)) (media : Z) (left completed : nat)
    (m : Machine) : nat * BatchEnd * Machine :=
  match left with
  | O => (completed, BATCH_FULL, m)
  | S left' =>
    let '(r, m) := match pump with Some p => p m | None => (mkPumped true true true, m) end in
    if negb (pump_continues r) then (completed, BATCH_QUIT, m)
    else if negb (still_halted r) || negb (job_undisturbed r) ||
            negb (media_generation (m_media m) =? media) || z2b (recomp_pending_irq_mask (m_irq m))
    then (completed, BATCH_CRITICAL (still_halted r), m)
    else batch_loop pump media left' (S completed) m
  end.

(** The quanta performed and whether the frontend quits; none when the CPU runs,
    an interrupt is pending, or the debugger watches. *)
Definition cdi_board_idle_quanta (halted allowed : bool) (maximum : Z)
    (pump : option (Machine -> Pumped * Machine)) : Mach Machine (nat * bool) :=
  idle <-- gets (fun m => halted && allowed && negb (z2b (recomp_pending_irq_mask (m_irq m))));;
  limit <-- gets (quiet_quanta maximum);;
  if negb idle || (limit <? 2)%nat then ret (0%nat, false)
  else
    phase <-- gets (fun m => line_phase_ns (m_vdsc m));;
    fin <-- (fun m =>
      let '(completed, e, m) := batch_loop pump (media_generation (m_media m)) (limit - 1) 1 m in
      (Ok (completed, e), advance_quiet completed phase m));;
    match snd fin with
    | BATCH_FULL => ret (fst fin, false)
    | BATCH_QUIT => ret (fst fin, true)
    | BATCH_CRITICAL false => ret (fst fin, false)
    | BATCH_CRITICAL true => machine_tick QUANTUM_CYCLES;;; ret (S (fst fin), false)
    end.

#[export] Instance machine_board : Board Machine := {
  m68k_read8 := bus_read8;
  m68k_read16 := bus_read16;
  m68k_write8 := bus_write8;
  m68k_write16 := bus_write16;
  g_last_access_addr := m_last_access;
  set_last_access_addr := put_last;
  irq_of := m_irq;
  set_irq q m := put_timers (m_periph m, q) m;
  Cpu.mcd212_tick := machine_tick;
}.

(** * The trampoline's side (runner/src/main.c) *)

(** A round of the stopped CPU; whether the frontend quits.  [board_hle] is the
    build option [CDI_BOARD_HLE]. *)
Definition stopped_round (board_hle allowed : bool) (pump : option (Machine -> Pumped * Machine))
    : Mach (Sys Machine) bool :=
  halted <-- gets Cpu.g_halted;;
  advanced <-- (if board_hle then on_bus (cdi_board_idle_quanta halted allowed 64 pump) else ret (0%nat, false));;
  if snd advanced : bool then ret true
  else
    when (fst advanced =? 0)%nat (on_bus (machine_tick QUANTUM_CYCLES));;;
    irq <-- gets (fun s => m_irq (bus s));;
    when (0 <? recomp_pending_irq_level irq) recomp_take_irq;;;
    ret false.

Definition clear_boot_reset (m : Machine) : Machine :=
  mkMachine (m_vdsc m) (g_ram0 m) (g_ram1 m) (g_rom m) (m_irq m) (m_video m) (m_frame m)
    (m_schedule m) (m_input m) (m_periph m) (m_ciap m) (m_streaming m) (m_audio m) (m_media m)
    (m_ikat m) (m_rtc m) false (m_pace m) (g_total_cycles m) (m_last_access m).

(** The landing of the gate's restart, from the vectors of the boot ROM: only the
    CPU and the on-chip peripherals are reset. *)
Definition main_reset (reset_ssp reset_pc : Z) : Mach (Sys Machine) unit :=
  on_bus (m68k_read32 0);;;
  on_bus (m68k_read32 4);;;
  upd_cpu (fun c => mkCpu (regD c) (lset (regA c) 7 reset_ssp) 0x2700 reset_pc 0 reset_ssp);;;
  modify (fun s => set_bus (put_timers (periph_reset, irq_reset) (clear_boot_reset (bus s)))
                     (set_halted false (set_cycles 0 0 s)));;;
  runtime_defer_exception_cycles 43.
End Machine.

Arguments Machine : clear implicits.
