(* ===== verification/BusSpec.v ===== *)
(** What the board guarantees: an idle batch is the quanta it replaces, with the
    frontend's pumps at their places between them, and on the RAM of the bus the
    CPU finds the memory its own theorems ask for. *)

From Stdlib Require Import ZArith Lia Bool SpecFloat.
From stdpp Require Import base tactics numbers list gmap.
From S2P Require Import Prelude Double Irq Cpu Insn Alu Ea CpuOk Ram Nvram NvramSpec Periph PeriphSpec Ciap CiapSpec CiapTime Input Slave SlaveSpec Mcd212 McdSpec Bus.
Open Scope Z_scope.
Open Scope mach_scope.

(** * Quiet phases

    A phase that a quantum at a time stays below its period. *)
Definition phase_at (k : nat) (quantum phase : double) : double :=
  Nat.iter k (fun p => dadd p quantum) phase.

Lemma phase_at_succ k q phase : phase_at (S k) q phase = dadd (phase_at k q phase) q.
Proof. done. Qed.

Lemma raster_quiet_le limit phase q period : (raster_quiet limit phase q period <= limit)%nat.
Proof.
  revert phase. induction limit as [|l IH]; intros phase; cbn [raster_quiet]; [lia|].
  cbv zeta. destruct (dge _ _); [lia|]. specialize (IH (dadd phase q)). lia.
Qed.
Lemma raster_quiet_below limit phase q period k :
  (k < raster_quiet limit phase q period)%nat -> dge (phase_at (S k) q phase) period = false.
Proof.
  revert phase k. induction limit as [|l IH]; intros phase k; cbn [raster_quiet]; [lia|].
  cbv zeta. destruct (dge (dadd phase q) period) eqn:E; [lia|]. intros Hk.
  destruct k as [|k]; [exact E|]. unfold phase_at. rewrite Nat.iter_succ_r. apply IH. lia.
Qed.
Lemma quiet_count_raster n phase q : quiet_count n phase q = raster_quiet n phase q hundredth_ns.
Proof. revert phase. induction n as [|n IH]; intros phase; [done|]. cbn. by rewrite IH. Qed.

(** ** The clock *)
Lemma nvram_quanta_le n q r : (nvram_quiet_quanta n q r <= n)%nat.
Proof.
  unfold nvram_quiet_quanta. destruct (oscillator_off r); [lia|]. rewrite quiet_count_raster.
  apply raster_quiet_le.
Qed.
Lemma clock_quiet_step fuel k max q r :
  (k < nvram_quiet_quanta max q r)%nat ->
  nvram_increment_clock fuel q (nvram_advance_quiet k q r) = Some (nvram_advance_quiet (S k) q r).
Proof.
  unfold nvram_quiet_quanta, nvram_advance_quiet. destruct (oscillator_off r) eqn:Ho.
  - intros _. unfold nvram_increment_clock. by rewrite Ho.
  - rewrite quiet_count_raster. intros Hk%raster_quiet_below. unfold nvram_increment_clock.
    change (oscillator_off (with_sub (phase_at k q (sub_hundredth_ns r)) r)) with (oscillator_off r).
    fold (phase_at k q (sub_hundredth_ns r)) (phase_at (S k) q (sub_hundredth_ns r)).
    change (oscillator_off (with_sub (phase_at k q (sub_hundredth_ns r)) r)) with (oscillator_off r).
    rewrite Ho. cbn [with_sub sub_hundredth_ns]. rewrite <- phase_at_succ.
    set (r1 := with_sub _ (with_sub _ r)).
    assert (r1 = with_sub (phase_at (S k) q (sub_hundredth_ns r)) r) as E by done. clearbody r1. subst r1.
    destruct fuel; cbn [hundredth_loop with_sub sub_hundredth_ns]; by rewrite Hk.
Qed.

(** ** The timers *)
Lemma timers_quiet_step k n max p q :
  periph_ok p -> is_u32 max -> Z.of_nat n <= periph_quiet_quanta max p -> (k < n)%nat ->
  periph_increment_timer 25 (periph_advance_quiet (25 * Z.of_nat k) p, q) =
    (periph_advance_quiet (25 * Z.of_nat (S k)) p, q).
Proof.
  intros Hp Hm Hn Hk. rewrite <- !(timer_batch _ max) by (done || lia). done.
Qed.

Lemma timers_quanta_le max p : periph_quiet_quanta max p <= max.
Proof. unfold periph_quiet_quanta. cbv zeta. destruct (Z.ltb_spec (u32 (u32 (quiet_ticks p * 96 - timer_prescale_cycles p) - 1) / 25) max); lia. Qed.
Lemma timers_quanta_nonneg max p : 0 <= max -> 0 <= periph_quiet_quanta max p.
Proof.
  intros H. unfold periph_quiet_quanta. cbv zeta.
  set (x := u32 (_ - 1)). assert (0 <= x) by (subst x; apply u32_range).
  destruct (Z.ltb_spec (x / 25) max); [apply Z.div_pos; lia|done].
Qed.

(** ** Pacing *)
Definition pace_after (cycles : Z) (p : Pacing) : Pacing :=
  if s_realtime_pacing p then mkPace true (s_pace_pending_cycles p + cycles) else p.

Lemma pacing_bound max p n :
  0 <= s_pace_pending_cycles p -> 0 < n <= runtime_pacing_quiet_quanta max p ->
  s_realtime_pacing p = true -> s_pace_pending_cycles p + n * 25 < CDI_PACE_CHUNK_CYCLES.
Proof.
  intros Hp Hn E. unfold runtime_pacing_quiet_quanta in Hn. rewrite E in Hn. cbn [negb] in Hn.
  cbv zeta in Hn. destruct (Z.leb_spec CDI_PACE_CHUNK_CYCLES (s_pace_pending_cycles p)); [lia|].
  set (x := CDI_PACE_CHUNK_CYCLES - s_pace_pending_cycles p - 1) in *.
  assert (n <= x / 25) as Hx by (destruct (Z.ltb_spec (x / 25) max); lia).
  pose proof (Z.mul_div_le x 25 ltac:(lia)). lia.
Qed.
Lemma pacing_batch max p n :
  0 <= s_pace_pending_cycles p -> 0 < n <= runtime_pacing_quiet_quanta max p ->
  runtime_pace_cycles (n * 25) p = pace_after (n * 25) p.
Proof.
  intros Hp Hn. pose proof (pacing_bound max p n Hp Hn) as Hb. unfold runtime_pace_cycles, pace_after.
  destruct (s_realtime_pacing p); cbn [negb]; [|done]. cbv zeta. specialize (Hb eq_refl).
  unfold CDI_PACE_CHUNK_CYCLES in *. rewrite u64_id by (unfold is_word; lia).
  destruct (Z.ltb_spec (s_pace_pending_cycles p + n * 25) 151049); [done|lia].
Qed.
Lemma pacing_step max p n k :
  0 <= s_pace_pending_cycles p -> n <= runtime_pacing_quiet_quanta max p -> 0 <= k < n ->
  runtime_pace_cycles 25 (pace_after (k * 25) p) = pace_after ((k + 1) * 25) p.
Proof.
  intros Hp Hn Hk. pose proof (pacing_bound max p n Hp ltac:(lia)) as Hb.
  unfold runtime_pace_cycles, pace_after. destruct (s_realtime_pacing p) eqn:E; cbn [negb]; [|by rewrite E].
  cbn [s_realtime_pacing s_pace_pending_cycles negb]. cbv zeta. specialize (Hb eq_refl).
  unfold CDI_PACE_CHUNK_CYCLES in *. rewrite u64_id by (unfold is_word; lia).
  destruct (Z.ltb_spec (s_pace_pending_cycles p + k * 25 + 25) 151049); [|lia]. f_equal. lia.
Qed.

(** ** The CD interface *)
Section CiapQuiet.
Context {A Md : Type} `{AudioOps A} `{MediaOps Md}.
Implicit Types w : CiapWorld A Md.

(** The count of deferred quanta, a statistic of the debugger, apart. *)
Definition uncounted_job (w : CiapWorld A Md) : CiapWorld A Md := upd_job (set_deferred_quanta 0) w.

Lemma memoised_twice w : memoised (memoised w) = memoised w.
Proof. unfold memoised at 2. destruct (deadline_valid (streaming w)) eqn:E; [done|]. by unfold memoised; rewrite E. Qed.

Definition deferred_by (n x : Z) (w : CiapWorld A Md) : CiapWorld A Md :=
  upd_job (fun j => set_deferred_quanta (u64 (deferred_quanta j + n)) (set_pending_ns (pending_ns j + x) j)) w.

(** [x] nanoseconds from now no unit has an event. *)
Definition ciap_idle_for (hle : bool) (x : Z) w : Prop :=
  next_event_ns (ciap w) = UINT64_MAX \/
  next_event_ns (ciap w) < 2 ^ 62 /\
  (if hle then pending_ns (streaming w) else 0) + x < next_event_ns (ciap w).

(** What [n] quanta of [x] nanoseconds leave, [n] not zero. *)
Definition ciap_after (hle : bool) (n x : Z) w : CiapWorld A Md :=
  if hle then
    let w := memoised w in
    if deadline_ns (streaming w) =? UINT64_MAX then w else deferred_by n x w
  else advance_streaming x w.

Lemma ciap_quiet_first hle ns w :
  deferring w -> ciap_idle_for hle (dtrunc ns) w ->
  cdic_increment_time hle ns w = ciap_after hle 1 (dtrunc ns) w.
Proof.
  intros Hd Hi. pose proof (dtrunc_range ns) as Hx. unfold is_word in Hx.
  destruct hle; [|by apply faithful_step, Hd].
  rewrite increment_eq by apply Hd. cbv zeta. unfold ciap_after. cbv zeta.
  destruct (memoised_spec w Hd) as (Ec & Ep & Edl & Hd' & _). unfold ciap_idle_for in Hi. rewrite <- Ep in Hi.
  pose proof (def_pending w Hd) as Hp. rewrite <- Ep in Hp.
  set (w' := memoised w) in *. clearbody w'. rewrite Edl.
  destruct Hi as [E|[Hn Hi]]; [by rewrite E, Z.eqb_refl|].
  destruct (Z.eqb_spec (next_event_ns (ciap w)) UINT64_MAX) as [E|_]; [unfold UINT64_MAX in E; lia|].
  rewrite u64_id by (unfold is_word; lia).
  destruct (Z.ltb_spec (dtrunc ns) (next_event_ns (ciap w) - pending_ns (streaming w'))); [|lia].
  unfold deferred_by, upd_job. f_equal. unfold set_deferred_quanta, set_pending_ns. cbn. f_equal. apply u64_id. unfold is_word. lia.
Qed.

Lemma u64_add_l a b : u64 (u64 a + b) = u64 (a + b).
Proof. unfold u64. by rewrite Zplus_mod_idemp_l. Qed.

Lemma ciap_quiet_next hle n y ns w :
  deferring w -> 0 <= y -> ciap_idle_for hle (y + dtrunc ns) w ->
  cdic_increment_time hle ns (ciap_after hle n y w) = ciap_after hle (n + 1) (y + dtrunc ns) w.
Proof.
  intros Hd Hy Hi. pose proof (dtrunc_range ns) as Hx. unfold is_word in Hx. destruct hle.
  - unfold ciap_after at 1 2. cbv zeta.
    destruct (memoised_spec w Hd) as (Ec & Ep & Edl & Hd' & _). unfold ciap_idle_for in Hi. rewrite <- Ep in Hi.
    pose proof (def_pending w Hd) as Hp. rewrite <- Ep in Hp.
    assert (deadline_valid (streaming (memoised w)) = true) as Ev.
    { unfold memoised. destruct (deadline_valid (streaming w)) eqn:E; [exact E|done]. }
    set (w' := memoised w) in *. clearbody w'. rewrite Edl.
    destruct Hi as [E|[Hn Hi]].
    + rewrite E, Z.eqb_refl. rewrite increment_eq by apply Hd'. cbv zeta. unfold memoised.
      by rewrite Ev, Edl, E, Z.eqb_refl.
    + destruct (Z.eqb_spec (next_event_ns (ciap w)) UINT64_MAX) as [E|_]; [unfold UINT64_MAX in E; lia|].
      rewrite increment_eq by apply Hd'. cbv zeta. unfold memoised.
      assert (deadline_valid (streaming (deferred_by n y w')) = true) as -> by exact Ev.
      change (deadline_ns (streaming (deferred_by n y w'))) with (deadline_ns (streaming w')).
      change (pending_ns (streaming (deferred_by n y w'))) with (pending_ns (streaming w') + y).
      rewrite Edl.
      destruct (Z.eqb_spec (next_event_ns (ciap w)) UINT64_MAX) as [E|_]; [unfold UINT64_MAX in E; lia|].
      rewrite u64_id by (unfold is_word; lia).
      destruct (Z.ltb_spec (dtrunc ns) (next_event_ns (ciap w) - (pending_ns (streaming w') + y))); [|lia].
      unfold deferred_by, upd_job. cbn [ciap streaming cw_irq cw_audio cw_media].
      unfold set_deferred_quanta, set_pending_ns. cbn. f_equal. f_equal.
      * rewrite u64_id by (unfold is_word; lia). lia.
      * rewrite u64_add_l. f_equal. lia.
  - unfold ciap_after. pose proof (def_clocks w Hd) as Hc.
    destruct Hi as [E|[Hn Hi]].
    + rewrite !idle_advance by (done || lia). rewrite faithful_step by done. by apply idle_advance; [lia|..].
    + cbn match in Hi. rewrite faithful_step by (apply advance_clocks; [lia|done]).
      pose proof (next_event_before y (ciap w) Hc ltac:(lia)) as Hb.
      rewrite (quiet_step_split y (dtrunc ns) w Hb). rewrite (advance_before y w); [done|lia|done|].
      intros Er. pose proof (clk_sector _ Hc Er). lia.
Qed.

Lemma ciap_after_quiet hle n x w :
  deferring w -> 0 <= x -> ciap_idle_for hle x w ->
  let w' := ciap_after hle n x w in
  cw_irq w' = cw_irq w /\ cw_audio w' = cw_audio w /\ cw_media w' = cw_media w.
Proof.
  intros Hd Hx Hi. unfold ciap_after. destruct hle; cbv zeta.
  - assert (cw_irq (memoised w) = cw_irq w /\ cw_audio (memoised w) = cw_audio w /\
      cw_media (memoised w) = cw_media w) by (unfold memoised; by destruct (deadline_valid _)).
    destruct (_ =? _); done.
  - pose proof (def_clocks w Hd) as Hc. destruct Hi as [E|[Hn Hi]].
    + by rewrite idle_advance.
    + cbn match in Hi. rewrite advance_before; [done|lia|by apply next_event_before|].
      intros Er. pose proof (clk_sector _ Hc Er). lia.
Qed.

Lemma ciap_after_uncounted hle n k x w :
  uncounted_job (ciap_after hle n x w) = uncounted_job (ciap_after hle k x w).
Proof.
  unfold ciap_after. destruct hle; [|done]. cbv zeta. by destruct (_ =? _).
Qed.

Lemma ciap_quanta_idle hle max x n w :
  deferring w -> 0 < x -> Z.of_nat n <= cdi_streaming_quiet_quanta hle max x w -> (0 < n)%nat ->
  ciap_idle_for hle (Z.of_nat n * x) w.
Proof.
  intros Hd Hx Hn Hpos. pose proof (def_clocks w Hd) as Hc. unfold cdi_streaming_quiet_quanta in Hn.
  rewrite (clk_init _ Hc) in Hn. cbn [negb] in Hn. cbv zeta in Hn. unfold ciap_idle_for.
  set (p := if hle then _ else 0) in *. destruct (next_event_range _ Hc) as [_ Hr].
  destruct (Z.eqb_spec (next_event_ns (ciap w)) UINT64_MAX); [by left|]. right.
  destruct Hr as [|Hr]; [done|]. split; [done|].
  destruct (Z.leb_spec (next_event_ns (ciap w)) p); [lia|].
  set (d := next_event_ns (ciap w) - p - 1) in *.
  assert (Z.of_nat n <= d / x) by (destruct (Z.ltb_spec (d / x) max); lia).
  pose proof (Z.mul_div_le d x Hx). nia.
Qed.
End CiapQuiet.

(** * The machine *)
Section MachineSpec.
Context {V A Md : Type} `{VideoOps V} `{AudioOps A} `{MediaOps Md}.
Context (hle : bool).
Implicit Types m : Machine V A Md.
#[local] Instance host : IkatHost (GateHost (A:=A) (Md:=Md)) := gate_host hle.

Lemma raster_rests fuel (w : ScanWorld V) :
  dge (line_phase_ns (vdsc w)) (raster_line_period_ns (vdsc w)) = false ->
  raster_loop fuel w = (Ok tt, w).
Proof.
  intros Hl. destruct fuel; cbn [raster_loop]; erewrite run_bind by apply run_gets; by rewrite Hl.
Qed.

(** A quantum in which no chip has an event. *)
Lemma machine_tick_quiet p d c r m :
  periph_increment_timer 25 (m_periph m, m_irq m) = (p, m_irq m) ->
  (forall w : IkatWorld GateHost, ikat w = m_ikat m ->
     host_media_generation (iw_host w) = media_generation (m_media m) ->
     slave_increment_time quantum_ns w = on_ikat (fun _ => d) w) ->
  cdic_increment_time hle quantum_ns (ciap_of m) = c ->
  cw_irq c = m_irq m -> cw_audio c = m_audio m -> cw_media c = m_media m ->
  (forall fuel, nvram_increment_clock fuel quantum_ns (m_rtc m) = Some r) ->
  dge (dadd (line_phase_ns (m_vdsc m)) quantum_ns) (raster_line_period_ns (m_vdsc m)) = false ->
  machine_tick hle 25 m =
  (Ok tt, mkMachine (set_line_phase_ns (dadd (line_phase_ns (m_vdsc m)) quantum_ns) (m_vdsc m))
     (g_ram0 m) (g_ram1 m) (g_rom m) (m_irq m) (m_video m) (m_frame m) (m_schedule m) (m_input m) p
     (ciap c) (streaming c) (m_audio m) (m_media m) d r (m_boot_reset m)
     (runtime_pace_cycles 25 (m_pace m)) (u64 (g_total_cycles m + 25)) (m_last_access m)).
Proof.
  intros Hp Hd Hc Ei Ea Em Hr Hl. unfold machine_tick. change (elapsed_of 25) with quantum_ns. cbv zeta.
  generalize dependent quantum_ns. intros q Hd Hc Hr Hl.
  erewrite run_bind by apply run_modify. rewrite Hp.
  erewrite run_bind by apply run_modify. rewrite Hd by done.
  erewrite run_bind by apply run_modify.
  match goal with |- context [cdic_increment_time hle q ?x] => change x with (ciap_of m) end.
  rewrite Hc. destruct c as [ci st ir au me]. cbn [cw_irq cw_audio cw_media] in *. subst ir au me.
  erewrite run_bind.
  2: { unfold advance_rtc. match goal with |- context [m_rtc ?x] => change (m_rtc x) with (m_rtc m) end.
    rewrite Hr. reflexivity. }
  erewrite run_bind by apply run_modify.
  erewrite run_bind.
  2: { unfold on_scan, advance_raster. erewrite run_bind by apply run_modify. erewrite run_bind by apply run_gets.
    match goal with |- context [raster_loop ?f ?w] =>
      rewrite (raster_rests f w) by exact Hl end.
    reflexivity. }
  rewrite run_modify. reflexivity.
Qed.

(** ** The machine within a batch *)
Record idle_ok m : Prop := {
  idle_periph : periph_ok (m_periph m);
  idle_gate : ikat_ok (m_ikat m);
  idle_ciap : deferring (ciap_of m);
  idle_pace : 0 <= s_pace_pending_cycles (m_pace m);
  idle_cycles : is_u64 (g_total_cycles m);
}.

(** After [k] quiet quanta, the frontend having left the input [i]. *)
Definition idle_at (k : nat) (i : InputState) (m : Machine V A Md) : Machine V A Md :=
  let x := Z.of_nat k * integer_ns in
  let c := match k with O => ciap_of m | _ => ciap_after hle (Z.of_nat k) x (ciap_of m) end in
  mkMachine (set_line_phase_ns (phase_at k quantum_ns (line_phase_ns (m_vdsc m))) (m_vdsc m))
    (g_ram0 m) (g_ram1 m) (g_rom m) (m_irq m) (m_video m) (m_frame m) (m_schedule m) i
    (periph_advance_quiet (25 * Z.of_nat k) (m_periph m)) (ciap c) (streaming c) (m_audio m)
    (m_media m) (slave_advance_quiet x (m_ikat m)) (nvram_advance_quiet k quantum_ns (m_rtc m))
    (m_boot_reset m) (pace_after (Z.of_nat k * 25) (m_pace m))
    (u64 (g_total_cycles m + Z.of_nat k * 25)) (m_last_access m).

(** What the bounds of [n] quanta give. *)
Record quiet_for (n : nat) m : Prop := {
  quiet_timers : forall k, (k < n)%nat ->
    periph_increment_timer 25 (periph_advance_quiet (25 * Z.of_nat k) (m_periph m), m_irq m) =
      (periph_advance_quiet (25 * Z.of_nat (S k)) (m_periph m), m_irq m);
  quiet_gate : (0 < n)%nat -> quiet_until (Z.of_nat n * integer_ns) (m_ikat m) /\
    ikat_initialized (m_ikat m) = true /\
    media_generation (m_media m) = media_generation_seen (m_ikat m);
  quiet_ciap : (0 < n)%nat -> ciap_idle_for hle (Z.of_nat n * integer_ns) (ciap_of m);
  quiet_pace : forall k, 0 <= k < Z.of_nat n ->
    runtime_pace_cycles 25 (pace_after (k * 25) (m_pace m)) = pace_after ((k + 1) * 25) (m_pace m);
  quiet_pace_batch : forall k, 0 < k <= Z.of_nat n ->
    runtime_pace_cycles (k * 25) (m_pace m) = pace_after (k * 25) (m_pace m);
  quiet_rtc : forall k fuel, (k < n)%nat ->
    nvram_increment_clock fuel quantum_ns (nvram_advance_quiet k quantum_ns (m_rtc m)) =
      Some (nvram_advance_quiet (S k) quantum_ns (m_rtc m));
  quiet_raster : forall k, (k < n)%nat ->
    dge (phase_at (S k) quantum_ns (line_phase_ns (m_vdsc m))) (raster_line_period_ns (m_vdsc m)) = false;
}.

Lemma integer_ns_val : integer_ns = 1655.
Proof. vm_compute. reflexivity. Qed.

Lemma slave_quanta_le max x (w : IkatWorld GateHost) : slave_quiet_quanta max x w <= Z.max 0 max.
Proof.
  unfold slave_quiet_quanta. cbv zeta. destruct (_ || _); [lia|]. destruct (_ =? 0); [lia|].
  destruct (Z.ltb_spec ((ikat_limit (ikat w) - 1) / x) max); lia.
Qed.
Lemma streaming_quanta_le max x (w : CiapWorld A Md) :
  cdi_streaming_quiet_quanta hle max x w <= Z.max 0 max.
Proof.
  unfold cdi_streaming_quiet_quanta. cbv zeta. destruct (negb _); [lia|].
  destruct (_ =? _); [lia|]. destruct (_ <=? _); [lia|].
  set (d := _ / x). destruct (Z.ltb_spec d max); lia.
Qed.
Lemma pacing_quanta_le max p : runtime_pacing_quiet_quanta max p <= Z.max 0 max.
Proof.
  unfold runtime_pacing_quiet_quanta. cbv zeta. destruct (negb _); [lia|].
  destruct (_ <=? _); [lia|]. set (d := _ / 25). destruct (Z.ltb_spec d max); lia.
Qed.

Lemma admitted_quiet maximum n m :
  idle_ok m -> is_u32 maximum -> (n <= quiet_quanta hle maximum m)%nat ->
  quiet_for n m /\ (n <= 64)%nat.
Proof.
  intros [Hp Hg Hc Hpa _] Hmax Hn. unfold quiet_quanta in Hn. cbv zeta in Hn.
  set (l0 := if maximum <? 64 then maximum else 64) in *.
  assert (is_u32 l0 /\ l0 <= 64) as [Hl0 Hl0']
    by (subst l0; unfold is_word in *; destruct (Z.ltb_spec maximum 64); lia).
  pose proof (timers_quanta_le l0 (m_periph m)) as B1. set (l1 := periph_quiet_quanta l0 _) in *.
  pose proof (slave_quanta_le l1 integer_ns (gate_of m)) as B2. unfold host in B2. set (l2 := slave_quiet_quanta l1 _ _) in *.
  pose proof (streaming_quanta_le l2 integer_ns (ciap_of m)) as B3.
  set (l3 := cdi_streaming_quiet_quanta _ l2 _ _) in *.
  pose proof (pacing_quanta_le l3 (m_pace m)) as B4. set (l4 := runtime_pacing_quiet_quanta l3 _) in *.
  pose proof (nvram_quanta_le (Z.to_nat l4) quantum_ns (m_rtc m)) as B5.
  set (l5 := nvram_quiet_quanta _ _ _) in *.
  pose proof (raster_quiet_le l5 (line_phase_ns (m_vdsc m)) quantum_ns
    (raster_line_period_ns (m_vdsc m))) as B6.
  split; [|lia]. split.
  - intros k Hk. apply (timers_quiet_step k n l0); [done|done| |done]. fold l1. lia.
  - intros Hpos. destruct (quiet_quanta_until n l1 integer_ns (gate_of m)) as (E1 & E2 & E3);
      unfold host; [exact Hg|rewrite integer_ns_val; lia|fold l2; lia|done|]. done.
  - intros Hpos. apply (ciap_quanta_idle hle l2); [done|rewrite integer_ns_val; lia|fold l3; lia|done].
  - intros k Hk. apply (pacing_step l3 _ (Z.of_nat n)); [done|fold l4; lia|done].
  - intros k Hk. apply (pacing_batch l3); [done|fold l4; lia].
  - intros k fuel Hk. apply (clock_quiet_step fuel k (Z.to_nat l4)). fold l5. lia.
  - intros k Hk. apply (raster_quiet_below l5). lia.
Qed.

Lemma quiet_until_le x y d : x <= y -> quiet_until y d -> quiet_until x d.
Proof.
  intros Hxy [Hp Hc]. split; [lia|]. intros c Hch E. specialize (Hc c Hch E). lia.
Qed.
Lemma ciap_idle_le x y (w : CiapWorld A Md) :
  x <= y -> ciap_idle_for hle y w -> ciap_idle_for hle x w.
Proof. intros Hxy [E|[Hn Hi]]; [by left|right]. split; [done|]. destruct hle; lia. Qed.

Lemma quantum_trunc : dtrunc quantum_ns = integer_ns.
Proof. done. Qed.

Lemma advance_quiet_ok x d : ikat_ok d -> 0 <= x -> quiet_until x d -> ikat_ok (slave_advance_quiet x d).
Proof.
  intros Hd Hx [Hp Hq]. destruct Hd as [Hr [Hl Hf] Hm Hpe].
  rewrite advance_quiet_eq, quiet_all_eq by done. split; [exact Hr|split|..].
  - cbn. by rewrite length_fmap.
  - cbn. apply Forall_fmap, Forall_lookup. intros i q Hi.
    pose proof (lookup_lt_Some _ _ _ Hi) as Hlt. rewrite Hl in Hlt.
    assert (is_channel (Z.of_nat i)) as Hch by regs.
    pose proof (chan_lookup d _ Hl Hch) as E. rewrite Nat2Z.id, Hi in E. injection E as E.
    specialize (Hq _ Hch). rewrite <- E in Hq.
    pose proof (Forall_lookup_1 _ _ _ _ Hf Hi) as Hok.
    cbn. unfold quiet_chan. destruct (deferred_pending q) eqn:Ep; [|exact Hok].
    specialize (Hq eq_refl). destruct Hok as [C1 C2 C3 C4 C5 C6 C7 C8]. split; cbn; try done.
    rewrite u64_id by (unfold is_word, REPLY_DELAY_NS in *; lia). lia.
  - intros c Hc. destruct (Hm c Hc) as [M1 M2].
    set (d' := set_channel _ _). assert (response_remaining d' c = response_remaining d c) as E.
    { subst d'. unfold response_remaining, chan. cbn [channel set_channel add_pointer_time set_pointer_elapsed_ns].
      rewrite !nth_lookup, list_lookup_fmap, (chan_lookup d c Hl Hc). cbn.
      unfold quiet_chan. by destruct (deferred_pending _). }
    split; rewrite E; [exact M1|exact M2].
  - cbn. rewrite u64_id; [lia|]. unfold is_word, POINTER_PERIOD_NS in *. lia.
Qed.

Lemma quiet_for_le k n m : (k <= n)%nat -> quiet_for n m -> quiet_for k m.
Proof.
  intros Hk [Q1 Q2 Q3 Q4 Q5 Q6 Q7]. pose proof integer_ns_val as Ens. split.
  - intros j Hj. apply Q1. lia.
  - intros Hpos. destruct (Q2 ltac:(lia)) as (Hu & Hi & Hm). split; [|done].
    eapply quiet_until_le; [|exact Hu]. nia.
  - intros Hpos. eapply ciap_idle_le; [|apply Q3; lia]. nia.
  - intros j Hj. apply Q4. lia.
  - intros j Hj. apply Q5. lia.
  - intros j fuel Hj. apply Q6. lia.
  - intros j Hj. apply Q7. lia.
Qed.

(** The gate at rest for [x] nanoseconds, and the quantum after them. *)
Lemma gate_quiet_step x d (w : IkatWorld GateHost) :
  ikat_ok d -> 0 <= x -> quiet_until (x + integer_ns) d -> ikat_initialized d = true ->
  host_media_generation (iw_host w) = media_generation_seen d -> ikat w = slave_advance_quiet x d ->
  slave_increment_time quantum_ns w = on_ikat (fun _ => slave_advance_quiet (x + integer_ns) d) w.
Proof.
  intros Hd Hx Hq Hi Hm Ew. pose proof (ik_channels _ Hd) as [Hl _].
  pose proof integer_ns_val as Ens. destruct (quiet_initialized x d Hl) as [Q1 Q2].
  assert (quiet_until x d) as Hqx by (eapply quiet_until_le; [|exact Hq]; lia).
  rewrite quiet_increment; rewrite ?quantum_trunc.
  - unfold on_ikat. rewrite Ew. by rewrite advance_quiet_add.
  - unfold gate_ok. rewrite Ew. by apply advance_quiet_ok.
  - by rewrite Ew, Q1.
  - by rewrite Ew, Q2.
  - rewrite Ew. apply quiet_until_advance; done || lia.
Qed.


Lemma idle_step n k i m :
  idle_ok m -> quiet_for n m -> (k < n)%nat ->
  machine_tick hle 25 (idle_at k i m) = (Ok tt, idle_at (S k) i m).
Proof.
  intros Hok Hq Hk. pose proof integer_ns_val as Ens. pose proof (idle_ciap m Hok) as Hc.
  destruct (quiet_gate _ _ Hq ltac:(lia)) as (Hgq & Hgi & Hgm).
  pose proof (quiet_ciap _ _ Hq ltac:(lia)) as Hci.
  set (x := Z.of_nat k * integer_ns).
  assert (Z.of_nat (S k) * integer_ns = x + integer_ns) as Ex by (subst x; lia).
  assert (0 <= x /\ x + integer_ns <= Z.of_nat n * integer_ns) as [Hx Hxn] by (subst x; nia).
  set (c := ciap_after hle (Z.of_nat (S k)) (x + integer_ns) (ciap_of m)).
  assert (ciap_idle_for hle (x + integer_ns) (ciap_of m)) as Hcs by (eapply ciap_idle_le; done).
  destruct (ciap_after_quiet hle (Z.of_nat (S k)) (x + integer_ns) (ciap_of m) Hc ltac:(lia) Hcs) as (Ci & Ca & Cm).
  rewrite (machine_tick_quiet (periph_advance_quiet (25 * Z.of_nat (S k)) (m_periph m))
    (slave_advance_quiet (x + integer_ns) (m_ikat m)) c
    (nvram_advance_quiet (S k) quantum_ns (m_rtc m))).
  - unfold idle_at. rewrite Ex. cbv zeta. fold c.
    cbn [m_vdsc g_ram0 g_ram1 g_rom m_irq m_video m_frame m_schedule m_input m_audio m_media
      m_boot_reset m_pace g_total_cycles m_last_access].
    rewrite (quiet_pace _ _ Hq) by lia. f_equal. f_equal.
    + f_equal. lia.
    + rewrite u64_add_l. f_equal. lia.
  - cbn [idle_at m_periph m_irq]. by apply (quiet_timers _ _ Hq).
  - intros w Ew Em. apply gate_quiet_step; [apply Hok|done| |done| |exact Ew].
    + eapply quiet_until_le; [|exact Hgq]. lia.
    + by rewrite Em.
  - subst c x. clear Ci Ca Cm. destruct k as [|k].
    + change (ciap_of (idle_at 0 i m)) with (ciap_of m). apply ciap_quiet_first; [done|exact Hcs].
    + assert (ciap_idle_for hle (Z.of_nat (S k) * integer_ns) (ciap_of m)) as Hck
        by (eapply ciap_idle_le; [|exact Hcs]; lia).
      destruct (ciap_after_quiet hle (Z.of_nat (S k)) (Z.of_nat (S k) * integer_ns) (ciap_of m) Hc ltac:(lia) Hck)
        as (Ci & Ca & Cm).
      assert (ciap_of (idle_at (S k) i m) = ciap_after hle (Z.of_nat (S k)) (Z.of_nat (S k) * integer_ns) (ciap_of m)) as ->.
      { unfold idle_at. cbv zeta. cbn match. destruct (ciap_after _ _ _ _) as [c1 c2 c3 c4 c5]. cbn in Ci, Ca, Cm. by subst. }
      rewrite ciap_quiet_next; [|done|lia|rewrite quantum_trunc; exact Hcs].
      rewrite quantum_trunc. f_equal. lia.
  - exact Ci.
  - exact Ca.
  - exact Cm.
  - intros fuel. by apply (quiet_rtc _ _ Hq).
  - by apply (quiet_raster _ _ Hq).
Qed.
Lemma idle_at_zero m : idle_ok m -> quiet_for 1 m -> idle_at 0 (m_input m) m = m.
Proof.
  intros Hok Hq. pose proof (quiet_timers _ _ Hq 0 ltac:(lia)) as Ht.
  unfold idle_at. cbv zeta. change (Z.of_nat 0 * integer_ns) with 0.
  rewrite advance_quiet_zero by apply Hok. change (Z.of_nat 0 * 25) with 0. rewrite Z.add_0_r.
  rewrite u64_id by apply Hok. destruct m as [d r0 r1 ro q vi fr sc inp p c st au me k r br pc cy la].
  cbn [m_vdsc g_ram0 g_ram1 g_rom m_irq m_video m_frame m_schedule m_input m_audio m_media
    m_boot_reset m_pace g_total_cycles m_last_access m_periph m_ciap m_streaming m_ikat m_rtc].
  f_equal.
  - by destruct d.
  - apply periph_quiet_zero. apply Hok.
  - unfold nvram_advance_quiet. destruct (oscillator_off r); [done|]. by destruct r.
  - unfold pace_after. destruct pc as [[] pc]; [|done]. by rewrite Z.add_0_r.
Qed.

(** ** The batch and the quanta it replaces *)

(** The count of deferred quanta apart. *)
Definition uncounted m : Machine V A Md := put_ciap (uncounted_job (ciap_of m)) m.

Lemma uncounted_ext d r0 r1 ro q vi fr sc inp p c j j' au me k r br pc cy la :
  set_deferred_quanta 0 j = set_deferred_quanta 0 j' ->
  uncounted (mkMachine d r0 r1 ro q vi fr sc inp p c j au me k r br pc cy la) =
  uncounted (mkMachine d r0 r1 ro q vi fr sc inp p c j' au me k r br pc cy la).
Proof.
  intros Ej. unfold uncounted, uncounted_job, upd_job, put_ciap. cbn [ciap streaming ciap_of m_streaming].
  by rewrite Ej.
Qed.

Definition put_input (i : InputState) m : Machine V A Md :=
  mkMachine (m_vdsc m) (g_ram0 m) (g_ram1 m) (g_rom m) (m_irq m) (m_video m) (m_frame m)
    (m_schedule m) i (m_periph m) (m_ciap m) (m_streaming m) (m_audio m) (m_media m)
    (m_ikat m) (m_rtc m) (m_boot_reset m) (m_pace m) (g_total_cycles m) (m_last_access m).

(** A frontend that moves the input and may quit. *)
Definition input_pump (go : InputState -> bool) (f : InputState -> InputState) :
    option (Machine V A Md -> Pumped * Machine V A Md) :=
  Some (fun m => (mkPumped (go (m_input m)) true true, put_input (f (m_input m)) m)).

(** The loop of a stopped CPU without batches: a quantum, then the pump before
    the next one; the quanta performed and whether the frontend quits. *)
Fixpoint single_quanta (pump : option (Machine V A Md -> Pumped * Machine V A Md))
    (left completed : nat) : Mach (Machine V A Md) (nat * bool) :=
  machine_tick hle QUANTUM_CYCLES;;;
  match left with
  | O => ret (S completed, false)
  | S left' =>
    go <-- (fun m => match pump with
                     | Some p => let '(r, m) := p m in (Ok (pump_continues r), m)
                     | None => (Ok true, m)
                     end);;
    if go then single_quanta pump left' (S completed) else ret (S completed, true)
  end.

Definition loop_end (e : BatchEnd) : bool := match e with BATCH_QUIT => true | _ => false end.

Lemma batch_loop_single go f media left k i m :
  idle_ok m -> quiet_for (k + S left) m -> media = media_generation (m_media m) ->
  recomp_pending_irq_mask (m_irq m) = 0 ->
  exists n e i', batch_loop (input_pump go f) media left (S k) (put_input i m) = (n, e, put_input i' m) /\
    e <> BATCH_CRITICAL true /\ e <> BATCH_CRITICAL false /\ (k < n <= k + S left)%nat /\
    single_quanta (input_pump go f) left k (idle_at k i m) = (Ok (n, loop_end e), idle_at n i' m).
Proof.
  intros Hok Hq Hm Hirq. revert k i Hq. induction left as [|left IH]; intros k i Hq.
  - exists (S k), BATCH_FULL, i. split_and!; [done..|lia|lia|]. cbn [single_quanta].
    erewrite run_bind by (by apply (idle_step (k + 1)); [..|lia]). done.
  - cbn [batch_loop single_quanta input_pump].
    erewrite run_bind by (by apply (idle_step (k + S (S left))); [..|lia]).
    cbn [m_input put_input pump_continues still_halted job_undisturbed negb orb idle_at].
    destruct (go i) eqn:Eg; cbn [negb].
    + change (m_media (put_input _ _)) with (m_media m). change (m_irq (put_input _ _)) with (m_irq m).
      rewrite <- Hm, Z.eqb_refl, Hirq. cbn [negb orb z2b Z.eqb].
      destruct (IH (S k) (f i)) as (n & e & i' & E1 & N1 & N2 & Hn & E2).
      { by replace (S k + S left)%nat with (k + S (S left))%nat by lia. }
      exists n, e, i'. split; [exact E1|]. split_and!; [done..|lia|lia|].
      unfold bind at 1. cbn [m_input idle_at]. rewrite Eg. exact E2.
    + exists (S k), BATCH_QUIT, (f i). split_and!; [done..|lia|lia|].
      unfold bind. cbn [m_input idle_at]. rewrite Eg. done.
Qed.

Lemma batch_nanoseconds n : (n <= 64)%nat -> dtrunc (dof_Z (Z.of_nat n * integer_ns)) = Z.of_nat n * integer_ns.
Proof.
  intros Hn. rewrite integer_ns_val.
  assert (forallb (fun n => dtrunc (dof_Z (Z.of_nat n * 1655)) =? Z.of_nat n * 1655) (seq 0 65) = true) as Hall
    by (vm_compute; reflexivity).
  rewrite forallb_forall in Hall. apply Z.eqb_eq, Hall, in_seq. lia.
Qed.

Lemma advance_quiet_at n i m :
  idle_ok m -> quiet_for n m -> (0 < n <= 64)%nat ->
  runtime_pace_cycles (Z.of_nat n * 25) (m_pace m) = pace_after (Z.of_nat n * 25) (m_pace m) ->
  uncounted (advance_quiet hle n (line_phase_ns (m_vdsc m)) (put_input i m)) = uncounted (idle_at n i m).
Proof.
  intros Hok Hq Hn Hp. unfold advance_quiet. cbv zeta. unfold QUANTUM_CYCLES.
  set (x := Z.of_nat n * integer_ns).
  match goal with |- context [cdic_increment_time hle ?ns ?y] => change y with (ciap_of m) end.
  assert (ciap_idle_for hle x (ciap_of m)) as Hci by (apply (quiet_ciap _ _ Hq); lia).
  pose proof (batch_nanoseconds n ltac:(lia)) as Hx. fold x in Hx.
  rewrite (ciap_quiet_first hle _ (ciap_of m)); rewrite ?Hx; [|apply Hok|exact Hci].
  assert (0 <= x) as Hx0 by (subst x; rewrite integer_ns_val; lia).
  destruct (ciap_after_quiet hle 1 x (ciap_of m) (idle_ciap m Hok) Hx0 Hci) as (Ci & Ca & Cm).
  pose proof (ciap_after_uncounted hle (Z.of_nat n) 1 x (ciap_of m)) as Eu.
  unfold idle_at. cbv zeta. fold x. destruct n as [|n]; [lia|].
  destruct (ciap_after hle 1 x (ciap_of m)) as [c1 c2 c3 c4 c5]. cbn [cw_irq cw_audio cw_media] in Ci, Ca, Cm.
  destruct (ciap_after hle (Z.of_nat (S n)) x (ciap_of m)) as [d1 d2 d3 d4 d5].
  subst. unfold uncounted_job, upd_job in Eu. cbn [ciap streaming cw_irq cw_audio cw_media] in Eu.
  pose proof (f_equal streaming Eu) as Ej. pose proof (f_equal ciap Eu) as Ed.
  cbn [ciap streaming] in Ej, Ed. subst d1.
  rewrite <- Hp, (Z.mul_comm 25).
  etransitivity; [|apply uncounted_ext; symmetry; exact Ej]. by f_equal.
Qed.

(** No pump at all is one that goes on and changes nothing. *)
Lemma put_input_same m : put_input (m_input m) m = m.
Proof. by destruct m. Qed.
Lemma batch_loop_none media left k m :
  batch_loop None media left k m = batch_loop (input_pump (fun _ => true) id) media left k m.
Proof.
  revert k m. induction left as [|left IH]; intros k m; [done|]. cbn [batch_loop input_pump].
  unfold id. rewrite put_input_same. cbn [pump_continues still_halted job_undisturbed].
  by rewrite IH.
Qed.
Lemma single_quanta_none left k m :
  single_quanta None left k m = single_quanta (input_pump (fun _ => true) id) left k m.
Proof.
  revert k m. induction left as [|left IH]; intros k m; [done|]. cbn [single_quanta].
  unfold bind. destruct (machine_tick hle QUANTUM_CYCLES m) as [[[]|e] m']; [|done].
  cbn [input_pump]. unfold id. by rewrite put_input_same, IH.
Qed.

(** What the board runs on: no pump, or one that moves the input and may quit. *)
Inductive frontend : option (Machine V A Md -> Pumped * Machine V A Md) -> Prop :=
  | no_frontend : frontend None
  | input_frontend go f : frontend (input_pump go f).

Lemma idle_batch pump maximum m :
  frontend pump -> idle_ok m -> is_u32 maximum ->
  let limit := quiet_quanta hle maximum m in
  (2 <= limit)%nat -> recomp_pending_irq_mask (m_irq m) = 0 ->
  exists r batched single,
    cdi_board_idle_quanta hle true true maximum pump m = (Ok r, batched) /\
    single_quanta pump (limit - 1) 0 m = (Ok r, single) /\
    uncounted batched = uncounted single /\ (0 < fst r <= limit)%nat.
Proof.
  intros Hf Hok Hmax limit Hl Hirq.
  assert (exists go f, (forall media left k m, batch_loop pump media left k m =
      batch_loop (input_pump go f) media left k m) /\
    (forall left k m, single_quanta pump left k m = single_quanta (input_pump go f) left k m)) as (go & f & Eb & Es).
  { destruct Hf as [|go f]; [|by exists go, f]. exists (fun _ => true), id.
    split; [apply batch_loop_none|apply single_quanta_none]. }
  destruct (admitted_quiet maximum limit m Hok Hmax ltac:(done)) as [Hq H64].
  destruct (batch_loop_single go f (media_generation (m_media m)) (limit - 1) 0 (m_input m) m Hok)
    as (n & e & i & E1 & N1 & N2 & Hn & E2); [|done|done|].
  { by replace (0 + S (limit - 1))%nat with limit by lia. }
  rewrite idle_at_zero, <- Es in E2; [|done|by apply (quiet_for_le 1 limit); [lia|]].
  rewrite put_input_same, <- Eb in E1.
  exists (n, loop_end e), (advance_quiet hle n (line_phase_ns (m_vdsc m)) (put_input i m)), (idle_at n i m).
  split; [|split; [exact E2|split; [|cbn; lia]]].
  - unfold cdi_board_idle_quanta. erewrite run_bind by apply run_gets. erewrite run_bind by apply run_gets.
    fold limit. rewrite Hirq. change (z2b 0) with false. cbn [andb negb orb].
    destruct (Nat.ltb_spec limit 2); [lia|]. erewrite run_bind by apply run_gets.
    erewrite run_bind.
    2: { rewrite E1. reflexivity. }
    cbn [snd fst]. destruct e as [| |[]]; done.
  - apply advance_quiet_at; [done|by apply (quiet_for_le n limit); [lia|]|lia|].
    apply (quiet_pace_batch _ _ Hq). lia.
Qed.

(** C2. A batch of idle quanta is the loop it replaces. When the CPU is stopped
    with no interrupt pending and the chips admit two quanta or more, the board
    performs at once what single quanta of 25 cycles would, whatever the build of
    the CD interface's deferred time: the same number of quanta, the same answer
    to a frontend that quits, and, the count of deferred quanta apart, the same
    machine, though the frontend moves the input between any two of them. *)
Theorem idle_batch_is_quanta pump maximum m :
  frontend pump -> idle_ok m -> is_u32 maximum ->
  let limit := quiet_quanta hle maximum m in
  (2 <= limit)%nat -> recomp_pending_irq_mask (m_irq m) = 0 ->
  exists r batched single,
    cdi_board_idle_quanta hle true true maximum pump m = (Ok r, batched) /\
    single_quanta pump (limit - 1) 0 m = (Ok r, single) /\
    uncounted batched = uncounted single /\ (0 < fst r <= limit)%nat.
Proof. apply idle_batch. Qed.
End MachineSpec.

(** A machine that plays and reads a disc while the CPU is stopped. *)
#[local] Existing Instance counting_video.
Definition sample_machine : Machine Z (list Z) unit :=
  mkMachine mcd_reset ∅ ∅ ∅ irq_reset 0 0 (mkSchedule [] 0) sample_mouse periph_reset playing_device
    (mkJob 0 0 false 0 0 0) [] tt (initialize_ikat 0) (sample_clock dzero false) false (mkPace true 0) 0 0.

Lemma sample_idle_ok : idle_ok sample_machine.
Proof.
  split.
  - exact periph_reset_ok.
  - apply sample_gate_ok.
  - split; [exact playing_clocks|by left|done].
  - done.
  - done.
Qed.

(** Five quanta, the pump moving the mouse after each but the last. *)
Definition sample_pump := input_pump (V:=Z) (A:=list Z) (Md:=unit) (fun _ => true) (cdi_input_add_relative 1 0).

(** The deferred build admits the five, and the mouse has moved four times. *)
Lemma idle_batch_is_quanta_witness :
  exists batched single,
    cdi_board_idle_quanta true true true 5 sample_pump sample_machine = (Ok (5%nat, false), batched) /\
    single_quanta true sample_pump 4 0 sample_machine = (Ok (5%nat, false), single) /\
    uncounted batched = uncounted single /\ relative_x (m_input batched) = 304.
Proof.
  assert (quiet_quanta true 5 sample_machine = 5%nat) as El by (vm_compute; reflexivity).
  pose proof (idle_batch_is_quanta true sample_pump 5 sample_machine (input_frontend _ _) sample_idle_ok) as Hb.
  cbv zeta in Hb. rewrite El in Hb. destruct Hb as (r & b & s & E1 & E2 & E3 & _).
  - unfold is_word. lia.
  - lia.
  - reflexivity.
  - exists b, s.
    assert (fst (cdi_board_idle_quanta true true true 5 sample_pump sample_machine) = Ok (5%nat, false) /\
      relative_x (m_input (snd (cdi_board_idle_quanta true true true 5 sample_pump sample_machine))) = 304) as [Er Ex]
      by (vm_compute; split; reflexivity).
    rewrite E1 in Er, Ex. cbn [fst snd] in Er, Ex. injection Er as ->.
    split; [exact E1|split; [exact E2|split; [exact E3|exact Ex]]].
Defined.
