(* ===== verification/BoardSpec.v ===== *)
(** The machine of Bus.v under the CPU: whatever program runs, the interrupt lines
    every chip shares stay well formed, so that the board is one the interpreter's
    theorems apply to; and the RAM banks of the bus are memory. *)

From Stdlib Require Import ZArith Lia Bool SpecFloat.
From stdpp Require Import base tactics numbers list gmap.
From S2P Require Import Prelude Double Irq Cpu Insn Alu Ea Cycles Interp CpuOk OperandOk InterpOk Ram ControlSpec StepSpec Nvram Periph PeriphSpec Ciap CiapSpec Input Slave Mcd212 McdSpec Bus BusSpec.
Open Scope Z_scope.
Open Scope mach_scope.

Lemma fold_left_keeps {A B} (P : A -> Prop) (f : A -> B -> A) l a :
  (forall a b, P a -> P (f a b)) -> P a -> P (fold_left f l a).
Proof. intros Hf. revert a. induction l as [|b l IH]; intros a Ha; cbn; auto. Qed.

Create HintDb lines.

(** Follows the branches of an operation down to those it calls. *)
Ltac lines_step :=
  first [ assumption | progress cbv zeta
        | match goal with |- context [if ?b then _ else _] => destruct b end
        | solve [auto 12 with lines] ].
Ltac lines := repeat lines_step.

(** * The CD interface *)
Section CiapLines.
Context {A Md : Type} `{AudioOps A} `{MediaOps Md}.
Implicit Types w : CiapWorld A Md.

Definition wired w : Prop := irq_ok (cw_irq w).

Lemma wired_upd f w : wired w -> wired (upd f w).
Proof. done. Qed.
Lemma wired_audio f w : wired w -> wired (upd_audio f w).
Proof. done. Qed.
Lemma wired_job f w : wired w -> wired (upd_job f w).
Proof. done. Qed.
Lemma wired_clear w : wired w -> wired (clear_interrupt_line w).
Proof. apply clear_line_irq_ok. Qed.
Lemma wired_assert w : wired w -> wired (assert_interrupt_line w).
Proof. apply assert_line_irq_ok. Qed.
Hint Resolve wired_upd wired_audio wired_job wired_clear wired_assert : lines.

Lemma wired_init w : wired w -> wired (ensure_initialized w).
Proof. intros Hw. unfold ensure_initialized, initialize_ciap. lines. Qed.
Lemma wired_start w : wired w -> wired (start_audio_buffer w).
Proof.
  intros Hw. unfold start_audio_buffer. lines. destruct (audio_decode_groups _ _ _). lines.
Qed.
Hint Resolve wired_init wired_start : lines.
Lemma wired_reset_path w : wired w -> wired (reset_data_path w).
Proof. intros Hw. unfold reset_data_path. lines. Qed.
Lemma wired_consume w : wired w -> wired (consume_audio_buffer w).
Proof. intros Hw. unfold consume_audio_buffer. lines. Qed.
Hint Resolve wired_reset_path wired_consume : lines.
Lemma wired_events sector w : wired w -> wired (stream_events sector w).
Proof. intros Hw. unfold stream_events. lines. Qed.
Lemma wired_locator lba w : wired w -> wired (report_locator lba w).
Proof. intros Hw. unfold report_locator. lines. Qed.
Hint Resolve wired_events wired_locator : lines.
Lemma wired_body lba sector w : wired w -> wired (deliver_sector_body lba sector w).
Proof. intros Hw. unfold deliver_sector_body. lines. Qed.
Hint Resolve wired_body : lines.
Lemma wired_sector w : wired w -> wired (deliver_one_sector w).
Proof. intros Hw. unfold deliver_one_sector. lines. destruct (media_read_sector_body _ _); lines. Qed.
Lemma wired_ap step w : wired w -> wired (advance_ap step w).
Proof. intros Hw. unfold advance_ap. lines. Qed.
Hint Resolve wired_sector wired_ap : lines.
Lemma wired_audio_loop fuel step w : wired w -> wired (snd (audio_loop fuel step w)).
Proof.
  revert step w. induction fuel as [|fuel IH]; intros step w Hw; cbn [audio_loop]; [done|].
  destruct (_ && _); [|done]. apply IH. by apply wired_consume.
Qed.
Lemma wired_advance_audio step w : wired w -> wired (advance_audio step w).
Proof.
  intros Hw. unfold advance_audio. pose proof (wired_audio_loop AUDIO_FUEL step w Hw) as Hl.
  destruct (audio_loop _ _ _) as [rest w']. cbn in Hl. lines.
Qed.
Lemma wired_sector_loop fuel w : wired w -> wired (sector_loop fuel w).
Proof.
  revert w. induction fuel as [|fuel IH]; intros w Hw; cbn [sector_loop]; [done|].
  destruct (_ <=? _); [|done]. cbv zeta. destruct (data_running _); [apply IH|]; lines.
Qed.
Hint Resolve wired_advance_audio wired_sector_loop : lines.
Lemma wired_advance step w : wired w -> wired (advance_streaming step w).
Proof. intros Hw. unfold advance_streaming. lines. Qed.
Hint Resolve wired_advance : lines.
Lemma wired_observe hle w : wired w -> wired (observe_streaming hle w).
Proof. intros Hw. unfold observe_streaming. lines. Qed.
Lemma wired_time hle ns w : wired w -> wired (cdic_increment_time hle ns w).
Proof. intros Hw. unfold cdic_increment_time. lines. Qed.
Hint Resolve wired_observe wired_time : lines.

Lemma wired_bman v w : wired w -> wired (write_bman v w).
Proof. intros Hw. unfold write_bman. auto with lines. Qed.
Lemma wired_ccr v w : wired w -> wired (write_ccr v w).
Proof. intros Hw. unfold write_ccr. lines. Qed.
Lemma wired_apcr v w : wired w -> wired (write_apcr v w).
Proof. intros Hw. unfold write_apcr. cbv zeta. repeat (case_match; [auto 8 with lines|]). done. Qed.
Lemma wired_dload v w : wired w -> wired (write_dload v w).
Proof. intros Hw. unfold write_dload. lines. Qed.
Hint Resolve wired_bman wired_ccr wired_apcr wired_dload : lines.
Lemma wired_register offset v w : wired w -> wired (snd (handle_register_write offset v w)).
Proof. intros Hw. unfold handle_register_write. repeat case_match; cbn [snd]; auto with lines. Qed.
Lemma wired_write hle a v size w : wired w -> wired (snd (cdic_write hle a v size w)).
Proof.
  intros Hw. unfold cdic_write. cbv zeta. repeat case_match; cbn [snd]; [|apply wired_register|]; lines.
Qed.
Lemma wired_read hle a size w : wired w -> wired (snd (cdic_read hle a size w)).
Proof. intros Hw. unfold cdic_read. cbv zeta. repeat case_match; cbn [snd]; lines. Qed.
Lemma wired_pull hle w : wired w -> wired (snd (cdic_dma_pull_word hle w)).
Proof. intros Hw. unfold cdic_dma_pull_word. cbv zeta. repeat case_match; cbn [snd]; lines. Qed.
End CiapLines.

(** * The gate: what its host keeps, it keeps *)
Section GateLines.
Context {D : Type} `{IkatHost D} (P : D -> Prop).
Context (P_irq : forall h, P h -> P (host_irq h)) (P_resume : forall h, P h -> P (host_transport_resume h)).
Context (P_position : forall lba audio h, P h -> P (host_set_drive_position lba audio h)).
Context (P_boot : forall h, P h -> P (host_boot_reset h)).
Implicit Types w : IkatWorld D.

Definition hosted w : Prop := P (iw_host w).

Lemma hosted_ikat f w : hosted w -> hosted (on_ikat f w).
Proof. done. Qed.
Lemma hosted_irq w : hosted w -> hosted (on_host host_irq w).
Proof. apply P_irq. Qed.
Lemma hosted_resume w : hosted w -> hosted (on_host host_transport_resume w).
Proof. apply P_resume. Qed.
Lemma hosted_position lba audio w : hosted w -> hosted (on_host (host_set_drive_position lba audio) w).
Proof. apply P_position. Qed.
Lemma hosted_boot w : hosted w -> hosted (on_host host_boot_reset w).
Proof. apply P_boot. Qed.
Hint Resolve hosted_ikat hosted_irq hosted_resume hosted_position hosted_boot : lines.

Lemma hosted_publish c bytes w : hosted w -> hosted (publish_and_interrupt c bytes w).
Proof. intros Hw. unfold publish_and_interrupt, raise_channel_interrupt. lines. Qed.
Hint Resolve hosted_publish : lines.
Lemma hosted_channel_c w : hosted w -> hosted (handle_channel_c w).
Proof. intros Hw. unfold handle_channel_c. lines. destruct (find_command _ _); lines. Qed.
Lemma hosted_status w : hosted w -> hosted (report_status w).
Proof. intros Hw. unfold report_status. lines. Qed.
Hint Resolve hosted_channel_c hosted_status : lines.
Lemma hosted_run command w : hosted w -> hosted (run_channel_d command w).
Proof. intros Hw. unfold run_channel_d, seek. lines. Qed.
Hint Resolve hosted_run : lines.
Lemma hosted_channel_d w : hosted w -> hosted (handle_channel_d w).
Proof. intros Hw. unfold handle_channel_d. lines. Qed.
Lemma hosted_ensure w : hosted w -> hosted (ensure_ikat w).
Proof. intros Hw. unfold ensure_ikat. lines. Qed.
Hint Resolve hosted_channel_d hosted_ensure : lines.
Lemma hosted_media w : hosted w -> hosted (check_media w).
Proof. intros Hw. unfold check_media. lines. Qed.
Lemma hosted_packet w : hosted w -> hosted (emit_pointer_packet w).
Proof.
  intros Hw. unfold emit_pointer_packet. cbv zeta. destruct (cdi_input_take_relative _ _ _ _ _) as [[x y] s].
  set (w1 := mkIW _ s _). assert (hosted w1) as H1 by exact Hw. clearbody w1.
  destruct (_ || _); [exact (hosted_publish _ _ _ H1)|exact H1].
Qed.
Hint Resolve hosted_media hosted_packet : lines.
Lemma hosted_pointer fuel w : hosted w -> hosted (pointer_loop fuel w).
Proof. revert w. induction fuel as [|fuel IH]; intros w Hw; cbn [pointer_loop]; [done|]. lines. Qed.
Lemma hosted_deferred step c w : hosted w -> hosted (advance_deferred step c w).
Proof. intros Hw. unfold advance_deferred, deliver_deferred. lines. Qed.
Hint Resolve hosted_pointer : lines.
Lemma hosted_time ns w : hosted w -> hosted (slave_increment_time ns w).
Proof.
  intros Hw. unfold slave_increment_time. cbv zeta.
  apply fold_left_keeps; [intros; by apply hosted_deferred|]. auto 8 with lines.
Qed.
Lemma hosted_read a w : hosted w -> hosted (snd (slave_read a w)).
Proof. intros Hw. unfold slave_read, read_register. cbv zeta. repeat case_match; cbn [snd]; auto with lines. Qed.
Lemma hosted_write a v w : hosted w -> hosted (slave_write a v w).
Proof. intros Hw. unfold slave_write, write_register. lines. Qed.
End GateLines.

(** * The display controller *)
Section ScanLines.
Context {V : Type} `{VideoOps V}.
Implicit Types w : ScanWorld V.

Definition displayed w : Prop := irq_ok (sc_irq w).

Abbreviation scans m := (keeps displayed m (fun _ => True)).

Lemma scans_vdsc f : scans (modify (on_vdsc f)).
Proof. by apply keeps_modify. Qed.
Lemma scans_video f : scans (modify (on_video f)).
Proof. by apply keeps_modify. Qed.
Lemma scans_gets {R} (f : ScanWorld V -> R) : scans (gets f).
Proof. by apply keeps_gets. Qed.
Lemma scans_bind {A B} (m : Mach (ScanWorld V) A) (k : A -> Mach (ScanWorld V) B) :
  scans m -> (forall a, scans (k a)) -> scans (bind m k).
Proof. intros Hm Hk. eapply keeps_bind; [exact Hm|]. intros a _. apply Hk. Qed.
Lemma scans_when b m : scans m -> scans (when b m).
Proof. by apply keeps_when. Qed.
Lemma scans_ret {R} (r : R) : scans (ret r).
Proof. by apply keeps_ret. Qed.

Lemma scans_byte a : scans (read_dram_byte a).
Proof. intros w Hw. unfold read_dram_byte. by repeat case_match. Qed.
Lemma scans_fetch a : scans (fetch_control_instruction a).
Proof. unfold fetch_control_instruction. repeat (apply scans_bind; [apply scans_byte|intros]). apply scans_ret. Qed.

Lemma signal_displayed plane w : displayed w -> displayed (signal_control_interrupt plane w).
Proof.
  intros Hw. unfold signal_control_interrupt. destruct (negb _); [|exact Hw].
  apply irq_ok_raise_onchip_level; [|exact Hw].
  destruct (1 =? 1); [apply Z.land_nonneg; lia|done].
Qed.
Lemma flow_displayed plane i a initial w :
  displayed w -> displayed (snd (execute_flow_command plane i a initial w)).
Proof.
  intros Hw. unfold execute_flow_command. cbv zeta. pose proof (signal_displayed plane w Hw).
  repeat (case_match; simplify_eq; try done).
Qed.
Lemma scans_flow {R} plane i cursor initial (f : ControlResult -> Z -> R) :
  scans (fun w => let '(r, c, w) := execute_flow_command plane i cursor initial w in (Ok (f r c), w)).
Proof.
  intros w Hw. pose proof (flow_displayed plane i cursor initial w Hw) as Hf.
  by destruct (execute_flow_command _ _ _ _ _) as [[r c] w'].
Qed.

Lemma scans_initial plane limit cursor : scans (initial_loop plane limit cursor).
Proof.
  revert cursor. induction limit as [|limit IH]; intros cursor; cbn [initial_loop]; [apply scans_ret|].
  apply scans_bind; [apply scans_fetch|intros i].
  apply scans_bind; [apply (scans_flow _ _ _ _ (fun r c => (r, c)))|intros [r c]].
  destruct r; cbn [fst snd]; [|apply scans_ret].
  apply scans_bind; [apply scans_video|intros _; apply IH].
Qed.
Lemma scans_dynamic plane limit : scans (dynamic_loop plane limit).
Proof.
  induction limit as [|limit IH]; cbn [dynamic_loop]; [apply scans_ret|].
  apply scans_bind; [apply scans_gets|intros cursor].
  apply scans_bind; [apply scans_vdsc|intros _].
  apply scans_bind; [apply scans_fetch|intros i].
  apply scans_bind; [apply (scans_flow _ _ _ _ (fun r _ => r))|intros r].
  destruct r; [|apply scans_ret]. apply scans_bind; [apply scans_video|intros _; apply IH].
Qed.
Lemma scans_initial_area plane : scans (run_initial_control_area plane).
Proof. apply scans_bind; [apply scans_gets|intros d]. apply scans_initial. Qed.
Lemma scans_dynamic_area plane : scans (run_dynamic_control_area plane).
Proof. apply scans_bind; [apply scans_gets|intros d]. apply scans_dynamic. Qed.

Lemma scans_pure f : (forall w, sc_irq (f w) = sc_irq w) -> scans (modify f).
Proof. intros Hf. apply keeps_modify; [done|]. intros w Hw. unfold displayed. by rewrite Hf. Qed.
Lemma scans_begin_line : scans (modify begin_active_line).
Proof. by apply scans_pure. Qed.
Lemma scans_end_line : scans (modify end_active_line).
Proof.
  apply scans_pure. intros w. unfold end_active_line. cbv zeta. destruct (_ <=? _); [|done].
  unfold finish_frame. by destruct (cdi_input_schedule_advance _ _ _).
Qed.
Lemma scans_draw_pixels : scans (modify draw_pixels).
Proof. apply scans_pure. intros w. unfold draw_pixels. by destruct (video_draw_line _ _ _ _ _ _ _ _) as [[a b] v]. Qed.
Lemma scans_begin_frame : scans (modify begin_frame).
Proof. apply scans_pure. intros w. unfold begin_frame. by destruct (_ <=? _). Qed.

Ltac scans_tac :=
  repeat first
    [ apply scans_ret | apply scans_gets | apply scans_vdsc | apply scans_initial_area
    | apply scans_dynamic_area | apply scans_begin_line | apply scans_end_line | apply scans_draw_pixels
    | apply scans_begin_frame | apply scans_when | apply scans_bind | progress intros
    | match goal with |- context [if ?b then _ else _] => destruct b end ].

Lemma scans_active_line : scans draw_active_line.
Proof. unfold draw_active_line. scans_tac. Qed.
Lemma scans_line : scans advance_one_raster_line.
Proof. unfold advance_one_raster_line. repeat (scans_tac; try apply scans_active_line). Qed.
Lemma scans_raster fuel : scans (raster_loop fuel).
Proof.
  induction fuel as [|fuel IH]; cbn [raster_loop]; (apply scans_bind; [apply scans_gets|intros d]);
    destruct (dge _ _); try apply scans_ret; [by apply keeps_throw|].
  apply scans_bind; [apply scans_vdsc|intros _]. apply scans_bind; [apply scans_line|intros _; apply IH].
Qed.
Lemma scans_read a : scans (mcd212_read a).
Proof. intros w Hw. unfold mcd212_read. by repeat case_match. Qed.
Lemma scans_write a v size : scans (mcd212_write a v size).
Proof. intros w Hw. unfold mcd212_write. cbv zeta. by repeat case_match. Qed.
End ScanLines.

(** * The timers *)
Lemma timer_request_ok p q : irq_ok q -> irq_ok (request_timer_interrupt p q).
Proof.
  intros Hq. unfold request_timer_interrupt. cbv zeta. destruct (z2b _); [|done].
  apply irq_ok_raise_onchip_level; [apply u8_range|done].
Qed.
Definition onchip_ok (w : SccPeripherals * IrqState) : Prop := periph_ok (fst w) /\ irq_ok (snd w).

Lemma status_or_ok b p : is_u8 b -> periph_ok p -> periph_ok (upd_reg REG_TSR (fun s => Z.lor s b) p).
Proof. intros. apply periph_ok_upd; [done|]. intros. apply lor_word; done || lia. Qed.
Lemma status_and_ok b p : is_u8 b -> periph_ok p -> periph_ok (upd_reg REG_TSR (fun s => Z.land s b) p).
Proof. intros. apply periph_ok_upd; [done|]. intros. apply land_word_r; [done|lia]. Qed.

Lemma side_timer_ok control enable high wrap clear equal t0 w :
  is_u8 wrap -> is_u8 equal -> onchip_ok w ->
  onchip_ok (clock_side_timer control enable high wrap clear equal t0 w).
Proof.
  intros Hw He. destruct w as [p q]. intros [Hp Hq]. cbn [fst snd] in *. unfold clock_side_timer.
  destruct (z2b _); [|done]. pose proof (timer_request_ok).
  destruct (_ =? 0xFFFF); [|destruct (_ =? enable)]; cbn match; destruct (_ =? t0);
    split; cbn [fst snd]; try apply periph_ok_store; auto using status_or_ok, status_and_ok, u8_range.
Qed.
Lemma timer0_ok w : onchip_ok w -> onchip_ok (snd (clock_timer0 w)).
Proof.
  destruct w as [p q]. intros [Hp Hq]. cbn [fst snd] in *. unfold clock_timer0. pose proof (timer_request_ok).
  destruct (_ =? _); split; cbn [fst snd]; try apply periph_ok_store; auto.
  apply status_or_ok; [word|done].
Qed.
Lemma timer_ticks_ok n w : onchip_ok w -> onchip_ok (Nat.iter n clock_timer_once w).
Proof.
  intros Hw. induction n as [|n IH]; [done|]. rewrite Nat.iter_succ. unfold clock_timer_once at 1.
  pose proof (timer0_ok _ IH) as H0. destruct (clock_timer0 _) as [t0 w'].
  apply side_timer_ok; [word..|]. apply side_timer_ok; [word..|exact H0].
Qed.
Lemma timers_ok cycles w : onchip_ok w -> onchip_ok (periph_increment_timer cycles w).
Proof.
  intros [Hp Hq]. unfold periph_increment_timer. cbv zeta. apply timer_ticks_ok. split; cbn [fst snd]; [|done].
  apply periph_ok_prescale; [done|]. rewrite u32_id; [apply Z.mod_pos_bound; lia|].
  pose proof (Z.mod_pos_bound (u64 (timer_prescale_cycles (fst w) + cycles)) 96). unfold is_word. lia.
Qed.

(** * The machine *)
Section MachineOk.
Context {V A Md : Type} `{VideoOps V} `{AudioOps A} `{MediaOps Md}.
Context (hle : bool).
Implicit Types m : Machine V A Md.

Definition machine_inv m : Prop := is_u32 (m_last_access m) /\ periph_ok (m_periph m) /\ irq_ok (m_irq m).
Abbreviation sound f := (keeps machine_inv f (fun _ => True)).
Definition gate_wired (h : GateHost (A:=A) (Md:=Md)) : Prop := wired (fst h).
#[local] Instance gate : IkatHost (GateHost (A:=A) (Md:=Md)) := gate_host hle.

Lemma sound_scan {R} (f : Mach (ScanWorld V) R) : keeps displayed f (fun _ => True) -> sound (on_scan (A:=A) (Md:=Md) f).
Proof.
  intros Hf m (Hl & Hp & Hq). unfold on_scan. specialize (Hf (scan_of m) Hq) as [Hd _].
  destruct (f (scan_of m)) as [r w]. split; [by split|by destruct r].
Qed.
Lemma sound_ciap {R} (f : Mach (CiapWorld A Md) R) :
  (forall w, wired w -> wired (snd (f w))) -> sound (on_ciap (V:=V) f).
Proof.
  intros Hf m (Hl & Hp & Hq). unfold on_ciap. specialize (Hf (ciap_of m) Hq).
  destruct (f (ciap_of m)) as [r w]. split; [by split|by destruct r].
Qed.
Lemma sound_pure {R} (f : CiapWorld A Md -> R * CiapWorld A Md) :
  (forall w, wired w -> wired (snd (f w))) -> sound (pure_ciap (V:=V) f).
Proof.
  intros Hf m (Hl & Hp & Hq). unfold pure_ciap. specialize (Hf (ciap_of m) Hq).
  by destruct (f (ciap_of m)) as [r w].
Qed.
Lemma sound_gate {R} (f : IkatWorld GateHost -> R * IkatWorld GateHost) :
  (forall w, hosted gate_wired w -> hosted gate_wired (snd (f w))) -> sound (on_gate (V:=V) f).
Proof.
  intros Hf m (Hl & Hp & Hq). unfold on_gate. specialize (Hf (gate_of m) Hq).
  by destruct (f (gate_of m)) as [r w].
Qed.
Lemma sound_rtc {R} (f : PhantomClock -> R * PhantomClock) : sound (on_rtc (V:=V) (A:=A) (Md:=Md) f).
Proof. intros m (Hl & Hp & Hq). unfold on_rtc. by destruct (f _). Qed.
Lemma sound_peripherals {R} (f : SccPeripherals -> R * SccPeripherals) :
  (forall p, periph_ok p -> periph_ok (snd (f p))) -> sound (on_peripherals (V:=V) (A:=A) (Md:=Md) f).
Proof. intros Hf m (Hl & Hp & Hq). unfold on_peripherals. specialize (Hf _ Hp). by destruct (f _). Qed.

Lemma gate_irq_kept h : gate_wired h -> gate_wired (host_irq h).
Proof. intros Hh. apply irq_ok_raise; [done|exact Hh]. Qed.
Lemma gate_resume_kept h : gate_wired h -> gate_wired (host_transport_resume h).
Proof. intros Hh. unfold gate_wired. cbn. by apply wired_observe. Qed.
Lemma gate_position_kept lba audio h : gate_wired h -> gate_wired (host_set_drive_position lba audio h).
Proof. intros Hh. unfold gate_wired. cbn. by apply wired_observe. Qed.
Lemma gate_boot_kept h : gate_wired h -> gate_wired (host_boot_reset h).
Proof. done. Qed.

(** ** The bus *)
Lemma sound_bind {R T} (f : Mach (Machine V A Md) R) (k : R -> Mach (Machine V A Md) T) :
  sound f -> (forall r, sound (k r)) -> sound (bind f k).
Proof. intros Hf Hk. eapply keeps_bind; [exact Hf|]. intros r _. apply Hk. Qed.
Lemma sound_last a : is_u32 a -> sound (modify (put_last (V:=V) (A:=A) (Md:=Md) a)).
Proof. intros Ha. apply keeps_modify; [done|]. by intros m (? & ? & ?). Qed.
Lemma sound_ram a v : sound (modify (set_ram_byte (V:=V) (A:=A) (Md:=Md) a v)).
Proof. apply keeps_modify; [done|]. intros m (? & ? & ?). unfold set_ram_byte. by destruct (_ <? _). Qed.
Ltac gate_kept := eauto using gate_irq_kept, gate_resume_kept, gate_position_kept, gate_boot_kept.
Lemma sound_slave_read a : sound (on_gate (V:=V) (slave_read a)).
Proof. apply sound_gate. intros w. apply hosted_read; gate_kept. Qed.
Lemma sound_slave_write a v : sound (write_gate (V:=V) (A:=A) (Md:=Md) hle a v).
Proof.
  unfold write_gate. apply sound_bind; [|intros _].
  - apply sound_gate. intros w. cbn [snd]. apply hosted_write; gate_kept.
  - apply sound_bind; [by apply keeps_gets|intros pending]. apply keeps_when; [done|apply keeps_throw].
Qed.

Definition ram_byte_u8 m a b : ram_byte m a = Some b -> is_u8 b.
Proof. unfold ram_byte. repeat case_match; intros [= <-]; apply u8_range. Qed.

(** A read: whatever the chip, the value has its width. *)
Lemma read_value {R} (f : Mach (Machine V A Md) R) (g : R -> Z) (Q : Z -> Prop) :
  sound f -> (forall r, Q (g r)) -> keeps machine_inv (r <-- f;; ret (g r)) Q.
Proof. intros Hf Hg. eapply keeps_bind; [exact Hf|]. intros r _. by apply keeps_ret. Qed.

Lemma bus_read8_ok a : is_u32 a -> keeps machine_inv (bus_read8 (V:=V) (A:=A) (Md:=Md) hle a) is_u8.
Proof.
  intros Ha. unfold bus_read8. eapply keeps_bind; [by apply sound_last|intros _ _].
  apply (keeps_bind _ _ _ (from_option is_u8 True)).
  { apply keeps_gets. intros m _. destruct (ram_byte m a) eqn:E; [by apply ram_byte_u8 in E|done]. }
  intros [b|] Hb; [by apply keeps_ret|]. destruct (classify a); try apply keeps_throw.
  - apply keeps_gets. intros. apply u8_range.
  - apply read_value; [apply sound_scan, scans_read|intros; apply u8_range].
  - apply read_value; [apply sound_ciap; intros; by apply wired_read|intros; apply u8_range].
  - apply read_value; [apply sound_slave_read|intros; apply u8_range].
  - destruct (z2b _); [apply keeps_throw|]. apply read_value; [apply sound_rtc|intros; apply u8_range].
  - apply read_value; [apply sound_peripherals; intros; by apply read_bytes_ok|intros; apply u8_range].
Qed.
Lemma bus_read16_ok a : is_u32 a -> keeps machine_inv (bus_read16 (V:=V) (A:=A) (Md:=Md) hle a) is_u16.
Proof.
  intros Ha. unfold bus_read16. eapply keeps_bind; [by apply sound_last|intros _ _].
  eapply keeps_bind; [by apply (keeps_gets _ _ (fun _ => True))|].
  intros [b|] _.
  { destruct (last_of_bank a); [apply keeps_throw|].
    apply read_value; [by apply keeps_gets|intros; apply u16_range]. }
  destruct (classify a); try apply keeps_throw.
  - apply keeps_gets. intros. apply u16_range.
  - apply read_value; [apply sound_scan, scans_read|intros; apply u16_range].
  - apply read_value; [apply sound_ciap; intros; by apply wired_read|intros; apply u16_range].
  - apply read_value; [apply sound_slave_read|intros; apply u16_range].
  - apply read_value; [apply sound_rtc|intros; apply u16_range].
  - apply read_value; [apply sound_peripherals; intros; by apply read_bytes_ok|intros; apply u16_range].
Qed.

Lemma bus_write8_ok a v : is_u32 a -> sound (bus_write8 (V:=V) (A:=A) (Md:=Md) hle a v).
Proof.
  intros Ha. unfold bus_write8. apply sound_bind; [by apply sound_last|intros _].
  apply sound_bind; [by apply keeps_gets|]. intros [b|]; [apply sound_ram|].
  destruct (classify a); try apply keeps_throw.
  - by apply keeps_ret.
  - apply sound_scan, scans_write.
  - apply sound_bind; [apply sound_pure; intros; by apply wired_write|]. intros _. by apply keeps_ret.
  - apply sound_slave_write.
  - destruct (z2b _); [apply keeps_throw|]. apply sound_rtc.
  - apply sound_peripherals. intros. by apply periph_write_ok.
Qed.
Lemma bus_write16_with_ok dma a v :
  (forall control, sound (dma control)) -> is_u32 a ->
  sound (bus_write16_with (V:=V) (A:=A) (Md:=Md) hle dma a v).
Proof.
  intros Hdma Ha. unfold bus_write16_with. apply sound_bind; [by apply sound_last|intros _].
  apply sound_bind; [by apply keeps_gets|]. intros [b|].
  { destruct (last_of_bank a); [apply keeps_throw|]. apply keeps_modify; [done|].
    intros m (? & ? & ?). unfold set_ram_byte. by repeat case_match. }
  destruct (classify a); try apply keeps_throw.
  - by apply keeps_ret.
  - apply sound_scan, scans_write.
  - apply sound_bind; [apply sound_pure; intros; by apply wired_write|].
    intros [control|]; [apply Hdma|by apply keeps_ret].
  - apply sound_slave_write.
  - apply sound_rtc.
  - apply sound_peripherals. intros. by apply periph_write_ok.
Qed.

(** ** The DMA channel *)
Lemma dma_words_ok write control n a :
  (forall a v, is_u32 a -> sound (write a v)) -> is_u32 a ->
  sound (dma_words (bus_read16 hle) write (pure_ciap (cdic_dma_pull_word hle))
    (fun v => on_ciap (modify (cdic_dma_push_word hle v))) control a n).
Proof.
  intros Hw. revert a. induction n as [|n IH]; intros a Ha; cbn [dma_words]; [by apply keeps_ret|].
  apply sound_bind; [|intros _; apply IH; apply u32_range]. destruct (z2b _).
  - apply sound_bind; [apply sound_pure; intros; by apply wired_pull|]. intros v. by apply Hw.
  - eapply keeps_bind; [by apply bus_read16_ok|]. intros v _. apply sound_ciap.
    intros w Hww. cbn [modify snd]. by apply wired_observe.
Qed.
Lemma load_long_u32 p a : periph_ok p -> is_u32 (load_long p a).
Proof.
  intros Hp. unfold load_long. pose proof (fun b => reg_u8 p b Hp) as Hr.
  repeat apply lor_word; try lia; rewrite ?Z.shiftl_mul_pow2 by lia; unfold is_word in *;
    [pose proof (Hr a)|pose proof (Hr (a + 1))|pose proof (Hr (a + 2))|pose proof (Hr (a + 3))]; lia.
Qed.

Lemma sound_onchip f : (forall p, periph_ok p -> periph_ok (f p)) ->
  sound (on_periph (M:=Machine V A Md) m_periph (fun p m => put_timers (p, m_irq m) m) f).
Proof.
  intros Hf. apply keeps_modify; [done|]. intros m (Hl & Hp & Hq). split; [done|split; [by apply Hf|done]].
Qed.

Lemma dma_request_ok nested control : sound (dma_request (V:=V) (A:=A) (Md:=Md) hle nested control).
Proof.
  revert control. induction nested as [|nested IH]; intros control; cbn [dma_request]; [apply keeps_throw|].
  unfold periph_ciap_dma_request. apply sound_bind; [by apply keeps_gets|intros ccr].
  destruct (_ || _); [by apply keeps_ret|]. apply sound_bind; [by apply keeps_gets|intros words].
  apply (keeps_bind _ _ _ is_u32).
  { apply keeps_gets. intros m (Hl & Hp & Hq). by apply load_long_u32. }
  intros a Ha.
  apply sound_bind; [apply sound_onchip; intros; apply periph_ok_upd; word|intros _].
  apply sound_bind; [apply sound_onchip; intros; apply periph_ok_put; word|intros _].
  apply sound_bind; [apply dma_words_ok; [intros; by apply bus_write16_with_ok|done]|intros last].
  apply sound_bind; [apply sound_onchip; intros; by apply periph_ok_store|intros _].
  apply sound_bind; [apply sound_onchip; intros; by apply periph_ok_long|intros _].
  apply sound_bind; [apply sound_onchip; intros; apply periph_ok_upd; word|intros _].
  apply sound_bind; [apply sound_onchip; intros; apply periph_ok_upd; word|intros _].
  apply sound_bind; [apply sound_onchip; intros; apply periph_ok_upd; word|intros _].
  apply sound_ciap. intros w Hw. by apply wired_observe.
Qed.

(** ** Device time *)
Lemma machine_tick_ok n : sound (machine_tick (V:=V) (A:=A) (Md:=Md) hle n).
Proof.
  unfold machine_tick. cbv zeta.
  apply sound_bind.
  { apply keeps_modify; [done|]. intros m (Hl & Hp & Hq). split; [done|]. by apply timers_ok. }
  intros _. apply sound_bind.
  { apply keeps_modify; [done|]. intros m (Hl & Hp & Hq). split; [done|]. split; [done|].
    assert (hosted gate_wired (slave_increment_time (elapsed_of n) (gate_of m))) as Hh
      by (apply hosted_time; gate_kept). exact Hh. }
  intros _. apply sound_bind.
  { apply keeps_modify; [done|]. intros m (Hl & Hp & Hq). split; [done|]. split; [done|]. by apply wired_time. }
  intros _. apply sound_bind.
  { intros m Hm. unfold advance_rtc. by destruct (nvram_increment_clock _ _ _). }
  intros _. apply sound_bind; [by apply keeps_modify|intros _].
  apply sound_bind; [|intros _; by apply keeps_modify].
  apply sound_scan. unfold advance_raster. apply scans_bind; [by apply keeps_modify|intros _].
  apply scans_bind; [apply scans_gets|intros d]. apply scans_raster.
Qed.

#[local] Instance board : Board (Machine V A Md) := machine_board hle.
#[local] Instance machine_board_ok : BoardOk (Machine V A Md).
Proof.
  apply (Build_BoardOk _ board machine_inv).
  - apply bus_read8_ok.
  - apply bus_read16_ok.
  - intros a v Ha _. by apply bus_write8_ok.
  - intros a v Ha _. apply bus_write16_with_ok; [apply dma_request_ok|done].
  - by intros m (? & ? & ?).
  - by intros a m Ha (? & ? & ?).
  - by intros m (? & ? & ?).
  - by intros q m Hq (? & ? & ?).
  - intros n _. apply machine_tick_ok.
Defined.

(** ** The trampoline *)
Implicit Types s : Sys (Machine V A Md).

(** A pump leaves the machine typed. *)
Definition pump_ok (pump : option (Machine V A Md -> Pumped * Machine V A Md)) : Prop :=
  match pump with Some p => forall m, machine_inv m -> machine_inv (snd (p m)) | None => True end.

Lemma batch_loop_ok pump media left k m :
  pump_ok pump -> machine_inv m -> machine_inv (snd (batch_loop pump media left k m)).
Proof.
  intros Hp. revert k m. induction left as [|left IH]; intros k m Hm; cbn [batch_loop]; [done|].
  assert (machine_inv (snd (match pump with Some p => p m | None => (mkPumped true true true, m) end))) as Hm'
    by (destruct pump; [by apply Hp|done]).
  destruct (match pump with Some p => p m | None => _ end) as [r m']. cbn [snd] in Hm'.
  destruct (negb _); [done|]. destruct (_ || _); [done|]. by apply IH.
Qed.

Lemma timers_quiet_ok c p : periph_ok p -> periph_ok (periph_advance_quiet c p).
Proof.
  intros Hp. set (acc := u32 (timer_prescale_cycles p + c)).
  change (periph_ok (quiet_by (acc / 96) (set_prescale (acc mod 96) p))).
  apply quiet_by_ok, periph_ok_prescale; [done|]. by apply Z.mod_pos_bound.
Qed.
Lemma quiet_advance_ok n phase m : machine_inv m -> machine_inv (advance_quiet hle n phase m).
Proof.
  intros (Hl & Hp & Hq). split; [exact Hl|split].
  - exact (timers_quiet_ok (Z.of_nat n * QUANTUM_CYCLES) _ Hp).
  - exact (wired_time hle (dof_Z (Z.of_nat n * integer_ns)) (ciap_of m) Hq).
Qed.
Lemma idle_quanta_ok halted allowed maximum pump :
  pump_ok pump -> sound (cdi_board_idle_quanta hle halted allowed maximum pump).
Proof.
  intros Hp. unfold cdi_board_idle_quanta. apply sound_bind; [by apply keeps_gets|intros idle].
  apply sound_bind; [by apply keeps_gets|intros limit]. destruct (_ || _); [by apply keeps_ret|].
  apply sound_bind; [by apply keeps_gets|intros phase]. apply sound_bind.
  - intros m Hm. pose proof (batch_loop_ok pump (media_generation (m_media m)) (limit - 1) 1 m Hp Hm) as Hb.
    destruct (batch_loop _ _ _ _ _) as [[completed e] m']. cbn [fst snd] in *.
    split; [by apply quiet_advance_ok|done].
  - intros [completed e]. cbn [fst snd]. destruct e as [| |[]]; try (by apply keeps_ret).
    apply sound_bind; [apply machine_tick_ok|intros _; by apply keeps_ret].
Qed.

Lemma stopped_round_ok board_hle allowed pump :
  pump_ok pump -> keeps sys_ok (stopped_round hle board_hle allowed pump) (fun _ => True).
Proof.
  intros Hp. unfold stopped_round.
  eapply keeps_bind; [by apply (keeps_gets _ _ (fun _ => True))|intros halted _].
  apply (keeps_bind _ _ _ (fun _ => True)).
  { destruct board_hle; [|by apply keeps_ret]. apply keeps_on_bus. by apply idle_quanta_ok. }
  intros [n quit] _. cbn [fst snd]. destruct quit; [by apply keeps_ret|].
  apply (keeps_bind _ _ _ (fun _ => True)).
  { apply keeps_when; [done|]. apply keeps_on_bus, machine_tick_ok. }
  intros _ _. eapply keeps_bind; [by apply (keeps_gets _ _ (fun _ => True))|intros irq _].
  eapply (keeps_bind _ _ _ (fun _ => True)); [|intros _ _; by apply keeps_ret].
  apply keeps_when; [done|]. apply recomp_take_irq_ok.
Qed.

Lemma irq_reset_ok : irq_ok irq_reset.
Proof.
  unfold irq_ok. cbn. split; [word|]. split; [word|]. split; [done|].
  repeat constructor; unfold is_word; lia.
Qed.
Lemma main_reset_ok ssp pc :
  is_u32 ssp -> is_u32 pc -> keeps sys_ok (main_reset hle ssp pc) (fun _ => True).
Proof.
  intros Hs Hpc. unfold main_reset.
  eapply keeps_bind; [apply keeps_read32; word|intros _ _].
  eapply keeps_bind; [apply keeps_read32; word|intros _ _].
  eapply (keeps_bind _ _ _ (fun _ => True)).
  { apply keeps_upd_cpu. intros c []. split; cbn; autorewrite with mem; word || auto. }
  intros _ _. eapply (keeps_bind _ _ _ (fun _ => True)); [|intros _ _; apply defer_ok; word].
  apply keeps_modify; [done|]. intros s [Hc (Hl & _ & _) Hf _ Hd].
  split; [exact Hc| |exact Hf|cbn; word|exact Hd].
  split; [exact Hl|split; [exact periph_reset_ok|exact irq_reset_ok]].
Qed.

(** What happens on the board: an instruction, a round of the stopped CPU, the
    landing of a restart, a host that moves the input. *)
Context (m68k_decode : list Z -> Z -> option M68KInstr) (reset_ssp reset_pc : Z).
Inductive system_step : Sys (Machine V A Md) -> Sys (Machine V A Md) -> Prop :=
  | runs_instruction s : system_step s (snd (m68k_interp_step m68k_decode s))
  | stays_stopped board_hle allowed pump s :
    pump_ok pump -> Cpu.g_halted s = true ->
    system_step s (snd (stopped_round hle board_hle allowed pump s))
  | restarts s : m_boot_reset (bus s) = true -> system_step s (snd (main_reset hle reset_ssp reset_pc s))
  | pumps p s : pump_ok (Some p) -> system_step s (set_bus (snd (p (bus s))) s).

Lemma system_step_ok s s' :
  (forall win pc ins, Forall is_u8 win -> m68k_decode win pc = Some ins -> instr_ok ins) ->
  is_u32 reset_ssp -> is_u32 reset_pc -> system_step s s' -> sys_ok s -> sys_ok s'.
Proof.
  intros Hd Hssp Hpc Hstep Hs. destruct Hstep as [s|board_hle allowed pump s Hp _|s _|p s Hp].
  - by destruct (step_ok m68k_decode Hd s Hs).
  - by destruct (stopped_round_ok board_hle allowed pump Hp s Hs).
  - by destruct (main_reset_ok reset_ssp reset_pc Hssp Hpc s Hs).
  - apply sys_ok_set_bus; [done|]. apply Hp, Hs.
Qed.
End MachineOk.

(** * The RAM banks are memory *)
Section MachineRam.
Context {V A Md : Type} `{VideoOps V} `{AudioOps A} `{MediaOps Md}.
Context (hle : bool).
Implicit Types m : Machine V A Md.

Definition bank0 (a : Z) : bool := (CDI_RAM0_BASE <=? a) && (a <? CDI_RAM0_BASE + CDI_RAM0_SIZE).
Definition bank1 (a : Z) : bool := (CDI_RAM1_BASE <=? a) && (a <? CDI_RAM1_BASE + CDI_RAM1_SIZE).
Definition machine_word (a : Z) : bool := Z.even a && (bank0 a || bank1 a).

Definition ram_cell m (a : Z) : Z := default 0 (ram_byte m a).
Definition machine_peek m (a : Z) : Z := u16 (Z.lor (Z.shiftl (ram_cell m a) 8) (ram_cell m (a + 1))).
Definition machine_poke (a v : Z) m : Machine V A Md :=
  set_ram_byte (a + 1) v (set_ram_byte a (Z.shiftr v 8) (put_last a m)).

Definition in_ram (a : Z) : bool := bank0 a || bank1 a.

Lemma bank0_offset a : is_u32 a ->
  (u32 (a - CDI_RAM0_BASE) <? CDI_RAM0_SIZE) = bank0 a /\
  (bank0 a = true -> u32 (a - CDI_RAM0_BASE) = a - CDI_RAM0_BASE).
Proof. unfold bank0, CDI_RAM0_BASE, CDI_RAM0_SIZE, is_word, u32. intros Ha. split; zlia. Qed.
Lemma bank1_offset a : is_u32 a ->
  (u32 (a - CDI_RAM1_BASE) <? CDI_RAM1_SIZE) = bank1 a /\
  (bank1 a = true -> u32 (a - CDI_RAM1_BASE) = a - CDI_RAM1_BASE).
Proof. unfold bank1, CDI_RAM1_BASE, CDI_RAM1_SIZE, is_word, u32. intros Ha. split; zlia. Qed.
Lemma banks_apart a : bank0 a = true -> bank1 a = false.
Proof. unfold bank0, bank1, CDI_RAM0_BASE, CDI_RAM0_SIZE, CDI_RAM1_BASE, CDI_RAM1_SIZE. lia. Qed.

Lemma ram_byte_some m a : is_u32 a -> in_ram a = true -> ram_byte m a = Some (ram_cell m a).
Proof.
  intros Ha Hr. unfold ram_cell, ram_byte. destruct (bank0_offset a Ha) as [-> _], (bank1_offset a Ha) as [-> _].
  unfold in_ram in Hr. by destruct (bank0 a), (bank1 a).
Qed.
Lemma ram_cell_u8 m a : is_u8 (ram_cell m a).
Proof. unfold ram_cell, ram_byte. repeat case_match; cbn [default from_option]; unfold id; word. Qed.

Lemma ram_cell_set a b v m :
  is_u32 a -> is_u32 b -> in_ram a = true -> in_ram b = true ->
  ram_cell (set_ram_byte b v m) a = if a =? b then u8 v else ram_cell m a.
Proof.
  intros Ha Hb Ra Rb. unfold ram_cell, ram_byte, set_ram_byte.
  destruct (bank0_offset a Ha) as [Ea Fa], (bank1_offset a Ha) as [Ea1 Fa1].
  destruct (bank0_offset b Hb) as [Eb Fb], (bank1_offset b Hb) as [Eb1 Fb1].
  rewrite Ea, Ea1, Eb. unfold in_ram in *. pose proof (banks_apart a) as Xa. pose proof (banks_apart b) as Xb.
  destruct (bank0 b) eqn:B0, (bank0 a) eqn:A0; cbn [g_ram0 g_ram1 put_ram default from_option].
  - rewrite Fa, Fb, mget_mset by done. destruct (Z.eqb_spec a b) as [->|Hne].
    + rewrite Z.eqb_refl. apply u8_id, u8_range.
    + destruct (Z.eqb_spec (b - CDI_RAM0_BASE) (a - CDI_RAM0_BASE)); [lia|done].
  - destruct (Z.eqb_spec a b) as [->|Hne]; [congruence|]. by destruct (bank1 a).
  - destruct (Z.eqb_spec a b) as [->|Hne]; [congruence|done].
  - rewrite orb_false_l in *. rewrite Ra, Fa1, Fb1, mget_mset by done. cbn.
    destruct (Z.eqb_spec a b) as [->|Hne].
    + rewrite Z.eqb_refl. apply u8_id, u8_range.
    + destruct (Z.eqb_spec (b - CDI_RAM1_BASE) (a - CDI_RAM1_BASE)); [lia|done].
Qed.

Lemma machine_word_spec a : machine_word a = true ->
  exists k, a = 2 * k /\ is_u32 a /\ is_u32 (a + 1) /\ in_ram a = true /\ in_ram (a + 1) = true /\
    last_of_bank a = false.
Proof.
  unfold machine_word, in_ram, bank0, bank1, last_of_bank, CDI_RAM0_BASE, CDI_RAM0_SIZE, CDI_RAM1_BASE,
    CDI_RAM1_SIZE, is_word. rewrite andb_true_iff, Z.even_spec. intros [[k ->] Hb]. exists k. lia.
Qed.

Lemma ram_read_word a m :
  machine_word a = true -> bus_read16 hle a m = (Ok (machine_peek m a), put_last a m).
Proof.
  intros (k & _ & Ha & Ha1 & R & R1 & El)%machine_word_spec. unfold bus_read16.
  erewrite run_bind by apply run_modify. erewrite run_bind by apply run_gets.
  change (ram_byte (put_last a m) a) with (ram_byte m a). rewrite ram_byte_some, El by done.
  erewrite run_bind by apply run_gets. reflexivity.
Qed.
Lemma ram_write_word a v m :
  machine_word a = true -> bus_write16 hle a v m = (Ok tt, machine_poke a v m).
Proof.
  intros (k & _ & Ha & Ha1 & R & R1 & El)%machine_word_spec. unfold bus_write16, bus_write16_with.
  erewrite run_bind by apply run_modify. erewrite run_bind by apply run_gets.
  change (ram_byte (put_last a m) a) with (ram_byte m a). by rewrite ram_byte_some, El.
Qed.
Lemma machine_peek_poke a v m c :
  machine_word a = true -> machine_word c = true -> is_u16 v ->
  machine_peek (machine_poke a v m) c = if c =? a then v else machine_peek m c.
Proof.
  intros (k & -> & Ha & Ha1 & R & R1 & _)%machine_word_spec (j & -> & Hc & Hc1 & S & S1 & _)%machine_word_spec Hv.
  unfold machine_peek, machine_poke. rewrite !ram_cell_set by done.
  change (ram_cell (put_last (2 * k) m)) with (ram_cell m).
  destruct (Z.eqb_spec (2 * j) (2 * k + 1)); [lia|]. destruct (Z.eqb_spec (2 * j + 1) (2 * k)); [lia|].
  destruct (Z.eqb_spec (2 * j) (2 * k)) as [E|E], (Z.eqb_spec (2 * j + 1) (2 * k + 1)) as [E1|E1]; try lia.
  - pose proof (u16_of_bytes v Hv) as Eu. rewrite !(u8_id (u8 _)) in Eu by apply u8_range.
    rewrite Eu. by apply u16_id.
Qed.

#[local] Instance ram_board : Board (Machine V A Md) := machine_board hle.
#[local] Instance machine_ram : RamLaws (Machine V A Md).
Proof.
  apply (Build_RamLaws _ ram_board machine_word machine_peek machine_poke).
  - intros a (k & _ & Ha & _)%machine_word_spec. exact Ha.
  - intros a m Ha. by apply ram_read_word.
  - intros a v m Ha _. by apply ram_write_word.
  - intros a v m c. apply machine_peek_poke.
  - done.
  - intros m a. apply u16_range.
Defined.

(** The state beside the banks and the last address. *)
Definition beside_ram m : Machine V A Md := put_ram ∅ ∅ (put_last 0 m).
Lemma beside_set a v m : beside_ram (set_ram_byte a v m) = beside_ram m.
Proof. unfold set_ram_byte. by destruct (_ <? _). Qed.
Lemma beside_poke a v m : beside_ram (machine_poke a v m) = beside_ram m.
Proof. unfold machine_poke. by rewrite !beside_set. Qed.

Lemma write32_poke a v m :
  ram_long a = true -> is_u32 v -> m68k_write32 a v m = (Ok tt, poke32 a v m).
Proof.
  unfold ram_long. intros [H1' H2]%andb_true_iff Hv. unfold m68k_write32.
  erewrite run_bind by (apply ram_write16; [done|apply u16_range]).
  erewrite run_bind by (apply ram_write16; [done|apply u16_range]). reflexivity.
Qed.
Lemma read32_peek a m : ram_long a = true -> fst (m68k_read32 a m) = Ok (peek32 m a).
Proof.
  unfold ram_long. intros [H1' H2]%andb_true_iff. unfold m68k_read32.
  erewrite run_bind by (by apply ram_read16). erewrite run_bind by (by apply ram_read16).
  erewrite run_bind by apply run_modify. by rewrite peek_last.
Qed.

(** C3. The two banks are memory under the CPU. At an even address with both words
    of the long inside the banks a long write succeeds, the long reads back, no
    other word of either bank changes, and neither does anything else on the
    board: no chip, timer, interrupt line or ROM byte. *)
Theorem ram_is_memory a v m :
  ram_long a = true -> is_u32 v ->
  exists m', m68k_write32 a v m = (Ok tt, m') /\ fst (m68k_read32 a m') = Ok v /\
    (forall c, machine_word c = true -> c <> a -> c <> u32 (a + 2) -> machine_peek m' c = machine_peek m c) /\
    beside_ram m' = beside_ram m.
Proof.
  intros Ha Hv. exists (poke32 a v m). split; [by apply write32_poke|split; [|split]].
  - rewrite read32_peek, peek32_poke32 by done. done.
  - intros c Hc N1 N2. pose proof (peek_poke32 a v m c Ha Hc) as E.
    cbn [peek16 machine_ram] in E. rewrite E.
    destruct (Z.eqb_spec c (u32 (a + 2))), (Z.eqb_spec c a); done.
  - unfold poke32. cbn [poke16 machine_ram]. exact (eq_trans (beside_poke _ _ _) (beside_poke _ _ _)).
Qed.
End MachineRam.

(** * A stopped board with a disc *)
#[local] Existing Instance counting_video.
Definition sample_system : Sys (Machine Z (list Z) unit) :=
  mkSys user_cpu sample_machine false true true 0 0 0 0 0 0 [].

Lemma sample_system_ok : @sys_ok _ (board true) (machine_board_ok true) sample_system.
Proof.
  split; cbn; try word.
  - exact user_cpu_ok.
  - split; [cbn; word|split; [exact periph_reset_ok|exact irq_reset_ok]].
  - split_and!; [lia|constructor|constructor].
Qed.

Lemma ram_is_memory_witness :
  exists m' : Machine Z (list Z) unit,
    @m68k_write32 _ (machine_board true) 0x1000 0xDEADBEEF sample_machine = (Ok tt, m') /\
    fst (@m68k_read32 _ (machine_board true) 0x1000 m') = Ok 0xDEADBEEF /\
    beside_ram m' = beside_ram sample_machine.
Proof.
  destruct (ram_is_memory true 0x1000 0xDEADBEEF sample_machine) as (m' & E1 & E2 & _ & E3).
  - vm_compute. reflexivity.
  - word.
  - exists m'. split; [exact E1|split; [exact E2|exact E3]].
Defined.
