(* ===== verification/Video.v ===== *)
(** The pixel pipeline of the display controller (runner/src/mcd212_video.c):
    display registers, image decoders, the two-plane compositor, the fused
    scanout job and the reuse of completed lines, publication and its readers.

    Pixels are 32-bit ARGB words.  The output buffers are maps from pixel offsets.
    The capture of raster jobs for a GPU (cdi_raster_jobs.c), a consumer that is
    compiled out of the scanout reference, is left out. *)

From Stdlib Require Import ZArith Lia Bool.
From stdpp Require Import base tactics numbers list gmap.
From S2P Require Import Prelude Mcd212.
Open Scope Z_scope.

Definition MCD212_VIDEO_MAX_WIDTH : Z := 768.
Definition MCD212_VIDEO_MAX_HEIGHT : Z := 560.
Definition PLANE_A : Z := 0.
Definition PLANE_B : Z := 1.

Inductive Coding :=
  CODING_OFF | CODING_RGB555 | CODING_DYUV | CODING_CLUT8 | CODING_CLUT7 | CODING_CLUT77 | CODING_CLUT4.
Inductive FileType := FILE_BITMAP | FILE_RUN_LENGTH | FILE_MOSAIC.
Inductive PixelBits := BITS_NORMAL_8 | BITS_DOUBLE_4 | BITS_HIGH_8.
#[export] Instance Coding_eq_dec : EqDecision Coding.
Proof. solve_decision. Defined.
#[export] Instance FileType_eq_dec : EqDecision FileType.
Proof. solve_decision. Defined.
#[export] Instance PixelBits_eq_dec : EqDecision PixelBits.
Proof. solve_decision. Defined.

Record PlaneSetup := mkPlane {
  coding : Coding;
  file_type : FileType;
  bits_per_pixel : PixelBits;
  mosaic_repeat : Z;
  transparency : Z;
  contribution : Z;
  hold_enabled : bool;
  hold_count : Z;
  dyuv_initial : Z;
  transparent_color : Z;
  color_mask : Z;
}.
Definition plane_fields :=
  (tt, coding, file_type, bits_per_pixel, mosaic_repeat, transparency, contribution, hold_enabled,
   hold_count, dyuv_initial, transparent_color, color_mask).
Ltac plane_set p f v := setter mkPlane p f v plane_fields.
Definition set_coding (v : Coding) (p : PlaneSetup) : PlaneSetup := ltac:(plane_set p coding v).
Definition set_file_type (v : FileType) (p : PlaneSetup) : PlaneSetup := ltac:(plane_set p file_type v).
Definition set_bits (v : PixelBits) (p : PlaneSetup) : PlaneSetup := ltac:(plane_set p bits_per_pixel v).
Definition set_mosaic (v : Z) (p : PlaneSetup) : PlaneSetup := ltac:(plane_set p mosaic_repeat v).
Definition set_transparency (v : Z) (p : PlaneSetup) : PlaneSetup := ltac:(plane_set p transparency v).
Definition set_contribution (v : Z) (p : PlaneSetup) : PlaneSetup := ltac:(plane_set p contribution v).
Definition set_hold_enabled (v : bool) (p : PlaneSetup) : PlaneSetup := ltac:(plane_set p hold_enabled v).
Definition set_hold_count (v : Z) (p : PlaneSetup) : PlaneSetup := ltac:(plane_set p hold_count v).
Definition set_dyuv (v : Z) (p : PlaneSetup) : PlaneSetup := ltac:(plane_set p dyuv_initial v).
Definition set_key (v : Z) (p : PlaneSetup) : PlaneSetup := ltac:(plane_set p transparent_color v).
Definition set_mask (v : Z) (p : PlaneSetup) : PlaneSetup := ltac:(plane_set p color_mask v).

Record CursorSetup := mkCursor {
  cursor_x : Z;
  cursor_y : Z;
  pattern : list Z;  (* uint16_t[16] *)
  cursor_enabled : bool;
  cursor_color : Z;
  high_resolution : bool;
  complementary_blink : bool;
  on_units : Z;
  off_units : Z;
  start_field : Z;
}.
Definition cursor_fields :=
  (tt, cursor_x, cursor_y, pattern, cursor_enabled, cursor_color, high_resolution,
   complementary_blink, on_units, off_units, start_field).
Ltac cursor_set c f v := setter mkCursor c f v cursor_fields.
Definition set_cursor_x (v : Z) (c : CursorSetup) : CursorSetup := ltac:(cursor_set c cursor_x v).
Definition set_cursor_y (v : Z) (c : CursorSetup) : CursorSetup := ltac:(cursor_set c cursor_y v).
Definition set_pattern (v : list Z) (c : CursorSetup) : CursorSetup := ltac:(cursor_set c pattern v).
Definition set_start_field (v : Z) (c : CursorSetup) : CursorSetup := ltac:(cursor_set c start_field v).

Record VideoRegisters := mkRegisters {
  plane_a : PlaneSetup;
  plane_b : PlaneSetup;
  cursor : CursorSetup;
  clut : list Z;           (* uint32_t[256] *)
  matte_command : list Z;  (* uint32_t[8] *)
  clut_bank : Z;
  backdrop : Z;
  plane_b_front : bool;
  mixing : bool;
  plane_a_high_clut : bool;
  two_mattes : bool;
  external_video : bool;
}.
Definition register_fields :=
  (tt, plane_a, plane_b, cursor, clut, matte_command, clut_bank, backdrop, plane_b_front, mixing,
   plane_a_high_clut, two_mattes, external_video).
Ltac register_set r f v := setter mkRegisters r f v register_fields.
Definition set_plane_a (v : PlaneSetup) (r : VideoRegisters) : VideoRegisters := ltac:(register_set r plane_a v).
Definition set_plane_b (v : PlaneSetup) (r : VideoRegisters) : VideoRegisters := ltac:(register_set r plane_b v).
Definition set_cursor (v : CursorSetup) (r : VideoRegisters) : VideoRegisters := ltac:(register_set r cursor v).
Definition set_clut (v : list Z) (r : VideoRegisters) : VideoRegisters := ltac:(register_set r clut v).
Definition set_mattes (v : list Z) (r : VideoRegisters) : VideoRegisters := ltac:(register_set r matte_command v).
Definition set_clut_bank (v : Z) (r : VideoRegisters) : VideoRegisters := ltac:(register_set r clut_bank v).
Definition set_backdrop (v : Z) (r : VideoRegisters) : VideoRegisters := ltac:(register_set r backdrop v).
Definition set_plane_b_front (v : bool) (r : VideoRegisters) : VideoRegisters := ltac:(register_set r plane_b_front v).
Definition set_mixing (v : bool) (r : VideoRegisters) : VideoRegisters := ltac:(register_set r mixing v).
Definition set_high_clut (v : bool) (r : VideoRegisters) : VideoRegisters := ltac:(register_set r plane_a_high_clut v).
Definition set_two_mattes (v : bool) (r : VideoRegisters) : VideoRegisters := ltac:(register_set r two_mattes v).
Definition set_external_video (v : bool) (r : VideoRegisters) : VideoRegisters := ltac:(register_set r external_video v).

#[export] Instance PlaneSetup_eq_dec : EqDecision PlaneSetup.
Proof. solve_decision. Defined.
#[export] Instance CursorSetup_eq_dec : EqDecision CursorSetup.
Proof. solve_decision. Defined.
#[export] Instance VideoRegisters_eq_dec : EqDecision VideoRegisters.
Proof. solve_decision. Defined.

Definition plane_setup (plane : Z) (r : VideoRegisters) : PlaneSetup :=
  if z2b plane then plane_b r else plane_a r.
Definition upd_plane (plane : Z) (f : PlaneSetup -> PlaneSetup) (r : VideoRegisters) : VideoRegisters :=
  if z2b plane then set_plane_b (f (plane_b r)) r else set_plane_a (f (plane_a r)) r.
Definition upd_cursor (f : CursorSetup -> CursorSetup) (r : VideoRegisters) : VideoRegisters :=
  set_cursor (f (cursor r)) r.

(** * Colors *)
Definition saturate (value : Z) : Z :=
  if value <? 0 then 0 else if 255 <? value then 255 else value.

Definition argb (red green blue : Z) : Z :=
  Z.lor (Z.lor (Z.lor 0xFF000000 (Z.shiftl red 16)) (Z.shiftl green 8)) blue.

Definition yrgb_color (code : Z) : Z :=
  let level := if z2b (Z.land code 8) then 255 else 127 in
  argb (if z2b (Z.land code 4) then level else 0)
       (if z2b (Z.land code 2) then level else 0)
       (if z2b (Z.land code 1) then level else 0).

Definition plane_a_coding (code : Z) : Coding :=
  if code =? 1 then CODING_CLUT8
  else if code =? 3 then CODING_CLUT7
  else if code =? 4 then CODING_CLUT77
  else if code =? 5 then CODING_DYUV
  else if code =? 11 then CODING_CLUT4
  else CODING_OFF.

Definition plane_b_coding (code : Z) : Coding :=
  if code =? 1 then CODING_RGB555
  else if code =? 3 then CODING_CLUT7
  else if code =? 5 then CODING_DYUV
  else if code =? 11 then CODING_CLUT4
  else CODING_OFF.

(** An entry of the table the reset fills. *)
Definition contribution_lut (factor component : Z) : Z :=
  saturate (Z.quot (factor * (component - 16)) 63 + 16).

(** * Image decoders

    [fetch] is [dram_byte].  A decoder answers the bytes it consumed and the
    pixels it wrote from the start of the row; [None] is the fail-loud abort or,
    in [row_of], an access outside the row. *)
Definition dram_byte (ram0 ram1 : mem) (address : Z) : option Z :=
  if address <? CDI_RAM0_SIZE then Some (u8 (mget ram0 address))
  else if (CDI_RAM1_BASE <=? address) && (address - CDI_RAM1_BASE <? CDI_RAM1_SIZE)
  then Some (u8 (mget ram1 (address - CDI_RAM1_BASE)))
  else None.

Definition clut_lookup (r : VideoRegisters) (plane index : Z) : Z :=
  let bank_start :=
    if z2b plane then 128
    else if bool_decide (coding (plane_a r) = CODING_CLUT77) && plane_a_high_clut r then 128
    else 0 in
  lget (clut r) (Z.land (bank_start + index) 255).

Definition doubled (duplicate : bool) (color : Z) : list Z :=
  if duplicate then [color; color] else [color].

Definition dyuv_rgb (y u v : Z) : Z :=
  argb (saturate (y + Z.quot (351 * (v - 128)) 256))
       (saturate (y - Z.quot (86 * (u - 128)) 256 - Z.quot (179 * (v - 128)) 256))
       (saturate (y + Z.quot (444 * (u - 128)) 256)).

Definition dyuv_delta : list Z :=
  [0x00; 0x01; 0x04; 0x09; 0x10; 0x1B; 0x2C; 0x4F;
   0x80; 0xB1; 0xD4; 0xE5; 0xF0; 0xF7; 0xFC; 0xFF].
Definition half_delta (d : Z) : Z :=
  if 0 <=? d then Z.quot d 2 else - Z.quot (- d + 1) 2.

Section Decode.
Context (fetch : Z -> option Z) (r : VideoRegisters).

(** The packed bytes of a CLUT4 row; [out] pixels precede them. *)
Fixpoint clut4_loop (plane pixels : Z) (n : nat) (address out : Z) : option (list Z) :=
  match n with
  | O => Some []
  | S n' =>
    packed ← fetch (u32 address);
    let first := clut_lookup r plane (Z.shiftr packed 4) in
    let second := if out + 1 <? pixels then [clut_lookup r plane (Z.land packed 15)] else [] in
    rest ← clut4_loop plane pixels n' (address + 1) (out + 1 + Z.of_nat (length second));
    Some (first :: second ++ rest)
  end.

Fixpoint clut_loop (plane mask : Z) (duplicate : bool) (n : nat) (address : Z) : option (list Z) :=
  match n with
  | O => Some []
  | S n' =>
    b ← fetch (u32 address);
    rest ← clut_loop plane mask duplicate n' (address + 1);
    Some (doubled duplicate (clut_lookup r plane (Z.land b mask)) ++ rest)
  end.

Definition decode_clut (plane address pixels : Z) (double_pixels : bool) : option (Z * list Z) :=
  let setup := plane_setup plane r in
  if decide (coding setup = CODING_CLUT4) then
    let byte_count := (pixels + 1) / 2 in
    out ← clut4_loop plane pixels (Z.to_nat byte_count) address 0;
    Some (u16 byte_count, out)
  else
    let mask := if decide (coding setup = CODING_CLUT8) then 0xFF else 0x7F in
    out ← clut_loop plane mask double_pixels (Z.to_nat pixels) address;
    Some (pixels, out).

Definition rgb555_color (packed : Z) : Z :=
  Z.lor (Z.lor (Z.lor (if z2b (Z.land packed 0x8000) then 0x80000000 else 0)
                      (Z.shiftl (Z.land (Z.shiftr packed 7) 0xF8) 16))
               (Z.shiftl (Z.land (Z.shiftr packed 2) 0xF8) 8))
        (Z.land (Z.shiftl packed 3) 0xF8).

Fixpoint rgb555_loop (n : nat) (address_a address_b : Z) : option (list Z) :=
  match n with
  | O => Some []
  | S n' =>
    a ← fetch (u32 address_a);
    b ← fetch (u32 address_b);
    rest ← rgb555_loop n' (address_a + 1) (address_b + 1);
    Some (doubled true (rgb555_color (Z.lor (Z.shiftl a 8) b)) ++ rest)
  end.
Definition decode_rgb555 (address_a address_b pixels : Z) : option (Z * list Z) :=
  out ← rgb555_loop (Z.to_nat pixels) address_a address_b;
  Some (pixels, out).

(** [n] pairs from pixel [i] on. *)
Fixpoint dyuv_loop (duplicate : bool) (pixels : Z) (n : nat) (address i y u v : Z) : option (list Z) :=
  match n with
  | O => Some []
  | S n' =>
    first ← fetch (u32 (address + i));
    second ← fetch (u32 (address + i + 1));
    let delta_u := i8 (lget dyuv_delta (Z.shiftr first 4)) in
    let delta_v := i8 (lget dyuv_delta (Z.shiftr second 4)) in
    let next_u := u8 (u + delta_u) in
    let next_v := u8 (v + delta_v) in
    let middle_u := u8 (u + half_delta delta_u) in
    let middle_v := u8 (v + half_delta delta_v) in
    let first_y := u8 (y + lget dyuv_delta (Z.land first 15)) in
    let second_y := u8 (first_y + lget dyuv_delta (Z.land second 15)) in
    rest ← dyuv_loop duplicate pixels n' address (i + 2) second_y next_u next_v;
    Some (doubled duplicate (dyuv_rgb first_y middle_u middle_v) ++
          (if i + 1 <? pixels then doubled duplicate (dyuv_rgb second_y next_u next_v) else []) ++ rest)
  end.
Definition decode_dyuv (plane address pixels : Z) (duplicate : bool) : option (Z * list Z) :=
  let initial := dyuv_initial (plane_setup plane r) in
  out ← dyuv_loop duplicate pixels (Z.to_nat ((pixels + 1) / 2)) address 0
          (u8 (Z.shiftr initial 16)) (u8 (Z.shiftr initial 8)) (u8 initial);
  Some (u16 (Z.land (pixels + 1) (Z.lnot 1)), out).

Definition repeated (n : Z) (pixels : list Z) : list Z := mjoin (replicate (Z.to_nat n) pixels).

(** One code of a run-length row at [x]: its repetitions, the bytes read and the
    pixels.  A paired code holds two pixels of three bits. *)
Definition run_code (plane address output_pixels : Z) (paired duplicate : bool) (consumed x : Z)
    : option (Z * Z * list Z) :=
  format ← fetch (u32 (address + consumed));
  let consumed := consumed + 1 in
  let left := if paired then (output_pixels - x) / 2 else output_pixels - x in
  rc ← (if z2b (Z.land format 0x80) then
          b ← fetch (u32 (address + consumed));
          Some (if b =? 0 then left else b, consumed + 1)
        else Some (1, consumed));
  let repetitions := Z.min (fst rc) left in
  Some (repetitions, snd rc,
    if paired
    then repeated repetitions [clut_lookup r plane (Z.land (Z.shiftr format 4) 7);
                               clut_lookup r plane (Z.land format 7)]
    else repeated repetitions (doubled duplicate (clut_lookup r plane (Z.land format 0x7F)))).

(** The row's codes, a turn each; a code that fits no pixel is followed by more
    until the fetch leaves the DRAM, as spent fuel also answers. *)
Fixpoint run_loop (plane address output_pixels : Z) (paired duplicate : bool) (fuel : nat) (consumed x : Z)
    : option (Z * list Z) :=
  if x <? output_pixels then
    match fuel with
    | O => None
    | S fuel' =>
      code ← run_code plane address output_pixels paired duplicate consumed x;
      let '(repetitions, consumed, pixels) := code in
      rest ← run_loop plane address output_pixels paired duplicate fuel' consumed
               (x + (if paired then 2 * repetitions else repetitions));
      Some (fst rest, pixels ++ snd rest)
    end
  else Some (consumed, []).

Definition decode_run_length (plane address output_pixels : Z) : option (Z * list Z) :=
  let paired := bool_decide (bits_per_pixel (plane_setup plane r) = BITS_DOUBLE_4) in
  let duplicate := negb paired && (output_pixels <=? 384) in
  out ← run_loop plane address output_pixels paired duplicate (Z.to_nat output_pixels) 0 0;
  Some (u16 (fst out), snd out).

(** The rest of a row is cleared; more pixels than it holds are written past it. *)
Definition row_of (pixels : list Z) : option (list Z) :=
  if Z.of_nat (length pixels) <=? MCD212_VIDEO_MAX_WIDTH
  then Some (pixels ++ replicate (Z.to_nat MCD212_VIDEO_MAX_WIDTH - length pixels) 0)
  else None.

(** The in-place expansion, from the end of the row. *)
Fixpoint mosaic_loop (mosaic : Z) (x : nat) (row : list Z) : list Z :=
  match x with
  | O => row
  | S x' =>
    mosaic_loop mosaic x' (lset row (Z.of_nat x') (lget row (Z.of_nat x' / mosaic)))
  end.

(** The width a plane is decoded at. *)
Definition wide_source (setup : PlaneSetup) : bool :=
  match file_type setup with
  | FILE_RUN_LENGTH => negb (bool_decide (bits_per_pixel setup = BITS_NORMAL_8))
  | _ => bool_decide (coding setup = CODING_CLUT4)
  end.

Definition decode_plane (width plane address address_a source_width : Z) : option (Z * list Z) :=
  let setup := plane_setup plane r in
  if decide (coding setup = CODING_OFF) then row ← row_of []; Some (0, row) else
  let source_width := if wide_source setup then width else source_width in
  if decide (file_type setup = FILE_RUN_LENGTH) then
    out ← decode_run_length plane address source_width;
    row ← row_of (snd out);
    Some (fst out, row)
  else
    let mosaic := if decide (file_type setup = FILE_MOSAIC) then mosaic_repeat setup else 1 in
    let duplicate := negb (bool_decide (coding setup = CODING_CLUT4)) && (source_width <=? 384) in
    let source_width := if 1 <? mosaic then u16 ((source_width + mosaic - 1) / mosaic) else source_width in
    out ← (match coding setup with
           | CODING_RGB555 => decode_rgb555 address_a address source_width
           | CODING_DYUV => decode_dyuv plane address source_width duplicate
           | _ => decode_clut plane address source_width duplicate
           end);
    row ← row_of (snd out);
    Some (fst out, if 1 <? mosaic then mosaic_loop mosaic (Z.to_nat width) row else row).

(** Pixel hold: the first pixel of every group over the rest of the group. *)
Fixpoint hold_group (start x : Z) (n : nat) (row : list Z) : list Z :=
  match n with
  | O => row
  | S n' => hold_group start (x + 1) n' (lset row x (lget row start))
  end.
Fixpoint hold_loop (width count : Z) (fuel : nat) (start : Z) (row : list Z) : list Z :=
  match fuel with
  | O => row
  | S fuel' =>
    if start <? width then
      let fin := if width <? start + count then width else start + count in
      hold_loop width count fuel' (start + count)
        (hold_group start (start + 1) (Z.to_nat (fin - (start + 1))) row)
    else row
  end.
Definition apply_pixel_hold (width plane : Z) (row : list Z) : option (list Z) :=
  let setup := plane_setup plane r in
  if negb (hold_enabled setup) then Some row
  else if hold_count setup =? 0 then None
  else Some (hold_loop width (hold_count setup) (Z.to_nat width) 0 row).
End Decode.

(** * Composition *)
Definition apply_contribution (pixel factor : Z) : Z :=
  let f := Z.land factor 63 in
  Z.lor (Z.lor (Z.lor (Z.land pixel 0xFF000000)
    (Z.shiftl (contribution_lut f (Z.land (Z.shiftr pixel 16) 255)) 16))
    (Z.shiftl (contribution_lut f (Z.land (Z.shiftr pixel 8) 255)) 8))
    (contribution_lut f (Z.land pixel 255)).

Definition matches_color_key (setup : PlaneSetup) (pixel : Z) : bool :=
  Z.land (Z.lor pixel (color_mask setup)) 0x00FCFCFC =?
  Z.land (Z.lor (transparent_color setup) (color_mask setup)) 0x00FCFCFC.

Definition transparent_pixel (setup : PlaneSetup) (pixel : Z) (matte0 matte1 : bool) : bool :=
  let control := transparency setup in
  let k := Z.land control 7 in
  let predicate :=
    if k =? 0 then true
    else if k =? 1 then matches_color_key setup pixel
    else if k =? 2 then z2b (Z.land (Z.shiftr pixel 31) 1)
    else if k =? 3 then matte0
    else if k =? 4 then matte1
    else if k =? 5 then matte0 || matches_color_key setup pixel
    else if k =? 6 then matte1 || matches_color_key setup pixel
    else false in
  eqb predicate (negb (z2b (Z.land control 8))).

Definition add_planes (a b : Z) : Z :=
  argb (saturate (Z.land (Z.shiftr a 16) 255 + Z.land (Z.shiftr b 16) 255 - 16))
       (saturate (Z.land (Z.shiftr a 8) 255 + Z.land (Z.shiftr b 8) 255 - 16))
       (saturate (Z.land a 255 + Z.land b 255 - 16)).

(** One matte's place in the commands, and the state both mattes move. *)
Record MatteCursor := mkMatte { next : nat; limit : nat; flag : bool }.
Record MatteState := mkMattes { matte0 : MatteCursor; matte1 : MatteCursor; factor0 : Z; factor1 : Z }.

Section Compose.
Context (r : VideoRegisters).

Definition initialize_matte_state : MatteState :=
  let f0 := contribution (plane_a r) in
  let f1 := contribution (plane_b r) in
  if two_mattes r then mkMattes (mkMatte 0 4 false) (mkMatte 4 8 false) f0 f1
  else if z2b (Z.land (Z.shiftr (lget (matte_command r) 0) 16) 1)
  then mkMattes (mkMatte 8 8 false) (mkMatte 0 8 false) f0 f1
  else mkMattes (mkMatte 0 8 false) (mkMatte 8 8 false) f0 f1.

Definition one_of (operation : Z) (codes : list Z) : bool := existsb (Z.eqb operation) codes.

(** The commands of one matte that are due at [x]; [fuel] commands at most. *)
Fixpoint matte_loop (x : Z) (fuel : nat) (m : MatteCursor) (f0 f1 : Z) : MatteCursor * Z * Z :=
  match fuel with
  | O => (m, f0, f1)
  | S fuel' =>
    if (next m <? limit m)%nat then
      let command := lget (matte_command r) (Z.of_nat (next m)) in
      if x <? Z.land command 0x3FF then (m, f0, f1)
      else
        let operation := Z.land (Z.shiftr command 20) 15 in
        let value := Z.land (Z.shiftr command 10) 63 in
        if operation =? 0 then (mkMatte (limit m) (limit m) (flag m), f0, f1)
        else
          let f0 := if one_of operation [4; 12; 13] then value else f0 in
          let f1 := if one_of operation [6; 14; 15] then value else f1 in
          let fl := if one_of operation [8; 12; 14] then false else flag m in
          let fl := if one_of operation [9; 13; 15] then true else fl in
          matte_loop x fuel' (mkMatte (S (next m)) (limit m) fl) f0 f1
    else (m, f0, f1)
  end.

Definition apply_matte_commands (x : Z) (s : MatteState) : MatteState :=
  let '(m0, f0, f1) := matte_loop x 8 (matte0 s) (factor0 s) (factor1 s) in
  let '(m1, f0, f1) := matte_loop x 8 (matte1 s) f0 f1 in
  mkMattes m0 m1 f0 f1.

(** What the composition leaves at one pixel: the frame, the two snapshots and
    the verdict. *)
Record Drawn := mkDrawn { d_pixel : Z; d_raw_a : Z; d_raw_b : Z; d_verdict : Z }.

Definition compose_pixel (raw_a raw_b : Z) (s : MatteState) : Drawn :=
  let a := apply_contribution raw_a (factor0 s) in
  let b := apply_contribution raw_b (factor1 s) in
  let transparent_a := transparent_pixel (plane_a r) raw_a (flag (matte0 s)) (flag (matte1 s)) in
  let transparent_b := transparent_pixel (plane_b r) raw_b (flag (matte0 s)) (flag (matte1 s)) in
  let front := if plane_b_front r then b else a in
  let back := if plane_b_front r then a else b in
  let front_transparent := if plane_b_front r then transparent_b else transparent_a in
  let back_transparent := if plane_b_front r then transparent_a else transparent_b in
  let verdict := Z.lor (if transparent_a then 1 else 0) (if transparent_b then 2 else 0) in
  let '(pixel, bit) :=
    if mixing r && negb transparent_a && negb transparent_b then (add_planes a b, 0x20)
    else if negb front_transparent then (Z.lor front 0xFF000000, 0x04)
    else if negb back_transparent then (Z.lor back 0xFF000000, 0x08)
    else (yrgb_color (backdrop r), 0x10) in
  mkDrawn pixel (Z.lor raw_a 0xFF000000) (Z.lor raw_b 0xFF000000) (Z.lor verdict bit).

(** [n] pixels from [x] on. *)
Fixpoint compose_pixels (row_a row_b : list Z) (n : nat) (x : Z) (s : MatteState) : list Drawn :=
  match n with
  | O => []
  | S n' =>
    let s := apply_matte_commands x s in
    compose_pixel (lget row_a x) (lget row_b x) s :: compose_pixels row_a row_b n' (x + 1) s
  end.

(** The cursor's pixels over a line, as writes in order. *)
Definition cursor_color_at (field : Z) : option Z :=
  let c := cursor r in
  let color := yrgb_color (cursor_color c) in
  if z2b (off_units c) then
    let on_fields := 12 * on_units c in
    let off_fields := 12 * off_units c in
    let phase := u64 (field - start_field c) mod (on_fields + off_fields) in
    if on_fields <=? phase then
      if complementary_blink c then Some (Z.lxor color 0x00FFFFFF) else None
    else Some color
  else Some color.

Definition cursor_writes (width line field : Z) : list (Z * Z) :=
  let c := cursor r in
  if negb (cursor_enabled c) || (line <? cursor_y c) || (cursor_y c + 16 <=? line) then []
  else
    match cursor_color_at field with
    | None => []
    | Some color =>
      let bits := lget (pattern c) (line - cursor_y c) in
      let scale := if high_resolution c then 1 else 2 in
      column ← seqZ 0 16;
      if negb (z2b (Z.land bits (Z.shiftr 0x8000 column))) then []
      else
        let first_x := cursor_x c + column * scale in
        (fun x => (x, color)) <$> filter (fun x => x < width) (seqZ first_x scale)
    end.
End Compose.
