(* ===== verification/Scanout.v ===== *)
(** The state of the pixel pipeline and its entry points (runner/src/mcd212_video.c):
    control words, geometry, a line by the reference and by the fused scanout
    job, completed lines, publication of a field.

    [hle] selects the build (CDI_VIDEO_HLE); an operation answers [None] where
    the program aborts. *)

From Stdlib Require Import ZArith Lia Bool.
From stdpp Require Import base tactics numbers list gmap.
From S2P Require Import Prelude Mcd212 Video.
Open Scope Z_scope.

(** * State *)

(** Both display buffers, the snapshots of the planes and the verdicts, by
    pixel offset. *)
Record Buffers := mkBuffers {
  frame0 : mem; frame1 : mem; plane_frame_a : mem; plane_frame_b : mem; verdict_frame : mem }.

Definition frame_of (buffer : bool) (f : Buffers) : mem := if buffer then frame1 f else frame0 f.
Definition set_frame (buffer : bool) (m : mem) (f : Buffers) : Buffers :=
  if buffer
  then mkBuffers (frame0 f) m (plane_frame_a f) (plane_frame_b f) (verdict_frame f)
  else mkBuffers m (frame1 f) (plane_frame_a f) (plane_frame_b f) (verdict_frame f).

(** What a field's end moves. *)
Record Publication := mkPublication {
  published_width : Z;
  published_height : Z;
  drawing_buffer : bool;
  published_buffer : bool;
  generation : Z;
  publish_sequence : Z;
  published_hash : Z;
  content_generation : Z;
}.

Record Counters := mkCounters { scanout_jobs : Z; fused_jobs : Z; reused_jobs : Z }.

(** A line's last job, kept while its [valid] flag is set. *)
Record CompletedLine := mkCompleted {
  job_registers : VideoRegisters;
  address_a : Z; address_b : Z;
  width_a : Z; width_b : Z;
  consumed_a : Z; consumed_b : Z;
  source_a : list Z; source_b : list Z;
  job_decoded_a : list Z; job_decoded_b : list Z;
}.

Record VideoPipeline := mkVideo {
  registers : VideoRegisters;
  decoded_a : list Z;  (* uint32_t[768] *)
  decoded_b : list Z;
  buffers : Buffers;
  width : Z;
  height : Z;
  publication : Publication;
  counters : Counters;
  completed_lines : gmap Z CompletedLine;  (* the lines whose flag is set *)
}.
Definition video_fields :=
  (tt, registers, decoded_a, decoded_b, buffers, width, height, publication, counters, completed_lines).
Ltac video_set v f x := setter mkVideo v f x video_fields.
Definition set_video_registers (x : VideoRegisters) (v : VideoPipeline) : VideoPipeline := ltac:(video_set v registers x).
Definition set_decoded_a (x : list Z) (v : VideoPipeline) : VideoPipeline := ltac:(video_set v decoded_a x).
Definition set_decoded_b (x : list Z) (v : VideoPipeline) : VideoPipeline := ltac:(video_set v decoded_b x).
Definition set_buffers (x : Buffers) (v : VideoPipeline) : VideoPipeline := ltac:(video_set v buffers x).
Definition set_width (x : Z) (v : VideoPipeline) : VideoPipeline := ltac:(video_set v width x).
Definition set_height (x : Z) (v : VideoPipeline) : VideoPipeline := ltac:(video_set v height x).
Definition set_publication (x : Publication) (v : VideoPipeline) : VideoPipeline := ltac:(video_set v publication x).
Definition set_counters (x : Counters) (v : VideoPipeline) : VideoPipeline := ltac:(video_set v counters x).
Definition set_completed (x : gmap Z CompletedLine) (v : VideoPipeline) : VideoPipeline :=
  ltac:(video_set v completed_lines x).

Definition count_scanout (c : Counters) : Counters :=
  mkCounters (u64 (scanout_jobs c + 1)) (fused_jobs c) (reused_jobs c).
Definition count_fused (c : Counters) : Counters :=
  mkCounters (scanout_jobs c) (u64 (fused_jobs c + 1)) (reused_jobs c).
Definition count_reused (c : Counters) : Counters :=
  mkCounters (scanout_jobs c) (fused_jobs c) (u64 (reused_jobs c + 1)).

Definition drawing (v : VideoPipeline) : bool := drawing_buffer (publication v).
Definition field (v : VideoPipeline) : Z := generation (publication v).

(** * Reset, control words and geometry *)
Definition plane_reset : PlaneSetup :=
  mkPlane CODING_OFF FILE_BITMAP BITS_NORMAL_8 1 0 0 false 1 0 0 0.
Definition mcd212_video_reset : VideoPipeline :=
  mkVideo
    (mkRegisters plane_reset plane_reset
       (mkCursor 0 0 (replicate 16 0) false 0 false false 0 0 0)
       (replicate 256 0) (replicate 8 0) 0 0 false true false false false)
    (replicate 768 0) (replicate 768 0) (mkBuffers ∅ ∅ ∅ ∅ ∅) 768 280
    (mkPublication 768 280 true false 0 0 0 0) (mkCounters 0 0 0) ∅.

Definition configure_file_type (plane instruction : Z) (r : VideoRegisters) : option VideoRegisters :=
  let type := Z.land instruction 3 in
  let bits := Z.land (Z.shiftr instruction 8) 3 in
  let file := if type <=? 1 then FILE_BITMAP else if type =? 2 then FILE_RUN_LENGTH else FILE_MOSAIC in
  let mosaic := u8 (Z.shiftl 1 (1 + Z.land (Z.shiftr instruction 2) 3)) in
  let with_bits b := Some (upd_plane plane (fun p => set_bits b (set_mosaic mosaic (set_file_type file p))) r) in
  if bits =? 0 then with_bits BITS_NORMAL_8
  else if bits =? 1 then with_bits BITS_DOUBLE_4
  else if bits =? 2 then with_bits BITS_HIGH_8
  else None.

Definition bit_at (instruction n : Z) : bool := z2b (Z.land (Z.shiftr instruction n) 1).
Definition low4 (x : Z) : Z := u8 (Z.land x 15).

Definition image_coding (instruction : Z) (r : VideoRegisters) : VideoRegisters :=
  let r := set_high_clut (bit_at instruction 22) r in
  let r := set_two_mattes (bit_at instruction 19) r in
  let r := set_external_video (bit_at instruction 18) r in
  let r := upd_plane PLANE_A (set_coding (plane_a_coding (Z.land instruction 15))) r in
  upd_plane PLANE_B (set_coding (plane_b_coding (Z.land (Z.shiftr instruction 8) 15))) r.

Definition transparency_control (instruction : Z) (r : VideoRegisters) : VideoRegisters :=
  let r := set_mixing (negb (bit_at instruction 23)) r in
  let r := upd_plane PLANE_A (set_transparency (low4 instruction)) r in
  upd_plane PLANE_B (set_transparency (low4 (Z.shiftr instruction 8))) r.

Definition cursor_control (field instruction : Z) (r : VideoRegisters) : option VideoRegisters :=
  let c := cursor r in
  let on := u8 (Z.land (Z.shiftr instruction 19) 7) in
  let off := u8 (Z.land (Z.shiftr instruction 16) 7) in
  if (on =? 0) && negb (off =? 0) then None
  else Some (set_cursor
    (mkCursor (cursor_x c) (cursor_y c) (pattern c) (bit_at instruction 23) (low4 instruction)
       (bit_at instruction 15) (bit_at instruction 22) on off field) r).

(** A control word on the registers; [field] is the generation. *)
Definition control_registers (field plane instruction : Z) (r : VideoRegisters) : option VideoRegisters :=
  let opcode := u8 (Z.shiftr instruction 24) in
  let operand := Z.land instruction 0x00FFFFFF in
  let on_a (f : VideoRegisters -> VideoRegisters) := Some (if plane =? PLANE_A then f r else r) in
  let on_b (f : VideoRegisters -> VideoRegisters) := Some (if plane =? PLANE_B then f r else r) in
  if negb ((plane =? PLANE_A) || (plane =? PLANE_B)) then None
  else if (0x80 <=? opcode) && (opcode <=? 0xBF) then
    let index := clut_bank r * 64 + opcode - 0x80 in
    Some (if (plane =? PLANE_A) || (2 <=? clut_bank r)
          then set_clut (lset (clut r) index (Z.lor 0xFF000000 operand)) r else r)
  else if (0xD0 <=? opcode) && (opcode <=? 0xD7) then
    Some (set_mattes (lset (matte_command r) (opcode - 0xD0) operand) r)
  else if opcode =? 0x78 then configure_file_type plane instruction r
  else if opcode =? 0xC0 then on_a (image_coding instruction)
  else if opcode =? 0xC1 then on_a (transparency_control instruction)
  else if opcode =? 0xC2 then on_a (set_plane_b_front (z2b (Z.land instruction 1)))
  else if opcode =? 0xC3 then Some (set_clut_bank (Z.land instruction 3) r)
  else if opcode =? 0xC4 then on_a (upd_plane PLANE_A (set_key operand))
  else if opcode =? 0xC6 then on_b (upd_plane PLANE_B (set_key operand))
  else if opcode =? 0xC7 then on_a (upd_plane PLANE_A (set_mask operand))
  else if opcode =? 0xC9 then on_b (upd_plane PLANE_B (set_mask operand))
  else if opcode =? 0xCA then on_a (upd_plane PLANE_A (set_dyuv operand))
  else if opcode =? 0xCB then on_b (upd_plane PLANE_B (set_dyuv operand))
  else if opcode =? 0xCD then
    on_a (upd_cursor (fun c => set_cursor_y (Z.land (Z.shiftr instruction 12) 0x3FF)
                                 (set_cursor_x (Z.land instruction 0x3FF) c)))
  else if opcode =? 0xCE then
    if plane =? PLANE_A then cursor_control field instruction r else Some r
  else if opcode =? 0xCF then
    on_a (upd_cursor (fun c => set_pattern (lset (pattern c) (Z.land (Z.shiftr instruction 16) 15)
                                              (u16 instruction)) c))
  else if opcode =? 0xD8 then on_a (set_backdrop (low4 instruction))
  else if ((opcode =? 0xD9) && (plane =? PLANE_A)) || ((opcode =? 0xDA) && (plane =? PLANE_B)) then
    Some (upd_plane plane (fun p => set_hold_count (u8 instruction)
                                      (set_hold_enabled (bit_at instruction 23) p)) r)
  else if opcode =? 0xDB then on_a (upd_plane PLANE_A (set_contribution (u8 (Z.land instruction 63))))
  else if opcode =? 0xDC then on_b (upd_plane PLANE_B (set_contribution (u8 (Z.land instruction 63))))
  else Some r.

Definition mcd212_video_control (plane instruction : Z) (v : VideoPipeline) : option VideoPipeline :=
  r ← control_registers (field v) plane instruction (registers v);
  Some (set_video_registers r v).

Definition mcd212_video_begin_frame (hle : bool) (base_width base_height : Z) (interlaced : bool)
    (v : VideoPipeline) : option VideoPipeline :=
  let w := base_width * 2 in
  let h := if interlaced then base_height * 2 else base_height in
  if (MCD212_VIDEO_MAX_WIDTH <? w) || (MCD212_VIDEO_MAX_HEIGHT <? h) then None
  else
    let changed := negb (w =? width v) || negb (h =? height v) in
    let v := if hle && changed then set_completed ∅ v else v in
    Some (set_height (u16 h) (set_width (u16 w) v)).

(** * Drawing a line

    [r], [w], [buffer] and [fld] are the registers, [video.width], the drawing
    buffer and the generation, which no line changes. *)
Section Line.
Context (fetch : Z -> option Z) (r : VideoRegisters) (w : Z) (buffer : bool) (fld : Z).

(** The same pixel over a span, or one pixel after the other. *)
Definition put_drawn (offset : Z) (drawn : list Drawn) (f : Buffers) : Buffers :=
  let f := set_frame buffer (mstore (frame_of buffer f) offset (d_pixel <$> drawn)) f in
  mkBuffers (frame0 f) (frame1 f)
    (mstore (plane_frame_a f) offset (d_raw_a <$> drawn))
    (mstore (plane_frame_b f) offset (d_raw_b <$> drawn))
    (mstore (verdict_frame f) offset (d_verdict <$> drawn)).

Definition draw_cursor (offset line : Z) (f : Buffers) : Buffers :=
  set_frame buffer
    (foldl (fun m '(x, color) => mset m (offset + x) color) (frame_of buffer f)
       (cursor_writes r w line fld)) f.

Definition line_offset (line : Z) : Z := line * w.

Definition compose_line (h line : Z) (row_a row_b : list Z) (f : Buffers) : Buffers :=
  if h <=? line then f
  else
    let offset := line_offset line in
    draw_cursor offset line
      (put_drawn offset (compose_pixels r row_a row_b (Z.to_nat w) 0 (initialize_matte_state r)) f).

(** Both planes decoded and held: the bytes used and the rows. *)
Definition decode_planes (address_a address_b width_a width_b : Z)
    : option (Z * Z * list Z * list Z) :=
  a ← decode_plane fetch r w PLANE_A address_a address_a width_a;
  b ← decode_plane fetch r w PLANE_B address_b address_a width_b;
  let consumed_a := if decide (coding (plane_b r) = CODING_RGB555) then fst b else fst a in
  row_a ← apply_pixel_hold r w PLANE_A (snd a);
  row_b ← apply_pixel_hold r w PLANE_B (snd b);
  Some (consumed_a, fst b, row_a, row_b).

(** ** The fused scanout job *)
Record ScanoutSource := mkSource {
  src_address : Z;
  src_color : Z;
  src_end : Z;
  src_pixels : Z;
  src_produced : Z;
  src_scale : Z;
  src_consumed : Z;
  direct : bool;
}.

(** The comparison of the coding with CODING_CLUT8 in the order of the enum. *)
Definition clut_coded (c : Coding) : bool :=
  match c with CODING_OFF | CODING_RGB555 | CODING_DYUV => false | _ => true end.

(** The source and the plane's decoded row, given the row left by the last line. *)
Definition scanout_source (plane address address_a source_width : Z) (row : list Z)
    : option (ScanoutSource * list Z) :=
  let setup := plane_setup plane r in
  let run_length := bool_decide (file_type setup = FILE_RUN_LENGTH) in
  let pixels := if run_length && bool_decide (bits_per_pixel setup = BITS_HIGH_8) then w else source_width in
  let scale := if pixels <=? 384 then 2 else 1 in
  let is_direct := negb (hold_enabled setup) && clut_coded (coding setup) && run_length &&
    negb (bool_decide (bits_per_pixel setup = BITS_DOUBLE_4)) && (pixels * scale =? w) in
  if is_direct then
    Some (mkSource address 0 0 pixels 0 scale 0 true,
          take (Z.to_nat w) row ++ replicate (Z.to_nat (MCD212_VIDEO_MAX_WIDTH - w)) 0)
  else
    out ← decode_plane fetch r w plane address address_a source_width;
    row ← apply_pixel_hold r w plane (snd out);
    Some (mkSource address 0 0 pixels 0 scale (fst out) false, row).

(** The end of the run of [color] that holds the pixel before [e]. *)
Fixpoint same_run (row : list Z) (color : Z) (fuel : nat) (e : Z) : Z :=
  match fuel with
  | O => e
  | S fuel' => if (e <? w) && (lget row e =? color) then same_run row color fuel' (e + 1) else e
  end.

Definition scanout_next (plane : Z) (row : list Z) (x : Z) (s : ScanoutSource) : option ScanoutSource :=
  if x <? src_end s then Some s
  else if direct s then
    format ← fetch (u32 (src_address s + src_consumed s));
    let consumed := u16 (src_consumed s + 1) in
    let remaining := src_pixels s - src_produced s in
    cc ← (if z2b (Z.land format 0x80) then
            b ← fetch (u32 (src_address s + consumed));
            Some (if b =? 0 then remaining else b, u16 (consumed + 1))
          else Some (1, consumed));
    let count := if remaining <? fst cc then remaining else fst cc in
    let produced := src_produced s + count in
    Some (mkSource (src_address s) (clut_lookup r plane (Z.land format 0x7F)) (produced * src_scale s)
            (src_pixels s) produced (src_scale s) (snd cc) true)
  else
    let color := lget row x in
    Some (mkSource (src_address s) color (same_run row color (Z.to_nat w) (x + 1))
            (src_pixels s) (src_produced s) (src_scale s) (src_consumed s) false).

Definition matte_boundary (m : MatteCursor) (e : Z) : Z :=
  if (next m <? limit m)%nat then
    let position := Z.land (lget (matte_command r) (Z.of_nat (next m))) 0x3FF in
    if position <? e then position else e
  else e.
Definition scanout_matte_end (s : MatteState) : Z := matte_boundary (matte1 s) (matte_boundary (matte0 s) w).

(** The pixel of a span. *)
Definition span_pixel (raw_a raw_b : Z) (s : MatteState) : Drawn :=
  let a := apply_contribution raw_a (factor0 s) in
  let b := apply_contribution raw_b (factor1 s) in
  let transparent_a := transparent_pixel (plane_a r) raw_a (flag (matte0 s)) (flag (matte1 s)) in
  let transparent_b := transparent_pixel (plane_b r) raw_b (flag (matte0 s)) (flag (matte1 s)) in
  let front_transparent := if plane_b_front r then transparent_b else transparent_a in
  let back_transparent := if plane_b_front r then transparent_a else transparent_b in
  let verdict := u8 (Z.lor (if transparent_a then 1 else 0) (if transparent_b then 2 else 0)) in
  let '(pixel, verdict) :=
    if mixing r && negb transparent_a && negb transparent_b then (add_planes a b, Z.lor verdict 0x20)
    else if negb front_transparent
    then (Z.lor (if plane_b_front r then b else a) 0xFF000000, Z.lor verdict 0x04)
    else if negb back_transparent
    then (Z.lor (if plane_b_front r then a else b) 0xFF000000, Z.lor verdict 0x08)
    else (yrgb_color (backdrop r), Z.lor verdict 0x10) in
  mkDrawn pixel (Z.lor raw_a 0xFF000000) (Z.lor raw_b 0xFF000000) verdict.

Definition scanout_span (offset x e raw_a raw_b : Z) (s : MatteState) (f : Buffers) : Buffers :=
  put_drawn (offset + x) (replicate (Z.to_nat (e - x)) (span_pixel raw_a raw_b s)) f.

(** The decoded row of a direct source, filled up to [e]. *)
Definition keep_row (s : ScanoutSource) (x e : Z) (row : list Z) : list Z :=
  if direct s
  then take (Z.to_nat x) row ++ replicate (Z.to_nat (e - x)) (src_color s) ++ drop (Z.to_nat e) row
  else row.

Record Scanning := mkScanning {
  sc_a : ScanoutSource; sc_b : ScanoutSource; row_a : list Z; row_b : list Z;
  mattes : MatteState; sc_buffers : Buffers }.

Definition scanout_step (offset x : Z) (j : Scanning) : option (Z * Scanning) :=
  a ← scanout_next PLANE_A (row_a j) x (sc_a j);
  b ← scanout_next PLANE_B (row_b j) x (sc_b j);
  let s := apply_matte_commands r x (mattes j) in
  let e := if src_end a <? src_end b then src_end a else src_end b in
  let e := if scanout_matte_end s <? e then scanout_matte_end s else e in
  Some (e, mkScanning a b (keep_row a x e (row_a j)) (keep_row b x e (row_b j)) s
             (scanout_span offset x e (src_color a) (src_color b) s (sc_buffers j))).

(** The span loop, a turn for each span; spent fuel answers [None]. *)
Fixpoint scanout_loop (offset : Z) (fuel : nat) (x : Z) (j : Scanning) : option Scanning :=
  if x <? w then
    match fuel with
    | O => None
    | S fuel' =>
      next ← scanout_step offset x j;
      scanout_loop offset fuel' (fst next) (snd next)
    end
  else Some j.

(** The bytes used, the rows, the buffers, and whether a source fed the job
    directly. *)
Definition scanout_job (address_a address_b line width_a width_b : Z) (old_a old_b : list Z) (f : Buffers)
    : option (Z * Z * list Z * list Z * Buffers * bool) :=
  a ← scanout_source PLANE_A address_a address_a width_a old_a;
  b ← scanout_source PLANE_B address_b address_a width_b old_b;
  let offset := line_offset line in
  j ← scanout_loop offset (Z.to_nat w) 0
        (mkScanning (fst a) (fst b) (snd a) (snd b) (initialize_matte_state r) f);
  Some (if decide (coding (plane_b r) = CODING_RGB555) then src_consumed (sc_b j) else src_consumed (sc_a j),
        src_consumed (sc_b j), row_a j, row_b j, draw_cursor offset line (sc_buffers j),
        direct (fst a) || direct (fst b)).
End Line.

(** * Completed lines *)
Definition LINE_SOURCE_CAPACITY : Z := MCD212_VIDEO_MAX_WIDTH * 2.

(** The bytes a plane used, when they lie in one bank. *)
Definition line_source (ram0 ram1 : mem) (address count : Z) : option (list Z) :=
  if count =? 0 then Some []
  else if LINE_SOURCE_CAPACITY <? count then None
  else if (address <? CDI_RAM0_SIZE) && (count <=? CDI_RAM0_SIZE - address)
  then Some (u8 <$> mload ram0 address (Z.to_nat count))
  else if (CDI_RAM1_BASE <=? address) && (address - CDI_RAM1_BASE <? CDI_RAM1_SIZE) &&
          (count <=? CDI_RAM1_SIZE - (address - CDI_RAM1_BASE))
  then Some (u8 <$> mload ram1 (address - CDI_RAM1_BASE) (Z.to_nat count))
  else None.

Definition blinking (c : CursorSetup) : bool := cursor_enabled c && z2b (off_units c).

(** The registers a line is remembered under. *)
Definition line_key (r : VideoRegisters) : VideoRegisters :=
  if blinking (cursor r) then r else upd_cursor (set_start_field 0) r.

Definition eligible (r : VideoRegisters) (line : Z) : bool :=
  negb (bool_decide (coding (plane_b r) = CODING_RGB555)) &&
  negb (blinking (cursor r) && (cursor_y (cursor r) <=? line) && (line <? cursor_y (cursor r) + 16)).

Definition same_inputs (r : VideoRegisters) (a b wa wb : Z) (job : CompletedLine) : bool :=
  (address_a job =? a) && (address_b job =? b) && (width_a job =? wa) && (width_b job =? wb) &&
  bool_decide (job_registers job = line_key r).

Definition same_sources (ram0 ram1 : mem) (job : CompletedLine) : bool :=
  bool_decide (line_source ram0 ram1 (address_a job) (consumed_a job) = Some (source_a job)) &&
  bool_decide (line_source ram0 ram1 (address_b job) (consumed_b job) = Some (source_b job)).

(** The job of this line that can stand for a new one. *)
Definition reusable_job (ram0 ram1 : mem) (a b line wa wb : Z) (v : VideoPipeline) : option CompletedLine :=
  job ← completed_lines v !! line;
  if eligible (registers v) line && same_inputs (registers v) a b wa wb job && same_sources ram0 ram1 job
  then Some job else None.

(** The fused job on the pipeline. *)
Definition run_job (ram0 ram1 : mem) (a b line wa wb : Z) (v : VideoPipeline)
    : option ((Z * Z) * VideoPipeline) :=
  out ← scanout_job (dram_byte ram0 ram1) (registers v) (width v) (drawing v) (field v)
          a b line wa wb (decoded_a v) (decoded_b v) (buffers v);
  let '(used_a, used_b, rows_a, rows_b, f, fused) := out in
  let c := if (fused : bool) then count_fused (counters v) else counters v in
  Some ((used_a, used_b), set_counters c (set_buffers f (set_decoded_b rows_b (set_decoded_a rows_a v)))).

Definition remember_line (ram0 ram1 : mem) (a b line wa wb : Z) (used : Z * Z) (v : VideoPipeline)
    : VideoPipeline :=
  if negb (eligible (registers v) line) then v
  else
    match line_source ram0 ram1 a (fst used), line_source ram0 ram1 b (snd used) with
    | Some bytes_a, Some bytes_b =>
      set_completed (<[line := mkCompleted (line_key (registers v)) a b wa wb (fst used) (snd used)
                                 bytes_a bytes_b (decoded_a v) (decoded_b v)]> (completed_lines v)) v
    | _, _ => v
    end.

Definition reusable_line (ram0 ram1 : mem) (a b line wa wb : Z) (v : VideoPipeline)
    : option ((Z * Z) * VideoPipeline) :=
  match reusable_job ram0 ram1 a b line wa wb v with
  | Some job =>
    Some ((consumed_a job, consumed_b job),
          set_counters (count_reused (counters v))
            (set_decoded_b (job_decoded_b job) (set_decoded_a (job_decoded_a job) v)))
  | None =>
    let v := set_completed (delete line (completed_lines v)) v in
    out ← run_job ram0 ram1 a b line wa wb v;
    Some (fst out, remember_line ram0 ram1 a b line wa wb (fst out) (snd out))
  end.

(** The reference's line. *)
Definition reference_line (ram0 ram1 : mem) (a b line wa wb : Z) (v : VideoPipeline)
    : option ((Z * Z) * VideoPipeline) :=
  out ← decode_planes (dram_byte ram0 ram1) (registers v) (width v) a b wa wb;
  let '(used_a, used_b, rows_a, rows_b) := out in
  Some ((used_a, used_b),
        set_buffers (compose_line (registers v) (width v) (drawing v) (field v) (height v) line
                       rows_a rows_b (buffers v))
          (set_decoded_b rows_b (set_decoded_a rows_a v))).

Definition mcd212_video_draw_line (hle : bool) (ram0 ram1 : mem) (a b line wa wb : Z) (v : VideoPipeline)
    : option ((Z * Z) * VideoPipeline) :=
  let v := set_counters (count_scanout (counters v)) v in
  if hle && (line <? height v)
  then reusable_line ram0 ram1 a b line wa wb v
  else reference_line ram0 ram1 a b line wa wb v.

(** * Publication *)

(** The bytes of a pixel, low byte first. *)
Definition pixel_bytes (pixel : Z) : list Z :=
  [u8 pixel; u8 (Z.shiftr pixel 8); u8 (Z.shiftr pixel 16); u8 (Z.shiftr pixel 24)].
Definition hash_byte (hash byte : Z) : Z := u64 (Z.lxor hash byte * 0x00000100000001B3).
Definition hash_frame_bytes (pixels : list Z) : Z :=
  foldl hash_byte 0x14650FB0739D0383 (mjoin (pixel_bytes <$> pixels)).

(** The visible prefix of a buffer. *)
Definition visible (m : mem) (w h : Z) : list Z := mload m 0 (Z.to_nat (w * h)).

Definition same_geometry (v : VideoPipeline) : bool :=
  (width v =? published_width (publication v)) && (height v =? published_height (publication v)).

Definition mcd212_video_end_frame (hle : bool) (v : VideoPipeline) : VideoPipeline :=
  let p := publication v in
  let completed := drawing_buffer p in
  let pixels := visible (frame_of completed (buffers v)) (width v) (height v) in
  let same_pixels :=
    bool_decide (visible (frame_of (published_buffer p) (buffers v)) (width v) (height v) = pixels) in
  let same_content := negb (generation p =? 0) && same_pixels && same_geometry v in
  let hash := if same_content then published_hash p else hash_frame_bytes pixels in
  let content :=
    if hle && same_content then content_generation p else u64 (content_generation p + 1) in
  let p := mkPublication (width v) (height v) (negb completed) completed (u64 (generation p + 1))
             (u64 (publish_sequence p + 2)) (if hle then hash else published_hash p) content in
  let f := buffers v in
  let f :=
    if hle
    then if same_pixels then f
         else set_frame (negb completed) (mstore (frame_of (negb completed) f) 0 pixels) f
    else set_frame (negb completed) (frame_of completed f) f in
  set_buffers f (set_publication p v).

(** What an undisturbed reader answers. *)
Definition shown_frame (v : VideoPipeline) : list Z :=
  let p := publication v in
  visible (frame_of (published_buffer p) (buffers v)) (published_width p) (published_height p).

Definition mcd212_video_frame_hash (hle : bool) (v : VideoPipeline) : Z * Z * Z * Z :=
  let p := publication v in
  let hash :=
    if hle && negb (generation p =? 0) then published_hash p else hash_frame_bytes (shown_frame v) in
  (hash, published_width p, published_height p, generation p).

(** [capacity] pixels at [destination], when there is one; [None] is the abort. *)
Definition mcd212_video_copy_frame (destination : bool) (capacity : Z) (v : VideoPipeline)
    : option (option (list Z) * Z * Z * Z * Z) :=
  let p := publication v in
  let pixels := published_width p * published_height p in
  if destination && (capacity <? pixels) then None
  else Some (if destination then Some (shown_frame v) else None,
             pixels, published_width p, published_height p, generation p).

Definition mcd212_video_copy_changed_frame (destination : bool) (capacity previous_content : Z)
    (v : VideoPipeline) : option (option (list Z) * Z * Z * Z * Z * Z) :=
  let p := publication v in
  let copied :=
    if negb (generation p =? 0) && negb (content_generation p =? previous_content)
    then published_width p * published_height p else 0 in
  let copies := destination && negb (copied =? 0) in
  if copies && (capacity <? copied) then None
  else Some (if copies then Some (shown_frame v) else None,
             copied, published_width p, published_height p, generation p, content_generation p).

(** The rows the debugger reads; an empty row is the refusal. *)
Definition mcd212_video_debug_plane_row (plane y capacity : Z) (v : VideoPipeline) : list Z :=
  if (plane <? 0) || (2 <=? plane) || (height v <=? y) || (capacity <? width v) then []
  else mload (if plane =? PLANE_A then plane_frame_a (buffers v) else plane_frame_b (buffers v))
         (y * width v) (Z.to_nat (width v)).
Definition mcd212_video_debug_verdict_row (y capacity : Z) (v : VideoPipeline) : list Z :=
  if (height v <=? y) || (capacity <? width v) then []
  else mload (verdict_frame (buffers v)) (y * width v) (Z.to_nat (width v)).

(** * The pipeline as the display controller sees it

    After an abort there is no pipeline; the calls that follow are never made. *)
#[export] Instance pipeline_ops (hle : bool) : VideoOps (option VideoPipeline) := {|
  video_reset := fun _ => Some mcd212_video_reset;
  video_control := fun plane instruction v => v ≫= mcd212_video_control plane instruction;
  video_begin_frame := fun width height interlaced v => v ≫= mcd212_video_begin_frame hle width height interlaced;
  video_draw_line := fun ram0 ram1 a b line wa wb v =>
    match v ≫= mcd212_video_draw_line hle ram0 ram1 a b line wa wb with
    | Some (used, v) => (used, Some v)
    | None => ((0, 0), None)
    end;
  video_end_frame := fun v => mcd212_video_end_frame hle <$> v;
|}.

(** ** A run of calls *)
Inductive VideoOp :=
| OpControl (plane instruction : Z)
| OpBegin (base_width base_height : Z) (interlaced : bool)
| OpLine (ram0 ram1 : mem) (a b line wa wb : Z)
| OpEnd.

(** The pipeline after the calls and the bytes their lines used. *)
Fixpoint run_video (hle : bool) (ops : list VideoOp) (v : VideoPipeline)
    : option (list (Z * Z) * VideoPipeline) :=
  match ops with
  | [] => Some ([], v)
  | OpControl plane instruction :: ops =>
    v ← mcd212_video_control plane instruction v;
    run_video hle ops v
  | OpBegin w h i :: ops =>
    v ← mcd212_video_begin_frame hle w h i v;
    run_video hle ops v
  | OpLine ram0 ram1 a b line wa wb :: ops =>
    out ← mcd212_video_draw_line hle ram0 ram1 a b line wa wb v;
    rest ← run_video hle ops (snd out);
    Some (fst out :: fst rest, snd rest)
  | OpEnd :: ops => run_video hle ops (mcd212_video_end_frame hle v)
  end.
