(* ===== verification/VideoSpec.v ===== *)
(** Lemmas on the image decoders: how many pixels a row has, on which bytes it
    depends, and that decoders end inside their row. *)

From Stdlib Require Import ZArith Lia Bool.
From stdpp Require Import base tactics numbers list gmap.
From S2P Require Import Prelude Mcd212 Video.
Open Scope Z_scope.

Ltac opt :=
  repeat match goal with
  | H : mbind _ _ = Some _ |- _ => apply bind_Some in H as (? & ? & H)
  | H : Some _ = Some _ |- _ => injection H as H
  | H : (_, _) = (_, _) |- _ => injection H as H
  end; subst.

(** A memory of bytes. *)
Definition byte_fetch (f : Z -> option Z) : Prop := forall a b, f a = Some b -> is_u8 b.
Lemma dram_byte_fetch ram0 ram1 : byte_fetch (dram_byte ram0 ram1).
Proof.
  intros a b. unfold dram_byte. destruct (_ <? _); [intros [= <-]; apply u8_range|].
  destruct (_ && _); [intros [= <-]; apply u8_range|done].
Qed.

(** Two memories that agree on [n] bytes from [address]. *)
Definition agrees (f g : Z -> option Z) (address n : Z) : Prop :=
  forall i, 0 <= i < n -> f (u32 (address + i)) = g (u32 (address + i)).

Lemma agrees_0 f g address n : agrees f g address n -> 0 < n -> f (u32 address) = g (u32 address).
Proof. intros H Hn. specialize (H 0). rewrite Z.add_0_r in H. apply H. lia. Qed.
Lemma agrees_S f g address n m : agrees f g address n -> m + 1 <= n -> agrees f g (address + 1) m.
Proof. intros H Hn i Hi. replace (address + 1 + i) with (address + (i + 1)) by lia. apply H. lia. Qed.
Lemma agrees_mono f g address n m : agrees f g address n -> m <= n -> agrees f g address m.
Proof. intros H Hn i Hi. apply H. lia. Qed.
Lemma agrees_refl f address n : agrees f f address n.
Proof. by intros i Hi. Qed.

Lemma length_doubled d c : Z.of_nat (length (doubled d c)) = if d then 2 else 1.
Proof. by destruct d. Qed.
Lemma length_repeated n l : Z.of_nat (length (repeated n l)) = Z.max 0 n * Z.of_nat (length l).
Proof.
  unfold repeated. replace (Z.max 0 n) with (Z.of_nat (Z.to_nat n)) by lia.
  induction (Z.to_nat n) as [|k IH]; [done|].
  change (mjoin (replicate (S k) l)) with (l ++ mjoin (replicate k l)). rewrite length_app. lia.
Qed.

Section Lengths.
Context (f : Z -> option Z) (r : VideoRegisters) (Hf : byte_fetch f).

Lemma clut4_loop_length plane pixels n address out l :
  clut4_loop f r plane pixels n address out = Some l -> out + 2 * Z.of_nat n <= pixels + 1 ->
  Z.of_nat (length l) = Z.min (2 * Z.of_nat n) (Z.max (Z.of_nat n) (pixels - out)).
Proof.
  revert address out l. induction n as [|n IH]; intros address out l H Hn; cbn [clut4_loop] in H; opt.
  - cbn. lia.
  - apply IH in H1; destruct (Z.ltb_spec (out + 1) pixels); cbn [length app] in *; lia.
Qed.
Lemma clut_loop_length plane mask d n address l :
  clut_loop f r plane mask d n address = Some l ->
  Z.of_nat (length l) = Z.of_nat n * (if d then 2 else 1).
Proof.
  revert address l. induction n as [|n IH]; intros address l H; cbn [clut_loop] in H; opt; [done|].
  apply IH in H1. rewrite length_app, Nat2Z.inj_add, length_doubled. destruct d; lia.
Qed.
Lemma rgb555_loop_length n address_a address_b l :
  rgb555_loop f n address_a address_b = Some l -> Z.of_nat (length l) = 2 * Z.of_nat n.
Proof.
  revert address_a address_b l. induction n as [|n IH]; intros * H; cbn [rgb555_loop] in H; opt; [done|].
  apply IH in H2. cbn [length]. lia.
Qed.
Lemma dyuv_loop_length d pixels n address i y u v l :
  dyuv_loop f d pixels n address i y u v = Some l -> i + 2 * Z.of_nat n <= pixels + 1 ->
  Z.of_nat (length l) =
  Z.min (2 * Z.of_nat n) (Z.max (Z.of_nat n) (pixels - i)) * (if d then 2 else 1).
Proof.
  revert i y u v l. induction n as [|n IH]; intros * H Hn; cbn [dyuv_loop] in H; opt.
  - cbn. lia.
  - apply IH in H2; [|lia]. rewrite !length_app, !Nat2Z.inj_add, length_doubled.
    destruct (Z.ltb_spec (i + 1) pixels); rewrite ?length_doubled; cbn [length]; destruct d; lia.
Qed.

Lemma run_code_pixels plane address output paired d consumed x rep c l :
  run_code f r plane address output paired d consumed x = Some (rep, c, l) -> x < output ->
  consumed < c <= consumed + 2 /\ 0 <= rep /\
  Z.of_nat (length l) = rep * (if paired then 2 else if d then 2 else 1) /\
  (if paired then x + 2 * rep <= output else x + rep <= output).
Proof.
  intros H Hx. unfold run_code in H.
  apply bind_Some in H as (format & Hformat & H). cbv zeta in H.
  apply bind_Some in H as ([count c0] & Hcount & H). injection H as <- <- <-. cbn [fst snd] in *.
  set (left := if paired then (output - x) / 2 else output - x) in *.
  assert (Hleft : 0 <= left) by (subst left; destruct paired; zlia).
  assert (consumed < c0 <= consumed + 2 /\ 0 <= count) as [Hc Hn].
  { destruct (z2b (Z.land format 128)); [|injection Hcount as <- <-; lia].
    apply bind_Some in Hcount as (b & Hb & Hcount). injection Hcount as <- <-.
    apply Hf in Hb. destruct (Z.eqb_spec b 0); unfold is_word in Hb; lia. }
  assert (Hm := Z.le_min_r count left). split; [done|]. split; [lia|].
  destruct paired; rewrite length_repeated; [split; [cbn; lia|subst left; zlia]|].
  rewrite length_doubled. split; [destruct d; lia|subst left; lia].
Qed.

Lemma run_loop_length plane address output paired d fuel consumed x c l :
  run_loop f r plane address output paired d fuel consumed x = Some (c, l) -> x <= output ->
  consumed <= c <= consumed + 2 * Z.of_nat fuel /\
  (output - x) * (if paired then 1 else if d then 2 else 1) = Z.of_nat (length l).
Proof.
  revert consumed x c l. induction fuel as [|fuel IH]; intros consumed x c l H Hx; cbn [run_loop] in H.
  - destruct (Z.ltb_spec x output); opt; [done|]. cbn. destruct paired, d; lia.
  - destruct (Z.ltb_spec x output); [|opt; cbn; destruct paired, d; lia].
    apply bind_Some in H as ([[rep c0] px] & Hcode & H). apply bind_Some in H as ([c1 l1] & Hrest & H).
    injection H as <- <-. apply run_code_pixels in Hcode as (Hc & Hrep0 & Hl & Hrep); [|done].
    cbn [fst snd] in *. apply IH in Hrest as (Hc1 & Hl1); [|destruct paired; lia].
    rewrite length_app, Nat2Z.inj_add, Hl. split; [lia|]. destruct paired, d; lia.
Qed.
End Lengths.

(** * The bytes a row depends on *)
Section Locality.
Context (f g : Z -> option Z) (r : VideoRegisters).

Lemma clut4_loop_ext plane pixels n address out :
  agrees f g address (Z.of_nat n) ->
  clut4_loop f r plane pixels n address out = clut4_loop g r plane pixels n address out.
Proof.
  revert address out. induction n as [|n IH]; intros address out H; [done|]. cbn [clut4_loop].
  rewrite (agrees_0 _ _ _ _ H) by lia. destruct (g _); [cbn [mbind option_bind]|done].
  rewrite IH; [done|]. eapply agrees_S; [exact H|lia].
Qed.
Lemma clut_loop_ext plane mask d n address :
  agrees f g address (Z.of_nat n) ->
  clut_loop f r plane mask d n address = clut_loop g r plane mask d n address.
Proof.
  revert address. induction n as [|n IH]; intros address H; [done|]. cbn [clut_loop].
  rewrite (agrees_0 _ _ _ _ H) by lia. destruct (g _); [cbn [mbind option_bind]|done].
  rewrite IH; [done|]. eapply agrees_S; [exact H|lia].
Qed.
Lemma dyuv_loop_ext d pixels n address i y u v :
  0 <= i -> agrees f g address (i + 2 * Z.of_nat n) ->
  dyuv_loop f d pixels n address i y u v = dyuv_loop g d pixels n address i y u v.
Proof.
  revert i y u v. induction n as [|n IH]; intros * Hi H; [done|]. cbn [dyuv_loop].
  rewrite (H i) by lia. destruct (g _); [cbn [mbind option_bind]|done].
  replace (address + i + 1) with (address + (i + 1)) by lia.
  rewrite (H (i + 1)) by lia. destruct (g _); [cbn [mbind option_bind]|done].
  rewrite IH; [done|lia|]. eapply agrees_mono; [exact H|lia].
Qed.
Lemma rgb555_loop_ext n address_a address_b :
  agrees f g address_a (Z.of_nat n) -> agrees f g address_b (Z.of_nat n) ->
  rgb555_loop f n address_a address_b = rgb555_loop g n address_a address_b.
Proof.
  revert address_a address_b. induction n as [|n IH]; intros address_a address_b Ha Hb; [done|].
  cbn [rgb555_loop].
  rewrite (agrees_0 _ _ _ _ Ha) by lia. destruct (g _); [cbn [mbind option_bind]|done].
  rewrite (agrees_0 _ _ _ _ Hb) by lia. destruct (g _); [cbn [mbind option_bind]|done].
  rewrite IH; [done|eapply agrees_S; [exact Ha|lia]|eapply agrees_S; [exact Hb|lia]].
Qed.
(** A code of one byte needs only that byte. *)
Lemma run_code_ext_1 plane address output paired d consumed x rep c l :
  0 <= consumed -> run_code f r plane address output paired d consumed x = Some (rep, c, l) ->
  agrees f g address c -> run_code g r plane address output paired d consumed x = Some (rep, c, l).
Proof.
  intros Hc H Ha. unfold run_code in *.
  apply bind_Some in H as (format & Hformat & H). cbv zeta in H.
  apply bind_Some in H as ([count c0] & Hcount & H). injection H as <- <- <-. cbn [fst snd] in *.
  assert (consumed < c0 /\ (z2b (Z.land format 128) = true -> consumed + 1 < c0)) as [H1 H2].
  { destruct (z2b (Z.land format 128)).
    - apply bind_Some in Hcount as (b & Hb & Hcount). injection Hcount as <- <-. lia.
    - injection Hcount as <- <-. split; [lia|done]. }
  rewrite <- (Ha consumed), Hformat by lia. cbn [mbind option_bind]. cbv zeta.
  destruct (z2b (Z.land format 128)).
  - rewrite <- (Ha (consumed + 1)) by (specialize (H2 eq_refl); lia).
    by rewrite Hcount.
  - by rewrite Hcount.
Qed.

Lemma run_loop_ext plane address output paired d fuel consumed x c l :
  byte_fetch f -> 0 <= consumed -> x <= output ->
  run_loop f r plane address output paired d fuel consumed x = Some (c, l) ->
  agrees f g address c -> run_loop g r plane address output paired d fuel consumed x = Some (c, l).
Proof.
  intros Hf. revert consumed x c l. induction fuel as [|fuel IH]; intros consumed x c l Hc Hx H Ha;
    cbn [run_loop] in *.
  - by destruct (x <? output).
  - destruct (Z.ltb_spec x output); [|done].
    apply bind_Some in H as ([[rep c0] px] & Hcode & H). apply bind_Some in H as ([c1 l1] & Hrest & H).
    injection H as <- <-. cbn [fst snd] in *.
    pose proof (run_code_pixels f r Hf _ _ _ _ _ _ _ _ _ _ Hcode ltac:(done)) as (Hc0 & Hrep & _ & Hx').
    assert (Hx1 : x + (if paired then 2 * rep else rep) <= output) by (destruct paired; lia).
    pose proof (run_loop_length f r Hf _ _ _ _ _ _ _ _ _ _ Hrest Hx1) as (Hc1 & _).
    rewrite (run_code_ext_1 _ _ _ _ _ _ _ _ _ _ Hc Hcode) by (eapply agrees_mono; [exact Ha|lia]).
    assert (Hc0' : 0 <= c0) by lia.
    cbn [mbind option_bind]. by rewrite (IH _ _ _ _ Hc0' Hx1 Hrest Ha).
Qed.
End Locality.

Lemma row_of_Some l row :
  row_of l = Some row ->
  Z.of_nat (length l) <= 768 /\ row = l ++ replicate (Z.to_nat 768 - length l) 0 /\ length row = 768%nat.
Proof.
  unfold row_of, MCD212_VIDEO_MAX_WIDTH. destruct (Z.leb_spec (Z.of_nat (length l)) 768); [|done].
  intros [= <-]. split; [done|]. split; [done|]. rewrite length_app, length_replicate. lia.
Qed.

Section Planes.
Context (f g : Z -> option Z) (r : VideoRegisters) (Hf : byte_fetch f).

Lemma decode_run_length_ext plane address output n l :
  decode_run_length f r plane address output = Some (n, l) -> Z.of_nat (length l) <= 768 ->
  0 <= output -> agrees f g address n -> decode_run_length g r plane address output = Some (n, l).
Proof.
  unfold decode_run_length. cbv zeta. intros H Hl Ho Ha.
  apply bind_Some in H as ([c l0] & H & E). injection E as <- <-. cbn [fst snd] in *.
  pose proof (run_loop_length f r Hf _ _ _ _ _ _ _ _ _ _ H Ho) as (Hc & Hx).
  assert (output <= 768) by (destruct (bool_decide _); [lia|destruct (negb _ && _); lia]).
  rewrite (u16_id c) in Ha by (unfold is_word; lia).
  rewrite (run_loop_ext f g r _ _ _ _ _ _ _ _ _ _ Hf (Z.le_refl 0) Ho H Ha). done.
Qed.

Lemma decode_clut_ext plane address pixels d n l :
  decode_clut f r plane address pixels d = Some (n, l) -> Z.of_nat (length l) <= 768 ->
  0 <= pixels -> agrees f g address n -> decode_clut g r plane address pixels d = Some (n, l).
Proof.
  unfold decode_clut. cbv zeta. intros H Hl Hp Ha. destruct (decide _).
  - apply bind_Some in H as (l0 & H & E). injection E as <- <-.
    pose proof (clut4_loop_length f r _ _ _ _ _ _ H ltac:(zlia)) as Hlen.
    rewrite (u16_id ((pixels + 1) / 2)) in Ha by (unfold is_word; zlia).
    rewrite <- (clut4_loop_ext f g r) by (eapply agrees_mono; [exact Ha|zlia]). by rewrite H.
  - apply bind_Some in H as (l0 & H & E). injection E as <- <-.
    rewrite <- (clut_loop_ext f g r) by (eapply agrees_mono; [exact Ha|lia]). by rewrite H.
Qed.

Lemma even_ceiling x : Z.land (x + 1) (Z.lnot 1) = 2 * ((x + 1) / 2).
Proof.
  rewrite <- Z.ldiff_land. change 1 with (Z.ones 1) at 2. rewrite Z.ldiff_ones_r by lia.
  rewrite Z.shiftl_mul_pow2, Z.shiftr_div_pow2 by lia. change (2 ^ 1) with 2. lia.
Qed.

Lemma decode_dyuv_ext plane address pixels d n l :
  decode_dyuv f r plane address pixels d = Some (n, l) -> Z.of_nat (length l) <= 768 ->
  0 <= pixels -> agrees f g address n -> decode_dyuv g r plane address pixels d = Some (n, l).
Proof.
  unfold decode_dyuv. cbv zeta. intros H Hl Hp Ha.
  apply bind_Some in H as (l0 & H & E). injection E as <- <-.
  pose proof (dyuv_loop_length f _ _ _ _ _ _ _ _ _ H ltac:(zlia)) as Hlen.
  rewrite even_ceiling, u16_id in Ha by (unfold is_word; destruct d; zlia).
  rewrite <- (dyuv_loop_ext f g) by first [lia | eapply agrees_mono; [exact Ha|zlia]]. by rewrite H.
Qed.

Lemma decode_rgb555_ext address_a address pixels n l :
  decode_rgb555 f address_a address pixels = Some (n, l) -> 0 <= pixels ->
  agrees f g address_a n -> agrees f g address n -> decode_rgb555 g address_a address pixels = Some (n, l).
Proof.
  unfold decode_rgb555. intros H Hp Ha Hb. apply bind_Some in H as (l0 & H & E). injection E as <- <-.
  rewrite <- (rgb555_loop_ext f g) by (eapply agrees_mono; [eassumption|lia]). by rewrite H.
Qed.

(** A plane reads only the bytes it reports, RGB555 on both planes. *)
Lemma decode_plane_ext w plane address address_a source n row :
  0 <= w -> 0 <= source ->
  decode_plane f r w plane address address_a source = Some (n, row) -> agrees f g address n ->
  (coding (plane_setup plane r) = CODING_RGB555 -> agrees f g address_a n) ->
  decode_plane g r w plane address address_a source = Some (n, row).
Proof.
  intros Hw Hs H Ha Hrgb. unfold decode_plane in *. cbv zeta in *.
  destruct (decide (coding _ = CODING_OFF)); [done|].
  set (sw := if wide_source _ then w else source) in *.
  assert (Hsw : 0 <= sw) by (subst sw; destruct (wide_source _); lia).
  destruct (decide (file_type _ = FILE_RUN_LENGTH)).
  - apply bind_Some in H as ([c l] & H & E). apply bind_Some in E as (row0 & Erow & E).
    injection E as <- <-. cbn [fst snd] in *. pose proof (row_of_Some _ _ Erow) as (Hl & _ & _).
    rewrite (decode_run_length_ext _ _ _ _ _ H Hl Hsw Ha). cbn [mbind option_bind snd]. by rewrite Erow.
  - apply bind_Some in H as ([c l] & H & E). apply bind_Some in E as (row0 & Erow & E).
    injection E as <- <-. cbn [fst snd] in *. pose proof (row_of_Some _ _ Erow) as (Hl & _ & _).
    set (m := if decide (file_type _ = FILE_MOSAIC) then _ else 1) in *.
    set (px := if 1 <? m then _ else sw) in *.
    assert (Hpx : 0 <= px) by (subst px; destruct (1 <? m); [apply u16_range|done]).
    match goal with |- mbind ?K ?M = _ => assert (EM : M = Some (c, l)); [|rewrite EM] end.
    + destruct (coding (plane_setup plane r)) eqn:Ec; try done;
        eauto using decode_clut_ext, decode_dyuv_ext, decode_rgb555_ext.
    + cbn [mbind option_bind snd]. rewrite Erow. done.
Qed.

Lemma length_mosaic_loop m n row : length (mosaic_loop m n row) = length row.
Proof. revert row. induction n as [|n IH]; intros row; [done|]. cbn [mosaic_loop]. by rewrite IH, length_lset. Qed.
Lemma length_hold_group start x n row : length (hold_group start x n row) = length row.
Proof. revert x row. induction n as [|n IH]; intros x row; [done|]. cbn [hold_group]. by rewrite IH, length_lset. Qed.
Lemma length_hold_loop w c fuel start row : length (hold_loop w c fuel start row) = length row.
Proof.
  revert start row. induction fuel as [|n IH]; intros start row; [done|]. cbn [hold_loop].
  destruct (_ <? _); [|done]. by rewrite IH, length_hold_group.
Qed.
Lemma length_apply_pixel_hold w plane row row' :
  apply_pixel_hold r w plane row = Some row' -> length row' = length row.
Proof.
  unfold apply_pixel_hold. cbv zeta. destruct (negb _); [by intros [= <-]|].
  destruct (_ =? _); [done|]. intros [= <-]. apply length_hold_loop.
Qed.
Lemma decode_plane_length w plane address address_a source n row :
  decode_plane f r w plane address address_a source = Some (n, row) -> length row = 768%nat.
Proof.
  unfold decode_plane. cbv zeta. destruct (decide (coding _ = CODING_OFF)).
  - intros E. apply bind_Some in E as (row0 & Erow & E). injection E as <- <-.
    by apply row_of_Some in Erow as (_ & _ & ?).
  - destruct (decide _); intros E; apply bind_Some in E as (x & _ & E);
      apply bind_Some in E as (row0 & Erow & E); injection E as <- <-;
      apply row_of_Some in Erow as (_ & _ & ?); [done|].
    destruct (_ <? _); [by rewrite length_mosaic_loop|done].
Qed.
End Planes.

(** * Closed forms of the in-place loops *)
Lemma mosaic_loop_exact m n row x :
  1 <= m -> Z.of_nat n <= Z.of_nat (length row) -> 0 <= x ->
  lget (mosaic_loop m n row) x = if x <? Z.of_nat n then lget row (x / m) else lget row x.
Proof.
  intros Hm. revert row. induction n as [|n IH]; intros row Hn Hx; cbn [mosaic_loop].
  - by destruct (Z.ltb_spec x (Z.of_nat 0)); [lia|].
  - rewrite IH by (rewrite ?length_lset; lia). assert (Hq : 0 <= x / m <= x) by (split; [apply Z.div_pos; lia|apply Z.div_le_upper_bound; nia]).
    destruct (Z.ltb_spec x (Z.of_nat n)), (Z.ltb_spec x (Z.of_nat (S n))); try lia.
    + apply lget_lset_ne; lia.
    + replace x with (Z.of_nat n) by lia. apply lget_lset_eq. lia.
    + apply lget_lset_ne; lia.
Qed.

Lemma hold_group_exact start x n row y :
  0 <= start < x -> x + Z.of_nat n <= Z.of_nat (length row) -> 0 <= y ->
  lget (hold_group start x n row) y =
  if (x <=? y) && (y <? x + Z.of_nat n) then lget row start else lget row y.
Proof.
  revert x row. induction n as [|n IH]; intros x row Hx Hn Hy; cbn [hold_group].
  - destruct (Z.leb_spec x y), (Z.ltb_spec y (x + Z.of_nat 0)); cbn; done || lia.
  - rewrite IH by (rewrite ?length_lset; lia). rewrite (lget_lset_ne _ x start) by lia.
    destruct (Z.leb_spec (x + 1) y), (Z.leb_spec x y), (Z.ltb_spec y (x + 1 + Z.of_nat n)),
      (Z.ltb_spec y (x + Z.of_nat (S n))); cbn [andb]; try lia; try done;
      try (apply lget_lset_ne; lia).
    replace y with x by lia. apply lget_lset_eq. lia.
Qed.

Lemma hold_loop_exact w c fuel start row y :
  1 <= c -> 0 <= start -> w <= Z.of_nat (length row) -> w - start <= Z.of_nat fuel -> 0 <= y ->
  lget (hold_loop w c fuel start row) y =
  if (start <=? y) && (y <? w) then lget row (start + (y - start) / c * c) else lget row y.
Proof.
  intros Hc. revert start row. induction fuel as [|fuel IH]; intros start row Hs Hw Hfuel Hy;
    cbn [hold_loop].
  - destruct (Z.leb_spec start y), (Z.ltb_spec y w); cbn; done || lia.
  - destruct (Z.ltb_spec start w) as [Hlt|Hge].
    2: destruct (Z.leb_spec start y), (Z.ltb_spec y w); cbn; done || lia.
    set (fin := if w <? start + c then w else start + c).
    assert (Hfin : fin = Z.min w (start + c)) by (subst fin; destruct (Z.ltb_spec w (start + c)); lia).
    rewrite IH; [|lia|rewrite length_hold_group; lia|lia|lia].
    assert (Hgroup : forall z, 0 <= z -> lget (hold_group start (start + 1) (Z.to_nat (fin - (start + 1))) row) z =
      if (start + 1 <=? z) && (z <? fin) then lget row start else lget row z).
    { intros z Hz. rewrite hold_group_exact by lia.
      by replace (start + 1 + Z.of_nat (Z.to_nat (fin - (start + 1)))) with fin by lia. }
    destruct (Z.leb_spec (start + c) y) as [Hy1|Hy1]; cbn [andb].
    + pose proof (Z.div_mod (y - start) c ltac:(lia)). pose proof (Z.mod_pos_bound (y - start) c ltac:(lia)).
      assert (Hd : (y - (start + c)) / c = (y - start) / c - 1).
      { replace (y - (start + c)) with (y - start + (-1) * c) by lia. rewrite Z.div_add by lia. lia. }
      rewrite Hd. replace (start + c + ((y - start) / c - 1) * c) with (start + (y - start) / c * c) by lia.
      assert (1 <= (y - start) / c) by (apply Z.div_le_lower_bound; lia).
      rewrite !Hgroup by nia. replace (start <=? y) with true by lia. cbn [andb].
      destruct (Z.ltb_spec y w).
      * replace (_ <? fin) with false by nia. by rewrite andb_false_r.
      * replace (y <? fin) with false by lia. by rewrite andb_false_r.
    + destruct (Z.leb_spec start y) as [Hsy|Hsy]; cbn [andb].
      2: { rewrite Hgroup by lia. by replace (start + 1 <=? y) with false by lia. }
      rewrite Hgroup by lia. rewrite (Z.div_small (y - start) c) by lia. rewrite Z.mul_0_l, Z.add_0_r.
      destruct (Z.leb_spec (start + 1) y), (Z.ltb_spec y fin), (Z.ltb_spec y w); cbn [andb];
        try lia; try done; f_equal; lia.
Qed.

(** * Decoders answer, within their row *)
Section Total.
Context (f : Z -> option Z) (r : VideoRegisters) (Hf : byte_fetch f).
Context (Hall : forall a, is_Some (f a)).

Ltac byte := match goal with |- context [f ?a] => destruct (Hall a) as [? ->]; cbn [mbind option_bind] end.

Lemma clut4_loop_total plane pixels n address out : is_Some (clut4_loop f r plane pixels n address out).
Proof.
  revert address out. induction n as [|n IH]; intros address out; [done|]. cbn [clut4_loop]. byte.
  match goal with |- context [clut4_loop f r plane pixels n ?a ?o] => destruct (IH a o) as [? ->] end. done.
Qed.
Lemma clut_loop_total plane mask d n address : is_Some (clut_loop f r plane mask d n address).
Proof.
  revert address. induction n as [|n IH]; intros address; [done|]. cbn [clut_loop]. byte.
  destruct (IH (address + 1)) as [? ->]. done.
Qed.
Lemma rgb555_loop_total n address_a address_b : is_Some (rgb555_loop f n address_a address_b).
Proof.
  revert address_a address_b. induction n as [|n IH]; intros *; [done|]. cbn [rgb555_loop]. byte. byte.
  destruct (IH (address_a + 1) (address_b + 1)) as [? ->]. done.
Qed.
Lemma dyuv_loop_total d pixels n address i y u v : is_Some (dyuv_loop f d pixels n address i y u v).
Proof.
  revert i y u v. induction n as [|n IH]; intros *; [done|]. cbn [dyuv_loop]. byte. byte.
  match goal with |- context [dyuv_loop f d pixels n address ?i ?y ?u ?v] => destruct (IH i y u v) as [? ->] end.
  done.
Qed.

Lemma run_code_total plane address output (paired d : bool) consumed x :
  x < output -> (paired = true -> Z.Even (output - x)) ->
  exists rep c l, run_code f r plane address output paired d consumed x = Some (rep, c, l) /\ 1 <= rep.
Proof.
  intros Hx He. unfold run_code. destruct (Hall (u32 (address + consumed))) as [format ->].
  cbn [mbind option_bind]. cbv zeta.
  set (left := if paired then (output - x) / 2 else output - x).
  assert (Hleft : 1 <= left).
  { subst left. destruct paired; [|lia]. destruct (He eq_refl) as [k Hk]. zlia. }
  destruct (z2b (Z.land format 128)).
  - destruct (f (u32 (address + (consumed + 1)))) as [b|] eqn:Eb.
    2: { destruct (Hall (u32 (address + (consumed + 1)))); congruence. }
    cbn [mbind option_bind fst snd]. do 3 eexists. split; [done|].
    apply Hf in Eb. unfold is_word in Eb. destruct (Z.eqb_spec b 0); lia.
  - cbn [mbind option_bind fst snd]. do 3 eexists. split; [done|]. lia.
Qed.

Lemma run_line_total plane address output (paired d : bool) fuel consumed x :
  x <= output -> output - x <= Z.of_nat fuel -> (paired = true -> Z.Even (output - x)) ->
  is_Some (run_loop f r plane address output paired d fuel consumed x).
Proof.
  revert consumed x. induction fuel as [|fuel IH]; intros consumed x Hx Hfuel He; cbn [run_loop].
  - by destruct (Z.ltb_spec x output); [lia|].
  - destruct (Z.ltb_spec x output) as [Hlt|]; [|done].
    destruct (run_code_total plane address output paired d consumed x Hlt He) as (rep & c & l & Ec & Hrep).
    pose proof (run_code_pixels f r Hf _ _ _ _ _ _ _ _ _ _ Ec Hlt) as (_ & _ & _ & Hx1).
    rewrite Ec. cbn [mbind option_bind].
    destruct (IH c (x + (if paired then 2 * rep else rep))) as [rest ->]; [destruct paired; lia| | |done].
    + destruct paired; lia.
    + intros ->. destruct (He eq_refl) as [k Hk]. exists (k - rep). lia.
Qed.

(** The fuel of a row is enough: a turn writes at least a pixel. *)
Lemma run_loop_fuel plane address output (paired d : bool) fuel more consumed x :
  x <= output -> output - x <= Z.of_nat fuel -> (paired = true -> Z.Even (output - x)) ->
  run_loop f r plane address output paired d (fuel + more) consumed x =
  run_loop f r plane address output paired d fuel consumed x.
Proof.
  revert consumed x. induction fuel as [|fuel IH]; intros consumed x Hx Hfuel He; cbn [run_loop Nat.add].
  - destruct more; cbn [run_loop]; by destruct (Z.ltb_spec x output); [lia|].
  - destruct (Z.ltb_spec x output) as [Hlt|]; [|done].
    destruct (run_code_total plane address output paired d consumed x Hlt He) as (rep & c & l & Ec & Hrep).
    pose proof (run_code_pixels f r Hf _ _ _ _ _ _ _ _ _ _ Ec Hlt) as (_ & _ & _ & Hx1).
    rewrite Ec. cbn [mbind option_bind]. rewrite IH; [done|destruct paired; lia|destruct paired; lia|].
    intros ->. destruct (He eq_refl) as [k Hk]. exists (k - rep). lia.
Qed.

Lemma row_of_total l : Z.of_nat (length l) <= 768 -> exists row, row_of l = Some row /\ length row = 768%nat.
Proof.
  intros Hl. destruct (row_of l) as [row|] eqn:E.
  - exists row. split; [done|]. by apply row_of_Some in E as (_ & _ & ?).
  - unfold row_of, MCD212_VIDEO_MAX_WIDTH in E. destruct (Z.leb_spec (Z.of_nat (length l)) 768); [done|lia].
Qed.

(** A display line: the width is at most the row's and even, as paired codes need. *)
Definition display_line (w plane source : Z) : Prop :=
  w <= 768 /\ Z.Even w /\ 0 <= source <= 768 /\ 0 <= w /\ 0 <= mosaic_repeat (plane_setup plane r).

(** The pixels [decode_plane] asks a fixed-length decoder for. *)
Definition decoded_pixels (setup : PlaneSetup) (source : Z) : Z :=
  let m := if decide (file_type setup = FILE_MOSAIC) then mosaic_repeat setup else 1 in
  if 1 <? m then u16 ((source + m - 1) / m) else source.
(** RGB555 always doubles its pixels: more than half a row of them leave it. *)
Definition rgb555_overflows (setup : PlaneSetup) (source : Z) : bool :=
  bool_decide (coding setup = CODING_RGB555) && negb (bool_decide (file_type setup = FILE_RUN_LENGTH)) &&
  (384 <? decoded_pixels setup source).

Lemma mosaic_pixels m source : 0 <= source <= 768 ->
  let px := if 1 <? m then u16 ((source + m - 1) / m) else source in 0 <= px <= source.
Proof.
  intros Hs px. subst px. destruct (Z.ltb_spec 1 m) as [Hm|]; [|lia].
  assert (0 <= (source + m - 1) / m <= source).
  { split; [apply Z.div_pos; lia|]. apply Z.lt_succ_r. apply Z.div_lt_upper_bound; [lia|nia]. }
  rewrite u16_id by (unfold is_word; lia). done.
Qed.

Lemma decode_plane_total w plane address address_a source :
  display_line w plane source -> rgb555_overflows (plane_setup plane r) source = false ->
  exists n row, decode_plane f r w plane address address_a source = Some (n, row) /\
    length row = 768%nat /\ 0 <= n <= 1536.
Proof.
  intros (Hw & Hev & Hs & Hw0 & Hm0) Hrgb. unfold decode_plane. cbv zeta.
  destruct (decide (coding _ = CODING_OFF)).
  { destruct (row_of_total []) as (row & -> & Hl); [done|]. cbn [mbind option_bind]. eauto with lia. }
  set (sw := if wide_source _ then w else source).
  assert (Hsw : 0 <= sw <= 768) by (subst sw; destruct (wide_source _); lia).
  destruct (decide (file_type _ = FILE_RUN_LENGTH)) as [Hft|Hft].
  - unfold decode_run_length. cbv zeta. set (paired := bool_decide _).
    assert (He : paired = true -> Z.Even (sw - 0)).
    { intros Hp. subst paired sw. apply bool_decide_eq_true in Hp. unfold wide_source. rewrite Hft, Hp. cbn.
      by rewrite Z.sub_0_r. }
    destruct (run_line_total plane address sw paired (negb paired && (sw <=? 384)) (Z.to_nat sw) 0 0)
      as [[c l] E]; [lia|lia|done|]. rewrite E. cbn [mbind option_bind fst snd].
    apply run_loop_length in E as [Hc Hl]; [|done|lia].
    destruct (row_of_total l) as (row & -> & Hlen).
    { rewrite <- Hl. destruct paired; cbn [negb andb]; [lia|]. destruct (Z.leb_spec sw 384); lia. }
    cbn [mbind option_bind]. rewrite u16_id by (unfold is_word; lia). eauto 10 with lia.
  - set (m := if decide (file_type _ = FILE_MOSAIC) then _ else 1).
    set (d := negb _ && (sw <=? 384)).
    pose proof (mosaic_pixels m sw Hsw) as Hpx. cbv zeta in Hpx.
    set (px := if 1 <? m then _ else sw) in *.
    assert (Hd : d = true -> sw <= 384) by (subst d; intros [_ H]%andb_prop; lia).
    match goal with |- context [mbind ?K ?M] =>
      assert (exists c l, M = Some (c, l) /\ Z.of_nat (length l) <= 768 /\ 0 <= c <= 1536)
        as (c & l & EM & Hl & Hc) end.
    + assert (Hclut : exists n l, decode_clut f r plane address px d = Some (n, l) /\
        Z.of_nat (length l) <= 768 /\ 0 <= n <= 1536).
      { unfold decode_clut. cbv zeta. destruct (decide (coding _ = CODING_CLUT4)).
        - destruct (clut4_loop_total plane px (Z.to_nat ((px + 1) / 2)) address 0) as [l E]. rewrite E.
          cbn [mbind option_bind]. apply clut4_loop_length in E; [|zlia].
          do 2 eexists. split; [done|]. rewrite u16_id by (unfold is_word; zlia). zlia.
        - match goal with |- context [clut_loop f r plane ?k d ?n address] =>
            destruct (clut_loop_total plane k d n address) as [l E] end. rewrite E.
          cbn [mbind option_bind]. apply clut_loop_length in E.
          do 2 eexists. split; [done|]. destruct d; [specialize (Hd eq_refl)|]; lia. }
      destruct (coding (plane_setup plane r)) eqn:Ecod; try exact Hclut.
      * unfold decode_rgb555. destruct (rgb555_loop_total (Z.to_nat px) address_a address) as [l E]. rewrite E.
        cbn [mbind option_bind]. apply rgb555_loop_length in E. do 2 eexists. split; [done|].
        assert (px <= 384); [|lia]. unfold rgb555_overflows in Hrgb.
        rewrite (bool_decide_eq_true_2 _ Ecod), (bool_decide_eq_false_2 _ Hft) in Hrgb. cbn [negb andb] in Hrgb.
        assert (sw = source) as Esw by (subst sw; unfold wide_source; rewrite Ecod; by destruct (file_type _)).
        apply Z.ltb_ge in Hrgb. unfold decoded_pixels in Hrgb. fold m in Hrgb. subst px. by rewrite Esw.
      * unfold decode_dyuv. cbv zeta.
        match goal with |- context [dyuv_loop f d px ?n address ?i ?y ?u ?v] =>
          destruct (dyuv_loop_total d px n address i y u v) as [l E] end. rewrite E.
        cbn [mbind option_bind]. apply dyuv_loop_length in E; [|zlia]. do 2 eexists. split; [done|].
        rewrite even_ceiling, u16_id by (unfold is_word; zlia).
        destruct d; [specialize (Hd eq_refl)|]; zlia.
    + destruct (row_of_total l Hl) as (row & Erow & Hlen). rewrite EM. cbn [mbind option_bind snd fst]. rewrite Erow.
      cbn [mbind option_bind]. do 2 eexists. split; [done|]. split; [|done].
      destruct (1 <? m); [by rewrite length_mosaic_loop|done].
Qed.
End Total.

(** ** The row of a plane in memory *)

(** [n] bytes from [address] can be fetched. *)
Definition fetchable (f : Z -> option Z) (address n : Z) : Prop :=
  forall i, 0 <= i < n -> is_Some (f (u32 (address + i))).

(** Unmapped bytes read as zero, to compare with a memory that is total. *)
Definition padded (f : Z -> option Z) : Z -> option Z := fun a => Some (default 0 (f a)).
Lemma padded_bytes f : byte_fetch f -> byte_fetch (padded f).
Proof.
  intros Hf a b [= <-]. destruct (f a) eqn:E; cbn; [by apply (Hf a)|]. unfold is_word. lia.
Qed.
Lemma padded_agrees f address n : fetchable f address n -> agrees (padded f) f address n.
Proof. intros Hm i Hi. unfold padded. by destruct (Hm i Hi) as [b ->]. Qed.

(** The overflowing row is written past its end. *)
Lemma decode_plane_overflows f r w plane address address_a source :
  0 <= source <= 768 -> rgb555_overflows (plane_setup plane r) source = true ->
  decode_plane f r w plane address address_a source = None.
Proof.
  unfold rgb555_overflows. intros Hs [[Hc%bool_decide_eq_true Hft%negb_true_iff%bool_decide_eq_false]%andb_true_iff
    Hpx%Z.ltb_lt]%andb_true_iff. unfold decode_plane. cbv zeta.
  rewrite decide_False by (by rewrite Hc). rewrite decide_False by done. rewrite Hc.
  assert (wide_source (plane_setup plane r) = false) as -> by
    (unfold wide_source; rewrite Hc; by destruct (file_type _)).
  unfold decoded_pixels in Hpx. set (px := if 1 <? _ then _ else source) in *. unfold decode_rgb555.
  destruct (rgb555_loop f (Z.to_nat px) address_a address) as [l|] eqn:E; [|done]. cbn [mbind option_bind snd].
  apply rgb555_loop_length in E. unfold row_of, MCD212_VIDEO_MAX_WIDTH.
  by rewrite (proj2 (Z.leb_gt _ _)) by lia.
Qed.

Lemma decode_plane_answers f r w plane address address_a source :
  byte_fetch f -> display_line r w plane source -> rgb555_overflows (plane_setup plane r) source = false ->
  fetchable f address 1536 ->
  (coding (plane_setup plane r) = CODING_RGB555 -> fetchable f address_a 1536) ->
  exists n row, decode_plane f r w plane address address_a source = Some (n, row) /\
    length row = 768%nat /\ 0 <= n <= 1536.
Proof.
  intros Hf Hfits Hover Hm Hma. pose proof Hfits as (_ & _ & Hs & Hw & _).
  destruct (decode_plane_total (padded f) r (padded_bytes f Hf) ltac:(by eexists) w plane address address_a
              source Hfits Hover) as (n & row & E & Hrow & Hn).
  exists n, row. split; [|done].
  eapply (decode_plane_ext (padded f)); [by apply padded_bytes|done|lia|exact E| |].
  - eapply agrees_mono; [by apply padded_agrees|lia].
  - intros Hrgb. eapply agrees_mono; [by apply padded_agrees, Hma|lia].
Qed.
