(* ===== verification/VideoRows.v ===== *)
(** What the image decoders show: run-length lines decode to their runs, and a
    pixel of a row is the color of the source byte that the doubling, the
    mosaic and the hold lead to. *)

From Stdlib Require Import ZArith Lia Bool.
From stdpp Require Import base tactics numbers list gmap.
From S2P Require Import Prelude Mcd212 Video VideoSpec.
Open Scope Z_scope.

(** * What the decoders show *)

(** The memory holds [bytes] from [address]. *)
Definition holds (f : Z -> option Z) (address : Z) (bytes : list Z) : Prop :=
  forall i, 0 <= i < Z.of_nat (length bytes) -> f (u32 (address + i)) = Some (lget bytes i).

Lemma holds_cons f address b bytes :
  holds f address (b :: bytes) -> f (u32 address) = Some b /\ holds f (address + 1) bytes.
Proof.
  intros H. split.
  - specialize (H 0). rewrite Z.add_0_r in H. rewrite H by (cbn [length]; lia). done.
  - intros i Hi. replace (address + 1 + i) with (address + (i + 1)) by lia.
    rewrite H by (cbn [length]; lia). unfold lget. by replace (Z.to_nat (i + 1)) with (S (Z.to_nat i)) by lia.
Qed.
Lemma holds_app f address l1 l2 :
  holds f address (l1 ++ l2) -> holds f (address + Z.of_nat (length l1)) l2.
Proof.
  revert address. induction l1 as [|b l1 IH]; intros address H; [by rewrite Z.add_0_r|].
  apply holds_cons in H as [_ H]. apply IH in H. cbn [length].
  by replace (address + Z.of_nat (S (length l1))) with (address + 1 + Z.of_nat (length l1)) by lia.
Qed.

(** A run of [count] pixels of a seven-bit index. *)
Definition encode_run (run : Z * Z) : list Z :=
  if snd run =? 1 then [fst run] else [Z.lor 0x80 (fst run); snd run].
Definition encode_fill (fill : option Z) : list Z :=
  match fill with Some index => [Z.lor 0x80 index; 0] | None => [] end.
Definition run_ok (run : Z * Z) : Prop := is_word 7 (fst run) /\ 1 <= snd run <= 255.
Definition run_pixels (r : VideoRegisters) (plane : Z) (d : bool) (run : Z * Z) : list Z :=
  repeated (snd run) (doubled d (clut_lookup r plane (fst run))).
Definition runs_width (runs : list (Z * Z)) : Z := foldr (fun run n => snd run + n) 0 runs.

Lemma run_flag index : is_word 7 index ->
  z2b (Z.land index 0x80) = false /\ z2b (Z.land (Z.lor 0x80 index) 0x80) = true /\
  Z.land index 0x7F = index /\ Z.land (Z.lor 0x80 index) 0x7F = index.
Proof.
  intros Hi. change 0x80 with (2 ^ 7). rewrite !testbit_land_pow2 by lia.
  rewrite Z.lor_spec, testbit_pow2, (testbit_word_high 7) by first [done | lia].
  assert (Hland : Z.land index 0x7F = index).
  { change 0x7F with (Z.ones 7). rewrite Z.land_ones by lia. apply Z.mod_small, Hi. }
  split; [done|]. split; [done|]. split; [done|]. by rewrite Z.land_lor_distr_l, Hland.
Qed.

Lemma runs_width_nonneg runs : Forall run_ok runs -> Z.of_nat (length runs) <= runs_width runs.
Proof. induction 1 as [|run runs [_ Hc] Hruns IH]; cbn [length runs_width foldr]; [lia|]. fold (runs_width runs). lia. Qed.

Section RunLength.
Context (f : Z -> option Z) (r : VideoRegisters) (plane address output : Z) (d : bool).

Lemma run_code_run run consumed x rest :
  run_ok run -> x + snd run <= output -> 0 <= x -> holds f (address + consumed) (encode_run run ++ rest) ->
  run_code f r plane address output false d consumed x =
  Some (snd run, consumed + Z.of_nat (length (encode_run run)), run_pixels r plane d run).
Proof.
  intros [Hi Hc] Hx Hx0 H. destruct (run_flag _ Hi) as (F1 & F2 & F3 & F4).
  unfold run_code, encode_run in *. destruct (Z.eqb_spec (snd run) 1) as [E|E]; cbn [app length] in *.
  - apply holds_cons in H as [-> _]. cbn [mbind option_bind]. cbv zeta. rewrite F1. cbn [mbind option_bind fst snd].
    rewrite F3, Z.min_l by lia. unfold run_pixels. by rewrite E.
  - apply holds_cons in H as [-> H]. cbn [mbind option_bind]. cbv zeta. rewrite F2.
    apply holds_cons in H as [H _]. rewrite Z.add_assoc, H. cbn [mbind option_bind fst snd].
    rewrite F4. replace (snd run =? 0) with false by lia. rewrite Z.min_l by lia. by rewrite <- Z.add_assoc.
Qed.

Lemma run_loop_runs runs fill fuel consumed x :
  Forall run_ok runs -> 0 <= x -> output - x <= Z.of_nat fuel ->
  (match fill with
   | Some index => is_word 7 index /\ x + runs_width runs < output
   | None => x + runs_width runs = output
   end) ->
  holds f (address + consumed) (mjoin (encode_run <$> runs) ++ encode_fill fill) ->
  run_loop f r plane address output false d fuel consumed x =
  Some (consumed + Z.of_nat (length (mjoin (encode_run <$> runs) ++ encode_fill fill)),
        mjoin (run_pixels r plane d <$> runs) ++
        match fill with
        | Some index => run_pixels r plane d (index, output - (x + runs_width runs))
        | None => []
        end).
Proof.
  intros Hruns. revert fuel consumed x.
  induction Hruns as [|run runs Hrun Hruns IH]; intros fuel consumed x Hx Hfuel Hfill H.
  - cbn [fmap list_fmap mjoin list_join app runs_width foldr] in *. rewrite Z.add_0_r in *.
    destruct fill as [index|].
    + destruct Hfill as [Hi Hlt]. destruct fuel as [|fuel]; [lia|]. cbn [run_loop].
      replace (x <? output) with true by lia.
      destruct (run_flag _ Hi) as (F1 & F2 & F3 & F4). unfold run_code. cbn [encode_fill app length] in *.
      apply holds_cons in H as [-> H]. cbn [mbind option_bind]. cbv zeta. rewrite F2.
      apply holds_cons in H as [H _]. rewrite Z.add_assoc, H. cbn [mbind option_bind fst snd].
      rewrite F4, Z.min_id. cbn [run_pixels fst snd].
      replace (x + (output - x)) with output by lia.
      assert (E : forall k, run_loop f r plane address output false d k (consumed + 1 + 1) output =
        Some (consumed + 1 + 1, [])).
      { intros k. destruct k; cbn [run_loop]; by rewrite Z.ltb_irrefl. }
      rewrite E. cbn [mbind option_bind fst snd]. rewrite app_nil_r. by rewrite <- Z.add_assoc.
    + subst x. destruct fuel; cbn [run_loop]; rewrite Z.ltb_irrefl; cbn; by rewrite Z.add_0_r.
  - cbn [fmap list_fmap mjoin list_join runs_width foldr] in *. fold (runs_width runs) in *.
    fold (mjoin (encode_run <$> runs)) in *.
    pose proof (runs_width_nonneg runs Hruns). destruct Hrun as [Hi Hc].
    assert (Hle : x + snd run <= output) by (destruct fill; lia).
    destruct fuel as [|fuel]; [lia|]. cbn [run_loop]. replace (x <? output) with true by lia.
    rewrite <- app_assoc in H. rewrite (run_code_run run consumed x _ (conj Hi Hc) Hle Hx H).
    cbn [mbind option_bind]. apply holds_app in H. rewrite <- Z.add_assoc in H.
    rewrite IH; [|lia|lia|destruct fill; [destruct Hfill; split; [done|lia]|lia]|exact H]. cbn [mbind option_bind fst snd].
    rewrite <- !app_assoc, !length_app, !Nat2Z.inj_add, !Z.add_assoc. done.
Qed.
End RunLength.

(** C9. A run-length line decodes to its runs, the last of which may be written
    as a fill to the end of the line; the decoder reports the bytes of the
    encoding and touches no others. *)
Theorem run_length_roundtrip f r plane address output runs fill :
  byte_fetch f -> bits_per_pixel (plane_setup plane r) <> BITS_DOUBLE_4 -> 0 <= output <= 768 ->
  Forall run_ok runs ->
  match fill with
  | Some index => is_word 7 index /\ runs_width runs < output
  | None => runs_width runs = output
  end ->
  let bytes := mjoin (encode_run <$> runs) ++ encode_fill fill in
  holds f address bytes ->
  decode_run_length f r plane address output =
  Some (Z.of_nat (length bytes),
        mjoin (run_pixels r plane (output <=? 384) <$> runs) ++
        match fill with
        | Some index => run_pixels r plane (output <=? 384) (index, output - runs_width runs)
        | None => []
        end).
Proof.
  intros Hf Hbits Ho Hruns Hfill bytes H. unfold decode_run_length. cbv zeta.
  rewrite bool_decide_eq_false_2 by done. cbn [negb andb].
  pose proof (run_loop_runs f r plane address output (output <=? 384) runs fill (Z.to_nat output) 0 0
                Hruns ltac:(lia) ltac:(lia)) as E.
  rewrite Z.add_0_r in E. cbn [Z.add] in E. specialize (E Hfill H). rewrite E. cbn [mbind option_bind fst snd].
  apply run_loop_length in E as [Hc _]; [|done|lia]. rewrite u16_id by (unfold is_word; lia). done.
Qed.

Lemma lget_row_of l row y :
  row_of l = Some row -> 0 <= y -> lget row y = if y <? Z.of_nat (length l) then lget l y else 0.
Proof.
  intros H Hy. apply row_of_Some in H as (Hl & -> & _). unfold lget.
  destruct (Z.ltb_spec y (Z.of_nat (length l))).
  - apply app_nth1. lia.
  - rewrite app_nth2 by lia. rewrite nth_lookup.
    destruct (_ !! _) eqn:E; [|done]. apply lookup_replicate in E as [-> _]. done.
Qed.

Lemma clut_loop_exact f r plane mask (d : bool) n address l y :
  clut_loop f r plane mask d n address = Some l ->
  0 <= y < Z.of_nat n * (if d then 2 else 1) ->
  exists b, f (u32 (address + y / (if d then 2 else 1))) = Some b /\
    lget l y = clut_lookup r plane (Z.land b mask).
Proof.
  revert address l y. induction n as [|n IH]; intros address l y H Hy; cbn [clut_loop] in H.
  { destruct d; lia. }
  apply bind_Some in H as (b & Hb & H). apply bind_Some in H as (rest & Hrest & E). injection E as <-.
  set (k := if d then 2 else 1) in *. assert (Hk : 1 <= k <= 2) by (subst k; destruct d; lia).
  assert (Hlen : Z.of_nat (length (doubled d (clut_lookup r plane (Z.land b mask)))) = k) by apply length_doubled.
  destruct (Z.ltb_spec y k) as [Hlt|Hge].
  - rewrite Z.div_small, Z.add_0_r by lia. exists b. split; [done|]. unfold lget. rewrite app_nth1 by lia.
    destruct d; [|by replace y with 0 by (subst k; lia)].
    assert (y = 0 \/ y = 1) as [-> | ->] by (subst k; lia); done.
  - destruct (IH (address + 1) rest (y - k) Hrest) as (b' & Hb' & E); [lia|].
    exists b'. split.
    + rewrite <- Hb'. do 2 f_equal. replace y with (y - k + 1 * k) at 1 by lia. rewrite Z.div_add by lia. lia.
    + rewrite <- E. unfold lget. rewrite app_nth2 by lia. f_equal. lia.
Qed.

Definition clut_mask (setup : PlaneSetup) : Z := if decide (coding setup = CODING_CLUT8) then 0xFF else 0x7F.
(** Where pixel [x] of a held row comes from, and how often a source pixel is shown. *)
Definition held_from (setup : PlaneSetup) (x : Z) : Z :=
  if hold_enabled setup then x / hold_count setup * hold_count setup else x.
Definition repeat_of (setup : PlaneSetup) (source : Z) : Z :=
  (if decide (file_type setup = FILE_MOSAIC) then mosaic_repeat setup else 1) *
  (if source <=? 384 then 2 else 1).

Lemma apply_pixel_hold_exact r w plane row held x :
  apply_pixel_hold r w plane row = Some held -> 0 <= hold_count (plane_setup plane r) ->
  w <= Z.of_nat (length row) -> 0 <= x < w ->
  lget held x = lget row (held_from (plane_setup plane r) x).
Proof.
  unfold apply_pixel_hold, held_from. cbv zeta. intros H Hc Hw Hx.
  destruct (hold_enabled _); cbn [negb] in H; [|by injection H as <-].
  destruct (Z.eqb_spec (hold_count (plane_setup plane r)) 0); [done|]. injection H as <-.
  rewrite hold_loop_exact by lia. rewrite Z.sub_0_r, Z.add_0_l.
  replace (0 <=? x) with true by lia. by replace (x <? w) with true by lia.
Qed.

(** Pixel [x] of a row of eight or seven bits is the color of the source
    byte that the doubling, the mosaic and the hold lead to, and black past the
    bytes the decoder reports. *)
Theorem clut_row_exact f r w plane address address_a source n row held x :
  let setup := plane_setup plane r in
  coding setup = CODING_CLUT8 \/ coding setup = CODING_CLUT7 \/ coding setup = CODING_CLUT77 ->
  file_type setup <> FILE_RUN_LENGTH -> 1 <= mosaic_repeat setup -> 0 <= hold_count setup ->
  0 <= w <= 768 -> 0 <= source <= 768 ->
  decode_plane f r w plane address address_a source = Some (n, row) ->
  apply_pixel_hold r w plane row = Some held -> 0 <= x < w ->
  let i := held_from setup x / repeat_of setup source in
  if i <? n
  then exists b, f (u32 (address + i)) = Some b /\ lget held x = clut_lookup r plane (Z.land b (clut_mask setup))
  else lget held x = 0.
Proof.
  intros setup Hcod Hft Hm Hc Hw Hs H Hh Hx i. subst i.
  rewrite (apply_pixel_hold_exact _ _ _ _ _ _ Hh) by
    first [done | by erewrite decode_plane_length by exact H; lia].
  fold setup. set (s := held_from setup x).
  assert (Hsx : 0 <= s <= x).
  { subst s. unfold held_from. destruct (hold_enabled setup); [|lia].
    destruct (Z.eq_dec (hold_count setup) 0) as [->|]; [rewrite Z.div_0_r; lia|].
    pose proof (Z.div_mod x (hold_count setup)). pose proof (Z.mod_pos_bound x (hold_count setup)).
    pose proof (Z.div_pos x (hold_count setup)). nia. }
  unfold decode_plane in H. cbv zeta in H. fold setup in H.
  assert (Hoff : coding setup <> CODING_OFF) by (destruct Hcod as [->|[->| ->]]; done).
  assert (H4 : coding setup <> CODING_CLUT4) by (destruct Hcod as [->|[->| ->]]; done).
  rewrite decide_False in H by done. rewrite decide_False in H by done.
  assert (Hwide : wide_source setup = false).
  { unfold wide_source. destruct (file_type setup); try done; by rewrite bool_decide_eq_false_2. }
  rewrite Hwide, (bool_decide_eq_false_2 _ H4) in H. cbn [negb andb] in H.
  set (m := if decide (file_type setup = FILE_MOSAIC) then mosaic_repeat setup else 1) in *.
  assert (Hm1 : 1 <= m) by (subst m; destruct (decide _); lia).
  set (px := if 1 <? m then _ else source) in H. set (d := source <=? 384) in *.
  apply bind_Some in H as ([c l] & Hdec & H). apply bind_Some in H as (row0 & Erow & H).
  injection H as <- <-. cbn [fst snd] in *.
  assert (Hclut : decode_clut f r plane address px d = Some (c, l)).
  { destruct Hcod as [E|[E|E]]; rewrite E in Hdec; exact Hdec. }
  unfold decode_clut in Hclut. cbv zeta in Hclut. fold setup in Hclut. rewrite decide_False in Hclut by done.
  apply bind_Some in Hclut as (l0 & Hl & E). injection E as <- <-.
  pose proof (clut_loop_length _ _ _ _ _ _ _ _ Hl) as Hlen.
  pose proof (mosaic_pixels m source Hs) as Hpx. cbv zeta in Hpx. fold px in Hpx.
  set (k := if d then 2 else 1) in *. assert (Hk : 1 <= k <= 2) by (subst k; destruct d; lia).
  assert (Hrow : lget (if 1 <? m then mosaic_loop m (Z.to_nat w) row0 else row0) s = lget row0 (s / m)).
  { pose proof (row_of_Some _ _ Erow) as (_ & _ & Hl0). destruct (Z.ltb_spec 1 m).
    - rewrite mosaic_loop_exact by lia. destruct (Z.ltb_spec s (Z.of_nat (Z.to_nat w))); [done|lia].
    - replace m with 1 by lia. by rewrite Z.div_1_r. }
  rewrite Hrow, (lget_row_of _ _ _ Erow) by (apply Z.div_pos; lia).
  unfold repeat_of. fold m d k. rewrite <- Z.div_div by lia.
  assert (Hiff : s / m < px * k <-> s / m / k < px).
  { split; intros; [apply Z.div_lt_upper_bound; lia|].
    pose proof (Z.div_mod (s / m) k ltac:(lia)). pose proof (Z.mod_pos_bound (s / m) k ltac:(lia)). nia. }
  rewrite Hlen, Z2Nat.id by lia.
  destruct (Z.ltb_spec (s / m) (px * k)) as [Hlt|Hge], (Z.ltb_spec (s / m / k) px) as [Hlt'|Hge'];
    [|exfalso; apply Hiff in Hlt; lia|exfalso; apply Hiff in Hlt'; lia|done].
  apply (clut_loop_exact _ _ _ _ _ _ _ _ _ Hl). split; [apply Z.div_pos; lia|]. rewrite Z2Nat.id by lia. done.
Qed.

(** C10. Which lines are decoded inside their row.  For every coding, file type,
    mosaic and width of the display, doubled or not, whose bytes are in memory:
    an RGB555 line of more than 384 pixels (after its mosaic, outside run
    length), which doubles always, writes past the 768 pixels of its row; every
    other line fills its row exactly, and reports no more bytes than a completed
    line keeps. *)
Theorem decoded_row_overflow_exact ram0 ram1 r w plane address address_a source :
  let fetch := dram_byte ram0 ram1 in
  display_line r w plane source -> fetchable fetch address 1536 ->
  (coding (plane_setup plane r) = CODING_RGB555 -> fetchable fetch address_a 1536) ->
  if rgb555_overflows (plane_setup plane r) source
  then decode_plane fetch r w plane address address_a source = None
  else exists n row, decode_plane fetch r w plane address address_a source = Some (n, row) /\
    length row = 768%nat /\ 0 <= n <= 1536.
Proof.
  intros fetch Hline Hm Hma. destruct (rgb555_overflows _ _) eqn:Hover.
  - apply decode_plane_overflows; [apply Hline|done].
  - apply decode_plane_answers; [apply dram_byte_fetch|done..].
Qed.

(** * Instances *)
Definition sample_registers (c : Coding) (t : FileType) : VideoRegisters :=
  let p := mkPlane c t BITS_NORMAL_8 2 0 0 true 3 0 0 0 in
  mkRegisters p p (mkCursor 0 0 (replicate 16 0) false 0 false false 0 0 0)
    (seqZ 0 256) (replicate 8 0) 0 0 false true false false false.

Lemma run_length_roundtrip_witness :
  let f := dram_byte (mstore ∅ 0 [0x81; 2; 5; 0x83; 0]) ∅ in
  let r := sample_registers CODING_CLUT7 FILE_RUN_LENGTH in
  decode_run_length f r 0 0 6 = Some (5, [1; 1; 1; 1; 5; 5; 3; 3; 3; 3; 3; 3]).
Proof.
  intros f r.
  etransitivity; [apply (run_length_roundtrip f r 0 0 6 [(1, 2); (5, 1)] (Some 3))|vm_compute; reflexivity].
  - apply dram_byte_fetch.
  - discriminate.
  - lia.
  - repeat constructor; cbn; lia.
  - split; [unfold is_word; lia|reflexivity].
  - intros i Hi. change (0 <= i < 5) in Hi.
    assert (i = 0 \/ i = 1 \/ i = 2 \/ i = 3 \/ i = 4) as [-> | [-> | [-> | [-> | ->]]]] by lia; reflexivity.
Defined.

Lemma decoded_row_overflow_exact_witness :
  let bytes := dram_byte ∅ ∅ in
  (exists n row, decode_plane bytes (sample_registers CODING_DYUV FILE_BITMAP) 720 0 0x200000 0x200000 360 =
     Some (n, row) /\ length row = 768%nat /\ 0 <= n <= 1536) /\
  decode_plane bytes (sample_registers CODING_RGB555 FILE_BITMAP) 720 1 0x200000 0x200000 720 = None.
Proof.
  assert (fetchable (dram_byte ∅ ∅) 0x200000 1536) as Hf.
  { intros i Hi. unfold dram_byte. rewrite u32_id by (unfold is_word; lia).
    unfold CDI_RAM0_SIZE, CDI_RAM1_BASE, CDI_RAM1_SIZE.
    replace (_ <? _) with false by lia. replace (_ && _) with true by lia. done. }
  split.
  - apply (decoded_row_overflow_exact ∅ ∅ (sample_registers CODING_DYUV FILE_BITMAP) 720 0 0x200000 0x200000 360).
    + unfold display_line. cbn. split_and!; try lia. by exists 360.
    + exact Hf.
    + discriminate.
  - apply (decoded_row_overflow_exact ∅ ∅ (sample_registers CODING_RGB555 FILE_BITMAP) 720 1 0x200000 0x200000 720).
    + unfold display_line. cbn. split_and!; try lia. by exists 360.
    + exact Hf.
    + intros _. exact Hf.
Defined.

(** Two source bytes, mosaic of two, doubled, held in threes over eight pixels. *)
Lemma clut_row_exact_witness :
  let r := sample_registers CODING_CLUT8 FILE_MOSAIC in
  let f := dram_byte (mstore ∅ 0 [7; 9]) ∅ in
  match decode_plane f r 8 0 0 0 4 with
  | Some (n, row) =>
    match apply_pixel_hold r 8 0 row with
    | Some held => exists b, f (u32 (0 + 1)) = Some b /\ lget held 6 = clut_lookup r 0 (Z.land b 255)
    | None => False
    end
  | None => False
  end.
Proof.
  intros r f.
  destruct (decode_plane f r 8 0 0 0 4) as [[n row]|] eqn:E; [|vm_compute in E; discriminate].
  destruct (apply_pixel_hold r 8 0 row) as [held|] eqn:Eh; [|discriminate].
  assert (En : n = 2) by (vm_compute in E; by injection E as <- _).
  pose proof (clut_row_exact f r 8 0 0 0 4 n row held 6) as H. rewrite En in H. rewrite En in E.
  apply H; clear H; [by left|discriminate|cbn; lia|cbn; lia|lia|lia|exact E|exact Eh|lia].
Defined.
