(* ===== verification/ScanoutSpec.v ===== *)
(** The fused scanout job draws the line the reference draws: its spans end
    where a color or a matte changes, and a run-length stream may feed it
    directly. *)

From Stdlib Require Import ZArith Lia Bool.
From stdpp Require Import base tactics numbers list gmap.
From S2P Require Import Prelude Mcd212 Video Scanout VideoSpec VideoRows.
Open Scope Z_scope.

Lemma span_pixel_compose r raw_a raw_b s : span_pixel r raw_a raw_b s = compose_pixel r raw_a raw_b s.
Proof.
  unfold span_pixel, compose_pixel. cbv zeta.
  destruct (transparent_pixel (plane_a r) _ _ _), (transparent_pixel (plane_b r) _ _ _);
    destruct (mixing r), (plane_b_front r); reflexivity.
Qed.

(** * Mattes between two commands *)
Section Mattes.
Context (r : VideoRegisters).

Definition position (m : MatteCursor) : Z := Z.land (lget (matte_command r) (Z.of_nat (next m))) 0x3FF.
(** No command of the matte is due at [x]. *)
Definition settled (x : Z) (m : MatteCursor) : Prop := (next m < limit m)%nat -> x < position m.
Definition both_settled (x : Z) (s : MatteState) : Prop := settled x (matte0 s) /\ settled x (matte1 s).
Definition mattes_ok (s : MatteState) : Prop := (limit (matte0 s) <= 8 /\ limit (matte1 s) <= 8)%nat.

Lemma matte_loop_settled x fuel m f0 f1 :
  (limit m <= next m + fuel)%nat ->
  settled x (fst (fst (matte_loop r x fuel m f0 f1))) /\
  limit (fst (fst (matte_loop r x fuel m f0 f1))) = limit m.
Proof.
  revert m f0 f1. induction fuel as [|fuel IH]; intros m f0 f1 Hfuel; cbn [matte_loop].
  - cbn. split; [intros ?; lia|done].
  - destruct (Nat.ltb_spec (next m) (limit m)) as [Hlt|Hge].
    2: { cbn. split; [intros ?; lia|done]. }
    cbv zeta. destruct (Z.ltb_spec x (Z.land (lget (matte_command r) (Z.of_nat (next m))) 0x3FF)).
    { cbn. split; [by intros _|done]. }
    destruct (_ =? 0). { cbn. split; [intros ?; cbn in *; lia|done]. }
    match goal with |- context [matte_loop r x fuel ?n ?a ?b] =>
      destruct (IH n a b ltac:(cbn; lia)) as [H1 H2] end.
    split; [done|]. by rewrite H2.
Qed.
Lemma matte_loop_id x fuel m f0 f1 : settled x m -> matte_loop r x fuel m f0 f1 = (m, f0, f1).
Proof.
  intros H. destruct fuel; [done|]. cbn [matte_loop].
  destruct (Nat.ltb_spec (next m) (limit m)) as [Hlt|Hge]; [|done]. cbv zeta.
  destruct (Z.ltb_spec x (Z.land (lget (matte_command r) (Z.of_nat (next m))) 0x3FF)); [done|].
  specialize (H Hlt). unfold position in H. lia.
Qed.

Lemma apply_matte_settled x s :
  mattes_ok s -> both_settled x (apply_matte_commands r x s) /\ mattes_ok (apply_matte_commands r x s).
Proof.
  intros [H0 H1]. unfold apply_matte_commands, both_settled, mattes_ok.
  destruct (matte_loop r x 8 (matte0 s) (factor0 s) (factor1 s)) as [[m0 f0] f1] eqn:E0.
  destruct (matte_loop r x 8 (matte1 s) f0 f1) as [[m1 g0] g1] eqn:E1. cbn.
  pose proof (matte_loop_settled x 8 (matte0 s) (factor0 s) (factor1 s) ltac:(lia)) as [S0 L0].
  pose proof (matte_loop_settled x 8 (matte1 s) f0 f1 ltac:(lia)) as [S1 L1].
  rewrite E0 in S0, L0. rewrite E1 in S1, L1. cbn [fst] in S0, L0, S1, L1. by rewrite L0, L1.
Qed.
Lemma apply_matte_id x (s : MatteState) : both_settled x s -> apply_matte_commands r x s = s.
Proof.
  intros [H0 H1]. unfold apply_matte_commands. rewrite !matte_loop_id by done. by destruct s.
Qed.
Lemma initialize_mattes_ok : mattes_ok (initialize_matte_state r).
Proof.
  unfold initialize_matte_state, mattes_ok. cbv zeta.
  destruct (two_mattes r); [cbn; lia|]. destruct (z2b _); cbn; lia.
Qed.

Lemma matte_boundary_le m e : matte_boundary r m e <= e.
Proof.
  unfold matte_boundary. cbv zeta. destruct (_ <? _)%nat; [|lia].
  destruct (Z.ltb_spec (Z.land (lget (matte_command r) (Z.of_nat (next m))) 0x3FF) e); lia.
Qed.
Lemma matte_boundary_settled m e y : y < matte_boundary r m e -> settled y m.
Proof.
  unfold matte_boundary, settled, position. cbv zeta. intros Hy Hlt.
  apply Nat.ltb_lt in Hlt. rewrite Hlt in Hy.
  destruct (Z.ltb_spec (Z.land (lget (matte_command r) (Z.of_nat (next m))) 0x3FF) e); lia.
Qed.
Lemma matte_boundary_gt m e x : x < e -> settled x m -> x < matte_boundary r m e.
Proof.
  unfold matte_boundary, settled, position. cbv zeta. intros Hx H.
  destruct (Nat.ltb_spec (next m) (limit m)); [|done]. specialize (H ltac:(done)).
  destruct (_ <? _); done.
Qed.

Lemma scanout_matte_end_settled w s y : y < scanout_matte_end r w s -> both_settled y s.
Proof.
  unfold scanout_matte_end. intros Hy. split; [|by eapply matte_boundary_settled].
  eapply matte_boundary_settled. eapply Z.lt_le_trans; [exact Hy|]. apply matte_boundary_le.
Qed.
Lemma scanout_matte_end_gt w s x : x < w -> both_settled x s -> x < scanout_matte_end r w s.
Proof. intros Hx [H0 H1]. unfold scanout_matte_end. by repeat apply matte_boundary_gt. Qed.

(** ** A span of one color under settled mattes *)
Lemma compose_settled rows_a rows_b ca cb s n m x :
  (forall y, x <= y < x + Z.of_nat n -> lget rows_a y = ca /\ lget rows_b y = cb /\ both_settled y s) ->
  compose_pixels r rows_a rows_b (n + m) x s =
  replicate n (compose_pixel r ca cb s) ++ compose_pixels r rows_a rows_b m (x + Z.of_nat n) s.
Proof.
  revert x. induction n as [|n IH]; intros x H; [by rewrite Z.add_0_r|].
  cbn [Nat.add compose_pixels replicate app]. destruct (H x ltac:(lia)) as (Ea & Eb & Hs).
  rewrite (apply_matte_id _ _ Hs), Ea, Eb, IH by (intros y Hy; apply H; lia).
  by replace (x + 1 + Z.of_nat n) with (x + Z.of_nat (S n)) by lia.
Qed.
Lemma compose_span rows_a rows_b ca cb s n m x :
  mattes_ok s -> (0 < n)%nat ->
  let s' := apply_matte_commands r x s in
  (forall y, x <= y < x + Z.of_nat n -> lget rows_a y = ca /\ lget rows_b y = cb /\ both_settled y s') ->
  compose_pixels r rows_a rows_b (n + m) x s =
  replicate n (compose_pixel r ca cb s') ++ compose_pixels r rows_a rows_b m (x + Z.of_nat n) s'.
Proof.
  intros Hok Hn s' H. rewrite <- (compose_settled rows_a rows_b ca cb s' n m x H).
  destruct n as [|n]; [lia|]. cbn [Nat.add compose_pixels]. fold s'.
  by rewrite (apply_matte_id x s') by (apply H; lia).
Qed.
End Mattes.

(** * Writing a line piece by piece *)
Lemma mstore_app m lo l1 l2 : mstore m lo (l1 ++ l2) = mstore (mstore m lo l1) (lo + Z.of_nat (length l1)) l2.
Proof.
  revert m lo. induction l1 as [|b l1 IH]; intros m lo; cbn [mstore app length]; [by rewrite Z.add_0_r|].
  rewrite IH. by replace (lo + 1 + Z.of_nat (length l1)) with (lo + Z.of_nat (S (length l1))) by lia.
Qed.
Lemma put_drawn_app buffer lo l1 l2 f :
  put_drawn buffer lo (l1 ++ l2) f =
  put_drawn buffer (lo + Z.of_nat (length l1)) l2 (put_drawn buffer lo l1 f).
Proof.
  unfold put_drawn. cbv zeta. rewrite !fmap_app, !mstore_app, !length_fmap. by destruct buffer.
Qed.

(** * Lists as arrays *)
Lemma lget_ext (l1 l2 : list Z) :
  length l1 = length l2 -> (forall y, 0 <= y < Z.of_nat (length l1) -> lget l1 y = lget l2 y) -> l1 = l2.
Proof.
  intros Hlen H. apply (nth_ext _ _ 0 0 Hlen). intros n Hn.
  specialize (H (Z.of_nat n) ltac:(lia)). unfold lget in H. by rewrite Nat2Z.id in H.
Qed.
Lemma lget_app l1 l2 y :
  0 <= y -> lget (l1 ++ l2) y = if y <? Z.of_nat (length l1) then lget l1 y else lget l2 (y - Z.of_nat (length l1)).
Proof.
  intros Hy. unfold lget. destruct (Z.ltb_spec y (Z.of_nat (length l1))).
  - apply app_nth1. lia.
  - rewrite app_nth2 by lia. f_equal. lia.
Qed.
Lemma lget_replicate n c y : 0 <= y < Z.of_nat n -> lget (replicate n c) y = c.
Proof. intros Hy. unfold lget. apply nth_lookup_Some, lookup_replicate. split; [done|lia]. Qed.
Lemma lget_take n l y : 0 <= y < Z.of_nat n -> lget (take n l) y = lget l y.
Proof. intros Hy. unfold lget. rewrite !nth_lookup, lookup_take_lt by lia. done. Qed.
Lemma lget_drop n l y : 0 <= y -> lget (drop n l) y = lget l (Z.of_nat n + y).
Proof. intros Hy. unfold lget. rewrite !nth_lookup, lookup_drop. do 2 f_equal. lia. Qed.
Lemma lget_repeated n (d : bool) c y :
  0 <= y < n * (if d then 2 else 1) -> lget (repeated n (doubled d c)) y = c.
Proof.
  intros Hy. unfold repeated, lget. apply nth_lookup_Some.
  assert (Hall : forall i, (i < Z.to_nat n * (if d then 2 else 1))%nat ->
    mjoin (replicate (Z.to_nat n) (doubled d c)) !! i = Some c).
  { induction (Z.to_nat n) as [|k IH]; intros i Hi; [lia|].
    change (mjoin (replicate (S k) (doubled d c))) with (doubled d c ++ mjoin (replicate k (doubled d c))).
    destruct d; cbn [doubled app] in *.
    - destruct i as [|[|i]]; [done|done|]. cbn. apply IH. lia.
    - destruct i as [|i]; [done|]. cbn. apply IH. lia. }
  apply Hall. destruct d; lia.
Qed.

(** * A source follows its plane's row *)
Section Track.
Context (f : Z -> option Z) (r : VideoRegisters) (w : Z) (Hf : byte_fetch f) (Hw : 0 <= w <= 768).

(** At [x], source [s] with the row [now] stored so far leads to the finished
    row [fin] of a plane that uses [n] bytes. *)
Record tracks (plane n : Z) (fin : list Z) (x : Z) (s : ScanoutSource) (now : list Z) : Prop := {
  t_length : length now = 768%nat;
  t_fin : length fin = 768%nat;
  t_x : 0 <= x <= src_end s;
  t_end : src_end s <= w;
  t_color : forall y, x <= y < src_end s -> lget fin y = src_color s;
  t_row : if direct s
          then forall y, 0 <= y < x \/ w <= y < 768 -> lget now y = lget fin y
          else now = fin /\ src_consumed s = n;
  t_stream : direct s = true ->
    exists fuel c rest (d : bool),
      run_loop f r plane (src_address s) (src_pixels s) false d fuel (src_consumed s) (src_produced s) =
        Some (c, rest) /\
      n = c /\ c <= 1536 /\ 0 <= src_consumed s /\
      0 <= src_produced s <= src_pixels s /\
      src_end s = src_produced s * src_scale s /\ src_scale s = (if d then 2 else 1) /\
      src_pixels s * src_scale s = w /\
      forall y, src_end s <= y < w -> lget fin y = lget rest (y - src_end s);
}.

Lemma same_run_spec row color fuel e :
  e <= w -> w - e <= Z.of_nat fuel ->
  e <= same_run w row color fuel e <= w /\
  forall y, e <= y < same_run w row color fuel e -> lget row y = color.
Proof.
  revert e. induction fuel as [|fuel IH]; intros e He Hfuel; cbn [same_run]; [split; [lia|intros; lia]|].
  destruct (Z.ltb_spec e w); cbn [andb]; [|split; [lia|intros; lia]].
  destruct (Z.eqb_spec (lget row e) color) as [E|E]; [|split; [lia|intros; lia]].
  destruct (IH (e + 1)) as [H1 H2]; [lia|lia|]. split; [lia|]. intros y Hy.
  destruct (Z.eq_dec y e) as [->|]; [done|]. apply H2. lia.
Qed.

Lemma scanout_next_tracks plane n fin x s now :
  tracks plane n fin x s now -> x < w ->
  exists s', scanout_next f r w plane now x s = Some s' /\ tracks plane n fin x s' now /\
    x < src_end s' /\ direct s' = direct s.
Proof.
  intros T Hx. pose proof T as [Hlen Hfin Hxs Hend Hcol Hrow Hstream]. unfold scanout_next.
  destruct (Z.ltb_spec x (src_end s)) as [Hlt|Hge]; [by exists s|].
  assert (Hxe : src_end s = x) by lia. destruct (direct s) eqn:Ed.
  - destruct (Hstream eq_refl) as (fuel & c & rest & d & E & Hn & Hc & Hsc & Hp & He & Hk & Hpx & Hrest).
    assert (Hpk : src_produced s < src_pixels s) by (destruct d; nia).
    destruct fuel as [|fuel]; cbn [run_loop] in E; (replace (_ <? _) with true in E by lia); [done|].
    apply bind_Some in E as ([[rep c0] px] & Hcode & E). apply bind_Some in E as ([c1 rest1] & Hloop & E).
    injection E as <- <-. cbn [fst snd] in *.
    pose proof (run_code_pixels f r Hf _ _ _ _ _ _ _ _ _ _ Hcode Hpk) as (Hc0 & _ & Hpl & Hrep).
    pose proof (run_loop_length f r Hf _ _ _ _ _ _ _ _ _ _ Hloop Hrep) as [Hc1 _].
    unfold run_code in Hcode. apply bind_Some in Hcode as (format & Hformat & Hcode). cbv zeta in Hcode.
    apply bind_Some in Hcode as ([count c2] & Hcount & E). injection E as Erep Ec Epx. cbn [fst snd] in *.
    subst c2. rewrite Hformat. cbn [mbind option_bind]. cbv zeta. rewrite (u16_id (src_consumed s + 1)) by (unfold is_word; lia).
    set (left := src_pixels s - src_produced s) in *.
    assert (Hcnt : 1 <= count /\
      (if z2b (Z.land format 128)
       then b ← f (u32 (src_address s + (src_consumed s + 1)));
            Some (if b =? 0 then left else b, u16 (src_consumed s + 1 + 1))
       else Some (1, src_consumed s + 1)) = Some (count, c0)).
    { destruct (z2b (Z.land format 128)).
      - apply bind_Some in Hcount as (b & Hb & E). injection E as <- <-. rewrite Hb. cbn [mbind option_bind].
        rewrite u16_id by (unfold is_word; lia). split; [|done].
        apply Hf in Hb. unfold is_word in Hb. subst left. destruct (Z.eqb_spec b 0); lia.
      - injection Hcount as <- <-. split; [lia|done]. }
    destruct Hcnt as [Hcnt ->]. cbn [mbind option_bind fst snd]. eexists. split; [reflexivity|].
    replace (if left <? count then left else count) with rep by (rewrite <- Erep; destruct (Z.ltb_spec left count); lia).
    assert (Hrep1 : 1 <= rep) by (subst left; lia).
    assert (Hcolor : forall y, 0 <= y < rep * src_scale s -> lget px y = clut_lookup r plane (Z.land format 127)).
    { intros y Hy. rewrite <- Epx, Erep. apply lget_repeated. rewrite <- Hk. lia. }
    assert (Hpxlen : Z.of_nat (length px) = rep * src_scale s) by (rewrite Hpl, Hk; done).
    assert (Hfin1 : forall y, src_end s <= y < src_end s + rep * src_scale s ->
      lget fin y = clut_lookup r plane (Z.land format 127)).
    { intros y Hy. rewrite Hrest by nia. rewrite lget_app by lia.
      replace (_ <? _) with true by lia. apply Hcolor. lia. }
    split; [|split; [cbn; nia|done]]. constructor; cbn; try done.
    + nia.
    + nia.
    + intros y Hy. apply Hfin1. nia.
    + intros _. exists fuel, c1, rest1, d. split; [exact Hloop|]. split; [done|]. split; [done|]. split; [lia|].
      split; [lia|]. split; [done|]. split; [done|]. split; [done|]. intros y Hy.
      rewrite Hrest by nia. rewrite lget_app by nia. replace (_ <? _) with false by nia. f_equal. nia.
  - destruct Hrow as [-> Hcons]. eexists. split; [reflexivity|].
    destruct (same_run_spec fin (lget fin x) (Z.to_nat w) (x + 1)) as [H1 H2]; [lia|lia|].
    split; [|cbn; split; [lia|done]]. constructor; cbn; try done; try lia.
    intros y Hy. destruct (Z.eq_dec y x) as [->|]; [done|]. apply H2. lia.
Qed.

Lemma keep_row_tracks plane n fin x e s now :
  tracks plane n fin x s now -> x <= e <= src_end s ->
  tracks plane n fin e s (keep_row s x e now).
Proof.
  intros [Hlen Hfin Hxs Hend Hcol Hrow Hstream] He. unfold keep_row.
  destruct (direct s) eqn:Ed.
  - constructor; rewrite ?Ed; try done; try lia.
    + rewrite !length_app, length_replicate, length_take, length_drop. lia.
    + intros y Hy. apply Hcol. lia.
    + assert (Htake : Z.of_nat (length (take (Z.to_nat x) now)) = x) by (rewrite length_take; lia).
      intros y Hy. rewrite lget_app, Htake by lia. destruct (Z.ltb_spec y x).
      * rewrite lget_take by lia. apply Hrow. lia.
      * rewrite lget_app, length_replicate by lia.
        destruct (Z.ltb_spec (y - x) (Z.of_nat (Z.to_nat (e - x)))).
        -- rewrite lget_replicate by lia. symmetry. apply Hcol. lia.
        -- rewrite lget_drop by lia. replace (_ + _) with y by lia. apply Hrow. lia.
  - constructor; rewrite ?Ed; try done; try lia. intros y Hy. apply Hcol. lia.
Qed.

(** At the end of the line a source has stored the row and used its bytes. *)
Lemma tracks_end plane n fin s now :
  tracks plane n fin w s now -> now = fin /\ src_consumed s = n.
Proof.
  intros [Hlen Hfin Hxs Hend Hcol Hrow Hstream]. destruct (direct s) eqn:Ed; [|done]. split.
  - apply lget_ext; [congruence|]. intros y Hy. apply Hrow. lia.
  - destruct (Hstream eq_refl) as (fuel & c & rest & d & E & -> & Hc & Hsc & Hp & He & Hk & Hpx & _).
    assert (src_produced s = src_pixels s) as Eq by (destruct d; nia).
    rewrite Eq in E. destruct fuel; cbn [run_loop] in E; rewrite Z.ltb_irrefl in E; by injection E.
Qed.
End Track.

Section Job.
Context (f : Z -> option Z) (r : VideoRegisters) (w : Z) (buffer : bool) (fld : Z).
Context (Hf : byte_fetch f) (Hw : 0 <= w <= 768).

Lemma scanout_source_tracks plane address address_a source n row fin old :
  decode_plane f r w plane address address_a source = Some (n, row) ->
  apply_pixel_hold r w plane row = Some fin -> length old = 768%nat -> 0 <= source ->
  exists s now, scanout_source f r w plane address address_a source old = Some (s, now) /\
    tracks f r w plane n fin 0 s now.
Proof.
  intros Hdec Hhold Hold Hs. unfold scanout_source. cbv zeta.
  set (setup := plane_setup plane r) in *.
  set (px := if _ && bool_decide (bits_per_pixel setup = BITS_HIGH_8) then w else source).
  destruct (negb (hold_enabled setup) && clut_coded (coding setup) && bool_decide (file_type setup = FILE_RUN_LENGTH)
    && negb (bool_decide (bits_per_pixel setup = BITS_DOUBLE_4)) && (px * (if px <=? 384 then 2 else 1) =? w)) eqn:Ed.
  - apply andb_prop in Ed as [Ed Hpx]. apply andb_prop in Ed as [Ed Hbits]. apply andb_prop in Ed as [Ed Hft].
    apply andb_prop in Ed as [Hh Hcod]. apply bool_decide_eq_true in Hft. apply Z.eqb_eq in Hpx.
    apply negb_true_iff, bool_decide_eq_false in Hbits.
    unfold apply_pixel_hold in Hhold. cbv zeta in Hhold. fold setup in Hhold. rewrite Hh in Hhold. injection Hhold as ->.
    do 2 eexists. split; [reflexivity|].
    unfold decode_plane in Hdec. cbv zeta in Hdec. fold setup in Hdec.
    rewrite decide_False in Hdec by (intros E; rewrite E in Hcod; discriminate). rewrite decide_True in Hdec by done.
    assert (Hsw : (if wide_source setup then w else source) = px).
    { subst px. unfold wide_source. rewrite Hft.
      destruct (bits_per_pixel setup); [done|congruence|done]. }
    rewrite Hsw in Hdec. assert (Hpx0 : 0 <= px) by (destruct (px <=? 384); lia).
    apply bind_Some in Hdec as ([c l] & Hrun & Hdec). apply bind_Some in Hdec as (row0 & Erow & E).
    injection E as <- <-. cbn [fst snd] in *.
    unfold decode_run_length in Hrun. cbv zeta in Hrun. fold setup in Hrun.
    rewrite bool_decide_eq_false_2 in Hrun by done. cbn [negb andb] in Hrun.
    apply bind_Some in Hrun as ([c1 l1] & Hloop & E). injection E as <- <-. cbn [fst snd] in *.
    pose proof (run_loop_length f r Hf _ _ _ _ _ _ _ _ _ _ Hloop Hpx0) as [Hc Hl]. cbn iota in Hl.
    pose proof (row_of_Some _ _ Erow) as (Hl0 & Erow' & Hrow0).
    set (k := if px <=? 384 then 2 else 1) in *. assert (Hk : 1 <= k <= 2) by (subst k; destruct (_ <=? _); lia).
    assert (Hpx1 : px <= 768) by nia.
    assert (Hzero : forall y, w <= y < 768 -> lget row0 y = 0).
    { intros y Hy. rewrite (lget_row_of _ _ _ Erow) by lia. destruct (Z.ltb_spec y (Z.of_nat (length l1))); [lia|done]. }
    constructor; cbn; try done; try lia.
    + rewrite length_app, length_take, length_replicate, Hold. unfold MCD212_VIDEO_MAX_WIDTH. lia.
    + intros y Hy. destruct Hy as [|Hy]; [lia|]. rewrite Hzero by done.
      rewrite lget_app, length_take, Hold by lia.
      destruct (Z.ltb_spec y (Z.of_nat (Z.to_nat w `min` 768))); [lia|].
      apply lget_replicate. unfold MCD212_VIDEO_MAX_WIDTH. lia.
    + intros _. exists (Z.to_nat px), c1, l1, (px <=? 384). split; [exact Hloop|].
      split; [rewrite u16_id; [done|unfold is_word; lia]|]. split; [lia|]. split; [lia|]. split; [lia|].
      split; [lia|]. split; [done|]. split; [done|]. intros y Hy. rewrite (lget_row_of _ _ _ Erow) by lia.
      destruct (Z.ltb_spec y (Z.of_nat (length l1))); [f_equal; lia|lia].
  - rewrite Hdec. cbn [mbind option_bind fst snd]. rewrite Hhold. cbn [mbind option_bind].
    do 2 eexists. split; [reflexivity|].
    pose proof (decode_plane_length _ _ _ _ _ _ _ _ _ Hdec) as Hrow.
    pose proof (length_apply_pixel_hold _ _ _ _ _ Hhold) as Hfin.
    constructor; cbn; try done; try lia; congruence.
Qed.

Context (na nb : Z) (fin_a fin_b : list Z).

Record scans (x : Z) (j : Scanning) : Prop := {
  s_a : tracks f r w PLANE_A na fin_a x (sc_a j) (row_a j);
  s_b : tracks f r w PLANE_B nb fin_b x (sc_b j) (row_b j);
  s_mattes : mattes_ok (mattes j);
}.

(** A turn of the loop: both sources follow their rows over the span. *)
Lemma scanout_step_scans offset x j :
  scans x j -> x < w ->
  exists e j', scanout_step f r w buffer offset x j = Some (e, j') /\ scans e j' /\ x < e <= w /\
    mattes j' = apply_matte_commands r x (mattes j) /\
    sc_buffers j' = scanout_span r buffer offset x e (src_color (sc_a j')) (src_color (sc_b j')) (mattes j') (sc_buffers j) /\
    forall y, x <= y < e ->
      lget fin_a y = src_color (sc_a j') /\ lget fin_b y = src_color (sc_b j') /\ both_settled r y (mattes j').
Proof.
  intros [Ha Hb Hm] Hx. unfold scanout_step.
  destruct (scanout_next_tracks f r w Hf Hw _ _ _ _ _ _ Ha Hx) as (a & -> & Ta & Hea & _).
  destruct (scanout_next_tracks f r w Hf Hw _ _ _ _ _ _ Hb Hx) as (b & -> & Tb & Heb & _).
  cbn [mbind option_bind]. cbv zeta.
  set (s := apply_matte_commands r x (mattes j)).
  destruct (apply_matte_settled r x (mattes j) Hm) as [Hset Hok]. fold s in Hset, Hok.
  pose proof (scanout_matte_end_gt r w s x Hx Hset) as Hme.
  set (e0 := if src_end a <? src_end b then src_end a else src_end b).
  assert (He0 : e0 = Z.min (src_end a) (src_end b)) by (subst e0; destruct (Z.ltb_spec (src_end a) (src_end b)); lia).
  set (e := if scanout_matte_end r w s <? e0 then scanout_matte_end r w s else e0).
  assert (He : e = Z.min e0 (scanout_matte_end r w s)) by (subst e; destruct (Z.ltb_spec (scanout_matte_end r w s) e0); lia).
  clearbody e0 e. pose proof (t_end _ _ _ _ _ _ _ _ _ Ta).
  do 2 eexists. split; [reflexivity|]. cbn [sc_a sc_b row_a row_b mattes sc_buffers].
  split; [|split; [lia|split; [done|split; [done|]]]].
  - constructor; cbn [sc_a sc_b row_a row_b mattes]; [| |done].
    + apply keep_row_tracks; [exact Hw|done|lia].
    + apply keep_row_tracks; [exact Hw|done|lia].
  - intros y Hy. split; [apply (t_color _ _ _ _ _ _ _ _ _ Ta); lia|].
    split; [apply (t_color _ _ _ _ _ _ _ _ _ Tb); lia|]. apply (scanout_matte_end_settled r w). fold s. lia.
Qed.

Lemma scanout_step_draws offset x j :
  scans x j -> x < w ->
  exists e j', scanout_step f r w buffer offset x j = Some (e, j') /\ scans e j' /\ x < e <= w /\
    forall m, w - x = Z.of_nat m ->
    put_drawn buffer (offset + x) (compose_pixels r fin_a fin_b m x (mattes j)) (sc_buffers j) =
    put_drawn buffer (offset + e) (compose_pixels r fin_a fin_b (Z.to_nat (w - e)) e (mattes j')) (sc_buffers j').
Proof.
  intros Hj Hx. destruct (scanout_step_scans offset x j Hj Hx) as (e & j' & E & Hj' & He & Hm & Hbuf & Hcol).
  exists e, j'. split; [done|]. split; [done|]. split; [done|]. intros m Hmx.
  destruct Hj as [_ _ Hok]. rewrite Hbuf. unfold scanout_span.
  replace m with (Z.to_nat (e - x) + Z.to_nat (w - e))%nat by lia.
  rewrite (compose_span r _ _ (src_color (sc_a j')) (src_color (sc_b j'))); [|done|lia|].
  - rewrite <- Hm, put_drawn_app, length_replicate, span_pixel_compose. f_equal; [lia|]. f_equal. lia.
  - intros y Hy. rewrite Z2Nat.id in Hy by lia. rewrite <- Hm. apply Hcol. lia.
Qed.

Lemma scanout_loop_draws offset fuel x j :
  scans x j -> x <= w -> w - x <= Z.of_nat fuel ->
  exists j', scanout_loop f r w buffer offset fuel x j = Some j' /\ scans w j' /\
    sc_buffers j' = put_drawn buffer (offset + x)
      (compose_pixels r fin_a fin_b (Z.to_nat (w - x)) x (mattes j)) (sc_buffers j).
Proof.
  revert x j. induction fuel as [|fuel IH]; intros x j Hj Hx Hfuel; cbn [scanout_loop].
  - assert (x = w) as -> by lia. rewrite Z.ltb_irrefl. exists j. split; [done|]. split; [done|].
    rewrite Z.sub_diag. cbn. unfold put_drawn. cbn. by destruct buffer, (sc_buffers j).
  - destruct (Z.ltb_spec x w) as [Hlt|].
    + destruct (scanout_step_draws offset x j Hj Hlt) as (e & j1 & -> & Hj1 & He & Hput).
      cbn [mbind option_bind fst snd]. destruct (IH e j1 Hj1) as (j' & -> & Hj' & Hbuf); [lia|lia|].
      exists j'. split; [done|]. split; [done|]. rewrite Hbuf. symmetry. apply Hput. lia.
    + assert (x = w) as -> by lia. exists j. split; [done|]. split; [done|].
      rewrite Z.sub_diag. cbn. unfold put_drawn. cbn. by destruct buffer, (sc_buffers j).
Qed.
End Job.

Lemma decode_planes_inv f r w address_a address_b wa wb ua ub fin_a fin_b :
  decode_planes f r w address_a address_b wa wb = Some (ua, ub, fin_a, fin_b) ->
  exists na row_a row_b,
    decode_plane f r w PLANE_A address_a address_a wa = Some (na, row_a) /\
    decode_plane f r w PLANE_B address_b address_a wb = Some (ub, row_b) /\
    apply_pixel_hold r w PLANE_A row_a = Some fin_a /\ apply_pixel_hold r w PLANE_B row_b = Some fin_b /\
    ua = (if decide (coding (plane_b r) = CODING_RGB555) then ub else na).
Proof.
  unfold decode_planes. intros H. apply bind_Some in H as ([na row_a] & Ha & H).
  apply bind_Some in H as ([nb row_b] & Hb & H). cbv zeta in H.
  apply bind_Some in H as (ra & Hra & H). apply bind_Some in H as (rb & Hrb & H).
  injection H as <- <- <- <-. cbn [fst snd] in *. by exists na, row_a, row_b.
Qed.

Lemma scanout_job_draws f r w buffer fld h address_a address_b line wa wb old_a old_b bf ua ub fin_a fin_b :
  byte_fetch f -> 0 <= w <= 768 -> 0 <= wa -> 0 <= wb ->
  length old_a = 768%nat -> length old_b = 768%nat -> line < h ->
  decode_planes f r w address_a address_b wa wb = Some (ua, ub, fin_a, fin_b) ->
  exists fused,
    scanout_job f r w buffer fld address_a address_b line wa wb old_a old_b bf =
    Some (ua, ub, fin_a, fin_b, compose_line r w buffer fld h line fin_a fin_b bf, fused).
Proof.
  intros Hf Hw Hwa Hwb Hla Hlb Hline H.
  destruct (decode_planes_inv _ _ _ _ _ _ _ _ _ _ _ H) as (na & ra & rb & Ha & Hb & Hra & Hrb & ->).
  destruct (scanout_source_tracks f r w Hf Hw _ _ _ _ _ _ _ _ Ha Hra Hla Hwa) as (sa & nowa & Ea & Ta).
  destruct (scanout_source_tracks f r w Hf Hw _ _ _ _ _ _ _ _ Hb Hrb Hlb Hwb) as (sb & nowb & Eb & Tb).
  unfold scanout_job. rewrite Ea, Eb. cbn [mbind option_bind fst snd]. cbv zeta.
  set (j := mkScanning sa sb nowa nowb (initialize_matte_state r) bf).
  destruct (scanout_loop_draws f r w buffer Hf Hw na ub fin_a fin_b (line_offset w line) (Z.to_nat w) 0 j)
    as (j' & -> & [Ta' Tb' _] & Hbuf); [by constructor; [..|apply initialize_mattes_ok]|lia|lia|].
  cbn [mbind option_bind].
  destruct (tracks_end _ _ _ _ _ _ _ _ Ta') as [-> ->]. destruct (tracks_end _ _ _ _ _ _ _ _ Tb') as [-> ->].
  eexists. do 2 f_equal. unfold compose_line. cbv zeta. destruct (Z.leb_spec h line); [lia|].
  rewrite Hbuf, Z.add_0_r, Z.sub_0_r. reflexivity.
Qed.

(** C8. Whenever the reference draws a line, decoding both planes, holding and
    composing them pixel by pixel, the fused scanout job draws the same line,
    keeps the same decoded rows and reports the same bytes. *)
Theorem scanout_job_is_reference ram0 ram1 r w buffer fld h address_a address_b line wa wb old_a old_b bf
    ua ub fin_a fin_b :
  let fetch := dram_byte ram0 ram1 in
  0 <= w <= 768 -> 0 <= wa -> 0 <= wb -> length old_a = 768%nat -> length old_b = 768%nat -> line < h ->
  decode_planes fetch r w address_a address_b wa wb = Some (ua, ub, fin_a, fin_b) ->
  exists fused,
    scanout_job fetch r w buffer fld address_a address_b line wa wb old_a old_b bf =
    Some (ua, ub, fin_a, fin_b, compose_line r w buffer fld h line fin_a fin_b bf, fused).
Proof. intros fetch. apply scanout_job_draws, dram_byte_fetch. Qed.

(** A run-length plane under a matte, with the reference's answer computed. *)
Lemma scanout_job_is_reference_witness :
  let r := set_mattes [0; 0x900001; 0; 0; 0; 0; 0; 0] (sample_registers CODING_CLUT7 FILE_RUN_LENGTH) in
  let r := upd_plane 0 (set_hold_enabled false) (upd_plane 1 (set_coding CODING_OFF) r) in
  let f := dram_byte (mstore ∅ 0 [0x81; 0]) ∅ in
  let row := replicate 768 0 in
  match decode_planes f r 4 0 0x200000 2 2 with
  | Some (ua, ub, fin_a, fin_b) =>
    exists fused,
      scanout_job f r 4 false 0 0 0x200000 0 2 2 row row (mkBuffers ∅ ∅ ∅ ∅ ∅) =
      Some (ua, ub, fin_a, fin_b, compose_line r 4 false 0 1 0 fin_a fin_b (mkBuffers ∅ ∅ ∅ ∅ ∅), fused)
  | None => False
  end.
Proof.
  intros r0 r f row.
  destruct (decode_planes f r 4 0 0x200000 2 2) as [[[[ua ub] fin_a] fin_b]|] eqn:E;
    [|vm_compute in E; discriminate].
  apply (scanout_job_is_reference (mstore ∅ 0 [0x81; 0]) ∅ r 4 false 0 1 0 0x200000 0 2 2 row row
           (mkBuffers ∅ ∅ ∅ ∅ ∅) ua ub fin_a fin_b); [lia|lia|lia|reflexivity|reflexivity|lia|exact E].
Defined.
