(* ===== verification/VideoRefine.v ===== *)
(** The build that reuses completed lines shows the frames of the reference
    build: a forward simulation over the operations of the pixel pipeline. *)

From Stdlib Require Import ZArith Lia Bool.
From stdpp Require Import base tactics numbers list gmap.
From S2P Require Import Prelude Mcd212 Video Scanout VideoSpec VideoRows ScanoutSpec.
Open Scope Z_scope.

(** * Storage up to extensionality *)
Definition meq (m1 m2 : mem) : Prop := forall a, mget m1 a = mget m2 a.
Infix "≈" := meq (at level 70).
#[export] Instance meq_equivalence : Equivalence meq.
Proof.
  split; [intros m a; done|intros m n H a; by rewrite H|intros m n p H1 H2 a; by rewrite H1, H2].
Qed.
#[export] Instance mget_proper : Proper (meq ==> eq ==> eq) mget.
Proof. intros m n H a _ <-. apply H. Qed.
#[export] Instance mset_proper : Proper (meq ==> eq ==> eq ==> meq) mset.
Proof. intros m n H a _ <- v _ <- b. by rewrite !mget_mset, H. Qed.
#[export] Instance mstore_proper : Proper (meq ==> eq ==> eq ==> meq) mstore.
Proof. intros m n H lo _ <- l _ <- b. by rewrite !mget_mstore, H. Qed.
#[export] Instance mload_proper : Proper (meq ==> eq ==> eq ==> eq) mload.
Proof.
  intros m n H lo _ <- k _ <-. revert lo. induction k as [|k IH]; intros lo; [done|].
  cbn [mload]. by rewrite H, IH.
Qed.
#[export] Instance visible_proper : Proper (meq ==> eq ==> eq ==> eq) visible.
Proof. intros m n H w _ <- h _ <-. unfold visible. by rewrite H. Qed.

Record same_buffers (f g : Buffers) : Prop := {
  sb_frame0 : frame0 f ≈ frame0 g;
  sb_frame1 : frame1 f ≈ frame1 g;
  sb_plane_a : plane_frame_a f ≈ plane_frame_a g;
  sb_plane_b : plane_frame_b f ≈ plane_frame_b g;
  sb_verdict : verdict_frame f ≈ verdict_frame g;
}.
#[export] Instance same_buffers_equivalence : Equivalence same_buffers.
Proof.
  split.
  - intros f. by split.
  - intros f g []. by split.
  - intros f g k [] []. split; etransitivity; eassumption.
Qed.
#[export] Instance frame_of_proper : Proper (eq ==> same_buffers ==> meq) frame_of.
Proof. intros b _ <- f g []. by destruct b. Qed.
#[export] Instance set_frame_proper : Proper (eq ==> meq ==> same_buffers ==> same_buffers) set_frame.
Proof. intros b _ <- m n H f g []. by destruct b; split. Qed.
#[export] Instance put_drawn_proper : Proper (eq ==> eq ==> eq ==> same_buffers ==> same_buffers) put_drawn.
Proof.
  intros b _ <- lo _ <- l _ <- f g H. unfold put_drawn. cbv zeta.
  assert (Hf : frame_of b f ≈ frame_of b g) by (by rewrite H). destruct H.
  destruct b; split; cbn in *; try done; by apply mstore_proper.
Qed.

Lemma frame_of_set b c m f : frame_of b (set_frame c m f) = if eqb b c then m else frame_of b f.
Proof. by destruct b, c. Qed.

(** * A line on the buffers *)

(** [l] laid over [m0] at [lo]. *)
Definition laid (m m0 : mem) (lo : Z) (l : list Z) : Prop :=
  forall a, mget m a = if (lo <=? a) && (a <? lo + Z.of_nat (length l)) then lget l (a - lo) else mget m0 a.
Lemma laid_mstore m lo l : laid (mstore m lo l) m lo l.
Proof. intros a. apply mget_mstore. Qed.
Lemma laid_mset m m0 lo l x c :
  laid m m0 lo l -> 0 <= x < Z.of_nat (length l) -> laid (mset m (lo + x) c) m0 lo (lset l x c).
Proof.
  intros H Hx a. rewrite mget_mset, H, length_lset. destruct (Z.eqb_spec (lo + x) a) as [<-|Hne].
  - replace ((lo <=? lo + x) && (lo + x <? lo + Z.of_nat (length l))) with true by lia.
    replace (lo + x - lo) with x by lia. symmetry. apply lget_lset_eq. lia.
  - destruct (_ && _) eqn:E; [|done]. symmetry. apply lget_lset_ne; lia.
Qed.
Lemma laid_foldl m m0 lo l (ws : list (Z * Z)) :
  laid m m0 lo l -> Forall (fun p => 0 <= p.1 < Z.of_nat (length l)) ws ->
  laid (foldl (fun m '(x, color) => mset m (lo + x) color) m ws) m0 lo
    (foldl (fun l '(x, color) => lset l x color) l ws) /\
  length (foldl (fun l '(x, color) => lset l x color) l ws) = length l.
Proof.
  intros H Hws. revert m l H Hws. induction ws as [|[x c] ws IH]; intros m l H Hws; [done|].
  apply Forall_cons in Hws as [Hx Hws]. cbn [foldl fst] in *.
  rewrite <- (length_lset l x c). apply IH; [by apply laid_mset|by rewrite length_lset].
Qed.

Section Line.
Context (r : VideoRegisters) (w fld line : Z) (fin_a fin_b : list Z).

Definition line_drawn : list Drawn :=
  compose_pixels r fin_a fin_b (Z.to_nat w) 0 (initialize_matte_state r).
(** The pixels of the line, the cursor over the planes. *)
Definition line_pixels : list Z :=
  foldl (fun l '(x, color) => lset l x color) (d_pixel <$> line_drawn) (cursor_writes r w line fld).

Lemma length_compose_pixels n x s : length (compose_pixels r fin_a fin_b n x s) = n.
Proof. revert x s. induction n as [|n IH]; intros x s; [done|]. cbn. by rewrite IH. Qed.
Lemma length_line_drawn : length line_drawn = Z.to_nat w.
Proof. apply length_compose_pixels. Qed.

Lemma cursor_writes_in_line :
  0 <= cursor_x (cursor r) -> Forall (fun p => 0 <= p.1 < w) (cursor_writes r w line fld).
Proof.
  intros Hx. unfold cursor_writes. cbv zeta. destruct (_ || _); [done|].
  destruct (cursor_color_at r fld); [|done].
  apply Forall_forall. intros p Hp. apply list_elem_of_bind in Hp as (column & Hp & Hcol).
  destruct (negb _); [by apply not_elem_of_nil in Hp|].
  apply list_elem_of_fmap in Hp as (x & -> & Hin). apply list_elem_of_filter in Hin as [Hlt Hin].
  apply elem_of_seqZ in Hcol, Hin. cbn. split; [|done]. destruct (high_resolution _); lia.
Qed.
End Line.

(** What a line leaves in the buffers. *)
Record drew (b : bool) (lo : Z) (pixels : list Z) (drawn : list Drawn) (g f : Buffers) : Prop := {
  dr_frame : laid (frame_of b g) (frame_of b f) lo pixels;
  dr_other : frame_of (negb b) g = frame_of (negb b) f;
  dr_plane_a : laid (plane_frame_a g) (plane_frame_a f) lo (d_raw_a <$> drawn);
  dr_plane_b : laid (plane_frame_b g) (plane_frame_b f) lo (d_raw_b <$> drawn);
  dr_verdict : laid (verdict_frame g) (verdict_frame f) lo (d_verdict <$> drawn);
}.

Lemma compose_line_drew r w b fld h line fin_a fin_b f :
  0 <= w -> 0 <= cursor_x (cursor r) -> line < h ->
  drew b (line_offset w line) (line_pixels r w fld line fin_a fin_b) (line_drawn r w fin_a fin_b)
    (compose_line r w b fld h line fin_a fin_b f) f /\
  length (line_pixels r w fld line fin_a fin_b) = Z.to_nat w.
Proof.
  intros Hw Hx Hh. unfold compose_line. cbv zeta. replace (h <=? line) with false by lia.
  fold (line_drawn r w fin_a fin_b). set (lo := line_offset w line). set (l := line_drawn r w fin_a fin_b).
  assert (Hl : length (d_pixel <$> l) = Z.to_nat w) by (rewrite length_fmap; apply length_line_drawn).
  assert (Hws : Forall (fun p => 0 <= p.1 < Z.of_nat (length (d_pixel <$> l))) (cursor_writes r w line fld)).
  { rewrite Hl, Z2Nat.id by lia. by apply cursor_writes_in_line. }
  assert (Hframe : frame_of b (put_drawn b lo l f) = mstore (frame_of b f) lo (d_pixel <$> l)) by (by destruct b).
  destruct (laid_foldl _ _ _ _ _ (laid_mstore (frame_of b f) lo (d_pixel <$> l)) Hws) as [Hlaid Hlen].
  split; [|by rewrite <- Hl].
  unfold draw_cursor. split.
  - rewrite frame_of_set, eqb_reflx, Hframe. exact Hlaid.
  - rewrite frame_of_set. by destruct b.
  - destruct b; apply laid_mstore.
  - destruct b; apply laid_mstore.
  - destruct b; apply laid_mstore.
Qed.

Lemma compose_line_proper r w b fld h line fin_a fin_b f g :
  same_buffers f g ->
  same_buffers (compose_line r w b fld h line fin_a fin_b f) (compose_line r w b fld h line fin_a fin_b g).
Proof.
  intros H. unfold compose_line. cbv zeta. destruct (_ <=? _); [done|]. unfold draw_cursor.
  set (f' := put_drawn _ _ _ f). set (g' := put_drawn _ _ _ g).
  assert (Hp : same_buffers f' g') by (by apply put_drawn_proper). apply set_frame_proper; [done| |done].
  assert (Hm : frame_of b f' ≈ frame_of b g') by (by rewrite Hp). revert Hm.
  generalize (frame_of b f') (frame_of b g'). clear.
  induction (cursor_writes r w line fld) as [|[x c] ws IH]; intros m n Hm; [done|].
  cbn [foldl]. apply IH. by rewrite Hm.
Qed.

(** * Lines that may stand for others *)

(** The buffers show the line at [lo]. *)
Record shows (b : bool) (lo w : Z) (pixels : list Z) (drawn : list Drawn) (f : Buffers) : Prop := {
  sh_frame : forall x, 0 <= x < w -> mget (frame_of b f) (lo + x) = lget pixels x;
  sh_plane_a : forall x, 0 <= x < w -> mget (plane_frame_a f) (lo + x) = lget (d_raw_a <$> drawn) x;
  sh_plane_b : forall x, 0 <= x < w -> mget (plane_frame_b f) (lo + x) = lget (d_raw_b <$> drawn) x;
  sh_verdict : forall x, 0 <= x < w -> mget (verdict_frame f) (lo + x) = lget (d_verdict <$> drawn) x;
}.

Lemma laid_in m m0 lo l w x :
  laid m m0 lo l -> Z.of_nat (length l) = w -> 0 <= x < w -> mget m (lo + x) = lget l x.
Proof.
  intros H Hl Hx. rewrite H. replace (_ && _) with true by lia. f_equal. lia.
Qed.
Lemma laid_out m m0 lo l w a :
  laid m m0 lo l -> Z.of_nat (length l) = w -> a < lo \/ lo + w <= a -> mget m a = mget m0 a.
Proof. intros H Hl Ha. rewrite H. by replace (_ && _) with false by lia. Qed.

Lemma drew_shows b lo w pixels drawn g f :
  drew b lo pixels drawn g f -> Z.of_nat (length pixels) = w -> Z.of_nat (length drawn) = w ->
  shows b lo w pixels drawn g.
Proof.
  intros [] Hp Hd. split; intros x Hx; (eapply laid_in; [eassumption| |done]); rewrite ?length_fmap; done.
Qed.
(** A line over the one that is shown changes nothing. *)
Lemma shows_drew b lo w pixels drawn g f :
  shows b lo w pixels drawn f -> drew b lo pixels drawn g f ->
  Z.of_nat (length pixels) = w -> Z.of_nat (length drawn) = w -> same_buffers g f.
Proof.
  assert (Hlaid : forall m m0 l, laid m m0 lo l -> Z.of_nat (length l) = w ->
    (forall x, 0 <= x < w -> mget m0 (lo + x) = lget l x) -> m ≈ m0).
  { intros m m0 l H Hl Hs a. rewrite H. destruct (_ && _) eqn:E; [|done].
    rewrite <- Hs by lia. f_equal. lia. }
  intros Hs Hg Hp Hd. pose proof Hs as [S1 S2 S3 S4]. pose proof Hg as [G1 G2 G3 G4 G5].
  assert (F : frame_of b g ≈ frame_of b f) by (by eapply Hlaid).
  assert (A : plane_frame_a g ≈ plane_frame_a f) by (apply (Hlaid _ _ _ G3); [by rewrite length_fmap|done]).
  assert (B : plane_frame_b g ≈ plane_frame_b f) by (apply (Hlaid _ _ _ G4); [by rewrite length_fmap|done]).
  assert (V : verdict_frame g ≈ verdict_frame f) by (apply (Hlaid _ _ _ G5); [by rewrite length_fmap|done]).
  destruct b; cbn in *; split; try done; by rewrite G2.
Qed.
(** A line elsewhere leaves what is shown. *)
Lemma drew_keeps_shown b lo lo' w pixels drawn pixels' drawn' g f :
  shows b lo w pixels drawn f -> drew b lo' pixels' drawn' g f ->
  Z.of_nat (length pixels') = w -> Z.of_nat (length drawn') = w ->
  lo + w <= lo' \/ lo' + w <= lo -> shows b lo w pixels drawn g.
Proof.
  intros [S1 S2 S3 S4] [] Hp Hd Hlo.
  split; intros x Hx; (erewrite laid_out; [|eassumption|rewrite ?length_fmap; eassumption|lia]); auto.
Qed.
Lemma shows_same b lo w pixels drawn f g :
  shows b lo w pixels drawn f -> same_buffers f g -> shows b lo w pixels drawn g.
Proof.
  intros [S1 S2 S3 S4] H. pose proof H as [F0 F1 A B V].
  split; intros x Hx; [rewrite <- H|rewrite <- A|rewrite <- B|rewrite <- V]; auto.
Qed.

(** * The registers of a remembered line *)
Lemma set_start_field_id c : set_start_field (start_field c) c = c.
Proof. by destruct c. Qed.
Lemma upd_cursor_id r : upd_cursor (set_start_field (start_field (cursor r))) r = r.
Proof. destruct r as [? ? c]. unfold upd_cursor, set_cursor. cbn. by destruct c. Qed.

(** Equal keys differ at most in the restart field of a cursor that does not blink. *)
Lemma line_key_inj r r0 :
  line_key r = line_key r0 ->
  (exists s, r0 = upd_cursor (set_start_field s) r) /\ (blinking (cursor r) = true -> r0 = r).
Proof.
  assert (Hsame : forall s r, blinking (cursor (upd_cursor (set_start_field s) r)) = blinking (cursor r)) by done.
  unfold line_key. destruct (blinking (cursor r)) eqn:E, (blinking (cursor r0)) eqn:E0; intros H.
  - subst r0. split; [|done]. exists (start_field (cursor r)). by rewrite upd_cursor_id.
  - exfalso. apply (f_equal (fun r => blinking (cursor r))) in H. rewrite Hsame in H. congruence.
  - exfalso. apply (f_equal (fun r => blinking (cursor r))) in H. rewrite Hsame in H. congruence.
  - split; [|done]. exists (start_field (cursor r0)).
    apply (f_equal (upd_cursor (set_start_field (start_field (cursor r0))))) in H.
    etransitivity; [symmetry; apply upd_cursor_id|]. symmetry. exact H.
Qed.

Section Start.
Context (f : Z -> option Z) (s : Z) (r : VideoRegisters) (w : Z).
Let r' := upd_cursor (set_start_field s) r.

Lemma clut_lookup_start plane index : clut_lookup r' plane index = clut_lookup r plane index.
Proof. reflexivity. Qed.
Lemma clut4_loop_start plane pixels n address out :
  clut4_loop f r' plane pixels n address out = clut4_loop f r plane pixels n address out.
Proof. reflexivity. Qed.
Lemma clut_loop_start plane mask d n address :
  clut_loop f r' plane mask d n address = clut_loop f r plane mask d n address.
Proof. reflexivity. Qed.
Lemma run_loop_start plane address output paired d fuel consumed x :
  run_loop f r' plane address output paired d fuel consumed x =
  run_loop f r plane address output paired d fuel consumed x.
Proof. reflexivity. Qed.
Lemma plane_setup_start plane : plane_setup plane r' = plane_setup plane r.
Proof. reflexivity. Qed.
Lemma decode_plane_start plane a aa source : decode_plane f r' w plane a aa source = decode_plane f r w plane a aa source.
Proof.
  unfold decode_plane, decode_run_length, decode_clut, decode_dyuv. rewrite plane_setup_start. cbv zeta.
  rewrite run_loop_start, clut4_loop_start, clut_loop_start. reflexivity.
Qed.
Lemma apply_pixel_hold_start plane row : apply_pixel_hold r' w plane row = apply_pixel_hold r w plane row.
Proof. unfold apply_pixel_hold. by rewrite plane_setup_start. Qed.
End Start.
Lemma decode_planes_start f s r w a b wa wb :
  decode_planes f (upd_cursor (set_start_field s) r) w a b wa wb = decode_planes f r w a b wa wb.
Proof.
  unfold decode_planes. rewrite !decode_plane_start. cbv zeta. do 2 (apply option_bind_ext_fun; intros ?).
  rewrite apply_pixel_hold_start. apply option_bind_ext_fun; intros ?.
  reflexivity.
Qed.
Lemma apply_matte_start s r x m :
  apply_matte_commands (upd_cursor (set_start_field s) r) x m = apply_matte_commands r x m.
Proof.
  assert (H : forall fuel m f0 f1, matte_loop (upd_cursor (set_start_field s) r) x fuel m f0 f1 = matte_loop r x fuel m f0 f1).
  { reflexivity. }
  unfold apply_matte_commands. rewrite H. destruct (matte_loop r x 8 _ _ _) as [[? ?] ?]. by rewrite H.
Qed.
Lemma compose_pixel_start s r a b m :
  compose_pixel (upd_cursor (set_start_field s) r) a b m = compose_pixel r a b m.
Proof. unfold compose_pixel. cbn [plane_a plane_b plane_b_front mixing backdrop upd_cursor set_cursor]. reflexivity. Qed.
Lemma compose_pixels_start s r rows_a rows_b n x m :
  compose_pixels (upd_cursor (set_start_field s) r) rows_a rows_b n x m = compose_pixels r rows_a rows_b n x m.
Proof.
  revert x m. induction n as [|n IH]; intros x m; [done|]. cbn [compose_pixels]. cbv zeta.
  by rewrite apply_matte_start, compose_pixel_start, IH.
Qed.
Lemma line_drawn_start s r w fin_a fin_b :
  line_drawn (upd_cursor (set_start_field s) r) w fin_a fin_b = line_drawn r w fin_a fin_b.
Proof. unfold line_drawn. rewrite compose_pixels_start. reflexivity. Qed.

(** The cursor of an eligible line does not depend on the field. *)
Lemma cursor_writes_key r r0 w line fld fld0 :
  line_key r = line_key r0 -> eligible r line = true ->
  cursor_writes r w line fld = cursor_writes r0 w line fld0.
Proof.
  intros Hkey He. destruct (line_key_inj _ _ Hkey) as [[s ->] Hblink].
  unfold eligible in He. apply andb_prop in He as [_ He].
  unfold cursor_writes, cursor_color_at. cbv zeta.
  change (cursor (upd_cursor (set_start_field s) r)) with (set_start_field s (cursor r)).
  destruct (cursor r) as [x y p en col hr cb on off sf] eqn:Ec. unfold blinking in *. cbn in *.
  destruct en; cbn in *; [|done]. destruct (z2b off) eqn:Eoff; cbn in *; [|done].
  destruct (Z.leb_spec y line), (Z.ltb_spec line (y + 16)); try done.
  - replace (line <? y) with false by lia. by replace (y + 16 <=? line) with true by lia.
  - replace (line <? y) with true by lia. done.
  - replace (line <? y) with true by lia. done.
Qed.
Lemma line_pixels_key r r0 w fld fld0 line fin_a fin_b :
  line_key r = line_key r0 -> eligible r line = true ->
  line_pixels r w fld line fin_a fin_b = line_pixels r0 w fld0 line fin_a fin_b.
Proof.
  intros Hkey He. unfold line_pixels. rewrite (cursor_writes_key r r0 w line fld fld0 Hkey He).
  destruct (line_key_inj _ _ Hkey) as [[s ->] _]. by rewrite line_drawn_start.
Qed.

(** * The source bytes of a remembered line *)
Lemma line_source_holds ram0 ram1 address count bytes :
  0 <= address -> 0 <= count -> line_source ram0 ram1 address count = Some bytes ->
  Z.of_nat (length bytes) = count /\ holds (dram_byte ram0 ram1) address bytes.
Proof.
  intros Ha Hc. unfold line_source.
  assert (Hread : forall (m : mem) off, forall i, 0 <= i < count ->
    lget (u8 <$> mload m off (Z.to_nat count)) i = u8 (mget m (off + i))).
  { intros m off i Hi. unfold lget. rewrite nth_lookup, list_lookup_fmap.
    rewrite <- (nth_mload m off (Z.to_nat count) i) by lia. rewrite nth_lookup.
    destruct (lookup_lt_is_Some_2 (mload m off (Z.to_nat count)) (Z.to_nat i)) as [v Hv];
      [rewrite length_mload; lia|]. by rewrite Hv. }
  destruct (Z.eqb_spec count 0); [intros [= <-]; split; [done|intros i Hi; cbn in Hi; lia]|].
  destruct (_ <? count); [done|].
  destruct ((address <? CDI_RAM0_SIZE) && (count <=? CDI_RAM0_SIZE - address)) eqn:E0.
  - intros [= <-]. split; [rewrite length_fmap, length_mload; lia|].
    intros i Hi. rewrite length_fmap, length_mload in Hi. rewrite Hread by lia. unfold dram_byte.
    unfold CDI_RAM0_SIZE in *. rewrite u32_id by (unfold is_word; lia).
    by replace (address + i <? 524288) with true by lia.
  - destruct ((CDI_RAM1_BASE <=? address) && _ && _) eqn:E1; [|done].
    intros [= <-]. split; [rewrite length_fmap, length_mload; lia|].
    intros i Hi. rewrite length_fmap, length_mload in Hi. rewrite Hread by lia. unfold dram_byte.
    unfold CDI_RAM0_SIZE, CDI_RAM1_BASE, CDI_RAM1_SIZE in *. rewrite u32_id by (unfold is_word; lia).
    replace (address + i <? 524288) with false by lia.
    replace ((2097152 <=? address + i) && (address + i - 2097152 <? 524288)) with true by lia.
    do 3 f_equal. lia.
Qed.
Lemma holds_agree f g address bytes n :
  holds f address bytes -> holds g address bytes -> Z.of_nat (length bytes) = n -> agrees f g address n.
Proof. intros H1 H2 <- i Hi. by rewrite H1, H2. Qed.

(** Planes that are not coupled decode alike from memories that hold their bytes. *)
Lemma decode_planes_ext f g r w a b wa wb ua ub fin_a fin_b :
  byte_fetch f -> 0 <= w -> 0 <= wa -> 0 <= wb -> coding (plane_b r) <> CODING_RGB555 ->
  decode_planes f r w a b wa wb = Some (ua, ub, fin_a, fin_b) ->
  agrees f g a ua -> agrees f g b ub -> decode_planes g r w a b wa wb = Some (ua, ub, fin_a, fin_b).
Proof.
  intros Hf Hw Hwa Hwb Hrgb H Ha Hb.
  destruct (decode_planes_inv _ _ _ _ _ _ _ _ _ _ _ H) as (na & ra & rb & Da & Db & Hha & Hhb & ->).
  rewrite decide_False in * by done. unfold decode_planes.
  rewrite (decode_plane_ext f g r Hf _ _ _ _ _ _ _ Hw Hwa Da Ha (fun _ => Ha)). cbn [mbind option_bind].
  rewrite (decode_plane_ext f g r Hf _ _ _ _ _ _ _ Hw Hwb Db Hb (fun E => False_ind _ (Hrgb E))). cbn [mbind option_bind]. cbv zeta.
  rewrite decide_False by done. cbn [fst snd]. rewrite Hha. cbn [mbind option_bind]. by rewrite Hhb.
Qed.

(** * The simulation *)

(** A line's last job: what it drew is still on display, and it can be redrawn
    from the bytes it kept. *)
Record job_ok (w h : Z) (b : bool) (f : Buffers) (line : Z) (job : CompletedLine) : Prop := {
  jo_line : 0 <= line < h;
  jo_args : 0 <= width_a job /\ 0 <= width_b job;
  jo_source : exists fetch r0 fld0,
    byte_fetch fetch /\ line_key r0 = job_registers job /\ eligible r0 line = true /\
    decode_planes fetch r0 w (address_a job) (address_b job) (width_a job) (width_b job) =
      Some (consumed_a job, consumed_b job, job_decoded_a job, job_decoded_b job) /\
    holds fetch (address_a job) (source_a job) /\ Z.of_nat (length (source_a job)) = consumed_a job /\
    holds fetch (address_b job) (source_b job) /\ Z.of_nat (length (source_b job)) = consumed_b job /\
    shows b (line_offset w line) w
      (line_pixels r0 w fld0 line (job_decoded_a job) (job_decoded_b job))
      (line_drawn r0 w (job_decoded_a job) (job_decoded_b job)) f;
}.

(** The two builds, [e] pixels of the drawing buffer touched_pixels since the field began. *)
Record sim (e : Z) (vl vh : VideoPipeline) : Prop := {
  si_registers : registers vh = registers vl;
  si_decoded : decoded_a vh = decoded_a vl /\ decoded_b vh = decoded_b vl;
  si_rows : length (decoded_a vl) = 768%nat /\ length (decoded_b vl) = 768%nat;
  si_cursor : 0 <= cursor_x (cursor (registers vl));
  si_buffers : same_buffers (buffers vh) (buffers vl);
  si_geometry : width vh = width vl /\ height vh = height vl;
  si_size : 0 <= width vl <= 768 /\ 0 <= height vl <= 560;
  si_published : published_width (publication vh) = published_width (publication vl) /\
    published_height (publication vh) = published_height (publication vl);
  si_drawing : drawing vh = drawing vl /\ published_buffer (publication vh) = negb (drawing vh) /\
    published_buffer (publication vl) = negb (drawing vl);
  si_sequence : generation (publication vh) = generation (publication vl) /\
    publish_sequence (publication vh) = publish_sequence (publication vl);
  si_jobs_run : scanout_jobs (counters vh) = scanout_jobs (counters vl);
  si_extent : 0 <= e <= width vl * height vl;
  si_clean : forall a, a < 0 \/ e <= a -> mget (frame0 (buffers vl)) a = mget (frame1 (buffers vl)) a;
  si_hash : generation (publication vh) <> 0 -> published_hash (publication vh) = hash_frame_bytes (shown_frame vh);
  si_completed : forall line job, completed_lines vh !! line = Some job ->
    job_ok (width vh) (height vh) (drawing vh) (buffers vh) line job;
}.

Lemma shown_frame_same vl vh e : sim e vl vh -> shown_frame vh = shown_frame vl.
Proof.
  intros [? ? ? ? Hb ? ? [Hpw Hph] [Hd [Hp Hp']] ? ? ? ? ? ?]. unfold shown_frame. cbv zeta.
  rewrite Hpw, Hph, Hp, Hp', Hd. by rewrite Hb.
Qed.

Lemma sim_reset : sim 0 mcd212_video_reset mcd212_video_reset.
Proof.
  constructor.
  - reflexivity.
  - split; reflexivity.
  - split; reflexivity.
  - cbn. lia.
  - reflexivity.
  - split; reflexivity.
  - cbn. lia.
  - split; reflexivity.
  - split_and!; reflexivity.
  - split; reflexivity.
  - reflexivity.
  - cbn. lia.
  - reflexivity.
  - intros H. destruct H. reflexivity.
  - intros line job H. cbn in H. by rewrite lookup_empty in H.
Qed.

(** ** A job that can be reused redraws what is shown *)
Lemma reusable_job_redraws ram0 ram1 a b line wa wb v job :
  reusable_job ram0 ram1 a b line wa wb v = Some job -> 0 <= a -> 0 <= b ->
  0 <= width v -> job_ok (width v) (height v) (drawing v) (buffers v) line job ->
  decode_planes (dram_byte ram0 ram1) (registers v) (width v) a b wa wb =
    Some (consumed_a job, consumed_b job, job_decoded_a job, job_decoded_b job) /\
  shows (drawing v) (line_offset (width v) line) (width v)
    (line_pixels (registers v) (width v) (field v) line (job_decoded_a job) (job_decoded_b job))
    (line_drawn (registers v) (width v) (job_decoded_a job) (job_decoded_b job)) (buffers v).
Proof.
  unfold reusable_job. intros H Ha Hb Hw [Hline [Hwa Hwb] (fetch & r0 & fld0 & Hf & Hkey & He0 & Hdec & Hsa & Hla & Hsb & Hlb & Hshow)].
  apply bind_Some in H as (job' & Hjob & H).
  destruct (eligible _ _ && same_inputs _ _ _ _ _ _ && same_sources _ _ _) eqn:E; [|done]. injection H as ->.
  apply andb_prop in E as [E Hsrc]. apply andb_prop in E as [He Hin].
  unfold same_inputs in Hin. repeat (apply andb_prop in Hin as [Hin ?]).
  repeat match goal with H : (_ =? _) = true |- _ => apply Z.eqb_eq in H end.
  match goal with H : bool_decide _ = true |- _ => apply bool_decide_eq_true in H; rename H into Hreg end.
  unfold same_sources in Hsrc. apply andb_prop in Hsrc as [HA HB].
  apply bool_decide_eq_true in HA, HB. subst a b wa wb.
  assert (Hkey' : line_key (registers v) = line_key r0) by congruence.
  assert (Hca : 0 <= consumed_a job) by lia. assert (Hcb : 0 <= consumed_b job) by lia.
  destruct (line_source_holds _ _ _ _ _ Ha Hca HA) as [_ HA']. destruct (line_source_holds _ _ _ _ _ Hb Hcb HB) as [_ HB'].
  split.
  - destruct (line_key_inj _ _ Hkey') as [[s ->] _]. rewrite decode_planes_start in Hdec.
    eapply (decode_planes_ext fetch); try eassumption.
    + unfold eligible in He. apply andb_prop in He as [He _]. by apply negb_true_iff, bool_decide_eq_false in He.
    + eapply holds_agree; eassumption.
    + eapply holds_agree; eassumption.
  - rewrite (line_pixels_key (registers v) r0 _ (field v) fld0) by done.
    destruct (line_key_inj _ _ Hkey') as [[s ->] _]. rewrite line_drawn_start in Hshow. exact Hshow.
Qed.

Lemma sim_after_line e e' vl vh rows_a rows_b fl fh cl ch jobs :
  sim e vl vh -> length rows_a = 768%nat -> length rows_b = 768%nat -> same_buffers fh fl ->
  0 <= e' <= width vl * height vl ->
  (forall a, a < 0 \/ e' <= a -> mget (frame0 fl) a = mget (frame1 fl) a) ->
  frame_of (negb (drawing vh)) fh ≈ frame_of (negb (drawing vh)) (buffers vh) ->
  scanout_jobs ch = scanout_jobs cl ->
  (forall line job, jobs !! line = Some job -> job_ok (width vh) (height vh) (drawing vh) fh line job) ->
  sim e'
    (mkVideo (registers vl) rows_a rows_b fl (width vl) (height vl) (publication vl) cl (completed_lines vl))
    (mkVideo (registers vh) rows_a rows_b fh (width vh) (height vh) (publication vh) ch jobs).
Proof.
  intros [] Hra Hrb Hbuf He Hclean Hother Hc Hjobs.
  constructor; cbn [registers decoded_a decoded_b buffers width height publication counters completed_lines]; try done.
  intros Hg. specialize (si_hash0 Hg). rewrite si_hash0. f_equal. unfold shown_frame. cbv zeta.
  cbn [publication buffers]. destruct si_drawing0 as [_ [-> _]]. unfold drawing in *. cbn [publication].
  by rewrite Hother.
Qed.

(** Drawing in a line keeps the buffers equal beyond the touched_pixels prefix. *)
Lemma drew_clean b lo w pixels drawn g f e :
  drew b lo pixels drawn g f -> Z.of_nat (length pixels) = w -> 0 <= lo ->
  (forall a, a < 0 \/ e <= a -> mget (frame0 f) a = mget (frame1 f) a) ->
  forall a, a < 0 \/ Z.max e (lo + w) <= a -> mget (frame0 g) a = mget (frame1 g) a.
Proof.
  intros [Hf Ho _ _ _] Hp Hlo Hclean a Ha.
  assert (Hb : mget (frame_of b g) a = mget (frame_of b f) a) by (eapply laid_out; [exact Hf|exact Hp|lia]).
  specialize (Hclean a ltac:(lia)). destruct b; cbn in *; congruence.
Qed.

Lemma length_fins f r w a b wa wb ua ub fin_a fin_b :
  decode_planes f r w a b wa wb = Some (ua, ub, fin_a, fin_b) -> length fin_a = 768%nat /\ length fin_b = 768%nat.
Proof.
  intros H. destruct (decode_planes_inv _ _ _ _ _ _ _ _ _ _ _ H) as (na & ra & rb & Ha & Hb & Hra & Hrb & _).
  apply decode_plane_length in Ha, Hb. apply length_apply_pixel_hold in Hra, Hrb. split; congruence.
Qed.

(** Lines lie apart. *)
Lemma lines_apart w l l' : 0 <= w -> l <> l' ->
  line_offset w l + w <= line_offset w l' \/ line_offset w l' + w <= line_offset w l.
Proof. unfold line_offset. intros Hw Hl. destruct (Z.lt_ge_cases l l'); [left|right]; nia. Qed.

Lemma job_ok_drew w h b f g line job lo pixels drawn :
  job_ok w h b f line job -> drew b lo pixels drawn g f ->
  Z.of_nat (length pixels) = w -> Z.of_nat (length drawn) = w ->
  line_offset w line + w <= lo \/ lo + w <= line_offset w line -> job_ok w h b g line job.
Proof.
  intros [Hl Ha (fetch & r0 & fld0 & H1 & H2 & H3 & H4 & H5 & H6 & H7 & H8 & Hs)] Hd Hp Hdr Hlo.
  split; [done|done|]. exists fetch, r0, fld0. split_and!; try done.
  eapply drew_keeps_shown; eassumption.
Qed.
Lemma job_ok_same w h b f g line job : job_ok w h b f line job -> same_buffers f g -> job_ok w h b g line job.
Proof.
  intros [Hl Ha (fetch & r0 & fld0 & H1 & H2 & H3 & H4 & H5 & H6 & H7 & H8 & Hs)] Hfg.
  split; [done|done|]. exists fetch, r0, fld0. split_and!; try done. eapply shows_same; eassumption.
Qed.

(** A remembered line is in order. *)
Lemma remembered_ok ram0 ram1 r w h b fld line a bb wa wb ua ub fin_a fin_b bytes_a bytes_b f :
  0 <= line < h -> 0 <= a -> 0 <= bb -> 0 <= wa -> 0 <= wb -> eligible r line = true ->
  0 <= ua -> 0 <= ub ->
  decode_planes (dram_byte ram0 ram1) r w a bb wa wb = Some (ua, ub, fin_a, fin_b) ->
  line_source ram0 ram1 a ua = Some bytes_a -> line_source ram0 ram1 bb ub = Some bytes_b ->
  shows b (line_offset w line) w (line_pixels r w fld line fin_a fin_b) (line_drawn r w fin_a fin_b) f ->
  job_ok w h b f line (mkCompleted (line_key r) a bb wa wb ua ub bytes_a bytes_b fin_a fin_b).
Proof.
  intros Hl Ha Hb Hwa Hwb He Hua Hub Hdec HA HB Hs. split; [done|done|].
  destruct (line_source_holds _ _ _ _ _ Ha Hua HA) as [La Ha']. destruct (line_source_holds _ _ _ _ _ Hb Hub HB) as [Lb Hb'].
  exists (dram_byte ram0 ram1), r, fld. split_and!; try done. apply dram_byte_fetch.
Qed.

Lemma decode_planes_counts f r w a b wa wb ua ub fin_a fin_b :
  byte_fetch f -> decode_planes f r w a b wa wb = Some (ua, ub, fin_a, fin_b) -> 0 <= w -> 0 <= wa -> 0 <= wb ->
  0 <= ua /\ 0 <= ub.
Proof.
  intros Hf H Hw Hwa Hwb. destruct (decode_planes_inv _ _ _ _ _ _ _ _ _ _ _ H) as (na & ra & rb & Ha & Hb & _ & _ & ->).
  assert (Hn : forall plane address aa s n row, 0 <= s -> decode_plane f r w plane address aa s = Some (n, row) -> 0 <= n).
  { clear -Hf Hw. intros plane address aa s n row Hs H. unfold decode_plane in H. cbv zeta in H.
    destruct (decide _); [apply bind_Some in H as (x & _ & H); injection H as <- <-; lia|].
    destruct (decide _); apply bind_Some in H as ([c l] & H & E); apply bind_Some in E as (x & _ & E);
      injection E as <- <-; cbn [fst].
    - unfold decode_run_length in H. apply bind_Some in H as ([c1 l1] & _ & E). injection E as <- <-. apply u16_range.
    - assert (Hsw : forall m s, 0 <= s -> 0 <= (if 1 <? m then u16 ((s + m - 1) / m) else s)).
      { intros m s' Hs'. destruct (1 <? m); [apply u16_range|done]. }
      assert (Hs' : 0 <= (if wide_source (plane_setup plane r) then w else s)) by (destruct (wide_source _); done).
      match type of H with context [decode_clut f r plane address ?p ?d] =>
        assert (Hclut : decode_clut f r plane address p d = Some (c, l) -> 0 <= c); [|
        assert (Hpx : 0 <= p) by (apply Hsw; exact Hs')] end.
      { unfold decode_clut. cbv zeta. set (px := if 1 <? _ then _ else _).
        assert (0 <= px) by (apply Hsw; exact Hs'). clearbody px. intros E.
        destruct (decide (coding (plane_setup plane r) = CODING_CLUT4));
          apply bind_Some in E as (l1 & _ & E); injection E as <- <-; [apply u16_range|done]. }
      destruct (coding (plane_setup plane r)); try exact (Hclut H).
      + unfold decode_rgb555 in H. apply bind_Some in H as (l1 & _ & E). injection E as <- <-. exact Hpx.
      + unfold decode_dyuv in H. cbv zeta in H. apply bind_Some in H as (l1 & _ & E). injection E as <- <-.
        apply u16_range. }
  split; [destruct (decide _)|]; eauto.
Qed.

Definition touched_pixels (e w h line : Z) : Z := if line <? h then Z.max e (line_offset w line + w) else e.

(** One line inside the picture, in the reference's terms. *)
Section LineSim.
Context (e : Z) (vl vh : VideoPipeline) (S : sim e vl vh).
Context (ram0 ram1 : mem) (a b line wa wb : Z).
Context (Ha : 0 <= a) (Hb : 0 <= b) (Hline : 0 <= line < height vl) (Hwa : 0 <= wa) (Hwb : 0 <= wb).
Let r := registers vl.
Let w := width vl.
Let h := height vl.
Let fld := field vl.
Context (ua ub : Z) (fin_a fin_b : list Z).
Context (Hdec : decode_planes (dram_byte ram0 ram1) r w a b wa wb = Some (ua, ub, fin_a, fin_b)).
Context (cl ch : Counters) (Hc : scanout_jobs ch = scanout_jobs cl).

Definition after_line (rows_a rows_b : list Z) (f : Buffers) (c : Counters) (jobs : gmap Z CompletedLine)
    (v : VideoPipeline) : VideoPipeline :=
  mkVideo (registers v) rows_a rows_b f (width v) (height v) (publication v) c jobs.

Let fl' := compose_line r w (drawing vl) fld h line fin_a fin_b (buffers vl).
Let fh' := compose_line r w (drawing vl) fld h line fin_a fin_b (buffers vh).
Let pixels := line_pixels r w fld line fin_a fin_b.
Let drawn := line_drawn r w fin_a fin_b.

Lemma line_facts :
  drew (drawing vl) (line_offset w line) pixels drawn fl' (buffers vl) /\
  drew (drawing vl) (line_offset w line) pixels drawn fh' (buffers vh) /\
  Z.of_nat (length pixels) = w /\ Z.of_nat (length drawn) = w /\ same_buffers fh' fl'.
Proof.
  pose proof S as []. subst r w h fld.
  destruct (compose_line_drew (registers vl) (width vl) (drawing vl) (field vl) (height vl) line fin_a fin_b (buffers vl))
    as [Hdl Hpl]; [lia|done|lia|].
  destruct (compose_line_drew (registers vl) (width vl) (drawing vl) (field vl) (height vl) line fin_a fin_b (buffers vh))
    as [Hdh _]; [lia|done|lia|].
  split_and!; [done|done| | |].
  - subst pixels. rewrite Hpl. lia.
  - subst drawn. rewrite length_line_drawn. lia.
  - by apply compose_line_proper.
Qed.

(** Whatever the other build did, it is enough that its buffers hold the line. *)
Lemma line_sim f jobs :
  same_buffers f fh' ->
  (forall l job, jobs !! l = Some job -> job_ok (width vh) (height vh) (drawing vh) f l job) ->
  sim (touched_pixels e w h line)
    (after_line fin_a fin_b fl' cl (completed_lines vl) vl) (after_line fin_a fin_b f ch jobs vh).
Proof.
  intros Hf Hjobs. pose proof S as []. destruct line_facts as (Hdl & Hdh & Hp & Hd & Hfhl).
  destruct (length_fins _ _ _ _ _ _ _ _ _ _ _ Hdec) as [Hfa Hfb].
  assert (Hlo : 0 <= line_offset w line) by (unfold line_offset; subst w; nia).
  assert (Ht : touched_pixels e w h line = Z.max e (line_offset w line + w)).
  { unfold touched_pixels. subst h. by replace (line <? height vl) with true by lia. }
  apply (sim_after_line e); try done.
  - by rewrite Hf.
  - rewrite Ht. unfold line_offset. subst w. nia.
  - intros x Hx. rewrite Ht in Hx. eapply drew_clean; eassumption.
  - destruct si_drawing0 as [-> _]. rewrite Hf. by rewrite (dr_other _ _ _ _ _ _ Hdh).
Qed.

(** Another line's job survives. *)
Lemma other_job_ok f l job :
  same_buffers f fh' -> l <> line -> completed_lines vh !! l = Some job ->
  job_ok (width vh) (height vh) (drawing vh) f l job.
Proof.
  intros Hf Hl Hjob. pose proof S as []. destruct line_facts as (_ & Hdh & Hp & Hd & _).
  pose proof (si_completed0 l job Hjob) as J. destruct si_drawing0 as [Ed _]. rewrite Ed in J |- *.
  destruct si_geometry0 as [Ew _].
  eapply job_ok_same; [|symmetry; exact Hf]. eapply job_ok_drew; [|exact Hdh|..].
  - exact J.
  - by rewrite Ew.
  - by rewrite Ew.
  - rewrite Ew. apply lines_apart; [subst w; lia|done].
Qed.
End LineSim.

Lemma reusable_job_lookup ram0 ram1 a b line wa wb v job :
  reusable_job ram0 ram1 a b line wa wb v = Some job -> completed_lines v !! line = Some job.
Proof.
  unfold reusable_job. intros H. apply bind_Some in H as (job' & Hjob & H).
  destruct (_ && _); [|done]. by injection H as ->.
Qed.

(** A reused line. *)
Lemma reused_line_sim e vl vh ram0 ram1 a b line wa wb job ua ub fin_a fin_b cl ch :
  sim e vl vh -> 0 <= a -> 0 <= b -> 0 <= line < height vl -> 0 <= wa -> 0 <= wb ->
  decode_planes (dram_byte ram0 ram1) (registers vl) (width vl) a b wa wb = Some (ua, ub, fin_a, fin_b) ->
  scanout_jobs ch = scanout_jobs cl ->
  reusable_job ram0 ram1 a b line wa wb vh = Some job ->
  consumed_a job = ua /\ consumed_b job = ub /\ job_decoded_a job = fin_a /\ job_decoded_b job = fin_b /\
  sim (touched_pixels e (width vl) (height vl) line)
    (after_line fin_a fin_b
       (compose_line (registers vl) (width vl) (drawing vl) (field vl) (height vl) line fin_a fin_b (buffers vl))
       cl (completed_lines vl) vl)
    (after_line fin_a fin_b (buffers vh) ch (completed_lines vh) vh).
Proof.
  intros S Ha Hb Hline Hwa Hwb Hdec Hc Hjob. pose proof S as [].
  destruct si_geometry0 as [Ew Eh]. destruct si_drawing0 as [Ed _]. destruct si_sequence0 as [Eg _].
  assert (Hw0 : 0 <= width vh) by (rewrite Ew; lia).
  destruct (reusable_job_redraws _ _ _ _ _ _ _ _ _ Hjob Ha Hb Hw0 (si_completed0 _ _ (reusable_job_lookup _ _ _ _ _ _ _ _ _ Hjob)))
    as [Hdec' Hshow].
  assert (Ef : field vh = field vl) by exact Eg.
  rewrite si_registers0, Ew in Hdec'. rewrite Hdec in Hdec'. injection Hdec' as Eua Eub Ea Eb.
  rewrite si_registers0, Ew, Ed, Ef, <- Ea, <- Eb in Hshow.
  split_and!; try (symmetry; assumption).
  destruct (line_facts e vl vh S line Hline fin_a fin_b) as (_ & Hdh & Hp & Hd & _).
  eapply (line_sim e vl vh S ram0 ram1 a b line wa wb Hline ua ub fin_a fin_b Hdec); [done| |done].
  symmetry. eapply shows_drew; [exact Hshow|exact Hdh|exact Hp|exact Hd].
Qed.

(** A line the scanout job draws. *)
Lemma drawn_line_sim e vl vh ram0 ram1 a b line wa wb ua ub fin_a fin_b cl ch :
  sim e vl vh -> 0 <= a -> 0 <= b -> 0 <= line < height vl -> 0 <= wa -> 0 <= wb ->
  decode_planes (dram_byte ram0 ram1) (registers vl) (width vl) a b wa wb = Some (ua, ub, fin_a, fin_b) ->
  scanout_jobs ch = scanout_jobs cl ->
  let fh := compose_line (registers vl) (width vl) (drawing vl) (field vl) (height vl) line fin_a fin_b (buffers vh) in
  let v := after_line fin_a fin_b fh ch (delete line (completed_lines vh)) vh in
  sim (touched_pixels e (width vl) (height vl) line)
    (after_line fin_a fin_b
       (compose_line (registers vl) (width vl) (drawing vl) (field vl) (height vl) line fin_a fin_b (buffers vl))
       cl (completed_lines vl) vl)
    (remember_line ram0 ram1 a b line wa wb (ua, ub) v).
Proof.
  intros S Ha Hb Hline Hwa Hwb Hdec Hc fh v. pose proof S as [].
  destruct si_geometry0 as [Ew Eh]. destruct si_drawing0 as [Ed _].
  destruct (decode_planes_counts _ _ _ _ _ _ _ _ _ _ _ (dram_byte_fetch ram0 ram1) Hdec (proj1 (proj1 si_size0)) Hwa Hwb) as [Hua Hub].
  destruct (line_facts e vl vh S line Hline fin_a fin_b) as (_ & Hdh & Hp & Hd & _).
  assert (Hold : forall l job, delete line (completed_lines vh) !! l = Some job ->
    job_ok (width vh) (height vh) (drawing vh) fh l job).
  { intros l job Hl. apply lookup_delete_Some in Hl as [Hne Hl].
    eapply (other_job_ok e vl vh S line Hline fin_a fin_b); [reflexivity|done|done]. }
  assert (Hsim : forall jobs, (forall l job, jobs !! l = Some job -> job_ok (width vh) (height vh) (drawing vh) fh l job) ->
    sim (touched_pixels e (width vl) (height vl) line)
      (after_line fin_a fin_b
         (compose_line (registers vl) (width vl) (drawing vl) (field vl) (height vl) line fin_a fin_b (buffers vl))
         cl (completed_lines vl) vl)
      (after_line fin_a fin_b fh ch jobs vh)).
  { intros jobs Hjobs.
    eapply (line_sim e vl vh S ram0 ram1 a b line wa wb Hline ua ub fin_a fin_b Hdec); [exact Hc|reflexivity|exact Hjobs]. }
  unfold remember_line. change (registers v) with (registers vh). rewrite si_registers0.
  destruct (eligible (registers vl) line) eqn:He; cbn [negb]; [|by apply Hsim].
  destruct (line_source ram0 ram1 a (fst (ua, ub))) as [bytes_a|] eqn:HA; [|by apply Hsim].
  destruct (line_source ram0 ram1 b (snd (ua, ub))) as [bytes_b|] eqn:HB; [|by apply Hsim].
  apply Hsim. intros l job Hl. cbn [completed_lines v after_line] in Hl.
  apply lookup_insert_Some in Hl as [[<- <-]|[_ Hl]]; [|by apply Hold].
  rewrite Ew, Eh, Ed. eapply remembered_ok; try done.
  eapply drew_shows; eassumption.
Qed.

Lemma draw_line_sim e vl vh ram0 ram1 a b line wa wb used vl' :
  sim e vl vh -> 0 <= a -> 0 <= b -> 0 <= line -> 0 <= wa -> 0 <= wb ->
  mcd212_video_draw_line false ram0 ram1 a b line wa wb vl = Some (used, vl') ->
  exists vh', mcd212_video_draw_line true ram0 ram1 a b line wa wb vh = Some (used, vh') /\
    sim (touched_pixels e (width vl) (height vl) line) vl' vh'.
Proof.
  intros S Ha Hb Hl Hwa Hwb H. pose proof S as []. destruct si_geometry0 as [Ew Eh].
  unfold mcd212_video_draw_line in *. cbn [andb] in H. cbv zeta in H |- *.
  set (cl := count_scanout (counters vl)) in *. set (ch := count_scanout (counters vh)).
  assert (Hc : scanout_jobs ch = scanout_jobs cl) by (cbn; by rewrite si_jobs_run0).
  unfold reference_line in H. apply bind_Some in H as ([[[ua ub] fin_a] fin_b] & Hdec & H). injection H as <- <-.
  change (registers (set_counters cl vl)) with (registers vl) in *.
  change (width (set_counters cl vl)) with (width vl) in *.
  cbn [andb]. change (height (set_counters ch vh)) with (height vh). rewrite Eh.
  destruct (Z.ltb_spec line (height vl)) as [Hlt|Hge].
  - assert (Hline : 0 <= line < height vl) by lia. unfold reusable_line.
    change (reusable_job ram0 ram1 a b line wa wb (set_counters ch vh)) with (reusable_job ram0 ram1 a b line wa wb vh).
    destruct (reusable_job ram0 ram1 a b line wa wb vh) as [job|] eqn:Ej.
    + destruct (reused_line_sim e vl vh ram0 ram1 a b line wa wb job ua ub fin_a fin_b cl (count_reused ch)
        S Ha Hb Hline Hwa Hwb Hdec Hc Ej) as (<- & <- & <- & <- & Hsim).
      eexists. split; [reflexivity|exact Hsim].
    + destruct si_drawing0 as [Ed _]. destruct si_sequence0 as [Eg _].
      assert (Ef : field vh = field vl) by exact Eg. destruct si_decoded0 as [Ea Eb]. destruct si_rows0 as [La Lb].
      destruct (scanout_job_draws (dram_byte ram0 ram1) (registers vl) (width vl) (drawing vl) (field vl) (height vl)
        a b line wa wb (decoded_a vh) (decoded_b vh) (buffers vh) ua ub fin_a fin_b) as [fused Hjob];
        [apply dram_byte_fetch|lia|lia|lia|congruence|congruence|lia|exact Hdec|].
      unfold run_job. cbv zeta.
      change (scanout_job _ _ _ _ _ a b line wa wb _ _ _) with
        (scanout_job (dram_byte ram0 ram1) (registers vh) (width vh) (drawing vh) (field vh) a b line wa wb
           (decoded_a vh) (decoded_b vh) (buffers vh)).
      rewrite si_registers0, Ew, Ed, Ef, Hjob. cbn [mbind option_bind fst snd].
      eexists. split; [reflexivity|].
      eapply (drawn_line_sim e vl vh ram0 ram1 a b line wa wb ua ub fin_a fin_b cl
        (if fused then count_fused ch else ch)); try done. by destruct fused.
  - unfold reference_line. change (registers (set_counters ch vh)) with (registers vh).
    change (width (set_counters ch vh)) with (width vh). rewrite si_registers0, Ew, Hdec.
    eexists. split; [reflexivity|]. unfold compose_line, touched_pixels. cbv zeta.
    change (height (set_counters cl vl)) with (height vl). change (height (set_counters ch vh)) with (height vh). rewrite Eh.
    replace (height vl <=? line) with true by lia. replace (line <? height vl) with false by lia.
    destruct (length_fins _ _ _ _ _ _ _ _ _ _ _ Hdec) as [Hfa Hfb].
    by apply (sim_after_line e e vl vh fin_a fin_b (buffers vl) (buffers vh) cl ch).
Qed.

(** ** Control words and geometry *)
Lemma upd_plane_cursor plane g r : cursor (upd_plane plane g r) = cursor r.
Proof. unfold upd_plane. by destruct (z2b plane). Qed.

Lemma control_registers_cursor fld plane instruction r r' :
  control_registers fld plane instruction r = Some r' -> 0 <= cursor_x (cursor r) -> 0 <= cursor_x (cursor r').
Proof.
  assert (Hx : 0 <= Z.land instruction 0x3FF) by (apply Z.land_nonneg; lia).
  unfold control_registers, configure_file_type, cursor_control. cbv zeta. intros H Hr.
  repeat match type of H with
  | (if ?b then _ else _) = _ => destruct b
  | Some (if ?b then _ else _) = _ => destruct b
  end; try discriminate; injection H as <-; rewrite ?upd_plane_cursor; try exact Hr; try exact Hx;
    try (unfold image_coding, transparency_control; cbv zeta; rewrite !upd_plane_cursor; exact Hr).
Qed.

Lemma control_sim e vl vh plane instruction vl' :
  sim e vl vh -> mcd212_video_control plane instruction vl = Some vl' ->
  exists vh', mcd212_video_control plane instruction vh = Some vh' /\ sim e vl' vh'.
Proof.
  intros S H. pose proof S as []. unfold mcd212_video_control in *.
  apply bind_Some in H as (r & Hr & H). injection H as <-.
  assert (Ef : field vh = field vl) by exact (proj1 si_sequence0).
  rewrite si_registers0, Ef, Hr. eexists. split; [reflexivity|].
  constructor; try assumption; try done.
  cbn [registers set_video_registers]. eapply control_registers_cursor; eassumption.
Qed.

Lemma begin_frame_sim e vl vh bw bh (il : bool) vl' :
  sim e vl vh -> 0 <= bw -> 0 <= bh -> e <= bw * 2 * (if il then bh * 2 else bh) ->
  mcd212_video_begin_frame false bw bh il vl = Some vl' ->
  exists vh', mcd212_video_begin_frame true bw bh il vh = Some vh' /\ sim e vl' vh' /\
    width vl' = bw * 2 /\ height vl' = (if il then bh * 2 else bh).
Proof.
  intros S Hbw Hbh He H. pose proof S as []. unfold mcd212_video_begin_frame in *. cbv zeta in *.
  set (w := bw * 2) in *. set (h := if il then bh * 2 else bh) in *.
  assert (Hh0 : 0 <= h) by (subst h; destruct il; lia).
  unfold MCD212_VIDEO_MAX_WIDTH, MCD212_VIDEO_MAX_HEIGHT in *.
  destruct (Z.ltb_spec 768 w); [done|]. destruct (Z.ltb_spec 560 h); [done|]. cbn [orb andb] in *. injection H as <-.
  rewrite !u16_id by (unfold is_word; lia). destruct si_geometry0 as [Ew Eh].
  eexists. split; [reflexivity|]. split; [|split; reflexivity].
  assert (Hjobs : forall l job,
    completed_lines (if negb (w =? width vh) || negb (h =? height vh) then set_completed ∅ vh else vh) !! l = Some job ->
    job_ok w h (drawing vh) (buffers vh) l job).
  { intros l job Hl. destruct (Z.eqb_spec w (width vh)) as [->|]; cbn [negb orb] in Hl; [|by cbn [completed_lines set_completed] in Hl; rewrite lookup_empty in Hl].
    destruct (Z.eqb_spec h (height vh)) as [->|]; cbn [negb orb] in Hl; [by apply si_completed0|by cbn [completed_lines set_completed] in Hl; rewrite lookup_empty in Hl]. }
  revert Hjobs. destruct (negb (w =? width vh) || negb (h =? height vh)); intros Hjobs.
  all: constructor; try assumption; try done; try exact si_hash0; cbn [width height set_height set_width buffers];
    try lia.
Qed.

(** ** The end of a field *)
Lemma visible_eq m m' w h a :
  visible m w h = visible m' w h -> 0 <= a < w * h -> mget m a = mget m' a.
Proof.
  unfold visible. intros H Ha.
  pose proof (nth_mload m 0 (Z.to_nat (w * h)) a ltac:(lia)) as E.
  rewrite H, nth_mload in E by lia. by rewrite !Z.add_0_l in E.
Qed.
Lemma length_visible m w h : Z.of_nat (length (visible m w h)) = Z.max 0 (w * h).
Proof. unfold visible. rewrite length_mload. lia. Qed.

(** The other buffer takes the finished picture: by the prefix, or as a whole. *)
Definition copied_back (b same_pixels : bool) (pixels : list Z) (f : Buffers) : Buffers :=
  if same_pixels then f else set_frame (negb b) (mstore (frame_of (negb b) f) 0 pixels) f.

Lemma copied_back_exact b w h f :
  0 <= w * h -> (forall a, a < 0 \/ w * h <= a -> mget (frame0 f) a = mget (frame1 f) a) ->
  let pixels := visible (frame_of b f) w h in
  let g := copied_back b (bool_decide (visible (frame_of (negb b) f) w h = pixels)) pixels f in
  frame_of b g = frame_of b f /\ frame_of (negb b) g ≈ frame_of b f /\
  plane_frame_a g = plane_frame_a f /\ plane_frame_b g = plane_frame_b f /\ verdict_frame g = verdict_frame f.
Proof.
  intros Hwh Hclean pixels g.
  assert (Hout : forall a, a < 0 \/ w * h <= a -> mget (frame_of (negb b) f) a = mget (frame_of b f) a).
  { intros a Ha. specialize (Hclean a Ha). by destruct b. }
  subst g. unfold copied_back. destruct (bool_decide _) eqn:E.
  - apply bool_decide_eq_true in E. split_and!; try done. intros a.
    destruct (decide (0 <= a < w * h)) as [Ha|Ha]; [eapply visible_eq; eassumption|apply Hout; lia].
  - split_and!; try (by destruct b). rewrite frame_of_set, eqb_reflx. intros a.
    rewrite mget_mstore. subst pixels. rewrite length_visible, Z.max_r, Z.add_0_l by lia.
    destruct ((0 <=? a) && (a <? w * h)) eqn:Ea; [|apply Hout; lia].
    unfold visible. rewrite Z.sub_0_r, nth_mload by lia. by rewrite Z.add_0_l.
Qed.

Lemma job_ok_published w h b f g line job :
  job_ok w h b f line job -> frame_of (negb b) g ≈ frame_of b f ->
  plane_frame_a g = plane_frame_a f -> plane_frame_b g = plane_frame_b f -> verdict_frame g = verdict_frame f ->
  job_ok w h (negb b) g line job.
Proof.
  intros [Hl Ha (fetch & r0 & fld0 & H1 & H2 & H3 & H4 & H5 & H6 & H7 & H8 & [S1 S2 S3 S4])] Hf HA HB HV.
  split; [done|done|]. exists fetch, r0, fld0. split_and!; try done.
  split; intros x Hx; rewrite ?Hf, ?HA, ?HB, ?HV; auto.
Qed.

Lemma end_frame_sim e vl vh :
  sim e vl vh -> sim 0 (mcd212_video_end_frame false vl) (mcd212_video_end_frame true vh).
Proof.
  intros S. pose proof S as []. destruct si_geometry0 as [Ew Eh], si_drawing0 as (Ed & Eph & Epl).
  destruct si_published0 as [Epw Eph'], si_sequence0 as [Eg Es].
  unfold mcd212_video_end_frame. cbv zeta. cbn [andb].
  change (drawing_buffer (publication vl)) with (drawing vl).
  change (drawing_buffer (publication vh)) with (drawing vh).
  assert (Hclean : forall a, a < 0 \/ width vh * height vh <= a ->
    mget (frame0 (buffers vh)) a = mget (frame1 (buffers vh)) a).
  { intros a Ha. destruct si_buffers0 as [F0 F1 _ _ _]. rewrite F0, F1. apply si_clean0. rewrite Ew, Eh in Ha. lia. }
  assert (Hwh : 0 <= width vh * height vh) by (rewrite Ew, Eh; nia).
  pose proof (copied_back_exact (drawing vh) (width vh) (height vh) (buffers vh) Hwh Hclean) as Hcopy.
  cbv zeta in Hcopy. rewrite Eph.
  set (pixels := visible (frame_of (drawing vh) (buffers vh)) (width vh) (height vh)) in *.
  set (same := bool_decide _) in *.
  destruct Hcopy as (C1 & C2 & C3 & C4 & C5).
  change (if same then buffers vh else _) with (copied_back (drawing vh) same pixels (buffers vh)).
  set (fh := copied_back (drawing vh) same pixels (buffers vh)) in *.
  assert (Hfh : same_buffers fh (set_frame (negb (drawing vl)) (frame_of (drawing vl) (buffers vl)) (buffers vl))).
  { rewrite <- Ed. destruct si_buffers0 as [F0 F1 FA FB FV].
    destruct (drawing vh); cbn in *; split; cbn; rewrite ?C1, ?C2, ?C3, ?C4, ?C5; done. }
  constructor; try assumption; try done.
  - cbn. rewrite Ed, !negb_involutive. done.
  - cbn. by rewrite Eg, Es.
  - cbn. split; [done|]. nia.
  - cbn. intros a _. by destruct (drawing vl).
  - intros _. cbn [publication published_hash set_buffers set_publication].
    match goal with |- _ = hash_frame_bytes (shown_frame ?v) => assert (Hshown : shown_frame v = pixels) end.
    { unfold shown_frame. cbn. by rewrite C1. }
    rewrite Hshown. destruct (negb (generation (publication vh) =? 0) && same && same_geometry vh) eqn:E; [|done].
    apply andb_prop in E as [E Hgeo]. apply andb_prop in E as [Hgen Hsame]. apply negb_true_iff, Z.eqb_neq in Hgen.
    subst same. apply bool_decide_eq_true in Hsame. unfold same_geometry in Hgeo.
    rewrite (si_hash0 Hgen). f_equal. rewrite <- Hsame. unfold shown_frame. cbv zeta. rewrite Eph.
    apply andb_prop in Hgeo as [Gw Gh]. apply Z.eqb_eq in Gw, Gh. by rewrite <- Gw, <- Gh.
  - intros line job Hjob. specialize (si_completed0 line job Hjob). eapply job_ok_published; eassumption.
Qed.

(** * Runs *)

(** Arguments of the C types, and no field shrunk below the lines it has drawn:
    [w], [h] are the geometry and [e] the pixels touched_pixels since the field began. *)
Fixpoint calls_ok (ops : list VideoOp) (w h e : Z) : Prop :=
  match ops with
  | [] => True
  | OpControl _ _ :: ops => calls_ok ops w h e
  | OpBegin bw bh il :: ops =>
    let w := bw * 2 in
    let h := if il then bh * 2 else bh in
    0 <= bw /\ 0 <= bh /\ e <= w * h /\ calls_ok ops w h e
  | OpLine _ _ a b line wa wb :: ops =>
    (0 <= a /\ 0 <= b /\ 0 <= line /\ 0 <= wa /\ 0 <= wb) /\ calls_ok ops w h (touched_pixels e w h line)
  | OpEnd :: ops => calls_ok ops w h 0
  end.

Lemma begin_frame_geometry hle bw bh (il : bool) v v' :
  0 <= bw -> 0 <= bh -> mcd212_video_begin_frame hle bw bh il v = Some v' ->
  width v' = bw * 2 /\ height v' = (if il then bh * 2 else bh).
Proof.
  intros Hw Hh H. unfold mcd212_video_begin_frame in H. cbv zeta in H.
  unfold MCD212_VIDEO_MAX_WIDTH, MCD212_VIDEO_MAX_HEIGHT in H. destruct (_ || _) eqn:E; [done|].
  apply orb_false_iff in E as [E1 E2]. injection H as <-. cbn [width height set_height set_width].
  rewrite !u16_id; [done|..]; unfold is_word; destruct il; lia.
Qed.
Lemma draw_line_geometry hle ram0 ram1 a b line wa wb v out :
  mcd212_video_draw_line hle ram0 ram1 a b line wa wb v = Some out ->
  width (snd out) = width v /\ height (snd out) = height v.
Proof.
  unfold mcd212_video_draw_line, reference_line, reusable_line, run_job, remember_line. cbv zeta.
  intros H. destruct (hle && _).
  - destruct (reusable_job _ _ _ _ _ _ _ _); [by injection H as <-|].
    apply bind_Some in H as (o & Hrun & H). injection H as <-.
    apply bind_Some in Hrun as ([[[[[? ?] ?] ?] ?] ?] & _ & Hrun). injection Hrun as <-. cbn [fst snd].
    destruct (negb _); [done|]. destruct (line_source _ _ _ _); [|done]. by destruct (line_source _ _ _ _).
  - apply bind_Some in H as ([[[? ?] ?] ?] & _ & H). by injection H as <-.
Qed.

Lemma run_video_sim ops : forall e vl vh used vl',
  sim e vl vh -> calls_ok ops (width vl) (height vl) e -> run_video false ops vl = Some (used, vl') ->
  exists vh' e', run_video true ops vh = Some (used, vh') /\ sim e' vl' vh'.
Proof.
  induction ops as [|op ops IH]; intros e vl vh used vl' S Hok H.
  - injection H as <- <-. by exists vh, e.
  - destruct op as [plane instruction|bw bh il|ram0 ram1 a b line wa wb|]; cbn [run_video calls_ok] in *.
    + apply bind_Some in H as (v & Hv & H). destruct (control_sim _ _ _ _ _ _ S Hv) as (vh1 & -> & S1).
      cbn [mbind option_bind]. eapply IH; [exact S1| |exact H].
      unfold mcd212_video_control in Hv. apply bind_Some in Hv as (r & _ & Hv). by injection Hv as <-.
    + destruct Hok as (Hbw & Hbh & He & Hok). apply bind_Some in H as (v & Hv & H).
      destruct (begin_frame_sim _ _ _ _ _ _ _ S Hbw Hbh He Hv) as (vh1 & -> & S1 & Ew & Eh).
      cbn [mbind option_bind]. eapply IH; [exact S1| |exact H]. by rewrite Ew, Eh.
    + destruct Hok as ((Ha & Hb & Hl & Hwa & Hwb) & Hok). apply bind_Some in H as ([u v] & Hv & H).
      apply bind_Some in H as ([us v2] & Hrun & H). injection H as <- <-. cbn [fst snd] in *.
      destruct (draw_line_sim _ _ _ _ _ _ _ _ _ _ _ _ S Ha Hb Hl Hwa Hwb Hv) as (vh1 & -> & S1).
      cbn [mbind option_bind fst snd]. apply draw_line_geometry in Hv as [Ew Eh]. cbn [snd] in *.
      rewrite <- Ew, <- Eh in Hok, S1. destruct (IH _ _ _ _ _ S1 Hok Hrun) as (vh' & e' & -> & S'). by exists vh', e'.
    + eapply IH; [eapply end_frame_sim; exact S|exact Hok|exact H].
Qed.

Lemma sim_shown e vl vh :
  sim e vl vh -> mcd212_video_frame_hash true vh = mcd212_video_frame_hash false vl /\
  forall destination capacity,
  mcd212_video_copy_frame destination capacity vh = mcd212_video_copy_frame destination capacity vl.
Proof.
  intros S. pose proof (shown_frame_same _ _ _ S) as Hshown. pose proof S as [].
  destruct si_published0 as [Ew Eh]. destruct si_sequence0 as [Eg _]. split.
  - unfold mcd212_video_frame_hash. cbv zeta. cbn [andb]. rewrite Ew, Eh, <- Eg, <- Hshown.
    destruct (Z.eqb_spec (generation (publication vh)) 0); cbn [negb]; [done|]. by rewrite si_hash0.
  - intros destination capacity. unfold mcd212_video_copy_frame. cbv zeta. by rewrite Ew, Eh, Eg, Hshown.
Qed.

(** C4. The build that fuses scanout, reuses completed lines and copies back only
    the visible prefix refines the reference: after any run of calls the
    reference survives, it has reported the same bytes and shows the same frame
    with the same hash, registers, decoded rows and diagnostics. *)
Theorem line_reuse_refines_reference ops used vl :
  calls_ok ops 768 280 0 -> run_video false ops mcd212_video_reset = Some (used, vl) ->
  exists vh, run_video true ops mcd212_video_reset = Some (used, vh) /\
    mcd212_video_frame_hash true vh = mcd212_video_frame_hash false vl /\
    (forall destination capacity,
      mcd212_video_copy_frame destination capacity vh = mcd212_video_copy_frame destination capacity vl) /\
    registers vh = registers vl /\ decoded_a vh = decoded_a vl /\ decoded_b vh = decoded_b vl /\
    (forall plane y capacity,
      mcd212_video_debug_plane_row plane y capacity vh = mcd212_video_debug_plane_row plane y capacity vl) /\
    (forall y capacity,
      mcd212_video_debug_verdict_row y capacity vh = mcd212_video_debug_verdict_row y capacity vl).
Proof.
  intros Hok H. destruct (run_video_sim ops 0 _ _ _ _ sim_reset Hok H) as (vh & e & Hrun & S).
  exists vh. split; [exact Hrun|]. destruct (sim_shown _ _ _ S) as [Hhash Hcopy].
  destruct S as [Hr [Ha Hb] _ _ [_ _ BA BB BV] [Ew Eh] _ _ _ _ _ _ _ _ _].
  do 5 (split; [assumption|]). split.
  - intros plane y capacity. unfold mcd212_video_debug_plane_row. rewrite Ew, Eh.
    destruct (_ || _); [done|]. destruct (plane =? PLANE_A); by rewrite ?BA, ?BB.
  - intros y capacity. unfold mcd212_video_debug_verdict_row. rewrite Ew, Eh. by rewrite BV.
Qed.

(** Two fields of one run-length line: the second is reused. *)
Definition two_fields : list VideoOp :=
  let ram := mstore ∅ 0 [0x81; 0] in
  [OpControl 0 0x81224466; OpControl 0 0xC0000003; OpControl 0 0x78000002; OpControl 0 0xC1000808; OpControl 0 0xDB00003F;
   OpBegin 2 1 false; OpLine ram ∅ 0 0x200000 0 2 2; OpEnd; OpLine ram ∅ 0 0x200000 0 2 2; OpEnd].
Lemma line_reuse_refines_reference_witness :
  match run_video false two_fields mcd212_video_reset with
  | Some (used, vl) =>
    used = [(2, 0); (2, 0)] /\ shown_frame vl = [0xFF224466; 0xFF224466; 0xFF224466; 0xFF224466] /\
    exists vh, run_video true two_fields mcd212_video_reset = Some (used, vh) /\
      mcd212_video_frame_hash true vh = mcd212_video_frame_hash false vl
  | None => False
  end.
Proof.
  destruct (run_video false two_fields mcd212_video_reset) as [[used vl]|] eqn:E; [|vm_compute in E; discriminate].
  pose proof E as E'. vm_compute in E'. injection E' as Eu Ev.
  destruct (line_reuse_refines_reference two_fields used vl) as (vh & Hrun & Hhash & _).
  - vm_compute. split_and!; try done; intros ?; discriminate.
  - exact E.
  - split; [by rewrite <- Eu|]. split; [rewrite <- Ev; vm_compute; reflexivity|]. exists vh. exact (conj Hrun Hhash).
Defined.
(** The second field's line is reused. *)
Example two_fields_reuse :
  (fun out => counters (snd out)) <$> run_video true two_fields mcd212_video_reset = Some (mkCounters 2 1 1).
Proof. vm_compute. reflexivity. Qed.
