(* ===== verification/Publish.v ===== *)
(** Publication of a field as the two threads run it (runner/src/mcd212_video.c):
    the atomic steps of mcd212_video_end_frame, and the loads of the readers
    that copy the published frame under the sequence counter.

    Every step is one access to shared storage and the steps interleave freely;
    the weaker orders of the C accesses are not modelled. *)

From Stdlib Require Import ZArith Lia Bool.
From stdpp Require Import base tactics numbers list gmap.
From S2P Require Import Prelude Mcd212 Video Scanout.
Open Scope Z_scope.

(** * The writer *)

(** The locals of [mcd212_video_end_frame]. *)
Record Locals := mkLocals { completed : bool; same_pixels : bool; same_content : bool; hash : Z }.

(** The next statement of the emulation thread. *)
Inductive Writer :=
| Drawing                   (* between two fields *)
| OpenSequence (l : Locals)
| StoreBuffer (l : Locals)
| StoreWidth (l : Locals)
| StoreHeight (l : Locals)
| StoreHash (l : Locals)
| StoreContent (l : Locals)
| StoreGeneration (l : Locals)
| CloseSequence (l : Locals)
| FlipBuffer (l : Locals)
| CopyBack (l : Locals) (k : Z).

Definition field_locals (v : VideoPipeline) : Locals :=
  let p := publication v in
  let pixels := visible (frame_of (drawing_buffer p) (buffers v)) (width v) (height v) in
  let same :=
    bool_decide (visible (frame_of (published_buffer p) (buffers v)) (width v) (height v) = pixels) in
  let content := negb (generation p =? 0) && same && same_geometry v in
  mkLocals (drawing_buffer p) same content (if content then published_hash p else hash_frame_bytes pixels).

Definition publication_fields :=
  (tt, published_width, published_height, drawing_buffer, published_buffer, generation, publish_sequence,
   published_hash, content_generation).
Ltac publication_set p f x := setter mkPublication p f x publication_fields.
Definition set_published_width (x : Z) (p : Publication) : Publication := ltac:(publication_set p published_width x).
Definition set_published_height (x : Z) (p : Publication) : Publication := ltac:(publication_set p published_height x).
Definition set_drawing_buffer (x : bool) (p : Publication) : Publication := ltac:(publication_set p drawing_buffer x).
Definition set_published_buffer (x : bool) (p : Publication) : Publication := ltac:(publication_set p published_buffer x).
Definition set_generation (x : Z) (p : Publication) : Publication := ltac:(publication_set p generation x).
Definition set_publish_sequence (x : Z) (p : Publication) : Publication := ltac:(publication_set p publish_sequence x).
Definition set_published_hash (x : Z) (p : Publication) : Publication := ltac:(publication_set p published_hash x).
Definition set_content_generation (x : Z) (p : Publication) : Publication :=
  ltac:(publication_set p content_generation x).
Definition publish (f : Publication -> Publication) (v : VideoPipeline) : VideoPipeline :=
  set_publication (f (publication v)) v.

(** The pixels the copy back moves. *)
Definition copy_size (hle : bool) (l : Locals) (v : VideoPipeline) : Z :=
  if hle then if same_pixels l then 0 else width v * height v
  else MCD212_VIDEO_MAX_WIDTH * MCD212_VIDEO_MAX_HEIGHT.
Definition copy_pixel (l : Locals) (k : Z) (v : VideoPipeline) : VideoPipeline :=
  let b := drawing v in
  set_buffers (set_frame b (mset (frame_of b (buffers v)) k (mget (frame_of (completed l) (buffers v)) k)) (buffers v)) v.

Definition writer_step (hle : bool) (w : Writer) (v : VideoPipeline) : Writer * VideoPipeline :=
  match w with
  | Drawing => (OpenSequence (field_locals v), v)
  | OpenSequence l =>
    (StoreBuffer l, publish (fun p => set_publish_sequence (u64 (publish_sequence p + 1)) p) v)
  | StoreBuffer l => (StoreWidth l, publish (set_published_buffer (completed l)) v)
  | StoreWidth l => (StoreHeight l, publish (set_published_width (width v)) v)
  | StoreHeight l => (StoreHash l, publish (set_published_height (height v)) v)
  | StoreHash l => (StoreContent l, if hle then publish (set_published_hash (hash l)) v else v)
  | StoreContent l =>
    (StoreGeneration l,
     if hle && same_content l then v
     else publish (fun p => set_content_generation (u64 (content_generation p + 1)) p) v)
  | StoreGeneration l => (CloseSequence l, publish (fun p => set_generation (u64 (generation p + 1)) p) v)
  | CloseSequence l =>
    (FlipBuffer l, publish (fun p => set_publish_sequence (u64 (publish_sequence p + 1)) p) v)
  | FlipBuffer l => (CopyBack l 0, publish (fun p => set_drawing_buffer (negb (drawing_buffer p)) p) v)
  | CopyBack l k => if k <? copy_size hle l v then (CopyBack l (k + 1), copy_pixel l k v) else (Drawing, v)
  end.

Fixpoint writer_steps (hle : bool) (n : nat) (w : Writer) (v : VideoPipeline) : Writer * VideoPipeline :=
  match n with
  | O => (w, v)
  | S n' => let '(w, v) := writer_step hle w v in writer_steps hle n' w v
  end.

(** What a line changes at a time: a pixel of the drawing buffer, or anything
    the readers do not see. *)
Inductive draws (v : VideoPipeline) : VideoPipeline -> Prop :=
| draws_pixel a c :
    draws v (set_buffers (set_frame (drawing v) (mset (frame_of (drawing v) (buffers v)) a c) (buffers v)) v)
| draws_rest v' :
    publication v' = publication v -> frame0 (buffers v') = frame0 (buffers v) ->
    frame1 (buffers v') = frame1 (buffers v) -> draws v v'.

(** * The readers *)
Inductive Cell :=
| CellWidth | CellHeight | CellBuffer | CellGeneration | CellContent | CellHash
| CellPixel (front : bool) (k : Z).
Definition load (v : VideoPipeline) (c : Cell) : Z :=
  let p := publication v in
  match c with
  | CellWidth => published_width p
  | CellHeight => published_height p
  | CellBuffer => b2z (published_buffer p)
  | CellGeneration => generation p
  | CellContent => content_generation p
  | CellHash => published_hash p
  | CellPixel front k => mget (frame_of front (buffers v)) k
  end.

(** The body of a reader's loop: loads, each choosing the next, and an answer
    or the abort on a destination that is too small. *)
Inductive Reading (A : Type) : Type :=
| Return (a : A)
| Load (c : Cell) (k : Z -> Reading A)
| Abandon.
Arguments Return {A} a.
Arguments Load {A} c k.
Arguments Abandon {A}.

Fixpoint load_pixels {A} (front : bool) (n : nat) (k : Z) (rest : list Z -> Reading A) : Reading A :=
  match n with
  | O => rest []
  | S n' => Load (CellPixel front k) (fun pixel => load_pixels front n' (k + 1) (fun l => rest (pixel :: l)))
  end.

Definition copy_frame_reading (destination : bool) (capacity : Z)
    : Reading (option (list Z) * Z * Z * Z * Z) :=
  Load CellWidth (fun w => Load CellHeight (fun h =>
    let pixels := w * h in
    let finish copied := Load CellGeneration (fun g => Return (copied, pixels, w, h, g)) in
    if destination then
      if capacity <? pixels then Abandon
      else Load CellBuffer (fun front => load_pixels (z2b front) (Z.to_nat pixels) 0 (fun l => finish (Some l)))
    else finish None)).

Definition copy_changed_reading (destination : bool) (capacity previous_content : Z)
    : Reading (option (list Z) * Z * Z * Z * Z * Z) :=
  Load CellWidth (fun w => Load CellHeight (fun h => Load CellGeneration (fun g => Load CellContent (fun id =>
    let copied := if negb (g =? 0) && negb (id =? previous_content) then w * h else 0 in
    let finish l := Return (l, copied, w, h, g, id) in
    if destination && negb (copied =? 0) then
      Load CellBuffer (fun front =>
        if capacity <? copied then Abandon
        else load_pixels (z2b front) (Z.to_nat copied) 0 (fun l => finish (Some l)))
    else finish None)))).

Definition frame_hash_reading (hle : bool) : Reading (Z * Z * Z * Z) :=
  Load CellWidth (fun w => Load CellHeight (fun h => Load CellBuffer (fun front => Load CellGeneration (fun g =>
    let frame := load_pixels (z2b front) (Z.to_nat (w * h)) 0 (fun l => Return (hash_frame_bytes l, w, h, g)) in
    if hle then if g =? 0 then frame else Load CellHash (fun hash => Return (hash, w, h, g))
    else frame)))).

(** The body without interference. *)
Fixpoint run_reading {A} (v : VideoPipeline) (p : Reading A) : option A :=
  match p with
  | Return a => Some a
  | Load c k => run_reading v (k (load v c))
  | Abandon => None
  end.

(** The reader's thread: the loop around a body. *)
Inductive Reader (A : Type) : Type :=
| LoadSequence
| Body (before : Z) (p : Reading A)
| CheckSequence (before : Z) (a : A)
| Answered (a : A)
| Abandoned.
Arguments LoadSequence {A}.
Arguments Body {A} before p.
Arguments CheckSequence {A} before a.
Arguments Answered {A} a.
Arguments Abandoned {A}.

Definition reader_step {A} (body : Reading A) (v : VideoPipeline) (r : Reader A) : Reader A :=
  let sequence := publish_sequence (publication v) in
  match r with
  | LoadSequence => if z2b (Z.land sequence 1) then LoadSequence else Body sequence body
  | Body before (Load c k) => Body before (k (load v c))
  | Body before (Return a) => CheckSequence before a
  | Body before Abandon => Abandoned
  | CheckSequence before a =>
    if negb (before =? sequence) || z2b (Z.land sequence 1) then LoadSequence else Answered a
  | r => r
  end.

(** Both threads; [fields] counts the fields published, and [seen] is the
    pipeline, with its count, at the reader's last load of the sequence. *)
Record System (A : Type) := mkSystem {
  writer : Writer;
  pipeline : VideoPipeline;
  reader : Reader A;
  fields : Z;
  seen : VideoPipeline * Z;
}.
Arguments mkSystem {A} writer pipeline reader fields seen.
Arguments writer {A} s.
Arguments pipeline {A} s.
Arguments reader {A} s.
Arguments fields {A} s.
Arguments seen {A} s.

Definition closes (w : Writer) : Z := match w with CloseSequence _ => 1 | _ => 0 end.

Inductive thread_step {A} (hle : bool) (body : Reading A) (s : System A) : System A -> Prop :=
| step_draws v :
    writer s = Drawing -> draws (pipeline s) v ->
    thread_step hle body s (mkSystem Drawing v (reader s) (fields s) (seen s))
| step_writer :
    thread_step hle body s
      (mkSystem (fst (writer_step hle (writer s) (pipeline s))) (snd (writer_step hle (writer s) (pipeline s)))
         (reader s) (fields s + closes (writer s)) (seen s))
| step_reader :
    thread_step hle body s
      (mkSystem (writer s) (pipeline s) (reader_step body (pipeline s) (reader s)) (fields s)
         (match reader s with LoadSequence => (pipeline s, fields s) | _ => seen s end)).
