(* ===== verification/PublishSpec.v ===== *)
(** A reader that answers has seen one published field, whatever the emulation
    did meanwhile; the writer's steps are the end of the field; an unchanged
    content number means an unchanged picture. *)

From Stdlib Require Import ZArith Lia Bool.
From stdpp Require Import base tactics numbers list gmap relations.
From S2P Require Import Prelude Mcd212 Video Scanout VideoSpec VideoRows ScanoutSpec VideoRefine Publish.
Open Scope Z_scope.

(** * The bodies of the readers, undisturbed *)
Lemma run_load_pixels {A} v front n k (rest : list Z -> Reading A) :
  run_reading v (load_pixels front n k rest) = run_reading v (rest (mload (frame_of front (buffers v)) k n)).
Proof.
  revert k rest. induction n as [|n IH]; intros k rest; [done|]. cbn [load_pixels run_reading load mload].
  by rewrite IH.
Qed.
Lemma load_buffer_bool b : z2b (b2z b) = b.
Proof. by destruct b. Qed.

Lemma copy_frame_reading_run destination capacity v :
  run_reading v (copy_frame_reading destination capacity) = mcd212_video_copy_frame destination capacity v.
Proof.
  unfold copy_frame_reading, mcd212_video_copy_frame, shown_frame, visible. cbv zeta. cbn [run_reading load].
  destruct destination; cbn [andb]; [|done]. destruct (_ <? _); [done|]. cbn [run_reading load].
  by rewrite run_load_pixels, load_buffer_bool.
Qed.
Lemma copy_changed_reading_run destination capacity previous v :
  run_reading v (copy_changed_reading destination capacity previous) =
  mcd212_video_copy_changed_frame destination capacity previous v.
Proof.
  unfold copy_changed_reading, mcd212_video_copy_changed_frame, shown_frame, visible. cbv zeta.
  cbn [run_reading load]. set (g := generation _). set (id := content_generation _).
  destruct (negb (g =? 0) && negb (id =? previous)); destruct destination; cbn [andb]; try done.
  destruct (negb (_ =? 0)); cbn [andb run_reading load]; [|done]. destruct (_ <? _); [done|].
  by rewrite run_load_pixels, load_buffer_bool.
Qed.
Lemma frame_hash_reading_run hle v :
  run_reading v (frame_hash_reading hle) = Some (mcd212_video_frame_hash hle v).
Proof.
  unfold frame_hash_reading, mcd212_video_frame_hash, shown_frame, visible. cbv zeta. cbn [run_reading load].
  destruct hle; cbn [andb]; [destruct (_ =? 0); cbn [negb]|]; cbn [run_reading load];
    by rewrite ?run_load_pixels, ?load_buffer_bool.
Qed.

(** The pixels a body loads are those of the published buffer. *)
Fixpoint reads_published {A} (v : VideoPipeline) (p : Reading A) : Prop :=
  match p with
  | Return _ | Abandon => True
  | Load c k =>
    (match c with CellPixel front _ => front = published_buffer (publication v) | _ => True end) /\
    reads_published v (k (load v c))
  end.
Lemma load_pixels_published {A} v front n k (rest : list Z -> Reading A) :
  front = published_buffer (publication v) -> (forall l, reads_published v (rest l)) ->
  reads_published v (load_pixels front n k rest).
Proof.
  intros Hf. revert k rest. induction n as [|n IH]; intros k rest Hr; cbn [load_pixels reads_published]; [apply Hr|].
  split; [done|]. apply IH. intros l. apply Hr.
Qed.
Lemma copy_frame_published destination capacity v : reads_published v (copy_frame_reading destination capacity).
Proof.
  unfold copy_frame_reading. cbv zeta. cbn [reads_published]. split; [done|]. split; [done|].
  destruct destination; [destruct (_ <? _)|]; cbn [reads_published]; try done.
  split; [done|]. apply load_pixels_published; [apply load_buffer_bool|done].
Qed.
Lemma copy_changed_published destination capacity previous v :
  reads_published v (copy_changed_reading destination capacity previous).
Proof.
  unfold copy_changed_reading. cbv zeta. cbn [reads_published]. do 4 (split; [done|]).
  destruct (destination && _); cbn [reads_published]; [|done]. split; [done|].
  destruct (_ <? _); [done|]. apply load_pixels_published; [apply load_buffer_bool|done].
Qed.
Lemma frame_hash_published hle v : reads_published v (frame_hash_reading hle).
Proof.
  unfold frame_hash_reading. cbv zeta. cbn [reads_published]. do 4 (split; [done|]).
  destruct hle; [destruct (_ =? 0)|]; cbn [reads_published]; try done;
    (apply load_pixels_published; [apply load_buffer_bool|done]).
Qed.

(** * The sequence counter *)
Definition publishing (w : Writer) : Z :=
  match w with
  | StoreBuffer _ | StoreWidth _ | StoreHeight _ | StoreHash _ | StoreContent _ | StoreGeneration _
  | CloseSequence _ => 1
  | _ => 0
  end.

(** Which buffer the writer may touch. *)
Definition buffer_roles (w : Writer) (v : VideoPipeline) : Prop :=
  let shown := published_buffer (publication v) in
  match w with
  | Drawing => shown = negb (drawing v)
  | OpenSequence l | StoreBuffer l => shown = negb (drawing v) /\ completed l = drawing v
  | CopyBack l _ => shown = negb (drawing v) /\ completed l = negb (drawing v)
  | StoreWidth l | StoreHeight l | StoreHash l | StoreContent l | StoreGeneration l
  | CloseSequence l | FlipBuffer l => shown = drawing v /\ completed l = drawing v
  end.

(** The readers see the same. *)
Definition sees_same (v v0 : VideoPipeline) : Prop :=
  let p := publication v in let p0 := publication v0 in
  published_width p = published_width p0 /\ published_height p = published_height p0 /\
  published_buffer p = published_buffer p0 /\ generation p = generation p0 /\
  content_generation p = content_generation p0 /\ published_hash p = published_hash p0 /\
  frame_of (published_buffer p0) (buffers v) ≈ frame_of (published_buffer p0) (buffers v0).

Lemma sees_same_refl v : sees_same v v.
Proof. by unfold sees_same. Qed.
Lemma sees_same_trans v1 v2 v3 : sees_same v1 v2 -> sees_same v2 v3 -> sees_same v1 v3.
Proof.
  unfold sees_same. cbv zeta. intros (A1 & A2 & A3 & A4 & A5 & A6 & A7) (B1 & B2 & B3 & B4 & B5 & B6 & B7).
  do 6 (split; [congruence|]). etransitivity; [|exact B7]. by rewrite <- B3.
Qed.
Lemma load_same v v0 c :
  sees_same v v0 -> (match c with CellPixel front _ => front = published_buffer (publication v0) | _ => True end) ->
  load v c = load v0 c.
Proof.
  intros (A1 & A2 & A3 & A4 & A5 & A6 & A7) Hc. destruct c; cbn; congruence.
Qed.

Section Safety.
Context {A : Type} (hle : bool) (body : Reading A) (Hbody : forall v, reads_published v body).

(** What the reader knows, while no field was published since its load. *)
Definition reader_knows (quiet : Prop) (v v0 : VideoPipeline) (n n0 : Z) (r : Reader A) : Prop :=
  match r with
  | LoadSequence | Abandoned => True
  | Body before p =>
    before = u64 (2 * n0) /\ n0 <= n /\
    (quiet -> sees_same v v0 /\ reads_published v0 p /\ run_reading v0 p = run_reading v0 body)
  | CheckSequence before a =>
    before = u64 (2 * n0) /\ n0 <= n /\ (quiet -> sees_same v v0 /\ run_reading v0 body = Some a)
  | Answered a => n0 <= n /\ (n - n0 < 2 ^ 63 -> run_reading v0 body = Some a)
  end.

Record consistent (s : System A) : Prop := {
  c_sequence : publish_sequence (publication (pipeline s)) = u64 (2 * fields s + publishing (writer s));
  c_buffers : buffer_roles (writer s) (pipeline s);
  c_seen : snd (seen s) <= fields s;
  c_reader : reader_knows (fields s = snd (seen s) /\ publishing (writer s) = 0)
    (pipeline s) (fst (seen s)) (fields s) (snd (seen s)) (reader s);
}.

Lemma reader_knows_mono (Q Q' : Prop) v v' v0 n n' n0 r :
  reader_knows Q v v0 n n0 r -> n <= n' -> (Q' -> Q /\ sees_same v' v) -> reader_knows Q' v' v0 n' n0 r.
Proof.
  intros Hr Hn Hq. destruct r; cbn in *; try done.
  - destruct Hr as (H1 & H2 & H3). split_and!; [done|lia|]. intros q. destruct (Hq q) as [q' Hs].
    destruct (H3 q') as (S & R). split; [eapply sees_same_trans; eassumption|done].
  - destruct Hr as (H1 & H2 & H3). split_and!; [done|lia|]. intros q. destruct (Hq q) as [q' Hs].
    destruct (H3 q') as (S & R). split; [eapply sees_same_trans; eassumption|done].
  - destruct Hr as (H1 & H2). split; [lia|]. intros Hlt. apply H2. lia.
Qed.

Lemma draws_sees v v' : draws v v' -> published_buffer (publication v) = negb (drawing v) -> sees_same v' v.
Proof.
  intros Hd Hp. unfold sees_same. cbv zeta. destruct Hd as [a c|v' Hpub H0 H1].
  - split_and!; try done. rewrite Hp. cbn [buffers set_buffers]. rewrite frame_of_set.
    by destruct (drawing v).
  - rewrite Hpub. split_and!; try done. destruct (published_buffer _); cbn; by rewrite ?H0, ?H1.
Qed.

(** ** The writer's steps *)
Lemma next_sequence n : u64 (u64 n + 1) = u64 (n + 1).
Proof. unfold u64. zlia. Qed.

Lemma writer_step_sequence w v :
  publish_sequence (publication (snd (writer_step hle w v))) =
  match w with
  | OpenSequence _ | CloseSequence _ => u64 (publish_sequence (publication v) + 1)
  | _ => publish_sequence (publication v)
  end /\
  (publishing (fst (writer_step hle w v)) =
   match w with OpenSequence _ => 1 | CloseSequence _ => 0 | _ => publishing w end).
Proof.
  destruct w; cbn; try done.
  - by destruct hle.
  - by destruct (hle && _).
  - by destruct (_ <? _).
Qed.

Lemma writer_step_apart w v : buffer_roles w v -> buffer_roles (fst (writer_step hle w v)) (snd (writer_step hle w v)).
Proof.
  unfold buffer_roles, drawing. destruct w; cbn; try done.
  - intros [H1 H2]. by rewrite H2.
  - by destruct hle.
  - by destruct (hle && _).
  - intros [H1 H2]. rewrite negb_involutive. done.
  - destruct (_ <? _); cbn; [done|]. by intros [].
Qed.

(** Between two publications a step of the writer shows nothing. *)
Lemma writer_step_sees w v :
  buffer_roles w v -> publishing w = 0 -> sees_same (snd (writer_step hle w v)) v.
Proof.
  unfold buffer_roles, drawing. destruct w; cbn; try done; intros Hb _; try apply sees_same_refl.
  destruct (_ <? _); [|apply sees_same_refl]. unfold sees_same. cbv zeta. split_and!; try done.
  cbn [snd copy_pixel buffers set_buffers]. rewrite frame_of_set. unfold drawing.
  destruct Hb as [-> _]. by destruct (drawing_buffer _).
Qed.

Lemma sequence_odd n o : o = 0 \/ o = 1 -> z2b (Z.land (u64 (2 * n + o)) 1) = (o =? 1).
Proof.
  intros Ho. unfold z2b. change 1 with (Z.ones 1) at 1. rewrite Z.land_ones by lia. unfold u64.
  destruct Ho as [-> | ->]; cbn; zlia.
Qed.
Lemma publishing_range w : publishing w = 0 \/ publishing w = 1.
Proof. destruct w; auto. Qed.

(** ** The reader's steps *)
Definition next_seen (s : System A) : VideoPipeline * Z :=
  match reader s with LoadSequence => (pipeline s, fields s) | _ => seen s end.
Lemma reader_step_consistent s :
  publish_sequence (publication (pipeline s)) = u64 (2 * fields s + publishing (writer s)) ->
  snd (seen s) <= fields s ->
  reader_knows (fields s = snd (seen s) /\ publishing (writer s) = 0)
    (pipeline s) (fst (seen s)) (fields s) (snd (seen s)) (reader s) ->
  snd (next_seen s) <= fields s /\
  reader_knows (fields s = snd (next_seen s) /\ publishing (writer s) = 0)
    (pipeline s) (fst (next_seen s)) (fields s) (snd (next_seen s)) (reader_step body (pipeline s) (reader s)).
Proof.
  intros Hseq Hseen Hr. pose proof (publishing_range (writer s)) as Hp. unfold next_seen, reader_step.
  destruct (reader s) as [|before p|before a|a|]; cbn [fst snd]; (split; [lia|]).
  - rewrite Hseq, sequence_odd by done. destruct Hp as [Hp|Hp]; rewrite Hp; cbn [Z.eqb]; [|done].
    cbn [reader_knows]. rewrite Z.add_0_r. split_and!; [done|lia|]. intros _. split; [apply sees_same_refl|]. auto.
  - destruct Hr as (Hb & Hn & Hq). destruct p as [a|c k|]; cbn [reader_knows]; [| |done].
    + split_and!; [done|lia|]. intros q. destruct (Hq q) as (S & _ & Hrun). split; [done|]. by rewrite <- Hrun.
    + split_and!; [done|lia|]. intros q. destruct (Hq q) as (S & [Hc Hpub] & Hrun). cbn [run_reading] in Hrun.
      by rewrite (load_same _ _ c S Hc).
  - destruct Hr as (Hb & Hn & Hq). rewrite Hseq, sequence_odd by done.
    destruct (Z.eqb_spec before (u64 (2 * fields s + publishing (writer s)))) as [E|]; [|done].
    destruct Hp as [Hp|Hp]; rewrite Hp in *; cbn [negb orb Z.eqb]; [|done]. cbn [reader_knows].
    split; [lia|]. intros Hlt. apply Hq. split; [|done]. rewrite Hb in E. unfold u64 in E. zlia.
  - exact Hr.
  - done.
Qed.

Lemma step_consistent s s' : thread_step hle body s s' -> consistent s -> consistent s'.
Proof.
  intros Hstep [Hseq Hbuf Hseen Hr]. destruct Hstep as [v Hw Hd| |].
  - rewrite Hw in *. assert (Hsees := draws_sees _ _ Hd Hbuf).
    assert (Hpub : publication v = publication (pipeline s)) by (destruct Hd; done).
    split; cbn [writer pipeline fields seen reader].
    + by rewrite Hpub.
    + unfold buffer_roles, drawing in *. by rewrite Hpub.
    + done.
    + eapply reader_knows_mono; [exact Hr|lia|]. intros [-> _]. done.
  - destruct (writer_step_sequence (writer s) (pipeline s)) as [Es Ep].
    split; cbn [writer pipeline fields seen reader].
    + rewrite Es, Ep. destruct (writer s); cbn [closes publishing] in *; rewrite Hseq;
        rewrite ?next_sequence; f_equal; lia.
    + by apply writer_step_apart.
    + destruct (writer s); cbn; lia.
    + eapply reader_knows_mono; [exact Hr|destruct (writer s); cbn; lia|]. intros [Hf Hq].
      assert (Hq' : publishing (writer s) = 0 /\ closes (writer s) = 0).
      { rewrite Ep in Hq. destruct (writer s); cbn in *; lia. }
      destruct Hq' as [Hq' Hc]. rewrite Hc, Z.add_0_r in Hf. split; [done|]. by apply writer_step_sees.
  - destruct (reader_step_consistent s Hseq Hseen Hr) as [H1 H2].
    split; cbn [writer pipeline fields seen reader]; done.
Qed.
End Safety.

(** * One published field per answer *)
Definition start {A} (v : VideoPipeline) : System A := mkSystem Drawing v LoadSequence 0 (v, 0).
Definition quiescent (v : VideoPipeline) : Prop :=
  publish_sequence (publication v) = 0 /\ published_buffer (publication v) = negb (drawing v).

Lemma reachable_consistent {A} hle (body : Reading A) v s :
  (forall v, reads_published v body) -> quiescent v -> rtc (thread_step hle body) (start v) s -> consistent body s.
Proof.
  intros Hbody [Hs Hb] H. assert (H0 : consistent body (start v)) by (split; cbn; [done|done|lia|done]).
  revert H0. induction H as [|s1 s2 s3 Hstep _ IH]; [done|]. intros H0. eapply IH, step_consistent; eassumption.
Qed.

(** In any interleaving an answer is what the reader would have read at once at
    its last load of the sequence, unless 2^63 fields passed meanwhile. *)
Definition sees_one_field {A} (hle : bool) (body : Reading A) (at_once : VideoPipeline -> option A) : Prop :=
  forall v s a, quiescent v -> rtc (thread_step hle body) (start v) s -> reader s = Answered a ->
  fields s - snd (seen s) < 2 ^ 63 -> at_once (fst (seen s)) = Some a.

Lemma answers_one_field {A} hle (body : Reading A) at_once :
  (forall v, reads_published v body) -> (forall v, run_reading v body = at_once v) -> sees_one_field hle body at_once.
Proof.
  intros Hbody Hrun v s a Hq H Ha Hlt. destruct (reachable_consistent hle body v s Hbody Hq H) as [_ _ _ Hr].
  rewrite Ha in Hr. rewrite <- Hrun. by apply Hr.
Qed.

(** A reader that is let alone answers. *)
Lemma undisturbed_reader {A} hle (body : Reading A) v w n sn a :
  publish_sequence (publication v) mod 2 = 0 -> run_reading v body = Some a ->
  rtc (thread_step hle body) (mkSystem w v LoadSequence n sn) (mkSystem w v (Answered a) n (v, n)).
Proof.
  intros Heven Hrun.
  assert (Hz : z2b (Z.land (publish_sequence (publication v)) 1) = false).
  { unfold z2b. change 1 with (Z.ones 1). rewrite Z.land_ones by lia. change (2 ^ 1) with 2. by rewrite Heven. }
  set (q := publish_sequence (publication v)) in *.
  eapply rtc_l; [apply step_reader|]. cbn [reader_step pipeline reader writer fields seen]. fold q. rewrite Hz.
  assert (Hgen : forall p, run_reading v p = Some a ->
    rtc (thread_step hle body) (mkSystem w v (Body q p) n (v, n)) (mkSystem w v (Answered a) n (v, n))).
  { induction p as [a'|c k IH|]; intros Hp; [| |done].
    - injection Hp as ->. eapply rtc_l; [apply step_reader|]. cbn [reader_step pipeline reader writer fields seen].
      eapply rtc_l; [apply step_reader|]. cbn [reader_step pipeline reader writer fields seen]. fold q.
      rewrite Z.eqb_refl, Hz. cbn [negb orb]. reflexivity.
    - eapply rtc_l; [apply step_reader|]. cbn [reader_step pipeline reader writer fields seen]. apply IH, Hp. }
  apply Hgen, Hrun.
Qed.

(** C5. Under every interleaving with the emulation, a reader that answers (the
    copy of the frame, the copy of a changed frame, the hash) has answered for
    one published field, never for parts of two. *)
Theorem readers_see_one_field (hle : bool) :
  (forall destination capacity,
    sees_one_field hle (copy_frame_reading destination capacity) (mcd212_video_copy_frame destination capacity)) /\
  (forall destination capacity previous,
    sees_one_field hle (copy_changed_reading destination capacity previous)
      (mcd212_video_copy_changed_frame destination capacity previous)) /\
  sees_one_field hle (frame_hash_reading hle) (fun v => Some (mcd212_video_frame_hash hle v)).
Proof.
  split_and!; intros; apply answers_one_field; auto using copy_frame_published, copy_frame_reading_run,
    copy_changed_published, copy_changed_reading_run, frame_hash_published, frame_hash_reading_run.
Qed.

(** * The writer's steps are the end of a field *)
Lemma writer_steps_app hle n m w v :
  writer_steps hle (n + m) w v =
  writer_steps hle m (fst (writer_steps hle n w v)) (snd (writer_steps hle n w v)).
Proof.
  revert w v. induction n as [|n IH]; intros w v; [done|]. cbn [Nat.add writer_steps].
  destruct (writer_step hle w v) as [w' v']. apply IH.
Qed.

Lemma set_frame_same b m f : frame_of (negb b) (set_frame b m f) = frame_of (negb b) f.
Proof. by destruct b. Qed.

(** The copy back, pixel by pixel. *)
Lemma copy_back_steps hle l b m : forall k v,
  drawing v = b -> completed l = negb b -> copy_size hle l v - k <= Z.of_nat m ->
  exists n f, writer_steps hle n (CopyBack l k) v = (Drawing, set_buffers f v) /\
    frame_of (negb b) f = frame_of (negb b) (buffers v) /\
    plane_frame_a f = plane_frame_a (buffers v) /\ plane_frame_b f = plane_frame_b (buffers v) /\
    verdict_frame f = verdict_frame (buffers v) /\
    forall a, mget (frame_of b f) a =
      if (k <=? a) && (a <? copy_size hle l v) then mget (frame_of (negb b) (buffers v)) a
      else mget (frame_of b (buffers v)) a.
Proof.
  induction m as [|m IH]; intros k v Hb Hl Hm.
  all: destruct (Z.ltb_spec k (copy_size hle l v)) as [Hk|Hk].
  1: lia.
  1, 3: exists 1%nat, (buffers v); cbn [writer_steps writer_step];
    rewrite (proj2 (Z.ltb_ge k (copy_size hle l v))) by lia; split; [by destruct v|];
    split_and!; try done; intros a; replace (_ && _) with false by lia; done.
  set (v1 := copy_pixel l k v).
  assert (Hsize : copy_size hle l v1 = copy_size hle l v) by done.
  destruct (IH (k + 1) v1) as (n & f & Hrun & Ho & HA & HB & HV & Hf); [done|done|lia|].
  exists (S n), f. split.
  - cbn [writer_steps writer_step]. rewrite (proj2 (Z.ltb_lt k (copy_size hle l v))) by done. exact Hrun.
  - assert (Hv1 : buffers v1 = set_frame b (mset (frame_of b (buffers v)) k (mget (frame_of (negb b) (buffers v)) k)) (buffers v)).
    { subst v1. unfold copy_pixel. cbn [buffers set_buffers]. by rewrite Hb, Hl. }
    rewrite Hv1 in *. split_and!; [by rewrite Ho, set_frame_same|by rewrite HA; destruct b|
      by rewrite HB; destruct b|by rewrite HV; destruct b|].
    intros a. rewrite Hf, Hsize, set_frame_same, frame_of_set, eqb_reflx, mget_mset.
    destruct (Z.eqb_spec k a) as [<-|Hne].
    + replace ((k + 1 <=? k) && _) with false by lia. by replace ((k <=? k) && (k <? _)) with true by lia.
    + replace (k + 1 <=? a) with (k <=? a) by lia. done.
Qed.

Lemma publication_steps hle v :
  writer_steps hle 10 Drawing v =
  (CopyBack (field_locals v) 0, set_publication (publication (mcd212_video_end_frame hle v)) v).
Proof.
  set (l := field_locals v).
  assert (Hp : publication (mcd212_video_end_frame hle v) =
    mkPublication (width v) (height v) (negb (completed l)) (completed l) (u64 (generation (publication v) + 1))
      (u64 (publish_sequence (publication v) + 2)) (if hle then hash l else published_hash (publication v))
      (if hle && same_content l then content_generation (publication v)
       else u64 (content_generation (publication v) + 1))) by reflexivity.
  assert (Hl : completed l = drawing_buffer (publication v)) by reflexivity.
  rewrite Hp. cbn [writer_steps writer_step]. fold l. clearbody l.
  assert (Hseq : u64 (u64 (publish_sequence (publication v) + 1) + 1) = u64 (publish_sequence (publication v) + 2))
    by (rewrite next_sequence; f_equal; lia).
  rewrite Hl, <- Hseq. destruct v as [r da db f w h [pw ph d pb g s ha c] k jobs]. cbn in *.
  by destruct hle, (same_content l).
Qed.

(** The statements of the end of a field, one access at a time and the copy
    back pixel by pixel, leave what the end of the field leaves. *)
Theorem end_frame_is_its_steps hle v :
  published_buffer (publication v) = negb (drawing v) -> 0 <= width v * height v ->
  (hle = false -> forall a, a < 0 \/ 430080 <= a -> mget (frame0 (buffers v)) a = mget (frame1 (buffers v)) a) ->
  exists n f, writer_steps hle n Drawing v = (Drawing, set_buffers f (mcd212_video_end_frame hle v)) /\
    same_buffers f (buffers (mcd212_video_end_frame hle v)).
Proof.
  intros Hpub Hwh Hout. set (l := field_locals v). set (b := drawing v) in *.
  set (v1 := set_publication (publication (mcd212_video_end_frame hle v)) v).
  assert (Hl : completed l = b) by reflexivity.
  assert (Hd : drawing v1 = negb b) by reflexivity.
  assert (Hbuf : buffers v1 = buffers v) by reflexivity.
  destruct (copy_back_steps hle l (negb b) (Z.to_nat (copy_size hle l v1)) 0 v1)
    as (n & f & Hrun & Ho & HA & HB & HV & Hf); [done|by rewrite negb_involutive|lia|].
  exists (10 + n)%nat, f. rewrite writer_steps_app, publication_steps. fold l v1. cbn [fst snd].
  split; [exact Hrun|]. rewrite negb_involutive, Hbuf in *.
  set (pixels := visible (frame_of b (buffers v)) (width v) (height v)).
  assert (Hsame : same_pixels l = bool_decide (visible (frame_of (negb b) (buffers v)) (width v) (height v) = pixels)).
  { unfold l, field_locals. cbv zeta. rewrite Hpub. reflexivity. }
  assert (Hnew : frame_of (negb b) f ≈
    if hle then if same_pixels l then frame_of (negb b) (buffers v) else mstore (frame_of (negb b) (buffers v)) 0 pixels
    else frame_of b (buffers v)).
  { intros a. rewrite Hf. unfold copy_size. change (width v1) with (width v). change (height v1) with (height v).
    destruct hle; [destruct (same_pixels l)|].
    - by replace ((0 <=? a) && (a <? 0)) with false by lia.
    - rewrite mget_mstore. subst pixels. rewrite length_visible, Z.max_r, Z.add_0_l by lia.
      destruct ((0 <=? a) && (a <? width v * height v)) eqn:Ea; [|done].
      unfold visible. by rewrite Z.sub_0_r, nth_mload, Z.add_0_l by lia.
    - destruct ((0 <=? a) && _) eqn:Ea; [done|].
      unfold MCD212_VIDEO_MAX_WIDTH, MCD212_VIDEO_MAX_HEIGHT in Ea.
      specialize (Hout eq_refl a ltac:(lia)). by destruct b. }
  assert (Hend : buffers (mcd212_video_end_frame hle v) =
    if hle
    then if same_pixels l then buffers v
         else set_frame (negb b) (mstore (frame_of (negb b) (buffers v)) 0 pixels) (buffers v)
    else set_frame (negb b) (frame_of b (buffers v)) (buffers v)) by (by destruct hle).
  rewrite Hend. clear Hend. clearbody pixels l v1 b.
  destruct hle; [destruct (same_pixels l)|]; destruct b; cbn in *;
    split; cbn; rewrite ?Ho, ?HA, ?HB, ?HV; done.
Qed.

(** * An unchanged content number is an unchanged picture *)
Lemma put_drawn_other b lo l f : frame_of (negb b) (put_drawn b lo l f) = frame_of (negb b) f.
Proof. by destruct b. Qed.
Lemma draw_cursor_other r w b fld lo line f :
  frame_of (negb b) (draw_cursor r w b fld lo line f) = frame_of (negb b) f.
Proof. apply set_frame_same. Qed.
Lemma compose_line_other r w b fld h line fin_a fin_b f :
  frame_of (negb b) (compose_line r w b fld h line fin_a fin_b f) = frame_of (negb b) f.
Proof.
  unfold compose_line. cbv zeta. destruct (_ <=? _); [done|]. by rewrite draw_cursor_other, put_drawn_other.
Qed.
Lemma scanout_loop_other f r w b offset fuel x j j' :
  scanout_loop f r w b offset fuel x j = Some j' ->
  frame_of (negb b) (sc_buffers j') = frame_of (negb b) (sc_buffers j).
Proof.
  revert x j. induction fuel as [|fuel IH]; intros x j H; cbn [scanout_loop] in H; destruct (_ <? _); try done;
    try by injection H as <-.
  apply bind_Some in H as ([e j1] & Hstep & H). apply IH in H. cbn [snd] in H. rewrite H.
  unfold scanout_step in Hstep. apply bind_Some in Hstep as (a & _ & Hstep).
  apply bind_Some in Hstep as (c & _ & Hstep). injection Hstep as _ <-. apply put_drawn_other.
Qed.

(** What the readers of an undisturbed pipeline see. *)
Lemma draw_line_keeps_shown hle ram0 ram1 a b line wa wb v out :
  mcd212_video_draw_line hle ram0 ram1 a b line wa wb v = Some out ->
  publication (snd out) = publication v /\
  frame_of (negb (drawing v)) (buffers (snd out)) = frame_of (negb (drawing v)) (buffers v).
Proof.
  unfold mcd212_video_draw_line, reference_line, reusable_line, run_job, remember_line. cbv zeta. intros H.
  destruct (hle && _).
  - destruct (reusable_job _ _ _ _ _ _ _ _); [by injection H as <-|].
    apply bind_Some in H as (o & Hrun & H). injection H as <-.
    apply bind_Some in Hrun as ([[[[[u1 u2] r1] r2] f] fused] & Hjob & Hrun). injection Hrun as <-. cbn [fst snd].
    assert (Hf : frame_of (negb (drawing v)) f = frame_of (negb (drawing v)) (buffers v)).
    { unfold scanout_job in Hjob. apply bind_Some in Hjob as (sa & _ & Hjob).
      apply bind_Some in Hjob as (sb & _ & Hjob). cbv zeta in Hjob. apply bind_Some in Hjob as (j & Hloop & Hjob).
      injection Hjob as _ _ _ _ <- _. rewrite draw_cursor_other. by apply scanout_loop_other in Hloop. }
    destruct (negb (eligible _ _)); [done|]. destruct (line_source _ _ _ _); [|done]. by destruct (line_source _ _ _ _).
  - apply bind_Some in H as ([[[u1 u2] r1] r2] & _ & H). injection H as <-. split; [done|].
    apply compose_line_other.
Qed.

Definition keeps_picture (v v' : VideoPipeline) : Prop :=
  shown_frame v' = shown_frame v /\ published_width (publication v') = published_width (publication v) /\
  published_height (publication v') = published_height (publication v).

Lemma same_field_keeps_picture v v' :
  published_buffer (publication v) = negb (drawing v) -> publication v' = publication v ->
  frame_of (negb (drawing v)) (buffers v') = frame_of (negb (drawing v)) (buffers v) -> keeps_picture v v'.
Proof. intros Hp Hpub Hf. unfold keeps_picture, shown_frame. cbv zeta. rewrite Hpub, Hp, Hf. done. Qed.

Lemma end_frame_content hle v :
  published_buffer (publication v) = negb (drawing v) -> let v' := mcd212_video_end_frame hle v in
  published_buffer (publication v') = negb (drawing v') /\
  (content_generation (publication v') = u64 (content_generation (publication v) + 1) \/
   content_generation (publication v') = content_generation (publication v) /\ keeps_picture v v').
Proof.
  intros Hpub v'. split; [unfold drawing; cbn; by rewrite negb_involutive|].
  unfold v', mcd212_video_end_frame. cbv zeta. cbn [publication content_generation set_buffers set_publication].
  destruct (negb (generation (publication v) =? 0) && bool_decide _ && same_geometry v) eqn:E.
  2: { left. by rewrite andb_false_r. }
  destruct hle; cbn [andb]; [|by left]. right. split; [done|].
  apply andb_prop in E as [E Hgeo]. apply andb_prop in E as [_ E]. pose proof E as E'. apply bool_decide_eq_true in E.
  unfold same_geometry in Hgeo. apply andb_prop in Hgeo as [Gw Gh]. apply Z.eqb_eq in Gw, Gh.
  rewrite E'. unfold keeps_picture, shown_frame. cbv zeta.
  cbn [publication published_width published_height published_buffer set_buffers set_publication buffers].
  rewrite <- E, <- Gw, <- Gh. done.
Qed.

(** The fields a run completes. *)
Fixpoint ends (ops : list VideoOp) : Z :=
  match ops with
  | [] => 0
  | OpEnd :: ops => 1 + ends ops
  | _ :: ops => ends ops
  end.
Lemma ends_nonneg ops : 0 <= ends ops.
Proof. induction ops as [|[] ops IH]; cbn; lia. Qed.

Lemma run_video_content hle ops : forall v used v',
  published_buffer (publication v) = negb (drawing v) -> run_video hle ops v = Some (used, v') ->
  exists n, 0 <= n <= ends ops /\
    content_generation (publication v') mod 2 ^ 64 = (content_generation (publication v) + n) mod 2 ^ 64 /\
    (n = 0 -> keeps_picture v v').
Proof.
  assert (Hkeep : forall v v1 v', keeps_picture v v1 -> keeps_picture v1 v' -> keeps_picture v v').
  { unfold keeps_picture. intros v v1 v' (A & B & C) (D & E & F). split_and!; congruence. }
  assert (Hsame : forall v v1, published_buffer (publication v) = negb (drawing v) -> publication v1 = publication v ->
    frame_of (negb (drawing v)) (buffers v1) = frame_of (negb (drawing v)) (buffers v) ->
    published_buffer (publication v1) = negb (drawing v1) /\ content_generation (publication v1) = content_generation (publication v)
    /\ keeps_picture v v1).
  { intros v v1 Hp E Hf. unfold drawing in *. rewrite E. split; [done|]. split; [done|]. by apply same_field_keeps_picture. }
  induction ops as [|op ops IH]; intros v used v' Hp H.
  { injection H as <- <-. exists 0. split; [cbn; lia|]. split; [by rewrite Z.add_0_r|done]. }
  assert (Hstep : forall v1 us, published_buffer (publication v1) = negb (drawing v1) ->
    content_generation (publication v1) = content_generation (publication v) -> keeps_picture v v1 ->
    run_video hle ops v1 = Some (us, v') ->
    exists n, 0 <= n <= ends ops /\
      content_generation (publication v') mod 2 ^ 64 = (content_generation (publication v) + n) mod 2 ^ 64 /\
      (n = 0 -> keeps_picture v v')).
  { intros v1 us Hp1 Ec Hk Hrun. destruct (IH v1 us v' Hp1 Hrun) as (n & Hn & Hc & Hz).
    exists n. rewrite <- Ec. split; [done|]. split; [done|]. intros E. eapply Hkeep; [exact Hk|auto]. }
  destruct op as [plane instruction|bw bh il|ram0 ram1 a b line wa wb|]; cbn [run_video ends] in *.
  - apply bind_Some in H as (v1 & Hv & H). unfold mcd212_video_control in Hv.
    apply bind_Some in Hv as (r & _ & Hv). injection Hv as <-.
    destruct (Hsame v (set_video_registers r v)) as (A & B & C); [done|done|done|]. eapply Hstep; eassumption.
  - apply bind_Some in H as (v1 & Hv & H). unfold mcd212_video_begin_frame in Hv. cbv zeta in Hv.
    destruct (_ || _); [done|]. injection Hv as <-.
    match type of H with run_video _ _ ?x = _ => destruct (Hsame v x) as (A & B & C) end;
      [done|by destruct (hle && _)|by destruct (hle && _)|]. eapply Hstep; eassumption.
  - apply bind_Some in H as ([u v1] & Hv & H). apply bind_Some in H as ([us v2] & Hrun & H).
    injection H as <- <-. cbn [fst snd] in *. apply draw_line_keeps_shown in Hv as [E Hf]. cbn [snd] in *.
    destruct (Hsame v v1) as (A & B & C); [done|done|done|]. eapply Hstep; eassumption.
  - destruct (end_frame_content hle v Hp) as [Hp1 [Hc|[Hc Hk]]].
    + destruct (IH _ _ _ Hp1 H) as (n & Hn & Hc' & _). exists (1 + n). split; [lia|]. split; [|lia].
      rewrite Hc', Hc. unfold u64. rewrite Zplus_mod_idemp_l. f_equal. lia.
    + destruct (Hstep _ _ Hp1 Hc Hk H) as (n & Hn & R). exists n. split; [lia|exact R].
Qed.

(** Two moments with the same content number, fewer than 2^64 fields apart,
    show the same picture in the same geometry: a reader that skips a number it
    has seen misses nothing. *)
Theorem content_number_identifies_picture hle ops v used v' :
  published_buffer (publication v) = negb (drawing v) -> ends ops < 2 ^ 64 ->
  run_video hle ops v = Some (used, v') ->
  content_generation (publication v') = content_generation (publication v) ->
  shown_frame v' = shown_frame v /\ published_width (publication v') = published_width (publication v) /\
  published_height (publication v') = published_height (publication v).
Proof.
  intros Hp Hends H Hc. destruct (run_video_content hle ops v used v' Hp H) as (n & Hn & E & Hz).
  apply Hz. rewrite Hc in E. zlia.
Qed.

(** * Instances *)
Definition small_pipeline : VideoPipeline := set_height 1 (set_width 2 mcd212_video_reset).
Lemma end_frame_is_its_steps_witness :
  exists n f, writer_steps true n Drawing small_pipeline =
    (Drawing, set_buffers f (mcd212_video_end_frame true small_pipeline)) /\
    same_buffers f (buffers (mcd212_video_end_frame true small_pipeline)).
Proof. apply (end_frame_is_its_steps true small_pipeline); [reflexivity|cbn; lia|discriminate]. Defined.

(** Fields that repeat the first: the third keeps the number of the second. *)
Lemma content_number_identifies_picture_witness :
  let v := mcd212_video_end_frame true (mcd212_video_end_frame true small_pipeline) in
  let v' := mcd212_video_end_frame true v in
  content_generation (publication v) = 1 /\ shown_frame v' = shown_frame v.
Proof.
  intros v v'. split; [vm_compute; reflexivity|].
  destruct (content_number_identifies_picture true [OpEnd] v [] v') as [H _];
    [vm_compute; reflexivity|cbn; lia|reflexivity|vm_compute; reflexivity|exact H].
Defined.
