(* ===== verification/Sha256.v ===== *)
(** SHA-256 (common/cdi_sha256.c), which names the images that native code may
    replace. *)

From Stdlib Require Import ZArith Lia Bool.
From stdpp Require Import base tactics numbers list.
From S2P Require Import Prelude.
Open Scope Z_scope.

Definition ror (x n : Z) : Z := Z.lor (Z.shiftr x n) (u32 (Z.shiftl x (32 - n))).

Definition be32 (p : list Z) (i : Z) : Z :=
  Z.lor (Z.lor (Z.lor (u32 (Z.shiftl (lget p i) 24)) (Z.shiftl (lget p (i + 1)) 16))
    (Z.shiftl (lget p (i + 2)) 8)) (lget p (i + 3)).

(** The table of round constants by its rows of eight. *)
Definition constant_rows : list Z := [
  0x428a2f98_71374491_b5c0fbcf_e9b5dba5_3956c25b_59f111f1_923f82a4_ab1c5ed5;
  0xd807aa98_12835b01_243185be_550c7dc3_72be5d74_80deb1fe_9bdc06a7_c19bf174;
  0xe49b69c1_efbe4786_0fc19dc6_240ca1cc_2de92c6f_4a7484aa_5cb0a9dc_76f988da;
  0x983e5152_a831c66d_b00327c8_bf597fc7_c6e00bf3_d5a79147_06ca6351_14292967;
  0x27b70a85_2e1b2138_4d2c6dfc_53380d13_650a7354_766a0abb_81c2c92e_92722c85;
  0xa2bfe8a1_a81a664b_c24b8b70_c76c51a3_d192e819_d6990624_f40e3585_106aa070;
  0x19a4c116_1e376c08_2748774c_34b0bcb5_391c0cb3_4ed8aa4a_5b9cca4f_682e6ff3;
  0x748f82ee_78a5636f_84c87814_8cc70208_90befffa_a4506ceb_bef9a3f7_c67178f2 ].
Definition row_words (row : Z) : list Z :=
  map (fun i => u32 (Z.shiftr row (32 * (7 - i)))) (seqZ 0 8).
Definition round_constants : list Z := Eval vm_compute in flat_map row_words constant_rows.
Definition initial_hash : list Z := Eval vm_compute in
  row_words 0x6a09e667_bb67ae85_3c6ef372_a54ff53a_510e527f_9b05688c_1f83d9ab_5be0cd19.

(** ** One block *)
Fixpoint schedule_words (n : nat) (i : Z) (p w : list Z) : list Z :=
  match n with
  | O => w
  | S n' => schedule_words n' (i + 1) p (lset w i (be32 p (i * 4)))
  end.

Definition schedule_word (w : list Z) (i : Z) : Z :=
  let a := lget w (i - 15) in
  let b := lget w (i - 2) in
  u32 (Z.lxor (Z.lxor (ror a 7) (ror a 18)) (Z.shiftr a 3) + lget w (i - 16) +
       Z.lxor (Z.lxor (ror b 17) (ror b 19)) (Z.shiftr b 10) + lget w (i - 7)).
Fixpoint extend_words (n : nat) (i : Z) (w : list Z) : list Z :=
  match n with
  | O => w
  | S n' => extend_words n' (i + 1) (lset w i (schedule_word w i))
  end.

Record Vars := mkVars { va : Z; vb : Z; vc : Z; vd : Z; ve : Z; vf : Z; vg : Z; vz : Z }.

Definition round (k w : Z) (v : Vars) : Vars :=
  let '(mkVars a b c d e f g z) := v in
  let t1 := u32 (z + Z.lxor (Z.lxor (ror e 6) (ror e 11)) (ror e 25) +
                 Z.lxor (Z.land e f) (Z.land (u32 (Z.lnot e)) g) + k + w) in
  let t2 := u32 (Z.lxor (Z.lxor (ror a 2) (ror a 13)) (ror a 22) +
                 Z.lxor (Z.lxor (Z.land a b) (Z.land a c)) (Z.land b c)) in
  mkVars (u32 (t1 + t2)) a b c (u32 (d + t1)) e f g.

Fixpoint rounds (n : nat) (i : Z) (w : list Z) (v : Vars) : Vars :=
  match n with
  | O => v
  | S n' => rounds n' (i + 1) w (round (lget round_constants i) (lget w i) v)
  end.

Definition block (h p : list Z) : list Z :=
  let w := schedule_words 16 0 p (replicate 64 0) in
  let w := extend_words 48 16 w in
  let v := mkVars (lget h 0) (lget h 1) (lget h 2) (lget h 3) (lget h 4) (lget h 5) (lget h 6) (lget h 7) in
  let '(mkVars a b c d e f g z) := rounds 64 0 w v in
  [u32 (lget h 0 + a); u32 (lget h 1 + b); u32 (lget h 2 + c); u32 (lget h 3 + d);
   u32 (lget h 4 + e); u32 (lget h 5 + f); u32 (lget h 6 + g); u32 (lget h 7 + z)].

(** ** The message *)

(** The loop over whole blocks: [n] is [size / 64]. What is left of the data is
    returned beside the hash. *)
Fixpoint whole_blocks (n : nat) (h data : list Z) : list Z * list Z :=
  match n with
  | O => (h, data)
  | S n' => whole_blocks n' (block h data) (drop 64 data)
  end.

Fixpoint put_length (n : nat) (i : Z) (last bits : Z) (tail : list Z) : list Z :=
  match n with
  | O => tail
  | S n' => put_length n' (i + 1) last bits (lset tail (last - i) (u8 (Z.shiftr bits (i * 8))))
  end.

Fixpoint copy_tail (i : Z) (data tail : list Z) : list Z :=
  match data with
  | [] => tail
  | b :: rest => copy_tail (i + 1) rest (lset tail i b)
  end.

Definition digest_bytes (h : list Z) : list Z :=
  flat_map (fun x => map (fun j => u8 (Z.shiftr x (24 - j * 8))) [0; 1; 2; 3]) h.

Definition cdi_sha256 (data : list Z) : list Z :=
  let size := Z.of_nat (length data) in
  let bits := u64 (size * 8) in
  let '(h, rest) := whole_blocks (Z.to_nat (size / 64)) initial_hash data in
  let size := Z.of_nat (length rest) in
  let tail := copy_tail 0 rest (replicate 128 0) in
  let tail := lset tail size 0x80 in
  let last := if size <? 56 then 64 else 128 in
  let tail := put_length 8 0 (last - 1) bits tail in
  let h := block h tail in
  let h := if last =? 128 then block h (drop 64 tail) else h in
  digest_bytes h.
