(* ===== verification/ShaSpec.v ===== *)
(** The code of SHA-256 against the standard (FIPS 180-4): constants from the
    roots of the primes, functions, message schedule, padding, chain of blocks. *)

From Stdlib Require Import ZArith Lia Bool.
From stdpp Require Import base tactics numbers list.
From S2P Require Import Prelude Sha256.
Open Scope Z_scope.

(** * The standard *)

(** ** Constants: 32 bits of the fractions of roots of primes *)
Definition prime (n : Z) : bool := forallb (fun d => negb (n mod d =? 0)) (seqZ 2 (n - 2)).
Definition primes : list Z := List.filter prime (seqZ 2 310).

(** The integer [k]-th root of [n], [b] bits still to find. *)
Fixpoint root_from (k n : Z) (b : nat) (r : Z) : Z :=
  match b with
  | O => r
  | S b' => let r' := r + 2 ^ Z.of_nat b' in root_from k n b' (if r' ^ k <=? n then r' else r)
  end.
Definition root_fraction (k p : Z) : Z := root_from k (p * 2 ^ (32 * k)) 40 0 mod 2 ^ 32.
Definition std_constants : list Z := map (root_fraction 3) primes.
Definition std_initial : list Z := map (root_fraction 2) (take 8 primes).

(** ** Functions of words *)
Definition rotr (n x : Z) : Z := x / 2 ^ n + (x mod 2 ^ n) * 2 ^ (32 - n).
Definition xor3 (x y z : Z) : Z := Z.lxor (Z.lxor x y) z.
Definition choice (x y z : Z) : Z := Z.lxor (Z.land x y) (Z.land (2 ^ 32 - 1 - x) z).
Definition majority (x y z : Z) : Z := xor3 (Z.land x y) (Z.land x z) (Z.land y z).
Definition big_sigma0 (x : Z) : Z := xor3 (rotr 2 x) (rotr 13 x) (rotr 22 x).
Definition big_sigma1 (x : Z) : Z := xor3 (rotr 6 x) (rotr 11 x) (rotr 25 x).
Definition small_sigma0 (x : Z) : Z := xor3 (rotr 7 x) (rotr 18 x) (x / 2 ^ 3).
Definition small_sigma1 (x : Z) : Z := xor3 (rotr 17 x) (rotr 19 x) (x / 2 ^ 10).

(** ** Schedule and compression *)
Definition word_of_bytes (bs : list Z) : Z := fold_left (fun acc b => acc * 256 + b) bs 0.
Definition bytes_of_word (n : nat) (x : Z) : list Z :=
  map (fun i => (x / 256 ^ (Z.of_nat n - 1 - i)) mod 256) (seqZ 0 (Z.of_nat n)).

Fixpoint chunks (size : nat) (n : nat) (l : list Z) : list (list Z) :=
  match n with O => [] | S n' => take size l :: chunks size n' (drop size l) end.

Fixpoint std_schedule (n : nat) (m : list Z) : list Z :=
  match n with
  | O => m
  | S n' =>
    let w := std_schedule n' m in
    let back i := nth (length w - i) w 0 in
    w ++ [(small_sigma1 (back 2%nat) + back 7%nat + small_sigma0 (back 15%nat) + back 16%nat) mod 2 ^ 32]
  end.

Definition std_round (v : Vars) (kw : Z * Z) : Vars :=
  let t1 := (vz v + big_sigma1 (ve v) + choice (ve v) (vf v) (vg v) + fst kw + snd kw) mod 2 ^ 32 in
  let t2 := (big_sigma0 (va v) + majority (va v) (vb v) (vc v)) mod 2 ^ 32 in
  mkVars ((t1 + t2) mod 2 ^ 32) (va v) (vb v) (vc v) ((vd v + t1) mod 2 ^ 32) (ve v) (vf v) (vg v).

Definition vars_of (h : list Z) : Vars :=
  mkVars (nth 0 h 0) (nth 1 h 0) (nth 2 h 0) (nth 3 h 0) (nth 4 h 0) (nth 5 h 0) (nth 6 h 0) (nth 7 h 0).
Definition list_of (v : Vars) : list Z := [va v; vb v; vc v; vd v; ve v; vf v; vg v; vz v].

Definition std_compress (h m : list Z) : list Z :=
  let w := std_schedule 48 (map word_of_bytes (chunks 4 16 m)) in
  let v := fold_left std_round (combine std_constants w) (vars_of h) in
  zip_with (fun x y => (x + y) mod 2 ^ 32) h (list_of v).

(** ** Padding and the chain *)
Definition pad (m : list Z) : list Z :=
  m ++ [0x80] ++ replicate (Z.to_nat ((55 - Z.of_nat (length m)) mod 64)) 0 ++
  bytes_of_word 8 (8 * Z.of_nat (length m)).

Definition sha256 (m : list Z) : list Z :=
  let p := pad m in
  flat_map (bytes_of_word 4)
    (fold_left std_compress (chunks 64 (length p / 64) p) std_initial).

(** * Constants *)
Lemma root_from_spec k n b r :
  0 < k -> 0 <= r -> r ^ k <= n < (r + 2 ^ Z.of_nat b) ^ k ->
  root_from k n b r ^ k <= n < (root_from k n b r + 1) ^ k.
Proof.
  intros Hk. revert r. induction b as [|b IH]; intros r Hr Hn; [done|]. cbn [root_from].
  rewrite Nat2Z.inj_succ, Z.pow_succ_r in Hn by lia.
  pose proof (Z.pow_nonneg 2 (Z.of_nat b) ltac:(lia)).
  destruct (Z.leb_spec ((r + 2 ^ Z.of_nat b) ^ k) n); apply IH; try lia.
  replace (r + 2 ^ Z.of_nat b + 2 ^ Z.of_nat b) with (r + 2 * 2 ^ Z.of_nat b) by lia. lia.
Qed.

Lemma round_constants_std : round_constants = std_constants.
Proof. vm_compute. reflexivity. Qed.
Lemma initial_hash_std : initial_hash = std_initial.
Proof. vm_compute. reflexivity. Qed.

(** * Words *)
Lemma high_bits_word x n : is_u32 x -> 0 < n < 32 -> is_word (32 - n) (x / 2 ^ n).
Proof.
  intros [H0 H1] Hn. pose proof (Z.pow_pos_nonneg 2 n ltac:(lia) ltac:(lia)).
  split; [apply Z.div_pos; lia|]. apply Z.div_lt_upper_bound; [lia|].
  rewrite <- Z.pow_add_r by lia. replace (n + (32 - n)) with 32 by lia. done.
Qed.

Lemma ror_rotr x n : is_u32 x -> 0 < n < 32 -> ror x n = rotr n x.
Proof.
  intros Hx Hn. unfold ror, rotr. rewrite Z.lor_comm.
  assert (u32 (Z.shiftl x (32 - n)) = Z.shiftl (x mod 2 ^ n) (32 - n)) as ->.
  { rewrite !Z.shiftl_mul_pow2 by lia. unfold u32. change 0x100000000 with (2 ^ 32).
    replace (2 ^ 32) with (2 ^ n * 2 ^ (32 - n)) by (rewrite <- Z.pow_add_r by lia; f_equal; lia).
    apply Z.mul_mod_distr_r; apply Z.pow_nonzero; lia. }
  rewrite Z.shiftr_div_pow2 by lia. rewrite lor_shiftl_add; [lia|lia|]. by apply high_bits_word.
Qed.

Lemma ror_word x n : is_u32 x -> 0 < n -> is_u32 (ror x n).
Proof. intros Hx Hn. unfold ror. word. Qed.
#[local] Hint Extern 1 (is_word _ (ror _ _)) => apply ror_word; [|lia] : word.

Lemma complement x : is_u32 x -> u32 (Z.lnot x) = 2 ^ 32 - 1 - x.
Proof. unfold is_word, u32, Z.lnot. intros H. zlia. Qed.

(** ** The schedule *)
Lemma be32_word p i :
  Forall is_u8 p -> be32 p i = word_of_bytes [lget p i; lget p (i + 1); lget p (i + 2); lget p (i + 3)].
Proof.
  intros Hp. pose proof (fun i => Forall_lget is_u8 p i Hp ltac:(unfold is_word; lia)) as Hb.
  unfold be32, word_of_bytes. cbn [fold_left].
  pose proof (Hb i). pose proof (Hb (i + 1)). pose proof (Hb (i + 2)). pose proof (Hb (i + 3)).
  set (a := lget p i) in *. set (b := lget p (i + 1)) in *. set (c := lget p (i + 2)) in *. set (d := lget p (i + 3)) in *.
  unfold is_word in *. rewrite u32_id by (unfold is_word; rewrite Z.shiftl_mul_pow2 by lia; lia).
  assert (Z.lor (Z.lor (Z.lor (Z.shiftl a 24) (Z.shiftl b 16)) (Z.shiftl c 8)) d =
    Z.lor (Z.shiftl (Z.lor (Z.shiftl (Z.lor (Z.shiftl a 8) b) 8) c) 8) d) as ->.
  { rewrite !Z.shiftl_lor, !Z.shiftl_shiftl by lia. reflexivity. }
  rewrite (lor_shiftl_add 8 a b), (lor_shiftl_add 8 _ c), (lor_shiftl_add 8 _ d) by (unfold is_word; lia).
  lia.
Qed.

Lemma lset_snoc l x r v : lset (l ++ x :: r) (Z.of_nat (length l)) v = l ++ v :: r.
Proof.
  unfold lset. rewrite Nat2Z.id. rewrite insert_app_r_alt by lia. by rewrite Nat.sub_diag.
Qed.

Lemma schedule_words_eq n p w r :
  schedule_words n (Z.of_nat (length w)) p (w ++ replicate n 0 ++ r) =
  w ++ map (fun i => be32 p (i * 4)) (seqZ (Z.of_nat (length w)) (Z.of_nat n)) ++ r.
Proof.
  revert w. induction n as [|n IH]; intros w; [done|].
  rewrite seqZ_cons, Nat2Z.inj_succ, Z.pred_succ by lia. cbn [schedule_words replicate app map].
  rewrite lset_snoc. set (x := be32 p _).
  specialize (IH (w ++ [x])). rewrite length_app, Nat2Z.inj_add in IH. cbn [length] in IH.
  change (Z.of_nat 1) with 1 in IH. rewrite <- !app_assoc in IH. exact IH.
Qed.

Lemma length_std_schedule n m : length (std_schedule n m) = (length m + n)%nat.
Proof. induction n as [|n IH]; cbn; [lia|]. rewrite length_app, IH. cbn. lia. Qed.

Lemma mod32_word x : is_u32 (x mod 2 ^ 32).
Proof. apply Z.mod_pos_bound. lia. Qed.

Lemma std_schedule_words n m : Forall is_u32 m -> Forall is_u32 (std_schedule n m).
Proof.
  intros Hm. induction n as [|n IH]; [done|]. cbn [std_schedule]. apply Forall_app. split; [done|].
  constructor; [apply mod32_word|done].
Qed.

Lemma lget_app_back w r k :
  (0 < k <= length w)%nat -> lget (w ++ r) (Z.of_nat (length w) - Z.of_nat k) = nth (length w - k) w 0.
Proof.
  intros Hk. unfold lget. replace (Z.to_nat _) with (length w - k)%nat by lia. apply app_nth1. lia.
Qed.

Lemma schedule_word_eq w r :
  Forall is_u32 w -> (16 <= length w)%nat ->
  let back i := nth (length w - i) w 0 in
  schedule_word (w ++ r) (Z.of_nat (length w)) =
  (small_sigma1 (back 2%nat) + back 7%nat + small_sigma0 (back 15%nat) + back 16%nat) mod 2 ^ 32.
Proof.
  intros Hw Hl back. unfold schedule_word.
  pose proof (lget_app_back w r 15 ltac:(lia)) as E15. pose proof (lget_app_back w r 2 ltac:(lia)) as E2.
  pose proof (lget_app_back w r 16 ltac:(lia)) as E16. pose proof (lget_app_back w r 7 ltac:(lia)) as E7.
  change (Z.of_nat 15) with 15 in E15. change (Z.of_nat 2) with 2 in E2.
  change (Z.of_nat 16) with 16 in E16. change (Z.of_nat 7) with 7 in E7. rewrite E15, E2, E16, E7.
  fold (back 15%nat) (back 2%nat) (back 16%nat) (back 7%nat).
  assert (forall i, is_u32 (back i)) as Hb.
  { intros i. pose proof (Forall_lget is_u32 w (Z.of_nat (length w - i)) Hw ltac:(unfold is_word; lia)) as H.
    unfold lget in H. by rewrite Nat2Z.id in H. }
  rewrite !ror_rotr, !Z.shiftr_div_pow2 by (done || lia).
  unfold u32, small_sigma0, small_sigma1, xor3. change 0x100000000 with (2 ^ 32). f_equal. lia.
Qed.

Lemma std_schedule_succ n m :
  std_schedule (S n) m =
  let w := std_schedule n m in
  let back i := nth (length w - i) w 0 in
  w ++ [(small_sigma1 (back 2%nat) + back 7%nat + small_sigma0 (back 15%nat) + back 16%nat) mod 2 ^ 32].
Proof. done. Qed.

Lemma extend_words_eq n k m r :
  Forall is_u32 m -> length m = 16%nat ->
  extend_words n (Z.of_nat (16 + k)) (std_schedule k m ++ replicate n 0 ++ r) =
  std_schedule (k + n) m ++ r.
Proof.
  intros Hm Hl. revert k. induction n as [|n IH]; intros k; [by rewrite Nat.add_0_r|].
  cbn [extend_words replicate app]. pose proof (length_std_schedule k m) as Hlen. rewrite Hl in Hlen.
  rewrite <- Hlen, schedule_word_eq, lset_snoc by (try lia; by apply std_schedule_words).
  specialize (IH (S k)). rewrite std_schedule_succ, <- app_assoc in IH. cbn [app] in IH.
  replace (Z.of_nat (length (std_schedule k m)) + 1) with (Z.of_nat (16 + S k)) by lia.
  replace (k + S n)%nat with (S k + n)%nat by lia. exact IH.
Qed.

(** ** Rounds *)
Definition vars_ok (v : Vars) : Prop := Forall is_u32 (list_of v).

Lemma round_eq k w v : vars_ok v -> round k w v = std_round v (k, w).
Proof.
  destruct v as [a b c d e f g z]. unfold vars_ok, list_of. cbn [va vb vc vd ve vf vg vz].
  rewrite !Forall_cons. intros (Ha & Hb & Hc & Hd & He & Hf & Hg & Hz & _).
  unfold round, std_round. cbn [va vb vc vd ve vf vg vz fst snd].
  rewrite !ror_rotr, complement by (done || lia). reflexivity.
Qed.
Lemma std_round_ok v kw : vars_ok v -> vars_ok (std_round v kw).
Proof.
  destruct v as [a b c d e f g z]. unfold vars_ok, list_of, std_round. cbn [va vb vc vd ve vf vg vz].
  rewrite !Forall_cons. intros (Ha & Hb & Hc & Hd & He & Hf & Hg & Hz & _).
  refine (conj (mod32_word _) (conj Ha (conj Hb (conj Hc (conj (mod32_word _)
    (conj He (conj Hf (conj Hg _)))))))). done.
Qed.

Lemma rounds_eq n i w v :
  vars_ok v ->
  rounds n i w v =
  fold_left std_round (map (fun j => (lget round_constants j, lget w j)) (seqZ i (Z.of_nat n))) v.
Proof.
  revert i v. induction n as [|n IH]; intros i v Hv; [done|].
  rewrite seqZ_cons, Nat2Z.inj_succ, Z.pred_succ by lia. cbn [rounds map fold_left].
  rewrite round_eq by done. apply IH. by apply std_round_ok.
Qed.

Lemma combine_lget ks ws :
  length ks = length ws ->
  map (fun j => (lget ks j, lget ws j)) (seqZ 0 (Z.of_nat (length ws))) = combine ks ws.
Proof.
  revert ks. induction ws as [|w ws IH]; intros [|k ks] E; try done.
  cbn [length]. rewrite seqZ_cons, Nat2Z.inj_succ, Z.pred_succ by lia. cbn [map combine]. f_equal.
  rewrite <- IH by (cbn in E; lia). rewrite <- (fmap_add_seqZ 1 0).
  change (map ?f ((Z.add 1) <$> ?l)) with (map f (map (Z.add 1) l)). rewrite map_map.
  apply map_ext_in. intros j Hj. apply list_elem_of_In, elem_of_seqZ in Hj.
  unfold lget. replace (Z.to_nat (1 + j)) with (S (Z.to_nat j)) by lia. done.
Qed.

(** ** One block *)
Lemma chunks_take s n l : chunks s n (take (s * n) l) = chunks s n l.
Proof.
  revert l. induction n as [|n IH]; intros l; [done|]. cbn [chunks]. f_equal.
  - rewrite take_take. f_equal. lia.
  - rewrite <- (IH (drop s l)). f_equal. rewrite take_drop_commute. f_equal. f_equal. lia.
Qed.
Lemma length_chunks s n l : length (chunks s n l) = n.
Proof. revert l. induction n as [|n IH]; intros l; cbn; [done|]. by rewrite IH. Qed.

Lemma lget_drop4 (p : list Z) i : 0 <= i -> lget (drop 4 p) i = lget p (4 + i).
Proof.
  intros Hi. unfold lget. replace (Z.to_nat (4 + i)) with (4 + Z.to_nat i)%nat by lia.
  rewrite !nth_lookup. by rewrite lookup_drop.
Qed.

Lemma be32_words n p :
  Forall is_u8 p -> (4 * n <= length p)%nat ->
  map (fun i => be32 p (i * 4)) (seqZ 0 (Z.of_nat n)) = map word_of_bytes (chunks 4 n p).
Proof.
  revert p. induction n as [|n IH]; intros p Hp Hl; [done|].
  rewrite seqZ_cons, Nat2Z.inj_succ, Z.pred_succ by lia. cbn [map chunks]. f_equal.
  - rewrite be32_word by done. destruct p as [|a [|b [|c [|d p]]]]; cbn [length] in Hl; try lia. done.
  - rewrite <- IH by (try (by apply Forall_drop); rewrite length_drop; lia).
    rewrite <- (fmap_add_seqZ 1 0).
    change (map ?f ((Z.add 1) <$> ?l)) with (map f (map (Z.add 1) l)). rewrite map_map.
    apply map_ext_in. intros j Hj. apply list_elem_of_In, elem_of_seqZ in Hj.
    unfold be32. rewrite !lget_drop4 by lia. replace (4 + j * 4) with ((1 + j) * 4) by lia.
    replace (4 + (j * 4 + 1)) with ((1 + j) * 4 + 1) by lia. replace (4 + (j * 4 + 2)) with ((1 + j) * 4 + 2) by lia.
    by replace (4 + (j * 4 + 3)) with ((1 + j) * 4 + 3) by lia.
Qed.

Lemma word_of_bytes_range bs : Forall is_u8 bs -> 0 <= word_of_bytes bs < 256 ^ Z.of_nat (length bs).
Proof.
  intros H. unfold word_of_bytes.
  assert (forall acc n, 0 <= acc < 256 ^ Z.of_nat n ->
    0 <= fold_left (fun acc b => acc * 256 + b) bs acc < 256 ^ Z.of_nat (n + length bs)) as Hf.
  { induction H as [|b bs Hb _ IH]; intros acc n Ha; cbn [fold_left length]; [by rewrite Nat.add_0_r|].
    rewrite Nat.add_succ_r, <- Nat.add_succ_l. apply IH. rewrite Nat2Z.inj_succ, Z.pow_succ_r by lia.
    unfold is_word in Hb. lia. }
  apply (Hf 0 0%nat). cbn. lia.
Qed.

Lemma chunk_words_u32 n p :
  Forall is_u8 p -> Forall is_u32 (map word_of_bytes (chunks 4 n p)).
Proof.
  revert p. induction n as [|n IH]; intros p Hp; [constructor|]. cbn [chunks map]. constructor.
  - pose proof (word_of_bytes_range (take 4 p) ltac:(by apply Forall_take)) as H.
    pose proof (Z.pow_le_mono_r 256 (Z.of_nat (length (take 4 p))) 4 ltac:(lia)) as H1.
    rewrite length_take in *. specialize (H1 ltac:(lia)). change (256 ^ 4) with (2 ^ 32) in H1.
    unfold is_word. lia.
  - apply IH. by apply Forall_drop.
Qed.

Definition hash_ok (h : list Z) : Prop := length h = 8%nat /\ Forall is_u32 h.

Lemma vars_of_ok h : hash_ok h -> vars_ok (vars_of h).
Proof.
  intros [Hl Hw]. by destruct h as [|h0 [|h1 [|h2 [|h3 [|h4 [|h5 [|h6 [|h7 [|]]]]]]]]].
Qed.
Lemma start_vars h :
  mkVars (lget h 0) (lget h 1) (lget h 2) (lget h 3) (lget h 4) (lget h 5) (lget h 6) (lget h 7) = vars_of h.
Proof. reflexivity. Qed.
Lemma add_words h a b c d e f g z :
  length h = 8%nat ->
  zip_with (fun x y => (x + y) mod 2 ^ 32) h (list_of (mkVars a b c d e f g z)) =
  [u32 (lget h 0 + a); u32 (lget h 1 + b); u32 (lget h 2 + c); u32 (lget h 3 + d);
   u32 (lget h 4 + e); u32 (lget h 5 + f); u32 (lget h 6 + g); u32 (lget h 7 + z)].
Proof.
  intros Hl. by destruct h as [|h0 [|h1 [|h2 [|h3 [|h4 [|h5 [|h6 [|h7 [|]]]]]]]]].
Qed.

Lemma block_eq h p :
  hash_ok h -> Forall is_u8 p -> (64 <= length p)%nat -> block h p = std_compress h (take 64 p).
Proof.
  intros Hok Hp Hl. pose proof (proj1 Hok) as Hh. unfold block, std_compress.
  pose proof (schedule_words_eq 16 p [] (replicate 48 0)) as E1. cbn [length app] in E1.
  change (replicate 64 0) with (replicate 16 0 ++ replicate 48 0).
  change (Z.of_nat 0) with 0 in E1. rewrite E1. rewrite be32_words by (done || lia).
  rewrite (chunks_take 4 16 p : chunks 4 16 (take 64 p) = _).
  set (m := map word_of_bytes (chunks 4 16 p)).
  assert (length m = 16%nat) as Hm by (unfold m; by rewrite length_map, length_chunks).
  pose proof (extend_words_eq 48 0 m [] (chunk_words_u32 16 p Hp) Hm) as E2.
  rewrite !app_nil_r in E2. change (std_schedule 0 m) with m in E2. change (0 + 48)%nat with 48%nat in E2.
  change (Z.of_nat (16 + 0)) with 16 in E2. rewrite E2. clear E1 E2. set (w := std_schedule 48 m).
  assert (length w = 64%nat) as Hlw by (unfold w; rewrite length_std_schedule; lia).
  rewrite start_vars, rounds_eq.
  - rewrite <- round_constants_std. change (Z.of_nat 64) with 64.
    pose proof (combine_lget round_constants w ltac:(by rewrite Hlw)) as E. rewrite Hlw in E.
    change (Z.of_nat 64) with 64 in E. rewrite E.
    destruct (fold_left std_round _ _) as [a b c d e f g z]. by rewrite add_words.
  - by apply vars_of_ok.
Qed.

(** * The message *)
Lemma std_compress_ok h m : hash_ok h -> hash_ok (std_compress h m).
Proof.
  intros [Hl Hw]. unfold std_compress. destruct (fold_left _ _ _) as [a b c d e f g z].
  split.
  - rewrite length_zip_with, Hl. done.
  - destruct h as [|h0 [|h1 [|h2 [|h3 [|h4 [|h5 [|h6 [|h7 [|]]]]]]]]]; try done.
    unfold list_of. cbn [zip_with va vb vc vd ve vf vg vz]. repeat (constructor; [apply mod32_word|]). constructor.
Qed.
Lemma fold_compress_ok ms h : hash_ok h -> hash_ok (fold_left std_compress ms h).
Proof. revert h. induction ms as [|m ms IH]; intros h Hh; [done|]. apply IH. by apply std_compress_ok. Qed.

Lemma whole_blocks_eq n h data :
  hash_ok h -> Forall is_u8 data -> (64 * n <= length data)%nat ->
  whole_blocks n h data = (fold_left std_compress (chunks 64 n data) h, drop (64 * n) data).
Proof.
  revert h data. induction n as [|n IH]; intros h data Hh Hd Hl; [done|]. cbn [whole_blocks chunks fold_left].
  rewrite block_eq by (done || lia). rewrite IH.
  - f_equal. rewrite drop_drop. f_equal. lia.
  - by apply std_compress_ok.
  - by apply Forall_drop.
  - rewrite length_drop. lia.
Qed.

Lemma chunks_split s n k l : chunks s (n + k) l = chunks s n l ++ chunks s k (drop (s * n) l).
Proof.
  revert l. induction n as [|n IH]; intros l; cbn [chunks Nat.add app].
  - by rewrite Nat.mul_0_r.
  - rewrite IH, drop_drop. repeat f_equal. lia.
Qed.
Lemma chunks_app s n a b : (s * n <= length a)%nat -> chunks s n (a ++ b) = chunks s n a.
Proof. intros H. rewrite <- chunks_take, <- (chunks_take s n a). by rewrite take_app_le. Qed.

Lemma copy_tail_eq data w k :
  (length data <= k)%nat ->
  copy_tail (Z.of_nat (length w)) data (w ++ replicate k 0) = w ++ data ++ replicate (k - length data) 0.
Proof.
  revert w k. induction data as [|b data IH]; intros w k Hk; cbn [copy_tail length app].
  - by rewrite Nat.sub_0_r.
  - destruct k as [|k]; cbn [length] in Hk; [lia|]. cbn [replicate]. rewrite lset_snoc.
    specialize (IH (w ++ [b]) k ltac:(lia)). rewrite length_app, Nat2Z.inj_add, <- !app_assoc in IH. exact IH.
Qed.

Lemma lset_mid pre mid suf k v :
  0 <= k < Z.of_nat (length mid) ->
  lset (pre ++ mid ++ suf) (Z.of_nat (length pre) + k) v = pre ++ lset mid k v ++ suf.
Proof.
  intros Hk. unfold lset. replace (Z.to_nat _) with (length pre + Z.to_nat k)%nat by lia.
  rewrite insert_app_r. f_equal. by rewrite insert_app_l by lia.
Qed.

Lemma put_length_mid n i bits pre mid suf :
  0 <= i -> i + Z.of_nat n <= 8 -> length mid = 8%nat ->
  put_length n i (Z.of_nat (length pre) + 7) bits (pre ++ mid ++ suf) =
  pre ++ put_length n i 7 bits mid ++ suf.
Proof.
  revert i mid. induction n as [|n IH]; intros i mid Hi Hn Hm; [done|]. cbn [put_length].
  replace (Z.of_nat (length pre) + 7 - i) with (Z.of_nat (length pre) + (7 - i)) by lia.
  rewrite lset_mid by lia. apply IH; [lia..|]. by rewrite length_lset.
Qed.

Lemma put_length_word bits : put_length 8 0 7 bits (replicate 8 0) = bytes_of_word 8 bits.
Proof.
  unfold put_length. cbn [lset Z.sub Z.add Z.mul Z.opp Pos.mul Pos.add Z.pos_sub Pos.pred_double Pos.succ].
  unfold bytes_of_word. change (seqZ 0 (Z.of_nat 8)) with [0; 1; 2; 3; 4; 5; 6; 7]. cbn [map].
  rewrite !Z.shiftr_div_pow2 by lia. reflexivity.
Qed.

Lemma digest_bytes_eq h : digest_bytes h = flat_map (bytes_of_word 4) h.
Proof.
  apply flat_map_ext. intros x. unfold bytes_of_word.
  change (seqZ 0 (Z.of_nat 4)) with [0; 1; 2; 3]. cbn [map].
  by rewrite !Z.shiftr_div_pow2 by lia.
Qed.

(** The one or two blocks that end a message: its last [rest], the end bit, zeros
    up to the length. *)
Definition end_blocks (rest : list Z) (bits : Z) : list Z :=
  rest ++ [0x80] ++ replicate (Z.to_nat ((55 - Z.of_nat (length rest)) mod 64)) 0 ++ bytes_of_word 8 bits.

Lemma tail_eq rest bits :
  (length rest < 64)%nat ->
  let size := Z.of_nat (length rest) in
  let last := if size <? 56 then 64 else 128 in
  put_length 8 0 (last - 1) bits (lset (copy_tail 0 rest (replicate 128 0)) size 0x80) =
  end_blocks rest bits ++ replicate (Z.to_nat (128 - last)) 0 /\
  Z.of_nat (length (end_blocks rest bits)) = last.
Proof.
  intros Hr size last. unfold end_blocks.
  pose proof (copy_tail_eq rest [] 128 ltac:(lia)) as E. cbn [length app] in E.
  change (Z.of_nat 0) with 0 in E. rewrite E. clear E.
  assert ((55 - size) mod 64 = last - 9 - size /\ 0 <= last - 9 - size /\ (last = 64 \/ last = 128)) as (Em & Hz & Hlast).
  { unfold last. destruct (Z.ltb_spec size 56).
    - split; [apply Z.mod_small; lia|lia].
    - split; [|lia]. replace (55 - size) with (119 - size + (-1) * 64) by lia.
      rewrite Z.mod_add by lia. rewrite Z.mod_small by lia. lia. }
  fold size. rewrite Em. set (k := Z.to_nat (last - 9 - size)).
  assert (Z.of_nat k = last - 9 - size) as Hk by (unfold k; lia).
  assert (size = Z.of_nat (length rest)) as Hsize by done. clearbody last k size. subst size.
  replace (128 - length rest)%nat with (S (k + (8 + Z.to_nat (128 - last))))%nat by lia.
  cbn [replicate]. rewrite (lset_snoc rest). rewrite !replicate_add.
  split.
  - pose proof (put_length_mid 8 0 bits (rest ++ 0x80 :: replicate k 0) (replicate 8 0)
      (replicate (Z.to_nat (128 - last)) 0) ltac:(lia) ltac:(lia) eq_refl) as E.
    rewrite put_length_word in E. rewrite length_app in E. cbn [length] in E. rewrite length_replicate in E.
    replace (Z.of_nat (length rest + S k) + 7) with (last - 1) in E by lia.
    rewrite <- !app_assoc in E. cbn [app] in E. rewrite <- !app_assoc. cbn [app]. exact E.
  - rewrite !length_app, length_replicate. cbn [length].
    change (length (bytes_of_word 8 bits)) with 8%nat. lia.
Qed.

Lemma bytes_of_word_u8 n x : Forall is_u8 (bytes_of_word n x).
Proof.
  apply Forall_map, Forall_true. intros i. apply Z.mod_pos_bound. lia.
Qed.
Lemma zeros_u8 n : Forall is_u8 (replicate n 0).
Proof. apply Forall_replicate. unfold is_word. lia. Qed.

Lemma end_blocks_eq rest bits h :
  hash_ok h -> Forall is_u8 rest -> (length rest < 64)%nat ->
  let size := Z.of_nat (length rest) in
  let last := if size <? 56 then 64 else 128 in
  let tail := put_length 8 0 (last - 1) bits (lset (copy_tail 0 rest (replicate 128 0)) size 0x80) in
  (let h := block h tail in if last =? 128 then block h (drop 64 tail) else h) =
  fold_left std_compress (chunks 64 (length (end_blocks rest bits) / 64) (end_blocks rest bits)) h.
Proof.
  intros Hh Hd Hr size last tail. destruct (tail_eq rest bits Hr) as [E Hlen]. fold size last tail in E, Hlen.
  assert (Forall is_u8 (end_blocks rest bits)) as Hb.
  { unfold end_blocks. rewrite !Forall_app. split; [done|]. split; [by repeat constructor|].
    split; [apply zeros_u8|apply bytes_of_word_u8]. }
  assert (Forall is_u8 tail) as Ht by (rewrite E; apply Forall_app; split; [done|apply zeros_u8]).
  assert (length tail = 128%nat) as Hlt.
  { rewrite E, length_app, length_replicate. unfold last in *. destruct (size <? 56); lia. }
  clearbody tail. cbv zeta. rewrite (block_eq h tail) by (done || lia). rewrite E.
  unfold last in *. destruct (Z.ltb_spec size 56); cbn [Z.eqb Pos.eqb].
  - replace (length (end_blocks rest bits)) with 64%nat by lia. change (64 / 64)%nat with 1%nat.
    cbn [chunks fold_left]. by rewrite take_app_le by lia.
  - change (Z.to_nat (128 - 128)) with 0%nat in *. cbn [replicate] in *. rewrite app_nil_r in *.
    replace (length (end_blocks rest bits)) with 128%nat by lia. change (128 / 64)%nat with 2%nat.
    cbn [chunks fold_left]. rewrite block_eq; [done|by apply std_compress_ok|by apply Forall_drop|].
    rewrite length_drop. lia.
Qed.

Lemma pad_split m n rest :
  m = take (64 * n) m ++ rest -> (64 * n <= length m)%nat -> length rest = (length m - 64 * n)%nat ->
  pad m = take (64 * n) m ++ end_blocks rest (8 * Z.of_nat (length m)).
Proof.
  intros E Hn Hr. unfold pad, end_blocks. rewrite E at 1. rewrite <- app_assoc. do 3 f_equal.
  f_equal. f_equal. f_equal. rewrite Hr. rewrite Nat2Z.inj_sub by done.
  replace (55 - (Z.of_nat (length m) - Z.of_nat (64 * n))) with (55 - Z.of_nat (length m) + Z.of_nat n * 64) by lia.
  by rewrite Z.mod_add.
Qed.

Lemma cdi_sha256_eq data :
  Forall is_u8 data -> Z.of_nat (length data) < 2 ^ 61 -> cdi_sha256 data = sha256 data.
Proof.
  intros Hd Hl. unfold cdi_sha256, sha256. set (n := (length data / 64)%nat).
  assert (Z.to_nat (Z.of_nat (length data) / 64) = n) as ->.
  { unfold n. change 64 with (Z.of_nat 64). rewrite <- Nat2Z.inj_div. apply Nat2Z.id. }
  pose proof (Nat.div_mod_eq (length data) 64) as Hdm. fold n in Hdm.
  pose proof (Nat.mod_upper_bound (length data) 64 ltac:(lia)) as Hmod.
  assert (hash_ok initial_hash) as Hi.
  { split; [done|]. unfold initial_hash. repeat (constructor; [split; [discriminate|reflexivity]|]). constructor. }
  rewrite whole_blocks_eq by (done || lia). set (rest := drop (64 * n) data).
  assert (length rest = (length data - 64 * n)%nat) as Hrest by (unfold rest; by rewrite length_drop).
  set (h := fold_left std_compress (chunks 64 n data) initial_hash).
  assert (hash_ok h) as Hh by (by apply fold_compress_ok).
  rewrite u64_id by (unfold is_word; lia).
  replace (Z.of_nat (length data) * 8) with (8 * Z.of_nat (length data)) by lia.
  pose proof (end_blocks_eq rest (8 * Z.of_nat (length data)) h Hh ltac:(by apply Forall_drop) ltac:(lia)) as E.
  cbv zeta in E |- *. rewrite E, digest_bytes_eq. f_equal.
  rewrite (pad_split data n rest) by (try lia; symmetry; apply take_drop).
  set (eb := end_blocks rest _).
  rewrite length_app, length_take, Nat.min_l by lia.
  replace ((64 * n + length eb) / 64)%nat with (n + length eb / 64)%nat
    by (rewrite (Nat.mul_comm 64 n), Nat.div_add_l; lia).
  rewrite chunks_split, fold_left_app, <- initial_hash_std.
  rewrite chunks_app by (rewrite length_take; lia). rewrite chunks_take. fold h. f_equal.
  rewrite drop_app_length'; [done|]. rewrite length_take. lia.
Qed.

(** C19. The native code's digests are SHA-256: for every message shorter than 2^61
    bytes the code computes the function of the standard, whose round constants
    and initial words are here computed from the cube and square roots of the
    primes, its words rotated by division and its padding appended to the whole
    message. *)
Theorem digest_is_sha256 data :
  Forall is_u8 data -> Z.of_nat (length data) < 2 ^ 61 -> cdi_sha256 data = sha256 data.
Proof. apply cdi_sha256_eq. Qed.

(** The empty message and the first 119 bytes: three blocks, the last an end block
    of its own. *)
Lemma digest_is_sha256_witness :
  cdi_sha256 (seqZ 0 119) = sha256 (seqZ 0 119) /\ cdi_sha256 [] = sha256 [] /\
  take 4 (sha256 []) = [0xE3; 0xB0; 0xC4; 0x42].
Proof.
  split; [|split].
  - apply (digest_is_sha256 (seqZ 0 119)); [|reflexivity].
    apply Forall_forall. intros x Hx. apply elem_of_seqZ in Hx. unfold is_word. lia.
  - apply (digest_is_sha256 []); [constructor|reflexivity].
  - vm_compute. reflexivity.
Defined.
