(* ===== verification/Native.v ===== *)
(** Static native modules (runner/src/cdi_native.c): the loader's writes to RAM are
    watched, an image is admitted by the digest of all its bytes, and every
    overlapping write revokes it.

    The catalogue of generated modules is a parameter; a function pointer of the
    generated code is the number by which the code compares it. *)

From Stdlib Require Import ZArith Lia Bool.
From stdpp Require Import base tactics numbers list gmap.
From S2P Require Import Prelude Sha256.
Open Scope Z_scope.

Definition CDI_RAM0_BASE : Z := 0x00000000.
Definition CDI_RAM0_SIZE : Z := 0x00080000.
Definition CDI_RAM1_BASE : Z := 0x00200000.
Definition CDI_RAM1_SIZE : Z := 0x00080000.
Definition WORDS_PER_BANK : Z := CDI_RAM0_SIZE / 2.
Definition BINDING_CAPACITY : nat := 1024.
Definition EVENT_CAPACITY : Z := 1024.
Definition TARGET_CAPACITY : Z := 262144.
Definition TARGET_INDEX_CAPACITY : Z := TARGET_CAPACITY * 2.
Definition CDI_NATIVE_BIND : Z := 1.
Definition CDI_NATIVE_INVALIDATE : Z := 2.
Definition CDI_NATIVE_REJECT : Z := 3.

Record CdiNativeModule := mkModule {
  m_size : Z;
  m_sha256 : list Z;
  m_has_offset : Z -> bool;
  m_dispatch : Z;
  m_entries : list (Z * Z);  (* offset, function *)
}.

(** * The guest's RAM *)
Record Ram := mkRam { ram0 : mem; ram1 : mem }.

Definition ram_ok (address size : Z) : bool :=
  ((address <? CDI_RAM0_SIZE) && (size <=? CDI_RAM0_SIZE - address)) ||
  ((CDI_RAM1_BASE <=? address) && (address - CDI_RAM1_BASE <? CDI_RAM1_SIZE) &&
   (size <=? CDI_RAM1_SIZE - (address - CDI_RAM1_BASE))).
Definition ram_byte (r : Ram) (address : Z) : Z :=
  if address <? CDI_RAM0_SIZE then mget (ram0 r) address else mget (ram1 r) (address - CDI_RAM1_BASE).
Definition ram_bytes (r : Ram) (address size : Z) : list Z :=
  if address <? CDI_RAM0_SIZE then mload (ram0 r) address (Z.to_nat size)
  else mload (ram1 r) (address - CDI_RAM1_BASE) (Z.to_nat size).
Definition ram_be32 (r : Ram) (address : Z) : Z := be32 (ram_bytes r address 4) 0.
Definition ram_be16 (r : Ram) (address : Z) : Z :=
  u16 (Z.lor (Z.shiftl (ram_byte r address) 8) (ram_byte r (address + 1))).

(** * The state *)
Record Binding := mkBinding {
  b_base : Z; b_size : Z; b_epoch : Z; b_module : option nat; b_checked : bool; b_valid : bool;
}.
Record CdiNativeState := mkStats {
  s_bindings : Z; s_invalidations : Z; s_dispatches : Z; s_identity_rejections : Z;
  s_active : Z; s_compiled : Z;
}.
Record CdiNativeEvent := mkEvent {
  e_seq : Z; e_trace_seq : Z; e_frame : Z; e_cycles : Z; e_epoch : Z; e_pc : Z; e_base : Z; e_size : Z;
  e_module : Z; e_type : Z;
}.
Record CdiNativeTarget := mkTarget {
  t_module : Z; t_offset : Z; t_base : Z; t_epoch : Z; t_frame : Z; t_trace_seq : Z; t_hits : Z;
}.

Record Native := mkNative {
  tags : mem;               (* uint32_t[TAG_CAPACITY] *)
  tag_indices : mem;        (* uint32_t[TAG_CAPACITY] *)
  tag_count : Z;
  bindings : list Binding;  (* the first binding_count *)
  binding_ranges : (Z * Z) * (Z * Z);  (* first and last of each bank *)
  stats : CdiNativeState;
  epoch : Z;
  invalidation_epoch : Z;
  event_count : Z;
  events : gmap Z CdiNativeEvent;
  targets : list CdiNativeTarget;  (* the first target_count *)
  target_indices : mem;     (* uint32_t[TARGET_INDEX_CAPACITY] *)
  target_dropped : Z;
}.
Definition native_fields :=
  (tt, tags, tag_indices, tag_count, bindings, binding_ranges, stats, epoch, invalidation_epoch,
   event_count, events, targets, target_indices, target_dropped).
Ltac native_set n f v := setter mkNative n f v native_fields.
Definition set_tags (v : mem) (n : Native) : Native := ltac:(native_set n tags v).
Definition set_tag_indices (v : mem) (n : Native) : Native := ltac:(native_set n tag_indices v).
Definition set_tag_count (v : Z) (n : Native) : Native := ltac:(native_set n tag_count v).
Definition set_bindings (v : list Binding) (n : Native) : Native := ltac:(native_set n bindings v).
Definition set_binding_ranges (v : (Z * Z) * (Z * Z)) (n : Native) : Native :=
  ltac:(native_set n binding_ranges v).
Definition set_stats (v : CdiNativeState) (n : Native) : Native := ltac:(native_set n stats v).
Definition set_epoch (v : Z) (n : Native) : Native := ltac:(native_set n epoch v).
Definition set_invalidation_epoch (v : Z) (n : Native) : Native := ltac:(native_set n invalidation_epoch v).
Definition set_event_count (v : Z) (n : Native) : Native := ltac:(native_set n event_count v).
Definition set_events (v : gmap Z CdiNativeEvent) (n : Native) : Native := ltac:(native_set n events v).
Definition set_targets (v : list CdiNativeTarget) (n : Native) : Native := ltac:(native_set n targets v).
Definition set_target_indices (v : mem) (n : Native) : Native := ltac:(native_set n target_indices v).
Definition set_target_dropped (v : Z) (n : Native) : Native := ltac:(native_set n target_dropped v).

(** What an event records of the rest of the machine. *)
Record Moment := mkMoment { now_trace_seq : Z; now_frame : Z; now_cycles : Z; now_pc : Z }.

Definition UINT32_MAX : Z := 0xFFFFFFFF.

Definition event (now : Moment) (b : Binding) (type : Z) (n : Native) : Native :=
  let e := mkEvent (event_count n) (now_trace_seq now) (now_frame now) (now_cycles now) (b_epoch b)
             (now_pc now) (b_base b) (b_size b)
             (match b_module b with Some m => Z.of_nat m | None => UINT32_MAX end) type in
  set_event_count (u64 (event_count n + 1))
    (set_events (<[event_count n mod EVENT_CAPACITY := e]> (events n)) n).

(** * The bounds of the bindings, in the build that keeps them *)
Definition range_of (address : Z) (n : Native) : Z * Z :=
  if CDI_RAM1_BASE <=? address then snd (binding_ranges n) else fst (binding_ranges n).
Definition cover_binding (address size : Z) (n : Native) : Native :=
  let '(first, last) := range_of address n in
  let first := if address <? first then address else first in
  let last := if last <? u32 (address + size) then u32 (address + size) else last in
  set_binding_ranges
    (if CDI_RAM1_BASE <=? address then (fst (binding_ranges n), (first, last))
     else ((first, last), snd (binding_ranges n))) n.
Definition may_overlap_binding (address last : Z) (n : Native) : bool :=
  (address <? snd (range_of address n)) && (fst (range_of address n) <? last).

(** * Tags *)
Definition tag_index (address : Z) : Z :=
  if address <? CDI_RAM0_SIZE then address / 2 else WORDS_PER_BANK + (address - CDI_RAM1_BASE) / 2.

Definition sync_word (r : Ram) (a : Z) : bool := (ram_byte r a =? 0x4a) && (ram_byte r (a + 1) =? 0xfc).

Definition retag (r : Ram) (a : Z) (n : Native) : Native :=
  if negb (ram_ok a 2) then n
  else
    let index := tag_index a in
    let slot := mget (tag_indices n) index in
    if sync_word r a then
      if negb (z2b slot) then
        let n := set_tags (mset (tags n) (tag_count n) a) n in
        let n := set_tag_count (u32 (tag_count n + 1)) n in
        set_tag_indices (mset (tag_indices n) index (tag_count n)) n
      else n
    else if z2b slot then
      let n := set_tag_count (u32 (tag_count n - 1)) n in
      let last := mget (tags n) (tag_count n) in
      let n := set_tags (mset (tags n) (slot - 1) last) n in
      let n := set_tag_indices (mset (tag_indices n) (tag_index last) slot) n in
      set_tag_indices (mset (tag_indices n) index 0) n
    else n.
Fixpoint retag_words (count : nat) (r : Ram) (a : Z) (n : Native) : Native :=
  match count with
  | O => n
  | S count' => retag_words count' r (a + 2) (retag r a n)
  end.

(** * Revocation *)
Definition overlaps (address last : Z) (b : Binding) : bool :=
  (address <? b_base b + b_size b) && (b_base b <? last).

Definition count_invalidation (s : CdiNativeState) : CdiNativeState :=
  mkStats (s_bindings s) (u64 (s_invalidations s + 1)) (s_dispatches s) (s_identity_rejections s)
    (u32 (s_active s - 1)) (s_compiled s).

(** One overlapped binding; the events see it before it is cleared. *)
Definition revoke_one (now : Moment) (b : Binding) (n : Native) : Native :=
  if b_valid b then
    let n := set_stats (count_invalidation (stats n)) n in
    let n := set_invalidation_epoch (u64 (invalidation_epoch n + 1)) n in
    event now b CDI_NATIVE_INVALIDATE n
  else n.
Definition cleared (b : Binding) : Binding :=
  mkBinding (b_base b) (b_size b) (b_epoch b) (b_module b) false false.

Fixpoint revoke_loop (now : Moment) (address last : Z) (bs : list Binding) (n : Native)
    : list Binding * Native :=
  match bs with
  | [] => ([], n)
  | b :: rest =>
    let '(b', n) := if overlaps address last b then (cleared b, revoke_one now b n) else (b, n) in
    let '(rest', n) := revoke_loop now address last rest n in
    (b' :: rest', n)
  end.
Definition revoke (now : Moment) (address last : Z) (n : Native) : Native :=
  let '(bs, n) := revoke_loop now address last (bindings n) n in set_bindings bs n.

Section Catalogue.
Variable modules : list CdiNativeModule.  (* g_cdi_native_modules *)
Variable service_hle : bool.              (* CDI_SERVICE_HLE *)

Definition no_modules : bool := match modules with [] => true | _ => false end.

Definition cdi_native_notify_write (now : Moment) (address size : Z) (r : Ram) (n : Native) : Native :=
  if no_modules || (size =? 0) || negb (ram_ok address size) then n
  else
    let last := address + size in
    let n := if negb service_hle || may_overlap_binding address last n
             then revoke now address last n else n in
    let a := Z.ldiff address 1 in
    retag_words (Z.to_nat ((last - a + 1) / 2)) r a n.

Definition cdi_native_reset (now : Moment) (r : Ram) (n : Native) : Native :=
  let n := set_invalidation_epoch (u64 (invalidation_epoch n + 1)) n in
  let n := set_tag_count 0 (set_tag_indices ∅ n) in
  let n := set_bindings [] n in
  let n := if service_hle then set_binding_ranges ((UINT32_MAX, 0), (UINT32_MAX, 0)) n else n in
  let n := set_stats (mkStats 0 0 0 0 0 (u32 (Z.of_nat (length modules)))) n in
  let n := set_event_count 0 n in
  let n := set_target_dropped 0 (set_targets [] n) in
  let n := set_target_indices ∅ n in
  let n := cdi_native_notify_write now CDI_RAM0_BASE CDI_RAM0_SIZE r n in
  cdi_native_notify_write now CDI_RAM1_BASE CDI_RAM1_SIZE r n.

(** * Identification *)
Fixpoint find_index {A} (p : A -> bool) (l : list A) (i : nat) : option nat :=
  match l with
  | [] => None
  | x :: rest => if p x then Some i else find_index p rest (S i)
  end.

Definition cached (base : Z) (n : Native) : option nat :=
  find_index (fun b => b_base b =? base) (bindings n) 0.
Definition contains (address : Z) (b : Binding) : bool :=
  b_valid b && (b_base b <=? address) && (address - b_base b <? b_size b).

Definition possible (size : Z) : bool := existsb (fun m => m_size m =? size) modules.
Fixpoint header_parity (count : nat) (r : Ram) (a parity : Z) : Z :=
  match count with
  | O => parity
  | S count' => header_parity count' r (a + 2) (Z.lxor parity (ram_be16 r a))
  end.
Definition parity_ok (r : Ram) (base : Z) : bool := header_parity 24 r base 0 =? 0xffff.
Definition matches (size : Z) (digest : list Z) (m : CdiNativeModule) : bool :=
  (m_size m =? size) && bool_decide (m_sha256 m = digest).

Definition count_binding (s : CdiNativeState) : CdiNativeState :=
  mkStats (u64 (s_bindings s + 1)) (s_invalidations s) (s_dispatches s) (s_identity_rejections s)
    (u32 (s_active s + 1)) (s_compiled s).
Definition count_rejection (s : CdiNativeState) : CdiNativeState :=
  mkStats (s_bindings s) (s_invalidations s) (s_dispatches s) (u64 (s_identity_rejections s + 1))
    (s_active s) (s_compiled s).
Definition count_dispatch (s : CdiNativeState) : CdiNativeState :=
  mkStats (s_bindings s) (s_invalidations s) (u64 (s_dispatches s + 1)) (s_identity_rejections s)
    (s_active s) (s_compiled s).

Definition put_binding (i : nat) (b : Binding) (n : Native) : Native :=
  set_bindings (<[i := b]> (bindings n)) n.

(** The digest of a candidate decides its binding; the answer is the binding when
    it is admitted. *)
Definition identify (now : Moment) (r : Ram) (i : nat) (base size : Z) (n : Native) : option nat * Native :=
  let old := match bindings n !! i with Some b => b_epoch b | None => 0 end in
  let b := mkBinding base size old None true false in
  let n := put_binding i b n in
  let n := if service_hle then cover_binding base size n else n in
  let digest := cdi_sha256 (ram_bytes r base size) in
  match find_index (matches size digest) modules 0 with
  | Some m =>
    let n := set_epoch (u64 (epoch n + 1)) n in
    let b := mkBinding base size (epoch n) (Some m) true true in
    let n := put_binding i b n in
    let n := set_stats (count_binding (stats n)) n in
    (Some i, event now b CDI_NATIVE_BIND n)
  | None =>
    let n := set_stats (count_rejection (stats n)) n in
    (None, event now b CDI_NATIVE_REJECT n)
  end.

(** One turn of the loop over the tags. *)
Definition try_tag (now : Moment) (r : Ram) (address base : Z) (n : Native)
    : result (option nat) * Native :=
  if address <? base then (Ok None, n)
  else if negb (ram_ok base 0x30) then (Ok None, n)
  else
    let size := ram_be32 r (base + 4) in
    if (size <? 0x33) || (size <=? address - base) || negb (ram_ok base size) then (Ok None, n)
    else
      let c := cached base n in
      if match c with Some i => match bindings n !! i with Some b => b_checked b | None => false end
         | None => false end
      then (Ok None, n)
      else if negb (possible size) then (Ok None, n)
      else if negb (parity_ok r base) then (Ok None, n)
      else
        match c with
        | Some i => let '(x, n) := identify now r i base size n in (Ok x, n)
        | None =>
          if (BINDING_CAPACITY <=? length (bindings n))%nat then (Exn EAbort, n)
          else
            let i := length (bindings n) in
            let n := set_bindings (bindings n ++ [mkBinding base 0 0 None false false]) n in
            let '(x, n) := identify now r i base size n in (Ok x, n)
        end.

Fixpoint try_tags (count : nat) (now : Moment) (r : Ram) (address i : Z) (n : Native)
    : result (option nat) * Native :=
  match count with
  | O => (Ok None, n)
  | S count' =>
    match try_tag now r address (mget (tags n) i) n with
    | (Ok None, n) => try_tags count' now r address (i + 1) n
    | answer => answer
    end
  end.

Definition resolve (now : Moment) (r : Ram) (address : Z) (n : Native) : result (option nat) * Native :=
  match find_index (contains address) (bindings n) 0 with
  | Some i => (Ok (Some i), n)
  | None =>
    if negb (ram_ok address 2) then (Ok None, n)
    else try_tags (Z.to_nat (tag_count n)) now r address 0 n
  end.

(** The module of a binding. *)
Definition binding_module (n : Native) (i : nat) : option (Binding * nat * CdiNativeModule) :=
  match bindings n !! i with
  | Some b => match b_module b with
              | Some m => match modules !! m with Some x => Some (b, m, x) | None => None end
              | None => None
              end
  | None => None
  end.
(** What a resolved address is to the calls below: a binding, with the offset the
    module has or has not. *)
Definition resolved (now : Moment) (r : Ram) (address : Z) (n : Native)
    : result (option (Binding * nat * CdiNativeModule)) * Native :=
  if no_modules || z2b (Z.land address 1) then (Ok None, n)
  else
    match resolve now r address n with
    | (Ok (Some i), n) => (Ok (binding_module n i), n)
    | (Ok None, n) => (Ok None, n)
    | (Exn e, n) => (Exn e, n)
    end.

Definition cdi_native_has_address (now : Moment) (r : Ram) (address : Z) (n : Native)
    : result bool * Native :=
  match resolved now r address n with
  | (Ok (Some (b, _, m)), n) => (Ok (m_has_offset m (address - b_base b)), n)
  | (Ok None, n) => (Ok false, n)
  | (Exn e, n) => (Exn e, n)
  end.

(** The call of generated code that a dispatch makes: the dispatcher, the base and
    the offset. *)
Definition cdi_native_dispatch (now : Moment) (r : Ram) (address : Z) (n : Native)
    : result (option (Z * Z * Z)) * Native :=
  match resolved now r address n with
  | (Ok (Some (b, _, m)), n) =>
    if negb (m_has_offset m (address - b_base b)) then (Ok None, n)
    else (Ok (Some (m_dispatch m, b_base b, address - b_base b)),
          set_stats (count_dispatch (stats n)) n)
  | (Ok None, n) => (Ok None, n)
  | (Exn e, n) => (Exn e, n)
  end.

(** * Direct entries and tokens *)
Fixpoint find_entry (offset : Z) (entries : list (Z * Z)) : option Z :=
  match entries with
  | [] => None
  | (o, f) :: rest => if o =? offset then Some f else find_entry offset rest
  end.
Fixpoint find_function (digest : list Z) (offset : Z) (i : nat) (ms : list CdiNativeModule)
    : option (Z * nat) :=
  match ms with
  | [] => None
  | m :: rest =>
    if bool_decide (m_sha256 m = digest) then
      match find_entry offset (m_entries m) with
      | Some f => Some (f, i)
      | None => find_function digest offset (S i) rest
      end
    else find_function digest offset (S i) rest
  end.
Definition cdi_native_find_function (digest : list Z) (offset : Z) : option (Z * nat) :=
  find_function digest offset 0 modules.

Definition token_of (b : Binding) (i : nat) : Z :=
  Z.lor (u64 (Z.shiftl (b_epoch b) 16)) (Z.of_nat i + 1).

Definition cdi_native_job_binding (module : nat) (caller : Z) (n : Native) : option (Z * Z) :=
  match find_index (fun b => contains caller b && bool_decide (b_module b = Some module)) (bindings n) 0 with
  | Some i => match bindings n !! i with Some b => Some (b_base b, token_of b i) | None => None end
  | None => None
  end.

Definition dispatches_by (expected : Z) (b : Binding) : bool :=
  match b_module b with
  | Some m => match modules !! m with Some x => m_dispatch x =? expected | None => false end
  | None => false
  end.
Definition cdi_native_execution_token (base expected : Z) (n : Native) : Z :=
  match find_index (fun b => b_valid b && (b_base b =? base) && dispatches_by expected b) (bindings n) 0 with
  | Some i => match bindings n !! i with Some b => token_of b i | None => 0 end
  | None => 0
  end.
Definition cdi_native_instruction_valid (address expected token : Z) (n : Native) : bool :=
  let slot := Z.land token 0xffff in
  if (slot =? 0) || (Z.of_nat (length (bindings n)) <? slot) then false
  else
    match bindings n !! Z.to_nat (slot - 1) with
    | Some b =>
      b_valid b && (b_epoch b =? Z.shiftr token 16) && dispatches_by expected b &&
      negb (z2b (Z.land address 1)) && (b_base b <=? address) && (address - b_base b <? b_size b)
    | None => false
    end.

(** * The record of events *)
Fixpoint copy_events (count : nat) (from : Z) (n : Native) : list (option CdiNativeEvent) :=
  match count with
  | O => []
  | S count' => (events n !! (from mod EVENT_CAPACITY)) :: copy_events count' (from + 1) n
  end.
Definition UINT64_MAX : Z := 0xFFFFFFFFFFFFFFFF.
(** The events copied, the total and the oldest. *)
Definition cdi_native_events (capacity from : Z) (n : Native) : list (option CdiNativeEvent) * Z * Z :=
  let last := event_count n in
  let first := if EVENT_CAPACITY <? last then last - EVENT_CAPACITY else 0 in
  let copied :=
    if capacity <=? 0 then []
    else
      let from := if from =? UINT64_MAX then (if capacity <? last then last - capacity else 0) else from in
      let from := if from <? first then first else from in
      copy_events (Z.to_nat (Z.min (last - from) capacity)) from n in
  (copied, last, first).

(** * Uncovered targets *)
Definition target_hash (module offset : Z) : Z :=
  let hash := Z.lxor (u32 (module * 0x9e3779b9)) (u32 (Z.shiftr offset 1 * 0x85ebca6b)) in
  let hash := Z.lxor hash (Z.shiftr hash 16) in
  Z.land hash (TARGET_INDEX_CAPACITY - 1).
Definition next_slot (slot : Z) : Z := Z.land (slot + 1) (TARGET_INDEX_CAPACITY - 1).
Definition target_is (module offset : Z) (t : CdiNativeTarget) : bool :=
  (t_module t =? module) && (t_offset t =? offset).

(** The loop along the hash index: the record of the target, or the free slot. *)
Fixpoint probe (fuel : nat) (module offset slot : Z) (n : Native) : option (nat + Z) :=
  match fuel with
  | O => None
  | S fuel' =>
    let i := mget (target_indices n) slot in
    if negb (z2b i) then Some (inr slot)
    else
      match targets n !! Z.to_nat (i - 1) with
      | Some t => if target_is module offset t then Some (inl (Z.to_nat (i - 1)))
                  else probe fuel' module offset (next_slot slot) n
      | None => None
      end
  end.
Definition hit (t : CdiNativeTarget) : CdiNativeTarget :=
  mkTarget (t_module t) (t_offset t) (t_base t) (t_epoch t) (t_frame t) (t_trace_seq t) (u64 (t_hits t + 1)).

(** [None] in the place of the state is a loop that does not end, or an access to a
    record that is not there. *)
Definition record_target (now : Moment) (b : Binding) (module offset : Z) (n : Native) : option Native :=
  match probe (S (length (targets n))) module offset (target_hash module offset) n with
  | Some (inl i) => Some (set_targets (alter hit i (targets n)) n)
  | Some (inr slot) =>
    if Z.of_nat (length (targets n)) =? TARGET_CAPACITY
    then Some (set_target_dropped (u64 (target_dropped n + 1)) n)
    else
      let t := mkTarget module offset (b_base b) (b_epoch b) (now_frame now) (now_trace_seq now) 1 in
      let n := set_target_indices (mset (target_indices n) slot (Z.of_nat (length (targets n)) + 1)) n in
      Some (set_targets (targets n ++ [t]) n)
  | None => None
  end.
Definition cdi_native_record_target (now : Moment) (r : Ram) (address : Z) (n : Native)
    : result unit * option Native :=
  match resolved now r address n with
  | (Ok (Some (b, m, x)), n) =>
    let offset := address - b_base b in
    if m_has_offset x offset then (Ok tt, Some n)
    else (Ok tt, record_target now b (Z.of_nat m) offset n)
  | (Ok None, n) => (Ok tt, Some n)
  | (Exn e, n) => (Exn e, Some n)
  end.
Definition cdi_native_targets (capacity from : Z) (n : Native) : list CdiNativeTarget * Z * Z :=
  (take (Z.to_nat capacity) (drop (Z.to_nat from) (targets n)), Z.of_nat (length (targets n)),
   target_dropped n).
End Catalogue.
