(* ===== verification/NativeTags.v ===== *)
(** The dense set of sync words of RAM: after every write it is again exactly the
    set of even addresses that hold the OS-9 sync. *)

From Stdlib Require Import ZArith Lia Bool.
From stdpp Require Import base tactics numbers list gmap.
From S2P Require Import Prelude Sha256 Native.
Open Scope Z_scope.

(** * Addresses *)
Lemma ram_ok_spec address size :
  0 <= address -> 0 <= size ->
  ram_ok address size = true <->
  (address < 0x80000 /\ address + size <= 0x80000) \/
  (0x200000 <= address < 0x280000 /\ address + size <= 0x280000).
Proof.
  intros Ha Hs. unfold ram_ok, CDI_RAM0_SIZE, CDI_RAM1_BASE, CDI_RAM1_SIZE.
  destruct (Z.ltb_spec address 0x80000), (Z.leb_spec size (0x80000 - address)),
    (Z.leb_spec 0x200000 address), (Z.ltb_spec (address - 0x200000) 0x80000),
    (Z.leb_spec size (0x80000 - (address - 0x200000))); cbn; intuition (try lia; try done).
Qed.

(** The even addresses of RAM. *)
Definition word_addr (a : Z) : Prop := 0 <= a /\ a mod 2 = 0 /\ ram_ok a 2 = true.
#[export] Instance word_addr_dec a : Decision (word_addr a).
Proof. unfold word_addr. apply _. Defined.

Lemma word_addr_cases a :
  word_addr a -> a mod 2 = 0 /\ (0 <= a < 0x80000 \/ 0x200000 <= a < 0x280000).
Proof. intros (H0 & H1 & H2). apply ram_ok_spec in H2; lia. Qed.

Lemma tag_index_range a : word_addr a -> 0 <= tag_index a < 0x80000.
Proof.
  intros [Hm Hc]%word_addr_cases. unfold tag_index, WORDS_PER_BANK, CDI_RAM0_SIZE, CDI_RAM1_BASE.
  change (0x80000 / 2) with 0x40000. destruct (Z.ltb_spec a 0x80000); zlia.
Qed.
Lemma tag_index_inj a b : word_addr a -> word_addr b -> tag_index a = tag_index b -> a = b.
Proof.
  intros [Hm Hc]%word_addr_cases [Hm' Hc']%word_addr_cases.
  unfold tag_index, WORDS_PER_BANK, CDI_RAM0_SIZE, CDI_RAM1_BASE. change (0x80000 / 2) with 0x40000.
  destruct (Z.ltb_spec a 0x80000), (Z.ltb_spec b 0x80000); zlia.
Qed.

Lemma tag_index_eqb a b : word_addr a -> word_addr b -> (tag_index a =? tag_index b) = (a =? b).
Proof.
  intros Ha Hb. destruct (Z.eqb_spec (tag_index a) (tag_index b)) as [E|E], (Z.eqb_spec a b) as [E'|E']; try done.
  - by apply tag_index_inj in E.
  - by rewrite E' in E.
Qed.

(** * The set *)
Definition tag_at (n : Native) (k : Z) : Z := mget (tags n) k.
Definition slot_of (n : Native) (a : Z) : Z := mget (tag_indices n) (tag_index a).

(** The set is right but for the words [dirty], which have still to be looked at. *)
Record tags_ok (dirty : Z -> Prop) (r : Ram) (n : Native) : Prop := {
  tags_count : 0 <= tag_count n;
  tags_words : forall k, 0 <= k < tag_count n -> word_addr (tag_at n k);
  tags_slots : forall k, 0 <= k < tag_count n -> slot_of n (tag_at n k) = k + 1;
  tags_back : forall a, word_addr a -> slot_of n a <> 0 ->
    1 <= slot_of n a <= tag_count n /\ tag_at n (slot_of n a - 1) = a;
  tags_sync : forall a, word_addr a -> ~ dirty a -> (slot_of n a <> 0 <-> sync_word r a = true);
}.

(** Words of RAM are fewer than a 32-bit count. *)
Lemma tags_fit dirty r n : tags_ok dirty r n -> tag_count n <= 0x80000.
Proof.
  intros [H0 Hw Hs _ _]. destruct (Z.le_gt_cases (tag_count n) 0x80000) as [|Hgt]; [done|exfalso].
  set (l := map (fun k => tag_index (tag_at n k)) (seqZ 0 (tag_count n))).
  assert (NoDup l) as Hnd.
  { apply NoDup_fmap_2_strong; [|apply NoDup_seqZ].
    intros j k Hj%elem_of_seqZ Hk%elem_of_seqZ E.
    pose proof (Hs j ltac:(lia)) as Ej. pose proof (Hs k ltac:(lia)) as Ek.
    unfold slot_of in *. rewrite E in Ej. lia. }
  assert (length l <= length (seqZ 0 0x80000))%nat as Hlen.
  { apply submseteq_length, NoDup_submseteq; [done|]. intros i Hi. apply list_elem_of_fmap in Hi as (k & -> & Hk).
    apply elem_of_seqZ in Hk. apply elem_of_seqZ. pose proof (tag_index_range _ (Hw k ltac:(lia))). lia. }
  unfold l in Hlen. rewrite length_map, !length_seqZ in Hlen. lia.
Qed.

Lemma tags_ok_weaken (dirty dirty' : Z -> Prop) r n :
  (forall a, word_addr a -> dirty a -> dirty' a) -> tags_ok dirty r n -> tags_ok dirty' r n.
Proof. intros H []. split; try done. intros a Ha Hd. auto. Qed.

(** Storage that only the tags use. *)
Definition tag_part (n : Native) := (tags n, tag_indices n, tag_count n).
Lemma tags_ok_part dirty r n n' : tag_part n' = tag_part n -> tags_ok dirty r n -> tags_ok dirty r n'.
Proof.
  intros E [H0 H1 H2 H3 H4]. injection E as E1 E2 E3.
  split; unfold slot_of, tag_at in *; rewrite ?E1, ?E2, ?E3; done.
Qed.

(** ** One word *)
Definition added (n : Native) (a : Z) : Native :=
  set_tag_indices (mset (tag_indices n) (tag_index a) (tag_count n + 1))
    (set_tag_count (tag_count n + 1) (set_tags (mset (tags n) (tag_count n) a) n)).
Definition removed (n : Native) (a : Z) : Native :=
  let slot := slot_of n a in
  let last := tag_at n (tag_count n - 1) in
  set_tag_indices (mset (mset (tag_indices n) (tag_index last) slot) (tag_index a) 0)
    (set_tags (mset (tags n) (slot - 1) last) (set_tag_count (tag_count n - 1) n)).

Section Retag.
Context (dirty : Z -> Prop) (r : Ram) (n : Native) (a : Z).
Context (Hok : tags_ok dirty r n) (Ha : word_addr a).

Lemma added_ok :
  slot_of n a = 0 -> sync_word r a = true -> tags_ok (fun b => dirty b /\ b <> a) r (added n a).
Proof.
  intros Hs Hsync. destruct Hok as [H0 Hw Hsl Hb Hsy].
  assert (forall b, word_addr b -> slot_of (added n a) b = if a =? b then tag_count n + 1 else slot_of n b) as Es.
  { intros b Hwb. unfold slot_of, added. cbn [tag_indices set_tag_indices set_tag_count set_tags].
    by rewrite mget_mset, tag_index_eqb. }
  assert (forall k, 0 <= k -> tag_at (added n a) k = if tag_count n =? k then a else tag_at n k) as Et.
  { intros k Hk. unfold tag_at, added. cbn [tags set_tag_indices set_tag_count set_tags]. by rewrite mget_mset. }
  assert (forall k, 0 <= k < tag_count n -> tag_at n k <> a) as Hne.
  { intros k Hk E. pose proof (Hsl k Hk). rewrite E in *. lia. }
  split; change (tag_count (added n a)) with (tag_count n + 1).
  - lia.
  - intros k Hk. rewrite Et by lia. destruct (Z.eqb_spec (tag_count n) k); [done|]. apply Hw. lia.
  - intros k Hk. rewrite Et by lia. destruct (Z.eqb_spec (tag_count n) k).
    + rewrite Es, Z.eqb_refl by done. lia.
    + rewrite Es by (apply Hw; lia). destruct (Z.eqb_spec a (tag_at n k)) as [E|_]; [|apply Hsl; lia].
      by destruct (Hne k ltac:(lia)).
  - intros b Hwb. rewrite Es by done. destruct (Z.eqb_spec a b) as [<-|Hab].
    + intros _. split; [lia|]. rewrite Et by lia. replace (tag_count n + 1 - 1) with (tag_count n) by lia.
      by rewrite Z.eqb_refl.
    + intros Hn. destruct (Hb b Hwb Hn). split; [lia|]. rewrite Et by lia.
      destruct (Z.eqb_spec (tag_count n) (slot_of n b - 1)); [lia|done].
  - intros b Hwb Hd. rewrite Es by done. destruct (Z.eqb_spec a b) as [<-|Hab].
    + split; [done|lia].
    + apply Hsy; [done|]. intros Hdb. apply Hd. split; [done|congruence].
Qed.

Lemma removed_ok :
  slot_of n a <> 0 -> sync_word r a = false -> tags_ok (fun b => dirty b /\ b <> a) r (removed n a).
Proof.
  intros Hs Hsync. destruct Hok as [H0 Hw Hsl Hb Hsy]. destruct (Hb a Ha Hs) as [Hr Hat].
  set (slot := slot_of n a) in *. set (last := tag_at n (tag_count n - 1)).
  assert (word_addr last) as Hl by (apply Hw; lia).
  pose proof (Hsl (tag_count n - 1) ltac:(lia)) as Hll. fold last in Hll.
  assert (forall b, word_addr b ->
    slot_of (removed n a) b = if a =? b then 0 else if last =? b then slot else slot_of n b) as Es.
  { intros b Hwb. unfold slot_of at 1, removed. cbn [tag_indices set_tag_indices set_tag_count set_tags].
    rewrite !mget_mset.
    assert (forall c, word_addr c -> (tag_index c =? tag_index b) = (c =? b)) as Eq.
    { intros c Hc. by apply tag_index_eqb. }
    by rewrite !Eq. }
  assert (forall k, tag_at (removed n a) k = if slot - 1 =? k then last else tag_at n k) as Et.
  { intros k. unfold tag_at at 1, removed. cbn [tags set_tag_indices set_tag_count set_tags]. by rewrite mget_mset. }
  split; change (tag_count (removed n a)) with (tag_count n - 1).
  - lia.
  - intros k Hk. rewrite Et. destruct (_ =? k); [done|]. apply Hw. lia.
  - intros k Hk. rewrite Et. destruct (Z.eqb_spec (slot - 1) k) as [E|E].
    + rewrite Es by done. destruct (Z.eqb_spec a last) as [E'|_]; [|rewrite Z.eqb_refl; lia].
      rewrite <- E' in Hll. unfold slot in *. lia.
    + assert (word_addr (tag_at n k)) as Hk' by (apply Hw; lia). rewrite Es by done.
      pose proof (Hsl k ltac:(lia)) as Hsk.
      destruct (Z.eqb_spec a (tag_at n k)) as [E'|_]; [rewrite <- E' in Hsk; unfold slot in *; lia|].
      destruct (Z.eqb_spec last (tag_at n k)) as [E'|_]; [rewrite <- E' in Hsk; lia|done].
  - intros b Hwb. rewrite Es by done. destruct (Z.eqb_spec a b) as [|Hab]; [done|].
    destruct (Z.eqb_spec last b) as [<-|Hlb].
    + intros _. assert (slot <> tag_count n) as Hne.
      { intros E. apply Hab. rewrite <- Hat. unfold last. by rewrite E. }
      split; [lia|]. rewrite Et, Z.eqb_refl. done.
    + intros Hn. destruct (Hb b Hwb Hn) as [Hrb Hatb].
      assert (slot_of n b <> tag_count n) as Hne.
      { intros E. apply Hlb. rewrite <- Hatb. unfold last. by rewrite E. }
      split; [lia|]. rewrite Et. destruct (Z.eqb_spec (slot - 1) (slot_of n b - 1)) as [E|_]; [|done].
      exfalso. apply Hab. rewrite <- Hat, <- Hatb. by rewrite E.
  - intros b Hwb Hd. rewrite Es by done. destruct (Z.eqb_spec a b) as [<-|Hab].
    + rewrite Hsync. split; [done|discriminate].
    + rewrite <- Hsy by (done || (intros Hdb; apply Hd; split; congruence)).
      destruct (Z.eqb_spec last b) as [<-|_]; [|done]. lia.
Qed.

Lemma retag_ok : tags_ok (fun b => dirty b /\ b <> a) r (retag r a n).
Proof.
  destruct Ha as (_ & _ & Hram). pose proof (tags_fit _ _ _ Hok) as Hfit. pose proof (tags_count _ _ _ Hok) as H0.
  unfold retag. rewrite Hram. cbn [negb]. change (mget (tag_indices n) (tag_index a)) with (slot_of n a).
  assert ((slot_of n a <> 0 <-> sync_word r a = true) -> tags_ok (fun b => dirty b /\ b <> a) r n) as Hsame.
  { intros Hiff. destruct Hok as [H1 H2 H3 H4 H5]. split; try done. intros b Hb Hd.
    destruct (Z.eq_dec b a) as [->|]; [done|]. apply H5; [done|]. intros Hdb. by apply Hd. }
  unfold z2b. destruct (sync_word r a) eqn:Hsync, (Z.eqb_spec (slot_of n a) 0) as [Hz|Hnz]; cbn [negb].
  - cbn [tag_count set_tag_count set_tags]. rewrite u32_id by (unfold is_word; lia). by apply added_ok.
  - by apply Hsame.
  - apply Hsame. split; [done|discriminate].
  - destruct (tags_back _ _ _ Hok a Ha Hnz). cbn [tag_count set_tag_count tags tag_indices set_tags set_tag_indices].
    rewrite u32_id by (unfold is_word; lia). by apply removed_ok.
Qed.
End Retag.

Lemma retag_not_word dirty r n a :
  ~ word_addr a -> 0 <= a -> a mod 2 = 0 -> tags_ok dirty r n ->
  tags_ok (fun b => dirty b /\ b <> a) r (retag r a n).
Proof.
  intros Hn H0 Hm Hok. unfold retag. destruct (ram_ok a 2) eqn:E; [by destruct Hn|]. cbn [negb].
  destruct Hok as [H1 H2 H3 H4 H5]. split; try done. intros b Hb Hd. apply H5; [done|].
  intros Hdb. apply Hd. split; [done|]. by intros ->.
Qed.

Lemma retag_words_ok count r a n dirty :
  0 <= a -> a mod 2 = 0 -> tags_ok dirty r n ->
  tags_ok (fun b => dirty b /\ ~ (a <= b < a + 2 * Z.of_nat count)) r (retag_words count r a n).
Proof.
  revert a n dirty. induction count as [|count IH]; intros a n dirty H0 Hm Hok; cbn [retag_words].
  - eapply tags_ok_weaken; [|exact Hok]. intros b _ Hd. split; [done|lia].
  - eapply tags_ok_weaken; [|apply (IH (a + 2) (retag r a n) (fun b => dirty b /\ b <> a)); [lia|zlia|]].
    + intros b (_ & Hmb & _) [[Hd Hne] Hr]. split; [done|]. intros Hc. apply Hr.
      split; [|lia]. assert (b <> a + 1) by (intros ->; zlia). lia.
    + destruct (decide (word_addr a)); [by apply retag_ok|by apply retag_not_word].
Qed.

(** * A write *)

(** The bytes outside a span are as they were. *)
Definition same_outside (address last : Z) (r r' : Ram) : Prop :=
  forall a, 0 <= a -> ~ (address <= a < last) -> ram_byte r' a = ram_byte r a.

Lemma sync_same address last r r' a :
  same_outside address last r r' -> 0 <= a -> ~ (a < last /\ address < a + 2) ->
  sync_word r' a = sync_word r a.
Proof. intros H H0 Hn. unfold sync_word. by rewrite !H by lia. Qed.

Lemma tags_ok_write address last r r' n :
  same_outside address last r r' -> tags_ok (fun _ => False) r n ->
  tags_ok (fun a => a < last /\ address < a + 2) r' n.
Proof.
  intros Hs [H0 H1 H2 H3 H4]. split; try done. intros a Ha Hd.
  rewrite (sync_same address last r r' a) by (done || apply Ha). auto.
Qed.

Lemma retag_write_ok address size r r' n :
  0 <= address -> 0 < size -> same_outside address (address + size) r r' ->
  tags_ok (fun _ => False) r n ->
  let a := Z.ldiff address 1 in
  tags_ok (fun _ => False) r' (retag_words (Z.to_nat ((address + size - a + 1) / 2)) r' a n).
Proof.
  intros Ha Hsz Hs Hok a. assert (a = address - address mod 2) as Ea.
  { unfold a. change 1 with (Z.ones 1). rewrite Z.ldiff_ones_r by lia.
    rewrite Z.shiftl_mul_pow2, Z.shiftr_div_pow2 by lia. change (2 ^ 1) with 2. zlia. }
  eapply tags_ok_weaken; [|apply (retag_words_ok _ r' a n (fun b => b < address + size /\ address < b + 2)); [zlia|zlia|by apply (tags_ok_write _ _ r)]].
  intros b (_ & Hm & _) [Hd Hr]. apply Hr. rewrite Z2Nat.id by zlia. zlia.
Qed.

(** A set with no tags, in a state whose indices are cleared: any RAM, all of it
    still to be looked at. *)
Lemma tags_ok_empty r n :
  tag_count n = 0 -> tag_indices n = ∅ -> tags_ok (fun _ => True) r n.
Proof.
  intros E1 E2. assert (forall a, slot_of n a = 0) as Es by (intros a; unfold slot_of; by rewrite E2).
  split; rewrite ?E1; try lia; intros a Ha; rewrite ?Es; done.
Qed.
