(* ===== verification/NativeSpec.v ===== *)
(** Identification of native modules: the cached bindings against a scan of all of
    RAM, and the states the loader's writes lead through. *)

From Stdlib Require Import ZArith Lia Bool.
From stdpp Require Import base tactics numbers list gmap.
From S2P Require Import Prelude Sha256 Native NativeTags.
Open Scope Z_scope.

(** * Bytes of RAM *)
Lemma mload_agree m m' lo lo' n :
  (forall k, 0 <= k < Z.of_nat n -> mget m (lo + k) = mget m' (lo' + k)) -> mload m lo n = mload m' lo' n.
Proof.
  revert lo lo'. induction n as [|n IH]; intros lo lo' H; [done|]. cbn [mload]. f_equal.
  - specialize (H 0 ltac:(lia)). by rewrite !Z.add_0_r in H.
  - apply IH. intros k Hk. specialize (H (k + 1) ltac:(lia)).
    by replace (lo + 1 + k) with (lo + (k + 1)) by lia; replace (lo' + 1 + k) with (lo' + (k + 1)) by lia.
Qed.

Lemma ram_byte_low r a : a < CDI_RAM0_SIZE -> ram_byte r a = mget (ram0 r) a.
Proof. intros H. unfold ram_byte. by destruct (Z.ltb_spec a CDI_RAM0_SIZE); [|lia]. Qed.
Lemma ram_byte_high r a : CDI_RAM0_SIZE <= a -> ram_byte r a = mget (ram1 r) (a - CDI_RAM1_BASE).
Proof. intros H. unfold ram_byte. by destruct (Z.ltb_spec a CDI_RAM0_SIZE); [lia|]. Qed.

Lemma ram_bytes_agree r r' address size :
  0 <= address -> 0 <= size -> ram_ok address size = true ->
  (forall a, address <= a < address + size -> ram_byte r' a = ram_byte r a) ->
  ram_bytes r' address size = ram_bytes r address size.
Proof.
  intros Ha Hs Hok H. apply ram_ok_spec in Hok; [|done..]. unfold ram_bytes.
  destruct (Z.ltb_spec address CDI_RAM0_SIZE) as [Hlt|Hge]; apply mload_agree; intros k Hk.
  - specialize (H (address + k) ltac:(lia)). by rewrite !ram_byte_low in H by (unfold CDI_RAM0_SIZE in *; lia).
  - specialize (H (address + k) ltac:(lia)). rewrite !ram_byte_high in H by lia.
    by replace (address - CDI_RAM1_BASE + k) with (address + k - CDI_RAM1_BASE) by lia.
Qed.

Lemma ram_ok_sub address size a s :
  0 <= address -> 0 <= size -> ram_ok address size = true -> address <= a -> 0 <= s -> a + s <= address + size ->
  a < address + size -> ram_ok a s = true.
Proof. intros ? ? H%ram_ok_spec ????; [|done..]. apply ram_ok_spec; lia. Qed.

(** What two memories that agree on an image agree on. *)
Section Agree.
Context (r r' : Ram) (base size : Z).
Context (Hb : 0 <= base) (Hs : 0x33 <= size) (Hok : ram_ok base size = true).
Context (Hsame : forall a, base <= a < base + size -> ram_byte r' a = ram_byte r a).

Lemma agree_sync : sync_word r' base = sync_word r base.
Proof. unfold sync_word. by rewrite !Hsame by lia. Qed.
Lemma agree_size : ram_be32 r' (base + 4) = ram_be32 r (base + 4).
Proof.
  unfold ram_be32. f_equal. apply ram_bytes_agree; [lia..| |].
  - by apply (ram_ok_sub base size); lia || done.
  - intros a Ha. apply Hsame. lia.
Qed.
Lemma agree_header count a parity :
  base <= a -> a + 2 * Z.of_nat count <= base + size ->
  header_parity count r' a parity = header_parity count r a parity.
Proof.
  revert a parity. induction count as [|count IH]; intros a parity H1 H2; [done|]. cbn [header_parity].
  rewrite IH by lia. do 2 f_equal. unfold ram_be16. by rewrite !Hsame by lia.
Qed.
Lemma agree_parity : parity_ok r' base = parity_ok r base.
Proof. unfold parity_ok. by rewrite agree_header by lia. Qed.
Lemma agree_bytes : ram_bytes r' base size = ram_bytes r base size.
Proof. apply ram_bytes_agree; done || lia. Qed.
End Agree.

(** * Images *)
Section Catalogue.
Context (modules : list CdiNativeModule) (service_hle : bool).

(** A well-formed module header, and the module its bytes are by their digest. *)
Record candidate (r : Ram) (base size : Z) : Prop := {
  cand_word : word_addr base;
  cand_sync : sync_word r base = true;
  cand_header : ram_be32 r (base + 4) = size;
  cand_size : 0x33 <= size;
  cand_ram : ram_ok base size = true;
  cand_parity : parity_ok r base = true;
}.
Definition identity (r : Ram) (base size : Z) : option nat :=
  find_index (matches size (cdi_sha256 (ram_bytes r base size))) modules 0.
Definition image (r : Ram) (base size : Z) (m : nat) : Prop :=
  candidate r base size /\ identity r base size = Some m.

Lemma candidate_base r base size : candidate r base size -> 0 <= base.
Proof. intros []. apply cand_word0. Qed.

Lemma candidate_agree r r' base size :
  (forall a, base <= a < base + size -> ram_byte r' a = ram_byte r a) ->
  candidate r base size -> candidate r' base size.
Proof.
  intros H Hc. pose proof (candidate_base _ _ _ Hc) as Hb. destruct Hc as [H1 H2 H3 H4 H5 H6]. split; try done.
  - by rewrite (agree_sync r r' base size).
  - by rewrite (agree_size r r' base size).
  - by rewrite (agree_parity r r' base size).
Qed.
Lemma identity_agree r r' base size :
  0 <= base -> 0x33 <= size -> ram_ok base size = true ->
  (forall a, base <= a < base + size -> ram_byte r' a = ram_byte r a) ->
  identity r' base size = identity r base size.
Proof. intros. unfold identity. by rewrite (agree_bytes r r' base size). Qed.

(** * Bindings *)
Definition covered (n : Native) (b : Binding) : Prop :=
  fst (range_of (b_base b) n) <= b_base b /\ b_base b + b_size b <= snd (range_of (b_base b) n).

Record binding_ok (r : Ram) (b : Binding) : Prop := {
  bind_word : word_addr (b_base b);
  bind_size : 0x33 <= b_size b;
  bind_ram : ram_ok (b_base b) (b_size b) = true;
  bind_checked : b_valid b = true -> b_checked b = true;
  bind_candidate : b_checked b = true -> candidate r (b_base b) (b_size b);
  bind_identity : b_checked b = true ->
    identity r (b_base b) (b_size b) = if b_valid b then b_module b else None;
  bind_module : b_valid b = true -> b_module b <> None;
}.

Record native_ok (r : Ram) (n : Native) : Prop := {
  ok_tags : tags_ok (fun _ => False) r n;
  ok_bindings : Forall (binding_ok r) (bindings n);
  ok_bases : NoDup (b_base <$> bindings n);
  ok_room : (length (bindings n) <= BINDING_CAPACITY)%nat;
  ok_epochs : Forall (fun b => 0 <= b_epoch b <= epoch n /\ (b_valid b = true -> 0 < b_epoch b)) (bindings n);
  ok_ranges : service_hle = true -> Forall (covered n) (bindings n);
}.

Lemma binding_ok_agree r r' b :
  (forall a, b_base b <= a < b_base b + b_size b -> ram_byte r' a = ram_byte r a) ->
  binding_ok r b -> binding_ok r' b.
Proof.
  intros H [H1 H2 H3 H4 H5 H6 H7]. split; [exact H1|exact H2|exact H3|exact H4| | |exact H7].
  - intros Hc. by apply (candidate_agree r), H5.
  - intros Hc. rewrite <- H6 by done. apply identity_agree; try done. apply H1.
Qed.
Lemma binding_ok_cleared r r' b : binding_ok r b -> binding_ok r' (cleared b).
Proof. intros []. by split. Qed.

(** ** Revocation *)
Lemma revoke_loop_bindings now address last bs n :
  fst (revoke_loop now address last bs n) =
  map (fun b => if overlaps address last b then cleared b else b) bs.
Proof.
  revert n. induction bs as [|b bs IH]; intros n; [done|]. cbn [revoke_loop map].
  destruct (overlaps address last b).
  - specialize (IH (revoke_one now b n)). destruct (revoke_loop _ _ _ _ _) as [bs' n']. cbn in *. by rewrite IH.
  - specialize (IH n). destruct (revoke_loop _ _ _ _ _) as [bs' n']. cbn in *. by rewrite IH.
Qed.

(** What revocation leaves alone. *)
Definition kept_part (n : Native) :=
  (tags n, tag_indices n, tag_count n, binding_ranges n, epoch n, targets n, target_indices n, target_dropped n).
Lemma revoke_loop_part now address last bs n :
  kept_part (snd (revoke_loop now address last bs n)) = kept_part n /\
  bindings (snd (revoke_loop now address last bs n)) = bindings n.
Proof.
  revert n. induction bs as [|b bs IH]; intros n; [done|]. cbn [revoke_loop].
  assert (kept_part (revoke_one now b n) = kept_part n /\ bindings (revoke_one now b n) = bindings n) as H1.
  { unfold revoke_one. by destruct (b_valid b). }
  destruct (overlaps address last b).
  - specialize (IH (revoke_one now b n)). destruct (revoke_loop _ _ _ _ _) as [bs' n']. cbn in *. intuition congruence.
  - specialize (IH n). destruct (revoke_loop _ _ _ _ _) as [bs' n']. cbn in *. done.
Qed.
Lemma revoke_part now address last n : kept_part (revoke now address last n) = kept_part n.
Proof.
  unfold revoke. pose proof (revoke_loop_part now address last (bindings n) n) as [H _].
  by destruct (revoke_loop _ _ _ _ _) as [bs n'].
Qed.
Lemma revoke_bindings now address last n :
  bindings (revoke now address last n) =
  map (fun b => if overlaps address last b then cleared b else b) (bindings n).
Proof.
  unfold revoke. pose proof (revoke_loop_bindings now address last (bindings n) n) as H.
  by destruct (revoke_loop _ _ _ _ _) as [bs n'].
Qed.

(** ** The bounds of the bindings miss no overlap *)
Lemma range_of_same a b n :
  (0x200000 <=? a) = (0x200000 <=? b) -> range_of a n = range_of b n.
Proof. unfold range_of, CDI_RAM1_BASE. by intros ->. Qed.

Lemma overlaps_covered address size n b :
  0 <= address -> 0 < size -> ram_ok address size = true -> ram_ok (b_base b) (b_size b) = true ->
  0 <= b_base b -> 0x33 <= b_size b -> covered n b ->
  overlaps address (address + size) b = true -> may_overlap_binding address (address + size) n = true.
Proof.
  intros Ha Hs Hr Hb H0 Hsz [Hc1 Hc2] Ho. apply ram_ok_spec in Hr, Hb; [|lia..]. unfold overlaps in Ho.
  apply andb_true_iff in Ho as [H1%Z.ltb_lt H2%Z.ltb_lt]. unfold may_overlap_binding.
  rewrite (range_of_same address (b_base b)).
  - apply andb_true_iff. rewrite !Z.ltb_lt. lia.
  - destruct (Z.leb_spec 0x200000 address), (Z.leb_spec 0x200000 (b_base b)); try done; lia.
Qed.

Lemma revoke_none now address last n :
  (forall b, In b (bindings n) -> overlaps address last b = false) -> revoke now address last n = n.
Proof.
  intros H. unfold revoke. assert (revoke_loop now address last (bindings n) n = (bindings n, n)) as ->.
  { revert H. generalize (bindings n) as bs. induction bs as [|b bs IH]; intros H; [done|].
    cbn [revoke_loop]. rewrite (H b) by (by left). rewrite IH; [done|]. intros b' Hb'. apply H. by right. }
  by destruct n.
Qed.

Lemma notify_eq now address size r r' n :
  no_modules modules = false -> 0 <= address -> 0 < size -> ram_ok address size = true ->
  Forall (binding_ok r) (bindings n) -> (service_hle = true -> Forall (covered n) (bindings n)) ->
  cdi_native_notify_write modules service_hle now address size r' n =
  retag_words (Z.to_nat ((address + size - Z.ldiff address 1 + 1) / 2)) r' (Z.ldiff address 1)
    (revoke now address (address + size) n).
Proof.
  intros Hm Ha Hs Hr Hb Hc. unfold cdi_native_notify_write. rewrite Hm, Hr. cbn [orb negb].
  destruct (Z.eqb_spec size 0) as [|_]; [lia|]. cbn [orb]. f_equal.
  destruct service_hle; [|done]. cbn [negb orb].
  destruct (may_overlap_binding address (address + size) n) eqn:E; [done|]. symmetry. apply revoke_none.
  intros b Hin. destruct (overlaps address (address + size) b) eqn:Eo; [|done]. exfalso.
  specialize (Hc eq_refl). rewrite Forall_forall in Hb, Hc. apply list_elem_of_In in Hin.
  destruct (Hb b Hin) as [[H0 _] H2 H3 _ _ _ _].
  rewrite (overlaps_covered address size n b) in E; done || auto.
Qed.

(** ** A write keeps the state right *)

(** What the maintenance of tags leaves alone. *)
Definition binding_part (n : Native) := (bindings n, binding_ranges n, epoch n).
Lemma retag_part r a n : binding_part (retag r a n) = binding_part n.
Proof.
  unfold retag. destruct (negb _); [done|]. destruct (sync_word r a); [by destruct (negb _)|by destruct (z2b _)].
Qed.
Lemma retag_words_part count r a n : binding_part (retag_words count r a n) = binding_part n.
Proof.
  revert a n. induction count as [|count IH]; intros a n; [done|]. cbn [retag_words].
  by rewrite IH, retag_part.
Qed.

(** The binding after a write to a span. *)
Definition after_write (address size : Z) (b : Binding) : Binding :=
  if overlaps address (address + size) b then cleared b else b.

Lemma notify_parts now address size r r' n :
  no_modules modules = false -> 0 <= address -> 0 < size -> ram_ok address size = true ->
  native_ok r n ->
  let n' := cdi_native_notify_write modules service_hle now address size r' n in
  bindings n' = after_write address size <$> bindings n /\
  binding_ranges n' = binding_ranges n /\ epoch n' = epoch n.
Proof.
  intros Hm Ha Hs Hr [_ Hb _ _ _ Hc] n'. unfold n'. rewrite (notify_eq now address size r) by done.
  pose proof (retag_words_part (Z.to_nat ((address + size - Z.ldiff address 1 + 1) / 2)) r' (Z.ldiff address 1)
    (revoke now address (address + size) n)) as E. injection E as -> -> ->.
  rewrite revoke_bindings. pose proof (revoke_part now address (address + size) n) as E.
  injection E as _ _ _ -> -> _. done.
Qed.

Lemma outside_agree address last r r' b :
  same_outside address last r r' -> 0 <= b_base b -> overlaps address last b = false ->
  forall a, b_base b <= a < b_base b + b_size b -> ram_byte r' a = ram_byte r a.
Proof.
  intros Hs H0 Ho a Ha. apply Hs; [lia|]. intros Hr. unfold overlaps in Ho.
  apply andb_false_iff in Ho as [H%Z.ltb_ge|H%Z.ltb_ge]; lia.
Qed.

Lemma notify_ok now address size r r' n :
  no_modules modules = false -> 0 <= address -> 0 < size -> ram_ok address size = true ->
  same_outside address (address + size) r r' -> native_ok r n ->
  native_ok r' (cdi_native_notify_write modules service_hle now address size r' n).
Proof.
  intros Hm Ha Hs Hr Hsame Hok. pose proof (notify_parts now address size r r' n Hm Ha Hs Hr Hok) as (E1 & E2 & E3).
  destruct Hok as [Ht Hb Hnd Hroom Hep Hcov]. split.
  - rewrite (notify_eq now address size r) by done. apply (retag_write_ok address size r); try done.
    eapply tags_ok_part; [|exact Ht]. pose proof (revoke_part now address (address + size) n) as E.
    injection E as E4 E5 E6 _ _ _. unfold tag_part. congruence.
  - rewrite E1. apply Forall_fmap. eapply Forall_impl; [exact Hb|]. intros b Hbok. cbn. unfold after_write.
    destruct (overlaps _ _ b) eqn:Eo; [by apply (binding_ok_cleared r)|].
    apply (binding_ok_agree r); [|done]. apply (outside_agree address (address + size)); [done| |done]. apply Hbok.
  - rewrite E1, <- list_fmap_compose. erewrite list_fmap_ext; [exact Hnd|]. intros i b _. cbn. unfold after_write.
    by destruct (overlaps _ _ b).
  - by rewrite E1, length_fmap.
  - rewrite E1, E3. apply Forall_fmap. eapply Forall_impl; [exact Hep|]. intros b Hbe. cbn. unfold after_write.
    destruct (overlaps _ _ b); [|done]. split; [apply Hbe|done].
  - intros H. rewrite E1. apply Forall_fmap. eapply Forall_impl; [exact (Hcov H)|]. intros b Hbc. cbn.
    unfold covered, range_of in *. rewrite E2. unfold after_write. by destruct (overlaps _ _ b).
Qed.

(** A fresh start finds every sync word of RAM, whatever it holds. *)
Lemma empty_binding_ok r n :
  tags_ok (fun _ => False) r n -> bindings n = [] -> native_ok r n.
Proof.
  intros Ht E. split; rewrite ?E; [done|constructor|constructor|unfold BINDING_CAPACITY; cbn; lia|constructor|].
  intros _. constructor.
Qed.

Lemma notify_scan now address size r n dirty :
  no_modules modules = false -> 0 <= address -> address mod 2 = 0 -> 0 < size -> ram_ok address size = true ->
  bindings n = [] -> tags_ok dirty r n ->
  let n' := cdi_native_notify_write modules service_hle now address size r n in
  tags_ok (fun a => dirty a /\ ~ (address <= a < address + size)) r n' /\ bindings n' = [].
Proof.
  intros Hm Ha Heven Hs Hr E Ht n'. unfold n'. rewrite (notify_eq now address size r) by (done || rewrite E; constructor).
  assert (Z.ldiff address 1 = address) as ->.
  { change 1 with (Z.ones 1). rewrite Z.ldiff_ones_r by lia.
    rewrite Z.shiftl_mul_pow2, Z.shiftr_div_pow2 by lia. change (2 ^ 1) with 2. zlia. }
  rewrite revoke_none by (rewrite E; done). split.
  - eapply tags_ok_weaken; [|by apply (retag_words_ok _ r address n dirty)].
    intros a _ [Hd Hn]. split; [done|]. rewrite Z2Nat.id in Hn by zlia. intros Hin. apply Hn. zlia.
  - pose proof (retag_words_part (Z.to_nat ((address + size - address + 1) / 2)) r address n) as Ep.
    by injection Ep as -> _ _.
Qed.

Lemma reset_ok now r n :
  no_modules modules = false -> native_ok r (cdi_native_reset modules service_hle now r n).
Proof.
  intros Hm. unfold cdi_native_reset. set (n0 := set_target_indices ∅ _).
  assert (bindings n0 = []) as E0 by (unfold n0; by destruct service_hle).
  assert (tags_ok (fun _ => True) r n0) as Ht0.
  { apply tags_ok_empty; unfold n0; by destruct service_hle. }
  destruct (notify_scan now CDI_RAM0_BASE CDI_RAM0_SIZE r n0 _ Hm ltac:(done) eq_refl ltac:(done) eq_refl E0 Ht0)
    as [Ht1 E1].
  destruct (notify_scan now CDI_RAM1_BASE CDI_RAM1_SIZE r _ _ Hm ltac:(done) eq_refl ltac:(done) eq_refl E1 Ht1)
    as [Ht2 E2].
  apply empty_binding_ok; [|exact E2]. eapply tags_ok_weaken; [|exact Ht2].
  intros a Ha [[_ H1] H2]. apply word_addr_cases in Ha as [_ [Hc|Hc]].
  - apply H1. unfold CDI_RAM0_BASE, CDI_RAM0_SIZE. lia.
  - apply H2. unfold CDI_RAM1_BASE, CDI_RAM1_SIZE. lia.
Qed.

(** * Identification *)
Lemma find_index_some {A} (p : A -> bool) l i k :
  find_index p l k = Some i ->
  (k <= i)%nat /\ exists x, l !! (i - k)%nat = Some x /\ p x = true /\
    forall j y, (j < i - k)%nat -> l !! j = Some y -> p y = false.
Proof.
  revert k. induction l as [|x l IH]; intros k; cbn [find_index]; [done|].
  destruct (p x) eqn:E.
  - intros [= <-]. split; [done|]. exists x. rewrite Nat.sub_diag. split; [done|]. split; [done|]. lia.
  - intros H. apply IH in H as (Hk & y & Hy & Hp & Hmin). split; [lia|]. exists y.
    replace (i - k)%nat with (S (i - S k)) by lia. split; [done|]. split; [done|].
    intros [|j] z Hj Hz; cbn in Hz; [congruence|]. apply (Hmin j); [lia|done].
Qed.
Lemma find_index_0 {A} (p : A -> bool) l i :
  find_index p l 0 = Some i -> exists x, l !! i = Some x /\ p x = true.
Proof.
  intros H. apply find_index_some in H as (_ & x & Hx & Hp & _). rewrite Nat.sub_0_r in Hx. by exists x.
Qed.
Lemma find_index_none {A} (p : A -> bool) l k :
  find_index p l k = None -> forall x, In x l -> p x = false.
Proof.
  revert k. induction l as [|x l IH]; intros k; cbn [find_index]; [done|].
  destruct (p x) eqn:E; [done|]. intros H y [<-|Hy]; [done|]. by apply (IH (S k)).
Qed.

(** ** One candidate *)

(** The binding a candidate is given. *)
Definition identified (r : Ram) (base size old_epoch new_epoch : Z) : Binding :=
  match identity r base size with
  | Some m => mkBinding base size new_epoch (Some m) true true
  | None => mkBinding base size old_epoch None true false
  end.
Definition epoch_after (r : Ram) (base size : Z) (n : Native) : Z :=
  match identity r base size with Some _ => u64 (epoch n + 1) | None => epoch n end.

Lemma identify_parts now r i base size n b0 :
  bindings n !! i = Some b0 ->
  let '(x, n') := identify modules service_hle now r i base size n in
  bindings n' = <[i := identified r base size (b_epoch b0) (u64 (epoch n + 1))]> (bindings n) /\
  binding_ranges n' = binding_ranges (if service_hle then cover_binding base size n else n) /\
  epoch n' = epoch_after r base size n /\ tag_part n' = tag_part n /\
  x = (match identity r base size with Some _ => Some i | None => None end).
Proof.
  intros Hi. unfold identify, identified, epoch_after. rewrite Hi. fold (identity r base size).
  assert (forall b n, binding_ranges (if service_hle then cover_binding base size (put_binding i b n)
    else put_binding i b n) = binding_ranges (if service_hle then cover_binding base size n else n) /\
    bindings (if service_hle then cover_binding base size (put_binding i b n) else put_binding i b n) =
      <[i := b]> (bindings n) /\
    epoch (if service_hle then cover_binding base size (put_binding i b n) else put_binding i b n) = epoch n /\
    tag_part (if service_hle then cover_binding base size (put_binding i b n) else put_binding i b n) =
      tag_part n) as Hc.
  { intros b n1. destruct service_hle; [|done]. unfold cover_binding.
    change (range_of base (put_binding i b n1)) with (range_of base n1).
    by destruct (range_of base n1) as [first last]. }
  specialize (Hc (mkBinding base size (b_epoch b0) None true false) n).
  set (n2 := if service_hle then cover_binding base size (put_binding _ _ _) else _) in *.
  destruct Hc as (H1 & H2 & H3 & H4). clearbody n2. rewrite <- H1. clear H1.
  injection H4 as H4 H5 H6. destruct (identity r base size) as [m|]; unfold event, put_binding; cbn.
  - rewrite H2, H3, list_insert_insert_eq. unfold tag_part. cbn. by rewrite H4, H5, H6.
  - rewrite H2, H3. unfold tag_part. cbn. by rewrite H4, H5, H6.
Qed.

(** The state in which a candidate is identified: one binding is still to be made. *)
Record slot_ok (r : Ram) (n : Native) (i : nat) (base : Z) : Prop := {
  slot_tags : tags_ok (fun _ => False) r n;
  slot_binding : exists b, bindings n !! i = Some b /\ b_base b = base /\ b_checked b = false;
  slot_others : forall j b, j <> i -> bindings n !! j = Some b -> binding_ok r b;
  slot_bases : NoDup (b_base <$> bindings n);
  slot_room : (length (bindings n) <= BINDING_CAPACITY)%nat;
  slot_epochs : Forall (fun b => 0 <= b_epoch b <= epoch n /\ (b_valid b = true -> 0 < b_epoch b)) (bindings n);
  slot_ranges : service_hle = true -> forall j b, j <> i -> bindings n !! j = Some b -> covered n b;
}.

Lemma covered_cover n base size b :
  word_addr base -> ram_ok base size = true -> 0x33 <= size ->
  covered n b \/ (b_base b = base /\ b_size b = size) -> covered (cover_binding base size n) b.
Proof.
  intros Hw Hr Hs Hc. pose proof (proj1 Hw) as H0. apply ram_ok_spec in Hr; [|lia..].
  set (n' := cover_binding base size n).
  assert (range_of base n' = (Z.min base (fst (range_of base n)), Z.max (base + size) (snd (range_of base n)))) as E.
  { unfold n', cover_binding. destruct (range_of base n) as [first last].
    rewrite (u32_id (base + size)) by (unfold is_word; lia).
    unfold range_of. cbn [binding_ranges set_binding_ranges].
    destruct (CDI_RAM1_BASE <=? base); cbn [fst snd]; f_equal;
      [destruct (Z.ltb_spec base first)|destruct (Z.ltb_spec last (base + size))|
       destruct (Z.ltb_spec base first)|destruct (Z.ltb_spec last (base + size))]; lia. }
  assert ((CDI_RAM1_BASE <=? b_base b) = (CDI_RAM1_BASE <=? base) \/ range_of (b_base b) n' = range_of (b_base b) n)
    as [Hbank|Hbank].
  { unfold n', cover_binding, range_of. destruct (CDI_RAM1_BASE <=? b_base b), (CDI_RAM1_BASE <=? base);
      [by left|right|right|by left]; by destruct (binding_ranges n) as [[] []]. }
  - unfold covered in *. rewrite (range_of_same (b_base b) base) by exact Hbank. rewrite E. cbn [fst snd].
    rewrite (range_of_same (b_base b) base n) in Hc by exact Hbank. lia.
  - destruct Hc as [Hc|[<- <-]]; [unfold covered; by rewrite Hbank|]. unfold covered. rewrite E. cbn [fst snd]. lia.
Qed.

Lemma identify_ok now r n i base size :
  slot_ok r n i base -> candidate r base size -> epoch n < 2 ^ 64 - 1 ->
  native_ok r (snd (identify modules service_hle now r i base size n)).
Proof.
  intros [Ht (b0 & Hi & Hb0 & Hch) Hothers Hnd Hroom Hep Hcov] Hcand He.
  pose proof (identify_parts now r i base size n b0 Hi) as Hparts.
  destruct (identify modules service_hle now r i base size n) as [x n']. cbn [snd].
  destruct Hparts as (E1 & E2 & E3 & E4 & _). set (b := identified _ _ _ _ _) in *.
  pose proof Hcand as [Hw Hsync Hh Hsz Hram Hpar].
  assert (0 <= epoch n) as Hen.
  { rewrite Forall_forall in Hep. apply list_elem_of_lookup_2 in Hi as Hin. destruct (Hep _ Hin). lia. }
  assert (epoch n <= epoch n' /\ (identity r base size <> None -> u64 (epoch n + 1) = epoch n + 1 /\ epoch n' = epoch n + 1)) as [Hle Hnew].
  { rewrite E3. unfold epoch_after. rewrite u64_id by (unfold is_word; lia).
    destruct (identity r base size); split; (lia || done). }
  assert (binding_ok r b) as Hb.
  { unfold b, identified. destruct (identity r base size) as [m|] eqn:Eid; by split. }
  assert (b_base b = base /\ b_size b = size) as [Hbb Hbs]
    by (unfold b, identified; by destruct (identity r base size)).
  assert (forall (P : Binding -> Prop), P b -> (forall j b', j <> i -> bindings n !! j = Some b' -> P b') ->
    Forall P (bindings n')) as HF.
  { intros P HPb HPo. rewrite E1. apply Forall_lookup. intros j b' Hj.
    apply list_lookup_insert_Some in Hj as [(-> & <- & _)|(Hne & Hj)]; [done|]. by apply (HPo j). }
  split.
  - by apply (tags_ok_part _ _ n).
  - by apply HF.
  - rewrite E1, list_fmap_insert, Hbb. rewrite list_insert_id; [done|].
    rewrite list_lookup_fmap, Hi. cbn. by rewrite Hb0.
  - by rewrite E1, length_insert.
  - apply HF.
    + rewrite Forall_forall in Hep. apply list_elem_of_lookup_2 in Hi as Hin. destruct (Hep _ Hin) as [Hin1 _].
      unfold b, identified in *. destruct (identity r base size) as [m|]; cbn.
      * destruct (Hnew ltac:(done)) as [-> ->]. lia.
      * split; [lia|done].
    + intros j b' _ Hj. apply list_elem_of_lookup_2 in Hj. rewrite Forall_forall in Hep.
      destruct (Hep _ Hj). split; [lia|done].
  - intros Hs. specialize (Hcov Hs). rewrite Hs in E2.
    assert (forall b', covered (cover_binding base size n) b' -> covered n' b') as Hcc.
    { intros b'. unfold covered, range_of. by rewrite E2. }
    apply HF.
    + apply Hcc, covered_cover; try done. by right.
    + intros j b' Hne Hj. apply Hcc, covered_cover; try done. left. by apply (Hcov j).
Qed.

(** ** The loop over the tags *)
Lemma cached_some base n i :
  cached base n = Some i -> exists b, bindings n !! i = Some b /\ b_base b = base.
Proof. intros (b & Hb & H%Z.eqb_eq)%find_index_0. by exists b. Qed.
Lemma cached_none base n : cached base n = None -> ~ In base (map b_base (bindings n)).
Proof.
  intros H (b & <- & Hin)%in_map_iff. pose proof (find_index_none _ _ _ H b Hin) as Hn. cbn in Hn.
  by rewrite Z.eqb_refl in Hn.
Qed.

Lemma slot_of_cached r n i b :
  native_ok r n -> bindings n !! i = Some b -> b_checked b = false -> slot_ok r n i (b_base b).
Proof.
  intros [Ht Hb Hnd Hroom Hep Hcov] Hi Hc. split; try done.
  - by exists b.
  - intros j b' _ Hj. by apply (Forall_lookup_1 _ _ _ _ Hb Hj).
  - intros Hs j b' _ Hj. by apply (Forall_lookup_1 _ _ _ _ (Hcov Hs) Hj).
Qed.

Definition appended (base : Z) (n : Native) : Native :=
  set_bindings (bindings n ++ [mkBinding base 0 0 None false false]) n.
Lemma slot_of_new r n base :
  native_ok r n -> 0 <= epoch n -> cached base n = None -> (length (bindings n) < BINDING_CAPACITY)%nat ->
  slot_ok r (appended base n) (length (bindings n)) base.
Proof.
  intros [Ht Hb Hnd Hroom Hep Hcov] He Hc Hlt.
  assert (forall j b, j <> length (bindings n) -> bindings (appended base n) !! j = Some b ->
    bindings n !! j = Some b) as Hold.
  { intros j b Hne Hj. cbn in Hj. apply lookup_app_Some in Hj as [Hj|[Hle Hj]]; [done|].
    destruct (j - length (bindings n))%nat eqn:E; [lia|done]. }
  split.
  - by apply (tags_ok_part _ _ n).
  - eexists. cbn. rewrite list_lookup_middle by done. done.
  - intros j b Hne Hj. by apply (Forall_lookup_1 _ _ _ _ Hb (Hold j b Hne Hj)).
  - cbn. rewrite fmap_app. apply NoDup_app. split; [done|]. split; [|apply NoDup_singleton].
    intros x Hx Hin. apply list_elem_of_singleton in Hin as ->. apply cached_none in Hc. apply Hc.
    by apply list_elem_of_In.
  - cbn. rewrite length_app. cbn. lia.
  - cbn. apply Forall_app. split; [done|]. constructor; [|done]. cbn. split; [lia|done].
  - intros Hs j b Hne Hj. exact (Forall_lookup_1 _ _ _ _ (Hcov Hs) (Hold j b Hne Hj)).
Qed.

Lemma possible_identity r base size m : identity r base size = Some m -> possible modules size = true.
Proof.
  intros (x & Hx & [H%Z.eqb_eq _]%andb_true_iff)%find_index_0. apply existsb_exists. exists x.
  split; [|by apply Z.eqb_eq]. apply list_elem_of_In. by apply list_elem_of_lookup_2 in Hx.
Qed.

(** No admitted binding covers the address. *)
Definition uncovered (address : Z) (n : Native) : Prop :=
  forall b, In b (bindings n) -> contains address b = false.
(** An image of the catalogue at [base] covers the address. *)
Definition image_covers (r : Ram) (base address : Z) : Prop :=
  exists size m, image r base size m /\ base <= address < base + size.

(** Admitted bindings after a step are those of before, or newer than all of them. *)
Definition newer (n n' : Native) : Prop :=
  epoch n <= epoch n' <= epoch n + 1 /\
  forall i b, bindings n' !! i = Some b -> b_valid b = true ->
    epoch n < b_epoch b \/ bindings n !! i = Some b.

Definition admitted (r : Ram) (address : Z) (n : Native) (i : nat) : Prop :=
  exists b m, bindings n !! i = Some b /\ contains address b = true /\ b_module b = Some m /\
    image r (b_base b) (b_size b) m.

Definition try_post (r : Ram) (address base : Z) (n : Native) (answer : result (option nat) * Native) : Prop :=
  let '(x, n') := answer in
  native_ok r n' /\ tag_part n' = tag_part n /\ newer n n' /\
  match x with
  | Ok (Some i) => admitted r address n' i
  | Ok None => epoch n' = epoch n /\ uncovered address n' /\ ~ image_covers r base address
  | Exn e => e = EAbort /\ n' = n /\ length (bindings n) = BINDING_CAPACITY
  end.

Lemma newer_refl n : newer n n.
Proof. split; [lia|]. by right. Qed.

(** A tag that is passed over: nothing changes. *)
Lemma try_skip r address base n :
  native_ok r n -> uncovered address n -> ~ image_covers r base address ->
  try_post r address base n (Ok None, n).
Proof. intros. split; [done|]. split; [done|]. split; [apply newer_refl|done]. Qed.

Lemma image_size r base address size m :
  image r base size m -> base <= address < base + size -> size = ram_be32 r (base + 4).
Proof. intros [[] _] _. done. Qed.

(** The candidate is identified, in the slot it has or gets. *)
Lemma try_identify now r address base size n i n0 :
  native_ok r n0 -> slot_ok r n i base -> candidate r base size -> epoch n < 2 ^ 64 - 1 ->
  base <= address < base + size ->
  tag_part n = tag_part n0 -> epoch n = epoch n0 -> uncovered address n0 ->
  (forall j b, j <> i -> bindings n !! j = Some b -> bindings n0 !! j = Some b) ->
  try_post r address base n0
    (let '(x, n') := identify modules service_hle now r i base size n in (Ok x, n')).
Proof.
  intros Hok0 Hs Hcand He Ha Ht Hep Hun Hold. pose proof (identify_ok now r n i base size Hs Hcand He) as Hok.
  pose proof Hs as [_ (b0 & Hi & Hb0 & _) _ _ _ Hepochs _].
  pose proof (identify_parts now r i base size n b0 Hi) as Hparts.
  assert (0 <= epoch n) as Hen.
  { rewrite Forall_forall in Hepochs. apply list_elem_of_lookup_2 in Hi as Hin. destruct (Hepochs _ Hin). lia. }
  destruct (identify modules service_hle now r i base size n) as [x n']. cbn [snd] in Hok.
  destruct Hparts as (E1 & _ & E3 & E4 & ->). unfold epoch_after, identified in *.
  rewrite u64_id in * by (unfold is_word; lia). destruct (identity r base size) as [m|] eqn:Eid.
  - assert (bindings n' !! i = Some (mkBinding base size (epoch n + 1) (Some m) true true)) as Hi'
      by (rewrite E1; by apply list_lookup_insert_eq, (lookup_lt_Some _ _ b0)).
    split; [done|]. split; [by rewrite E4|]. split.
    + split; [lia|]. intros j b Hj Hv. destruct (Nat.eq_dec j i) as [->|Hne].
      * rewrite Hi' in Hj. injection Hj as <-. left. cbn. lia.
      * right. rewrite E1, list_lookup_insert_ne in Hj by done. by apply Hold.
    + exists (mkBinding base size (epoch n + 1) (Some m) true true), m. split; [done|]. split; [|by split].
      unfold contains. cbn. destruct (Z.leb_spec base address), (Z.ltb_spec (address - base) size); done || lia.
  - split; [done|]. split; [by rewrite E4|].
    assert (forall j b, bindings n' !! j = Some b -> b_valid b = true -> bindings n0 !! j = Some b) as Hv.
    { intros j b Hj Hv. destruct (Nat.eq_dec j i) as [->|Hne].
      - rewrite E1, list_lookup_insert_eq in Hj by (by apply (lookup_lt_Some _ _ b0)).
        injection Hj as <-. done.
      - rewrite E1, list_lookup_insert_ne in Hj by done. by apply Hold. }
    split; [|split; [lia|split]].
    + split; [lia|]. intros j b Hj Hvb. right. by apply Hv.
    + intros b Hin. destruct (contains address b) eqn:Ec; [|done].
      apply list_elem_of_In, list_elem_of_lookup in Hin as [j Hj].
      pose proof Ec as Ec'. unfold contains in Ec'. apply andb_true_iff in Ec' as [[Hvb _]%andb_true_iff _].
      pose proof (Hv j b Hj Hvb) as Hj0. apply list_elem_of_lookup_2, list_elem_of_In in Hj0.
      by rewrite (Hun b Hj0) in Ec.
    + intros (size' & m & [Hc' Hid'] & Hr). pose proof (cand_header _ _ _ Hc'). pose proof (cand_header _ _ _ Hcand).
      congruence.
Qed.

Lemma try_tag_ok now r address base n :
  native_ok r n -> 0 <= epoch n < 2 ^ 64 - 1 -> word_addr base -> sync_word r base = true ->
  uncovered address n -> try_post r address base n (try_tag modules service_hle now r address base n).
Proof.
  intros Hok He Hw Hsync Hun. unfold try_tag. set (size := ram_be32 r (base + 4)).
  assert (forall s m, image r base s m -> base <= address < base + s ->
    s = size /\ candidate r base size /\ identity r base size = Some m) as Himg.
  { intros s m [Hc Hid] Hr. pose proof (cand_header _ _ _ Hc) as E. fold size in E. by subst s. }
  destruct (Z.ltb_spec address base) as [Hlt|Hge].
  { apply try_skip; try done. intros (s & m & _ & Hr). lia. }
  destruct (ram_ok base 0x30) eqn:E30; cbn [negb].
  2: { apply try_skip; try done. intros (s & m & Hi & Hr). destruct (Himg s m Hi Hr) as (-> & Hc & _).
       destruct Hc as [[H0 _] _ _ H33 Hram _]. rewrite (ram_ok_sub base size base 0x30) in E30; done || lia. }
  destruct ((size <? 0x33) || (size <=? address - base) || negb (ram_ok base size)) eqn:Esz.
  { apply try_skip; try done. intros (s & m & Hi & Hr). destruct (Himg s m Hi Hr) as (-> & Hc & _).
    destruct Hc as [_ _ _ H33 Hram _]. rewrite Hram in Esz. cbn [negb] in Esz. rewrite orb_false_r in Esz.
    apply orb_true_iff in Esz as [H%Z.ltb_lt|H%Z.leb_le]; lia. }
  apply orb_false_iff in Esz as [[H33%Z.ltb_ge Hsa%Z.leb_gt]%orb_false_iff Hram%negb_false_iff].
  destruct (cached base n) as [i|] eqn:Ec.
  - apply cached_some in Ec as (b & Hi & Hbb). rewrite Hi. destruct (b_checked b) eqn:Ech.
    { apply try_skip; try done. intros (s & m & Him & Hr). destruct (Himg s m Him Hr) as (-> & Hc & Hid).
      pose proof (Forall_lookup_1 _ _ _ _ (ok_bindings _ _ Hok) Hi) as [_ _ _ _ Hbc Hbi _].
      specialize (Hbc Ech). specialize (Hbi Ech). rewrite Hbb in Hbc, Hbi.
      pose proof (cand_header _ _ _ Hbc) as E. fold size in E. rewrite <- E in Hbi.
      apply list_elem_of_lookup_2, list_elem_of_In in Hi. specialize (Hun b Hi). unfold contains in Hun.
      destruct (b_valid b); [|congruence]. rewrite Hbb, <- E in Hun. cbn [andb] in Hun.
      destruct (Z.leb_spec base address), (Z.ltb_spec (address - base) size); done || lia. }
    destruct (possible modules size) eqn:Epos; cbn [negb].
    2: { apply try_skip; try done. intros (s & m & Him & Hr). destruct (Himg s m Him Hr) as (-> & _ & Hid).
         by rewrite (possible_identity r base size m) in Epos. }
    destruct (parity_ok r base) eqn:Epar; cbn [negb].
    2: { apply try_skip; try done. intros (s & m & Him & Hr). destruct (Himg s m Him Hr) as (-> & [] & _). congruence. }
    rewrite <- Hbb. apply try_identify; try done; try lia; try (by rewrite Hbb).
    by apply slot_of_cached.
  - destruct (possible modules size) eqn:Epos; cbn [negb].
    2: { apply try_skip; try done. intros (s & m & Him & Hr). destruct (Himg s m Him Hr) as (-> & _ & Hid).
         by rewrite (possible_identity r base size m) in Epos. }
    destruct (parity_ok r base) eqn:Epar; cbn [negb].
    2: { apply try_skip; try done. intros (s & m & Him & Hr). destruct (Himg s m Him Hr) as (-> & [] & _). congruence. }
    destruct (Nat.leb_spec BINDING_CAPACITY (length (bindings n))) as [Hfull|Hroom].
    + split; [done|]. split; [done|]. split; [apply newer_refl|]. split; [done|]. split; [done|].
      pose proof (ok_room _ _ Hok). lia.
    + apply try_identify; try done; try lia.
      * apply (slot_of_new r n base); done || lia.
      * cbn. lia.
      * intros j b Hne Hj. cbn in Hj. apply lookup_app_Some in Hj as [Hj|[Hle Hj]]; [done|].
        destruct (j - length (bindings n))%nat eqn:E; [lia|done].
Qed.

Lemma newer_same n n' n'' : epoch n' = epoch n -> newer n n' -> newer n' n'' -> newer n n''.
Proof.
  intros E [H1 H2] [H3 H4]. split; [lia|]. intros i b Hi Hv.
  destruct (H4 i b Hi Hv) as [|H]; [left; lia|by apply H2].
Qed.

Lemma try_tags_ok now r address count i n :
  native_ok r n -> 0 <= epoch n < 2 ^ 64 - 1 -> uncovered address n ->
  0 <= i -> i + Z.of_nat count <= tag_count n ->
  let '(x, n') := try_tags modules service_hle count now r address i n in
  native_ok r n' /\ tag_part n' = tag_part n /\ newer n n' /\
  match x with
  | Ok (Some j) => admitted r address n' j
  | Ok None => epoch n' = epoch n /\ uncovered address n' /\
      forall k, i <= k < i + Z.of_nat count -> ~ image_covers r (tag_at n k) address
  | Exn e => e = EAbort /\ length (bindings n') = BINDING_CAPACITY
  end.
Proof.
  revert i n. induction count as [|count IH]; intros i n Hok He Hun Hi Hc; cbn [try_tags].
  { split; [done|]. split; [done|]. split; [apply newer_refl|]. split; [done|]. split; [done|]. lia. }
  change (mget (tags n) i) with (tag_at n i). destruct (ok_tags _ _ Hok) as [H0 Hw Hs _ Hsy].
  assert (word_addr (tag_at n i)) as Hwi by (apply Hw; lia).
  assert (sync_word r (tag_at n i) = true) as Hsi by (apply Hsy; [done|tauto|rewrite Hs by lia; lia]).
  pose proof (try_tag_ok now r address (tag_at n i) n Hok He Hwi Hsi Hun) as Hp.
  destruct (try_tag modules service_hle now r address (tag_at n i) n) as [[[j|]|e] n1];
    destruct Hp as (Hok1 & Ht1 & Hnew1 & Hx).
  - done.
  - destruct Hx as (Ee & Hun1 & Hno). injection Ht1 as Et1 Et2 Et3.
    specialize (IH (i + 1) n1 Hok1 ltac:(lia) Hun1 ltac:(lia) ltac:(rewrite Et3; lia)).
    destruct (try_tags _ _ _ _ _ _ _ n1) as [x n2]. destruct IH as (Hok2 & Ht2 & Hnew2 & Hx2).
    split; [done|]. split; [unfold tag_part in *; congruence|]. split; [by eapply newer_same|].
    destruct x as [[j|]|e]; [done| |done]. destruct Hx2 as (Ee2 & Hun2 & Hno2). split; [lia|]. split; [done|].
    intros k Hk. destruct (Z.eq_dec k i) as [->|Hne]; [done|].
    specialize (Hno2 k ltac:(lia)). unfold tag_at in *. by rewrite Et1 in Hno2.
  - destruct Hx as (-> & -> & Hfull). by split_and!.
Qed.

(** ** Resolution *)
Lemma covering_candidate r address base size :
  candidate r base size -> base <= address < base + size -> address mod 2 = 0 -> ram_ok address 2 = true.
Proof.
  intros [[H0 [Hm _]] _ _ Hs Hr _] Ha Heven. apply ram_ok_spec in Hr; [|lia..]. apply ram_ok_spec; [lia..|].
  destruct Hr as [Hr|Hr]; [left|right]; zlia.
Qed.

Lemma contains_spec address b :
  contains address b = true <-> b_valid b = true /\ b_base b <= address < b_base b + b_size b.
Proof.
  unfold contains. destruct (b_valid b), (Z.leb_spec (b_base b) address),
    (Z.ltb_spec (address - b_base b) (b_size b)); cbn; intuition (done || lia).
Qed.

Lemma admitted_valid r address n i b :
  native_ok r n -> bindings n !! i = Some b -> contains address b = true -> admitted r address n i.
Proof.
  intros Hok Hi Hc. pose proof (Forall_lookup_1 _ _ _ _ (ok_bindings _ _ Hok) Hi) as [_ _ _ Hch Hcand Hid Hm].
  pose proof Hc as [Hv _]%contains_spec. specialize (Hch Hv). specialize (Hid Hch). rewrite Hv in Hid.
  destruct (b_module b) as [m|] eqn:Em; [|by destruct (Hm Hv)]. exists b, m. split; [done|]. split; [done|].
  split; [done|]. split; [by apply Hcand|done].
Qed.

Lemma resolve_ok now r address n :
  native_ok r n -> 0 <= epoch n < 2 ^ 64 - 1 -> 0 <= address -> address mod 2 = 0 ->
  let '(x, n') := resolve modules service_hle now r address n in
  native_ok r n' /\ tag_part n' = tag_part n /\ newer n n' /\
  match x with
  | Ok (Some i) => admitted r address n' i
  | Ok None => forall base, ~ image_covers r base address
  | Exn e => e = EAbort /\ length (bindings n') = BINDING_CAPACITY
  end.
Proof.
  intros Hok He Ha Heven. unfold resolve. destruct (find_index (contains address) (bindings n) 0) as [i|] eqn:Ef.
  { apply find_index_0 in Ef as (b & Hi & Hc). split; [done|]. split; [done|]. split; [apply newer_refl|].
    by eapply admitted_valid. }
  assert (uncovered address n) as Hun by (intros b Hb; by apply (find_index_none _ _ _ Ef)).
  destruct (ram_ok address 2) eqn:Er; cbn [negb].
  2: { split; [done|]. split; [done|]. split; [apply newer_refl|]. intros base (s & m & [Hc _] & Hr).
       by rewrite (covering_candidate r address base s) in Er. }
  pose proof (ok_tags _ _ Hok) as Ht. pose proof (tags_count _ _ _ Ht) as H0.
  pose proof (try_tags_ok now r address (Z.to_nat (tag_count n)) 0 n Hok He Hun ltac:(lia) ltac:(lia)) as Hp.
  destruct (try_tags _ _ _ _ _ _ _ n) as [x n']. destruct Hp as (Hok' & Ht' & Hnew & Hx).
  split; [done|]. split; [done|]. split; [done|]. destruct x as [[i|]|e]; [done| |done].
  destruct Hx as (_ & _ & Hno). intros base Hcov. pose proof Hcov as (s & m & [Hc _] & _).
  destruct Ht as [_ _ _ Hb Hsy]. pose proof (cand_word _ _ _ Hc) as Hw. pose proof (cand_sync _ _ _ Hc) as Hs.
  apply Hsy in Hs; [|done|tauto]. destruct (Hb base Hw Hs) as [Hr Hat].
  specialize (Hno (slot_of n base - 1) ltac:(lia)). by rewrite Hat in Hno.
Qed.
End Catalogue.
