(* ===== verification/NativeRun.v ===== *)
(** Native code through a whole run: writes of the loader, warm resets, dispatches
    and the record of uncovered targets, in any order; no stale code is run. *)

From Stdlib Require Import ZArith Lia Bool.
From stdpp Require Import base tactics numbers list gmap.
From S2P Require Import Prelude Sha256 ShaSpec Native NativeTags NativeSpec.
Open Scope Z_scope.

(** * Operations *)

(** The bytes a writer stores (cdi_bus.c); it notifies of them afterwards. *)
Definition write_ram (address : Z) (bytes : list Z) (r : Ram) : Ram :=
  if address <? CDI_RAM0_SIZE then mkRam (mstore (ram0 r) address bytes) (ram1 r)
  else mkRam (ram0 r) (mstore (ram1 r) (address - CDI_RAM1_BASE) bytes).

Inductive native_op :=
| Write (address : Z) (bytes : list Z)
| Reset
| HasAddress (address : Z)
| Dispatch (address : Z)
| RecordTarget (address : Z).

(** The addresses are those of C calls; a writer writes inside RAM. *)
Definition op_ok (o : native_op) : bool :=
  match o with
  | Write address bytes => (0 <=? address) && ram_ok address (Z.of_nat (length bytes))
  | Reset => true
  | HasAddress a | Dispatch a | RecordTarget a => 0 <=? a
  end.

Section Catalogue.
Context (modules : list CdiNativeModule) (service_hle : bool).

Definition perform (now : Moment) (o : native_op) (x : Ram * Native) : Ram * Native :=
  let '(r, n) := x in
  match o with
  | Write address bytes =>
    let r := write_ram address bytes r in
    (r, cdi_native_notify_write modules service_hle now address (Z.of_nat (length bytes)) r n)
  | Reset => (r, cdi_native_reset modules service_hle now r n)
  | HasAddress a => (r, snd (cdi_native_has_address modules service_hle now r a n))
  | Dispatch a => (r, snd (cdi_native_dispatch modules service_hle now r a n))
  | RecordTarget a =>
    (r, default n (snd (cdi_native_record_target modules service_hle now r a n)))
  end.
Fixpoint run (now : Moment) (os : list native_op) (x : Ram * Native) : Ram * Native :=
  match os with [] => x | o :: os => run now os (perform now o x) end.

(** The machine after its start: a reset over any RAM. *)
Definition started (now : Moment) (r : Ram) (n : Native) : Ram * Native :=
  (r, cdi_native_reset modules service_hle now r n).

(** * Writes *)
Lemma mget_mstore_outside m lo bs a :
  ~ (lo <= a < lo + Z.of_nat (length bs)) -> mget (mstore m lo bs) a = mget m a.
Proof.
  intros H. rewrite mget_mstore. destruct (Z.leb_spec lo a), (Z.ltb_spec a (lo + Z.of_nat (length bs))); done || lia.
Qed.

Lemma write_ram_outside address bytes r :
  0 <= address -> ram_ok address (Z.of_nat (length bytes)) = true ->
  same_outside address (address + Z.of_nat (length bytes)) r (write_ram address bytes r).
Proof.
  intros Ha Hr a H0 Hn. apply ram_ok_spec in Hr; [|lia..]. unfold write_ram.
  destruct (Z.ltb_spec address CDI_RAM0_SIZE) as [Hlt|Hge].
  - destruct (Z.lt_ge_cases a CDI_RAM0_SIZE).
    + rewrite !ram_byte_low by done. cbn. by apply mget_mstore_outside.
    + by rewrite !ram_byte_high by done.
  - destruct (Z.lt_ge_cases a CDI_RAM0_SIZE).
    + by rewrite !ram_byte_low by done.
    + rewrite !ram_byte_high by done. cbn. apply mget_mstore_outside. lia.
Qed.

(** * What becomes of bindings *)

(** An admitted binding is newer than the past, or an old one over bytes that have
    not changed. *)
Definition evolves (d : Z) (x x' : Ram * Native) : Prop :=
  epoch (snd x) <= epoch (snd x') <= epoch (snd x) + d /\
  forall i b, bindings (snd x') !! i = Some b -> b_valid b = true ->
    epoch (snd x) < b_epoch b \/
    bindings (snd x) !! i = Some b /\
    forall a, b_base b <= a < b_base b + b_size b -> ram_byte (fst x') a = ram_byte (fst x) a.

Lemma evolves_refl x : evolves 0 x x.
Proof. split; [lia|]. by right. Qed.
Lemma evolves_trans d d' x y z : evolves d x y -> evolves d' y z -> evolves (d + d') x z.
Proof.
  intros [H1 H2] [H3 H4]. split; [lia|]. intros i b Hi Hv.
  destruct (H4 i b Hi Hv) as [|[Hj Hs]]; [left; lia|]. destruct (H2 i b Hj Hv) as [|[Hk Hs']]; [by left|].
  right. split; [done|]. intros a Ha. by rewrite Hs, Hs'.
Qed.
Lemma evolves_newer r n n' : newer n n' -> evolves 1 (r, n) (r, n').
Proof. intros [H1 H2]. split; [done|]. intros i b Hi Hv. destruct (H2 i b Hi Hv); [by left|by right]. Qed.

Lemma evolves_write now address bytes r n :
  no_modules modules = false -> 0 <= address -> ram_ok address (Z.of_nat (length bytes)) = true ->
  native_ok modules service_hle r n -> bytes <> [] ->
  evolves 0 (r, n) (perform now (Write address bytes) (r, n)).
Proof.
  intros Hm Ha Hr Hok Hne. assert (0 < Z.of_nat (length bytes)) as Hlen by (destruct bytes; cbn; [done|lia]).
  pose proof (notify_parts modules service_hle now address (Z.of_nat (length bytes)) r (write_ram address bytes r) n
    Hm Ha Hlen Hr Hok) as (E1 & _ & E3).
  split; cbn [perform fst snd]; [lia|]. intros i b Hi Hv. right. rewrite E1, list_lookup_fmap in Hi.
  destruct (bindings n !! i) as [b0|] eqn:E0; [|done]. injection Hi as <-. unfold after_write in *.
  destruct (overlaps address (address + Z.of_nat (length bytes)) b0) eqn:Eo; [done|]. split; [done|].
  apply (outside_agree address (address + Z.of_nat (length bytes))); [by apply write_ram_outside| |done].
  by apply (Forall_lookup_1 _ _ _ _ (ok_bindings _ _ _ _ Hok) E0).
Qed.

(** * The calls *)
Lemma resolved_ok now r address n :
  native_ok modules service_hle r n -> 0 <= epoch n < 2 ^ 64 - 1 -> 0 <= address ->
  no_modules modules = false ->
  let '(x, n') := resolved modules service_hle now r address n in
  native_ok modules service_hle r n' /\ newer n n' /\
  match x with
  | Ok (Some (b, m, md)) =>
    address mod 2 = 0 /\ In b (bindings n') /\ contains address b = true /\ b_module b = Some m /\
    modules !! m = Some md /\ image modules r (b_base b) (b_size b) m
  | Ok None => address mod 2 = 1 \/ forall base, ~ image_covers modules r base address
  | Exn e => e = EAbort /\ length (bindings n') = BINDING_CAPACITY
  end.
Proof.
  intros Hok He Ha Hm. unfold resolved. rewrite Hm. cbn [orb].
  assert (z2b (Z.land address 1) = negb (address mod 2 =? 0)) as ->.
  { unfold z2b. f_equal. change 1 with (Z.ones 1) at 1. by rewrite Z.land_ones by lia. }
  destruct (Z.eqb_spec (address mod 2) 0) as [Heven|Hodd]; cbn [negb].
  2: { split; [done|]. split; [apply newer_refl|]. left. zlia. }
  pose proof (resolve_ok modules service_hle now r address n Hok He Ha Heven) as Hp.
  destruct (resolve modules service_hle now r address n) as [[[i|]|e] n']; destruct Hp as (Hok' & _ & Hnew & Hx).
  - split; [done|]. split; [done|]. destruct Hx as (b & m & Hi & Hc & Em & Him). unfold binding_module.
    rewrite Hi, Em. pose proof (proj2 Him) as Hid. apply find_index_0 in Hid as (md & Hmd & _). rewrite Hmd.
    split; [done|]. split; [apply list_elem_of_In; by apply list_elem_of_lookup_2 in Hi|]. done.
  - split; [done|]. split; [done|]. by right.
  - split; [done|]. split; [done|]. done.
Qed.

Lemma native_ok_part r n n' :
  tag_part n' = tag_part n -> binding_part n' = binding_part n ->
  native_ok modules service_hle r n -> native_ok modules service_hle r n'.
Proof.
  intros Et Eb [H1 H2 H3 H4 H5 H6]. injection Eb as E1 E2 E3.
  split; rewrite ?E1, ?E3; try done; [by apply (tags_ok_part _ _ n)|].
  intros Hs. eapply Forall_impl; [exact (H6 Hs)|]. intros b. unfold covered, range_of. by rewrite E2.
Qed.

(** The calls end with the state of the resolution, but for counters and the ledger. *)
Lemma call_parts now r address n :
  let n1 := snd (resolved modules service_hle now r address n) in
  let same n' := tag_part n' = tag_part n1 /\ binding_part n' = binding_part n1 in
  same (snd (cdi_native_has_address modules service_hle now r address n)) /\
  same (snd (cdi_native_dispatch modules service_hle now r address n)) /\
  (forall n', snd (cdi_native_record_target modules service_hle now r address n) = Some n' -> same n').
Proof.
  unfold cdi_native_has_address, cdi_native_dispatch, cdi_native_record_target.
  destruct (resolved modules service_hle now r address n) as [[[[[b m] x]|]|e] n1]; cbn [snd].
  - split; [done|]. split; [by destruct (negb _)|]. intros n' Hn.
    destruct (m_has_offset x _); [by injection Hn as <-|]. cbn [snd] in Hn. unfold record_target in Hn.
    destruct (probe _ _ _ _ _) as [[i|slot]|]; [by injection Hn as <-| |done].
    destruct (_ =? TARGET_CAPACITY); by injection Hn as <-.
  - by split_and!; [..|intros n' [= <-]].
  - by split_and!; [..|intros n' [= <-]].
Qed.

Lemma newer_part n n' n'' : binding_part n'' = binding_part n' -> newer n n' -> newer n n''.
Proof. intros E [H1 H2]. injection E as E1 _ E3. split; rewrite ?E1, ?E3; done. Qed.

Lemma call_ok now r address n n' :
  native_ok modules service_hle r n -> 0 <= epoch n < 2 ^ 64 - 1 -> 0 <= address -> no_modules modules = false ->
  let n1 := snd (resolved modules service_hle now r address n) in
  tag_part n' = tag_part n1 -> binding_part n' = binding_part n1 ->
  native_ok modules service_hle r n' /\ evolves 1 (r, n) (r, n').
Proof.
  intros Hok He Ha Hm n1 Et Eb. pose proof (resolved_ok now r address n Hok He Ha Hm) as Hp.
  unfold n1 in *. destruct (resolved modules service_hle now r address n) as [x n2]. cbn [snd] in *.
  destruct Hp as (Hok2 & Hnew & _). split; [by apply (native_ok_part r n2)|].
  apply evolves_newer. by apply (newer_part n n2).
Qed.

(** ** One operation *)
Lemma notify_no_bindings now address size r n :
  no_modules modules = false -> bindings n = [] -> 0 <= address -> 0 < size -> ram_ok address size = true ->
  let n' := cdi_native_notify_write modules service_hle now address size r n in
  bindings n' = [] /\ epoch n' = epoch n.
Proof.
  intros Hm E1 Ha Hs Hr n'. unfold n'.
  rewrite (notify_eq modules service_hle now address size r) by (done || rewrite E1; constructor).
  rewrite revoke_none by (rewrite E1; done).
  pose proof (retag_words_part (Z.to_nat ((address + size - Z.ldiff address 1 + 1) / 2)) r (Z.ldiff address 1) n) as Ep.
  injection Ep as -> _ ->. done.
Qed.

Lemma reset_evolves now r n :
  0 <= epoch n -> no_modules modules = false ->
  native_ok modules service_hle r (cdi_native_reset modules service_hle now r n) /\
  evolves 0 (r, n) (r, cdi_native_reset modules service_hle now r n).
Proof.
  intros He Hm. pose proof (reset_ok modules service_hle now r n Hm) as Hok. split; [done|].
  unfold cdi_native_reset. set (n0 := set_target_indices ∅ _).
  assert (bindings n0 = [] /\ epoch n0 = epoch n) as [E0 Ee] by (unfold n0; by destruct service_hle).
  destruct (notify_no_bindings now CDI_RAM0_BASE CDI_RAM0_SIZE r n0 Hm E0 ltac:(done) ltac:(done) eq_refl) as [E1 Ee1].
  destruct (notify_no_bindings now CDI_RAM1_BASE CDI_RAM1_SIZE r _ Hm E1 ltac:(done) ltac:(done) eq_refl) as [E2 Ee2].
  split; cbn [snd fst]; [lia|]. intros i b Hi. by rewrite E2 in Hi.
Qed.

Lemma perform_ok now o r n :
  no_modules modules = false -> op_ok o = true -> native_ok modules service_hle r n ->
  0 <= epoch n < 2 ^ 64 - 1 ->
  let x' := perform now o (r, n) in
  native_ok modules service_hle (fst x') (snd x') /\ evolves 1 (r, n) x'.
Proof.
  intros Hm Ho Hok He.
  assert (forall x', evolves 0 (r, n) x' -> evolves 1 (r, n) x') as Hweak.
  { intros x' [H1 H2]. split; [lia|done]. }
  destruct o as [address bytes| |a|a|a]; cbn [op_ok] in Ho.
  - apply andb_true_iff in Ho as [Ha%Z.leb_le Hr]. destruct bytes as [|b0 bytes].
    + cbn [perform fst snd]. assert (write_ram address [] r = r) as ->
        by (unfold write_ram; by destruct (_ <? _), r).
      unfold cdi_native_notify_write. cbn [length Z.of_nat Z.eqb]. rewrite orb_true_r. cbn [orb].
      split; [done|]. apply Hweak, evolves_refl.
    + split; [|by apply Hweak, evolves_write]. cbn [perform fst snd].
      apply (notify_ok modules service_hle now address _ r); try done. by apply write_ram_outside.
  - destruct (reset_evolves now r n ltac:(lia) Hm). split; [done|]. by apply Hweak.
  - apply Z.leb_le in Ho. destruct (call_parts now r a n) as ((E1 & E2) & _). cbn [perform fst snd].
    by apply (call_ok now r a n).
  - apply Z.leb_le in Ho. destruct (call_parts now r a n) as (_ & (E1 & E2) & _). cbn [perform fst snd].
    by apply (call_ok now r a n).
  - apply Z.leb_le in Ho. destruct (call_parts now r a n) as (_ & _ & Hc). cbn [perform fst snd].
    destruct (snd (cdi_native_record_target modules service_hle now r a n)) as [n'|]; cbn [default].
    + destruct (Hc n' eq_refl) as [E1 E2]. by apply (call_ok now r a n).
    + split; [done|]. apply Hweak, evolves_refl.
Qed.

Lemma run_ok now os r n :
  no_modules modules = false -> Forall (fun o => op_ok o = true) os -> native_ok modules service_hle r n ->
  0 <= epoch n -> epoch n + Z.of_nat (length os) < 2 ^ 64 ->
  let x' := run now os (r, n) in
  native_ok modules service_hle (fst x') (snd x') /\ evolves (Z.of_nat (length os)) (r, n) x'.
Proof.
  intros Hm Hos. revert r n. induction Hos as [|o os Ho _ IH]; intros r n Hok H0 He; cbn [run].
  - split; [done|]. apply evolves_refl.
  - cbn [length] in He. destruct (perform_ok now o r n Hm Ho Hok ltac:(lia)) as [Hok1 Hev1].
    destruct (perform now o (r, n)) as [r1 n1]. cbn [fst snd] in *. pose proof (proj1 Hev1) as Hb. cbn [snd] in Hb.
    specialize (IH r1 n1 Hok1 ltac:(lia) ltac:(lia)). destruct IH as [Hok2 Hev2]. split; [done|].
    replace (Z.of_nat (length (o :: os))) with (1 + Z.of_nat (length os)) by (cbn [length]; lia).
    by apply (evolves_trans 1 (Z.of_nat (length os)) _ (r1, n1)).
Qed.

Lemma started_run_ok now os r n :
  no_modules modules = false -> Forall (fun o => op_ok o = true) os ->
  0 <= epoch n -> epoch n + Z.of_nat (length os) + 1 < 2 ^ 64 ->
  let '(r', n') := run now os (started now r n) in
  native_ok modules service_hle r' n' /\ 0 <= epoch n' < 2 ^ 64 - 1.
Proof.
  intros Hm Hos H0 He. destruct (reset_evolves now r n H0 Hm) as [Hok [Hb _]]. cbn [snd] in Hb. unfold started.
  destruct (run_ok now os r _ Hm Hos Hok ltac:(lia) ltac:(lia)) as [Hok' [Hb' _]].
  destruct (run now os _) as [r' n']. cbn [fst snd] in *. split; [done|]. lia.
Qed.

(** ** Tokens *)
Lemma token_decode b i :
  (i < BINDING_CAPACITY)%nat ->
  Z.land (token_of b i) 0xffff = Z.of_nat i + 1 /\ Z.shiftr (token_of b i) 16 = b_epoch b mod 2 ^ 48.
Proof.
  intros Hi. unfold BINDING_CAPACITY in Hi. unfold token_of.
  assert (u64 (Z.shiftl (b_epoch b) 16) = Z.shiftl (b_epoch b mod 2 ^ 48) 16) as ->.
  { rewrite !Z.shiftl_mul_pow2 by lia. unfold u64. change 0x10000000000000000 with (2 ^ 48 * 2 ^ 16).
    by rewrite Z.mul_mod_distr_r by lia. }
  rewrite lor_shiftl_add by (unfold is_word; lia).
  change 0xffff with (Z.ones 16). rewrite Z.land_ones, Z.shiftr_div_pow2 by lia. change (2 ^ 16) with 65536. split.
  - rewrite Z.add_comm, Z.mod_add, Z.mod_small by lia. lia.
  - rewrite Z.div_add_l, (Z.div_small (Z.of_nat i + 1)) by lia. lia.
Qed.

Lemma token_issued base expected n :
  cdi_native_execution_token modules base expected n <> 0 ->
  exists i b, bindings n !! i = Some b /\ b_valid b = true /\ b_base b = base /\
    dispatches_by modules expected b = true /\ cdi_native_execution_token modules base expected n = token_of b i.
Proof.
  unfold cdi_native_execution_token. intros H.
  destruct (find_index _ (bindings n) 0) as [i|] eqn:Ef; [|done]. apply find_index_0 in Ef as (b & Hi & Hp).
  rewrite Hi in *. apply andb_true_iff in Hp as [[Hv Hb%Z.eqb_eq]%andb_true_iff Hd]. by exists i, b.
Qed.

Lemma instruction_valid_binding address expected token n :
  cdi_native_instruction_valid modules address expected token n = true ->
  exists b, bindings n !! Z.to_nat (Z.land token 0xffff - 1) = Some b /\ b_valid b = true /\
    b_epoch b = Z.shiftr token 16 /\ dispatches_by modules expected b = true /\
    address mod 2 = 0 /\ b_base b <= address < b_base b + b_size b.
Proof.
  unfold cdi_native_instruction_valid. destruct (_ || _); [done|].
  destruct (bindings n !! _) as [b|]; [|done].
  intros (((((Hv & He%Z.eqb_eq)%andb_true_iff & Hd)%andb_true_iff & Ha)%andb_true_iff & Hb%Z.leb_le)%andb_true_iff &
    Hs%Z.ltb_lt)%andb_true_iff.
  exists b. split; [done|]. split; [done|]. split; [done|]. split; [done|]. split; [|lia].
  apply negb_true_iff in Ha. unfold z2b in Ha. apply negb_false_iff, Z.eqb_eq in Ha.
  change 1 with (Z.ones 1) in Ha. by rewrite Z.land_ones in Ha by lia.
Qed.

(** A token accepted later is of a binding that has stayed over bytes that have
    stayed. *)
Lemma token_current d r1 n1 r2 n2 base expected address :
  native_ok modules service_hle r1 n1 -> native_ok modules service_hle r2 n2 -> evolves d (r1, n1) (r2, n2) ->
  let token := cdi_native_execution_token modules base expected n1 in
  token <> 0 -> cdi_native_instruction_valid modules address expected token n2 = true ->
  exists size m md, image modules r1 base size m /\ image modules r2 base size m /\ modules !! m = Some md /\
    m_dispatch md = expected /\ address mod 2 = 0 /\ base <= address < base + size /\
    forall a, base <= a < base + size -> ram_byte r2 a = ram_byte r1 a.
Proof.
  intros Hok1 Hok2 [_ Hev] token Ht Hv. destruct (token_issued base expected n1 Ht) as (i & b & Hi & Hvb & Hb & Hd & Et).
  assert (i < BINDING_CAPACITY)%nat as Hic.
  { pose proof (ok_room _ _ _ _ Hok1). apply lookup_lt_Some in Hi. lia. }
  destruct (token_decode b i Hic) as [E1 E2]. destruct (instruction_valid_binding _ _ _ _ Hv) as (b2 & Hi2 & Hv2 & He2 & Hd2 & Heven & Hr).
  unfold token in *. rewrite Et, E1 in Hi2. rewrite Et, E2 in He2.
  replace (Z.to_nat (Z.of_nat i + 1 - 1)) with i in Hi2 by lia.
  pose proof (Forall_lookup_1 _ _ _ _ (ok_epochs _ _ _ _ Hok1) Hi) as [He1 _].
  destruct (Hev i b2 Hi2 Hv2) as [Hlt|[Hi1 Hsame]]; cbn [fst snd] in *.
  { exfalso. pose proof (Z.mod_le (b_epoch b) (2 ^ 48) ltac:(lia) ltac:(lia)). lia. }
  rewrite Hi in Hi1. injection Hi1 as <-. rewrite Hb in *.
  assert (forall r n, native_ok modules service_hle r n -> bindings n !! i = Some b ->
    exists m, b_module b = Some m /\ image modules r base (b_size b) m) as Hbi.
  { intros r n Hok Hib. pose proof (Forall_lookup_1 _ _ _ _ (ok_bindings _ _ _ _ Hok) Hib) as [_ _ _ Hc Hcand Hid Hm].
    specialize (Hc Hvb). specialize (Hid Hc). rewrite Hvb, Hb in Hid. specialize (Hcand Hc). rewrite Hb in Hcand.
    destruct (b_module b) as [m|]; [by exists m|by destruct Hm]. }
  destruct (Hbi r1 n1 Hok1 Hi) as (m & Em & Him1). destruct (Hbi r2 n2 Hok2 Hi2) as (m' & Em' & Him2).
  assert (m' = m) as -> by congruence. unfold dispatches_by in Hd. rewrite Em in Hd.
  destruct (modules !! m) as [md|] eqn:Emd; [|done]. apply Z.eqb_eq in Hd.
  exists (b_size b), m, md. split; [exact Him1|]. split; [exact Him2|]. split; [exact Emd|]. split; [exact Hd|].
  split; [exact Heven|]. split; [exact Hr|exact Hsame].
Qed.

(** * The claims *)

(** C12. Native code runs only over the image it was compiled from: after any
    sequence of loader writes, resets, queries, dispatches and records, a dispatch
    that calls generated code calls the dispatcher of a module of the catalogue
    whose digest is that of the bytes in RAM at this moment, at the base it is
    given, for an even address inside the image that the module covers. *)
Theorem dispatch_runs_identified_code now now' os r n address d base offset :
  no_modules modules = false -> Forall (fun o => op_ok o = true) os -> 0 <= address ->
  0 <= epoch n -> epoch n + Z.of_nat (length os) + 1 < 2 ^ 64 ->
  let '(r', n') := run now os (started now r n) in
  fst (cdi_native_dispatch modules service_hle now' r' address n') = Ok (Some (d, base, offset)) ->
  exists m, In m modules /\ m_dispatch m = d /\ m_has_offset m offset = true /\
    address = base + offset /\ address mod 2 = 0 /\ 0 <= offset < m_size m /\
    ram_ok base (m_size m) = true /\ m_sha256 m = cdi_sha256 (ram_bytes r' base (m_size m)).
Proof.
  intros Hm Hos Ha H0 He. pose proof (started_run_ok now os r n Hm Hos H0 He) as Hrun.
  destruct (run now os (started now r n)) as [r' n']. destruct Hrun as [Hok Hep]. intros Hd.
  pose proof (resolved_ok now' r' address n' Hok Hep Ha Hm) as Hp. unfold cdi_native_dispatch in Hd.
  destruct (resolved modules service_hle now' r' address n') as [[[[[b m] md]|]|e] n1]; [|done..].
  destruct Hp as (_ & _ & Heven & _ & [_ Hr]%contains_spec & _ & Hmd & [Hc Hid]).
  destruct (m_has_offset md (address - b_base b)) eqn:Eo; [|done]. cbn in Hd. injection Hd as <- <- <-.
  exists md. apply find_index_0 in Hid as (md' & Hmd' & [Hs%Z.eqb_eq Hsha%bool_decide_eq_true]%andb_true_iff).
  rewrite Hmd in Hmd'. injection Hmd' as <-. rewrite Hs.
  split; [apply list_elem_of_In; by apply list_elem_of_lookup_2 in Hmd|].
  split; [done|]. split; [done|]. split; [lia|]. split; [done|]. split; [lia|]. split; [apply Hc|done].
Qed.

(** C13. The cached resolution answers as a scan of all of RAM would: at any point of
    any run an even address is resolved exactly when some well-formed image of the
    catalogue lies over it in RAM, to such an image, unless the table of bindings
    is full, which aborts. *)
Theorem resolution_is_full_scan now now' os r n address :
  no_modules modules = false -> Forall (fun o => op_ok o = true) os -> 0 <= address ->
  0 <= epoch n -> epoch n + Z.of_nat (length os) + 1 < 2 ^ 64 ->
  let '(r', n') := run now os (started now r n) in
  let '(x, n1) := resolved modules service_hle now' r' address n' in
  match x with
  | Ok (Some (b, m, md)) =>
    address mod 2 = 0 /\ b_base b <= address < b_base b + b_size b /\
    modules !! m = Some md /\ image modules r' (b_base b) (b_size b) m
  | Ok None => address mod 2 = 1 \/ forall base, ~ image_covers modules r' base address
  | Exn e => e = EAbort /\ length (bindings n1) = BINDING_CAPACITY
  end.
Proof.
  intros Hm Hos Ha H0 He. pose proof (started_run_ok now os r n Hm Hos H0 He) as Hrun.
  destruct (run now os (started now r n)) as [r' n']. destruct Hrun as [Hok Hep].
  pose proof (resolved_ok now' r' address n' Hok Hep Ha Hm) as Hp.
  destruct (resolved modules service_hle now' r' address n') as [[[[[b m] md]|]|e] n1]; [|apply Hp..].
  destruct Hp as (_ & _ & Heven & _ & [_ Hr]%contains_spec & _ & Hmd & Hi). done.
Qed.

(** C14. Stale generated code is stopped: if a token issued for a module at a base is
    accepted after any further run, for an instruction of the module, then every
    byte of the image is what it was when the token was issued, and the image is
    still the module's. *)
Theorem token_means_unchanged_image now os os' r n base expected address :
  no_modules modules = false -> Forall (fun o => op_ok o = true) (os ++ os') ->
  0 <= epoch n -> epoch n + Z.of_nat (length (os ++ os')) + 1 < 2 ^ 64 ->
  let '(r1, n1) := run now os (started now r n) in
  let '(r2, n2) := run now os' (r1, n1) in
  let token := cdi_native_execution_token modules base expected n1 in
  token <> 0 -> cdi_native_instruction_valid modules address expected token n2 = true ->
  exists size m md, image modules r1 base size m /\ image modules r2 base size m /\ modules !! m = Some md /\
    m_dispatch md = expected /\ address mod 2 = 0 /\ base <= address < base + size /\
    forall a, base <= a < base + size -> ram_byte r2 a = ram_byte r1 a.
Proof.
  intros Hm Hos H0 He. rewrite length_app in He. apply Forall_app in Hos as [Hos Hos'].
  destruct (reset_evolves now r n H0 Hm) as [Hok0 [Hb0 _]]. cbn [snd] in Hb0.
  destruct (run_ok now os r _ Hm Hos Hok0 ltac:(lia) ltac:(lia)) as [Hok1 [Hb1 _]].
  unfold started. destruct (run now os _) as [r1 n1]. cbn [fst snd] in *.
  destruct (run_ok now os' r1 n1 Hm Hos' Hok1 ltac:(lia) ltac:(lia)) as [Hok2 Hev].
  destruct (run now os' (r1, n1)) as [r2 n2]. cbn [fst snd] in *. by apply (token_current (Z.of_nat (length os')) r1 n1 r2 n2).
Qed.
End Catalogue.

(** ** A small catalogue *)
Definition sample_image : list Z := [
  0x4a;0xfc;0;0;0;0;0;0x40;0;0;0;0;0;0;0;0x38; 0;0;1;1;0;0;0;0;0;0;0;0;0;0;0;0;
  0;0;0;0;0;0;0;0;0;0;0;0;0;0;0xb4;0x7a; 0;0;0;0x34;0x70;1;0x4e;0x75;0x74;0x65;0x73;0x74;0xb1;0xaa;0xbb;1 ].
Definition sample_module : CdiNativeModule :=
  mkModule 64 [0x2e;0xba;0x2a;0x05;0x14;0xd8;0x9c;0x08;0xd0;0x4d;0x6f;0xb3;0xd3;0xfa;0xa3;0xcc;
               0x3c;0xd1;0xb5;0xa5;0x0b;0xd4;0x8b;0x2c;0x45;0x30;0x2d;0x6b;0x24;0xdd;0xc9;0x35]
    (fun offset => (offset =? 52) || (offset =? 54)) 1 [(52, 7)].
Definition sample_native : Native :=
  mkNative ∅ ∅ 0 [] ((0, 0), (0, 0)) (mkStats 0 0 0 0 0 0) 0 0 0 ∅ [] ∅ 0.
Definition sample_moment : Moment := mkMoment 0 0 0 0.
(** The loader copies the image in two parts, and code in it is looked up between
    and after them. *)
Definition sample_load : list native_op :=
  [Write 0x2000 (take 60 sample_image); HasAddress 0x2034; Write 0x203C (drop 60 sample_image);
   HasAddress 0x2034].

(** A reset over a RAM of zeros finds no tag. *)
Lemma retag_words_empty count a n :
  tag_indices n = ∅ -> retag_words count (mkRam ∅ ∅) a n = n.
Proof.
  intros E. revert a. induction count as [|count IH]; intros a; [done|]. cbn [retag_words].
  replace (retag (mkRam ∅ ∅) a n) with n; [apply IH|]. unfold retag. rewrite E.
  assert (sync_word (mkRam ∅ ∅) a = false) as ->.
  { unfold sync_word, ram_byte. by destruct (a <? CDI_RAM0_SIZE). }
  by destruct (negb (ram_ok a 2)).
Qed.
Definition sample_reset : Native :=
  mkNative ∅ ∅ 0 [] ((UINT32_MAX, 0), (UINT32_MAX, 0)) (mkStats 0 0 0 0 0 1) 0 1 0 ∅ [] ∅ 0.
Lemma notify_empty modules hle now address size n :
  tag_indices n = ∅ -> bindings n = [] ->
  cdi_native_notify_write modules hle now address size (mkRam ∅ ∅) n = n.
Proof.
  intros Et Eb. unfold cdi_native_notify_write. destruct (_ || _); [done|].
  assert (revoke now address (address + size) n = n) as Er by (apply revoke_none; by rewrite Eb).
  rewrite Er. destruct (_ || _); by apply retag_words_empty.
Qed.
Lemma reset_empty modules hle now n :
  cdi_native_reset modules hle now (mkRam ∅ ∅) n =
  mkNative (tags n) ∅ 0 [] (if hle then ((UINT32_MAX, 0), (UINT32_MAX, 0)) else binding_ranges n)
    (mkStats 0 0 0 0 0 (u32 (Z.of_nat (length modules)))) (epoch n) (u64 (invalidation_epoch n + 1)) 0
    (events n) [] ∅ 0.
Proof.
  unfold cdi_native_reset. set (n0 := set_target_indices ∅ _).
  assert (tag_indices n0 = ∅ /\ bindings n0 = []) as [Et Eb] by (unfold n0; by destruct hle).
  rewrite (notify_empty modules hle now CDI_RAM0_BASE CDI_RAM0_SIZE n0 Et Eb).
  rewrite (notify_empty modules hle now CDI_RAM1_BASE CDI_RAM1_SIZE n0 Et Eb).
  unfold n0. by destruct hle.
Qed.
Lemma sample_started :
  started [sample_module] true sample_moment (mkRam ∅ ∅) sample_native = (mkRam ∅ ∅, sample_reset).
Proof. unfold started. by rewrite reset_empty. Qed.
Lemma sample_load_ok : Forall (fun o => op_ok o = true) sample_load.
Proof. repeat (constructor; [reflexivity|]). constructor. Qed.
Definition sample_run := run [sample_module] true sample_moment sample_load (mkRam ∅ ∅, sample_reset).

Lemma sample_run_eq :
  run [sample_module] true sample_moment sample_load
    (started [sample_module] true sample_moment (mkRam ∅ ∅) sample_native) = sample_run.
Proof. by rewrite sample_started. Qed.

Lemma dispatch_runs_identified_code_witness :
  exists m, In m [sample_module] /\ m_dispatch m = 1 /\ m_has_offset m 54 = true /\
    0x2036 = 0x2000 + 54 /\ 0x2036 mod 2 = 0 /\ 0 <= 54 < m_size m /\
    ram_ok 0x2000 (m_size m) = true /\
    m_sha256 m = cdi_sha256 (ram_bytes (fst sample_run) 0x2000 (m_size m)).
Proof.
  pose proof (dispatch_runs_identified_code [sample_module] true sample_moment sample_moment sample_load
    (mkRam ∅ ∅) sample_native 0x2036 1 0x2000 54 eq_refl sample_load_ok
    ltac:(discriminate) ltac:(discriminate) eq_refl) as H.
  rewrite sample_run_eq in H. rewrite (surjective_pairing sample_run) in H.
  apply H. vm_compute. reflexivity.
Defined.

Definition sample_binding : Binding := mkBinding 0x2000 64 1 (Some 0%nat) true true.
Lemma resolution_is_full_scan_witness :
  fst (resolved [sample_module] true sample_moment (fst sample_run) 0x2036 (snd sample_run)) =
    Ok (Some (sample_binding, 0%nat, sample_module)) /\
  image [sample_module] (fst sample_run) 0x2000 64 0.
Proof.
  pose proof (resolution_is_full_scan [sample_module] true sample_moment sample_moment sample_load
    (mkRam ∅ ∅) sample_native 0x2036 eq_refl sample_load_ok
    ltac:(discriminate) ltac:(discriminate) eq_refl) as H.
  rewrite sample_run_eq in H. rewrite (surjective_pairing sample_run) in H.
  cbv beta iota in H. set (x := resolved _ _ _ _ _ _) in H.
  assert (fst x = Ok (Some (sample_binding, 0%nat, sample_module))) as E by (vm_compute; reflexivity).
  split; [exact E|]. rewrite (surjective_pairing x), E in H. exact (proj2 (proj2 (proj2 H))).
Defined.

Lemma token_means_unchanged_image_witness :
  let '(r2, n2) := run [sample_module] true sample_moment [Write 0x2044 [1; 2]] sample_run in
  let token := cdi_native_execution_token [sample_module] 0x2000 1 (snd sample_run) in
  token = 0x10001 /\
  exists size m md, image [sample_module] (fst sample_run) 0x2000 size m /\
    image [sample_module] r2 0x2000 size m /\ [sample_module] !! m = Some md /\
    m_dispatch md = 1 /\ 0x2034 mod 2 = 0 /\ 0x2000 <= 0x2034 < 0x2000 + size /\
    forall a, 0x2000 <= a < 0x2000 + size -> ram_byte r2 a = ram_byte (fst sample_run) a.
Proof.
  pose proof (token_means_unchanged_image [sample_module] true sample_moment sample_load [Write 0x2044 [1; 2]]
    (mkRam ∅ ∅) sample_native 0x2000 1 0x2034 eq_refl
    ltac:(apply Forall_app; split; [apply sample_load_ok|repeat (constructor; [reflexivity|]); constructor])
    ltac:(discriminate) eq_refl) as H.
  rewrite sample_run_eq in H.
  rewrite (surjective_pairing sample_run) in H. cbv beta iota in H.
  rewrite <- (surjective_pairing sample_run) in H. set (x := run _ _ _ [Write _ _] sample_run) in *.
  rewrite (surjective_pairing x) in H. rewrite (surjective_pairing x).
  split; [vm_compute; reflexivity|]. apply H; vm_compute; [discriminate|reflexivity].
Defined.
