(* ===== verification/NativeBuilds.v ===== *)
(** The build that keeps the bounds of its bindings against the one that searches
    them all on every write: no call and no record tells them apart. *)

From Stdlib Require Import ZArith Lia Bool.
From stdpp Require Import base tactics numbers list gmap.
From S2P Require Import Prelude Sha256 Native NativeTags NativeSpec NativeRun.
Open Scope Z_scope.

Section Builds.
Context (modules : list CdiNativeModule) (v : (Z * Z) * (Z * Z)).

(** The state of the build without bounds: its ranges stay [v]. *)
Abbreviation plain := (set_binding_ranges v).

Lemma plain_cover base size n : plain (cover_binding base size n) = plain n.
Proof. unfold cover_binding. by destruct (range_of base n). Qed.

Lemma plain_retag r a n : retag r a (plain n) = plain (retag r a n).
Proof.
  unfold retag. destruct (negb (ram_ok a 2)); [done|].
  change (tag_indices (plain n)) with (tag_indices n).
  destruct (sync_word r a); [by destruct (negb (z2b _))|by destruct (z2b _)].
Qed.
Lemma plain_retag_words count r a n : retag_words count r a (plain n) = plain (retag_words count r a n).
Proof.
  revert a n. induction count as [|count IH]; intros a n; [done|]. cbn [retag_words].
  by rewrite plain_retag, IH.
Qed.

Lemma plain_revoke_one now b n : revoke_one now b (plain n) = plain (revoke_one now b n).
Proof. unfold revoke_one. by destruct (b_valid b). Qed.
Lemma plain_revoke_loop now address last bs n :
  revoke_loop now address last bs (plain n) =
  (fst (revoke_loop now address last bs n), plain (snd (revoke_loop now address last bs n))).
Proof.
  revert n. induction bs as [|b bs IH]; intros n; [done|]. cbn [revoke_loop].
  destruct (overlaps address last b).
  - rewrite plain_revoke_one, IH. by destruct (revoke_loop now address last bs (revoke_one now b n)).
  - rewrite IH. by destruct (revoke_loop now address last bs n).
Qed.
Lemma plain_revoke now address last n : revoke now address last (plain n) = plain (revoke now address last n).
Proof.
  unfold revoke. change (bindings (plain n)) with (bindings n). rewrite plain_revoke_loop.
  by destruct (revoke_loop now address last (bindings n) n).
Qed.

(** ** Writes and resets *)
Lemma plain_notify now address size r r' n :
  no_modules modules = false -> 0 <= address -> 0 < size -> ram_ok address size = true ->
  Forall (binding_ok modules r) (bindings n) -> Forall (covered n) (bindings n) ->
  cdi_native_notify_write modules false now address size r' (plain n) =
  plain (cdi_native_notify_write modules true now address size r' n).
Proof.
  intros Hm Ha Hs Hr Hb Hc. rewrite (notify_eq modules true now address size r) by done.
  rewrite (notify_eq modules false now address size r) by done.
  by rewrite plain_revoke, plain_retag_words.
Qed.

Lemma plain_notify_twice now a1 s1 a2 s2 r n :
  no_modules modules = false -> bindings n = [] ->
  0 <= a1 -> 0 < s1 -> ram_ok a1 s1 = true -> 0 <= a2 -> 0 < s2 -> ram_ok a2 s2 = true ->
  cdi_native_notify_write modules false now a2 s2 r
    (cdi_native_notify_write modules false now a1 s1 r (plain n)) =
  plain (cdi_native_notify_write modules true now a2 s2 r (cdi_native_notify_write modules true now a1 s1 r n)).
Proof.
  intros Hm E0 Ha1 Hs1 Hr1 Ha2 Hs2 Hr2.
  destruct (notify_no_bindings modules true now a1 s1 r n Hm E0 Ha1 Hs1 Hr1) as [E1 _].
  rewrite (plain_notify now a1 s1 r r) by (done || (rewrite E0; constructor)).
  by rewrite (plain_notify now a2 s2 r r) by (done || (rewrite E1; constructor)).
Qed.

(** The state a reset scans RAM from. *)
Lemma plain_reset now r n :
  no_modules modules = false ->
  cdi_native_reset modules false now r (plain n) = plain (cdi_native_reset modules true now r n).
Proof.
  intros Hm. unfold cdi_native_reset. cbv zeta. set (n0 := set_target_indices ∅ _).
  set (n1 := set_target_indices ∅ _). assert (n0 = plain n1) as E by reflexivity. rewrite E.
  apply plain_notify_twice; try done.
Qed.

(** ** Identification *)
Lemma plain_identify now r i base size n :
  identify modules false now r i base size (plain n) =
  (fst (identify modules true now r i base size n), plain (snd (identify modules true now r i base size n))).
Proof.
  unfold identify. change (bindings (plain n)) with (bindings n).
  set (b := mkBinding base size _ None true false).
  pose proof (plain_cover base size (put_binding i b n)) as Ec.
  change (put_binding i b (plain n)) with (plain (put_binding i b n)). rewrite <- Ec.
  set (n1 := cover_binding base size (put_binding i b n)).
  by destruct (find_index _ modules 0).
Qed.

Lemma plain_try_tag now r address base n :
  try_tag modules false now r address base (plain n) =
  (fst (try_tag modules true now r address base n), plain (snd (try_tag modules true now r address base n))).
Proof.
  unfold try_tag. destruct (address <? base); [done|]. destruct (negb (ram_ok base 0x30)); [done|].
  cbv zeta. set (size := ram_be32 r (base + 4)). destruct (_ || _); [done|].
  change (cached base (plain n)) with (cached base n). change (bindings (plain n)) with (bindings n).
  destruct (match cached base n with Some i => _ | None => false end); [done|].
  destruct (negb (possible modules size)); [done|]. destruct (negb (parity_ok r base)); [done|].
  destruct (cached base n) as [i|].
  - rewrite plain_identify. by destruct (identify modules true now r i base size n).
  - destruct (_ <=? _)%nat; [done|].
    change (set_bindings (bindings n ++ [mkBinding base 0 0 None false false]) (plain n))
      with (plain (set_bindings (bindings n ++ [mkBinding base 0 0 None false false]) n)).
    rewrite plain_identify. by destruct (identify modules true now r _ base size _).
Qed.

Lemma plain_try_tags count now r address i n :
  try_tags modules false count now r address i (plain n) =
  (fst (try_tags modules true count now r address i n), plain (snd (try_tags modules true count now r address i n))).
Proof.
  revert i n. induction count as [|count IH]; intros i n; [done|]. cbn [try_tags].
  change (tags (plain n)) with (tags n). rewrite plain_try_tag.
  destruct (try_tag modules true now r address (mget (tags n) i) n) as [[[j|]|e] n1]; cbn [fst snd]; [done| |done].
  apply IH.
Qed.

Lemma plain_resolve now r address n :
  resolve modules false now r address (plain n) =
  (fst (resolve modules true now r address n), plain (snd (resolve modules true now r address n))).
Proof.
  unfold resolve. change (bindings (plain n)) with (bindings n).
  destruct (find_index (contains address) (bindings n) 0); [done|].
  destruct (negb (ram_ok address 2)); [done|]. apply plain_try_tags.
Qed.

Lemma plain_resolved now r address n :
  resolved modules false now r address (plain n) =
  (fst (resolved modules true now r address n), plain (snd (resolved modules true now r address n))).
Proof.
  unfold resolved. destruct (_ || _); [done|]. rewrite plain_resolve.
  by destruct (resolve modules true now r address n) as [[[i|]|e] n1].
Qed.

(** ** The calls *)
Lemma plain_calls now r address n :
  cdi_native_has_address modules false now r address (plain n) =
  (fst (cdi_native_has_address modules true now r address n),
   plain (snd (cdi_native_has_address modules true now r address n))) /\
  cdi_native_dispatch modules false now r address (plain n) =
  (fst (cdi_native_dispatch modules true now r address n),
   plain (snd (cdi_native_dispatch modules true now r address n))) /\
  cdi_native_record_target modules false now r address (plain n) =
  (fst (cdi_native_record_target modules true now r address n),
   option_map plain (snd (cdi_native_record_target modules true now r address n))).
Proof.
  unfold cdi_native_has_address, cdi_native_dispatch, cdi_native_record_target. rewrite plain_resolved.
  destruct (resolved modules true now r address n) as [[[[[b m] x]|]|e] n1]; cbn [fst snd]; [|done..].
  split; [done|]. split; [by destruct (negb _)|]. destruct (m_has_offset x _); [done|].
  cbn [fst snd]. f_equal. unfold record_target.
  assert (forall fuel mo o slot, probe fuel mo o slot (plain n1) = probe fuel mo o slot n1) as Ep.
  { intros fuel mo o. induction fuel as [|fuel IH]; intros slot; [done|]. cbn [probe].
    change (target_indices (plain n1)) with (target_indices n1). change (targets (plain n1)) with (targets n1).
    destruct (negb _); [done|]. destruct (targets n1 !! _); [|done]. by destruct (target_is _ _ _). }
  rewrite Ep. change (targets (plain n1)) with (targets n1).
  destruct (probe _ _ _ _ n1) as [[i|slot]|]; [done| |done]. by destruct (_ =? TARGET_CAPACITY).
Qed.

Lemma plain_perform now o r n :
  no_modules modules = false -> op_ok o = true -> native_ok modules true r n ->
  perform modules false now o (r, plain n) =
  (fst (perform modules true now o (r, n)), plain (snd (perform modules true now o (r, n)))).
Proof.
  intros Hm Ho Hok. destruct o as [address bytes| |a|a|a]; cbn [op_ok perform fst snd] in *.
  - apply andb_true_iff in Ho as [Ha%Z.leb_le Hr]. f_equal. destruct bytes as [|b0 bytes].
    + unfold cdi_native_notify_write. cbn [length Z.of_nat Z.eqb]. by rewrite !orb_true_r.
    + apply (plain_notify now address _ r); try done; [apply Hok|]. by apply Hok.
  - f_equal. by apply plain_reset.
  - f_equal. destruct (plain_calls now r a n) as (-> & _). done.
  - f_equal. destruct (plain_calls now r a n) as (_ & -> & _). done.
  - f_equal. destruct (plain_calls now r a n) as (_ & _ & ->). cbn [snd].
    by destruct (snd (cdi_native_record_target modules true now r a n)).
Qed.

Lemma plain_run now os r n :
  no_modules modules = false -> Forall (fun o => op_ok o = true) os -> native_ok modules true r n ->
  0 <= epoch n -> epoch n + Z.of_nat (length os) < 2 ^ 64 ->
  run modules false now os (r, plain n) =
  (fst (run modules true now os (r, n)), plain (snd (run modules true now os (r, n)))).
Proof.
  intros Hm Hos. revert r n. induction Hos as [|o os Ho _ IH]; intros r n Hok H0 He; [done|]. cbn [run].
  cbn [length] in He. rewrite plain_perform by done.
  destruct (perform_ok modules true now o r n Hm Ho Hok ltac:(lia)) as [Hok1 [Hb _]].
  destruct (perform modules true now o (r, n)) as [r1 n1]. cbn [fst snd] in *. apply IH; done || lia.
Qed.
End Builds.

(** C15. The conservative bounds are not observable: from the same start and through
    the same operations, the build that skips writes outside the bounds of its
    bindings and the build that searches every binding end with the same memory
    and the same state but for the bounds, and give the same answers. *)
Theorem binding_bounds_unobservable modules v now now' os r n address :
  no_modules modules = false -> Forall (fun o => op_ok o = true) os ->
  0 <= epoch n -> epoch n + Z.of_nat (length os) < 2 ^ 64 ->
  let '(r1, n1) := run modules true now os (started modules true now r n) in
  let '(r2, n2) := run modules false now os (started modules false now r (set_binding_ranges v n)) in
  r2 = r1 /\ n2 = set_binding_ranges v n1 /\
  fst (cdi_native_dispatch modules false now' r2 address n2) =
    fst (cdi_native_dispatch modules true now' r1 address n1) /\
  fst (cdi_native_has_address modules false now' r2 address n2) =
    fst (cdi_native_has_address modules true now' r1 address n1).
Proof.
  intros Hm Hos H0 He. unfold started. rewrite plain_reset by done.
  destruct (reset_evolves modules true now r n H0 Hm) as [Hok0 [Hb0 _]]. cbn [snd] in Hb0.
  rewrite (plain_run modules v now os r _ Hm Hos Hok0) by lia.
  destruct (run modules true now os _) as [r1 n1]. cbn [fst snd].
  destruct (plain_calls modules v now' r1 address n1) as (-> & -> & _). done.
Qed.

Lemma binding_bounds_unobservable_witness :
  fst (cdi_native_dispatch [sample_module] false sample_moment (fst sample_run) 0x2036
    (set_binding_ranges ((0, 0), (0, 0)) (snd sample_run))) = Ok (Some (1, 0x2000, 54)).
Proof.
  pose proof (binding_bounds_unobservable [sample_module] ((0, 0), (0, 0)) sample_moment sample_moment sample_load
    (mkRam ∅ ∅) sample_native 0x2036 eq_refl sample_load_ok ltac:(discriminate) eq_refl) as H.
  rewrite sample_run_eq in H. rewrite (surjective_pairing sample_run) in H. cbv beta iota in H.
  set (x := run _ false _ _ _) in H. rewrite (surjective_pairing x) in H. cbv beta iota in H.
  destruct H as (E1 & E2 & H & _). rewrite E1, E2 in H. rewrite H. vm_compute. reflexivity.
Defined.
