(* ===== verification/NativeTargets.v ===== *)
(** The ledger of uncovered targets: its hash index finds what a search of all the
    records would, and every probe ends. *)

From Stdlib Require Import ZArith Lia Bool.
From stdpp Require Import base tactics numbers list gmap.
From S2P Require Import Prelude Sha256 Native NativeTags NativeSpec.
Open Scope Z_scope.

(** * The reference: search and append *)
Record Ledger := mkLedger { l_targets : list CdiNativeTarget; l_dropped : Z }.

Definition record_reference (now : Moment) (b : Binding) (module offset : Z) (l : Ledger) : Ledger :=
  match find_index (target_is module offset) (l_targets l) 0 with
  | Some k => mkLedger (alter hit k (l_targets l)) (l_dropped l)
  | None =>
    if Z.of_nat (length (l_targets l)) =? TARGET_CAPACITY
    then mkLedger (l_targets l) (u64 (l_dropped l + 1))
    else mkLedger (l_targets l ++
      [mkTarget module offset (b_base b) (b_epoch b) (now_frame now) (now_trace_seq now) 1]) (l_dropped l)
  end.

Definition ledger_of (n : Native) : Ledger := mkLedger (targets n) (target_dropped n).

(** * The hash index *)
Definition index_size : Z := TARGET_INDEX_CAPACITY.
Definition on_path (h d : Z) : Z := (h + d) mod index_size.
Definition index_at (n : Native) (slot : Z) : Z := mget (target_indices n) slot.
Definition same_key (t t' : CdiNativeTarget) : Prop := t_module t = t_module t' /\ t_offset t = t_offset t'.
Definition home (t : CdiNativeTarget) : Z := target_hash (t_module t) (t_offset t).

Record ledger_ok (n : Native) : Prop := {
  led_room : Z.of_nat (length (targets n)) <= TARGET_CAPACITY;
  led_keys : forall j k t t', targets n !! j = Some t -> targets n !! k = Some t' -> same_key t t' -> j = k;
  led_range : forall s, 0 <= s < index_size -> 0 <= index_at n s <= Z.of_nat (length (targets n));
  led_inj : forall s s', 0 <= s < index_size -> 0 <= s' < index_size ->
    index_at n s <> 0 -> index_at n s = index_at n s' -> s = s';
  led_path : forall k t, targets n !! k = Some t -> exists d, 0 <= d /\
    index_at n (on_path (home t) d) = Z.of_nat k + 1 /\
    forall e, 0 <= e < d -> index_at n (on_path (home t) e) <> 0;
}.

Lemma index_size_eq : index_size = 2 ^ 19.
Proof. done. Qed.
Lemma on_path_range h d : 0 <= on_path h d < index_size.
Proof. apply Z.mod_pos_bound. done. Qed.
Lemma next_on_path h d : next_slot (on_path h d) = on_path h (d + 1).
Proof.
  unfold next_slot, on_path. change (TARGET_INDEX_CAPACITY - 1) with (Z.ones 19).
  rewrite Z.land_ones by lia. rewrite index_size_eq, Zplus_mod_idemp_l. f_equal. lia.
Qed.
Lemma home_range module offset : on_path (target_hash module offset) 0 = target_hash module offset.
Proof.
  unfold on_path, target_hash. rewrite Z.add_0_r. change (TARGET_INDEX_CAPACITY - 1) with (Z.ones 19).
  rewrite Z.land_ones by lia. by rewrite index_size_eq, Z.mod_mod by done.
Qed.
Lemma on_path_inj h d d' :
  0 <= d < index_size -> 0 <= d' < index_size -> on_path h d = on_path h d' -> d = d'.
Proof.
  intros Hd Hd' E. unfold on_path in E. assert ((d - d') mod index_size = 0) as E0.
  { replace (d - d') with (h + d - (h + d')) by lia.
    rewrite Zminus_mod, E, Z.sub_diag. apply Z.mod_0_l. done. }
  apply Z.mod_divide in E0 as [q Hq]; [|done]. assert (q = 0) by nia. lia.
Qed.

(** The index is at most half full: a probe meets a free slot in time. *)
Lemma path_has_free n h :
  ledger_ok n -> ~ (forall e, 0 <= e <= Z.of_nat (length (targets n)) -> index_at n (on_path h e) <> 0).
Proof.
  intros [Hroom _ Hrange Hinj _] Hall. set (len := Z.of_nat (length (targets n))) in *.
  set (l := map (fun e => index_at n (on_path h e)) (seqZ 0 (len + 1))).
  assert (NoDup l) as Hnd.
  { apply NoDup_fmap_2_strong; [|apply NoDup_seqZ].
    intros e e' He%elem_of_seqZ He'%elem_of_seqZ E.
    apply (on_path_inj h); [rewrite index_size_eq; unfold TARGET_CAPACITY in Hroom; lia..|].
    apply Hinj; [apply on_path_range..| |done]. apply Hall. lia. }
  assert (length l <= length (seqZ 1 len))%nat as Hlen.
  { apply submseteq_length, NoDup_submseteq; [done|]. intros i Hi.
    apply list_elem_of_fmap in Hi as (e & -> & He). apply elem_of_seqZ in He. apply elem_of_seqZ.
    pose proof (Hrange (on_path h e) (on_path_range h e)). specialize (Hall e ltac:(lia)). lia. }
  unfold l in Hlen. rewrite length_map, !length_seqZ in Hlen. lia.
Qed.

Lemma target_is_key module offset t t' :
  target_is module offset t = true -> target_is module offset t' = true -> same_key t t'.
Proof. unfold target_is, same_key. rewrite !andb_true_iff, !Z.eqb_eq. lia. Qed.

Lemma find_index_unique {A} (p : A -> bool) l k x :
  l !! k = Some x -> p x = true -> (forall j y, l !! j = Some y -> p y = true -> j = k) ->
  find_index p l 0 = Some k.
Proof.
  intros Hk Hp Hu. destruct (find_index p l 0) as [j|] eqn:E.
  - apply find_index_0 in E as (y & Hy & Hpy). by rewrite (Hu j y).
  - rewrite (find_index_none _ _ _ E x) in Hp; [done|]. apply list_elem_of_In. by apply list_elem_of_lookup_2 in Hk.
Qed.

(** The probe from the home slot: the record, when there is one, or the first free
    slot, with no record of the target. *)
Lemma probe_ok fuel n module offset d :
  ledger_ok n -> 0 <= d -> d + Z.of_nat fuel = Z.of_nat (length (targets n)) + 1 ->
  let h := target_hash module offset in
  (forall e, 0 <= e < d -> index_at n (on_path h e) <> 0 /\
     forall t, targets n !! Z.to_nat (index_at n (on_path h e) - 1) = Some t -> target_is module offset t = false) ->
  match probe fuel module offset (on_path h d) n with
  | Some (inl k) => find_index (target_is module offset) (targets n) 0 = Some k
  | Some (inr slot) =>
    find_index (target_is module offset) (targets n) 0 = None /\
    exists d', 0 <= d' /\ slot = on_path h d' /\ index_at n slot = 0 /\
      forall e, 0 <= e < d' -> index_at n (on_path h e) <> 0
  | None => False
  end.
Proof.
  intros Hok Hd Hf h. revert d Hd Hf. induction fuel as [|fuel IH]; intros d Hd Hf Hpath.
  { apply (path_has_free n h Hok). intros e He. apply Hpath. lia. }
  cbn [probe]. fold (index_at n (on_path h d)). unfold z2b.
  destruct (Z.eqb_spec (index_at n (on_path h d)) 0) as [Ez|Enz]; cbn [negb].
  - split.
    + destruct (find_index _ _ _) as [k|] eqn:E; [exfalso|done]. apply find_index_0 in E as (t & Hk & Ht).
      destruct (led_path _ Hok k t Hk) as (d' & Hd' & Hat & Hbefore).
      assert (home t = h) as Eh.
      { unfold target_is in Ht. apply andb_true_iff in Ht as [H1%Z.eqb_eq H2%Z.eqb_eq]. unfold home, h. congruence. }
      rewrite Eh in *. destruct (Z.lt_trichotomy d' d) as [Hlt|[->|Hgt]].
      * destruct (Hpath d' ltac:(lia)) as [_ Hno]. rewrite (Hno t) in Ht; [done|]. rewrite Hat.
        by replace (Z.to_nat (Z.of_nat k + 1 - 1)) with k by lia.
      * lia.
      * by apply (Hbefore d).
    + exists d. split; [done|]. split; [done|]. split; [done|]. intros e He. apply Hpath. lia.
  - pose proof (led_range _ Hok _ (on_path_range h d)) as Hr.
    destruct (lookup_lt_is_Some_2 (targets n) (Z.to_nat (index_at n (on_path h d) - 1)) ltac:(lia)) as [t Ht].
    rewrite Ht. destruct (target_is module offset t) eqn:Et.
    + apply (find_index_unique _ _ _ t Ht Et). intros j y Hj Hy.
      by apply (led_keys _ Hok j _ y t Hj Ht), (target_is_key module offset).
    + rewrite next_on_path. apply IH; [lia|lia|]. intros e He. destruct (Z.eq_dec e d) as [->|Hne].
      * split; [done|]. intros t' Ht'. congruence.
      * apply Hpath. lia.
Qed.

(** * One record *)
Lemma ledger_hit n k : ledger_ok n -> ledger_ok (set_targets (alter hit k (targets n)) n).
Proof.
  intros [H1 H2 H3 H4 H5].
  assert (forall j t, alter hit k (targets n) !! j = Some t -> exists t0, targets n !! j = Some t0 /\ same_key t t0) as Ha.
  { intros j t Hj. destruct (Nat.eq_dec j k) as [->|Hne].
    - rewrite list_lookup_alter_eq in Hj. destruct (targets n !! k) as [t0|]; [|done]. injection Hj as <-. by exists t0.
    - rewrite list_lookup_alter_ne in Hj by done. by exists t. }
  split; unfold index_at in *; cbn [targets target_indices set_targets]; rewrite ?length_alter; try done.
  - intros j j' t t' Hj Hj' Hk. destruct (Ha j t Hj) as (t0 & Hj0 & Hk0). destruct (Ha j' t' Hj') as (t1 & Hj1 & Hk1).
    apply (H2 j j' t0 t1); try done. unfold same_key in *. lia.
  - intros j t Hj. destruct (Ha j t Hj) as (t0 & Hj0 & [Ek1 Ek2]). unfold home. rewrite Ek1, Ek2. by apply H5.
Qed.

Lemma ledger_append n t d :
  ledger_ok n -> Z.of_nat (length (targets n)) <> TARGET_CAPACITY ->
  find_index (target_is (t_module t) (t_offset t)) (targets n) 0 = None ->
  0 <= d -> index_at n (on_path (home t) d) = 0 ->
  (forall e, 0 <= e < d -> index_at n (on_path (home t) e) <> 0) ->
  ledger_ok (set_targets (targets n ++ [t])
    (set_target_indices (mset (target_indices n) (on_path (home t) d) (Z.of_nat (length (targets n)) + 1)) n)).
Proof.
  intros [H1 H2 H3 H4 H5] Hne Hnone Hd Hfree Hbefore. set (len := length (targets n)) in *.
  set (slot := on_path (home t) d) in *. set (n' := set_targets _ _).
  assert (forall s, index_at n' s = if slot =? s then Z.of_nat len + 1 else index_at n s) as Ei.
  { intros s. unfold index_at, n'. cbn [target_indices set_targets set_target_indices]. apply mget_mset. }
  assert (forall k x, targets n' !! k = Some x -> targets n !! k = Some x \/ (k = len /\ x = t)) as El.
  { intros k x Hk. unfold n' in Hk. cbn [targets set_targets] in Hk. apply lookup_app_Some in Hk as [Hk|[Hle Hk]]; [by left|].
    right. destruct (k - length (targets n))%nat eqn:E; [|done]. injection Hk as <-. split; [unfold len; lia|done]. }
  assert (forall x, same_key x t -> ~ exists k, targets n !! k = Some x) as Hnew.
  { intros x [E1 E2] [k Hk]. apply list_elem_of_lookup_2, list_elem_of_In in Hk.
    pose proof (find_index_none _ _ _ Hnone x Hk) as Hf. unfold target_is in Hf. rewrite E1, E2, !Z.eqb_refl in Hf. done. }
  assert (length (targets n') = S len) as Elen by (unfold n'; cbn; rewrite length_app; cbn; lia).
  split; rewrite ?Elen.
  - lia.
  - intros j k x y Hj Hk Hxy. apply El in Hj as [Hj|[-> ->]], Hk as [Hk|[-> ->]].
    + by apply (H2 j k x y).
    + exfalso. apply (Hnew x Hxy). by exists j.
    + exfalso. apply (Hnew y); [destruct Hxy; split; congruence|by exists k].
    + done.
  - intros s Hs. rewrite Ei. specialize (H3 s Hs). destruct (slot =? s); lia.
  - intros s s' Hs Hs' Hn E. rewrite !Ei in E. rewrite Ei in Hn. pose proof (H3 s Hs). pose proof (H3 s' Hs').
    destruct (Z.eqb_spec slot s), (Z.eqb_spec slot s'); subst; try done; try lia. by apply H4.
  - intros k x Hk. apply El in Hk as [Hk|[-> ->]].
    + destruct (H5 k x Hk) as (d' & Hd' & Hat & Hb). exists d'. split; [done|]. split.
      * rewrite Ei. destruct (Z.eqb_spec slot (on_path (home x) d')) as [E|_]; [rewrite <- E in Hat; lia|done].
      * intros e He. rewrite Ei. destruct (slot =? _); [lia|]. by apply Hb.
    + exists d. split; [done|]. split.
      * rewrite Ei. unfold slot. rewrite Z.eqb_refl. lia.
      * intros e He. rewrite Ei. destruct (slot =? _); [lia|]. by apply Hbefore.
Qed.

Lemma record_keeps_ledger now b module offset n :
  ledger_ok n ->
  exists n', record_target now b module offset n = Some n' /\ ledger_ok n' /\
    ledger_of n' = record_reference now b module offset (ledger_of n).
Proof.
  intros Hok. pose proof (probe_ok (S (length (targets n))) n module offset 0 Hok ltac:(lia) ltac:(lia)) as Hp.
  cbv zeta in Hp. specialize (Hp ltac:(lia)). rewrite home_range in Hp. unfold record_target, record_reference.
  cbn [ledger_of l_targets l_dropped]. destruct (probe _ module offset _ n) as [[k|slot]|]; [| |done].
  - rewrite Hp. eexists. split; [done|]. split; [by apply ledger_hit|done].
  - destruct Hp as (Hnone & d & Hd & -> & Hfree & Hb). rewrite Hnone.
    destruct (Z.eqb_spec (Z.of_nat (length (targets n))) TARGET_CAPACITY) as [E|E].
    + eexists. split; [done|]. split; [|done]. destruct Hok. by split.
    + eexists. split; [done|]. split; [|done].
      set (t := mkTarget module offset (b_base b) (b_epoch b) (now_frame now) (now_trace_seq now) 1).
      exact (ledger_append n t d Hok E Hnone Hd Hfree Hb).
Qed.

(** * Any sequence of records *)
Record Uncovered := mkUncovered { u_moment : Moment; u_binding : Binding; u_module : Z; u_offset : Z }.
Fixpoint record_all (us : list Uncovered) (n : Native) : option Native :=
  match us with
  | [] => Some n
  | u :: us =>
    match record_target (u_moment u) (u_binding u) (u_module u) (u_offset u) n with
    | Some n => record_all us n
    | None => None
    end
  end.
Definition reference_all (us : list Uncovered) (l : Ledger) : Ledger :=
  fold_left (fun l u => record_reference (u_moment u) (u_binding u) (u_module u) (u_offset u) l) us l.

Lemma ledger_empty n : targets n = [] -> target_indices n = ∅ -> ledger_ok n.
Proof.
  intros E1 E2. assert (forall s, index_at n s = 0) as Ei by (intros s; unfold index_at; by rewrite E2).
  split; rewrite ?E1.
  - done.
  - done.
  - intros s _. rewrite Ei. cbn. lia.
  - intros s s' _ _ Hn. by rewrite Ei in Hn.
  - done.
Qed.

Lemma record_all_ok us n :
  ledger_ok n -> exists n', record_all us n = Some n' /\ ledger_of n' = reference_all us (ledger_of n).
Proof.
  revert n. induction us as [|u us IH]; intros n Hok; [by exists n|]. cbn [record_all reference_all fold_left].
  destruct (record_keeps_ledger (u_moment u) (u_binding u) (u_module u) (u_offset u) n Hok) as (n1 & -> & Hok1 & <-).
  by apply IH.
Qed.

(** The hash index of the ledger is a search of all its records: for any sequence
    of uncovered targets, from an empty ledger, every probe ends, at a record or a
    free slot, and the records are those of the reference that searches and
    appends: one for each image and offset with the count of its hits and the
    moment it was first seen, until the ledger is full, and a count of those
    dropped after. *)
Theorem ledger_is_linear_search us n :
  targets n = [] -> target_indices n = ∅ ->
  exists n', record_all us n = Some n' /\ ledger_of n' = reference_all us (ledger_of n).
Proof. intros E1 E2. by apply record_all_ok, ledger_empty. Qed.

(** Two targets that share a home slot, and the first again. *)
Definition colliding : list Uncovered :=
  let now := mkMoment 5 6 7 8 in
  let b := mkBinding 0x2000 64 1 (Some 0%nat) true true in
  [mkUncovered now b 0 3848; mkUncovered now b 0 6520; mkUncovered now b 0 3848; mkUncovered now b 1 3848].

Lemma ledger_is_linear_search_witness :
  let n := mkNative ∅ ∅ 0 [] ((0, 0), (0, 0)) (mkStats 0 0 0 0 0 0) 0 0 0 ∅ [] ∅ 0 in
  (exists n', record_all colliding n = Some n' /\ ledger_of n' = reference_all colliding (ledger_of n)) /\
  map t_hits (l_targets (reference_all colliding (ledger_of n))) = [2; 1; 1] /\
  target_hash 0 3848 = target_hash 0 6520.
Proof.
  intros n. split; [|split; vm_compute; reflexivity]. apply (ledger_is_linear_search colliding n); reflexivity.
Defined.
