(* ===== verification/Job.v ===== *)
(** What the native jobs share (runner/src/cdi_memory_jobs.c, cdi_service_jobs.c,
    cdi_drawing_jobs.c, cdi_loader_jobs.c): the machine with a job's counters
    and its view of the debugger, the clock of one replaced instruction, the
    frontier before it, and the condition codes the jobs compute themselves.

    A job stands for a stretch of guest code.  It may run only while the
    debugger wants nothing in that stretch; [fallback] then hands the rest to
    the generated code, which is a parameter here. *)

From Stdlib Require Import ZArith Lia Bool.
From stdpp Require Import base tactics numbers list.
From S2P Require Import Prelude Irq Cpu Interp Ram Mcd212 Bus.
Open Scope Z_scope.
Open Scope mach_scope.

(** * The debugger's stops (runner/src/debug_server.c) *)
Record DebugStops := mkStops {
  g_debug_native_observation_epoch : Z;
  g_stop_seq : Z;
  s_stoppc_armed : Z;
  s_stoppc : list Z;       (* the pc of each slot *)
}.

Definition debug_native_job_epoch (d : DebugStops) : Z := g_debug_native_observation_epoch d.

Definition debug_native_job_allowed (first limit : Z) (d : DebugStops) : bool :=
  if z2b (g_stop_seq d) then false
  else if z2b (s_stoppc_armed d) then
    negb (existsb (fun pc => (first <=? pc) && (pc <? limit)) (s_stoppc d))
  else true.

(** What a job asks of the board besides the CPU's part: what the command
    thread has published by now. *)
Class JobHost (S : Type) `{Board S} : Type := {
  debug_of : S -> DebugStops;
}.

(** * The machine a job runs on *)
Record Job (St S : Type) := mkJob {
  sys : Sys S;
  g_native_insn_count : Z;   (* uint64_t *)
  stats : St;
  observation_epoch : Z;     (* the job's local *)
}.
Arguments mkJob {St S}. Arguments sys {St S}. Arguments g_native_insn_count {St S}.
Arguments stats {St S}. Arguments observation_epoch {St S}.

Definition ram (address size : Z) : bool :=
  ((address <? CDI_RAM0_SIZE) && (size <=? CDI_RAM0_SIZE - address)) ||
  ((CDI_RAM1_BASE <=? address) && (address - CDI_RAM1_BASE <? CDI_RAM1_SIZE) &&
   (size <=? CDI_RAM1_SIZE - (address - CDI_RAM1_BASE))).

(** * Condition codes *)
Definition size_mask (bits : Z) : Z := if bits =? 32 then 0xFFFFFFFF else u32 (Z.shiftl 1 bits) - 1.

Definition logic_sr (value bits sr : Z) : Z :=
  let sr := Z.land sr 0xFFF0 in
  let sr := if Z.land value (size_mask bits) =? 0 then Z.lor sr SR_Z else sr in
  if z2b (Z.land value (u32 (Z.shiftl 1 (bits - 1)))) then Z.lor sr SR_N else sr.

Definition overflow_bit (x y bits : Z) : bool :=
  z2b (Z.land (Z.land x y) (u32 (Z.shiftl 1 (bits - 1)))).

Definition subtract_result (left right bits : Z) : Z :=
  Z.land (u32 (Z.land left (size_mask bits) - Z.land right (size_mask bits))) (size_mask bits).

Definition subtract_sr (left right bits sr : Z) : Z :=
  let left := Z.land left (size_mask bits) in
  let right := Z.land right (size_mask bits) in
  let result := Z.land (u32 (left - right)) (size_mask bits) in
  let sr := logic_sr result bits (Z.land sr 0xFFEF) in
  let sr := if left <? right then Z.lor sr (Z.lor SR_X SR_C) else sr in
  if overflow_bit (Z.lxor left right) (Z.lxor left result) bits then Z.lor sr SR_V else sr.

(** [compare]: the codes of a comparison of [bits]-bit values; X is kept. *)
Definition compare_sr (left right bits sr : Z) : Z :=
  let result := Z.land (u32 (left - right)) (size_mask bits) in
  let sr := logic_sr result bits sr in
  let sr := if left <? right then Z.lor sr SR_C else sr in
  if overflow_bit (Z.lxor left right) (Z.lxor left result) bits then Z.lor sr SR_V else sr.

(** A register whose low word is replaced. *)
Definition low_word (v w : Z) : Z := Z.lor (Z.land v 0xFFFF0000) w.

Section Jobs.
Context {St S : Type} `{JobHost S}.

Definition on_sys {A} (m : Mach (Sys S) A) : Mach (Job St S) A :=
  fun j => let '(r, s) := m (sys j) in
           (r, mkJob s (g_native_insn_count j) (stats j) (observation_epoch j)).

Definition upd_stats (f : St -> St) : Mach (Job St S) unit :=
  modify (fun j => mkJob (sys j) (g_native_insn_count j) (f (stats j)) (observation_epoch j)).

Definition observe (e : Z) : Mach (Job St S) unit :=
  modify (fun j => mkJob (sys j) (g_native_insn_count j) (stats j) e).

Definition job_debug : Mach (Job St S) DebugStops := gets (fun j => debug_of (bus (sys j))).

Definition job_cpu (f : M68KState -> M68KState) : Mach (Job St S) unit := on_sys (upd_cpu f).

(** Accepted now, by the test the interrupt delivery makes itself. *)
Definition irq_ready (s : Sys S) : bool :=
  let irq := irq_of (bus s) in
  let level := recomp_pending_irq_level irq in
  g_recomp_irq_armed s && z2b (recomp_pending_irq_mask irq) &&
  ((level =? 7) || (Z.land (Z.shiftr (SR (g_cpu s)) 8) 7 <? level)).

(** Only an ordinary call is taken over: BSR, JSR to the absolute address or
    through an address register, with its return address on the stack. *)
Definition call_target (caller opcode : Z) : Mach (Sys S) (option (Z * Z)) :=
  let next := u32 (caller + 2) in
  if Z.land opcode 0xFF00 =? 0x6100 then
    if Z.land opcode 255 =? 0 then
      w <-- on_bus (m68k_read16 next);;
      ret (Some (u32 (caller + 2 + i16 w), u32 (next + 2)))
    else ret (Some (u32 (caller + 2 + i8 opcode), next))
  else if opcode =? 0x4EB9 then
    target <-- on_bus (m68k_read32 next);;
    ret (Some (target, u32 (next + 4)))
  else if Z.land opcode 0xFFF8 =? 0x4E90 then
    target <-- getA (Z.land opcode 7);;
    ret (Some (target, next))
  else ret None.

Definition ordinary_call_to (entry : Z) : Mach (Sys S) bool :=
  caller <-- gets (fun s => PC (g_cpu s));;
  if negb (ram caller 6) &&
     negb ((CDI_ROM_BASE <=? caller) && (caller <=? CDI_MCD212_BASE - 6)) then ret false
  else
    opcode <-- on_bus (m68k_read16 caller);;
    call <-- call_target caller opcode;;
    match call with
    | None => ret false
    | Some (target, next) =>
      if negb (target =? entry) then ret false
      else
        sp <-- getA 7;;
        back <-- on_bus (m68k_read32 sp);;
        ret (back =? next)
    end.

(** [g_vblank_threshold]: the clock runs when this many cycles are due. *)
Context (g_vblank_threshold : Z).

Definition charge (cycles : Z) : Mach (Sys S) unit :=
  modify (fun s => set_cycles (u32 (g_cycle_accumulator s + cycles))
                              (u32 (g_audio_cycle_counter s + cycles)) s);;;
  acc <-- gets g_cycle_accumulator;;
  when (g_vblank_threshold <=? acc) glue_check_vblank.

Definition account (cycles : Z) : Mach (Job St S) unit :=
  modify (fun j => mkJob (sys j) (u64 (g_native_insn_count j + 1)) (stats j) (observation_epoch j));;;
  on_sys (charge cycles).

(** The generated code's dispatcher, and its stretch [first, limit). *)
Context (recomp_tail_call : Z -> Mach (Sys S) unit).

Definition tail_call_here : Mach (Job St S) unit :=
  pc <-- gets (fun j => PC (g_cpu (sys j)));;
  on_sys (recomp_tail_call pc).

(** The admission half of a frontier: has the debugger published a stop in the
    stretch since the last look? *)
Definition still_allowed (first limit : Z) : Mach (Job St S) bool :=
  d <-- job_debug;;
  let observed := debug_native_job_epoch d in
  last <-- gets observation_epoch;;
  if observed =? last then ret true
  else
    observe observed;;;
    ret (debug_native_job_allowed first limit d).
End Jobs.

(** * The safepoint and the clock *)
Section JobLemmas.
Context {S : Type} `{Board S}.

(** The safepoint of the interpreter and the job's test are the same. *)
Lemma ready_throws (s : Sys S) : irq_ready s = true -> exists e s', recomp_take_irq s = (Exn e, s').
Proof.
  intros Hr.
  assert (forall {A} (m : Mach (Sys S) A) k,
    (forall a s, exists e s', (k a : Mach (Sys S) unit) s = (Exn e, s')) ->
    forall s, exists e s', bind m k s = (Exn e, s')) as Hb.
  { intros A m k Hk t. unfold bind. destruct (m t) as [[a|e] t']; [apply Hk|eauto]. }
  unfold irq_ready in Hr. apply andb_true_iff in Hr as [[Ha Hm]%andb_true_iff Hl].
  unfold recomp_take_irq. cbv beta iota delta [bind gets getSR].
  set (lvl := recomp_pending_irq_level _) in *.
  assert (irq_deliverable lvl (Z.land (Z.shiftr (SR (g_cpu s)) 8) 7) = true) as ->.
  { unfold irq_deliverable. assert (0 <= Z.land (Z.shiftr (SR (g_cpu s)) 8) 7).
    { apply Z.land_nonneg. right. lia. }
    rewrite andb_true_iff. split; [|exact Hl]. apply Z.ltb_lt.
    apply orb_true_iff in Hl as [Hl%Z.eqb_eq|Hl%Z.ltb_lt]; lia. }
  rewrite Ha. cbn [andb when]. destruct (irq_consume _ _) as [vec irq'].
  cbv beta. repeat (apply Hb; intros ? ?). eexists _, _. reflexivity.
Qed.

Lemma not_ready (s : Sys S) : irq_ready s = false -> debug_trace_block s = (Ok tt, s).
Proof.
  intros Hr. unfold debug_trace_block. cbv beta iota delta [bind gets].
  destruct (recomp_pending_irq_mask (irq_of (bus s)) =? 0) eqn:Em; [done|]. cbn [negb when].
  unfold recomp_take_irq. cbv beta iota delta [bind gets getSR].
  unfold irq_ready, z2b in Hr. rewrite Em in Hr. cbn [negb] in Hr. rewrite andb_true_r in Hr.
  unfold irq_deliverable. set (lvl := recomp_pending_irq_level _) in *.
  destruct (g_recomp_irq_armed s); cbn [andb] in *; [|by rewrite andb_false_r].
  rewrite Hr, andb_false_r. done.
Qed.

Lemma ready_safepoint (s : Sys S) : irq_ready s = true -> debug_trace_block s = recomp_take_irq s.
Proof.
  intros Hr. unfold debug_trace_block. cbv beta iota delta [bind gets].
  unfold irq_ready, z2b in Hr. destruct (recomp_pending_irq_mask _ =? 0); [|done].
  cbn in Hr. by rewrite andb_false_r in Hr.
Qed.

Lemma charge_cpu g_vblank_threshold c (s : Sys S) : g_cpu (snd (charge g_vblank_threshold c s)) = g_cpu s.
Proof.
  unfold charge. cbv beta iota delta [bind gets modify when]. cbn [set_cycles g_cycle_accumulator].
  destruct (_ <=? _); [|done].
  unfold glue_check_vblank. cbv beta iota delta [bind gets modify on_bus].
  by destruct (mcd212_tick _ _) as [[?|?] ?].
Qed.
End JobLemmas.

(** The flat board, with no debugger. *)
#[export] Instance flat_host : JobHost FlatBoard := {
  debug_of _ := mkStops 0 0 0 [];
}.
