(* ===== verification/JobSpec.v ===== *)
(** What the theorems about the native jobs share: the condition codes a job
    computes and the interpreter's, one instruction of the firmware a job stands
    for, and properties of the registers through a computation. *)

From Stdlib Require Import ZArith Lia Bool.
From stdpp Require Import base tactics numbers list relations.
From S2P Require Import Prelude Irq Cpu Insn Alu Ea Cycles Interp CpuOk Ram Mcd212 Bus Job.
Open Scope Z_scope.
Open Scope mach_scope.

(** * Condition codes *)

(** The bits a size has, as a job counts them. *)
Lemma size_mask_eq sz : size_mask (szbits sz) = szmask sz.
Proof. by destruct sz. Qed.
Lemma top_bit_eq sz : u32 (Z.shiftl 1 (szbits sz - 1)) = szsign sz.
Proof. by destruct sz. Qed.

Lemma shifted_top v sz :
  z2b (Z.shiftr (Z.land v (szmask sz)) (szbits sz - 1)) = z2b (Z.land v (szsign sz)).
Proof.
  assert (0 <= szbits sz - 1) as H0 by (destruct sz; cbn; lia).
  unfold szsign. rewrite testbit_land_pow2 by done.
  rewrite land_szmask.
  rewrite <- (Z.mod_pow2_bits_low v (szbits sz)) by lia.
  assert (0 < 2 ^ szbits sz) as Hp by (destruct sz; done).
  pose proof (Z.mod_pos_bound v _ Hp) as Hb. set (x := v mod 2 ^ szbits sz) in *.
  rewrite (testbit_top (szbits sz)) by (unfold is_word; lia).
  rewrite Z.shiftr_div_pow2 by done.
  assert (2 ^ szbits sz = 2 * 2 ^ (szbits sz - 1)) as E.
  { rewrite <- Z.pow_succ_r by done. f_equal. lia. }
  assert (0 < 2 ^ (szbits sz - 1)) as Hp1 by (destruct sz; done).
  unfold z2b. destruct (Z.leb_spec (2 ^ (szbits sz - 1)) x).
  - assert (1 <= x / 2 ^ (szbits sz - 1)) by (apply Z.div_le_lower_bound; lia).
    destruct (Z.eqb_spec (x / 2 ^ (szbits sz - 1)) 0); [lia|done].
  - rewrite Z.div_small by lia. done.
Qed.

(** The status register a job clears and the one the interpreter clears. *)
Lemma clear_word m x : is_u16 x -> Z.land x (Z.land 0xFFFF (Z.lnot m)) = clear_bits m x.
Proof.
  intros Hx. unfold clear_bits. rewrite Z.land_assoc. f_equal.
  change 0xFFFF with (Z.ones 16). rewrite Z.land_ones by done. by apply Z.mod_small.
Qed.

Lemma logic_sr_eq v sz sr : is_u16 sr -> logic_sr v (szbits sz) sr = flags_logic v sz sr.
Proof.
  intros Hsr. unfold logic_sr, flags_logic, or_if.
  rewrite size_mask_eq, top_bit_eq, shifted_top.
  change 0xFFF0 with (Z.land 0xFFFF (Z.lnot 0x0F)). by rewrite clear_word.
Qed.

Lemma logic_sr_u16 v bits sr : is_u16 (logic_sr v bits sr).
Proof.
  unfold logic_sr. assert (is_u16 (Z.land sr 0xFFF0)) by (by apply land_word_r).
  destruct (_ =? 0), (z2b _); repeat (apply lor_word; [|done|done]); done.
Qed.

Lemma masked_difference a b sz :
  Z.land (u32 (Z.land a (szmask sz) - Z.land b (szmask sz))) (szmask sz)
  = Z.land (u32 (a - b)) (szmask sz).
Proof.
  rewrite !land_szmask. unfold u32. destruct sz; cbn [szbits].
  - change (2 ^ 8) with 0x100. zlia.
  - change (2 ^ 16) with 0x10000. zlia.
  - change (2 ^ 32) with 0x100000000. zlia.
Qed.

Lemma overflow_bit_eq x y sz :
  overflow_bit x y (szbits sz) = z2b (Z.land x (szsign sz)) && z2b (Z.land y (szsign sz)).
Proof.
  assert (0 <= szbits sz - 1) by (destruct sz; done).
  unfold overflow_bit. rewrite top_bit_eq. unfold szsign.
  by rewrite !testbit_land_pow2, Z.land_spec by done.
Qed.

Lemma subtract_sr_eq a b sz sr :
  is_u16 sr -> subtract_sr a b (szbits sz) sr = flags_sub a b (u32 (a - b)) sz sr.
Proof.
  intros Hsr. unfold subtract_sr. rewrite size_mask_eq, masked_difference.
  rewrite logic_sr_eq by (by apply land_word_l). rewrite overflow_bit_eq.
  unfold flags_logic, flags_sub.
  assert (clear_bits 0x0F (Z.land sr 0xFFEF) = clear_bits 0x1F sr) as ->.
  { change 0xFFEF with (Z.land 0xFFFF (Z.lnot 0x10)). rewrite clear_word by done. unfold clear_bits. by rewrite <- Z.land_assoc. }
  rewrite <- (Z.land_assoc (u32 (a - b))), Z.land_diag.
  assert (forall x, Z.lor x (Z.lor SR_X SR_C) = Z.lor (Z.lor x SR_C) SR_X) as E.
  { intros x. by rewrite <- Z.lor_assoc, (Z.lor_comm SR_C). }
  by rewrite E.
Qed.

(** The interrupt mask is not a condition code. *)
Definition ipm (sr : Z) : Z := Z.land (Z.shiftr sr 8) 7.
Lemma ipm_if (b : bool) sr x : x < 0x100 -> 0 <= x -> ipm (if b then Z.lor sr x else sr) = ipm sr.
Proof.
  intros Hx Hp. destruct b; [|done]. unfold ipm. rewrite Z.shiftr_lor.
  assert (Z.shiftr x 8 = 0) as -> by (rewrite Z.shiftr_div_pow2 by done; apply Z.div_small; lia). by rewrite Z.lor_0_r.
Qed.
Lemma ipm_clear sr m : Z.land (Z.shiftr m 8) 7 = 7 -> ipm (Z.land sr m) = ipm sr.
Proof. intros Hm. unfold ipm. by rewrite Z.shiftr_land, <- Z.land_assoc, Hm. Qed.

(** * Firmware

    An instruction as the decoder presents it. *)
Definition reg_move (pc : Z) (words : list Z) (mn : M68KMnemonic) (sz : M68KSize)
    (src dst reg imm target : Z) : M68KInstr :=
  mkInstr pc (2 * Z.of_nat (length words)) words mn sz src dst reg imm target false false false.

Definition L := M68K_SIZE_L.
Definition W := M68K_SIZE_W.
Definition word_bytes (w : Z) : list Z := [Z.shiftr w 8; Z.land w 0xFF].

Lemma low_word_low d w : is_u16 w -> u16 (low_word d w) = w.
Proof.
  intros Hw. unfold low_word. rewrite u16_land, Z.land_lor_distr_l, <- Z.land_assoc, Z.land_0_r.
  by rewrite <- u16_land, u16_id.
Qed.

(** The instruction of a program at an address. *)
Definition program_at (program : list M68KInstr) (pc : Z) : option M68KInstr :=
  List.find (fun i => i_addr i =? pc) program.

Section Program.
Context {S : Type} `{Board S}.

(** One instruction of a program: the safepoint, the interpreter's effect and cost,
    charged to the clock as generated code charges it. *)
Definition program_step (g_vblank_threshold : Z) (program : list M68KInstr) : Mach (Sys S) unit :=
  pc <-- gets (fun s => PC (g_cpu s));;
  debug_trace_block;;;
  match program_at program pc with
  | None => throw EUndefined
  | Some ins =>
    cyc <-- m68k_cycles ins;;
    let* (_, next) <-- exec_one ins;;
    charge g_vblank_threshold cyc;;;
    upd_cpu (set_PC (Z.land next 0xFFFFFF))
  end.

(** [op] is the instruction [ins], at the cost [cyc], going on at [next]. *)
Definition is_instruction (pre : M68KState -> Prop) (ins : M68KInstr) (cyc : Z)
    (op : Mach (Sys S) unit) (next : M68KState -> Z) : Prop :=
  forall s, pre (g_cpu s) ->
  m68k_cycles ins s = (Ok cyc, s) /\
  exec_one ins s = bind op (fun _ => gets (fun s => (M68KI_OK, next (g_cpu s)))) s.

(** Away from interrupts a step is its instruction's operation, charge and end. *)
Lemma program_step_run g_vblank_threshold program P pc ins cyc op next (s : Sys S) :
  PC (g_cpu s) = pc -> irq_ready s = false -> program_at program pc = Some ins ->
  is_instruction P ins cyc op next -> P (g_cpu s) -> (forall c, Z.land (next c) 0xFFFFFF = next c) ->
  program_step g_vblank_threshold program s =
    bind op (fun _ => bind (gets (fun s => next (g_cpu s))) (fun n =>
      bind (charge g_vblank_threshold cyc) (fun _ => upd_cpu (set_PC n)))) s.
Proof.
  intros Hpc Hr Hat His HP Hn. destruct (His s HP) as [Ecyc Eexec].
  assert (forall r, bind debug_trace_block (fun _ : unit => r) s = r s :> result unit * Sys S) as Hsafe.
  { intros r. unfold bind. by rewrite not_ready. }
  unfold program_step. unfold bind at 1. unfold gets at 1. rewrite Hpc, Hsafe, Hat.
  unfold bind at 1. rewrite Ecyc. unfold bind at 1. rewrite Eexec. unfold bind.
  destruct (op s) as [[[]|e] s']; [|done]. cbn. by rewrite Hn.
Qed.

(** A step where an interrupt is ready takes it. *)
Lemma program_step_irq g_vblank_threshold program (s : Sys S) e s' :
  irq_ready s = true -> recomp_take_irq s = (Exn e, s') ->
  program_step g_vblank_threshold program s = (Exn e, s').
Proof.
  intros Hr Ht. unfold program_step. cbv beta iota delta [bind gets]. by rewrite ready_safepoint, Ht.
Qed.
End Program.

Ltac compute_at f :=
  repeat match goal with
  | |- context [f ?x] => let v := eval vm_compute in (f x) in change (f x) with v
  end.

(** Run a concrete instruction down to its register and memory accesses. *)
Ltac run_in :=
  cbv beta iota delta [exec_one i_mnemonic i_size i_src_ea i_dst_ea i_reg i_imm32 i_target_addr
    i_words i_addr i_byte_length reg_move L W
    exec_move exec_movea exec_cmp exec_tst exec_bcc exec_shift do_shift i_mem_shift exec_imm_sr exec_add_sub exec_adda_suba exec_addq_subq exec_dbcc exec_movem
    read_ea write_ea rmw er_next er_init er_wi er_bp];
  unfold read_ea_ex, write_ea_ex; compute_at ea_mode; compute_at ea_reg;
  cbv beta iota delta [mem_read mem_write store_dn upd_SR getA getD getSR putA putD upd_cpu done jump fall
  on_bus bind ret gets modify when er_next er_wi er_bp i_words i_addr i_byte_length];
  repeat match goal with |- context [lget [?a; ?b] ?i] =>
    let v := eval vm_compute in (lget [a; b] i) in change (lget [a; b] i) with v end.

Section Registers.
Context {S : Type} `{Board S}.

Lemma with_logic v sz (s : Sys S) :
  is_u16 (SR (g_cpu s)) ->
  with_cpu (fun c => set_SR (flags_logic v sz (SR c)) c) s
  = with_cpu (fun c => set_SR (logic_sr v (szbits sz) (SR c)) c) s.
Proof. intros Hs. unfold with_cpu, set_SR. by rewrite logic_sr_eq. Qed.

Lemma with_subtract a b m sz (s : Sys S) :
  is_u16 (SR (g_cpu s)) -> m = Z.land b (szmask sz) ->
  with_cpu (fun c => set_SR (flags_sub (Z.land a (szmask sz)) m
                              (u32 (Z.land a (szmask sz) - m)) sz (SR c)) c) s
  = with_cpu (fun c => set_SR (subtract_sr a b (szbits sz) (SR c)) c) s.
Proof.
  intros Hs ->. unfold with_cpu, set_SR. rewrite <- subtract_sr_eq by done.
  unfold subtract_sr. rewrite size_mask_eq, <- !Z.land_assoc, Z.land_diag. done.
Qed.

(** A property of the registers through a computation that returns. *)
Definition leaves (P : M68KState -> Prop) (m : Mach (Sys S) unit) (Q : M68KState -> Prop) : Prop :=
  forall s, P (g_cpu s) -> match m s with (Ok _, s') => Q (g_cpu s') | _ => True end.

Lemma leaves_bind {A} P Q R (m : Mach (Sys S) A) k :
  (forall s, P (g_cpu s) -> match m s with (Ok _, s') => Q (g_cpu s') | _ => True end) ->
  (forall a, leaves Q (k a) R) -> leaves P (bind m k) R.
Proof.
  intros Hm Hk s Hs. unfold bind. specialize (Hm s Hs).
  destruct (m s) as [[a|e] s']; [by apply Hk|done].
Qed.
Lemma leaves_on_bus {A} (m : Mach S A) P s :
  P (g_cpu s) -> match on_bus m s with (Ok _, s') => P (g_cpu s') | _ => True end.
Proof. intros Hs. unfold on_bus. by destruct (m (bus s)) as [[a|e] b]. Qed.
Lemma leaves_upd P Q f : (forall c, P c -> Q (f c)) -> leaves P (upd_cpu f) Q.
Proof. intros Hf s Hs. cbn. auto. Qed.

(** Looking at the call reads memory only. *)
Lemma on_bus_cpu {A} (m : Mach S A) (s : Sys S) : g_cpu (snd (on_bus m s)) = g_cpu s.
Proof. unfold on_bus. by destruct (m (bus s)) as [[?|?] ?]. Qed.

Lemma ordinary_call_cpu entry (s : Sys S) : g_cpu (snd (ordinary_call_to entry s)) = g_cpu s.
Proof.
  assert (keeps (fun t : Sys S => g_cpu t = g_cpu s) (ordinary_call_to entry) (fun _ => True)) as H1.
  { assert (forall A (m : Mach S A), keeps (fun t : Sys S => g_cpu t = g_cpu s) (on_bus m) (fun _ => True))
      as Hb.
    { intros A m t Ht. split; [by rewrite on_bus_cpu|]. by destruct (fst (on_bus m t)). }
    assert (forall A (f : Sys S -> A), keeps (fun t : Sys S => g_cpu t = g_cpu s) (gets f) (fun _ => True))
      as Hg by (intros; by apply keeps_gets).
    assert (forall A (x : A), keeps (fun t : Sys S => g_cpu t = g_cpu s) (ret x) (fun _ => True))
      as Hr by (intros; by apply keeps_ret).
    unfold ordinary_call_to, call_target, getA.
    repeat first [ apply keeps_if | apply Hb | apply Hg | apply Hr
                 | eapply keeps_bind; [|intros ? _]
                 | match goal with |- keeps _ (match ?o with _ => _ end) _ => destruct o as [[? ?]|] end ]. }
  exact (proj1 (H1 s eq_refl)).
Qed.

(** ** The CPU out of the way *)

(** Only the delivery of an interrupt unwinds as one. *)
Definition never_unwinds {A} (m : Mach S A) : Prop := forall s, fst (m s) <> Exn EIrqUnwind.
(** A computation that neither looks at the CPU nor changes it. *)
Definition blind {X} (m : Mach (Sys S) X) : Prop :=
  forall g s, m (with_cpu g s) = (fst (m s), with_cpu g (snd (m s))) /\ g_cpu (snd (m s)) = g_cpu s
    /\ fst (m s) <> Exn EIrqUnwind.

Lemma blind_ret {X} (x : X) : blind (ret x).
Proof. intros g s. done. Qed.
Lemma blind_on_bus {X} (m : Mach S X) : never_unwinds m -> blind (on_bus m).
Proof.
  intros Hm g s. specialize (Hm (bus s)). unfold on_bus. cbn [with_cpu bus].
  by destruct (m (bus s)) as [r b].
Qed.
Lemma blind_bind {X Y} (m : Mach (Sys S) X) (k : X -> Mach (Sys S) Y) :
  blind m -> (forall x, blind (k x)) -> blind (bind m k).
Proof.
  intros Hm Hk g s. destruct (Hm g s) as (E & Ec & Hn). unfold bind. rewrite E.
  destruct (m s) as [[x|e] s']; cbn [fst snd] in *.
  - destruct (Hk x g s') as (-> & Ec' & ?). by rewrite Ec'.
  - split; [done|]. split; [done|]. intros [= ->]. by apply Hn.
Qed.

Lemma charge_blind g_vblank_threshold c g (s : Sys S) :
  charge g_vblank_threshold c (with_cpu g s) =
    (fst (charge g_vblank_threshold c s), with_cpu g (snd (charge g_vblank_threshold c s))).
Proof.
  unfold charge, glue_check_vblank. cbv beta iota delta [bind gets modify when].
  cbn [set_cycles with_cpu g_cycle_accumulator g_audio_cycle_counter].
  destruct (_ <=? _); [|done]. cbv beta iota delta [bind gets modify on_bus].
  cbn [set_cycles with_cpu g_cycle_accumulator bus].
  by destruct (mcd212_tick _ (bus s)) as [[[]|e] b].
Qed.
Lemma blind_charge g_vblank_threshold c :
  (forall n, never_unwinds (mcd212_tick n)) -> blind (charge g_vblank_threshold c).
Proof.
  intros tick_quiet g s. split; [apply charge_blind|]. split; [apply charge_cpu|].
  unfold charge, glue_check_vblank. cbv beta iota delta [bind gets modify when].
  cbn [set_cycles g_cycle_accumulator]. destruct (_ <=? _); [|done]. cbv beta iota delta [bind gets modify on_bus].
  cbn [set_cycles g_cycle_accumulator bus].
  pose proof (tick_quiet (u32 (g_cycle_accumulator s + c)) (bus s)) as Hq.
  destruct (mcd212_tick _ (bus s)) as [[[]|e] b]; [done|]. cbn in *. intros [= ->]. by apply Hq.
Qed.
End Registers.
