(* ===== verification/MemoryJob.v ===== *)
(** The native rectangle fill (runner/src/cdi_memory_jobs.c): the firmware
    routine at $4461EC replaced by its own effects in order, with the clock, the
    interrupts and the debugger looked at before each replaced instruction. *)

From Stdlib Require Import ZArith Lia Bool.
From stdpp Require Import base tactics numbers list.
From S2P Require Import Prelude Irq Cpu Interp Mcd212 Bus Job.
Open Scope Z_scope.
Open Scope mach_scope.

Record CdiMemoryJobState := mkMemoryStats {
  jobs : Z; bytes : Z; rows : Z; interrupted : Z; fallbacks : Z;   (* uint64_t *)
}.
Definition stats_reset : CdiMemoryJobState := mkMemoryStats 0 0 0 0 0.
Definition count_job (t : CdiMemoryJobState) :=
  mkMemoryStats (u64 (jobs t + 1)) (bytes t) (rows t) (interrupted t) (fallbacks t).
Definition count_byte (t : CdiMemoryJobState) :=
  mkMemoryStats (jobs t) (u64 (bytes t + 1)) (rows t) (interrupted t) (fallbacks t).
Definition count_row (t : CdiMemoryJobState) :=
  mkMemoryStats (jobs t) (bytes t) (u64 (rows t + 1)) (interrupted t) (fallbacks t).
Definition count_interrupt (t : CdiMemoryJobState) :=
  mkMemoryStats (jobs t) (bytes t) (rows t) (u64 (interrupted t + 1)) (fallbacks t).
Definition count_fallback (t : CdiMemoryJobState) :=
  mkMemoryStats (jobs t) (bytes t) (rows t) (interrupted t) (u64 (fallbacks t + 1)).

Definition FILL_ENTRY : Z := 0x4461EC.
Definition FILL_LIMIT : Z := 0x44621C.

(** The firmware bytes the job stands for. *)
Definition expected : list Z :=
  [0x48;0xE7;0x7E;0x80;0x20;0x40;0x24;0x2F;0x00;0x20;0x28;0x2F;0x00;0x28;0x98;0x81;
   0x26;0x2F;0x00;0x24;0x53;0x42;0x53;0x41;0x2A;0x01;0x10;0xC3;0x51;0xC9;0xFF;0xFC;
   0xD1;0xC4;0x22;0x05;0x51;0xCA;0xFF;0xF4;0x20;0x08;0x4C;0xDF;0x01;0x7E;0x4E;0x75].

Section MemoryJob.
Context {S : Type} `{JobHost S}.
Context (g_vblank_threshold : Z) (recomp_tail_call : Z -> Mach (Sys S) unit).

Let J := Job CdiMemoryJobState S.

Definition fallback : Mach J bool :=
  upd_stats count_fallback;;;
  tail_call_here recomp_tail_call;;;
  ret false.

Definition frontier (pc : Z) : Mach J bool :=
  job_cpu (set_PC pc);;;
  allowed <-- still_allowed FILL_ENTRY FILL_LIMIT;;
  if negb allowed then fallback
  else
    ready <-- gets (fun j => irq_ready (sys j));;
    when ready (upd_stats count_interrupt;;; on_sys recomp_take_irq);;;
    ret true.

(** [if(!frontier(pc,...)) return 1;] *)
Definition at_frontier (pc : Z) (k : Mach J bool) : Mach J bool :=
  ok <-- frontier pc;;
  if (ok : bool) then k else ret true.

Definition pay : Z -> Mach J unit := account g_vblank_threshold.

(** ** The operations *)
Definition op_save (sp : Z) : Mach (Sys S) unit :=
  a0 <-- getA 0;; on_bus (m68k_write32 (u32 (sp - 4)) a0);;;
  d6 <-- getD 6;; on_bus (m68k_write32 (u32 (sp - 8)) d6);;;
  d5 <-- getD 5;; on_bus (m68k_write32 (u32 (sp - 12)) d5);;;
  d4 <-- getD 4;; on_bus (m68k_write32 (u32 (sp - 16)) d4);;;
  d3 <-- getD 3;; on_bus (m68k_write32 (u32 (sp - 20)) d3);;;
  d2 <-- getD 2;; on_bus (m68k_write32 (u32 (sp - 24)) d2);;;
  d1 <-- getD 1;; on_bus (m68k_write32 (u32 (sp - 28)) d1);;;
  putA 7 (u32 (sp - 28)).

Definition op_base : Mach (Sys S) unit := d0 <-- getD 0;; putA 0 d0.

(** [D[reg] = m68k_read32(address); logic(D[reg], 32);] *)
Definition op_load (reg address : Z) : Mach (Sys S) unit :=
  v <-- on_bus (m68k_read32 address);;
  putD reg v;;;
  upd_cpu (fun c => set_SR (logic_sr v 32 (SR c)) c).

Definition op_gap : Mach (Sys S) unit :=
  d4 <-- getD 4;;
  d1 <-- getD 1;;
  upd_cpu (fun c => set_SR (subtract_sr d4 d1 32 (SR c)) c);;;
  putD 4 (subtract_result d4 d1 32).

Definition op_less_one (reg : Z) : Mach (Sys S) unit :=
  d <-- getD reg;;
  upd_cpu (fun c => set_SR (subtract_sr d 1 16 (SR c)) c);;;
  putD reg (low_word d (subtract_result d 1 16)).

(** [D[dst] = D[src]; logic(D[dst], 32);] *)
Definition op_copy (dst src : Z) : Mach (Sys S) unit :=
  v <-- getD src;;
  putD dst v;;;
  upd_cpu (fun c => set_SR (logic_sr v 32 (SR c)) c).

Definition op_store : Mach (Sys S) unit :=
  d3 <-- getD 3;;
  upd_cpu (fun c => set_SR (logic_sr d3 8 (SR c)) c);;;
  a0 <-- getA 0;;
  on_bus (m68k_write8 a0 (u8 d3));;;
  a0 <-- getA 0;;
  putA 0 (u32 (a0 + 1)).

Definition op_count (reg : Z) : Mach (Sys S) unit :=
  d <-- getD reg;;
  putD reg (low_word d (u16 (d - 1))).

Definition op_next_row : Mach (Sys S) unit :=
  a0 <-- getA 0;;
  d4 <-- getD 4;;
  putA 0 (u32 (a0 + d4)).

Definition op_result : Mach (Sys S) unit :=
  a0 <-- getA 0;;
  putD 0 a0;;;
  upd_cpu (fun c => set_SR (logic_sr a0 32 (SR c)) c).

Definition restore (sp reg : Z) : Mach (Sys S) unit :=
  v <-- on_bus (m68k_read32 (u32 (sp - 28 + 4 * (reg - 1))));;
  putD reg v.

Definition op_restore (sp : Z) : Mach (Sys S) unit :=
  restore sp 1;;; restore sp 2;;; restore sp 3;;;
  restore sp 4;;; restore sp 5;;; restore sp 6;;;
  a0 <-- on_bus (m68k_read32 (u32 (sp - 4)));;
  putA 0 a0;;;
  putA 7 sp.

(** ** The routine

    The inner loop turns once for each byte of a row and the outer one once for
    each row: one more than the low word of their counter. *)
Fixpoint fill_row (turns : nat) (next : Mach J bool) : Mach J bool :=
  match turns with
  | O => throw EUndefined
  | Datatypes.S turns' =>
    at_frontier 0x446206 (
    a0 <-- gets (fun j => lget (regA (g_cpu (sys j))) 0);;
    if negb (ram a0 1) then fallback;;; ret true
    else
      on_sys op_store;;;
      upd_stats count_byte;;;
      pay 11;;;
      at_frontier 0x446208 (
      on_sys (op_count 1);;;
      pay 17;;;
      d1 <-- on_sys (getD 1);;
      if negb (u16 d1 =? 0xFFFF) then fill_row turns' next else next))
  end.

Definition turns_of (d : Z) : nat := Datatypes.S (Z.to_nat (u16 d)).

Definition row (next : Mach J bool) : Mach J bool :=
  d1 <-- on_sys (getD 1);;
  fill_row (turns_of d1) next.

(** What follows a row: its end, and another row or the way out. *)
Definition after_row (again next : Mach J bool) : Mach J bool :=
  upd_stats count_row;;;
  at_frontier 0x44620C (
  on_sys op_next_row;;; pay 7;;;
  at_frontier 0x44620E (
  on_sys (op_copy 1 5);;; pay 7;;;
  at_frontier 0x446210 (
  on_sys (op_count 2);;;
  pay 17;;;
  d2 <-- on_sys (getD 2);;
  if u16 d2 =? 0xFFFF then next else again))).

Fixpoint fill_rows (turns : nat) (next : Mach J bool) : Mach J bool :=
  match turns with
  | O => throw EUndefined
  | Datatypes.S turns' => row (after_row (fill_rows turns' next) next)
  end.

Definition finish (sp : Z) : Mach J bool :=
  at_frontier 0x446214 (
  on_sys op_result;;; pay 7;;;
  at_frontier 0x446216 (
  on_sys (op_restore sp);;; pay 103;;;
  at_frontier 0x44621A (
  pay 15;;; ret true))).

Definition fill (sp : Z) : Mach J bool :=
  on_sys (op_save sp);;; pay 103;;;
  at_frontier 0x4461F0 (
  on_sys op_base;;; pay 7;;;
  at_frontier 0x4461F2 (
  on_sys (op_load 2 (u32 (sp + 4)));;; pay 22;;;
  at_frontier 0x4461F6 (
  on_sys (op_load 4 (u32 (sp + 12)));;; pay 22;;;
  at_frontier 0x4461FA (
  on_sys op_gap;;; pay 7;;;
  at_frontier 0x4461FC (
  on_sys (op_load 3 (u32 (sp + 8)));;; pay 22;;;
  at_frontier 0x446200 (
  on_sys (op_less_one 2);;; pay 7;;;
  at_frontier 0x446202 (
  on_sys (op_less_one 1);;; pay 7;;;
  at_frontier 0x446204 (
  on_sys (op_copy 5 1);;; pay 7;;;
  d2 <-- on_sys (getD 2);;
  fill_rows (turns_of d2) (finish sp))))))))).

(** [function] is the generated function about to be called, [cdi_memory_entry]
    the one the job replaces, if the ROM is the expected one. *)
Definition cdi_memory_dispatch (cdi_memory_entry : option Z) (function : Z) : Mach J bool :=
  d <-- job_debug;;
  observe (debug_native_job_epoch d);;;
  sp <-- on_sys (getA 7);;
  if bool_decide (cdi_memory_entry = Some function) && negb (Z.odd sp) &&
     ram (u32 (sp - 28)) 44 && debug_native_job_allowed FILL_ENTRY FILL_LIMIT d then
    ordinary <-- on_sys (ordinary_call_to FILL_ENTRY);;
    if negb ordinary then ret false
    else
      upd_stats count_job;;;
      job_cpu (set_PC FILL_ENTRY);;;
      on_sys debug_trace_block;;;
      fill sp
  else ret false.
End MemoryJob.

(** [cdi_memory_reset]: the job is on only for the expected firmware. *)
Definition cdi_memory_reset (recomp_native_find_entry : Z -> option Z) (rom : mem)
    : option Z * CdiMemoryJobState :=
  (if decide (mload rom (FILL_ENTRY - CDI_ROM_BASE) 48 = expected)
   then recomp_native_find_entry FILL_ENTRY else None,
   stats_reset).
