(* ===== verification/MemoryJobSpec.v ===== *)
(** The native rectangle fill is the firmware: each of its operations is the
    instruction it stands for, with the interpreter's effect and time, and a run
    of the job is a run of the firmware's instructions, up to the return, the
    hand-over to the generated code, or the exception that stops both. *)

From Stdlib Require Import ZArith Lia Bool.
From stdpp Require Import base tactics numbers list relations.
From S2P Require Import Prelude Irq Cpu Insn Alu Ea Cycles Interp CpuOk Ram Mcd212 Bus Job JobSpec MemoryJob.
Open Scope Z_scope.
Open Scope mach_scope.

(** * The firmware

    The instructions of the routine, as the decoder presents them. *)
Definition i_save := reg_move 0x4461EC [0x48E7; 0x7E80] MN_MOVEM L 0x27 0 0 0 0.
Definition i_base := reg_move 0x4461F0 [0x2040] MN_MOVEA L 0x00 0x08 0 0 0.
Definition i_height := reg_move 0x4461F2 [0x242F; 0x0020] MN_MOVE L 0x2F 0x02 2 0 0.
Definition i_pitch := reg_move 0x4461F6 [0x282F; 0x0028] MN_MOVE L 0x2F 0x04 4 0 0.
Definition i_gap := reg_move 0x4461FA [0x9881] MN_SUB L 0x01 0 4 0 0.
Definition i_colour := reg_move 0x4461FC [0x262F; 0x0024] MN_MOVE L 0x2F 0x03 3 0 0.
Definition i_less_row := reg_move 0x446200 [0x5342] MN_SUBQ W 0x02 0 2 1 0.
Definition i_less_byte := reg_move 0x446202 [0x5341] MN_SUBQ W 0x01 0 1 1 0.
Definition i_width := reg_move 0x446204 [0x2A01] MN_MOVE L 0x01 0x05 5 0 0.
Definition i_store := reg_move 0x446206 [0x10C3] MN_MOVE M68K_SIZE_B 0x03 0x18 0 0 0.
Definition i_byte_loop := reg_move 0x446208 [0x51C9; 0xFFFC] MN_DBcc W 0 0 1 0 0x446206.
Definition i_next_row := reg_move 0x44620C [0xD1C4] MN_ADDA L 0x04 0 0 0 0.
Definition i_rewind := reg_move 0x44620E [0x2205] MN_MOVE L 0x05 0x01 1 0 0.
Definition i_row_loop := reg_move 0x446210 [0x51CA; 0xFFF4] MN_DBcc W 0 0 2 0 0x446206.
Definition i_result := reg_move 0x446214 [0x2008] MN_MOVE L 0x08 0x00 0 0 0.
Definition i_restore := reg_move 0x446216 [0x4CDF; 0x017E] MN_MOVEM L 0x1F 0 0 0 0.
Definition i_return := reg_move 0x44621A [0x4E75] MN_RTS L 0 0 0 0 0.

Definition firmware : list M68KInstr :=
  [i_save; i_base; i_height; i_pitch; i_gap; i_colour; i_less_row; i_less_byte; i_width;
   i_store; i_byte_loop; i_next_row; i_rewind; i_row_loop; i_result; i_restore; i_return].

Lemma firmware_bytes : flat_map word_bytes (flat_map i_words firmware) = expected.
Proof. reflexivity. Qed.

Definition instruction_at (pc : Z) : option M68KInstr := program_at firmware pc.

Section Firmware.
Context {S : Type} `{JobHost S}.
Context (g_vblank_threshold : Z) (recomp_tail_call : Z -> Mach (Sys S) unit).

Let J := Job CdiMemoryJobState S.
Abbreviation leaves := (@JobSpec.leaves S).

(** One instruction of the routine. *)
Definition firmware_step : Mach (Sys S) unit := program_step g_vblank_threshold firmware.

(** ** Inside the routine: the registers exist, and the stack is where it was
    put. *)
Record in_fill (sp : Z) (c : M68KState) : Prop := {
  fill_nD : length (regD c) = 8%nat;
  fill_nA : length (regA c) = 8%nat;
  fill_SR : is_u16 (SR c);
  fill_A7 : lget (regA c) 7 = u32 (sp - 28);
}.

Lemma base_is sp : is_instruction (in_fill sp) i_base 7 op_base (fun _ => 0x4461F2).
Proof. intros s Hs. split; [reflexivity|]. unfold i_base, op_base. run_in. reflexivity. Qed.

Lemma store_is sp : is_instruction (in_fill sp) i_store 11 op_store (fun _ => 0x446208).
Proof.
  intros s Hs. split; [reflexivity|]. unfold i_store, op_store. run_in.
  rewrite with_logic by apply Hs. reflexivity.
Qed.

Lemma copy_is sp dst src pc words :
  (dst, src, pc, words) ∈ [(5, 1, 0x446204, 0x2A01); (1, 5, 0x44620E, 0x2205)] ->
  is_instruction (in_fill sp) (reg_move pc [words] MN_MOVE L src dst dst 0 0) 7
    (op_copy dst src) (fun _ => pc + 2).
Proof.
  intros Hin s Hs. rewrite !elem_of_cons, elem_of_nil in Hin.
  destruct Hin as [[= -> -> -> ->]|[[= -> -> -> ->]|[]]]; (split; [reflexivity|]);
    unfold op_copy; run_in; rewrite with_logic by apply Hs; reflexivity.
Qed.

Lemma result_is sp : is_instruction (in_fill sp) i_result 7 op_result (fun _ => 0x446216).
Proof.
  intros s Hs. split; [reflexivity|]. unfold i_result, op_result. run_in.
  rewrite with_logic by apply Hs. reflexivity.
Qed.

Lemma next_row_is sp : is_instruction (in_fill sp) i_next_row 7 op_next_row (fun _ => 0x44620E).
Proof. intros s Hs. split; [reflexivity|]. unfold i_next_row, op_next_row. run_in. reflexivity. Qed.

Lemma stack_address sp d c :
  in_fill sp c -> 0 <= d < 0x8000 -> u32 (lget (regA c) 7 + i16 d) = u32 (sp + (d - 28)).
Proof. intros Hc Hd. rewrite (fill_A7 _ _ Hc). unfold u32, i16. zlia. Qed.

Lemma load_is sp reg disp pc w1 :
  (reg, disp, pc, w1) ∈
    [(2, 0x20, 0x4461F2, 0x242F); (4, 0x28, 0x4461F6, 0x282F); (3, 0x24, 0x4461FC, 0x262F)] ->
  is_instruction (in_fill sp) (reg_move pc [w1; disp] MN_MOVE L 0x2F reg reg 0 0) 22
    (op_load reg (u32 (sp + (disp - 28)))) (fun _ => pc + 4).
Proof.
  intros Hin s Hs. rewrite !elem_of_cons, elem_of_nil in Hin.
  destruct Hin as [[= -> -> -> ->]|[[= -> -> -> ->]|[[= -> -> -> ->]|[]]]];
    (split; [reflexivity|]); unfold op_load; run_in;
    rewrite (stack_address sp) by (done || lia);
    (destruct (m68k_read32 _ _) as [[v|e] b]; [|reflexivity]);
    rewrite with_logic by apply Hs; reflexivity.
Qed.

Lemma gap_is sp : is_instruction (in_fill sp) i_gap 7 op_gap (fun _ => 0x4461FC).
Proof.
  intros s Hs. split; [reflexivity|]. unfold i_gap, op_gap. run_in.
  change (opc_dir _ =? 0) with true. cbv iota beta.
  erewrite (with_subtract _ (lget (regD (g_cpu s)) 1)) by (done || apply Hs).
  unfold subtract_result. change (size_mask 32) with (szmask M68K_SIZE_L).
  rewrite (land_szmask (u32 _)), (Z.mod_small (u32 _)) by apply u32_range. done.
Qed.

Lemma less_one_is sp reg pc w :
  (reg, pc, w) ∈ [(2, 0x446200, 0x5342); (1, 0x446202, 0x5341)] ->
  is_instruction (in_fill sp) (reg_move pc [w] MN_SUBQ W reg 0 reg 1 0) 7
    (op_less_one reg) (fun _ => pc + 2).
Proof.
  intros Hin s Hs. rewrite !elem_of_cons, elem_of_nil in Hin.
  destruct Hin as [[= -> -> ->]|[[= -> -> ->]|[]]];
    (split; [reflexivity|]); unfold op_less_one; run_in;
    change (if negb (1 =? 0) then 1 else 8) with 1; change (0 =? 1) with false; cbv iota beta;
    erewrite (with_subtract _ 1) by (done || apply Hs); reflexivity.
Qed.

Lemma dbcc_counter d : Z.land (u32 (Z.land d 0xFFFF - 1)) 0xFFFF = u16 (d - 1).
Proof. rewrite <- !u16_land. unfold u32, u16. zlia. Qed.

Lemma dbcc_again w : is_u16 w -> (i16 w =? -1) = (w =? 0xFFFF).
Proof. unfold is_word, i16. intros. apply eq_bool_prop_intro. rewrite !Is_true_true, !Z.eqb_eq. zlia. Qed.

Lemma count_is sp reg pc w d after :
  (reg, pc, w, d, after) ∈
    [(1, 0x446208, 0x51C9, 0xFFFC, 0x44620C); (2, 0x446210, 0x51CA, 0xFFF4, 0x446214)] ->
  is_instruction (in_fill sp) (reg_move pc [w; d] MN_DBcc W 0 0 reg 0 0x446206) 17
    (op_count reg)
    (fun c => if u16 (lget (regD c) reg) =? 0xFFFF then after else 0x446206).
Proof.
  intros Hin s Hs. rewrite !elem_of_cons, elem_of_nil in Hin.
  destruct Hin as [[= -> -> -> -> ->]|[[= -> -> -> -> ->]|[]]];
    (split; [reflexivity|]); unfold op_count; run_in;
    change (eval_cond _ _) with false; cbv iota beta;
    rewrite !dbcc_counter; change (szmask M68K_SIZE_W) with 0xFFFF;
    rewrite <- (u16_land (u16 _)), (u16_id (u16 _)), dbcc_again by apply u16_range;
    cbn [with_cpu g_cpu set_D regD];
    rewrite lget_lset_eq, low_word_low by (apply u16_range || rewrite (fill_nD _ _ Hs); lia);
    destruct (_ =? 0xFFFF); reflexivity.
Qed.
Ltac compute_bits :=
  repeat match goal with
  | |- context [Z.testbit (Zpos ?x) ?y] =>
    let v := eval vm_compute in (Z.testbit (Zpos x) y) in change (Z.testbit (Zpos x) y) with v
  end.

Ltac compute_order :=
  repeat match goal with
  | |- context [Zpos ?x <? Zpos ?y] =>
    let v := eval vm_compute in (Zpos x <? Zpos y) in change (Zpos x <? Zpos y) with v
  | |- context [Zpos ?x <=? Zpos ?y] =>
    let v := eval vm_compute in (Zpos x <=? Zpos y) in change (Zpos x <=? Zpos y) with v
  | |- context [Zpos ?x - Zpos ?y] =>
    let v := eval vm_compute in (Zpos x - Zpos y) in change (Zpos x - Zpos y) with v
  | |- context [Zpos ?x + Zpos ?y] =>
    let v := eval vm_compute in (Zpos x + Zpos y) in change (Zpos x + Zpos y) with v
  end.

(** One bit of the list a MOVEM moves. *)
Lemma predec_skip sz mask bit bits mb :
  Z.testbit mask bit = false -> movem_predec sz mask (bit :: bits) mb = movem_predec sz mask bits mb.
Proof. intros E. cbn [movem_predec]. by rewrite E. Qed.
Lemma predec_take sz mask bit bits mb :
  Z.testbit mask bit = true ->
  movem_predec sz mask (bit :: bits) mb =
  bind (get_reg (bit <? 8) (if bit <? 8 then 7 - bit else 15 - bit)) (fun rv =>
  bind (mem_write (movem_size sz) (u32 (mb - szbytes (movem_size sz))) rv) (fun _ =>
  movem_predec sz mask bits (u32 (mb - szbytes (movem_size sz))))).
Proof. intros E. cbn [movem_predec]. by rewrite E. Qed.
Lemma load_skip sz mask bit bits mb :
  Z.testbit mask bit = false -> movem_load sz mask (bit :: bits) mb = movem_load sz mask bits mb.
Proof. intros E. cbn [movem_load]. by rewrite E. Qed.
Lemma load_take sz mask bit bits mb :
  Z.testbit mask bit = true ->
  movem_load sz mask (bit :: bits) mb =
  bind (mem_read (movem_size sz) mb) (fun v =>
  bind (put_reg (8 <=? bit) (if 8 <=? bit then bit - 8 else bit) (sext v (movem_size sz))) (fun _ =>
  movem_load sz mask bits (u32 (mb + szbytes (movem_size sz))))).
Proof. intros E. cbn [movem_load]. by rewrite E. Qed.

(** The registers a MOVEM moves, one access each.  The list is worked out
    before the accesses are run. *)
Ltac run_movem :=
  cbv beta iota delta [exec_one i_mnemonic reg_move exec_movem L];
  unfold do_movem, movem_base, word0, i_words, i_src_ea, i_size;
  compute_at ea_mode; compute_at ea_reg;
  repeat match goal with |- context [lget [?a; ?b] ?i] =>
    let v := eval vm_compute in (lget [a; b] i) in change (lget [a; b] i) with v end;
  compute_bits; cbn [negb andb Z.eqb Pos.eqb]; unfold movem_bits;
  cbv beta iota delta [bind getA gets];
  repeat first [ rewrite predec_skip by reflexivity | rewrite predec_take by reflexivity
               | rewrite load_skip by reflexivity | rewrite load_take by reflexivity ];
  cbn [movem_predec movem_load]; unfold get_reg, put_reg; compute_order; cbv beta iota;
  cbv beta iota delta [mem_read mem_write getA getD putA putD upd_cpu on_bus bind ret gets modify when
    movem_size szbytes sext done fall i_addr i_byte_length].

Lemma u32_sub_sub x a b : u32 (u32 (x - a) - b) = u32 (x - (a + b)).
Proof. unfold u32. zlia. Qed.

(** On entry, the stack pointer is the caller's. *)
Record at_entry (sp : Z) (c : M68KState) : Prop := {
  entry_nD : length (regD c) = 8%nat;
  entry_nA : length (regA c) = 8%nat;
  entry_SR : is_u16 (SR c);
  entry_A7 : lget (regA c) 7 = sp;
}.

Lemma save_is sp : is_instruction (at_entry sp) i_save 103 (op_save sp) (fun _ => 0x4461F0).
Proof.
  intros s Hs. split; [reflexivity|]. unfold i_save, op_save. run_movem. 
  rewrite (entry_A7 _ _ Hs), !u32_sub_sub. compute_order.
  repeat (destruct (m68k_write32 _ _ _) as [[[]|?] ?]; [cbn [set_bus bus g_cpu]|reflexivity]).
  reflexivity.
Qed.

Lemma u32_less_back x a b : u32 (u32 (x - a) + b) = u32 (x - (a - b)).
Proof. unfold u32. zlia. Qed.
Lemma sub_add x a b : x - a + b = x - (a - b).
Proof. lia. Qed.

Lemma restore_is sp :
  is_u32 sp -> is_instruction (in_fill sp) i_restore 103 (op_restore sp) (fun _ => 0x44621A).
Proof.
  intros Hsp s Hs. split; [reflexivity|]. unfold i_restore, op_restore, restore. run_movem.
  rewrite (fill_A7 _ _ Hs), !u32_less_back, !sub_add.
  repeat match goal with |- context [sp - ?e] =>
    lazymatch e with Z0 => fail | Zpos _ => fail | _ =>
      let v := eval vm_compute in e in change (sp - e) with (sp - v) end end.
  rewrite Z.sub_0_r, (u32_id sp Hsp).
  repeat (destruct (m68k_read32 _ _) as [[?|?] ?]; [cbn [set_bus bus g_cpu with_cpu]|reflexivity]).
  reflexivity.
Qed.

(** * What the operations do to the registers *)
Lemma in_fill_D sp i v c : in_fill sp c -> in_fill sp (set_D i v c).
Proof. intros []. split; cbn; autorewrite with mem; done. Qed.
Lemma in_fill_A0 sp v c : in_fill sp c -> in_fill sp (set_A 0 v c).
Proof.
  intros []. split; cbn [set_A regD regA SR]; rewrite ?length_lset; try done.
  by rewrite lget_lset_ne by lia.
Qed.
Lemma in_fill_SR sp v c : is_u16 v -> in_fill sp c -> in_fill sp (set_SR v c).
Proof. intros Hv []. by split. Qed.
Lemma in_fill_PC sp v c : in_fill sp c -> in_fill sp (set_PC v c).
Proof. intros []. by split. Qed.
Lemma subtract_sr_u16 a b bits sr : is_u16 (subtract_sr a b bits sr).
Proof.
  unfold subtract_sr. set (x := logic_sr _ _ _). assert (is_u16 x) by apply logic_sr_u16.
  destruct (_ <? _), (overflow_bit _ _ _); repeat (apply lor_word; [|done|done]); done.
Qed.

Ltac leave :=
  repeat first
    [ eapply leaves_bind; [first [ apply leaves_on_bus | intros ? Hx; exact Hx
        | apply leaves_upd; intros ? Hx;
          first [ apply in_fill_SR; [solve [apply logic_sr_u16 | apply subtract_sr_u16]|exact Hx]
                | apply in_fill_D; exact Hx | apply in_fill_A0; exact Hx ] ] | intros ? ]
    | apply leaves_upd; intros ? Hx;
      first [ apply in_fill_SR; [solve [apply logic_sr_u16 | apply subtract_sr_u16]|exact Hx]
            | apply in_fill_D; exact Hx | apply in_fill_A0; exact Hx ] ].

Lemma save_leaves sp : leaves (at_entry sp) (op_save sp) (in_fill sp).
Proof.
  unfold op_save.
  repeat (eapply leaves_bind; [first [apply leaves_on_bus|intros ? Hx; exact Hx]|intros ?]).
  apply leaves_upd. intros c Hc. destruct Hc as [HD HA Hsr _].
  split; cbn [set_A regD regA SR]; rewrite ?length_lset; try done.
  by rewrite lget_lset_eq by (rewrite HA; lia).
Qed.
Lemma base_leaves sp : leaves (in_fill sp) op_base (in_fill sp).
Proof. unfold op_base. leave. Qed.
Lemma load_leaves sp reg a : leaves (in_fill sp) (op_load reg a) (in_fill sp).
Proof. unfold op_load. leave. Qed.
Lemma gap_leaves sp : leaves (in_fill sp) op_gap (in_fill sp).
Proof. unfold op_gap. leave. Qed.
Lemma less_one_leaves sp reg : leaves (in_fill sp) (op_less_one reg) (in_fill sp).
Proof. unfold op_less_one. leave. Qed.
Lemma copy_leaves sp dst src : leaves (in_fill sp) (op_copy dst src) (in_fill sp).
Proof. unfold op_copy. leave. Qed.
Lemma result_leaves sp : leaves (in_fill sp) op_result (in_fill sp).
Proof. unfold op_result. leave. Qed.

(** Inside the rectangle: the bytes and the rows left, less one. *)
Record in_row (sp d1 d2 : Z) (c : M68KState) : Prop := {
  row_fill : in_fill sp c;
  row_d1 : lget (regD c) 1 = d1;
  row_d2 : lget (regD c) 2 = d2;
}.

Lemma in_row_A0 sp d1 d2 v c : in_row sp d1 d2 c -> in_row sp d1 d2 (set_A 0 v c).
Proof. intros []. split; [by apply in_fill_A0|done|done]. Qed.
Lemma in_row_SR sp d1 d2 v c : is_u16 v -> in_row sp d1 d2 c -> in_row sp d1 d2 (set_SR v c).
Proof. intros Hv []. split; [by apply in_fill_SR|done|done]. Qed.
Lemma in_row_PC sp d1 d2 v c : in_row sp d1 d2 c -> in_row sp d1 d2 (set_PC v c).
Proof. intros []. split; [by apply in_fill_PC|done|done]. Qed.
Lemma in_row_D1 sp d1 d2 v c : in_row sp d1 d2 c -> in_row sp v d2 (set_D 1 v c).
Proof.
  intros [Hf _ H2]. split; [by apply in_fill_D| |].
  - cbn [set_D regD]. rewrite lget_lset_eq; [done|]. rewrite (fill_nD _ _ Hf). lia.
  - cbn [set_D regD]. by rewrite lget_lset_ne by lia.
Qed.
Lemma in_row_D2 sp d1 d2 v c : in_row sp d1 d2 c -> in_row sp d1 v (set_D 2 v c).
Proof.
  intros [Hf H1 _]. split; [by apply in_fill_D| |].
  - cbn [set_D regD]. by rewrite lget_lset_ne by lia.
  - cbn [set_D regD]. rewrite lget_lset_eq; [done|]. rewrite (fill_nD _ _ Hf). lia.
Qed.
Lemma in_fill_row sp c : in_fill sp c -> in_row sp (lget (regD c) 1) (lget (regD c) 2) c.
Proof. by split. Qed.

Lemma store_leaves sp d1 d2 : leaves (in_row sp d1 d2) op_store (in_row sp d1 d2).
Proof.
  unfold op_store. eapply leaves_bind; [intros ? Hx; exact Hx|]. intros d3.
  eapply leaves_bind; [apply leaves_upd; intros c Hc; apply in_row_SR; [apply logic_sr_u16|exact Hc]|].
  intros _. eapply leaves_bind; [intros ? Hx; exact Hx|]. intros a0.
  eapply leaves_bind; [apply leaves_on_bus|]. intros _.
  eapply leaves_bind; [intros ? Hx; exact Hx|]. intros a0'. apply leaves_upd.
  intros c. apply in_row_A0.
Qed.
Lemma count_byte_leaves sp d1 d2 :
  leaves (in_row sp d1 d2) (op_count 1) (in_row sp (low_word d1 (u16 (d1 - 1))) d2).
Proof. intros s Hs. cbn. rewrite (row_d1 _ _ _ _ Hs). by eapply in_row_D1. Qed.
Lemma count_row_leaves sp d1 d2 :
  leaves (in_row sp d1 d2) (op_count 2) (in_row sp d1 (low_word d2 (u16 (d2 - 1)))).
Proof. intros s Hs. cbn. rewrite (row_d2 _ _ _ _ Hs). by eapply in_row_D2. Qed.
Lemma next_row_leaves sp d1 d2 : leaves (in_row sp d1 d2) op_next_row (in_row sp d1 d2).
Proof. intros s Hs. cbn. by apply in_row_A0. Qed.
Lemma rewind_leaves sp d1 d2 :
  leaves (in_row sp d1 d2) (op_copy 1 5) (fun c => exists d1', in_row sp d1' d2 c).
Proof.
  intros s Hs. cbn. eexists. apply in_row_SR; [apply logic_sr_u16|]. by eapply in_row_D1.
Qed.

(** * A run of the job is a run of the firmware *)
Definition FILL_RETURN : Z := 0x44621A.

Definition steps : Sys S -> Sys S -> Prop := rtc (fun s s' => firmware_step s = (Ok tt, s')).

(** A computation that ends the job in [r]: its result, and its state. *)
Definition ends (m : Mach (Sys S) unit) (f : Sys S) (r : result bool * J) : Prop :=
  match m f with
  | (Ok _, s) => fst r = Ok true /\ sys (snd r) = s
  | (Exn e, s) => fst r = Exn e /\ sys (snd r) = s
  end.

(** Why a job hands the rest over: the debugger wants an instruction of the
    routine, or the next byte is not in memory. *)
Definition hands_over (f : Sys S) : Prop :=
  debug_native_job_allowed FILL_ENTRY FILL_LIMIT (debug_of (bus f)) = false \/
  (PC (g_cpu f) = 0x446206 /\ ram (lget (regA (g_cpu f)) 0) 1 = false).

(** [r] is what the firmware comes to from [f]. *)
Inductive follows (f : Sys S) (r : result bool * J) : Prop :=
| Returns f' :
    steps f f' -> PC (g_cpu f') = FILL_RETURN -> ends (charge g_vblank_threshold 15) f' r ->
    follows f r
| HandsOver f' :
    steps f f' -> hands_over f' -> ends (recomp_tail_call (PC (g_cpu f'))) f' r -> follows f r
| Raises f' e s :
    steps f f' -> firmware_step f' = (Exn e, s) -> fst r = Exn e -> sys (snd r) = s ->
    follows f r.

Lemma follows_step f f' r : firmware_step f = (Ok tt, f') -> follows f' r -> follows f r.
Proof.
  intros Hs [g Hg|g Hg|g e s Hg].
  - eapply Returns; [|done|done]. by eapply rtc_l.
  - eapply HandsOver; [|done|done]. by eapply rtc_l.
  - eapply Raises; [|done|done|done]. by eapply rtc_l.
Qed.

(** The firmware at the instruction [pc] of a job's machine. *)
Definition at_pc (pc : Z) (j : J) : Sys S := with_cpu (set_PC pc) (sys j).

Lemma fallback_follows f (j : J) :
  sys j = f -> hands_over f -> follows f (bind (fallback recomp_tail_call) (fun _ => ret true) j).
Proof.
  intros <- Hh. apply HandsOver with (sys j); [by apply rtc_refl|done|].
  unfold ends, fallback, tail_call_here.
  cbv beta iota delta [bind upd_stats modify gets on_sys]. cbn [sys].
  by destruct (recomp_tail_call _ _) as [[[]|e] s'].
Qed.

Definition deliver : Mach J bool :=
  bind (gets (fun j => irq_ready (sys j))) (fun ready =>
  bind (when ready (bind (upd_stats count_interrupt) (fun _ => on_sys recomp_take_irq))) (fun _ =>
  ret true)).

Lemma frontier_run pc (j : J) :
  exists j', sys j' = at_pc pc j /\
    (frontier recomp_tail_call pc j = deliver j' \/
     debug_native_job_allowed FILL_ENTRY FILL_LIMIT (debug_of (bus (at_pc pc j))) = false /\
     frontier recomp_tail_call pc j = fallback recomp_tail_call j').
Proof.
  unfold frontier, job_cpu, still_allowed, job_debug.
  cbv beta iota delta [bind on_sys upd_cpu modify gets observe].
  cbn [sys g_native_insn_count stats observation_epoch]. fold (at_pc pc j).
  set (d := debug_of (bus (at_pc pc j))).
  destruct (debug_native_job_epoch d =? observation_epoch j).
  { eexists. split; [|left; reflexivity]. done. }
  cbn [ret]. cbv beta iota delta [ret].
  destruct (debug_native_job_allowed FILL_ENTRY FILL_LIMIT d) eqn:Ed.
  - eexists. split; [|left; reflexivity]. done.
  - eexists. split; [|right; split; [done|reflexivity]]. done.
Qed.

Lemma frontier_follows pc k (j : J) :
  (forall j', sys j' = at_pc pc j -> irq_ready (at_pc pc j) = false -> follows (at_pc pc j) (k j')) ->
  follows (at_pc pc j) (at_frontier recomp_tail_call pc k j).
Proof.
  intros Hk. destruct (frontier_run pc j) as (j' & Ej & [E|[Hd E]]);
    unfold at_frontier, bind at 1; rewrite E.
  - unfold deliver. cbv beta iota delta [bind gets ret]. rewrite Ej.
    destruct (irq_ready (at_pc pc j)) eqn:Er; [|by apply Hk].
    cbv beta iota delta [when bind upd_stats modify on_sys]. cbn [sys]. rewrite Ej.
    destruct (ready_throws _ Er) as (e & s' & Ht). rewrite Ht.
    apply Raises with (at_pc pc j) e s'; [by apply rtc_refl|by apply program_step_irq|done|done].
  - pose proof (fallback_follows (at_pc pc j) j' Ej (or_introl Hd)) as H1.
    unfold bind at 1 in H1. unfold fallback in *.
    cbv beta iota delta [bind upd_stats modify ret] in *.
    destruct (tail_call_here recomp_tail_call _) as [[[]|e] j'']; exact H1.
Qed.

(** An operation that is the instruction at [pc]: [m] is the bookkeeping the job
    does between the operation and its charge. *)
Lemma op_follows P Q pc ins cyc op next m k (j : J) f :
  sys j = f -> PC (g_cpu f) = pc -> irq_ready f = false ->
  instruction_at pc = Some ins -> is_instruction P ins cyc op next -> leaves P op Q ->
  P (g_cpu f) -> (forall c, Z.land (next c) 0xFFFFFF = next c) ->
  (forall j, exists j', (m : Mach J unit) j = (Ok tt, j') /\ sys j' = sys j) ->
  (forall j', Q (g_cpu (sys j')) -> follows (at_pc (next (g_cpu (sys j'))) j') (k j')) ->
  follows f (bind (on_sys op) (fun _ => bind m (fun _ => bind (pay g_vblank_threshold cyc) (fun _ => k))) j).
Proof.
  intros <- Hpc Hr Hat His Hl HP Hn Hm Hk.
  specialize (Hl (sys j) HP).
  pose proof (program_step_run g_vblank_threshold firmware P pc ins cyc op next (sys j) Hpc Hr Hat His HP Hn) as Estep.
  fold firmware_step in Estep.
  unfold bind at 1 in Estep. unfold bind at 1. unfold on_sys at 1.
  destruct (op (sys j)) as [[[]|e] s'] eqn:Eop.
  - set (j1 := mkJob _ _ _ _). destruct (Hm j1) as (j2 & Em & Ej2).
    unfold bind at 1. rewrite Em. unfold bind at 1. unfold pay, account.
    cbv beta iota delta [bind modify on_sys]. cbn [sys]. rewrite Ej2. cbn [sys j1].
    cbv beta iota delta [bind gets] in Estep.
    pose proof (charge_cpu g_vblank_threshold cyc s') as Hcpu.
    destruct (charge g_vblank_threshold cyc s') as [[[]|e] s''] eqn:Ec; cbn [snd] in Hcpu.
    + eapply follows_step; [rewrite Estep; reflexivity|]. rewrite <- Hcpu in Hl |- *.
      apply (Hk (mkJob s'' _ _ _)). exact Hl.
    + by eapply Raises; [apply rtc_refl|exact Estep|..].
  - by eapply Raises; [apply rtc_refl|exact Estep|..].
Qed.

(** One frontier and its operation. *)
Lemma instruction_follows P Q pc ins cyc op next k (j : J) :
  instruction_at pc = Some ins -> is_instruction P ins cyc op next -> leaves P op Q ->
  (forall c, P c -> P (set_PC pc c)) -> P (g_cpu (sys j)) ->
  (forall c, Z.land (next c) 0xFFFFFF = next c) ->
  (forall j', Q (g_cpu (sys j')) -> follows (at_pc (next (g_cpu (sys j'))) j') (k j')) ->
  follows (at_pc pc j)
    (at_frontier recomp_tail_call pc
      (bind (on_sys op) (fun _ => bind (pay g_vblank_threshold cyc) (fun _ => k))) j).
Proof.
  intros Hat His Hl Hpc HP Hn Hk. apply frontier_follows. intros j' Ej Hr.
  apply (op_follows P Q pc ins cyc op next (ret tt) k j' (at_pc pc j)); try done.
  - by apply Hpc.
  - intros j0. by exists j0.
Qed.

Lemma turns_down d : u16 (low_word d (u16 (d - 1))) <> 0xFFFF ->
  turns_of d = Datatypes.S (turns_of (low_word d (u16 (d - 1)))).
Proof.
  rewrite low_word_low by apply u16_range. unfold turns_of. intros Hne.
  rewrite low_word_low by apply u16_range. f_equal.
  unfold u16 in *. rewrite <- Z2Nat.inj_succ by zlia. f_equal. zlia.
Qed.

Lemma row_follows sp d2 next turns : forall d1 (j : J),
  turns = turns_of d1 -> in_row sp d1 d2 (g_cpu (sys j)) ->
  (forall d1' j', in_row sp d1' d2 (g_cpu (sys j')) -> follows (at_pc 0x44620C j') (next j')) ->
  follows (at_pc 0x446206 j) (fill_row g_vblank_threshold recomp_tail_call turns next j).
Proof.
  induction turns as [|turns IH]; intros d1 j Ht Hrow Hnext; [done|].
  cbn [fill_row]. apply frontier_follows. intros j1 Ej1 Hr1. unfold bind at 1, gets at 1.
  rewrite Ej1. destruct (ram _ 1) eqn:Er; cbn [negb].
  2: { apply fallback_follows; [done|]. right. by split. }
  apply (op_follows (in_row sp d1 d2) (in_row sp d1 d2) 0x446206 i_store 11 op_store
    (fun _ => 0x446208) (upd_stats count_byte) _ j1 _ Ej1); try done.
  - intros s Hs. apply (store_is sp). apply Hs.
  - apply store_leaves.
  - by apply in_row_PC.
  - intros j0. by eexists.
  - intros j2 Hj2.
    apply (instruction_follows (in_row sp d1 d2) (in_row sp (low_word d1 (u16 (d1 - 1))) d2)
      0x446208 i_byte_loop 17 (op_count 1)
      (fun c => if u16 (lget (regD c) 1) =? 0xFFFF then 0x44620C else 0x446206)); try done.
    + intros s Hs. apply (count_is sp 1 0x446208 0x51C9 0xFFFC 0x44620C); [left|apply Hs].
    + apply count_byte_leaves.
    + intros c. apply in_row_PC.
    + intros c. by destruct (_ =? 0xFFFF).
    + intros j3 Hj3. unfold bind at 1, on_sys at 1. cbn [getD gets]. cbv beta iota delta [gets getD].
      destruct j3 as [s3 n3 st3 e3]. cbn [sys g_native_insn_count stats observation_epoch] in *.
      destruct (u16 (lget (regD (g_cpu s3)) 1) =? 0xFFFF) eqn:E; cbn [negb].
      * by eapply (Hnext _ (mkJob s3 n3 st3 e3)).
      * rewrite (row_d1 _ _ _ _ Hj3) in E. apply Z.eqb_neq, turns_down in E.
        eapply (IH _ (mkJob s3 n3 st3 e3)); [|exact Hj3|exact Hnext]. congruence.
Qed.

Lemma after_row_follows sp d1 d2 again next (j : J) :
  in_row sp d1 d2 (g_cpu (sys j)) ->
  (forall j', in_fill sp (g_cpu (sys j')) -> follows (at_pc 0x446214 j') (next j')) ->
  (forall d1' j', u16 (low_word d2 (u16 (d2 - 1))) <> 0xFFFF ->
    in_row sp d1' (low_word d2 (u16 (d2 - 1))) (g_cpu (sys j')) ->
    follows (at_pc 0x446206 j') (again j')) ->
  follows (at_pc 0x44620C j) (after_row g_vblank_threshold recomp_tail_call again next j).
Proof.
  intros Hrow Hnext Hagain. unfold after_row, bind at 1, upd_stats at 1, modify at 1.
  set (j2 := mkJob (sys j) _ _ _). change (at_pc 0x44620C j) with (at_pc 0x44620C j2).
  apply (instruction_follows (in_row sp d1 d2) (in_row sp d1 d2) 0x44620C i_next_row 7 op_next_row
    (fun _ => 0x44620E)); [done| |apply next_row_leaves|intros c; apply in_row_PC|done|done|].
  { intros s Hs. apply (next_row_is sp). apply Hs. }
  intros j3 Hj3.
  apply (instruction_follows (in_row sp d1 d2) (fun c => exists d1', in_row sp d1' d2 c)
    0x44620E i_rewind 7 (op_copy 1 5) (fun _ => 0x446210));
    [done| |apply rewind_leaves|intros c; apply in_row_PC|done|done|].
  { intros s Hs. apply (copy_is sp 1 5 0x44620E 0x2205); [by repeat constructor|apply Hs]. }
  intros j4 [d1'' Hj4].
  apply (instruction_follows (in_row sp d1'' d2) (in_row sp d1'' (low_word d2 (u16 (d2 - 1))))
    0x446210 i_row_loop 17 (op_count 2)
    (fun c => if u16 (lget (regD c) 2) =? 0xFFFF then 0x446214 else 0x446206));
    [done| |apply count_row_leaves|intros c; apply in_row_PC|done| |].
  { intros s Hs. apply (count_is sp 2 0x446210 0x51CA 0xFFF4 0x446214);
      [by repeat constructor|apply Hs]. }
  { intros c. by destruct (_ =? 0xFFFF). }
  intros [s5 n5 st5 e5] Hj5. unfold bind at 1, on_sys at 1. cbv beta iota delta [gets getD].
  cbn [sys g_native_insn_count stats observation_epoch] in *.
  destruct (u16 (lget (regD (g_cpu s5)) 2) =? 0xFFFF) eqn:E.
  - apply (Hnext (mkJob s5 n5 st5 e5)). apply Hj5.
  - rewrite (row_d2 _ _ _ _ Hj5) in E. apply Z.eqb_neq in E.
    by eapply (Hagain _ (mkJob s5 n5 st5 e5)).
Qed.

Lemma rows_follow sp next turns : forall d1 d2 (j : J),
  turns = turns_of d2 -> in_row sp d1 d2 (g_cpu (sys j)) ->
  (forall j', in_fill sp (g_cpu (sys j')) -> follows (at_pc 0x446214 j') (next j')) ->
  follows (at_pc 0x446206 j) (fill_rows g_vblank_threshold recomp_tail_call turns next j).
Proof.
  induction turns as [|turns IH]; intros d1 d2 j Ht Hrow Hnext; [done|].
  cbn [fill_rows]. unfold row, bind at 1, on_sys at 1. cbv beta iota delta [gets getD].
  destruct j as [s0 n0 st0 e0]. cbn [sys g_native_insn_count stats observation_epoch] in *.
  eapply (row_follows sp d2 _ _ d1 (mkJob s0 n0 st0 e0)); [by rewrite (row_d1 _ _ _ _ Hrow)|done|].
  intros d1' j1 Hj1. apply (after_row_follows sp d1' d2); [done|done|].
  intros d1'' j2 Hne Hj2. apply turns_down in Hne. eapply (IH d1''); [|exact Hj2|exact Hnext].
  congruence.
Qed.

Lemma finish_follows sp (j : J) :
  is_u32 sp -> in_fill sp (g_cpu (sys j)) ->
  follows (at_pc 0x446214 j) (finish g_vblank_threshold recomp_tail_call sp j).
Proof.
  intros Hsp Hj. unfold finish.
  apply (instruction_follows (in_fill sp) (in_fill sp) 0x446214 i_result 7 op_result
    (fun _ => 0x446216));
    [done|apply result_is|apply result_leaves|intros c; apply in_fill_PC|done|done|].
  intros j1 Hj1.
  apply (instruction_follows (in_fill sp) (fun _ => True) 0x446216 i_restore 103 (op_restore sp)
    (fun _ => 0x44621A)); [done|by apply restore_is| |intros c; apply in_fill_PC|done|done|].
  { intros s _. by destruct (op_restore sp s) as [[?|?] ?]. }
  intros j2 _. apply frontier_follows. intros j3 Ej3 Hr.
  apply Returns with (at_pc 0x44621A j2); [apply rtc_refl|done|].
  unfold ends, pay, account. cbv beta iota delta [bind modify on_sys ret]. cbn [sys].
  rewrite Ej3. by destruct (charge _ _ _) as [[[]|e] s'].
Qed.

(** The straight-line part: one instruction after another, at fixed places. *)
Lemma set_up sp pc ins cyc op n k (j : J) :
  instruction_at pc = Some ins -> is_instruction (in_fill sp) ins cyc op (fun _ => n) ->
  leaves (in_fill sp) op (in_fill sp) -> in_fill sp (g_cpu (sys j)) ->
  (forall j', in_fill sp (g_cpu (sys j')) -> follows (at_pc n j') (k j')) ->
  Z.land n 0xFFFFFF = n ->
  follows (at_pc pc j)
    (at_frontier recomp_tail_call pc
      (bind (on_sys op) (fun _ => bind (pay g_vblank_threshold cyc) (fun _ => k))) j).
Proof.
  intros Hat His Hl Hj Hk Hn.
  apply (instruction_follows (in_fill sp) (in_fill sp) pc ins cyc op (fun _ => n)); try done.
  intros c. apply in_fill_PC.
Qed.

Lemma fill_follows sp (j : J) f :
  is_u32 sp -> sys j = f -> PC (g_cpu f) = FILL_ENTRY -> irq_ready f = false ->
  at_entry sp (g_cpu f) ->
  follows f (fill g_vblank_threshold recomp_tail_call sp j).
Proof.
  intros Hsp Ej Hpc Hr Hf. unfold fill.
  apply (op_follows (at_entry sp) (in_fill sp) FILL_ENTRY i_save 103 (op_save sp)
    (fun _ => 0x4461F0) (ret tt) _ j f Ej Hpc Hr eq_refl (save_is sp) (save_leaves sp) Hf);
    [done|intros j0; by exists j0|].
  intros j1 Hj1. eapply set_up; [done|apply base_is|apply base_leaves|done| |done].
  intros j2 Hj2. eapply set_up; [done|by apply (load_is sp 2 0x20); repeat constructor|apply load_leaves|done| |done].
  intros j3 Hj3. eapply set_up; [done|by apply (load_is sp 4 0x28); repeat constructor|apply load_leaves|done| |done].
  intros j4 Hj4. eapply set_up; [done|apply gap_is|apply gap_leaves|done| |done].
  intros j5 Hj5. eapply set_up; [done|by apply (load_is sp 3 0x24); repeat constructor|apply load_leaves|done| |done].
  intros j6 Hj6. eapply set_up; [done|by apply (less_one_is sp 2); repeat constructor|apply less_one_leaves|done| |done].
  intros j7 Hj7. eapply set_up; [done|by apply (less_one_is sp 1); repeat constructor|apply less_one_leaves|done| |done].
  intros j8 Hj8. eapply set_up; [done|by apply (copy_is sp 5 1); repeat constructor|apply copy_leaves|done| |done].
  intros [s9 n9 st9 e9] Hj9. unfold bind at 1, on_sys at 1. cbv beta iota delta [gets getD].
  cbn [sys g_native_insn_count stats observation_epoch] in *.
  eapply (rows_follow sp _ _ _ _ (mkJob s9 n9 st9 e9)); [reflexivity|by apply in_fill_row|].
  intros j'. by apply finish_follows.
Qed.

(** C16. The native rectangle fill is the firmware routine it replaces.  The 48
    bytes it recognises are the routine's instructions; when the dispatcher takes
    a call over, the registers, memory, device time and counters it leaves are
    those of running the interpreter's instructions one by one, up to the return,
    up to the hand-over to the generated code (only when the debugger wants an
    instruction of the routine or the next byte is not in memory), or up to the
    interrupt, bus fault or failure of the clock, raised at the same instruction
    in the same state.  When it declines, the registers are untouched. *)
Theorem fill_is_firmware (entry : option Z) (function : Z) (j : J)
    (Hcpu : cpu_ok (g_cpu (sys j))) :
  flat_map word_bytes (flat_map i_words firmware) = expected /\
  let r := cdi_memory_dispatch g_vblank_threshold recomp_tail_call entry function j in
  (fst r <> Ok true /\ g_cpu (sys (snd r)) = g_cpu (sys j)) \/
  exists s, ordinary_call_to FILL_ENTRY (sys j) = (Ok true, s) /\ g_cpu s = g_cpu (sys j) /\
    follows (with_cpu (set_PC FILL_ENTRY) s) r.
Proof.
  split; [apply firmware_bytes|]. cbv zeta.
  unfold cdi_memory_dispatch, job_debug.
  cbv beta iota delta [bind gets observe modify on_sys getA ret]. cbn [sys g_cpu].
  set (sp := lget (regA (g_cpu (sys j))) 7). set (d := debug_of _).
  destruct (_ && _ && _ && _); [|left; split; [discriminate|done]].
  cbn [sys g_native_insn_count stats observation_epoch].
  pose proof (ordinary_call_cpu FILL_ENTRY (sys j)) as Hc.
  destruct (ordinary_call_to FILL_ENTRY (sys j)) as [[b|e] s] eqn:Eo; cbn [snd] in Hc;
    [|left; split; [discriminate|done]].
  destruct b; cbn [negb]; [|left; split; [discriminate|done]]. right. exists s. split; [done|]. split; [done|].
  cbv beta iota delta [upd_stats job_cpu modify on_sys upd_cpu].
  cbn [sys g_native_insn_count stats observation_epoch].
  set (f := with_cpu (set_PC FILL_ENTRY) s).
  destruct (irq_ready f) eqn:Er.
  - destruct (ready_throws _ Er) as (e & s' & Ht). rewrite ready_safepoint, Ht by done.
    apply Raises with f e s'; [by apply rtc_refl|by apply program_step_irq|done|done].
  - rewrite not_ready by done. apply fill_follows; try done.
    + by apply Forall_lget; [apply Hcpu|].
    + unfold f. split; cbn [with_cpu g_cpu set_PC regD regA SR]; rewrite ?Hc; try apply Hcpu. done.
Qed.
End Firmware.

(** A fill of two rows of three bytes, called by a JSR in the flat board's RAM. *)
Definition store_words (a : Z) (ws : list Z) (m : mem) : mem :=
  mstore m a (flat_map (fun w => [Z.shiftr w 8; Z.land w 0xFF]) ws).
Definition fill_ram : mem :=
  store_words 0x1000 [0x4EB9; 0x0044; 0x61EC]
    (store_words 0x8000 [0; 0x1006; 0; 2; 0; 0x55; 0; 0x10] ∅).
Definition fill_job : Job CdiMemoryJobState FlatBoard :=
  mkJob (mkSys (mkCpu [0x2000; 3; 0; 0; 0; 0; 0; 0] [0; 0; 0; 0; 0; 0; 0; 0x8000] 0x2700 0x1000 0 0)
    (mkFlat fill_ram 0 irq_reset 0) false false false 0 0 0 0 0 0 []) 0 stats_reset 0.

Lemma fill_is_firmware_witness :
  let dispatch := cdi_memory_dispatch 1 (fun _ => ret tt) (Some 7) 7 in
  fst (dispatch fill_job) = Ok true /\
  map (mget (fb_ram (bus (sys (snd (dispatch fill_job))))))
    [0x2000; 0x2001; 0x2002; 0x2003; 0x2010; 0x2011; 0x2012; 0x2013] =
    [0x55; 0x55; 0x55; 0; 0x55; 0x55; 0x55; 0] /\
  exists s, follows 1 (fun _ => ret tt) (with_cpu (set_PC FILL_ENTRY) s) (dispatch fill_job).
Proof.
  cbv zeta. split; [vm_compute; reflexivity|]. split; [vm_compute; reflexivity|].
  destruct (fill_is_firmware 1 (fun _ => ret tt) (Some 7) 7 fill_job) as [_ [[H _]|(s & _ & _ & H)]].
  - split; cbn; try (unfold is_word; lia); repeat constructor; unfold is_word; lia.
  - exfalso. apply H. vm_compute. reflexivity.
  - exists s. exact H.
Defined.
