(* ===== verification/DrawingJob.v ===== *)
(** The native drawing queue (runner/src/cdi_drawing_jobs.c): a stretch of guest
    code run in segments.  The memory accesses of a segment happen one by one,
    at their instruction's time; its registers stay as they were and are
    published once, by [finish], or worked out by [prefix] where something
    looks inside the segment. *)

From Stdlib Require Import ZArith Lia Bool.
From stdpp Require Import base tactics numbers list.
From S2P Require Import Prelude Irq Cpu Interp Mcd212 Bus Job.
Open Scope Z_scope.
Open Scope mach_scope.

Record DrawFrame := mkDrawFrame { f_base : Z; f_token : Z; f_epoch : Z }.

Record DrawRegisters := mkDrawRegs {
  r_d0 : Z; r_d4 : Z; r_d5 : Z; r_a0 : Z; r_a5 : Z; r_a6 : Z; r_sp : Z; r_sr : Z;
}.

Record DrawFlight := mkFlight {
  fl_before : DrawRegisters;
  fl_read : list Z;        (* uint32_t read[4] *)
  fl_pc : Z;
  fl_first : Z; fl_count : Z; fl_completed : Z;
}.
Definition set_completed (i : Z) (f : DrawFlight) : DrawFlight :=
  mkFlight (fl_before f) (fl_read f) (fl_pc f) (fl_first f) (fl_count f) i.
Definition set_fl_pc (pc : Z) (f : DrawFlight) : DrawFlight :=
  mkFlight (fl_before f) (fl_read f) pc (fl_first f) (fl_count f) (fl_completed f).
Definition set_count (n : Z) (f : DrawFlight) : DrawFlight :=
  mkFlight (fl_before f) (fl_read f) (fl_pc f) (fl_first f) n (fl_completed f).
Definition set_read (i v : Z) (f : DrawFlight) : DrawFlight :=
  mkFlight (fl_before f) (lset (fl_read f) i v) (fl_pc f) (fl_first f) (fl_count f) (fl_completed f).
Definition rd (i : Z) (f : DrawFlight) : Z := lget (fl_read f) i.

(** The instructions: offsets in the module's code, and their times. *)
Definition ops : list (Z * Z) :=
  [(0x7018,25);(0x701C,70);(0x7020,7);(0x7022,7);(0x7024,13);(0x7026,7);(0x7028,13);
   (0x702A,22);(0x702E,22);(0x7032,13);
   (0x7034,22);(0x7038,22);(0x703C,22);(0x7040,15);(0x7042,18);
   (0x7044,30);(0x7048,22);(0x704C,22);(0x7050,13);(0x7052,37);
   (0x7058,7);(0x705A,7);(0x705C,13);(0x705E,13);
   (0x7060,37);(0x7066,37);(0x706C,63);(0x7072,15);(0x7074,15)].
Definition op_at (op : Z) : Z * Z := nth (Z.to_nat op) ops (0, 0).
Definition op_pc (f : DrawFrame) (op : Z) : Z := u32 (f_base f + 0x10000 + fst (op_at op)).

Definition ram_range (a n : Z) : bool := negb (Z.odd a) && ram a n.

(** ** Condition codes, on the status register *)
Definition logic (value sr : Z) : Z :=
  Z.lor (Z.lor (Z.land sr 0xFFF0) (if value =? 0 then SR_Z else 0))
    (if z2b (Z.shiftr value 31) then SR_N else 0).
Definition compare (a b sr : Z) : Z :=
  let r := u32 (a - b) in
  let sr := logic r sr in
  let sr := if a <? b then Z.lor sr SR_C else sr in
  if z2b (Z.shiftr (Z.land (Z.lxor a b) (Z.lxor a r)) 31) then Z.lor sr SR_V else sr.
Definition add (a b sr : Z) : Z :=
  let r := u32 (a + b) in
  let sr := logic r (Z.land sr 0xFFEF) in
  let sr := if 0xFFFFFFFF <? a + b then Z.lor sr (Z.lor SR_X SR_C) else sr in
  if z2b (Z.shiftr (Z.land (Z.land 0xFFFFFFFF (Z.lnot (Z.lxor a b))) (Z.lxor a r)) 31)
  then Z.lor sr SR_V else sr.

Definition D (i : Z) (c : M68KState) : Z := lget (regD c) i.
Definition A (i : Z) (c : M68KState) : Z := lget (regA c) i.
Definition sr_by (f : Z -> Z) (c : M68KState) : M68KState := set_SR (f (SR c)) c.

(** ** The CPU inside a segment *)
Definition load_before (b : DrawRegisters) (c : M68KState) : M68KState :=
  let c := set_D 5 (r_d5 b) (set_D 4 (r_d4 b) (set_D 0 (r_d0 b) c)) in
  let c := set_A 6 (r_a6 b) (set_A 5 (r_a5 b) (set_A 0 (r_a0 b) c)) in
  set_SR (r_sr b) (set_A 7 (r_sp b) c).

(** What operation [op] does to the registers. *)
Definition prefix_step (f : DrawFlight) (op : Z) (s : M68KState) : M68KState :=
  match op with
  | 0 => let s := set_A 7 (u32 (A 7 s - 4)) s in set_A 5 (A 7 s) s
  | 1 => set_A 7 (u32 (A 7 s - 16)) s
  | 2 => let s := set_D 4 (D 0 s) s in sr_by (logic (D 4 s)) s
  | 3 => sr_by (logic (D 4 s)) s
  | 5 => sr_by (logic 0) (set_D 5 0 s)
  | 7 => let s := set_D 0 (rd 0 f) s in sr_by (logic (D 0 s)) s
  | 8 => sr_by (compare (D 0 s) (rd 1 f)) s
  | 10 => set_A 0 (rd 0 f) s
  | 11 => let s := set_D 0 (rd 1 f) s in sr_by (logic (D 0 s)) s
  | 12 => set_A 0 (rd 2 f) s
  | 13 => set_A 0 (rd 3 f) s
  | 14 => set_A 7 (u32 (A 7 s - 4)) s
  | 15 => sr_by (add (u32 (rd 0 f - 8)) 8) s
  | 16 => let s := set_D 0 (rd 1 f) s in sr_by (logic (D 0 s)) s
  | 17 => sr_by (compare (D 0 s) (rd 2 f)) s
  | 19 => sr_by (logic (rd 3 f)) s
  | 20 => let s := sr_by (add (D 5 s) 1) s in set_D 5 (u32 (D 5 s + 1)) s
  | 21 => sr_by (compare (D 5 s) (D 4 s)) s
  | 24 => sr_by (logic (rd 0 f)) s
  | 25 => sr_by (logic (rd 1 f)) s
  | 26 => set_A 0 (rd 2 f) (set_D 5 (rd 1 f) (set_D 4 (rd 0 f) s))
  | 27 => set_A 5 (rd 3 f) (set_A 7 (u32 (A 5 s + 4)) s)
  | _ => s
  end.

Definition prefix_steps (f : DrawFlight) (first n : Z) (s : M68KState) : M68KState :=
  fold_left (fun s op => prefix_step f op s) (seqZ first n) s.

Definition prefix (f : DrawFlight) (g_cpu : M68KState) : M68KState :=
  set_PC (fl_pc f) (prefix_steps f (fl_first f) (fl_completed f) (load_before (fl_before f) g_cpu)).

(** ** The registers a completed segment publishes *)
Definition finish (f : DrawFlight) (s : M68KState) : M68KState :=
  let b := fl_before f in
  set_PC (fl_pc f)
  match fl_first f with
  | 0 =>
    let s := set_D 4 (r_d0 b) (set_A 7 (u32 (r_sp b - 20)) (set_A 5 (u32 (r_sp b - 4)) s)) in
    if fl_count f =? 7 then sr_by (logic 0) (set_D 5 0 s) else sr_by (logic (D 4 s)) s
  | 7 => let s := set_D 0 (rd 0 f) s in sr_by (compare (D 0 s) (rd 1 f)) s
  | 10 =>
    let s := set_A 7 (u32 (r_sp b - 4)) (set_A 0 (rd 3 f) (set_D 0 (rd 1 f) s)) in
    sr_by (logic (D 0 s)) s
  | 15 =>
    let s := sr_by (fun sr => Z.land sr 0xFFEF) (set_D 0 (rd 1 f) s) in
    let s := if rd 0 f <? 8 then sr_by (fun sr => Z.lor sr SR_X) s else s in
    if fl_count f =? 5 then sr_by (logic (rd 3 f)) s else sr_by (compare (D 0 s) (rd 2 f)) s
  | 20 =>
    let s := sr_by (fun sr => Z.land sr 0xFFEF) s in
    let s := if r_d5 b =? 0xFFFFFFFF then sr_by (fun sr => Z.lor sr SR_X) s else s in
    let s := set_D 5 (u32 (r_d5 b + 1)) s in
    sr_by (compare (D 5 s) (D 4 s)) s
  | 21 => sr_by (compare (D 5 s) (D 4 s)) s
  | 24 => sr_by (logic (rd 1 f)) s
  | 26 =>
    let s := set_A 0 (rd 2 f) (set_D 5 (rd 1 f) (set_D 4 (rd 0 f) s)) in
    set_A 5 (rd 3 f) (set_A 7 (u32 (r_a5 b + 4)) s)
  | _ => s
  end.

(** ** What a segment asks of the rest of the runtime *)
Class NativeHost (S : Type) `{Board S} : Type := {
  g_cdi_native_invalidation_epoch : S -> Z;
  instruction_valid : Z -> Z -> S -> bool;       (* address, token: of the job's module *)
  job_binding : Z -> S -> option (Z * Z);        (* caller: base and token *)
}.

Record CdiDrawingJobState := mkDrawingStats {
  jobs : Z; empty_checks : Z; callbacks : Z; interrupted : Z; fallbacks : Z;
}.
Definition count_job (t : CdiDrawingJobState) :=
  mkDrawingStats (u64 (jobs t + 1)) (empty_checks t) (callbacks t) (interrupted t) (fallbacks t).
Definition count_empty (t : CdiDrawingJobState) :=
  mkDrawingStats (jobs t) (u64 (empty_checks t + 1)) (callbacks t) (interrupted t) (fallbacks t).
Definition count_callback (t : CdiDrawingJobState) :=
  mkDrawingStats (jobs t) (empty_checks t) (u64 (callbacks t + 1)) (interrupted t) (fallbacks t).
Definition count_interrupt (t : CdiDrawingJobState) :=
  mkDrawingStats (jobs t) (empty_checks t) (callbacks t) (u64 (interrupted t + 1)) (fallbacks t).
Definition count_fallback (t : CdiDrawingJobState) :=
  mkDrawingStats (jobs t) (empty_checks t) (callbacks t) (interrupted t) (u64 (fallbacks t + 1)).

(** The statics of the file, the job's frame, and the redirect it can leave. *)
Record Drawing := mkDrawing {
  dr_stats : CdiDrawingJobState;
  active : option DrawFlight;
  frame : DrawFrame;
  redirect : option Z;      (* g_redirect_addr while g_redirect_pending *)
}.
Definition in_stats (f : CdiDrawingJobState -> CdiDrawingJobState) (d : Drawing) : Drawing :=
  mkDrawing (f (dr_stats d)) (active d) (frame d) (redirect d).
Definition set_active (a : option DrawFlight) (d : Drawing) : Drawing :=
  mkDrawing (dr_stats d) a (frame d) (redirect d).
Definition set_frame_epoch (e : Z) (d : Drawing) : Drawing :=
  mkDrawing (dr_stats d) (active d) (mkDrawFrame (f_base (frame d)) (f_token (frame d)) e) (redirect d).
Definition set_redirect (a : Z) (d : Drawing) : Drawing :=
  mkDrawing (dr_stats d) (active d) (frame d) (Some a).

Definition DRAW_FIRST : Z := 0x17018.
Definition DRAW_LIMIT : Z := 0x17076.

Section DrawingJob.
Context {S : Type} `{JobHost S} {nat_host : NativeHost S}.
Context (g_vblank_threshold : Z) (recomp_tail_call : Z -> Mach (Sys S) unit).

Let J := Job Drawing S.

(** ** Memory *)
Definition guarded (a n : Z) (m : Mach (Sys S) DrawFlight) : Mach (Sys S) (option DrawFlight) :=
  if negb (ram_range a n) then ret None else f <-- m;; ret (Some f).

Definition read_to (i a : Z) (f : DrawFlight) : Mach (Sys S) DrawFlight :=
  v <-- on_bus (m68k_read32 a);; ret (set_read i (u32 v) f).

(** The access of operation [op]: [None] when it is not of ordinary memory. *)
Definition memory_action (base : Z) (f : DrawFlight) (op : Z) : Mach (Sys S) (option DrawFlight) :=
  let b := fl_before f in
  let below_a6 d := u32 (r_a6 b - d) in
  let below_sp d := u32 (r_sp b - d) in
  let write a v := on_bus (m68k_write32 a v) in
  match op with
  | 0 => guarded (below_sp 4) 4 (write (below_sp 4) (r_a5 b);;; ret f)
  | 1 => guarded (below_sp 20) 16
      (write (below_sp 8) (r_a0 b);;; write (below_sp 12) (r_d5 b);;;
       write (below_sp 16) (r_d4 b);;; write (below_sp 20) (r_d0 b);;; ret f)
  | 7 => guarded (below_a6 0x6E52) 4 (read_to 0 (below_a6 0x6E52) f)
  | 8 => guarded (below_a6 0x6E4E) 4 (read_to 1 (below_a6 0x6E4E) f)
  | 10 => guarded (below_a6 0x6E4E) 4 (read_to 0 (below_a6 0x6E4E) f)
  | 11 => guarded (u32 (rd 0 f + 4)) 4 (read_to 1 (u32 (rd 0 f + 4)) f)
  | 12 => guarded (below_a6 0x6E4E) 4 (read_to 2 (below_a6 0x6E4E) f)
  | 13 => guarded (rd 2 f) 4 (read_to 3 (rd 2 f) f)
  | 14 => guarded (below_sp 4) 4 (write (below_sp 4) (u32 (base + 0x17044));;; ret f)
  | 15 => guarded (below_a6 0x6E4E) 4
      (v <-- on_bus (m68k_read32 (below_a6 0x6E4E));;
       let f := set_read 0 (u32 (v + 8)) f in
       write (below_a6 0x6E4E) (rd 0 f);;; ret f)
  | 16 => guarded (below_a6 0x6E4E) 4 (read_to 1 (below_a6 0x6E4E) f)
  | 17 => guarded (below_a6 0x6E56) 4 (read_to 2 (below_a6 0x6E56) f)
  | 19 => guarded (below_a6 0x6E5A) 16
      (f <-- read_to 3 (below_a6 0x6E5A) f;;
       write (below_a6 0x6E4E) (rd 3 f);;; ret f)
  | 24 | 25 => guarded (below_a6 0x6E5A) 16
      (f <-- read_to (op - 24) (below_a6 0x6E5A) f;;
       write (below_a6 (if op =? 24 then 0x6E52 else 0x6E4E)) (rd (op - 24) f);;; ret f)
  | 26 => let a := u32 (r_a5 b - 12) in
      guarded a 12
        (f <-- read_to 0 a f;; f <-- read_to 1 (u32 (a + 4)) f;; read_to 2 (u32 (a + 8)) f)
  | 27 => guarded (r_a5 b) 4 (read_to 3 (r_a5 b) f)
  | _ => ret (Some f)
  end.

(** ** A segment *)
Definition upd (f : Drawing -> Drawing) : Mach J unit := upd_stats f.

Definition fallback (f : DrawFlight) : Mach J unit :=
  job_cpu (prefix f);;;
  upd (set_active None);;;
  upd (in_stats count_fallback);;;
  tail_call_here recomp_tail_call.

(** Is the code at the flight's address still the module's?  If not, the
    trampoline starts again from there. *)
Definition still_valid (f : DrawFlight) : Mach J bool :=
  fr <-- gets (fun j => frame (stats j));;
  epoch <-- gets (fun j => g_cdi_native_invalidation_epoch (bus (sys j)));;
  if f_epoch fr =? epoch then ret true
  else
    upd (set_frame_epoch epoch);;;
    valid <-- gets (fun j => instruction_valid (fl_pc f) (f_token fr) (bus (sys j)));;
    if (valid : bool) then ret true
    else
      job_cpu (prefix f);;;
      upd (set_active None);;;
      pc <-- gets (fun j => PC (g_cpu (sys j)));;
      upd (set_redirect pc);;;
      ret false.

Definition observed (f : DrawFlight) : Mach J bool :=
  fr <-- gets (fun j => frame (stats j));;
  allowed <-- still_allowed (u32 (f_base fr + DRAW_FIRST)) (u32 (f_base fr + DRAW_LIMIT));;
  if (allowed : bool) then ret true
  else fallback f;;; ret false.

Definition interruptible (f : DrawFlight) : Mach J unit :=
  ready <-- gets (fun j => irq_ready (sys j));;
  when ready
    (job_cpu (prefix f);;;
     upd (set_active None);;;
     upd (in_stats count_interrupt);;;
     on_sys recomp_take_irq).

Definition publish (f : DrawFlight) : Mach J bool :=
  job_cpu (finish f);;;
  upd (set_active None);;;
  ret true.

(** [turns] operations from [fl_completed f] on.  The queue's end is found by
    operation 18: its branch is taken when the pointer has not passed. *)
Fixpoint segment_ops (turns : nat) (f : DrawFlight) : Mach J bool :=
  match turns with
  | O => publish f
  | Datatypes.S turns' =>
    let op := fl_first f + fl_completed f in
    fr <-- gets (fun j => frame (stats j));;
    let f := set_fl_pc (op_pc fr op) f in
    upd (set_active (Some f));;;
    job_cpu (set_PC (fl_pc f));;;
    valid <-- still_valid f;;
    if negb valid then ret false
    else
      seen <-- observed f;;
      if negb seen then ret false
      else
        interruptible f;;;
        out <-- on_sys (memory_action (f_base fr) f op);;
        match out with
        | None => fallback f;;; ret false
        | Some f =>
          let f := set_completed (fl_completed f + 1) f in
          upd (set_active (Some f));;;
          account g_vblank_threshold (snd (op_at op));;;
          if (fl_first f =? 15) && (op =? 18) && (rd 1 f <=? rd 2 f) then
            publish (set_count 4 f)
          else segment_ops turns' f
        end
  end.

(** [junk] is what the array holds before it is written. *)
Definition segment (junk : list Z) (first count : Z) : Mach J bool :=
  c <-- gets (fun j => g_cpu (sys j));;
  let b := mkDrawRegs (D 0 c) (D 4 c) (D 5 c) (A 0 c) (A 5 c) (A 6 c) (A 7 c) (SR c) in
  segment_ops (Z.to_nat count) (mkFlight b junk (PC c) first count 0).

(** ** The queue *)

(** How a guest callback came back. *)
Record CallEnd := mkCallEnd {
  redirected : bool; rte_resume : bool; rte_pending : bool; call_was_hybrid : bool;
}.
Context (recomp_call_addr : Z -> Mach (Sys S) CallEnd) (junk : list Z).

(** [if(!segment(...)) return 1;] *)
Definition seg (first count : Z) (k : Mach J bool) : Mach J bool :=
  ok <-- segment junk first count;;
  if (ok : bool) then k else ret true.

(** The callback, and its return to the queue: [false] leaves the job. *)
Definition call_back : Mach J bool :=
  upd (in_stats count_callback);;;
  target <-- on_sys (getA 0);;
  e <-- on_sys (recomp_call_addr target);;
  halted <-- gets (fun j => g_halted (sys j));;
  if (halted : bool) || redirected e || rte_resume e then ret false
  else if rte_pending e then ret false
  else if call_was_hybrid e then ret true
  else
    sp <-- on_sys (getA 7);;
    back <-- on_sys (on_bus (m68k_read32 sp));;
    on_sys (a7 <-- getA 7;; putA 7 (u32 (a7 + 4)));;;
    fr <-- gets (fun j => frame (stats j));;
    if Z.land back 0xFFFFFF =? u32 (f_base fr + 0x17044) then ret true
    else
      upd (set_redirect (Z.land back 0xFFFFFF));;;
      ret false.

Definition draw_one (k : Mach J bool) : Mach J bool :=
  seg 7 3 (
  sr <-- on_sys getSR;;
  if negb (z2b (Z.land sr SR_Z)) then
    seg 10 5 (
    back <-- call_back;;
    if negb back then ret true
    else seg 15 5 (seg 20 3 k))
  else
    upd (in_stats count_empty);;;
    seg 20 3 k).

(** The loop has as many turns as its counter asks for, unless a callback
    changes the counter; [turns] bounds them. *)
Fixpoint draw_all (turns : nat) (k : Mach J bool) : Mach J bool :=
  d5 <-- on_sys (getD 5);;
  d4 <-- on_sys (getD 4);;
  if i32 d5 <? i32 d4 then
    match turns with
    | O => throw EUndefined
    | Datatypes.S turns' => draw_one (draw_all turns' k)
    end
  else k.

(** A BSR to the routine with its return address on the stack. *)
Definition called_by_bsr (base : Z) : Mach (Sys S) bool :=
  caller <-- gets (fun s => PC (g_cpu s));;
  let next := u32 (caller + 2) in
  word <-- on_bus (m68k_read16 caller);;
  if negb (Z.land word 0xFF00 =? 0x6100) then ret false
  else
    let* (displacement, next) <--
      (if Z.land word 255 =? 0 then
         w <-- on_bus (m68k_read16 next);; ret (i16 w, u32 (next + 2))
       else ret (i8 word, next));;
    if negb (u32 (caller + 2 + displacement) =? u32 (base + DRAW_FIRST)) then ret false
    else
      sp <-- getA 7;;
      back <-- on_bus (m68k_read32 sp);;
      ret (back =? next).

Definition cdi_drawing_dispatch (turns : nat) (cdi_drawing_entry : option Z) (function : Z)
    : Mach J bool :=
  d <-- job_debug;;
  observe (debug_native_job_epoch d);;;
  c <-- gets (fun j => g_cpu (sys j));;
  bound <-- gets (fun j => job_binding (PC c) (bus (sys j)));;
  match bound with
  | Some (base, token) =>
    if bool_decide (cdi_drawing_entry = Some function) &&
       debug_native_job_allowed (u32 (base + DRAW_FIRST)) (u32 (base + DRAW_LIMIT)) d &&
       (i32 (D 0 c) <=? 1024) && ram_range (u32 (A 7 c - 20)) 24 &&
       ram_range (u32 (A 6 c - 0x6E5A)) 16 then
      called <-- on_sys (called_by_bsr base);;
      if negb called then ret false
      else
        epoch <-- gets (fun j => g_cdi_native_invalidation_epoch (bus (sys j)));;
        upd (fun d => in_stats count_job (mkDrawing (dr_stats d) (active d) (mkDrawFrame base token epoch) (redirect d)));;;
        job_cpu (set_PC (u32 (base + DRAW_FIRST)));;;
        on_sys debug_trace_block;;;
        d0 <-- on_sys (getD 0);;
        let last := (segment junk 26 3;;; ret true) in
        if d0 =? 0 then seg 0 5 (seg 24 2 last)
        else seg 0 7 (seg 21 2 (draw_all turns (seg 23 1 last)))
    else ret false
  | None => ret false
  end.

(** The CPU the debugger sees. *)
Definition cdi_drawing_sync_cpu : Mach J unit :=
  a <-- gets (fun j => active (stats j));;
  match a with Some f => job_cpu (prefix f) | None => ret tt end.
End DrawingJob.

(** The module the job belongs to, by the digest of its image, and the start of
    the job: its entry is the generated function at the routine, if that module
    was translated at all. *)
Definition drawing_digest : list Z :=
  [0x55; 0xef; 0xd9; 0x3e; 0x44; 0xfd; 0xc3; 0x1a; 0xce; 0xae; 0xd4; 0xd2; 0x65; 0x1d; 0x64; 0x8c;
   0xc3; 0x23; 0x70; 0xa9; 0x5d; 0xa7; 0xaf; 0xab; 0xfd; 0x57; 0x40; 0x34; 0x0a; 0x44; 0x29; 0x6b].

Definition cdi_drawing_reset (cdi_native_find_function : list Z -> Z -> option (Z * nat))
    : option (Z * nat) * (CdiDrawingJobState * option DrawFlight) :=
  (cdi_native_find_function drawing_digest DRAW_FIRST, (mkDrawingStats 0 0 0 0 0, None)).
