(* ===== verification/DrawingJobSpec.v ===== *)
(** The drawing queue's segments publish their registers once, and nothing can
    tell: a segment comes to the same end as one that updates the registers at
    each instruction.  [finish] is [prefix] of the whole segment. *)

From Stdlib Require Import ZArith Lia Bool.
From stdpp Require Import base tactics numbers list sets.
From S2P Require Import Prelude Irq Cpu Ea CpuOk Ram Mcd212 Bus Job JobSpec DrawingJob.
Open Scope Z_scope.
Open Scope mach_scope.

(** The segments the queue runs: first operation and number of operations. *)
Definition segments : list (Z * Z) :=
  [(0,5); (24,2); (0,7); (21,2); (7,3); (10,5); (15,5); (20,3); (23,1); (26,3)].

(** * Published registers *)

(** The part of the status register a condition code computation keeps. *)
Definition kept (sr : Z) : Z := Z.land sr 0xFFF0.

Lemma kept_lor sr f : kept f = 0 -> kept (Z.lor sr f) = kept sr.
Proof. unfold kept. intros E. by rewrite Z.land_lor_distr_l, E, Z.lor_0_r. Qed.
Lemma kept_kept sr : kept (Z.land sr 0xFFF0) = kept sr.
Proof. unfold kept. by rewrite <- Z.land_assoc. Qed.
Lemma kept_if (b : bool) sr f : kept f = 0 -> kept (if b then Z.lor sr f else sr) = kept sr.
Proof. destruct b; [apply kept_lor|done]. Qed.

Lemma kept_logic v sr : kept (logic v sr) = kept sr.
Proof. unfold logic. rewrite !kept_lor; [apply kept_kept|by destruct (v =? 0)|by destruct (z2b _)]. Qed.
Lemma kept_compare a b sr : kept (compare a b sr) = kept sr.
Proof. unfold compare. rewrite !kept_if, kept_logic by done. done. Qed.
Lemma logic_cong v sr sr' : kept sr = kept sr' -> logic v sr = logic v sr'.
Proof. unfold logic, kept. by intros ->. Qed.
Lemma compare_cong a b sr sr' : kept sr = kept sr' -> compare a b sr = compare a b sr'.
Proof. intros E. unfold compare. by rewrite (logic_cong _ _ _ E). Qed.
Lemma kept_add a b sr :
  kept (add a b sr) =
  kept (if 0xFFFFFFFF <? a + b then Z.lor (Z.land sr 0xFFEF) SR_X else Z.land sr 0xFFEF).
Proof.
  unfold add. rewrite kept_if by done. destruct (_ <? _).
  - rewrite (Z.lor_comm SR_X), Z.lor_assoc. unfold kept. rewrite !Z.land_lor_distr_l.
    fold (kept (logic (u32 (a + b)) (Z.land sr 0xFFEF))). rewrite kept_logic.
    change (Z.land SR_C 0xFFF0) with 0. by rewrite Z.lor_0_r.
  - apply kept_logic.
Qed.

(** Adding one carries out of all ones only; adding eight back to what is eight
    less carries when it had wrapped. *)
Lemma carry_one d : is_u32 d -> (0xFFFFFFFF <? d + 1) = (d =? 0xFFFFFFFF).
Proof. unfold is_word. intros. destruct (Z.ltb_spec 0xFFFFFFFF (d + 1)), (Z.eqb_spec d 0xFFFFFFFF); lia. Qed.
Lemma carry_eight r : is_u32 r -> (0xFFFFFFFF <? u32 (r - 8) + 8) = (r <? 8).
Proof. unfold is_word, u32. intros. destruct (Z.ltb_spec 0xFFFFFFFF ((r - 8) mod 0x100000000 + 8)), (Z.ltb_spec r 8); zlia. Qed.

Lemma sub_sub32 x a b : u32 (u32 (x - a) - b) = u32 (x - (a + b)).
Proof. unfold u32. zlia. Qed.

(** The segment is one the queue runs, whole; the fifteenth may stop at four. *)
Definition whole (f : DrawFlight) : Prop :=
  fl_completed f = fl_count f /\
  ((fl_first f, fl_count f) ∈ segments \/ (fl_first f, fl_count f) = (15, 4)).

(** The registers have not moved since the segment began. *)
Definition unmoved (b : DrawRegisters) (c : M68KState) : Prop :=
  length (regD c) = 8%nat /\ length (regA c) = 8%nat /\
  b = mkDrawRegs (D 0 c) (D 4 c) (D 5 c) (A 0 c) (A 5 c) (A 6 c) (A 7 c) (SR c).

Lemma eight (l : list Z) :
  length l = 8%nat -> exists d0 d1 d2 d3 d4 d5 d6 d7, l = [d0; d1; d2; d3; d4; d5; d6; d7].
Proof. intros Hl. do 9 (destruct l as [|? l]; try done). by repeat eexists. Qed.

Lemma load_unmoved b c : unmoved b c -> load_before b c = c.
Proof.
  destruct c as [Dl Al sr pc usp ssp]. intros (HD & HA & ->). cbn [regD regA] in *.
  destruct (eight _ HD) as (d0&d1&d2&d3&d4&d5&d6&d7&->).
  by destruct (eight _ HA) as (a0&a1&a2&a3&a4&a5&a6&a7&->).
Qed.

Lemma cpu_sr Dl Al sr sr' pc usp ssp :
  sr = sr' -> mkCpu Dl Al sr pc usp ssp = mkCpu Dl Al sr' pc usp ssp.
Proof. by intros ->. Qed.

(** Both sides of a segment, instruction by instruction, down to the condition
    codes and the memory they were given. *)
Ltac run_segment :=
  unfold finish, prefix_steps;
  match goal with |- context [seqZ ?a ?b] =>
    let v := eval vm_compute in (seqZ a b) in change (seqZ a b) with v end;
  cbv -[rd u32 compare logic add Z.land Z.lor Z.ltb Z.eqb Z.add Z.sub SR_X];
  repeat match goal with |- context [Zpos ?a =? Zpos ?b] =>
    let v := eval vm_compute in (Zpos a =? Zpos b) in change (Zpos a =? Zpos b) with v end;
  cbv iota; rewrite ?sub_sub32.

(** [finish] publishes what [prefix] reconstructs. *)
Lemma finish_is_prefix f c :
  whole f -> unmoved (fl_before f) c -> is_u32 (r_d5 (fl_before f)) -> is_u32 (rd 0 f) ->
  finish f c = prefix f c.
Proof.
  intros [Hall Hseg] Hc Hd5 Hr0. unfold prefix. rewrite load_unmoved by done.
  destruct c as [Dl Al sr pc usp ssp]. destruct Hc as (HD & HA & Hb). cbn [regD regA] in HD, HA.
  destruct (eight _ HD) as (d0&d1&d2&d3&d4&d5&d6&d7&->).
  destruct (eight _ HA) as (a0&a1&a2&a3&a4&a5&a6&a7&->).
  destruct f as [b r p first count n]. cbn [fl_before fl_read fl_pc fl_first fl_count fl_completed] in *.
  subst b n. cbv [D A lget Z.to_nat Pos.to_nat Pos.iter_op Nat.add nth regD regA SR r_d5] in Hd5 |- *.
  unfold segments in Hseg. rewrite !elem_of_cons, elem_of_nil in Hseg.
  destruct_or!; try done; injection Hseg as -> ->; run_segment.
  all: try reflexivity.
  all: try (apply cpu_sr; first [apply logic_cong|apply compare_cong];
    rewrite ?kept_logic, ?kept_compare, ?kept_add, ?kept_logic, ?kept_compare; reflexivity).
  all: cbv -[rd is_word] in Hr0.
  - destruct (rd 0 _ <? 8) eqn:E; apply cpu_sr, logic_cong;
      by rewrite kept_compare, kept_logic, kept_add, (carry_eight _ Hr0), E.
  - destruct (d5 =? 0xFFFFFFFF) eqn:E; apply cpu_sr, compare_cong;
      by rewrite kept_add, (carry_one _ Hd5), E.
  - destruct (rd 0 _ <? 8) eqn:E; apply cpu_sr, compare_cong;
      by rewrite kept_logic, kept_add, (carry_eight _ Hr0), E.
Qed.

(** * A segment that updates the registers at each instruction *)
Section Stepwise.
Context {S : Type} `{JobHost S} {nat_host : NativeHost S}.
Context (g_vblank_threshold : Z) (recomp_tail_call : Z -> Mach (Sys S) unit).

Let J := Job Drawing S.
Abbreviation blind := (@JobSpec.blind S _).

Definition step_fallback : Mach J unit :=
  upd (set_active None);;;
  upd (in_stats count_fallback);;;
  tail_call_here recomp_tail_call.

Definition step_valid (f : DrawFlight) : Mach J bool :=
  fr <-- gets (fun j => frame (stats j));;
  epoch <-- gets (fun j => g_cdi_native_invalidation_epoch (bus (sys j)));;
  if f_epoch fr =? epoch then ret true
  else
    upd (set_frame_epoch epoch);;;
    valid <-- gets (fun j => instruction_valid (fl_pc f) (f_token fr) (bus (sys j)));;
    if (valid : bool) then ret true
    else
      upd (set_active None);;;
      pc <-- gets (fun j => PC (g_cpu (sys j)));;
      upd (set_redirect pc);;;
      ret false.

Definition step_observed : Mach J bool :=
  fr <-- gets (fun j => frame (stats j));;
  allowed <-- still_allowed (u32 (f_base fr + DRAW_FIRST)) (u32 (f_base fr + DRAW_LIMIT));;
  if (allowed : bool) then ret true
  else step_fallback;;; ret false.

Definition step_interruptible : Mach J unit :=
  ready <-- gets (fun j => irq_ready (sys j));;
  when ready
    (upd (set_active None);;;
     upd (in_stats count_interrupt);;;
     on_sys recomp_take_irq).

Definition step_publish : Mach J bool := upd (set_active None);;; ret true.

Fixpoint step_ops (turns : nat) (f : DrawFlight) : Mach J bool :=
  match turns with
  | O => step_publish
  | Datatypes.S turns' =>
    let op := fl_first f + fl_completed f in
    fr <-- gets (fun j => frame (stats j));;
    let f := set_fl_pc (op_pc fr op) f in
    upd (set_active (Some f));;;
    job_cpu (set_PC (fl_pc f));;;
    valid <-- step_valid f;;
    if negb valid then ret false
    else
      seen <-- step_observed;;
      if negb seen then ret false
      else
        step_interruptible;;;
        out <-- on_sys (memory_action (f_base fr) f op);;
        match out with
        | None => step_fallback;;; ret false
        | Some f =>
          job_cpu (prefix_step f op);;;
          let f := set_completed (fl_completed f + 1) f in
          upd (set_active (Some f));;;
          account g_vblank_threshold (snd (op_at op));;;
          if (fl_first f =? 15) && (op =? 18) && (rd 1 f <=? rd 2 f) then step_publish
          else step_ops turns' f
        end
  end.

Definition step_segment (junk : list Z) (first count : Z) : Mach J bool :=
  c <-- gets (fun j => g_cpu (sys j));;
  let b := mkDrawRegs (D 0 c) (D 4 c) (D 5 c) (A 0 c) (A 5 c) (A 6 c) (A 7 c) (SR c) in
  step_ops (Z.to_nat count) (mkFlight b junk (PC c) first count 0).

Context (write_quiet : forall a v, never_unwinds (m68k_write32 a v)).
Context (read_quiet : forall a, never_unwinds (m68k_read32 a)).
Context (tick_quiet : forall n, never_unwinds (mcd212_tick n)).

(** ** The CPU out of the way *)
Definition with_regs (g : M68KState -> M68KState) (j : J) : J :=
  mkJob (with_cpu g (sys j)) (g_native_insn_count j) (stats j) (observation_epoch j).

(** The same end: the same result, and the same machine; where the memory or the
    clock failed inside an instruction, the same machine but for the CPU. *)
Definition same_end {X} (r r' : result X * J) : Prop :=
  fst r = fst r' /\
  (snd r = snd r' \/
   (exists e, fst r = Exn e /\ e <> EIrqUnwind) /\
   with_regs (fun _ => cpu_reset) (snd r) = with_regs (fun _ => cpu_reset) (snd r')).

Lemma blind_memory_action base f op : blind (memory_action base f op).
Proof.
  assert (forall a n m, blind m -> blind (guarded a n m)) as Hg.
  { intros a n m Hm. unfold guarded. destruct (negb _); [apply blind_ret|].
    apply blind_bind; [done|]. intros. apply blind_ret. }
  assert (forall i a g, blind (read_to i a g)) as Hr.
  { intros. apply blind_bind; [by apply blind_on_bus|]. intros. apply blind_ret. }
  assert (forall a v, blind (on_bus (m68k_write32 a v))) as Hw by (intros; by apply blind_on_bus).
  assert (forall a, blind (on_bus (m68k_read32 a))) as Hr' by (intros; by apply blind_on_bus).
  unfold memory_action.
  repeat case_match; try apply blind_ret; try apply Hg;
    repeat first [ apply Hr | apply Hw | apply Hr' | apply blind_ret | apply blind_bind; [|intros ?] ].
Qed.

(** ** The registers of a prefix *)
Lemma prefix_step_PC f op pc c : prefix_step f op (set_PC pc c) = set_PC pc (prefix_step f op c).
Proof. unfold prefix_step. by repeat case_match. Qed.
Lemma prefix_steps_PC f first n pc c :
  prefix_steps f first n (set_PC pc c) = set_PC pc (prefix_steps f first n c).
Proof.
  unfold prefix_steps. generalize (seqZ first n) as l. intros l. revert c.
  induction l as [|op l IH]; intros c; [done|]. cbn [fold_left]. by rewrite prefix_step_PC, IH.
Qed.

(** The words of memory an operation brings in, and alone uses. *)
Definition slots_of (op : Z) : list Z :=
  match op with
  | 7 | 10 | 15 | 24 => [0]
  | 8 | 11 | 16 | 25 => [1]
  | 12 | 17 => [2]
  | 13 | 19 | 27 => [3]
  | 26 => [0; 1; 2]
  | _ => []
  end.

Lemma slots_nonneg op : Forall (fun i => 0 <= i) (slots_of op).
Proof. unfold slots_of. repeat case_match; repeat constructor; lia. Qed.

Lemma prefix_step_slots f f' op c :
  (forall i, i ∈ slots_of op -> rd i f' = rd i f) -> prefix_step f' op c = prefix_step f op c.
Proof.
  intros Hs. unfold prefix_step.
  repeat case_match; subst; try done; cbn [slots_of] in Hs; rewrite ?Hs by set_solver; done.
Qed.

(** No operation of a segment brings in a word an earlier one has used. *)
Definition apart (first i k : Z) : bool :=
  forallb (fun x => negb (existsb (Z.eqb x) (slots_of (first + i)))) (slots_of (first + k)).
Lemma segments_apart :
  forallb (fun s : Z * Z => forallb (fun i => forallb (fun k => apart (fst s) i k) (seqZ 0 i))
    (seqZ 0 (snd s))) segments = true.
Proof. vm_compute. reflexivity. Qed.

Lemma slots_apart first count i k x :
  (first, count) ∈ segments -> 0 <= k < i -> i < count ->
  x ∈ slots_of (first + k) -> x ∉ slots_of (first + i).
Proof.
  intros Hs Hk Hi Hx Hx'. pose proof segments_apart as Ha.
  rewrite forallb_forall in Ha. specialize (Ha (first, count) (proj1 (list_elem_of_In _ _) Hs)). cbn [fst snd] in Ha.
  rewrite forallb_forall in Ha. specialize (Ha i). rewrite <- list_elem_of_In, elem_of_seqZ in Ha.
  specialize (Ha ltac:(lia)). rewrite forallb_forall in Ha. specialize (Ha k).
  rewrite <- list_elem_of_In, elem_of_seqZ in Ha. specialize (Ha ltac:(lia)).
  unfold apart in Ha. rewrite forallb_forall in Ha. specialize (Ha x (proj1 (list_elem_of_In _ _) Hx)).
  apply negb_true_iff in Ha. rewrite <- not_true_iff_false, existsb_exists in Ha.
  apply Ha. exists x. split; [by apply list_elem_of_In|apply Z.eqb_refl].
Qed.

Lemma prefix_steps_slots f f' first n c :
  (forall k i, 0 <= k < n -> i ∈ slots_of (first + k) -> rd i f' = rd i f) ->
  prefix_steps f' first n c = prefix_steps f first n c.
Proof.
  intros Hs. unfold prefix_steps.
  assert (forall op, op ∈ seqZ first n -> forall i, i ∈ slots_of op -> rd i f' = rd i f) as Hl.
  { intros op Hop i Hi. apply elem_of_seqZ in Hop. apply (Hs (op - first)); [lia|].
    by replace (first + (op - first)) with op by lia. }
  clear Hs. revert c Hl. generalize (seqZ first n) as l. intros l.
  induction l as [|op l IH]; intros c Hl; [done|]. cbn [fold_left].
  rewrite (prefix_step_slots f f') by (intros; apply (Hl op); set_solver).
  apply IH. intros op' Hop'. apply Hl. set_solver.
Qed.

Lemma prefix_steps_S f first n c :
  0 <= n -> prefix_steps f first (n + 1) c = prefix_step f (first + n) (prefix_steps f first n c).
Proof.
  intros Hn. unfold prefix_steps. rewrite seqZ_app by lia. by rewrite fold_left_app.
Qed.

(** The interrupt mask is not a condition code. *)
Lemma ipm_kept sr : ipm (kept sr) = ipm sr.
Proof. unfold ipm, kept. by rewrite Z.shiftr_land, <- Z.land_assoc. Qed.
Lemma ipm_low sr : ipm (Z.land sr 0xFFEF) = ipm sr.
Proof. by apply ipm_clear. Qed.
Lemma ipm_logic v sr : ipm (logic v sr) = ipm sr.
Proof. by rewrite <- ipm_kept, kept_logic, ipm_kept. Qed.
Lemma ipm_compare a b sr : ipm (compare a b sr) = ipm sr.
Proof. by rewrite <- ipm_kept, kept_compare, ipm_kept. Qed.
Lemma ipm_add a b sr : ipm (add a b sr) = ipm sr.
Proof.
  rewrite <- ipm_kept, kept_add, ipm_kept. destruct (_ <? _); [|apply ipm_low].
  rewrite <- (ipm_low sr). unfold ipm. rewrite Z.shiftr_lor.
  change (Z.shiftr SR_X 8) with 0. by rewrite Z.lor_0_r.
Qed.
Lemma ipm_step f op c : ipm (SR (prefix_step f op c)) = ipm (SR c).
Proof.
  unfold prefix_step. repeat case_match; try done; unfold sr_by; cbn [set_SR set_D set_A SR];
    rewrite ?ipm_logic, ?ipm_compare, ?ipm_add; done.
Qed.
Lemma ipm_steps f first n c : ipm (SR (prefix_steps f first n c)) = ipm (SR c).
Proof.
  unfold prefix_steps. generalize (seqZ first n) as l. intros l. revert c.
  induction l as [|op l IH]; intros c; [done|]. cbn [fold_left]. by rewrite IH, ipm_step.
Qed.

(** ** The words a memory action brings in *)
Record touches (ws : list Z) (f f' : DrawFlight) : Prop := {
  same_before : fl_before f' = fl_before f;
  same_pc : fl_pc f' = fl_pc f;
  same_first : fl_first f' = fl_first f;
  same_count : fl_count f' = fl_count f;
  same_completed : fl_completed f' = fl_completed f;
  words_read : Forall is_u32 (fl_read f) -> Forall is_u32 (fl_read f');
  others_kept : forall i, 0 <= i -> i ∉ ws -> rd i f' = rd i f;
}.
Lemma touches_refl ws f : touches ws f f.
Proof. by split. Qed.
Lemma touches_read ws i v f : 0 <= i -> i ∈ ws -> touches ws f (set_read i (u32 v) f).
Proof.
  intros Hi Hin. split; try done.
  - intros Hr. cbn [set_read fl_read]. apply Forall_lset; [done|apply u32_range].
  - intros k Hk Hnot. unfold rd. cbn [set_read fl_read]. rewrite lget_lset_ne; [done|done|done|].
    intros ->. done.
Qed.
Lemma touches_trans ws f f' f'' : touches ws f f' -> touches ws f' f'' -> touches ws f f''.
Proof.
  intros [] []. split; try congruence; [auto|].
  intros i Hi Hn. rewrite others_kept1, others_kept0; done.
Qed.

Definition gives (ws : list Z) (f : DrawFlight) (m : Mach (Sys S) DrawFlight) : Prop :=
  keeps (fun _ => True) m (touches ws f).

Lemma gives_read ws f g i a : 0 <= i -> i ∈ ws -> touches ws f g -> gives ws f (read_to i a g).
Proof.
  intros Hi Hin Hg. unfold gives, read_to. eapply keeps_bind with (Q := fun _ => True).
  - intros s _. split; [done|]. by destruct (fst _).
  - intros v _. apply keeps_ret. eapply touches_trans; [exact Hg|by apply touches_read].
Qed.

Lemma memory_action_touches base f op s f' s' :
  memory_action base f op s = (Ok (Some f'), s') -> touches (slots_of op) f f'.
Proof.
  assert (keeps (fun _ => True) (memory_action base f op)
    (fun o => match o with Some f' => touches (slots_of op) f f' | None => True end)) as Hk.
  { assert (forall ws a n m, gives ws f m -> keeps (fun _ => True) (guarded a n m)
      (fun o => match o with Some f' => touches ws f f' | None => True end)) as Hg.
    { intros ws a n m Hm. unfold guarded. destruct (negb _); [by apply keeps_ret|].
      eapply keeps_bind; [exact Hm|]. intros g Hg. by apply keeps_ret. }
    assert (forall ws X (m : Mach (Sys S) X) k, (forall x, gives ws f (k x)) -> gives ws f (bind m k)) as Hb.
    { intros ws X m k Hkk. eapply keeps_bind with (Q := fun _ => True); [|intros x _; apply Hkk].
      intros t _. split; [done|]. by destruct (fst _). }
    assert (forall ws g, touches ws f g -> gives ws f (ret g)) as Hr by (intros; by apply keeps_ret).
    assert (forall ws m k, gives ws f m -> (forall g, touches ws f g -> gives ws f (k g)) ->
      gives ws f (bind m k)) as Hc.
    { intros ws m k Hm Hk. eapply keeps_bind; [exact Hm|]. exact Hk. }
    unfold memory_action.
    repeat case_match; subst; cbn [slots_of];
      try (apply keeps_ret; apply touches_refl); apply Hg;
      repeat first
        [ apply gives_read; [lia|set_solver|solve [apply touches_refl|done]]
        | apply Hr; first [done|apply touches_refl|apply touches_read; [lia|set_solver]]
        | eapply Hc; [apply gives_read; [lia|set_solver|solve [apply touches_refl|done]]|intros ? ?]
        | apply Hb; intros ? ]. }
  intros E. destruct (Hk s I) as [_ H1]. by rewrite E in H1.
Qed.

(** ** One operation at a time

    [j] is the machine of the deferred segment; the stepwise one has the same
    machine with the registers of the prefix. *)
Lemma prefix_PC f pc c :
  prefix (set_fl_pc pc f) (set_PC pc c) = set_PC pc (prefix f c).
Proof.
  unfold prefix. cbn [set_fl_pc fl_pc fl_first fl_completed fl_before].
  change (load_before (fl_before f) (set_PC pc c)) with (set_PC pc (load_before (fl_before f) c)).
  rewrite prefix_steps_PC. rewrite (prefix_steps_slots f); done.
Qed.

(** Both go on from the same machine, or both have come to the same end. *)
Definition in_step (f : DrawFlight) (m m' : Mach J bool) (j : J) : Prop :=
  (exists j', m j = (Ok true, j') /\ m' (with_regs (prefix f) j) = (Ok true, with_regs (prefix f) j') /\
     g_cpu (sys j') = g_cpu (sys j)) \/
  (m j = m' (with_regs (prefix f) j) /\ fst (m j) <> Ok true).

Lemma fallback_same f j :
  fallback recomp_tail_call f j = step_fallback (with_regs (prefix f) j).
Proof. reflexivity. Qed.

Lemma valid_in_step f j : in_step f (still_valid f) (step_valid f) j.
Proof.
  unfold in_step, still_valid, step_valid. cbv beta iota delta [bind gets upd upd_stats modify job_cpu on_sys upd_cpu ret].
  cbn [with_regs sys stats bus with_cpu g_native_insn_count observation_epoch set_frame_epoch frame].
  destruct (f_epoch _ =? _); [left; by eexists|].
  destruct (instruction_valid _ _ _); [left; by eexists|]. right. split; [reflexivity|discriminate].
Qed.

Lemma observed_in_step f j : in_step f (observed recomp_tail_call f) step_observed j.
Proof.
  unfold in_step, observed, step_observed, still_allowed, job_debug.
  cbv beta iota delta [bind gets observe modify ret].
  cbn [with_regs sys stats bus with_cpu g_native_insn_count observation_epoch].
  destruct (debug_native_job_epoch _ =? _); [left; by eexists|].
  destruct (debug_native_job_allowed _ _ _); [left; by eexists|]. right.
  set (j1 := mkJob (sys j) _ _ _).
  change (mkJob (with_cpu (prefix f) (sys j)) _ _ _) with (with_regs (prefix f) j1).
  rewrite fallback_same. split; [done|].
  destruct (step_fallback _) as [[[]|e] j2]; discriminate.
Qed.

Lemma ready_same f j : irq_ready (sys (with_regs (prefix f) j)) =
  irq_ready (with_cpu (set_SR (SR (load_before (fl_before f) (g_cpu (sys j))))) (sys j)).
Proof.
  unfold irq_ready. cbn [with_regs sys with_cpu bus g_cpu g_recomp_irq_armed set_SR SR].
  unfold prefix. cbn [set_PC SR]. fold (ipm (SR (prefix_steps f (fl_first f) (fl_completed f)
    (load_before (fl_before f) (g_cpu (sys j)))))).
  rewrite ipm_steps. reflexivity.
Qed.

Lemma interruptible_in_step f j :
  unmoved (fl_before f) (g_cpu (sys j)) ->
  (interruptible f j = (Ok tt, j) /\
   step_interruptible (with_regs (prefix f) j) = (Ok tt, with_regs (prefix f) j)) \/
  (interruptible f j = step_interruptible (with_regs (prefix f) j) /\
   exists e, fst (interruptible f j) = Exn e).
Proof.
  intros Hj. unfold interruptible, step_interruptible.
  assert (irq_ready (sys (with_regs (prefix f) j)) = irq_ready (sys j)) as E.
  { rewrite ready_same, load_unmoved by done. by destruct j as [[]]. }
  cbv beta iota delta [bind gets]. rewrite E. destruct (irq_ready (sys j)) eqn:Er; [|by left].
  right. cbn [when]. cbv beta iota delta [job_cpu upd upd_stats modify on_sys upd_cpu].
  destruct (ready_throws _ E) as (e & s' & Ht).
  cbn [with_regs sys stats g_native_insn_count observation_epoch] in *. rewrite Ht.
  split; [done|by exists e].
Qed.

(** What holds between the operations of a segment. *)
Record going (turns : nat) (f : DrawFlight) (j : J) : Prop := {
  go_segment : (fl_first f, fl_count f) ∈ segments;
  go_left : fl_count f = fl_completed f + Z.of_nat turns;
  go_done : 0 <= fl_completed f;
  go_unmoved : unmoved (fl_before f) (g_cpu (sys j));
  go_d5 : is_u32 (r_d5 (fl_before f));
  go_read : Forall is_u32 (fl_read f);
}.

Lemma unmoved_PC b pc c : unmoved b c -> unmoved b (set_PC pc c).
Proof. by intros (? & ? & ->). Qed.

Lemma publish_same f j :
  whole f -> unmoved (fl_before f) (g_cpu (sys j)) -> is_u32 (r_d5 (fl_before f)) ->
  Forall is_u32 (fl_read f) ->
  publish f j = step_publish (with_regs (prefix f) j).
Proof.
  intros Hw Hu Hd Hr. unfold publish, step_publish.
  cbv beta iota delta [bind job_cpu upd upd_stats modify on_sys upd_cpu ret].
  unfold with_regs. cbn [sys stats g_native_insn_count observation_epoch].
  assert (with_cpu (finish f) (sys j) = with_cpu (prefix f) (sys j)) as ->; [|done].
  unfold with_cpu. rewrite finish_is_prefix; try done. unfold rd. by apply Forall_lget.
Qed.

Lemma same_end_refl {X} (r : result X * J) : same_end r r.
Proof. split; [done|by left]. Qed.

(** The memory access of operation [op], and what is left afterwards. *)
Lemma prefix_next f f' c :
  touches (slots_of (fl_first f + fl_completed f)) f f' -> (fl_first f, fl_count f) ∈ segments ->
  0 <= fl_completed f < fl_count f -> unmoved (fl_before f) c ->
  prefix_step f' (fl_first f + fl_completed f) (prefix f c)
  = prefix (set_completed (fl_completed f + 1) f') c.
Proof.
  intros [Eb Epc Ef Ec En Hw Ho] Hseg Hn Hu. unfold prefix.
  cbn [set_completed fl_pc fl_before fl_first fl_completed]. rewrite Eb, Epc, Ef, !load_unmoved by done.
  rewrite prefix_step_PC. f_equal.
  rewrite (prefix_steps_slots f' (set_completed (fl_completed f + 1) f')) by done.
  rewrite prefix_steps_S by lia. f_equal. symmetry. apply prefix_steps_slots.
  intros k i Hk Hi. apply Ho.
  - eapply (Forall_forall (fun i => 0 <= i)); [apply slots_nonneg|exact Hi].
  - eapply (slots_apart _ _ _ k); [exact Hseg|lia|lia|exact Hi].
Qed.

Lemma blind_account c g (j : J) :
  exists r j', account g_vblank_threshold c j = (r, j') /\
    account g_vblank_threshold c (with_regs g j) = (r, with_regs g j') /\
    g_cpu (sys j') = g_cpu (sys j) /\ r <> Exn EIrqUnwind.
Proof.
  unfold account. cbv beta iota delta [bind modify on_sys].
  cbn [with_regs sys g_native_insn_count stats observation_epoch].
  destruct (blind_charge g_vblank_threshold c tick_quiet g (sys j)) as (E & Ec & Hn). rewrite E.
  destruct (charge g_vblank_threshold c (sys j)) as [r s]. cbn [fst snd] in *.
  by eexists r, _.
Qed.

Lemma bind_in_step f (m m' : Mach J bool) (k k' : bool -> Mach J bool) j :
  in_step f m m' j ->
  (forall j', g_cpu (sys j') = g_cpu (sys j) ->
     same_end (k true j') (k' true (with_regs (prefix f) j'))) ->
  (forall j', k false j' = k' false j') ->
  same_end (bind m k j) (bind m' k' (with_regs (prefix f) j)).
Proof.
  intros [(j' & E & E' & Ec)|[E Hne]] Ht Hf; unfold bind.
  - rewrite E, E'. by apply Ht.
  - rewrite <- E. destruct (m j) as [[[]|e] j']; [done| |]; [rewrite Hf|]; apply same_end_refl.
Qed.

(** The access of one operation and its charge. *)
Lemma access_same turns f j base (k : DrawFlight -> Mach J bool) (k' : DrawFlight -> Mach J bool) op :
  op = fl_first f + fl_completed f -> going (Datatypes.S turns) f j ->
  (forall f' j', going turns f' j' -> fl_first f' = fl_first f -> fl_completed f' = fl_completed f + 1 ->
     same_end (k f' j') (k' f' (with_regs (prefix f') j'))) ->
  same_end
    (bind (on_sys (memory_action base f op)) (fun out =>
       match out with
       | None => bind (fallback recomp_tail_call f) (fun _ => ret false)
       | Some f =>
         let f := set_completed (fl_completed f + 1) f in
         bind (upd (set_active (Some f))) (fun _ =>
         bind (account g_vblank_threshold (snd (op_at op))) (fun _ => k f))
       end) j)
    (bind (on_sys (memory_action base f op)) (fun out =>
       match out with
       | None => bind step_fallback (fun _ => ret false)
       | Some f =>
         bind (job_cpu (prefix_step f op)) (fun _ =>
         let f := set_completed (fl_completed f + 1) f in
         bind (upd (set_active (Some f))) (fun _ =>
         bind (account g_vblank_threshold (snd (op_at op))) (fun _ => k' f)))
       end) (with_regs (prefix f) j)).
Proof.
  intros Hop [Hseg Hleft Hdone Hu Hd5 Hread] Hk.
  destruct (blind_memory_action base f op (prefix f) (sys j)) as (E & Ec & Hn).
  destruct (memory_action base f op (sys j)) as [r s] eqn:Em. cbn [fst snd] in *.
  set (j2 := mkJob s (g_native_insn_count j) (stats j) (observation_epoch j)).
  assert (on_sys (memory_action base f op) j = (r, j2)) as E1 by (unfold on_sys; by rewrite Em).
  assert (on_sys (memory_action base f op) (with_regs (prefix f) j) = (r, with_regs (prefix f) j2)) as E2.
  { unfold on_sys. cbn [with_regs sys]. by rewrite E. }
  destruct r as [[f'|]|e].
  - rewrite (run_bind _ _ _ _ _ E1), (run_bind _ _ _ _ _ E2).
    pose proof (memory_action_touches _ _ _ _ _ _ Em) as Ht. subst op.
    assert (0 <= fl_completed f < fl_count f) as Hin by lia.
    pose proof (prefix_next f f' (g_cpu (sys j)) Ht Hseg Hin Hu) as Enext.
    set (f2 := set_completed (fl_completed f' + 1) f'). set (op := fl_first f + fl_completed f) in *.
    set (j3 := mkJob s (g_native_insn_count j) (set_active (Some f2) (stats j)) (observation_epoch j)).
    destruct (blind_account (snd (op_at op)) (prefix f2) j3) as (r & j4 & E3 & E4 & Ec4 & Hn4).
    assert (set_completed (fl_completed f + 1) f' = f2) as Ef2.
    { unfold f2. by rewrite (same_completed _ _ _ Ht). }
    match goal with |- same_end (bind _ ?k1 _) (bind _ (fun _ => bind _ ?k2) _) =>
      change (same_end (k1 tt j3) (k2 tt (mkJob (with_cpu (prefix_step f' op) (with_cpu (prefix f) s))
        (g_native_insn_count j) (set_active (Some f2) (stats j)) (observation_epoch j)))) end.
    cbv beta.
    assert (with_cpu (prefix_step f' op) (with_cpu (prefix f) s) = with_cpu (prefix f2) s) as ->.
    { unfold with_cpu. cbn. f_equal. rewrite Ec, Enext. by rewrite Ef2. }
    change (mkJob (with_cpu (prefix f2) s) _ _ _) with (with_regs (prefix f2) j3).
    destruct r as [[]|e].
    + rewrite (run_bind _ _ _ _ _ E3), (run_bind _ _ _ _ _ E4).
      destruct Ht as [Eb Epc Ef Ecn Ecp Hw _].
      apply Hk; [|done|by rewrite <- Ef2]. unfold f2.
      split; cbn [set_completed fl_first fl_count fl_completed fl_before fl_read];
        rewrite ?Eb, ?Ef, ?Ecn, ?Ecp; try done; [lia|lia| |by apply Hw].
      rewrite Ec4. cbn [j3 sys]. by rewrite Ec.
    + rewrite (run_bind_exn _ _ _ _ _ E3), (run_bind_exn _ _ _ _ _ E4).
      split; [done|]. right. split; [|done]. exists e. split; [done|]. by intros ->.
  - rewrite (run_bind _ _ _ _ _ E1), (run_bind _ _ _ _ _ E2).
    unfold bind. rewrite fallback_same. apply same_end_refl.
  - rewrite (run_bind_exn _ _ _ _ _ E1), (run_bind_exn _ _ _ _ _ E2).
    split; [done|]. right. split; [|done]. exists e. split; [done|]. by intros ->.
Qed.

Lemma ops_same turns : forall f j, going turns f j ->
  same_end (segment_ops g_vblank_threshold recomp_tail_call turns f j)
           (step_ops turns f (with_regs (prefix f) j)).
Proof.
  induction turns as [|turns IH]; intros f j Hg.
  { destruct Hg as [Hseg Hleft Hdone Hu Hd5 Hread].
    cbn [segment_ops step_ops]. rewrite publish_same; [apply same_end_refl| |done|done|done].
    split; [lia|by left]. }
  cbn [segment_ops step_ops].
  set (fr := frame (stats j)). set (op := fl_first f + fl_completed f).
  set (f1 := set_fl_pc (op_pc fr op) f).
  set (j1 := mkJob (with_cpu (set_PC (fl_pc f1)) (sys j)) (g_native_insn_count j)
               (set_active (Some f1) (stats j)) (observation_epoch j)).
  match goal with |- same_end (bind _ ?k j) (bind _ ?k' _) =>
    change (same_end (k fr j) (k' fr (with_regs (prefix f) j))) end. cbv beta zeta.
  match goal with |- same_end (bind _ (fun _ => bind _ ?k) j) (bind _ (fun _ => bind _ ?k') _) =>
    change (same_end (k tt j1) (k' tt (mkJob (with_cpu (set_PC (fl_pc f1)) (with_cpu (prefix f) (sys j)))
      (g_native_insn_count j) (set_active (Some f1) (stats j)) (observation_epoch j)))) end. cbv beta.
  assert (with_cpu (set_PC (fl_pc f1)) (with_cpu (prefix f) (sys j)) = with_cpu (prefix f1) (sys j1)) as ->.
  { unfold with_cpu, j1. cbn [sys with_cpu g_cpu]. f_equal. symmetry. apply prefix_PC. }
  change (mkJob (with_cpu (prefix f1) (sys j1)) _ _ _) with (with_regs (prefix f1) j1).
  assert (forall j', g_cpu (sys j') = g_cpu (sys j1) -> going (Datatypes.S turns) f1 j') as Hgo.
  { intros j' Ej'. destruct Hg as [Hseg Hleft Hdone Hu Hd5 Hread]. split; try done.
    rewrite Ej'. by apply unmoved_PC. }
  clearbody j1. 
  apply bind_in_step; [apply valid_in_step| |done]. intros j2 Ej2. cbn [negb].
  apply bind_in_step; [apply observed_in_step| |done]. intros j3 Ej3. cbn [negb].
  rewrite Ej2 in Ej3. specialize (Hgo j3 Ej3).
  destruct (interruptible_in_step f1 j3 (go_unmoved _ _ _ Hgo)) as [[E1 E2]|[E1 [e E2]]].
  - rewrite (run_bind _ _ _ _ _ E1), (run_bind _ _ _ _ _ E2).
    apply (access_same turns f1 j3 (f_base fr)
      (fun f => if (fl_first f =? 15) && (op =? 18) && (rd 1 f <=? rd 2 f)
                then publish (set_count 4 f)
                else segment_ops g_vblank_threshold recomp_tail_call turns f)
      (fun f => if (fl_first f =? 15) && (op =? 18) && (rd 1 f <=? rd 2 f)
                then step_publish else step_ops turns f) op); [done|done|].
    intros f' j' Hg' Ef' Ec'. destruct (_ && _ && _) eqn:Eend; [|by apply IH].
    apply andb_true_iff in Eend as [[E15%Z.eqb_eq E18%Z.eqb_eq]%andb_true_iff _].
    assert (fl_completed f' = 4) as E4.
    { rewrite Ec'. unfold op in E18. change (fl_first f1) with (fl_first f) in Ef'.
      change (fl_completed f1) with (fl_completed f). lia. }
    change (prefix f') with (prefix (set_count 4 f')).
    destruct Hg' as [Hseg Hleft Hdone Hu Hd5 Hread].
    rewrite publish_same; [apply same_end_refl| |done|done|done].
    split; [done|]. right. cbn [set_count fl_first fl_count]. by rewrite E15.
  - destruct (interruptible f1 j3) as [r j4] eqn:Ei. cbn [fst] in E2. subst r. symmetry in E1.
    rewrite (run_bind_exn _ _ _ _ _ Ei), (run_bind_exn _ _ _ _ _ E1). apply same_end_refl.
Qed.

(** C18. A segment of the drawing queue publishes its registers once, and nothing
    can tell.  For every segment the queue runs, the segment that keeps its
    registers back and the one that updates them at each instruction come to the
    same result and the same machine, at the end of the segment, at an
    invalidation, at a hand-over to the generated code, at an interrupt and at a
    failure of the generated code; where the memory or the clock fails inside an
    instruction, the machines differ at most in the CPU. *)
Theorem segment_is_stepwise (junk : list Z) (first count : Z) (j : J)
    (Hseg : (first, count) ∈ segments) (Hjunk : Forall is_u32 junk)
    (Hcpu : cpu_ok (g_cpu (sys j))) :
  same_end (segment g_vblank_threshold recomp_tail_call junk first count j)
           (step_segment junk first count j).
Proof.
  unfold segment, step_segment.
  match goal with |- same_end (bind _ ?k j) (bind _ ?k' j) =>
    change (same_end (k (g_cpu (sys j)) j) (k' (g_cpu (sys j)) j)) end. cbv beta zeta.
  set (f := mkFlight _ junk _ first count 0).
  assert (going (Z.to_nat count) f j) as Hg.
  { assert (0 <= count).
    { unfold segments in Hseg. rewrite !elem_of_cons, elem_of_nil in Hseg.
      destruct_or!; try done; injection Hseg as -> ->; lia. }
    split; try done; [cbn; lia| |change (is_u32 (lget (regD (g_cpu (sys j))) 5));
      apply Forall_lget; [apply Hcpu|done]].
    split; [apply Hcpu|]. split; [apply Hcpu|done]. }
  pose proof (ops_same _ f j Hg) as Hs.
  assert (with_regs (prefix f) j = j) as E; [|by rewrite E in Hs].
  unfold with_regs, with_cpu, prefix. rewrite load_unmoved by apply Hg.
  unfold prefix_steps. cbn [f fl_completed]. destruct j as [[c ? ? ? ? ? ? ? ? ? ? ?] ? ? ?].
  cbn. by destruct c.
Qed.
End Stepwise.

(** On the flat board: the entry segment of a queue of three pictures. *)
#[export] Instance flat_native : NativeHost FlatBoard := {
  g_cdi_native_invalidation_epoch _ := 7;
  instruction_valid _ _ _ := true;
  job_binding _ _ := Some (0x10000, 1);
}.
Definition draw_job : Job Drawing FlatBoard :=
  mkJob (mkSys (mkCpu [3; 0; 0; 0; 9; 9; 0; 0] [5; 0; 0; 0; 0; 6; 0x10000; 0x8000] 0x2700 0x27018 0 0)
    flat_reset false false false 0 0 0 0 0 0 []) 0
    (mkDrawing (mkDrawingStats 0 0 0 0 0) None (mkDrawFrame 0x10000 1 7) None) 0.

Lemma flat_access_quiet a (b : FlatBoard) : fst (flat_access a b) <> Exn EIrqUnwind.
Proof. unfold flat_access. by destruct (_ <? _). Qed.
Lemma flat_write_quiet a v : never_unwinds (S := FlatBoard) (m68k_write32 a v).
Proof.
  intros b. unfold m68k_write32. cbn [m68k_write16 flat_board]. cbv beta iota delta [bind modify].
  pose proof (flat_access_quiet a b) as H1.
  destruct (flat_access a b) as [[i|e] b1]; [|cbn in *; intros [= ->]; by apply H1].
  match goal with |- context [flat_access ?x ?y] =>
    pose proof (flat_access_quiet x y) as H2; destruct (flat_access x y) as [[i2|e] b2] end;
    [discriminate|cbn in *; intros [= ->]; by apply H2].
Qed.
Lemma flat_read_quiet a : never_unwinds (S := FlatBoard) (m68k_read32 a).
Proof.
  intros b. unfold m68k_read32. cbn [m68k_read16 flat_board].
  cbv beta iota delta [bind modify gets ret].
  pose proof (flat_access_quiet a b) as H1.
  destruct (flat_access a b) as [[i|e] b1]; [|cbn in *; intros [= ->]; by apply H1].
  match goal with |- context [flat_access ?x ?y] =>
    pose proof (flat_access_quiet x y) as H2; destruct (flat_access x y) as [[i2|e] b2] end;
    [discriminate|cbn in *; intros [= ->]; by apply H2].
Qed.

Lemma segment_is_stepwise_witness :
  fst (segment 1 (fun _ => ret tt) [0; 0; 0; 0] 0 7 draw_job) = Ok true /\
  same_end (segment 1 (fun _ => ret tt) [0; 0; 0; 0] 0 7 draw_job)
    (step_segment 1 (fun _ => ret tt) [0; 0; 0; 0] 0 7 draw_job).
Proof.
  split; [vm_compute; reflexivity|].
  apply (segment_is_stepwise 1 (fun _ => ret tt) flat_write_quiet flat_read_quiet
    (fun n b => ltac:(discriminate))).
  - unfold segments. repeat constructor.
  - repeat constructor; unfold is_word; lia.
  - split; cbn; try (unfold is_word; lia); repeat constructor; unfold is_word; lia.
Defined.
