(* ===== verification/ServiceJob.v ===== *)
(** The native process lookup (runner/src/cdi_service_jobs.c): the firmware
    routine at $40829A that turns a process number into its descriptor. Its reads
    of memory happen at their instructions' times; its registers stay as they
    were, and [prefix] works them out from the reads and the set of completed
    operations where something looks at them. *)

From Stdlib Require Import ZArith Lia Bool.
From stdpp Require Import base tactics numbers list.
From S2P Require Import Prelude Irq Cpu Interp Mcd212 Bus Sha256 Job.
Open Scope Z_scope.
Open Scope mach_scope.

Record CdiServiceJobState := mkServiceStats {
  jobs : Z; errors : Z; interrupted : Z; fallbacks : Z;   (* uint64_t *)
}.
Definition stats_reset : CdiServiceJobState := mkServiceStats 0 0 0 0.
Definition count_job (t : CdiServiceJobState) :=
  mkServiceStats (u64 (jobs t + 1)) (errors t) (interrupted t) (fallbacks t).
Definition count_error (t : CdiServiceJobState) :=
  mkServiceStats (jobs t) (u64 (errors t + 1)) (interrupted t) (fallbacks t).
Definition count_interrupt (t : CdiServiceJobState) :=
  mkServiceStats (jobs t) (errors t) (u64 (interrupted t + 1)) (fallbacks t).
Definition count_fallback (t : CdiServiceJobState) :=
  mkServiceStats (jobs t) (errors t) (interrupted t) (u64 (fallbacks t + 1)).

Record ProcessLookup := mkLookup {
  before : M68KState;
  table : Z; first_descriptor : Z; checked_descriptor : Z; completed : Z; pc : Z;
  count : Z; descriptor_id : Z;
  active : bool;
}.
Definition lookup_reset : ProcessLookup := mkLookup cpu_reset 0 0 0 0 0 0 0 false.
Definition set_table (v : Z) (f : ProcessLookup) : ProcessLookup :=
  mkLookup (before f) v (first_descriptor f) (checked_descriptor f) (completed f) (pc f) (count f) (descriptor_id f) (active f).
Definition set_first (v : Z) (f : ProcessLookup) : ProcessLookup :=
  mkLookup (before f) (table f) v (checked_descriptor f) (completed f) (pc f) (count f) (descriptor_id f) (active f).
Definition set_checked (v : Z) (f : ProcessLookup) : ProcessLookup :=
  mkLookup (before f) (table f) (first_descriptor f) v (completed f) (pc f) (count f) (descriptor_id f) (active f).
Definition set_completed (v : Z) (f : ProcessLookup) : ProcessLookup :=
  mkLookup (before f) (table f) (first_descriptor f) (checked_descriptor f) v (pc f) (count f) (descriptor_id f) (active f).
Definition set_pc (v : Z) (f : ProcessLookup) : ProcessLookup :=
  mkLookup (before f) (table f) (first_descriptor f) (checked_descriptor f) (completed f) v (count f) (descriptor_id f) (active f).
Definition set_count (v : Z) (f : ProcessLookup) : ProcessLookup :=
  mkLookup (before f) (table f) (first_descriptor f) (checked_descriptor f) (completed f) (pc f) v (descriptor_id f) (active f).
Definition set_descriptor_id (v : Z) (f : ProcessLookup) : ProcessLookup :=
  mkLookup (before f) (table f) (first_descriptor f) (checked_descriptor f) (completed f) (pc f) (count f) v (active f).
Definition set_active (v : bool) (f : ProcessLookup) : ProcessLookup :=
  mkLookup (before f) (table f) (first_descriptor f) (checked_descriptor f) (completed f) (pc f) (count f) (descriptor_id f) v.

(** The statics of the file. *)
Record Service := mkService { sv_stats : CdiServiceJobState; flight : ProcessLookup }.
Definition in_stats (f : CdiServiceJobState -> CdiServiceJobState) (v : Service) : Service :=
  mkService (f (sv_stats v)) (flight v).
Definition in_flight (f : ProcessLookup -> ProcessLookup) (v : Service) : Service :=
  mkService (sv_stats v) (f (flight v)).

Definition LOOKUP_ENTRY : Z := 0x40829A.
Definition LOOKUP_LIMIT : Z := 0x4082C0.

Definition operation_pc : list Z :=
  [0x829A;0x829E;0x82A0;0x82A2;0x82A4;0x82A6;0x82A8;0x82AA;
   0x82AC;0x82AE;0x82B0;0x82B2;0x82B4;0x82B6;0x82BA;0x82BE].
Definition operation_cycles : list Z := [22;11;13;19;13;7;19;13;15;15;13;11;13;11;14;15].
Definition pc_of (operation : Z) : Z := CDI_ROM_BASE + lget operation_pc operation.

(** * The registers of a lookup under way *)
Definition logical (value bits : Z) (s : M68KState) : M68KState := set_SR (logic_sr value bits (SR s)) s.
Definition compare (left right : Z) (s : M68KState) : M68KState := set_SR (compare_sr left right 16 (SR s)) s.
Definition sr_or (b : bool) (bits : Z) (s : M68KState) : M68KState :=
  if b then set_SR (Z.lor (SR s) bits) s else s.
Definition no_X (s : M68KState) : M68KState := set_SR (Z.land (SR s) 0xFFEF) s.
Definition D (i : Z) (s : M68KState) : Z := lget (regD s) i.

Definition shifted_of (id : Z) : Z := u16 (Z.shiftl id 2).

Definition prefix_step (f : ProcessLookup) (id : Z) (operation : Z) (s : M68KState) : M68KState :=
  let shifted := shifted_of id in
  match operation with
  | 0 => set_A 0 (table f) s
  | 1 => compare id (count f) s
  | 3 =>
    let s := logical shifted 16 (no_X (set_D 0 (low_word (D 0 s) shifted) s)) in
    let s := sr_or (z2b (Z.land id 0x4000)) (Z.lor SR_C SR_X) s in
    sr_or (z2b (Z.land (Z.lxor id shifted) 0x8000)) SR_V s
  | 5 => set_A 0 (u32 (table f + i16 shifted)) s
  | 6 =>
    let s := logical (Z.shiftr shifted 2) 16 (no_X (set_D 0 (low_word (D 0 s) (Z.shiftr shifted 2)) s)) in
    sr_or (z2b (Z.land shifted 2)) (Z.lor SR_C SR_X) s
  | 8 => set_A 1 (first_descriptor f) s
  | 9 => logical (checked_descriptor f) 32 s
  | 11 => compare (Z.shiftr shifted 2) (descriptor_id f) s
  | 13 => logical 0xE0 16 (set_D 1 (low_word (D 1 s) 0xE0) s)
  | 14 => set_SR (Z.lor (SR s) SR_C) s
  | _ => s
  end.

(** The completed operations, in order. *)
Definition prefix (f : ProcessLookup) : M68KState :=
  let id := u16 (D 0 (before f)) in
  set_PC (pc f)
    (fold_left (fun s operation => if Z.testbit (completed f) operation then prefix_step f id operation s else s)
      (seqZ 0 15) (before f)).

Section ServiceJob.
Context {S : Type} `{JobHost S}.
Context (g_vblank_threshold : Z) (recomp_tail_call : Z -> Mach (Sys S) unit).

Let J := Job Service S.

Definition upd (f : Service -> Service) : Mach J unit := upd_stats f.
Definition get_flight : Mach J ProcessLookup := gets (fun j => flight (stats j)).

(** [g_cpu=prefix();flight.active=0;] *)
Definition materialize : Mach J unit :=
  f <-- get_flight;;
  job_cpu (fun _ => prefix f);;;
  upd (in_flight (set_active false)).

Definition fallback : Mach J bool :=
  materialize;;;
  upd (in_stats count_fallback);;;
  tail_call_here recomp_tail_call;;;
  ret false.

Definition begin (operation : Z) : Mach J bool :=
  upd (in_flight (set_pc (pc_of operation)));;;
  job_cpu (set_PC (pc_of operation));;;
  allowed <-- still_allowed LOOKUP_ENTRY LOOKUP_LIMIT;;
  if negb allowed then fallback
  else
    ready <-- gets (fun j => irq_ready (sys j));;
    when ready (materialize;;; upd (in_stats count_interrupt);;; on_sys recomp_take_irq);;;
    ret true.

Definition complete (operation : Z) : Mach J unit :=
  upd (in_flight (fun f => set_completed (Z.lor (completed f) (u32 (Z.shiftl 1 operation))) f));;;
  account g_vblank_threshold (lget operation_cycles operation).

(** [if(!readable(address,size))return 1;] and the read. *)
Definition readable (address size : Z) (read : Mach (Sys S) Z) (put : Z -> ProcessLookup -> ProcessLookup) : Mach J bool :=
  if negb (negb (Z.odd address) && ram address size) then fallback
  else
    v <-- on_sys read;;
    upd (in_flight (put v));;;
    ret true.

(** What operation [operation] reads; [false] when it has handed over. *)
Definition perform (operation table_address slot : Z) : Mach J bool :=
  f <-- get_flight;;
  match operation with
  | 0 => readable table_address 4 (on_bus (m68k_read32 table_address)) set_table
  | 1 => readable (table f) 2 (on_bus (m68k_read16 (table f))) set_count
  | 8 => readable slot 4 (on_bus (m68k_read32 slot)) set_first
  | 9 => readable slot 4 (on_bus (m68k_read32 slot)) set_checked
  | 11 => readable (first_descriptor f) 2 (on_bus (m68k_read16 (first_descriptor f))) set_descriptor_id
  | 13 => upd (in_stats count_error);;; ret true
  | _ => ret true
  end.

(** The operation after [operation]. *)
Definition next_operation (operation id : Z) (f : ProcessLookup) : Z :=
  let shifted := shifted_of id in
  if ((operation =? 2) && (count f <? id)) || ((operation =? 4) && (shifted =? 0)) ||
     ((operation =? 7) && (Z.shiftr shifted 2 =? 0)) || ((operation =? 10) && (checked_descriptor f =? 0))
  then 13
  else if (operation =? 12) && (Z.shiftr shifted 2 =? descriptor_id f) then 15
  else operation + 1.

Definition slot_of (f : ProcessLookup) (id : Z) : Z := u32 (table f + i16 (shifted_of id)).

(** The loop over the operations: each turn is a later one, so sixteen do. *)
Fixpoint lookup (turns : nat) (operation id table_address slot : Z) : Mach J bool :=
  if 16 <=? operation then materialize;;; ret true
  else match turns with
  | O => throw EUndefined
  | Datatypes.S turns' =>
    ok <-- begin operation;;
    if negb ok then ret true
    else
      f <-- get_flight;;
      let slot := if operation =? 5 then slot_of f id else slot in
      ok <-- perform operation table_address slot;;
      if negb ok then ret true
      else
        complete operation;;;
        f <-- get_flight;;
        lookup turns' (next_operation operation id f) id table_address slot
  end.

Definition cdi_service_dispatch (cdi_service_entry : option Z) (function : Z) : Mach J bool :=
  d <-- job_debug;;
  observe (debug_native_job_epoch d);;;
  sp <-- on_sys (getA 7);;
  if bool_decide (cdi_service_entry = Some function) && negb (Z.odd sp) && ram sp 4 &&
     debug_native_job_allowed LOOKUP_ENTRY LOOKUP_LIMIT d then
    ordinary <-- on_sys (ordinary_call_to LOOKUP_ENTRY);;
    if negb ordinary then ret false
    else
      upd (in_stats count_job);;;
      job_cpu (set_PC LOOKUP_ENTRY);;;
      on_sys debug_trace_block;;;
      c <-- gets (fun j => g_cpu (sys j));;
      upd (in_flight (fun _ => mkLookup c 0 0 0 0 LOOKUP_ENTRY 0 0 true));;;
      lookup 16 0 (u16 (D 0 c)) (u32 (lget (regA c) 6 + 68)) 0
  else ret false.

Definition cdi_service_sync_cpu : Mach J unit :=
  f <-- get_flight;;
  when (active f) (job_cpu (fun _ => prefix f)).
End ServiceJob.

(** [cdi_service_reset]: the job is on only for the firmware of this digest. *)
Definition expected : list Z :=
  [0xDE;0x70;0x3C;0xAE;0xA3;0x85;0x74;0x9C;0xEF;0xDF;0x64;0x71;0x65;0x67;0x6C;0x8A;
   0x04;0x07;0x48;0x03;0x4A;0x6B;0xE3;0xBE;0x43;0x68;0x9A;0x38;0x34;0x6E;0x5B;0x18].
Definition cdi_service_reset (recomp_native_find_entry : Z -> option Z) (rom : mem) : option Z * Service :=
  (if decide (cdi_sha256 (mload rom (LOOKUP_ENTRY - CDI_ROM_BASE) 38) = expected)
   then recomp_native_find_entry LOOKUP_ENTRY else None,
   mkService stats_reset lookup_reset).
