(* ===== verification/ServiceJobSpec.v ===== *)
(** The native process lookup is the firmware: its reads and its deferred
    registers are those of the routine's instructions, so that a run of the job
    is a run of the interpreter up to the return, the hand-over to the generated
    code, or the exception that stops both. *)

From Stdlib Require Import ZArith Lia Bool.
From stdpp Require Import base tactics numbers list relations.
From S2P Require Import Prelude Irq Cpu Insn Alu AluSpec Ea Cycles Interp CpuOk Ram Mcd212 Bus Sha256 Job JobSpec ServiceJob.
Open Scope Z_scope.
Open Scope mach_scope.


Definition i_scale := reg_move 0x4082A2 [0xE540] MN_ASL W (-1) 0 0 2 0.










(** * The registers at each operation *)
Definition id_of (f : ProcessLookup) : Z := u16 (D 0 (before f)).
Definition registers (f : ProcessLookup) (i : Z) : M68KState :=
  fold_left (fun s k => prefix_step f (id_of f) k s) (seqZ 0 i) (before f).

(** A lookup of a process number below 0x4000, on a CPU with its registers. *)
Record lookup_ok (f : ProcessLookup) : Prop := {
  lk_D : length (regD (before f)) = 8%nat;
  lk_A : length (regA (before f)) = 8%nat;
  lk_SR : is_u16 (SR (before f));
  lk_defined : Z.land (SR (before f)) 0xA71F = SR (before f);
  lk_id : id_of f < 0x4000;
  lk_table : is_u32 (table f);
  lk_first : is_u32 (first_descriptor f);
  lk_checked : is_u32 (checked_descriptor f);
  lk_count : is_u16 (count f);
  lk_descriptor : is_u16 (descriptor_id f);
}.







(** * Each operation is an instruction *)
Section Lookup.
Context {S : Type} `{JobHost S}.
Context (words : forall a s v s', m68k_read16 (S := S) a s = (Ok v, s') -> is_u16 v).








Lemma D0_first f : lookup_ok f -> D 0 (registers f 1) = D 0 (before f).
Proof. done. Qed.
























(** * The deferred registers *)
Definition deferred (f : ProcessLookup) : M68KState :=
  fold_left (fun s k => if Z.testbit (completed f) k then prefix_step f (id_of f) k s else s) (seqZ 0 15) (before f).


Lemma fold_ext {A B} (g h : B -> A -> B) (l : list A) b :
  (forall x c, x ∈ l -> g c x = h c x) -> fold_left g l b = fold_left h l b.
Proof.
  revert b. induction l as [|x l IH]; intros b Hg; [done|]. cbn [fold_left].
  rewrite Hg by (by left). apply IH. intros y c Hy. apply Hg. by right.
Qed.


(** One operation more: what it reads is used by it and by later ones only. *)
Definition agrees (i : Z) (f f' : ProcessLookup) : Prop :=
  before f' = before f /\ completed f' = completed f /\
  forall k s, 0 <= k < i -> prefix_step f' (id_of f) k s = prefix_step f (id_of f) k s.


Lemma agrees_self i f : agrees i f f.
Proof. done. Qed.



Lemma deferred_ext f f' :
  before f' = before f -> completed f' = completed f ->
  (forall k s, prefix_step f' (id_of f) k s = prefix_step f (id_of f) k s) -> deferred f' = deferred f.
Proof.
  intros Eb Ec Es. unfold deferred, id_of. rewrite Eb, Ec. fold (id_of f). apply fold_ext. intros k c _. by rewrite Es.
Qed.
Lemma deferred_active v f : deferred (set_active v f) = deferred f.
Proof. by apply deferred_ext. Qed.

#[local] Opaque deferred prefix.

(** * A run of the job is a run of the firmware *)
Context (g_vblank_threshold : Z) (recomp_tail_call : Z -> Mach (Sys S) unit).

























End Lookup.




(** The job's codes for the scaling of 0x4000 are not the firmware's: the bit that
    passes through the sign without staying there is an overflow. *)
Lemma scale_overflow_missed :
  let cpu := mkCpu [0x4000; 0; 0; 0; 0; 0; 0; 0] [0; 0; 0; 0; 0; 0; 0; 0x8000] 0x2700 0x4082A2 0 0 in
  let s := mkSys cpu (mkFlat ∅ 0 irq_reset 0) false false false 0 0 0 0 0 0 [] in
  SR (g_cpu (snd (exec_one i_scale s))) = 0x2717 /\
  SR (prefix_step (mkLookup cpu 0 0 0 0 0 0 0 true) 0x4000 3 cpu) = 0x2715.
Proof. split; vm_compute; reflexivity. Qed.
