(* ===== verification/Raster.v ===== *)
(** The captured display (runner/src/cdi_raster_jobs.c): the spans of a line
    before their colours are mixed, the rows and frames that hold them, and the
    counts by which the emulation and the readers of a frame share them.

    An allocated row or frame has a name that is never used again; memory that
    was freed has none, so an access to it answers [None], as does a null
    pointer the program would follow.  Readers release their frames on threads
    of their own: [schedule] says which of their accesses come before each
    atomic access of the emulation, and [failures] which allocations fail. *)

From Stdlib Require Import ZArith Lia Bool.
From stdpp Require Import base tactics numbers list gmap.
From S2P Require Import Prelude Mcd212 Video.
Open Scope Z_scope.

(** * Spans *)
Record CdiRasterSpan := mkSpan { bounds : Z; span_a : Z; span_b : Z; control : Z }.
#[export] Instance span_eq_dec : EqDecision CdiRasterSpan.
Proof. solve_decision. Defined.

Definition span_first (s : CdiRasterSpan) : Z := Z.land (bounds s) 65535.
Definition span_last (s : CdiRasterSpan) : Z := Z.shiftr (bounds s) 16.
Definition span_of (first last a b c : Z) : CdiRasterSpan :=
  mkSpan (Z.lor first (u32 (Z.shiftl last 16))) a b c.

Definition extends (previous : CdiRasterSpan) (first a b c : Z) : bool :=
  (span_last previous =? first) && (span_a previous =? a) && (span_b previous =? b) &&
  (control previous =? c).

(** [width] is the line's. *)
Definition append (width first last a b c : Z) (spans : list CdiRasterSpan) : list CdiRasterSpan :=
  if (last <=? first) || (width <? last) || (MCD212_VIDEO_MAX_WIDTH <=? Z.of_nat (length spans)) then spans
  else
    match list.last spans with
    | Some previous =>
      if extends previous first a b c
      then take (pred (length spans)) spans ++
           [mkSpan (Z.lor (Z.land (bounds previous) 65535) (u32 (Z.shiftl last 16))) a b c]
      else spans ++ [span_of first last a b c]
    | None => [span_of first last a b c]
    end.

(** One span under an overlay of [first, last). *)
Definition overlay_span (width first last color : Z) (out : list CdiRasterSpan) (span : CdiRasterSpan)
    : list CdiRasterSpan :=
  let a := span_first span in
  let b := span_last span in
  if (b <=? first) || (last <=? a) then append width a b (span_a span) (span_b span) (control span) out
  else
    let out := if a <? first then append width a first (span_a span) (span_b span) (control span) out else out in
    let out := append width (if first <? a then a else first) (if b <? last then b else last) color 0 0 out in
    if last <? b then append width last b (span_a span) (span_b span) (control span) out else out.

Definition overlay_spans (width first last color : Z) (pending : list CdiRasterSpan) : list CdiRasterSpan :=
  if (match pending with [] => true | _ => false end) || (width <=? first) then pending
  else
    let last := if width <? last then width else last in
    foldl (overlay_span width first last color) [] pending.

Definition channel (color factor : Z) : Z :=
  let value := Z.quot (factor * (color - 16)) 63 + 16 in
  if value <? 0 then 0 else if 255 <? value then 255 else value.

Definition color_channel (span : CdiRasterSpan) (shift : Z) : Z :=
  let fa := Z.land (Z.shiftr (control span) 2) 63 in
  let fb := Z.land (Z.shiftr (control span) 8) 63 in
  let value := channel (Z.land (Z.shiftr (span_a span) shift) 255) fa in
  let value :=
    if Z.land (control span) 3 =? 2
    then value + (channel (Z.land (Z.shiftr (span_b span) shift) 255) fb - 16) else value in
  Z.shiftl (if value <? 0 then 0 else if 255 <? value then 255 else value) shift.

Definition cdi_raster_color (span : CdiRasterSpan) : Z :=
  if Z.land (control span) 3 =? 0 then span_a span
  else foldl (fun result shift => Z.lor result (color_channel span shift)) 0xff000000 [0; 8; 16].

(** A line's spans as pixels from offset [at_] on. *)
Definition paint_span (at_ : Z) (pixels : mem) (span : CdiRasterSpan) : mem :=
  foldl (fun m x => mset m (at_ + x) (cdi_raster_color span)) pixels
    (seqZ (span_first span) (span_last span - span_first span)).
Definition paint_row (at_ : Z) (spans : list CdiRasterSpan) (pixels : mem) : mem :=
  foldl (paint_span at_) pixels spans.

(** * Rows and frames *)
Abbreviation ptr := positive.

Record CdiRasterRow := mkRow { row_references : Z; row_identity : Z; row_spans : list CdiRasterSpan }.
Record CdiRasterFrame := mkFrame {
  references : Z; frame_width : Z; frame_height : Z; frame_generation : Z; frame_epoch : Z;
  rows : list (option ptr);    (* the first [frame_height] of them *)
}.
Definition set_row_references (n : Z) (r : CdiRasterRow) : CdiRasterRow :=
  mkRow n (row_identity r) (row_spans r).
Definition set_references (n : Z) (f : CdiRasterFrame) : CdiRasterFrame :=
  mkFrame n (frame_width f) (frame_height f) (frame_generation f) (frame_epoch f) (rows f).

(** An access of a reader: the first of a release, or the next of a frame whose
    last reader it was. *)
Inductive ReaderStep := ReaderRelease (i : nat) | ReaderDrop (i : nat).

(** The memory the threads share, and where the readers are: the frames they
    hold, and those they are freeing with the next row to release. *)
Record Shared := mkShared {
  row_heap : gmap ptr CdiRasterRow;
  frame_heap : gmap ptr CdiRasterFrame;
  next_name : ptr;
  held : list ptr;
  dying : list (ptr * nat);
  schedule : list (list ReaderStep);
  failures : list bool;
}.
Definition set_rows (h : gmap ptr CdiRasterRow) (s : Shared) : Shared :=
  mkShared h (frame_heap s) (next_name s) (held s) (dying s) (schedule s) (failures s).
Definition set_frames (h : gmap ptr CdiRasterFrame) (s : Shared) : Shared :=
  mkShared (row_heap s) h (next_name s) (held s) (dying s) (schedule s) (failures s).
Definition set_held (l : list ptr) (s : Shared) : Shared :=
  mkShared (row_heap s) (frame_heap s) (next_name s) l (dying s) (schedule s) (failures s).
Definition set_dying (l : list (ptr * nat)) (s : Shared) : Shared :=
  mkShared (row_heap s) (frame_heap s) (next_name s) (held s) l (schedule s) (failures s).
Definition set_schedule (l : list (list ReaderStep)) (s : Shared) : Shared :=
  mkShared (row_heap s) (frame_heap s) (next_name s) (held s) (dying s) l (failures s).

(** [malloc] and [calloc]: a new name, or a null pointer. *)
Definition allocate (s : Shared) : option ptr * Shared :=
  let after := mkShared (row_heap s) (frame_heap s) (Pos.succ (next_name s)) (held s) (dying s)
                 (schedule s) (tail (failures s)) in
  (if default false (head (failures s)) then None else Some (next_name s), after).

(** [atomic_fetch_sub] of a row, with the free after the last. *)
Definition drop_row (p : ptr) (s : Shared) : option Shared :=
  row ← row_heap s !! p;
  Some (set_rows (if row_references row =? 1 then delete p (row_heap s)
                  else <[p := set_row_references (u32 (row_references row - 1)) row]> (row_heap s)) s).
Definition drop_row_slot (slot : option ptr) (s : Shared) : option Shared :=
  match slot with None => Some s | Some p => drop_row p s end.

(** [atomic_fetch_sub] of a frame: was it the last reference? *)
Definition drop_frame (f : ptr) (s : Shared) : option (bool * Shared) :=
  frame ← frame_heap s !! f;
  Some (references frame =? 1,
        set_frames (<[f := set_references (u32 (references frame - 1)) frame]> (frame_heap s)) s).

Definition free_frame (f : ptr) (s : Shared) : option Shared :=
  _ ← frame_heap s !! f;
  Some (set_frames (delete f (frame_heap s)) s).

(** ** The readers *)
Definition reader_step (step : ReaderStep) (s : Shared) : option Shared :=
  match step with
  | ReaderRelease i =>
    match held s !! i with
    | None => Some s
    | Some f =>
      d ← drop_frame f (set_held (delete i (held s)) s);
      Some (if (fst d : bool) then set_dying ((f, 0%nat) :: dying (snd d)) (snd d) else snd d)
    end
  | ReaderDrop i =>
    match dying s !! i with
    | None => Some s
    | Some (f, y) =>
      frame ← frame_heap s !! f;
      if Z.of_nat y <? frame_height frame then
        s ← drop_row_slot (mjoin (rows frame !! y)) s;
        Some (set_dying (<[i := (f, S y)]> (dying s)) s)
      else free_frame f (set_dying (delete i (dying s)) s)
    end
  end.

Fixpoint reader_steps (steps : list ReaderStep) (s : Shared) : option Shared :=
  match steps with
  | [] => Some s
  | step :: steps => s ← reader_step step s; reader_steps steps s
  end.

(** What the readers do before the emulation's next access. *)
Definition yield (s : Shared) : option Shared :=
  match schedule s with
  | [] => Some s
  | now :: later => reader_steps now (set_schedule later s)
  end.

(** ** The emulation's releases *)
Definition release_row (row : option ptr) (s : Shared) : option Shared :=
  match row with
  | None => Some s
  | Some p => s ← yield s; drop_row p s
  end.

(** The rows of [frame] from [y] on, [n] of them. *)
Fixpoint release_rows (f : ptr) (n y : nat) (s : Shared) : option Shared :=
  match n with
  | O => Some s
  | S n' =>
    frame ← frame_heap s !! f;
    s ← release_row (mjoin (rows frame !! y)) s;
    release_rows f n' (S y) s
  end.

Definition cdi_raster_release (frame : option ptr) (s : Shared) : option Shared :=
  match frame with
  | None => Some s
  | Some f =>
    s ← yield s;
    d ← drop_frame f s;
    if negb (fst d) then Some (snd d)
    else
      fr ← frame_heap (snd d) !! f;
      s ← release_rows f (Z.to_nat (frame_height fr)) 0 (snd d);
      s ← yield s;
      free_frame f s
  end.

(** * The capture *)
Record Raster := mkRaster {
  enabled : bool;
  current_row : Z;
  width : Z;
  height : Z;
  pending : list CdiRasterSpan;      (* the first [count] of the array *)
  identity : Z;
  epoch : Z;
  working : list (option ptr);
  published : option ptr;
  shared : Shared;
}.
Definition set_shared (x : Shared) (s : Raster) : Raster :=
  mkRaster (enabled s) (current_row s) (width s) (height s) (pending s) (identity s) (epoch s)
    (working s) (published s) x.
Definition set_enabled (x : bool) (s : Raster) : Raster :=
  mkRaster x (current_row s) (width s) (height s) (pending s) (identity s) (epoch s)
    (working s) (published s) (shared s).
Definition set_line (row : Z) (x : list CdiRasterSpan) (s : Raster) : Raster :=
  mkRaster (enabled s) row (width s) (height s) x (identity s) (epoch s)
    (working s) (published s) (shared s).
Definition set_pending (x : list CdiRasterSpan) (s : Raster) : Raster := set_line (current_row s) x s.
Definition set_size (w h : Z) (s : Raster) : Raster :=
  mkRaster (enabled s) (current_row s) w h (pending s) (identity s) (epoch s)
    (working s) (published s) (shared s).
Definition set_working (x : list (option ptr)) (s : Raster) : Raster :=
  mkRaster (enabled s) (current_row s) (width s) (height s) (pending s) (identity s) (epoch s)
    x (published s) (shared s).
Definition set_published (x : option ptr) (s : Raster) : Raster :=
  mkRaster (enabled s) (current_row s) (width s) (height s) (pending s) (identity s) (epoch s)
    (working s) x (shared s).
Definition set_identity (x : Z) (s : Raster) : Raster :=
  mkRaster (enabled s) (current_row s) (width s) (height s) (pending s) x (epoch s)
    (working s) (published s) (shared s).

(** The program before anything ran. *)
Definition start (schedule : list (list ReaderStep)) (failures : list bool) : Raster :=
  mkRaster false 0 0 0 [] 0 0 (replicate (Z.to_nat MCD212_VIDEO_MAX_HEIGHT) None) None
    (mkShared ∅ ∅ 1 [] [] schedule failures).

(** [for(y...){release_row(working[y]);working[y]=NULL;}], [n] rows from [y] on. *)
Fixpoint clear_working (n y : nat) (s : Raster) : option Raster :=
  match n with
  | O => Some s
  | S n' =>
    sh ← release_row (mjoin (working s !! y)) (shared s);
    clear_working n' (S y) (set_working (<[y := None]> (working s)) (set_shared sh s))
  end.

Definition cdi_raster_reset (s : Raster) : option Raster :=
  sh ← cdi_raster_release (published s) (shared s);
  s ← clear_working (Z.to_nat MCD212_VIDEO_MAX_HEIGHT) 0 (set_published None (set_shared sh s));
  Some (mkRaster (enabled s) (current_row s) 0 0 [] (identity s) (u64 (epoch s + 1))
          (working s) (published s) (shared s)).

Definition cdi_raster_capture (value : bool) (s : Raster) : option (bool * Raster) :=
  if eqb value (enabled s) then Some (false, s)
  else s ← cdi_raster_reset s; Some (true, set_enabled value s).

Definition same_size (w h : Z) (s : Raster) : bool := (width s =? w) && (height s =? h).

Definition cdi_raster_begin (row w h : Z) (s : Raster) : option Raster :=
  if negb (enabled s) then Some s
  else
    s ← (if same_size w h s then Some s else s ← cdi_raster_reset s; Some (set_size w h s));
    Some (set_line row [] s).

Definition cdi_raster_span (first last a b c : Z) (s : Raster) : Raster :=
  if enabled s then set_pending (append (width s) first last a b c (pending s)) s else s.

Definition cdi_raster_overlay (first last color : Z) (s : Raster) : Raster :=
  if enabled s then set_pending (overlay_spans (width s) first last color (pending s)) s else s.

Definition cdi_raster_finish (s : Raster) : option Raster :=
  if negb (enabled s) || (match pending s with [] => true | _ => false end) ||
     (height s <=? current_row s) || (MCD212_VIDEO_MAX_HEIGHT <=? current_row s) then Some s
  else
    let y := Z.to_nat (current_row s) in
    let old := mjoin (working s !! y) in
    retained ← (match old with
                | None => Some false
                | Some p => row ← row_heap (shared s) !! p;
                            Some (bool_decide (row_spans row = pending s))
                end);
    if (retained : bool) then Some s
    else
      let (name, sh) := allocate (shared s) in
      match name with
      | None => r ← cdi_raster_capture false (set_shared sh s); Some (snd r)
      | Some p =>
        let s := set_identity (u64 (identity s + 1)) s in
        let sh := set_rows (<[p := mkRow 1 (identity s) (pending s)]> (row_heap sh)) sh in
        let s := set_working (<[y := Some p]> (working s)) s in
        sh ← release_row old sh;
        Some (set_shared sh s)
      end.

(** The runs of one colour of a row of pixels: [n] more pixels from [x] on. *)
Fixpoint native_end (color_at : Z -> Z) (w color : Z) (n : nat) (e : Z) : Z :=
  match n with
  | O => e
  | S n' => if (e <? w) && (color_at e =? color) then native_end color_at w color n' (e + 1) else e
  end.
Fixpoint native_runs (color_at : Z -> Z) (w limit : Z) (n : nat) (x : Z) (spans : list CdiRasterSpan)
    : list CdiRasterSpan :=
  match n with
  | O => spans
  | S n' =>
    if x <? w then
      let color := color_at x in
      let e := native_end color_at w color (Z.to_nat w) (x + 1) in
      native_runs color_at w limit n' e (append limit x e color 0 0 spans)
    else spans
  end.

(** The rows with no captured job, [n] from [y] on; does the capture go on? *)
Fixpoint capture_missing (native : Z -> Z) (w : Z) (n y : nat) (s : Raster) : option (bool * Raster) :=
  match n with
  | O => Some (true, s)
  | S n' =>
    match mjoin (working s !! y) with
    | Some _ => capture_missing native w n' (S y) s
    | None =>
      let spans := native_runs (fun x => native (Z.of_nat y * w + x)) w (width s) (Z.to_nat w) 0 [] in
      s ← cdi_raster_finish (set_line (Z.of_nat y) spans s);
      if negb (enabled s) then Some (false, s) else capture_missing native w n' (S y) s
    end
  end.

(** [frame->rows[y]=working[y]] and the count of each row. *)
Fixpoint share_rows (slots : list (option ptr)) (s : Shared) : option Shared :=
  match slots with
  | [] => Some s
  | slot :: slots =>
    p ← slot;
    s ← yield s;
    row ← row_heap s !! p;
    share_rows slots
      (set_rows (<[p := set_row_references (u32 (row_references row + 1)) row]> (row_heap s)) s)
  end.

Definition cdi_raster_publish (native : Z -> Z) (w h generation : Z) (s : Raster) : option Raster :=
  if negb (enabled s) || (w =? 0) || (h =? 0) || (MCD212_VIDEO_MAX_WIDTH <? w) ||
     (MCD212_VIDEO_MAX_HEIGHT <? h) then Some s
  else
    s ← (if same_size w h s then Some s else s ← cdi_raster_reset s; Some (set_size w h s));
    r ← capture_missing native w (Z.to_nat h) 0 s;
    let s := snd r in
    if negb (fst r) then Some s
    else
      let (name, sh) := allocate (shared s) in
      match name with
      | None => r ← cdi_raster_capture false (set_shared sh s); Some (snd r)
      | Some f =>
        let slots := take (Z.to_nat h) (working s) in
        sh ← share_rows slots sh;
        let frame := mkFrame 1 (u16 w) (u16 h) generation (epoch s) slots in
        let sh := set_frames (<[f := frame]> (frame_heap sh)) sh in
        let old := published s in
        let s := set_published (Some f) s in
        sh ← cdi_raster_release old sh;
        Some (set_shared sh s)
      end.

Definition cdi_raster_acquire (s : Raster) : option Raster :=
  match published s with
  | None => Some s
  | Some f =>
    sh ← yield (shared s);
    frame ← frame_heap sh !! f;
    Some (set_shared (set_held (f :: held sh)
            (set_frames (<[f := set_references (u32 (references frame + 1)) frame]> (frame_heap sh)) sh)) s)
  end.

(** The frame's pixels, when every row is there and they fit. *)
Fixpoint paint_rows (s : Shared) (w : Z) (slots : list (option ptr)) (y : Z) (pixels : mem)
    : option (bool * mem) :=
  match slots with
  | [] => Some (true, pixels)
  | None :: _ => Some (false, pixels)
  | Some p :: slots =>
    row ← row_heap s !! p;
    paint_rows s w slots (y + 1) (paint_row (y * w) (row_spans row) pixels)
  end.

Definition cdi_raster_native (s : Shared) (f : ptr) (capacity : Z) (pixels : mem) : option (bool * mem) :=
  frame ← frame_heap s !! f;
  if capacity <? u32 (frame_width frame * frame_height frame) then Some (false, pixels)
  else paint_rows s (frame_width frame) (take (Z.to_nat (frame_height frame)) (rows frame)) 0 pixels.

(** ** Use of the capture

    The calls the emulation and the presentation make, in any order.  A client
    asks for a frame while fewer than [HOLD_LIMIT] are in readers' hands. *)
Definition HOLD_LIMIT : nat := Z.to_nat (2 ^ 20).

Inductive Call :=
| Capture (value : bool)
| Reset
| Begin (row w h : Z)
| Span (first last a b c : Z)
| Overlay (first last color : Z)
| Finish
| Publish (native : Z -> Z) (w h generation : Z)
| Acquire
| Idle.   (* the emulation is elsewhere, the readers run *)

Definition call (c : Call) (s : Raster) : option Raster :=
  match c with
  | Capture value => snd <$> cdi_raster_capture value s
  | Reset => cdi_raster_reset s
  | Begin row w h => cdi_raster_begin row w h s
  | Span first last a b c => Some (cdi_raster_span first last a b c s)
  | Overlay first last color => Some (cdi_raster_overlay first last color s)
  | Finish => cdi_raster_finish s
  | Publish native w h generation => cdi_raster_publish native w h generation s
  | Acquire =>
    if (length (held (shared s)) + length (dying (shared s)) <? HOLD_LIMIT)%nat
    then cdi_raster_acquire s else Some s
  | Idle => sh ← yield (shared s); Some (set_shared sh s)
  end.

Fixpoint run (calls : list Call) (s : Raster) : option Raster :=
  match calls with
  | [] => Some s
  | c :: calls => s ← call c s; run calls s
  end.
