(* ===== verification/RasterSpec.v ===== *)
(** Sharing the captured frames: every count is the number of owners, so that no
    access finds freed memory whatever the readers do meanwhile, a frame in a
    reader's hands keeps its pixels, and nothing is left behind. *)

From Stdlib Require Import ZArith Lia Bool.
From stdpp Require Import base tactics numbers list gmap.
From S2P Require Import Prelude Mcd212 Video Raster.
Open Scope Z_scope.

(** * Counting *)
Definition occ (p : ptr) (l : list ptr) : nat := length (filter (p =.) l).

Lemma occ_app p l k : occ p (l ++ k) = (occ p l + occ p k)%nat.
Proof. unfold occ. by rewrite filter_app, length_app. Qed.
Lemma occ_cons p q l : occ p (q :: l) = ((if decide (p = q) then 1 else 0) + occ p l)%nat.
Proof. unfold occ. rewrite filter_cons. by destruct (decide _). Qed.
Lemma occ_nil p : occ p [] = 0%nat.
Proof. done. Qed.
#[export] Instance occ_perm p : Proper ((≡ₚ) ==> (=)) (occ p).
Proof. intros l k H. unfold occ. by rewrite H. Qed.
Lemma occ_pos p l : occ p l <> 0%nat <-> p ∈ l.
Proof.
  induction l as [|q l IH]; [by rewrite occ_nil, elem_of_nil|].
  rewrite occ_cons, elem_of_cons, <- IH. destruct (decide (p = q)); [split; [by left|lia]|].
  split; [intros Hp; right; lia|intros [?|?]; [done|lia]].
Qed.
Lemma occ_length p l : (occ p l <= length l)%nat.
Proof. apply length_filter. Qed.

(** A count and its owners: freed memory has none. *)
Definition counted (references : option Z) (owners : nat) : Prop :=
  match references with
  | Some n => n = Z.of_nat owners /\ owners <> 0%nat /\ is_u32 n
  | None => owners = 0%nat
  end.

Lemma counted_less n k : counted (Some n) (S k) ->
  (n =? 1) = (k =? 0)%nat /\ (k <> 0%nat -> counted (Some (u32 (n - 1))) k).
Proof.
  intros (-> & _ & Hn). split.
  - destruct (Nat.eqb_spec k 0), (Z.eqb_spec (Z.of_nat (S k)) 1); lia || done.
  - intros Hk. assert (is_u32 (Z.of_nat (S k) - 1)) as H by (unfold is_word in *; lia).
    rewrite u32_id by done. split; [lia|done].
Qed.
Lemma counted_more n k : counted (Some n) k -> Z.of_nat k + 1 < 2 ^ 32 -> counted (Some (u32 (n + 1))) (S k).
Proof.
  intros (-> & _ & _) Hk. assert (is_u32 (Z.of_nat k + 1)) as H by (unfold is_word; lia).
  rewrite u32_id by done. split; [lia|done].
Qed.

(** * Owners *)
Definition rows_of (fr : CdiRasterFrame) : list ptr := omap id (rows fr).
Definition live_of (e : ptr * CdiRasterFrame) : list ptr :=
  if references (snd e) =? 0 then [] else rows_of (snd e).
Definition live_rows (fh : gmap ptr CdiRasterFrame) : list ptr := map_to_list fh ≫= live_of.
Definition left_of (fh : gmap ptr CdiRasterFrame) (e : ptr * nat) : list ptr :=
  match fh !! fst e with Some fr => omap id (drop (snd e) (rows fr)) | None => [] end.
Definition dying_rows (fh : gmap ptr CdiRasterFrame) (D : list (ptr * nat)) : list ptr := D ≫= left_of fh.

Record shape (fr : CdiRasterFrame) : Prop := {
  sh_width : 0 <= frame_width fr <= MCD212_VIDEO_MAX_WIDTH;
  sh_height : 0 <= frame_height fr <= MCD212_VIDEO_MAX_HEIGHT;
  sh_length : length (rows fr) = Z.to_nat (frame_height fr);
  sh_rows : Forall is_Some (rows fr);
}.

Lemma shape_references n fr : shape fr -> shape (set_references n fr).
Proof. intros [Hw Hh Hl Hr]. constructor; [exact Hw|exact Hh|exact Hl|exact Hr]. Qed.

(** The counts of both heaps, for the rows the emulation owns, the frames that
    are held and the frames that are dying. *)
Record Balanced (rh : gmap ptr CdiRasterRow) (fh : gmap ptr CdiRasterFrame)
    (R H : list ptr) (D : list (ptr * nat)) : Prop := {
  c_rows p : counted (row_references <$> rh !! p) (occ p (R ++ live_rows fh ++ dying_rows fh D));
  c_frames f fr : fh !! f = Some fr ->
    shape fr /\ (if decide (f ∈ D.*1) then references fr = 0 /\ occ f H = 0%nat
                 else counted (Some (references fr)) (occ f H));
  c_held f : f ∈ H -> is_Some (fh !! f);
  c_dying f : f ∈ D.*1 -> is_Some (fh !! f);
  c_once : NoDup D.*1;
}.

#[export] Instance counts_perm : Proper ((=) ==> (=) ==> (≡ₚ) ==> (≡ₚ) ==> (≡ₚ) ==> iff) Balanced.
Proof.
  assert (forall rh fh R R' H H' D D', R ≡ₚ R' -> H ≡ₚ H' -> D ≡ₚ D' ->
    Balanced rh fh R H D -> Balanced rh fh R' H' D') as Himp.
  { intros rh fh R R' H H' D D' HR HH HD C. destruct C as [Cr Cf Ch Cd Co]. constructor.
    - intros p. unfold dying_rows. rewrite <- HR, <- HD. apply Cr.
    - intros f fr Hf. destruct (Cf f fr Hf) as [Hs Hc]. split; [done|].
      assert (occ f H' = occ f H) as -> by (by rewrite HH). assert (f ∈ D.*1 <-> f ∈ D'.*1) as Hin by (by rewrite HD).
      by rewrite <- (decide_ext _ _ _ _ Hin).
    - intros f. rewrite <- HH. apply Ch.
    - intros f. rewrite <- HD. apply Cd.
    - by rewrite <- HD. }
  intros rh ? <- fh ? <- R R' HR H H' HH D D' HD. split; by apply Himp.
Qed.

Lemma live_rows_insert fh f fr : fh !! f = None -> live_rows (<[f := fr]> fh) ≡ₚ live_of (f, fr) ++ live_rows fh.
Proof. intros Hf. unfold live_rows. by rewrite map_to_list_insert. Qed.
Lemma live_rows_lookup fh f fr : fh !! f = Some fr -> live_rows fh ≡ₚ live_of (f, fr) ++ live_rows (delete f fh).
Proof. intros Hf. unfold live_rows. by rewrite <- (map_to_list_delete fh f fr Hf). Qed.
Lemma live_rows_update fh f fr fr' : fh !! f = Some fr ->
  live_rows (<[f := fr']> fh) ≡ₚ live_of (f, fr') ++ live_rows (delete f fh).
Proof.
  intros Hf. rewrite <- insert_delete_eq, live_rows_insert by apply lookup_delete_eq. done.
Qed.

(** The rows left to the dying do not depend on the other frames. *)
Lemma dying_rows_same fh fh' D :
  (forall f, f ∈ D.*1 -> rows <$> fh' !! f = rows <$> fh !! f) -> dying_rows fh' D = dying_rows fh D.
Proof.
  induction D as [|[f y] D IH]; intros Hs; [done|]. cbn [dying_rows mbind list_bind].
  unfold dying_rows in IH. rewrite IH by (intros g Hg; apply Hs; by constructor). f_equal.
  unfold left_of. cbn. specialize (Hs f ltac:(by constructor)).
  destruct (fh !! f), (fh' !! f); cbn in Hs; congruence.
Qed.
Lemma dying_rows_insert fh f fr fr' D : fh !! f = Some fr -> rows fr' = rows fr ->
  dying_rows (<[f := fr']> fh) D = dying_rows fh D.
Proof.
  intros Hf Hr. apply dying_rows_same. intros g _. destruct (decide (g = f)) as [->|].
  - by rewrite lookup_insert_eq, Hf; cbn; rewrite Hr.
  - by rewrite lookup_insert_ne.
Qed.

(** * What an access does to the counts *)
Section Access.
Context (rh : gmap ptr CdiRasterRow) (fh : gmap ptr CdiRasterFrame) (R H : list ptr) (D : list (ptr * nat)).

Definition less_row (p : ptr) (row : CdiRasterRow) : gmap ptr CdiRasterRow :=
  if row_references row =? 1 then delete p rh
  else <[p := set_row_references (u32 (row_references row - 1)) row]> rh.

Lemma counts_drop_row p : Balanced rh fh (p :: R) H D ->
  exists row, rh !! p = Some row /\ Balanced (less_row p row) fh R H D.
Proof.
  intros [Cr Cf Ch Cd Co]. pose proof (Cr p) as Hp. cbn [app] in Hp. rewrite occ_cons, decide_True in Hp by done.
  destruct (rh !! p) as [row|] eqn:Er; [|done]. exists row. split; [done|].
  destruct (counted_less _ _ Hp) as [E1 Hless].
  constructor; [|done..]. intros q. specialize (Cr q). cbn [app] in Cr. rewrite occ_cons in Cr.
  unfold less_row. rewrite E1. destruct (decide (q = p)) as [->|Hq].
  - destruct (Nat.eqb_spec (occ p (R ++ live_rows fh ++ dying_rows fh D)) 0) as [E0|E0].
    + by rewrite lookup_delete_eq.
    + rewrite lookup_insert_eq. by apply Hless.
  - destruct (_ =? _)%nat; [by rewrite lookup_delete_ne|by rewrite lookup_insert_ne].
Qed.

Lemma counts_new_row p id spans : rh !! p = None -> Balanced rh fh R H D ->
  Balanced (<[p := mkRow 1 id spans]> rh) fh (p :: R) H D.
Proof.
  intros Hn [Cr Cf Ch Cd Co]. constructor; [|done..]. intros q. specialize (Cr q).
  cbn [app]. rewrite occ_cons. destruct (decide (q = p)) as [->|Hq].
  - rewrite lookup_insert_eq. rewrite Hn in Cr. cbn in Cr. rewrite Cr. cbn. by split_and!.
  - by rewrite lookup_insert_ne.
Qed.

Lemma counts_share_row p : Balanced rh fh R H D -> p ∈ R ->
  Z.of_nat (length R + length (live_rows fh) + length (dying_rows fh D)) + 1 < 2 ^ 32 ->
  exists row, rh !! p = Some row /\
    Balanced (<[p := set_row_references (u32 (row_references row + 1)) row]> rh) fh (p :: R) H D.
Proof.
  intros [Cr Cf Ch Cd Co] Hin Hb. pose proof (Cr p) as Hp.
  destruct (rh !! p) as [row|] eqn:Er.
  2: { exfalso. cbn in Hp. rewrite occ_app in Hp. apply occ_pos in Hin. lia. }
  exists row. split; [done|]. constructor; [|done..]. intros q. specialize (Cr q). cbn [app].
  rewrite occ_cons. destruct (decide (q = p)) as [->|Hq].
  - rewrite lookup_insert_eq. cbn. apply counted_more; [done|].
    pose proof (occ_length p (R ++ live_rows fh ++ dying_rows fh D)) as Hl.
    rewrite !length_app in Hl. lia.
  - by rewrite lookup_insert_ne.
Qed.

Lemma counts_acquire f : Balanced rh fh R (f :: H) D -> Z.of_nat (length H) + 2 < 2 ^ 32 ->
  exists fr, fh !! f = Some fr /\
    Balanced rh (<[f := set_references (u32 (references fr + 1)) fr]> fh) R (f :: f :: H) D.
Proof.
  intros [Cr Cf Ch Cd Co] Hb. destruct (Ch f) as [fr Ef]; [by constructor|].
  exists fr. split; [done|]. destruct (Cf f fr Ef) as [Hs Hc].
  rewrite occ_cons, (decide_True _ _ (eq_refl f)) in Hc.
  destruct (decide (f ∈ D.*1)) as [|Hd]; [lia|].
  assert (counted (Some (u32 (references fr + 1))) (S (S (occ f H)))) as Hc'.
  { apply counted_more; [done|]. pose proof (occ_length f H). lia. }
  constructor; [| | | |done].
  - intros p. rewrite (dying_rows_insert fh f fr) by done.
    rewrite (live_rows_update fh f fr) by done. specialize (Cr p).
    rewrite (live_rows_lookup fh f fr Ef) in Cr. unfold live_of in *. cbn [snd references set_references] in *.
    destruct Hc as (E & ? & ?), Hc' as (E' & ? & ?). rewrite E'. rewrite E in Cr. exact Cr.
  - intros g fr' Hg. rewrite !occ_cons. destruct (decide (g = f)) as [->|Hn].
    + rewrite lookup_insert_eq in Hg. injection Hg as <-. rewrite decide_False by done. split; [by apply shape_references|exact Hc'].
    + rewrite lookup_insert_ne in Hg by done. specialize (Cf g fr' Hg). rewrite occ_cons, (decide_False _ _ Hn) in Cf.
      exact Cf.
  - intros g Hg. destruct (decide (g = f)) as [->|Hn]; [by rewrite lookup_insert_eq|].
    rewrite lookup_insert_ne by done. apply Ch. apply elem_of_cons in Hg as [->|Hg]; done.
  - intros g Hg. destruct (decide (g = f)) as [->|Hn]; [by rewrite lookup_insert_eq|].
    rewrite lookup_insert_ne by done. by apply Cd.
Qed.

Lemma counts_new_frame f w h gen ep slots : fh !! f = None -> f ∉ H -> f ∉ D.*1 ->
  0 <= w <= MCD212_VIDEO_MAX_WIDTH -> 0 <= h <= MCD212_VIDEO_MAX_HEIGHT -> length slots = Z.to_nat h -> Forall is_Some slots ->
  Balanced rh fh (omap id slots ++ R) H D ->
  Balanced rh (<[f := mkFrame 1 w h gen ep slots]> fh) R (f :: H) D.
Proof.
  intros Hn HnH HnD Hw Hh Hl Hs [Cr Cf Ch Cd Co]. constructor; [| | | |done].
  - intros p. rewrite live_rows_insert by done. specialize (Cr p).
    rewrite (dying_rows_same fh) by (intros g Hg; rewrite lookup_insert_ne; [done|intros ->; done]).
    change (live_of (f, mkFrame 1 w h gen ep slots)) with (omap id slots).
    rewrite !occ_app in *. by replace (occ p R + (occ p (omap id slots) + occ p (live_rows fh) + occ p (dying_rows fh D)))%nat
      with (occ p (omap id slots) + occ p R + (occ p (live_rows fh) + occ p (dying_rows fh D)))%nat by lia.
  - intros g fr Hg. rewrite occ_cons. destruct (decide (g = f)) as [->|Hne].
    + rewrite lookup_insert_eq in Hg. injection Hg as <-. rewrite decide_False by done. split; [done|].
      assert (occ f H = 0%nat) as -> by (destruct (occ f H) eqn:E; [done|]; exfalso; apply HnH, occ_pos; lia).
      by split_and!.
    + rewrite lookup_insert_ne in Hg by done. by apply Cf.
  - intros g Hg. destruct (decide (g = f)) as [->|Hne]; [by rewrite lookup_insert_eq|].
    rewrite lookup_insert_ne by done. apply Ch. by apply elem_of_cons in Hg as [->|Hg].
  - intros g Hg. destruct (decide (g = f)) as [->|Hne]; [by rewrite lookup_insert_eq|].
    rewrite lookup_insert_ne by done. by apply Cd.
Qed.

Lemma counts_drop_frame f : Balanced rh fh R (f :: H) D ->
  exists fr, fh !! f = Some fr /\
    Balanced rh (<[f := set_references (u32 (references fr - 1)) fr]> fh) R H
      (if references fr =? 1 then (f, 0%nat) :: D else D).
Proof.
  intros [Cr Cf Ch Cd Co]. destruct (Ch f) as [fr Ef]; [by constructor|].
  exists fr. split; [done|]. destruct (Cf f fr Ef) as [Hs Hc].
  rewrite occ_cons, (decide_True _ _ (eq_refl f)) in Hc.
  destruct (decide (f ∈ D.*1)) as [|Hd]; [lia|].
  destruct (counted_less _ _ Hc) as [E1 Hless].
  set (fr' := set_references _ fr). set (D' := if references fr =? 1 then _ else D).
  assert (live_of (f, fr') ++ dying_rows (<[f := fr']> fh) D' = rows_of fr ++ dying_rows fh D) as Hrows.
  { subst D'. rewrite E1. destruct Hc as (Ec & _ & Hw). unfold live_of. cbn [snd].
    subst fr'. cbn [references set_references]. destruct (Nat.eqb_spec (occ f H) 0) as [E0|E0].
    - rewrite Ec, E0. cbn [dying_rows mbind list_bind]. unfold left_of at 1. cbn [fst snd].
      rewrite lookup_insert_eq. change (u32 (Z.of_nat (1 + 0) - 1) =? 0) with true. cbn [app].
      f_equal. by apply (dying_rows_insert fh f fr).
    - destruct (Hless E0) as (E & ? & ?). rewrite E.
      destruct (Z.eqb_spec (Z.of_nat (occ f H)) 0); [lia|]. f_equal. by apply (dying_rows_insert fh f fr). }
  assert (forall g, g ∈ D'.*1 -> g = f \/ g ∈ D.*1) as HD'.
  { intros g. subst D'. destruct (_ =? _); [|by right]. cbn. rewrite elem_of_cons. tauto. }
  constructor.
  - intros p. rewrite (live_rows_update fh f fr) by done. specialize (Cr p).
    rewrite (live_rows_lookup fh f fr Ef) in Cr.
    assert (live_of (f, fr) = rows_of fr) as El.
    { unfold live_of. cbn [snd]. destruct Hc as (E & _ & _). rewrite E.
      by destruct (Z.eqb_spec (Z.of_nat (S (occ f H))) 0); [lia|]. }
    rewrite El in Cr. apply (f_equal (occ p)) in Hrows. rewrite !occ_app in *.
    by replace (occ p R + (occ p (live_of (f, fr')) + occ p (live_rows (delete f fh)) +
        occ p (dying_rows (<[f:=fr']> fh) D')))%nat
      with (occ p R + (occ p (rows_of fr) + occ p (live_rows (delete f fh)) + occ p (dying_rows fh D)))%nat by lia.
  - intros g fr0 Hg. destruct (decide (g = f)) as [->|Hn].
    + rewrite lookup_insert_eq in Hg. injection Hg as <-. split; [by apply shape_references|].
      subst D'. rewrite E1 in *. subst fr'. cbn [references set_references].
      destruct (Nat.eqb_spec (occ f H) 0) as [E0|E0].
      * rewrite decide_True by (cbn; by constructor). split; [|done].
        destruct Hc as (-> & _ & _). by rewrite E0.
      * rewrite decide_False by done. by apply Hless.
    + rewrite lookup_insert_ne in Hg by done. destruct (Cf g fr0 Hg) as [Hs0 Hc0]. split; [done|].
      rewrite occ_cons, (decide_False _ _ Hn) in Hc0.
      assert (g ∈ D'.*1 <-> g ∈ D.*1) as Hi.
      { split; [by intros [?|?]%HD'|]. intros Hi. subst D'. destruct (_ =? _); [cbn; by constructor|done]. }
      by rewrite (decide_ext _ _ _ _ Hi).
  - intros g Hg. destruct (decide (g = f)) as [->|Hn]; [by rewrite lookup_insert_eq|].
    rewrite lookup_insert_ne by done. apply Ch. by constructor.
  - intros g Hg. destruct (decide (g = f)) as [->|Hn]; [by rewrite lookup_insert_eq|].
    rewrite lookup_insert_ne by done. apply Cd. by destruct (HD' g Hg).
  - subst D'. destruct (_ =? _); [|done]. cbn. by constructor.
Qed.
End Access.

Lemma counts_dying_row rh fh R H D f y : Balanced rh fh R H ((f, y) :: D) ->
  exists fr, fh !! f = Some fr /\ shape fr /\
    ((y < length (rows fr))%nat ->
     exists p, rows fr !! y = Some (Some p) /\ Balanced rh fh (p :: R) H ((f, S y) :: D)).
Proof.
  intros [Cr Cf Ch Cd Co]. destruct (Cd f) as [fr Ef]; [by constructor|].
  destruct (Cf f fr Ef) as [Hs Hc]. exists fr. split; [done|]. split; [done|]. intros Hy.
  destruct (lookup_lt_is_Some_2 (rows fr) y Hy) as [slot Eslot].
  pose proof (sh_rows _ Hs) as Hall. rewrite Forall_lookup in Hall. destruct (Hall _ _ Eslot) as [p ->].
  exists p. split; [done|]. constructor; [|done..]. intros q. specialize (Cr q).
  cbn [dying_rows mbind list_bind] in *. unfold left_of at 1. unfold left_of in Cr at 1. cbn [fst snd] in *.
  rewrite Ef in Cr |- *. rewrite (drop_S _ _ _ Eslot) in Cr.
  change (omap id (Some p :: drop (S y) (rows fr))) with (p :: omap id (drop (S y) (rows fr))) in Cr.
  cbn [app] in Cr |- *. rewrite !occ_app in Cr. rewrite !occ_cons, !occ_app in Cr.
  rewrite !occ_cons, !occ_app.
  eapply eq_ind; [exact Cr|]. lia.
Qed.

Lemma counts_free rh fh R H D f y : Balanced rh fh R H ((f, y) :: D) ->
  exists fr, fh !! f = Some fr /\
    ((length (rows fr) <= y)%nat -> Balanced rh (delete f fh) R H D).
Proof.
  intros [Cr Cf Ch Cd Co]. destruct (Cd f) as [fr Ef]; [by constructor|]. exists fr. split; [done|]. intros Hy.
  destruct (Cf f fr Ef) as [_ Hc]. rewrite decide_True in Hc by (cbn; by constructor). destruct Hc as [E0 E1].
  cbn in Co. apply NoDup_cons in Co as [Hf Hnd].
  constructor; [| | | |done].
  - intros p. specialize (Cr p). rewrite (live_rows_lookup fh f fr Ef) in Cr.
    assert (live_of (f, fr) = []) as El by (unfold live_of; cbn [snd]; by rewrite E0).
    rewrite El in Cr. cbn [app dying_rows mbind list_bind] in Cr. unfold left_of in Cr at 1. cbn [fst snd] in Cr.
    rewrite Ef, drop_ge in Cr by done. cbn [app omap list_omap] in Cr.
    by rewrite (dying_rows_same fh) by (intros g Hg; rewrite lookup_delete_ne; [done|intros ->; done]).
  - intros g fr0 Hg. apply lookup_delete_Some in Hg as [Hn Hg]. destruct (Cf g fr0 Hg) as [Hs0 Hc0]. split; [done|].
    assert (g ∈ ((f, y) :: D).*1 <-> g ∈ D.*1) as Hi.
    { cbn. rewrite elem_of_cons. split; [by intros [?|?]|by right]. }
    by rewrite <- (decide_ext _ _ _ _ Hi).
  - intros g Hg. rewrite lookup_delete_ne; [by apply Ch|]. intros ->. apply occ_pos in Hg. lia.
  - intros g Hg. rewrite lookup_delete_ne; [apply Cd; by constructor|]. by intros ->.
Qed.

(** * The shared memory *)

(** Nothing but the counts of what was there before has changed. *)
Record evolves (s s' : Shared) : Prop := {
  e_next : (next_name s <= next_name s')%positive;
  e_rows p row' : row_heap s' !! p = Some row' ->
    (exists row, row_heap s !! p = Some row /\ set_row_references 0 row = set_row_references 0 row') \/
    (next_name s <= p)%positive;
  e_frames f fr' : frame_heap s' !! f = Some fr' ->
    (exists fr, frame_heap s !! f = Some fr /\ set_references 0 fr = set_references 0 fr') \/
    (next_name s <= f)%positive;
}.
#[export] Instance evolves_order : PreOrder evolves.
Proof.
  split.
  - intros s. constructor; [done| |]; intros x v Hx; left; by exists v.
  - intros s1 s2 s3 [N12 R12 F12] [N23 R23 F23]. constructor.
    + by etrans.
    + intros p row Hp. destruct (R23 p row Hp) as [(row2 & Hp2 & E2)|]; [|right; by etrans].
      destruct (R12 p row2 Hp2) as [(row1 & Hp1 & E1)|]; [|by right]. left. exists row1. split; [done|congruence].
    + intros f fr Hf. destruct (F23 f fr Hf) as [(fr2 & Hf2 & E2)|]; [|right; by etrans].
      destruct (F12 f fr2 Hf2) as [(fr1 & Hf1 & E1)|]; [|by right]. left. exists fr1. split; [done|congruence].
Qed.

Section Shared.
(** At most [limit] frames are in readers' hands. *)
Context (limit : nat).

(** The rows [R], the frames [F] and the dying [D] are the emulation's; the
    readers' are in the state. *)
Record Inv (R F : list ptr) (D : list (ptr * nat)) (s : Shared) : Prop := {
  i_counts : Balanced (row_heap s) (frame_heap s) R (F ++ held s) (D ++ dying s);
  i_rows p : is_Some (row_heap s !! p) -> (p < next_name s)%positive;
  i_frames f : is_Some (frame_heap s !! f) -> (f < next_name s)%positive;
  i_limit : (length (held s) + length (dying s) <= limit)%nat;
}.

Definition safely (P : Shared -> Prop) (s : Shared) (m : option Shared) : Prop :=
  exists s', m = Some s' /\ evolves s s' /\ P s'.

Lemma safely_here (P : Shared -> Prop) s : P s -> safely P s (Some s).
Proof. intros H. exists s. by split_and!. Qed.
Lemma safely_bind P Q s m k :
  safely P s m -> (forall s', P s' -> safely Q s' (k s')) -> safely Q s (x ← m; k x).
Proof.
  intros (s1 & -> & E1 & H1) Hk. destruct (Hk s1 H1) as (s2 & E & E2 & H2).
  exists s2. cbn. split; [done|]. split; [by etrans|done].
Qed.
Lemma safely_mono (P Q : Shared -> Prop) s m : safely P s m -> (forall s', P s' -> Q s') -> safely Q s m.
Proof. intros (s' & E & He & HP) Hk. exists s'. auto. Qed.

#[export] Instance inv_perm : Proper ((≡ₚ) ==> (≡ₚ) ==> (≡ₚ) ==> (=) ==> iff) Inv.
Proof.
  intros R R' HR F F' HF D D' HD s ? <-. split; intros [C ? ? ?]; constructor; try done.
  - by rewrite <- HR, <- HF, <- HD.
  - by rewrite HR, HF, HD.
Qed.

Lemma put_rows_safe P s h :
  (forall p row', h !! p = Some row' ->
     exists row, row_heap s !! p = Some row /\ set_row_references 0 row = set_row_references 0 row') ->
  P (set_rows h s) -> safely P s (Some (set_rows h s)).
Proof.
  intros Hh HP. exists (set_rows h s). split; [done|]. split; [|done].
  constructor; [done| |]; cbn; [|intros f fr Hf; left; by exists fr].
  intros p row Hp. left. by apply Hh.
Qed.
Lemma put_frames_safe P s h :
  (forall f fr', h !! f = Some fr' ->
     exists fr, frame_heap s !! f = Some fr /\ set_references 0 fr = set_references 0 fr') ->
  P (set_frames h s) -> safely P s (Some (set_frames h s)).
Proof.
  intros Hh HP. exists (set_frames h s). split; [done|]. split; [|done].
  constructor; [done| |]; cbn; [intros p row Hp; left; by exists row|].
  intros f fr Hf. left. by apply Hh.
Qed.

Lemma less_row_kept rh p row : rh !! p = Some row -> forall q row', less_row rh p row !! q = Some row' ->
  exists row0, rh !! q = Some row0 /\ set_row_references 0 row0 = set_row_references 0 row'.
Proof.
  intros Hp q row' Hq. unfold less_row in Hq. destruct (_ =? 1).
  - apply lookup_delete_Some in Hq as [_ Hq]. by exists row'.
  - apply lookup_insert_Some in Hq as [[<- <-]|[_ Hq]]; [by exists row|by exists row'].
Qed.
Lemma frame_update_kept (fh : gmap ptr CdiRasterFrame) f fr n : fh !! f = Some fr ->
  forall g fr', <[f := set_references n fr]> fh !! g = Some fr' ->
  exists fr0, fh !! g = Some fr0 /\ set_references 0 fr0 = set_references 0 fr'.
Proof.
  intros Hf g fr' Hg. apply lookup_insert_Some in Hg as [[<- <-]|[_ Hg]]; [by exists fr|by exists fr'].
Qed.

Lemma drop_row_safe R F D s p : Inv (p :: R) F D s -> safely (Inv R F D) s (drop_row p s).
Proof.
  intros [C Hr Hf Hl]. destruct (counts_drop_row _ _ _ _ _ _ C) as (row & Ep & C').
  unfold drop_row. rewrite Ep. cbn [mbind option_bind]. fold (less_row (row_heap s) p row).
  pose proof (less_row_kept _ _ _ Ep) as Hk. apply put_rows_safe; [exact Hk|].
  constructor; cbn; [done| |done|done]. intros q [row' Hq]. apply Hr. destruct (Hk q row' Hq) as (? & ? & _). eauto.
Qed.

Lemma evolves_same s s' : row_heap s' = row_heap s -> frame_heap s' = frame_heap s ->
  next_name s' = next_name s -> evolves s s'.
Proof.
  intros Er Ef En. constructor; [by rewrite En| |].
  - intros p row Hp. rewrite Er in Hp. left. by exists row.
  - intros f fr Hf. rewrite Ef in Hf. left. by exists fr.
Qed.

Lemma drop_frame_safe R F D s f : Inv R (f :: F) D s ->
  exists last s', drop_frame f s = Some (last, s') /\ evolves s s' /\
    Inv R F (if (last : bool) then (f, 0%nat) :: D else D) s' /\ held s' = held s /\ dying s' = dying s.
Proof.
  intros [C Hr Hf Hl]. destruct (counts_drop_frame _ _ _ _ _ _ C) as (fr & Ef & C').
  unfold drop_frame. rewrite Ef. cbn [mbind option_bind]. do 2 eexists. split; [reflexivity|].
  pose proof (frame_update_kept _ _ _ (u32 (references fr - 1)) Ef) as Hk.
  split; [|split; [|done]].
  - constructor; [done| |]; cbn; [intros p row Hp; left; by exists row|].
    intros g fr' Hg. left. by apply Hk.
  - constructor; cbn; [|done| |done].
    + by destruct (references fr =? 1).
    + intros g [fr' Hg]. apply Hf. destruct (Hk g fr' Hg) as (? & ? & _). eauto.
Qed.

Lemma free_frame_safe R F D s f y : Inv R F ((f, y) :: D) s ->
  exists fr, frame_heap s !! f = Some fr /\
    ((length (rows fr) <= y)%nat -> safely (Inv R F D) s (free_frame f s)).
Proof.
  intros [C Hr Hf Hl]. destruct (counts_free _ _ _ _ _ _ _ C) as (fr & Ef & Hfree).
  exists fr. split; [done|]. intros Hy. unfold free_frame. rewrite Ef. cbn [mbind option_bind].
  apply put_frames_safe.
  - intros g fr' Hg. apply lookup_delete_Some in Hg as [_ Hg]. by exists fr'.
  - constructor; cbn; [by apply Hfree|done| |done].
    intros g [fr' Hg]. apply lookup_delete_Some in Hg as [_ Hg]. eauto.
Qed.

Lemma insert_perm {A} (l : list A) i x z : l !! i = Some x -> <[i := z]> l ≡ₚ z :: delete i l.
Proof.
  revert i. induction l as [|w l IH]; intros [|i] Hi; cbn in *; [done..|].
  change (w :: <[i := z]> l ≡ₚ z :: w :: delete i l). rewrite (IH i Hi). apply Permutation_swap.
Qed.

(** * The readers *)
Lemma reader_step_safe R F D st s : Inv R F D s -> safely (Inv R F D) s (reader_step st s).
Proof.
  intros HI. destruct st as [i|i]; cbn [reader_step].
  - destruct (held s !! i) as [f|] eqn:Ei; [|by apply safely_here].
    pose proof (delete_Permutation _ _ _ Ei) as Hp. pose proof (length_delete _ _ (mk_is_Some _ _ Ei)) as Hlen.
    pose proof (lookup_lt_Some _ _ _ Ei) as Hlt.
    set (s1 := set_held (delete i (held s)) s).
    assert (Inv R (f :: F) D s1) as HI1.
    { destruct HI as [C Hr Hf Hl]. constructor; cbn; [|done|done|lia].
      by rewrite Permutation_middle, <- Hp. }
    destruct (drop_frame_safe _ _ _ _ _ HI1) as (last & s2 & -> & E & [C Hr Hf Hl] & Eh & Ed).
    cbn [mbind option_bind fst snd].
    assert (evolves s s2) as E2 by (etrans; [|exact E]; by apply evolves_same).
    eexists. split; [reflexivity|]. destruct last.
    + split; [etrans; [exact E2|by apply evolves_same]|].
      constructor; cbn; [|done|done|].
      * rewrite <- Permutation_middle. exact C.
      * rewrite Eh, Ed. subst s1. cbn. destruct HI as [_ _ _ Hl0]. lia.
    + by split.
  - destruct (dying s !! i) as [[f y]|] eqn:Ei; [|by apply safely_here].
    pose proof (delete_Permutation _ _ _ Ei) as Hp. pose proof (length_delete _ _ (mk_is_Some _ _ Ei)) as Hlen.
    pose proof (lookup_lt_Some _ _ _ Ei) as Hlt.
    destruct HI as [C Hr Hf Hl].
    assert (Balanced (row_heap s) (frame_heap s) R (F ++ held s) ((f, y) :: D ++ delete i (dying s))) as C1.
    { by rewrite Permutation_middle, <- Hp. }
    destruct (counts_dying_row _ _ _ _ _ _ _ C1) as (fr & Ef & Hs & Hrow). rewrite Ef. cbn [mbind option_bind].
    destruct (Z.ltb_spec (Z.of_nat y) (frame_height fr)) as [Hy|Hy].
    + destruct Hrow as (p & Ep & C2); [rewrite (sh_length _ Hs); lia|].
      rewrite Ep. cbn [mjoin option_join drop_row_slot].
      set (l := <[i := (f, S y)]> (dying s)).
      assert (Inv (p :: R) F D (set_dying l s)) as HI2.
      { constructor; cbn; [|done|done|].
        - subst l. rewrite (insert_perm _ _ _ _ Ei), <- Permutation_middle. exact C2.
        - subst l. rewrite length_insert. lia. }
      destruct (drop_row_safe _ _ _ _ _ HI2) as (s3 & E3 & Ev & HI3).
      unfold drop_row in *. cbn [row_heap set_dying] in E3.
      destruct (row_heap s !! p) as [row|]; [|done]. cbn [mbind option_bind] in *.
      exists s3. split; [injection E3 as <-; reflexivity|]. split; [|done].
      etrans; [|exact Ev]. by apply evolves_same.
    + assert (Inv R F ((f, y) :: D) (set_dying (delete i (dying s)) s)) as HI2.
      { constructor; cbn; [exact C1|done|done|lia]. }
      destruct (free_frame_safe _ _ _ _ _ _ HI2) as (fr' & Ef' & Hfree). cbn in Ef'.
      rewrite Ef in Ef'. injection Ef' as <-.
      destruct Hfree as (s3 & E3 & Ev & HI3); [rewrite (sh_length _ Hs); lia|].
      exists s3. split; [exact E3|]. split; [|done]. etrans; [|exact Ev]. by apply evolves_same.
Qed.

Lemma reader_steps_safe R F D l : forall s, Inv R F D s -> safely (Inv R F D) s (reader_steps l s).
Proof.
  induction l as [|st l IH]; intros s HI; [by apply safely_here|]. cbn [reader_steps].
  eapply safely_bind; [by apply reader_step_safe|exact IH].
Qed.

Lemma yield_safe R F D s : Inv R F D s -> safely (Inv R F D) s (yield s).
Proof.
  intros HI. unfold yield. destruct (schedule s) as [|now later]; [by apply safely_here|].
  destruct (reader_steps_safe R F D now (set_schedule later s)) as (s' & E & Ev & HI').
  { destruct HI. by constructor. }
  exists s'. split; [done|]. split; [|done]. etrans; [|exact Ev]. by apply evolves_same.
Qed.

(** * The emulation's releases *)
Lemma release_row_safe R F D s p : Inv (p :: R) F D s -> safely (Inv R F D) s (release_row (Some p) s).
Proof.
  intros HI. cbn [release_row]. eapply safely_bind; [by apply yield_safe|]. intros s' HI'. by apply drop_row_safe.
Qed.

Lemma release_rows_safe R F D f n : forall y s,
  Inv R F ((f, y) :: D) s ->
  (forall fr, frame_heap s !! f = Some fr -> length (rows fr) = (y + n)%nat) ->
  safely (fun s' => Inv R F ((f, (y + n)%nat) :: D) s' /\
            forall fr, frame_heap s' !! f = Some fr -> length (rows fr) = (y + n)%nat) s (release_rows f n y s).
Proof.
  induction n as [|n IH]; intros y s HI Hn; cbn [release_rows].
  - rewrite Nat.add_0_r in *. by apply safely_here.
  - pose proof HI as [C Hr Hf Hl]. cbn [app] in C.
    destruct (counts_dying_row _ _ _ _ _ _ _ C) as (fr & Ef & Hs & Hrow). rewrite Ef. cbn [mbind option_bind].
    specialize (Hn fr Ef). destruct Hrow as (p & Ep & C2); [lia|]. rewrite Ep. cbn [mjoin option_join].
    destruct (release_row_safe R F ((f, S y) :: D) s p) as (s1 & -> & Ev & HI1); [by constructor|].
    cbn [mbind option_bind]. replace (y + S n)%nat with (S y + n)%nat by lia.
    destruct (IH (S y) s1) as (s2 & E2 & Ev2 & HP); [done| |].
    + intros fr1 Hf1. destruct (e_frames _ _ Ev f fr1 Hf1) as [(fr0 & Hf0 & E0)|Hnew].
      * rewrite Ef in Hf0. injection Hf0 as <-. apply (f_equal rows) in E0. cbn in E0. rewrite <- E0. lia.
      * specialize (Hf f ltac:(eauto)). lia.
    + exists s2. split; [done|]. split; [by etrans|done].
Qed.

Lemma cdi_raster_release_safe R F s f : Inv R (f :: F) [] s ->
  safely (Inv R F []) s (cdi_raster_release (Some f) s).
Proof.
  intros HI. unfold cdi_raster_release. eapply safely_bind; [by apply yield_safe|]. intros s1 HI1.
  destruct (drop_frame_safe _ _ _ _ _ HI1) as (last & s2 & -> & E2 & HI2 & _).
  cbn [mbind option_bind fst snd]. destruct last; cbn [negb]; [|by exists s2].
  pose proof HI2 as [C _ _ _]. cbn [app] in C.
  destruct (counts_dying_row _ _ _ _ _ _ _ C) as (fr & Ef & Hs & _). rewrite Ef. cbn [mbind option_bind].
  pose proof (sh_length _ Hs) as Hlen.
  destruct (release_rows_safe R F [] f (Z.to_nat (frame_height fr)) 0 s2) as (s3 & -> & E3 & HI3 & Hn); [done| |].
  { intros fr' Hf'. rewrite Ef in Hf'. injection Hf' as <-. lia. }
  cbn [mbind option_bind]. destruct (yield_safe _ _ _ _ HI3) as (s4 & -> & E4 & HI4). cbn [mbind option_bind].
  destruct (free_frame_safe _ _ _ _ _ _ HI4) as (fr4 & Ef4 & Hfree).
  destruct Hfree as (s5 & -> & E5 & HI5).
  - destruct (e_frames _ _ E4 f fr4 Ef4) as [(fr3 & Hf3 & E0)|Hnew].
    + specialize (Hn fr3 Hf3). apply (f_equal rows) in E0. cbn in E0. rewrite <- E0. lia.
    + destruct HI3 as [C3 _ Hf3 _]. specialize (Hf3 f (c_dying _ _ _ _ _ C3 f ltac:(by constructor))). lia.
  - exists s5. split; [done|]. split; [|done]. by do 3 (etrans; [eassumption|]).
Qed.
End Shared.

(** ** How many owners there can be *)
Lemma length_slots (l : list (option ptr)) : (length (omap id l) <= length l)%nat.
Proof.
  induction l as [|[p|] l IH]; [done| |].
  - change (omap id (Some p :: l)) with (p :: omap id l). cbn [length]. lia.
  - change (omap id (None :: l)) with (omap (M := list) id l). cbn [length]. lia.
Qed.
Lemma length_rows fr : shape fr -> (length (rows fr) <= 560)%nat.
Proof. intros [_ Hh Hl _]. unfold MCD212_VIDEO_MAX_HEIGHT in Hh. lia. Qed.

Lemma live_rows_bound rh fh R H D : Balanced rh fh R H D -> (length (live_rows fh) <= 560 * length H)%nat.
Proof.
  intros [_ Cf _ _ _]. set (L := filter (fun e => references (snd e) <> 0) (map_to_list fh)).
  assert (length (live_rows fh) <= 560 * length L)%nat as H1.
  { unfold live_rows. subst L.
    assert (Forall (fun e => shape (snd e)) (map_to_list fh)) as Hall.
    { apply Forall_forall. intros [f fr] He%elem_of_map_to_list. by apply (Cf f fr). }
    revert Hall. generalize (map_to_list fh). intros l. induction l as [|[f fr] l IH]; intros Hall; [done|].
    apply Forall_cons in Hall as [Hs Hall]. cbn [mbind list_bind]. rewrite length_app, filter_cons.
    specialize (IH Hall). unfold live_of at 1. pose proof (length_rows _ Hs) as Hn.
    pose proof (length_slots (rows fr)) as Hn'. cbn [snd] in *. fold (rows_of fr) in Hn'.
    destruct (Z.eqb_spec (references fr) 0) as [E|E].
    - rewrite decide_False by (by intros []). exact IH.
    - rewrite decide_True by done. cbn [length]. lia. }
  assert (length L <= length H)%nat; [|lia].
  rewrite <- (length_fmap fst L). apply submseteq_length, NoDup_submseteq.
  - eapply sublist_NoDup; [apply (NoDup_fst_map_to_list fh)|]. apply fmap_sublist, sublist_filter.
  - intros f Hf. apply list_elem_of_fmap in Hf as ([g fr] & -> & He).
    apply list_elem_of_filter in He as [Hr He%elem_of_map_to_list]. cbn [fst snd] in *.
    destruct (Cf g fr He) as [_ Hc]. destruct (decide (g ∈ D.*1)) as [|_]; [tauto|].
    apply occ_pos. destruct Hc as (_ & Hc & _). exact Hc.
Qed.

Lemma dying_rows_bound rh fh R H D : Balanced rh fh R H D -> (length (dying_rows fh D) <= 560 * length D)%nat.
Proof.
  intros [_ Cf _ _ _]. assert (forall f fr, fh !! f = Some fr -> (length (rows fr) <= 560)%nat) as Hn.
  { intros f fr Hf. apply length_rows. by apply (Cf f fr). }
  clear Cf. induction D as [|[f y] D IH]; [done|]. unfold dying_rows in *. cbn [mbind list_bind length].
  rewrite length_app. unfold left_of at 1. cbn [fst snd]. destruct (fh !! f) as [fr|] eqn:Ef; cbn [length]; [|lia].
  specialize (Hn f fr Ef). pose proof (length_slots (drop y (rows fr))) as Hd. rewrite length_drop in Hd.
  unfold mbind in *. lia.
Qed.

(** * The emulation's calls *)
Definition of_option (o : option ptr) : list ptr := match o with Some p => [p] | None => [] end.

(** Between calls the emulation owns the rows it works on and the frame it
    has published. *)
Record Whole (s : Raster) : Prop := {
  w_inv : Inv HOLD_LIMIT (omap id (working s)) (of_option (published s)) [] (shared s);
  w_length : length (working s) = 560%nat;
}.

Definition fine (P : Raster -> Prop) (s : Raster) (m : option Raster) : Prop :=
  exists s', m = Some s' /\ evolves (shared s) (shared s') /\ P s'.

Lemma fine_here (P : Raster -> Prop) s : P s -> fine P s (Some s).
Proof. intros H. exists s. by split_and!. Qed.
Lemma fine_bind P Q s m k :
  fine P s m -> (forall s', P s' -> fine Q s' (k s')) -> fine Q s (x ← m; k x).
Proof.
  intros (s1 & -> & E1 & H1) Hk. destruct (Hk s1 H1) as (s2 & E & E2 & H2).
  exists s2. cbn. split; [done|]. split; [by etrans|done].
Qed.
Lemma fine_mono (P Q : Raster -> Prop) s m : fine P s m -> (forall s', P s' -> Q s') -> fine Q s m.
Proof. intros (s' & E & He & HP) Hk. exists s'. auto. Qed.

Lemma omap_slot (l : list (option ptr)) y o : (y < length l)%nat ->
  omap id (<[y := o]> l) ≡ₚ of_option o ++ omap id (<[y := None]> l).
Proof.
  revert y. induction l as [|q l IH]; intros y Hy; cbn [length] in Hy; [lia|].
  destruct y as [|y].
  - cbn [insert list_insert]. by destruct o.
  - specialize (IH y ltac:(lia)). change (<[S y := ?z]> (q :: l)) with (q :: <[y := z]> l).
    assert (forall z, omap id (q :: z) = of_option q ++ omap id z) as E by (by destruct q).
    rewrite !E, IH. rewrite !app_assoc. f_equiv. apply Permutation_app_comm.
Qed.
Lemma omap_slot_old (l : list (option ptr)) y : (y < length l)%nat ->
  omap id l ≡ₚ of_option (mjoin (l !! y)) ++ omap id (<[y := None]> l).
Proof.
  intros Hy. destruct (lookup_lt_is_Some_2 l y Hy) as [o Eo].
  rewrite Eo. cbn [mjoin option_join]. rewrite <- (omap_slot l y o) by done. by rewrite list_insert_id.
Qed.

(** Releasing what may be a null pointer. *)
Lemma release_slot_safe limit R F D s o : Inv limit (of_option o ++ R) F D s ->
  safely (Inv limit R F D) s (release_row o s).
Proof. destruct o as [p|]; [apply release_row_safe|apply safely_here]. Qed.
Lemma release_published_safe limit R F s o : Inv limit R (of_option o ++ F) [] s ->
  safely (Inv limit R F []) s (cdi_raster_release o s).
Proof. destruct o as [p|]; [apply cdi_raster_release_safe|apply safely_here]. Qed.

(** What a reset leaves alone, and what it clears. *)
Record emptied (s s' : Raster) : Prop := {
  cl_working : working s' = replicate 560 None;
  cl_published : published s' = None;
  cl_enabled : enabled s' = enabled s;
  cl_row : current_row s' = current_row s;
}.

Lemma clear_working_fine n : forall y s, (y + n = 560)%nat ->
  Whole s -> published s = None -> (forall i, (i < y)%nat -> working s !! i = Some None) ->
  fine (fun s' => Whole s' /\ emptied s s') s (clear_working n y s).
Proof.
  induction n as [|n IH]; intros y s Hn HW Hp Hy; cbn [clear_working].
  - apply fine_here. split; [done|]. constructor; [|done..]. destruct HW as [_ Hl].
    apply list_eq. intros i. destruct (decide (i < 560)%nat).
    + rewrite lookup_replicate_2 by lia. apply Hy. lia.
    + by rewrite !lookup_ge_None_2 by (rewrite ?length_replicate; lia).
  - destruct HW as [HI Hl].
    rewrite (omap_slot_old (working s) y) in HI by lia.
    destruct (release_slot_safe _ _ _ _ _ _ HI) as (sh & -> & Ev & HI'). cbn [mbind option_bind].
    set (s1 := set_working _ _). destruct (IH (S y) s1) as (s2 & -> & Ev2 & HW2 & [Hw Hpub He Hr]).
    + lia.
    + constructor; [exact HI'|]. subst s1. cbn. by rewrite length_insert.
    + done.
    + intros i Hi. subst s1. cbn [working set_working set_shared].
      destruct (decide (i = y)) as [->|]; [apply list_lookup_insert_eq; lia|].
      rewrite list_lookup_insert_ne by done. apply Hy. lia.
    + exists s2. split; [done|]. split; [by etrans; [exact Ev|]|]. split; [done|]. by constructor.
Qed.

Lemma reset_fine s : Whole s -> fine (fun s' => Whole s' /\ emptied s s') s (cdi_raster_reset s).
Proof.
  intros [HI Hl]. unfold cdi_raster_reset. rewrite <- (app_nil_r (of_option _)) in HI.
  destruct (release_published_safe _ _ _ _ _ HI) as (sh & -> & Ev & HI'). cbn [mbind option_bind].
  destruct (clear_working_fine (Z.to_nat MCD212_VIDEO_MAX_HEIGHT) 0 (set_published None (set_shared sh s)))
    as (s' & -> & Ev' & [HI2 Hl2] & [Hw Hp He Hr]); [done|by constructor|done|intros i Hi; lia|].
  cbn [mbind option_bind]. eexists. split; [reflexivity|]. split; [by etrans|].
  split; [by constructor|by constructor].
Qed.

(** While the capture is off the emulation owns nothing. *)
Definition off_owns_nothing (s : Raster) : Prop :=
  enabled s = false -> working s = replicate 560 None /\ published s = None.

Lemma enabled_off s : enabled s = true -> off_owns_nothing s.
Proof. unfold off_owns_nothing. congruence. Qed.

Lemma capture_fine v s : Whole s ->
  fine (fun s' => Whole s' /\ enabled s' = v /\ (off_owns_nothing s -> off_owns_nothing s')) s
    (snd <$> cdi_raster_capture v s).
Proof.
  intros HW. unfold cdi_raster_capture. destruct (eqb v (enabled s)) eqn:E.
  - apply eqb_prop in E. by apply fine_here.
  - destruct (reset_fine s HW) as (s' & -> & Ev & [HI Hl] & []). cbn.
    exists (set_enabled v s'). split; [done|]. split; [done|]. split; [by constructor|]. by split.
Qed.

(** The sizes of a capture that goes on. *)
Record sized (w h row : Z) (spans : list CdiRasterSpan) (s : Raster) : Prop := {
  sz_enabled : enabled s = true;
  sz_width : width s = w;
  sz_height : height s = h;
  sz_row : current_row s = row;
  sz_pending : pending s = spans;
}.

Lemma resize_fine w h s : Whole s ->
  fine (fun s' => Whole s' /\ width s' = w /\ height s' = h /\ enabled s' = enabled s) s
    (if same_size w h s then Some s else s ← cdi_raster_reset s; Some (set_size w h s)).
Proof.
  intros HW. unfold same_size. destruct (_ && _) eqn:E.
  - apply andb_prop in E as [E1%Z.eqb_eq E2%Z.eqb_eq]. by apply fine_here.
  - destruct (reset_fine s HW) as (s' & -> & Ev & [HI Hl] & [_ _ He _]). cbn.
    exists (set_size w h s'). split; [done|]. split; [done|]. split; [by constructor|done].
Qed.

Lemma begin_fine row w h s : Whole s ->
  fine (fun s' => Whole s' /\ (off_owns_nothing s -> off_owns_nothing s') /\
                   (enabled s = true -> sized w h row [] s')) s (cdi_raster_begin row w h s).
Proof.
  intros HW. unfold cdi_raster_begin. destruct (enabled s) eqn:He; cbn [negb]; [|by apply fine_here].
  eapply fine_bind; [by apply resize_fine|]. intros s' ([HI Hl] & Ew & Eh & Ee).
  exists (set_line row [] s'). split; [done|]. split; [done|]. rewrite He in Ee.
  split; [by constructor|]. split; [intros _; by apply enabled_off|]. intros _. by constructor.
Qed.

Lemma inv_alive limit R F D s p : Inv limit R F D s -> p ∈ R -> is_Some (row_heap s !! p).
Proof.
  intros [[Cr _ _ _ _] _ _ _] Hp. specialize (Cr p). destruct (row_heap s !! p); [done|].
  cbn in Cr. rewrite occ_app in Cr. apply occ_pos in Hp. lia.
Qed.
Lemma row_kept limit R F D s s' p row : Inv limit R F D s -> evolves s s' -> row_heap s !! p = Some row ->
  forall row', row_heap s' !! p = Some row' -> set_row_references 0 row = set_row_references 0 row'.
Proof.
  intros HI Ev Hp row' Hp'. destruct (e_rows _ _ Ev p row' Hp') as [(row0 & E0 & E)|Hn].
  - rewrite Hp in E0. by injection E0 as <-.
  - pose proof (i_rows _ _ _ _ _ HI p ltac:(eauto)). lia.
Qed.

Definition holds_row (s : Raster) (y : nat) (spans : list CdiRasterSpan) : Prop :=
  exists p row, working s !! y = Some (Some p) /\ row_heap (shared s) !! p = Some row /\ row_spans row = spans.

Lemma elem_of_slots (l : list (option ptr)) p : p ∈ omap id l <-> Some p ∈ l.
Proof.
  rewrite list_elem_of_omap. unfold id. split; [intros (x & Hx & ->); done|]. intros Hp. by exists (Some p).
Qed.

(** A new row in the names nobody uses. *)
Lemma new_row_inv limit R F D s id spans : Inv limit R F D s ->
  let s' := snd (allocate s) in
  let s' := set_rows (<[next_name s := mkRow 1 id spans]> (row_heap s')) s' in
  Inv limit (next_name s :: R) F D s' /\ evolves s s'.
Proof.
  intros [C Hr Hf Hl]. cbv zeta. cbn [allocate snd row_heap]. split.
  - constructor; cbn; [| | |done].
    + apply counts_new_row; [|done]. destruct (row_heap s !! next_name s) eqn:E; [|done].
      specialize (Hr (next_name s) ltac:(eauto)). lia.
    + intros p [row Hp]. apply lookup_insert_Some in Hp as [[<- _]|[_ Hp]]; [lia|].
      specialize (Hr p ltac:(eauto)). lia.
    + intros f Hx. specialize (Hf f Hx). lia.
  - constructor; cbn; [lia| |intros f fr Hx; left; by exists fr].
    intros p row Hp. apply lookup_insert_Some in Hp as [[<- _]|[_ Hp]]; [by right|left; by exists row].
Qed.
Lemma allocate_inv limit R F D s : Inv limit R F D s -> Inv limit R F D (snd (allocate s)) /\ evolves s (snd (allocate s)).
Proof.
  intros [C Hr Hf Hl]. split.
  - constructor; cbn; [done| | |done]; intros p Hp; [specialize (Hr p Hp)|specialize (Hf p Hp)]; lia.
  - constructor; cbn; [lia| |]; intros p v Hp; left; by exists v.
Qed.

Definition same_rows_but (y : nat) (s s' : Raster) : Prop :=
  forall i, i <> y -> working s' !! i = working s !! i.

Lemma finish_fine s : Whole s ->
  fine (fun s' => Whole s' /\ (off_owns_nothing s -> off_owns_nothing s') /\ (enabled s' = true ->
          sized (width s) (height s) (current_row s) (pending s) s' /\
          same_rows_but (Z.to_nat (current_row s)) s s' /\
          (pending s <> [] -> 0 <= current_row s < height s -> current_row s < 560 ->
           holds_row s' (Z.to_nat (current_row s)) (pending s)))) s (cdi_raster_finish s).
Proof.
  intros HW. unfold cdi_raster_finish. set (y := Z.to_nat (current_row s)).
  destruct (negb (enabled s) || _ || _ || _) eqn:Eg.
  { apply fine_here. split; [done|]. split; [done|]. intros He. split; [by constructor|]. split; [done|].
    intros Hp Hrow Hmax. rewrite He in Eg. cbn [negb] in Eg. unfold MCD212_VIDEO_MAX_HEIGHT in Eg.
    destruct (pending s); [done|]. cbn [orb] in Eg. lia. }
  apply orb_false_elim in Eg as [Eg Hmax]. apply orb_false_elim in Eg as [Eg Hrow].
  apply orb_false_elim in Eg as [He%negb_false_iff Hpend].
  apply Z.leb_gt in Hmax, Hrow. unfold MCD212_VIDEO_MAX_HEIGHT in Hmax.
  destruct HW as [HI Hl]. assert (y < length (working s))%nat as Hy by lia.
  assert (exists retained, (match mjoin (working s !! y) with
     | None => Some false
     | Some p => row ← row_heap (shared s) !! p; Some (bool_decide (row_spans row = pending s)) end) = Some retained
     /\ (retained = true -> holds_row s y (pending s))) as (retained & -> & Hret).
  { destruct (lookup_lt_is_Some_2 _ _ Hy) as [[p|] Ep].
    - rewrite Ep. cbn [mjoin option_join]. destruct (inv_alive _ _ _ _ _ p HI) as [row Er].
      { apply elem_of_slots. by eapply list_elem_of_lookup_2. }
      rewrite Er. cbn. eexists. split; [reflexivity|]. intros E%bool_decide_eq_true. by exists p, row.
    - rewrite Ep. by exists false. }
  cbn [mbind option_bind]. destruct retained.
  { apply fine_here. split; [done|]. split; [done|]. intros _. split; [by constructor|]. split; [done|].
    intros _ _ _. by apply Hret. }
  destruct (allocate (shared s)) as [name sh] eqn:Ea. destruct name as [p|].
  - destruct (new_row_inv _ _ _ _ _ (u64 (identity s + 1)) (pending s) HI) as [HI1 Ev1]. rewrite Ea in HI1, Ev1.
    assert (p = next_name (shared s)) as -> by (unfold allocate in Ea; destruct (default _ _); congruence).
    cbn [snd] in HI1, Ev1. cbn [identity set_identity set_working working shared].
    change (pending (set_identity _ s)) with (pending s).
    set (p := next_name (shared s)) in *. set (sh1 := set_rows _ sh) in *.
    rewrite (omap_slot_old _ y) in HI1 by done.
    change (p :: ?x ++ ?z) with (of_option (Some p) ++ x ++ z) in HI1.
    rewrite app_assoc, (Permutation_app_comm (of_option (Some p))), <- app_assoc, <- omap_slot in HI1 by done.
    destruct (release_slot_safe _ _ _ _ _ _ HI1) as (sh2 & -> & Ev2 & HI2). cbn [mbind option_bind].
    eexists. split; [reflexivity|]. split; [by etrans|]. split.
    { constructor; [exact HI2|]. cbn. by rewrite length_insert. }
    split; [intros _; by apply enabled_off|]. intros _. split; [by constructor|]. split.
    + intros i Hi. cbn. by rewrite list_lookup_insert_ne.
    + intros _ _ _. destruct (inv_alive _ _ _ _ _ p HI2) as [row Er].
      { apply elem_of_slots. eapply list_elem_of_lookup_2. by apply list_lookup_insert_eq. }
      exists p, row. cbn. split; [by apply list_lookup_insert_eq|]. split; [done|].
      assert (row_heap sh1 !! p = Some (mkRow 1 (u64 (identity s + 1)) (pending s))) as E1 by (subst sh1; cbn; apply lookup_insert_eq).
      pose proof (row_kept _ _ _ _ _ _ _ _ HI1 Ev2 E1 _ Er) as E. by apply (f_equal row_spans) in E.
  - destruct (allocate_inv _ _ _ _ _ HI) as [HI1 Ev1]. rewrite Ea in HI1, Ev1. cbn [snd] in HI1, Ev1.
    destruct (capture_fine false (set_shared sh s)) as (s' & E & Ev & HW' & He' & Hoff); [by constructor|].
    destruct (cdi_raster_capture false (set_shared sh s)) as [[b s0]|]; [|done]. cbn in E. injection E as ->.
    cbn [mbind option_bind snd]. exists s'. split; [done|]. split; [by etrans|]. split; [done|].
    split; [by intros Ho; apply Hoff|]. congruence.
Qed.

(** ** Publication *)
Lemma append_nonempty w first last a b c spans : spans <> [] -> append w first last a b c spans <> [].
Proof.
  intros Hs. unfold append. destruct (_ || _ || _); [done|].
  destruct (list.last spans); [|done]. destruct (extends _ _ _ _ _); intros E; by apply app_eq_nil in E as [_ E].
Qed.
Lemma native_end_between color_at w c n : forall e, e <= w -> e <= native_end color_at w c n e <= w.
Proof.
  induction n as [|n IH]; intros e He; cbn [native_end]; [lia|].
  destruct (Z.ltb_spec e w); cbn [andb]; [|lia]. destruct (_ =? c); [|lia]. specialize (IH (e + 1)). lia.
Qed.
Lemma native_runs_nonempty color_at w limit n : forall x spans, spans <> [] ->
  native_runs color_at w limit n x spans <> [].
Proof.
  induction n as [|n IH]; intros x spans Hs; cbn [native_runs]; [done|].
  destruct (x <? w); [|done]. apply IH. by apply append_nonempty.
Qed.
Lemma native_runs_some color_at w : 0 < w -> native_runs color_at w w (Z.to_nat w) 0 [] <> [].
Proof.
  intros Hw. destruct (Z.to_nat w) as [|n] eqn:En; [lia|]. cbn [native_runs].
  destruct (Z.ltb_spec 0 w); [|lia]. apply native_runs_nonempty. unfold append.
  pose proof (native_end_between color_at w (color_at 0) (Z.to_nat w) (0 + 1) ltac:(lia)).
  replace (_ <=? 0) with false by lia. replace (w <? _) with false by lia. done.
Qed.

Definition filled (n : nat) (s : Raster) : Prop :=
  forall i, (i < n)%nat -> exists p, working s !! i = Some (Some p).

Lemma capture_missing_fine native w h n : forall y s,
  Whole s -> enabled s = true -> width s = w -> height s = h -> 0 < w -> h <= 560 ->
  Z.of_nat (y + n) = h -> filled y s ->
  exists go s', capture_missing native w n y s = Some (go, s') /\ evolves (shared s) (shared s') /\
    Whole s' /\ off_owns_nothing s' /\ (go = true -> enabled s' = true /\ filled (y + n) s').
Proof.
  induction n as [|n IH]; intros y s HW He Hw Hh Hpos Hmax Hn Hy; cbn [capture_missing].
  - exists true, s. rewrite Nat.add_0_r. split_and!; try done. by apply enabled_off.
  - destruct HW as [HI Hl]. destruct (lookup_lt_is_Some_2 (working s) y ltac:(lia)) as [[p|] Ep];
      rewrite Ep; cbn [mjoin option_join]; replace (y + S n)%nat with (S y + n)%nat by lia.
    + apply IH; [by constructor|done..|lia|]. intros i Hi.
      destruct (decide (i = y)) as [->|]; [by exists p|]. apply Hy. lia.
    + set (spans := native_runs _ _ _ _ _ _). set (s0 := set_line (Z.of_nat y) spans s).
      destruct (finish_fine s0) as (s1 & -> & Ev & HW1 & Hoff & Hpost); [by constructor|].
      cbn [mbind option_bind]. destruct (enabled s1) eqn:He1; cbn [negb].
      * destruct (Hpost eq_refl) as ([_ Ew Eh _ _] & Hbut & Hholds).
        cbn [current_row width height pending s0 set_line] in *. rewrite Nat2Z.id in *.
        destruct Hholds as (p & row & Ep1 & _ & _).
        -- subst spans. rewrite Hw. by apply native_runs_some.
        -- lia.
        -- lia.
        -- destruct (IH (S y) s1) as (go & s2 & -> & Ev2 & HW2 & Hgo); try done; try lia; try congruence.
           { intros i Hi. destruct (decide (i = y)) as [->|Hiy]; [by exists p|].
             rewrite (Hbut i Hiy). cbn. apply Hy. lia. }
           exists go, s2. split; [done|]. split; [by etrans|done].
      * exists false, s1. split_and!; try done. apply Hoff. by apply enabled_off.
Qed.

Lemma hold_limit : Z.of_nat HOLD_LIMIT = 2 ^ 20.
Proof. unfold HOLD_LIMIT. by rewrite Z2Nat.id. Qed.

(** The counts a new frame takes of its rows. *)
Lemma share_rows_safe R F D limit : (limit <= HOLD_LIMIT)%nat -> (length R <= 560)%nat ->
  (length F <= 4)%nat -> (length D <= 4)%nat -> forall slots acc s,
  Forall is_Some slots -> (forall p, p ∈ omap id slots -> p ∈ R) ->
  (length slots + length acc <= 560)%nat -> Inv limit (acc ++ R) F D s ->
  safely (Inv limit (omap id slots ++ acc ++ R) F D) s (share_rows slots s).
Proof.
  intros Hlim HR HF HD slots. induction slots as [|slot slots IH]; intros acc s Hall Hin Hlen HI.
  - by apply safely_here.
  - apply Forall_cons in Hall as [[p ->] Hall]. cbn [share_rows mbind option_bind].
    change (omap id (Some p :: slots)) with (p :: omap id slots) in *. cbn [length] in Hlen.
    eapply safely_bind; [by apply yield_safe|]. intros s1 [C Hr Hf Hl].
    pose proof (live_rows_bound _ _ _ _ _ C) as Hb1. pose proof (dying_rows_bound _ _ _ _ _ C) as Hb2.
    rewrite length_app in Hb1, Hb2.
    destruct (counts_share_row _ _ _ _ _ p C) as (row & Er & C').
    { apply elem_of_app. right. apply Hin. by constructor. }
    { rewrite length_app. pose proof hold_limit. lia. }
    rewrite Er. cbn [mbind option_bind]. set (s2 := set_rows _ s1).
    assert (forall q row', <[p := set_row_references (u32 (row_references row + 1)) row]> (row_heap s1) !! q = Some row' ->
      exists row0, row_heap s1 !! q = Some row0 /\ set_row_references 0 row0 = set_row_references 0 row') as Hk.
    { intros q row' Hq. apply lookup_insert_Some in Hq as [[<- <-]|[_ Hq]]; [by exists row|by exists row']. }
    assert (Inv limit ((p :: acc) ++ R) F D s2) as HI2.
    { constructor; cbn; [exact C'| |done|done]. intros q [row' Hq]. apply Hr.
      destruct (Hk q row' Hq) as (? & ? & _). eauto. }
    destruct (IH (p :: acc) s2) as (s3 & -> & Ev & HI3); [done| |cbn [length]; lia|done|].
    { intros q Hq. apply Hin. by constructor. }
    exists s3. split; [done|]. split.
    + etrans; [|exact Ev]. destruct (put_rows_safe (fun _ => True) s1 _ Hk I) as (? & [= <-] & E & _). exact E.
    + cbn [app] in HI3 |- *. by rewrite Permutation_middle.
Qed.

Lemma new_frame_inv R F D s0 s f w h gen ep slots :
  Inv HOLD_LIMIT (omap id slots ++ R) F D s -> evolves (snd (allocate s0)) s -> f = next_name s0 ->
  (forall g, is_Some (frame_heap s0 !! g) -> (g < next_name s0)%positive) ->
  0 <= w <= MCD212_VIDEO_MAX_WIDTH -> 0 <= h <= MCD212_VIDEO_MAX_HEIGHT -> length slots = Z.to_nat h -> Forall is_Some slots ->
  let s' := set_frames (<[f := mkFrame 1 w h gen ep slots]> (frame_heap s)) s in
  Inv HOLD_LIMIT R (f :: F) D s' /\ evolves s0 s'.
Proof.
  intros [C Hr Hf Hl] Ev -> Hnames Hw Hh Hlen Hall. cbv zeta.
  assert (frame_heap s !! next_name s0 = None) as Hn.
  { destruct (frame_heap s !! next_name s0) as [fr|] eqn:E; [|done].
    destruct (e_frames _ _ Ev _ _ E) as [(fr0 & E0 & _)|Hx]; cbn in *; [|lia].
    specialize (Hnames (next_name s0) ltac:(eauto)). lia. }
  pose proof (e_next _ _ Ev) as Hnext. cbn in Hnext. split.
  - constructor; cbn; [| | |done].
    + apply counts_new_frame; try done.
      * intros Hx. apply (c_held _ _ _ _ _ C) in Hx as [? Hx]. congruence.
      * intros Hx. apply (c_dying _ _ _ _ _ C) in Hx as [? Hx]. congruence.
    + done.
    + intros g [fr Hg]. apply lookup_insert_Some in Hg as [[<- _]|[_ Hg]]; [lia|eauto].
  - constructor; cbn; [lia| |].
    + intros p row Hp. destruct (e_rows _ _ Ev p row Hp) as [Hx|Hx]; [by left|right]. cbn in Hx. lia.
    + intros g fr Hg. apply lookup_insert_Some in Hg as [[<- _]|[_ Hg]]; [by right|].
      destruct (e_frames _ _ Ev g fr Hg) as [Hx|Hx]; [by left|right]. cbn in Hx. lia.
Qed.

Lemma publish_fine native w h gen s : is_u32 w -> is_u32 h -> Whole s ->
  fine (fun s' => Whole s' /\ (off_owns_nothing s -> off_owns_nothing s')) s (cdi_raster_publish native w h gen s).
Proof.
  intros Hw Hh HW. unfold cdi_raster_publish.
  destruct (negb (enabled s) || _ || _ || _ || _) eqn:Eg; [by apply fine_here|].
  apply orb_false_elim in Eg as [Eg Hmaxh]. apply orb_false_elim in Eg as [Eg Hmaxw].
  apply orb_false_elim in Eg as [Eg Hh0]. apply orb_false_elim in Eg as [He%negb_false_iff Hw0].
  apply Z.ltb_ge in Hmaxh, Hmaxw. apply Z.eqb_neq in Hw0, Hh0.
  unfold MCD212_VIDEO_MAX_WIDTH, MCD212_VIDEO_MAX_HEIGHT in *. unfold is_word in Hw, Hh.
  eapply fine_bind; [by apply resize_fine|]. intros s1 (HW1 & Ew & Eh & Ee). rewrite He in Ee.
  destruct (capture_missing_fine native w h (Z.to_nat h) 0 s1) as (go & s2 & -> & Ev & HW2 & Hoff & Hgo);
    [done..|lia|lia|lia|intros i Hi; lia|].
  cbn [mbind option_bind fst snd]. destruct go; cbn [negb]; [|by exists s2].
  specialize (Hgo eq_refl) as [He2 Hgo]. destruct HW2 as [HI2 Hl2].
  destruct (allocate (shared s2)) as [name sh] eqn:Ea. destruct (allocate_inv _ _ _ _ _ HI2) as [HI3 Ev3].
  pose proof Ea as Ea'. apply (f_equal snd) in Ea'. cbn in Ea'. rewrite <- Ea' in *. destruct name as [f|].
  - assert (f = next_name (shared s2)) as Ef by (unfold allocate in Ea; destruct (default _ _); congruence).
    set (slots := take (Z.to_nat h) (working s2)).
    assert (length slots = Z.to_nat h) as Hlen by (subst slots; rewrite length_take; lia).
    assert (Forall is_Some slots) as Hall.
    { apply Forall_lookup. intros i o Hi. apply lookup_take_Some in Hi as [Hi Hlt].
      destruct (Hgo i ltac:(lia)) as [p Ep]. rewrite Ep in Hi. injection Hi as <-. done. }
    destruct (share_rows_safe (omap id (working s2)) (of_option (published s2)) [] HOLD_LIMIT) with
      (slots := slots) (acc := @nil ptr) (s := snd (allocate (shared s2))) as (sh4 & E4 & Ev4 & HI4).
    + lia.
    + pose proof (length_slots (working s2)). lia.
    + destruct (published s2); cbn; lia.
    + cbn. lia.
    + done.
    + intros p Hp. apply elem_of_slots in Hp. apply elem_of_slots.
      apply list_elem_of_lookup in Hp as [i Hi]. apply lookup_take_Some in Hi as [Hi _].
      by eapply list_elem_of_lookup_2.
    + cbn [length]. lia.
    + exact HI3.
    + unfold allocate in E4. cbn [snd] in E4. rewrite E4. cbn [mbind option_bind].
      rewrite (u16_id h) by (unfold is_word; lia). cbn [app] in HI4.
      destruct (new_frame_inv (omap id (working s2)) (of_option (published s2)) [] (shared s2) sh4 f (u16 w) h gen
                  (epoch s2) slots HI4 Ev4 Ef) as [HI5 Ev5]; try done.
      { destruct HI2. done. }
      { unfold MCD212_VIDEO_MAX_WIDTH. rewrite u16_id; unfold is_word; lia. }
      { unfold MCD212_VIDEO_MAX_HEIGHT. lia. }
      set (sh5 := set_frames _ sh4) in *.
      assert (Inv HOLD_LIMIT (omap id (working s2)) (of_option (published s2) ++ [f]) [] sh5) as HI6.
      { rewrite Permutation_app_comm. exact HI5. }
      destruct (release_published_safe _ _ _ _ _ HI6) as (sh7 & E7 & Ev7 & HI7).
      cbn [published set_published] in *. rewrite E7. cbn [mbind option_bind].
      eexists. split; [reflexivity|]. split; [cbn; etrans; [exact Ev|]; by etrans|].
      split; [by constructor|]. intros _. by apply enabled_off.
  - destruct (capture_fine false (set_shared (snd (allocate (shared s2))) s2)) as (s' & E & Ev' & HW' & _ & Hoff'); [by constructor|].
    unfold allocate in E. cbn [snd] in E. destruct (cdi_raster_capture false _) as [[b s0]|]; [|done].
    cbn in E. injection E as ->. cbn [mbind option_bind snd].
    exists s'. split; [done|]. split; [etrans; [exact Ev|]; by etrans|]. split; [done|]. intros _. by apply Hoff'.
Qed.

Lemma acquire_fine s : Whole s -> (length (held (shared s)) + length (dying (shared s)) < HOLD_LIMIT)%nat ->
  fine (fun s' => Whole s' /\ (off_owns_nothing s -> off_owns_nothing s')) s (cdi_raster_acquire s).
Proof.
  intros [HI Hl] Hlim. unfold cdi_raster_acquire. destruct (published s) as [f|] eqn:Ep.
  2: { apply fine_here. split; [|done]. constructor; [by rewrite Ep|done]. }
  set (n := (length (held (shared s)) + length (dying (shared s)))%nat) in *.
  assert (Inv n (omap id (working s)) [f] [] (shared s)) as HI1.
  { destruct HI as [C Hr Hf _]. constructor; [done..|lia]. }
  destruct (yield_safe _ _ _ _ _ HI1) as (sh & -> & Ev & [C Hr Hf Hb]). cbn [mbind option_bind app] in *.
  destruct (counts_acquire _ _ _ _ _ _ C) as (fr & Ef & C').
  { pose proof hold_limit. lia. }
  rewrite Ef. cbn [mbind option_bind]. pose proof (frame_update_kept _ _ _ (u32 (references fr + 1)) Ef) as Hk.
  eexists. split; [reflexivity|]. split.
  - etrans; [exact Ev|]. constructor; cbn; [done|intros p row Hp; left; by exists row|].
    intros g fr' Hg. left. by apply Hk.
  - split; [|done]. constructor; cbn; [|done]. rewrite Ep. constructor; cbn; [exact C'|done| |lia].
    intros g [fr' Hg]. apply Hf. destruct (Hk g fr' Hg) as (? & ? & _). eauto.
Qed.

Definition call_ok (c : Call) : Prop :=
  match c with Publish _ w h _ => is_u32 w /\ is_u32 h | _ => True end.

Definition at_rest (s : Raster) : Prop := Whole s /\ off_owns_nothing s.

Lemma call_fine c s : call_ok c -> at_rest s -> fine at_rest s (call c s).
Proof.
  intros Hc [HW Ho]. destruct c; cbn [call].
  - eapply fine_mono; [by apply capture_fine|]. intros s' (HW' & _ & Hoff). split; auto.
  - eapply fine_mono; [by apply reset_fine|]. intros s' [HW' [H1 H2 _ _]]. split; [done|]. by split.
  - eapply fine_mono; [by apply begin_fine|]. intros s' (HW' & Hoff & _). split; auto.
  - unfold cdi_raster_span. destruct (enabled s) eqn:He; [|by apply fine_here].
    eexists. split; [done|]. split; [done|]. destruct HW. split; [done|by apply enabled_off].
  - unfold cdi_raster_overlay. destruct (enabled s) eqn:He; [|by apply fine_here].
    eexists. split; [done|]. split; [done|]. destruct HW. split; [done|by apply enabled_off].
  - eapply fine_mono; [by apply finish_fine|]. intros s' (HW' & Hoff & _). split; auto.
  - destruct Hc. eapply fine_mono; [by apply publish_fine|]. intros s' [HW' Hoff]. split; auto.
  - destruct (Nat.ltb_spec (length (held (shared s)) + length (dying (shared s))) HOLD_LIMIT);
      [|by apply fine_here].
    eapply fine_mono; [by apply acquire_fine|]. intros s' [HW' Hoff]. split; auto.
  - destruct HW as [HI Hl]. destruct (yield_safe _ _ _ _ _ HI) as (sh & -> & Ev & HI'). cbn [mbind option_bind].
    eexists. split; [done|]. split; [done|]. split; [by constructor|exact Ho].
Qed.

Lemma run_fine calls : forall s, Forall call_ok calls -> at_rest s -> fine at_rest s (run calls s).
Proof.
  induction calls as [|c calls IH]; intros s Hc HW; cbn [run]; [by apply fine_here|].
  apply Forall_cons in Hc as [Hc Hcs]. eapply fine_bind; [by apply call_fine|]. intros s' HW'. by apply IH.
Qed.

Lemma start_at_rest schedule failures : at_rest (start schedule failures).
Proof.
  split; [|by split]. constructor; [|done]. constructor; [|intros p [? Hp]; done..|cbn; lia].
  constructor; [|done|intros f Hf; by apply elem_of_nil in Hf..|constructor].
  intros p. cbn. rewrite lookup_empty. done.
Qed.

(** * What a reader sees *)
Definition shared_pixels : Z := MCD212_VIDEO_MAX_WIDTH * MCD212_VIDEO_MAX_HEIGHT.

Lemma paint_rows_answers s w slots : forall y pixels,
  Forall (fun o => exists p row, o = Some p /\ row_heap s !! p = Some row) slots ->
  exists px, paint_rows s w slots y pixels = Some (true, px).
Proof.
  induction slots as [|o slots IH]; intros y pixels Hall; [by eexists|].
  apply Forall_cons in Hall as [(p & row & -> & Er) Hall]. cbn [paint_rows]. rewrite Er. by apply IH.
Qed.
Lemma paint_rows_same s s' w slots : forall y pixels,
  (forall p, Some p ∈ slots -> row_spans <$> row_heap s' !! p = row_spans <$> row_heap s !! p) ->
  paint_rows s' w slots y pixels = paint_rows s w slots y pixels.
Proof.
  induction slots as [|[p|] slots IH]; intros y pixels Hp; [done| |done]. cbn [paint_rows].
  pose proof (Hp p ltac:(by constructor)) as E.
  destruct (row_heap s' !! p), (row_heap s !! p); cbn in E; try done. injection E as E.
  cbn [mbind option_bind]. rewrite E. apply IH. intros q Hq. apply Hp. by constructor.
Qed.

Lemma held_frame limit R F D s f : Inv limit R F D s -> f ∈ held s ->
  exists fr, frame_heap s !! f = Some fr /\ shape fr /\
    forall p, Some p ∈ rows fr -> is_Some (row_heap s !! p).
Proof.
  intros HI Hf. pose proof HI as [C _ _ _]. pose proof C as [Cr Cf Ch _ _].
  assert (f ∈ F ++ held s) as Hf' by (apply elem_of_app; by right).
  destruct (Ch f Hf') as [fr Ef]. exists fr. split; [done|]. destruct (Cf f fr Ef) as [Hs Hc]. split; [done|].
  intros p Hp. specialize (Cr p). destruct (row_heap s !! p); [done|]. cbn in Cr.
  rewrite !occ_app, (live_rows_lookup _ _ _ Ef), occ_app in Cr.
  apply occ_pos in Hf'. destruct (decide _) as [|_]; [lia|]. destruct Hc as (Ec & _).
  unfold live_of in Cr. cbn [snd] in Cr. destruct (Z.eqb_spec (references fr) 0); [lia|].
  apply elem_of_slots in Hp. apply occ_pos in Hp. unfold rows_of in Cr. lia.
Qed.

Lemma native_answers limit R F D s f capacity pixels : Inv limit R F D s -> f ∈ held s ->
  shared_pixels <= capacity -> exists px, cdi_raster_native s f capacity pixels = Some (true, px).
Proof.
  intros HI Hf Hcap. destruct (held_frame _ _ _ _ _ _ HI Hf) as (fr & Ef & [Hw Hh Hl Hr] & Hrows).
  unfold cdi_raster_native. rewrite Ef. cbn [mbind option_bind].
  unfold shared_pixels, MCD212_VIDEO_MAX_WIDTH, MCD212_VIDEO_MAX_HEIGHT in *.
  rewrite u32_id by (unfold is_word; nia). destruct (Z.ltb_spec capacity (frame_width fr * frame_height fr)); [nia|].
  apply paint_rows_answers. rewrite take_ge by lia. apply Forall_forall. intros o Ho.
  rewrite Forall_forall in Hr. destruct (Hr o Ho) as [p ->]. destruct (Hrows p Ho) as [row Er]. by exists p, row.
Qed.

Lemma native_kept limit R F D R' F' D' s s' f capacity pixels :
  Inv limit R F D s -> Inv limit R' F' D' s' -> evolves s s' -> f ∈ held s -> f ∈ held s' ->
  cdi_raster_native s' f capacity pixels = cdi_raster_native s f capacity pixels.
Proof.
  intros HI HI' Ev Hf Hf'. destruct (held_frame _ _ _ _ _ _ HI Hf) as (fr & Ef & Hs & Hrows).
  destruct (held_frame _ _ _ _ _ _ HI' Hf') as (fr' & Ef' & Hs' & Hrows').
  unfold cdi_raster_native. rewrite Ef, Ef'. cbn [mbind option_bind].
  destruct (e_frames _ _ Ev f fr' Ef') as [(fr0 & E0 & E)|Hn].
  2: { pose proof (i_frames _ _ _ _ _ HI f ltac:(eauto)). lia. }
  rewrite Ef in E0. injection E0 as <-. pose proof (f_equal frame_width E) as Ew. pose proof (f_equal frame_height E) as Eh.
  pose proof (f_equal rows E) as Er. cbn in Ew, Eh, Er. rewrite <- Ew, <- Eh, <- Er.
  destruct (capacity <? _); [done|]. apply paint_rows_same. intros p Hp.
  apply list_elem_of_lookup in Hp as [i Hi]. apply lookup_take_Some in Hi as [Hi _].
  apply list_elem_of_lookup_2 in Hi. destruct (Hrows p Hi) as [row Ep].
  rewrite Er in Hi. destruct (Hrows' p Hi) as [row' Ep']. rewrite Ep, Ep'. cbn. f_equal.
  pose proof (row_kept _ _ _ _ _ _ _ _ HI Ev Ep _ Ep') as Ek. by apply (f_equal row_spans) in Ek.
Qed.

(** Nobody's memory is freed memory. *)
Lemma nothing_left s : Whole s -> working s = replicate 560 None -> published s = None ->
  held (shared s) = [] -> dying (shared s) = [] -> row_heap (shared s) = ∅ /\ frame_heap (shared s) = ∅.
Proof.
  intros [[[Cr Cf _ _ _] _ _ _] _] Hw Hp Hh Hd. rewrite Hh, Hd, Hp in *. cbn [of_option app] in *.
  assert (frame_heap (shared s) = ∅) as Efh.
  { apply map_eq. intros f. rewrite lookup_empty. destruct (frame_heap (shared s) !! f) as [fr|] eqn:Ef; [|done].
    destruct (Cf f fr Ef) as [_ Hc]. rewrite decide_False in Hc by (cbn; by intros Hx%elem_of_nil).
    destruct Hc as (_ & Hc & _). done. }
  split; [|done]. apply map_eq. intros p. rewrite lookup_empty. specialize (Cr p).
  destruct (row_heap (shared s) !! p) as [row|]; [|done]. destruct Cr as (_ & Hc & _). exfalso. apply Hc.
  rewrite Hw, Efh. unfold live_rows. rewrite map_to_list_empty. done.
Qed.

(** C6. The emulation and the readers share the captured frames safely.  Whatever
    calls are made, whenever the readers' releases come between the emulation's
    accesses and whichever allocations fail, no access finds freed memory and
    no pointer followed is null.  A frame a reader holds shows the same pixels
    for as long as it is held, whatever is captured meanwhile.  Once the capture
    is off and the last reader is done, every row and frame has been freed. *)
Theorem shared_frames_are_safe schedule failures calls more :
  Forall call_ok calls -> Forall call_ok more ->
  exists s s', run calls (start schedule failures) = Some s /\ run more s = Some s' /\
    (forall f capacity pixels, f ∈ held (shared s) -> f ∈ held (shared s') -> shared_pixels <= capacity ->
       exists px, cdi_raster_native (shared s) f capacity pixels = Some (true, px) /\
                  cdi_raster_native (shared s') f capacity pixels = Some (true, px)) /\
    (enabled s' = false -> held (shared s') = [] -> dying (shared s') = [] ->
       row_heap (shared s') = ∅ /\ frame_heap (shared s') = ∅).
Proof.
  intros Hc Hm. destruct (run_fine calls _ Hc (start_at_rest schedule failures)) as (s & E & _ & Hs).
  destruct (run_fine more _ Hm Hs) as (s' & E' & Ev & Hs'). exists s, s'. split; [done|]. split; [done|].
  destruct Hs as [[HI _] _], Hs' as [[HI' Hl'] Hoff]. split.
  - intros f capacity pixels Hf Hf' Hcap.
    destruct (native_answers _ _ _ _ _ _ capacity pixels HI Hf Hcap) as [px Epx]. exists px. split; [done|].
    rewrite <- Epx. by eapply native_kept.
  - intros He Hh Hd. destruct (Hoff He) as [Hw Hp]. apply nothing_left; by try constructor.
Qed.

(** A frame of two by one held over a second field and the end of the capture,
    then released. *)
Lemma shared_frames_are_safe_witness :
  let drawn color := [Begin 0 2 1; Span 0 2 color 0 0; Finish; Publish (fun _ => 0) 2 1 1] in
  let calls := Capture true :: drawn 7 ++ [Acquire] in
  let more := drawn 9 ++ [Capture false; Idle] in
  let s0 := start ([[]; []; []] ++ replicate 5 [] ++ [[ReaderRelease 0; ReaderDrop 0; ReaderDrop 0]]) [] in
  exists s s', run calls s0 = Some s /\ run more s = Some s' /\
    held (shared s) = [2%positive] /\
    (snd <$> cdi_raster_native (shared s) 2 shared_pixels ∅) = Some (mset (mset ∅ 0 7) 1 7).
Proof.
  intros drawn calls more s0.
  assert (Forall call_ok calls) as Hc by (repeat constructor; vm_compute; done).
  assert (Forall call_ok more) as Hm by (repeat constructor; vm_compute; done).
  destruct (shared_frames_are_safe ([[]; []; []] ++ replicate 5 [] ++ [[ReaderRelease 0; ReaderDrop 0; ReaderDrop 0]]) []
              calls more Hc Hm) as (s & s' & E & E' & _).
  exists s, s'. split; [exact E|]. split; [exact E'|].
  clear E'. vm_compute in E. injection E as <-. split; vm_compute; reflexivity.
Defined.
