(* ===== verification/Capture.v ===== *)
(** What the pixel pipeline captures of a line (runner/src/mcd212_video.c, with
    the native presentation compiled in): the layers of each pixel or span as
    they were before mixing, and the cursor over them. *)

From Stdlib Require Import ZArith Lia Bool.
From stdpp Require Import base tactics numbers list gmap.
From S2P Require Import Prelude Mcd212 Video Scanout Raster.
Open Scope Z_scope.

Section Capture.
Context (r : VideoRegisters) (w fld : Z).

(** The span's two colours and its control: both layers and their factors when
    they were added, one of them, or the pixel itself. *)
Definition layers (raw_a raw_b : Z) (m : MatteState) (verdict flat : Z) : Z * Z * Z :=
  if z2b (Z.land verdict 0x20)
  then (raw_a, raw_b, Z.lor (Z.lor 2 (Z.shiftl (factor0 m) 2)) (Z.shiftl (factor1 m) 8))
  else if z2b (Z.land verdict 0x10) then (flat, 0, 0)
  else
    let chosen := if z2b (Z.land verdict 4) then plane_b_front r else negb (plane_b_front r) in
    (if chosen then raw_b else raw_a, 0, Z.lor 1 (Z.shiftl (if chosen then factor1 m else factor0 m) 2)).

(** In [compose_line], and in [scanout_span]. *)
Definition capture_pixel (x raw_a raw_b : Z) (m : MatteState) (s : Raster) : Raster :=
  let d := compose_pixel r raw_a raw_b m in
  let '(a, b, c) := layers raw_a raw_b m (d_verdict d) (yrgb_color (backdrop r)) in
  cdi_raster_span x (x + 1) a b c s.

Definition capture_span (x e raw_a raw_b : Z) (m : MatteState) (s : Raster) : Raster :=
  let d := span_pixel r raw_a raw_b m in
  let '(a, b, c) := layers raw_a raw_b m (d_verdict d) (d_pixel d) in
  cdi_raster_span x e a b c s.

Fixpoint capture_pixels (row_a row_b : list Z) (n : nat) (x : Z) (m : MatteState) (s : Raster) : Raster :=
  match n with
  | O => s
  | S n' =>
    let m := apply_matte_commands r x m in
    capture_pixels row_a row_b n' (x + 1) m (capture_pixel x (lget row_a x) (lget row_b x) m s)
  end.

(** In [draw_cursor], for each set bit of the pattern. *)
Definition capture_cursor (line : Z) (s : Raster) : Raster :=
  let c := cursor r in
  if negb (cursor_enabled c) || (line <? cursor_y c) || (cursor_y c + 16 <=? line) then s
  else
    match cursor_color_at r fld with
    | None => s
    | Some color =>
      let bits := lget (pattern c) (line - cursor_y c) in
      let scale := if high_resolution c then 1 else 2 in
      foldl (fun s column =>
               if z2b (Z.land bits (Z.shiftr 0x8000 column)) then
                 let first_x := cursor_x c + column * scale in
                 cdi_raster_overlay first_x (first_x + scale) color s
               else s) s (seqZ 0 16)
    end.

(** [mcd212_video_draw_line] with the reference composition. *)
Definition captured_line (h line : Z) (row_a row_b : list Z) (s : Raster) : option Raster :=
  s ← (if line <? h then cdi_raster_begin line w h s else Some s);
  cdi_raster_finish
    (if h <=? line then s
     else capture_cursor line
            (capture_pixels row_a row_b (Z.to_nat w) 0 (initialize_matte_state r) s)).

(** The span loop of the fused job, and the job. *)
Fixpoint capture_loop (fetch : Z -> option Z) (buffer : bool) (offset : Z) (fuel : nat) (x : Z)
    (j : Scanning) (s : Raster) : option Raster :=
  if x <? w then
    match fuel with
    | O => None
    | S fuel' =>
      next ← scanout_step fetch r w buffer offset x j;
      let j := snd next in
      capture_loop fetch buffer offset fuel' (fst next) j
        (capture_span x (fst next) (src_color (sc_a j)) (src_color (sc_b j)) (mattes j) s)
    end
  else Some s.

Definition captured_job (fetch : Z -> option Z) (buffer : bool) (h address_a address_b line width_a width_b : Z)
    (old_a old_b : list Z) (f : Buffers) (s : Raster) : option Raster :=
  s ← cdi_raster_begin line w h s;
  a ← scanout_source fetch r w PLANE_A address_a address_a width_a old_a;
  b ← scanout_source fetch r w PLANE_B address_b address_a width_b old_b;
  s ← capture_loop fetch buffer (line_offset w line) (Z.to_nat w) 0
        (mkScanning (fst a) (fst b) (snd a) (snd b) (initialize_matte_state r) f) s;
  cdi_raster_finish (capture_cursor line s).
End Capture.
