(* ===== verification/CaptureSpec.v ===== *)
(** A captured line is the line drawn: its spans cover the row without a gap,
    and the colour of each, mixed when the frame is shown, is the colour the
    composition mixed; the fused job captures the spans of the reference. *)

From Stdlib Require Import ZArith Lia Bool.
From stdpp Require Import base tactics numbers list gmap.
From S2P Require Import Prelude Mcd212 Video Scanout VideoSpec VideoRows ScanoutSpec Raster RasterSpec Capture.
Open Scope Z_scope.

(** * Spans over a row *)

(** The spans follow each other from [from] to [to]. *)
Fixpoint tiles (from : Z) (spans : list CdiRasterSpan) (to : Z) : Prop :=
  match spans with
  | [] => from = to
  | s :: rest => span_first s = from /\ from < span_last s /\ tiles (span_last s) rest to
  end.

Fixpoint color_at (spans : list CdiRasterSpan) (y : Z) : Z :=
  match spans with
  | [] => 0
  | s :: rest => if y <? span_last s then cdi_raster_color s else color_at rest y
  end.

Lemma tiles_le from spans to : tiles from spans to -> from + Z.of_nat (length spans) <= to.
Proof.
  revert from. induction spans as [|s spans IH]; intros from; cbn [tiles length]; [lia|].
  intros (_ & Hlt & H). specialize (IH _ H). lia.
Qed.
Lemma tiles_app from l1 l2 to :
  tiles from (l1 ++ l2) to <-> exists mid, tiles from l1 mid /\ tiles mid l2 to.
Proof.
  revert from. induction l1 as [|s l1 IH]; intros from; cbn [tiles app].
  - split; [by exists from|]. by intros (mid & -> & H).
  - rewrite IH. split.
    + intros (H1 & H2 & mid & H3 & H4). by exists mid.
    + intros (mid & (H1 & H2 & H3) & H4). split_and!; [done..|]. by exists mid.
Qed.
Lemma color_at_app from l1 mid l2 y : tiles from l1 mid -> from <= y ->
  color_at (l1 ++ l2) y = if y <? mid then color_at l1 y else color_at l2 y.
Proof.
  revert from. induction l1 as [|s l1 IH]; intros from H Hy; cbn [tiles app color_at] in *.
  - by destruct (Z.ltb_spec y mid); [lia|].
  - destruct H as (Hf & Hlt & H). pose proof (tiles_le _ _ _ H).
    destruct (Z.ltb_spec y (span_last s)); [by destruct (Z.ltb_spec y mid); [|lia]|]. by apply (IH (span_last s)).
Qed.

Lemma color_payload s s' : span_a s = span_a s' -> span_b s = span_b s' -> control s = control s' ->
  cdi_raster_color s = cdi_raster_color s'.
Proof. destruct s, s'. cbn. by intros -> -> ->. Qed.

Lemma span_bounds first last : 0 <= first < 65536 -> 0 <= last < 65536 ->
  Z.land (Z.lor first (u32 (Z.shiftl last 16))) 65535 = first /\
  Z.shiftr (Z.lor first (u32 (Z.shiftl last 16))) 16 = last.
Proof.
  intros Hf Hl. assert (u32 (Z.shiftl last 16) = Z.shiftl last 16) as ->.
  { apply u32_id. rewrite Z.shiftl_mul_pow2 by done. unfold is_word. change (2 ^ 16) with 65536. lia. }
  rewrite Z.lor_comm, lor_shiftl_add by (unfold is_word; lia). change 65535 with (Z.ones 16).
  rewrite Z.land_ones, Z.shiftr_div_pow2 by done. change (2 ^ 16) with 65536. zlia.
Qed.

(** ** Appending *)
Definition put_span (first last a b c : Z) (spans : list CdiRasterSpan) : list CdiRasterSpan :=
  match list.last spans with
  | Some previous =>
    if extends previous first a b c
    then take (pred (length spans)) spans ++
         [mkSpan (Z.lor (Z.land (bounds previous) 65535) (u32 (Z.shiftl last 16))) a b c]
    else spans ++ [span_of first last a b c]
  | None => [span_of first last a b c]
  end.

Lemma append_tiles width first last a b c spans : tiles 0 spans first -> first < last <= width -> width <= 768 ->
  append width first last a b c spans = put_span first last a b c spans.
Proof.
  intros Ht Hl Hw. pose proof (tiles_le _ _ _ Ht). unfold append, MCD212_VIDEO_MAX_WIDTH.
  replace (last <=? first) with false by lia. replace (width <? last) with false by lia.
  by replace (768 <=? _) with false by lia.
Qed.

Lemma last_snoc_inv {A} (l : list A) z : list.last l = Some z -> exists l0, l = l0 ++ [z].
Proof. intros H. by apply last_Some in H. Qed.
Lemma take_but_last {A} (l : list A) z : take (pred (length (l ++ [z]))) (l ++ [z]) = l.
Proof. rewrite length_app. cbn [length]. replace (pred (length l + 1)) with (length l) by lia. by rewrite take_app_length. Qed.

(** Appending what extends the last span, or a new one. *)
Inductive put_cases (first last a b c : Z) (spans : list CdiRasterSpan) : list CdiRasterSpan -> Prop :=
| PutMore l previous : spans = l ++ [previous] -> span_last previous = first -> span_a previous = a ->
    span_b previous = b -> control previous = c ->
    put_cases first last a b c spans
      (l ++ [mkSpan (Z.lor (Z.land (bounds previous) 65535) (u32 (Z.shiftl last 16))) a b c])
| PutNew : put_cases first last a b c spans (spans ++ [span_of first last a b c]).

Lemma put_span_cases first last a b c spans : put_cases first last a b c spans (put_span first last a b c spans).
Proof.
  unfold put_span. destruct (list.last spans) as [previous|] eqn:El.
  - apply last_snoc_inv in El as [l ->]. destruct (extends previous first a b c) eqn:Ee; [|constructor].
    unfold extends in Ee. apply andb_prop in Ee as [Ee Ec%Z.eqb_eq]. apply andb_prop in Ee as [Ee Eb%Z.eqb_eq].
    apply andb_prop in Ee as [Ef%Z.eqb_eq Ea%Z.eqb_eq]. rewrite take_but_last. by econstructor.
  - apply last_None in El as ->. apply PutNew.
Qed.

Lemma put_span_spec first last a b c spans : tiles 0 spans first -> first < last <= 768 ->
  tiles 0 (put_span first last a b c spans) last /\
  forall y, 0 <= y < last ->
    color_at (put_span first last a b c spans) y =
    if y <? first then color_at spans y else cdi_raster_color (mkSpan 0 a b c).
Proof.
  intros Ht Hl. pose proof (tiles_le _ _ _ Ht) as Hlen.
  destruct (put_span_cases first last a b c spans) as [l previous -> Ef Ea Eb Ec|].
  - apply tiles_app in Ht as (mid & Ht & Hm). cbn [tiles] in Hm. destruct Hm as (Hm1 & Hm2 & Hm3).
    pose proof (tiles_le _ _ _ Ht). unfold span_first in Hm1.
    destruct (span_bounds mid last) as [B1 B2]; [lia|lia|].
    split.
    + apply tiles_app. exists mid. split; [done|]. cbn [tiles]. unfold span_first, span_last. cbn [bounds].
      rewrite Hm1, B1, B2. split; [done|]. split; [lia|done].
    + intros y Hy. rewrite !(color_at_app 0 _ mid) by (done || lia).
      destruct (Z.ltb_spec y mid); [by replace (y <? first) with true by lia|].
      cbn [color_at]. unfold span_last at 1. cbn [bounds]. rewrite Hm1, B2, Ef.
      replace (y <? last) with true by lia. destruct (y <? first); by apply color_payload.
  - destruct (span_bounds first last) as [B1 B2]; [lia|lia|]. split.
    + apply tiles_app. exists first. split; [done|]. cbn [tiles]. unfold span_first, span_last, span_of. cbn [bounds].
      rewrite B1, B2. split; [done|]. split; [lia|done].
    + intros y Hy. rewrite (color_at_app 0 _ first) by (done || lia). destruct (y <? first); [done|].
      cbn [color_at]. unfold span_last, span_of at 1. cbn [bounds]. rewrite B2.
      replace (y <? last) with true by lia. by apply color_payload.
Qed.

(** The rest of a run joins the span its start was put in. *)
Lemma put_span_merge first mid last a b c spans : tiles 0 spans first -> first < mid -> mid < last -> last <= 768 ->
  put_span mid last a b c (put_span first mid a b c spans) = put_span first last a b c spans.
Proof.
  intros Ht H1 H2 H3. pose proof (tiles_le _ _ _ Ht) as Hlen.
  assert (forall l bnds, Z.shiftr bnds 16 = mid ->
    put_span mid last a b c (l ++ [mkSpan bnds a b c]) =
    l ++ [mkSpan (Z.lor (Z.land bnds 65535) (u32 (Z.shiftl last 16))) a b c]) as Hput.
  { intros l bnds Hb. unfold put_span. rewrite last_snoc. unfold extends, span_last. cbn [bounds span_a span_b control].
    rewrite Hb, !Z.eqb_refl. cbn [andb]. by rewrite take_but_last. }
  unfold put_span at 2 3. destruct (list.last spans) as [previous|] eqn:El.
  - apply last_snoc_inv in El as [l ->]. apply tiles_app in Ht as (x & Ht & Hm1 & Hm2 & Hm3).
    pose proof (tiles_le _ _ _ Ht). cbn [tiles] in Hm3. unfold span_first in Hm1.
    destruct (extends previous first a b c).
    + rewrite take_but_last. destruct (span_bounds x mid) as [B1 B2]; [lia|lia|]. rewrite Hm1.
      rewrite Hput by exact B2. by rewrite B1.
    + destruct (span_bounds first mid) as [B1 B2]; [lia|lia|]. unfold span_of.
      rewrite Hput by exact B2. by rewrite B1.
  - apply last_None in El as ->. destruct (span_bounds first mid) as [B1 B2]; [lia|lia|].
    unfold span_of. change [?x] with ([] ++ [x]). rewrite Hput by exact B2. by rewrite B1.
Qed.

(** ** An overlay *)
Lemma overlay_span_spec width first last color out from span :
  width <= 768 -> 0 <= first < last -> last <= width ->
  tiles 0 out (span_first span) -> span_first span < span_last span <= width -> from = span_first span ->
  tiles 0 (overlay_span width first last color out span) (span_last span) /\
  forall y, 0 <= y < span_last span ->
    color_at (overlay_span width first last color out span) y =
    if y <? from then color_at out y
    else if (first <=? y) && (y <? last) then color else cdi_raster_color span.
Proof.
  intros Hw Hf Hl Ht Hs ->. unfold overlay_span. cbv zeta.
  set (p := span_first span) in *. set (q := span_last span) in *.
  pose proof (tiles_le _ _ _ Ht).
  assert (forall u, cdi_raster_color (mkSpan 0 (span_a span) (span_b span) (control span)) = u ->
    cdi_raster_color span = u) as Hpay by (intros u <-; by apply color_payload).
  assert (cdi_raster_color (mkSpan 0 color 0 0) = color) as Hcol by done.
  destruct ((q <=? first) || (last <=? p)) eqn:Eo.
  { rewrite append_tiles by (done || lia). destruct (put_span_spec p q (span_a span) (span_b span) (control span) out)
      as [H1 H2]; [done|lia|]. split; [done|]. intros y Hy. rewrite (H2 y Hy). destruct (Z.ltb_spec y p); [done|].
    replace ((first <=? y) && (y <? last)) with false by lia. symmetry. by apply Hpay. }
  apply orb_false_elim in Eo as [E1%Z.leb_gt E2%Z.leb_gt].
  set (out1 := if p <? first then append _ _ _ _ _ _ out else out).
  set (m1 := if first <? p then p else first). set (m2 := if q <? last then q else last).
  assert (tiles 0 out1 m1 /\ forall y, 0 <= y < m1 ->
    color_at out1 y = if y <? p then color_at out y else cdi_raster_color span) as [T1 C1].
  { subst out1 m1. destruct (Z.ltb_spec p first).
    - replace (first <? p) with false by lia. rewrite append_tiles by (done || lia).
      destruct (put_span_spec p first (span_a span) (span_b span) (control span) out) as [H1 H2]; [done|lia|].
      split; [done|]. intros y Hy. rewrite (H2 y Hy). destruct (y <? p); [done|]. symmetry. by apply Hpay.
    - assert ((if first <? p then p else first) = p) as -> by (destruct (Z.ltb_spec first p); lia).
      split; [done|]. intros y Hy. by replace (y <? p) with true by lia. }
  assert (m1 = Z.max p first) as Em1 by (subst m1; destruct (Z.ltb_spec first p); lia).
  assert (m2 = Z.min q last) as Em2 by (subst m2; destruct (Z.ltb_spec q last); lia).
  clearbody out1 m1 m2. rewrite (append_tiles width m1 m2) by (done || lia).
  destruct (put_span_spec m1 m2 color 0 0 out1) as [T2 C2]; [done|lia|].
  set (out2 := put_span m1 m2 color 0 0 out1) in *. clearbody out2.
  destruct (Z.ltb_spec last q).
  - assert (m2 = last) as -> by lia. rewrite append_tiles by (done || lia).
    destruct (put_span_spec last q (span_a span) (span_b span) (control span) out2) as [T3 C3]; [done|lia|].
    split; [done|]. intros y Hy. rewrite (C3 y Hy). destruct (Z.ltb_spec y last).
    + rewrite C2 by lia. destruct (Z.ltb_spec y m1).
      * rewrite C1 by lia. destruct (Z.ltb_spec y p); [done|].
        by replace ((first <=? y) && true) with false by lia.
      * replace (y <? p) with false by lia. by replace ((first <=? y) && true) with true by lia.
    + replace (y <? p) with false by lia. rewrite andb_false_r. symmetry. by apply Hpay.
  - assert (m2 = q) as -> by lia. split; [done|]. intros y Hy. rewrite C2 by lia. destruct (Z.ltb_spec y m1).
    + rewrite C1 by lia. destruct (Z.ltb_spec y p); [done|].
      by replace ((first <=? y) && (y <? last)) with false by lia.
    + replace (y <? p) with false by lia. by replace ((first <=? y) && (y <? last)) with true by lia.
Qed.

Definition over (first last color : Z) (old : Z -> Z) (y : Z) : Z :=
  if (first <=? y) && (y <? last) then color else old y.

Lemma overlay_loop width first last color spans : forall out from,
  width <= 768 -> 0 <= first < last -> last <= width ->
  tiles 0 out from -> tiles from spans width ->
  tiles 0 (foldl (overlay_span width first last color) out spans) width /\
  forall y, 0 <= y < width ->
    color_at (foldl (overlay_span width first last color) out spans) y =
    if y <? from then color_at out y else over first last color (color_at spans) y.
Proof.
  induction spans as [|s spans IH]; intros out from Hw Hf Hl Ho Ht; cbn [foldl tiles] in *.
  - subst. split; [done|]. intros y Hy. by replace (y <? width) with true by lia.
  - destruct Ht as (<- & Hs & Ht). pose proof (tiles_le _ _ _ Ht).
    destruct (overlay_span_spec width first last color out (span_first s) s) as [T1 C1]; [done..|lia|done|].
    destruct (IH _ _ Hw Hf Hl T1 Ht) as [T2 C2]. split; [done|]. intros y Hy. rewrite (C2 y Hy).
    destruct (Z.ltb_spec y (span_last s)) as [Hlt|Hge].
    + rewrite C1 by lia. destruct (y <? span_first s); [done|]. unfold over. cbn [color_at].
      by replace (y <? span_last s) with true by lia.
    + replace (y <? span_first s) with false by lia. unfold over. cbn [color_at].
      by replace (y <? span_last s) with false by lia.
Qed.

Lemma overlay_spans_spec width first last color spans :
  0 < width <= 768 -> 0 <= first < last -> tiles 0 spans width ->
  tiles 0 (overlay_spans width first last color spans) width /\
  forall y, 0 <= y < width ->
    color_at (overlay_spans width first last color spans) y = over first last color (color_at spans) y.
Proof.
  intros Hw Hf Ht. unfold overlay_spans. assert (spans <> []) as Hne by (intros ->; cbn in Ht; lia).
  destruct spans as [|s spans]; [done|]. cbn [orb]. set (l := s :: spans) in *. clearbody l.
  destruct (Z.leb_spec width first).
  - split; [done|]. intros y Hy. unfold over. by replace ((first <=? y) && (y <? last)) with false by lia.
  - cbv zeta. set (e := if width <? last then width else last).
    assert (e = Z.min width last) as -> by (subst e; destruct (Z.ltb_spec width last); lia).
    destruct (overlay_loop width first (Z.min width last) color l [] 0) as [T C]; [lia..|done|done|].
    split; [done|]. intros y Hy. rewrite (C y Hy). replace (y <? 0) with false by lia. unfold over.
    by replace (y <? Z.min width last) with (y <? last) by lia.
Qed.

(** ** Painting *)
Lemma paint_span_get at_ span m x :
  mget (paint_span at_ m span) x =
  if (at_ + span_first span <=? x) && (x <? at_ + span_last span) then cdi_raster_color span else mget m x.
Proof.
  unfold paint_span. generalize (cdi_raster_color span). intros c.
  destruct (Z.le_gt_cases (span_first span) (span_last span)) as [Hle|Hgt].
  2: { rewrite seqZ_nil by lia. cbn [foldl]. by replace (_ && _) with false by lia. }
  remember (span_last span - span_first span) as n eqn:En.
  assert (exists k, n = Z.of_nat k) as [k ->] by (exists (Z.to_nat n); lia).
  revert m En Hle. generalize (span_first span) (span_last span). intros first last. revert first.
  induction k as [|k IH]; intros first m En Hle.
  - cbn [foldl]. rewrite seqZ_nil by lia. cbn [foldl]. by replace (_ && _) with false by lia.
  - rewrite seqZ_cons by lia. cbn [foldl]. replace (Z.pred (Z.of_nat (S k))) with (Z.of_nat k) by lia.
    replace (Z.succ first) with (first + 1) by lia.
    rewrite IH by lia. rewrite mget_mset. destruct (Z.eqb_spec (at_ + first) x) as [<-|Hne].
    + replace ((at_ + (first + 1) <=? at_ + first) && _) with false by lia.
      by replace ((at_ + first <=? at_ + first) && _) with true by lia.
    + by replace ((at_ + (first + 1) <=? x) && (x <? at_ + last)) with
        ((at_ + first <=? x) && (x <? at_ + last)) by lia.
Qed.

Lemma paint_row_before at_ spans : forall from to m y, tiles from spans to -> y < from ->
  mget (paint_row at_ spans m) (at_ + y) = mget m (at_ + y).
Proof.
  induction spans as [|s spans IH]; intros from to m y; cbn [tiles]; [done|].
  intros (Hf & Hlt & Ht) Hy.
  change (paint_row at_ (s :: spans) m) with (paint_row at_ spans (paint_span at_ m s)).
  rewrite (IH _ _ _ _ Ht) by lia. rewrite paint_span_get. by replace (_ && _) with false by lia.
Qed.
Lemma paint_row_get at_ spans : forall from to m y, tiles from spans to -> from <= y < to ->
  mget (paint_row at_ spans m) (at_ + y) = color_at spans y.
Proof.
  induction spans as [|s spans IH]; intros from to m y; cbn [tiles]; [lia|].
  intros (Hf & Hlt & Ht) Hy. cbn [color_at].
  change (paint_row at_ (s :: spans) m) with (paint_row at_ spans (paint_span at_ m s)).
  destruct (Z.ltb_spec y (span_last s)).
  - rewrite (paint_row_before _ _ _ _ _ _ Ht) by done. rewrite paint_span_get.
    by replace (_ && _) with true by lia.
  - apply (IH _ _ _ _ Ht). lia.
Qed.

(** * Colours *)
Lemma bytes_word t r g b : is_u8 r -> is_u8 g -> is_u8 b ->
  Z.lor (Z.lor (Z.lor (Z.shiftl t 24) (Z.shiftl r 16)) (Z.shiftl g 8)) b = ((t * 256 + r) * 256 + g) * 256 + b.
Proof.
  unfold is_word. change (2 ^ 8) with 256. intros Hr Hg Hb.
  assert (forall n hi lo, 0 <= n -> 0 <= lo < 256 ->
    Z.lor (Z.shiftl hi (n + 8)) (Z.shiftl lo n) = Z.shiftl (hi * 256 + lo) n) as Hstep.
  { intros n hi lo Hn Hlo. rewrite (Z.add_comm n 8), <- Z.shiftl_shiftl, <- Z.shiftl_lor by lia.
    change 256 with (2 ^ 8). rewrite (lor_shiftl_add 8); [done|done|]. unfold is_word. change (2 ^ 8) with 256. lia. }
  rewrite (Hstep 16), (Hstep 8) by lia.
  replace b with (Z.shiftl b 0) at 1 by apply Z.shiftl_0_r. rewrite (Hstep 0) by lia. by rewrite Z.shiftl_0_r.
Qed.

Lemma saturate_u8 x : is_u8 (saturate x).
Proof. unfold saturate, is_word. change (2 ^ 8) with 256. destruct (Z.ltb_spec x 0), (Z.ltb_spec 255 x); lia. Qed.

Lemma top_byte p : Z.land p 0xFF000000 = Z.shiftl (Z.land (Z.shiftr p 24) 255) 24.
Proof.
  change 0xFF000000 with (Z.shiftl 255 24). apply Z.bits_inj'. intros i Hi. autorewrite with bits.
  destruct (Z.lt_ge_cases i 24).
  - rewrite !(Z.testbit_neg_r _ (i - 24)) by lia. by rewrite ?andb_false_r.
  - rewrite Z.shiftr_spec by lia. by replace (i - 24 + 24) with i by lia.
Qed.

(** The components of a contributed pixel are those of the table. *)
Lemma contribution_components p f : 0 <= f < 64 ->
  let q := apply_contribution p f in
  Z.land (Z.shiftr q 16) 255 = contribution_lut f (Z.land (Z.shiftr p 16) 255) /\
  Z.land (Z.shiftr q 8) 255 = contribution_lut f (Z.land (Z.shiftr p 8) 255) /\
  Z.land q 255 = contribution_lut f (Z.land p 255).
Proof.
  intros Hf q. subst q. unfold apply_contribution. cbv zeta.
  assert (Z.land f 63 = f) as ->.
  { change 63 with (Z.ones 6). rewrite Z.land_ones by done. by apply Z.mod_small. }
  rewrite top_byte. set (t := Z.land (Z.shiftr p 24) 255).
  set (r := contribution_lut f _). set (g := contribution_lut f (Z.land (Z.shiftr p 8) 255)).
  set (b := contribution_lut f (Z.land p 255)).
  assert (is_u8 r /\ is_u8 g /\ is_u8 b) as (Hr & Hg & Hb) by (split_and!; apply saturate_u8).
  rewrite bytes_word by done. clearbody t r g b. unfold is_word in *. change (2 ^ 8) with 256 in *.
  change 255 with (Z.ones 8). rewrite !Z.land_ones, !Z.shiftr_div_pow2 by done.
  change (2 ^ 8) with 256. change (2 ^ 16) with 65536. zlia.
Qed.

Lemma clamp_u8 x : is_u8 x -> (if x <? 0 then 0 else if 255 <? x then 255 else x) = x.
Proof. unfold is_word. change (2 ^ 8) with 256. intros H. by destruct (Z.ltb_spec x 0), (Z.ltb_spec 255 x); lia || done. Qed.
Lemma channel_lut c f : channel c f = contribution_lut f c.
Proof. done. Qed.

Lemma or_opaque p r g b :
  Z.lor (Z.lor (Z.lor (Z.lor (Z.land p 0xFF000000) r) g) b) 0xFF000000 =
  Z.lor (Z.lor (Z.lor 0xFF000000 b) g) r.
Proof.
  apply Z.bits_inj'. intros i Hi. rewrite !Z.lor_spec, Z.land_spec.
  by destruct (Z.testbit p i), (Z.testbit 0xFF000000 i), (Z.testbit r i), (Z.testbit g i), (Z.testbit b i).
Qed.
Lemma or_argb r g b : Z.lor (Z.lor (Z.lor 0xFF000000 b) g) r = Z.lor (Z.lor (Z.lor 0xFF000000 r) g) b.
Proof.
  apply Z.bits_inj'. intros i Hi. rewrite !Z.lor_spec.
  by destruct (Z.testbit 0xFF000000 i), (Z.testbit r i), (Z.testbit g i), (Z.testbit b i).
Qed.

(** The fields of a control word. *)
Lemma one_layer f : 0 <= f < 64 ->
  let c := Z.lor 1 (Z.shiftl f 2) in Z.land c 3 = 1 /\ Z.land (Z.shiftr c 2) 63 = f.
Proof.
  intros Hf c. subst c. rewrite Z.lor_comm, lor_shiftl_add by (done || (unfold is_word; change (2 ^ 2) with 4; lia)).
  change 3 with (Z.ones 2). change 63 with (Z.ones 6). rewrite !Z.land_ones, Z.shiftr_div_pow2 by done.
  change (2 ^ 2) with 4. change (2 ^ 6) with 64. zlia.
Qed.
Lemma two_layers f g : 0 <= f < 64 -> 0 <= g < 64 ->
  let c := Z.lor (Z.lor 2 (Z.shiftl f 2)) (Z.shiftl g 8) in
  Z.land c 3 = 2 /\ Z.land (Z.shiftr c 2) 63 = f /\ Z.land (Z.shiftr c 8) 63 = g.
Proof.
  intros Hf Hg c. subst c. rewrite (Z.lor_comm 2), lor_shiftl_add by (done || (unfold is_word; change (2 ^ 2) with 4; lia)).
  change (2 ^ 2) with 4. rewrite Z.lor_comm, lor_shiftl_add by (done || (unfold is_word; change (2 ^ 8) with 256; lia)).
  change 3 with (Z.ones 2). change 63 with (Z.ones 6). rewrite !Z.land_ones, !Z.shiftr_div_pow2 by done.
  change (2 ^ 2) with 4. change (2 ^ 6) with 64. change (2 ^ 8) with 256. zlia.
Qed.

Definition factors_ok (m : MatteState) : Prop := 0 <= factor0 m < 64 /\ 0 <= factor1 m < 64.

Lemma color_one raw f : 0 <= f < 64 ->
  cdi_raster_color (mkSpan 0 raw 0 (Z.lor 1 (Z.shiftl f 2))) = Z.lor (apply_contribution raw f) 0xFF000000.
Proof.
  intros Hf. destruct (one_layer f Hf) as [E1 E2]. unfold cdi_raster_color, color_channel. cbn [control span_a span_b foldl].
  rewrite E1, E2. change (1 =? 0) with false. change (1 =? 2) with false. cbv iota zeta.
  rewrite !channel_lut, !clamp_u8 by apply saturate_u8. unfold apply_contribution. cbv zeta.
  assert (Z.land f 63 = f) as ->.
  { change 63 with (Z.ones 6). rewrite Z.land_ones by done. by apply Z.mod_small. }
  by rewrite or_opaque, Z.shiftr_0_r, Z.shiftl_0_r.
Qed.

Lemma color_two raw_a raw_b f g : 0 <= f < 64 -> 0 <= g < 64 ->
  cdi_raster_color (mkSpan 0 raw_a raw_b (Z.lor (Z.lor 2 (Z.shiftl f 2)) (Z.shiftl g 8))) =
  add_planes (apply_contribution raw_a f) (apply_contribution raw_b g).
Proof.
  intros Hf Hg. destruct (two_layers f g Hf Hg) as (E1 & E2 & E3).
  destruct (contribution_components raw_a f Hf) as (A1 & A2 & A3).
  destruct (contribution_components raw_b g Hg) as (B1 & B2 & B3).
  unfold add_planes. rewrite A1, A2, A3, B1, B2, B3.
  unfold cdi_raster_color, color_channel. cbn [control span_a span_b foldl].
  rewrite E1, E2, E3. change (2 =? 0) with false. change (2 =? 2) with true. cbv iota zeta.
  rewrite !channel_lut, !Z.shiftr_0_r, Z.shiftl_0_r. unfold argb. rewrite or_argb.
  unfold saturate. by rewrite !Z.add_sub_assoc.
Qed.

(** The colour of the captured layers is the pixel composed. *)
Lemma layers_color r raw_a raw_b m flat : factors_ok m ->
  let d := compose_pixel r raw_a raw_b m in
  flat = yrgb_color (backdrop r) ->
  let '(a, b, c) := layers r raw_a raw_b m (d_verdict d) flat in
  cdi_raster_color (mkSpan 0 a b c) = d_pixel d.
Proof.
  intros [H0 H1] d ->. subst d. unfold compose_pixel. cbv zeta.
  destruct (mixing r), (plane_b_front r) eqn:Ef,
    (transparent_pixel (plane_a r) raw_a _ _), (transparent_pixel (plane_b r) raw_b _ _);
    cbn [negb andb d_verdict d_pixel]; unfold layers; rewrite Ef; cbn -[cdi_raster_color apply_contribution add_planes];
    (apply color_one; done) || (apply color_two; done) || done.
Qed.

(** * A line *)
Lemma apply_matte_factors r x m : factors_ok m -> factors_ok (apply_matte_commands r x m).
Proof.
  assert (forall fuel mc f0 f1, 0 <= f0 < 64 -> 0 <= f1 < 64 ->
    let '(_, g0, g1) := matte_loop r x fuel mc f0 f1 in 0 <= g0 < 64 /\ 0 <= g1 < 64) as Hloop.
  { induction fuel as [|fuel IH]; intros mc f0 f1 H0 H1; cbn [matte_loop]; [done|].
    destruct (_ <? _)%nat; [|done]. cbv zeta. destruct (x <? _); [done|]. destruct (_ =? 0); [done|].
    assert (0 <= Z.land (Z.shiftr (lget (matte_command r) (Z.of_nat (next mc))) 10) 63 < 64) as Hv.
    { change 63 with (Z.ones 6). rewrite Z.land_ones by done. by apply Z.mod_pos_bound. }
    apply IH; by destruct (one_of _ _). }
  intros [H0 H1]. unfold apply_matte_commands.
  pose proof (Hloop 8%nat (matte0 m) _ _ H0 H1) as L0. destruct (matte_loop r x 8 (matte0 m) _ _) as [[m0 f0] f1].
  destruct L0 as [G0 G1]. pose proof (Hloop 8%nat (matte1 m) _ _ G0 G1) as L1.
  by destruct (matte_loop r x 8 (matte1 m) f0 f1) as [[m1 g0] g1].
Qed.

Lemma initialize_factors r : 0 <= contribution (plane_a r) < 64 -> 0 <= contribution (plane_b r) < 64 ->
  factors_ok (initialize_matte_state r).
Proof.
  intros Ha Hb. unfold initialize_matte_state. cbv zeta.
  destruct (two_mattes r); [done|]. by destruct (z2b _).
Qed.

Section Line.
Context (r : VideoRegisters) (w : Z) (Hw : 0 < w <= 768).

(** One more span of the composition. *)
Definition draws (width : Z) (x e : Z) (ra rb : Z) (m : MatteState) (spans : list CdiRasterSpan) : list CdiRasterSpan :=
  let d := compose_pixel r ra rb m in
  let '(a, b, c) := layers r ra rb m (d_verdict d) (yrgb_color (backdrop r)) in append width x e a b c spans.

Lemma flat_layers ra rb m : let d := compose_pixel r ra rb m in
  layers r ra rb m (d_verdict d) (d_pixel d) = layers r ra rb m (d_verdict d) (yrgb_color (backdrop r)).
Proof.
  cbv zeta. unfold compose_pixel. cbv zeta.
  destruct (mixing r), (plane_b_front r), (transparent_pixel (plane_a r) ra _ _), (transparent_pixel (plane_b r) rb _ _); done.
Qed.

Lemma capture_pixel_pending x ra rb m s : enabled s = true ->
  capture_pixel r x ra rb m s = set_pending (draws (width s) x (x + 1) ra rb m (pending s)) s.
Proof.
  intros He. unfold capture_pixel, draws. destruct (layers _ _ _ _ _ _) as [[a b] c].
  unfold cdi_raster_span. by rewrite He.
Qed.
Lemma capture_span_pending x e ra rb m s : enabled s = true ->
  capture_span r x e ra rb m s = set_pending (draws (width s) x e ra rb m (pending s)) s.
Proof.
  intros He. unfold capture_span, draws. rewrite span_pixel_compose, flat_layers.
  destruct (layers _ _ _ _ _ _) as [[a b] c]. unfold cdi_raster_span. by rewrite He.
Qed.

Lemma draws_spec x e ra rb m spans : factors_ok m -> tiles 0 spans x -> x < e <= w ->
  tiles 0 (draws w x e ra rb m spans) e /\
  forall y, 0 <= y < e -> color_at (draws w x e ra rb m spans) y =
    if y <? x then color_at spans y else d_pixel (compose_pixel r ra rb m).
Proof.
  intros Hm Ht He. unfold draws. pose proof (layers_color r ra rb m _ Hm eq_refl) as Hc. cbv zeta in Hc.
  destruct (layers _ _ _ _ _ _) as [[a b] c]. rewrite append_tiles by (done || lia). rewrite <- Hc.
  apply put_span_spec; [done|lia].
Qed.
Lemma draws_merge x mid e ra rb m spans : tiles 0 spans x -> x < mid -> mid < e -> e <= w -> factors_ok m ->
  draws w mid e ra rb m (draws w x mid ra rb m spans) = draws w x e ra rb m spans.
Proof.
  intros Ht H1 H2 H3 Hm. destruct (draws_spec x mid ra rb m spans Hm Ht) as [Ht' _]; [lia|].
  unfold draws in *. destruct (layers _ _ _ _ _ _) as [[a b] c].
  rewrite (append_tiles w mid) by (done || lia). rewrite !append_tiles by (done || lia).
  apply put_span_merge; (done || lia).
Qed.

(** The spans of [n] pixels from [x] on. *)
Fixpoint draws_pixels (row_a row_b : list Z) (n : nat) (x : Z) (m : MatteState) (spans : list CdiRasterSpan)
    : list CdiRasterSpan :=
  match n with
  | O => spans
  | S n' =>
    let m := apply_matte_commands r x m in
    draws_pixels row_a row_b n' (x + 1) m (draws w x (x + 1) (lget row_a x) (lget row_b x) m spans)
  end.

Lemma set_pending_twice l l' s : set_pending l (set_pending l' s) = set_pending l s.
Proof. done. Qed.

Lemma capture_pixels_pending row_a row_b n : forall x m s, enabled s = true -> width s = w ->
  capture_pixels r row_a row_b n x m s = set_pending (draws_pixels row_a row_b n x m (pending s)) s.
Proof.
  induction n as [|n IH]; intros x m s He Hs; cbn [capture_pixels draws_pixels]; [by destruct s|].
  rewrite capture_pixel_pending, Hs by done. by rewrite IH.
Qed.

Lemma draws_pixels_spec row_a row_b n : forall x m spans,
  factors_ok m -> 0 <= x -> x + Z.of_nat n <= w -> tiles 0 spans x ->
  tiles 0 (draws_pixels row_a row_b n x m spans) (x + Z.of_nat n) /\
  forall y, 0 <= y < x + Z.of_nat n -> color_at (draws_pixels row_a row_b n x m spans) y =
    if y <? x then color_at spans y else lget (d_pixel <$> compose_pixels r row_a row_b n x m) (y - x).
Proof.
  induction n as [|n IH]; intros x m spans Hm Hx Hn Ht; cbn [draws_pixels].
  - rewrite Z.add_0_r. split; [done|]. intros y Hy. by replace (y <? x) with true by lia.
  - cbv zeta. pose proof (apply_matte_factors r x m Hm) as Hm'. set (m' := apply_matte_commands r x m) in *.
    destruct (draws_spec x (x + 1) (lget row_a x) (lget row_b x) m' spans Hm' Ht) as [T1 C1]; [lia|].
    destruct (IH (x + 1) m' _ Hm' ltac:(lia) ltac:(lia) T1) as [T2 C2].
    replace (x + Z.of_nat (S n)) with (x + 1 + Z.of_nat n) by lia. split; [done|].
    intros y Hy. rewrite (C2 y Hy). cbn [compose_pixels]. cbv zeta. fold m'.
    destruct (Z.ltb_spec y (x + 1)).
    + rewrite C1 by lia. destruct (Z.ltb_spec y x); [done|]. by replace (y - x) with 0 by lia.
    + replace (y <? x) with false by lia. rewrite fmap_cons. unfold lget.
      replace (Z.to_nat (y - x)) with (S (Z.to_nat (y - (x + 1)))) by lia. done.
Qed.

(** ** The fused job *)
Lemma draws_run row_a row_b ca cb m x0 n k spans : factors_ok m -> tiles 0 spans x0 ->
  forall x, x0 < x -> x + Z.of_nat n <= w ->
  (forall y, x <= y < x + Z.of_nat n -> lget row_a y = ca /\ lget row_b y = cb /\ both_settled r y m) ->
  draws_pixels row_a row_b (n + k) x m (draws w x0 x ca cb m spans) =
  draws_pixels row_a row_b k (x + Z.of_nat n) m (draws w x0 (x + Z.of_nat n) ca cb m spans).
Proof.
  intros Hm Ht. induction n as [|n IH]; intros x Hx Hn Hc; [by rewrite Z.add_0_r|].
  cbn [Nat.add draws_pixels]. cbv zeta. destruct (Hc x) as (Ea & Eb & Hs); [lia|].
  rewrite (apply_matte_id r _ _ Hs), Ea, Eb, draws_merge by (done || lia).
  rewrite IH; [|lia|lia|intros y Hy; apply Hc; lia].
  by replace (x + 1 + Z.of_nat n) with (x + Z.of_nat (S n)) by lia.
Qed.

(** A span of one colour under settled mattes, put at once or pixel by pixel. *)
Lemma draws_span row_a row_b ca cb m x e spans : factors_ok m -> tiles 0 spans x -> x < e <= w ->
  let m' := apply_matte_commands r x m in
  (forall y, x <= y < e -> lget row_a y = ca /\ lget row_b y = cb /\ both_settled r y m') ->
  draws_pixels row_a row_b (Z.to_nat (w - x)) x m spans =
  draws_pixels row_a row_b (Z.to_nat (w - e)) e m' (draws w x e ca cb m' spans).
Proof.
  intros Hm Ht He m' Hc. pose proof (apply_matte_factors r x m Hm) as Hm'. fold m' in Hm'.
  replace (Z.to_nat (w - x)) with (S (Z.to_nat (e - x - 1) + Z.to_nat (w - e)))%nat by lia.
  cbn [draws_pixels]. cbv zeta. fold m'. destruct (Hc x) as (-> & -> & Hs); [lia|].
  rewrite draws_run; [|done|done|lia|lia|intros y Hy; apply Hc; lia].
  by replace (x + 1 + Z.of_nat (Z.to_nat (e - x - 1))) with e by lia.
Qed.

Lemma capture_loop_pending f buffer na nb fin_a fin_b offset fuel : byte_fetch f -> forall x j s,
  scans f r w na nb fin_a fin_b x j -> x <= w -> w - x <= Z.of_nat fuel -> factors_ok (mattes j) ->
  enabled s = true -> width s = w -> tiles 0 (pending s) x ->
  capture_loop r w f buffer offset fuel x j s =
  Some (set_pending (draws_pixels fin_a fin_b (Z.to_nat (w - x)) x (mattes j) (pending s)) s).
Proof.
  intros Hf. induction fuel as [|fuel IH]; intros x j s Hj Hx Hfuel Hm He Hs Ht; cbn [capture_loop].
  - assert (x = w) as -> by lia. rewrite Z.ltb_irrefl, Z.sub_diag. by destruct s.
  - destruct (Z.ltb_spec x w).
    2: { assert (x = w) as -> by lia. rewrite Z.sub_diag. by destruct s. }
    destruct (scanout_step_scans f r w buffer Hf ltac:(lia) na nb fin_a fin_b offset x j Hj) as
      (e & j' & -> & Hj' & Hex & Em & _ & Hcol); [done|].
    cbn [mbind option_bind fst snd]. rewrite capture_span_pending, Hs by done. rewrite Em in *.
    pose proof (apply_matte_factors r x _ Hm) as Hm'.
    destruct (draws_spec x e (src_color (sc_a j')) (src_color (sc_b j')) (apply_matte_commands r x (mattes j))
                (pending s) Hm' Ht Hex) as [T _].
    rewrite (IH e j'); [|done|lia|lia|by rewrite Em|done|done|done]. rewrite Em.
    cbn [pending set_pending set_line]. rewrite (draws_span _ _ (src_color (sc_a j')) (src_color (sc_b j')) _ x e) by done.
    done.
Qed.

(** ** The cursor *)

(** The spans show what the frame shows. *)
Definition shows (at_ : Z) (spans : list CdiRasterSpan) (m : mem) : Prop :=
  tiles 0 spans w /\ forall y, 0 <= y < w -> color_at spans y = mget m (at_ + y).

Definition writes_at (at_ : Z) (m : mem) (l : list (Z * Z)) : mem :=
  foldl (fun m '(x, color) => mset m (at_ + x) color) m l.

Lemma writes_at_get at_ color first scale : 0 <= first -> 0 <= scale -> forall m y,
  0 <= y < w ->
  mget (writes_at at_ m ((fun x => (x, color)) <$> filter (fun x => x < w) (seqZ first scale))) (at_ + y) =
  over first (first + scale) color (fun y => mget m (at_ + y)) y.
Proof.
  intros Hfirst Hscale. assert (exists k, scale = Z.of_nat k) as [k ->] by (exists (Z.to_nat scale); lia).
  clear Hscale. revert first Hfirst. unfold over. induction k as [|k IH]; intros first Hfirst m y Hy.
  - rewrite seqZ_nil by lia. by destruct (Z.leb_spec first y), (Z.ltb_spec y (first + Z.of_nat 0)); [lia|..].
  - rewrite seqZ_cons by lia. replace (Z.pred (Z.of_nat (S k))) with (Z.of_nat k) by lia.
    replace (Z.succ first) with (first + 1) by lia. rewrite filter_cons.
    destruct (decide (first < w)) as [Hlt|Hge].
    + cbn [fmap list_fmap writes_at foldl]. fold (writes_at at_).
      change (foldl _ ?m0 ?l) with (writes_at at_ m0 l). rewrite IH by lia.
      rewrite mget_mset. destruct (Z.eqb_spec (at_ + first) (at_ + y)).
      * assert (y = first) as -> by lia. destruct (Z.leb_spec (first + 1) first); [lia|].
        destruct (Z.leb_spec first first), (Z.ltb_spec first (first + Z.of_nat (S k))); cbn [andb]; lia || done.
      * destruct (Z.leb_spec (first + 1) y), (Z.leb_spec first y),
          (Z.ltb_spec y (first + 1 + Z.of_nat k)), (Z.ltb_spec y (first + Z.of_nat (S k))); cbn [andb]; lia || done.
    + rewrite IH by lia.
      destruct (Z.leb_spec (first + 1) y), (Z.leb_spec first y),
          (Z.ltb_spec y (first + 1 + Z.of_nat k)), (Z.ltb_spec y (first + Z.of_nat (S k))); cbn [andb]; lia || done.
Qed.

Lemma foldl_bind {A B C} (g : C -> B -> C) (h : A -> list B) (l : list A) : forall c,
  foldl g c (l ≫= h) = foldl (fun c x => foldl g c (h x)) c l.
Proof.
  induction l as [|x l IH]; intros c; [done|]. cbn [mbind list_bind foldl].
  rewrite foldl_app. apply IH.
Qed.

Lemma capture_cursor_shows fld at_ line s m : 0 <= cursor_x (cursor r) -> enabled s = true -> width s = w ->
  shows at_ (pending s) m ->
  exists spans, capture_cursor r fld line s = set_pending spans s /\
    shows at_ spans (writes_at at_ m (cursor_writes r w line fld)).
Proof.
  intros Hx He Hs Hsh. unfold capture_cursor, cursor_writes. cbv zeta.
  destruct (negb _ || _ || _); [exists (pending s); split; [by destruct s|done]|].
  destruct (cursor_color_at r fld) as [color|]; [|exists (pending s); split; [by destruct s|done]].
  unfold writes_at. rewrite foldl_bind. set (bits := lget _ _). set (scale := if high_resolution _ then _ else _).
  assert (0 < scale) as Hscale by (subst scale; by destruct (high_resolution _)). clearbody bits scale.
  assert (Forall (fun c => 0 <= c) (seqZ 0 16)) as Hcols.
  { apply Forall_forall. intros c Hc. apply elem_of_seqZ in Hc. lia. }
  revert s m He Hs Hsh. induction (seqZ 0 16) as [|column columns IH]; intros s m He Hs Hsh; cbn [foldl].
  - exists (pending s). split; [by destruct s|done].
  - apply Forall_cons in Hcols as [Hcol Hcols]. destruct (z2b (Z.land bits (Z.shiftr 0x8000 column))); cbn [negb].
    + set (first := cursor_x (cursor r) + column * scale). assert (0 <= first) as Hfirst by (subst first; nia).
      unfold cdi_raster_overlay. rewrite He, Hs. destruct Hsh as [Ht Hc].
      destruct (overlay_spans_spec w first (first + scale) color (pending s)) as [T C]; [lia|lia|done|].
      set (s1 := set_pending _ s).
      set (m1 := writes_at at_ m ((fun x => (x, color)) <$> filter (fun x => x < w) (seqZ first scale))).
      destruct (IH Hcols s1 m1) as (spans & E & Hshow); [done|done| |exists spans; by split].
      split; [exact T|]. intros y Hy. cbn [pending set_pending set_line s1]. rewrite (C y Hy).
      subst m1. rewrite (writes_at_get at_ color first scale) by lia. unfold over.
      destruct (_ && _); [done|]. by apply Hc.
    + cbn [foldl]. by apply IH.
Qed.
End Line.

(** ** The line *)
Lemma length_composed r row_a row_b n x m : length (compose_pixels r row_a row_b n x m) = n.
Proof. revert x m. induction n as [|n IH]; intros x m; [done|]. cbn. by rewrite IH. Qed.

Lemma composed_get r w buffer fld h line row_a row_b f : 0 <= w -> line < h ->
  frame_of buffer (compose_line r w buffer fld h line row_a row_b f) =
  writes_at (line * w) (mstore (frame_of buffer f) (line * w)
    (d_pixel <$> compose_pixels r row_a row_b (Z.to_nat w) 0 (initialize_matte_state r)))
    (cursor_writes r w line fld).
Proof.
  intros Hw Hl. unfold compose_line, draw_cursor, put_drawn. cbv zeta. replace (h <=? line) with false by lia.
  by destruct buffer.
Qed.

Lemma captured_line_shows r w fld h line row_a row_b s : at_rest s -> enabled s = true ->
  0 < w <= 768 -> 0 <= line < h -> h <= 560 -> 0 <= cursor_x (cursor r) ->
  0 <= contribution (plane_a r) < 64 -> 0 <= contribution (plane_b r) < 64 ->
  exists s', captured_line r w fld h line row_a row_b s = Some s' /\ at_rest s' /\
    (enabled s' = true -> exists spans, holds_row s' (Z.to_nat line) spans /\
       forall buffer f, shows w (line * w) spans
         (frame_of buffer (compose_line r w buffer fld h line row_a row_b f))).
Proof.
  intros [HW Ho] He Hw Hl Hh Hx Ha Hb. unfold captured_line. replace (line <? h) with true by lia.
  replace (h <=? line) with false by lia.
  destruct (begin_fine line w h s HW) as (s1 & -> & _ & HW1 & Ho1 & Hs1). cbn [mbind option_bind].
  destruct (Hs1 He) as [He1 Ew Eh Er Ep].
  pose proof (capture_pixels_pending r w row_a row_b (Z.to_nat w) 0 (initialize_matte_state r) s1 He1 Ew) as Epx.
  destruct (draws_pixels_spec r w Hw row_a row_b (Z.to_nat w) 0 (initialize_matte_state r) (pending s1))
    as [T C]; [by apply initialize_factors|lia|lia|by rewrite Ep|]. rewrite Z2Nat.id, Z.add_0_l in T, C by lia.
  set (spans0 := draws_pixels _ _ _ _ _ _ _ _) in *.
  assert (forall m, shows w (line * w) spans0 (mstore m (line * w)
    (d_pixel <$> compose_pixels r row_a row_b (Z.to_nat w) 0 (initialize_matte_state r)))) as Hshow0.
  { intros m. split; [done|]. intros y Hy. rewrite (C y Hy). replace (y <? 0) with false by lia.
    rewrite mget_mstore, length_fmap, length_composed.
    replace (line * w <=? line * w + y) with true by lia.
    rewrite Z2Nat.id by lia. replace (line * w + y <? line * w + w) with true by lia.
    unfold lget. f_equal. lia. }
  rewrite Epx. set (s2 := set_pending spans0 s1). set (s3 := capture_cursor r fld line s2).
  assert (forall m, s3 = set_pending (pending s3) s2 /\
    shows w (line * w) (pending s3) (writes_at (line * w) (mstore m (line * w)
      (d_pixel <$> compose_pixels r row_a row_b (Z.to_nat w) 0 (initialize_matte_state r)))
      (cursor_writes r w line fld))) as Hcur.
  { intros m. destruct (capture_cursor_shows r w Hw fld (line * w) line s2 _ Hx He1 Ew (Hshow0 m)) as (spans & E & Hs).
    subst s3. rewrite E. done. }
  destruct (Hcur ∅) as [E3 _]. destruct (finish_fine s3) as (s' & Es' & _ & HW' & Ho' & Hpost).
  { rewrite E3. destruct HW1. by constructor. }
  exists s'. split; [done|]. split.
  - split; [done|]. apply Ho'. apply enabled_off. by rewrite E3.
  - intros He'. destruct (Hpost He') as (_ & _ & Hholds). exists (pending s3). split.
    + assert (current_row s3 = line) as Ecur by (by rewrite E3). assert (height s3 = h) as Eh3 by (by rewrite E3).
      rewrite Ecur, Eh3 in Hholds. apply Hholds; [|lia|lia].
      destruct (Hcur ∅) as [_ [Ht _]]. intros E. rewrite E in Ht. cbn in Ht. lia.
    + intros buffer f. rewrite composed_get by lia. apply Hcur.
Qed.

(** C7. A captured line is the line that was drawn, in either build.  Whenever
    the reference can draw a line, the fused job and the reference composition
    capture the same spans, and neither ever reaches freed memory.  Unless
    memory ran out, which ends the capture, the row then held for the line
    shows, once its layers are mixed, exactly the pixels the composition put in
    the frame, the cursor included; and these spans cover the row without gap
    or overlap, so that they are never more than its pixels. *)
Theorem captured_line_is_drawn schedule failures calls s ram0 ram1 r w buffer fld h address_a address_b
    line wa wb old_a old_b f ua ub fin_a fin_b :
  let fetch := dram_byte ram0 ram1 in
  Forall call_ok calls -> run calls (start schedule failures) = Some s -> enabled s = true ->
  0 < w <= 768 -> 0 <= line < h -> h <= 560 -> 0 <= wa -> 0 <= wb ->
  length old_a = 768%nat -> length old_b = 768%nat -> 0 <= cursor_x (cursor r) ->
  0 <= contribution (plane_a r) < 64 -> 0 <= contribution (plane_b r) < 64 ->
  decode_planes fetch r w address_a address_b wa wb = Some (ua, ub, fin_a, fin_b) ->
  exists s', captured_line r w fld h line fin_a fin_b s = Some s' /\
    captured_job r w fld fetch buffer h address_a address_b line wa wb old_a old_b f s = Some s' /\
    (enabled s' = true -> exists spans, holds_row s' (Z.to_nat line) spans /\ tiles 0 spans w /\
       forall x pixels, 0 <= x < w ->
         mget (paint_row (line * w) spans pixels) (line * w + x) =
         mget (frame_of buffer (compose_line r w buffer fld h line fin_a fin_b f)) (line * w + x)).
Proof.
  intros fetch Hcalls Hrun He Hw Hl Hh Hwa Hwb Hla Hlb Hx Ha Hb Hdec.
  assert (at_rest s) as Hrest.
  { destruct (run_fine calls _ Hcalls (start_at_rest schedule failures)) as (s0 & E & _ & Hr). congruence. }
  destruct (captured_line_shows r w fld h line fin_a fin_b s Hrest He Hw Hl Hh Hx Ha Hb) as (s' & E & _ & Hshow).
  exists s'. split; [done|]. split.
  - rewrite <- E. unfold captured_line, captured_job.
    replace (line <? h) with true by lia. replace (h <=? line) with false by lia.
    destruct Hrest as [HW _]. destruct (begin_fine line w h s HW) as (s1 & -> & _ & _ & _ & Hs1).
    cbn [mbind option_bind]. destruct (Hs1 He) as [He1 Ew Eh Er Ep].
    destruct (decode_planes_inv _ _ _ _ _ _ _ _ _ _ _ Hdec) as (na & ra & rb & Da & Db & Hra & Hrb & _).
    assert (byte_fetch fetch) as Hf by apply dram_byte_fetch.
    destruct (scanout_source_tracks fetch r w Hf ltac:(lia) _ _ _ _ _ _ _ _ Da Hra Hla Hwa) as (sa & nowa & -> & Ta).
    destruct (scanout_source_tracks fetch r w Hf ltac:(lia) _ _ _ _ _ _ _ _ Db Hrb Hlb Hwb) as (sb & nowb & -> & Tb).
    cbn [mbind option_bind fst snd].
    rewrite (capture_loop_pending r w Hw fetch buffer na ub fin_a fin_b (line_offset w line) (Z.to_nat w) Hf);
      [|by constructor; [..|apply initialize_mattes_ok]|lia|lia|by apply initialize_factors|done|done|by rewrite Ep].
    cbn [mbind option_bind mattes]. rewrite Z.sub_0_r.
    by rewrite (capture_pixels_pending r w) by done.
  - intros He'. destruct (Hshow He') as (spans & Hrow & Hs). exists spans. split; [done|].
    destruct (Hs buffer f) as [Ht Hc]. split; [done|]. intros x pixels Hx0.
    rewrite (paint_row_get _ _ 0 w) by done. by apply Hc.
Qed.

(** A run-length plane under a matte and a cursor, captured by both builds. *)
Lemma captured_line_is_drawn_witness :
  let r := set_mattes [0; 0x900001; 0; 0; 0; 0; 0; 0] (sample_registers CODING_CLUT7 FILE_RUN_LENGTH) in
  let r := upd_plane 0 (set_hold_enabled false) (upd_plane 1 (set_coding CODING_OFF) r) in
  let r := set_cursor (mkCursor 1 0 (0x8000 :: replicate 15 0) true 15 false false 0 0 0) r in
  let ram0 := mstore ∅ 0 [0x81; 0] in
  let f := dram_byte ram0 ∅ in
  let row := replicate 768 0 in
  match run [Capture true] (start [] []), decode_planes f r 4 0 0x200000 2 2 with
  | Some s, Some (ua, ub, fin_a, fin_b) =>
    exists s', captured_line r 4 0 1 0 fin_a fin_b s = Some s' /\
      captured_job r 4 0 f false 1 0 0x200000 0 2 2 row row (mkBuffers ∅ ∅ ∅ ∅ ∅) s = Some s' /\
      map_to_list (row_spans <$> row_heap (shared s')) =
        [(1%positive, [mkSpan (Z.lor 0 (Z.shiftl 1 16)) 0xFF000000 0 0; mkSpan (Z.lor 1 (Z.shiftl 3 16)) 0xFFFFFFFF 0 0;
                       mkSpan (Z.lor 3 (Z.shiftl 4 16)) 0xFF000000 0 0])]
  | _, _ => False
  end.
Proof.
  intros r0 r1 r ram0 f row.
  destruct (run [Capture true] (start [] [])) as [s|] eqn:Es; [|vm_compute in Es; discriminate].
  destruct (decode_planes f r 4 0 0x200000 2 2) as [[[[ua ub] fin_a] fin_b]|] eqn:E;
    [|vm_compute in E; discriminate].
  assert (enabled s = true) as He by (vm_compute in Es; by injection Es as <-).
  destruct (captured_line_is_drawn [] [] [Capture true] s ram0 ∅ r 4 false 0 1 0 0x200000 0 2 2 row row
    (mkBuffers ∅ ∅ ∅ ∅ ∅) ua ub fin_a fin_b) as (s' & E1 & E2 & _);
    [by repeat constructor|exact Es|exact He|lia|lia|lia|lia|lia|reflexivity|reflexivity|vm_compute; congruence
    |vm_compute; split; congruence|vm_compute; split; congruence|exact E|].
  exists s'. split; [exact E1|]. split; [exact E2|].
    vm_compute in E. injection E as <- <- <- <-. vm_compute in Es. injection Es as <-.
    vm_compute in E1. injection E1 as <-. vm_compute. reflexivity.
Defined.
