(* ===== verification/Entries.v ===== *)
(** The entries of an OS-9 module (recompiler/src/module_entries.c): the fixed
    entries of a program, and the table of exports of a subroutine module.

    The routine reads a buffer it did not write. A read is therefore partial
    here, and a run has three ends: a value, the routine's [-1], or a stray read
    outside the buffer, which C leaves undefined. *)

From Stdlib Require Import ZArith Lia Bool.
From stdpp Require Import base tactics numbers list.
From S2P Require Import Prelude.
Open Scope Z_scope.

(** * Ends of a run *)
Inductive Outcome (A : Type) :=
| Done (a : A)
| Refused  (* the routine returns -1 *)
| Stray.   (* a read outside the buffer, or turns of a loop exhausted *)
Arguments Done {_} _.
Arguments Refused {_}.
Arguments Stray {_}.

#[export] Instance outcome_ret : MRet Outcome := @Done.
#[export] Instance outcome_bind : MBind Outcome := fun A B k m =>
  match m with Done a => k a | Refused => Refused | Stray => Stray end.
Definition refuse_if (b : bool) : Outcome unit := if b then Refused else Done tt.

Definition read8 (data : list Z) (i : Z) : Outcome Z :=
  if i <? 0 then Stray
  else match data !! Z.to_nat i with Some b => Done b | None => Stray end.

Definition be32 (data : list Z) (p : Z) : Outcome Z :=
  a ← read8 data p; b ← read8 data (p + 1); c ← read8 data (p + 2); d ← read8 data (p + 3);
  mret (Z.lor (Z.lor (Z.lor (u32 (Z.shiftl a 24)) (Z.shiftl b 16)) (Z.shiftl c 8)) d).

(** * The table of exports *)
Definition NAME_MAX : Z := 255.

(** The loop over a name, from [n]: where it stops. *)
Fixpoint name_end (data : list Z) (limit name : Z) (turns : nat) (n : Z) : Outcome Z :=
  if (n <? limit) && (n - name <? NAME_MAX) then
    match turns with
    | O => Stray
    | S turns' =>
      c ← read8 data n;
      if c =? 0 then Done n
      else
        _ ← refuse_if ((c <? 0x20) || (0x7E <? c));
        name_end data limit name turns' (u32 (n + 1))
    end
  else Done n.

(** What the loop over the table carries. *)
Record Exports := mkExports {
  pos : Z;
  end_ : Z;  (* past the last byte of metadata seen *)
  found : list Z;  (* the entries, in order *)
}.

(** One turn: the export at [pos], or the end of the table. *)
Definition export_step (data : list Z) (limit capacity : Z) (t : Exports) : Outcome (Exports * bool) :=
  _ ← refuse_if ((limit <? pos t) || (limit - pos t <? 8));
  name ← be32 data (pos t);
  code ← be32 data (pos t + 4);
  let pos := u32 (pos t + 8) in
  if (name =? 0) && (code =? 0) then Done (mkExports pos (end_ t) (found t), true)
  else
    _ ← refuse_if ((name =? 0) || (code =? 0) || (name <? 0x38) || (limit <=? name)
                   || z2b (Z.land code 1) || (code <? 0x38) || (limit <=? code)
                   || (Z.of_nat (length (found t)) =? capacity));
    n ← name_end data limit name (Z.to_nat NAME_MAX) name;
    _ ← refuse_if ((n =? name) || (n =? limit) || (n - name =? NAME_MAX));
    let end_ := if end_ t <? u32 (n + 1) then u32 (n + 1) else end_ t in
    Done (mkExports pos end_ (found t ++ [code]), false).

Fixpoint export_table (data : list Z) (limit capacity : Z) (turns : nat) (t : Exports) : Outcome Exports :=
  match turns with
  | O => Stray
  | S turns' =>
    '(t, last) ← export_step data limit capacity t;
    if last : bool then Done t else export_table data limit capacity turns' t
  end.

(** A turn takes eight bytes of the module. *)
Definition table_turns (limit : Z) : nat := Z.to_nat (limit / 8 + 1).

(** A program: its execution entry, and the exception entry when it has one. *)
Definition program_entries (data : list Z) (size capacity entry : Z) : Outcome (list Z * Z) :=
  let limit := size - 3 in
  _ ← refuse_if ((size <? 0x4B) || (entry <? 0x48));
  exception ← be32 data 0x34;
  if exception =? 0 then Done ([entry], 0x48)
  else
    _ ← refuse_if ((capacity <? 2) || z2b (Z.land exception 1) || (exception <? 0x48) || (limit <=? exception));
    Done ([entry; exception], 0x48).

(** A subroutine module: the codes of its table, none of them in the metadata. *)
Definition subroutine_entries (data : list Z) (size capacity entry : Z) : Outcome (list Z * Z) :=
  let limit := size - 3 in
  t ← export_table data limit capacity (table_turns limit) (mkExports entry entry []);
  _ ← refuse_if (Z.of_nat (length (found t)) =? 0);
  let end_ := if end_ t <? pos t then pos t else end_ t in
  _ ← refuse_if (existsb (fun e => e <? end_) (found t));
  Done (found t, end_).

(** The entries written to the caller's array and [*metadata_end]. *)
Definition cdi_module_entries (data : list Z) (size type : Z) (named_offset_pairs : bool) (capacity : Z)
    : Outcome (list Z * Z) :=
  _ ← refuse_if ((capacity <? 1) || (size <? 0x3B));
  let limit := size - 3 in
  entry ← be32 data 0x30;
  _ ← refuse_if (z2b (Z.land entry 1) || (entry <? 0x38) || (limit <=? entry));
  if type =? 1 then program_entries data size capacity entry
  else
    _ ← refuse_if (negb (type =? 2) || negb named_offset_pairs);
    subroutine_entries data size capacity entry.
