(* ===== verification/EntriesSpec.v ===== *)
(** What the entry parser promises: it never reads outside the module, whatever
    its bytes, and its answer is the table the bytes hold. *)

From Stdlib Require Import ZArith Lia Bool.
From stdpp Require Import base tactics numbers list.
From S2P Require Import Prelude Entries CrcSpec ShaSpec.
Open Scope Z_scope.

(** The long word at [p]. *)
Abbreviation word_at := Sha256.be32.

(** * Tables of exports *)

(** A name of printable characters from [name], with its zero at [n]. *)
Definition name_at (data : list Z) (limit name n : Z) : Prop :=
  name < n < limit /\ n - name < NAME_MAX /\ lget data n = 0 /\
  forall i, name <= i < n -> 0x20 <= lget data i <= 0x7E.

(** A place in the code of the module. *)
Definition code_offset (limit code : Z) : Prop := Z.land code 1 = 0 /\ 0x38 <= code < limit.

(** The table at [p]: the end of each name with the offset it exports, and the
    place after the closing pair of zeros. *)
Inductive table_at (data : list Z) (limit : Z) : Z -> list (Z * Z) -> Z -> Prop :=
| table_close p :
    p + 8 <= limit -> word_at data p = 0 -> word_at data (p + 4) = 0 -> table_at data limit p [] (p + 8)
| table_row p n rows q :
    p + 8 <= limit -> 0x38 <= word_at data p -> name_at data limit (word_at data p) n ->
    code_offset limit (word_at data (p + 4)) -> table_at data limit (p + 8) rows q ->
    table_at data limit p ((n, word_at data (p + 4)) :: rows) q.

(** Past the last byte of the table and of its names. *)
Definition metadata_of (rows : list (Z * Z)) (entry q : Z) : Z :=
  Z.max q (fold_left (fun e r => Z.max e (r.1 + 1)) rows entry).

(** * Reads *)
Lemma read8_in data i : 0 <= i < Z.of_nat (length data) -> read8 data i = Done (lget data i).
Proof.
  intros Hi. unfold read8, lget. destruct (Z.ltb_spec i 0); [lia|].
  destruct (lookup_lt_is_Some_2 data (Z.to_nat i) ltac:(lia)) as [b E]. rewrite E.
  by rewrite (nth_lookup_Some data _ 0 b E).
Qed.
Lemma be32_in data p : 0 <= p -> p + 4 <= Z.of_nat (length data) -> be32 data p = Done (word_at data p).
Proof.
  intros H0 H1. unfold be32. rewrite !read8_in by lia. reflexivity.
Qed.

Lemma refuse_done (b : bool) A (k : unit -> Outcome A) a :
  (x ← refuse_if b; k x) = Done a <-> b = false /\ k tt = Done a.
Proof. destruct b; cbn; intuition discriminate. Qed.
Lemma refuse_false A (k : unit -> Outcome A) : (x ← refuse_if false; k x) = k tt.
Proof. done. Qed.

Lemma ltb_max a b : (if a <? b then b else a) = Z.max a b.
Proof. destruct (Z.ltb_spec a b); lia. Qed.

Section Module.
Context (data : list Z) (size : Z) (Hu : Forall is_u8 data)
  (Hsize : is_u32 size) (Hlen : size <= Z.of_nat (length data)).
Let limit : Z := size - 3.

Lemma word_u32 p : is_u32 (word_at data p).
Proof.
  rewrite be32_word by done. pose proof (fun i => Forall_lget is_u8 data i Hu ltac:(unfold is_word; lia)) as Hb.
  unfold word_of_bytes. cbn [fold_left].
  pose proof (Hb p). pose proof (Hb (p + 1)). pose proof (Hb (p + 2)). pose proof (Hb (p + 3)).
  unfold is_word in *. lia.
Qed.

(** ** Names *)
Lemma name_end_sound name turns : forall n,
  0 <= name <= n -> n <= limit -> n - name + Z.of_nat turns = NAME_MAX ->
  match name_end data limit name turns n with
  | Stray => False
  | Refused => True
  | Done n' => n <= n' <= limit /\ n' - name <= NAME_MAX /\
      (n' <> limit -> n' - name <> NAME_MAX -> lget data n' = 0) /\
      forall i, n <= i < n' -> 0x20 <= lget data i <= 0x7E
  end.
Proof.
  induction turns as [|turns IH]; intros n Hn Hl Ht; cbn [name_end].
  - rewrite (proj2 (Z.ltb_ge _ NAME_MAX)), andb_false_r by lia. repeat split; lia.
  - destruct (Z.ltb_spec n limit); cbn [andb]; [|repeat split; lia].
    rewrite (proj2 (Z.ltb_lt _ NAME_MAX)), read8_in by (subst limit; lia). cbn [mbind outcome_bind].
    destruct (Z.eqb_spec (lget data n) 0); [repeat split; lia|].
    destruct (_ || _) eqn:Hc; cbn [refuse_if]; [done|].
    apply orb_false_iff in Hc as [Hc1 Hc2]. apply Z.ltb_ge in Hc1, Hc2.
    rewrite u32_id by (unfold is_word in *; subst limit; lia).
    specialize (IH (n + 1) ltac:(lia) ltac:(lia) ltac:(lia)). destruct (name_end _ _ _ _ _) as [n'| |]; [|done..].
    destruct IH as (H1 & H2 & H3 & H4). split; [lia|]. split; [lia|]. split; [done|].
    intros i Hi. destruct (Z.eq_dec i n) as [->|]; [lia|]. apply H4. lia.
Qed.

Lemma name_end_complete name n turns : forall k,
  0 <= name <= k -> k <= n -> name_at data limit name n -> n - k < Z.of_nat turns ->
  name_end data limit name turns k = Done n.
Proof.
  induction turns as [|turns IH]; intros k Hk Hkn Hn Ht; [lia|]. pose proof Hn as (H1 & H2 & H3 & H4).
  cbn [name_end]. rewrite (proj2 (Z.ltb_lt k limit)), (proj2 (Z.ltb_lt (k - name) NAME_MAX)) by lia. cbn [andb].
  rewrite read8_in by (subst limit; lia). cbn [mbind outcome_bind].
  destruct (Z.eq_dec k n) as [->|Hne]; [by rewrite H3|]. specialize (H4 k ltac:(lia)).
  rewrite (proj2 (Z.eqb_neq _ _)) by lia.
  rewrite (proj2 (Z.ltb_ge _ 0x20)), (proj2 (Z.ltb_ge 0x7E _)) by lia. cbn [orb refuse_if].
  rewrite u32_id by (unfold is_word in *; subst limit; lia). apply IH; [lia|lia|done|lia].
Qed.

(** ** Rows *)
Lemma step_sound capacity t :
  0 <= pos t <= limit ->
  match export_step data limit capacity t with
  | Stray => False
  | Refused => True
  | Done (t', true) => pos t + 8 <= limit /\ word_at data (pos t) = 0 /\ word_at data (pos t + 4) = 0 /\
      t' = mkExports (pos t + 8) (end_ t) (found t)
  | Done (t', false) => exists n, pos t + 8 <= limit /\ 0x38 <= word_at data (pos t) /\
      name_at data limit (word_at data (pos t)) n /\ code_offset limit (word_at data (pos t + 4)) /\
      Z.of_nat (length (found t)) <> capacity /\
      t' = mkExports (pos t + 8) (Z.max (end_ t) (n + 1)) (found t ++ [word_at data (pos t + 4)])
  end.
Proof.
  intros Hp. unfold export_step. rewrite (proj2 (Z.ltb_ge limit (pos t))) by lia.
  destruct (Z.ltb_spec (limit - pos t) 8); [done|]. cbn [orb refuse_if mbind outcome_bind].
  rewrite !be32_in by (subst limit; lia). cbn [mbind outcome_bind].
  pose proof (word_u32 (pos t)) as Hn. pose proof (word_u32 (pos t + 4)) as Hc.
  rewrite u32_id by (unfold is_word in *; subst limit; lia).
  destruct (_ && _) eqn:Hz.
  { apply andb_true_iff in Hz as [H1 H2]. apply Z.eqb_eq in H1, H2. split; [lia|]. done. }
  destruct (_ || _) eqn:Hb; [done|]. cbn [refuse_if mbind outcome_bind].
  rewrite !orb_false_iff, !Z.eqb_neq, !Z.ltb_ge, !Z.leb_gt in Hb.
  destruct Hb as [[[[[[[B1 B2] B3] B4] B5] B6] B7] B8].
  pose proof (name_end_sound (word_at data (pos t)) (Z.to_nat NAME_MAX) (word_at data (pos t))
    ltac:(lia) ltac:(lia) ltac:(unfold NAME_MAX; lia)) as He.
  destruct (name_end _ _ _ _ _) as [n| |]; [|done..]. cbn [mbind outcome_bind].
  destruct (_ || _) eqn:Hb; [done|]. cbn [refuse_if mbind outcome_bind].
  rewrite !orb_false_iff, !Z.eqb_neq in Hb. destruct Hb as [[B9 B10] B11]. destruct He as (E1 & E2 & E3 & E4).
  rewrite u32_id by (unfold is_word in *; subst limit; lia). rewrite ltb_max.
  exists n. apply negb_false_iff, Z.eqb_eq in B5. 
  assert (name_at data limit (word_at data (pos t)) n) as Hname.
  { unfold name_at. split; [lia|]. split; [lia|]. split; [by apply E3|done]. }
  split; [lia|]. split; [lia|]. split; [exact Hname|]. split; [by split|]. by split.
Qed.

Lemma step_row capacity t n :
  0 <= pos t -> pos t + 8 <= limit -> 0x38 <= word_at data (pos t) ->
  name_at data limit (word_at data (pos t)) n -> code_offset limit (word_at data (pos t + 4)) ->
  Z.of_nat (length (found t)) <> capacity ->
  export_step data limit capacity t =
    Done (mkExports (pos t + 8) (Z.max (end_ t) (n + 1)) (found t ++ [word_at data (pos t + 4)]), false).
Proof.
  intros H0 H1 H2 Hn [Hc1 Hc2] Hf. unfold export_step.
  rewrite (proj2 (Z.ltb_ge limit (pos t))), (proj2 (Z.ltb_ge _ 8)) by lia. cbn [orb refuse_if mbind outcome_bind].
  rewrite !be32_in by (subst limit; lia). cbn [mbind outcome_bind].
  pose proof Hn as (N1 & N2 & _).
  rewrite !(proj2 (Z.eqb_neq _ 0)), (proj2 (Z.ltb_ge (word_at data (pos t)) 0x38)),
    (proj2 (Z.leb_gt limit (word_at data (pos t)))), Hc1, (proj2 (Z.ltb_ge (word_at data (pos t + 4)) 0x38)),
    (proj2 (Z.leb_gt limit (word_at data (pos t + 4)))), (proj2 (Z.eqb_neq _ capacity)) by lia.
  cbn [andb orb z2b Z.eqb negb refuse_if mbind outcome_bind].
  rewrite (name_end_complete _ n) by (done || unfold NAME_MAX in *; lia). cbn [mbind outcome_bind].
  rewrite !(proj2 (Z.eqb_neq _ _)) by lia. cbn [orb refuse_if mbind outcome_bind].
  rewrite !u32_id by (unfold is_word in *; subst limit; lia). by rewrite ltb_max.
Qed.

Lemma step_close capacity t :
  0 <= pos t -> pos t + 8 <= limit -> word_at data (pos t) = 0 -> word_at data (pos t + 4) = 0 ->
  export_step data limit capacity t = Done (mkExports (pos t + 8) (end_ t) (found t), true).
Proof.
  intros H0 H1 Hn Hc. unfold export_step.
  rewrite (proj2 (Z.ltb_ge limit (pos t))), (proj2 (Z.ltb_ge _ 8)) by lia. cbn [orb refuse_if mbind outcome_bind].
  rewrite !be32_in by (subst limit; lia). cbn [mbind outcome_bind].
  rewrite Hn, Hc. cbn [Z.eqb andb]. by rewrite u32_id by (unfold is_word in *; subst limit; lia).
Qed.

(** ** The table *)
Definition after_rows (t : Exports) (rows : list (Z * Z)) (q : Z) : Exports :=
  mkExports q (fold_left (fun e r => Z.max e (r.1 + 1)) rows (end_ t)) (found t ++ map snd rows).

Lemma table_sound capacity turns : forall t,
  0 <= pos t <= limit -> limit - pos t < 8 * Z.of_nat turns -> Z.of_nat (length (found t)) <= capacity ->
  match export_table data limit capacity turns t with
  | Stray => False
  | Refused => True
  | Done t' => exists rows q, table_at data limit (pos t) rows q /\ t' = after_rows t rows q /\ Z.of_nat (length (found t')) <= capacity
  end.
Proof.
  induction turns as [|turns IH]; intros t Hp Ht Hc; [lia|]. cbn [export_table].
  pose proof (step_sound capacity t Hp) as Hs.
  destruct (export_step _ _ _ _) as [[t' []]| |]; [| |done..]; cbn [mbind outcome_bind].
  - destruct Hs as (H1 & H2 & H3 & ->). exists [], (pos t + 8). split; [by constructor|].
    unfold after_rows. cbn [map fold_left found]. by rewrite app_nil_r.
  - destruct Hs as (n & H1 & H2 & H3 & H4 & H5 & ->).
    specialize (IH (mkExports (pos t + 8) (Z.max (end_ t) (n + 1)) (found t ++ [word_at data (pos t + 4)]))).
    cbn [pos found] in IH. rewrite length_app in IH. specialize (IH ltac:(lia) ltac:(lia) ltac:(cbn [length]; lia)).
    destruct (export_table _ _ _ _ _) as [t'| |]; [|done..]. destruct IH as (rows & q & Hr & -> & Hl).
    exists ((n, word_at data (pos t + 4)) :: rows), q. split; [by constructor|]. split; [|done].
    unfold after_rows. cbn [end_ found map fold_left fst snd]. by rewrite <- app_assoc.
Qed.

Lemma table_complete capacity p rows q :
  table_at data limit p rows q -> forall turns t,
  pos t = p -> 0 <= p -> limit - p < 8 * Z.of_nat turns ->
  Z.of_nat (length (found t) + length rows) <= capacity ->
  export_table data limit capacity turns t = Done (after_rows t rows q).
Proof.
  induction 1 as [p H1 H2 H3|p n rows q H1 H2 H3 H4 _ IH]; intros [|turns] t <- Hp Ht Hc; try lia;
    cbn [export_table].
  - rewrite step_close by done. cbn [mbind outcome_bind]. unfold after_rows. cbn [map fold_left].
    by rewrite app_nil_r.
  - cbn [length] in Hc. rewrite (step_row _ _ n) by (done || lia). cbn [mbind outcome_bind].
    rewrite IH.
    + unfold after_rows. cbn [end_ found map fold_left fst snd]. by rewrite <- app_assoc.
    + done.
    + lia.
    + lia.
    + cbn [found]. rewrite length_app. cbn [length]. lia.
Qed.
End Module.

(** * The parser *)
Lemma enough_turns limit entry : 0 <= entry < limit -> limit - entry < 8 * Z.of_nat (table_turns limit).
Proof. intros H. unfold table_turns. rewrite Z2Nat.id by zlia. zlia. Qed.
Lemma fold_max_ge (rows : list (Z * Z)) e : e <= fold_left (fun e r => Z.max e (r.1 + 1)) rows e.
Proof. revert e. induction rows as [|r rows IH]; intros e; cbn [fold_left]; [lia|]. specialize (IH (Z.max e (r.1 + 1))). lia. Qed.

Lemma existsb_below es e : existsb (fun x => x <? e) es = false <-> Forall (fun x => e <= x) es.
Proof.
  induction es as [|x es IH]; cbn [existsb]; [by split|].
  rewrite orb_false_iff, IH, Forall_cons, Z.ltb_ge. done.
Qed.

Lemma table_codes data limit p rows q :
  table_at data limit p rows q -> Forall (code_offset limit) (map snd rows) /\ p < q /\ q <= limit.
Proof. induction 1 as [| ? ? ? ? ? ? ? ? ? [? ?]]; cbn [map]; (split; [by constructor|lia]). Qed.

Lemma metadata_fold rows entry q :
  metadata_of rows entry q = Z.max (fold_left (fun e r => Z.max e (r.1 + 1)) rows entry) q.
Proof. unfold metadata_of. lia. Qed.

(** The header's entry lies in the code. *)
Definition entry_ok (data : list Z) (size : Z) : Prop :=
  0x3B <= size /\ code_offset (size - 3) (word_at data 0x30).

Section Parser.
Context (data : list Z) (size capacity : Z) (Hu : Forall is_u8 data)
  (Hsize : is_u32 size) (Hlen : size <= Z.of_nat (length data)).

(** The header's part of the run. *)
Lemma entries_head type named :
  cdi_module_entries data size type named capacity = Refused \/
  1 <= capacity /\ entry_ok data size /\
  cdi_module_entries data size type named capacity =
    if type =? 1 then program_entries data size capacity (word_at data 0x30)
    else x ← refuse_if (negb (type =? 2) || negb named);
         subroutine_entries data size capacity (word_at data 0x30).
Proof.
  unfold cdi_module_entries. destruct (Z.ltb_spec capacity 1); [by left|].
  destruct (Z.ltb_spec size 0x3B); [by left|]. cbn [orb]. rewrite refuse_false, be32_in by lia.
  cbn [mbind outcome_bind]. destruct (z2b (Z.land (word_at data 0x30) 1) || _ || _) eqn:Hb; [by left|]. right. split; [done|].
  apply orb_false_iff in Hb as [Hb H3]. apply orb_false_iff in Hb as [H1 H2].
  apply negb_false_iff, Z.eqb_eq in H1. apply Z.ltb_ge in H2. apply Z.leb_gt in H3.
  split; [split; [done|by split]|done].
Qed.

(** What every answer satisfies, and that there is no other end. *)
Definition entries_ok (size : Z) (es : list Z) (e : Z) : Prop :=
  es <> [] /\ 0x38 <= e <= size - 3 /\ Forall (fun x => Z.land x 1 = 0 /\ e <= x < size - 3) es.
Definition answer_ok (o : Outcome (list Z * Z)) : Prop :=
  match o with
  | Stray => False
  | Refused => True
  | Done (es, e) => entries_ok size es e /\ Z.of_nat (length es) <= capacity
  end.

Lemma program_safe :
  1 <= capacity -> entry_ok data size -> answer_ok (program_entries data size capacity (word_at data 0x30)).
Proof.
  intros Hcap (Hs & He & Hr). unfold program_entries. cbv zeta.
  destruct (Z.ltb_spec size 0x4B); [done|]. destruct (Z.ltb_spec (word_at data 0x30) 0x48); [done|].
  cbn [orb]. rewrite refuse_false, be32_in by lia. cbn [mbind outcome_bind].
  destruct (_ =? 0).
  { split; [|done]. split; [done|]. split; [lia|]. constructor; [lia|done]. }
  destruct (_ || _) eqn:Hb; [done|]. rewrite refuse_false.
  rewrite !orb_false_iff, !Z.ltb_ge, Z.leb_gt in Hb. destruct Hb as [[[B1 B2] B3] B4].
  apply negb_false_iff, Z.eqb_eq in B2. split; [|done]. split; [done|]. split; [lia|].
  constructor; [lia|]. constructor; [lia|done].
Qed.

(** A subroutine's answer is the table its bytes hold. *)
Definition answer_is (es : list Z) (e : Z) : Prop :=
  exists rows q, table_at data (size - 3) (word_at data 0x30) rows q /\
    1 <= Z.of_nat (length rows) <= capacity /\ es = map snd rows /\
    e = metadata_of rows (word_at data 0x30) q /\ Forall (fun x => e <= x) es.

Lemma subroutine_sound :
  0 <= capacity -> entry_ok data size ->
  match subroutine_entries data size capacity (word_at data 0x30) with
  | Stray => False
  | Refused => True
  | Done (es, e) => answer_is es e
  end.
Proof.
  intros Hcap (Hs & He & Hr). unfold subroutine_entries. cbv zeta.
  pose proof (table_sound data size Hu Hsize Hlen capacity (table_turns (size - 3))
    (mkExports (word_at data 0x30) (word_at data 0x30) [])) as Ht. cbn [pos found] in Ht.
  specialize (Ht ltac:(lia) (enough_turns (size - 3) (word_at data 0x30) ltac:(lia)) ltac:(cbn [length]; lia)).
  destruct (export_table _ _ _ _ _) as [t| |]; [|done..]. destruct Ht as (rows & q & Ht & -> & Hl).
  cbn [mbind outcome_bind after_rows found end_ pos app] in *. rewrite ltb_max, length_map in *.
  destruct (Z.eqb_spec (Z.of_nat (length rows)) 0); [done|]. rewrite refuse_false.
  destruct (existsb _ _) eqn:Hx; [done|]. rewrite refuse_false. apply existsb_below in Hx.
  exists rows, q. split; [done|]. split; [lia|]. split; [done|].
  rewrite <- metadata_fold in *.
  by split.
Qed.

Lemma subroutine_complete es e :
  entry_ok data size -> answer_is es e ->
  subroutine_entries data size capacity (word_at data 0x30) = Done (es, e).
Proof.
  intros (Hs & He & Hr) (rows & q & Ht & Hl & -> & -> & Hf). unfold subroutine_entries. cbv zeta.
  rewrite (table_complete data size Hsize Hlen capacity _ rows q Ht);
    [|done|lia|apply (enough_turns (size - 3)); lia|cbn [found length]; lia].
  cbn [mbind outcome_bind after_rows found end_ pos app]. rewrite length_map, ltb_max.
  destruct (Z.eqb_spec (Z.of_nat (length rows)) 0); [lia|]. rewrite refuse_false. rewrite <- metadata_fold.
  by rewrite (proj2 (existsb_below _ _) Hf).
Qed.

Lemma answer_is_ok es e : entry_ok data size -> answer_is es e -> entries_ok size es e /\ Z.of_nat (length es) <= capacity.
Proof.
  intros (Hs & He & Hr) (rows & q & Ht & Hl & -> & -> & Hf).
  pose proof (table_codes _ _ _ _ _ Ht) as (Hco & Hq & Hq').
  pose proof (fold_max_ge rows (word_at data 0x30)). rewrite length_map. split; [|lia].
  split; [destruct rows; [cbn [length] in Hl; lia|done]|].
  assert (Forall (fun x => Z.land x 1 = 0 /\ metadata_of rows (word_at data 0x30) q <= x < size - 3) (map snd rows)) as Ha.
  { apply Forall_forall. intros x Hin. rewrite Forall_forall in Hf, Hco.
    specialize (Hf x Hin). destruct (Hco x Hin) as [? ?]. lia. }
  split; [|exact Ha]. unfold metadata_of in *. split; [lia|].
  destruct rows as [|r rows]; [cbn [length] in Hl; lia|]. cbn [map] in Ha. apply Forall_cons in Ha as [Ha _]. lia.
Qed.

Lemma entries_safe type named : answer_ok (cdi_module_entries data size type named capacity).
Proof.
  destruct (entries_head type named) as [->|(Hcap & Hok & ->)]; [done|].
  destruct (type =? 1); [by apply program_safe|]. destruct (_ || _); [done|]. rewrite refuse_false.
  pose proof (subroutine_sound ltac:(lia) Hok) as Ht.
  destruct (subroutine_entries _ _ _ _) as [[es e]| |]; [|done..]. by apply answer_is_ok.
Qed.
End Parser.

(** C38. The exports of a subroutine module are read exactly, and safely. Whatever
    the bytes, the parser reads none outside the module and its loops end. It
    answers entries and the end of the metadata exactly when the bytes hold a
    table of exports at the header's entry: rows of a printable name of fewer
    than 255 characters inside the module and an even offset into its code,
    closed by a pair of zeros, at least one row and no more than the caller has
    room for, with every offset past the table and its names. The entries are
    then the rows' offsets in order, and the metadata ends past the last byte of
    the table or of a name. *)
Theorem exports_exact data size capacity :
  Forall is_u8 data -> is_u32 size -> size <= Z.of_nat (length data) ->
  cdi_module_entries data size 2 true capacity <> Stray /\
  forall es e, cdi_module_entries data size 2 true capacity = Done (es, e) <->
    entry_ok data size /\
    exists rows q, table_at data (size - 3) (word_at data 0x30) rows q /\
      1 <= Z.of_nat (length rows) <= capacity /\ es = map snd rows /\
      e = metadata_of rows (word_at data 0x30) q /\ Forall (fun x => e <= x) es.
Proof.
  intros Hu Hs Hl. split.
  { pose proof (entries_safe data size capacity Hu Hs Hl 2 true) as H. by destruct (cdi_module_entries _ _ _ _ _). }
  intros es e. split.
  - destruct (entries_head data size capacity Hl 2 true) as [->|(Hcap & Hok & ->)]; [done|].
    cbn [Z.eqb Pos.eqb negb orb]. rewrite refuse_false. intros E. split; [done|].
    pose proof (subroutine_sound data size capacity Hu Hs Hl ltac:(lia) Hok) as Ht. by rewrite E in Ht.
  - intros [Hok Ha]. pose proof (subroutine_complete data size capacity Hs Hl es e Hok Ha) as E.
    destruct Hok as (H3 & He & Hr). destruct Ha as (rows & q & _ & Hlen & _).
    unfold cdi_module_entries. rewrite (proj2 (Z.ltb_ge capacity 1)), (proj2 (Z.ltb_ge size 0x3B)) by lia.
    cbn [orb]. rewrite refuse_false, be32_in by lia. cbn [mbind outcome_bind].
    by rewrite He, (proj2 (Z.ltb_ge _ 0x38)), (proj2 (Z.leb_gt _ _)) by lia.
Qed.

(** ** A subroutine module that exports one routine, [go] *)
Definition sample_exports : list Z :=
  replicate 48 0 ++ [0; 0; 0; 0x38] ++ replicate 4 0 ++
  [0; 0; 0; 0x48; 0; 0; 0; 0x4C] ++ replicate 8 0 ++ [0x67; 0x6F; 0; 0] ++ [0x4E; 0x75] ++ [1; 2; 3].

Lemma exports_exact_witness :
  cdi_module_entries sample_exports 0x51 2 true 256 = Done ([0x4C], 0x4B) /\
  exists rows q, table_at sample_exports 0x4E 0x38 rows q /\ [0x4C] = map snd rows.
Proof.
  assert (cdi_module_entries sample_exports 0x51 2 true 256 = Done ([0x4C], 0x4B)) as E by (vm_compute; reflexivity).
  split; [exact E|].
  assert (Forall is_u8 sample_exports) as Hu by (apply (bool_decide_unpack _); vm_compute; exact I).
  destruct (exports_exact sample_exports 0x51 256 Hu ltac:(unfold is_word; lia) ltac:(vm_compute; discriminate)) as [_ H].
  destruct (proj1 (H _ _) E) as (_ & rows & q & Ht & _ & Hs & _). exists rows, q. split; [exact Ht|exact Hs].
Defined.
