(* ===== verification/Seeds.v ===== *)
(** Seeds of discovery (recompiler/src/module_seeds.c): the file of offsets at
    which code is known to start, named by the digest of the module's image, and
    their merge into the entries of a module.

    The file is its bytes as the C library delivers them: no read error, no
    translation of line ends. *)

From Stdlib Require Import ZArith Lia Bool.
From stdpp Require Import base tactics numbers list.
From S2P Require Import Prelude.
Open Scope Z_scope.

Record CdiModuleSeed := mkSeed {
  sha256 : list Z;
  offset : Z;
  matched : bool;
}.
Abbreviation CdiModuleSeeds := (list CdiModuleSeed).

Definition MAX_SEEDS : Z := 32768.
Definition LINE_SIZE : Z := 160.

(** * Lines *)

(** The bytes of the next line with its newline, [room] at most, the rest of the
    file, and whether the end of the file was met. *)
Fixpoint fgets (room : nat) (file : list Z) : list Z * list Z * bool :=
  match room with
  | O => ([], file, false)
  | S room' =>
    match file with
    | [] => ([], [], true)
    | c :: rest =>
      if c =? 0x0A then ([c], rest, false)
      else let '(line, rest, eof) := fgets room' rest in (c :: line, rest, eof)
    end
  end.

(** A C string: the bytes before the first zero. *)
Fixpoint c_string (bytes : list Z) : list Z :=
  match bytes with
  | [] => []
  | c :: rest => if c =? 0 then [] else c :: c_string rest
  end.

Definition isspace (c : Z) : bool := ((9 <=? c) && (c <=? 13)) || (c =? 0x20).
Fixpoint skip_spaces (p : list Z) : list Z :=
  match p with
  | [] => []
  | c :: rest => if isspace c then skip_spaces rest else p
  end.

Definition hex_digit (c : Z) : option Z :=
  if (0x30 <=? c) && (c <=? 0x39) then Some (c - 0x30)
  else if (0x61 <=? c) && (c <=? 0x66) then Some (c - 0x61 + 10)
  else if (0x41 <=? c) && (c <=? 0x46) then Some (c - 0x41 + 10)
  else None.

(** [n] bytes in hexadecimal. *)
Fixpoint hex_bytes (n : nat) (p : list Z) : option (list Z) :=
  match n with
  | O => Some []
  | S n' =>
    hi ← hex_digit (lget p 0);
    lo ← hex_digit (lget p 1);
    rest ← hex_bytes n' (drop 2 p);
    Some (u8 (Z.lor (Z.shiftl hi 4) lo) :: rest)
  end.

(** The digits of an offset: at most eight. *)
Fixpoint hex_offset (p : list Z) (digits offset : Z) : option (list Z * Z * Z) :=
  match p with
  | [] => Some ([], digits, offset)
  | c :: rest =>
    match hex_digit c with
    | None => Some (p, digits, offset)
    | Some digit =>
      if 8 <? digits + 1 then None
      else hex_offset rest (digits + 1) (u32 (Z.lor (u32 (Z.shiftl offset 4)) digit))
    end
  end.

Definition starts_comment (p : list Z) : bool := (lget p 0 =? 0) || (lget p 0 =? 0x23).
Definition skip_prefix (p : list Z) : list Z :=
  if (lget p 0 =? 0x30) && ((lget p 1 =? 0x78) || (lget p 1 =? 0x58)) then drop 2 p else p.

(** The seed of a line that is neither blank nor a comment. *)
Definition parse_seed (p : list Z) : option CdiModuleSeed :=
  if Z.of_nat (length p) <? 66 then None
  else
    digest ← hex_bytes 32 p;
    let p := drop 64 p in
    if negb (isspace (lget p 0)) then None
    else
      '(p, digits, offset) ← hex_offset (skip_prefix (skip_spaces p)) 0 0;
      if (digits =? 0) || z2b (Z.land offset 1) then None
      else if negb (starts_comment (skip_spaces p)) then None
      else Some (mkSeed digest offset false).

(** One turn of the loop: what the line adds, or a refusal. *)
Definition seed_line (line : list Z) (eof : bool) (items : CdiModuleSeeds) : option CdiModuleSeeds :=
  let line := c_string line in
  if negb (existsb (Z.eqb 0x0A) line) && negb eof then None
  else
    let p := skip_spaces line in
    if starts_comment p then Some items
    else if Z.of_nat (length items) =? MAX_SEEDS then None
    else seed ← parse_seed p; Some (items ++ [seed]).

(** [turns] bounds the lines. *)
Fixpoint seed_lines (turns : nat) (file : list Z) (items : CdiModuleSeeds) : option CdiModuleSeeds :=
  let '(line, rest, eof) := fgets (Z.to_nat (LINE_SIZE - 1)) file in
  if (Z.of_nat (length line) =? 0) then Some items
  else match turns with
  | O => None
  | S turns' => items ← seed_line line eof items; seed_lines turns' rest items
  end.

(** The file at the path, if there is one, and the memory for its seeds. *)
Definition cdi_module_seeds_read (path : option (option (list Z))) (allocated : bool) : option CdiModuleSeeds :=
  match path with
  | None => Some []
  | Some None => None
  | Some (Some file) => if allocated then seed_lines (length file) file [] else None
  end.

Definition cdi_module_seeds_free (_ : CdiModuleSeeds) : CdiModuleSeeds := [].

(** * Merging *)
Definition bad_offset (seed : CdiModuleSeed) (metadata_end code_end : Z) : bool :=
  (offset seed <? metadata_end) || (code_end <=? offset seed) || z2b (Z.land (offset seed) 1).
Definition present (entries : list Z) (o : Z) : bool := existsb (Z.eqb o) entries.
Definition matched_seed (seed : CdiModuleSeed) : CdiModuleSeed := mkSeed (sha256 seed) (offset seed) true.

(** The loop over the seeds; they come back with their marks. *)
Fixpoint merge_seeds (seeds : CdiModuleSeeds) (digest : list Z) (metadata_end code_end : Z)
    (entries : list Z) (capacity : Z) : option (CdiModuleSeeds * list Z) :=
  match seeds with
  | [] => Some ([], entries)
  | seed :: rest =>
    if negb (bool_decide (sha256 seed = digest)) then
      '(rest, entries) ← merge_seeds rest digest metadata_end code_end entries capacity;
      Some (seed :: rest, entries)
    else if bad_offset seed metadata_end code_end then None
    else
      entries ← (if present entries (offset seed) then Some entries
                 else if Z.of_nat (length entries) =? capacity then None
                 else Some (entries ++ [offset seed]));
      '(rest, entries) ← merge_seeds rest digest metadata_end code_end entries capacity;
      Some (matched_seed seed :: rest, entries)
  end.

Definition cdi_module_seeds_merge (seeds : CdiModuleSeeds) (digest : list Z) (metadata_end code_end : Z)
    (entries : list Z) (capacity : Z) : option (CdiModuleSeeds * list Z) :=
  if capacity <? Z.of_nat (length entries) then None
  else merge_seeds seeds digest metadata_end code_end entries capacity.
