(* ===== verification/SeedsSpec.v ===== *)
(** What the seed file promises: a file written line by line reads back as its
    seeds, and every seed accepted is well formed; a merge adds to a module's
    entries the seeds of its digest and nothing else. *)

From Stdlib Require Import ZArith Lia Bool.
From stdpp Require Import base tactics numbers list.
From S2P Require Import Prelude Seeds.
Open Scope Z_scope.

(** * Writing a seed file *)
Definition hex_char (d : Z) : Z := if d <? 10 then 0x30 + d else 0x57 + d.
Definition render_byte (b : Z) : list Z := [hex_char (b / 16); hex_char (b mod 16)].
Fixpoint digits_of (n : nat) (x : Z) : list Z :=
  match n with O => [] | S n' => digits_of n' (x / 16) ++ [x mod 16] end.
Definition render_seed (s : CdiModuleSeed) : list Z :=
  flat_map render_byte (sha256 s) ++ [0x20; 0x30; 0x78] ++ map hex_char (digits_of 8 (offset s)).

(** A seed, or a line that is blank or a comment. *)
Inductive Line := SeedLine (s : CdiModuleSeed) | NoteLine (text : list Z).
Definition render_line (l : Line) : list Z :=
  match l with SeedLine s => render_seed s | NoteLine text => text end ++ [0x0A].
Definition line_seeds (l : Line) : CdiModuleSeeds := match l with SeedLine s => [s] | NoteLine _ => [] end.
Definition render_file (ls : list Line) : list Z := flat_map render_line ls.
Definition file_seeds (ls : list Line) : CdiModuleSeeds := flat_map line_seeds ls.

Definition seed_ok (s : CdiModuleSeed) : Prop :=
  length (sha256 s) = 32%nat /\ Forall is_u8 (sha256 s) /\ is_u32 (offset s) /\
  Z.land (offset s) 1 = 0 /\ matched s = false.
Definition line_ok (l : Line) : Prop :=
  match l with
  | SeedLine s => seed_ok s
  | NoteLine text => Z.of_nat (length text) < LINE_SIZE - 1 /\
      Forall (fun c => c <> 0x0A /\ c <> 0) text /\ starts_comment (skip_spaces text) = true
  end.

(** * Hexadecimal *)
Lemma hex_digit_char d : 0 <= d < 16 -> hex_digit (hex_char d) = Some d.
Proof.
  intros Hd. unfold hex_char, hex_digit. destruct (Z.ltb_spec d 10).
  - rewrite (proj2 (Z.leb_le _ _)), (proj2 (Z.leb_le _ _)) by lia. cbn [andb]. f_equal. lia.
  - rewrite (proj2 (Z.leb_le 0x30 _)), (proj2 (Z.leb_gt _ 0x39)) by lia. cbn [andb].
    rewrite (proj2 (Z.leb_le 0x61 _)), (proj2 (Z.leb_le _ 0x66)) by lia. cbn [andb]. f_equal. lia.
Qed.
Lemma hex_char_plain d : 0 <= d < 16 -> 0x30 <= hex_char d <= 0x66 /\ isspace (hex_char d) = false.
Proof.
  intros Hd. unfold hex_char, isspace. destruct (Z.ltb_spec d 10).
  all: rewrite (proj2 (Z.leb_gt _ 13)), (proj2 (Z.eqb_neq _ _)), andb_false_r by lia; split; [lia|done].
Qed.

Lemma nibbles b : is_u8 b -> u8 (Z.lor (Z.shiftl (b / 16) 4) (b mod 16)) = b.
Proof.
  intros Hb. unfold is_word in Hb. rewrite (lor_shiftl_add 4) by (unfold is_word; zlia).
  rewrite u8_id by (unfold is_word; zlia). zlia.
Qed.
Lemma hex_bytes_render bs rest :
  Forall is_u8 bs -> hex_bytes (length bs) (flat_map render_byte bs ++ rest) = Some bs.
Proof.
  induction 1 as [|b bs Hb _ IH]; [done|]. cbn [flat_map length]. unfold render_byte at 1. cbn [app hex_bytes].
  change (lget (hex_char (b / 16) :: hex_char (b mod 16) :: flat_map render_byte bs ++ rest) 0) with (hex_char (b / 16)).
  change (lget (hex_char (b / 16) :: hex_char (b mod 16) :: flat_map render_byte bs ++ rest) 1) with (hex_char (b mod 16)).
  assert (0 <= b / 16 < 16) by (unfold is_word in Hb; zlia).
  rewrite !hex_digit_char by (done || zlia). change (drop 2 _) with (flat_map render_byte bs ++ rest).
  cbn [mbind option_bind]. rewrite IH. cbn [mbind option_bind]. by rewrite nibbles.
Qed.
Lemma length_render_bytes bs : length (flat_map render_byte bs) = (2 * length bs)%nat.
Proof. induction bs as [|b bs IH]; [done|]. cbn [flat_map]. rewrite length_app, IH. cbn [length render_byte]. lia. Qed.

(** ** The digits of an offset *)
Definition add_digit (o d : Z) : Z := u32 (Z.lor (u32 (Z.shiftl o 4)) d).

Lemma length_digits n x : length (digits_of n x) = n.
Proof. revert x. induction n as [|n IH]; intros x; [done|]. cbn [digits_of]. rewrite length_app, IH. cbn [length]. lia. Qed.
Lemma digits_range n x : Forall (fun d => 0 <= d < 16) (digits_of n x).
Proof.
  revert x. induction n as [|n IH]; intros x; [constructor|]. cbn [digits_of]. apply Forall_app. split; [apply IH|].
  constructor; [zlia|constructor].
Qed.
Lemma digits_value n x :
  0 <= x < 16 ^ Z.of_nat n -> (n <= 8)%nat -> fold_left add_digit (digits_of n x) 0 = x.
Proof.
  revert x. induction n as [|n IH]; intros x Hx Hn; [cbn in *; lia|].
  cbn [digits_of]. rewrite fold_left_app. cbn [fold_left].
  rewrite Nat2Z.inj_succ, Z.pow_succ_r in Hx by lia. rewrite IH by zlia.
  assert (16 ^ Z.of_nat n <= 16 ^ 7) by (apply Z.pow_le_mono_r; lia). change (16 ^ 7) with 268435456 in *.
  unfold add_digit. rewrite (u32_id (Z.shiftl _ _)).
  - rewrite (lor_shiftl_add 4) by (unfold is_word; zlia). rewrite u32_id by (unfold is_word; zlia). zlia.
  - rewrite Z.shiftl_mul_pow2 by lia. unfold is_word. zlia.
Qed.
Lemma hex_offset_digits ds rest : forall n o,
  Forall (fun d => 0 <= d < 16) ds -> n + Z.of_nat (length ds) <= 8 ->
  match rest with [] => True | c :: _ => hex_digit c = None end ->
  hex_offset (map hex_char ds ++ rest) n o = Some (rest, n + Z.of_nat (length ds), fold_left add_digit ds o).
Proof.
  induction ds as [|d ds IH]; intros n o Hd Hn Hr; cbn [map app length fold_left].
  - rewrite Z.add_0_r. destruct rest as [|c rest]; [done|]. cbn [hex_offset]. by rewrite Hr.
  - apply Forall_cons in Hd as [Hd Hds]. cbn [length] in Hn. cbn [hex_offset]. rewrite hex_digit_char by done.
    rewrite (proj2 (Z.ltb_ge 8 _)) by lia. fold (add_digit o d). rewrite IH by (done || lia).
    do 2 f_equal. f_equal. lia.
Qed.

(** * One line *)
Lemma parse_render s : seed_ok s -> parse_seed (render_seed s ++ [0x0A]) = Some s.
Proof.
  intros (Hl & Hb & Ho & He & Hm). unfold parse_seed, render_seed.
  rewrite <- !app_assoc. set (tail := map hex_char _ ++ [0x0A]).
  assert (length (flat_map render_byte (sha256 s)) = 64%nat) as H64 by (rewrite length_render_bytes; lia).
  assert (length tail = 9%nat) as Ht by (unfold tail; by rewrite length_app, length_map, length_digits).
  rewrite (proj2 (Z.ltb_ge _ 66)) by (rewrite !length_app, H64, Ht; cbn [length]; lia).
  pose proof (hex_bytes_render (sha256 s) ([0x20; 0x30; 0x78] ++ tail) Hb) as Hx. rewrite Hl in Hx. rewrite Hx.
  cbn [mbind option_bind]. rewrite drop_app_length' by done. cbn [app]. change (lget (0x20 :: _) 0) with 0x20.
  change (isspace 0x20) with true. cbn [negb].
  change (skip_prefix (skip_spaces (0x20 :: 0x30 :: 0x78 :: tail))) with tail.
  unfold tail. rewrite hex_offset_digits; [|apply digits_range|rewrite length_digits; lia|done].
  cbn [mbind option_bind]. rewrite length_digits.
  rewrite (digits_value 8 (offset s)) by (lia || (unfold is_word in Ho; by change (16 ^ Z.of_nat 8) with (2 ^ 32))).
  rewrite He. change (0 + Z.of_nat 8 =? 0) with false. change (z2b 0) with false.
  change (starts_comment (skip_spaces [0x0A])) with true. cbn [orb negb].
  destruct s as [? ? m]. cbn in *. by rewrite Hm.
Qed.

Lemma fgets_line line rest : forall room,
  Forall (fun c => c <> 0x0A) line -> (length line < room)%nat ->
  fgets room (line ++ 0x0A :: rest) = (line ++ [0x0A], rest, false).
Proof.
  induction line as [|c line IH]; intros [|room] Hn Hr; cbn [length] in Hr; try lia; [done|].
  apply Forall_cons in Hn as [Hc Hn]. cbn [app fgets]. rewrite (proj2 (Z.eqb_neq c 0x0A)) by done.
  by rewrite IH by (done || lia).
Qed.
Lemma c_string_id l : Forall (fun c => c <> 0) l -> c_string l = l.
Proof. induction 1 as [|c l Hc _ IH]; [done|]. cbn [c_string]. by rewrite (proj2 (Z.eqb_neq c 0)), IH. Qed.

(** A rendered line holds neither a zero nor another newline, and fits. *)
Definition body_of (l : Line) : list Z := match l with SeedLine s => render_seed s | NoteLine text => text end.
Lemma body_plain l :
  line_ok l -> Forall (fun c => c <> 0x0A /\ c <> 0) (body_of l) /\ Z.of_nat (length (body_of l)) < LINE_SIZE - 1.
Proof.
  destruct l as [s|text]; cbn [line_ok body_of]; [|tauto]. intros (Hl & Hb & Ho & _).
  assert (forall d, 0 <= d < 16 -> hex_char d <> 0x0A /\ hex_char d <> 0) as Hc
    by (intros d Hd; pose proof (hex_char_plain d Hd); lia).
  unfold render_seed. split.
  - rewrite !Forall_app. split; [|split; [by repeat constructor|]].
    + clear Hl. induction Hb as [|b bs Hb _ IH]; [constructor|]. cbn [flat_map]. apply Forall_app.
      split; [|exact IH]. unfold is_word in Hb. repeat constructor; apply Hc; zlia.
    + apply Forall_map. eapply Forall_impl; [apply digits_range|]. exact Hc.
  - rewrite !length_app, length_render_bytes, length_map, length_digits, Hl. unfold LINE_SIZE. cbn. lia.
Qed.

Lemma skip_render s rest : seed_ok s -> skip_spaces (render_seed s ++ rest) = render_seed s ++ rest
  /\ starts_comment (render_seed s ++ rest) = false.
Proof.
  intros (Hl & Hb & _). unfold render_seed. destruct (sha256 s) as [|b bs]; [done|].
  apply Forall_cons in Hb as [Hb _]. unfold is_word in Hb. cbn [flat_map]. unfold render_byte at 1. cbn [app].
  pose proof (hex_char_plain (b / 16) ltac:(zlia)) as [H1 H2].
  cbn [skip_spaces]. rewrite H2. split; [done|]. unfold starts_comment.
  change (lget (hex_char (b / 16) :: _) 0) with (hex_char (b / 16)).
  by rewrite !(proj2 (Z.eqb_neq (hex_char (b / 16)) _)) by lia.
Qed.

Lemma seed_line_ok l items :
  line_ok l -> Z.of_nat (length (items ++ line_seeds l)) <= MAX_SEEDS ->
  seed_line (render_line l) false items = Some (items ++ line_seeds l).
Proof.
  intros Hl Hn. destruct (body_plain l Hl) as [Hp _]. change (render_line l) with (body_of l ++ [0x0A]).
  unfold seed_line. rewrite c_string_id.
  2: { apply Forall_app. split; [|by repeat constructor]. eapply Forall_impl; [exact Hp|]. by intros ? []. }
  assert (existsb (Z.eqb 0x0A) (body_of l ++ [0x0A]) = true) as ->.
  { rewrite existsb_app. cbn. by rewrite orb_true_r. }
  cbn [negb andb]. destruct l as [s|text]; cbn [body_of line_seeds] in *.
  - destruct (skip_render s [0x0A] Hl) as [-> ->]. rewrite length_app in Hn. cbn [length] in Hn.
    rewrite (proj2 (Z.eqb_neq _ MAX_SEEDS)) by lia. by rewrite parse_render.
  - rewrite app_nil_r. destruct Hl as (_ & _ & Hs).
    assert (starts_comment (skip_spaces (text ++ [0x0A])) = true) as ->; [|done].
    revert Hs. clear. induction text as [|c text IH]; [done|]. cbn [app skip_spaces].
    destruct (isspace c); [exact IH|]. done.
Qed.

Lemma seed_lines_ok ls : forall turns items,
  Forall line_ok ls -> Z.of_nat (length (items ++ file_seeds ls)) <= MAX_SEEDS -> (length ls <= turns)%nat ->
  seed_lines turns (render_file ls) items = Some (items ++ file_seeds ls).
Proof.
  induction ls as [|l ls IH]; intros turns items Hls Hn Ht.
  - cbn [file_seeds flat_map]. rewrite app_nil_r. by destruct turns.
  - apply Forall_cons in Hls as [Hl Hls]. destruct (body_plain l Hl) as [Hp Hlen]. unfold LINE_SIZE in *.
    assert (render_file (l :: ls) = body_of l ++ 0x0A :: render_file ls) as E.
    { unfold render_file. cbn [flat_map]. change (render_line l) with (body_of l ++ [0x0A]). by rewrite <- app_assoc. }
    destruct turns as [|turns]; cbn [length] in Ht; [lia|]. cbn [seed_lines]. rewrite E, fgets_line.
    2: { eapply Forall_impl; [exact Hp|]. by intros ? []. }
    2: { unfold LINE_SIZE. lia. }
    rewrite (proj2 (Z.eqb_neq _ 0)) by (rewrite length_app; cbn [length]; lia).
    cbn [file_seeds flat_map] in *. fold (file_seeds ls) in *. rewrite app_assoc in Hn |- *.
    change (body_of l ++ [0x0A]) with (render_line l). rewrite seed_line_ok.
    + cbn [mbind option_bind]. apply IH; [done|done|lia].
    + done.
    + rewrite length_app in Hn. lia.
Qed.

(** * What is accepted *)
Lemma hex_digit_range c d : hex_digit c = Some d -> 0 <= d < 16.
Proof.
  unfold hex_digit. destruct (_ && _) eqn:E1.
  { apply andb_true_iff in E1 as [H1 H2]. apply Z.leb_le in H1, H2. intros [= <-]. lia. }
  clear E1. destruct (_ && _) eqn:E1.
  { apply andb_true_iff in E1 as [H1 H2]. apply Z.leb_le in H1, H2. intros [= <-]. lia. }
  clear E1. destruct (_ && _) eqn:E1; [|done].
  apply andb_true_iff in E1 as [H1 H2]. apply Z.leb_le in H1, H2. intros [= <-]. lia.
Qed.
Lemma hex_bytes_ok n : forall p bs, hex_bytes n p = Some bs -> length bs = n /\ Forall is_u8 bs.
Proof.
  induction n as [|n IH]; intros p bs; cbn [hex_bytes]; [by intros [= <-]|].
  destruct (hex_digit (lget p 0)) as [hi|]; [|done]. destruct (hex_digit (lget p 1)) as [lo|]; [|done].
  cbn [mbind option_bind]. destruct (hex_bytes n (drop 2 p)) as [bs'|] eqn:E; [|done].
  intros [= <-]. destruct (IH _ _ E) as [H1 H2]. cbn [length]. split; [lia|]. constructor; [apply u8_range|done].
Qed.
Lemma hex_offset_ok p : forall n o p' n' o',
  is_u32 o -> hex_offset p n o = Some (p', n', o') -> is_u32 o'.
Proof.
  induction p as [|c p IH]; intros n o p' n' o' Ho; cbn [hex_offset]; [by intros [= <- <- <-]|].
  destruct (hex_digit c) as [d|]; [|by intros [= <- <- <-]]. destruct (_ <? _); [done|].
  apply IH. apply u32_range.
Qed.
Lemma parse_seed_ok p s : parse_seed p = Some s -> seed_ok s.
Proof.
  unfold parse_seed. destruct (_ <? 66); [done|].
  destruct (hex_bytes 32 p) as [bs|] eqn:E; [|done]. cbn [mbind option_bind]. destruct (negb _); [done|].
  destruct (hex_offset _ 0 0) as [[[p' n] o]|] eqn:Eo; [|done]. cbn [mbind option_bind].
  destruct (_ || _) eqn:Hb; [done|]. destruct (negb _); [done|]. intros [= <-].
  apply hex_bytes_ok in E as [H1 H2]. apply orb_false_iff in Hb as [_ Hb]. apply negb_false_iff, Z.eqb_eq in Hb.
  repeat split; try done; eapply hex_offset_ok; try exact Eo; done.
Qed.
Lemma seed_line_sound line eof items items' :
  seed_line line eof items = Some items' -> Forall seed_ok items -> Z.of_nat (length items) <= MAX_SEEDS ->
  Forall seed_ok items' /\ Z.of_nat (length items') <= MAX_SEEDS.
Proof.
  unfold seed_line. destruct (_ && _); [done|]. destruct (starts_comment _); [by intros [= <-]|].
  destruct (Z.eqb_spec (Z.of_nat (length items)) MAX_SEEDS); [done|].
  destruct (parse_seed _) as [s|] eqn:E; [|done]. cbn [mbind option_bind]. intros [= <-] Hi Hn.
  rewrite Forall_app, length_app. cbn [length]. split; [|lia]. split; [done|].
  constructor; [by eapply parse_seed_ok|done].
Qed.
Lemma seed_lines_sound turns : forall file items items',
  seed_lines turns file items = Some items' -> Forall seed_ok items -> Z.of_nat (length items) <= MAX_SEEDS ->
  Forall seed_ok items' /\ Z.of_nat (length items') <= MAX_SEEDS.
Proof.
  induction turns as [|turns IH]; intros file items items'; cbn [seed_lines];
    destruct (fgets _ file) as [[line rest] eof]; (destruct (_ =? 0); [by intros [= <-]|]); [done|].
  destruct (seed_line line eof items) as [items1|] eqn:E; [|done]. cbn [mbind option_bind].
  intros H Hi Hn. destruct (seed_line_sound _ _ _ _ E Hi Hn) as [H1 H2]. by eapply IH.
Qed.

Lemma read_sound path allocated items :
  cdi_module_seeds_read path allocated = Some items -> Forall seed_ok items.
Proof.
  unfold cdi_module_seeds_read. destruct path as [[file|]|]; [|done|by intros [= <-]].
  destruct allocated; [|done]. intros H. by eapply seed_lines_sound in H as [? _].
Qed.

(** ** The loop over lines *)
Lemma fgets_length room : forall file line rest eof,
  fgets room file = (line, rest, eof) -> (length line + length rest = length file)%nat.
Proof.
  induction room as [|room IH]; intros file line rest eof; cbn [fgets]; [by intros [= <- <- <-]|].
  destruct file as [|c file]; [by intros [= <- <- <-]|]. destruct (c =? 0x0A); [by intros [= <- <- <-]|].
  destruct (fgets room file) as [[line' rest'] eof'] eqn:E. intros [= <- <- <-]. apply IH in E. cbn [length]. lia.
Qed.
Lemma seed_lines_enough turns : forall turns' file items,
  (length file <= turns)%nat -> (length file <= turns')%nat ->
  seed_lines turns file items = seed_lines turns' file items.
Proof.
  assert (forall turns file items, (length file = 0)%nat -> seed_lines turns file items = Some items) as H0.
  { intros n [|] items H; [|done]. by destruct n. }
  induction turns as [|turns IH]; intros turns' file items H1 H2; [by rewrite !H0 by lia|].
  destruct turns' as [|turns']; [by rewrite !H0 by lia|]. cbn [seed_lines].
  destruct (fgets _ file) as [[line rest] eof] eqn:E. apply fgets_length in E.
  destruct (Z.eqb_spec (Z.of_nat (length line)) 0); [done|].
  destruct (seed_line line eof items) as [items1|]; [|done]. cbn [mbind option_bind]. apply IH; lia.
Qed.

(** C39. Seed files round trip. A file of lines, each a seed written as the 64
    digits of its image's digest, a space and its offset in hexadecimal, or a
    blank line or a comment that fits the line buffer, reads back as exactly its
    seeds in order, unmatched, as long as there are no more of them than the
    table holds. And whatever a file's bytes are, the seeds it is accepted with
    have digests of 32 bytes and even offsets of 32 bits, and fit the table; a
    file is never refused for want of turns of the loop over its lines. *)
Theorem seed_file_roundtrip :
  (forall ls, Forall line_ok ls -> Z.of_nat (length (file_seeds ls)) <= MAX_SEEDS ->
     cdi_module_seeds_read (Some (Some (render_file ls))) true = Some (file_seeds ls)) /\
  (forall file items, cdi_module_seeds_read (Some (Some file)) true = Some items ->
     Forall seed_ok items /\ Z.of_nat (length items) <= MAX_SEEDS) /\
  (forall file turns, (length file <= turns)%nat ->
     seed_lines turns file [] = cdi_module_seeds_read (Some (Some file)) true).
Proof.
  split; [|split; [|intros file turns Ht; by apply seed_lines_enough]].
  - intros ls Hls Hn. cbn [cdi_module_seeds_read]. rewrite seed_lines_ok; [done|done|done|].
    unfold render_file. clear. induction ls as [|l ls IH]; cbn [flat_map length]; [lia|].
    rewrite length_app. unfold render_line at 1. rewrite length_app. cbn [length]. lia.
  - intros file items H. eapply seed_lines_sound; [exact H|done|]. unfold MAX_SEEDS. cbn. lia.
Qed.

(** ** A file with a comment, a blank line and a seed *)
Definition sample_lines : list Line :=
  [NoteLine [0x23; 0x41]; NoteLine [0x20]; SeedLine (mkSeed (replicate 32 0xA5) 0x1234 false)].
Lemma seed_file_roundtrip_witness :
  cdi_module_seeds_read (Some (Some (render_file sample_lines))) true = Some [mkSeed (replicate 32 0xA5) 0x1234 false].
Proof.
  refine (proj1 seed_file_roundtrip sample_lines _ _); [|vm_compute; discriminate].
  constructor; [|constructor; [|constructor; [|constructor]]].
  - split; [vm_compute; reflexivity|]. split; [|reflexivity]. repeat constructor; discriminate.
  - split; [vm_compute; reflexivity|]. split; [|reflexivity]. repeat constructor; discriminate.
  - split; [reflexivity|]. split; [apply Forall_replicate; unfold is_word; cbn; lia|].
    split; [unfold is_word; cbn; lia|]. split; reflexivity.
Defined.

(** * Merging *)

(** A seed after a merge under [digest]: marked when the digest is its own. *)
Definition merged_seed (digest : list Z) (s s' : CdiModuleSeed) : Prop :=
  sha256 s' = sha256 s /\ offset s' = offset s /\
  matched s' = matched s || bool_decide (sha256 s = digest).

Lemma present_in es o : present es o = true <-> o ∈ es.
Proof.
  unfold present. rewrite existsb_exists. split.
  - intros (x & Hx & E). apply Z.eqb_eq in E as <-. by apply list_elem_of_In.
  - intros H. exists o. split; [by apply list_elem_of_In|apply Z.eqb_refl].
Qed.

Section Merge.
Context (digest : list Z) (metadata_end code_end capacity : Z).
Definition merges (seeds : CdiModuleSeeds) (es : list Z) (seeds' : CdiModuleSeeds) (es' : list Z) : Prop :=
  Forall2 (merged_seed digest) seeds seeds' /\
  (forall s, s ∈ seeds -> sha256 s = digest -> offset s ∈ es') /\
  (exists more, es' = es ++ more /\
     Forall (fun x => Z.land x 1 = 0 /\ metadata_end <= x < code_end) more) /\
  (Z.of_nat (length es) <= capacity -> Z.of_nat (length es') <= capacity).

Lemma merge_cons s s' es1 seeds es more seeds' es' :
  merged_seed digest s s' -> es1 = es ++ more ->
  Forall (fun x => Z.land x 1 = 0 /\ metadata_end <= x < code_end) more ->
  (Z.of_nat (length es) <= capacity -> Z.of_nat (length es1) <= capacity) ->
  (sha256 s = digest -> offset s ∈ es1) ->
  merges seeds es1 seeds' es' -> merges (s :: seeds) es (s' :: seeds') es'.
Proof.
  intros Hs -> Hm Hc Ho (H1 & H2 & (m & -> & H3) & H4). split; [by constructor|]. split; [|split].
  - intros x Hx Hd. apply elem_of_cons in Hx as [->|Hx]; [|by apply H2].
    apply elem_of_app. left. by apply Ho.
  - exists (more ++ m). rewrite app_assoc. split; [done|]. by apply Forall_app.
  - intros H. apply H4, Hc, H.
Qed.

Lemma merge_seeds_ok seeds : forall es seeds' es',
  merge_seeds seeds digest metadata_end code_end es capacity = Some (seeds', es') -> merges seeds es seeds' es'.
Proof.
  induction seeds as [|s seeds IH]; intros es seeds' es'; cbn [merge_seeds].
  { intros [= <- <-]. split; [constructor|]. split; [by intros s Hs; apply elem_of_nil in Hs|].
    split; [|done]. exists []. by rewrite app_nil_r. }
  destruct (bool_decide_reflect (sha256 s = digest)) as [Hd|Hd]; cbn [negb].
  - destruct (bad_offset s _ _) eqn:Hb; [done|]. unfold bad_offset in Hb.
    rewrite !orb_false_iff, Z.ltb_ge, Z.leb_gt in Hb. destruct Hb as [[H1 H2] H3].
    apply negb_false_iff, Z.eqb_eq in H3.
    assert (merged_seed digest s (matched_seed s)) as Hms.
    { split; [done|]. split; [done|]. cbn. by rewrite bool_decide_true, orb_true_r by done. }
    destruct (present es (offset s)) eqn:Hp; [|destruct (Z.eqb_spec (Z.of_nat (length es)) capacity); [done|]];
      cbn [mbind option_bind]; (destruct (merge_seeds seeds _ _ _ _ _) as [[seeds1 es1]|] eqn:E; [|done]);
      intros [= <- <-]; apply IH in E.
    + apply present_in in Hp. eapply (merge_cons _ _ es _ _ []); [done|by rewrite app_nil_r|done|done|done|done].
    + eapply (merge_cons _ _ (es ++ [offset s]) _ _ [offset s]); [done|done| | | |done].
      * by repeat constructor.
      * rewrite length_app. cbn [length]. lia.
      * intros _. apply elem_of_app. right. by constructor.
  - destruct (merge_seeds seeds _ _ _ _ _) as [[seeds1 es1]|] eqn:E; [|done]. intros [= <- <-]. apply IH in E.
    eapply (merge_cons _ _ es _ _ []); [|by rewrite app_nil_r|done|done|done|done].
    split; [done|]. split; [done|]. by rewrite bool_decide_false, orb_false_r by done.
Qed.

Lemma merge_ok seeds es seeds' es' :
  cdi_module_seeds_merge seeds digest metadata_end code_end es capacity = Some (seeds', es') ->
  merges seeds es seeds' es' /\ Z.of_nat (length es') <= capacity.
Proof.
  unfold cdi_module_seeds_merge. destruct (Z.ltb_spec capacity (Z.of_nat (length es))); [done|].
  intros E. apply merge_seeds_ok in E. split; [done|]. apply E. lia.
Qed.
End Merge.
