(* ===== verification/Emit.v ===== *)
(** The emission of native modules (recompiler/src/module_emit.c): which of the
    modules found on a disc are compiled, under which identity and with which
    entries, and when the catalogue that the runner links is valid.

    The 68000 front end that turns one module into C is a parameter, since its
    source is a git submodule: it is given the image and the entries, and says
    whether it produced code without a diagnostic. The answers of the host's
    file system are a record; the text of the files is not modelled. *)

From Stdlib Require Import ZArith Lia Bool.
From stdpp Require Import base tactics numbers list.
From S2P Require Import Prelude Disc Sha256 Entries Seeds.
Open Scope Z_scope.

Definition MAX_FILES : Z := 2048.
Definition MAX_MODULES : Z := 512.
Definition ENTRIES_MAX : Z := 32768 + 256.
Definition EXPORTS_MAX : Z := 256.
Definition PATH_MAX : Z := 1200.

(** What the host answers. *)
Record Host := mkHost {
  tables_allocated : bool;
  directory_ready : bool;  (* made now, or there already *)
  manifest_opened : bool;
  manifest_closed : bool;
  sources_opened : bool;
  sources_closed : bool;
  seeds_allocated : bool;
  file_allocated : Z -> bool;  (* the buffer of that many bytes *)
}.

(** What the front end is told of a module: its image without the checksum, its
    entries, and the metadata that holds no code. *)
Record Unit_ := mkUnit {
  rom_data : list Z;
  rom_size : Z;
  extra_funcs : list Z;
  protected_end : Z;
  symbol_index : Z;
}.

(** One module of the catalogue. *)
Record Emitted := mkEmitted {
  index : Z;  (* of the module in the scan; names its functions and files *)
  module_digest : list Z;
  unit_ : Unit_;
}.

(** What the loop over the modules carries. *)
Record Emission := mkEmission {
  seeds : CdiModuleSeeds;
  cached : option (Z * list Z);  (* the file read last: its index and its bytes *)
  emitted : list Emitted;
}.

(** Comparison of C strings. *)
Definition same_string (a b : list Z) : bool := bool_decide (c_string a = c_string b).

Definition selected (module_filter : option (list Z)) (m : Os9Module) : bool :=
  (module_lang m =? 1) && ((module_type m =? 1) || (module_type m =? 2)) &&
  match module_filter with None => true | Some name => same_string name (module_string m) end.

Fixpoint find_file (files : list CdiFile) (path : list Z) (j : Z) : option (Z * CdiFile) :=
  match files with
  | [] => None
  | f :: rest => if same_string (file_path f) path then Some (j, f) else find_file rest path (j + 1)
  end.

(** The bytes of file [j], read unless they are the ones read last. *)
Definition file_data (host : Host) (disc : CdiDisc) (j : Z) (file : CdiFile) (e : Emission)
    : option (Emission * list Z) :=
  match cached e with
  | Some (k, bytes) =>
    if k =? j then Some (e, bytes)
    else if negb (file_allocated host (file_size file)) then None
    else bytes ← cdi_read_file_form1 disc file (file_size file);
         Some (mkEmission (seeds e) (Some (j, bytes)) (emitted e), bytes)
  | None =>
    if negb (file_allocated host (file_size file)) then None
    else bytes ← cdi_read_file_form1 disc file (file_size file);
         Some (mkEmission (seeds e) (Some (j, bytes)) (emitted e), bytes)
  end.

Definition duplicate (e : Emission) (digest : list Z) : bool :=
  existsb (fun x => bool_decide (module_digest x = digest)) (emitted e).

(** [%s/cdi_module_%03d_dispatch.c], the longer of the two names. *)
Definition module_path_fits (directory : list Z) : bool := Z.of_nat (length directory) + 26 <? PATH_MAX.

Section Emit.
Context (generate : Unit_ -> bool) (host : Host) (disc : CdiDisc) (files : list CdiFile)
  (directory : list Z) (module_filter : option (list Z)) (named_offset_pairs : bool).

(** The body of the loop for a module that is selected and intact. *)
Definition emit_module (i : Z) (m : FoundModule) (e : Emission) : Outcome Emission :=
  let size := module_size (found_module m) in
  match find_file files (found_path m) 0 with
  | None => Refused
  | Some (j, file) =>
    if (file_size file <? found_offset m) || (file_size file - found_offset m <? size) || (size <? 0x38)
    then Refused
    else
      match file_data host disc j file e with
      | None => Refused
      | Some (e, bytes) =>
        let data := drop (Z.to_nat (found_offset m)) bytes in
        let image := take (Z.to_nat size) data in
        let digest := cdi_sha256 image in
        if duplicate e digest then Done e
        else
          '(entries, metadata_end) ←
            cdi_module_entries data size (module_type (found_module m)) named_offset_pairs EXPORTS_MAX;
          match cdi_module_seeds_merge (seeds e) digest metadata_end (size - 3) entries ENTRIES_MAX with
          | None => Refused
          | Some (seeds, entries) =>
            let unit_ := mkUnit (take (Z.to_nat (size - 3)) data) (size - 3) entries metadata_end i in
            if negb (module_path_fits directory) || negb (generate unit_) then Refused
            else Done (mkEmission seeds (cached e) (emitted e ++ [mkEmitted i digest unit_]))
          end
      end
  end.

Definition emit_one (i : Z) (m : FoundModule) (e : Emission) : Outcome Emission :=
  if negb (selected module_filter (found_module m)) then Done e
  else if negb (crc_ok (found_module m)) then Refused
  else emit_module i m e.

Fixpoint emit_loop (i : Z) (modules : list FoundModule) (e : Emission) : Outcome Emission :=
  match modules with
  | [] => Done e
  | m :: rest => e ← emit_one i m e; emit_loop (i + 1) rest e
  end.
End Emit.

(** The catalogue, when the manifest ends without an [#error]. *)
Definition cdi_emit_modules (generate : Unit_ -> bool) (host : Host) (disc : CdiDisc)
    (modules : list FoundModule) (directory : list Z) (module_filter : option (list Z))
    (named_offset_pairs : bool) (seed_path : option (option (list Z))) : Outcome (list Emitted) :=
  if MAX_MODULES <? Z.of_nat (length modules) then Refused
  else
    match cdi_module_seeds_read seed_path (seeds_allocated host) with
    | None => Refused
    | Some seeds =>
      if negb (tables_allocated host) then Refused
      else
        match cdi_list_files disc with
        | None => Refused
        | Some files =>
          if (MAX_FILES <? Z.of_nat (length files)) || negb (directory_ready host)
             || (PATH_MAX <=? Z.of_nat (length directory) + 18) || negb (manifest_opened host)
          then Refused
          else
            e ← emit_loop generate host disc files directory module_filter named_offset_pairs 0 modules
                  (mkEmission seeds None []);
            let unmatched := match module_filter with
                             | None => existsb (fun s => negb (matched s)) (Emit.seeds e)
                             | Some _ => false end in
            if unmatched || (Z.of_nat (length (emitted e)) =? 0) || negb (manifest_closed host)
               || (PATH_MAX <=? Z.of_nat (length directory) + 21) || negb (sources_opened host)
               || negb (sources_closed host)
            then Refused
            else Done (emitted e)
        end
    end.
