(* ===== verification/EmitSpec.v ===== *)
(** What the emission of modules promises: a catalogue that ends without an
    error holds only intact modules of the disc under their own digests, every
    module it was asked for, and every seed. *)

From Stdlib Require Import ZArith Lia Bool.
From stdpp Require Import base tactics numbers list.
From S2P Require Import Prelude Disc DiscSpec Sha256 Entries EntriesSpec Seeds SeedsSpec Emit.
Open Scope Z_scope.

(** * Files of the disc *)
Definition file_holds (d : CdiDisc) (file : CdiFile) (bytes : list Z) : Prop :=
  cdi_read_file_form1 d file (file_size file) = Some bytes.

Lemma file_bytes_u8 body count bytes :
  Forall is_u8 body -> file_bytes body count = Some bytes -> Forall is_u8 bytes.
Proof.
  intros Hb. unfold file_bytes. destruct (_ =? 1); [intros [= <-]; by apply slice_u8|].
  destruct (_ && _); [|done]. destruct (z2b _); intros [= <-]; [|by apply slice_u8].
  apply Forall_replicate. word.
Qed.
Lemma read_sectors_u8 d n : forall lba size bytes,
  disc_ok d -> read_file_sectors d n lba size = Some bytes -> Forall is_u8 bytes.
Proof.
  induction n as [|n IH]; intros lba size bytes Hd; cbn [read_file_sectors];
    (destruct (_ <=? 0); [by intros [= <-]|]); [done|].
  destruct (cdi_read_sector_body d (u32 lba)) as [body|] eqn:Eb; [|done].
  destruct (file_bytes body _) as [some|] eqn:Ef; [|done].
  destruct (read_file_sectors d n _ _) as [rest|] eqn:Er; [|done]. intros [= <-].
  apply Forall_app. split; [|by eapply IH]. eapply file_bytes_u8; [|exact Ef].
  unfold cdi_read_sector_body in Eb. destruct (_ <=? _); [done|]. by apply Hd in Eb as [_ Hb].
Qed.

Lemma file_holds_ok d file bytes :
  disc_ok d -> file_ok d file -> file_holds d file bytes ->
  Z.of_nat (length bytes) = file_size file /\ Forall is_u8 bytes.
Proof.
  intros Hd (Hl & Hs & Hv & _) H. unfold file_holds, cdi_read_file_form1 in H. rewrite Hv, Z.ltb_irrefl in H.
  cbn [orb negb] in H. split; [|by eapply read_sectors_u8]. unfold is_word in Hl, Hs.
  destruct (valid_extent_sectors _ _ _ Hv) as [[_ Hx]|]; [|lia].
  destruct (Z.eq_dec (file_size file) 0) as [E|Hne].
  - rewrite E in *. change (sectors_of 0) with 0%nat in H. cbn in H. by injection H as <-.
  - pose proof (read_file_sectors_spec d _ (file_lba file) (file_size file) Hd ltac:(lia) ltac:(lia) eq_refl Hx) as Hr.
    rewrite H in Hr. destruct Hr as [-> _]. lia.
Qed.

(** ** Files by their names *)
Definition plain (s : list Z) : Prop := Forall (fun c => c <> 0) s.
Lemma same_string_plain a b : plain a -> plain b -> same_string a b = true <-> a = b.
Proof. intros Ha Hb. unfold same_string. rewrite !c_string_id by done. apply bool_decide_eq_true. Qed.
Lemma file_plain d file : file_ok d file -> plain (file_path file).
Proof. intros (_ & _ & _ & [Hp _] & _). eapply Forall_impl; [exact Hp|]. by intros c (_ & Hc & _). Qed.

Lemma find_file_found files path : forall k j file,
  Forall (fun f => plain (file_path f)) files -> plain path -> 0 <= k ->
  find_file files path k = Some (j, file) ->
  k <= j /\ files !! Z.to_nat (j - k) = Some file /\ file_path file = path.
Proof.
  induction files as [|f files IH]; intros k j file Hf Hp Hk; cbn [find_file]; [done|].
  apply Forall_cons in Hf as [Hf Hfs]. destruct (same_string _ _) eqn:E.
  - intros [= <- <-]. apply same_string_plain in E; [|done..]. rewrite Z.sub_diag. split; [lia|]. by split.
  - intros H. apply IH in H as (H1 & H2 & H3); [|done|done|lia]. split; [lia|]. split; [|done].
    by replace (Z.to_nat (j - k)) with (S (Z.to_nat (j - (k + 1)))) by lia.
Qed.

(** * Modules of the disc *)

(** The bytes of a module that was found: of the file it was found in. *)
Definition image_on (d : CdiDisc) (files : list CdiFile) (m : FoundModule) (image : list Z) : Prop :=
  exists file bytes, file ∈ files /\ file_path file = found_path m /\ file_holds d file bytes /\
    found_offset m + module_size (found_module m) <= Z.of_nat (length bytes) /\
    image = slice (found_offset m) (module_size (found_module m)) bytes.
Definition crc_says (m : FoundModule) (image : list Z) : Prop :=
  crc_ok (found_module m) = (os9_module_crc24 image =? OS9_MODULE_CRC_RESIDUE).
Definition scanned (d : CdiDisc) (files : list CdiFile) (m : FoundModule) : Prop :=
  0 <= found_offset m /\ 0 < module_size (found_module m) < 2 ^ 32 /\
  exists image, image_on d files m image /\ crc_says m image.

Lemma place_scanned d files file bytes r :
  file ∈ files -> file_ok d file -> file_holds d file bytes -> Z.of_nat (length bytes) = file_size file ->
  r ∈ os9_scan_buffer bytes (file_size file) -> scanned d files (place_module file r).
Proof.
  intros Hin (_ & Hs & _) Hb Hl Hr. apply scan_from_spec in Hr as (k & _ & E).
  rewrite Z.add_0_l in E. apply module_at_sound in E as (Ho & Hsz & Hend & _ & _ & _ & Hc); [|lia].
  unfold is_word in Hs. unfold OS9_MODULE_HDR_SIZE in Hsz.
  assert (found_offset (place_module file r) = logical_offset r) as Eo.
  { cbn [found_offset place_module]. apply u32_id. unfold is_word. lia. }
  unfold scanned. rewrite Eo. cbn [found_module place_module module_size]. split; [lia|]. split; [lia|].
  exists (slice (logical_offset r) (module_size r) bytes). split.
  - exists file, bytes. rewrite Eo. cbn [found_path place_module found_module module_size].
    do 3 (split; [done|]). split; [lia|done].
  - unfold crc_says. cbn [found_module place_module crc_ok]. by rewrite Ho.
Qed.

Lemma scan_files_scanned d all files : forall ms,
  disc_ok d -> Forall (file_ok d) files -> files ⊆ all -> scan_files d files = Some ms ->
  Forall (scanned d all) ms.
Proof.
  induction files as [|file files IH]; intros ms Hd Hf Hsub; cbn [scan_files]; [by intros [= <-]|].
  apply Forall_cons in Hf as [Hf Hfs]. assert (files ⊆ all) as Hsub' by (intros x Hx; apply Hsub; by right).
  destruct (file_size file =? 0); [by apply IH|].
  destruct (cdi_read_file_form1 _ _ _) as [bytes|] eqn:Eb; [|done].
  destruct (scan_files d files) as [rest|] eqn:Er; [|done]. intros [= <-]. apply Forall_app.
  split; [|by apply IH]. apply Forall_map, Forall_forall. intros r Hr.
  destruct (file_holds_ok d file bytes Hd Hf Eb) as [Hl _].
  eapply place_scanned; [apply Hsub; by left|done|exact Eb|done|done].
Qed.

(** * The loop over the modules *)
Section Emission.
Context (generate : Unit_ -> bool) (host : Host) (disc : CdiDisc) (files : list CdiFile)
  (directory : list Z) (module_filter : option (list Z)) (named_offset_pairs : bool)
  (seeds0 : CdiModuleSeeds).
Context (Hdisc : disc_ok disc) (Hfiles : Forall (file_ok disc) files) (Hnames : NoDup (map file_path files)).

Abbreviation image_of := (image_on disc files).

Lemma same_file file file' :
  file ∈ files -> file' ∈ files -> file_path file = file_path file' -> file = file'.
Proof.
  intros H1 H2 E. apply list_elem_of_lookup in H1 as [i Hi], H2 as [j Hj].
  pose proof (f_equal (fmap file_path) Hi) as Ei. pose proof (f_equal (fmap file_path) Hj) as Ej.
  assert (i = j) as ->; [|congruence]. eapply NoDup_lookup; [exact Hnames| |].
  - by rewrite list_lookup_fmap, Hi.
  - by rewrite list_lookup_fmap, Hj, E.
Qed.
Lemma image_unique m image image' : image_of m image -> image_of m image' -> image = image'.
Proof.
  intros (f & bs & H1 & H2 & H3 & _ & ->) (f' & bs' & H1' & H2' & H3' & _ & ->).
  assert (f = f') as <- by (apply same_file; congruence). unfold file_holds in *. congruence.
Qed.

(** What holds of a module of the catalogue. *)
Definition emitted_ok (done : list FoundModule) (x : Emitted) : Prop :=
  exists m image, 0 <= index x /\ done !! Z.to_nat (index x) = Some m /\
    selected module_filter (found_module m) = true /\
    image_of m image /\ os9_module_crc24 image = OS9_MODULE_CRC_RESIDUE /\
    module_digest x = cdi_sha256 image /\
    symbol_index (unit_ x) = index x /\ rom_size (unit_ x) = Z.of_nat (length image) - 3 /\
    rom_data (unit_ x) = take (length image - 3) image /\
    entries_ok (Z.of_nat (length image)) (extra_funcs (unit_ x)) (protected_end (unit_ x)) /\
    Z.of_nat (length (extra_funcs (unit_ x))) <= ENTRIES_MAX /\
    generate (unit_ x) = true.
Definition has_digest (out : list Emitted) (digest : list Z) : Prop := digest ∈ map module_digest out.
Definition covered (out : list Emitted) (m : FoundModule) : Prop :=
  selected module_filter (found_module m) = true ->
  exists image, image_of m image /\ has_digest out (cdi_sha256 image).
Definition seeds_used (out : list Emitted) : Prop :=
  forall x s, x ∈ out -> s ∈ seeds0 -> sha256 s = module_digest x -> offset s ∈ extra_funcs (unit_ x).
Definition seed_marks (out : list Emitted) (s s' : CdiModuleSeed) : Prop :=
  sha256 s' = sha256 s /\ offset s' = offset s /\ (matched s' = true -> has_digest out (sha256 s)).
Definition cache_ok (e : Emission) : Prop :=
  forall j bytes, cached e = Some (j, bytes) ->
    0 <= j /\ exists file, files !! Z.to_nat j = Some file /\ file_holds disc file bytes.

Record loop_ok (past : list FoundModule) (e : Emission) : Prop := {
  loop_cache : cache_ok e;
  loop_distinct : NoDup (map module_digest (emitted e));
  loop_emitted : Forall (emitted_ok past) (emitted e);
  loop_covered : Forall (covered (emitted e)) past;
  loop_used : seeds_used (emitted e);
  loop_marks : Forall2 (seed_marks (emitted e)) seeds0 (seeds e);
  loop_count : (length (emitted e) <= length past)%nat;
}.

Lemma emitted_ok_more past m x : emitted_ok past x -> emitted_ok (past ++ [m]) x.
Proof.
  intros (m0 & image & H0 & H1 & H). exists m0, image. split; [done|]. split; [|exact H].
  by apply lookup_app_l_Some.
Qed.
Lemma has_digest_more out x digest : has_digest out digest -> has_digest (out ++ [x]) digest.
Proof. unfold has_digest. rewrite map_app, elem_of_app. by left. Qed.
Lemma covered_more out x m : covered out m -> covered (out ++ [x]) m.
Proof. intros H Hs. destruct (H Hs) as (image & H1 & H2). exists image. split; [done|by apply has_digest_more]. Qed.

(** A module that adds nothing to the catalogue. *)
Lemma loop_skip past m e c :
  loop_ok past e -> covered (emitted e) m -> cache_ok (mkEmission (seeds e) c (emitted e)) ->
  loop_ok (past ++ [m]) (mkEmission (seeds e) c (emitted e)).
Proof.
  intros [H1 H2 H3 H4 H5 H6 H7] Hm Hc. split; cbn [cached emitted seeds]; try done.
  - eapply Forall_impl; [exact H3|]. intros x. apply emitted_ok_more.
  - apply Forall_app. split; [done|]. by constructor.
  - rewrite length_app. lia.
Qed.

Lemma emission_eta e : mkEmission (seeds e) (cached e) (emitted e) = e.
Proof. by destruct e. Qed.

Lemma duplicate_has e digest : duplicate e digest = true <-> has_digest (emitted e) digest.
Proof.
  unfold duplicate, has_digest. rewrite existsb_exists, list_elem_of_fmap. split.
  - intros (x & Hx & E). apply bool_decide_eq_true in E. exists x. split; [done|]. by apply list_elem_of_In.
  - intros (x & -> & Hx). exists x. split; [by apply list_elem_of_In|]. by apply bool_decide_eq_true.
Qed.

Lemma file_data_ok j file e e' bytes :
  0 <= j -> files !! Z.to_nat j = Some file -> cache_ok e ->
  file_data host disc j file e = Some (e', bytes) ->
  file_holds disc file bytes /\ cache_ok e' /\ exists c, e' = mkEmission (seeds e) c (emitted e).
Proof.
  intros Hj Hf Hc. assert (forall bytes', file_holds disc file bytes' ->
    cache_ok (mkEmission (seeds e) (Some (j, bytes')) (emitted e))) as Hnew.
  { intros b Hb k b' [= <- <-]. split; [done|]. by exists file. }
  unfold file_data. destruct (cached e) as [[k b]|] eqn:Ec; [destruct (Z.eqb_spec k j) as [->|]|].
  - intros [= <- <-]. destruct (Hc _ _ Ec) as (_ & f & Hf' & Hb).
    assert (f = file) as -> by congruence. split; [done|]. split; [done|]. exists (Some (j, b)).
    by rewrite <- Ec, emission_eta.
  - destruct (negb _); [done|]. destruct (cdi_read_file_form1 _ _ _) as [b'|] eqn:Eb; [|done].
    cbn [mbind option_bind]. intros [= <- <-]. split; [done|]. split; [by apply Hnew|]. by eexists.
  - destruct (negb _); [done|]. destruct (cdi_read_file_form1 _ _ _) as [b'|] eqn:Eb; [|done].
    cbn [mbind option_bind]. intros [= <- <-]. split; [done|]. split; [by apply Hnew|]. by eexists.
Qed.

Lemma marks_grow out x ss ss1 : forall ss2,
  Forall2 (seed_marks out) ss ss1 -> Forall2 (merged_seed (module_digest x)) ss1 ss2 ->
  Forall2 (seed_marks (out ++ [x])) ss ss2.
Proof.
  intros ss2 Hm. revert ss2. induction Hm as [|s s1 ss ss1 (E1 & E2 & E3) _ IH]; intros ss2 H2;
    inversion_clear H2 as [|? s2 ? ss2' (F1 & F2 & F3) H2']; constructor; [|by apply IH].
  split; [congruence|]. split; [congruence|]. rewrite F3. intros Hor. apply orb_true_iff in Hor as [Hor|Hor].
  - by apply has_digest_more, E3.
  - apply bool_decide_eq_true in Hor. unfold has_digest. rewrite map_app, elem_of_app. right.
    cbn [map]. rewrite <- E1, Hor. by constructor.
Qed.

(** The seeds of a catalogue with one module more. *)
Lemma seeds_grow out x seeds1 seeds2 metadata_end code_end es :
  seeds_used out -> Forall2 (seed_marks out) seeds0 seeds1 ->
  merges (module_digest x) metadata_end code_end ENTRIES_MAX seeds1 es seeds2 (extra_funcs (unit_ x)) ->
  seeds_used (out ++ [x]) /\ Forall2 (seed_marks (out ++ [x])) seeds0 seeds2.
Proof.
  intros Hu Hm (H2 & Hin & _ & _). split.
  - intros y s Hy Hs E. apply elem_of_app in Hy as [Hy|Hy]; [by apply Hu|].
    apply list_elem_of_singleton in Hy as ->. apply list_elem_of_lookup in Hs as [i Hi].
    destruct (Forall2_lookup_l _ _ _ _ _ Hm Hi) as (s1 & Hi1 & E1 & E2 & _). rewrite <- E2.
    apply Hin; [by eapply list_elem_of_lookup_2|congruence].
  - by eapply marks_grow.
Qed.

Lemma merged_entries digest size metadata_end seeds1 es seeds2 es' :
  entries_ok size es metadata_end ->
  merges digest metadata_end (size - 3) ENTRIES_MAX seeds1 es seeds2 es' -> entries_ok size es' metadata_end.
Proof.
  intros (H1 & H2 & H3) (_ & _ & (more & -> & Hm) & _). split; [by destruct es|]. split; [done|].
  by apply Forall_app.
Qed.

(** A module added to the catalogue. *)
Lemma loop_add past m image e c x seeds1 es metadata_end :
  loop_ok past e -> cache_ok (mkEmission seeds1 c (emitted e)) ->
  image_of m image -> module_digest x = cdi_sha256 image ->
  duplicate e (module_digest x) = false ->
  merges (module_digest x) metadata_end (Z.of_nat (length image) - 3) ENTRIES_MAX (seeds e) es seeds1
    (extra_funcs (unit_ x)) ->
  emitted_ok (past ++ [m]) x ->
  loop_ok (past ++ [m]) (mkEmission seeds1 c (emitted e ++ [x])).
Proof.
  intros [H1 H2 H3 H4 H5 H6 H7] Hc Hi Hd Hdup Hm Hx.
  destruct (seeds_grow _ _ _ _ _ _ _ H5 H6 Hm) as [H5' H6'].
  split; cbn [cached emitted seeds]; try done.
  - rewrite map_app. apply NoDup_app. split; [done|]. split; [|by apply NoDup_singleton].
    intros d Hd' Hin. apply list_elem_of_singleton in Hin as ->.
    assert (duplicate e (module_digest x) = true) by (by apply duplicate_has). congruence.
  - apply Forall_app. split; [|by constructor]. eapply Forall_impl; [exact H3|]. intros y. apply emitted_ok_more.
  - apply Forall_app. split; [eapply Forall_impl; [exact H4|]; intros y; apply covered_more|].
    constructor; [|done]. intros _. exists image. split; [done|]. rewrite <- Hd. unfold has_digest.
    rewrite map_app, elem_of_app. right. by constructor.
  - rewrite !length_app. cbn [length]. lia.
Qed.

(** ** One module *)
Lemma cut_image (o size : Z) (bytes : list Z) :
  0 <= o -> 0 < size -> o + size <= Z.of_nat (length bytes) ->
  let data := drop (Z.to_nat o) bytes in
  let image := slice o size bytes in
  take (Z.to_nat size) data = image /\ Z.of_nat (length image) = size /\
  size <= Z.of_nat (length data) /\ take (Z.to_nat (size - 3)) data = take (length image - 3) image.
Proof.
  intros Ho Hs Hl data image. assert (length image = Z.to_nat size) as E by (apply length_slice; lia).
  split; [done|]. split; [lia|]. split; [unfold data; rewrite length_drop; lia|].
  rewrite E. unfold image, slice. rewrite take_take. f_equal. lia.
Qed.

Lemma found_file m file image j :
  scanned disc files m -> image_of m image -> find_file files (found_path m) 0 = Some (j, file) ->
  0 <= j /\ files !! Z.to_nat j = Some file /\
  forall bytes, file_holds disc file bytes ->
    image = slice (found_offset m) (module_size (found_module m)) bytes /\
    found_offset m + module_size (found_module m) <= Z.of_nat (length bytes) /\ Forall is_u8 bytes.
Proof.
  intros _ (f & bs & Hin & Hp & Hb & Hl & ->) Hf. pose proof Hfiles as Hfs. rewrite Forall_forall in Hfs.
  apply find_file_found in Hf as (Hj & Hlook & Hpath); [|eapply Forall_impl; [exact Hfiles|]; apply file_plain| |lia].
  2: { rewrite <- Hp. eapply file_plain. by apply Hfs. }
  rewrite Z.sub_0_r in Hlook. split; [done|]. split; [done|]. intros bytes Hbytes.
  assert (f = file) as <- by (apply same_file; [done|by eapply list_elem_of_lookup_2|congruence]).
  assert (bs = bytes) as -> by (unfold file_holds in *; congruence).
  split; [done|]. split; [done|]. by apply (file_holds_ok disc f bytes Hdisc (Hfs f Hin) Hbytes).
Qed.

Lemma emit_one_ok past m e :
  scanned disc files m -> loop_ok past e ->
  match emit_one generate host disc files directory module_filter named_offset_pairs
          (Z.of_nat (length past)) m e with
  | Stray => False
  | Refused => True
  | Done e' => loop_ok (past ++ [m]) e'
  end.
Proof.
  intros Hscan Hloop. unfold emit_one. destruct (selected _ _) eqn:Hsel; cbn [negb].
  2: { rewrite <- (emission_eta e). apply loop_skip; [done|by unfold covered; rewrite Hsel|rewrite emission_eta; apply Hloop]. }
  destruct (crc_ok (found_module m)) eqn:Hcrc; cbn [negb]; [|done].
  pose proof Hscan as (Ho & Hs & image & Hi & Hsays). unfold crc_says in Hsays. rewrite Hcrc in Hsays.
  symmetry in Hsays. apply Z.eqb_eq in Hsays.
  unfold emit_module. destruct (find_file _ _ _) as [[j file]|] eqn:Hfind; [|done].
  destruct (_ || _); [done|]. destruct (found_file _ _ _ _ Hscan Hi Hfind) as (Hj & Hlook & Hbytes).
  destruct (file_data _ _ _ _ _) as [[e1 bytes]|] eqn:Hdata; [|done].
  destruct (file_data_ok _ _ _ _ _ Hj Hlook (loop_cache _ _ Hloop) Hdata) as (Hb & Hc & c & ->).
  destruct (Hbytes bytes Hb) as (Eimage & Hlen & Hu8).
  destruct (cut_image _ _ bytes Ho (proj1 Hs) Hlen) as (Ecut & Elen & Hdl & Erom). rewrite <- Eimage in *.
  rewrite Ecut. set (size := module_size (found_module m)) in *.
  set (data := drop (Z.to_nat (found_offset m)) bytes) in *. cbv zeta.
  destruct (duplicate _ (cdi_sha256 image)) eqn:Hdup.
  { apply loop_skip; [done| |done]. intros _. exists image. split; [done|].
    by apply (duplicate_has (mkEmission (seeds e) c (emitted e))). }
  assert (Forall is_u8 data) as Hdu by (by apply Forall_drop).
  pose proof (entries_safe data size EXPORTS_MAX Hdu ltac:(unfold is_word; lia) Hdl (module_type (found_module m))
    named_offset_pairs) as Hent.
  destruct (cdi_module_entries _ _ _ _ _) as [[es metadata_end]| |]; [|done..]. cbn [mbind outcome_bind].
  destruct Hent as [Hent _]. cbn [seeds].
  destruct (cdi_module_seeds_merge _ _ _ _ _ _) as [[seeds1 es1]|] eqn:Hmerge; [|done].
  apply merge_ok in Hmerge as [Hmerge Hcap]. destruct (_ || _) eqn:Hgen; [done|].
  apply orb_false_iff in Hgen as [_ Hgen]. apply negb_false_iff in Hgen. cbn [cached emitted].
  apply loop_add with (image := image) (es := es) (metadata_end := metadata_end);
    cbn [module_digest unit_ extra_funcs]; [done|exact Hc|done|done|exact Hdup|by rewrite Elen|].
  exists m, image. cbn [index module_digest unit_ symbol_index rom_size rom_data extra_funcs protected_end].
  rewrite Nat2Z.id, list_lookup_middle, Elen by done. split; [lia|]. do 7 (split; [done|]).
  split; [exact Erom|]. split; [|by split]. eapply merged_entries; [exact Hent|exact Hmerge].
Qed.

Lemma emit_loop_ok ms : forall past e,
  Forall (scanned disc files) ms -> loop_ok past e ->
  match emit_loop generate host disc files directory module_filter named_offset_pairs
          (Z.of_nat (length past)) ms e with
  | Stray => False
  | Refused => True
  | Done e' => loop_ok (past ++ ms) e'
  end.
Proof.
  induction ms as [|m ms IH]; intros past e Hms Hl; cbn [emit_loop]; [by rewrite app_nil_r|].
  apply Forall_cons in Hms as [Hm Hms]. pose proof (emit_one_ok past m e Hm Hl) as H1.
  destruct (emit_one _ _ _ _ _ _ _ _ _ _) as [e1| |]; [|done..]. cbn [mbind outcome_bind].
  specialize (IH (past ++ [m]) e1 Hms H1). rewrite length_app, <- app_assoc in IH. cbn [length app] in IH.
  by replace (Z.of_nat (length past) + 1) with (Z.of_nat (length past + 1)) by lia.
Qed.

Lemma loop_start : Forall (fun s => matched s = false) seeds0 -> loop_ok [] (mkEmission seeds0 None []).
Proof.
  intros Hs. split; cbn [cached emitted seeds]; try done.
  - constructor.
  - intros x s Hx. by apply elem_of_nil in Hx.
  - induction Hs as [|s ss Hs _ IH]; constructor; [|exact IH]. split; [done|]. split; [done|]. by rewrite Hs.
Qed.
End Emission.

(** * The catalogue *)

(** Every seed of the file is an entry of the module it names, and without a
    filter every seed names one. *)
Definition seeds_kept (module_filter : option (list Z)) (items : CdiModuleSeeds) (out : list Emitted) : Prop :=
  seeds_used items out /\
  (module_filter = None -> Forall (fun s => has_digest out (sha256 s)) items).

Lemma marks_all out seeds0 seeds1 :
  Forall2 (seed_marks out) seeds0 seeds1 -> existsb (fun s => negb (matched s)) seeds1 = false ->
  Forall (fun s => has_digest out (sha256 s)) seeds0.
Proof.
  induction 1 as [|s s1 ss ss1 (_ & _ & H3) _ IH]; cbn [existsb]; [constructor|].
  intros H. apply orb_false_iff in H as [H1 H2]. constructor; [|by apply IH].
  apply H3. by apply negb_false_iff in H1.
Qed.

(** C11. A catalogue of native modules is sound. On a disc whose files have distinct
    names, whatever the front end, the host, the filter and the seed file answer,
    the emission never reads outside a module's bytes; and when the manifest it
    writes is not poisoned, it lists at least one module and no more than its
    tables hold, no two with the same digest. Each is a module of the disc that
    the filter selects, whose bytes pass the checksum, under the SHA-256 digest
    of those bytes; the front end was given these bytes without their checksum
    and accepted them, with a non-empty list of entries within the room for it,
    all even, past the module's metadata and inside its code. Every selected
    module of the disc is there, under the digest of its bytes; every seed that
    names a listed module is among its entries, and without a filter every seed
    names one. *)
Theorem catalogue_sound generate host disc files modules directory module_filter named_offset_pairs seed_path :
  disc_ok disc -> cdi_list_files disc = Some files -> NoDup (map file_path files) ->
  cdi_scan_os9_modules disc = Some modules ->
  match cdi_emit_modules generate host disc modules directory module_filter named_offset_pairs seed_path with
  | Stray => False
  | Refused => True
  | Done out =>
    0 < Z.of_nat (length out) <= MAX_MODULES /\ NoDup (map module_digest out) /\
    Forall (emitted_ok generate disc files module_filter modules) out /\
    Forall (covered disc files module_filter out) modules /\
    exists items, cdi_module_seeds_read seed_path (seeds_allocated host) = Some items /\
      seeds_kept module_filter items out
  end.
Proof.
  intros Hd Hl Hn Hs. pose proof (listed_ok _ _ Hd Hl) as Hfiles.
  unfold cdi_scan_os9_modules in Hs. rewrite Hl in Hs.
  pose proof (scan_files_scanned disc files files modules Hd Hfiles ltac:(done) Hs) as Hscan.
  unfold cdi_emit_modules. destruct (Z.ltb_spec MAX_MODULES (Z.of_nat (length modules))); [done|].
  destruct (cdi_module_seeds_read _ _) as [items|] eqn:Hr; [|done]. destruct (negb _); [done|]. rewrite Hl.
  destruct (_ || _); [done|]. pose proof (read_sound _ _ _ Hr) as Hitems.
  pose proof (emit_loop_ok generate host disc files directory module_filter named_offset_pairs items Hd Hfiles Hn
    modules [] (mkEmission items None []) Hscan) as Hloop.
  change (Z.of_nat (length [])) with 0 in Hloop.
  destruct (emit_loop _ _ _ _ _ _ _ _ _ _) as [e| |]; cbn [mbind outcome_bind].
  - destruct Hloop as [_ H2 H3 H4 H5 H6 H7].
    { apply loop_start. eapply Forall_impl; [exact Hitems|]. by intros s (_ & _ & _ & _ & Hm). }
    destruct (_ || _) eqn:Hb; [done|]. rewrite !orb_false_iff, Z.eqb_neq in Hb.
    destruct Hb as [[[[[Hun Hne] _] _] _] _]. cbn [app] in *. split; [lia|]. do 3 (split; [done|]).
    exists items. split; [done|]. split; [done|]. intros ->. by eapply marks_all.
  - done.
  - apply Hloop, loop_start. eapply Forall_impl; [exact Hitems|]. by intros s (_ & _ & _ & _ & Hm).
Qed.

(** ** A disc with one program on it *)
Definition parity_word (h : list Z) : Z :=
  fold_left (fun x o => Z.lxor x (be16 h (2 * Z.of_nat o))) (seq 0 23) 0xFFFF.
Definition program_head : list Z :=
  [0x4A; 0xFC; 0; 0; 0; 0; 0; 0x51; 0; 0; 0; 0; 0; 0; 0; 0x4C; 0; 0; 1; 1] ++ replicate 26 0.
Definition program_body : list Z :=
  program_head ++ [Z.shiftr (parity_word program_head) 8; u8 (parity_word program_head)] ++
  [0; 0; 0; 0x48] ++ replicate 20 0 ++ [0x4E; 0x71; 0x4E; 0x75; 0x74; 0].
Definition program : list Z := program_body ++ CrcSpec.crc_footer (os9_module_crc24 program_body).
Definition program_root : list Z :=
  put_bytes blank_sector 4 ([34; 0; 0; 0; 0; 0; 0; 0; 0; 18; 0; 0; 0; 0; 0; 0; 0; 0x51] ++ replicate 14 0 ++ [1; 0x41]).
Definition program_disc : CdiDisc :=
  mkDisc (fun lba => if lba =? 16 then Some sample_descriptor else if lba =? 17 then Some program_root
                     else if lba =? 18 then Some (put_bytes blank_sector 4 program) else None) 19.
Definition willing_host : Host := mkHost true true true true true true true (fun _ => true).
Definition program_seeds : list Z := render_file [SeedLine (mkSeed (cdi_sha256 program) 0x4A false)].

Lemma program_disc_ok : disc_ok program_disc.
Proof. apply small_disc_ok. vm_compute. reflexivity. Qed.

Definition program_modules : list FoundModule :=
  Eval vm_compute in match cdi_scan_os9_modules program_disc with Some ms => ms | None => [] end.

Lemma catalogue_sound_witness :
  exists out, cdi_emit_modules (fun _ => true) willing_host program_disc program_modules [0x6F] None false
      (Some (Some program_seeds)) = Done out /\
    map (fun x => extra_funcs (unit_ x)) out = [[0x48; 0x4A]] /\
    Forall (emitted_ok (fun _ => true) program_disc [mkFile [0x41] 18 0x51] None program_modules) out.
Proof.
  assert (cdi_list_files program_disc = Some [mkFile [0x41] 18 0x51]) as El by (vm_compute; reflexivity).
  assert (cdi_scan_os9_modules program_disc = Some program_modules) as Es by (vm_compute; reflexivity).
  assert (NoDup (map file_path [mkFile [0x41] 18 0x51])) as Hn by (apply NoDup_singleton).
  pose proof (catalogue_sound (fun _ => true) willing_host program_disc _ program_modules [0x6F] None false
    (Some (Some program_seeds)) program_disc_ok El Hn Es) as H.
  assert (match cdi_emit_modules (fun _ => true) willing_host program_disc program_modules [0x6F] None false
            (Some (Some program_seeds)) with
          | Done out => map (fun x => extra_funcs (unit_ x)) out = [[0x48; 0x4A]] | _ => False end) as E
    by (vm_compute; reflexivity).
  destruct (cdi_emit_modules _ _ _ _ _ _ _ _) as [out| |].
  - exists out. split; [reflexivity|]. split; [exact E|]. apply H.
  - destruct E.
  - destruct E.
Defined.
